(* ===== verification/_CoqProject ===== *)
-Q . S2P
Prelude.v
Bytes.v
Slices.v
SortKeys.v
Cursor.v
Wp.v
RestartWindow.v
MountEvidence.v
KernelTime.v
KernelDigest.v
Tlv.v
ApplyContracts.v
ApplyWire.v
Signatures.v
TenureProtocol.v
TenureModel.v
TenureHistory.v
TenureCodec.v
TenureStore.v
TenureAuthority.v
TenureSystem.v
TenureInit.v
Assignment.v
AssignmentWire.v
MailboxModel.v
MailboxInv.v
MailboxOffer.v
MailboxSteps.v
Mailbox.v
DispatchPermits.v
DispatchModel.v
DispatchInv.v
Dispatch.v
ExecutorBudget.v
ApplyState.v
ApplyControl.v
ApplyRefinement.v
Admission.v
CardInstance.v
HostWatchdog.v
Liveness.v
ServiceManager.v
ServiceManagerProps.v
RuntimeOwnership.v
Recovery.v
RecoveryInv.v
RecoveryProps.v
RecoveryDigest.v
RecoverySettle.v
PortBinding.v
ExecutionPlan.v
LoopDomain.v
LoopDomainInv.v
LoopDomainProps.v
PlanInstall.v
