(* ===== verification/Prelude.v ===== *)
(** * ParaEGOX: verification of the runtime core and the tenure authority

    ParaEGOX is a Rust workspace.  A deployment controller acquires a writer
    tenure from an authority that numbers tenures with ever higher epochs, and
    sends each RuntimeHost a target slice under that tenure; the RuntimeHost
    authenticates and admits the request, fences older writers and activates
    slices (apply control), and runs the assigned Cards: messages wait in
    bounded mailboxes, a dispatcher picks the next mailbox and a domain permit,
    threads come out of a fixed executor budget, and each Card instance is
    driven through a lifecycle whose invocations are fenced by generation.
    Processes are watched by their owner (liveness), and the RuntimeHost itself
    by an external service manager that restarts or quarantines it.
    This library models those parts as executable definitions translated from
    the sources and proves what makes them correct.

    ** Files, and the code they model (under src/crates/)

    Shared:
    - Prelude: outcomes of Rust calls ([result]: [Ok], [Err] or a panic), the
      monad [M] of methods on [&mut self] (the state is returned also when the
      call fails), machine integers as [N] with their checked, saturating and
      panicking operations, slices, binary search, sorting, [BTreeMap]
      iteration order, and the tactics [rust_inv] and [rust_step] that take
      code equations apart.
    - Bytes, Slices, Cursor, Tlv: big-endian encodings, the slice operations of
      the standard library (binary search with a comparison, chunks, insert),
      the byte cursors of the decoders and the tagged field format of the wire
      messages, each with the lemmas that turn a codec into a round trip.
    - SortKeys, RestartWindow: sorting by a derived key with the check for
      adjacent duplicates, and the counting argument by which a pruned list of
      attempts bounds the restarts in any window; each is used by two
      components.
    - Wp: weakest preconditions for [M], the logic in which code that does I/O
      is specified (a postcondition for success, one for errors and panics).
    - KernelTime: paraegox-kernel/src/time.rs and
      paraegox-runtime/src/runtime_clock.rs.
    - KernelDigest: paraegox-kernel/src/digest.rs.  SHA-256 (the sha2 crate)
      is a parameter [sha256 : list byte -> bytes32] of every definition that
      hashes; theorems that need it assume that it does not collide on the
      byte strings named in their statement ([collision_free]).  [toy_hash]
      instantiates the parameter in examples.
    - Signatures: what is used of ed25519-dalek, as the classes [Ed25519] and
      [Ed25519Signing]; a toy instance for examples.

    Contracts (paraegox-runtime-contracts/src):
    - ApplyContracts: provenance.rs, apply.rs and paraegox-kernel's identity.rs.
    - ApplyWire: temporal.rs and wire.rs, the canonical apply envelope.
    - Assignment, AssignmentWire: assignment.rs, the plan slice and the apply
      request with their codecs.
    - ExecutionPlan: execution.rs, the execution plan of loop domains and the
      version-2 slice and request that carry it, up to their encoding.

    Tenure authority (paraegox-deployment/src):
    - TenureProtocol: tenure_protocol.rs, requests, responses and frames.
    - TenureModel, TenureCodec: tenure_authority/model.rs and codec.rs, the
      durable snapshot, its validation and its file format.
    - TenureHistory: the specification of that snapshot, with the exact
      messages, transcripts and digests of its records, and the theorem that
      the validation accepts exactly it.
    - TenureStore: tenure_authority/store.rs.  The state directory is explicit
      (active file, unsynced rename, temporary files with unsynced contents);
      each system call answers from an argument [Env], which may fail it or
      stop the process there.  MountEvidence is its filesystem check.
    - TenureAuthority: signer.rs and mod.rs, acquire and open.
    - TenureSystem: the authority process, its directory and its clients as a
      step relation over acquires, restarts, process deaths and power losses.
    - TenureInit: initializer.rs and the receipt recovery of mod.rs.

    Runtime (paraegox-runtime/src):
    - Admission: admission.rs and request.rs.
    - ApplyState, ApplyControl, ApplyRefinement: apply_state.rs.  The reducers
      are pure; ApplyControl states the journal they are written to (one row
      per operation, a transition and its row in one write, a superseded row
      updated conditionally), as their documentation asks; ApplyRefinement
      refines it to a fenced compare-and-swap register.
    - MailboxModel, MailboxInv, MailboxOffer, MailboxSteps, Mailbox: mailbox.rs.
      The state [Mailbox] and one definition per operation are in MailboxModel;
      the invariant, the analysis of admission and the outcome of every
      operation in the next three; the step relation over calls and the
      theorems in Mailbox.
    - DispatchPermits, DispatchModel, DispatchInv, Dispatch: dispatcher.rs, the
      permit ledger and the weighted-deficit policy.
    - ExecutorBudget: executor_budget.rs and the join proof of thread_domain.rs
      that it consumes.
    - CardInstance: card_instance.rs.
    - PortBinding: port_binding.rs, the numbered routes from an output port into
      a mailbox.
    - LoopDomain, LoopDomainInv, LoopDomainProps, PlanInstall: loop_domain.rs,
      the owner that composes mailboxes, bindings, dispatcher and permits.  The
      operations are in LoopDomain, the invariant and the outcome of every
      operation in LoopDomainInv, the holder of the grants and releases as a
      step relation with its theorems in LoopDomainProps; PlanInstall connects
      the execution contract with the construction.
    - Liveness: liveness.rs, the liveness observations of one process
      generation, with the budgets of process_execution.rs.
    - RuntimeOwnership: runtime_ownership.rs, the ownership tree of a runtime
      and the proof of its cleanup.
    - Recovery, RecoveryInv, RecoveryProps, RecoveryDigest, RecoverySettle:
      recovery.rs, the recovery reducer of one process execution domain, with
      the restart policy of process_execution.rs.  The reducer is in Recovery,
      its invariant and the outcome of every call in RecoveryInv, runs and
      their theorems in RecoveryProps, the theorems that hash in
      RecoveryDigest, the owner that drives the reducer in RecoverySettle.

    Supervision of the RuntimeHost process:
    - HostWatchdog: paraegox-runtime/src/host_watchdog.rs, the PXHW frames.
    - ServiceManager, ServiceManagerProps: paraegox-runtime-host/src/
      service_manager.rs.  The operating system is the class [Os] of the calls
      the manager makes, over a world of any type; [OsLaws] is what its
      documentation promises (the clock does not go back, a sleep lasts as long
      as asked, a read fits the buffer).  The theorems run the manager on a
      wrapper that logs the calls; [Sim] is a concrete system for examples.

    ** How the code is rendered

    A [u16], [u32], [u64] or [usize] is an [N] and every arithmetic operation
    is the checked, saturating or panicking one of the source; indexing out of
    range panics.  A [BTreeMap] or [BTreeSet] is a finite map or set, iterated
    in key order where the source iterates it.  An [Arc] used as an identity
    is a number compared for equality.  The time sampled by a call, the
    readings a caller passes, the answers of system calls and the bytes drawn
    from the entropy source are arguments.  A token or proof that the source
    moves or mutates is returned in its new state.  [debug_assert!] panics
    when it fails.  Errors keep their variants; the wording of diagnostics is
    left out.

    ** What the theorems show

    - Tenure authority (TenureSystem): over every run with any storage faults,
      process deaths and restarts, acknowledged epochs are unique and durable,
      the authority reopens on what it finds, and authorized requests are
      answered as recorded.  Power losses are covered as long as no process
      starts on a directory with an unsynced rename; without that restriction
      the guarantee fails ([unsettled_open_can_reissue_an_epoch]): opening does
      not sync the directory.  Initialization (TenureInit) is all or nothing
      and leaves the installed directory those runs start from.  Validation
      accepts exactly the histories that TenureHistory specifies by their
      bytes, digests and signatures, the
      file and message codecs (TenureCodec, TenureProtocol) accept exactly the
      canonical encodings, and the filesystem check (MountEvidence) exactly the
      mount tables that list the mount once, as ext4.
    - Admission (Admission): a fresh request is admitted exactly when it is
      authenticated, consistent with the ledgers and within policy; only signed
      requests get in, one per nonce; deadlines only tighten.
    - Wire and assignment codecs (ApplyWire, AssignmentWire): a frame decodes
      exactly when it is the canonical encoding of the value returned.
    - Apply control (ApplyControl, ApplyRefinement): over every sequence of
      calls the journal stays consistent and refines a fenced register, the
      writer fence never regresses, stale writers are shut out, activation is a
      compare-and-swap to a higher revision, replays change nothing.
    - Mailbox (Mailbox): over every sequence of calls, every admitted message
      is queued, in flight or in exactly one terminal record; the accounting
      check never fails and limits hold; a failed call changes nothing; offers
      do what the overflow policy says; dispatch is first in, first out over
      live messages and is predicted by the readiness probe; tokens finish
      once; shutdown closes.
    - Dispatcher (DispatchPermits, Dispatch): permit pools are never
      overdrawn, the control reserve is exclusive, permits return once;
      selection never fails internally, never idles on runnable work, grants
      only ready mailboxes with a live permit, terminates within two passes
      and bounds the deficits; the direct scan starves nobody.
    - Executor budget (ExecutorBudget): the plan is never oversubscribed,
      reservations are granted exactly when they fit, capacity returns only
      against a join proof, once.
    - Contracts (ApplyContracts, KernelDigest): commitments round-trip and
      their digests and the signing transcript determine every field.
    - Cards (CardInstance): invocation fences are numbered, valid exactly
      until their own finish, useless across generations; a card that left
      its started state never runs again and stops only when idle.
    - Port bindings (PortBinding): an epoch that is no longer active is refused
      for good, and a replaced route stays until its mailbox is closed and has
      accounted for every message.
    - Loop domains (LoopDomainProps, PlanInstall): over every interleaving of
      offers, dispatches, completions and shutdown calls, a dispatch starts the
      oldest live message of a mailbox or says why not and never fails
      internally; callbacks in flight are the permits in use, within the plan;
      every handle settles and every state can be shut down to a zero cleanup;
      whatever plan the execution contract accepts is constructed, with its
      mailboxes bound and empty, its slots and its permits.
    - Liveness (Liveness): the verdict at any time is the earliest deadline
      that the accepted observations armed, frames are accepted in strictly
      increasing order and never after the end, failed calls change nothing.
    - Ownership (RuntimeOwnership): a cleanup proof is issued exactly for a tree
      whose every domain reports the cleanup of its own generation.
    - Recovery (RecoveryProps, RecoveryDigest, RecoverySettle): over every sequence of facts and
      polls, a fresh start is ordered only after a failure, its backoff and the
      proof that the failed generation is gone, never more often than the
      restart window allows; the reducer stays consistent, and a sequence
      number is accepted for one fact only.  Recovery settles within fourteen
      turns of its owner and four more for each collection of the cleanup that
      is missed; a cleanup that is never proven is collected again without end
      ([unproven_cleanup_never_rests]), since the reducer has no bound on it.
    - Service manager (ServiceManagerProps): at most the configured number of
      replacement spawns in any restart window, whatever the system answers;
      never a second host before the first one's process group was observed
      absent; every poll and shutdown returns within the configured graces.

    ** Fuel

    The loop that waits for a process group ([cleanup_loop]) has one round per
    poll interval of its budget and two more; [manager_calls_bounded] shows that
    it never runs out, because every round but the last sleeps an interval.
    The endless loop of the manager's destructor is cut at a number of rounds
    that is an argument.  [drive], the loop of an owner that answers every
    order of the recovery reducer, takes its number of turns as an argument and
    counts the collections of the cleanup that were missed; [recovery_settles]
    shows that 14 turns and 4 for each of those are enough.  Apart from these no operation runs on fuel of its
    own choosing: loops of the source run over a list fixed at their start
    (structural recursion), and
    [binary_search_loop] and [search_loop] are given the length of the slice,
    which halving cannot exhaust ([binary_search_loop_total]).  The
    hierarchical selection is the source's two passes of four class turns;
    [hierarchical_selection_total] shows that they are enough.

    ** Not modelled

    Operating-system I/O (sockets, processes, threads, path and proc-file
    access), the async executors that drive the components, the cryptographic
    crates, formatting of errors and test code.  The registries,
    the reference and process contracts, the journals of runtime and controller
    and deployment planning are not modelled: they own no state that the parts
    above read, apart from the journals, whose contract with apply control is
    stated in ApplyControl. *)

From Stdlib Require Export Strings.Byte.
From Stdlib Require Export Lia.
From stdpp Require Export base numbers gmap vector sorting option.
From stdpp Require Export list list_relations.
From stdpp Require Export list_basics list_numbers.

#[global] Set Default Goal Selector "!".
#[global] Unset Program Cases.

Declare Scope rust_scope.
Delimit Scope rust_scope with rust.

(** ** Outcomes of Rust calls *)

(** A call returns a value, returns an [Err], or panics (an indexing or
    arithmetic panic, [unreachable!], [panic!]). *)
Inductive result (E A : Type) : Type :=
| Ok (a : A)
| Err (e : E)
| Panic.
Arguments Ok {E A} _.
Arguments Err {E A} _.
Arguments Panic {E A}.

#[export] Instance result_mret {E : Type} : MRet (result E) := fun A a => Ok a.
#[export] Instance result_mbind {E : Type} : MBind (result E) :=
  fun A B f r => match r with Ok a => f a | Err e => Err e | Panic => Panic end.

#[export] Instance result_eq_dec {E A : Type} `{EqDecision E, EqDecision A} :
  EqDecision (result E A).
Proof. solve_decision. Defined.

(** [Option::ok_or]. *)
Definition ok_or {E A : Type} (o : option A) (e : E) : result E A :=
  match o with Some a => Ok a | None => Err e end.

(** [Result::map_err]. *)
Definition map_err {E F A : Type} (f : E -> F) (r : result E A) : result F A :=
  match r with Ok a => Ok a | Err e => Err (f e) | Panic => Panic end.

(** An [Option] accessed by indexing or [unwrap]: [None] panics. *)
Definition unwrap {E A : Type} (o : option A) : result E A :=
  match o with Some a => Ok a | None => Panic end.

(** [if b { return Err(e); }]. *)
Definition fail_if {E : Type} (b : bool) (e : E) : result E unit :=
  if b then Err e else Ok tt.

(** [Iterator::try_fold]. *)
Fixpoint try_fold {E A B : Type} (f : B -> A -> result E B) (acc : B) (l : list A) : result E B :=
  match l with
  | [] => Ok acc
  | a :: l => acc' ← f acc a; try_fold f acc' l
  end.

(** A method on [&mut self]: the state it leaves behind (also when it
    fails) and its outcome. *)
Definition M (S E A : Type) : Type := S -> S * result E A.

#[export] Instance M_mret {S E : Type} : MRet (M S E) := fun A a s => (s, Ok a).
#[export] Instance M_mbind {S E : Type} : MBind (M S E) :=
  fun A B f m s =>
    match m s with
    | (s', Ok a) => f a s'
    | (s', Err e) => (s', Err e)
    | (s', Panic) => (s', Panic)
    end.

(** A computation that only reads [self]. *)
Definition read {S E A : Type} (f : S -> result E A) : M S E A := fun s => (s, f s).
(** A computation that does not touch [self]. *)
Definition lift {S E A : Type} (r : result E A) : M S E A := fun s => (s, r).
(** An assignment to fields of [self]. *)
Definition modify {S E : Type} (f : S -> S) : M S E unit := fun s => (f s, Ok tt).
Definition gets {S E A : Type} (f : S -> A) : M S E A := fun s => (s, Ok (f s)).

(** A call on one component of a pair of borrowed states. *)
Definition on_fst {S T E A : Type} (m : M S E A) : M (S * T) E A :=
  fun '(s, t) => let '(s', res) := m s in ((s', t), res).
Definition on_snd {S T E A : Type} (m : M T E A) : M (S * T) E A :=
  fun '(s, t) => let '(t', res) := m t in ((s, t'), res).
(** [.map_err(f)] on the outcome of a call. *)
Definition with_err {S E F A : Type} (f : E -> F) (m : M S E A) : M S F A :=
  fun s => let '(s', res) := m s in (s', map_err f res).
(** A [for] loop over a fixed sequence whose body can fail. *)
Fixpoint for_each {S E A B : Type} (f : B -> A -> M S E B) (acc : B) (l : list A) : M S E B :=
  match l with
  | [] => mret acc
  | a :: l => acc' ← f acc a; for_each f acc' l
  end.

(** ** Machine integers *)

Definition u16_max : N := 2 ^ 16 - 1.
Definition u32_max : N := 2 ^ 32 - 1.
Definition u64_max : N := 2 ^ 64 - 1.

(** [checked_add] and [checked_mul] at the width whose maximum is [m]. *)
Definition checked_add (m a b : N) : option N :=
  if (a + b <=? m)%N then Some (a + b)%N else None.
Definition checked_mul (m a b : N) : option N :=
  if (a * b <=? m)%N then Some (a * b)%N else None.
Definition checked_sub (a b : N) : option N :=
  if (b <=? a)%N then Some (a - b)%N else None.
Definition saturating_add (m a b : N) : N := N.min (a + b) m.
Definition saturating_sub (a b : N) : N := (a - b)%N.
(** [uN::try_from] of a length or of a wider integer. *)
Definition try_from (m : N) (n : N) : option N := if (n <=? m)%N then Some n else None.
(** Arithmetic that panics when it leaves the type. *)
Definition panicking_add {E : Type} (m a b : N) : result E N := unwrap (checked_add m a b).
Definition panicking_sub {E : Type} (a b : N) : result E N := unwrap (checked_sub a b).

Definition len {A : Type} (l : list A) : N := N.of_nat (length l).

Definition sum_N (l : list N) : N := foldr N.add 0%N l.

Fixpoint checked_sum (m acc : N) (l : list N) : option N :=
  match l with
  | [] => Some acc
  | a :: l => match checked_add m acc a with
              | Some acc' => checked_sum m acc' l
              | None => None
              end
  end.

(** [if b { return Err(e); } k] in a computation over [result]. *)
Notation "'bail' e 'when' b ; k" := (fail_if b e ≫= fun _ : unit => k)
  (at level 100, e at level 0, b at level 99, k at level 200, right associativity,
   format "'bail'  e  'when'  b ; '//' k") : rust_scope.

(** ** Slices *)

Fixpoint enumerate_from {A : Type} (i : nat) (l : list A) : list (nat * A) :=
  match l with [] => [] | x :: l => (i, x) :: enumerate_from (S i) l end.
(** [iter().enumerate()]. *)
Definition enumerate {A : Type} (l : list A) : list (nat * A) := enumerate_from 0 l.

(** The elements of [l] whose index satisfies [P], in order. *)
Definition select_from {A : Type} (i : nat) (P : nat -> bool) (l : list A) : list A :=
  map snd (base.filter (fun p => P (fst p) = true) (enumerate_from i l)).
Abbreviation select := (select_from 0).

(** [slice::binary_search(..).is_ok()] on a slice of [usize]: the search
    halves the window [base, base + size) until one element is left. *)
Fixpoint binary_search_loop (fuel : nat) (l : list nat) (x base size : nat) : option nat :=
  match fuel with
  | O => None
  | S fuel =>
      if (size <=? 1)%nat then Some base
      else
        let half := Nat.div2 size in
        let mid := (base + half)%nat in
        match l !! mid with
        | None => None
        | Some y =>
            let base' := if (x <? y)%nat then base else mid in
            binary_search_loop fuel l x base' (size - half)
        end
  end.
Definition binary_search_is_ok (l : list nat) (x : nat) : bool :=
  match l with
  | [] => false
  | _ =>
      match binary_search_loop (length l) l x 0 (length l) with
      | Some base => bool_decide (l !! base = Some x)
      | None => false
      end
  end.

(** [sort_unstable] and [dedup] on a [Vec<usize>]. *)
Definition sort_unstable (l : list nat) : list nat := merge_sort Nat.le l.
Fixpoint dedup (l : list nat) : list nat :=
  match l with
  | [] => []
  | x :: l' =>
      match dedup l' with
      | y :: r => if (x =? y)%nat then y :: r else x :: y :: r
      | [] => [x]
      end
  end.

(** ** Opaque identities and ordered maps *)

#[export] Instance byte_eq_dec : EqDecision byte := Byte.byte_eq_dec.
#[export] Instance byte_countable : Countable byte :=
  inj_countable Byte.to_N Byte.of_N Byte.of_to_N.

(** A transparent [Countable] instance for byte arrays, so that maps keyed by
    identities compute. *)
Fixpoint vec_of_list (n : nat) (l : list byte) : option (vec byte n) :=
  match n, l with
  | O, [] => Some [#]
  | S n, x :: l => match vec_of_list n l with Some v => Some (x ::: v) | None => None end
  | _, _ => None
  end.
Lemma vec_of_list_to_list n (v : vec byte n) : vec_of_list n (vec_to_list v) = Some v.
Proof. induction v as [|x n v IH]; simpl; [done|]. by rewrite IH. Qed.
#[export] Instance byte_array_countable n : Countable (vec byte n) | 0 :=
  inj_countable (@vec_to_list byte n) (vec_of_list n) (vec_of_list_to_list n).

Definition bytes16 : Type := vec byte 16.
Definition bytes32 : Type := vec byte 32.

(** Lexicographic order on byte strings, the derived [Ord] of [[u8; n]]. *)
Fixpoint bytes_leb (a b : list byte) : bool :=
  match a, b with
  | [], _ => true
  | _ :: _, [] => false
  | x :: a, y :: b =>
      (Byte.to_N x <? Byte.to_N y)%N || ((Byte.to_N x =? Byte.to_N y)%N && bytes_leb a b)
  end.

(** Keys of a [BTreeMap]. *)
Class OrdKey (K : Type) := {
  key_leb : K -> K -> bool;
  key_leb_total : forall a b, key_leb a b = true \/ key_leb b a = true;
  key_leb_trans : forall a b c, key_leb a b = true -> key_leb b c = true -> key_leb a c = true;
}.

(** Entries of a [BTreeMap] in iteration order. *)
Definition entry_le {K V : Type} `{OrdKey K} : relation (K * V) :=
  fun p q => key_leb (fst p) (fst q) = true.
#[export] Instance entry_le_dec {K V : Type} `{OrdKey K} (p q : K * V) : Decision (entry_le p q) :=
  bool_eq_dec _ _.
Definition btree_iter {K V : Type} `{Countable K, OrdKey K} (m : gmap K V) : list (K * V) :=
  merge_sort entry_le (map_to_list m).
Definition btree_keys {K V : Type} `{Countable K, OrdKey K} (m : gmap K V) : list K :=
  map fst (btree_iter m).
Definition btree_values {K V : Type} `{Countable K, OrdKey K} (m : gmap K V) : list V :=
  map snd (btree_iter m).

#[export] Instance N_ord_key : OrdKey N.
Proof.
  refine {| key_leb := N.leb |}; intros *; rewrite ?N.leb_le; lia.
Defined.

Lemma bytes_leb_total a b : bytes_leb a b = true \/ bytes_leb b a = true.
Proof.
  revert b; induction a as [|x a IH]; intros [|y b]; simpl; auto.
  rewrite !orb_true_iff, !andb_true_iff, !N.ltb_lt, !N.eqb_eq.
  destruct (N.lt_trichotomy (Byte.to_N x) (Byte.to_N y)) as [?|[?|?]]; auto.
  destruct (IH b); auto.
Qed.
Lemma bytes_leb_trans a b c : bytes_leb a b = true -> bytes_leb b c = true -> bytes_leb a c = true.
Proof.
  revert b c; induction a as [|x a IH]; intros [|y b] [|z c]; simpl; try done.
  rewrite !orb_true_iff, !andb_true_iff, !N.ltb_lt, !N.eqb_eq.
  intros [?|[??]] [?|[??]]; try lia. right; split; [lia|eauto].
Qed.
#[export] Instance vec_byte_ord_key n : OrdKey (vec byte n).
Proof.
  refine {| key_leb a b := bytes_leb (vec_to_list a) (vec_to_list b) |}.
  - intros a b; apply bytes_leb_total.
  - intros a b c; apply bytes_leb_trans.
Defined.

(** ** Inversion of outcomes *)

Section outcomes.
Context {E A B : Type}.

Lemma bind_Ok (r : result E A) (f : A -> result E B) b :
  (r ≫= f) = Ok b <-> exists a, r = Ok a /\ f a = Ok b.
Proof. destruct r; simpl; naive_solver. Qed.
Lemma bind_Err (r : result E A) (f : A -> result E B) e :
  (r ≫= f) = Err e <-> r = Err e \/ exists a, r = Ok a /\ f a = Err e.
Proof. destruct r; simpl; naive_solver. Qed.
Lemma bind_Panic (r : result E A) (f : A -> result E B) :
  (r ≫= f) = Panic <-> r = Panic \/ exists a, r = Ok a /\ f a = Panic.
Proof. destruct r; simpl; naive_solver. Qed.
Lemma ok_or_Ok (o : option A) (e : E) a : ok_or o e = Ok a <-> o = Some a.
Proof. destruct o; simpl; naive_solver. Qed.
Lemma ok_or_Err (o : option A) (e e' : E) : ok_or o e = Err e' <-> o = None /\ e' = e.
Proof. destruct o; simpl; naive_solver. Qed.
Lemma ok_or_Panic (o : option A) (e : E) : ok_or o e = Panic <-> False.
Proof. destruct o; simpl; naive_solver. Qed.
Lemma fail_if_Ok b (e : E) u : fail_if b e = Ok u <-> b = false.
Proof. destruct b, u; simpl; naive_solver. Qed.
Lemma fail_if_Err b (e e' : E) : fail_if b e = Err e' <-> b = true /\ e' = e.
Proof. destruct b; simpl; naive_solver. Qed.
Lemma fail_if_Panic b (e : E) : fail_if b e = Panic <-> False.
Proof. destruct b; simpl; naive_solver. Qed.
Lemma unwrap_Ok (o : option A) a : unwrap (E:=E) o = Ok a <-> o = Some a.
Proof. destruct o; simpl; naive_solver. Qed.
Lemma unwrap_Err (o : option A) e : unwrap (E:=E) o = Err e <-> False.
Proof. destruct o; simpl; naive_solver. Qed.
End outcomes.

Lemma map_err_Ok {E F A : Type} (f : E -> F) (r : result E A) a :
  map_err f r = Ok a <-> r = Ok a.
Proof. destruct r; simpl; naive_solver. Qed.
Lemma map_err_Err {E F A : Type} (f : E -> F) (r : result E A) e :
  map_err f r = Err e <-> exists e0, r = Err e0 /\ e = f e0.
Proof. destruct r; simpl; naive_solver. Qed.
Lemma map_err_Panic {E F A : Type} (f : E -> F) (r : result E A) :
  map_err f r = Panic <-> r = Panic.
Proof. destruct r; simpl; naive_solver. Qed.

(** ** Machine integers *)

Lemma checked_add_Some m a b c : checked_add m a b = Some c <-> (c = a + b /\ a + b <= m)%N.
Proof. unfold checked_add. destruct (N.leb_spec (a + b) m); naive_solver lia. Qed.
Lemma checked_add_None m a b : checked_add m a b = None <-> (m < a + b)%N.
Proof. unfold checked_add. destruct (N.leb_spec (a + b) m); naive_solver lia. Qed.
Lemma checked_mul_Some m a b c : checked_mul m a b = Some c <-> (c = a * b /\ a * b <= m)%N.
Proof. unfold checked_mul. destruct (N.leb_spec (a * b) m); naive_solver lia. Qed.
Lemma checked_mul_None m a b : checked_mul m a b = None <-> (m < a * b)%N.
Proof. unfold checked_mul. destruct (N.leb_spec (a * b) m); naive_solver lia. Qed.
Lemma checked_sub_Some a b c : checked_sub a b = Some c <-> (c = a - b /\ b <= a)%N.
Proof. unfold checked_sub. destruct (N.leb_spec b a); naive_solver lia. Qed.
Lemma checked_sub_None a b : checked_sub a b = None <-> (a < b)%N.
Proof. unfold checked_sub. destruct (N.leb_spec b a); naive_solver lia. Qed.
Lemma try_from_Some m n k : try_from m n = Some k <-> (k = n /\ n <= m)%N.
Proof. unfold try_from. destruct (N.leb_spec n m); naive_solver lia. Qed.
Lemma try_from_None m n : try_from m n = None <-> (m < n)%N.
Proof. unfold try_from. destruct (N.leb_spec n m); naive_solver lia. Qed.

Create Rewrite HintDb rust.
#[export] Hint Rewrite @bind_Ok @bind_Err @bind_Panic @ok_or_Ok @ok_or_Err @ok_or_Panic
  @fail_if_Ok @fail_if_Err @fail_if_Panic @unwrap_Ok @unwrap_Err
  @map_err_Ok @map_err_Err @map_err_Panic
  checked_add_Some checked_add_None checked_mul_Some checked_mul_None
  checked_sub_Some checked_sub_None try_from_Some try_from_None : rust.

(** Boolean tests of the code as propositions. *)
#[export] Hint Rewrite orb_true_iff orb_false_iff andb_true_iff andb_false_iff
  negb_true_iff negb_false_iff
  N.leb_le N.leb_gt N.ltb_lt N.ltb_ge N.eqb_eq N.eqb_neq
  Nat.leb_le Nat.leb_gt Nat.ltb_lt Nat.ltb_ge Nat.eqb_eq Nat.eqb_neq : rust.

Lemma bool_decide_true_iff (P : Prop) `{Decision P} : bool_decide P = true <-> P.
Proof. apply bool_decide_eq_true. Qed.
Lemma bool_decide_false_iff (P : Prop) `{Decision P} : bool_decide P = false <-> ~ P.
Proof. apply bool_decide_eq_false. Qed.
#[export] Hint Rewrite @bool_decide_true_iff @bool_decide_false_iff : rust.

(** Takes one equation [code = outcome] of the context apart. *)
Ltac rust_step :=
  match goal with
  | H : exists _, _ |- _ => destruct H
  | H : _ /\ _ |- _ => destruct H
  | H : False |- _ => destruct H
  | H : (_ ≫= _) = Ok _ |- _ => apply bind_Ok in H
  | H : ok_or _ _ = Ok _ |- _ => apply ok_or_Ok in H
  | H : map_err _ _ = Ok _ |- _ => apply map_err_Ok in H
  | H : fail_if _ _ = Ok _ |- _ => apply fail_if_Ok in H
  | H : unwrap _ = Ok _ |- _ => apply unwrap_Ok in H
  | H : checked_add _ _ _ = Some _ |- _ => apply checked_add_Some in H
  | H : checked_mul _ _ _ = Some _ |- _ => apply checked_mul_Some in H
  | H : checked_sub _ _ = Some _ |- _ => apply checked_sub_Some in H
  | H : checked_add _ _ _ = None |- _ => apply checked_add_None in H
  | H : checked_mul _ _ _ = None |- _ => apply checked_mul_None in H
  | H : checked_sub _ _ = None |- _ => apply checked_sub_None in H
  | H : try_from _ _ = Some _ |- _ => apply try_from_Some in H
  | H : try_from _ _ = None |- _ => apply try_from_None in H
  | H : bool_decide _ = true |- _ => apply bool_decide_eq_true in H
  | H : bool_decide _ = false |- _ => apply bool_decide_eq_false in H
  | H : orb _ _ = false |- _ => apply orb_false_iff in H
  | H : andb _ _ = true |- _ => apply andb_true_iff in H
  | H : negb _ = true |- _ => apply negb_true_iff in H
  | H : negb _ = false |- _ => apply negb_false_iff in H
  | H : N.leb _ _ = true |- _ => apply N.leb_le in H
  | H : N.leb _ _ = false |- _ => apply N.leb_gt in H
  | H : N.ltb _ _ = true |- _ => apply N.ltb_lt in H
  | H : N.ltb _ _ = false |- _ => apply N.ltb_ge in H
  | H : N.eqb _ _ = true |- _ => apply N.eqb_eq in H
  | H : N.eqb _ _ = false |- _ => apply N.eqb_neq in H
  | H : Nat.eqb _ _ = true |- _ => apply Nat.eqb_eq in H
  | H : Nat.eqb _ _ = false |- _ => apply Nat.eqb_neq in H
  | H : Ok _ = Ok _ |- _ => injection H as H
  | H : Err _ = Err _ |- _ => injection H as H
  | H : Ok _ = Err _ |- _ => discriminate H
  | H : Ok _ = Panic |- _ => discriminate H
  | H : Err _ = Ok _ |- _ => discriminate H
  | H : Panic = Ok _ |- _ => discriminate H
  | H : Some _ = Some _ |- _ => injection H as H
  | H : (_, _) = (_, _) |- _ => injection H as H
  | H : ?x = _ |- _ => is_var x; subst x
  | H : _ = ?x |- _ => is_var x; subst x
  | H : _ = _ |- _ => discriminate H
  end.
Ltac rust_inv := repeat rust_step.

(** ** Freedom from panics *)

Section no_panic.
Context {E A B : Type}.
Implicit Types (r : result E A).

Lemma no_panic_Ok (a : A) : Ok (E:=E) a <> Panic.
Proof. done. Qed.
Lemma no_panic_Err (e : E) : Err (A:=A) e <> Panic.
Proof. done. Qed.
Lemma no_panic_bind r (f : A -> result E B) :
  r <> Panic -> (forall a, r = Ok a -> f a <> Panic) -> (r ≫= f) <> Panic.
Proof. intros Hr Hf [H|(a & Ha & H)]%bind_Panic; [done|by apply (Hf a)]. Qed.
(** A call that is known to return. *)
Lemma no_panic_bind_total r (f : A -> result E B) (P : A -> Prop) :
  (exists a, r = Ok a /\ P a) -> (forall a, P a -> f a <> Panic) -> (r ≫= f) <> Panic.
Proof. intros (a & -> & Ha) Hf. by apply Hf. Qed.
Lemma no_panic_fail_if b (e : E) : fail_if b e <> Panic.
Proof. by destruct b. Qed.
Lemma no_panic_ok_or (o : option A) (e : E) : ok_or o e <> Panic.
Proof. by destruct o. Qed.
End no_panic.
Lemma no_panic_map_err {E F A : Type} (f : E -> F) (r : result E A) :
  r <> Panic -> map_err f r <> Panic.
Proof. by destruct r. Qed.

Create HintDb no_panic discriminated.
#[export] Hint Resolve no_panic_Ok no_panic_Err no_panic_fail_if no_panic_ok_or
  no_panic_map_err : no_panic.

(** Walks through a chain of calls whose parts the hints know not to panic. *)
Ltac no_panic :=
  repeat first
    [ solve [eauto 3 with no_panic]
    | apply no_panic_bind; [|intros ? ?]
    | apply no_panic_map_err ].

(** Steps over a finished call by rewriting, where conversion would compare the
    calls that follow. *)
Lemma bind_Ok_l {E A B : Type} (a : A) (f : A -> result E B) : (Ok a ≫= f) = f a.
Proof. reflexivity. Qed.
Lemma bind_pass {E B : Type} (e : E) (f : unit -> result E B) : (fail_if false e ≫= f) = f tt.
Proof. reflexivity. Qed.

Lemma bind_unit_Ok {E B : Type} (r : result E unit) (k : result E B) b :
  (r ≫= fun _ => k) = Ok b <-> r = Ok tt /\ k = Ok b.
Proof. rewrite bind_Ok. split; [intros ([] & ? & ?)|intros [??]; exists tt]; done. Qed.
(** Splits a sequence of checks, in the goal, into what each one asks. *)
Ltac split_checks :=
  repeat match goal with
  | |- context [(?r ≫= (fun _ : unit => ?k)) = Ok ?b] => rewrite (bind_unit_Ok r k b)
  end.
Lemma fail_unless_Ok {E : Type} (P : Prop) `{Decision P} (e : E) :
  fail_if (bool_decide (~ P)) e = Ok tt <-> P.
Proof. rewrite fail_if_Ok, bool_decide_eq_false. split; [apply dec_stable|tauto]. Qed.

(** [Result::is_ok]. *)
Definition is_ok {E A : Type} (r : result E A) : bool := match r with Ok _ => true | _ => false end.
Lemma is_ok_Ok {E A : Type} (r : result E A) : is_ok r = true -> exists a, r = Ok a.
Proof. destruct r; try done. by eexists. Qed.
Lemma Ok_inj {E A : Type} (x y : A) : Ok (E:=E) x = Ok y -> x = y.
Proof. by intros [= ->]. Qed.
(** Evaluates the calls whose outcome is known. *)
Lemma bool_decide_ne_refl {A : Type} `{EqDecision A} (x : A) : bool_decide (x <> x) = false.
Proof. apply bool_decide_eq_false_2. intros Hne. by apply Hne. Qed.
Ltac run_known :=
  repeat first
    [ progress cbn [negb fail_if map_err ok_or mbind result_mbind]
    | rewrite bool_decide_ne_refl
    | match goal with H : ?x = Ok _ |- context [?x] => rewrite H end ].

(** Characterises a constructor by its guards. *)
Ltac guard_case :=
  match goal with
  | |- context [fail_if (?a =? ?b)%N _] => destruct (N.eqb_spec a b)
  | |- context [fail_if (negb (?a =? ?b)%N) _] => destruct (N.eqb_spec a b)
  | |- context [fail_if (?a <=? ?b)%N _] => destruct (N.leb_spec a b)
  | |- context [fail_if (?a <? ?b)%N _] => destruct (N.ltb_spec a b)
  | |- context [fail_if (bool_decide ?P) _] => destruct (bool_decide_reflect P)
  end; cbn [negb fail_if mbind result_mbind].
Ltac solve_ctor :=
  repeat guard_case;
  (let Hc := fresh "Hc" in
   split; [intros Hc; (discriminate Hc
                       || (injection Hc as <-; repeat (split; [done || lia|]); done || lia))
          |intros Hc; decompose [and] Hc; subst;
           (done || (exfalso; lia) || congruence || naive_solver)]).

Lemma elem_of_map {A B : Type} (f : A -> B) (l : list A) x :
  x ∈ map f l <-> exists y, x = f y /\ y ∈ l.
Proof. apply list_elem_of_fmap. Qed.

Lemma elem_of_rev {A : Type} (l : list A) x : x ∈ rev l <-> x ∈ l.
Proof. by rewrite !list_elem_of_In, <-in_rev. Qed.

(** A loop that pushes one result per element. *)
Lemma try_fold_push {E A B : Type} (f : A -> result E B) (g : A -> B) l acc :
  (forall x, x ∈ l -> f x = Ok (g x)) ->
  try_fold (fun acc x => y ← f x; Ok (acc ++ [y])) acc l = Ok (acc ++ map g l).
Proof.
  revert acc; induction l as [|x l IH]; intros acc Hf; simpl; [by rewrite app_nil_r|].
  rewrite Hf by left. simpl. rewrite IH, <-app_assoc; [done|]. intros y Hy. apply Hf. by right.
Qed.
Lemma try_fold_ext {E A B : Type} (f g : B -> A -> result E B) l acc :
  (forall b x, f b x = g b x) -> try_fold f acc l = try_fold g acc l.
Proof.
  intros H. revert acc; induction l as [|x l IH]; intros acc; simpl; [done|].
  rewrite H. destruct (g acc x); simpl; auto.
Qed.

(** ** Sums *)

Lemma sum_N_app l k : sum_N (l ++ k) = (sum_N l + sum_N k)%N.
Proof. induction l; simpl; lia. Qed.
#[export] Instance sum_N_Permutation : Proper (Permutation ==> eq) sum_N.
Proof. intros l k H. induction H; simpl; lia. Qed.

Lemma checked_sum_spec m acc l :
  (acc <= m)%N ->
  checked_sum m acc l = (if (acc + sum_N l <=? m)%N then Some (acc + sum_N l)%N else None).
Proof.
  revert acc; induction l as [|a l IH]; intros acc Hacc; simpl.
  - rewrite N.add_0_r. by destruct (N.leb_spec acc m); [|lia].
  - unfold checked_add. destruct (N.leb_spec (acc + a) m).
    + rewrite IH by done. by rewrite N.add_assoc.
    + destruct (N.leb_spec (acc + (a + sum_N l)) m); [lia|done].
Qed.
(** With at least one addition the bound on the accumulator is checked too. *)
Lemma checked_sum_cons_Some m acc a l k :
  checked_sum m acc (a :: l) = Some k <->
  (k = acc + sum_N (a :: l) /\ acc + sum_N (a :: l) <= m)%N.
Proof.
  simpl. unfold checked_add. destruct (N.leb_spec (acc + a) m).
  - rewrite checked_sum_spec by done. destruct (N.leb_spec (acc + a + sum_N l) m).
    + split; [intros [= <-]; lia|intros [-> ?]; f_equal; lia].
    + split; [done|lia].
  - split; [done|lia].
Qed.
Lemma checked_sum_Some m l k :
  checked_sum m 0 l = Some k <-> (k = sum_N l /\ sum_N l <= m)%N.
Proof.
  rewrite checked_sum_spec by lia. rewrite N.add_0_l.
  destruct (N.leb_spec (sum_N l) m); naive_solver lia.
Qed.
Lemma checked_sum_None m l : checked_sum m 0 l = None <-> (m < sum_N l)%N.
Proof.
  rewrite checked_sum_spec by lia. rewrite N.add_0_l.
  destruct (N.leb_spec (sum_N l) m); naive_solver lia.
Qed.
#[export] Hint Rewrite checked_sum_Some checked_sum_None : rust.

(** Evaluation of checked operations that stay in range. *)
Lemma checked_add_ok m a b : (a + b <= m)%N -> checked_add m a b = Some (a + b)%N.
Proof. intros. by apply checked_add_Some. Qed.
Lemma checked_sub_ok a b : (b <= a)%N -> checked_sub a b = Some (a - b)%N.
Proof. intros. by apply checked_sub_Some. Qed.
Lemma try_from_ok m n : (n <= m)%N -> try_from m n = Some n.
Proof. intros. by apply try_from_Some. Qed.
Lemma checked_sum_ok m l : (sum_N l <= m)%N -> checked_sum m 0 l = Some (sum_N l).
Proof. intros. by apply checked_sum_Some. Qed.

Lemma len_app {A : Type} (l k : list A) : len (l ++ k) = (len l + len k)%N.
Proof. unfold len. rewrite length_app. lia. Qed.
Lemma len_cons {A : Type} (x : A) l : len (x :: l) = (len l + 1)%N.
Proof. unfold len. simpl. lia. Qed.
Lemma nil_len {A : Type} (l : list A) : l = [] <-> len l = 0%N.
Proof. destruct l; unfold len; simpl; split; done || lia. Qed.
#[export] Instance len_Permutation {A : Type} : Proper (Permutation ==> eq) (@len A).
Proof. intros l k H. unfold len. by rewrite H. Qed.

(** ** Slices *)

Section slices.
Context {A : Type}.
Implicit Types (l : list A) (P Q : nat -> bool).

Lemma select_from_nil i P : select_from i P (@nil A) = [].
Proof. done. Qed.
Lemma select_from_cons i P (x : A) l :
  select_from i P (x :: l) = (if P i then [x] else []) ++ select_from (S i) P l.
Proof.
  unfold select_from; simpl. rewrite filter_cons; simpl.
  by destruct (P i).
Qed.
Lemma select_from_app i P l k :
  select_from i P (l ++ k) = select_from i P l ++ select_from (i + length l) P k.
Proof.
  revert i; induction l as [|x l IH]; intros i; simpl; [by rewrite Nat.add_0_r|].
  rewrite !select_from_cons, IH, <-app_assoc. do 3 f_equal. lia.
Qed.
Lemma select_from_ext i P Q l :
  (forall j, i <= j < i + length l -> P j = Q j) -> select_from i P l = select_from i Q l.
Proof.
  revert i; induction l as [|x l IH]; intros i H; [done|].
  rewrite !select_from_cons, (H i) by (simpl; lia). f_equal. apply IH.
  intros j Hj. apply H. simpl; lia.
Qed.
Lemma select_from_none i P l :
  (forall j, i <= j < i + length l -> P j = false) -> select_from i P l = [].
Proof.
  intros H. rewrite (select_from_ext _ _ (fun _ => false)) by done.
  clear H; revert i; induction l as [|x l IH]; intros i; [done|].
  by rewrite select_from_cons, IH.
Qed.
Lemma select_from_all i P l :
  (forall j, i <= j < i + length l -> P j = true) -> select_from i P l = l.
Proof.
  revert i; induction l as [|x l IH]; intros i H; [done|].
  rewrite select_from_cons, (H i), IH; [done| |simpl; lia].
  intros j Hj. apply H. simpl; lia.
Qed.

(** Splitting a sequence by a predicate on indices loses nothing. *)
Lemma select_from_split i P l :
  select_from i P l ++ select_from i (fun j => negb (P j)) l ≡ₚ l.
Proof.
  revert i; induction l as [|x l IH]; intros i; [done|].
  rewrite !select_from_cons. destruct (P i); simpl.
  - by rewrite IH.
  - rewrite <-Permutation_middle. by rewrite IH.
Qed.
Lemma select_from_orb i P Q l :
  (forall j, P j = true -> Q j = true -> False) ->
  select_from i (fun j => P j || Q j) l ≡ₚ select_from i P l ++ select_from i Q l.
Proof.
  intros Hd. revert i; induction l as [|x l IH]; intros i; [done|].
  rewrite !select_from_cons, IH. specialize (Hd i). destruct (P i), (Q i); simpl; try done.
  - by destruct Hd.
  - by rewrite Permutation_middle.
Qed.
Lemma select_from_sublist i P l : select_from i P l `sublist_of` l.
Proof.
  revert i; induction l as [|x l IH]; intros i; [constructor|].
  rewrite select_from_cons. destruct (P i); simpl; constructor; auto.
Qed.
Lemma elem_of_select_from i P l x :
  x ∈ select_from i P l <-> exists j, l !! j = Some x /\ P (i + j) = true.
Proof.
  revert i; induction l as [|y l IH]; intros i.
  - split; [by intros ?%not_elem_of_nil|intros (?&?&?); done].
  - rewrite select_from_cons, elem_of_app, IH. split.
    + intros [H|(j&?&?)].
      * destruct (P i) eqn:E; [|by apply not_elem_of_nil in H].
        apply list_elem_of_singleton in H as ->. exists 0. by rewrite Nat.add_0_r.
      * exists (S j). by rewrite Nat.add_succ_r.
    + intros ([|j]&Hl&HP); simplify_eq/=.
      * left. rewrite Nat.add_0_r in HP. rewrite HP. by apply list_elem_of_singleton.
      * right. exists j. by rewrite Nat.add_succ_r in HP.
Qed.
Lemma elem_of_enumerate_from i l j x :
  (j, x) ∈ enumerate_from i l <-> i <= j /\ l !! (j - i) = Some x.
Proof.
  revert i; induction l as [|y l IH]; intros i; simpl.
  - split; [by intros ?%not_elem_of_nil|by intros [_ ?]].
  - rewrite elem_of_cons, IH. split.
    + intros [[=-> ->]|[? Hl]]; [by rewrite Nat.sub_diag|]. split; [lia|].
      by replace (j - i) with (S (j - S i)) by lia.
    + intros [? Hl]. destruct (decide (j = i)) as [->|]; [rewrite Nat.sub_diag in Hl; left; by simplify_eq/=|].
      right. split; [lia|]. by replace (j - i) with (S (j - S i)) in Hl by lia.
Qed.
Lemma length_enumerate_from i l : length (enumerate_from i l) = length l.
Proof. revert i; induction l; intros; simpl; auto. Qed.
End slices.

Section filters.
Context {A : Type} (P : A -> Prop) `{forall x, Decision (P x)}.
Lemma filter_all l : Forall P l -> base.filter P l = l.
Proof. induction 1; [done|]. rewrite filter_cons_True by done. by f_equal. Qed.
Lemma filter_none l : Forall (fun x => ~ P x) l -> base.filter P l = [].
Proof. induction 1; [done|]. by rewrite filter_cons_False. Qed.
End filters.
Lemma filter_not_prefix {A : Type} `{EqDecision A} (pre post : list A) :
  NoDup (pre ++ post) -> base.filter (fun x => x ∉ pre) (pre ++ post) = post.
Proof.
  intros (_ & Hd & _)%NoDup_app. rewrite filter_app, filter_none, filter_all; [done|..].
  - apply Forall_forall. intros x Hx Hp. by apply (Hd x).
  - apply Forall_forall. tauto.
Qed.

Lemma map_select_from {A B : Type} (f : A -> B) i (P : nat -> bool) (l : list A) :
  map f (select_from i P l) = select_from i P (map f l).
Proof.
  revert i; induction l as [|y l IH]; intros i; [done|].
  simpl. rewrite !select_from_cons, map_app, IH. by destruct (P i).
Qed.

(** How many indices of [l] belong to [idx]. *)
Lemma select_from_seq i (P : nat -> bool) n :
  select_from i P (seq i n) = base.filter (fun j => P j = true) (seq i n).
Proof.
  revert i; induction n as [|n IH]; intros i; [done|]. simpl.
  rewrite select_from_cons, IH, filter_cons. by destruct (P i).
Qed.
Lemma length_select_from_seq {A : Type} i (P : nat -> bool) (l : list A) :
  length (select_from i P l) = length (select_from i P (seq i (length l))).
Proof.
  revert i; induction l as [|x l IH]; intros i; [done|]. simpl.
  rewrite !select_from_cons, !length_app, IH. by destruct (P i).
Qed.
Lemma length_select {A : Type} (P : nat -> bool) (idx : list nat) (l : list A) :
  NoDup idx -> Forall (fun j => j < length l) idx ->
  (forall j, j < length l -> P j = true <-> j ∈ idx) ->
  length (select P l) = length idx.
Proof.
  intros Hnd Hlt HP. rewrite length_select_from_seq, select_from_seq.
  apply Permutation_length, NoDup_Permutation; [apply NoDup_filter, NoDup_seq|done|].
  intros j. rewrite list_elem_of_filter, elem_of_seq. simpl.
  rewrite Forall_forall in Hlt. split.
  - intros [? ?]. apply HP; [lia|done].
  - intros Hj. specialize (Hlt _ Hj). simpl in Hlt. rewrite HP by lia. split; [done|lia].
Qed.

(** ** Sorted index lists *)

Abbreviation strictly_sorted := (StronglySorted lt).

Lemma strictly_sorted_NoDup l : strictly_sorted l -> NoDup l.
Proof.
  induction 1 as [|x l _ IH Hx]; constructor; [|done].
  intros Hin. rewrite Forall_forall in Hx. apply Hx in Hin. lia.
Qed.
Lemma strictly_sorted_seq i n : strictly_sorted (seq i n).
Proof.
  revert i; induction n as [|n IH]; intros i; simpl; constructor; auto.
  apply Forall_forall. intros j Hj%elem_of_seq. lia.
Qed.
Lemma strictly_sorted_filter (P : nat -> Prop) `{forall x, Decision (P x)} l :
  strictly_sorted l -> strictly_sorted (base.filter P l).
Proof.
  induction 1 as [|x l _ IH Hx]; [constructor|].
  rewrite filter_cons. case_decide; [|done]. constructor; [done|].
  apply Forall_forall. intros y [_ Hy]%list_elem_of_filter.
  rewrite Forall_forall in Hx. auto.
Qed.
Lemma strictly_sorted_lookup_lt l i j x y :
  strictly_sorted l -> l !! i = Some x -> l !! j = Some y -> i < j -> x < y.
Proof.
  intros Hs. revert i j; induction Hs as [|a l _ IH Ha]; intros [|i] [|j] Hi Hj Hij;
    simplify_eq/=; try lia.
  - rewrite Forall_forall in Ha. apply Ha. eauto using list_elem_of_lookup_2.
  - eapply IH; eauto. lia.
Qed.

Lemma dedup_head x l : exists r, dedup (x :: l) = x :: r.
Proof.
  simpl. destruct (dedup l) as [|y r]; [by eexists|].
  destruct (Nat.eqb_spec x y); subst; by eexists.
Qed.
Lemma elem_of_dedup l x : x ∈ dedup l <-> x ∈ l.
Proof.
  induction l as [|y l IH]; [done|]. rewrite elem_of_cons, <-IH. simpl.
  destruct (dedup l) as [|z r]; [set_solver|].
  destruct (Nat.eqb_spec y z); subst; set_solver.
Qed.
Lemma dedup_sorted l : StronglySorted le l -> strictly_sorted (dedup l).
Proof.
  induction 1 as [|x l Hl IH Hx]; [constructor|]. simpl.
  assert (Forall (le x) (dedup l)) as Hd.
  { apply Forall_forall. intros y Hy. rewrite elem_of_dedup in Hy. rewrite Forall_forall in Hx. auto. }
  destruct (dedup l) as [|y r]; [repeat constructor|].
  destruct (Nat.eqb_spec x y); [done|]. constructor; [done|].
  inversion_clear IH as [|?? Hr Hy]. apply Forall_cons in Hd as [? _].
  constructor; [lia|]. eapply Forall_impl; [exact Hy|]. simpl; lia.
Qed.
Lemma dedup_strict l : strictly_sorted l -> dedup l = l.
Proof.
  induction 1 as [|x l Hl IH Hx]; [done|]. simpl. rewrite IH.
  destruct l as [|y l]; [done|]. apply Forall_cons in Hx as [? _].
  by destruct (Nat.eqb_spec x y); [lia|].
Qed.

Lemma sort_unstable_Permutation l : sort_unstable l ≡ₚ l.
Proof. apply merge_sort_Permutation. Qed.
#[export] Instance nat_le_total : Total Nat.le.
Proof. intros x y. lia. Qed.
Lemma sort_unstable_sorted l : StronglySorted le (sort_unstable l).
Proof. apply (StronglySorted_merge_sort Nat.le). Qed.
Lemma sort_dedup_sorted l : strictly_sorted (dedup (sort_unstable l)).
Proof. apply dedup_sorted, sort_unstable_sorted. Qed.
Lemma elem_of_sort_dedup l x : x ∈ dedup (sort_unstable l) <-> x ∈ l.
Proof. by rewrite elem_of_dedup, sort_unstable_Permutation. Qed.

#[export] Instance nat_lt_antisymm : AntiSymm eq lt.
Proof. intros x y. lia. Qed.
Lemma strictly_sorted_eq l k :
  strictly_sorted l -> strictly_sorted k -> (forall x, x ∈ l <-> x ∈ k) -> l = k.
Proof.
  intros Hl Hk Heq. apply (StronglySorted_unique lt); [done..|].
  apply NoDup_Permutation; auto using strictly_sorted_NoDup.
Qed.

(** On a sorted slice the binary search decides membership. *)
Lemma binary_search_loop_spec fuel l x base size b :
  strictly_sorted l -> size <= fuel -> 0 < size -> base + size <= length l ->
  (forall i, l !! i = Some x -> base <= i < base + size) ->
  binary_search_loop fuel l x base size = Some b ->
  forall i, l !! i = Some x -> i = b.
Proof.
  intros Hs. revert base size; induction fuel as [|fuel IH]; intros base size Hf H0 Hlen Hin;
    simpl; [lia|].
  destruct (Nat.leb_spec size 1) as [H1|H1].
  - intros [= <-] i Hi. specialize (Hin i Hi). lia.
  - rewrite Nat.div2_div. pose proof (Nat.div_lt size 2). pose proof (Nat.div_str_pos size 2).
    pose proof (Nat.Div0.mul_div_le size 2). set (half := size / 2) in *.
    destruct (l !! (base + half)) as [y|] eqn:Hy; [|done].
    apply IH; [lia..| |].
    + destruct (Nat.ltb_spec x y); lia.
    + intros i Hi. pose proof (Hin i Hi) as Hb.
      destruct (Nat.ltb_spec x y) as [Hxy|Hxy].
      * split; [lia|]. destruct (decide (base + half <= i)) as [Hle|]; [|lia].
        destruct (decide (i = base + half)) as [->|]; [simplify_eq; lia|].
        pose proof (strictly_sorted_lookup_lt l (base + half) i y x Hs Hy Hi). lia.
      * split; [|lia]. destruct (decide (base + half <= i)) as [Hle|]; [lia|].
        pose proof (strictly_sorted_lookup_lt l i (base + half) x y Hs Hi Hy). lia.
Qed.
Lemma binary_search_loop_total fuel l x base size :
  size <= fuel -> 0 < size -> base + size <= length l ->
  exists b, binary_search_loop fuel l x base size = Some b.
Proof.
  revert base size; induction fuel as [|fuel IH]; intros base size Hf H0 Hlen; simpl; [lia|].
  destruct (Nat.leb_spec size 1) as [H1|H1]; [by eexists|].
  rewrite Nat.div2_div. pose proof (Nat.div_lt size 2). pose proof (Nat.div_str_pos size 2).
  destruct (lookup_lt_is_Some_2 l (base + size / 2)) as [y ->]; [lia|].
  apply IH; [lia..|]. destruct (Nat.ltb_spec x y); lia.
Qed.
Lemma binary_search_spec l x :
  strictly_sorted l -> binary_search_is_ok l x = bool_decide (x ∈ l).
Proof.
  intros Hs. destruct l as [|a l]; [done|]. unfold binary_search_is_ok.
  destruct (binary_search_loop_total (length (a :: l)) (a :: l) x 0 (length (a :: l)))
    as [b Hb]; [simpl; lia..|]. rewrite Hb. apply bool_decide_ext. split.
  - intros H. by eapply list_elem_of_lookup_2.
  - intros [i Hi]%list_elem_of_lookup.
    assert (i = b) as <-; [|done].
    eapply binary_search_loop_spec; [exact Hs| | | | |exact Hb|exact Hi]; [simpl; lia..|].
    intros j Hj%lookup_lt_Some. simpl in *; lia.
Qed.

(** ** Ordered maps *)

Section btree.
Context {K V : Type} `{Countable K, OrdKey K}.
Implicit Types (m : gmap K V).

Lemma btree_iter_Permutation m : btree_iter m ≡ₚ map_to_list m.
Proof. apply merge_sort_Permutation. Qed.
Lemma elem_of_btree_iter m k v : (k, v) ∈ btree_iter m <-> m !! k = Some v.
Proof. by rewrite btree_iter_Permutation, elem_of_map_to_list. Qed.
Lemma btree_keys_NoDup m : NoDup (btree_keys m).
Proof.
  unfold btree_keys. rewrite (btree_iter_Permutation m). apply NoDup_fst_map_to_list.
Qed.
Lemma elem_of_btree_keys m k : k ∈ btree_keys m <-> is_Some (m !! k).
Proof.
  unfold btree_keys. rewrite list_elem_of_fmap. split.
  - intros ([k' v]&->&Hin). exists v. by apply elem_of_btree_iter.
  - intros [v Hv]. exists (k, v). by rewrite elem_of_btree_iter.
Qed.
Lemma length_btree_keys m : length (btree_keys m) = size m.
Proof.
  unfold btree_keys. rewrite length_map, (btree_iter_Permutation m).
  apply length_map_to_list.
Qed.

(** Iteration follows the order of the keys. *)
Lemma btree_iter_sorted m : StronglySorted entry_le (btree_iter m).
Proof.
  apply StronglySorted_merge_sort.
  - intros [a ?] [b ?] [c ?]; unfold entry_le; simpl. apply key_leb_trans.
  - intros [a ?] [b ?]; unfold entry_le; simpl. apply key_leb_total.
Qed.

Context (f : V -> N).
Definition btree_sum m : N := sum_N (map f (btree_values m)).

Lemma btree_sum_alt m : btree_sum m = sum_N (map (fun p => f (snd p)) (map_to_list m)).
Proof.
  unfold btree_sum, btree_values. rewrite map_map. by rewrite (btree_iter_Permutation m).
Qed.
Lemma btree_sum_empty : btree_sum ∅ = 0%N.
Proof. by rewrite btree_sum_alt, map_to_list_empty. Qed.
Lemma btree_sum_insert m k v :
  m !! k = None -> btree_sum (<[k:=v]> m) = (f v + btree_sum m)%N.
Proof. intros Hk. by rewrite !btree_sum_alt, map_to_list_insert. Qed.
Lemma btree_sum_delete m k v :
  m !! k = Some v -> btree_sum m = (f v + btree_sum (delete k m))%N.
Proof. intros Hk. by rewrite !btree_sum_alt, <-(map_to_list_delete m k v). Qed.
End btree.

(** ** Running methods *)

Section methods.
Context {S E A B : Type}.
Implicit Types (s : S) (k : A -> M S E B).

Lemma run_read (f : S -> result E A) k s :
  (read f ≫= k) s =
  match f s with Ok a => k a s | Err e => (s, Err e) | Panic => (s, Panic) end.
Proof. done. Qed.
Lemma run_gets (f : S -> A) k s : (gets f ≫= k) s = k (f s) s.
Proof. done. Qed.
Lemma run_modify (f : S -> S) (k : unit -> M S E B) s : (modify f ≫= k) s = k tt (f s).
Proof. done. Qed.
Lemma run_ret (a : A) s : (mret a : M S E A) s = (s, Ok a).
Proof. done. Qed.
Lemma run_lift (r : result E A) s : lift r s = (s, r).
Proof. done. Qed.
Lemma run_bind (m : M S E A) k s :
  (m ≫= k) s =
  match m s with
  | (s', Ok a) => k a s'
  | (s', Err e) => (s', Err e)
  | (s', Panic) => (s', Panic)
  end.
Proof. done. Qed.
End methods.
Create Rewrite HintDb monad.
#[export] Hint Rewrite @run_read @run_gets @run_modify @run_ret @run_lift : monad.
