(* ===== verification/Bytes.v ===== *)
(** * Byte strings

    Big-endian encodings of machine integers ([to_be_bytes], [from_be_bytes])
    and byte-string literals, shared by the digest builder and the codecs. *)

From Stdlib Require Import Strings.String.
From S2P Require Import Prelude.

Definition byte_of_N (v : N) : byte :=
  match Byte.of_N (v mod 256) with Some b => b | None => x00 end.

(** [uN::to_be_bytes], [n] bytes. *)
Fixpoint be_bytes (n : nat) (v : N) : list byte :=
  match n with
  | O => []
  | S n => be_bytes n (v / 256) ++ [byte_of_N v]
  end.

(** [uN::from_be_bytes]. *)
Definition of_be_bytes (l : list byte) : N :=
  fold_left (fun acc b => acc * 256 + Byte.to_N b)%N l 0%N.

Definition ascii_bytes (s : string) : list byte := list_byte_of_string s.

Lemma to_N_byte_of_N v : Byte.to_N (byte_of_N v) = (v mod 256)%N.
Proof.
  unfold byte_of_N. assert (v mod 256 < 256)%N by (apply N.mod_lt; lia).
  destruct (Byte.of_N (v mod 256)) eqn:E; [by apply Byte.to_of_N|].
  apply Byte.of_N_None_iff in E. lia.
Qed.
Lemma to_N_bounded b : (Byte.to_N b < 256)%N.
Proof. pose proof (Byte.to_N_bounded b). lia. Qed.
Lemma to_N_inj b c : Byte.to_N b = Byte.to_N c -> b = c.
Proof.
  intros H. pose proof (Byte.of_to_N b) as H1. rewrite H, Byte.of_to_N in H1. congruence.
Qed.
Lemma byte_of_N_to_N b v : byte_of_N (v * 256 + Byte.to_N b) = b.
Proof.
  apply to_N_inj. rewrite to_N_byte_of_N. pose proof (to_N_bounded b).
  rewrite N.add_comm, N.Div0.mod_add, N.mod_small; done.
Qed.

Lemma length_be_bytes n v : List.length (be_bytes n v) = n.
Proof.
  revert v; induction n as [|n IH]; intros v; simpl; [done|].
  rewrite length_app, IH. simpl. lia.
Qed.
Lemma of_be_bytes_snoc l b : of_be_bytes (l ++ [b]) = (of_be_bytes l * 256 + Byte.to_N b)%N.
Proof. unfold of_be_bytes. by rewrite fold_left_app. Qed.
Lemma of_be_bytes_be_bytes n v : (v < 256 ^ N.of_nat n)%N -> of_be_bytes (be_bytes n v) = v.
Proof.
  revert v; induction n as [|n IH]; intros v Hv.
  - simpl in *. rewrite N.pow_0_r in Hv. unfold of_be_bytes; simpl. lia.
  - rewrite Nat2N.inj_succ, N.pow_succ_r' in Hv.
    simpl. rewrite of_be_bytes_snoc, IH, to_N_byte_of_N.
    + pose proof (N.div_mod v 256). lia.
    + apply N.Div0.div_lt_upper_bound. lia.
Qed.
Lemma be_bytes_of_be_bytes l : be_bytes (List.length l) (of_be_bytes l) = l.
Proof.
  induction l as [|b l IH] using rev_ind; [done|].
  rewrite length_app, Nat.add_comm. simpl. rewrite of_be_bytes_snoc, byte_of_N_to_N.
  f_equal. rewrite N.add_comm, N.div_add, N.div_small, N.add_0_l by (apply to_N_bounded || lia).
  done.
Qed.
Lemma of_be_bytes_bound l : (of_be_bytes l < 256 ^ N.of_nat (List.length l))%N.
Proof.
  induction l as [|b l IH] using rev_ind.
  - simpl. rewrite N.pow_0_r. unfold of_be_bytes; simpl. lia.
  - rewrite length_app, of_be_bytes_snoc, Nat.add_comm. simpl List.length.
    rewrite Nat2N.inj_add, N.pow_add_r. pose proof (to_N_bounded b). simpl N.of_nat.
    rewrite N.pow_1_r. nia.
Qed.
Lemma be_bytes_inj n v w :
  (v < 256 ^ N.of_nat n)%N -> (w < 256 ^ N.of_nat n)%N -> be_bytes n v = be_bytes n w -> v = w.
Proof.
  intros Hv Hw H. by rewrite <-(of_be_bytes_be_bytes n v), <-(of_be_bytes_be_bytes n w), H.
Qed.

Lemma len_be_bytes n v : len (be_bytes n v) = N.of_nat n.
Proof. unfold len. by rewrite length_be_bytes. Qed.
Lemma len_vec n (v : vec byte n) : len (vec_to_list v) = N.of_nat n.
Proof. unfold len. by rewrite length_vec_to_list. Qed.

(** Two strings that start with fixed-length parts split at the same place. *)
Lemma app_be_bytes_inj n v w k l :
  be_bytes n v ++ k = be_bytes n w ++ l -> be_bytes n v = be_bytes n w /\ k = l.
Proof. intros H. apply app_inj_1 in H; [done|by rewrite !length_be_bytes]. Qed.
#[global] Arguments be_bytes : simpl never.

(** ** Slices of a frame *)

(** [&l[a..b]]: panics unless [a <= b <= l.len()]. *)
Definition slice_range {E : Type} (l : list byte) (a b : N) : result E (list byte) :=
  if (a <=? b)%N && (b <=? len l)%N
  then Ok (take (N.to_nat (b - a)) (drop (N.to_nat a) l)) else Panic.

(** [u16::from_be_bytes([l[0], l[1]])] and the like: panics on a short slice. *)
Definition read_u16 {E : Type} (l : list byte) : result E N :=
  match l with a :: b :: _ => Ok (of_be_bytes [a; b]) | _ => Panic end.
Definition read_u32 {E : Type} (l : list byte) : result E N :=
  match l with a :: b :: c :: d :: _ => Ok (of_be_bytes [a; b; c; d]) | _ => Panic end.

Definition read_u64 {E : Type} (l : list byte) : result E N :=
  match l with
  | a :: b :: c :: d :: e :: f :: g :: h :: _ => Ok (of_be_bytes [a; b; c; d; e; f; g; h])
  | _ => Panic
  end.

(** [value.copy_from_slice(l)] into a [[u8; n]]: panics on another length. *)
Definition array_of {E : Type} (n : nat) (l : list byte) : result E (vec byte n) :=
  unwrap (vec_of_list n l).

Lemma slice_range_app {E : Type} (pre mid post : list byte) :
  slice_range (E:=E) (pre ++ mid ++ post) (len pre) (len pre + len mid) = Ok mid.
Proof.
  unfold slice_range, len. rewrite !length_app.
  rewrite (proj2 (N.leb_le _ _)) by lia. rewrite (proj2 (N.leb_le _ _)) by lia. simpl.
  rewrite Nat2N.id, drop_app_length.
  replace (N.to_nat _) with (List.length mid) by lia. by rewrite take_app_length.
Qed.
Lemma slice_at {E : Type} (l pre mid post : list byte) a b :
  l = pre ++ mid ++ post -> a = len pre -> b = (a + len mid)%N ->
  slice_range (E:=E) l a b = Ok mid.
Proof. intros -> -> ->. apply slice_range_app. Qed.
Lemma slice_range_Ok {E : Type} l a b v :
  slice_range (E:=E) l a b = Ok v <->
  (a <= b)%N /\ (b <= len l)%N /\ v = take (N.to_nat (b - a)) (drop (N.to_nat a) l).
Proof.
  unfold slice_range. destruct (N.leb_spec a b), (N.leb_spec b (len l)); simpl;
    split; try (intros (? & ? & ?)); try done; try lia; [|congruence].
  intros [= <-]. done.
Qed.
Lemma slice_range_len {E : Type} l a b v :
  slice_range (E:=E) l a b = Ok v -> len v = (b - a)%N.
Proof.
  intros (Hab & Hb & ->)%slice_range_Ok. unfold len in *. rewrite length_take, length_drop. lia.
Qed.
(** Consecutive slices cover a byte string. *)
Lemma slice_range_drop {E : Type} l a b v :
  slice_range (E:=E) l a b = Ok v -> drop (N.to_nat a) l = v ++ drop (N.to_nat b) l.
Proof.
  intros (Hab & Hb & ->)%slice_range_Ok.
  replace (N.to_nat b) with (N.to_nat a + N.to_nat (b - a))%nat by lia.
  rewrite <-drop_drop, take_drop. done.
Qed.
Lemma slice_range_total {E : Type} l a b :
  (a <= b)%N -> (b <= len l)%N -> exists v, slice_range (E:=E) l a b = Ok v.
Proof. intros. eexists. by apply slice_range_Ok. Qed.

Lemma read_u16_be {E : Type} v rest :
  (v <= u16_max)%N -> read_u16 (E:=E) (be_bytes 2 v ++ rest) = Ok v.
Proof.
  intros Hv. pose proof (length_be_bytes 2 v) as Hl.
  destruct (be_bytes 2 v) as [|a [|b [|c l]]] eqn:E2; try discriminate Hl. simpl.
  f_equal. rewrite <-E2. apply of_be_bytes_be_bytes. unfold u16_max in Hv. simpl N.of_nat. lia.
Qed.
Lemma read_u32_be {E : Type} v rest :
  (v <= u32_max)%N -> read_u32 (E:=E) (be_bytes 4 v ++ rest) = Ok v.
Proof.
  intros Hv. pose proof (length_be_bytes 4 v) as Hl.
  destruct (be_bytes 4 v) as [|a [|b [|c [|d [|e l]]]]] eqn:E4; try discriminate Hl. simpl.
  f_equal. rewrite <-E4. apply of_be_bytes_be_bytes. unfold u32_max in Hv. simpl N.of_nat. lia.
Qed.
Lemma read_u16_exact {E : Type} v : (v <= u16_max)%N -> read_u16 (E:=E) (be_bytes 2 v) = Ok v.
Proof. intros. rewrite <-(app_nil_r (be_bytes 2 v)). by apply read_u16_be. Qed.
Lemma read_u32_exact {E : Type} v : (v <= u32_max)%N -> read_u32 (E:=E) (be_bytes 4 v) = Ok v.
Proof. intros. rewrite <-(app_nil_r (be_bytes 4 v)). by apply read_u32_be. Qed.
Lemma read_u64_exact {E : Type} v : (v <= u64_max)%N -> read_u64 (E:=E) (be_bytes 8 v) = Ok v.
Proof.
  intros Hv. pose proof (length_be_bytes 8 v) as Hl.
  destruct (be_bytes 8 v) as [|a [|b [|c [|d [|e [|f [|g [|h [|i l]]]]]]]]] eqn:E8; try discriminate Hl.
  simpl. f_equal. rewrite <-E8. apply of_be_bytes_be_bytes. unfold u64_max in Hv. simpl N.of_nat. lia.
Qed.
Lemma read_u64_total {E : Type} l :
  (8 <= len l)%N -> exists v, read_u64 (E:=E) l = Ok v /\ (v <= u64_max)%N.
Proof.
  destruct l as [|a [|b [|c [|d [|e [|f [|g [|h l]]]]]]]]; unfold len; simpl List.length; try lia.
  intros _. eexists. split; [done|].
  pose proof (of_be_bytes_bound [a; b; c; d; e; f; g; h]) as H. simpl List.length in H. unfold u64_max.
  simpl N.of_nat in H. lia.
Qed.
Lemma read_u16_total {E : Type} l : (2 <= len l)%N -> exists v, read_u16 (E:=E) l = Ok v /\ (v <= u16_max)%N.
Proof.
  destruct l as [|a [|b l]]; unfold len; simpl List.length; try lia. intros _. eexists. split; [done|].
  pose proof (of_be_bytes_bound [a; b]) as H. simpl List.length in H. unfold u16_max. simpl N.of_nat in H. lia.
Qed.
Lemma read_u32_total {E : Type} l : (4 <= len l)%N -> exists v, read_u32 (E:=E) l = Ok v /\ (v <= u32_max)%N.
Proof.
  destruct l as [|a [|b [|c [|d l]]]]; unfold len; simpl List.length; try lia. intros _. eexists. split; [done|].
  pose proof (of_be_bytes_bound [a; b; c; d]) as H. simpl List.length in H. unfold u32_max.
  simpl N.of_nat in H. lia.
Qed.
Lemma array_of_vec {E : Type} n (v : vec byte n) : array_of (E:=E) n (vec_to_list v) = Ok v.
Proof. unfold array_of. by rewrite vec_of_list_to_list. Qed.
Lemma vec_of_list_total n l : List.length l = n -> exists v, vec_of_list n l = Some v.
Proof.
  revert l; induction n as [|n IH]; intros [|x l] H; try discriminate H; simpl; [by eexists|].
  destruct (IH l) as [v ->]; [by injection H|]. by eexists.
Qed.
Lemma vec_of_list_Some n l v : vec_of_list n l = Some v -> vec_to_list v = l.
Proof.
  revert l v; induction n as [|n IH]; intros [|x l] v H; try discriminate H; simpl in H.
  - by injection H as <-.
  - destruct (vec_of_list n l) as [w|] eqn:Hw; [|discriminate H]. injection H as <-.
    simpl. f_equal. by apply IH.
Qed.
Lemma array_of_total {E : Type} n l : len l = N.of_nat n -> exists v, array_of (E:=E) n l = Ok v.
Proof.
  intros H. destruct (vec_of_list_total n l) as [v Hv]; [unfold len in H; lia|].
  exists v. unfold array_of. by rewrite Hv.
Qed.
Lemma array_of_Ok {E : Type} n l v : array_of (E:=E) n l = Ok v -> vec_to_list v = l.
Proof. unfold array_of. intros H. apply unwrap_Ok in H. by apply vec_of_list_Some. Qed.
Lemma read_u16_Ok {E : Type} l v : len l = 2%N -> read_u16 (E:=E) l = Ok v -> l = be_bytes 2 v.
Proof.
  destruct l as [|a [|b [|c l]]]; unfold len; simpl List.length; try lia. intros _ [= <-].
  symmetry. apply (be_bytes_of_be_bytes [a; b]).
Qed.
Lemma read_u32_Ok {E : Type} l v : len l = 4%N -> read_u32 (E:=E) l = Ok v -> l = be_bytes 4 v.
Proof.
  destruct l as [|a [|b [|c [|d [|e l]]]]]; unfold len; simpl List.length; try lia. intros _ [= <-].
  symmetry. apply (be_bytes_of_be_bytes [a; b; c; d]).
Qed.
Lemma read_u64_Ok {E : Type} l v : len l = 8%N -> read_u64 (E:=E) l = Ok v -> l = be_bytes 8 v.
Proof.
  destruct l as [|a [|b [|c [|d [|e [|f [|g [|h [|i l]]]]]]]]]; unfold len; simpl List.length; try lia.
  intros _ [= <-]. symmetry. apply (be_bytes_of_be_bytes [a; b; c; d; e; f; g; h]).
Qed.
Lemma read_u16_bound {E : Type} l v : read_u16 (E:=E) l = Ok v -> (v <= u16_max)%N.
Proof.
  destruct l as [|a [|b l]]; [discriminate..|]. intros [= <-].
  pose proof (of_be_bytes_bound [a; b]) as H. simpl List.length in H. unfold u16_max. simpl N.of_nat in H. lia.
Qed.
Lemma read_u64_bound {E : Type} l v : read_u64 (E:=E) l = Ok v -> (v <= u64_max)%N.
Proof.
  destruct l as [|a [|b [|c [|d [|e [|f [|g [|h l]]]]]]]]; [discriminate..|]. intros [= <-].
  pose proof (of_be_bytes_bound [a; b; c; d; e; f; g; h]) as H. simpl List.length in H. unfold u64_max.
  simpl N.of_nat in H. lia.
Qed.
Lemma read_u32_bound {E : Type} l v : read_u32 (E:=E) l = Ok v -> (v <= u32_max)%N.
Proof.
  destruct l as [|a [|b [|c [|d l]]]]; try discriminate. intros [= <-].
  pose proof (of_be_bytes_bound [a; b; c; d]) as H. simpl List.length in H. unfold u32_max.
  simpl N.of_nat in H. lia.
Qed.

Lemma read_u16_safe {E : Type} l : len l = 2%N -> read_u16 (E:=E) l <> Panic.
Proof. intros H. destruct (read_u16_total (E:=E) l) as (v & -> & _); [lia|done]. Qed.
Lemma read_u32_safe {E : Type} l : len l = 4%N -> read_u32 (E:=E) l <> Panic.
Proof. intros H. destruct (read_u32_total (E:=E) l) as (v & -> & _); [lia|done]. Qed.
Lemma read_u64_safe {E : Type} l : len l = 8%N -> read_u64 (E:=E) l <> Panic.
Proof. intros H. destruct (read_u64_total (E:=E) l) as (v & -> & _); [lia|done]. Qed.
