(* ===== verification/Slices.v ===== *)
(** * Operations of Rust slices

    [slice::binary_search_by], [slice::chunks], [Vec::insert] and
    [Iterator::try_for_each], with the facts the components use. *)

From S2P Require Import Prelude Bytes.
Open Scope rust_scope.

(** [Ord::cmp] on byte arrays. *)
Definition compare_bytes (a b : list byte) : comparison :=
  if bool_decide (a = b) then Eq else if bytes_leb a b then Lt else Gt.

(** [slice::binary_search_by]: [inl] is [Ok] and [inr] is [Err]. *)
Fixpoint search_loop {A : Type} (fuel : nat) (cmp : A -> comparison) (l : list A) (base size : nat)
    : nat :=
  match fuel with
  | O => base
  | S fuel =>
      if (size <=? 1)%nat then base
      else
        let half := Nat.div2 size in
        let mid := (base + half)%nat in
        let base' := match cmp <$> l !! mid with Some Gt => base | _ => mid end in
        search_loop fuel cmp l base' (size - half)
  end.
Definition binary_search_by {A : Type} (cmp : A -> comparison) (l : list A) : nat + nat :=
  match l with
  | [] => inr 0%nat
  | _ =>
      let base := search_loop (length l) cmp l 0 (length l) in
      match cmp <$> l !! base with
      | Some Eq => inl base
      | Some Lt => inr (base + 1)%nat
      | _ => inr base
      end
  end.

(** [iter().try_for_each]. *)
Definition try_for_each {E A : Type} (f : A -> result E unit) (l : list A) : result E unit :=
  try_fold (fun _ x => f x) tt l.

(** [slice::chunks], for a nonzero chunk size. *)
Fixpoint chunks {A : Type} (fuel size : nat) (l : list A) : list (list A) :=
  match fuel, l with
  | _, [] => []
  | O, _ => []
  | S fuel, _ => take size l :: chunks fuel size (drop size l)
  end.

(** [Vec::insert]. *)
Definition vec_insert {E A : Type} (index : nat) (a : A) (l : list A) : result E (list A) :=
  if (index <=? length l)%nat then Ok (take index l ++ a :: drop index l) else Panic.

(** ** Byte order *)

Lemma bytes_leb_antisym a b : bytes_leb a b = true -> bytes_leb b a = true -> a = b.
Proof.
  revert b; induction a as [|x a IH]; intros [|y b]; simpl; try done.
  rewrite !orb_true_iff, !andb_true_iff, !N.ltb_lt, !N.eqb_eq.
  intros [?|[Hxy ?]] [?|[? ?]]; try lia. apply to_N_inj in Hxy as ->. f_equal. auto.
Qed.
Lemma bytes_leb_refl a : bytes_leb a a = true.
Proof. by destruct (bytes_leb_total a a). Qed.
Lemma bytes_leb_false a b : bytes_leb a b = false -> bytes_leb b a = true.
Proof. intros H. destruct (bytes_leb_total a b); congruence. Qed.
(** [b] comes before [c] whenever [a] does and [b] is not after [a]. *)
Lemma bytes_lt_trans a b c : bytes_leb b a = false -> bytes_leb c b = false -> bytes_leb c a = false.
Proof.
  intros Hab Hbc. destruct (bytes_leb c a) eqn:Hca; [|done].
  apply bytes_leb_false in Hab. by rewrite (bytes_leb_trans _ _ _ Hca Hab) in Hbc.
Qed.
Lemma compare_bytes_Eq a b : compare_bytes a b = Eq <-> a = b.
Proof.
  unfold compare_bytes. destruct (bool_decide_reflect (a = b)) as [->|Hne]; [done|].
  split; [by destruct (bytes_leb a b)|done].
Qed.
Lemma compare_bytes_Lt a b : compare_bytes a b = Lt <-> bytes_leb b a = false.
Proof.
  unfold compare_bytes. destruct (bool_decide_reflect (a = b)) as [->|Hne].
  { by rewrite bytes_leb_refl. }
  destruct (bytes_leb a b) eqn:Hab.
  - split; [|done]. intros _. destruct (bytes_leb b a) eqn:Hba; [|done].
    by destruct Hne; apply bytes_leb_antisym.
  - apply bytes_leb_false in Hab. split; [done|congruence].
Qed.
Lemma compare_bytes_Gt a b : compare_bytes a b = Gt <-> bytes_leb a b = false.
Proof.
  unfold compare_bytes. destruct (bool_decide_reflect (a = b)) as [->|Hne].
  { by rewrite bytes_leb_refl. }
  by destruct (bytes_leb a b).
Qed.

(** ** Binary search *)

Section search.
Context {A : Type} (cmp : A -> comparison) (l : list A).

(** The slice is strictly ordered with respect to the searched key. *)
Definition ordered_by : Prop := forall i j x y,
  l !! i = Some x -> l !! j = Some y -> i < j -> cmp x <> Lt -> cmp y = Gt.
(** Every element before [b] is smaller than the key, every one from [e] on greater. *)
Definition bracket (b e : nat) : Prop :=
  (forall i x, i < b -> l !! i = Some x -> cmp x = Lt) /\
  (forall i x, e <= i -> l !! i = Some x -> cmp x = Gt).

Lemma search_loop_spec fuel base size :
  ordered_by -> size <= fuel -> 0 < size -> base + size <= length l -> bracket base (base + size) ->
  let r := search_loop fuel cmp l base size in r < length l /\ bracket r (S r).
Proof.
  intros Ho. revert base size; induction fuel as [|fuel IH]; intros base size Hf H0 Hlen [Hb He].
  { lia. }
  cbn [search_loop]. destruct (Nat.leb_spec size 1) as [H1|H1].
  { replace size with 1 in * by lia. rewrite Nat.add_1_r in He. split; [lia|done]. }
  rewrite Nat.div2_div. pose proof (Nat.div_lt size 2). pose proof (Nat.div_str_pos size 2).
  pose proof (Nat.Div0.mul_div_le size 2). set (half := size / 2) in *.
  destruct (lookup_lt_is_Some_2 l (base + half)) as [y Hy]; [lia|]. rewrite Hy. cbn [fmap option_fmap option_map].
  assert (cmp y <> Gt -> bracket (base + half) (base + size)) as Hle.
  { intros Hc. split; [|done]. intros i x Hi Hx. destruct (cmp x) eqn:Hcx; [|done|];
      (destruct Hc; eapply Ho; [exact Hx|exact Hy|lia|by rewrite Hcx]). }
  destruct (cmp y) eqn:Hc.
  1,2: (apply IH; [lia..|]; replace (base + half + (size - half)) with (base + size) by lia;
        by apply Hle).
  apply IH; [lia..|]. split; [done|]. intros i x Hi Hx.
  destruct (decide (i = base + half)) as [->|]; [congruence|].
  eapply Ho; [exact Hy|exact Hx|lia|by rewrite Hc].
Qed.

(** The search finds the position of the key, or the one where it belongs. *)
Lemma binary_search_by_spec :
  ordered_by ->
  match binary_search_by cmp l with
  | inl i => exists x, l !! i = Some x /\ cmp x = Eq
  | inr i => i <= length l /\ bracket i i
  end.
Proof.
  intros Ho. unfold binary_search_by. destruct l as [|a l'] eqn:Hl.
  { split; [done|]. split; intros i x Hi Hx; rewrite Hl in Hx; done. }
  rewrite <-Hl in *.
  destruct (search_loop_spec (length l) 0 (length l)) as [Hr [Hb He]];
    [done|lia|by rewrite Hl; simpl; lia|lia| |].
  { split; [lia|]. intros i x Hi Hx%lookup_lt_Some. lia. }
  set (r := search_loop _ _ _ _ _) in *.
  destruct (lookup_lt_is_Some_2 l r Hr) as [x Hx]. rewrite Hx. cbn [fmap option_fmap option_map].
  destruct (cmp x) eqn:Hc; [by exists x| |].
  - split; [lia|]. split; intros i y Hi Hy.
    + destruct (decide (i = r)) as [->|]; [congruence|]. eapply Hb; [|exact Hy]. lia.
    + eapply He; [|exact Hy]. lia.
  - split; [lia|]. split; intros i y Hi Hy; [by eapply Hb|].
    destruct (decide (i = r)) as [->|]; [congruence|]. eapply He; [|exact Hy]. lia.
Qed.
End search.

(** ** Loops *)
Lemma try_fold_safe {E A B : Type} (f : B -> A -> result E B) l b :
  (forall b x, f b x <> Panic) -> try_fold f b l <> Panic.
Proof.
  intros Hf. revert b; induction l as [|x l IH]; intros b; cbn [try_fold]; [done|].
  apply no_panic_bind; [apply Hf|]. intros c _. apply IH.
Qed.

Lemma try_for_each_cons {E A : Type} (f : A -> result E unit) x l :
  try_for_each f (x :: l) = (_ ← f x; try_for_each f l).
Proof. unfold try_for_each. simpl. by destruct (f x) as [[]| |]. Qed.
Lemma try_for_each_app {E A : Type} (f : A -> result E unit) l k :
  try_for_each f (l ++ k) = (_ ← try_for_each f l; try_for_each f k).
Proof.
  induction l as [|x l IH]; [done|]. cbn [app]. rewrite !try_for_each_cons, IH.
  by destruct (f x) as [[]| |].
Qed.
Lemma try_for_each_Ok {E A : Type} (f : A -> result E unit) l :
  try_for_each f l = Ok tt <-> Forall (fun x => f x = Ok tt) l.
Proof.
  induction l as [|x l IH]; [by split|]. rewrite try_for_each_cons, bind_Ok, Forall_cons, <-IH.
  split; [intros ([] & ? & ?)|intros [??]; exists tt]; done.
Qed.
Lemma try_for_each_safe {E A : Type} (f : A -> result E unit) l :
  (forall x, x ∈ l -> f x <> Panic) -> try_for_each f l <> Panic.
Proof.
  induction l as [|x l IH]; intros Hf; [done|]. rewrite try_for_each_cons.
  apply no_panic_bind; [apply Hf; left|]. intros _ _. apply IH. intros y Hy. apply Hf. by right.
Qed.
(** Working through the chunks one after another is working through the slice. *)
Lemma try_for_each_chunks {E A : Type} (f : A -> result E unit) fuel size l :
  0 < size -> length l <= fuel ->
  try_for_each (try_for_each f) (chunks fuel size l) = try_for_each f l.
Proof.
  intros Hs. revert l; induction fuel as [|fuel IH]; intros [|x l] Hl; simpl in Hl; try lia; try done.
  cbn [chunks]. rewrite try_for_each_cons, IH by (rewrite length_drop; simpl; lia).
  by rewrite <-try_for_each_app, take_drop.
Qed.

Lemma elem_of_chunks {A : Type} fuel size (l c : list A) x : c ∈ chunks fuel size l -> x ∈ c -> x ∈ l.
Proof.
  revert l; induction fuel as [|fuel IH]; intros [|y l]; cbn [chunks]; try (by intros ?%not_elem_of_nil).
  intros [->|Hc]%elem_of_cons Hx.
  - rewrite <-(take_drop size (y :: l)). apply elem_of_app. by left.
  - rewrite <-(take_drop size (y :: l)). apply elem_of_app. right. by apply (IH (drop size (y :: l))).
Qed.

Lemma vec_insert_Ok {E A : Type} i (a : A) l k :
  vec_insert (E:=E) i a l = Ok k <-> i <= length l /\ k = take i l ++ a :: drop i l.
Proof. unfold vec_insert. destruct (Nat.leb_spec i (length l)); naive_solver lia. Qed.
Lemma vec_insert_Permutation {A : Type} i (a : A) l : take i l ++ a :: drop i l ≡ₚ a :: l.
Proof. by rewrite <-Permutation_middle, take_drop. Qed.
Lemma StronglySorted_insert {A : Type} (R : relation A) i (a : A) l :
  StronglySorted R l -> (forall x, x ∈ take i l -> R x a) -> (forall x, x ∈ drop i l -> R a x) ->
  StronglySorted R (take i l ++ a :: drop i l).
Proof.
  intros Hs Hb He. rewrite <-(take_drop i l) in Hs. apply StronglySorted_app in Hs as (Hc & Ht & Hd).
  apply StronglySorted_app_2; [|done|].
  - intros x y Hx [->|Hy]%elem_of_cons; auto.
  - constructor; [done|]. by apply Forall_forall.
Qed.
