(* ===== verification/SortKeys.v ===== *)
(** * Sorting a slice by a key

    [slice::sort_by_key] (a stable sort) and the check
    [windows(2).any(|pair| key(pair[0]) == key(pair[1]))] that follows it
    wherever the code builds a collection with unique keys. *)

From S2P Require Import Prelude.
Open Scope rust_scope.

Fixpoint insert_by_key {A K : Type} `{OrdKey K} (key : A -> K) (a : A) (l : list A) : list A :=
  match l with
  | [] => [a]
  | b :: l => if key_leb (key a) (key b) then a :: b :: l else b :: insert_by_key key a l
  end.
Definition sort_by_key {A K : Type} `{OrdKey K} (key : A -> K) (l : list A) : list A :=
  foldr (insert_by_key key) [] l.

Fixpoint adjacent_duplicate {A K : Type} `{EqDecision K} (key : A -> K) (l : list A) : bool :=
  match l with
  | a :: (b :: _) as l => bool_decide (key a = key b) || adjacent_duplicate key l
  | _ => false
  end.

(** Orders whose equivalence is equality. *)
Class AntisymKey (K : Type) `{OrdKey K} :=
  key_leb_antisym : forall a b : K, key_leb a b = true -> key_leb b a = true -> a = b.

Section by_key.
Context {A K : Type} `{OrdKey K} (key : A -> K).
Implicit Types l : list A.

Abbreviation key_sorted := (StronglySorted (fun a b => key_leb (key a) (key b) = true)).
(** Strictly increasing keys. *)
Abbreviation key_increasing := (StronglySorted (fun a b => key_leb (key b) (key a) = false)).

Lemma insert_by_key_Permutation a l : insert_by_key key a l ≡ₚ a :: l.
Proof.
  induction l as [|b l IH]; [done|]. cbn [insert_by_key]. case_match; [done|].
  rewrite IH. constructor.
Qed.
Lemma sort_by_key_Permutation l : sort_by_key key l ≡ₚ l.
Proof.
  induction l as [|a l IH]; [done|]. cbn [sort_by_key foldr].
  rewrite insert_by_key_Permutation. by constructor.
Qed.
Lemma insert_by_key_sorted a l : key_sorted l -> key_sorted (insert_by_key key a l).
Proof.
  induction 1 as [|b l Hl IH Hb]; cbn [insert_by_key]; [by repeat constructor|].
  destruct (key_leb (key a) (key b)) eqn:E.
  - constructor; [by constructor|]. constructor; [done|]. eapply Forall_impl; [exact Hb|].
    intros c Hc. by eapply key_leb_trans.
  - constructor; [done|]. rewrite insert_by_key_Permutation. constructor; [|done].
    destruct (key_leb_total (key a) (key b)); congruence.
Qed.
Lemma sort_by_key_sorted l : key_sorted (sort_by_key key l).
Proof. induction l; [constructor|]. by apply insert_by_key_sorted. Qed.

Context `{EqDecision K, !AntisymKey K}.

Lemma key_leb_refl (k : K) : key_leb k k = true.
Proof. by destruct (key_leb_total k k). Qed.

Lemma key_increasing_NoDup l : key_increasing l -> NoDup (map key l).
Proof.
  induction 1 as [|a l Hl IH Ha]; [constructor|]. cbn [map]. constructor; [|done].
  intros (b & Hb & Hin)%elem_of_map. rewrite Forall_forall in Ha. apply Ha in Hin.
  rewrite <-Hb, key_leb_refl in Hin. done.
Qed.

(** After a sort, no adjacent pair shares a key exactly when the keys are
    strictly increasing, that is, when no two elements share one. *)
Lemma adjacent_duplicate_sorted l :
  key_sorted l -> (adjacent_duplicate key l = false <-> key_increasing l).
Proof.
  induction 1 as [|a l Hl IH Ha]; [by split; [constructor|]|].
  destruct l as [|b l]; [split; [by repeat constructor|done]|].
  cbn [adjacent_duplicate]. rewrite orb_false_iff, bool_decide_eq_false, IH. clear IH.
  apply Forall_cons in Ha as [Hab Ha]. split.
  - intros [Hne Hinc]. constructor; [done|]. apply StronglySorted_inv in Hinc as [_ Hb].
    assert (key_leb (key b) (key a) = false) as Hba.
    { apply not_true_is_false. intros Hba. apply Hne. by apply key_leb_antisym. }
    constructor; [done|]. eapply Forall_impl; [exact Hb|]. intros c Hc.
    apply not_true_is_false. intros Hca. cbv beta in Hc. rewrite (key_leb_trans _ _ _ Hca Hab) in Hc. done.
  - intros [Hinc Hlt]%StronglySorted_inv. apply Forall_cons in Hlt as [Hba _]. split; [|done].
    intros Heq. rewrite Heq, key_leb_refl in Hba. done.
Qed.
Lemma key_sorted_NoDup l : key_sorted l -> NoDup (map key l) -> key_increasing l.
Proof.
  induction 1 as [|a l Hl IH Ha]; [constructor|]. cbn [map]. intros [Hn Hnd]%NoDup_cons.
  constructor; [by apply IH|]. rewrite Forall_forall in Ha |- *. intros b Hb.
  apply not_true_is_false. intros Hba. apply Hn, elem_of_map. exists b. split; [|done].
  apply key_leb_antisym; [|done]. by apply Ha.
Qed.
Lemma unique_keys l : adjacent_duplicate key (sort_by_key key l) = false <-> NoDup (map key l).
Proof.
  rewrite adjacent_duplicate_sorted by apply sort_by_key_sorted. split.
  - intros Hi%key_increasing_NoDup. by rewrite sort_by_key_Permutation in Hi.
  - intros Hn. apply key_sorted_NoDup; [apply sort_by_key_sorted|]. by rewrite sort_by_key_Permutation.
Qed.
End by_key.
