(* ===== verification/Cursor.v ===== *)
(** * Cursors over byte strings

    The readers of the fixed-layout codecs: a cursor holds the bytes that
    remain, each call takes some of them off or fails.  The state of the
    monad [M] is the remaining slice.  A reader is related to what the encoder
    writes by [reads]. *)

From S2P Require Import Prelude Bytes.
Open Scope rust_scope.

(** The errors a cursor reports. *)
Class CursorErrors (E : Type) := {
  truncated_field : E;
  field_too_large : E;
}.

Section cursor.
Context {E : Type} `{CursorErrors E}.
Abbreviation Reader := (M (list byte) E).

(** [self.remaining.split_at_checked(n)]. *)
Definition split_at_checked (n : nat) : Reader (list byte) := fun remaining =>
  if (n <=? length remaining)%nat then (drop n remaining, Ok (take n remaining))
  else (remaining, Err truncated_field).
Definition cursor_array (n : nat) : Reader (vec byte n) :=
  value ← split_at_checked n; lift (ok_or (vec_of_list n value) truncated_field).
Definition cursor_u8 : Reader N := a ← cursor_array 1; mret (of_be_bytes (vec_to_list a)).
Definition cursor_u16 : Reader N := a ← cursor_array 2; mret (of_be_bytes (vec_to_list a)).
Definition cursor_u32 : Reader N := a ← cursor_array 4; mret (of_be_bytes (vec_to_list a)).
Definition cursor_u64 : Reader N := a ← cursor_array 8; mret (of_be_bytes (vec_to_list a)).
Definition cursor_bytes (length maximum : N) : Reader (list byte) :=
  _ ← lift (fail_if (maximum <? length)%N field_too_large); split_at_checked (N.to_nat length).
Definition cursor_u16_bytes (maximum : N) : Reader (list byte) :=
  length ← cursor_u16; cursor_bytes length maximum.
(** [usize] has at least 32 bits, so the conversion of the length succeeds. *)
Definition cursor_u32_bytes (maximum : N) : Reader (list byte) :=
  length ← cursor_u32; cursor_bytes length maximum.

(** [(0..n).map(|_| reader)] collected into a vector, by a [for] loop. *)
Fixpoint read_many {A : Type} (n : nat) (reader : Reader A) : Reader (list A) :=
  match n with
  | O => mret []
  | S n => a ← reader; l ← read_many n reader; mret (a :: l)
  end.
End cursor.

(** ** Readers and what they read *)

Section reads.
Context {E : Type}.
Implicit Types (bytes rest : list byte).

(** The reader takes exactly [bytes] off the front and returns [a]. *)
Definition reads {A : Type} (p : M (list byte) E A) (a : A) bytes : Prop :=
  forall rest, p (bytes ++ rest) = (rest, Ok a).

Lemma reads_ret {A : Type} (a : A) : reads (mret a) a [].
Proof. done. Qed.
Lemma reads_bind {A B : Type} (p : M (list byte) E A) (f : A -> M (list byte) E B) a b bs bs' :
  reads p a bs -> reads (f a) b bs' -> reads (p ≫= f) b (bs ++ bs').
Proof.
  intros Hp Hf rest. unfold mbind, M_mbind. rewrite <-app_assoc, Hp. apply Hf.
Qed.
(** A step that reads nothing. *)
Lemma reads_lift {A B : Type} (r : result E A) (f : A -> M (list byte) E B) a b bs :
  r = Ok a -> reads (f a) b bs -> reads (lift r ≫= f) b bs.
Proof. intros -> Hf rest. apply Hf. Qed.
Lemma reads_map {A B : Type} (p : M (list byte) E A) (g : A -> B) a bs :
  reads p a bs -> reads (x ← p; mret (g x)) (g a) bs.
Proof. intros Hp rest. unfold mbind, M_mbind. by rewrite Hp. Qed.
(** Reading a whole slice. *)
Lemma reads_all {A : Type} (p : M (list byte) E A) a bs : reads p a bs -> p bs = ([], Ok a).
Proof. intros Hp. rewrite <-(app_nil_r bs) at 1. apply Hp. Qed.

Lemma reads_many {A : Type} (p : M (list byte) E A) (enc : A -> list byte) l :
  (forall a, a ∈ l -> reads p a (enc a)) -> reads (read_many (length l) p) l (concat (enc <$> l)).
Proof.
  induction l as [|a l IH]; intros Hl; [apply reads_ret|]. cbn [length read_many fmap list_fmap concat].
  eapply reads_bind; [apply Hl; left|]. eapply reads_map. apply IH. intros x Hx. apply Hl. by right.
Qed.
End reads.

Section primitives.
Context {E : Type} `{CursorErrors E}.

Lemma reads_split_at n bs : length bs = n -> reads (E:=E) (split_at_checked n) bs bs.
Proof.
  intros <- rest. unfold split_at_checked. rewrite length_app, (proj2 (Nat.leb_le _ _)) by lia.
  by rewrite drop_app_length, take_app_length.
Qed.
Lemma reads_array n (v : vec byte n) : reads (E:=E) (cursor_array n) v (vec_to_list v).
Proof.
  intros rest. unfold cursor_array, mbind, M_mbind.
  rewrite (reads_split_at n) by apply length_vec_to_list. unfold lift. by rewrite vec_of_list_to_list.
Qed.
Lemma reads_be n v :
  (v < 256 ^ N.of_nat n)%N ->
  reads (E:=E) (a ← cursor_array n; mret (of_be_bytes (vec_to_list a))) v (be_bytes n v).
Proof.
  intros Hv. destruct (vec_of_list_total n (be_bytes n v) (length_be_bytes n v)) as [w Hw].
  apply vec_of_list_Some in Hw. rewrite <-(of_be_bytes_be_bytes n v) at 1 by done.
  rewrite <-Hw at 2. rewrite <-Hw.
  apply (reads_map (cursor_array n) (fun a => of_be_bytes (vec_to_list a)) w), reads_array.
Qed.
Lemma reads_u8 v : (v < 256)%N -> reads (E:=E) cursor_u8 v (be_bytes 1 v).
Proof. intros Hv. by apply reads_be. Qed.
Lemma reads_u16 v : (v <= u16_max)%N -> reads (E:=E) cursor_u16 v (be_bytes 2 v).
Proof. intros Hv. apply reads_be. unfold u16_max in Hv. simpl N.of_nat. lia. Qed.
Lemma reads_u32 v : (v <= u32_max)%N -> reads (E:=E) cursor_u32 v (be_bytes 4 v).
Proof. intros Hv. apply reads_be. unfold u32_max in Hv. simpl N.of_nat. lia. Qed.
Lemma reads_u64 v : (v <= u64_max)%N -> reads (E:=E) cursor_u64 v (be_bytes 8 v).
Proof. intros Hv. apply reads_be. unfold u64_max in Hv. simpl N.of_nat. lia. Qed.
Lemma reads_bytes bs maximum :
  (len bs <= maximum)%N -> reads (E:=E) (cursor_bytes (len bs) maximum) bs bs.
Proof.
  intros Hm. unfold cursor_bytes. eapply reads_lift.
  - by rewrite (proj2 (N.ltb_ge _ _)).
  - apply reads_split_at. unfold len. lia.
Qed.
Lemma reads_u16_bytes bs maximum :
  (len bs <= maximum)%N -> (len bs <= u16_max)%N ->
  reads (E:=E) (cursor_u16_bytes maximum) bs (be_bytes 2 (len bs) ++ bs).
Proof. intros. eapply reads_bind; [by apply reads_u16|by apply reads_bytes]. Qed.
Lemma reads_u32_bytes bs maximum :
  (len bs <= maximum)%N -> (len bs <= u32_max)%N ->
  reads (E:=E) (cursor_u32_bytes maximum) bs (be_bytes 4 (len bs) ++ bs).
Proof. intros. eapply reads_bind; [by apply reads_u32|by apply reads_bytes]. Qed.
End primitives.

(** ** Postconditions of readers *)

Section yields.
Context {E : Type}.

Definition yields {A : Type} (p : M (list byte) E A) (P : A -> Prop) : Prop :=
  forall l l' a, p l = (l', Ok a) -> P a.

Lemma yields_ret {A : Type} (a : A) (P : A -> Prop) : P a -> yields (mret a) P.
Proof. intros HP l l' a' [= _ <-]. done. Qed.
Lemma yields_bind {A B : Type} (p : M (list byte) E A) (f : A -> M (list byte) E B) (P : B -> Prop) :
  (forall a, yields (f a) P) -> yields (p ≫= f) P.
Proof.
  intros Hf l l' b. unfold mbind, M_mbind. destruct (p l) as [l1 [a|e|]]; [apply Hf|done|done].
Qed.
Lemma yields_lift {A B : Type} (r : result E A) (f : A -> M (list byte) E B) (P : B -> Prop) :
  (forall a, r = Ok a -> yields (f a) P) -> yields (lift r ≫= f) P.
Proof.
  intros Hf l l' b. unfold mbind, M_mbind, lift. destruct r as [a|e|]; [by apply Hf|done|done].
Qed.
End yields.

(** ** Freedom from panics *)

Section reader_safe.
Context {E : Type}.

Definition reader_safe {A : Type} (p : M (list byte) E A) : Prop := forall l, (p l).2 <> Panic.

Lemma reader_safe_ret {A : Type} (a : A) : reader_safe (mret a).
Proof. intros l. done. Qed.
Lemma reader_safe_lift {A : Type} (r : result E A) : r <> Panic -> reader_safe (lift r).
Proof. intros Hr l. done. Qed.
Lemma reader_safe_bind {A B : Type} (p : M (list byte) E A) (f : A -> M (list byte) E B) :
  reader_safe p -> (forall a, reader_safe (f a)) -> reader_safe (p ≫= f).
Proof.
  intros Hp Hf l. specialize (Hp l). unfold mbind, M_mbind.
  destruct (p l) as [l' [a|e|]]; [apply Hf|done|done].
Qed.
Lemma reader_safe_many {A : Type} (p : M (list byte) E A) n :
  reader_safe p -> reader_safe (read_many n p).
Proof.
  intros Hp. induction n as [|n IH]; [apply reader_safe_ret|].
  apply reader_safe_bind; [done|]. intros a. apply reader_safe_bind; [done|]. intros k. apply reader_safe_ret.
Qed.
End reader_safe.

Lemma split_at_checked_safe {E : Type} `{CursorErrors E} n : reader_safe (E:=E) (split_at_checked n).
Proof. intros l. unfold split_at_checked. by destruct (n <=? length l)%nat. Qed.
Lemma cursor_array_safe {E : Type} `{CursorErrors E} n : reader_safe (E:=E) (cursor_array n).
Proof.
  apply reader_safe_bind; [apply split_at_checked_safe|]. intros a. apply reader_safe_lift, no_panic_ok_or.
Qed.
Lemma cursor_be_safe {E : Type} `{CursorErrors E} n :
  reader_safe (E:=E) (a ← cursor_array n; mret (of_be_bytes (vec_to_list a))).
Proof. apply reader_safe_bind; [apply cursor_array_safe|]. intros a. apply reader_safe_ret. Qed.
Lemma cursor_bytes_safe {E : Type} `{CursorErrors E} n m : reader_safe (E:=E) (cursor_bytes n m).
Proof.
  apply reader_safe_bind; [apply reader_safe_lift, no_panic_fail_if|]. intros _. apply split_at_checked_safe.
Qed.

Create HintDb reader discriminated.
#[export] Hint Resolve reader_safe_ret reader_safe_many split_at_checked_safe cursor_array_safe
  cursor_bytes_safe : reader.
#[export] Hint Extern 1 (reader_safe cursor_u8) => apply cursor_be_safe : reader.
#[export] Hint Extern 1 (reader_safe cursor_u16) => apply cursor_be_safe : reader.
#[export] Hint Extern 1 (reader_safe cursor_u32) => apply cursor_be_safe : reader.
#[export] Hint Extern 1 (reader_safe cursor_u64) => apply cursor_be_safe : reader.
#[export] Hint Extern 1 (reader_safe (cursor_u16_bytes _)) =>
  apply reader_safe_bind; [apply cursor_be_safe|intros ?; apply cursor_bytes_safe] : reader.
#[export] Hint Extern 1 (reader_safe (cursor_u32_bytes _)) =>
  apply reader_safe_bind; [apply cursor_be_safe|intros ?; apply cursor_bytes_safe] : reader.

(** Walks through a reader. *)
Ltac reader_safe :=
  repeat first
    [ solve [auto 2 with reader]
    | apply reader_safe_lift; solve [no_panic]
    | apply reader_safe_bind; [|intros ?] ].
