(* ===== verification/Wp.v ===== *)
(** * Weakest preconditions for [M]

    [wp m Q R s]: run on [s], [m] either returns [a] in a state of [Q a], or
    fails with [Some e] (or stops, [None]) in a state of [R]. *)

From S2P Require Import Prelude.
Open Scope rust_scope.

Section wp.
Context {S E : Type}.
Implicit Types (s : S).

Definition wp {A : Type} (m : M S E A) (Q : A -> S -> Prop) (R : option E -> S -> Prop) s : Prop :=
  match m s with
  | (s', Ok a) => Q a s'
  | (s', Err e) => R (Some e) s'
  | (s', Panic) => R None s'
  end.

Lemma wp_mono {A : Type} (m : M S E A) (Q Q' : A -> S -> Prop) (R R' : option E -> S -> Prop) s :
  wp m Q R s -> (forall a s', Q a s' -> Q' a s') -> (forall e s', R e s' -> R' e s') -> wp m Q' R' s.
Proof. unfold wp. intros Hm HQ HR. destruct (m s) as [s' [a|e|]]; auto. Qed.
Lemma wp_bind {A B : Type} (m : M S E A) (f : A -> M S E B) Q R s :
  wp m (fun a s' => wp (f a) Q R s') R s -> wp (m ≫= f) Q R s.
Proof. unfold wp, mbind, M_mbind. by destruct (m s) as [s' [a|e|]]. Qed.
Lemma wp_ret {A : Type} (a : A) (Q : A -> S -> Prop) R s : Q a s -> wp (mret a) Q R s.
Proof. done. Qed.
Lemma wp_lift {A : Type} (r : result E A) (Q : A -> S -> Prop) R s :
  (forall a, r = Ok a -> Q a s) -> (forall e, r = Err e -> R (Some e) s) -> (r = Panic -> R None s) ->
  wp (lift r) Q R s.
Proof. unfold wp, lift. destruct r; auto. Qed.
Lemma wp_fail_if b (e : E) (Q : unit -> S -> Prop) R s :
  (b = false -> Q tt s) -> (b = true -> R (Some e) s) -> wp (lift (fail_if b e)) Q R s.
Proof. unfold wp, lift. destruct b; simpl; auto. Qed.
Lemma wp_read {A : Type} (f : S -> result E A) (Q : A -> S -> Prop) R s :
  (forall a, f s = Ok a -> Q a s) -> (forall e, f s = Err e -> R (Some e) s) ->
  (f s = Panic -> R None s) -> wp (read f) Q R s.
Proof. unfold wp, read. destruct (f s); auto. Qed.
Lemma wp_read_Ok {A : Type} (f : S -> result E A) a (Q : A -> S -> Prop) R s :
  f s = Ok a -> Q a s -> wp (read f) Q R s.
Proof. intros Hf HQ. unfold wp, read. by rewrite Hf. Qed.
Lemma wp_gets {A : Type} (f : S -> A) (Q : A -> S -> Prop) R s : Q (f s) s -> wp (gets f) Q R s.
Proof. done. Qed.
Lemma wp_modify (f : S -> S) (Q : unit -> S -> Prop) R s : Q tt (f s) -> wp (modify f) Q R s.
Proof. done. Qed.

(** What a run did. *)
Lemma wp_run {A : Type} (m : M S E A) Q R s s' r :
  wp m Q R s -> m s = (s', r) ->
  match r with Ok a => Q a s' | Err e => R (Some e) s' | Panic => R None s' end.
Proof. unfold wp. intros Hm Hr. rewrite Hr in Hm. by destruct r. Qed.
End wp.

Lemma wp_with_err {S E F A : Type} (f : E -> F) (m : M S E A) Q R s :
  wp m Q (fun e => R (f <$> e)) s -> wp (with_err f m) Q R s.
Proof. unfold wp, with_err. by destruct (m s) as [s' [a|e|]]. Qed.
Lemma wp_on_snd {S T E A : Type} (m : M T E A) (Q : A -> S * T -> Prop) R s t :
  wp m (fun a t' => Q a (s, t')) (fun e t' => R e (s, t')) t -> wp (on_snd m) Q R (s, t).
Proof. unfold wp, on_snd. by destruct (m t) as [t' [a|e|]]. Qed.
Lemma wp_for_each {S E A B : Type} (f : B -> A -> M S E B) (Inv : S -> Prop) (R : option E -> S -> Prop) l acc s :
  (forall b a s, Inv s -> wp (f b a) (fun _ => Inv) R s) -> Inv s ->
  wp (for_each f acc l) (fun _ => Inv) R s.
Proof.
  intros Hf. revert acc s; induction l as [|a l IH]; intros acc s Hs; [done|]. cbn [for_each].
  apply wp_bind. eapply wp_mono; [by apply Hf| |done]. intros b s' Hs'. by apply IH.
Qed.
