(* ===== verification/RestartWindow.v ===== *)
(** * Sliding restart windows

    The service manager and the process-domain recovery both keep a ledger of
    restart attempts, drop the attempts that left the window and refuse a new
    one when the ledger is full.  What such a ledger guarantees of the times
    of all attempts ever made. *)

From S2P Require Import Prelude.
Open Scope rust_scope.

Section window.
(** [far t' t]: the later time [t'] is outside the window opened at [t]. *)
Context {T : Type} (far : T -> T -> Prop) (maximum : N).

(** Times of attempts, newest first, with at most [maximum] in any window. *)
Definition spaced (times : list T) : Prop :=
  forall pre t' mid t post, times = pre ++ t' :: mid ++ t :: post ->
    (maximum <= N.of_nat (length mid) + 1)%N -> far t' t.

Lemma spaced_nil : spaced [].
Proof. intros pre t' mid t post He. by destruct pre. Qed.

(** A new attempt keeps the spacing when everything outside a ledger with
    room is far from it. *)
Lemma spaced_cons now times ledger old :
  spaced times -> times = rev ledger ++ old -> (len ledger < maximum)%N ->
  (forall t, t ∈ old -> far now t) -> spaced (now :: times).
Proof.
  intros Hsp Ht Hlen Hold pre t' mid t post Heq Hmid. destruct pre as [|x pre]; simpl in Heq.
  - injection Heq as <- Heq. apply Hold. rewrite Ht in Heq.
    assert (length (rev ledger) <= length mid) as Hl by (rewrite length_rev; unfold len in Hlen; lia).
    assert (old !! (length mid - length (rev ledger)) = Some t) as Hlk.
    { rewrite <-(lookup_app_r (rev ledger) old (length mid)) by done. rewrite Heq.
      by rewrite lookup_app_r, Nat.sub_diag. }
    by eapply list_elem_of_lookup_2.
  - injection Heq as -> Heq. by eapply Hsp.
Qed.

Lemma spaced_sublist times sub : spaced times -> sub `sublist_of` times -> spaced sub.
Proof.
  intros Hsp Hsub pre t' mid t post -> Hlen.
  apply sublist_app_l in Hsub as (A1 & A2 & -> & _ & Hsub).
  apply sublist_cons_l in Hsub as (A3 & A4 & -> & Hsub).
  apply sublist_app_l in Hsub as (A5 & A6 & -> & Hmid & Hsub).
  apply sublist_cons_l in Hsub as (A7 & A8 & -> & _).
  apply (Hsp (A1 ++ A3) t' (A5 ++ A7) t A8).
  - by rewrite <-?app_assoc, <-?app_comm_cons, <-?app_assoc.
  - apply sublist_length in Hmid. rewrite length_app. lia.
Qed.
End window.
