(* ===== verification/MountEvidence.v ===== *)
(** * Linux mount evidence

    The filesystem check of
    crates/paraegox-deployment/src/tenure_authority/store.rs: the state
    directory must lie on ext4, which statfs cannot tell from ext2 and ext3, so
    the mount id of the open descriptor is looked up in the process's mount
    table.  The contents of the two proc files are arguments. *)

From Stdlib Require Import Strings.String.
From S2P Require Import Prelude Bytes.
Open Scope rust_scope.

Definition MAX_LINUX_FDINFO_BYTES : N := 64 * 1024.
Definition MAX_LINUX_FDINFO_RECORDS : N := 256.
Definition MAX_LINUX_FDINFO_LINE_BYTES : N := 4 * 1024.
Definition MAX_LINUX_MOUNTINFO_BYTES : N := 4 * 1024 * 1024.
Definition MAX_LINUX_MOUNTINFO_RECORDS : N := 4096.
Definition MAX_LINUX_MOUNTINFO_LINE_BYTES : N := 64 * 1024.

Inductive LinuxMountEvidenceError :=
| LMIo | LMAllocationFailed | EvidenceTooLarge | TooManyRecords | LineTooLong | MalformedFdInfo
| MissingMountId | DuplicateMountId | MalformedMountInfo | MissingMountRecord | DuplicateMountRecord
| UnexpectedFilesystemType.
#[export] Instance LinuxMountEvidenceError_eq_dec : EqDecision LinuxMountEvidenceError.
Proof. solve_decision. Defined.
#[local] Abbreviation Res := (result LinuxMountEvidenceError).

(** ** Slices of bytes *)

(** [slice::split]. *)
Fixpoint split_on (p : byte -> bool) (l : list byte) : list (list byte) :=
  match l with
  | [] => [[]]
  | b :: l => if p b then [] :: split_on p l
              else match split_on p l with
                   | field :: fields => (b :: field) :: fields
                   | [] => [[b]]
                   end
  end.
Definition newline : byte := x0a.
Definition is_newline (b : byte) : bool := Byte.eqb b newline.
Definition is_ascii_whitespace (b : byte) : bool :=
  Byte.eqb b x20 || Byte.eqb b x09 || Byte.eqb b x0a || Byte.eqb b x0c || Byte.eqb b x0d.
Definition is_ascii_digit (b : byte) : bool := ((48 <=? Byte.to_N b) && (Byte.to_N b <=? 57))%N.
Definition is_horizontal (b : byte) : bool := Byte.eqb b x20 || Byte.eqb b x09.
Definition ends_with_newline (l : list byte) : bool := bool_decide (last l = Some newline).

Definition digit_step (value : N) (b : byte) : option N :=
  if negb (is_ascii_digit b) then None
  else v ← checked_mul u64_max value 10; checked_add u64_max v (Byte.to_N b - 48).
Definition parse_decimal (bytes : list byte) : option N :=
  if bool_decide (bytes = []) then None
  else foldl (fun acc b => v ← acc; digit_step v b) (Some 0%N) bytes.
Definition parse_positive_decimal (bytes : list byte) : option N :=
  value ← parse_decimal bytes; if negb (value =? 0)%N then Some value else None.

Fixpoint trim_start (l : list byte) : list byte :=
  match l with
  | b :: l' => if is_horizontal b then trim_start l' else l
  | [] => []
  end.
Definition trim_horizontal_ascii (bytes : list byte) : list byte :=
  reverse (trim_start (reverse (trim_start bytes))).

(** ** The mount id of the descriptor *)

Definition MNT_ID : list byte := ascii_bytes "mnt_id:".
Definition strip_mnt_id (line : list byte) : option (list byte) :=
  if bool_decide (take (length MNT_ID) line = MNT_ID) then Some (drop (length MNT_ID) line) else None.

(** The loop over the lines. *)
Fixpoint fdinfo_lines (record_count : N) (mount_id : option N) (lines : list (list byte)) : Res (option N) :=
  match lines with
  | [] => Ok mount_id
  | line :: lines =>
      record_count ← ok_or (checked_add u64_max record_count 1) TooManyRecords;
      bail TooManyRecords when (MAX_LINUX_FDINFO_RECORDS <? record_count)%N;
      bail MalformedFdInfo when bool_decide (line = []);
      bail LineTooLong when (MAX_LINUX_FDINFO_LINE_BYTES <? len line)%N;
      match strip_mnt_id line with
      | None => fdinfo_lines record_count mount_id lines
      | Some value =>
          parsed ← ok_or (parse_positive_decimal (trim_horizontal_ascii value)) MalformedFdInfo;
          bail DuplicateMountId when bool_decide (mount_id <> None);
          fdinfo_lines record_count (Some parsed) lines
      end
  end.
Definition parse_linux_fdinfo_mount_id (bytes : list byte) : Res N :=
  bail (if (MAX_LINUX_FDINFO_BYTES <? len bytes)%N then EvidenceTooLarge else MalformedFdInfo)
    when bool_decide (bytes = []) || (MAX_LINUX_FDINFO_BYTES <? len bytes)%N || negb (ends_with_newline bytes);
  mount_id ← fdinfo_lines 0 None (split_on is_newline (take (length bytes - 1) bytes));
  ok_or mount_id MissingMountId.

(** ** The mount table *)

Definition parse_linux_device_number (bytes : list byte) : Res unit :=
  let parts := split_on (Byte.eqb x3a) bytes in
  _ ← ok_or (part ← parts !! 0; parse_decimal part) MalformedMountInfo;
  _ ← ok_or (part ← parts !! 1; parse_decimal part) MalformedMountInfo;
  bail MalformedMountInfo when bool_decide (parts !! 2 <> None);
  Ok tt.

(** [fields.next().ok_or(MalformedMountInfo)?] on the fields not yet taken. *)
Definition next_field (fields : list (list byte)) : Res (list byte * list (list byte)) :=
  match fields with [] => Err MalformedMountInfo | field :: fields => Ok (field, fields) end.
Definition required_field (fields : list (list byte)) : Res (list (list byte)) :=
  '(required, fields) ← next_field fields;
  bail MalformedMountInfo when bool_decide (required = []);
  Ok fields.
Definition SEPARATOR : list byte := ascii_bytes "-".
(** The optional fields up to the separator, then the filesystem type. *)
Fixpoint filesystem_field (fields : list (list byte)) : Res (list byte * list (list byte)) :=
  match fields with
  | [] => Err MalformedMountInfo
  | field :: fields =>
      if bool_decide (field = SEPARATOR) then next_field fields else filesystem_field fields
  end.
Definition mount_fields (line : list byte) : list (list byte) :=
  List.filter (fun field => negb (bool_decide (field = []))) (split_on is_ascii_whitespace line).

(** One record: its mount id and filesystem type. *)
Definition parse_mount_record (line : list byte) : Res (N * list byte) :=
  '(field, fields) ← next_field (mount_fields line);
  mount_id ← ok_or (parse_positive_decimal field) MalformedMountInfo;
  '(field, fields) ← next_field fields;
  _ ← ok_or (parse_positive_decimal field) MalformedMountInfo;
  '(field, fields) ← next_field fields;
  _ ← parse_linux_device_number field;
  fields ← required_field fields;
  fields ← required_field fields;
  fields ← required_field fields;
  '(filesystem_type, fields) ← filesystem_field fields;
  '(mount_source, fields) ← next_field fields;
  '(super_options, fields) ← next_field fields;
  bail MalformedMountInfo
    when bool_decide (filesystem_type = []) || bool_decide (mount_source = [])
      || bool_decide (super_options = []) || negb (bool_decide (fields = []));
  Ok (mount_id, filesystem_type).

Definition EXT4 : list byte := ascii_bytes "ext4".
Fixpoint mountinfo_lines (expected_mount_id record_count : N) (matched_ext4 : option bool)
    (lines : list (list byte)) : Res (option bool) :=
  match lines with
  | [] => Ok matched_ext4
  | line :: lines =>
      record_count ← ok_or (checked_add u64_max record_count 1) TooManyRecords;
      bail TooManyRecords when (MAX_LINUX_MOUNTINFO_RECORDS <? record_count)%N;
      bail MalformedMountInfo when bool_decide (line = []);
      bail LineTooLong when (MAX_LINUX_MOUNTINFO_LINE_BYTES <? len line)%N;
      '(mount_id, filesystem_type) ← parse_mount_record line;
      if (mount_id =? expected_mount_id)%N then
        bail DuplicateMountRecord when bool_decide (matched_ext4 <> None);
        mountinfo_lines expected_mount_id record_count (Some (bool_decide (filesystem_type = EXT4))) lines
      else mountinfo_lines expected_mount_id record_count matched_ext4 lines
  end.
Definition parse_linux_mountinfo_exact_ext4 (bytes : list byte) (expected_mount_id : N) : Res unit :=
  bail EvidenceTooLarge when (MAX_LINUX_MOUNTINFO_BYTES <? len bytes)%N;
  bail MalformedMountInfo
    when (expected_mount_id =? 0)%N || bool_decide (bytes = []) || negb (ends_with_newline bytes);
  matched_ext4 ← mountinfo_lines expected_mount_id 0 None (split_on is_newline (take (length bytes - 1) bytes));
  match matched_ext4 with
  | Some true => Ok tt
  | Some false => Err UnexpectedFilesystemType
  | None => Err MissingMountRecord
  end.

(** The two proc files are read whole or not at all. *)
Definition verify_linux_ext4_mount (fdinfo mountinfo : Res (list byte)) : Res unit :=
  fdinfo ← fdinfo;
  mount_id ← parse_linux_fdinfo_mount_id fdinfo;
  mountinfo ← mountinfo;
  parse_linux_mountinfo_exact_ext4 mountinfo mount_id.

Definition lines_of (l : list string) : list byte := concat (map (fun s => ascii_bytes s ++ [newline]) l).
Example ext4_accepted :
  parse_linux_mountinfo_exact_ext4 (lines_of ["42 1 8:1 / / rw,nosuid - ext4 /dev/root rw"%string]) 42 = Ok tt.
Proof. reflexivity. Qed.
Example ext3_refused :
  parse_linux_mountinfo_exact_ext4 (lines_of ["42 1 8:1 / / rw - ext3 /dev/root rw"%string]) 42
  = Err UnexpectedFilesystemType.
Proof. reflexivity. Qed.
Example mount_id_found :
  parse_linux_fdinfo_mount_id (ascii_bytes "pos:" ++ [x09] ++ lines_of ["0"%string] ++ ascii_bytes "mnt_id:" ++ [x09]
    ++ lines_of ["42"%string]) = Ok 42%N.
Proof. reflexivity. Qed.

(** ** Lines *)

Definition unlines (lines : list (list byte)) : list byte := concat (map (fun line => line ++ [newline]) lines).
(** A text of lines, each ended by a newline. *)
Definition text_of (lines : list (list byte)) (bytes : list byte) : Prop :=
  bytes = unlines lines /\ lines <> [] /\ Forall (fun line => newline ∉ line) lines.

Lemma is_newline_eq b : is_newline b = true <-> b = newline.
Proof. unfold is_newline. destruct (Byte.eqb b newline) eqn:E; [apply Byte.byte_dec_bl in E|]; (split; [done|]); [done|].
  intros ->. discriminate E. Qed.
Lemma split_on_nonempty p l : split_on p l <> [].
Proof. destruct l as [|b l]; simpl; [done|]. destruct (p b); [done|]. by destruct (split_on p l). Qed.
Lemma split_lines l : text_of (split_on is_newline l) (l ++ [newline]).
Proof.
  induction l as [|b l (IH & Hne & Hf)].
  { split; [done|]. split; [done|]. constructor; [apply not_elem_of_nil|constructor]. }
  cbn [split_on app]. destruct (is_newline b) eqn:Hb.
  - apply is_newline_eq in Hb as ->. split; [by rewrite IH|]. split; [done|].
    constructor; [apply not_elem_of_nil|done].
  - destruct (split_on is_newline l) as [|x xs]; [done|]. apply Forall_cons in Hf as [Hx Hxs].
    split; [by cbn; rewrite IH|]. split; [done|]. constructor; [|done].
    apply not_elem_of_cons. split; [|done]. intros <-. by rewrite (proj2 (is_newline_eq newline)) in Hb.
Qed.
Lemma line_prefix_unique (x y : list byte) u v :
  newline ∉ x -> newline ∉ y -> x ++ newline :: u = y ++ newline :: v -> x = y /\ u = v.
Proof.
  revert y; induction x as [|a x IH]; intros [|b y] Hx Hy; cbn [app]; intros Heq; injection Heq.
  - done.
  - intros _ <-. destruct Hy. left.
  - intros _ ->. destruct Hx. left.
  - clear Heq. intros Heq ->. apply not_elem_of_cons in Hx as [_ Hx], Hy as [_ Hy]. destruct (IH y Hx Hy Heq) as [-> ->]. done.
Qed.
Lemma unlines_inj ls ls' :
  Forall (fun line => newline ∉ line) ls -> Forall (fun line => newline ∉ line) ls' ->
  unlines ls = unlines ls' -> ls = ls'.
Proof.
  revert ls'; induction ls as [|x ls IH]; intros [|y ls'] Hf Hf'; unfold unlines; cbn [map concat]; try done.
  - intros Hu. by destruct y.
  - intros Hu. by destruct x.
  - apply Forall_cons in Hf as [Hx Hf], Hf' as [Hy Hf']. rewrite <-!app_assoc. cbn [app]. intros Hu.
    apply line_prefix_unique in Hu as [-> Hu]; [|done..]. f_equal. by apply IH.
Qed.
Lemma text_of_unique ls ls' bytes : text_of ls bytes -> text_of ls' bytes -> ls = ls'.
Proof. intros (-> & _ & Hf) (Hu & _ & Hf'). by apply unlines_inj. Qed.

(** What both parsers split: the lines of a text. *)
Lemma text_lines bytes :
  bool_decide (bytes = []) = false -> ends_with_newline bytes = true ->
  text_of (split_on is_newline (take (length bytes - 1) bytes)) bytes.
Proof.
  unfold ends_with_newline. rewrite bool_decide_eq_true. intros _ Hl.
  apply last_Some in Hl as [l ->]. rewrite length_app, Nat.add_sub, take_app_length. apply split_lines.
Qed.
Lemma text_nonempty ls bytes : text_of ls bytes -> bool_decide (bytes = []) = false /\ ends_with_newline bytes = true.
Proof.
  intros (-> & Hne & _). destruct ls as [|x ls IHls] using rev_ind; [done|].
  unfold unlines, ends_with_newline. rewrite map_app, concat_app. cbn [map concat]. rewrite app_nil_r, app_assoc, last_snoc.
  split; [|done]. apply bool_decide_eq_false. intros Hx. by destruct (concat _ ++ x).
Qed.

(** ** Decimal numbers *)

Definition digit (b : byte) : N := Byte.to_N b - 48.
Definition decimal_value (bytes : list byte) : N := foldl (fun v b => v * 10 + digit b)%N 0%N bytes.

Lemma decimal_value_ge bytes v : (v <= foldl (fun v b => v * 10 + digit b) v bytes)%N.
Proof.
  revert v; induction bytes as [|b bytes IH]; intros v; cbn [foldl]; [done|].
  etransitivity; [|apply IH]. lia.
Qed.
Lemma digits_fold bytes v r :
  foldl (fun acc b => v ← acc; digit_step v b) (Some v) bytes = Some r <->
  Forall (fun b => is_ascii_digit b = true) bytes /\ r = foldl (fun v b => v * 10 + digit b)%N v bytes /\
  (bytes = [] \/ r <= u64_max)%N.
Proof.
  revert v; induction bytes as [|b bytes IH]; intros v; cbn [foldl].
  { split; [intros [= ->]; split_and!; auto|]. by intros (_ & -> & _). }
  cbn [mbind option_bind]. unfold digit_step at 2.
  destruct (is_ascii_digit b) eqn:Hb; cbn [negb].
  2: { split; [|intros (Hf & _); apply Forall_cons in Hf as [? _]; congruence].
       intros Hn. exfalso. clear -Hn. induction bytes as [|c bytes IH]; [done|]. by apply IH. }
  destruct (checked_mul u64_max v 10) as [v'|] eqn:Hm; cbn [mbind option_bind].
  2: { split; [intros Hn; exfalso; clear -Hn; induction bytes as [|c bytes IH]; [done|]; by apply IH|].
       intros (_ & Hr & [|Hle]); [done|]. apply checked_mul_None in Hm.
       pose proof (decimal_value_ge bytes (v * 10 + digit b)). lia. }
  apply checked_mul_Some in Hm as [-> Hm]. fold (digit b).
  destruct (checked_add u64_max (v * 10) (digit b)) as [v'|] eqn:Ha.
  2: { split; [intros Hn; exfalso; clear -Hn; induction bytes as [|c bytes IH]; [done|]; by apply IH|].
       intros (_ & Hr & [|Hle]); [done|]. apply checked_add_None in Ha.
       pose proof (decimal_value_ge bytes (v * 10 + digit b)). lia. }
  apply checked_add_Some in Ha as [-> Ha]. rewrite IH. split.
  - intros (Hf & -> & Hle). split; [by constructor|]. split; [done|]. right. destruct Hle as [->|?]; [cbn; lia|done].
  - intros (Hf & -> & Hle). apply Forall_cons in Hf as [_ Hf]. split_and!; [done|done|]. right. by destruct Hle.
Qed.
(** A number is read exactly, or refused when it does not fit. *)
Lemma parse_decimal_Some bytes v :
  parse_decimal bytes = Some v <->
  bytes <> [] /\ Forall (fun b => is_ascii_digit b = true) bytes /\ v = decimal_value bytes /\ (v <= u64_max)%N.
Proof.
  unfold parse_decimal, decimal_value. destruct (bool_decide_reflect (bytes = [])) as [->|Hne].
  - split; [done|by intros [? _]].
  - rewrite digits_fold. naive_solver.
Qed.

(** ** Records of the mount table *)

(** The layout that proc(5) gives: mount id, parent id, device, root, mount
    point, options, optional fields, a separator, filesystem type, source and
    options of the filesystem. *)
Definition mount_record (line : list byte) (id : N) (filesystem_type : list byte) : Prop :=
  exists idf parent device root point options optional source super,
    mount_fields line = idf :: parent :: device :: root :: point :: options :: optional
                        ++ [SEPARATOR; filesystem_type; source; super] /\
    SEPARATOR ∉ optional /\ parse_positive_decimal idf = Some id /\
    (exists v, parse_positive_decimal parent = Some v) /\ parse_linux_device_number device = Ok tt.

Lemma mount_fields_nonempty line f : f ∈ mount_fields line -> f <> [].
Proof.
  unfold mount_fields. rewrite list_elem_of_In, filter_In. intros [_ Hf%negb_true_iff%bool_decide_eq_false]. done.
Qed.
Lemma filesystem_field_Ok fields t rest :
  filesystem_field fields = Ok (t, rest) <->
  exists optional, fields = optional ++ SEPARATOR :: t :: rest /\ SEPARATOR ∉ optional.
Proof.
  induction fields as [|f fields IH]; cbn [filesystem_field].
  { split; [done|]. intros (o & Ho & _). by destruct o. }
  destruct (bool_decide_reflect (f = SEPARATOR)) as [->|Hne].
  - split.
    + destruct fields as [|x fields]; [done|]. intros [= -> ->]. exists []. split; [done|apply not_elem_of_nil].
    + intros ([|o os] & Ho & Hn); [by injection Ho as ->|]. injection Ho as <- _. destruct Hn. left.
  - rewrite IH. split.
    + intros (o & -> & Hn). exists (f :: o). split; [done|]. by apply not_elem_of_cons.
    + intros ([|o os] & Ho & Hn); [by injection Ho|]. injection Ho as <- ->. apply not_elem_of_cons in Hn as [_ Hn]. by exists os.
Qed.
Lemma required_field_Ok fields rest :
  required_field fields = Ok rest <-> exists f, fields = f :: rest /\ f <> [].
Proof.
  unfold required_field. destruct fields as [|f fields]; cbn [next_field mbind result_mbind].
  { split; [done|by intros (f & ? & _)]. }
  destruct (bool_decide_reflect (f = [])) as [->|Hne]; cbn [fail_if mbind result_mbind].
  - split; [done|]. intros (f & [= <- _] & Hn). done.
  - split; [intros [= ->]; by exists f|]. by intros (f' & [= -> ->] & _).
Qed.

Lemma parse_mount_record_Ok line id t : parse_mount_record line = Ok (id, t) <-> mount_record line id t.
Proof.
  unfold parse_mount_record, mount_record. pose proof (mount_fields_nonempty line) as Hne. split.
  - destruct (mount_fields line) as [|f1 [|f2 [|f3 fields]]]; cbn [next_field mbind result_mbind]; try done;
      intros Hr; [rust_inv; done..|].
    apply bind_Ok in Hr as (i & Hi%ok_or_Ok & Hr). apply bind_Ok in Hr as (v & Hv%ok_or_Ok & Hr).
    apply bind_Ok in Hr as ([] & Hd & Hr).
    apply bind_Ok in Hr as (r1 & (a & -> & _)%required_field_Ok & Hr).
    apply bind_Ok in Hr as (r2 & (b & -> & _)%required_field_Ok & Hr).
    apply bind_Ok in Hr as (r3 & (c & -> & _)%required_field_Ok & Hr).
    apply bind_Ok in Hr as ([t' r4] & (o & -> & Ho)%filesystem_field_Ok & Hr).
    destruct r4 as [|src [|sup r5]]; cbn [next_field mbind result_mbind] in Hr; try done.
    apply bind_unit_Ok in Hr as [Hf [= <- <-]]. rewrite fail_if_Ok, !orb_false_iff, negb_false_iff, bool_decide_eq_true in Hf.
    destruct Hf as [_ ->]. exists f1, f2, f3, a, b, c, o, src, sup. split_and!; try done. by exists v.
  - intros (f1 & f2 & f3 & a & b & c & o & src & sup & Hf & Ho & Hi & [v Hv] & Hd). rewrite Hf in *.
    assert (forall x, x ∈ [t; src; sup] -> x <> []) as Hx.
    { intros x Hin. apply Hne. do 6 right. apply elem_of_app. right. right. done. }
    cbn [next_field mbind result_mbind]. rewrite Hi. cbn [ok_or mbind result_mbind]. rewrite Hv. cbn [ok_or mbind result_mbind].
    rewrite Hd. cbn [mbind result_mbind].
    rewrite (proj2 (required_field_Ok _ _)) by (exists a; split; [done|apply Hne; do 3 right; left]).
    cbn [mbind result_mbind].
    rewrite (proj2 (required_field_Ok _ _)) by (exists b; split; [done|apply Hne; do 4 right; left]).
    cbn [mbind result_mbind].
    rewrite (proj2 (required_field_Ok _ _)) by (exists c; split; [done|apply Hne; do 5 right; left]).
    cbn [mbind result_mbind].
    rewrite (proj2 (filesystem_field_Ok _ t [src; sup])) by (by exists o). cbn [mbind result_mbind next_field].
    rewrite !bool_decide_eq_false_2 by (apply Hx; set_solver). done.
Qed.

(** ** The table *)

Definition table_line (line : list byte) (r : N * list byte) : Prop :=
  (0 < len line <= MAX_LINUX_MOUNTINFO_LINE_BYTES)%N /\ mount_record line r.1 r.2.
Definition records_with (id : N) (records : list (N * list byte)) : list (N * list byte) :=
  List.filter (fun r => r.1 =? id)%N records.

Lemma mountinfo_lines_Ok e c m lines m' :
  (c <= MAX_LINUX_MOUNTINFO_RECORDS)%N ->
  mountinfo_lines e c m lines = Ok m' <->
  (c + len lines <= MAX_LINUX_MOUNTINFO_RECORDS)%N /\
  exists records, Forall2 table_line lines records /\
    match records_with e records with
    | [] => m' = m
    | [r] => m = None /\ m' = Some (bool_decide (r.2 = EXT4))
    | _ => False
    end.
Proof.
  revert c m; induction lines as [|line lines IH]; intros c m Hc; cbn [mountinfo_lines].
  { split; [intros [= ->]; split; [unfold len; simpl; lia|by exists []]|].
    intros (_ & records & ->%Forall2_nil_inv_l & ->). done. }
  rewrite len_cons. unfold MAX_LINUX_MOUNTINFO_RECORDS in *.
  rewrite checked_add_ok by (unfold u64_max; lia). cbn [ok_or]. rewrite bind_Ok_l. cbv beta.
  destruct (N.ltb_spec 4096 (c + 1)) as [Hlt|Hge]; cbn [fail_if].
  { split; [done|]. intros [? _]. lia. }
  rewrite bind_Ok_l. cbv beta.
  assert (forall records, Forall2 table_line (line :: lines) records -> exists r rs, records = r :: rs /\
            table_line line r /\ Forall2 table_line lines rs) as Hinv.
  { intros records (r & rs & Hr & Hrs & ->)%Forall2_cons_inv_l. by exists r, rs. }
  destruct (bool_decide_reflect (line = [])) as [->|Hne]; cbn [fail_if].
  { split; [done|]. intros (_ & rs & (r & rs' & _ & [Hl _] & _)%Hinv & _). destruct Hl as [Hl _]. by apply N.lt_irrefl in Hl. }
  rewrite bind_Ok_l. cbv beta.
  destruct (N.ltb_spec MAX_LINUX_MOUNTINFO_LINE_BYTES (len line)) as [Hl|Hl]; cbn [fail_if].
  { split; [done|]. intros (_ & rs & (r & rs' & _ & [? _] & _)%Hinv & _). lia. }
  rewrite bind_Ok_l. cbv beta.
  destruct (parse_mount_record line) as [[id t]|err|] eqn:Hp.
  2: { split; [done|]. intros (_ & rs & ([i t] & rs' & _ & [_ Hr%parse_mount_record_Ok] & _)%Hinv & _). cbn in Hr. congruence. }
  2: { split; [done|]. intros (_ & rs & ([i t] & rs' & _ & [_ Hr%parse_mount_record_Ok] & _)%Hinv & _). cbn in Hr. congruence. }
  rewrite bind_Ok_l. cbv beta iota. pose proof (proj1 (parse_mount_record_Ok _ _ _) Hp) as Hmr.
  assert (forall r, table_line line r -> r = (id, t)) as Huniq.
  { intros [i t'] [_ Hr%parse_mount_record_Ok]. cbn in Hr. rewrite Hp in Hr. by injection Hr as <- <-. }
  assert (table_line line (id, t)) as Htl by (split; [|done]; rewrite nil_len in Hne; lia).
  destruct (N.eqb_spec id e) as [->|Hid].
  - destruct (bool_decide_reflect (m <> None)) as [Hm|Hm]; cbn [fail_if].
    { split; [done|]. intros (_ & rs & (r & rs' & -> & ->%Huniq & _)%Hinv & Hrs).
      unfold records_with in Hrs. cbn [List.filter fst] in Hrs. rewrite N.eqb_refl in Hrs.
      destruct (List.filter _ rs'); [by destruct Hrs|done]. }
    apply dec_stable in Hm as ->. rewrite bind_Ok_l. cbv beta. rewrite IH by lia. split.
    + intros (Hlen & rs & Hrs & Hm). split; [lia|]. exists ((e, t) :: rs). split; [by constructor|].
      unfold records_with in *. cbn [List.filter fst]. rewrite N.eqb_refl.
      destruct (List.filter _ rs) as [|r [|]]; [done|by destruct Hm|done].
    + intros (Hlen & rs & (r & rs' & -> & ->%Huniq & Hrs)%Hinv & Hm). split; [lia|]. exists rs'. split; [done|].
      unfold records_with in *. cbn [List.filter fst] in Hm. rewrite N.eqb_refl in Hm.
      destruct (List.filter _ rs') as [|r [|]]; [by destruct Hm|done|done].
  - rewrite IH by lia. split.
    + intros (Hlen & rs & Hrs & Hm). split; [lia|]. exists ((id, t) :: rs). split; [by constructor|].
      unfold records_with in *. cbn [List.filter fst]. by rewrite (proj2 (N.eqb_neq id e)).
    + intros (Hlen & rs & (r & rs' & -> & ->%Huniq & Hrs)%Hinv & Hm). split; [lia|]. exists rs'. split; [done|].
      unfold records_with in *. cbn [List.filter fst] in Hm. by rewrite (proj2 (N.eqb_neq id e)) in Hm.
Qed.

(** ** Properties *)

(** The filesystem check accepts exactly the mount tables in which the expected
    mount is listed once and as ext4, every line being a record of the layout
    proc(5) documents, within the size limits. *)
Theorem mountinfo_accepts_exactly (bytes : list byte) (id : N) :
  parse_linux_mountinfo_exact_ext4 bytes id = Ok tt <->
  id <> 0%N /\ (len bytes <= MAX_LINUX_MOUNTINFO_BYTES)%N /\
  exists lines records, text_of lines bytes /\ (len lines <= MAX_LINUX_MOUNTINFO_RECORDS)%N /\
    Forall2 table_line lines records /\ records_with id records = [(id, EXT4)].
Proof.
  unfold parse_linux_mountinfo_exact_ext4. split_checks. rewrite !fail_if_Ok, N.ltb_ge, !orb_false_iff, N.eqb_neq, negb_false_iff.
  split.
  - intros (Hl & [[Hid Hne] Hend] & Hk). split; [done|]. split; [done|].
    apply bind_Ok in Hk as (m & (Hlen & records & Hr & Hm)%mountinfo_lines_Ok & Hk); [|vm_compute; discriminate].
    exists (split_on is_newline (take (length bytes - 1) bytes)), records.
    split; [by apply text_lines|]. split; [lia|]. split; [done|].
    assert (forall r, r ∈ records_with id records -> r.1 = id) as Hin.
    { intros r [_ Hr1%N.eqb_eq]%list_elem_of_In%filter_In. done. }
    destruct (records_with id records) as [|[i t] [|]]; [by subst| |done].
    destruct Hm as [_ ->]. specialize (Hin (i, t) ltac:(left)). cbn [fst snd] in *.
    destruct (bool_decide_reflect (t = EXT4)) as [Ht|]; [by rewrite Ht, Hin|done].
  - intros (Hid & Hl & lines & records & Ht & Hlen & Hr & Hw). pose proof (text_nonempty _ _ Ht) as [Hne Hend].
    split; [done|]. split; [done|].
    rewrite (text_of_unique _ _ _ (text_lines bytes Hne Hend) Ht).
    rewrite (proj2 (mountinfo_lines_Ok id 0 None lines (Some true) ltac:(vm_compute; discriminate))); [done|].
    split; [lia|]. exists records. by rewrite Hw.
Qed.
