(* ===== verification/KernelTime.v ===== *)
(** * Kernel time values (crates/paraegox-kernel/src/time.rs)

    Owner-local monotonic clocks: readings and deadlines carry the clock
    domain and generation they were taken in, and are only compared inside
    one domain and generation.  Also the reactor clock mapping of
    crates/paraegox-runtime/src/runtime_clock.rs. *)

From S2P Require Import Prelude.
Open Scope rust_scope.

Record ClockDomainRef := MkClockDomainRef { clock_domain_bytes : bytes16 }.
#[export] Instance ClockDomainRef_eq_dec : EqDecision ClockDomainRef.
Proof. solve_decision. Defined.

Record ClockGeneration := MkClockGeneration { generation_value : N }.
#[export] Instance ClockGeneration_eq_dec : EqDecision ClockGeneration.
Proof. solve_decision. Defined.

Record BoundedDuration := from_nanos { duration_value : N }.
#[export] Instance BoundedDuration_eq_dec : EqDecision BoundedDuration.
Proof. solve_decision. Defined.

Record MonotonicInstant := from_ticks { instant_value : N }.
#[export] Instance MonotonicInstant_eq_dec : EqDecision MonotonicInstant.
Proof. solve_decision. Defined.

Record ClockReading := MkClockReading {
  reading_domain : ClockDomainRef;
  reading_generation : ClockGeneration;
  reading_now : MonotonicInstant;
}.
#[export] Instance ClockReading_eq_dec : EqDecision ClockReading.
Proof. solve_decision. Defined.

Record MonotonicDeadline := MkMonotonicDeadline {
  deadline_domain : ClockDomainRef;
  deadline_generation : ClockGeneration;
  deadline_instant : MonotonicInstant;
}.
#[export] Instance MonotonicDeadline_eq_dec : EqDecision MonotonicDeadline.
Proof. solve_decision. Defined.

Inductive TimeError :=
| InvalidClockGeneration
| DeadlineOverflow
| TimeClockDomainMismatch
| TimeClockGenerationMismatch.
#[export] Instance TimeError_eq_dec : EqDecision TimeError.
Proof. solve_decision. Defined.

Definition clock_generation_try_new (value : N) : result TimeError ClockGeneration :=
  if (value =? 0)%N then Err InvalidClockGeneration else Ok (MkClockGeneration value).

Definition now_value (r : ClockReading) : N := instant_value (reading_now r).
Definition deadline_value (d : MonotonicDeadline) : N := instant_value (deadline_instant d).

Definition try_deadline_after (self : ClockReading) (duration : BoundedDuration)
    : result TimeError MonotonicDeadline :=
  match checked_add u64_max (now_value self) (duration_value duration) with
  | None => Err DeadlineOverflow
  | Some deadline =>
      Ok {| deadline_domain := reading_domain self;
            deadline_generation := reading_generation self;
            deadline_instant := from_ticks deadline |}
  end.

Definition ensure_compatible (self : MonotonicDeadline) (reading : ClockReading)
    : result TimeError unit :=
  bail TimeClockDomainMismatch when bool_decide (reading_domain reading <> deadline_domain self);
  bail TimeClockGenerationMismatch
    when bool_decide (reading_generation reading <> deadline_generation self);
  Ok tt.

Definition remaining_at (self : MonotonicDeadline) (reading : ClockReading)
    : result TimeError BoundedDuration :=
  _ ← ensure_compatible self reading;
  Ok (from_nanos (saturating_sub (deadline_value self) (now_value reading))).

Definition is_expired_at (self : MonotonicDeadline) (reading : ClockReading)
    : result TimeError bool :=
  _ ← ensure_compatible self reading;
  Ok (deadline_value self <=? now_value reading)%N.

(** ** Reactor clock (runtime_clock.rs)

    [Instant] is a point of the reactor's monotonic time, in nanoseconds.
    The instant sampled by a call is an argument of the call. *)

Record RuntimeClock := MkRuntimeClock {
  runtime_clock_domain : ClockDomainRef;
  runtime_clock_generation : ClockGeneration;
  runtime_clock_origin : N;
  runtime_clock_origin_ticks : N;
}.

Inductive RuntimeClockError :=
| ElapsedOutOfRange
| TickOverflow
| RuntimeClockTime (e : TimeError).

Definition runtime_clock_new (instant_now : N) (domain : ClockDomainRef)
    (generation : ClockGeneration) (origin_ticks : N) : RuntimeClock :=
  {| runtime_clock_domain := domain;
     runtime_clock_generation := generation;
     runtime_clock_origin := instant_now;
     runtime_clock_origin_ticks := origin_ticks |}.

Definition runtime_clock_reading (self : RuntimeClock) (instant_now : N)
    : result RuntimeClockError ClockReading :=
  let elapsed := saturating_sub instant_now (runtime_clock_origin self) in
  elapsed_nanos ← ok_or (try_from u64_max elapsed) ElapsedOutOfRange;
  ticks ← ok_or (checked_add u64_max (runtime_clock_origin_ticks self) elapsed_nanos) TickOverflow;
  Ok {| reading_domain := runtime_clock_domain self;
        reading_generation := runtime_clock_generation self;
        reading_now := from_ticks ticks |}.

Definition runtime_clock_deadline_after (self : RuntimeClock) (instant_now : N)
    (duration : BoundedDuration) : result RuntimeClockError MonotonicDeadline :=
  reading ← runtime_clock_reading self instant_now;
  map_err RuntimeClockTime (try_deadline_after reading duration).

(** ** Lemmas *)

Definition compatible (d : MonotonicDeadline) (r : ClockReading) : Prop :=
  reading_domain r = deadline_domain d /\ reading_generation r = deadline_generation d.
#[export] Instance compatible_dec d r : Decision (compatible d r) := and_dec _ _.

Lemma ensure_compatible_spec d r u : ensure_compatible d r = Ok u <-> compatible d r.
Proof.
  unfold ensure_compatible, compatible. destruct u. repeat case_bool_decide; simpl; naive_solver.
Qed.
Lemma ensure_compatible_Panic d r : ensure_compatible d r <> Panic.
Proof. unfold ensure_compatible. by repeat case_bool_decide. Qed.
Lemma ensure_compatible_Err d r :
  ~ compatible d r ->
  exists e, (e = TimeClockDomainMismatch \/ e = TimeClockGenerationMismatch) /\
    ensure_compatible d r = Err e.
Proof.
  unfold compatible, ensure_compatible. intros H.
  destruct (decide (reading_domain r = deadline_domain d)).
  - destruct (decide (reading_generation r = deadline_generation d)); [tauto|].
    rewrite (bool_decide_eq_false_2 (reading_domain r <> _)) by tauto.
    rewrite bool_decide_eq_true_2 by done.
    eexists; split; [by right|done].
  - rewrite (bool_decide_eq_true_2 (reading_domain r <> _)) by done.
    eexists; split; [by left|done].
Qed.
Lemma is_expired_at_Ok d r b :
  is_expired_at d r = Ok b <-> compatible d r /\ b = (deadline_value d <=? now_value r)%N.
Proof.
  unfold is_expired_at. rewrite bind_Ok. setoid_rewrite ensure_compatible_spec. naive_solver.
Qed.
Lemma is_expired_at_compatible d r :
  compatible d r -> is_expired_at d r = Ok (deadline_value d <=? now_value r)%N.
Proof. intros. by apply is_expired_at_Ok. Qed.
Lemma try_deadline_after_Ok r dur d :
  try_deadline_after r dur = Ok d <->
  (now_value r + duration_value dur <= u64_max)%N /\
  d = MkMonotonicDeadline (reading_domain r) (reading_generation r)
        (from_ticks (now_value r + duration_value dur)).
Proof.
  unfold try_deadline_after. destruct (checked_add _ _ _) eqn:E;
    autorewrite with rust in E; naive_solver lia.
Qed.
#[export] Hint Rewrite is_expired_at_Ok try_deadline_after_Ok ensure_compatible_spec : rust.

(** A deadline installed by a reading, read back at a later reading of the
    same clock: the remaining time and the expiry flag agree, and the
    deadline is at the installed distance. *)
Theorem deadline_remaining_exact (r r' : ClockReading) (dur : BoundedDuration) d :
  try_deadline_after r dur = Ok d ->
  reading_domain r' = reading_domain r ->
  reading_generation r' = reading_generation r ->
  (now_value r <= now_value r')%N ->
  remaining_at d r' =
    Ok (from_nanos (duration_value dur - (now_value r' - now_value r))) /\
  is_expired_at d r' =
    Ok (duration_value dur <=? now_value r' - now_value r)%N.
Proof.
  intros H Hd Hg Hle. apply try_deadline_after_Ok in H as [Hmax ->].
  assert (compatible (MkMonotonicDeadline (reading_domain r) (reading_generation r)
    (from_ticks (now_value r + duration_value dur))) r') as Hc by done.
  unfold remaining_at. destruct Hc as [Hc1 Hc2]. rewrite is_expired_at_compatible by done.
  rewrite (proj2 (ensure_compatible_spec _ _ tt)) by done.
  unfold saturating_sub, deadline_value; simpl. split; [do 2 f_equal; lia|].
  f_equal. apply eq_true_iff_eq. rewrite !N.leb_le. lia.
Qed.

(** Readings of another clock domain or generation are refused before any
    comparison, whatever the numeric values are. *)
Theorem incompatible_reading_refused (d : MonotonicDeadline) (r : ClockReading) :
  ~ compatible d r ->
  exists e, (e = TimeClockDomainMismatch \/ e = TimeClockGenerationMismatch) /\
    remaining_at d r = Err e /\ is_expired_at d r = Err e.
Proof.
  intros (e & He & H)%ensure_compatible_Err. exists e.
  unfold remaining_at, is_expired_at. by rewrite H.
Qed.

(** Successive readings of one reactor clock never go backwards. *)
Theorem runtime_clock_monotone (c : RuntimeClock) t1 t2 r1 r2 :
  (t1 <= t2)%N ->
  runtime_clock_reading c t1 = Ok r1 ->
  runtime_clock_reading c t2 = Ok r2 ->
  reading_domain r1 = reading_domain r2 /\
  reading_generation r1 = reading_generation r2 /\
  (now_value r1 <= now_value r2 <= u64_max)%N.
Proof.
  unfold runtime_clock_reading, saturating_sub. intros Ht H1 H2. rust_inv.
  unfold now_value; simpl. split_and!; [done..|lia|lia].
Qed.
