(* ===== verification/KernelDigest.v ===== *)
(** * Canonical digests (crates/paraegox-kernel/src/digest.rs)

    The builder feeds a SHA-256 hasher with a domain-separated, length-prefixed
    field sequence.  SHA-256 itself (the [sha2] crate) is a parameter; the
    hasher accumulates the bytes given to [update] and [finalize] applies it
    to their concatenation. *)

From Stdlib Require Import Strings.String.
From S2P Require Import Prelude Bytes.
Open Scope rust_scope.

Record Digest32 := MkDigest32 { digest_bytes : bytes32 }.
#[export] Instance Digest32_eq_dec : EqDecision Digest32.
Proof. solve_decision. Defined.

Inductive DigestBuildError :=
| EmptyDomain
| DomainTooLong
| TooManyFields
| FieldTooLong.
#[export] Instance DigestBuildError_eq_dec : EqDecision DigestBuildError.
Proof. solve_decision. Defined.

Definition FORMAT_MAGIC : list byte :=
  ascii_bytes "ParaEGOX" ++ [x00] ++ ascii_bytes "canonical-digest".
Definition FORMAT_VERSION : N := 1.
Definition FIELD_MARKER : byte := x01.
Definition END_MARKER : byte := xff.

(** [hasher] holds the bytes passed to [Sha256::update] so far. *)
Record Digest32Builder := MkDigest32Builder {
  hasher : list byte;
  field_count : N;
}.

Definition digest_try_new (domain : list byte) : result DigestBuildError Digest32Builder :=
  bail EmptyDomain when bool_decide (domain = []);
  domain_length ← ok_or (try_from u32_max (len domain)) DomainTooLong;
  Ok {| hasher := FORMAT_MAGIC ++ be_bytes 2 FORMAT_VERSION ++ be_bytes 4 domain_length ++ domain;
        field_count := 0 |}.

Definition field_bytes (self : Digest32Builder) (bytes : list byte)
    : result DigestBuildError Digest32Builder :=
  ordinal ← ok_or (checked_add u32_max (field_count self) 1) TooManyFields;
  length ← ok_or (try_from u64_max (len bytes)) FieldTooLong;
  Ok {| hasher := hasher self ++ [FIELD_MARKER] ++ be_bytes 4 ordinal ++ be_bytes 8 length ++ bytes;
        field_count := ordinal |}.

Definition field_u16 (self : Digest32Builder) (value : N) : result DigestBuildError Digest32Builder :=
  field_bytes self (be_bytes 2 value).
Definition field_u64 (self : Digest32Builder) (value : N) : result DigestBuildError Digest32Builder :=
  field_bytes self (be_bytes 8 value).
Definition field_digest (self : Digest32Builder) (value : Digest32)
    : result DigestBuildError Digest32Builder :=
  field_bytes self (vec_to_list (digest_bytes value)).

(** The bytes hashed by [finish]. *)
Definition finish_preimage (self : Digest32Builder) : list byte :=
  hasher self ++ [END_MARKER] ++ be_bytes 4 (field_count self).

Definition finish (sha256 : list byte -> bytes32) (self : Digest32Builder) : Digest32 :=
  MkDigest32 (sha256 (finish_preimage self)).

(** A digest of a whole field sequence, the way every contract builds one:
    [try_new], one [field_*] call per field, [finish]. *)
Definition build (domain : list byte) (fields : list (list byte))
    : result DigestBuildError Digest32Builder :=
  builder ← digest_try_new domain;
  try_fold field_bytes builder fields.

Lemma digest_try_new_safe d : digest_try_new d <> Panic.
Proof. unfold digest_try_new. no_panic. Qed.
Lemma field_bytes_safe b f : field_bytes b f <> Panic.
Proof. unfold field_bytes. no_panic. Qed.
#[export] Hint Resolve digest_try_new_safe field_bytes_safe : no_panic.

(** ** The encoding is injective *)

(** The bytes a field sequence adds when its first ordinal is [i + 1]. *)
Fixpoint fields_encoding (i : N) (fields : list (list byte)) : list byte :=
  match fields with
  | [] => []
  | f :: fields =>
      [FIELD_MARKER] ++ be_bytes 4 (i + 1) ++ be_bytes 8 (len f) ++ f
      ++ fields_encoding (i + 1) fields
  end.

Lemma fold_field_bytes fields b b' :
  try_fold field_bytes b fields = Ok b' ->
  hasher b' = hasher b ++ fields_encoding (field_count b) fields /\
  field_count b' = (field_count b + len fields)%N /\
  Forall (fun f => len f <= u64_max)%N fields.
Proof.
  revert b; induction fields as [|f fields IH]; intros b H; simpl in H.
  - rust_inv. rewrite app_nil_r. split_and!; [done|unfold len; simpl; lia|constructor].
  - apply bind_Ok in H as (b1 & Hb1 & H). apply IH in H as (-> & -> & Hlen).
    unfold field_bytes in Hb1. rust_inv. simpl. rewrite <-!app_assoc. split_and!.
    + done.
    + rewrite len_cons. lia.
    + by constructor.
Qed.

Lemma fields_encoding_inj i fields fields' tail tail' :
  Forall (fun f => len f <= u64_max)%N fields ->
  Forall (fun f => len f <= u64_max)%N fields' ->
  fields_encoding i fields ++ END_MARKER :: tail
    = fields_encoding i fields' ++ END_MARKER :: tail' ->
  fields = fields'.
Proof.
  revert i fields'; induction fields as [|f fields IH]; intros i [|f' fields'] Hf Hf' H;
    [done|discriminate H..|].
  apply Forall_cons in Hf as [Hl Hf], Hf' as [Hl' Hf'].
  cbn [fields_encoding] in H. rewrite <-!app_assoc in H. apply app_inv_head in H.
  apply app_be_bytes_inj in H as [_ H]. apply app_be_bytes_inj in H as [Hn H].
  apply be_bytes_inj in Hn; [|change (256 ^ N.of_nat 8)%N with (u64_max + 1)%N; lia..].
  apply app_inj_1 in H as [-> H]; [|unfold len in Hn; lia].
  f_equal. by eapply IH.
Qed.

Lemma build_preimage domain fields b :
  build domain fields = Ok b ->
  finish_preimage b =
    FORMAT_MAGIC ++ be_bytes 2 FORMAT_VERSION ++ be_bytes 4 (len domain) ++ domain
    ++ fields_encoding 0 fields ++ END_MARKER :: be_bytes 4 (len fields) /\
  (len domain <= u32_max)%N /\ Forall (fun f => len f <= u64_max)%N fields.
Proof.
  unfold build, digest_try_new. intros H. rust_inv.
  match goal with H : try_fold _ _ _ = _ |- _ =>
    apply fold_field_bytes in H as (Hh & Hc & Hl) end.
  unfold finish_preimage. rewrite Hh, Hc. simpl hasher. simpl field_count.
  rewrite <-!app_assoc. by split_and!.
Qed.

Lemma build_preimage_inj domain domain' fields fields' b b' :
  build domain fields = Ok b -> build domain' fields' = Ok b' ->
  finish_preimage b = finish_preimage b' -> domain = domain' /\ fields = fields'.
Proof.
  intros H H' Heq.
  apply build_preimage in H as (Hp & Hd & Hf), H' as (Hp' & Hd' & Hf').
  rewrite Hp, Hp' in Heq. apply app_inv_head in Heq. apply app_inv_head in Heq.
  apply app_be_bytes_inj in Heq as [Hn Heq].
  apply be_bytes_inj in Hn; [|change (256 ^ N.of_nat 4)%N with (u32_max + 1)%N; lia..].
  apply app_inj_1 in Heq as [-> Heq]; [|unfold len in Hn; lia].
  split; [done|]. by eapply fields_encoding_inj.
Qed.

(** Digests over different domains or different field sequences differ, as
    long as SHA-256 does not collide on the two preimages: no two field
    sequences share a preimage. *)
Lemma finish_inj (sha256 : list byte -> bytes32) domain domain' fields fields' b b' :
  build domain fields = Ok b -> build domain' fields' = Ok b' ->
  (sha256 (finish_preimage b) = sha256 (finish_preimage b') ->
   finish_preimage b = finish_preimage b') ->
  finish sha256 b = finish sha256 b' -> domain = domain' /\ fields = fields'.
Proof.
  intros H H' Hnc Heq. injection Heq as Heq. eapply build_preimage_inj; eauto.
Qed.

Lemma fold_field_bytes_total fields b :
  (field_count b <= u32_max)%N ->
  (exists b', try_fold field_bytes b fields = Ok b') <->
  (Forall (fun f => len f <= u64_max) fields /\ field_count b + len fields <= u32_max)%N.
Proof.
  revert b; induction fields as [|f fields IH]; intros b Hb; simpl.
  - split; [intros _; split; [constructor|unfold len; simpl; lia]|by eexists].
  - rewrite Forall_cons, len_cons. unfold field_bytes, checked_add, try_from.
    destruct (N.leb_spec (field_count b + 1) u32_max); simpl.
    2: { split; [intros [? ?]; done|lia]. }
    destruct (N.leb_spec (len f) u64_max); simpl.
    2: { split; [intros [? ?]; done|lia]. }
    rewrite IH by done. simpl. split; intros [??]; (split; [|lia]); tauto.
Qed.

(** Building succeeds exactly when the domain is non-empty and fits its
    32-bit length prefix, every field fits its 64-bit length prefix and the
    ordinals fit 32 bits. *)
Lemma build_total domain fields :
  (exists b, build domain fields = Ok b) <->
  (domain <> [] /\ len domain <= u32_max /\
   Forall (fun f => len f <= u64_max) fields /\ len fields <= u32_max)%N.
Proof.
  unfold build, digest_try_new, try_from.
  case_bool_decide as Hd; simpl; [split; [intros [? ?]|]; naive_solver|].
  destruct (N.leb_spec (len domain) u32_max) as [Hl|Hl]; simpl.
  - rewrite fold_field_bytes_total by done. naive_solver.
  - split; [intros [? ?]; done|lia].
Qed.

(** The bytes hashed for a whole field sequence. *)
Definition preimage (domain : list byte) (fields : list (list byte)) : list byte :=
  match build domain fields with Ok b => finish_preimage b | _ => [] end.

(** The sequences the builder accepts. *)
Definition buildable (domain : list byte) (fields : list (list byte)) : Prop :=
  (domain <> [] /\ len domain <= u32_max /\
   Forall (fun f => len f <= u64_max) fields /\ len fields <= u32_max)%N.
#[export] Instance buildable_dec domain fields : Decision (buildable domain fields).
Proof. unfold buildable. apply _. Defined.

Lemma buildable_finish sha256 domain fields :
  buildable domain fields ->
  exists b, build domain fields = Ok b /\
    finish sha256 b = MkDigest32 (sha256 (preimage domain fields)).
Proof.
  intros [b Hb]%build_total. exists b. split; [done|]. unfold preimage. by rewrite Hb.
Qed.
Lemma preimage_inj domain domain' fields fields' :
  buildable domain fields -> buildable domain' fields' ->
  preimage domain fields = preimage domain' fields' -> domain = domain' /\ fields = fields'.
Proof.
  intros [b Hb]%build_total [b' Hb']%build_total. unfold preimage. rewrite Hb, Hb'.
  by apply build_preimage_inj.
Qed.

(** SHA-256 does not collide on the byte strings of a list. *)
Definition collision_free (sha256 : list byte -> bytes32) (xs : list (list byte)) : Prop :=
  Forall (fun x => Forall (fun y => sha256 x = sha256 y -> x = y) xs) xs.
#[export] Instance collision_free_dec sha256 xs : Decision (collision_free sha256 xs).
Proof. unfold collision_free. apply _. Defined.
#[global] Typeclasses Opaque buildable collision_free.
Lemma collision_free_inj sha256 xs x y :
  collision_free sha256 xs -> x ∈ xs -> y ∈ xs -> sha256 x = sha256 y -> x = y.
Proof.
  unfold collision_free. rewrite Forall_forall. setoid_rewrite Forall_forall. eauto.
Qed.

(** Runs a chain of [field_*] calls of the goal with an accepted [build]. *)
Ltac run_build H :=
  unfold build in H; simpl in H;
  repeat match type of H with
  | (_ ≫= _) = Ok _ => let b := fresh "b" in let Hb := fresh "Hb" in
      apply bind_Ok in H as (b & Hb & H)
  end;
  unfold field_u16, field_u64, field_digest; simpl;
  repeat match goal with
  | Hb : digest_try_new ?d = Ok _ |- context [digest_try_new ?d] => rewrite Hb; simpl
  | Hb : field_bytes ?b ?f = Ok _ |- context [field_bytes ?b ?f] => rewrite Hb; simpl
  end.

(** ** A toy hash, to instantiate the parameter in examples *)
Definition toy_hash (l : list byte) : bytes32 :=
  match vec_of_list 32 (be_bytes 32 (fold_left (fun acc b =>
    (acc * 257 + Byte.to_N b + 1) mod 65521)%N l 0%N)) with
  | Some v => v
  | None => Vector.const x00 32
  end.

(** Distinct canonical field sequences, under distinct or equal domains, have
    distinct digests unless SHA-256 itself collides on the two preimages: the
    encoding hashed by [finish] is injective. *)
Theorem digest_binds_fields (sha256 : list byte -> bytes32) domain domain' fields fields' b b' :
  build domain fields = Ok b -> build domain' fields' = Ok b' ->
  (domain, fields) <> (domain', fields') ->
  (finish_preimage b <> finish_preimage b' ->
   sha256 (finish_preimage b) <> sha256 (finish_preimage b')) ->
  finish sha256 b <> finish sha256 b'.
Proof.
  intros H H' Hne Hnc Heq. apply Hne.
  destruct (finish_inj sha256 domain domain' fields fields' b b') as [-> ->]; [done..| |done|done].
  intros Hs. destruct (decide (finish_preimage b = finish_preimage b')); [done|].
  by destruct Hnc.
Qed.

(** One boundary between two fields moved. *)
Lemma digest_binds_fields_witness :
  exists b b', build [x01] [[x02; x03]; [x04]] = Ok b /\ build [x01] [[x02]; [x03; x04]] = Ok b' /\
  finish toy_hash b <> finish toy_hash b'.
Proof.
  eexists _, _. split; [vm_compute; reflexivity|]. split; [vm_compute; reflexivity|].
  apply (digest_binds_fields toy_hash [x01] [x01] [[x02; x03]; [x04]] [[x02]; [x03; x04]]);
    [vm_compute; reflexivity..| |]; vm_compute; congruence.
Defined.
