(* ===== verification/Tlv.v ===== *)
(** * Tagged fields

    The strict field format the canonical codecs share: a magic, a 16-bit
    version, a 16-bit field count and the fields in tag order from 1, each a
    16-bit tag, a 32-bit length and the value.  The parser is the one of
    crates/paraegox-runtime-contracts/src/wire.rs (parse_apply_frame) and of
    crates/paraegox-deployment/src/tenure_protocol.rs (parse_value), which
    differ only in the errors they report; the errors are a class with an
    instance per codec. *)

From S2P Require Import Prelude Bytes.
Open Scope rust_scope.

(** The errors a codec reports. *)
Class TlvErrors (E : Type) := {
  tlv_too_large : E;
  tlv_truncated : E;
  tlv_invalid_magic : E;
  tlv_unsupported_version : E;
  tlv_trailing_bytes : E;
  tlv_truncated_at : N -> E;
  tlv_unknown_field : N -> E;
  tlv_missing_field : N -> E;
  tlv_duplicate_field : N -> E;
  tlv_out_of_order : N -> E;
  tlv_invalid_length : N -> E;
}.

Definition TLV_HEADER_BYTES : N := 6.

Definition append_tlv (encoded : list byte) (tag : N) (value : list byte) : list byte :=
  encoded ++ be_bytes 2 tag ++ be_bytes 4 (len value mod 2 ^ 32) ++ value.

Section parse.
Context {E : Type} `{TlvErrors E}.
Context (magic : list byte) (expected_version expected_field_count maximum_bytes : N)
  (valid_length : N -> N -> bool).

(** The [for index in 0..declared_count] loop: [count] turns left, from turn
    [index] at [cursor]. *)
Fixpoint parse_fields (frame : list byte) (count : nat) (index cursor : N)
    (values : list (list byte)) : result E (list (list byte) * N) :=
  match count with
  | O => Ok (values, cursor)
  | S count =>
      let expected_tag := (index + 1)%N in
      tlv_header_end ← ok_or (checked_add u64_max cursor TLV_HEADER_BYTES) tlv_truncated;
      bail tlv_truncated when (len frame <? tlv_header_end)%N;
      tag_bytes ← slice_range frame cursor (cursor + 2);
      tag ← read_u16 tag_bytes;
      length_bytes ← slice_range frame (cursor + 2) tlv_header_end;
      value_length ← read_u32 length_bytes;
      let cursor := tlv_header_end in
      bail (tlv_unknown_field tag) when ((tag =? 0) || (expected_field_count <? tag))%N;
      bail (tlv_duplicate_field tag) when (tag <? expected_tag)%N;
      bail (tlv_out_of_order tag) when (expected_tag <? tag)%N;
      bail (tlv_invalid_length tag) when negb (valid_length tag value_length);
      value_end ← ok_or (checked_add u64_max cursor value_length) (tlv_truncated_at tag);
      bail (tlv_truncated_at tag) when (len frame <? value_end)%N;
      value ← slice_range frame cursor value_end;
      parse_fields frame count (index + 1) value_end (values ++ [value])
  end.

Definition parse_message (frame : list byte) : result E (list (list byte)) :=
  bail tlv_too_large when (maximum_bytes <? len frame)%N;
  bail tlv_truncated when (len frame <? len magic + 4)%N;
  prefix ← slice_range frame 0 (len magic);
  bail tlv_invalid_magic when bool_decide (prefix <> magic);
  let cursor := len magic in
  version_bytes ← slice_range frame cursor (cursor + 2);
  version ← read_u16 version_bytes;
  let cursor := (cursor + 2)%N in
  bail tlv_unsupported_version when negb (version =? expected_version)%N;
  count_bytes ← slice_range frame cursor (cursor + 2);
  declared_count ← read_u16 count_bytes;
  let cursor := (cursor + 2)%N in
  '(values, cursor) ← parse_fields frame (N.to_nat declared_count) 0 cursor [];
  bail (tlv_missing_field (declared_count + 1)) when (declared_count <? expected_field_count)%N;
  bail tlv_trailing_bytes when negb (cursor =? len frame)%N;
  Ok values.
End parse.

(** [self.values[usize::from(tag - 1)]]. *)
Definition fields_get {E : Type} (values : list (list byte)) (tag : N) : result E (list byte) :=
  index ← panicking_sub tag 1;
  unwrap (values !! N.to_nat index).

(** ** Field sequences *)

(** One encoded field. *)
Definition tlv (tag : N) (value : list byte) : list byte :=
  be_bytes 2 tag ++ be_bytes 4 (len value mod 2 ^ 32) ++ value.
(** Consecutive fields, tagged from [tag]. *)
Fixpoint encode_tlvs (tag : N) (fields : list (list byte)) : list byte :=
  match fields with
  | [] => []
  | f :: fields => tlv tag f ++ encode_tlvs (tag + 1) fields
  end.
(** Every field has the length its tag allows. *)
Fixpoint tlv_valid (valid_length : N -> N -> bool) (tag : N) (fields : list (list byte)) : bool :=
  match fields with
  | [] => true
  | f :: fields => valid_length tag (len f) && tlv_valid valid_length (tag + 1) fields
  end.
(** The message of a field sequence. *)
Definition message (magic : list byte) (version count : N) (fields : list (list byte)) : list byte :=
  (magic ++ be_bytes 2 version ++ be_bytes 2 count) ++ encode_tlvs 1 fields.

Lemma append_tlv_app encoded tag v : append_tlv encoded tag v = encoded ++ tlv tag v.
Proof. reflexivity. Qed.
Lemma len_tlv tag v : len (tlv tag v) = (TLV_HEADER_BYTES + len v)%N.
Proof. unfold tlv, TLV_HEADER_BYTES. rewrite !len_app, !len_be_bytes. lia. Qed.
Lemma len_encode_tlvs tag l : len (encode_tlvs tag l) = (6 * len l + sum_N (map len l))%N.
Proof.
  revert tag; induction l as [|f l IH]; intros tag; cbn [encode_tlvs map sum_N foldr]; [done|].
  rewrite len_app, len_tlv, len_cons, IH. unfold sum_N, TLV_HEADER_BYTES. lia.
Qed.
Lemma encode_tlvs_snoc tag fields f :
  encode_tlvs tag (fields ++ [f]) = encode_tlvs tag fields ++ tlv (tag + len fields) f.
Proof.
  revert tag; induction fields as [|g fields IH]; intros tag; cbn [app encode_tlvs].
  - change (len (@nil (list byte))) with 0%N. by rewrite N.add_0_r, app_nil_r.
  - rewrite IH, <-app_assoc, len_cons. do 3 f_equal. lia.
Qed.
(** Fields of bounded length are determined by their encoding. *)
Lemma encode_tlvs_inj tag l l' :
  length l = length l' ->
  Forall (fun f => len f <= u32_max)%N l -> Forall (fun f => len f <= u32_max)%N l' ->
  encode_tlvs tag l = encode_tlvs tag l' -> l = l'.
Proof.
  revert tag l'; induction l as [|f l IH]; intros tag [|f' l'] Hn Hl Hl' H; try discriminate Hn; [done|].
  apply Forall_cons in Hl as [Hf Hl], Hl' as [Hf' Hl']. cbn [encode_tlvs] in H. unfold tlv in H.
  rewrite <-!app_assoc in H. apply app_inv_head in H. apply app_be_bytes_inj in H as [Hx H].
  unfold u32_max in *. rewrite !N.mod_small in Hx by lia.
  apply be_bytes_inj in Hx; [|simpl N.of_nat; lia..].
  apply app_inj_1 in H as [-> H]; [|unfold len in Hx; lia].
  f_equal. eapply IH; [by injection Hn|done..].
Qed.
Lemma tlv_valid_app_1 valid tag l k :
  tlv_valid valid tag (l ++ k) = true -> tlv_valid valid tag l = true.
Proof.
  revert tag; induction l as [|f l IH]; intros tag H; [done|]. cbn [app tlv_valid] in *.
  apply andb_true_iff in H as [Hf H]. rewrite Hf. by apply IH.
Qed.
Lemma tlv_valid_lookup valid tag fields i v :
  tlv_valid valid tag fields = true -> fields !! i = Some v ->
  valid (tag + N.of_nat i)%N (len v) = true.
Proof.
  revert tag i; induction fields as [|f fields IH]; intros tag i Hv Hi; [done|].
  cbn [tlv_valid] in Hv. apply andb_true_iff in Hv as [Hf Hv]. destruct i as [|i].
  - cbn in Hi. injection Hi as <-. by rewrite N.add_0_r.
  - cbn in Hi. replace (tag + N.of_nat (S i))%N with (tag + 1 + N.of_nat i)%N by lia. by apply IH.
Qed.
Lemma tlv_valid_small valid tag fields :
  (forall t n, valid t n = true -> n <= u32_max)%N -> tlv_valid valid tag fields = true ->
  Forall (fun f => len f <= u32_max)%N fields.
Proof.
  intros Hb. revert tag; induction fields as [|f fields IH]; intros tag Hv; constructor;
    cbn [tlv_valid] in Hv; apply andb_true_iff in Hv as [Hf Hv]; [|by eapply IH].
  by apply Hb in Hf.
Qed.

(** ** The parser *)

Section parser.
Context {E : Type} `{TlvErrors E} (magic : list byte) (version fields_count maximum : N)
  (valid : N -> N -> bool).
#[local] Abbreviation loop := (parse_fields (E:=E) fields_count valid).
#[local] Abbreviation parse := (parse_message (E:=E) magic version fields_count maximum valid).

(** Whatever the frame, the loop returns, and the values it read have the
    lengths of their tags. *)
Lemma parse_fields_safe frame count index cursor values :
  (cursor <= len frame)%N ->
  match loop frame count index cursor values with
  | Ok (values', cursor') =>
      exists fields, values' = values ++ fields /\ length fields = count /\
        tlv_valid valid (index + 1) fields = true
  | Err _ => True
  | Panic => False
  end.
Proof.
  revert index cursor values; induction count as [|count IH]; intros index cursor values Hc.
  { cbn [parse_fields]. exists []. by rewrite app_nil_r. }
  cbn [parse_fields]. destruct (checked_add u64_max cursor TLV_HEADER_BYTES) as [e|] eqn:He; [|done].
  apply checked_add_Some in He as [-> _]. unfold TLV_HEADER_BYTES. cbn [ok_or mbind result_mbind].
  destruct (N.ltb_spec (len frame) (cursor + 6)); [done|]. cbn [fail_if mbind result_mbind].
  destruct (slice_range_total (E:=E) frame cursor (cursor + 2)) as [tb Htb]; [lia..|].
  rewrite Htb. apply slice_range_len in Htb. cbn [mbind result_mbind].
  destruct (read_u16_total (E:=E) tb) as (tag & -> & _); [lia|]. cbn [mbind result_mbind].
  destruct (slice_range_total (E:=E) frame (cursor + 2) (cursor + 6)) as [lb Hlb]; [lia..|].
  rewrite Hlb. apply slice_range_len in Hlb. cbn [mbind result_mbind].
  destruct (read_u32_total (E:=E) lb) as (n & -> & _); [lia|]. cbn [mbind result_mbind].
  destruct (_ || _); [done|]. cbn [fail_if mbind result_mbind].
  destruct (N.ltb_spec tag (index + 1)); [done|]. cbn [fail_if mbind result_mbind].
  destruct (N.ltb_spec (index + 1) tag); [done|]. cbn [fail_if mbind result_mbind].
  assert (tag = index + 1)%N as -> by lia.
  destruct (valid (index + 1)%N n) eqn:Hv; [|done]. cbn [negb fail_if mbind result_mbind].
  destruct (checked_add u64_max (cursor + 6) n) as [e|] eqn:He; [|done].
  apply checked_add_Some in He as [-> _]. cbn [ok_or mbind result_mbind].
  destruct (N.ltb_spec (len frame) (cursor + 6 + n)); [done|]. cbn [fail_if mbind result_mbind].
  destruct (slice_range_total (E:=E) frame (cursor + 6) (cursor + 6 + n)) as [v Hvv]; [lia..|].
  rewrite Hvv. apply slice_range_len in Hvv. cbn [mbind result_mbind].
  specialize (IH (index + 1)%N (cursor + 6 + n)%N (values ++ [v]) ltac:(done)).
  destruct (parse_fields _ _ _ _ _ _ _) as [[values' cursor']|e|]; [|done..].
  destruct IH as (fields & -> & Hlen & Hfv). exists (v :: fields). rewrite <-app_assoc.
  cbn [app length tlv_valid]. replace (len v) with n by lia. by rewrite Hv, Hlen, Hfv.
Qed.

(** What the parser guarantees of the values it returns. *)
Definition parsed (fields : list (list byte)) : Prop :=
  (fields_count <= len fields)%N /\ tlv_valid valid 1 fields = true.

Lemma parse_message_safe frame :
  match parse frame with
  | Ok fields => parsed fields
  | Err _ => True
  | Panic => False
  end.
Proof.
  unfold parse_message.
  destruct (N.ltb_spec maximum (len frame)); [done|].
  destruct (N.ltb_spec (len frame) (len magic + 4)); [done|]. cbn [fail_if mbind result_mbind].
  destruct (slice_range_total (E:=E) frame 0 (len magic)) as [m ->]; [lia..|].
  cbn [mbind result_mbind]. case_bool_decide; [done|]. cbn [fail_if mbind result_mbind].
  destruct (slice_range_total (E:=E) frame (len magic) (len magic + 2)) as [vb Hvb]; [lia..|].
  rewrite Hvb. apply slice_range_len in Hvb. cbn [mbind result_mbind].
  destruct (read_u16_total (E:=E) vb) as (v & -> & _); [lia|]. cbn [mbind result_mbind].
  destruct (negb _); [done|]. cbn [fail_if mbind result_mbind].
  destruct (slice_range_total (E:=E) frame (len magic + 2) (len magic + 2 + 2)) as [cb Hcb]; [lia..|].
  rewrite Hcb. apply slice_range_len in Hcb. cbn [mbind result_mbind].
  destruct (read_u16_total (E:=E) cb) as (c & -> & _); [lia|]. cbn [mbind result_mbind].
  pose proof (parse_fields_safe frame (N.to_nat c) 0 (len magic + 2 + 2) [] ltac:(lia)) as Hp.
  destruct (parse_fields _ _ _ _ _ _ _) as [[fields cursor]|e|]; [|done..]. cbn [mbind result_mbind].
  destruct Hp as (fs & -> & Hlen & Hv). destruct (N.ltb_spec c fields_count) as [|Hc]; [done|].
  cbn [fail_if mbind result_mbind]. destruct (negb _); [done|]. split; [|done].
  cbn [app]. unfold len. lia.
Qed.

Lemma parse_message_bound frame fields : parse frame = Ok fields -> (len frame <= maximum)%N.
Proof. unfold parse_message. destruct (N.ltb_spec maximum (len frame)); [done|]. intros _. lia. Qed.

(** ** Access to the parsed values *)

Lemma fields_get_lookup fields tag v :
  (1 <= tag)%N -> fields !! N.to_nat (tag - 1) = Some v -> fields_get (E:=E) fields tag = Ok v.
Proof.
  intros Ht Hv. unfold fields_get, panicking_sub. rewrite checked_sub_ok by done.
  cbn [unwrap mbind result_mbind]. by rewrite Hv.
Qed.
Lemma fields_get_total fields tag :
  parsed fields -> (1 <= tag <= fields_count)%N ->
  exists v, fields_get (E:=E) fields tag = Ok v /\ valid tag (len v) = true.
Proof.
  intros [Hl Hv] Ht. destruct (lookup_lt_is_Some_2 fields (N.to_nat (tag - 1))) as [v Hi];
    [unfold len in Hl; lia|].
  exists v. split; [apply fields_get_lookup; [lia|done]|].
  replace tag with (1 + N.of_nat (N.to_nat (tag - 1)))%N by lia.
  exact (tlv_valid_lookup valid 1 fields _ v Hv Hi).
Qed.
(** Reads of parsed values do not panic. *)
Lemma parsed_get_safe fields tag :
  parsed fields -> (1 <=? tag)%N && (tag <=? fields_count)%N = true ->
  fields_get (E:=E) fields tag <> Panic.
Proof.
  intros Hf [Ht Ht']%andb_true_iff. apply N.leb_le in Ht, Ht'.
  destruct (fields_get_total fields tag Hf) as (v & -> & _); done.
Qed.
Lemma parsed_get_len fields tag v n :
  parsed fields -> (1 <=? tag)%N && (tag <=? fields_count)%N = true ->
  fields_get (E:=E) fields tag = Ok v -> (forall x, valid tag x = (x =? n)%N) -> len v = n.
Proof.
  intros Hf [Ht Ht']%andb_true_iff Hv Hn. apply N.leb_le in Ht, Ht'.
  destruct (fields_get_total fields tag Hf) as (v' & Hv' & Hl); [done|].
  rewrite Hv in Hv'. injection Hv' as <-. rewrite Hn in Hl. by apply N.eqb_eq.
Qed.

(** ** The parser against the encoder *)

Context (Hvalid : forall t n, valid t n = true -> (n <= u32_max)%N)
  (Hcount : (fields_count <= u16_max)%N) (Hversion : (version <= u16_max)%N)
  (Hmaximum : (maximum <= u64_max)%N).

(** One turn of the loop reads back one encoded field. *)
Lemma parse_fields_step frame pre f rest count index values :
  frame = pre ++ tlv (index + 1) f ++ rest -> valid (index + 1)%N (len f) = true ->
  (index < fields_count)%N -> (len frame <= u64_max)%N ->
  loop frame (S count) index (len pre) values =
  loop frame count (index + 1)%N (len (pre ++ tlv (index + 1) f)) (values ++ [f]).
Proof.
  intros Hframe Hf Hc Hl. pose proof (Hvalid _ _ Hf) as Hb.
  assert (len frame = len pre + 6 + len f + len rest)%N as Hlen
    by (rewrite Hframe, !len_app, len_tlv; unfold TLV_HEADER_BYTES; lia).
  unfold tlv in Hframe.
  rewrite N.mod_small, <-!app_assoc in Hframe by (unfold u32_max in Hb; lia).
  rewrite len_app, len_tlv. cbn [parse_fields]. unfold TLV_HEADER_BYTES.
  rewrite (checked_add_ok u64_max (len pre) 6) by lia. cbn [ok_or mbind result_mbind].
  rewrite (proj2 (N.ltb_ge _ _)) by lia. cbn [fail_if mbind result_mbind].
  rewrite (slice_at frame pre (be_bytes 2 (index + 1)) _ (len pre) (len pre + 2) Hframe)
    by (rewrite ?len_be_bytes; lia). cbn [mbind result_mbind].
  rewrite read_u16_exact by lia. cbn [mbind result_mbind].
  rewrite (slice_at frame (pre ++ be_bytes 2 (index + 1)) (be_bytes 4 (len f)) (f ++ rest)
             (len pre + 2) (len pre + 6))
    by (rewrite <-?app_assoc, ?len_app, ?len_be_bytes; done || lia). cbn [mbind result_mbind].
  rewrite read_u32_exact by lia. cbn [mbind result_mbind].
  rewrite (proj2 (N.eqb_neq _ _)), (proj2 (N.ltb_ge fields_count _)) by lia.
  cbn [orb fail_if mbind result_mbind].
  rewrite N.ltb_irrefl, Hf. cbn [negb fail_if mbind result_mbind].
  rewrite checked_add_ok by lia. cbn [ok_or mbind result_mbind].
  rewrite (proj2 (N.ltb_ge _ _)) by lia. cbn [fail_if mbind result_mbind].
  rewrite (slice_at frame (pre ++ be_bytes 2 (index + 1) ++ be_bytes 4 (len f)) f rest
             (len pre + 6))
    by (rewrite <-?app_assoc, ?len_app, ?len_be_bytes; done || lia). cbn [mbind result_mbind].
  f_equal. lia.
Qed.

(** The loop reads back what was encoded. *)
Lemma parse_fields_encode fields frame pre index values :
  frame = pre ++ encode_tlvs (index + 1) fields -> tlv_valid valid (index + 1) fields = true ->
  (index + len fields <= fields_count)%N -> (len frame <= u64_max)%N ->
  loop frame (length fields) index (len pre) values = Ok (values ++ fields, len frame).
Proof.
  revert pre index values; induction fields as [|f fields IH];
    intros pre index values Hframe Hv Hc Hl; cbn [encode_tlvs] in Hframe.
  { cbn [length parse_fields]. rewrite Hframe. by rewrite !app_nil_r. }
  cbn [tlv_valid] in Hv. apply andb_true_iff in Hv as [Hf Hv]. rewrite len_cons in Hc.
  cbn [length]. erewrite parse_fields_step by (done || lia).
  rewrite (IH (pre ++ tlv (index + 1) f)); rewrite <-?app_assoc; done || lia.
Qed.

Lemma parse_message_encode fields :
  len fields = fields_count -> tlv_valid valid 1 fields = true ->
  (len (message magic version fields_count fields) <= maximum)%N ->
  parse (message magic version fields_count fields) = Ok fields.
Proof.
  intros Hn Hv Hl. set (frame := message _ _ _ fields) in *. unfold parse_message.
  assert (frame = magic ++ be_bytes 2 version ++ be_bytes 2 fields_count ++ encode_tlvs 1 fields) as Hf
    by (unfold frame, message; by rewrite <-!app_assoc).
  assert (len frame = len magic + 4 + len (encode_tlvs 1 fields))%N as Hlen.
  { rewrite Hf, !len_app, !len_be_bytes. lia. }
  rewrite (proj2 (N.ltb_ge _ (len frame))) by done. cbn [fail_if mbind result_mbind].
  rewrite (proj2 (N.ltb_ge (len frame) _)) by lia. cbn [fail_if mbind result_mbind].
  rewrite (slice_at frame [] magic _ 0 (len magic) Hf)
    by (first [reflexivity | rewrite N.add_0_l; reflexivity]). cbn [mbind result_mbind].
  rewrite bool_decide_ne_refl. cbn [fail_if mbind result_mbind].
  rewrite (slice_at frame magic (be_bytes 2 version) _ (len magic) (len magic + 2) Hf)
    by (rewrite ?len_be_bytes; reflexivity). cbn [mbind result_mbind].
  rewrite read_u16_exact by done. cbn [mbind result_mbind].
  rewrite N.eqb_refl. cbn [negb fail_if mbind result_mbind].
  rewrite (slice_at frame (magic ++ be_bytes 2 version) (be_bytes 2 fields_count)
             (encode_tlvs 1 fields) (len magic + 2) (len magic + 2 + 2))
    by (rewrite <-?app_assoc, ?len_app, ?len_be_bytes; done). cbn [mbind result_mbind].
  rewrite read_u16_exact by done. cbn [mbind result_mbind].
  replace (len magic + 2 + 2)%N with (len (magic ++ be_bytes 2 version ++ be_bytes 2 fields_count))
    by (rewrite !len_app, !len_be_bytes; lia).
  replace (N.to_nat fields_count) with (length fields) by (unfold len in Hn; lia).
  rewrite (parse_fields_encode fields frame); cbn [app mbind result_mbind].
  - rewrite N.ltb_irrefl. cbn [fail_if mbind result_mbind]. by rewrite N.eqb_refl.
  - by rewrite Hf, <-!app_assoc.
  - done.
  - lia.
  - lia.
Qed.

End parser.
