(* ===== verification/ApplyContracts.v ===== *)
(** * Apply contracts

    Slice provenance and target-slice commitments
    (crates/paraegox-runtime-contracts/src/provenance.rs), writer tenure
    claims, proofs and signing transcripts, and the control commitment over a
    slice and its apply controls
    (crates/paraegox-runtime-contracts/src/apply.rs), with the identities of
    crates/paraegox-kernel/src/identity.rs.

    The digests are those of KernelDigest, over a SHA-256 that is a parameter
    of the file's section. *)

From Stdlib Require Import Strings.String.
From S2P Require Import Prelude Bytes KernelDigest.
Open Scope rust_scope.

(** ** Identities (identity.rs, the [opaque_ref!] types) *)

Record RuntimeHostId := MkRuntimeHostId { host_bytes : bytes16 }.
#[export] Instance RuntimeHostId_eq_dec : EqDecision RuntimeHostId.
Proof. solve_decision. Defined.
Record PrincipalRef := MkPrincipalRef { principal_bytes : bytes16 }.
#[export] Instance PrincipalRef_eq_dec : EqDecision PrincipalRef.
Proof. solve_decision. Defined.
Record SourceScopeRef := MkSourceScopeRef { scope_bytes : bytes16 }.
#[export] Instance SourceScopeRef_eq_dec : EqDecision SourceScopeRef.
Proof. solve_decision. Defined.
Record SourcePlanRef := MkSourcePlanRef { plan_bytes : bytes16 }.
#[export] Instance SourcePlanRef_eq_dec : EqDecision SourcePlanRef.
Proof. solve_decision. Defined.
Record PlanWriterRef := MkPlanWriterRef { writer_bytes : bytes16 }.
#[export] Instance PlanWriterRef_eq_dec : EqDecision PlanWriterRef.
Proof. solve_decision. Defined.
Record ApplyOperationId := MkApplyOperationId { operation_bytes : bytes16 }.
#[export] Instance ApplyOperationId_eq_dec : EqDecision ApplyOperationId.
Proof. solve_decision. Defined.
#[export] Instance ApplyOperationId_countable : Countable ApplyOperationId :=
  inj_countable' operation_bytes MkApplyOperationId (fun '(MkApplyOperationId _) => eq_refl).
Record TenureAuthorityRef := MkTenureAuthorityRef { authority_bytes : bytes16 }.
#[export] Instance TenureAuthorityRef_eq_dec : EqDecision TenureAuthorityRef.
Proof. solve_decision. Defined.
Record TenureKeyRef := MkTenureKeyRef { key_bytes : bytes16 }.
#[export] Instance TenureKeyRef_eq_dec : EqDecision TenureKeyRef.
Proof. solve_decision. Defined.

(** ** Provenance and slice headers (provenance.rs) *)

Definition RUNTIME_SLICE_HEADER_VERSION : N := 1.
Definition TARGET_SLICE_DIGEST_DOMAIN : list byte :=
  ascii_bytes "paraegox.runtime.target-slice.sha256.v1".

Record SourcePlanRevision := MkSourcePlanRevision { revision_value : N }.
#[export] Instance SourcePlanRevision_eq_dec : EqDecision SourcePlanRevision.
Proof. solve_decision. Defined.
Record SourcePlanDigest := MkSourcePlanDigest { plan_digest_value : Digest32 }.
#[export] Instance SourcePlanDigest_eq_dec : EqDecision SourcePlanDigest.
Proof. solve_decision. Defined.
Record TargetAssignmentDigest := MkTargetAssignmentDigest { assignment_digest_value : Digest32 }.
#[export] Instance TargetAssignmentDigest_eq_dec : EqDecision TargetAssignmentDigest.
Proof. solve_decision. Defined.
Record TargetSliceDigest := MkTargetSliceDigest { slice_digest_value : Digest32 }.
#[export] Instance TargetSliceDigest_eq_dec : EqDecision TargetSliceDigest.
Proof. solve_decision. Defined.

Record PlanProvenance := MkPlanProvenance {
  source_scope : SourceScopeRef;
  source_plan : SourcePlanRef;
  source_revision : SourcePlanRevision;
  source_plan_digest : SourcePlanDigest;
}.
#[export] Instance PlanProvenance_eq_dec : EqDecision PlanProvenance.
Proof. solve_decision. Defined.

Record RuntimeSliceHeader := MkRuntimeSliceHeader {
  contract_version : N;
  target : RuntimeHostId;
  provenance : PlanProvenance;
  assignment_digest : TargetAssignmentDigest;
}.
#[export] Instance RuntimeSliceHeader_eq_dec : EqDecision RuntimeSliceHeader.
Proof. solve_decision. Defined.

Definition slice_header_new (target : RuntimeHostId) (provenance : PlanProvenance)
    (assignment_digest : TargetAssignmentDigest) : RuntimeSliceHeader :=
  {| contract_version := RUNTIME_SLICE_HEADER_VERSION;
     target := target;
     provenance := provenance;
     assignment_digest := assignment_digest |}.

Record RuntimeSliceCommitment := MkRuntimeSliceCommitment {
  header : RuntimeSliceHeader;
  target_slice_digest : TargetSliceDigest;
}.
#[export] Instance RuntimeSliceCommitment_eq_dec : EqDecision RuntimeSliceCommitment.
Proof. solve_decision. Defined.

Inductive ProvenanceContractError :=
| ProvenanceDigest (e : DigestBuildError)
| TargetSliceDigestMismatch.
#[export] Instance ProvenanceContractError_eq_dec : EqDecision ProvenanceContractError.
Proof. solve_decision. Defined.

Section provenance.
Context (sha256 : list byte -> bytes32).

Definition slice_commitment_try_new (header : RuntimeSliceHeader)
    : result ProvenanceContractError RuntimeSliceCommitment :=
  map_err ProvenanceDigest (
    builder ← digest_try_new TARGET_SLICE_DIGEST_DOMAIN;
    builder ← field_u16 builder (contract_version header);
    builder ← field_bytes builder (vec_to_list (host_bytes (target header)));
    builder ← field_bytes builder (vec_to_list (scope_bytes (source_scope (provenance header))));
    builder ← field_bytes builder (vec_to_list (plan_bytes (source_plan (provenance header))));
    builder ← field_u64 builder (revision_value (source_revision (provenance header)));
    builder ← field_digest builder (plan_digest_value (source_plan_digest (provenance header)));
    builder ← field_digest builder (assignment_digest_value (assignment_digest header));
    Ok {| header := header;
          target_slice_digest := MkTargetSliceDigest (finish sha256 builder) |}).

Definition slice_commitment_validate (self : RuntimeSliceCommitment)
    : result ProvenanceContractError unit :=
  recomputed ← slice_commitment_try_new (header self);
  bail TargetSliceDigestMismatch
    when bool_decide (target_slice_digest recomputed <> target_slice_digest self);
  Ok tt.
End provenance.

(** ** Writer tenure (apply.rs) *)

Definition WRITER_TENURE_PROOF_ENVELOPE_DIGEST_DOMAIN : list byte :=
  ascii_bytes "paraegox.runtime.writer-tenure-proof.sha256.v1".
Definition APPLY_CONTROL_COMMITMENT_DIGEST_DOMAIN : list byte :=
  ascii_bytes "paraegox.runtime.apply-control.sha256.v1".
Definition SIGNING_TRANSCRIPT_MAGIC : list byte :=
  ascii_bytes "ParaEGOX" ++ [x00] ++ ascii_bytes "canonical-signing-transcript".
Definition WRITER_TENURE_SIGNING_DOMAIN : list byte :=
  ascii_bytes "paraegox.runtime.writer-tenure.signing.v1".
Definition WRITER_TENURE_SIGNING_FIELD_COUNT : N := 9.
Definition TRANSCRIPT_TLV_HEADER_BYTES : N := 6.
Definition WRITER_TENURE_SIGNING_TRANSCRIPT_VERSION : N := 1.
Definition MAX_TENURE_NONCE_BYTES : N := 64.
Definition MAX_TENURE_SIGNATURE_BYTES : N := 512.
Definition MAX_TENURE_SIGNING_TRANSCRIPT_BYTES : N :=
  (len SIGNING_TRANSCRIPT_MAGIC + 2 + 2 + len WRITER_TENURE_SIGNING_DOMAIN + 2
   + (WRITER_TENURE_SIGNING_FIELD_COUNT * TRANSCRIPT_TLV_HEADER_BYTES)
   + (16 + 16 + 2 + 2 + 16 + 16 + 8 + 8 + MAX_TENURE_NONCE_BYTES))%N.

Inductive TenureProofError :=
| InvalidAlgorithm
| InvalidAlgorithmVersion
| InvalidEpoch
| InvalidSupersedesEpoch
| EmptyNonce
| NonceTooLong
| EmptySignature
| SignatureTooLong.
#[export] Instance TenureProofError_eq_dec : EqDecision TenureProofError.
Proof. solve_decision. Defined.

Record PlanWriterEpoch := MkPlanWriterEpoch { epoch_value : N }.
#[export] Instance PlanWriterEpoch_eq_dec : EqDecision PlanWriterEpoch.
Proof. solve_decision. Defined.
Record TenureProofAlgorithm := MkTenureProofAlgorithm { algorithm_value : N }.
#[export] Instance TenureProofAlgorithm_eq_dec : EqDecision TenureProofAlgorithm.
Proof. solve_decision. Defined.

Definition algorithm_try_new (value : N) : result TenureProofError TenureProofAlgorithm :=
  bail InvalidAlgorithm when (value =? 0)%N;
  Ok (MkTenureProofAlgorithm value).

Record TenureProofAuthority := MkTenureProofAuthority {
  authority : TenureAuthorityRef;
  key : TenureKeyRef;
  algorithm : TenureProofAlgorithm;
  algorithm_version : N;
}.
#[export] Instance TenureProofAuthority_eq_dec : EqDecision TenureProofAuthority.
Proof. solve_decision. Defined.

Definition authority_try_new (authority : TenureAuthorityRef) (key : TenureKeyRef)
    (algorithm : TenureProofAlgorithm) (algorithm_version : N)
    : result TenureProofError TenureProofAuthority :=
  bail InvalidAlgorithmVersion when (algorithm_version =? 0)%N;
  Ok (MkTenureProofAuthority authority key algorithm algorithm_version).

Record WriterTenureClaim := MkWriterTenureClaim {
  claim_source_scope : SourceScopeRef;
  claim_writer : PlanWriterRef;
  claim_epoch : PlanWriterEpoch;
  claim_supersedes_through_epoch : PlanWriterEpoch;
}.
#[export] Instance WriterTenureClaim_eq_dec : EqDecision WriterTenureClaim.
Proof. solve_decision. Defined.

Definition claim_try_new (source_scope : SourceScopeRef) (writer : PlanWriterRef)
    (epoch supersedes_through_epoch : PlanWriterEpoch)
    : result TenureProofError WriterTenureClaim :=
  bail InvalidEpoch when (epoch_value epoch =? 0)%N;
  bail InvalidSupersedesEpoch
    when (epoch_value epoch <=? epoch_value supersedes_through_epoch)%N;
  Ok (MkWriterTenureClaim source_scope writer epoch supersedes_through_epoch).

Definition validate_tenure_nonce (nonce : list byte) : result TenureProofError unit :=
  bail EmptyNonce when bool_decide (nonce = []);
  bail NonceTooLong when (MAX_TENURE_NONCE_BYTES <? len nonce)%N;
  Ok tt.

(** The length is cast to [u32], so it wraps. *)
Definition append_transcript_tlv (encoded : list byte) (tag : N) (value : list byte) : list byte :=
  encoded ++ be_bytes 2 tag ++ be_bytes 4 (len value mod 2 ^ 32) ++ value.

Record WriterTenureSigningTranscript := MkSigningTranscript { transcript_bytes : list byte }.

Definition signing_transcript_try_new (auth : TenureProofAuthority) (claim : WriterTenureClaim)
    (nonce : list byte) : result TenureProofError WriterTenureSigningTranscript :=
  _ ← validate_tenure_nonce nonce;
  let encoded :=
    SIGNING_TRANSCRIPT_MAGIC
    ++ be_bytes 2 WRITER_TENURE_SIGNING_TRANSCRIPT_VERSION
    ++ be_bytes 2 (len WRITER_TENURE_SIGNING_DOMAIN mod 2 ^ 16)
    ++ WRITER_TENURE_SIGNING_DOMAIN
    ++ be_bytes 2 WRITER_TENURE_SIGNING_FIELD_COUNT in
  let encoded := append_transcript_tlv encoded 1 (vec_to_list (authority_bytes (authority auth))) in
  let encoded := append_transcript_tlv encoded 2 (vec_to_list (key_bytes (key auth))) in
  let encoded := append_transcript_tlv encoded 3 (be_bytes 2 (algorithm_value (algorithm auth))) in
  let encoded := append_transcript_tlv encoded 4 (be_bytes 2 (algorithm_version auth)) in
  let encoded :=
    append_transcript_tlv encoded 5 (vec_to_list (scope_bytes (claim_source_scope claim))) in
  let encoded := append_transcript_tlv encoded 6 (vec_to_list (writer_bytes (claim_writer claim))) in
  let encoded := append_transcript_tlv encoded 7 (be_bytes 8 (epoch_value (claim_epoch claim))) in
  let encoded :=
    append_transcript_tlv encoded 8
      (be_bytes 8 (epoch_value (claim_supersedes_through_epoch claim))) in
  let encoded := append_transcript_tlv encoded 9 nonce in
  (* [debug_assert!] *)
  if (len encoded <=? MAX_TENURE_SIGNING_TRANSCRIPT_BYTES)%N
  then Ok (MkSigningTranscript encoded) else Panic.

Record WriterTenureProof := MkWriterTenureProof {
  proof_authority : TenureProofAuthority;
  proof_claim : WriterTenureClaim;
  proof_nonce : list byte;
  proof_signature : list byte;
}.
#[export] Instance WriterTenureProof_eq_dec : EqDecision WriterTenureProof.
Proof. solve_decision. Defined.

Definition tenure_proof_try_new (authority : TenureProofAuthority) (claim : WriterTenureClaim)
    (nonce signature : list byte) : result TenureProofError WriterTenureProof :=
  _ ← validate_tenure_nonce nonce;
  bail EmptySignature when bool_decide (signature = []);
  bail SignatureTooLong when (MAX_TENURE_SIGNATURE_BYTES <? len signature)%N;
  Ok (MkWriterTenureProof authority claim nonce signature).

Definition proof_signing_transcript (self : WriterTenureProof)
    : result TenureProofError WriterTenureSigningTranscript :=
  signing_transcript_try_new (proof_authority self) (proof_claim self) (proof_nonce self).

Section envelope.
Context (sha256 : list byte -> bytes32).

Definition envelope_digest (self : WriterTenureProof) : result DigestBuildError Digest32 :=
  let auth := proof_authority self in
  let claim := proof_claim self in
  builder ← digest_try_new WRITER_TENURE_PROOF_ENVELOPE_DIGEST_DOMAIN;
  builder ← field_bytes builder (vec_to_list (authority_bytes (authority auth)));
  builder ← field_bytes builder (vec_to_list (key_bytes (key auth)));
  builder ← field_u16 builder (algorithm_value (algorithm auth));
  builder ← field_u16 builder (algorithm_version auth);
  builder ← field_bytes builder (vec_to_list (scope_bytes (claim_source_scope claim)));
  builder ← field_bytes builder (vec_to_list (writer_bytes (claim_writer claim)));
  builder ← field_u64 builder (epoch_value (claim_epoch claim));
  builder ← field_u64 builder (epoch_value (claim_supersedes_through_epoch claim));
  builder ← field_bytes builder (proof_nonce self);
  builder ← field_bytes builder (proof_signature self);
  Ok (finish sha256 builder).
End envelope.

(** ** Apply controls *)

Inductive ApplyContractError :=
| ContractDigest (e : DigestBuildError)
| ContractProvenance (e : ProvenanceContractError)
| WriterRefMismatch
| WriterEpochMismatch
| WriterScopeMismatch
| ControlCommitmentDigestMismatch.
#[export] Instance ApplyContractError_eq_dec : EqDecision ApplyContractError.
Proof. solve_decision. Defined.

Record PlanWriterContext := MkPlanWriterContext {
  context_writer : PlanWriterRef;
  context_epoch : PlanWriterEpoch;
  context_proof : WriterTenureProof;
}.
#[export] Instance PlanWriterContext_eq_dec : EqDecision PlanWriterContext.
Proof. solve_decision. Defined.

Definition writer_context_try_new (writer : PlanWriterRef) (epoch : PlanWriterEpoch)
    (proof : WriterTenureProof) : result ApplyContractError PlanWriterContext :=
  bail WriterRefMismatch when bool_decide (claim_writer (proof_claim proof) <> writer);
  bail WriterEpochMismatch when bool_decide (claim_epoch (proof_claim proof) <> epoch);
  Ok (MkPlanWriterContext writer epoch proof).

Inductive ExpectedActive :=
| ExpectNone
| ExpectExact (digest : TargetSliceDigest).
#[export] Instance ExpectedActive_eq_dec : EqDecision ExpectedActive.
Proof. solve_decision. Defined.

Record RuntimeApplyControl := MkRuntimeApplyControl {
  writer_context : PlanWriterContext;
  expected_active : ExpectedActive;
  operation_id : ApplyOperationId;
}.
#[export] Instance RuntimeApplyControl_eq_dec : EqDecision RuntimeApplyControl.
Proof. solve_decision. Defined.

Record RuntimeApplyControlCommitment := MkApplyControlCommitment {
  slice : RuntimeSliceCommitment;
  control : RuntimeApplyControl;
  commitment_digest : Digest32;
}.
#[export] Instance RuntimeApplyControlCommitment_eq_dec : EqDecision RuntimeApplyControlCommitment.
Proof. solve_decision. Defined.

Definition ensure_writer_scope_matches (slice : RuntimeSliceCommitment)
    (control : RuntimeApplyControl) : result ApplyContractError unit :=
  let slice_scope := source_scope (provenance (header slice)) in
  let proof_scope :=
    claim_source_scope (proof_claim (context_proof (writer_context control))) in
  bail WriterScopeMismatch when bool_decide (proof_scope <> slice_scope);
  Ok tt.

Definition zero_digest : Digest32 := MkDigest32 (Vector.const x00 32).

Section control.
Context (sha256 : list byte -> bytes32).

Definition control_commitment_digest (slice : RuntimeSliceCommitment)
    (control : RuntimeApplyControl) : result ApplyContractError Digest32 :=
  map_err ContractDigest (
    let header := header slice in
    let provenance := provenance header in
    let writer := writer_context control in
    proof_envelope_digest ← envelope_digest sha256 (context_proof writer);
    let '(expected_tag, expected_slice_digest) :=
      match expected_active control with
      | ExpectNone => (0%N, zero_digest)
      | ExpectExact digest => (1%N, slice_digest_value digest)
      end in
    builder ← digest_try_new APPLY_CONTROL_COMMITMENT_DIGEST_DOMAIN;
    builder ← field_digest builder (slice_digest_value (target_slice_digest slice));
    builder ← field_u16 builder (contract_version header);
    builder ← field_bytes builder (vec_to_list (host_bytes (target header)));
    builder ← field_bytes builder (vec_to_list (scope_bytes (source_scope provenance)));
    builder ← field_bytes builder (vec_to_list (plan_bytes (source_plan provenance)));
    builder ← field_u64 builder (revision_value (source_revision provenance));
    builder ← field_digest builder (plan_digest_value (source_plan_digest provenance));
    builder ← field_digest builder (assignment_digest_value (assignment_digest header));
    builder ← field_bytes builder (vec_to_list (writer_bytes (context_writer writer)));
    builder ← field_u64 builder (epoch_value (context_epoch writer));
    builder ← field_digest builder proof_envelope_digest;
    builder ← field_u16 builder expected_tag;
    builder ← field_digest builder expected_slice_digest;
    builder ← field_bytes builder (vec_to_list (operation_bytes (operation_id control)));
    Ok (finish sha256 builder)).

Definition control_commitment_try_new (slice : RuntimeSliceCommitment)
    (control : RuntimeApplyControl) : result ApplyContractError RuntimeApplyControlCommitment :=
  _ ← map_err ContractProvenance (slice_commitment_validate sha256 slice);
  _ ← ensure_writer_scope_matches slice control;
  commitment_digest ← control_commitment_digest slice control;
  Ok (MkApplyControlCommitment slice control commitment_digest).

Definition control_commitment_validate (self : RuntimeApplyControlCommitment)
    : result ApplyContractError unit :=
  _ ← map_err ContractProvenance (slice_commitment_validate sha256 (slice self));
  _ ← ensure_writer_scope_matches (slice self) (control self);
  digest ← control_commitment_digest (slice self) (control self);
  bail ControlCommitmentDigestMismatch when bool_decide (digest <> commitment_digest self);
  Ok tt.
End control.

(** ** Field widths *)

Definition header_typed (h : RuntimeSliceHeader) : Prop :=
  (contract_version h <= u16_max /\ revision_value (source_revision (provenance h)) <= u64_max)%N.
#[export] Instance header_typed_dec h : Decision (header_typed h) := and_dec _ _.
Definition authority_typed (a : TenureProofAuthority) : Prop :=
  (algorithm_value (algorithm a) <= u16_max /\ algorithm_version a <= u16_max)%N.
#[export] Instance authority_typed_dec a : Decision (authority_typed a) := and_dec _ _.
Definition claim_typed (c : WriterTenureClaim) : Prop :=
  (epoch_value (claim_epoch c) <= u64_max /\
   epoch_value (claim_supersedes_through_epoch c) <= u64_max)%N.
#[export] Instance claim_typed_dec c : Decision (claim_typed c) := and_dec _ _.
Definition proof_typed (p : WriterTenureProof) : Prop :=
  authority_typed (proof_authority p) /\ claim_typed (proof_claim p) /\
  (len (proof_nonce p) <= u64_max)%N /\ (len (proof_signature p) <= u64_max)%N.
#[export] Instance proof_typed_dec p : Decision (proof_typed p) := and_dec _ _.
Definition control_typed (c : RuntimeApplyControl) : Prop :=
  (epoch_value (context_epoch (writer_context c)) <= u64_max)%N /\
  proof_typed (context_proof (writer_context c)).
#[export] Instance control_typed_dec c : Decision (control_typed c) := and_dec _ _.
#[global] Typeclasses Opaque header_typed authority_typed claim_typed proof_typed control_typed.

(** ** The field sequences of the digests *)

Definition slice_fields (h : RuntimeSliceHeader) : list (list byte) :=
  [be_bytes 2 (contract_version h); vec_to_list (host_bytes (target h));
   vec_to_list (scope_bytes (source_scope (provenance h)));
   vec_to_list (plan_bytes (source_plan (provenance h)));
   be_bytes 8 (revision_value (source_revision (provenance h)));
   vec_to_list (digest_bytes (plan_digest_value (source_plan_digest (provenance h))));
   vec_to_list (digest_bytes (assignment_digest_value (assignment_digest h)))].

Definition envelope_fields (p : WriterTenureProof) : list (list byte) :=
  let a := proof_authority p in let c := proof_claim p in
  [vec_to_list (authority_bytes (authority a)); vec_to_list (key_bytes (key a));
   be_bytes 2 (algorithm_value (algorithm a)); be_bytes 2 (algorithm_version a);
   vec_to_list (scope_bytes (claim_source_scope c)); vec_to_list (writer_bytes (claim_writer c));
   be_bytes 8 (epoch_value (claim_epoch c));
   be_bytes 8 (epoch_value (claim_supersedes_through_epoch c));
   proof_nonce p; proof_signature p].

Definition expected_fields (e : ExpectedActive) : N * Digest32 :=
  match e with
  | ExpectNone => (0%N, zero_digest)
  | ExpectExact digest => (1%N, slice_digest_value digest)
  end.

Definition slice_preimage (h : RuntimeSliceHeader) : list byte :=
  preimage TARGET_SLICE_DIGEST_DOMAIN (slice_fields h).
Definition envelope_preimage (p : WriterTenureProof) : list byte :=
  preimage WRITER_TENURE_PROOF_ENVELOPE_DIGEST_DOMAIN (envelope_fields p).

Section fields.
Context (sha256 : list byte -> bytes32).

Definition control_fields (s : RuntimeSliceCommitment) (c : RuntimeApplyControl) : list (list byte) :=
  [vec_to_list (digest_bytes (slice_digest_value (target_slice_digest s)))]
  ++ slice_fields (header s)
  ++ [vec_to_list (writer_bytes (context_writer (writer_context c)));
      be_bytes 8 (epoch_value (context_epoch (writer_context c)));
      vec_to_list (sha256 (envelope_preimage (context_proof (writer_context c))));
      be_bytes 2 (fst (expected_fields (expected_active c)));
      vec_to_list (digest_bytes (snd (expected_fields (expected_active c))));
      vec_to_list (operation_bytes (operation_id c))].

Definition control_preimage (s : RuntimeSliceCommitment) (c : RuntimeApplyControl) : list byte :=
  preimage APPLY_CONTROL_COMMITMENT_DIGEST_DOMAIN (control_fields s c).

(** Fixed-size fields fit their length prefix. *)
#[local] Hint Rewrite len_be_bytes len_vec : widths.

Ltac solve_buildable :=
  split_and!; [done|vm_compute; congruence| |vm_compute; congruence];
  repeat first [apply Forall_nil_2 | apply Forall_cons; split];
  autorewrite with widths; first [done|vm_compute; congruence].

Lemma slice_buildable h : buildable TARGET_SLICE_DIGEST_DOMAIN (slice_fields h).
Proof. solve_buildable. Qed.
Lemma envelope_buildable p :
  proof_typed p -> buildable WRITER_TENURE_PROOF_ENVELOPE_DIGEST_DOMAIN (envelope_fields p).
Proof. intros (_ & _ & ? & ?). solve_buildable. Qed.
Lemma control_buildable s c :
  buildable APPLY_CONTROL_COMMITMENT_DIGEST_DOMAIN (control_fields s c).
Proof. solve_buildable. Qed.

Lemma slice_commitment_try_new_eq h :
  slice_commitment_try_new sha256 h =
  Ok (MkRuntimeSliceCommitment h
        (MkTargetSliceDigest (MkDigest32 (sha256 (slice_preimage h))))).
Proof.
  destruct (buildable_finish sha256 _ _ (slice_buildable h)) as (b & H & Hf).
  unfold slice_commitment_try_new, slice_preimage. rewrite <-Hf. clear Hf.
  run_build H. by injection H as <-.
Qed.
Lemma envelope_digest_eq p :
  proof_typed p -> envelope_digest sha256 p = Ok (MkDigest32 (sha256 (envelope_preimage p))).
Proof.
  intros Hp. destruct (buildable_finish sha256 _ _ (envelope_buildable p Hp)) as (b & H & Hf).
  unfold envelope_digest, envelope_preimage. rewrite <-Hf. clear Hf.
  run_build H. by injection H as <-.
Qed.
Lemma control_commitment_digest_eq s c :
  control_typed c ->
  control_commitment_digest sha256 s c = Ok (MkDigest32 (sha256 (control_preimage s c))).
Proof.
  intros [_ Hp]. destruct (buildable_finish sha256 _ _ (control_buildable s c)) as (b & H & Hf).
  unfold control_commitment_digest, control_preimage. rewrite <-Hf. clear Hf.
  rewrite envelope_digest_eq by done. cbn [mbind result_mbind].
  fold (expected_fields (expected_active c)).
  rewrite (surjective_pairing (expected_fields (expected_active c))).
  run_build H. by injection H as <-.
Qed.
End fields.

(** ** Injectivity *)

Lemma be2_inj v w : (v <= u16_max)%N -> (w <= u16_max)%N -> be_bytes 2 v = be_bytes 2 w -> v = w.
Proof. unfold u16_max. intros ??. apply be_bytes_inj; simpl N.of_nat; lia. Qed.
Lemma be8_inj v w : (v <= u64_max)%N -> (w <= u64_max)%N -> be_bytes 8 v = be_bytes 8 w -> v = w.
Proof. unfold u64_max. intros ??. apply be_bytes_inj; simpl N.of_nat; lia. Qed.

(** Reads equalities between encoded fields back as equalities of values. *)
Lemma fields_cons_inj (x y : list byte) l k : x :: l = y :: k -> x = y /\ l = k.
Proof. by intros [= -> ->]. Qed.
Ltac decode_fields :=
  repeat match goal with
  | H : ?x :: ?l = ?y :: ?k |- _ =>
      let H1 := fresh "Hf" in apply (fields_cons_inj x y l k) in H as [H1 H]
  | H : vec_to_list ?v = vec_to_list ?w |- _ => apply vec_to_list_inj2 in H
  | H : be_bytes 2 _ = be_bytes 2 _ |- _ => apply be2_inj in H; [|done..]
  | H : be_bytes 8 _ = be_bytes 8 _ |- _ => apply be8_inj in H; [|done..]
  end.

Lemma slice_fields_inj h h' :
  header_typed h -> header_typed h' -> slice_fields h = slice_fields h' -> h = h'.
Proof.
  destruct h as [v [t] [[s] [p] [r] [[d]]] [[a]]], h' as [v' [t'] [[s'] [p'] [r'] [[d']]] [[a']]].
  intros [??] [??]. unfold slice_fields; simpl in *. intros Heq. decode_fields. congruence.
Qed.
Lemma envelope_fields_inj p p' :
  proof_typed p -> proof_typed p' -> envelope_fields p = envelope_fields p' -> p = p'.
Proof.
  destruct p as [[[a] [k] [g] v] [[s] [w] [e] [u]] n q],
    p' as [[[a'] [k'] [g'] v'] [[s'] [w'] [e'] [u']] n' q'].
  intros ([??]&[??]&_) ([??]&[??]&_). unfold envelope_fields; simpl in *. intros Heq.
  decode_fields. congruence.
Qed.
Lemma expected_fields_inj e e' : expected_fields e = expected_fields e' -> e = e'.
Proof. destruct e as [|[]], e' as [|[]]; unfold expected_fields; simpl; congruence. Qed.
Lemma expected_fields_tag e : (fst (expected_fields e) <= u16_max)%N.
Proof. destruct e; vm_compute; congruence. Qed.

Lemma control_fields_inj sha256 s s' c c' :
  header_typed (header s) -> header_typed (header s') -> control_typed c -> control_typed c' ->
  collision_free sha256 [envelope_preimage (context_proof (writer_context c));
                         envelope_preimage (context_proof (writer_context c'))] ->
  control_fields sha256 s c = control_fields sha256 s' c' -> s = s' /\ c = c'.
Proof.
  intros Hs Hs' [He Hp] [He' Hp'] Hcf Heq. unfold control_fields in Heq.
  apply fields_cons_inj in Heq as [Hd Heq].
  apply (app_inj_1 (slice_fields (header s)) (slice_fields (header s'))) in Heq as [Hh Heq]; [|done].
  apply slice_fields_inj in Hh; [|done..].
  apply fields_cons_inj in Heq as [Hw Heq]. apply fields_cons_inj in Heq as [Hep Heq].
  apply fields_cons_inj in Heq as [Hsha Heq]. apply fields_cons_inj in Heq as [Htag Heq].
  apply fields_cons_inj in Heq as [Hexp Heq]. apply fields_cons_inj in Heq as [Hop _].
  pose proof (expected_fields_tag (expected_active c)).
  pose proof (expected_fields_tag (expected_active c')).
  decode_fields.
  apply (collision_free_inj sha256 _ _ _ Hcf) in Hsha; [|set_solver..].
  apply preimage_inj in Hsha as [_ Henv]; [|by apply envelope_buildable..].
  apply envelope_fields_inj in Henv; [|done..].
  assert (expected_fields (expected_active c) = expected_fields (expected_active c')) as Hexp'.
  { rewrite (surjective_pairing (expected_fields (expected_active c))),
      (surjective_pairing (expected_fields (expected_active c'))).
    destruct (snd (expected_fields (expected_active c))),
      (snd (expected_fields (expected_active c'))). simpl in Hexp. congruence. }
  apply expected_fields_inj in Hexp'.
  destruct s as [h [[d]]], s' as [h' [[d']]], c as [[[w] [e] pr] ex [o]], c' as [[[w'] [e'] pr'] ex' [o']].
  simpl in *. subst. split; congruence.
Qed.

(** ** Validation *)

Lemma slice_commitment_validate_Ok sha256 c u :
  slice_commitment_validate sha256 c = Ok u <->
  target_slice_digest c = MkTargetSliceDigest (MkDigest32 (sha256 (slice_preimage (header c)))).
Proof.
  unfold slice_commitment_validate. rewrite slice_commitment_try_new_eq. simpl.
  destruct u. case_bool_decide; simpl; naive_solver.
Qed.
Lemma slice_commitment_validate_cases sha256 c :
  slice_commitment_validate sha256 c = Ok tt \/
  slice_commitment_validate sha256 c = Err TargetSliceDigestMismatch.
Proof.
  unfold slice_commitment_validate. rewrite slice_commitment_try_new_eq. simpl.
  case_bool_decide; simpl; auto.
Qed.
Lemma slice_commitment_try_new_Ok sha256 h c :
  slice_commitment_try_new sha256 h = Ok c <->
  h = header c /\ slice_commitment_validate sha256 c = Ok tt.
Proof.
  rewrite slice_commitment_validate_Ok, slice_commitment_try_new_eq. destruct c; simpl. split.
  - intros [= <- <-]. done.
  - intros [-> ->]. done.
Qed.
Lemma ensure_writer_scope_matches_Ok s c u :
  ensure_writer_scope_matches s c = Ok u <->
  claim_source_scope (proof_claim (context_proof (writer_context c))) =
    source_scope (provenance (header s)).
Proof.
  unfold ensure_writer_scope_matches. destruct u. case_bool_decide; simpl; naive_solver.
Qed.
Lemma control_commitment_validate_Ok sha256 c u :
  control_commitment_validate sha256 c = Ok u ->
  slice_commitment_validate sha256 (slice c) = Ok tt /\
  claim_source_scope (proof_claim (context_proof (writer_context (control c)))) =
    source_scope (provenance (header (slice c))) /\
  control_commitment_digest sha256 (slice c) (control c) = Ok (commitment_digest c).
Proof.
  unfold control_commitment_validate. intros H. rust_inv.
  match goal with H : slice_commitment_validate _ _ = Ok ?u |- _ => destruct u end.
  match goal with H : ensure_writer_scope_matches _ _ = Ok _ |- _ =>
    apply ensure_writer_scope_matches_Ok in H end.
  match goal with H : ~ (_ <> _) |- _ => apply dec_stable in H; subst end. done.
Qed.

(** The transcript of an accepted nonce. *)
Definition transcript_encoding (auth : TenureProofAuthority) (claim : WriterTenureClaim)
    (nonce : list byte) : list byte :=
  (SIGNING_TRANSCRIPT_MAGIC
   ++ be_bytes 2 WRITER_TENURE_SIGNING_TRANSCRIPT_VERSION
   ++ be_bytes 2 (len WRITER_TENURE_SIGNING_DOMAIN mod 2 ^ 16)
   ++ WRITER_TENURE_SIGNING_DOMAIN
   ++ be_bytes 2 WRITER_TENURE_SIGNING_FIELD_COUNT)
  ++ append_transcript_tlv [] 1 (vec_to_list (authority_bytes (authority auth)))
  ++ append_transcript_tlv [] 2 (vec_to_list (key_bytes (key auth)))
  ++ append_transcript_tlv [] 3 (be_bytes 2 (algorithm_value (algorithm auth)))
  ++ append_transcript_tlv [] 4 (be_bytes 2 (algorithm_version auth))
  ++ append_transcript_tlv [] 5 (vec_to_list (scope_bytes (claim_source_scope claim)))
  ++ append_transcript_tlv [] 6 (vec_to_list (writer_bytes (claim_writer claim)))
  ++ append_transcript_tlv [] 7 (be_bytes 8 (epoch_value (claim_epoch claim)))
  ++ append_transcript_tlv [] 8 (be_bytes 8 (epoch_value (claim_supersedes_through_epoch claim)))
  ++ append_transcript_tlv [] 9 nonce.

Lemma append_transcript_tlv_app encoded tag v :
  append_transcript_tlv encoded tag v = encoded ++ append_transcript_tlv [] tag v.
Proof. reflexivity. Qed.
Lemma len_append_transcript_tlv tag v :
  len (append_transcript_tlv [] tag v) = (TRANSCRIPT_TLV_HEADER_BYTES + len v)%N.
Proof.
  unfold append_transcript_tlv. cbn [app]. rewrite !len_app, !len_be_bytes.
  unfold TRANSCRIPT_TLV_HEADER_BYTES. lia.
Qed.
Lemma len_transcript_encoding auth claim nonce :
  (len (transcript_encoding auth claim nonce) + MAX_TENURE_NONCE_BYTES =
   MAX_TENURE_SIGNING_TRANSCRIPT_BYTES + len nonce)%N.
Proof.
  unfold transcript_encoding, MAX_TENURE_SIGNING_TRANSCRIPT_BYTES.
  rewrite !len_app, !len_append_transcript_tlv, !len_be_bytes, !len_vec.
  unfold TRANSCRIPT_TLV_HEADER_BYTES, MAX_TENURE_NONCE_BYTES, WRITER_TENURE_SIGNING_FIELD_COUNT.
  generalize (len SIGNING_TRANSCRIPT_MAGIC) (len WRITER_TENURE_SIGNING_DOMAIN). intros. lia.
Qed.
Lemma signing_transcript_eq auth claim nonce :
  signing_transcript_try_new auth claim nonce =
  (_ ← validate_tenure_nonce nonce;
   if (len (transcript_encoding auth claim nonce) <=? MAX_TENURE_SIGNING_TRANSCRIPT_BYTES)%N
   then Ok (MkSigningTranscript (transcript_encoding auth claim nonce)) else Panic).
Proof.
  unfold signing_transcript_try_new, transcript_encoding. cbv zeta.
  rewrite !(append_transcript_tlv_app (_ ++ _)), <-!app_assoc. reflexivity.
Qed.
Lemma validate_tenure_nonce_Ok nonce u :
  validate_tenure_nonce nonce = Ok u <-> (1 <= len nonce <= MAX_TENURE_NONCE_BYTES)%N.
Proof.
  unfold validate_tenure_nonce, MAX_TENURE_NONCE_BYTES. destruct u, nonce as [|x nonce]; simpl.
  { split; [discriminate|]. unfold len; simpl; lia. }
  destruct (N.ltb_spec 64 (len (x :: nonce))); simpl; rewrite len_cons in *; split;
    try discriminate; try done; lia.
Qed.
Lemma validate_tenure_nonce_Panic nonce : validate_tenure_nonce nonce <> Panic.
Proof. destruct nonce; [done|]. unfold validate_tenure_nonce. by destruct (_ <? _)%N. Qed.
Lemma signing_transcript_Ok auth claim nonce t :
  signing_transcript_try_new auth claim nonce = Ok t <->
  (1 <= len nonce <= MAX_TENURE_NONCE_BYTES)%N /\
  t = MkSigningTranscript (transcript_encoding auth claim nonce).
Proof.
  rewrite signing_transcript_eq, bind_Ok. setoid_rewrite validate_tenure_nonce_Ok.
  pose proof (len_transcript_encoding auth claim nonce).
  destruct (N.leb_spec (len (transcript_encoding auth claim nonce))
              MAX_TENURE_SIGNING_TRANSCRIPT_BYTES) as [Hl|Hl].
  - split; [intros (u & Hn & [= <-])|intros [Hn ->]; exists tt]; done.
  - split; [intros (u & Hn & ?); done|intros [Hn ->]; lia].
Qed.
Lemma tlv_inj (n : nat) tag (v w : list byte) k l :
  length v = n -> length w = n ->
  append_transcript_tlv [] tag v ++ k = append_transcript_tlv [] tag w ++ l -> v = w /\ k = l.
Proof.
  unfold append_transcript_tlv. intros Hv Hw H. cbn [app] in H. rewrite <-!app_assoc in H.
  apply app_inv_head in H. apply app_be_bytes_inj in H as [_ H].
  apply app_inj_1 in H; [done|congruence].
Qed.
Lemma transcript_encoding_inj auth auth' claim claim' nonce nonce' :
  authority_typed auth -> authority_typed auth' -> claim_typed claim -> claim_typed claim' ->
  transcript_encoding auth claim nonce = transcript_encoding auth' claim' nonce' ->
  auth = auth' /\ claim = claim' /\ nonce = nonce'.
Proof.
  destruct auth as [[a] [k] [g] v], auth' as [[a'] [k'] [g'] v'],
    claim as [[s] [w] [e] [u]], claim' as [[s'] [w'] [e'] [u']].
  intros [??] [??] [??] [??] Heq. unfold transcript_encoding in Heq.
  cbn [authority authority_bytes key key_bytes algorithm algorithm_value algorithm_version
       claim_source_scope scope_bytes claim_writer writer_bytes claim_epoch epoch_value
       claim_supersedes_through_epoch] in *.
  apply app_inv_head in Heq.
  do 2 (apply (tlv_inj 16) in Heq as [? Heq]; [|apply length_vec_to_list..]).
  do 2 (apply (tlv_inj 2) in Heq as [? Heq]; [|apply length_be_bytes..]).
  do 2 (apply (tlv_inj 16) in Heq as [? Heq]; [|apply length_vec_to_list..]).
  do 2 (apply (tlv_inj 8) in Heq as [? Heq]; [|apply length_be_bytes..]).
  unfold append_transcript_tlv in Heq. cbn [app] in Heq. apply app_inv_head in Heq.
  apply app_be_bytes_inj in Heq as [_ ->]. decode_fields. split_and!; congruence.
Qed.

(** ** Concrete values *)

(** Closes a decidable goal about concrete values by evaluation. *)
Ltac decide_now :=
  match goal with |- ?P => refine (bool_decide_eq_true_1 P _) end; vm_compute; reflexivity.

Module ContractDemo.
Definition ref (n : N) : bytes16 :=
  match vec_of_list 16 (be_bytes 16 n) with Some v => v | None => Vector.const x00 16 end.
Definition digest (n : N) : Digest32 :=
  MkDigest32 (match vec_of_list 32 (be_bytes 32 n) with Some v => v | None => Vector.const x00 32 end).
Definition slice_header (revision : N) : RuntimeSliceHeader :=
  slice_header_new (MkRuntimeHostId (ref 1))
    (MkPlanProvenance (MkSourceScopeRef (ref 2)) (MkSourcePlanRef (ref 3))
       (MkSourcePlanRevision revision) (MkSourcePlanDigest (digest 4)))
    (MkTargetAssignmentDigest (digest 5)).
Definition commit (revision : N) : RuntimeSliceCommitment :=
  match slice_commitment_try_new toy_hash (slice_header revision) with
  | Ok c => c
  | _ => MkRuntimeSliceCommitment (slice_header revision) (MkTargetSliceDigest (digest 0))
  end.
Definition tenure_authority : TenureProofAuthority :=
  MkTenureProofAuthority (MkTenureAuthorityRef (ref 6)) (MkTenureKeyRef (ref 7))
    (MkTenureProofAlgorithm 1) 1.
Definition claim (writer epoch supersedes : N) : WriterTenureClaim :=
  MkWriterTenureClaim (MkSourceScopeRef (ref 2)) (MkPlanWriterRef (ref writer))
    (MkPlanWriterEpoch epoch) (MkPlanWriterEpoch supersedes).
Definition proof (writer epoch supersedes : N) : WriterTenureProof :=
  MkWriterTenureProof tenure_authority (claim writer epoch supersedes) [x01; x02] [x03].
Definition apply_control (writer epoch supersedes operation : N) (expected : ExpectedActive)
    : RuntimeApplyControl :=
  MkRuntimeApplyControl
    (MkPlanWriterContext (MkPlanWriterRef (ref writer)) (MkPlanWriterEpoch epoch)
       (proof writer epoch supersedes))
    expected (MkApplyOperationId (ref operation)).
Definition request (revision writer epoch supersedes operation : N) (expected : ExpectedActive)
    : RuntimeApplyControlCommitment :=
  match control_commitment_try_new toy_hash (commit revision)
          (apply_control writer epoch supersedes operation expected) with
  | Ok c => c
  | _ => MkApplyControlCommitment (commit revision)
           (apply_control writer epoch supersedes operation expected) (digest 0)
  end.
End ContractDemo.

(** ** Properties *)

(** Committing a header always succeeds, the commitment carries that header
    and validates, and validation of the same header with any other stored
    digest is refused with [TargetSliceDigestMismatch]. *)
Theorem slice_commitment_round_trip sha256 (h : RuntimeSliceHeader) :
  exists c,
    slice_commitment_try_new sha256 h = Ok c /\ header c = h /\
    slice_commitment_validate sha256 c = Ok tt /\
    forall d, d <> target_slice_digest c ->
      slice_commitment_validate sha256 (MkRuntimeSliceCommitment h d) =
        Err TargetSliceDigestMismatch.
Proof.
  rewrite slice_commitment_try_new_eq. eexists. split; [done|]. split; [done|].
  split; [by apply slice_commitment_validate_Ok|]. intros d Hd.
  destruct (slice_commitment_validate_cases sha256 (MkRuntimeSliceCommitment h d)) as [H|H];
    [|done]. by apply slice_commitment_validate_Ok in H.
Qed.

(** Two validated target-slice commitments with different headers (another
    target, scope, plan, revision, plan digest or assignment digest) have
    different target-slice digests, as long as SHA-256 does not collide on
    the two canonical preimages. *)
Theorem slice_digest_binds_header sha256 (c c' : RuntimeSliceCommitment) :
  header_typed (header c) -> header_typed (header c') ->
  slice_commitment_validate sha256 c = Ok tt ->
  slice_commitment_validate sha256 c' = Ok tt ->
  collision_free sha256 [slice_preimage (header c); slice_preimage (header c')] ->
  header c <> header c' ->
  target_slice_digest c <> target_slice_digest c'.
Proof.
  intros Ht Ht' Hv Hv' Hcf Hne Heq. apply Hne, slice_fields_inj; [done..|].
  apply slice_commitment_validate_Ok in Hv, Hv'. rewrite Hv, Hv' in Heq. injection Heq as Heq.
  apply (collision_free_inj sha256 _ _ _ Hcf) in Heq; [|set_solver..].
  by apply preimage_inj in Heq as [_ ?]; [|apply slice_buildable..].
Qed.

Lemma slice_digest_binds_header_witness :
  target_slice_digest (ContractDemo.commit 7) <> target_slice_digest (ContractDemo.commit 8).
Proof.
  apply (slice_digest_binds_header toy_hash (ContractDemo.commit 7) (ContractDemo.commit 8)).
  - decide_now.
  - decide_now.
  - vm_compute. reflexivity.
  - vm_compute. reflexivity.
  - decide_now.
  - vm_compute. congruence.
Defined.

(** A control commitment validates exactly when it is what
    [RuntimeApplyControlCommitment::try_new] builds from its own slice and
    controls, and [try_new] succeeds exactly when the slice commitment is
    valid and the tenure proof is for the slice's source scope. *)
Theorem control_commitment_round_trip sha256 (c : RuntimeApplyControlCommitment) :
  control_typed (control c) ->
  (control_commitment_validate sha256 c = Ok tt <->
   control_commitment_try_new sha256 (slice c) (control c) = Ok c) /\
  ((exists c', control_commitment_try_new sha256 (slice c) (control c) = Ok c') <->
   slice_commitment_validate sha256 (slice c) = Ok tt /\
   claim_source_scope (proof_claim (context_proof (writer_context (control c)))) =
     source_scope (provenance (header (slice c)))).
Proof.
  intros Ht. unfold control_commitment_validate, control_commitment_try_new.
  rewrite control_commitment_digest_eq by done.
  destruct (slice_commitment_validate_cases sha256 (slice c)) as [-> | ->]; simpl.
  2: { split; [split; discriminate|]. split; [intros [? ?]; discriminate|intros [? ?]; discriminate]. }
  pose proof (ensure_writer_scope_matches_Ok (slice c) (control c) tt) as Hs.
  destruct (ensure_writer_scope_matches (slice c) (control c)) as [[]|e|]; simpl.
  - destruct c as [s k d]; simpl in *. split.
    + case_bool_decide as Hd; simpl; [|by subst].
      split; [discriminate|]. intros [= <-]. done.
    + split; [intros _; split; [done|by apply Hs]|eauto].
  - split; [split; discriminate|]. split; [intros [? ?]; discriminate|].
    intros [_ H]. apply Hs in H. discriminate.
  - split; [split; discriminate|]. split; [intros [? ?]; discriminate|].
    intros [_ H]. apply Hs in H. discriminate.
Qed.

Lemma control_commitment_round_trip_witness :
  control_commitment_validate toy_hash (ContractDemo.request 7 8 2 1 9 ExpectNone) = Ok tt.
Proof.
  apply (control_commitment_round_trip toy_hash (ContractDemo.request 7 8 2 1 9 ExpectNone)).
  - decide_now.
  - vm_compute. reflexivity.
Defined.

(** Two validated control commitments that differ anywhere (slice header or
    digest, writer, epoch, any field of the tenure proof including nonce and
    signature, CAS expectation, operation id) have different commitment
    digests, as long as SHA-256 does not collide on their two control
    preimages and two proof-envelope preimages. *)
Theorem control_digest_binds_request sha256 (c c' : RuntimeApplyControlCommitment) :
  header_typed (header (slice c)) -> header_typed (header (slice c')) ->
  control_typed (control c) -> control_typed (control c') ->
  control_commitment_validate sha256 c = Ok tt ->
  control_commitment_validate sha256 c' = Ok tt ->
  collision_free sha256 [control_preimage sha256 (slice c) (control c);
                         control_preimage sha256 (slice c') (control c')] ->
  collision_free sha256 [envelope_preimage (context_proof (writer_context (control c)));
                         envelope_preimage (context_proof (writer_context (control c')))] ->
  c <> c' -> commitment_digest c <> commitment_digest c'.
Proof.
  intros Hh Hh' Ht Ht' Hv Hv' Hcf Hcf' Hne Heq. apply Hne.
  apply control_commitment_validate_Ok in Hv as (_ & _ & Hd), Hv' as (_ & _ & Hd').
  rewrite control_commitment_digest_eq in Hd, Hd' by done.
  injection Hd as Hd. injection Hd' as Hd'. rewrite <-Hd, <-Hd' in Heq. injection Heq as Heq.
  apply (collision_free_inj sha256 _ _ _ Hcf) in Heq; [|set_solver..].
  apply preimage_inj in Heq as [_ Heq]; [|apply control_buildable..].
  apply control_fields_inj in Heq as [Hs Hc]; [|done..].
  destruct c, c'; simpl in *. congruence.
Qed.

(** The same request under another operation id. *)
Lemma control_digest_binds_request_witness :
  commitment_digest (ContractDemo.request 7 8 2 1 9 ExpectNone) <>
  commitment_digest (ContractDemo.request 7 8 2 1 10 ExpectNone).
Proof.
  apply (control_digest_binds_request toy_hash (ContractDemo.request 7 8 2 1 9 ExpectNone)
           (ContractDemo.request 7 8 2 1 10 ExpectNone)).
  - decide_now.
  - decide_now.
  - decide_now.
  - decide_now.
  - vm_compute. reflexivity.
  - vm_compute. reflexivity.
  - decide_now.
  - decide_now.
  - vm_compute. congruence.
Defined.

(** The signing transcript exists exactly for nonces of 1 to 64 bytes; it
    never exceeds its declared maximum (so the debug assertion cannot fire)
    and reaches it at the longest nonce. *)
Theorem signing_transcript_bounds (auth : TenureProofAuthority) (claim : WriterTenureClaim)
    (nonce : list byte) :
  signing_transcript_try_new auth claim nonce <> Panic /\
  ((1 <= len nonce <= MAX_TENURE_NONCE_BYTES)%N <->
   exists t, signing_transcript_try_new auth claim nonce = Ok t /\
     (len (transcript_bytes t) + (MAX_TENURE_NONCE_BYTES - len nonce)
      = MAX_TENURE_SIGNING_TRANSCRIPT_BYTES)%N).
Proof.
  pose proof (len_transcript_encoding auth claim nonce) as Hl. split.
  - pose proof (proj2 (signing_transcript_Ok auth claim nonce
      (MkSigningTranscript (transcript_encoding auth claim nonce)))) as Hok.
    intros Hp. pose proof Hp as Hp'. rewrite signing_transcript_eq in Hp'.
    apply bind_Panic in Hp' as [H|(u & H & _)]; [by apply validate_tenure_nonce_Panic in H|].
    apply validate_tenure_nonce_Ok in H. rewrite Hok in Hp; done.
  - split.
    + intros Hn. eexists. rewrite signing_transcript_Ok. split; [done|]. simpl transcript_bytes. lia.
    + intros (t & H & _). by apply signing_transcript_Ok in H as [H _].
Qed.

(** The bytes an authority signs determine the authority, key, algorithm and
    version, the scope, writer, epoch and superseded epoch, and the nonce:
    two different tenure proofs never share a signing transcript unless they
    differ only in the signature. *)
Theorem signing_transcript_binds_claim (p p' : WriterTenureProof) t t' :
  proof_typed p -> proof_typed p' ->
  proof_signing_transcript p = Ok t -> proof_signing_transcript p' = Ok t' ->
  (proof_authority p, proof_claim p, proof_nonce p) <>
    (proof_authority p', proof_claim p', proof_nonce p') ->
  transcript_bytes t <> transcript_bytes t'.
Proof.
  intros (Ha & Hc & _) (Ha' & Hc' & _) Ht Ht' Hne Heq. apply Hne.
  apply signing_transcript_Ok in Ht as [_ ->], Ht' as [_ ->].
  apply transcript_encoding_inj in Heq as (-> & -> & ->); done.
Qed.

Lemma signing_transcript_binds_claim_witness :
  exists t t', proof_signing_transcript (ContractDemo.proof 8 2 1) = Ok t /\
    proof_signing_transcript (ContractDemo.proof 8 3 1) = Ok t' /\
    transcript_bytes t <> transcript_bytes t'.
Proof.
  eexists _, _. split; [vm_compute; reflexivity|]. split; [vm_compute; reflexivity|].
  apply (signing_transcript_binds_claim (ContractDemo.proof 8 2 1) (ContractDemo.proof 8 3 1)).
  - decide_now.
  - decide_now.
  - vm_compute. reflexivity.
  - vm_compute. reflexivity.
  - vm_compute. congruence.
Defined.
