(* ===== verification/ApplyWire.v ===== *)
(** * The apply envelope

    Temporal constraints (crates/paraegox-runtime-contracts/src/temporal.rs)
    and the canonical signed apply envelope with its strict decoder
    (crates/paraegox-runtime-contracts/src/wire.rs).  Slices of the frame and
    fixed-size reads panic out of range, as in the source. *)

From Stdlib Require Import Strings.String.
From S2P Require Import Prelude Bytes KernelTime KernelDigest Tlv ApplyContracts.
Open Scope rust_scope.

(** ** Temporal constraints (temporal.rs) *)

Definition APPLY_TEMPORAL_CONSTRAINT_VERSION : N := 1.

Record TemporalConstraintId := MkTemporalConstraintId { constraint_bytes : bytes16 }.
#[export] Instance TemporalConstraintId_eq_dec : EqDecision TemporalConstraintId.
Proof. solve_decision. Defined.

Record ApplyTemporalConstraint := MkApplyTemporalConstraint {
  temporal_version : N;
  constraint_id : TemporalConstraintId;
  target_clock_domain : ClockDomainRef;
  target_clock_generation : ClockGeneration;
  original_budget : BoundedDuration;
  remaining_budget : BoundedDuration;
}.
#[export] Instance ApplyTemporalConstraint_eq_dec : EqDecision ApplyTemporalConstraint.
Proof. solve_decision. Defined.

Inductive TemporalContractError :=
| TemporalUnsupportedVersion
| ZeroOriginalBudget
| RemainingBudgetExceedsOriginal
| RemainingBudgetExtended.
#[export] Instance TemporalContractError_eq_dec : EqDecision TemporalContractError.
Proof. solve_decision. Defined.

Definition temporal_try_from_parts (version : N) (constraint_id : TemporalConstraintId)
    (target_clock_domain : ClockDomainRef) (target_clock_generation : ClockGeneration)
    (original_budget remaining_budget : BoundedDuration)
    : result TemporalContractError ApplyTemporalConstraint :=
  bail TemporalUnsupportedVersion when negb (version =? APPLY_TEMPORAL_CONSTRAINT_VERSION)%N;
  bail ZeroOriginalBudget when (duration_value original_budget =? 0)%N;
  bail RemainingBudgetExceedsOriginal
    when (duration_value original_budget <? duration_value remaining_budget)%N;
  Ok (MkApplyTemporalConstraint version constraint_id target_clock_domain
        target_clock_generation original_budget remaining_budget).

Definition temporal_try_new (constraint_id : TemporalConstraintId)
    (target_clock_domain : ClockDomainRef) (target_clock_generation : ClockGeneration)
    (original_budget remaining_budget : BoundedDuration)
    : result TemporalContractError ApplyTemporalConstraint :=
  temporal_try_from_parts APPLY_TEMPORAL_CONSTRAINT_VERSION constraint_id target_clock_domain
    target_clock_generation original_budget remaining_budget.

Definition try_reduce_remaining (self : ApplyTemporalConstraint) (remaining : BoundedDuration)
    : result TemporalContractError ApplyTemporalConstraint :=
  bail RemainingBudgetExtended
    when (duration_value (remaining_budget self) <? duration_value remaining)%N;
  temporal_try_from_parts (temporal_version self) (constraint_id self)
    (target_clock_domain self) (target_clock_generation self) (original_budget self) remaining.

(** ** Request authentication (wire.rs) *)

Definition APPLY_ENVELOPE_MAGIC : list byte :=
  ascii_bytes "ParaEGOX" ++ [x00] ++ ascii_bytes "runtime-apply-envelope".
Definition APPLY_AUTH_SIGNING_MAGIC : list byte :=
  ascii_bytes "ParaEGOX" ++ [x00] ++ ascii_bytes "canonical-signing-transcript".
Definition APPLY_AUTH_SIGNING_DOMAIN : list byte :=
  ascii_bytes "paraegox.runtime.apply-envelope-auth.signing.v1".
Definition APPLY_ENVELOPE_REQUEST_DIGEST_DOMAIN : list byte :=
  ascii_bytes "paraegox.runtime.apply-envelope.request.sha256.v1".
Definition APPLY_ENVELOPE_FIELD_COUNT : N := 37.
Definition APPLY_AUTH_SIGNING_FIELD_COUNT : N := APPLY_ENVELOPE_FIELD_COUNT - 1.
Definition RUNTIME_APPLY_ENVELOPE_VERSION : N := 1.
Definition APPLY_REQUEST_SIGNING_TRANSCRIPT_VERSION : N := 1.
Definition MAX_RUNTIME_APPLY_ENVELOPE_BYTES : N := 4096.
Definition MAX_APPLY_AUTH_NONCE_BYTES : N := 64.
Definition MAX_APPLY_AUTH_SIGNATURE_BYTES : N := 512.

Record ApplyAuthKeyRef := MkApplyAuthKeyRef { auth_key_bytes : bytes16 }.
#[export] Instance ApplyAuthKeyRef_eq_dec : EqDecision ApplyAuthKeyRef.
Proof. solve_decision. Defined.
Record ApplyAuthAlgorithm := MkApplyAuthAlgorithm { auth_algorithm_value : N }.
#[export] Instance ApplyAuthAlgorithm_eq_dec : EqDecision ApplyAuthAlgorithm.
Proof. solve_decision. Defined.

Inductive ApplyAuthError :=
| AuthInvalidAlgorithm
| AuthInvalidAlgorithmVersion
| AuthEmptyNonce
| AuthNonceTooLong
| AuthEmptySignature
| AuthSignatureTooLong.
#[export] Instance ApplyAuthError_eq_dec : EqDecision ApplyAuthError.
Proof. solve_decision. Defined.

Definition auth_algorithm_try_new (value : N) : result ApplyAuthError ApplyAuthAlgorithm :=
  bail AuthInvalidAlgorithm when (value =? 0)%N;
  Ok (MkApplyAuthAlgorithm value).

Definition validate_auth_nonce (nonce : list byte) : result ApplyAuthError unit :=
  bail AuthEmptyNonce when bool_decide (nonce = []);
  bail AuthNonceTooLong when (MAX_APPLY_AUTH_NONCE_BYTES <? len nonce)%N;
  Ok tt.
Definition validate_auth_signature (signature : list byte) : result ApplyAuthError unit :=
  bail AuthEmptySignature when bool_decide (signature = []);
  bail AuthSignatureTooLong when (MAX_APPLY_AUTH_SIGNATURE_BYTES <? len signature)%N;
  Ok tt.

Record ApplyRequestAuthClaim := MkApplyRequestAuthClaim {
  auth_principal : PrincipalRef;
  auth_key : ApplyAuthKeyRef;
  auth_algorithm : ApplyAuthAlgorithm;
  auth_algorithm_version : N;
  auth_nonce : list byte;
}.
#[export] Instance ApplyRequestAuthClaim_eq_dec : EqDecision ApplyRequestAuthClaim.
Proof. solve_decision. Defined.

Definition auth_claim_try_new (principal : PrincipalRef) (key : ApplyAuthKeyRef)
    (algorithm : ApplyAuthAlgorithm) (algorithm_version : N) (nonce : list byte)
    : result ApplyAuthError ApplyRequestAuthClaim :=
  bail AuthInvalidAlgorithmVersion when (algorithm_version =? 0)%N;
  _ ← validate_auth_nonce nonce;
  Ok (MkApplyRequestAuthClaim principal key algorithm algorithm_version nonce).

Record ApplyRequestAuthentication := MkApplyRequestAuthentication {
  auth_claim : ApplyRequestAuthClaim;
  auth_signature : list byte;
}.
#[export] Instance ApplyRequestAuthentication_eq_dec : EqDecision ApplyRequestAuthentication.
Proof. solve_decision. Defined.

Definition authentication_try_new (claim : ApplyRequestAuthClaim) (signature : list byte)
    : result ApplyAuthError ApplyRequestAuthentication :=
  _ ← validate_auth_signature signature;
  Ok (MkApplyRequestAuthentication claim signature).

Inductive EnvelopeContractError :=
| EnvelopeApply (e : ApplyContractError)
| EnvelopeAuthentication (e : ApplyAuthError)
| EnvelopeDigest (e : DigestBuildError)
| EnvelopeFrameTooLarge
| EnvelopeCanonicalWireMismatch
| EnvelopeRequestDigestMismatch.
#[export] Instance EnvelopeContractError_eq_dec : EqDecision EnvelopeContractError.
Proof. solve_decision. Defined.

(** ** Encoding *)

Record ApplyRequestSigningTranscript := MkApplySigningTranscript { apply_transcript_bytes : list byte }.

Record RuntimeApplyEnvelopeDraft := MkApplyEnvelopeDraft {
  draft_control_commitment : RuntimeApplyControlCommitment;
  draft_temporal : ApplyTemporalConstraint;
  draft_auth_claim : ApplyRequestAuthClaim;
}.
#[export] Instance RuntimeApplyEnvelopeDraft_eq_dec : EqDecision RuntimeApplyEnvelopeDraft.
Proof. solve_decision. Defined.

Record RuntimeApplyEnvelope := MkRuntimeApplyEnvelope {
  env_control_commitment : RuntimeApplyControlCommitment;
  env_temporal : ApplyTemporalConstraint;
  env_authentication : ApplyRequestAuthentication;
  env_canonical_wire : list byte;
  env_request_digest : Digest32;
}.
#[export] Instance RuntimeApplyEnvelope_eq_dec : EqDecision RuntimeApplyEnvelope.
Proof. solve_decision. Defined.

Section encode.
Context (sha256 : list byte -> bytes32).

Definition append_apply_fields (encoded : list byte) (cc : RuntimeApplyControlCommitment)
    (temporal : ApplyTemporalConstraint) (auth : ApplyRequestAuthClaim)
    (signature : option (list byte)) : result EnvelopeContractError (list byte) :=
  let slice := slice cc in
  let header := header slice in
  let provenance := provenance header in
  let control := control cc in
  let writer := writer_context control in
  let proof := context_proof writer in
  let pa := proof_authority proof in
  let pc := proof_claim proof in
  proof_envelope_digest ← map_err EnvelopeDigest (envelope_digest sha256 proof);
  let '(expected_tag, expected_digest) :=
    match expected_active control with
    | ExpectNone => (0%N, zero_digest)
    | ExpectExact digest => (1%N, slice_digest_value digest)
    end in
  let encoded := append_tlv encoded 1 (be_bytes 2 (contract_version header)) in
  let encoded := append_tlv encoded 2 (vec_to_list (host_bytes (target header))) in
  let encoded := append_tlv encoded 3 (vec_to_list (scope_bytes (source_scope provenance))) in
  let encoded := append_tlv encoded 4 (vec_to_list (plan_bytes (source_plan provenance))) in
  let encoded := append_tlv encoded 5 (be_bytes 8 (revision_value (source_revision provenance))) in
  let encoded := append_tlv encoded 6
    (vec_to_list (digest_bytes (plan_digest_value (source_plan_digest provenance)))) in
  let encoded := append_tlv encoded 7
    (vec_to_list (digest_bytes (assignment_digest_value (assignment_digest header)))) in
  let encoded := append_tlv encoded 8
    (vec_to_list (digest_bytes (slice_digest_value (target_slice_digest slice)))) in
  let encoded := append_tlv encoded 9 (vec_to_list (writer_bytes (context_writer writer))) in
  let encoded := append_tlv encoded 10 (be_bytes 8 (epoch_value (context_epoch writer))) in
  let encoded := append_tlv encoded 11 (vec_to_list (authority_bytes (authority pa))) in
  let encoded := append_tlv encoded 12 (vec_to_list (key_bytes (key pa))) in
  let encoded := append_tlv encoded 13 (be_bytes 2 (algorithm_value (algorithm pa))) in
  let encoded := append_tlv encoded 14 (be_bytes 2 (algorithm_version pa)) in
  let encoded := append_tlv encoded 15 (vec_to_list (scope_bytes (claim_source_scope pc))) in
  let encoded := append_tlv encoded 16 (vec_to_list (writer_bytes (claim_writer pc))) in
  let encoded := append_tlv encoded 17 (be_bytes 8 (epoch_value (claim_epoch pc))) in
  let encoded := append_tlv encoded 18
    (be_bytes 8 (epoch_value (claim_supersedes_through_epoch pc))) in
  let encoded := append_tlv encoded 19 (proof_nonce proof) in
  let encoded := append_tlv encoded 20 (proof_signature proof) in
  let encoded := append_tlv encoded 21 (vec_to_list (digest_bytes proof_envelope_digest)) in
  let encoded := append_tlv encoded 22 (be_bytes 2 expected_tag) in
  let encoded := append_tlv encoded 23 (vec_to_list (digest_bytes expected_digest)) in
  let encoded := append_tlv encoded 24 (vec_to_list (operation_bytes (operation_id control))) in
  let encoded := append_tlv encoded 25 (vec_to_list (digest_bytes (commitment_digest cc))) in
  let encoded := append_tlv encoded 26 (be_bytes 2 (temporal_version temporal)) in
  let encoded := append_tlv encoded 27 (vec_to_list (constraint_bytes (constraint_id temporal))) in
  let encoded := append_tlv encoded 28
    (vec_to_list (clock_domain_bytes (target_clock_domain temporal))) in
  let encoded := append_tlv encoded 29
    (be_bytes 8 (generation_value (target_clock_generation temporal))) in
  let encoded := append_tlv encoded 30 (be_bytes 8 (duration_value (original_budget temporal))) in
  let encoded := append_tlv encoded 31 (be_bytes 8 (duration_value (remaining_budget temporal))) in
  let encoded := append_tlv encoded 32 (vec_to_list (principal_bytes (auth_principal auth))) in
  let encoded := append_tlv encoded 33 (vec_to_list (auth_key_bytes (auth_key auth))) in
  let encoded := append_tlv encoded 34 (be_bytes 2 (auth_algorithm_value (auth_algorithm auth))) in
  let encoded := append_tlv encoded 35 (be_bytes 2 (auth_algorithm_version auth)) in
  let encoded := append_tlv encoded 36 (auth_nonce auth) in
  Ok (match signature with
      | Some signature => append_tlv encoded 37 signature
      | None => encoded
      end).

Definition build_apply_signing_transcript (cc : RuntimeApplyControlCommitment)
    (temporal : ApplyTemporalConstraint) (auth : ApplyRequestAuthClaim)
    : result EnvelopeContractError ApplyRequestSigningTranscript :=
  let encoded :=
    APPLY_AUTH_SIGNING_MAGIC
    ++ be_bytes 2 APPLY_REQUEST_SIGNING_TRANSCRIPT_VERSION
    ++ be_bytes 2 (len APPLY_AUTH_SIGNING_DOMAIN mod 2 ^ 16)
    ++ APPLY_AUTH_SIGNING_DOMAIN
    ++ be_bytes 2 APPLY_AUTH_SIGNING_FIELD_COUNT in
  encoded ← append_apply_fields encoded cc temporal auth None;
  bail EnvelopeFrameTooLarge when (MAX_RUNTIME_APPLY_ENVELOPE_BYTES <? len encoded)%N;
  Ok (MkApplySigningTranscript encoded).

Definition build_apply_envelope_wire (cc : RuntimeApplyControlCommitment)
    (temporal : ApplyTemporalConstraint) (authentication : ApplyRequestAuthentication)
    : result EnvelopeContractError (list byte) :=
  let encoded :=
    APPLY_ENVELOPE_MAGIC
    ++ be_bytes 2 RUNTIME_APPLY_ENVELOPE_VERSION
    ++ be_bytes 2 APPLY_ENVELOPE_FIELD_COUNT in
  append_apply_fields encoded cc temporal (auth_claim authentication)
    (Some (auth_signature authentication)).

(** The digest over the complete signed wire. *)
Definition envelope_request_digest (canonical_wire : list byte)
    : result EnvelopeContractError Digest32 :=
  map_err EnvelopeDigest (
    builder ← digest_try_new APPLY_ENVELOPE_REQUEST_DIGEST_DOMAIN;
    builder ← field_bytes builder canonical_wire;
    Ok (finish sha256 builder)).

Definition envelope_try_new (cc : RuntimeApplyControlCommitment)
    (temporal : ApplyTemporalConstraint) (authentication : ApplyRequestAuthentication)
    : result EnvelopeContractError RuntimeApplyEnvelope :=
  _ ← map_err EnvelopeApply (control_commitment_validate sha256 cc);
  canonical_wire ← build_apply_envelope_wire cc temporal authentication;
  bail EnvelopeFrameTooLarge when (MAX_RUNTIME_APPLY_ENVELOPE_BYTES <? len canonical_wire)%N;
  request_digest ← envelope_request_digest canonical_wire;
  Ok (MkRuntimeApplyEnvelope cc temporal authentication canonical_wire request_digest).

Definition envelope_validate (self : RuntimeApplyEnvelope) : result EnvelopeContractError unit :=
  _ ← map_err EnvelopeApply (control_commitment_validate sha256 (env_control_commitment self));
  canonical_wire ← build_apply_envelope_wire (env_control_commitment self) (env_temporal self)
    (env_authentication self);
  bail EnvelopeCanonicalWireMismatch when bool_decide (canonical_wire <> env_canonical_wire self);
  digest ← envelope_request_digest canonical_wire;
  bail EnvelopeRequestDigestMismatch when bool_decide (digest <> env_request_digest self);
  Ok tt.

Definition envelope_signing_transcript (self : RuntimeApplyEnvelope)
    : result EnvelopeContractError ApplyRequestSigningTranscript :=
  build_apply_signing_transcript (env_control_commitment self) (env_temporal self)
    (auth_claim (env_authentication self)).

Definition draft_try_new (cc : RuntimeApplyControlCommitment) (temporal : ApplyTemporalConstraint)
    (auth : ApplyRequestAuthClaim) : result EnvelopeContractError RuntimeApplyEnvelopeDraft :=
  _ ← map_err EnvelopeApply (control_commitment_validate sha256 cc);
  Ok (MkApplyEnvelopeDraft cc temporal auth).

Definition draft_signing_transcript (self : RuntimeApplyEnvelopeDraft)
    : result EnvelopeContractError ApplyRequestSigningTranscript :=
  build_apply_signing_transcript (draft_control_commitment self) (draft_temporal self)
    (draft_auth_claim self).

Definition draft_finalize (self : RuntimeApplyEnvelopeDraft) (signature : list byte)
    : result EnvelopeContractError RuntimeApplyEnvelope :=
  authentication ← map_err EnvelopeAuthentication
    (authentication_try_new (draft_auth_claim self) signature);
  envelope_try_new (draft_control_commitment self) (draft_temporal self) authentication.
End encode.

(** ** Decoding *)

Inductive WireErrorCode :=
| FrameTooLarge
| Truncated
| InvalidMagic
| UnsupportedVersion
| UnknownField
| MissingField
| DuplicateField
| OutOfOrderField
| InvalidFieldLength
| InvalidFieldValue
| DerivedDigestMismatch
| NonCanonicalFrame
| TrailingBytes.
#[export] Instance WireErrorCode_eq_dec : EqDecision WireErrorCode.
Proof. solve_decision. Defined.

(** [code as u16]. *)
Definition wire_error_code_value (c : WireErrorCode) : N :=
  match c with
  | FrameTooLarge => 1 | Truncated => 2 | InvalidMagic => 3 | UnsupportedVersion => 4
  | UnknownField => 5 | MissingField => 6 | DuplicateField => 7 | OutOfOrderField => 8
  | InvalidFieldLength => 9 | InvalidFieldValue => 10 | DerivedDigestMismatch => 11
  | NonCanonicalFrame => 12 | TrailingBytes => 13
  end.

Record WireError := MkWireError { wire_code : WireErrorCode; wire_field_tag : option N }.
#[export] Instance WireError_eq_dec : EqDecision WireError.
Proof. solve_decision. Defined.
Definition wire_error (code : WireErrorCode) : WireError := MkWireError code None.
Definition wire_error_at (code : WireErrorCode) (tag : N) : WireError := MkWireError code (Some tag).

Definition valid_field_length (tag length : N) : bool :=
  if bool_decide (tag ∈ [1; 13; 14; 22; 26; 34; 35]%N) then (length =? 2)%N
  else if bool_decide (tag ∈ [5; 10; 17; 18; 29; 30; 31]%N) then (length =? 8)%N
  else if bool_decide (tag ∈ [2; 3; 4; 9; 11; 12; 15; 16; 24; 27; 28; 32; 33]%N)
  then (length =? 16)%N
  else if bool_decide (tag ∈ [6; 7; 8; 21; 23; 25]%N) then (length =? 32)%N
  else if (tag =? 19)%N then ((1 <=? length) && (length <=? MAX_TENURE_NONCE_BYTES))%N
  else if (tag =? 20)%N then ((1 <=? length) && (length <=? MAX_TENURE_SIGNATURE_BYTES))%N
  else if (tag =? 36)%N then ((1 <=? length) && (length <=? MAX_APPLY_AUTH_NONCE_BYTES))%N
  else if (tag =? 37)%N then ((1 <=? length) && (length <=? MAX_APPLY_AUTH_SIGNATURE_BYTES))%N
  else false.

#[export] Instance WireError_tlv : TlvErrors WireError := {|
  tlv_too_large := wire_error FrameTooLarge;
  tlv_truncated := wire_error Truncated;
  tlv_invalid_magic := wire_error InvalidMagic;
  tlv_unsupported_version := wire_error UnsupportedVersion;
  tlv_trailing_bytes := wire_error TrailingBytes;
  tlv_truncated_at := wire_error_at Truncated;
  tlv_unknown_field := wire_error_at UnknownField;
  tlv_missing_field := wire_error_at MissingField;
  tlv_duplicate_field := wire_error_at DuplicateField;
  tlv_out_of_order := wire_error_at OutOfOrderField;
  tlv_invalid_length := wire_error_at InvalidFieldLength;
|}.
Definition parse_apply_frame : list byte -> result WireError (list (list byte)) :=
  parse_message APPLY_ENVELOPE_MAGIC RUNTIME_APPLY_ENVELOPE_VERSION APPLY_ENVELOPE_FIELD_COUNT
    MAX_RUNTIME_APPLY_ENVELOPE_BYTES valid_field_length.

Definition field_array (n : nat) (values : list (list byte)) (tag : N)
    : result WireError (vec byte n) :=
  value ← fields_get values tag; array_of n value.
Definition wire_field_u16 (values : list (list byte)) (tag : N) : result WireError N :=
  value ← fields_get values tag; read_u16 value.
Definition wire_field_u64 (values : list (list byte)) (tag : N) : result WireError N :=
  value ← field_array 8 values tag; Ok (of_be_bytes (vec_to_list value)).

Definition tenure_wire_error (error : TenureProofError) : WireError :=
  wire_error_at InvalidFieldValue
    match error with
    | InvalidAlgorithm => 13
    | InvalidAlgorithmVersion => 14
    | InvalidEpoch => 17
    | InvalidSupersedesEpoch => 18
    | EmptyNonce | NonceTooLong => 19
    | EmptySignature | SignatureTooLong => 20
    end.
Definition apply_wire_error (error : ApplyContractError) : WireError :=
  wire_error_at InvalidFieldValue
    match error with
    | ContractProvenance _ => 8
    | WriterRefMismatch => 9
    | WriterEpochMismatch => 10
    | WriterScopeMismatch => 15
    | ContractDigest _ | ControlCommitmentDigestMismatch => 25
    end.
Definition auth_wire_error (error : ApplyAuthError) : WireError :=
  wire_error_at InvalidFieldValue
    match error with
    | AuthInvalidAlgorithm => 34
    | AuthInvalidAlgorithmVersion => 35
    | AuthEmptyNonce | AuthNonceTooLong => 36
    | AuthEmptySignature | AuthSignatureTooLong => 37
    end.
Definition envelope_wire_error (error : EnvelopeContractError) : WireError :=
  match error with
  | EnvelopeApply error => apply_wire_error error
  | EnvelopeAuthentication error => auth_wire_error error
  | EnvelopeDigest _ => wire_error_at InvalidFieldValue 25
  | EnvelopeFrameTooLarge => wire_error FrameTooLarge
  | EnvelopeCanonicalWireMismatch | EnvelopeRequestDigestMismatch => wire_error NonCanonicalFrame
  end.
Definition temporal_wire_error (error : TemporalContractError) : WireError :=
  match error with
  | TemporalUnsupportedVersion => wire_error_at UnsupportedVersion 26
  | ZeroOriginalBudget => wire_error_at InvalidFieldValue 30
  | RemainingBudgetExceedsOriginal | RemainingBudgetExtended => wire_error_at InvalidFieldValue 31
  end.

Section decode.
Context (sha256 : list byte -> bytes32).

(** The slice commitment of tags 1 to 8. *)
Definition decode_slice (fields : list (list byte)) : result WireError RuntimeSliceCommitment :=
  version ← wire_field_u16 fields 1;
  bail (wire_error_at UnsupportedVersion 1) when negb (version =? RUNTIME_SLICE_HEADER_VERSION)%N;
  scope ← field_array 16 fields 3;
  plan ← field_array 16 fields 4;
  revision ← wire_field_u64 fields 5;
  plan_digest ← field_array 32 fields 6;
  host ← field_array 16 fields 2;
  assignments ← field_array 32 fields 7;
  let header :=
    slice_header_new (MkRuntimeHostId host)
      (MkPlanProvenance (MkSourceScopeRef scope) (MkSourcePlanRef plan)
         (MkSourcePlanRevision revision) (MkSourcePlanDigest (MkDigest32 plan_digest)))
      (MkTargetAssignmentDigest (MkDigest32 assignments)) in
  slice ← map_err (fun _ => wire_error_at InvalidFieldValue 8)
    (slice_commitment_try_new sha256 header);
  carried ← fields_get fields 8;
  bail (wire_error_at DerivedDigestMismatch 8) when bool_decide
    (vec_to_list (digest_bytes (slice_digest_value (target_slice_digest slice))) <> carried);
  Ok slice.

(** The writer context of tags 9 to 21. *)
Definition decode_writer (fields : list (list byte)) : result WireError PlanWriterContext :=
  algorithm ← wire_field_u16 fields 13;
  tenure_algorithm ← map_err tenure_wire_error (algorithm_try_new algorithm);
  authority ← field_array 16 fields 11;
  key ← field_array 16 fields 12;
  algorithm_version ← wire_field_u16 fields 14;
  tenure_authority ← map_err tenure_wire_error
    (authority_try_new (MkTenureAuthorityRef authority) (MkTenureKeyRef key) tenure_algorithm
       algorithm_version);
  scope ← field_array 16 fields 15;
  claimed_writer ← field_array 16 fields 16;
  epoch ← wire_field_u64 fields 17;
  supersedes ← wire_field_u64 fields 18;
  tenure_claim ← map_err tenure_wire_error
    (claim_try_new (MkSourceScopeRef scope) (MkPlanWriterRef claimed_writer)
       (MkPlanWriterEpoch epoch) (MkPlanWriterEpoch supersedes));
  nonce ← fields_get fields 19;
  signature ← fields_get fields 20;
  proof ← map_err tenure_wire_error
    (tenure_proof_try_new tenure_authority tenure_claim nonce signature);
  proof_envelope_digest ← map_err (fun _ => wire_error_at InvalidFieldValue 21)
    (envelope_digest sha256 proof);
  carried ← fields_get fields 21;
  bail (wire_error_at DerivedDigestMismatch 21)
    when bool_decide (vec_to_list (digest_bytes proof_envelope_digest) <> carried);
  writer ← field_array 16 fields 9;
  writer_epoch ← wire_field_u64 fields 10;
  map_err apply_wire_error
    (writer_context_try_new (MkPlanWriterRef writer) (MkPlanWriterEpoch writer_epoch) proof).

(** The CAS expectation of tags 22 and 23. *)
Definition decode_expected (fields : list (list byte)) : result WireError ExpectedActive :=
  expected_digest ← field_array 32 fields 23;
  tag ← wire_field_u16 fields 22;
  if (tag =? 0)%N && bool_decide (MkDigest32 expected_digest = zero_digest) then Ok ExpectNone
  else if (tag =? 1)%N then Ok (ExpectExact (MkTargetSliceDigest (MkDigest32 expected_digest)))
  else Err (wire_error_at InvalidFieldValue 22).

(** The temporal constraint of tags 26 to 31. *)
Definition decode_temporal (fields : list (list byte)) : result WireError ApplyTemporalConstraint :=
  generation ← wire_field_u64 fields 29;
  clock_generation ← map_err (fun _ => wire_error_at InvalidFieldValue 29)
    (clock_generation_try_new generation);
  version ← wire_field_u16 fields 26;
  constraint ← field_array 16 fields 27;
  domain ← field_array 16 fields 28;
  original ← wire_field_u64 fields 30;
  remaining ← wire_field_u64 fields 31;
  map_err temporal_wire_error
    (temporal_try_from_parts version (MkTemporalConstraintId constraint) (MkClockDomainRef domain)
       clock_generation (from_nanos original) (from_nanos remaining)).

(** The authentication claim of tags 32 to 36. *)
Definition decode_auth_claim (fields : list (list byte)) : result WireError ApplyRequestAuthClaim :=
  algorithm ← wire_field_u16 fields 34;
  auth_algorithm ← map_err auth_wire_error (auth_algorithm_try_new algorithm);
  principal ← field_array 16 fields 32;
  key ← field_array 16 fields 33;
  algorithm_version ← wire_field_u16 fields 35;
  nonce ← fields_get fields 36;
  map_err auth_wire_error
    (auth_claim_try_new (MkPrincipalRef principal) (MkApplyAuthKeyRef key) auth_algorithm
       algorithm_version nonce).

Definition decode_apply_envelope (frame : list byte) : result WireError RuntimeApplyEnvelope :=
  fields ← parse_apply_frame frame;
  slice ← decode_slice fields;
  writer_context ← decode_writer fields;
  expected_active ← decode_expected fields;
  operation ← field_array 16 fields 24;
  let control := MkRuntimeApplyControl writer_context expected_active (MkApplyOperationId operation) in
  control_commitment ← map_err apply_wire_error (control_commitment_try_new sha256 slice control);
  carried ← fields_get fields 25;
  bail (wire_error_at DerivedDigestMismatch 25) when bool_decide
    (vec_to_list (digest_bytes (commitment_digest control_commitment)) <> carried);
  temporal ← decode_temporal fields;
  auth_claim ← decode_auth_claim fields;
  draft ← map_err envelope_wire_error (draft_try_new sha256 control_commitment temporal auth_claim);
  signature ← fields_get fields 37;
  envelope ← map_err envelope_wire_error (draft_finalize sha256 draft signature);
  bail (wire_error NonCanonicalFrame) when bool_decide (env_canonical_wire envelope <> frame);
  Ok envelope.
End decode.

(** ** Field sequences *)

#[local] Abbreviation fields_valid := (tlv_valid valid_field_length).

(** The field values of an envelope, tags 1 to 36. *)
Definition apply_fields (cc : RuntimeApplyControlCommitment) (t : ApplyTemporalConstraint)
    (a : ApplyRequestAuthClaim) (proof_digest : Digest32) : list (list byte) :=
  let w := writer_context (control cc) in
  slice_fields (header (slice cc))
  ++ [vec_to_list (digest_bytes (slice_digest_value (target_slice_digest (slice cc))));
      vec_to_list (writer_bytes (context_writer w)); be_bytes 8 (epoch_value (context_epoch w))]
  ++ envelope_fields (context_proof w)
  ++ [vec_to_list (digest_bytes proof_digest);
      be_bytes 2 (fst (expected_fields (expected_active (control cc))));
      vec_to_list (digest_bytes (snd (expected_fields (expected_active (control cc)))));
      vec_to_list (operation_bytes (operation_id (control cc)));
      vec_to_list (digest_bytes (commitment_digest cc));
      be_bytes 2 (temporal_version t); vec_to_list (constraint_bytes (constraint_id t));
      vec_to_list (clock_domain_bytes (target_clock_domain t));
      be_bytes 8 (generation_value (target_clock_generation t));
      be_bytes 8 (duration_value (original_budget t));
      be_bytes 8 (duration_value (remaining_budget t));
      vec_to_list (principal_bytes (auth_principal a)); vec_to_list (auth_key_bytes (auth_key a));
      be_bytes 2 (auth_algorithm_value (auth_algorithm a)); be_bytes 2 (auth_algorithm_version a);
      auth_nonce a].

Section codec.
Context (sha256 : list byte -> bytes32).

Lemma append_apply_fields_eq encoded cc t a signature d :
  envelope_digest sha256 (context_proof (writer_context (control cc))) = Ok d ->
  append_apply_fields sha256 encoded cc t a signature =
  Ok (encoded ++ encode_tlvs 1 (apply_fields cc t a d ++ match signature with
                                                         | Some s => [s] | None => [] end)).
Proof.
  intros Hd. unfold append_apply_fields. rewrite Hd. cbn [map_err mbind result_mbind].
  fold (expected_fields (expected_active (control cc))).
  rewrite (surjective_pairing (expected_fields (expected_active (control cc)))).
  cbv zeta beta iota. f_equal. unfold apply_fields, slice_fields, envelope_fields.
  destruct signature as [s|]; cbv zeta; cbn [app encode_tlvs];
    rewrite !append_tlv_app, <-!app_assoc, app_nil_r; reflexivity.
Qed.
End codec.

(** ** Parsing *)

Lemma valid_field_length_bound tag n : valid_field_length tag n = true -> (n <= 512)%N.
Proof.
  unfold valid_field_length, MAX_TENURE_NONCE_BYTES, MAX_TENURE_SIGNATURE_BYTES,
    MAX_APPLY_AUTH_NONCE_BYTES, MAX_APPLY_AUTH_SIGNATURE_BYTES.
  repeat case_bool_decide; repeat case_match; rewrite ?andb_true_iff, ?N.eqb_eq, ?N.leb_le;
    done || lia.
Qed.

(** The frame of a field sequence. *)
Definition envelope_frame (fields : list (list byte)) : list byte :=
  message APPLY_ENVELOPE_MAGIC RUNTIME_APPLY_ENVELOPE_VERSION APPLY_ENVELOPE_FIELD_COUNT fields.
(** What the parser guarantees of the values it returns. *)
#[local] Abbreviation frame_fields := (parsed APPLY_ENVELOPE_FIELD_COUNT valid_field_length).

Lemma parse_apply_frame_encode fields :
  length fields = 37 -> fields_valid 1 fields = true ->
  (len (envelope_frame fields) <= MAX_RUNTIME_APPLY_ENVELOPE_BYTES)%N ->
  parse_apply_frame (envelope_frame fields) = Ok fields.
Proof.
  intros Hn Hv Hl. apply parse_message_encode; [|vm_compute; discriminate..| |done|done].
  - intros t n Hb%valid_field_length_bound. unfold u32_max. lia.
  - unfold len. by rewrite Hn.
Qed.
Lemma parse_apply_frame_safe frame :
  match parse_apply_frame frame with
  | Ok fields => frame_fields fields
  | Err _ => True
  | Panic => False
  end.
Proof. apply parse_message_safe. Qed.

(** ** Access to the parsed values *)

(** Reads of fixed-width fields of a parsed frame; the width of a tag is a
    computation. *)
Lemma field_array_total n fields tag :
  frame_fields fields -> (1 <= tag <= 37)%N ->
  (forall x, valid_field_length tag x = (x =? N.of_nat n)%N) ->
  exists v, field_array n fields tag = Ok v.
Proof.
  intros Hf Ht Hn. destruct (fields_get_total (E:=WireError) _ _ fields tag Hf Ht) as (v & Hv & Hl).
  rewrite Hn in Hl. apply N.eqb_eq in Hl. unfold field_array. rewrite Hv. by apply array_of_total.
Qed.
Lemma wire_field_u16_total fields tag :
  frame_fields fields -> (1 <= tag <= 37)%N ->
  (forall x, valid_field_length tag x = (x =? 2)%N) ->
  exists v, wire_field_u16 fields tag = Ok v.
Proof.
  intros Hf Ht Hn. destruct (fields_get_total (E:=WireError) _ _ fields tag Hf Ht) as (v & Hv & Hl).
  rewrite Hn in Hl. apply N.eqb_eq in Hl. unfold wire_field_u16. rewrite Hv.
  cbn [mbind result_mbind]. destruct (read_u16_total (E:=WireError) v) as (x & -> & _); [lia|eauto].
Qed.
Lemma wire_field_u64_total fields tag :
  frame_fields fields -> (1 <= tag <= 37)%N ->
  (forall x, valid_field_length tag x = (x =? 8)%N) ->
  exists v, wire_field_u64 fields tag = Ok v.
Proof.
  intros Hf Ht Hn. unfold wire_field_u64. destruct (field_array_total 8 fields tag) as [v ->]; eauto.
Qed.

(** ** Values the constructors accept *)

Definition proof_wf (p : WriterTenureProof) : Prop :=
  (1 <= algorithm_value (algorithm (proof_authority p)) <= u16_max /\
   1 <= algorithm_version (proof_authority p) <= u16_max /\
   1 <= epoch_value (claim_epoch (proof_claim p)) <= u64_max /\
   epoch_value (claim_supersedes_through_epoch (proof_claim p)) <
     epoch_value (claim_epoch (proof_claim p)) /\
   1 <= len (proof_nonce p) <= MAX_TENURE_NONCE_BYTES /\
   1 <= len (proof_signature p) <= MAX_TENURE_SIGNATURE_BYTES)%N.
Definition writer_wf (w : PlanWriterContext) : Prop :=
  claim_writer (proof_claim (context_proof w)) = context_writer w /\
  claim_epoch (proof_claim (context_proof w)) = context_epoch w /\
  proof_wf (context_proof w).
Definition temporal_wf (t : ApplyTemporalConstraint) : Prop :=
  (temporal_version t = APPLY_TEMPORAL_CONSTRAINT_VERSION /\
   1 <= generation_value (target_clock_generation t) <= u64_max /\
   1 <= duration_value (original_budget t) <= u64_max /\
   duration_value (remaining_budget t) <= duration_value (original_budget t))%N.
Definition auth_claim_wf (a : ApplyRequestAuthClaim) : Prop :=
  (1 <= auth_algorithm_value (auth_algorithm a) <= u16_max /\
   1 <= auth_algorithm_version a <= u16_max /\
   1 <= len (auth_nonce a) <= MAX_APPLY_AUTH_NONCE_BYTES)%N.
Definition commitment_wf (cc : RuntimeApplyControlCommitment) : Prop :=
  contract_version (header (slice cc)) = RUNTIME_SLICE_HEADER_VERSION /\
  (revision_value (source_revision (provenance (header (slice cc)))) <= u64_max)%N /\
  writer_wf (writer_context (control cc)).
(** The values the public constructors can build an envelope from, at their
    machine widths. *)
Definition envelope_wf (e : RuntimeApplyEnvelope) : Prop :=
  commitment_wf (env_control_commitment e) /\ temporal_wf (env_temporal e) /\
  auth_claim_wf (auth_claim (env_authentication e)) /\
  (1 <= len (auth_signature (env_authentication e)) <= MAX_APPLY_AUTH_SIGNATURE_BYTES)%N.

#[export] Instance proof_wf_dec p : Decision (proof_wf p).
Proof. unfold proof_wf. apply _. Defined.
#[export] Instance writer_wf_dec w : Decision (writer_wf w).
Proof. unfold writer_wf. apply _. Defined.
#[export] Instance temporal_wf_dec t : Decision (temporal_wf t).
Proof. unfold temporal_wf. apply _. Defined.
#[export] Instance auth_claim_wf_dec a : Decision (auth_claim_wf a).
Proof. unfold auth_claim_wf. apply _. Defined.
#[export] Instance commitment_wf_dec cc : Decision (commitment_wf cc).
Proof. unfold commitment_wf. apply _. Defined.
#[export] Instance envelope_wf_dec e : Decision (envelope_wf e).
Proof. unfold envelope_wf. apply _. Defined.
#[global] Typeclasses Opaque proof_wf writer_wf temporal_wf auth_claim_wf commitment_wf envelope_wf.

Lemma algorithm_try_new_Ok v a :
  algorithm_try_new v = Ok a <-> a = MkTenureProofAlgorithm v /\ (1 <= v)%N.
Proof. unfold algorithm_try_new. solve_ctor. Qed.
Lemma authority_try_new_Ok r k g v a :
  authority_try_new r k g v = Ok a <-> a = MkTenureProofAuthority r k g v /\ (1 <= v)%N.
Proof. unfold authority_try_new. solve_ctor. Qed.
Lemma claim_try_new_Ok s w e u c :
  claim_try_new s w e u = Ok c <->
  c = MkWriterTenureClaim s w e u /\ (1 <= epoch_value e /\ epoch_value u < epoch_value e)%N.
Proof. unfold claim_try_new. solve_ctor. Qed.
Lemma tenure_proof_try_new_Ok a c n s p :
  tenure_proof_try_new a c n s = Ok p <->
  p = MkWriterTenureProof a c n s /\ (1 <= len n <= MAX_TENURE_NONCE_BYTES)%N /\
  (1 <= len s <= MAX_TENURE_SIGNATURE_BYTES)%N.
Proof.
  unfold tenure_proof_try_new. rewrite bind_Ok. setoid_rewrite validate_tenure_nonce_Ok.
  split.
  - intros (u & Hn & H). rust_inv. rewrite nil_len in *. split_and!; done || lia.
  - intros (-> & Hn & Hs). exists tt. split; [done|].
    rewrite bool_decide_eq_false_2 by (rewrite nil_len; lia). cbn [fail_if mbind result_mbind].
    by rewrite (proj2 (N.ltb_ge _ _)) by lia.
Qed.
Lemma writer_context_try_new_Ok w e p c :
  writer_context_try_new w e p = Ok c <->
  c = MkPlanWriterContext w e p /\ claim_writer (proof_claim p) = w /\ claim_epoch (proof_claim p) = e.
Proof.
  unfold writer_context_try_new. repeat case_bool_decide; cbn [fail_if mbind result_mbind]; naive_solver.
Qed.
Lemma temporal_try_from_parts_Ok v i d g o r t :
  temporal_try_from_parts v i d g o r = Ok t <->
  t = MkApplyTemporalConstraint v i d g o r /\
  (v = APPLY_TEMPORAL_CONSTRAINT_VERSION /\ 1 <= duration_value o /\
   duration_value r <= duration_value o)%N.
Proof. unfold temporal_try_from_parts. solve_ctor. Qed.
Lemma auth_algorithm_try_new_Ok v a :
  auth_algorithm_try_new v = Ok a <-> a = MkApplyAuthAlgorithm v /\ (1 <= v)%N.
Proof. unfold auth_algorithm_try_new. solve_ctor. Qed.
Lemma auth_claim_try_new_Ok p k g v n c :
  auth_claim_try_new p k g v n = Ok c <->
  c = MkApplyRequestAuthClaim p k g v n /\ (1 <= v)%N /\
  (1 <= len n <= MAX_APPLY_AUTH_NONCE_BYTES)%N.
Proof.
  unfold auth_claim_try_new, validate_auth_nonce. rewrite (bool_decide_ext _ _ (nil_len n)).
  solve_ctor.
Qed.
Lemma authentication_try_new_Ok c s a :
  authentication_try_new c s = Ok a <->
  a = MkApplyRequestAuthentication c s /\ (1 <= len s <= MAX_APPLY_AUTH_SIGNATURE_BYTES)%N.
Proof.
  unfold authentication_try_new, validate_auth_signature. rewrite (bool_decide_ext _ _ (nil_len s)).
  solve_ctor.
Qed.
Lemma clock_generation_try_new_Ok v g :
  clock_generation_try_new v = Ok g <-> g = MkClockGeneration v /\ (1 <= v)%N.
Proof.
  unfold clock_generation_try_new. destruct (N.eqb_spec v 0) as [->|]; split;
    [done|lia|intros [= <-]; split; [done|lia]|by intros [-> _]].
Qed.

(** ** Decoded values are well formed *)

Lemma wire_field_u16_bound fields tag v : wire_field_u16 fields tag = Ok v -> (v <= u16_max)%N.
Proof.
  unfold wire_field_u16. intros (l & _ & H)%bind_Ok.
  destruct l as [|a [|b l]]; [discriminate H..|]. injection H as <-.
  pose proof (of_be_bytes_bound [a; b]) as Hb. simpl List.length in Hb. unfold u16_max.
  simpl N.of_nat in Hb. lia.
Qed.
Lemma wire_field_u64_bound fields tag v : wire_field_u64 fields tag = Ok v -> (v <= u64_max)%N.
Proof.
  unfold wire_field_u64. intros (l & _ & [= <-])%bind_Ok.
  pose proof (of_be_bytes_bound (vec_to_list l)) as Hb. rewrite length_vec_to_list in Hb.
  unfold u64_max. simpl N.of_nat in Hb. lia.
Qed.
Ltac field_bounds :=
  repeat match goal with
  | H : wire_field_u16 _ _ = Ok _ |- _ => apply wire_field_u16_bound in H
  | H : wire_field_u64 _ _ = Ok _ |- _ => apply wire_field_u64_bound in H
  end.

Section decoded.
Context (sha256 : list byte -> bytes32).

Lemma decode_slice_wf fields s :
  decode_slice sha256 fields = Ok s ->
  contract_version (header s) = RUNTIME_SLICE_HEADER_VERSION /\
  (revision_value (source_revision (provenance (header s))) <= u64_max)%N.
Proof.
  unfold decode_slice. intros H. rust_inv. field_bounds.
  match goal with H : slice_commitment_try_new _ _ = Ok _ |- _ =>
    apply slice_commitment_try_new_Ok in H as [<- _] end. done.
Qed.
Lemma decode_writer_wf fields w : decode_writer sha256 fields = Ok w -> writer_wf w.
Proof.
  unfold decode_writer. intros H. rust_inv. field_bounds.
  repeat match goal with
  | H : algorithm_try_new _ = Ok _ |- _ => apply algorithm_try_new_Ok in H as [-> ?]
  | H : authority_try_new _ _ _ _ = Ok _ |- _ => apply authority_try_new_Ok in H as [-> ?]
  | H : claim_try_new _ _ _ _ = Ok _ |- _ => apply claim_try_new_Ok in H as (-> & ? & ?)
  | H : tenure_proof_try_new _ _ _ _ = Ok _ |- _ => apply tenure_proof_try_new_Ok in H as (-> & ? & ?)
  | H : writer_context_try_new _ _ _ = Ok _ |- _ => apply writer_context_try_new_Ok in H as (-> & ? & ?)
  end. done.
Qed.
Lemma decode_temporal_wf fields t : decode_temporal fields = Ok t -> temporal_wf t.
Proof.
  unfold decode_temporal. intros H. rust_inv. field_bounds.
  repeat match goal with
  | H : clock_generation_try_new _ = Ok _ |- _ => apply clock_generation_try_new_Ok in H as [-> ?]
  | H : temporal_try_from_parts _ _ _ _ _ _ = Ok _ |- _ =>
      apply temporal_try_from_parts_Ok in H as (-> & ? & ? & ?)
  end. done.
Qed.
Lemma decode_auth_claim_wf fields a : decode_auth_claim fields = Ok a -> auth_claim_wf a.
Proof.
  unfold decode_auth_claim. intros H. rust_inv. field_bounds.
  repeat match goal with
  | H : auth_algorithm_try_new _ = Ok _ |- _ => apply auth_algorithm_try_new_Ok in H as [-> ?]
  | H : auth_claim_try_new _ _ _ _ _ = Ok _ |- _ => apply auth_claim_try_new_Ok in H as (-> & ? & ?)
  end. done.
Qed.

(** [finalize] validates the commitment and encodes. *)
Lemma envelope_try_new_Ok cc t a e :
  envelope_try_new sha256 cc t a = Ok e <->
  envelope_validate sha256 e = Ok tt /\
  (len (env_canonical_wire e) <= MAX_RUNTIME_APPLY_ENVELOPE_BYTES)%N /\
  cc = env_control_commitment e /\ t = env_temporal e /\ a = env_authentication e.
Proof.
  unfold envelope_try_new, envelope_validate. destruct e as [cc' t' a' w d].
  cbn [env_control_commitment env_temporal env_authentication env_canonical_wire env_request_digest].
  split.
  - intros H. rust_inv. split; [|done]. by run_known.
  - intros (H & Hl & -> & -> & ->). rust_inv.
    repeat match goal with H : ~ (_ <> _) |- _ => apply dec_stable in H; subst end.
    run_known. rewrite (proj2 (N.ltb_ge _ _)) by done. run_known. done.
Qed.

Lemma decode_apply_envelope_wf frame e :
  decode_apply_envelope sha256 frame = Ok e ->
  envelope_wf e /\ envelope_validate sha256 e = Ok tt /\ env_canonical_wire e = frame.
Proof.
  unfold decode_apply_envelope, draft_try_new, draft_finalize. intros H. rust_inv.
  cbn [draft_control_commitment draft_temporal draft_auth_claim] in *.
  repeat match goal with
  | H : decode_slice _ _ = Ok _ |- _ => apply decode_slice_wf in H as [? ?]
  | H : decode_writer _ _ = Ok _ |- _ => apply decode_writer_wf in H
  | H : decode_temporal _ = Ok _ |- _ => apply decode_temporal_wf in H
  | H : decode_auth_claim _ = Ok _ |- _ => apply decode_auth_claim_wf in H
  | H : authentication_try_new _ _ = Ok _ |- _ => apply authentication_try_new_Ok in H as [-> ?]
  | H : envelope_try_new _ _ _ _ = Ok _ |- _ =>
      apply envelope_try_new_Ok in H as (? & ? & -> & -> & ?)
  | H : ~ (_ <> _) |- _ => apply dec_stable in H; subst
  end.
  unfold control_commitment_try_new in *. rust_inv.
  match goal with H : MkApplyControlCommitment _ _ _ = _ |- _ => rename H into Hc end.
  match goal with H : MkApplyRequestAuthentication _ _ = _ |- _ => rename H into Ha end.
  unfold envelope_wf, commitment_wf. rewrite <-Hc, <-Ha. done.
Qed.
End decoded.

(** ** Well-formed values are read back *)

Lemma field_array_get n fields tag (v : vec byte n) :
  (1 <= tag)%N -> fields !! N.to_nat (tag - 1) = Some (vec_to_list v) ->
  field_array n fields tag = Ok v.
Proof.
  intros Ht Hv. unfold field_array. rewrite (fields_get_lookup _ _ _ Ht Hv). apply array_of_vec.
Qed.
Lemma wire_field_u16_get fields tag v :
  (1 <= tag)%N -> fields !! N.to_nat (tag - 1) = Some (be_bytes 2 v) -> (v <= u16_max)%N ->
  wire_field_u16 fields tag = Ok v.
Proof.
  intros Ht Hv Hb. unfold wire_field_u16. rewrite (fields_get_lookup _ _ _ Ht Hv).
  by apply read_u16_exact.
Qed.
Lemma array_of_be {E : Type} n v :
  exists a : vec byte n, array_of (E:=E) n (be_bytes n v) = Ok a /\ vec_to_list a = be_bytes n v.
Proof.
  destruct (array_of_total (E:=E) n (be_bytes n v)) as [a Ha]; [apply len_be_bytes|].
  exists a. split; [done|]. by apply array_of_Ok in Ha.
Qed.
Lemma wire_field_u64_get fields tag v :
  (1 <= tag)%N -> fields !! N.to_nat (tag - 1) = Some (be_bytes 8 v) -> (v <= u64_max)%N ->
  wire_field_u64 fields tag = Ok v.
Proof.
  intros Ht Hv Hb. unfold wire_field_u64, field_array. rewrite (fields_get_lookup _ _ _ Ht Hv).
  cbn [mbind result_mbind]. destruct (array_of_be (E:=WireError) 8 v) as (a & -> & Ha).
  cbn [mbind result_mbind]. rewrite Ha, of_be_bytes_be_bytes; [done|].
  unfold u64_max in Hb. simpl N.of_nat. lia.
Qed.
Ltac tag_pos := vm_compute; discriminate.
(** Reads the fields of an explicit sequence. *)
Ltac get_fields :=
  repeat (match goal with
    | |- (field_array ?n ?fs ?tag ≫= _) = _ =>
        erewrite (field_array_get n fs tag _ ltac:(tag_pos) eq_refl)
    | |- (wire_field_u16 ?fs ?tag ≫= _) = _ =>
        erewrite (wire_field_u16_get fs tag _ ltac:(tag_pos) eq_refl) by (unfold u16_max in *; lia)
    | |- (wire_field_u64 ?fs ?tag ≫= _) = _ =>
        erewrite (wire_field_u64_get fs tag _ ltac:(tag_pos) eq_refl) by (unfold u64_max in *; lia)
    | |- (fields_get ?fs ?tag ≫= _) = _ =>
        erewrite (fields_get_lookup fs tag _ ltac:(tag_pos) eq_refl)
    end; cbn [mbind result_mbind map_err]).

Lemma proof_wf_typed p : proof_wf p -> proof_typed p.
Proof.
  unfold proof_wf, proof_typed, authority_typed, claim_typed, MAX_TENURE_NONCE_BYTES,
    MAX_TENURE_SIGNATURE_BYTES, u64_max. lia.
Qed.
Lemma commitment_wf_typed cc :
  commitment_wf cc -> header_typed (header (slice cc)) /\ control_typed (control cc).
Proof.
  intros (Hv & Hr & _ & He & Hp). split.
  - split; [rewrite Hv; vm_compute; discriminate|done].
  - split; [|by apply proof_wf_typed]. rewrite <-He. unfold proof_wf in Hp. lia.
Qed.

Lemma header_eta h :
  contract_version h = RUNTIME_SLICE_HEADER_VERSION ->
  slice_header_new (MkRuntimeHostId (host_bytes (target h)))
    (MkPlanProvenance (MkSourceScopeRef (scope_bytes (source_scope (provenance h))))
       (MkSourcePlanRef (plan_bytes (source_plan (provenance h))))
       (MkSourcePlanRevision (revision_value (source_revision (provenance h))))
       (MkSourcePlanDigest (MkDigest32 (digest_bytes (plan_digest_value (source_plan_digest (provenance h)))))))
    (MkTargetAssignmentDigest (MkDigest32 (digest_bytes (assignment_digest_value (assignment_digest h))))) = h.
Proof. destruct h as [v [t] [[s] [p] [r] [[pd]]] [[ad]]]. simpl. by intros ->. Qed.
Lemma proof_eta p :
  MkWriterTenureProof
    (MkTenureProofAuthority (MkTenureAuthorityRef (authority_bytes (authority (proof_authority p))))
       (MkTenureKeyRef (key_bytes (key (proof_authority p))))
       (MkTenureProofAlgorithm (algorithm_value (algorithm (proof_authority p))))
       (algorithm_version (proof_authority p)))
    (MkWriterTenureClaim (MkSourceScopeRef (scope_bytes (claim_source_scope (proof_claim p))))
       (MkPlanWriterRef (writer_bytes (claim_writer (proof_claim p))))
       (MkPlanWriterEpoch (epoch_value (claim_epoch (proof_claim p))))
       (MkPlanWriterEpoch (epoch_value (claim_supersedes_through_epoch (proof_claim p)))))
    (proof_nonce p) (proof_signature p) = p.
Proof. by destruct p as [[[a] [k] [g] v] [[s] [w] [e] [u]] n q]. Qed.

Lemma apply_fields_valid cc t a sig d :
  commitment_wf cc -> auth_claim_wf a -> (1 <= len sig <= MAX_APPLY_AUTH_SIGNATURE_BYTES)%N ->
  fields_valid 1 (apply_fields cc t a d ++ [sig]) = true.
Proof.
  intros (_ & _ & _ & _ & Hp) Ha Hs. unfold proof_wf, auth_claim_wf in *.
  unfold apply_fields, slice_fields, envelope_fields. cbv zeta. cbn [app tlv_valid].
  rewrite !len_be_bytes, !len_vec.
  repeat match goal with |- (_ && _) = true => apply andb_true_intro; split end; try reflexivity.
  all: apply andb_true_intro; rewrite !N.leb_le; lia.
Qed.
Section readback.
Context (sha256 : list byte -> bytes32) (cc : RuntimeApplyControlCommitment)
  (t : ApplyTemporalConstraint) (a : ApplyRequestAuthClaim) (sig : list byte).
Context (Hcc : commitment_wf cc) (Ht : temporal_wf t) (Ha : auth_claim_wf a)
  (Hs : (1 <= len sig <= MAX_APPLY_AUTH_SIGNATURE_BYTES)%N).
#[local] Abbreviation proof_of := (context_proof (writer_context (control cc))).
#[local] Abbreviation fields :=
  (apply_fields cc t a (MkDigest32 (sha256 (envelope_preimage proof_of))) ++ [sig]).

Lemma apply_fields_length : length fields = 37.
Proof. reflexivity. Qed.
Lemma apply_frame_bound :
  (len (envelope_frame fields) <= MAX_RUNTIME_APPLY_ENVELOPE_BYTES)%N.
Proof.
  destruct Hcc as (_ & _ & _ & _ & Hp). unfold proof_wf, auth_claim_wf in *.
  unfold envelope_frame, message. rewrite !len_app, !len_be_bytes, len_encode_tlvs.
  unfold apply_fields, slice_fields, envelope_fields. cbv zeta. cbn [app map sum_N foldr].
  rewrite !len_cons, !len_be_bytes, !len_vec.
  change (len APPLY_ENVELOPE_MAGIC) with 31%N. change (len (@nil (list byte))) with 0%N.
  unfold MAX_TENURE_NONCE_BYTES, MAX_TENURE_SIGNATURE_BYTES, MAX_APPLY_AUTH_NONCE_BYTES,
    MAX_APPLY_AUTH_SIGNATURE_BYTES, MAX_RUNTIME_APPLY_ENVELOPE_BYTES in *. lia.
Qed.

Lemma decode_slice_readback :
  slice_commitment_validate sha256 (slice cc) = Ok tt ->
  decode_slice sha256 fields = Ok (slice cc).
Proof.
  intros Hv. apply slice_commitment_validate_Ok in Hv. destruct Hcc as (Hver & Hr & _).
  unfold decode_slice. rewrite wire_field_u16_get with (v := contract_version (header (slice cc)));
    [|tag_pos|reflexivity|rewrite Hver; tag_pos]. cbn [mbind result_mbind].
  rewrite Hver. cbn [negb N.eqb fail_if mbind result_mbind].
  destruct (negb _) eqn:Hneg; [discriminate Hneg|]. cbn [fail_if mbind result_mbind].
  get_fields. rewrite slice_commitment_try_new_eq. cbn [map_err mbind result_mbind].
  rewrite header_eta by done. rewrite <-Hv. get_fields.
  cbn [target_slice_digest]. rewrite bool_decide_ne_refl. by destruct (slice cc).
Qed.

Lemma decode_writer_readback : decode_writer sha256 fields = Ok (writer_context (control cc)).
Proof.
  destruct Hcc as (_ & _ & Hw & He & Hp). pose proof (proof_wf_typed _ Hp) as Hpt.
  pose proof (envelope_digest_eq sha256 proof_of Hpt) as Hd.
  unfold decode_writer. unfold proof_wf in Hp. get_fields.
  rewrite (proj2 (algorithm_try_new_Ok _ _)) by (split; [reflexivity|lia]). get_fields.
  cbn [map_err mbind result_mbind]. get_fields.
  rewrite (proj2 (authority_try_new_Ok _ _ _ _ _)) by (split; [reflexivity|lia]).
  cbn [map_err mbind result_mbind]. get_fields.
  rewrite (proj2 (claim_try_new_Ok _ _ _ _ _)) by (split; [reflexivity|cbn; lia]).
  cbn [map_err mbind result_mbind]. get_fields.
  rewrite (proj2 (tenure_proof_try_new_Ok _ _ _ _ _)) by (split; [reflexivity|lia]).
  cbn [map_err mbind result_mbind].
  rewrite proof_eta, Hd. cbn [map_err mbind result_mbind]. get_fields. rewrite bool_decide_ne_refl.
  cbn [fail_if mbind result_mbind]. rewrite He in Hp. get_fields.
  apply map_err_Ok, writer_context_try_new_Ok.
  rewrite Hw, He. destruct (writer_context (control cc)) as [[w] [e] p]. done.
Qed.
Lemma decode_expected_readback : decode_expected fields = Ok (expected_active (control cc)).
Proof.
  unfold decode_expected. pose proof (expected_fields_tag (expected_active (control cc))).
  get_fields. destruct (expected_active (control cc)) as [|[[d]]]; [|done].
  cbn [fst snd expected_fields]. by rewrite bool_decide_eq_true_2.
Qed.
Lemma decode_temporal_readback : decode_temporal fields = Ok t.
Proof.
  unfold decode_temporal, temporal_wf in *. destruct Ht as (Hv & Hg & Ho & Hr). get_fields.
  rewrite (proj2 (clock_generation_try_new_Ok _ _)) by (split; [reflexivity|lia]).
  cbn [map_err mbind result_mbind].
  rewrite (wire_field_u16_get fields 26 _ ltac:(tag_pos) eq_refl) by (rewrite Hv; tag_pos).
  cbn [mbind result_mbind]. get_fields.
  apply map_err_Ok, temporal_try_from_parts_Ok. cbn [duration_value]. split; [|lia].
  by destruct t as [v [i] [d] [g] [o] [r]].
Qed.
Lemma decode_auth_claim_readback : decode_auth_claim fields = Ok a.
Proof.
  unfold decode_auth_claim, auth_claim_wf in *. get_fields.
  rewrite (proj2 (auth_algorithm_try_new_Ok _ _)) by (split; [reflexivity|lia]).
  cbn [map_err mbind result_mbind]. get_fields.
  apply map_err_Ok, auth_claim_try_new_Ok. split; [|lia]. by destruct a as [[p] [k] [g] v n].
Qed.
End readback.

(** ** The decoder against the encoder *)


Section exact.
Context (sha256 : list byte -> bytes32).

(** The wire of a well-formed envelope is the frame of its fields. *)
Lemma envelope_wire_eq e :
  envelope_wf e -> envelope_validate sha256 e = Ok tt ->
  env_canonical_wire e =
    envelope_frame
      (apply_fields (env_control_commitment e) (env_temporal e) (auth_claim (env_authentication e))
         (MkDigest32 (sha256 (envelope_preimage
            (context_proof (writer_context (control (env_control_commitment e)))))))
       ++ [auth_signature (env_authentication e)]).
Proof.
  intros (Hc & _) Hv. unfold envelope_validate, build_apply_envelope_wire in Hv. rust_inv.
  match goal with H : ~ (_ <> env_canonical_wire e) |- _ => apply dec_stable in H; rewrite <-H end.
  match goal with H : append_apply_fields _ _ _ _ _ _ = Ok _ |- _ => rename H into Hw end.
  destruct Hc as (_ & _ & _ & _ & Hp).
  rewrite (append_apply_fields_eq _ _ _ _ _ _ _ (envelope_digest_eq _ _ (proof_wf_typed _ Hp))) in Hw.
  apply Ok_inj in Hw. by rewrite <-Hw.
Qed.

Lemma decode_envelope_wire e :
  envelope_wf e -> envelope_validate sha256 e = Ok tt ->
  decode_apply_envelope sha256 (env_canonical_wire e) = Ok e.
Proof.
  intros Hwf Hval. pose proof (envelope_wire_eq e Hwf Hval) as Hw.
  destruct Hwf as (Hc & Ht & Ha & Hs). pose proof (commitment_wf_typed _ Hc) as [_ Hty].
  assert (control_commitment_validate sha256 (env_control_commitment e) = Ok tt) as Hcc.
  { unfold envelope_validate in Hval. rust_inv.
    match goal with H : control_commitment_validate _ _ = Ok ?u |- _ => by destruct u end. }
  destruct (control_commitment_validate_Ok _ _ _ Hcc) as (Hsv & Hscope & Hdig).
  unfold decode_apply_envelope. rewrite Hw at 1.
  rewrite parse_apply_frame_encode by
    (apply apply_fields_length || by apply apply_fields_valid || by apply apply_frame_bound).
  cbn [mbind result_mbind]. rewrite decode_slice_readback by done. cbn [mbind result_mbind].
  rewrite decode_writer_readback by done. cbn [mbind result_mbind].
  rewrite decode_expected_readback by done. cbn [mbind result_mbind]. get_fields.
  replace (MkRuntimeApplyControl _ _ _) with (control (env_control_commitment e))
    by (by destruct (control (env_control_commitment e)) as [w x [o]]).
  assert (control_commitment_try_new sha256 (slice (env_control_commitment e))
            (control (env_control_commitment e)) = Ok (env_control_commitment e)) as ->.
  { unfold control_commitment_try_new. rewrite Hsv. cbn [map_err mbind result_mbind].
    rewrite (proj2 (ensure_writer_scope_matches_Ok _ _ tt)) by done. cbn [mbind result_mbind].
    rewrite Hdig. by destruct (env_control_commitment e). }
  cbn [map_err mbind result_mbind]. get_fields. rewrite bool_decide_ne_refl.
  cbn [fail_if mbind result_mbind]. rewrite decode_temporal_readback by done.
  cbn [mbind result_mbind]. rewrite decode_auth_claim_readback by done. cbn [mbind result_mbind].
  unfold draft_try_new. rewrite Hcc. cbn [map_err mbind result_mbind]. get_fields.
  unfold draft_finalize. cbn [draft_control_commitment draft_temporal draft_auth_claim].
  rewrite (proj2 (authentication_try_new_Ok _ _ (env_authentication e)))
    by (split; [by destruct (env_authentication e)|done]). cbn [map_err mbind result_mbind].
  rewrite (proj2 (envelope_try_new_Ok sha256 _ _ _ e))
    by (split_and!; try done; rewrite Hw; by apply apply_frame_bound).
  cbn [map_err mbind result_mbind]. by rewrite bool_decide_ne_refl.
Qed.
End exact.

(** ** Totality of construction *)

Section construct.
Context (sha256 : list byte -> bytes32).

(** The bytes hashed into the request digest. *)
Definition request_preimage (wire : list byte) : list byte :=
  preimage APPLY_ENVELOPE_REQUEST_DIGEST_DOMAIN [wire].
Lemma request_buildable w :
  (len w <= u64_max)%N -> buildable APPLY_ENVELOPE_REQUEST_DIGEST_DOMAIN [w].
Proof.
  intros Hl. unfold buildable.
  split_and!; [done|vm_compute; congruence|by repeat constructor|vm_compute; congruence].
Qed.
Lemma envelope_request_digest_eq w :
  (len w <= u64_max)%N ->
  envelope_request_digest sha256 w = Ok (MkDigest32 (sha256 (request_preimage w))).
Proof.
  intros Hl. destruct (buildable_finish sha256 _ _ (request_buildable w Hl)) as (b & H & Hf).
  unfold envelope_request_digest, request_preimage. rewrite <-Hf. clear Hf.
  unfold build in H. cbn [try_fold] in H. rust_inv. run_known. done.
Qed.
Lemma build_wire_eq cc t a sig :
  commitment_wf cc ->
  build_apply_envelope_wire sha256 cc t (MkApplyRequestAuthentication a sig) =
  Ok (envelope_frame
        (apply_fields cc t a
           (MkDigest32 (sha256 (envelope_preimage (context_proof (writer_context (control cc))))))
         ++ [sig])).
Proof.
  intros (_ & _ & _ & _ & Hp). unfold build_apply_envelope_wire.
  by rewrite (append_apply_fields_eq _ _ _ _ _ _ _ (envelope_digest_eq _ _ (proof_wf_typed _ Hp))).
Qed.
Lemma envelope_try_new_total cc t a sig :
  commitment_wf cc -> auth_claim_wf a ->
  (1 <= len sig <= MAX_APPLY_AUTH_SIGNATURE_BYTES)%N ->
  control_commitment_validate sha256 cc = Ok tt ->
  exists e, envelope_try_new sha256 cc t (MkApplyRequestAuthentication a sig) = Ok e.
Proof.
  intros Hc Ha Hs Hv. unfold envelope_try_new. rewrite Hv, build_wire_eq by done.
  pose proof (apply_frame_bound sha256 cc t a sig Hc Ha Hs) as Hb.
  revert Hb. generalize (envelope_frame (apply_fields cc t a
    (MkDigest32 (sha256 (envelope_preimage (context_proof (writer_context (control cc))))))
    ++ [sig])). intros w Hb. cbn [map_err mbind result_mbind].
  rewrite (proj2 (N.ltb_ge _ _)) by done. cbn [fail_if mbind result_mbind].
  rewrite envelope_request_digest_eq; [by eexists|].
  unfold MAX_RUNTIME_APPLY_ENVELOPE_BYTES, u64_max in *. lia.
Qed.

(** ** Freedom from panics *)

Lemma envelope_digest_safe p : envelope_digest sha256 p <> Panic.
Proof. unfold envelope_digest, field_u16, field_u64. no_panic. Qed.
Lemma slice_try_new_safe h : slice_commitment_try_new sha256 h <> Panic.
Proof. by rewrite slice_commitment_try_new_eq. Qed.
#[local] Hint Resolve envelope_digest_safe slice_try_new_safe : no_panic.
Lemma slice_validate_safe c : slice_commitment_validate sha256 c <> Panic.
Proof. unfold slice_commitment_validate. no_panic. Qed.
Lemma scope_matches_safe s c : ensure_writer_scope_matches s c <> Panic.
Proof. unfold ensure_writer_scope_matches. no_panic. Qed.
Lemma control_digest_safe s c : control_commitment_digest sha256 s c <> Panic.
Proof.
  unfold control_commitment_digest, field_u16, field_u64, field_digest. apply no_panic_map_err.
  cbv zeta. apply no_panic_bind; [auto with no_panic|intros ? _].
  destruct (match _ with ExpectNone => _ | ExpectExact _ => _ end). no_panic.
Qed.
#[local] Hint Resolve slice_validate_safe scope_matches_safe control_digest_safe : no_panic.
Lemma control_try_new_safe s c : control_commitment_try_new sha256 s c <> Panic.
Proof. unfold control_commitment_try_new. no_panic. Qed.
Lemma control_validate_safe c : control_commitment_validate sha256 c <> Panic.
Proof. unfold control_commitment_validate. no_panic. Qed.
#[local] Hint Resolve control_try_new_safe control_validate_safe : no_panic.
Lemma append_apply_fields_safe l cc t a s : append_apply_fields sha256 l cc t a s <> Panic.
Proof.
  unfold append_apply_fields. apply no_panic_bind; [auto with no_panic|intros ? _].
  by destruct (match _ with ExpectNone => _ | ExpectExact _ => _ end).
Qed.
Lemma request_digest_safe w : envelope_request_digest sha256 w <> Panic.
Proof. unfold envelope_request_digest. no_panic. Qed.
#[local] Hint Resolve append_apply_fields_safe request_digest_safe : no_panic.
Lemma envelope_try_new_safe cc t a : envelope_try_new sha256 cc t a <> Panic.
Proof. unfold envelope_try_new, build_apply_envelope_wire. no_panic. Qed.
#[local] Hint Resolve envelope_try_new_safe : no_panic.
Lemma draft_safe d s :
  draft_try_new sha256 (draft_control_commitment d) (draft_temporal d) (draft_auth_claim d) <> Panic /\
  draft_finalize sha256 d s <> Panic.
Proof.
  unfold draft_try_new, draft_finalize, authentication_try_new, validate_auth_signature.
  split; no_panic.
Qed.

(** Reads of a parsed frame. *)
Lemma fields_get_safe fields tag :
  frame_fields fields -> (1 <=? tag)%N && (tag <=? 37)%N = true -> fields_get (E:=WireError) fields tag <> Panic.
Proof.
  intros Hf [Ht Ht']%andb_true_iff. apply N.leb_le in Ht, Ht'.
  destruct (fields_get_total (E:=WireError) _ _ fields tag Hf) as (v & -> & _); done.
Qed.
Lemma field_array_safe n fields tag :
  frame_fields fields -> (1 <=? tag)%N && (tag <=? 37)%N = true ->
  (forall x, valid_field_length tag x = (x =? N.of_nat n)%N) -> field_array n fields tag <> Panic.
Proof.
  intros Hf [Ht Ht']%andb_true_iff Hn. apply N.leb_le in Ht, Ht'.
  destruct (field_array_total n fields tag) as [v ->]; done.
Qed.
Lemma wire_field_u16_safe fields tag :
  frame_fields fields -> (1 <=? tag)%N && (tag <=? 37)%N = true ->
  (forall x, valid_field_length tag x = (x =? 2)%N) -> wire_field_u16 fields tag <> Panic.
Proof.
  intros Hf [Ht Ht']%andb_true_iff Hn. apply N.leb_le in Ht, Ht'.
  destruct (wire_field_u16_total fields tag) as [v ->]; done.
Qed.
Lemma wire_field_u64_safe fields tag :
  frame_fields fields -> (1 <=? tag)%N && (tag <=? 37)%N = true ->
  (forall x, valid_field_length tag x = (x =? 8)%N) -> wire_field_u64 fields tag <> Panic.
Proof.
  intros Hf [Ht Ht']%andb_true_iff Hn. apply N.leb_le in Ht, Ht'.
  destruct (wire_field_u64_total fields tag) as [v ->]; done.
Qed.
#[local] Hint Extern 1 (fields_get _ _ <> Panic) =>
  apply fields_get_safe; [assumption|reflexivity] : no_panic.
#[local] Hint Extern 1 (field_array _ _ _ <> Panic) =>
  apply field_array_safe; [assumption|reflexivity|reflexivity] : no_panic.
#[local] Hint Extern 1 (wire_field_u16 _ _ <> Panic) =>
  apply wire_field_u16_safe; [assumption|reflexivity|reflexivity] : no_panic.
#[local] Hint Extern 1 (wire_field_u64 _ _ <> Panic) =>
  apply wire_field_u64_safe; [assumption|reflexivity|reflexivity] : no_panic.

Lemma decode_slice_safe fields : frame_fields fields -> decode_slice sha256 fields <> Panic.
Proof. intros Hf. unfold decode_slice. no_panic. Qed.
Lemma decode_writer_safe fields : frame_fields fields -> decode_writer sha256 fields <> Panic.
Proof.
  intros Hf. unfold decode_writer, algorithm_try_new, authority_try_new, claim_try_new,
    tenure_proof_try_new, writer_context_try_new, validate_tenure_nonce. no_panic.
Qed.
Lemma decode_expected_safe fields : frame_fields fields -> decode_expected fields <> Panic.
Proof. intros Hf. unfold decode_expected. no_panic. by repeat case_match. Qed.
Lemma decode_temporal_safe fields : frame_fields fields -> decode_temporal fields <> Panic.
Proof.
  intros Hf. unfold decode_temporal, clock_generation_try_new, temporal_try_from_parts.
  apply no_panic_bind; [eauto 3 with no_panic|intros ? _].
  apply no_panic_bind; [apply no_panic_map_err; by case_match|intros ? _]. no_panic.
Qed.
Lemma decode_auth_claim_safe fields : frame_fields fields -> decode_auth_claim fields <> Panic.
Proof.
  intros Hf. unfold decode_auth_claim, auth_algorithm_try_new, auth_claim_try_new,
    validate_auth_nonce. no_panic.
Qed.
Lemma decode_safe frame : decode_apply_envelope sha256 frame <> Panic.
Proof.
  unfold decode_apply_envelope. pose proof (parse_apply_frame_safe frame) as Hp.
  destruct (parse_apply_frame frame) as [fields| |]; [|done..]. cbn [mbind result_mbind].
  apply no_panic_bind; [by apply decode_slice_safe|intros ? _].
  apply no_panic_bind; [by apply decode_writer_safe|intros ? _].
  apply no_panic_bind; [by apply decode_expected_safe|intros ? _].
  do 3 (apply no_panic_bind; [auto 3 with no_panic|intros ? _]).
  apply no_panic_bind; [auto with no_panic|intros ? _].
  apply no_panic_bind; [by apply decode_temporal_safe|intros ? _].
  apply no_panic_bind; [by apply decode_auth_claim_safe|intros ? _].
  apply no_panic_bind; [unfold draft_try_new; no_panic|intros ? _].
  apply no_panic_bind; [auto with no_panic|intros ? _].
  apply no_panic_bind; [apply no_panic_map_err, draft_safe|intros ? _]. no_panic.
Qed.
End construct.

(** ** Injectivity of the signed encoding *)

Lemma fields_valid_Forall tag l :
  fields_valid tag l = true -> Forall (fun f => len f <= u32_max)%N l.
Proof.
  apply tlv_valid_small. intros t n Hb%valid_field_length_bound. unfold u32_max. lia.
Qed.
Lemma expected_eta e e' :
  be_bytes 2 (fst (expected_fields e)) = be_bytes 2 (fst (expected_fields e')) ->
  vec_to_list (digest_bytes (snd (expected_fields e))) =
    vec_to_list (digest_bytes (snd (expected_fields e'))) -> e = e'.
Proof.
  intros H1 H2. apply be2_inj in H1; [|apply expected_fields_tag..]. apply vec_to_list_inj2 in H2.
  apply expected_fields_inj. destruct (expected_fields e) as [? [?]], (expected_fields e') as [? [?]].
  simpl in *. congruence.
Qed.
Lemma apply_fields_inj cc cc' t t' a a' d d' :
  commitment_wf cc -> commitment_wf cc' -> temporal_wf t -> temporal_wf t' ->
  auth_claim_wf a -> auth_claim_wf a' ->
  apply_fields cc t a d = apply_fields cc' t' a' d' -> cc = cc' /\ t = t' /\ a = a'.
Proof.
  intros Hc Hc' (Hv & Hg & Ho & Hr) (Hv' & Hg' & Ho' & Hr') Ha Ha' H.
  unfold auth_claim_wf in *.
  destruct (commitment_wf_typed _ Hc) as [Hh [He Hp]], (commitment_wf_typed _ Hc') as [Hh' [He' Hp']].
  unfold apply_fields in H. cbv zeta in H. apply app_inj_1 in H as [Hs H]; [|done].
  apply slice_fields_inj in Hs; [|done..]. cbn [app] in H.
  do 3 (apply fields_cons_inj in H as [? H]).
  apply app_inj_1 in H as [Hpf H]; [|done]. apply envelope_fields_inj in Hpf; [|done..].
  do 16 (apply fields_cons_inj in H as [? H]). clear H.
  assert (expected_active (control cc) = expected_active (control cc')) as Hex by by apply expected_eta.
  assert (temporal_version t = temporal_version t') as Htv by congruence.
  repeat match goal with
  | H : vec_to_list _ = vec_to_list _ |- _ => apply vec_to_list_inj2 in H
  | H : be_bytes 2 _ = be_bytes 2 _ |- _ =>
      apply be_bytes_inj in H; [|simpl N.of_nat; unfold u16_max in *; lia..]
  | H : be_bytes 8 _ = be_bytes 8 _ |- _ =>
      apply be_bytes_inj in H; [|simpl N.of_nat; unfold u64_max in *; lia..]
  | H : be_bytes 2 _ = be_bytes 2 _ |- _ => clear H
  end.
  destruct cc as [[h [[ds]]] [[[w] [e] p] x [o]] [cd]], cc' as [[h' [[ds']]] [[[w'] [e'] p'] x' [o']] [cd']],
    t as [v [i] [k] [g] [b] [r]], t' as [v' [i'] [k'] [g'] [b'] [r']],
    a as [[pr] [ak] [al] av n], a' as [[pr'] [ak'] [al'] av' n'].
  simpl in *. subst. done.
Qed.

(** The transcript of a draft. *)
Lemma draft_transcript_Ok sha256 (d : RuntimeApplyEnvelopeDraft) tr :
  commitment_wf (draft_control_commitment d) ->
  draft_signing_transcript sha256 d = Ok tr ->
  exists pd, apply_transcript_bytes tr =
    (APPLY_AUTH_SIGNING_MAGIC ++ be_bytes 2 APPLY_REQUEST_SIGNING_TRANSCRIPT_VERSION
     ++ be_bytes 2 (len APPLY_AUTH_SIGNING_DOMAIN mod 2 ^ 16) ++ APPLY_AUTH_SIGNING_DOMAIN
     ++ be_bytes 2 APPLY_AUTH_SIGNING_FIELD_COUNT)
    ++ encode_tlvs 1 (apply_fields (draft_control_commitment d) (draft_temporal d)
                        (draft_auth_claim d) pd).
Proof.
  intros (_ & _ & _ & _ & Hp) H. unfold draft_signing_transcript, build_apply_signing_transcript in H.
  rewrite (append_apply_fields_eq _ _ _ _ _ _ _ (envelope_digest_eq _ _ (proof_wf_typed _ Hp))) in H.
  cbn [mbind result_mbind] in H. apply bind_Ok in H as (u & _ & H). apply Ok_inj in H. subst tr.
  eexists. rewrite app_nil_r. reflexivity.
Qed.

(** Drafts with the same transcript are the same. *)
Lemma draft_transcript_inj sha256 (d d' : RuntimeApplyEnvelopeDraft) t :
  commitment_wf (draft_control_commitment d) -> commitment_wf (draft_control_commitment d') ->
  temporal_wf (draft_temporal d) -> temporal_wf (draft_temporal d') ->
  auth_claim_wf (draft_auth_claim d) -> auth_claim_wf (draft_auth_claim d') ->
  draft_signing_transcript sha256 d = Ok t -> draft_signing_transcript sha256 d' = Ok t -> d = d'.
Proof.
  intros Hc Hc' Ht Ht' Ha Ha' H H'.
  apply draft_transcript_Ok in H as [p Hp], H' as [p' Hp']; [|done..]. rewrite Hp in Hp'.
  apply app_inv_head in Hp'. apply encode_tlvs_inj in Hp'; [|done|..].
  - apply apply_fields_inj in Hp' as (? & ? & ?); [|done..]. destruct d, d'; simpl in *; congruence.
  - eapply fields_valid_Forall, tlv_valid_app_1.
    by apply (apply_fields_valid _ _ _ [x00] p Hc Ha).
  - eapply fields_valid_Forall, tlv_valid_app_1.
    by apply (apply_fields_valid _ _ _ [x00] p' Hc' Ha').
Qed.

(** ** Concrete values *)

Module WireDemo.
Definition temporal : ApplyTemporalConstraint :=
  MkApplyTemporalConstraint APPLY_TEMPORAL_CONSTRAINT_VERSION
    (MkTemporalConstraintId (ContractDemo.ref 20)) (MkClockDomainRef (ContractDemo.ref 21))
    (MkClockGeneration 3) (from_nanos 1000) (from_nanos 900).
Definition auth (nonce : list byte) : ApplyRequestAuthClaim :=
  MkApplyRequestAuthClaim (MkPrincipalRef (ContractDemo.ref 22)) (MkApplyAuthKeyRef (ContractDemo.ref 23))
    (MkApplyAuthAlgorithm 1) 1 nonce.
Definition commitment : RuntimeApplyControlCommitment :=
  Eval vm_compute in ContractDemo.request 7 8 2 1 9 ExpectNone.
Definition draft (nonce : list byte) : RuntimeApplyEnvelopeDraft :=
  MkApplyEnvelopeDraft commitment temporal (auth nonce).
End WireDemo.

(** ** Properties *)

(** C34: The decoder accepts exactly the canonical wires of well-formed, valid
    envelopes: a frame decodes to [e] if and only if [e] satisfies every
    constructor guard, [RuntimeApplyEnvelope::validate] accepts [e], and the
    frame is the canonical wire [e] carries.  In particular encoding then
    decoding is the identity, no two frames decode to the same envelope, and
    every decoded envelope re-encodes to its frame. *)
Theorem decode_accepts_exactly sha256 (frame : list byte) (e : RuntimeApplyEnvelope) :
  decode_apply_envelope sha256 frame = Ok e <->
  envelope_wf e /\ envelope_validate sha256 e = Ok tt /\ env_canonical_wire e = frame.
Proof.
  split; [apply decode_apply_envelope_wf|]. intros (Hwf & Hv & <-). by apply decode_envelope_wire.
Qed.

(** Decoding an arbitrary byte string never panics: no slice, index or
    fixed-size read of the decoder leaves its bounds. *)
Theorem decode_never_panics sha256 (frame : list byte) : decode_apply_envelope sha256 frame <> Panic.
Proof. apply decode_safe. Qed.

(** Signing a well-formed draft with a signature of 1 to 512 bytes always
    yields an envelope: its wire fits the 4096-byte frame limit, and decoding
    that wire returns the same envelope. *)
Theorem finalized_draft_round_trip sha256 (d : RuntimeApplyEnvelopeDraft) (signature : list byte) :
  commitment_wf (draft_control_commitment d) -> temporal_wf (draft_temporal d) ->
  auth_claim_wf (draft_auth_claim d) ->
  control_commitment_validate sha256 (draft_control_commitment d) = Ok tt ->
  (1 <= len signature <= MAX_APPLY_AUTH_SIGNATURE_BYTES)%N ->
  exists e, draft_finalize sha256 d signature = Ok e /\
    (len (env_canonical_wire e) <= MAX_RUNTIME_APPLY_ENVELOPE_BYTES)%N /\
    decode_apply_envelope sha256 (env_canonical_wire e) = Ok e.
Proof.
  intros Hc Ht Ha Hv Hs. unfold draft_finalize.
  rewrite (proj2 (authentication_try_new_Ok _ _ _) (conj eq_refl Hs)). cbn [map_err mbind result_mbind].
  destruct (envelope_try_new_total sha256 _ (draft_temporal d) _ _ Hc Ha Hs Hv) as [e He].
  exists e. split; [done|]. apply envelope_try_new_Ok in He as (Hval & Hl & E1 & E2 & E3).
  split; [done|]. apply decode_envelope_wire; [|done].
  unfold envelope_wf. by rewrite <-E1, <-E2, <-E3.
Qed.

Lemma finalized_draft_round_trip_witness :
  exists e, draft_finalize toy_hash (WireDemo.draft [x05]) [x06; x07] = Ok e /\
    (len (env_canonical_wire e) <= MAX_RUNTIME_APPLY_ENVELOPE_BYTES)%N /\
    decode_apply_envelope toy_hash (env_canonical_wire e) = Ok e.
Proof.
  apply (finalized_draft_round_trip toy_hash (WireDemo.draft [x05]) [x06; x07]).
  - decide_now.
  - decide_now.
  - decide_now.
  - vm_compute. reflexivity.
  - decide_now.
Defined.

(** What a principal signs determines the whole draft (slice commitment,
    controls with the tenure proof, commitment digest, temporal constraint,
    authentication claim): two different well-formed drafts never share a
    signing transcript. *)
Theorem apply_transcript_binds_draft sha256 (d d' : RuntimeApplyEnvelopeDraft) t t' :
  commitment_wf (draft_control_commitment d) -> commitment_wf (draft_control_commitment d') ->
  temporal_wf (draft_temporal d) -> temporal_wf (draft_temporal d') ->
  auth_claim_wf (draft_auth_claim d) -> auth_claim_wf (draft_auth_claim d') ->
  draft_signing_transcript sha256 d = Ok t -> draft_signing_transcript sha256 d' = Ok t' ->
  d <> d' -> apply_transcript_bytes t <> apply_transcript_bytes t'.
Proof.
  intros Hc Hc' Ht Ht' Ha Ha' H H' Hne Heq. apply Hne.
  assert (t = t') as <- by (destruct t, t'; simpl in *; congruence).
  by eapply draft_transcript_inj.
Qed.

(** The same request with another authentication nonce. *)
Lemma apply_transcript_binds_draft_witness :
  exists t t', draft_signing_transcript toy_hash (WireDemo.draft [x05]) = Ok t /\
    draft_signing_transcript toy_hash (WireDemo.draft [x06]) = Ok t' /\
    apply_transcript_bytes t <> apply_transcript_bytes t'.
Proof.
  eexists _, _. split; [vm_compute; reflexivity|]. split; [vm_compute; reflexivity|].
  apply (apply_transcript_binds_draft toy_hash (WireDemo.draft [x05]) (WireDemo.draft [x06])).
  - decide_now.
  - decide_now.
  - decide_now.
  - decide_now.
  - decide_now.
  - decide_now.
  - vm_compute. reflexivity.
  - vm_compute. reflexivity.
  - vm_compute. congruence.
Defined.
