(* ===== verification/Signatures.v ===== *)
(** * Ed25519 signatures

    What the code uses of the ed25519-dalek crate, as a class: the components
    that verify or sign are stated for any instance. *)

From S2P Require Import Prelude KernelDigest.

Definition bytes64 : Type := vec byte 64.

(** Decoding a key, the low-order test and strict verification of a 64-byte
    signature. *)
Class Ed25519 := {
  VerifyingKey : Type;
  #[global] VerifyingKey_eq_dec :: EqDecision VerifyingKey;
  key_from_bytes : bytes32 -> option VerifyingKey;
  key_is_weak : VerifyingKey -> bool;
  verify_strict : VerifyingKey -> list byte -> bytes64 -> bool;
}.

(** Signing keys made from a seed. *)
Class Ed25519Signing `{Ed25519} := {
  SigningKey : Type;
  signing_key_from_seed : bytes32 -> SigningKey;
  public_key_bytes : SigningKey -> bytes32;
  sign_message : SigningKey -> list byte -> bytes64;
}.

(** The documented relation of the two: the public key of a signing key
    verifies what the key signs. *)
Definition signatures_verify `{Ed25519Signing} (sk : SigningKey) : Prop :=
  exists vk, key_from_bytes (public_key_bytes sk) = Some vk /\
    forall m, verify_strict vk m (sign_message sk m) = true.

(** ** A toy scheme, to instantiate the classes in examples *)

(** A signature is a hash of key and message. *)
Module ToySignatures.
Definition toy_sign (key : bytes32) (message : list byte) : bytes64 :=
  Vector.append (toy_hash (vec_to_list key ++ message)) (Vector.const x00 32).
#[export] Instance toy_ed25519 : Ed25519 := {|
  VerifyingKey := bytes32;
  key_from_bytes := Some;
  key_is_weak k := bool_decide (k = Vector.const x00 32);
  verify_strict k m s := bool_decide (s = toy_sign k m);
|}.
#[export] Instance toy_signing : Ed25519Signing := {|
  SigningKey := bytes32;
  signing_key_from_seed seed := seed;
  public_key_bytes key := key;
  sign_message := toy_sign;
|}.
Lemma toy_signatures_verify (key : bytes32) : signatures_verify (H0:=toy_signing) key.
Proof. exists key. split; [done|]. intros m. by apply bool_decide_eq_true. Qed.
End ToySignatures.
