(* ===== verification/TenureProtocol.v ===== *)
(** * The acquire-tenure protocol

    crates/paraegox-deployment/src/tenure_protocol.rs: the canonical request
    a controller signs to acquire a writer tenure, the response that carries
    the authority's proof, their digests, and the transport frames. *)

From Stdlib Require Import Strings.String.
From S2P Require Import Prelude Bytes KernelDigest Tlv ApplyContracts ApplyWire.
Open Scope rust_scope.

Definition ACQUIRE_REQUEST_MAGIC : list byte := ascii_bytes "PXATREQ" ++ [x00].
Definition ACQUIRE_RESPONSE_MAGIC : list byte := ascii_bytes "PXATRSP" ++ [x00].
Definition ACQUIRE_FRAME_MAGIC : list byte := ascii_bytes "PXATFRM" ++ [x00].
Definition REQUEST_AUTH_TRANSCRIPT_MAGIC : list byte :=
  ascii_bytes "ParaEGOX" ++ [x00] ++ ascii_bytes "acquire-tenure-request-auth".
Definition REQUEST_AUTH_TRANSCRIPT_DOMAIN : list byte :=
  ascii_bytes "paraegox.deployment.acquire-tenure.request-auth.ed25519.v1".
Definition INTENT_DIGEST_DOMAIN : list byte :=
  ascii_bytes "paraegox.deployment.acquire-tenure.intent.sha256.v1".
Definition REQUEST_DIGEST_DOMAIN : list byte :=
  ascii_bytes "paraegox.deployment.acquire-tenure.request.sha256.v1".
Definition RESPONSE_DIGEST_DOMAIN : list byte :=
  ascii_bytes "paraegox.deployment.acquire-tenure.response.sha256.v1".
Definition CONTROLLER_KEY_FINGERPRINT_DOMAIN : list byte :=
  ascii_bytes "paraegox.deployment.acquire-tenure.controller-key.sha256.v1".

Definition ACQUIRE_TENURE_PROTOCOL_VERSION : N := 1.
Definition ACQUIRE_TENURE_FRAME_VERSION : N := 1.
Definition ACQUIRE_TENURE_REQUEST_AUTH_TRANSCRIPT_VERSION : N := 1.
Definition ACQUIRE_TENURE_ED25519_ALGORITHM : N := 1.
Definition ACQUIRE_TENURE_ED25519_ALGORITHM_VERSION : N := 1.
Definition ACQUIRE_TENURE_ED25519_SIGNATURE_BYTES : N := 64.
Definition MAX_ACQUIRE_TENURE_CLIENT_NONCE_BYTES : N := 64.
Definition REQUEST_FIELD_COUNT : N := 12.
Definition REQUEST_UNSIGNED_FIELD_COUNT : N := REQUEST_FIELD_COUNT - 1.
Definition RESPONSE_FIELD_COUNT : N := 15.
Definition RESPONSE_UNSIGNED_FIELD_COUNT : N := RESPONSE_FIELD_COUNT - 1.
Definition VALUE_HEADER_BYTES : N := 12.
Definition REQUEST_FIXED_VALUE_BYTES : N :=
  5 * 16 + 32 + 2 + 2 + 4 + 32 + ACQUIRE_TENURE_ED25519_SIGNATURE_BYTES.
Definition MAX_ACQUIRE_TENURE_REQUEST_PAYLOAD_BYTES : N :=
  VALUE_HEADER_BYTES + REQUEST_FIELD_COUNT * TLV_HEADER_BYTES + REQUEST_FIXED_VALUE_BYTES
  + MAX_ACQUIRE_TENURE_CLIENT_NONCE_BYTES.
Definition MAX_ACQUIRE_TENURE_REQUEST_SIGNING_TRANSCRIPT_BYTES : N :=
  len REQUEST_AUTH_TRANSCRIPT_MAGIC + 2 + 2 + len REQUEST_AUTH_TRANSCRIPT_DOMAIN + 2
  + REQUEST_UNSIGNED_FIELD_COUNT * TLV_HEADER_BYTES
  + (REQUEST_FIXED_VALUE_BYTES - ACQUIRE_TENURE_ED25519_SIGNATURE_BYTES)
  + MAX_ACQUIRE_TENURE_CLIENT_NONCE_BYTES.
Definition RESPONSE_FIXED_VALUE_BYTES : N := 5 * 16 + 2 * 32 + 2 * 2 + 2 * 8 + 32.
Definition MIN_ACQUIRE_TENURE_RESPONSE_PAYLOAD_BYTES : N :=
  VALUE_HEADER_BYTES + RESPONSE_FIELD_COUNT * TLV_HEADER_BYTES + RESPONSE_FIXED_VALUE_BYTES
  + 1 + 1 + 1.
Definition MAX_ACQUIRE_TENURE_RESPONSE_PAYLOAD_BYTES : N :=
  VALUE_HEADER_BYTES + RESPONSE_FIELD_COUNT * TLV_HEADER_BYTES + RESPONSE_FIXED_VALUE_BYTES
  + MAX_ACQUIRE_TENURE_CLIENT_NONCE_BYTES + MAX_TENURE_NONCE_BYTES + MAX_TENURE_SIGNATURE_BYTES.
Definition ACQUIRE_TENURE_FRAME_HEADER_BYTES : N := 16.
Definition MAX_ACQUIRE_TENURE_FRAME_BYTES : N :=
  ACQUIRE_TENURE_FRAME_HEADER_BYTES + MAX_ACQUIRE_TENURE_RESPONSE_PAYLOAD_BYTES.

(** ** References and digests *)

Record DeploymentScopeId := MkDeploymentScopeId { deployment_scope_bytes : bytes16 }.
Record DeploymentWriterRef := MkDeploymentWriterRef { deployment_writer_bytes : bytes16 }.
Record AcquireTenureOperationId := MkAcquireTenureOperationId { acquire_operation_bytes : bytes16 }.
Record ControllerAcquireKeyRef := MkControllerAcquireKeyRef { controller_key_bytes : bytes16 }.
Record ControllerPublicKeyFingerprint := MkControllerPublicKeyFingerprint { fingerprint_value : Digest32 }.
Record AcquireTenureIntentDigest := MkAcquireTenureIntentDigest { intent_digest_value : Digest32 }.
Record AcquireTenureRequestDigest := MkAcquireTenureRequestDigest { acquire_request_digest_value : Digest32 }.
Record AcquireTenureResponseDigest := MkAcquireTenureResponseDigest { acquire_response_digest_value : Digest32 }.
#[export] Instance DeploymentScopeId_eq_dec : EqDecision DeploymentScopeId.
Proof. solve_decision. Defined.
#[export] Instance DeploymentWriterRef_eq_dec : EqDecision DeploymentWriterRef.
Proof. solve_decision. Defined.
#[export] Instance AcquireTenureOperationId_eq_dec : EqDecision AcquireTenureOperationId.
Proof. solve_decision. Defined.
#[export] Instance ControllerAcquireKeyRef_eq_dec : EqDecision ControllerAcquireKeyRef.
Proof. solve_decision. Defined.
#[export] Instance ControllerPublicKeyFingerprint_eq_dec : EqDecision ControllerPublicKeyFingerprint.
Proof. solve_decision. Defined.
#[export] Instance AcquireTenureIntentDigest_eq_dec : EqDecision AcquireTenureIntentDigest.
Proof. solve_decision. Defined.
#[export] Instance AcquireTenureRequestDigest_eq_dec : EqDecision AcquireTenureRequestDigest.
Proof. solve_decision. Defined.
#[export] Instance AcquireTenureResponseDigest_eq_dec : EqDecision AcquireTenureResponseDigest.
Proof. solve_decision. Defined.

(** ** Errors *)

Inductive AcquireTenureProtocolErrorCode :=
| ATMessageTooLarge | ATTruncated | ATInvalidMagic | ATUnsupportedVersion | ATUnknownField
| ATMissingField | ATDuplicateField | ATOutOfOrderField | ATInvalidFieldLength
| ATInvalidFieldValue | ATDerivedDigestMismatch | ATNonCanonicalMessage | ATTrailingBytes
| ATInvalidFrameKind | ATResponseBoundExceeded | ATRequestBindingMismatch | ATDigestFailure
| ATProofContract.
#[export] Instance AcquireTenureProtocolErrorCode_eq_dec : EqDecision AcquireTenureProtocolErrorCode.
Proof. solve_decision. Defined.

Record AcquireTenureProtocolError := MkAcquireTenureProtocolError {
  at_code : AcquireTenureProtocolErrorCode;
  at_field_tag : option N;
}.
#[export] Instance AcquireTenureProtocolError_eq_dec : EqDecision AcquireTenureProtocolError.
Proof. solve_decision. Defined.
Definition at_new (code : AcquireTenureProtocolErrorCode) : AcquireTenureProtocolError :=
  MkAcquireTenureProtocolError code None.
Definition at_tag (code : AcquireTenureProtocolErrorCode) (tag : N) : AcquireTenureProtocolError :=
  MkAcquireTenureProtocolError code (Some tag).
#[local] Abbreviation Res := (result AcquireTenureProtocolError).

#[export] Instance AcquireTenureProtocolError_tlv : TlvErrors AcquireTenureProtocolError := {|
  tlv_too_large := at_new ATMessageTooLarge;
  tlv_truncated := at_new ATTruncated;
  tlv_invalid_magic := at_new ATInvalidMagic;
  tlv_unsupported_version := at_new ATUnsupportedVersion;
  tlv_trailing_bytes := at_new ATTrailingBytes;
  tlv_truncated_at := at_tag ATTruncated;
  tlv_unknown_field := at_tag ATUnknownField;
  tlv_missing_field := at_tag ATMissingField;
  tlv_duplicate_field := at_tag ATDuplicateField;
  tlv_out_of_order := at_tag ATOutOfOrderField;
  tlv_invalid_length := at_tag ATInvalidFieldLength;
|}.
Definition parse_value (bytes magic : list byte) (expected_version expected_field_count maximum_bytes : N)
    (valid_length : N -> N -> bool) : Res (list (list byte)) :=
  parse_message magic expected_version expected_field_count maximum_bytes valid_length bytes.

Definition map_digest_error (_ : DigestBuildError) : AcquireTenureProtocolError := at_new ATDigestFailure.
Definition digest_builder (domain : list byte) : Res Digest32Builder :=
  map_err map_digest_error (digest_try_new domain).
Definition add_digest_bytes (builder : Digest32Builder) (bytes : list byte) : Res Digest32Builder :=
  map_err map_digest_error (field_bytes builder bytes).
Definition add_digest_u16 (builder : Digest32Builder) (value : N) : Res Digest32Builder :=
  map_err map_digest_error (field_u16 builder value).

Definition all_zero (bytes : list byte) : bool := forallb (Byte.eqb x00) bytes.
Definition validate_nonzero (bytes : list byte) (tag : N) : Res unit :=
  bail (at_tag ATInvalidFieldValue tag) when all_zero bytes; Ok tt.
Definition validate_client_nonce (nonce : list byte) (tag : N) : Res unit :=
  bail (at_tag ATInvalidFieldLength tag)
    when negb ((1 <=? len nonce) && (len nonce <=? MAX_ACQUIRE_TENURE_CLIENT_NONCE_BYTES))%N;
  Ok tt.
Definition validate_response_bound (bound tag : N) : Res unit :=
  bail (at_tag ATInvalidFieldValue tag)
    when negb ((MIN_ACQUIRE_TENURE_RESPONSE_PAYLOAD_BYTES <=? bound)
               && (bound <=? MAX_ACQUIRE_TENURE_RESPONSE_PAYLOAD_BYTES))%N;
  Ok tt.
Definition validate_ed25519_signature (signature : list byte) (tag : N) : Res unit :=
  bail (at_tag ATInvalidFieldLength tag)
    when negb (len signature =? ACQUIRE_TENURE_ED25519_SIGNATURE_BYTES)%N;
  Ok tt.
(** [bytes.try_into()] into [[u8; N]]. *)
Definition read_array (n : nat) (bytes : list byte) (tag : N) : Res (vec byte n) :=
  ok_or (vec_of_list n bytes) (at_tag ATInvalidFieldLength tag).

Section protocol.
Context (sha256 : list byte -> bytes32).

Definition fingerprint_try_from_digest (value : Digest32) : Res ControllerPublicKeyFingerprint :=
  _ ← validate_nonzero (vec_to_list (digest_bytes value)) 6;
  Ok (MkControllerPublicKeyFingerprint value).
Definition for_ed25519_key (public_key : bytes32) : Res ControllerPublicKeyFingerprint :=
  builder ← digest_builder CONTROLLER_KEY_FINGERPRINT_DOMAIN;
  builder ← add_digest_u16 builder ACQUIRE_TENURE_ED25519_ALGORITHM;
  builder ← add_digest_u16 builder ACQUIRE_TENURE_ED25519_ALGORITHM_VERSION;
  builder ← add_digest_bytes builder (vec_to_list public_key);
  fingerprint_try_from_digest (finish sha256 builder).

(** ** The request *)

Record AcquireTenureIntentV1 := MkAcquireTenureIntent {
  intent_scope : DeploymentScopeId;
  intent_writer : DeploymentWriterRef;
  intent_operation_id : AcquireTenureOperationId;
}.

Definition intent_digest (self : AcquireTenureIntentV1) : Res AcquireTenureIntentDigest :=
  builder ← digest_builder INTENT_DIGEST_DOMAIN;
  builder ← add_digest_bytes builder (vec_to_list (deployment_scope_bytes (intent_scope self)));
  builder ← add_digest_bytes builder (vec_to_list (deployment_writer_bytes (intent_writer self)));
  builder ← add_digest_bytes builder
    (vec_to_list (acquire_operation_bytes (intent_operation_id self)));
  Ok (MkAcquireTenureIntentDigest (finish sha256 builder)).

Record AcquireTenureRequestDraftV1 := MkAcquireTenureRequestDraft {
  acq_intent : AcquireTenureIntentV1;
  acq_controller_principal : PrincipalRef;
  acq_controller_key : ControllerAcquireKeyRef;
  acq_controller_fingerprint : ControllerPublicKeyFingerprint;
  acq_client_nonce : list byte;
  acq_max_response_payload_bytes : N;
  acq_intent_digest : AcquireTenureIntentDigest;
}.

Definition acquire_draft_try_new (intent : AcquireTenureIntentV1) (controller_principal : PrincipalRef)
    (controller_key : ControllerAcquireKeyRef) (fingerprint : ControllerPublicKeyFingerprint)
    (client_nonce : list byte) (max_response_payload_bytes : N) : Res AcquireTenureRequestDraftV1 :=
  _ ← validate_nonzero (vec_to_list (deployment_scope_bytes (intent_scope intent))) 1;
  _ ← validate_nonzero (vec_to_list (deployment_writer_bytes (intent_writer intent))) 2;
  _ ← validate_nonzero (vec_to_list (acquire_operation_bytes (intent_operation_id intent))) 3;
  _ ← validate_nonzero (vec_to_list (principal_bytes controller_principal)) 4;
  _ ← validate_nonzero (vec_to_list (controller_key_bytes controller_key)) 5;
  _ ← validate_nonzero (vec_to_list (digest_bytes (fingerprint_value fingerprint))) 6;
  _ ← validate_client_nonce client_nonce 9;
  _ ← validate_response_bound max_response_payload_bytes 10;
  digest ← intent_digest intent;
  Ok (MkAcquireTenureRequestDraft intent controller_principal controller_key fingerprint client_nonce
        max_response_payload_bytes digest).

Definition append_request_unsigned_fields (bytes : list byte) (draft : AcquireTenureRequestDraftV1)
    : list byte :=
  let intent := acq_intent draft in
  let bytes := append_tlv bytes 1 (vec_to_list (deployment_scope_bytes (intent_scope intent))) in
  let bytes := append_tlv bytes 2 (vec_to_list (deployment_writer_bytes (intent_writer intent))) in
  let bytes :=
    append_tlv bytes 3 (vec_to_list (acquire_operation_bytes (intent_operation_id intent))) in
  let bytes := append_tlv bytes 4 (vec_to_list (principal_bytes (acq_controller_principal draft))) in
  let bytes := append_tlv bytes 5 (vec_to_list (controller_key_bytes (acq_controller_key draft))) in
  let bytes :=
    append_tlv bytes 6
      (vec_to_list (digest_bytes (fingerprint_value (acq_controller_fingerprint draft)))) in
  let bytes := append_tlv bytes 7 (be_bytes 2 ACQUIRE_TENURE_ED25519_ALGORITHM) in
  let bytes := append_tlv bytes 8 (be_bytes 2 ACQUIRE_TENURE_ED25519_ALGORITHM_VERSION) in
  let bytes := append_tlv bytes 9 (acq_client_nonce draft) in
  let bytes := append_tlv bytes 10 (be_bytes 4 (acq_max_response_payload_bytes draft)) in
  append_tlv bytes 11 (vec_to_list (digest_bytes (intent_digest_value (acq_intent_digest draft)))).

Definition build_request_signing_transcript (draft : AcquireTenureRequestDraftV1) : Res (list byte) :=
  let bytes := REQUEST_AUTH_TRANSCRIPT_MAGIC
    ++ be_bytes 2 ACQUIRE_TENURE_REQUEST_AUTH_TRANSCRIPT_VERSION in
  domain_length ← ok_or (try_from u16_max (len REQUEST_AUTH_TRANSCRIPT_DOMAIN))
    (at_new ATInvalidFieldLength);
  let bytes := bytes ++ be_bytes 2 domain_length ++ REQUEST_AUTH_TRANSCRIPT_DOMAIN
    ++ be_bytes 2 REQUEST_UNSIGNED_FIELD_COUNT in
  let bytes := append_request_unsigned_fields bytes draft in
  (* [debug_assert!] *)
  if (len bytes <=? MAX_ACQUIRE_TENURE_REQUEST_SIGNING_TRANSCRIPT_BYTES)%N then Ok bytes else Panic.

Definition append_value_header (bytes magic : list byte) (version field_count : N) : list byte :=
  bytes ++ magic ++ be_bytes 2 version ++ be_bytes 2 field_count.

Definition build_request_bytes (draft : AcquireTenureRequestDraftV1) (signature : list byte) : list byte :=
  let bytes := append_value_header [] ACQUIRE_REQUEST_MAGIC ACQUIRE_TENURE_PROTOCOL_VERSION
    REQUEST_FIELD_COUNT in
  let bytes := append_request_unsigned_fields bytes draft in
  append_tlv bytes 12 signature.

Definition digest_complete_request (canonical_bytes : list byte) : Res AcquireTenureRequestDigest :=
  builder ← digest_builder REQUEST_DIGEST_DOMAIN;
  builder ← add_digest_bytes builder canonical_bytes;
  Ok (MkAcquireTenureRequestDigest (finish sha256 builder)).

Record AcquireTenureRequestV1 := MkAcquireTenureRequest {
  acq_draft : AcquireTenureRequestDraftV1;
  acq_auth_signature : list byte;
  acq_canonical_bytes : list byte;
  acq_request_digest : AcquireTenureRequestDigest;
}.

Definition request_from_draft (draft : AcquireTenureRequestDraftV1) (auth_signature : list byte)
    : Res AcquireTenureRequestV1 :=
  let canonical_bytes := build_request_bytes draft auth_signature in
  bail (at_new ATMessageTooLarge)
    when (MAX_ACQUIRE_TENURE_REQUEST_PAYLOAD_BYTES <? len canonical_bytes)%N;
  request_digest ← digest_complete_request canonical_bytes;
  Ok (MkAcquireTenureRequest draft auth_signature canonical_bytes request_digest).

Definition finalize_ed25519 (self : AcquireTenureRequestDraftV1) (signature : list byte)
    : Res AcquireTenureRequestV1 :=
  _ ← validate_ed25519_signature signature 12;
  request_from_draft self signature.

Definition acquire_signing_transcript (self : AcquireTenureRequestV1) : Res (list byte) :=
  build_request_signing_transcript (acq_draft self).

Definition valid_request_field_length (tag length : N) : bool :=
  if bool_decide (tag ∈ [1; 2; 3; 4; 5]%N) then (length =? 16)%N
  else if bool_decide (tag ∈ [6; 11]%N) then (length =? 32)%N
  else if bool_decide (tag ∈ [7; 8]%N) then (length =? 2)%N
  else if (tag =? 9)%N then ((1 <=? length) && (length <=? MAX_ACQUIRE_TENURE_CLIENT_NONCE_BYTES))%N
  else if (tag =? 10)%N then (length =? 4)%N
  else if (tag =? 12)%N then (length =? ACQUIRE_TENURE_ED25519_SIGNATURE_BYTES)%N
  else false.

Definition decode_acquire_request (bytes : list byte) : Res AcquireTenureRequestV1 :=
  fields ← parse_value bytes ACQUIRE_REQUEST_MAGIC ACQUIRE_TENURE_PROTOCOL_VERSION
    REQUEST_FIELD_COUNT MAX_ACQUIRE_TENURE_REQUEST_PAYLOAD_BYTES valid_request_field_length;
  f1 ← fields_get fields 1; scope ← read_array 16 f1 1;
  f2 ← fields_get fields 2; writer ← read_array 16 f2 2;
  f3 ← fields_get fields 3; operation_id ← read_array 16 f3 3;
  f4 ← fields_get fields 4; controller_principal ← read_array 16 f4 4;
  f5 ← fields_get fields 5; controller_key ← read_array 16 f5 5;
  f6 ← fields_get fields 6; fingerprint ← read_array 32 f6 6;
  _ ← validate_nonzero (vec_to_list scope) 1;
  _ ← validate_nonzero (vec_to_list writer) 2;
  _ ← validate_nonzero (vec_to_list operation_id) 3;
  _ ← validate_nonzero (vec_to_list controller_principal) 4;
  _ ← validate_nonzero (vec_to_list controller_key) 5;
  _ ← validate_nonzero (vec_to_list fingerprint) 6;
  f7 ← fields_get fields 7; algorithm ← read_u16 f7;
  bail (at_tag ATInvalidFieldValue 7) when negb (algorithm =? ACQUIRE_TENURE_ED25519_ALGORITHM)%N;
  f8 ← fields_get fields 8; algorithm_version ← read_u16 f8;
  bail (at_tag ATInvalidFieldValue 8)
    when negb (algorithm_version =? ACQUIRE_TENURE_ED25519_ALGORITHM_VERSION)%N;
  f10 ← fields_get fields 10; max_response_payload_bytes ← read_u32 f10;
  f9 ← fields_get fields 9;
  draft ← acquire_draft_try_new
    (MkAcquireTenureIntent (MkDeploymentScopeId scope) (MkDeploymentWriterRef writer)
       (MkAcquireTenureOperationId operation_id))
    (MkPrincipalRef controller_principal) (MkControllerAcquireKeyRef controller_key)
    (MkControllerPublicKeyFingerprint (MkDigest32 fingerprint)) f9 max_response_payload_bytes;
  f11 ← fields_get fields 11; carried ← read_array 32 f11 11;
  bail (at_tag ATDerivedDigestMismatch 11)
    when bool_decide (MkAcquireTenureIntentDigest (MkDigest32 carried) <> acq_intent_digest draft);
  f12 ← fields_get fields 12;
  request ← finalize_ed25519 draft f12;
  bail (at_new ATNonCanonicalMessage) when bool_decide (acq_canonical_bytes request <> bytes);
  Ok request.

(** ** The response *)

Record AcquireTenureResponseV1 := MkAcquireTenureResponse {
  rsp_operation_id : AcquireTenureOperationId;
  rsp_request_digest : AcquireTenureRequestDigest;
  rsp_client_nonce : list byte;
  rsp_proof : WriterTenureProof;
  rsp_proof_digest : Digest32;
  rsp_response_digest : AcquireTenureResponseDigest;
  rsp_canonical_bytes : list byte;
}.

Definition append_response_unsigned_fields (bytes : list byte) (operation_id : AcquireTenureOperationId)
    (request_digest : AcquireTenureRequestDigest) (client_nonce : list byte)
    (proof : WriterTenureProof) (proof_digest : Digest32) : list byte :=
  let auth := proof_authority proof in
  let claim := proof_claim proof in
  let bytes := append_tlv bytes 1 (vec_to_list (acquire_operation_bytes operation_id)) in
  let bytes :=
    append_tlv bytes 2 (vec_to_list (digest_bytes (acquire_request_digest_value request_digest))) in
  let bytes := append_tlv bytes 3 client_nonce in
  let bytes := append_tlv bytes 4 (vec_to_list (authority_bytes (authority auth))) in
  let bytes := append_tlv bytes 5 (vec_to_list (key_bytes (key auth))) in
  let bytes := append_tlv bytes 6 (be_bytes 2 (algorithm_value (algorithm auth))) in
  let bytes := append_tlv bytes 7 (be_bytes 2 (algorithm_version auth)) in
  let bytes := append_tlv bytes 8 (vec_to_list (scope_bytes (claim_source_scope claim))) in
  let bytes := append_tlv bytes 9 (vec_to_list (writer_bytes (claim_writer claim))) in
  let bytes := append_tlv bytes 10 (be_bytes 8 (epoch_value (claim_epoch claim))) in
  let bytes :=
    append_tlv bytes 11 (be_bytes 8 (epoch_value (claim_supersedes_through_epoch claim))) in
  let bytes := append_tlv bytes 12 (proof_nonce proof) in
  let bytes := append_tlv bytes 13 (proof_signature proof) in
  append_tlv bytes 14 (vec_to_list (digest_bytes proof_digest)).

Definition build_response_unsigned_bytes (operation_id : AcquireTenureOperationId)
    (request_digest : AcquireTenureRequestDigest) (client_nonce : list byte)
    (proof : WriterTenureProof) (proof_digest : Digest32) : list byte :=
  let bytes := append_value_header [] ACQUIRE_RESPONSE_MAGIC ACQUIRE_TENURE_PROTOCOL_VERSION
    RESPONSE_UNSIGNED_FIELD_COUNT in
  append_response_unsigned_fields bytes operation_id request_digest client_nonce proof proof_digest.

Definition build_response_digest (operation_id : AcquireTenureOperationId)
    (request_digest : AcquireTenureRequestDigest) (client_nonce : list byte)
    (proof : WriterTenureProof) (proof_digest : Digest32) : Res AcquireTenureResponseDigest :=
  let unsigned :=
    build_response_unsigned_bytes operation_id request_digest client_nonce proof proof_digest in
  builder ← digest_builder RESPONSE_DIGEST_DOMAIN;
  builder ← add_digest_bytes builder unsigned;
  Ok (MkAcquireTenureResponseDigest (finish sha256 builder)).

Definition build_response_bytes (operation_id : AcquireTenureOperationId)
    (request_digest : AcquireTenureRequestDigest) (client_nonce : list byte)
    (proof : WriterTenureProof) (proof_digest : Digest32)
    (response_digest : AcquireTenureResponseDigest) : list byte :=
  let bytes := append_value_header [] ACQUIRE_RESPONSE_MAGIC ACQUIRE_TENURE_PROTOCOL_VERSION
    RESPONSE_FIELD_COUNT in
  let bytes :=
    append_response_unsigned_fields bytes operation_id request_digest client_nonce proof proof_digest in
  append_tlv bytes 15 (vec_to_list (digest_bytes (acquire_response_digest_value response_digest))).

Definition validate_proof_binding (request : AcquireTenureRequestV1) (proof : WriterTenureProof)
    : Res unit :=
  let claim := proof_claim proof in
  let intent := acq_intent (acq_draft request) in
  bail (at_new ATRequestBindingMismatch)
    when bool_decide (scope_bytes (claim_source_scope claim)
                      <> deployment_scope_bytes (intent_scope intent))
      || bool_decide (writer_bytes (claim_writer claim)
                      <> deployment_writer_bytes (intent_writer intent))
      || bool_decide (proof_nonce proof <> acq_client_nonce (acq_draft request));
  Ok tt.

Definition response_try_new (request : AcquireTenureRequestV1) (proof : WriterTenureProof)
    : Res AcquireTenureResponseV1 :=
  _ ← validate_proof_binding request proof;
  proof_digest ← map_err map_digest_error (envelope_digest sha256 proof);
  let operation_id := intent_operation_id (acq_intent (acq_draft request)) in
  let nonce := acq_client_nonce (acq_draft request) in
  response_digest ← build_response_digest operation_id (acq_request_digest request) nonce proof
    proof_digest;
  let canonical_bytes := build_response_bytes operation_id (acq_request_digest request) nonce proof
    proof_digest response_digest in
  bail (at_new ATResponseBoundExceeded)
    when (acq_max_response_payload_bytes (acq_draft request) <? len canonical_bytes)%N;
  bail (at_new ATMessageTooLarge)
    when (MAX_ACQUIRE_TENURE_RESPONSE_PAYLOAD_BYTES <? len canonical_bytes)%N;
  Ok (MkAcquireTenureResponse operation_id (acq_request_digest request) nonce proof proof_digest
        response_digest canonical_bytes).

Definition valid_response_field_length (tag length : N) : bool :=
  if bool_decide (tag ∈ [1; 4; 5; 8; 9]%N) then (length =? 16)%N
  else if bool_decide (tag ∈ [2; 14; 15]%N) then (length =? 32)%N
  else if (tag =? 3)%N then ((1 <=? length) && (length <=? MAX_ACQUIRE_TENURE_CLIENT_NONCE_BYTES))%N
  else if bool_decide (tag ∈ [6; 7]%N) then (length =? 2)%N
  else if bool_decide (tag ∈ [10; 11]%N) then (length =? 8)%N
  else if (tag =? 12)%N then ((1 <=? length) && (length <=? MAX_TENURE_NONCE_BYTES))%N
  else if (tag =? 13)%N then ((1 <=? length) && (length <=? MAX_TENURE_SIGNATURE_BYTES))%N
  else false.

(** The proof embedded in a response. *)
Definition decode_response_proof (fields : list (list byte)) : Res WriterTenureProof :=
  f4 ← fields_get fields 4; authority_ref ← read_array 16 f4 4;
  f5 ← fields_get fields 5; key_ref ← read_array 16 f5 5;
  f6 ← fields_get fields 6; algorithm ← read_u16 f6;
  algorithm ← map_err (fun _ => at_tag ATProofContract 6) (algorithm_try_new algorithm);
  f7 ← fields_get fields 7; version ← read_u16 f7;
  auth ← map_err (fun _ => at_tag ATProofContract 7)
    (authority_try_new (MkTenureAuthorityRef authority_ref) (MkTenureKeyRef key_ref) algorithm version);
  f8 ← fields_get fields 8; scope ← read_array 16 f8 8;
  f9 ← fields_get fields 9; writer ← read_array 16 f9 9;
  f10 ← fields_get fields 10; epoch ← read_u64 f10;
  f11 ← fields_get fields 11; supersedes ← read_u64 f11;
  claim ← map_err (fun _ => at_tag ATProofContract 10)
    (claim_try_new (MkSourceScopeRef scope) (MkPlanWriterRef writer) (MkPlanWriterEpoch epoch)
       (MkPlanWriterEpoch supersedes));
  f12 ← fields_get fields 12;
  f13 ← fields_get fields 13;
  map_err (fun _ => at_tag ATProofContract 13) (tenure_proof_try_new auth claim f12 f13).

Definition decode_acquire_response (bytes : list byte) : Res AcquireTenureResponseV1 :=
  fields ← parse_value bytes ACQUIRE_RESPONSE_MAGIC ACQUIRE_TENURE_PROTOCOL_VERSION
    RESPONSE_FIELD_COUNT MAX_ACQUIRE_TENURE_RESPONSE_PAYLOAD_BYTES valid_response_field_length;
  f1 ← fields_get fields 1; operation_id ← read_array 16 f1 1;
  let operation_id := MkAcquireTenureOperationId operation_id in
  f2 ← fields_get fields 2; request_digest ← read_array 32 f2 2;
  let request_digest := MkAcquireTenureRequestDigest (MkDigest32 request_digest) in
  proof ← decode_response_proof fields;
  f3 ← fields_get fields 3;
  bail (at_tag ATRequestBindingMismatch 3) when bool_decide (f3 <> proof_nonce proof);
  proof_digest ← map_err map_digest_error (envelope_digest sha256 proof);
  f14 ← fields_get fields 14; carried ← read_array 32 f14 14;
  bail (at_tag ATDerivedDigestMismatch 14) when bool_decide (proof_digest <> MkDigest32 carried);
  response_digest ← build_response_digest operation_id request_digest f3 proof proof_digest;
  f15 ← fields_get fields 15; carried ← read_array 32 f15 15;
  bail (at_tag ATDerivedDigestMismatch 15)
    when bool_decide (response_digest <> MkAcquireTenureResponseDigest (MkDigest32 carried));
  let canonical_bytes :=
    build_response_bytes operation_id request_digest f3 proof proof_digest response_digest in
  bail (at_new ATNonCanonicalMessage) when bool_decide (canonical_bytes <> bytes);
  Ok (MkAcquireTenureResponse operation_id request_digest f3 proof proof_digest response_digest
        canonical_bytes).

Definition validate_request_binding (self : AcquireTenureResponseV1) (request : AcquireTenureRequestV1)
    : Res unit :=
  bail (at_new ATRequestBindingMismatch)
    when bool_decide (rsp_operation_id self <> intent_operation_id (acq_intent (acq_draft request)))
      || bool_decide (rsp_request_digest self <> acq_request_digest request)
      || bool_decide (rsp_client_nonce self <> acq_client_nonce (acq_draft request));
  bail (at_new ATResponseBoundExceeded)
    when (acq_max_response_payload_bytes (acq_draft request) <? len (rsp_canonical_bytes self))%N;
  validate_proof_binding request (rsp_proof self).

Definition decode_for_request (bytes : list byte) (request : AcquireTenureRequestV1)
    : Res AcquireTenureResponseV1 :=
  response ← decode_acquire_response bytes;
  _ ← validate_request_binding response request;
  Ok response.

(** ** Transport frames *)

Inductive AcquireTenureFrameKind := FrameRequest | FrameResponse.
#[export] Instance AcquireTenureFrameKind_eq_dec : EqDecision AcquireTenureFrameKind.
Proof. solve_decision. Defined.
Definition frame_kind_u16 (k : AcquireTenureFrameKind) : N :=
  match k with FrameRequest => 1 | FrameResponse => 2 end.
Definition try_from_wire (value : N) : Res AcquireTenureFrameKind :=
  if (value =? 1)%N then Ok FrameRequest
  else if (value =? 2)%N then Ok FrameResponse
  else Err (at_new ATInvalidFrameKind).
Definition maximum_payload_bytes (k : AcquireTenureFrameKind) : N :=
  match k with
  | FrameRequest => MAX_ACQUIRE_TENURE_REQUEST_PAYLOAD_BYTES
  | FrameResponse => MAX_ACQUIRE_TENURE_RESPONSE_PAYLOAD_BYTES
  end.

Record AcquireTenureFrameHeaderV1 := MkAcquireTenureFrameHeader {
  frame_kind : AcquireTenureFrameKind;
  frame_payload_bytes : N;
}.
Definition decode_prefix (bytes : list byte) : Res AcquireTenureFrameHeaderV1 :=
  bail (at_new ATTruncated) when (len bytes <? ACQUIRE_TENURE_FRAME_HEADER_BYTES)%N;
  magic ← slice_range bytes 0 (len ACQUIRE_FRAME_MAGIC);
  bail (at_new ATInvalidMagic) when bool_decide (magic <> ACQUIRE_FRAME_MAGIC);
  version_bytes ← slice_range bytes 8 10;
  version ← read_u16 version_bytes;
  bail (at_new ATUnsupportedVersion) when negb (version =? ACQUIRE_TENURE_FRAME_VERSION)%N;
  kind_bytes ← slice_range bytes 10 12;
  kind ← read_u16 kind_bytes;
  kind ← try_from_wire kind;
  length_bytes ← slice_range bytes 12 16;
  payload_bytes ← read_u32 length_bytes;
  bail (at_new ATInvalidFieldLength) when (maximum_payload_bytes kind <? payload_bytes)%N;
  Ok (MkAcquireTenureFrameHeader kind payload_bytes).
Definition frame_bytes (self : AcquireTenureFrameHeaderV1) : Res N :=
  ok_or (checked_add u64_max ACQUIRE_TENURE_FRAME_HEADER_BYTES (frame_payload_bytes self))
    (at_new ATInvalidFieldLength).

Definition build_frame (kind : AcquireTenureFrameKind) (payload : list byte) : Res (list byte) :=
  (* [debug_assert!] *)
  if (len payload <=? maximum_payload_bytes kind)%N
  then Ok (ACQUIRE_FRAME_MAGIC ++ be_bytes 2 ACQUIRE_TENURE_FRAME_VERSION
           ++ be_bytes 2 (frame_kind_u16 kind) ++ be_bytes 4 (len payload mod 2 ^ 32) ++ payload)
  else Panic.
Definition decode_frame (frame : list byte) (expected_kind : AcquireTenureFrameKind) : Res (list byte) :=
  bail (at_new ATMessageTooLarge) when (MAX_ACQUIRE_TENURE_FRAME_BYTES <? len frame)%N;
  header ← decode_prefix frame;
  bail (at_new ATInvalidFrameKind) when bool_decide (frame_kind header <> expected_kind);
  expected_frame_bytes ← frame_bytes header;
  bail (at_new ATTruncated) when (len frame <? expected_frame_bytes)%N;
  bail (at_new ATTrailingBytes) when (expected_frame_bytes <? len frame)%N;
  slice_range frame ACQUIRE_TENURE_FRAME_HEADER_BYTES (len frame).

Definition encode_acquire_tenure_request_frame (request : AcquireTenureRequestV1) : Res (list byte) :=
  build_frame FrameRequest (acq_canonical_bytes request).
Definition decode_acquire_tenure_request_frame (frame : list byte) : Res AcquireTenureRequestV1 :=
  payload ← decode_frame frame FrameRequest; decode_acquire_request payload.
Definition encode_acquire_tenure_response_frame (response : AcquireTenureResponseV1) : Res (list byte) :=
  build_frame FrameResponse (rsp_canonical_bytes response).
Definition decode_acquire_tenure_response_frame_for_request (frame : list byte)
    (request : AcquireTenureRequestV1) : Res AcquireTenureResponseV1 :=
  payload ← decode_frame frame FrameResponse; decode_for_request payload request.
End protocol.

(** ** Field sequences of the messages *)

Definition acquire_fields (d : AcquireTenureRequestDraftV1) : list (list byte) :=
  [vec_to_list (deployment_scope_bytes (intent_scope (acq_intent d)));
   vec_to_list (deployment_writer_bytes (intent_writer (acq_intent d)));
   vec_to_list (acquire_operation_bytes (intent_operation_id (acq_intent d)));
   vec_to_list (principal_bytes (acq_controller_principal d));
   vec_to_list (controller_key_bytes (acq_controller_key d));
   vec_to_list (digest_bytes (fingerprint_value (acq_controller_fingerprint d)));
   be_bytes 2 ACQUIRE_TENURE_ED25519_ALGORITHM; be_bytes 2 ACQUIRE_TENURE_ED25519_ALGORITHM_VERSION;
   acq_client_nonce d; be_bytes 4 (acq_max_response_payload_bytes d);
   vec_to_list (digest_bytes (intent_digest_value (acq_intent_digest d)))].
Definition response_fields (o : AcquireTenureOperationId) (q : AcquireTenureRequestDigest)
    (nonce : list byte) (p : WriterTenureProof) (pd : Digest32) : list (list byte) :=
  [vec_to_list (acquire_operation_bytes o);
   vec_to_list (digest_bytes (acquire_request_digest_value q)); nonce]
  ++ envelope_fields p ++ [vec_to_list (digest_bytes pd)].

Lemma append_request_unsigned_fields_eq b d :
  append_request_unsigned_fields b d = b ++ encode_tlvs 1 (acquire_fields d).
Proof.
  unfold append_request_unsigned_fields, acquire_fields. cbv zeta. cbn [encode_tlvs].
  rewrite !append_tlv_app, <-!app_assoc, app_nil_r. reflexivity.
Qed.
Lemma append_response_unsigned_fields_eq b o q n p pd :
  append_response_unsigned_fields b o q n p pd = b ++ encode_tlvs 1 (response_fields o q n p pd).
Proof.
  unfold append_response_unsigned_fields, response_fields, envelope_fields. cbv zeta.
  cbn [app encode_tlvs]. rewrite !append_tlv_app, <-!app_assoc, app_nil_r. reflexivity.
Qed.
Lemma build_request_bytes_eq d s :
  build_request_bytes d s =
  message ACQUIRE_REQUEST_MAGIC ACQUIRE_TENURE_PROTOCOL_VERSION REQUEST_FIELD_COUNT
    (acquire_fields d ++ [s]).
Proof.
  unfold build_request_bytes, append_value_header, message.
  rewrite append_request_unsigned_fields_eq, append_tlv_app, encode_tlvs_snoc, <-!app_assoc.
  reflexivity.
Qed.
Lemma build_response_bytes_eq o q n p pd rd :
  build_response_bytes o q n p pd rd =
  message ACQUIRE_RESPONSE_MAGIC ACQUIRE_TENURE_PROTOCOL_VERSION RESPONSE_FIELD_COUNT
    (response_fields o q n p pd ++ [vec_to_list (digest_bytes (acquire_response_digest_value rd))]).
Proof.
  unfold build_response_bytes, append_value_header, message.
  rewrite append_response_unsigned_fields_eq, append_tlv_app, encode_tlvs_snoc, <-!app_assoc.
  reflexivity.
Qed.

(** ** What the constructors accept *)

Lemma validate_nonzero_Ok b tag u : validate_nonzero b tag = Ok u <-> all_zero b = false.
Proof. unfold validate_nonzero. destruct (all_zero b), u; simpl; done. Qed.
Lemma validate_client_nonce_Ok n tag u :
  validate_client_nonce n tag = Ok u <-> (1 <= len n <= MAX_ACQUIRE_TENURE_CLIENT_NONCE_BYTES)%N.
Proof.
  unfold validate_client_nonce.
  destruct (N.leb_spec 1 (len n)), (N.leb_spec (len n) MAX_ACQUIRE_TENURE_CLIENT_NONCE_BYTES), u;
    simpl; split; done || lia.
Qed.
Lemma validate_response_bound_Ok b tag u :
  validate_response_bound b tag = Ok u <->
  (MIN_ACQUIRE_TENURE_RESPONSE_PAYLOAD_BYTES <= b <= MAX_ACQUIRE_TENURE_RESPONSE_PAYLOAD_BYTES)%N.
Proof.
  unfold validate_response_bound.
  destruct (N.leb_spec MIN_ACQUIRE_TENURE_RESPONSE_PAYLOAD_BYTES b),
    (N.leb_spec b MAX_ACQUIRE_TENURE_RESPONSE_PAYLOAD_BYTES), u; simpl; split; done || lia.
Qed.
Lemma validate_ed25519_signature_Ok s tag u :
  validate_ed25519_signature s tag = Ok u <-> len s = ACQUIRE_TENURE_ED25519_SIGNATURE_BYTES.
Proof.
  unfold validate_ed25519_signature.
  destruct (N.eqb_spec (len s) ACQUIRE_TENURE_ED25519_SIGNATURE_BYTES), u; simpl; done.
Qed.
Lemma read_array_vec n (v : vec byte n) tag : read_array n (vec_to_list v) tag = Ok v.
Proof. unfold read_array. by rewrite vec_of_list_to_list. Qed.

Section facts.
Context (sha256 : list byte -> bytes32).

(** A request that the constructors built. *)
Definition request_built (r : AcquireTenureRequestV1) : Prop :=
  let d := acq_draft r in
  acquire_draft_try_new sha256 (acq_intent d) (acq_controller_principal d) (acq_controller_key d)
    (acq_controller_fingerprint d) (acq_client_nonce d) (acq_max_response_payload_bytes d) = Ok d /\
  finalize_ed25519 sha256 d (acq_auth_signature r) = Ok r.

Definition draft_wf (d : AcquireTenureRequestDraftV1) : Prop :=
  all_zero (vec_to_list (deployment_scope_bytes (intent_scope (acq_intent d)))) = false /\
  all_zero (vec_to_list (deployment_writer_bytes (intent_writer (acq_intent d)))) = false /\
  all_zero (vec_to_list (acquire_operation_bytes (intent_operation_id (acq_intent d)))) = false /\
  all_zero (vec_to_list (principal_bytes (acq_controller_principal d))) = false /\
  all_zero (vec_to_list (controller_key_bytes (acq_controller_key d))) = false /\
  all_zero (vec_to_list (digest_bytes (fingerprint_value (acq_controller_fingerprint d)))) = false /\
  (1 <= len (acq_client_nonce d) <= MAX_ACQUIRE_TENURE_CLIENT_NONCE_BYTES)%N /\
  (MIN_ACQUIRE_TENURE_RESPONSE_PAYLOAD_BYTES <= acq_max_response_payload_bytes d
     <= MAX_ACQUIRE_TENURE_RESPONSE_PAYLOAD_BYTES)%N.

Lemma acquire_draft_try_new_Ok i p k f n m d :
  acquire_draft_try_new sha256 i p k f n m = Ok d <->
  draft_wf d /\ intent_digest sha256 i = Ok (acq_intent_digest d) /\
  d = MkAcquireTenureRequestDraft i p k f n m (acq_intent_digest d).
Proof.
  unfold acquire_draft_try_new, draft_wf. split.
  - intros H. rust_inv. cbn.
    repeat match goal with
    | H : validate_nonzero _ _ = Ok _ |- _ => apply validate_nonzero_Ok in H
    | H : validate_client_nonce _ _ = Ok _ |- _ => apply validate_client_nonce_Ok in H
    | H : validate_response_bound _ _ = Ok _ |- _ => apply validate_response_bound_Ok in H
    end. done.
  - destruct d as [i' p' k' f' n' m' g]. cbn. intros (H & Hd & [= -> -> -> -> -> ->]).
    destruct H as (H1 & H2 & H3 & H4 & H5 & H6 & H7 & H8).
    rewrite (proj2 (validate_nonzero_Ok _ 1 tt) H1), (proj2 (validate_nonzero_Ok _ 2 tt) H2),
      (proj2 (validate_nonzero_Ok _ 3 tt) H3), (proj2 (validate_nonzero_Ok _ 4 tt) H4),
      (proj2 (validate_nonzero_Ok _ 5 tt) H5), (proj2 (validate_nonzero_Ok _ 6 tt) H6),
      (proj2 (validate_client_nonce_Ok _ 9 tt) H7), (proj2 (validate_response_bound_Ok _ 10 tt) H8), Hd.
    done.
Qed.
Lemma finalize_Ok d s r :
  finalize_ed25519 sha256 d s = Ok r <->
  len s = ACQUIRE_TENURE_ED25519_SIGNATURE_BYTES /\
  (len (build_request_bytes d s) <= MAX_ACQUIRE_TENURE_REQUEST_PAYLOAD_BYTES)%N /\
  digest_complete_request sha256 (build_request_bytes d s) = Ok (acq_request_digest r) /\
  r = MkAcquireTenureRequest d s (build_request_bytes d s) (acq_request_digest r).
Proof.
  unfold finalize_ed25519, request_from_draft. cbv zeta. generalize (build_request_bytes d s).
  intros w. split.
  - intros H. rust_inv. rewrite validate_ed25519_signature_Ok in *. done.
  - intros (Hs & Hl & Hd & Hr). rewrite (proj2 (validate_ed25519_signature_Ok _ 12 tt) Hs).
    cbn [mbind result_mbind]. rewrite (proj2 (N.ltb_ge _ _)) by done. cbn [fail_if mbind result_mbind].
    rewrite Hd. cbn [mbind result_mbind]. by rewrite <-Hr.
Qed.

(** ** The request codec *)

Lemma valid_request_field_length_bound tag n : valid_request_field_length tag n = true -> (n <= u32_max)%N.
Proof.
  unfold valid_request_field_length, MAX_ACQUIRE_TENURE_CLIENT_NONCE_BYTES,
    ACQUIRE_TENURE_ED25519_SIGNATURE_BYTES, u32_max.
  repeat case_bool_decide; repeat case_match; rewrite ?andb_true_iff, ?N.eqb_eq, ?N.leb_le; done || lia.
Qed.
Lemma valid_response_field_length_bound tag n : valid_response_field_length tag n = true -> (n <= u32_max)%N.
Proof.
  unfold valid_response_field_length, MAX_ACQUIRE_TENURE_CLIENT_NONCE_BYTES, MAX_TENURE_NONCE_BYTES,
    MAX_TENURE_SIGNATURE_BYTES, u32_max.
  repeat case_bool_decide; repeat case_match; rewrite ?andb_true_iff, ?N.eqb_eq, ?N.leb_le; done || lia.
Qed.

Lemma acquire_fields_valid d s :
  draft_wf d -> len s = ACQUIRE_TENURE_ED25519_SIGNATURE_BYTES ->
  tlv_valid valid_request_field_length 1 (acquire_fields d ++ [s]) = true.
Proof.
  intros (_ & _ & _ & _ & _ & _ & Hn & _) Hs. unfold acquire_fields. cbn [app tlv_valid].
  rewrite !len_be_bytes, !len_vec, Hs.
  repeat match goal with |- (_ && _) = true => apply andb_true_intro; split end; try reflexivity.
  apply andb_true_intro; rewrite !N.leb_le; lia.
Qed.

Ltac tag_pos := vm_compute; discriminate.
(** Reads the fields of an explicit sequence. *)
Ltac get_fields :=
  repeat (match goal with
    | |- (fields_get ?fs ?tag ≫= _) = _ =>
        erewrite (fields_get_lookup fs tag _ ltac:(tag_pos) eq_refl)
    | |- (read_array _ (vec_to_list _) _ ≫= _) = _ => rewrite read_array_vec
    | |- (read_u16 (be_bytes 2 _) ≫= _) = _ => rewrite read_u16_exact by first [unfold u16_max in *; lia | tag_pos]
    | |- (read_u32 (be_bytes 4 _) ≫= _) = _ => rewrite read_u32_exact by (unfold u32_max in *; lia)
    | |- (read_u64 (be_bytes 8 _) ≫= _) = _ => rewrite read_u64_exact by (unfold u64_max in *; lia)
    end; cbn [mbind result_mbind map_err]).

Lemma intent_eta i :
  MkAcquireTenureIntent (MkDeploymentScopeId (deployment_scope_bytes (intent_scope i)))
    (MkDeploymentWriterRef (deployment_writer_bytes (intent_writer i)))
    (MkAcquireTenureOperationId (acquire_operation_bytes (intent_operation_id i))) = i.
Proof. by destruct i as [[] [] []]. Qed.
Lemma principal_eta p : MkPrincipalRef (principal_bytes p) = p.
Proof. by destruct p. Qed.
Lemma controller_key_eta k : MkControllerAcquireKeyRef (controller_key_bytes k) = k.
Proof. by destruct k. Qed.
Lemma fingerprint_eta f :
  MkControllerPublicKeyFingerprint (MkDigest32 (digest_bytes (fingerprint_value f))) = f.
Proof. by destruct f as [[]]. Qed.
Lemma intent_digest_eta g :
  MkAcquireTenureIntentDigest (MkDigest32 (digest_bytes (intent_digest_value g))) = g.
Proof. by destruct g as [[]]. Qed.

(** The reads of the decoder, on the fields of a draft. *)
Lemma decode_request_fields r bytes :
  request_built r -> acq_canonical_bytes r = bytes ->
  parse_value bytes ACQUIRE_REQUEST_MAGIC ACQUIRE_TENURE_PROTOCOL_VERSION REQUEST_FIELD_COUNT
    MAX_ACQUIRE_TENURE_REQUEST_PAYLOAD_BYTES valid_request_field_length =
    Ok (acquire_fields (acq_draft r) ++ [acq_auth_signature r]) ->
  decode_acquire_request sha256 bytes = Ok r.
Proof.
  intros [Hd Hr] Hb Hp. unfold decode_acquire_request. rewrite Hp. clear Hp.
  pose proof Hd as (Hwf & _ & _)%acquire_draft_try_new_Ok.
  generalize dependent (acq_auth_signature r). intros s Hr. revert Hd Hr Hwf.
  generalize (acq_draft r). intros d Hd Hr Hwf.
  pose proof Hwf as (H1 & H2 & H3 & H4 & H5 & H6 & H7 & H8).
  assert (acq_max_response_payload_bytes d <= u32_max)%N as Hm
    by (etrans; [apply H8|tag_pos]).
  cbn [mbind result_mbind]. get_fields.
  rewrite (proj2 (validate_nonzero_Ok _ 1 tt) H1), (proj2 (validate_nonzero_Ok _ 2 tt) H2),
    (proj2 (validate_nonzero_Ok _ 3 tt) H3), (proj2 (validate_nonzero_Ok _ 4 tt) H4),
    (proj2 (validate_nonzero_Ok _ 5 tt) H5), (proj2 (validate_nonzero_Ok _ 6 tt) H6).
  cbn [mbind result_mbind].
  get_fields. rewrite N.eqb_refl. cbn [negb fail_if mbind result_mbind]. get_fields.
  rewrite N.eqb_refl. cbn [negb fail_if mbind result_mbind]. get_fields.
  rewrite intent_eta, principal_eta, controller_key_eta, fingerprint_eta, Hd.
  cbn [mbind result_mbind]. get_fields. rewrite intent_digest_eta, bool_decide_ne_refl.
  cbn [fail_if mbind result_mbind]. get_fields. rewrite Hr. cbn [mbind result_mbind].
  by rewrite Hb, bool_decide_ne_refl.
Qed.
Lemma decode_acquire_request_built r :
  request_built r -> decode_acquire_request sha256 (acq_canonical_bytes r) = Ok r.
Proof.
  intros [Hd Hr]. apply decode_request_fields; [done|done|].
  pose proof Hr as (Hs & Hl & _ & Hw)%finalize_Ok. pose proof Hd as (Hwf & _ & _)%acquire_draft_try_new_Ok.
  rewrite build_request_bytes_eq in Hl, Hw.
  replace (acq_canonical_bytes r) with (message ACQUIRE_REQUEST_MAGIC ACQUIRE_TENURE_PROTOCOL_VERSION
    REQUEST_FIELD_COUNT (acquire_fields (acq_draft r) ++ [acq_auth_signature r])) by (by rewrite Hw).
  apply parse_message_encode; [apply valid_request_field_length_bound|tag_pos..|reflexivity|
    by apply acquire_fields_valid|done].
Qed.

Lemma decode_acquire_request_Ok bytes r :
  decode_acquire_request sha256 bytes = Ok r <-> request_built r /\ acq_canonical_bytes r = bytes.
Proof.
  split.
  - unfold decode_acquire_request. intros H. rust_inv.
    repeat match goal with H : ~ (_ <> _) |- _ => apply dec_stable in H end.
    match goal with H : acquire_draft_try_new _ _ _ _ _ _ _ = Ok _ |- _ => rename H into Hd end.
    match goal with H : finalize_ed25519 _ _ _ = Ok _ |- _ => rename H into Hf end.
    pose proof Hf as (_ & _ & _ & Hr)%finalize_Ok. pose proof Hd as (_ & _ & Hdr)%acquire_draft_try_new_Ok.
    split; [|done]. unfold request_built. rewrite Hr.
    cbn [acq_draft acq_auth_signature]. rewrite <-Hr. split; [|done]. rewrite Hdr.
    cbn [acq_intent acq_controller_principal acq_controller_key acq_controller_fingerprint
      acq_client_nonce acq_max_response_payload_bytes acq_intent_digest]. by rewrite <-Hdr.
  - intros [Hb <-]. by apply decode_acquire_request_built.
Qed.

(** ** The response codec *)

Lemma decode_response_proof_wf fields p : decode_response_proof fields = Ok p -> proof_wf p.
Proof.
  unfold decode_response_proof. intros H. rust_inv.
  repeat match goal with
  | H : read_u16 _ = Ok _ |- _ => apply read_u16_bound in H
  | H : read_u64 _ = Ok _ |- _ => apply read_u64_bound in H
  | H : algorithm_try_new _ = Ok _ |- _ => apply algorithm_try_new_Ok in H as [-> ?]
  | H : authority_try_new _ _ _ _ = Ok _ |- _ => apply authority_try_new_Ok in H as [-> ?]
  | H : claim_try_new _ _ _ _ = Ok _ |- _ => apply claim_try_new_Ok in H as [-> ?]
  | H : tenure_proof_try_new _ _ _ _ = Ok _ |- _ => apply tenure_proof_try_new_Ok in H as [-> ?]
  end.
  unfold proof_wf. cbn in *. lia.
Qed.
Lemma response_fields_valid o q p pd rd :
  proof_wf p ->
  tlv_valid valid_response_field_length 1
    (response_fields o q (proof_nonce p) p pd
     ++ [vec_to_list (digest_bytes (acquire_response_digest_value rd))]) = true.
Proof.
  intros Hp. unfold response_fields, envelope_fields. cbv zeta. cbn [app tlv_valid].
  rewrite !len_be_bytes, !len_vec. unfold proof_wf in Hp.
  repeat match goal with |- (_ && _) = true => apply andb_true_intro; split end; try reflexivity.
  all: apply andb_true_intro; rewrite !N.leb_le;
    unfold MAX_TENURE_NONCE_BYTES, MAX_ACQUIRE_TENURE_CLIENT_NONCE_BYTES in *; lia.
Qed.
Lemma decode_response_proof_readback o q n p pd rd :
  proof_wf p ->
  decode_response_proof (response_fields o q n p pd
    ++ [vec_to_list (digest_bytes (acquire_response_digest_value rd))]) = Ok p.
Proof.
  intros Hp. pose proof Hp as Hp'. unfold proof_wf in Hp'. unfold decode_response_proof.
  get_fields. rewrite (proj2 (algorithm_try_new_Ok _ _)) by (split; [reflexivity|lia]).
  cbn [map_err mbind result_mbind]. get_fields.
  rewrite (proj2 (authority_try_new_Ok _ _ _ _ _)) by (split; [reflexivity|lia]).
  cbn [map_err mbind result_mbind]. get_fields.
  rewrite (proj2 (claim_try_new_Ok _ _ _ _ _)) by (split; [reflexivity|cbn; lia]).
  cbn [map_err mbind result_mbind]. get_fields.
  rewrite (proj2 (tenure_proof_try_new_Ok _ _ _ _ _)) by (split; [reflexivity|lia]).
  cbn [map_err]. by rewrite proof_eta.
Qed.

(** What a decoded response is made of. *)
Lemma decode_acquire_response_inv bytes s :
  decode_acquire_response sha256 bytes = Ok s ->
  proof_wf (rsp_proof s) /\ rsp_client_nonce s = proof_nonce (rsp_proof s) /\
  envelope_digest sha256 (rsp_proof s) = Ok (rsp_proof_digest s) /\
  build_response_digest sha256 (rsp_operation_id s) (rsp_request_digest s) (rsp_client_nonce s)
    (rsp_proof s) (rsp_proof_digest s) = Ok (rsp_response_digest s) /\
  rsp_canonical_bytes s =
    build_response_bytes (rsp_operation_id s) (rsp_request_digest s) (rsp_client_nonce s)
      (rsp_proof s) (rsp_proof_digest s) (rsp_response_digest s) /\
  rsp_canonical_bytes s = bytes /\ (len bytes <= MAX_ACQUIRE_TENURE_RESPONSE_PAYLOAD_BYTES)%N.
Proof.
  unfold decode_acquire_response. intros H. rust_inv.
  repeat match goal with
  | H : ~ (_ <> _) |- _ => apply dec_stable in H
  | H : decode_response_proof _ = Ok _ |- _ => apply decode_response_proof_wf in H
  | H : parse_value _ _ _ _ _ _ = Ok _ |- _ => apply parse_message_bound in H
  end.
  cbn [rsp_proof rsp_client_nonce rsp_proof_digest rsp_operation_id rsp_request_digest
    rsp_response_digest rsp_canonical_bytes]. done.
Qed.
Lemma parse_response_bytes o q p pd rd :
  proof_wf p ->
  (len (build_response_bytes o q (proof_nonce p) p pd rd) <= MAX_ACQUIRE_TENURE_RESPONSE_PAYLOAD_BYTES)%N ->
  parse_value (build_response_bytes o q (proof_nonce p) p pd rd) ACQUIRE_RESPONSE_MAGIC
    ACQUIRE_TENURE_PROTOCOL_VERSION RESPONSE_FIELD_COUNT MAX_ACQUIRE_TENURE_RESPONSE_PAYLOAD_BYTES
    valid_response_field_length =
  Ok (response_fields o q (proof_nonce p) p pd
      ++ [vec_to_list (digest_bytes (acquire_response_digest_value rd))]).
Proof.
  intros Hp. rewrite build_response_bytes_eq. unfold parse_value. intros Hl.
  apply parse_message_encode; [apply valid_response_field_length_bound|tag_pos..|reflexivity|
    by apply response_fields_valid|done].
Qed.
Lemma digest_eta d : MkDigest32 (digest_bytes d) = d.
Proof. by destruct d. Qed.
Lemma operation_eta o : MkAcquireTenureOperationId (acquire_operation_bytes o) = o.
Proof. by destruct o. Qed.
Lemma request_digest_eta q :
  MkAcquireTenureRequestDigest (MkDigest32 (digest_bytes (acquire_request_digest_value q))) = q.
Proof. by destruct q as [[]]. Qed.
Lemma response_digest_eta q :
  MkAcquireTenureResponseDigest (MkDigest32 (digest_bytes (acquire_response_digest_value q))) = q.
Proof. by destruct q as [[]]. Qed.
Lemma response_eta s :
  MkAcquireTenureResponse (rsp_operation_id s) (rsp_request_digest s) (rsp_client_nonce s) (rsp_proof s)
    (rsp_proof_digest s) (rsp_response_digest s) (rsp_canonical_bytes s) = s.
Proof. by destruct s. Qed.
(** The reads of the decoder, on the fields of a response. *)
Lemma decode_response_fields s bytes :
  proof_wf (rsp_proof s) -> rsp_client_nonce s = proof_nonce (rsp_proof s) ->
  envelope_digest sha256 (rsp_proof s) = Ok (rsp_proof_digest s) ->
  build_response_digest sha256 (rsp_operation_id s) (rsp_request_digest s) (rsp_client_nonce s)
    (rsp_proof s) (rsp_proof_digest s) = Ok (rsp_response_digest s) ->
  build_response_bytes (rsp_operation_id s) (rsp_request_digest s) (rsp_client_nonce s)
    (rsp_proof s) (rsp_proof_digest s) (rsp_response_digest s) = rsp_canonical_bytes s ->
  parse_value bytes ACQUIRE_RESPONSE_MAGIC ACQUIRE_TENURE_PROTOCOL_VERSION
    RESPONSE_FIELD_COUNT MAX_ACQUIRE_TENURE_RESPONSE_PAYLOAD_BYTES valid_response_field_length =
    Ok (response_fields (rsp_operation_id s) (rsp_request_digest s) (rsp_client_nonce s) (rsp_proof s)
          (rsp_proof_digest s)
        ++ [vec_to_list (digest_bytes (acquire_response_digest_value (rsp_response_digest s)))]) ->
  rsp_canonical_bytes s = bytes ->
  decode_acquire_response sha256 bytes = Ok s.
Proof.
  intros Hp Hn Hpd Hrd Hw Hparse Hb.
  unfold decode_acquire_response. rewrite Hparse. clear Hparse. cbn [mbind result_mbind]. get_fields.
  rewrite decode_response_proof_readback by done. cbn [mbind result_mbind]. get_fields.
  rewrite Hn, bool_decide_ne_refl. cbn [fail_if mbind result_mbind]. rewrite Hpd.
  cbn [map_err mbind result_mbind]. get_fields.
  rewrite (digest_eta (rsp_proof_digest s)), bool_decide_ne_refl, bind_pass. cbv beta.
  rewrite operation_eta, request_digest_eta, <-Hn, Hrd, bind_Ok_l. cbv beta. get_fields.
  rewrite response_digest_eta, bool_decide_ne_refl, bind_pass. cbv beta zeta.
  rewrite Hw, Hb, bool_decide_ne_refl, bind_pass. cbv beta. rewrite <-Hb.
  rewrite response_eta. reflexivity.
Qed.

Lemma validate_proof_binding_Ok q p u :
  validate_proof_binding q p = Ok u <->
  scope_bytes (claim_source_scope (proof_claim p)) =
    deployment_scope_bytes (intent_scope (acq_intent (acq_draft q))) /\
  writer_bytes (claim_writer (proof_claim p)) =
    deployment_writer_bytes (intent_writer (acq_intent (acq_draft q))) /\
  proof_nonce p = acq_client_nonce (acq_draft q).
Proof.
  unfold validate_proof_binding. destruct u. split_checks.
  rewrite fail_if_Ok, !orb_false_iff, !bool_decide_eq_false. split.
  - intros ([[H1 H2] H3] & _). apply dec_stable in H1, H2, H3. done.
  - intros (-> & -> & ->). naive_solver.
Qed.
Lemma validate_request_binding_Ok s q u :
  validate_request_binding s q = Ok u <->
  rsp_operation_id s = intent_operation_id (acq_intent (acq_draft q)) /\
  rsp_request_digest s = acq_request_digest q /\
  rsp_client_nonce s = acq_client_nonce (acq_draft q) /\
  (len (rsp_canonical_bytes s) <= acq_max_response_payload_bytes (acq_draft q))%N /\
  validate_proof_binding q (rsp_proof s) = Ok u.
Proof.
  unfold validate_request_binding. split_checks.
  rewrite !fail_if_Ok, !orb_false_iff, !bool_decide_eq_false, N.ltb_ge. split.
  - intros ([[H1 H2] H3] & H4 & H5). apply dec_stable in H1, H2, H3. done.
  - intros (-> & -> & -> & H4 & H5). naive_solver.
Qed.

(** What [response_try_new] builds. *)
Lemma response_try_new_Ok q p s :
  response_try_new sha256 q p = Ok s <->
  validate_proof_binding q p = Ok tt /\
  rsp_operation_id s = intent_operation_id (acq_intent (acq_draft q)) /\
  rsp_request_digest s = acq_request_digest q /\ rsp_client_nonce s = acq_client_nonce (acq_draft q) /\
  rsp_proof s = p /\ envelope_digest sha256 p = Ok (rsp_proof_digest s) /\
  build_response_digest sha256 (rsp_operation_id s) (rsp_request_digest s) (rsp_client_nonce s)
    (rsp_proof s) (rsp_proof_digest s) = Ok (rsp_response_digest s) /\
  rsp_canonical_bytes s =
    build_response_bytes (rsp_operation_id s) (rsp_request_digest s) (rsp_client_nonce s)
      (rsp_proof s) (rsp_proof_digest s) (rsp_response_digest s) /\
  (len (rsp_canonical_bytes s) <= acq_max_response_payload_bytes (acq_draft q))%N /\
  (len (rsp_canonical_bytes s) <= MAX_ACQUIRE_TENURE_RESPONSE_PAYLOAD_BYTES)%N.
Proof.
  unfold response_try_new. split.
  - intros H. rust_inv.
    match goal with H : validate_proof_binding _ _ = Ok ?u |- _ => destruct u end.
    cbn [rsp_proof rsp_client_nonce rsp_proof_digest rsp_operation_id rsp_request_digest
      rsp_response_digest rsp_canonical_bytes]. done.
  - intros (Hb & Ho & Hq & Hn & <- & Hpd & Hrd & Hw & Hl & Hl').
    rewrite Hb, bind_Ok_l, Hpd. cbv beta. cbn [map_err]. rewrite bind_Ok_l. cbv beta zeta.
    rewrite <-Ho, <-Hq, <-Hn, Hrd, bind_Ok_l. cbv beta zeta. rewrite <-Hw.
    rewrite (proj2 (N.ltb_ge _ _) Hl), bind_pass. cbv beta.
    rewrite (proj2 (N.ltb_ge _ _) Hl'), bind_pass. cbv beta. by rewrite response_eta.
Qed.
Lemma decode_for_request_Ok bytes q s :
  decode_for_request sha256 bytes q = Ok s <->
  proof_wf (rsp_proof s) /\ response_try_new sha256 q (rsp_proof s) = Ok s /\
  rsp_canonical_bytes s = bytes.
Proof.
  unfold decode_for_request. split.
  - intros (s' & Hs & ([] & Hb & [= <-])%bind_Ok)%bind_Ok. apply validate_request_binding_Ok in Hb as (Ho & Hq & Hn & Hl & Hb).
    apply decode_acquire_response_inv in Hs as (Hp & Hn' & Hpd & Hrd & Hw & Hbytes & Hmax).
    split; [done|]. split; [|done]. apply response_try_new_Ok. rewrite Hbytes in *. done.
  - intros (Hp & Hs & <-).
    apply response_try_new_Ok in Hs as (Hb & Ho & Hq & Hn & _ & Hpd & Hrd & Hw & Hl & Hl').
    pose proof Hb as (_ & _ & Hpn)%validate_proof_binding_Ok.
    assert (decode_acquire_response sha256 (rsp_canonical_bytes s) = Ok s) as ->.
    { apply decode_response_fields; try done; [congruence|].
      rewrite Hn, <-Hpn in Hw. rewrite Hw in Hl' |- *. rewrite Hn, <-Hpn. by apply parse_response_bytes. }
    rewrite bind_Ok_l. by rewrite (proj2 (validate_request_binding_Ok s q tt)).
Qed.
End facts.

(** ** Freedom from panics *)

Section safe.
Context (sha256 : list byte -> bytes32).

#[local] Hint Extern 1 (fields_get _ _ <> Panic) =>
  eapply parsed_get_safe; [eassumption|reflexivity] : no_panic.
#[local] Hint Extern 1 (read_u16 _ <> Panic) =>
  eapply read_u16_safe, parsed_get_len; [eassumption|..|eassumption|]; reflexivity : no_panic.
#[local] Hint Extern 1 (read_u32 _ <> Panic) =>
  eapply read_u32_safe, parsed_get_len; [eassumption|..|eassumption|]; reflexivity : no_panic.
#[local] Hint Extern 1 (read_u64 _ <> Panic) =>
  eapply read_u64_safe, parsed_get_len; [eassumption|..|eassumption|]; reflexivity : no_panic.

Lemma parse_value_parsed bytes magic v c m valid fields :
  parse_value bytes magic v c m valid = Ok fields -> parsed c valid fields.
Proof.
  intros H. pose proof (parse_message_safe (E:=AcquireTenureProtocolError) magic v c m valid bytes) as Hs.
  unfold parse_value in H. by rewrite H in Hs.
Qed.
Lemma parse_value_safe bytes magic v c m valid : parse_value bytes magic v c m valid <> Panic.
Proof.
  intros H. pose proof (parse_message_safe (E:=AcquireTenureProtocolError) magic v c m valid bytes) as Hs.
  unfold parse_value in H. by rewrite H in Hs.
Qed.
Lemma read_array_safe n l tag : read_array n l tag <> Panic.
Proof. apply no_panic_ok_or. Qed.
Lemma digest_builder_safe d : digest_builder d <> Panic.
Proof. unfold digest_builder. no_panic. Qed.
Lemma add_digest_bytes_safe b x : add_digest_bytes b x <> Panic.
Proof. unfold add_digest_bytes. no_panic. Qed.
#[local] Hint Resolve parse_value_safe read_array_safe digest_builder_safe add_digest_bytes_safe
  envelope_digest_safe : no_panic.

Lemma acquire_draft_safe i p k f n m : acquire_draft_try_new sha256 i p k f n m <> Panic.
Proof.
  unfold acquire_draft_try_new, validate_nonzero, validate_client_nonce, validate_response_bound,
    intent_digest. no_panic.
Qed.
Lemma finalize_safe d s : finalize_ed25519 sha256 d s <> Panic.
Proof.
  unfold finalize_ed25519, request_from_draft, validate_ed25519_signature, digest_complete_request.
  no_panic.
Qed.
#[local] Hint Resolve acquire_draft_safe finalize_safe : no_panic.
Lemma decode_acquire_request_safe bytes : decode_acquire_request sha256 bytes <> Panic.
Proof.
  unfold decode_acquire_request, validate_nonzero.
  apply no_panic_bind; [auto with no_panic|intros fields Hp%parse_value_parsed]. no_panic.
Qed.
Lemma decode_response_proof_safe fields :
  parsed RESPONSE_FIELD_COUNT valid_response_field_length fields -> decode_response_proof fields <> Panic.
Proof.
  intros Hp. unfold decode_response_proof, algorithm_try_new, authority_try_new, claim_try_new,
    tenure_proof_try_new, validate_tenure_nonce. no_panic.
Qed.
Lemma decode_acquire_response_safe bytes : decode_acquire_response sha256 bytes <> Panic.
Proof.
  unfold decode_acquire_response, build_response_digest.
  apply no_panic_bind; [auto with no_panic|intros fields Hp%parse_value_parsed].
  do 4 (apply no_panic_bind; [solve [eauto 3 with no_panic | apply read_array_safe]|intros ? ?]).
  apply no_panic_bind; [by apply decode_response_proof_safe|intros ? ?]. no_panic.
Qed.
Lemma decode_for_request_safe bytes q : decode_for_request sha256 bytes q <> Panic.
Proof.
  unfold decode_for_request, validate_request_binding, validate_proof_binding.
  apply no_panic_bind; [apply decode_acquire_response_safe|intros ? _]. no_panic.
Qed.
End safe.

(** ** Frames *)

Lemma try_from_wire_Ok v k : try_from_wire v = Ok k <-> v = frame_kind_u16 k.
Proof.
  unfold try_from_wire. destruct (N.eqb_spec v 1), (N.eqb_spec v 2); subst; destruct k; simpl; naive_solver.
Qed.
Lemma maximum_payload_small k : (maximum_payload_bytes k <= u32_max)%N.
Proof. destruct k; vm_compute; discriminate. Qed.

(** The header of a frame, as bytes. *)
Definition frame_header (k : AcquireTenureFrameKind) (n : N) : list byte :=
  ACQUIRE_FRAME_MAGIC ++ be_bytes 2 ACQUIRE_TENURE_FRAME_VERSION ++ be_bytes 2 (frame_kind_u16 k)
  ++ be_bytes 4 n.
Lemma len_frame_header k n : len (frame_header k n) = 16%N.
Proof. unfold frame_header. rewrite !len_app, !len_be_bytes. reflexivity. Qed.
Lemma build_frame_Ok k p f :
  build_frame k p = Ok f <->
  (len p <= maximum_payload_bytes k)%N /\ f = frame_header k (len p) ++ p.
Proof.
  unfold build_frame, frame_header. pose proof (maximum_payload_small k) as Hk.
  destruct (N.leb_spec (len p) (maximum_payload_bytes k)).
  - rewrite N.mod_small by (unfold u32_max in Hk; lia). rewrite <-!app_assoc. naive_solver.
  - split; [done|lia].
Qed.

Lemma decode_prefix_header k n rest :
  (n <= maximum_payload_bytes k)%N ->
  decode_prefix (frame_header k n ++ rest) = Ok (MkAcquireTenureFrameHeader k n).
Proof.
  intros Hn. pose proof (maximum_payload_small k) as Hk. set (f := frame_header k n ++ rest).
  assert (f = ACQUIRE_FRAME_MAGIC ++ be_bytes 2 1 ++ be_bytes 2 (frame_kind_u16 k)
            ++ be_bytes 4 n ++ rest) as Hf by (unfold f, frame_header; by rewrite <-!app_assoc).
  assert (16 <= len f)%N as Hl by (unfold f; rewrite len_app, len_frame_header; lia).
  unfold decode_prefix. rewrite (proj2 (N.ltb_ge _ _)) by done. rewrite bind_pass. cbv beta.
  change (len ACQUIRE_FRAME_MAGIC) with 8%N.
  rewrite (slice_at f [] ACQUIRE_FRAME_MAGIC _ 0 8 Hf) by reflexivity. rewrite bind_Ok_l. cbv beta.
  rewrite bool_decide_ne_refl, bind_pass. cbv beta.
  rewrite (slice_at f ACQUIRE_FRAME_MAGIC (be_bytes 2 1) _ 8 10 Hf)
    by (rewrite ?len_be_bytes; reflexivity). rewrite bind_Ok_l. cbv beta.
  rewrite read_u16_exact by (unfold u16_max; lia). rewrite bind_Ok_l. cbv beta.
  change (negb (1 =? ACQUIRE_TENURE_FRAME_VERSION)%N) with false. rewrite bind_pass. cbv beta.
  rewrite (slice_at f (ACQUIRE_FRAME_MAGIC ++ be_bytes 2 1) (be_bytes 2 (frame_kind_u16 k))
    (be_bytes 4 n ++ rest) 10 12)
    by (rewrite <-?app_assoc, ?len_app, ?len_be_bytes; done). rewrite bind_Ok_l. cbv beta.
  rewrite read_u16_exact by (destruct k; vm_compute; discriminate). rewrite bind_Ok_l. cbv beta.
  rewrite (proj2 (try_from_wire_Ok _ k) eq_refl), bind_Ok_l. cbv beta.
  rewrite (slice_at f (ACQUIRE_FRAME_MAGIC ++ be_bytes 2 1 ++ be_bytes 2 (frame_kind_u16 k)) (be_bytes 4 n)
    rest 12 16)
    by (rewrite <-?app_assoc, ?len_app, ?len_be_bytes; done). rewrite bind_Ok_l. cbv beta.
  rewrite read_u32_exact by lia. rewrite bind_Ok_l. cbv beta.
  by rewrite (proj2 (N.ltb_ge _ _)) by done.
Qed.
Lemma decode_prefix_Ok f h :
  decode_prefix f = Ok h ->
  (frame_payload_bytes h <= maximum_payload_bytes (frame_kind h))%N /\
  f = frame_header (frame_kind h) (frame_payload_bytes h) ++ drop 16 f.
Proof.
  unfold decode_prefix. change (len ACQUIRE_FRAME_MAGIC) with 8%N. intros H. rust_inv.
  repeat match goal with
  | H : ~ (_ <> _) |- _ => apply dec_stable in H; subst
  | H : try_from_wire _ = Ok _ |- _ => apply try_from_wire_Ok in H; subst
  end.
  repeat match goal with
  | H : read_u16 ?l = Ok _, Hs : slice_range _ _ _ = Ok ?l |- _ =>
      apply read_u16_Ok in H; [|by rewrite (slice_range_len _ _ _ _ Hs)]; subst l
  | H : read_u32 ?l = Ok _, Hs : slice_range _ _ _ = Ok ?l |- _ =>
      apply read_u32_Ok in H; [|by rewrite (slice_range_len _ _ _ _ Hs)]; subst l
  end.
  cbn [frame_kind frame_payload_bytes]. split; [lia|]. unfold frame_header.
  repeat match goal with H : slice_range _ _ _ = Ok _ |- _ => apply slice_range_drop in H end.
  rewrite <-!app_assoc. change (N.to_nat 0) with 0 in *. rewrite drop_0 in *. simpl N.to_nat in *.
  etrans; [eassumption|]. f_equal. etrans; [eassumption|]. f_equal.
  etrans; [eassumption|]. f_equal. eassumption.
Qed.
Lemma decode_frame_Ok f k p : decode_frame f k = Ok p <-> build_frame k p = Ok f.
Proof.
  rewrite build_frame_Ok. split.
  - unfold decode_frame, frame_bytes. intros H. rust_inv.
    repeat match goal with
    | H : ~ (_ <> _) |- _ => apply dec_stable in H; subst
    | H : checked_add _ _ _ = Some _ |- _ => apply checked_add_Some in H as [-> _]
    | H : decode_prefix _ = Ok _ |- _ => apply decode_prefix_Ok in H as [? Hf]
    | H : slice_range _ _ _ = Ok _ |- _ => apply slice_range_Ok in H as (? & ? & ->)
    end.
    unfold ACQUIRE_TENURE_FRAME_HEADER_BYTES in *. change (N.to_nat 16) with 16 in *.
    rewrite take_ge by (rewrite length_drop; unfold len; lia).
    match goal with Hf : f = frame_header _ (frame_payload_bytes ?h) ++ _ |- _ =>
      assert (len (drop 16 f) = frame_payload_bytes h) as -> by (unfold len in *; rewrite length_drop; lia)
    end. done.
  - intros [Hp ->]. pose proof (maximum_payload_small k) as Hk. unfold decode_frame, frame_bytes.
    assert (len (frame_header k (len p) ++ p) = 16 + len p)%N as Hl by (by rewrite len_app, len_frame_header).
    rewrite Hl. assert (maximum_payload_bytes k <= MAX_ACQUIRE_TENURE_RESPONSE_PAYLOAD_BYTES)%N as Hm
      by (destruct k; vm_compute; discriminate).
    unfold MAX_ACQUIRE_TENURE_FRAME_BYTES, ACQUIRE_TENURE_FRAME_HEADER_BYTES.
    rewrite (proj2 (N.ltb_ge _ (16 + len p))) by lia. rewrite bind_pass. cbv beta.
    rewrite decode_prefix_header by done. rewrite bind_Ok_l. cbv beta. cbn [frame_kind frame_payload_bytes].
    rewrite bool_decide_ne_refl, bind_pass. cbv beta.
    rewrite checked_add_ok by (unfold u64_max, u32_max in *; lia). cbn [ok_or]. rewrite bind_Ok_l. cbv beta.
    rewrite N.ltb_irrefl, !bind_pass. cbv beta.
    apply (slice_at _ (frame_header k (len p)) p []); [by rewrite app_nil_r|by rewrite len_frame_header|done].
Qed.
Lemma decode_prefix_safe f : decode_prefix f <> Panic.
Proof.
  unfold decode_prefix. change (len ACQUIRE_FRAME_MAGIC) with 8%N.
  destruct (N.ltb_spec (len f) ACQUIRE_TENURE_FRAME_HEADER_BYTES) as [|Hl]; [done|].
  unfold ACQUIRE_TENURE_FRAME_HEADER_BYTES in Hl. rewrite bind_pass. cbv beta.
  repeat (apply no_panic_bind; [|intros ? ?]);
    first [ solve [auto with no_panic]
          | match goal with
            | |- slice_range ?l ?a ?b <> Panic =>
                destruct (slice_range_total (E:=AcquireTenureProtocolError) l a b) as [v ->]; [lia..|done]
            | H : slice_range _ _ _ = Ok ?l |- read_u16 ?l <> Panic =>
                apply read_u16_safe; by rewrite (slice_range_len _ _ _ _ H)
            | H : slice_range _ _ _ = Ok ?l |- read_u32 ?l <> Panic =>
                apply read_u32_safe; by rewrite (slice_range_len _ _ _ _ H)
            end
          | unfold try_from_wire; by repeat case_match ].
Qed.
Lemma decode_frame_safe f k : decode_frame f k <> Panic.
Proof.
  unfold decode_frame, frame_bytes. apply no_panic_bind; [auto with no_panic|intros ? _].
  apply no_panic_bind; [apply decode_prefix_safe|intros h Hh].
  repeat (apply no_panic_bind; [solve [auto with no_panic]|intros ? ?]).
  apply decode_prefix_Ok in Hh as [_ Hf]. apply (f_equal len) in Hf.
  rewrite len_app, len_frame_header in Hf.
  destruct (slice_range_total (E:=AcquireTenureProtocolError) f ACQUIRE_TENURE_FRAME_HEADER_BYTES (len f))
    as [v ->]; [unfold ACQUIRE_TENURE_FRAME_HEADER_BYTES; lia|lia|done].
Qed.

(** ** The signed transcript *)

(** The bytes before the fields. *)
Definition transcript_header : list byte :=
  (REQUEST_AUTH_TRANSCRIPT_MAGIC ++ be_bytes 2 ACQUIRE_TENURE_REQUEST_AUTH_TRANSCRIPT_VERSION)
  ++ be_bytes 2 (len REQUEST_AUTH_TRANSCRIPT_DOMAIN) ++ REQUEST_AUTH_TRANSCRIPT_DOMAIN
  ++ be_bytes 2 REQUEST_UNSIGNED_FIELD_COUNT.

Lemma acquire_fields_len d :
  sum_N (map len (acquire_fields d)) = (152 + len (acq_client_nonce d))%N.
Proof.
  unfold acquire_fields. cbn [map]. rewrite !len_be_bytes, !len_vec. unfold sum_N. cbn [foldr]. lia.
Qed.
Lemma acquire_transcript_eq d :
  draft_wf d ->
  build_request_signing_transcript d = Ok (transcript_header ++ encode_tlvs 1 (acquire_fields d)).
Proof.
  intros (_ & _ & _ & _ & _ & _ & [_ Hn] & _). unfold build_request_signing_transcript.
  rewrite try_from_ok by (vm_compute; discriminate). cbn [ok_or]. rewrite bind_Ok_l. cbv beta zeta.
  rewrite append_request_unsigned_fields_eq. fold transcript_header.
  assert (len transcript_header = 100)%N as Hh by (vm_compute; reflexivity).
  revert Hh. generalize transcript_header. intros h Hh.
  rewrite (proj2 (N.leb_le _ _)); [done|]. rewrite len_app, Hh, len_encode_tlvs, acquire_fields_len.
  change (len (acquire_fields d)) with 11%N.
  change MAX_ACQUIRE_TENURE_REQUEST_SIGNING_TRANSCRIPT_BYTES with 382%N.
  unfold MAX_ACQUIRE_TENURE_CLIENT_NONCE_BYTES in Hn. lia.
Qed.
Lemma acquire_fields_small d :
  draft_wf d -> Forall (fun f => len f <= u32_max)%N (acquire_fields d).
Proof.
  intros Hd. eapply tlv_valid_small; [apply valid_request_field_length_bound|].
  eapply tlv_valid_app_1, (acquire_fields_valid d (vec_to_list (vreplicate 64 x00))); done.
Qed.
(** A transcript determines the draft. *)
Lemma acquire_fields_inj d d' :
  (acq_max_response_payload_bytes d <= u32_max)%N -> (acq_max_response_payload_bytes d' <= u32_max)%N ->
  acquire_fields d = acquire_fields d' -> d = d'.
Proof.
  intros Hm Hm'. unfold acquire_fields.
  destruct d as [[[sc] [wr] [op]] [pr] [k] [[f]] n m [[g]]], d' as [[[sc'] [wr'] [op']] [pr'] [k'] [[f']] n' m' [[g']]].
  cbn [acq_intent intent_scope intent_writer intent_operation_id deployment_scope_bytes
    deployment_writer_bytes acquire_operation_bytes acq_controller_principal principal_bytes
    acq_controller_key controller_key_bytes acq_controller_fingerprint fingerprint_value digest_bytes
    acq_client_nonce acq_max_response_payload_bytes acq_intent_digest intent_digest_value] in *.
  intros H. repeat match goal with
  | H : _ :: _ = _ :: _ |- _ => apply fields_cons_inj in H as [? H]
  | H : vec_to_list _ = vec_to_list _ |- _ => apply vec_to_list_inj2 in H; subst
  end.
  match goal with H : be_bytes 4 _ = be_bytes 4 _ |- _ => apply be_bytes_inj in H; [|unfold u32_max in *; simpl N.of_nat; lia..]; subst end.
  subst. done.
Qed.
Lemma acquire_transcript_inj d d' :
  draft_wf d -> draft_wf d' ->
  build_request_signing_transcript d = build_request_signing_transcript d' -> d = d'.
Proof.
  intros Hd Hd' H. rewrite !acquire_transcript_eq in H by done. apply Ok_inj, app_inv_head in H.
  apply encode_tlvs_inj in H; [|done|by apply acquire_fields_small..].
  assert (MAX_ACQUIRE_TENURE_RESPONSE_PAYLOAD_BYTES <= u32_max)%N by (vm_compute; discriminate).
  apply acquire_fields_inj; [destruct Hd as (_&_&_&_&_&_&_&[_ ?]); lia|
    destruct Hd' as (_&_&_&_&_&_&_&[_ ?]); lia|done].
Qed.

(** ** Concrete messages *)

Module TenureDemo.
Definition ref16 (n : N) : bytes16 := ContractDemo.ref n.
Definition intent (operation : N) : AcquireTenureIntentV1 :=
  MkAcquireTenureIntent (MkDeploymentScopeId (ref16 2)) (MkDeploymentWriterRef (ref16 8))
    (MkAcquireTenureOperationId (ref16 operation)).
Definition draft (operation : N) (nonce : byte) : result AcquireTenureProtocolError AcquireTenureRequestDraftV1 :=
  acquire_draft_try_new toy_hash (intent operation) (MkPrincipalRef (ref16 12))
    (MkControllerAcquireKeyRef (ref16 5)) (MkControllerPublicKeyFingerprint (ContractDemo.digest 6))
    [nonce] MAX_ACQUIRE_TENURE_RESPONSE_PAYLOAD_BYTES.
Definition draft_or (operation : N) (nonce : byte) : AcquireTenureRequestDraftV1 :=
  match draft operation nonce with
  | Ok d => d
  | _ => MkAcquireTenureRequestDraft (intent operation) (MkPrincipalRef (ref16 12))
           (MkControllerAcquireKeyRef (ref16 5)) (MkControllerPublicKeyFingerprint zero_digest) []
           0 (MkAcquireTenureIntentDigest zero_digest)
  end.
Definition draft1 : AcquireTenureRequestDraftV1 := Eval vm_compute in draft_or 1 x01.
Definition draft2 : AcquireTenureRequestDraftV1 := Eval vm_compute in draft_or 2 x01.
End TenureDemo.

(** ** Properties *)

(** Request frames: the decoder accepts exactly the frames the encoder writes
    for requests the constructors can build, and returns that request; no
    other byte string decodes, and none makes the decoder panic. *)
Theorem acquire_request_round_trip sha256 (frame : list byte) (r : AcquireTenureRequestV1) :
  (decode_acquire_tenure_request_frame sha256 frame = Ok r <->
   request_built sha256 r /\ encode_acquire_tenure_request_frame r = Ok frame) /\
  decode_acquire_tenure_request_frame sha256 frame <> Panic.
Proof.
  unfold decode_acquire_tenure_request_frame, encode_acquire_tenure_request_frame. split.
  - split.
    + intros (p & Hf%decode_frame_Ok & [Hb <-]%decode_acquire_request_Ok)%bind_Ok. done.
    + intros [Hb Hf]. apply bind_Ok. exists (acq_canonical_bytes r).
      split; [by apply decode_frame_Ok|by apply decode_acquire_request_Ok].
  - apply no_panic_bind; [apply decode_frame_safe|intros ? _; apply decode_acquire_request_safe].
Qed.

(** Response frames, read against the request they answer: the decoder accepts
    exactly the frames the encoder writes for the response that
    [response_try_new] builds for this very request from a well-formed proof,
    and returns it; no byte string makes it panic. *)
Theorem acquire_response_round_trip sha256 (frame : list byte) (q : AcquireTenureRequestV1)
    (s : AcquireTenureResponseV1) :
  (decode_acquire_tenure_response_frame_for_request sha256 frame q = Ok s <->
   proof_wf (rsp_proof s) /\ response_try_new sha256 q (rsp_proof s) = Ok s /\
   encode_acquire_tenure_response_frame s = Ok frame) /\
  decode_acquire_tenure_response_frame_for_request sha256 frame q <> Panic.
Proof.
  unfold decode_acquire_tenure_response_frame_for_request, encode_acquire_tenure_response_frame. split.
  - split.
    + intros (p & Hf%decode_frame_Ok & (Hp & Hs & <-)%decode_for_request_Ok)%bind_Ok. done.
    + intros (Hp & Hs & Hf). apply bind_Ok. exists (rsp_canonical_bytes s).
      split; [by apply decode_frame_Ok|by apply decode_for_request_Ok].
  - apply no_panic_bind; [apply decode_frame_safe|intros ? _; apply decode_for_request_safe].
Qed.

(** The transcript a controller signs can always be built for a draft the
    constructor accepts, and two different drafts never share one: the
    signature vouches for scope, writer, operation, controller identity, nonce
    and response bound together. *)
Theorem acquire_transcript_binds_draft (d d' : AcquireTenureRequestDraftV1) :
  draft_wf d -> draft_wf d' -> d <> d' ->
  exists t t', build_request_signing_transcript d = Ok t /\
    build_request_signing_transcript d' = Ok t' /\ t <> t'.
Proof.
  intros Hd Hd' Hne. eexists _, _. rewrite !acquire_transcript_eq by done.
  split_and!; [done..|]. intros H. apply Hne, acquire_transcript_inj; [done..|].
  by rewrite !acquire_transcript_eq, H.
Qed.
Lemma acquire_transcript_binds_draft_witness :
  exists t t', build_request_signing_transcript TenureDemo.draft1 = Ok t /\
    build_request_signing_transcript TenureDemo.draft2 = Ok t' /\ t <> t'.
Proof.
  apply acquire_transcript_binds_draft.
  - unfold draft_wf. vm_compute. split_and!; reflexivity || discriminate.
  - unfold draft_wf. vm_compute. split_and!; reflexivity || discriminate.
  - intros H. apply (f_equal (fun d => acquire_operation_bytes (intent_operation_id (acq_intent d)))) in H.
    vm_compute in H. discriminate H.
Defined.
