(* ===== verification/TenureModel.v ===== *)
(** * The tenure authority's state

    crates/paraegox-deployment/src/tenure_authority/model.rs: provisioning,
    acquire intents and records, and the snapshot with its validation and
    transitions.  The snapshot is the whole durable state of the authority. *)

From Stdlib Require Import Strings.String.
From S2P Require Import Prelude Bytes Slices KernelDigest Tlv ApplyContracts ApplyWire Signatures TenureProtocol.
Open Scope rust_scope.

Definition AUTHORITY_SNAPSHOT_MAX_BYTES : N := 1024 * 1024.
Definition MAX_RETAINED_ACQUIRE_RECORDS : N := 64.
Definition MAX_ACQUIRE_REQUEST_BYTES : N := 64 * 1024.
Definition MAX_ACQUIRE_RESPONSE_BYTES : N := 64 * 1024.
Definition AUTHORITY_ED25519_ALGORITHM : N := 1.
Definition AUTHORITY_ED25519_ALGORITHM_VERSION : N := 1.
Definition ED25519_SIGNATURE_BYTES : N := 64.
Definition AUTHORITY_KEY_FINGERPRINT_DOMAIN : list byte :=
  ascii_bytes "paraegox.deployment.tenure-authority.key-fingerprint.sha256.v1".

Inductive ModelError :=
| ZeroStoreInstanceId | ZeroOperationId | ZeroSourceScope | ZeroTenureAuthorityReference
| ZeroTenureKeyReference | ZeroWriterReference | MEUnauthorizedWriter | ZeroControllerPrincipal
| ZeroControllerKeyReference | ZeroControllerKeyFingerprint | InvalidControllerVerificationKey
| WeakControllerVerificationKey | InvalidControllerKeyFingerprint | ControllerKeyFingerprintMismatch
| ZeroSigningKeyFingerprint | ZeroPolicyFingerprint | ZeroServicePrincipalFingerprint
| ZeroOwnerIdentityFingerprint | ZeroRequestDigest | ZeroResponseDigest | ZeroProofEnvelopeDigest
| InvalidVerificationKey | WeakVerificationKey | SigningKeyFingerprintMismatch
| MEUnsupportedSignatureProfile | EmptyRequest | RequestTooLarge | MEEmptyNonce | MENonceTooLarge
| ZeroResponseBound | ResponseBoundTooLarge | EmptyResponse | ResponseTooLarge
| ZeroSnapshotSequence | MESnapshotSequenceOverflow | SnapshotSequenceHistoryMismatch
| OwnerIdentityFingerprintMismatch | AcquireCapacityExceeded | EpochHistoryMismatch
| NonCanonicalOperationOrdering | DuplicateEpoch | MEInvalidEpoch | MEInvalidSupersedesEpoch
| InvalidIssuanceStatus | InvalidStoredRequest | StoredRequestBindingMismatch
| InvalidStoredRequestSignature | MEInvalidStoredResponse | StoredResponseBindingMismatch
| ProofEnvelopeDigestMismatch | InvalidProofSignature | ValidationWorkerPanicked
| MEOperationDigestConflict | MEEpochOverflow | OperationAlreadyIssued | EpochTransitionMismatch
| SnapshotSequenceTransitionMismatch | ResponseProofBindingMismatch
| MEDigest (e : DigestBuildError) | MEProof (e : TenureProofError).
#[export] Instance ModelError_eq_dec : EqDecision ModelError.
Proof. solve_decision. Defined.
#[local] Abbreviation Res := (result ModelError).

Definition ensure_nonzero (bytes : list byte) (error : ModelError) : Res unit :=
  bail error when all_zero bytes; Ok tt.
Definition ensure_nonzero_digest (digest : Digest32) (error : ModelError) : Res unit :=
  ensure_nonzero (vec_to_list (digest_bytes digest)) error.

Record StoreInstanceId := MkStoreInstanceId { store_instance_bytes : bytes32 }.
#[export] Instance StoreInstanceId_eq_dec : EqDecision StoreInstanceId.
Proof. solve_decision. Defined.
Definition store_instance_try_from_bytes (bytes : bytes32) : Res StoreInstanceId :=
  bail ZeroStoreInstanceId when all_zero (vec_to_list bytes); Ok (MkStoreInstanceId bytes).
Record AcquireOperationId := MkAcquireOperationId { record_operation_bytes : bytes16 }.
#[export] Instance AcquireOperationId_eq_dec : EqDecision AcquireOperationId.
Proof. solve_decision. Defined.
Definition operation_try_from_bytes (bytes : bytes16) : Res AcquireOperationId :=
  bail ZeroOperationId when all_zero (vec_to_list bytes); Ok (MkAcquireOperationId bytes).

(** ** Provisioning *)

Record AcquireAuthorization := MkAcquireAuthorization {
  az_controller_principal : PrincipalRef;
  az_controller_key : ControllerAcquireKeyRef;
  az_controller_verification_key : bytes32;
  az_controller_public_key_fingerprint : bytes32;
}.
#[export] Instance AcquireAuthorization_eq_dec : EqDecision AcquireAuthorization.
Proof. solve_decision. Defined.
Record AuthorityFingerprints := MkAuthorityFingerprints {
  fp_signing_key : Digest32;
  fp_policy : Digest32;
  fp_service_principal : Digest32;
  fp_owner_identity : Digest32;
}.
#[export] Instance AuthorityFingerprints_eq_dec : EqDecision AuthorityFingerprints.
Proof. solve_decision. Defined.
Record AuthorityProvisioning := MkAuthorityProvisioning {
  pv_source_scope : DeploymentScopeId;
  pv_authorized_writer : DeploymentWriterRef;
  pv_proof_authority : TenureProofAuthority;
  pv_verification_key : bytes32;
  pv_authorization : AcquireAuthorization;
  pv_fingerprints : AuthorityFingerprints;
}.
#[export] Instance AuthorityProvisioning_eq_dec : EqDecision AuthorityProvisioning.
Proof. solve_decision. Defined.

(** ** Intents, responses and records *)

Record AcquireIntent := MkAcquireIntent {
  in_operation_id : AcquireOperationId;
  in_request_digest : Digest32;
  in_exact_request_bytes : list byte;
  in_writer : DeploymentWriterRef;
  in_nonce : list byte;
  in_response_bound : N;
}.

Definition acquire_intent_try_new (operation_id : AcquireOperationId) (request_digest : Digest32)
    (exact_request_bytes : list byte) (writer : DeploymentWriterRef) (nonce : list byte)
    (response_bound : N) : Res AcquireIntent :=
  _ ← ensure_nonzero_digest request_digest ZeroRequestDigest;
  bail EmptyRequest when bool_decide (exact_request_bytes = []);
  bail RequestTooLarge when (MAX_ACQUIRE_REQUEST_BYTES <? len exact_request_bytes)%N;
  _ ← ensure_nonzero (vec_to_list (deployment_writer_bytes writer)) ZeroWriterReference;
  bail MEEmptyNonce when bool_decide (nonce = []);
  bail MENonceTooLarge when (MAX_TENURE_NONCE_BYTES <? len nonce)%N;
  bail ZeroResponseBound when (response_bound =? 0)%N;
  bail ResponseBoundTooLarge when (MAX_ACQUIRE_RESPONSE_BYTES <? response_bound)%N;
  Ok (MkAcquireIntent operation_id request_digest exact_request_bytes writer nonce response_bound).

Record EncodedAcquireResponse := MkEncodedAcquireResponse {
  er_exact_bytes : list byte;
  er_response_digest : Digest32;
  er_proof_envelope_digest : Digest32;
}.

Definition encoded_response_try_new (exact_bytes : list byte) (response_digest : Digest32)
    (proof_envelope_digest : Digest32) : Res EncodedAcquireResponse :=
  bail EmptyResponse when bool_decide (exact_bytes = []);
  bail ResponseTooLarge when (MAX_ACQUIRE_RESPONSE_BYTES <? len exact_bytes)%N;
  _ ← ensure_nonzero_digest response_digest ZeroResponseDigest;
  _ ← ensure_nonzero_digest proof_envelope_digest ZeroProofEnvelopeDigest;
  Ok (MkEncodedAcquireResponse exact_bytes response_digest proof_envelope_digest).

Inductive IssuanceStatus := StatusIssued.
#[export] Instance IssuanceStatus_eq_dec : EqDecision IssuanceStatus.
Proof. solve_decision. Defined.

Record AcquireRecord := MkAcquireRecord {
  rec_operation_id : AcquireOperationId;
  rec_request_digest : Digest32;
  rec_exact_request_bytes : list byte;
  rec_writer : DeploymentWriterRef;
  rec_epoch : N;
  rec_supersedes_through_epoch : N;
  rec_nonce : list byte;
  rec_response_bound : N;
  rec_signature : bytes64;
  rec_proof_envelope_digest : Digest32;
  rec_exact_response_bytes : list byte;
  rec_response_digest : Digest32;
  rec_status : IssuanceStatus;
}.
#[export] Instance AcquireRecord_eq_dec : EqDecision AcquireRecord.
Proof. solve_decision. Defined.

Record AuthoritySnapshot := MkAuthoritySnapshot {
  sn_store_instance_id : StoreInstanceId;
  sn_owner_identity_fingerprint : Digest32;
  sn_snapshot_sequence : N;
  sn_provisioning : AuthorityProvisioning;
  sn_epoch_high_water : N;
  sn_acquire_records : list AcquireRecord;
}.
#[export] Instance AuthoritySnapshot_eq_dec : EqDecision AuthoritySnapshot.
Proof. solve_decision. Defined.

(** ** Lookup of an operation *)

Definition search_records (id : AcquireOperationId) (l : list AcquireRecord) : nat + nat :=
  binary_search_by (fun r => compare_bytes (vec_to_list (record_operation_bytes (rec_operation_id r)))
                               (vec_to_list (record_operation_bytes id))) l.

Inductive Preflight :=
| PreflightReplay (exact_response_bytes : list byte) (response_digest proof_envelope_digest : Digest32)
| PreflightIssue (next_epoch next_snapshot_sequence : N).

Definition preflight (self : AuthoritySnapshot) (intent : AcquireIntent) : Res Preflight :=
  match search_records (in_operation_id intent) (sn_acquire_records self) with
  | inl index =>
      record ← unwrap (sn_acquire_records self !! index);
      bail MEOperationDigestConflict
        when bool_decide (rec_request_digest record <> in_request_digest intent);
      Ok (PreflightReplay (rec_exact_response_bytes record) (rec_response_digest record)
            (rec_proof_envelope_digest record))
  | inr _ =>
      bail AcquireCapacityExceeded
        when (len (sn_acquire_records self) =? MAX_RETAINED_ACQUIRE_RECORDS)%N;
      next_epoch ← ok_or (checked_add u64_max (sn_epoch_high_water self) 1) MEEpochOverflow;
      next_sequence ← ok_or (checked_add u64_max (sn_snapshot_sequence self) 1)
        MESnapshotSequenceOverflow;
      Ok (PreflightIssue next_epoch next_sequence)
  end.

Section model.
Context `{Ed25519} (sha256 : list byte -> bytes32).

Definition signing_key_fingerprint_for (verification_key : bytes32) : Res Digest32 :=
  map_err MEDigest (
    builder ← digest_try_new AUTHORITY_KEY_FINGERPRINT_DOMAIN;
    builder ← field_bytes builder (vec_to_list verification_key);
    Ok (finish sha256 builder)).

Definition provisioning_try_new (source_scope : DeploymentScopeId)
    (authorized_writer : DeploymentWriterRef) (proof_authority : TenureProofAuthority)
    (verification_key : bytes32) (authorization : AcquireAuthorization)
    (fingerprints : AuthorityFingerprints) : Res AuthorityProvisioning :=
  _ ← ensure_nonzero (vec_to_list (deployment_scope_bytes source_scope)) ZeroSourceScope;
  _ ← ensure_nonzero (vec_to_list (deployment_writer_bytes authorized_writer)) ZeroWriterReference;
  _ ← ensure_nonzero (vec_to_list (authority_bytes (authority proof_authority)))
    ZeroTenureAuthorityReference;
  _ ← ensure_nonzero (vec_to_list (key_bytes (key proof_authority))) ZeroTenureKeyReference;
  _ ← ensure_nonzero (vec_to_list (principal_bytes (az_controller_principal authorization)))
    ZeroControllerPrincipal;
  _ ← ensure_nonzero (vec_to_list (controller_key_bytes (az_controller_key authorization)))
    ZeroControllerKeyReference;
  controller_verification_key ←
    ok_or (key_from_bytes (az_controller_verification_key authorization))
      InvalidControllerVerificationKey;
  bail WeakControllerVerificationKey when key_is_weak controller_verification_key;
  controller_fingerprint ←
    map_err (fun _ => InvalidControllerKeyFingerprint)
      (for_ed25519_key sha256 (az_controller_verification_key authorization));
  bail ControllerKeyFingerprintMismatch
    when bool_decide (digest_bytes (fingerprint_value controller_fingerprint)
                      <> az_controller_public_key_fingerprint authorization);
  _ ← ensure_nonzero (vec_to_list (az_controller_public_key_fingerprint authorization))
    ZeroControllerKeyFingerprint;
  _ ← ensure_nonzero_digest (fp_signing_key fingerprints) ZeroSigningKeyFingerprint;
  _ ← ensure_nonzero_digest (fp_policy fingerprints) ZeroPolicyFingerprint;
  _ ← ensure_nonzero_digest (fp_service_principal fingerprints) ZeroServicePrincipalFingerprint;
  _ ← ensure_nonzero_digest (fp_owner_identity fingerprints) ZeroOwnerIdentityFingerprint;
  parsed_key ← ok_or (key_from_bytes verification_key) InvalidVerificationKey;
  bail WeakVerificationKey when key_is_weak parsed_key;
  actual_fingerprint ← signing_key_fingerprint_for verification_key;
  bail SigningKeyFingerprintMismatch
    when bool_decide (actual_fingerprint <> fp_signing_key fingerprints);
  bail MEUnsupportedSignatureProfile
    when negb (algorithm_value (algorithm proof_authority) =? AUTHORITY_ED25519_ALGORITHM)%N
      || negb (algorithm_version proof_authority =? AUTHORITY_ED25519_ALGORITHM_VERSION)%N;
  Ok (MkAuthorityProvisioning source_scope authorized_writer proof_authority verification_key
        authorization fingerprints).

Definition provisioning_validate (self : AuthorityProvisioning) : Res unit :=
  _ ← provisioning_try_new (pv_source_scope self) (pv_authorized_writer self)
    (pv_proof_authority self) (pv_verification_key self) (pv_authorization self)
    (pv_fingerprints self);
  Ok tt.

(** ** Validation of a snapshot *)

Definition validate_record_structure (self : AuthoritySnapshot) (record : AcquireRecord) : Res unit :=
  _ ← operation_try_from_bytes (record_operation_bytes (rec_operation_id record));
  _ ← ensure_nonzero_digest (rec_request_digest record) ZeroRequestDigest;
  bail EmptyRequest when bool_decide (rec_exact_request_bytes record = []);
  bail RequestTooLarge when (MAX_ACQUIRE_REQUEST_BYTES <? len (rec_exact_request_bytes record))%N;
  _ ← ensure_nonzero (vec_to_list (deployment_writer_bytes (rec_writer record))) ZeroWriterReference;
  bail MEUnauthorizedWriter
    when bool_decide (rec_writer record <> pv_authorized_writer (sn_provisioning self));
  bail MEInvalidEpoch
    when ((rec_epoch record =? 0) || (sn_epoch_high_water self <? rec_epoch record))%N;
  previous ← panicking_sub (rec_epoch record) 1;
  bail MEInvalidSupersedesEpoch when negb (rec_supersedes_through_epoch record =? previous)%N;
  bail MEEmptyNonce when bool_decide (rec_nonce record = []);
  bail MENonceTooLarge when (MAX_TENURE_NONCE_BYTES <? len (rec_nonce record))%N;
  let response_bound := rec_response_bound record in
  bail ResponseBoundTooLarge
    when ((response_bound =? 0) || (MAX_ACQUIRE_RESPONSE_BYTES <? response_bound))%N;
  bail EmptyResponse when bool_decide (rec_exact_response_bytes record = []);
  bail ResponseTooLarge
    when ((response_bound <? len (rec_exact_response_bytes record))
          || (MAX_ACQUIRE_RESPONSE_BYTES <? len (rec_exact_response_bytes record)))%N;
  _ ← ensure_nonzero_digest (rec_response_digest record) ZeroResponseDigest;
  _ ← ensure_nonzero_digest (rec_proof_envelope_digest record) ZeroProofEnvelopeDigest;
  bail InvalidIssuanceStatus when bool_decide (rec_status record <> StatusIssued);
  Ok tt.

(** What [validate_record_protocol] compares of the stored request. *)
Definition stored_request_mismatch (self : AuthoritySnapshot) (record : AcquireRecord)
    (request : AcquireTenureRequestV1) : bool :=
  let draft := acq_draft request in
  let authorization := pv_authorization (sn_provisioning self) in
  bool_decide (acquire_operation_bytes (intent_operation_id (acq_intent draft))
               <> record_operation_bytes (rec_operation_id record))
  || bool_decide (acquire_request_digest_value (acq_request_digest request)
                  <> rec_request_digest record)
  || bool_decide (intent_scope (acq_intent draft) <> pv_source_scope (sn_provisioning self))
  || bool_decide (intent_writer (acq_intent draft) <> rec_writer record)
  || bool_decide (acq_client_nonce draft <> rec_nonce record)
  || negb (acq_max_response_payload_bytes draft =? rec_response_bound record)%N
  || bool_decide (acq_controller_principal draft <> az_controller_principal authorization)
  || bool_decide (acq_controller_key draft <> az_controller_key authorization)
  || bool_decide (digest_bytes (fingerprint_value (acq_controller_fingerprint draft))
                  <> az_controller_public_key_fingerprint authorization).

Definition validate_record_protocol (self : AuthoritySnapshot) (record : AcquireRecord) : Res unit :=
  let provisioning := sn_provisioning self in
  request ← map_err (fun _ => InvalidStoredRequest)
    (decode_acquire_request sha256 (rec_exact_request_bytes record));
  let authorization := pv_authorization provisioning in
  bail StoredRequestBindingMismatch when stored_request_mismatch self record request;
  request_signature ← ok_or (vec_of_list 64 (acq_auth_signature request)) InvalidStoredRequestSignature;
  request_transcript ← map_err (fun _ => InvalidStoredRequestSignature)
    (acquire_signing_transcript request);
  controller_key ← ok_or (key_from_bytes (az_controller_verification_key authorization))
    InvalidControllerVerificationKey;
  bail InvalidStoredRequestSignature
    when negb (verify_strict controller_key request_transcript request_signature);
  claim ← map_err MEProof
    (claim_try_new (MkSourceScopeRef (deployment_scope_bytes (pv_source_scope provisioning)))
       (MkPlanWriterRef (deployment_writer_bytes (rec_writer record)))
       (MkPlanWriterEpoch (rec_epoch record))
       (MkPlanWriterEpoch (rec_supersedes_through_epoch record)));
  proof ← map_err MEProof
    (tenure_proof_try_new (pv_proof_authority provisioning) claim (rec_nonce record)
       (vec_to_list (rec_signature record)));
  envelope ← map_err MEDigest (envelope_digest sha256 proof);
  bail ProofEnvelopeDigestMismatch when bool_decide (envelope <> rec_proof_envelope_digest record);
  transcript ← map_err MEProof (proof_signing_transcript proof);
  verification_key ← ok_or (key_from_bytes (pv_verification_key provisioning)) InvalidVerificationKey;
  bail InvalidProofSignature
    when negb (verify_strict verification_key (transcript_bytes transcript) (rec_signature record));
  response ← map_err (fun _ => MEInvalidStoredResponse)
    (decode_for_request sha256 (rec_exact_response_bytes record) request);
  bail StoredResponseBindingMismatch
    when bool_decide (acquire_response_digest_value (rsp_response_digest response)
                      <> rec_response_digest record)
      || bool_decide (rsp_proof_digest response <> rec_proof_envelope_digest record)
      || bool_decide (rsp_proof response <> proof);
  Ok tt.

(** The validation fans out over scoped threads; the workers are joined in
    spawn order and a worker that panicked becomes an error. *)
Definition join_worker (outcome : Res unit) : Res unit :=
  match outcome with Panic => Err ValidationWorkerPanicked | r => r end.
Definition validate_record_protocols (available_parallelism : N) (self : AuthoritySnapshot) : Res unit :=
  let records := sn_acquire_records self in
  let worker_count := N.min (N.min available_parallelism 8) (len records) in
  if (worker_count <=? 1)%N then try_for_each (validate_record_protocol self) records
  else
    let chunk_size := ((len records + worker_count - 1) / worker_count)%N in
    let workers := map (try_for_each (validate_record_protocol self))
                     (chunks (length records) (N.to_nat chunk_size) records) in
    try_for_each join_worker workers.

(** The loop of [validate] over the records: the previous operation id and
    the epochs observed so far. *)
Definition validate_record_step (self : AuthoritySnapshot)
    (acc : option AcquireOperationId * list bool) (record : AcquireRecord)
    : Res (option AcquireOperationId * list bool) :=
  let '(previous, observed_epochs) := acc in
  bail NonCanonicalOperationOrdering
    when match previous with
         | Some previous => bytes_leb (vec_to_list (record_operation_bytes (rec_operation_id record)))
                              (vec_to_list (record_operation_bytes previous))
         | None => false
         end;
  _ ← validate_record_structure self record;
  let epoch_index := N.to_nat (saturating_sub (rec_epoch record) 1) in
  observed ← ok_or (observed_epochs !! epoch_index) EpochHistoryMismatch;
  bail DuplicateEpoch when (observed : bool);
  Ok (Some (rec_operation_id record), <[epoch_index := true]> observed_epochs).

Definition snapshot_validate (parallelism : N) (self : AuthoritySnapshot) : Res unit :=
  _ ← provisioning_validate (sn_provisioning self);
  bail ZeroSnapshotSequence when (sn_snapshot_sequence self =? 0)%N;
  bail OwnerIdentityFingerprintMismatch
    when bool_decide (sn_owner_identity_fingerprint self
                      <> fp_owner_identity (pv_fingerprints (sn_provisioning self)));
  let record_count := len (sn_acquire_records self) in
  bail AcquireCapacityExceeded when (MAX_RETAINED_ACQUIRE_RECORDS <? record_count)%N;
  bail EpochHistoryMismatch when negb (sn_epoch_high_water self =? record_count)%N;
  expected_sequence ← ok_or (checked_add u64_max (sn_epoch_high_water self) 1)
    MESnapshotSequenceOverflow;
  bail SnapshotSequenceHistoryMismatch when negb (sn_snapshot_sequence self =? expected_sequence)%N;
  '(_, observed_epochs) ← try_fold (validate_record_step self)
    (None, replicate (N.to_nat MAX_RETAINED_ACQUIRE_RECORDS) false) (sn_acquire_records self);
  bail EpochHistoryMismatch
    when existsb negb (take (length (sn_acquire_records self)) observed_epochs);
  validate_record_protocols parallelism self.

Definition snapshot_initial (parallelism : N) (store_instance_id : StoreInstanceId)
    (provisioning : AuthorityProvisioning) : Res AuthoritySnapshot :=
  let snapshot := MkAuthoritySnapshot store_instance_id
    (fp_owner_identity (pv_fingerprints provisioning)) 1 provisioning 0 [] in
  _ ← snapshot_validate parallelism snapshot;
  Ok snapshot.

Definition with_issued_record (parallelism : N) (self : AuthoritySnapshot) (intent : AcquireIntent)
    (next_epoch next_snapshot_sequence : N) (signature : bytes64) (proof_envelope_digest : Digest32)
    (response : EncodedAcquireResponse) : Res AuthoritySnapshot :=
  pre ← preflight self intent;
  match pre with
  | PreflightReplay _ _ _ => Err OperationAlreadyIssued
  | PreflightIssue expected_epoch expected_sequence =>
      bail EpochTransitionMismatch when negb (next_epoch =? expected_epoch)%N;
      bail SnapshotSequenceTransitionMismatch
        when negb (next_snapshot_sequence =? expected_sequence)%N;
      bail ResponseProofBindingMismatch
        when bool_decide (er_proof_envelope_digest response <> proof_envelope_digest);
      bail ResponseTooLarge when (in_response_bound intent <? len (er_exact_bytes response))%N;
      let record := MkAcquireRecord (in_operation_id intent) (in_request_digest intent)
        (in_exact_request_bytes intent) (in_writer intent) next_epoch (sn_epoch_high_water self)
        (in_nonce intent) (in_response_bound intent) signature proof_envelope_digest
        (er_exact_bytes response) (er_response_digest response) StatusIssued in
      let insertion := match search_records (in_operation_id intent) (sn_acquire_records self) with
                       | inl index | inr index => index
                       end in
      records ← vec_insert insertion record (sn_acquire_records self);
      let next := MkAuthoritySnapshot (sn_store_instance_id self) (sn_owner_identity_fingerprint self)
        next_snapshot_sequence (sn_provisioning self) next_epoch records in
      _ ← snapshot_validate parallelism next;
      Ok next
  end.
End model.

(** ** Records in the order of their operations *)

Abbreviation operation_key r := (vec_to_list (record_operation_bytes (rec_operation_id r))).
Definition record_lt (a b : AcquireRecord) : Prop :=
  bytes_leb (operation_key b) (operation_key a) = false.
Abbreviation records_sorted := (StronglySorted record_lt).
Abbreviation search_key id :=
  (fun r => compare_bytes (operation_key r) (vec_to_list (record_operation_bytes id))).

Lemma operation_key_inj (a b : AcquireOperationId) :
  vec_to_list (record_operation_bytes a) = vec_to_list (record_operation_bytes b) -> a = b.
Proof. destruct a, b; simpl. intros H%vec_to_list_inj2. by subst. Qed.
Lemma record_lt_ne a b : record_lt a b -> rec_operation_id a <> rec_operation_id b.
Proof. unfold record_lt. intros H E. by rewrite E, bytes_leb_refl in H. Qed.
Lemma records_sorted_lookup l i j a b :
  records_sorted l -> l !! i = Some a -> l !! j = Some b -> i < j -> record_lt a b.
Proof.
  intros Hs. revert i j; induction Hs as [|x l Hs IH Hx]; intros i j Ha Hb Hij.
  { by rewrite lookup_nil in Ha. }
  destruct j as [|j]; [lia|]. destruct i as [|i]; simpl in *; [|apply (IH i j); [done..|lia]].
  injection Ha as ->. rewrite Forall_forall in Hx. apply Hx. by eapply list_elem_of_lookup_2.
Qed.
Lemma records_sorted_NoDup l : records_sorted l -> NoDup (rec_operation_id <$> l).
Proof.
  induction 1 as [|x l Hs IH Hx]; [constructor|]. cbn [fmap list_fmap]. constructor; [|done].
  intros (y & Hy & Hin)%list_elem_of_fmap. rewrite Forall_forall in Hx.
  by eapply record_lt_ne; [apply Hx|].
Qed.
Lemma records_ordered id l : records_sorted l -> ordered_by (search_key id) l.
Proof.
  intros Hs a b x y Hx Hy Hab Hc. apply compare_bytes_Gt.
  pose proof (records_sorted_lookup _ _ _ _ _ Hs Hx Hy Hab) as Hlt. unfold record_lt in Hlt.
  destruct (compare_bytes (operation_key x) _) eqn:Hx'; [|done|].
  - apply compare_bytes_Eq in Hx'. by rewrite <-Hx'.
  - apply compare_bytes_Gt in Hx'. by eapply bytes_lt_trans.
Qed.

(** The search on a sorted history: a hit is the record of the operation; a
    miss says that it has none, and where its record belongs. *)
Lemma search_records_spec id l :
  records_sorted l ->
  match search_records id l with
  | inl i => exists r, l !! i = Some r /\ rec_operation_id r = id
  | inr i => i <= length l /\ id ∉ rec_operation_id <$> l /\
             forall r, rec_operation_id r = id -> records_sorted (take i l ++ r :: drop i l)
  end.
Proof.
  intros Hs. pose proof (binary_search_by_spec _ _ (records_ordered id l Hs)) as Hb.
  unfold search_records. destruct (binary_search_by (search_key id) l) as [i|i].
  { destruct Hb as (r & Hr & Hc%compare_bytes_Eq). exists r. split; [done|]. by apply operation_key_inj. }
  destruct Hb as (Hi & Hlt & Hgt). split; [done|]. split.
  - intros (r & -> & (j & Hj)%list_elem_of_lookup)%list_elem_of_fmap.
    assert (search_key (rec_operation_id r) r = Eq) as Hc by by apply compare_bytes_Eq.
    destruct (decide (j < i)) as [Hji|Hji].
    + pose proof (Hlt j r Hji Hj). cbv beta in *. congruence.
    + pose proof (Hgt j r ltac:(lia) Hj). cbv beta in *. congruence.
  - intros r <-. apply StronglySorted_insert; [done|..].
    + intros x (j & Hj)%list_elem_of_lookup. apply lookup_take_Some in Hj as [Hj Hji].
      apply compare_bytes_Lt. by apply (Hlt j).
    + intros x (j & Hj)%list_elem_of_lookup. rewrite lookup_drop in Hj.
      apply compare_bytes_Gt. apply (Hgt (i + j)); [lia|done].
Qed.
(** On a sorted history the search is lookup by operation. *)
Lemma search_records_hit r l :
  records_sorted l -> r ∈ l ->
  exists i, search_records (rec_operation_id r) l = inl i /\ l !! i = Some r.
Proof.
  intros Hs Hr. pose proof (search_records_spec (rec_operation_id r) l Hs) as Hspec.
  destruct (search_records (rec_operation_id r) l) as [i|i].
  - destruct Hspec as (r' & Hi & Hop). exists i. split; [done|].
    apply list_elem_of_lookup in Hr as [j Hj].
    destruct (decide (i = j)) as [->|Hne]; [done|].
    destruct (decide (i < j)).
    + by destruct (record_lt_ne r' r); [eapply (records_sorted_lookup l i j)|].
    + destruct (record_lt_ne r r'); [eapply (records_sorted_lookup l j i)|]; try done. lia.
  - destruct Hspec as (_ & Hn & _). destruct Hn. apply list_elem_of_fmap. by exists r.
Qed.

(** ** Well-formed records *)

Section structure.
Implicit Types (s : AuthoritySnapshot) (r : AcquireRecord).

Lemma ensure_nonzero_Ok l e u : ensure_nonzero l e = Ok u <-> all_zero l = false.
Proof. unfold ensure_nonzero. destruct u. split_checks. rewrite fail_if_Ok. naive_solver. Qed.

(** What [validate_record_structure] asks of a record. *)
Lemma record_structure_Ok s r :
  validate_record_structure s r = Ok tt <->
  all_zero (operation_key r) = false /\ all_zero (vec_to_list (digest_bytes (rec_request_digest r))) = false /\
  (0 < len (rec_exact_request_bytes r) <= MAX_ACQUIRE_REQUEST_BYTES)%N /\
  all_zero (vec_to_list (deployment_writer_bytes (rec_writer r))) = false /\
  rec_writer r = pv_authorized_writer (sn_provisioning s) /\
  (1 <= rec_epoch r <= sn_epoch_high_water s)%N /\
  rec_supersedes_through_epoch r = (rec_epoch r - 1)%N /\
  (0 < len (rec_nonce r) <= MAX_TENURE_NONCE_BYTES)%N /\
  (0 < rec_response_bound r <= MAX_ACQUIRE_RESPONSE_BYTES)%N /\
  (0 < len (rec_exact_response_bytes r) <= rec_response_bound r)%N /\
  all_zero (vec_to_list (digest_bytes (rec_response_digest r))) = false /\
  all_zero (vec_to_list (digest_bytes (rec_proof_envelope_digest r))) = false.
Proof.
  unfold validate_record_structure, ensure_nonzero_digest, operation_try_from_bytes. split.
  - intros Hv. rust_inv. repeat match goal with H : ensure_nonzero _ _ = Ok _ |- _ => apply ensure_nonzero_Ok in H end.
    repeat match goal with H : ~ (_ <> _) |- _ => apply dec_stable in H end.
    repeat match goal with H : ~ (_ = []) |- _ => rewrite nil_len in H end.
    unfold panicking_sub in *. rust_inv. split_and!; try done; try lia. 
  - intros (Hop & Hrd & Hrq & Hw & Haw & He & Hsup & Hn & Hb & Hrs & Hrsd & Hpd).
    rewrite Hop. unfold ensure_nonzero. rewrite Hrd, Hw, Hrsd, Hpd.
    rewrite !(bool_decide_eq_false_2 (_ = [])) by (rewrite nil_len; lia).
    rewrite (proj2 (N.ltb_ge MAX_ACQUIRE_REQUEST_BYTES (len (rec_exact_request_bytes r)))) by lia.
    rewrite <-Haw, bool_decide_ne_refl.
    rewrite (proj2 (N.eqb_neq (rec_epoch r) 0)), (proj2 (N.ltb_ge (sn_epoch_high_water s) _)) by lia.
    unfold panicking_sub. rewrite checked_sub_ok by lia.
    cbn [orb fail_if mbind result_mbind unwrap]. rewrite Hsup, N.eqb_refl.
    rewrite (proj2 (N.ltb_ge MAX_TENURE_NONCE_BYTES (len (rec_nonce r)))) by lia.
    rewrite (proj2 (N.eqb_neq (rec_response_bound r) 0)) by lia.
    rewrite !(proj2 (N.ltb_ge _ _)) by lia.
    by destruct (rec_status r).
Qed.

Definition gap_free_epochs (l : list AcquireRecord) : Prop :=
  rec_epoch <$> l ≡ₚ N.of_nat <$> seq 1 (length l).

(** The order test of the loop, from the previous operation on. *)
Definition after (previous : option AcquireOperationId) r : Prop :=
  match previous with
  | Some p => bytes_leb (operation_key r) (vec_to_list (record_operation_bytes p)) = false
  | None => True
  end.
Fixpoint chain (previous : option AcquireOperationId) (l : list AcquireRecord) : Prop :=
  match l with
  | [] => True
  | r :: l => after previous r /\ chain (Some (rec_operation_id r)) l
  end.
Lemma chain_sorted l p : chain p l <-> Forall (after p) l /\ records_sorted l.
Proof.
  revert p; induction l as [|r l IH]; intros p; cbn [chain].
  { split; [|done]. intros _. split; constructor. }
  rewrite IH, Forall_cons, StronglySorted_cons. split.
  - intros (Hr & Ha & Hs). split_and!; try done. eapply Forall_impl; [exact Ha|].
    intros x Hx. destruct p as [p|]; [|done]. simpl in *. by eapply bytes_lt_trans.
  - intros ([Hr Ha] & Hrl & Hs). done.
Qed.

Definition epoch_index r : nat := N.to_nat (rec_epoch r - 1).
Definition flags (es : list N) (observed : list bool) : Prop :=
  length observed = 64 /\
  forall i, i < 64 -> observed !! i = Some (bool_decide (N.of_nat (S i) ∈ es)).

Lemma flags_insert es o r :
  flags es o -> (1 <= rec_epoch r <= 64)%N ->
  flags (rec_epoch r :: es) (<[epoch_index r := true]> o).
Proof.
  intros [Hl Ho] He. unfold flags, epoch_index. rewrite length_insert. split; [done|]. intros i Hi.
  destruct (decide (i = N.to_nat (rec_epoch r - 1))) as [->|Hne].
  - rewrite list_lookup_insert_eq by lia. rewrite bool_decide_eq_true_2; [done|].
    rewrite elem_of_cons. left. lia.
  - rewrite list_lookup_insert_ne, Ho by done. f_equal. apply bool_decide_ext.
    rewrite elem_of_cons. split; [by right|]. intros [?|?]; [lia|done].
Qed.

Lemma validate_record_step_Ok s p o es r acc :
  flags es o -> (sn_epoch_high_water s <= 64)%N ->
  (validate_record_step s (p, o) r = Ok acc <->
   after p r /\ validate_record_structure s r = Ok tt /\ rec_epoch r ∉ es /\
   acc = (Some (rec_operation_id r), <[epoch_index r := true]> o)).
Proof.
  intros [Hl Ho] Hh. unfold validate_record_step, saturating_sub.
  assert (forall e : ModelError, fail_if match p with Some previous => bytes_leb (operation_key r)
            (vec_to_list (record_operation_bytes previous)) | None => false end e = Ok tt <-> after p r) as Hp.
  { intros e. rewrite fail_if_Ok. by destruct p. }
  split_checks. rewrite Hp. clear Hp. fold (epoch_index r). split.
  - intros (Ha & Hst & Hr). split; [done|]. split; [done|].
    apply record_structure_Ok in Hst as (_ & _ & _ & _ & _ & He & _).
    rewrite Ho in Hr by (unfold epoch_index; lia). cbn [ok_or] in Hr. rewrite bind_Ok_l in Hr.
    apply bind_unit_Ok in Hr as [Hf%fail_if_Ok [= <-]]. split; [|done].
    apply bool_decide_eq_false in Hf. unfold epoch_index in Hf.
    by replace (N.of_nat (S (N.to_nat (rec_epoch r - 1)))) with (rec_epoch r) in Hf by lia.
  - intros (Ha & Hst & Hn & ->). split; [done|]. split; [done|].
    apply record_structure_Ok in Hst as (_ & _ & _ & _ & _ & He & _).
    rewrite Ho by (unfold epoch_index; lia). cbn [ok_or]. rewrite bind_Ok_l. cbv beta.
    rewrite bool_decide_eq_false_2; [done|]. unfold epoch_index.
    by replace (N.of_nat (S (N.to_nat (rec_epoch r - 1)))) with (rec_epoch r) by lia.
Qed.

(** The loop accepts the records exactly when they are in order, well formed
    and their epochs distinct; it then has marked their epochs. *)
Lemma validate_records_Ok s l p o es :
  flags es o -> (sn_epoch_high_water s <= 64)%N ->
  ((exists acc, try_fold (validate_record_step s) (p, o) l = Ok acc) <->
   chain p l /\ Forall (fun r => validate_record_structure s r = Ok tt) l /\
   NoDup (rec_epoch <$> l) /\ (forall e, e ∈ rec_epoch <$> l -> e ∉ es)) /\
  forall p' o', try_fold (validate_record_step s) (p, o) l = Ok (p', o') ->
    flags ((rec_epoch <$> l) ++ es) o'.
Proof.
  revert p o es; induction l as [|r l IH]; intros p o es Hf Hh.
  { split; [|by intros ? ? [= <- <-]]. split; [|by eexists]. intros _. split; [done|].
    split; [constructor|]. split; [constructor|]. intros e He. by apply not_elem_of_nil in He. }
  cbn [try_fold chain fmap list_fmap].
  destruct (validate_record_step s (p, o) r) as [acc|e|] eqn:Hstep.
  2,3: (split; [|done]; split; [by intros [? ?]|]; intros ((Ha & _) & (Hst & _)%Forall_cons & _ & Hd);
        by rewrite (proj2 (validate_record_step_Ok s p o es r _ Hf Hh)
          (conj Ha (conj Hst (conj (Hd _ (list_elem_of_here _ _)) eq_refl)))) in Hstep).
  apply (validate_record_step_Ok s p o es) in Hstep as (Ha & Hst & Hn & ->); [|done..].
  pose proof (flags_insert es o r Hf) as Hf'.
  destruct (IH (Some (rec_operation_id r)) _ _ (Hf' ltac:(apply record_structure_Ok in Hst; lia)) Hh) as [IH1 IH2].
  cbn [mbind result_mbind]. split.
  - rewrite IH1, Forall_cons, NoDup_cons. split.
    + intros (Hc & Hs & Hnd & Hd). split_and!; try done.
      * intros Hin. by apply (Hd _ Hin), elem_of_cons; left.
      * intros e [->|He]%elem_of_cons; [done|]. intros He'. by apply (Hd e He), elem_of_cons; right.
    + intros ((_ & Hc) & (_ & Hs) & (Hnr & Hnd) & Hd). split_and!; try done.
      intros e He [->|He']%elem_of_cons; [done|]. apply (Hd e); [by right|done].
  - intros p' o' Ho'. specialize (IH2 p' o' Ho') as [Hl Hi]. split; [done|]. intros i Hlt.
    rewrite Hi by done. f_equal. apply bool_decide_ext. set_solver.
Qed.

Lemma epochs_bounded s l :
  Forall (fun r => validate_record_structure s r = Ok tt) l ->
  forall e, e ∈ rec_epoch <$> l -> (1 <= e <= sn_epoch_high_water s)%N.
Proof.
  intros Hs e (r & -> & Hr)%list_elem_of_fmap. rewrite Forall_forall in Hs.
  specialize (Hs r Hr). apply record_structure_Ok in Hs. lia.
Qed.
(** As many distinct epochs as the high water leave no gap. *)
Lemma distinct_epochs_gap_free s l :
  Forall (fun r => validate_record_structure s r = Ok tt) l -> sn_epoch_high_water s = len l ->
  NoDup (rec_epoch <$> l) -> gap_free_epochs l.
Proof.
  intros Hs Hh Hn. unfold gap_free_epochs. apply submseteq_length_Permutation.
  - apply NoDup_submseteq; [done|]. intros e He. pose proof (epochs_bounded s l Hs e He).
    apply list_elem_of_fmap. exists (N.to_nat e). split; [lia|]. apply elem_of_seq. unfold len in *. lia.
  - by rewrite !length_fmap, length_seq.
Qed.
Lemma gap_free_NoDup l : gap_free_epochs l -> NoDup (rec_epoch <$> l).
Proof.
  unfold gap_free_epochs. intros Hg. rewrite Hg. apply NoDup_fmap_2; [apply _|]. apply NoDup_seq.
Qed.
Lemma flags_initial : flags [] (replicate (N.to_nat MAX_RETAINED_ACQUIRE_RECORDS) false).
Proof.
  split; [done|]. intros i Hi. rewrite lookup_replicate_2 by done.
  by rewrite bool_decide_eq_false_2 by apply not_elem_of_nil.
Qed.
Lemma all_marked l o :
  gap_free_epochs l -> length l <= 64 -> flags ((rec_epoch <$> l) ++ []) o ->
  existsb negb (take (length l) o) = false.
Proof.
  unfold gap_free_epochs. intros Hg Hl [Ho Hf]. apply not_true_iff_false. rewrite existsb_exists.
  intros (b & Hb & Hneg). apply list_elem_of_In, list_elem_of_lookup in Hb as [i Hi].
  apply lookup_take_Some in Hi as [Hi Hil]. rewrite Hf in Hi by lia. injection Hi as <-.
  apply negb_true_iff, bool_decide_eq_false in Hneg. apply Hneg.
  rewrite app_nil_r, Hg. apply list_elem_of_fmap. exists (S i). split; [done|]. apply elem_of_seq. lia.
Qed.

(** ** The next snapshot *)

(** The next snapshot, with [r] where its operation belongs. *)
Definition extend s r : AuthoritySnapshot :=
  let index := match search_records (rec_operation_id r) (sn_acquire_records s) with
               | inl index | inr index => index
               end in
  MkAuthoritySnapshot (sn_store_instance_id s) (sn_owner_identity_fingerprint s)
    (sn_snapshot_sequence s + 1) (sn_provisioning s) (sn_epoch_high_water s + 1)
    (take index (sn_acquire_records s) ++ r :: drop index (sn_acquire_records s)).
Definition issued_record s (intent : AcquireIntent) (signature : bytes64) (proof_digest : Digest32)
    (response : EncodedAcquireResponse) : AcquireRecord :=
  MkAcquireRecord (in_operation_id intent) (in_request_digest intent) (in_exact_request_bytes intent)
    (in_writer intent) (sn_epoch_high_water s + 1) (sn_epoch_high_water s) (in_nonce intent)
    (in_response_bound intent) signature proof_digest (er_exact_bytes response)
    (er_response_digest response) StatusIssued.
Definition issued_operations s : list AcquireOperationId := rec_operation_id <$> sn_acquire_records s.

Lemma extend_Permutation s r : sn_acquire_records (extend s r) ≡ₚ r :: sn_acquire_records s.
Proof. apply vec_insert_Permutation. Qed.
Lemma validate_record_structure_extend s r x :
  validate_record_structure s x = Ok tt -> validate_record_structure (extend s r) x = Ok tt.
Proof.
  rewrite !record_structure_Ok. cbn [extend sn_provisioning sn_epoch_high_water].
  intros (? & ? & ? & ? & ? & ? & ?). split_and!; try done; lia || naive_solver.
Qed.
End structure.

(** ** Validation *)

Section validation.
Context `{Ed25519} (sha256 : list byte -> bytes32).
Implicit Types (s : AuthoritySnapshot) (r : AcquireRecord).

(** The proof a record stands for. *)
Definition record_proof s r : WriterTenureProof :=
  MkWriterTenureProof (pv_proof_authority (sn_provisioning s))
    (MkWriterTenureClaim (MkSourceScopeRef (deployment_scope_bytes (pv_source_scope (sn_provisioning s))))
       (MkPlanWriterRef (deployment_writer_bytes (rec_writer r)))
       (MkPlanWriterEpoch (rec_epoch r)) (MkPlanWriterEpoch (rec_supersedes_through_epoch r)))
    (rec_nonce r) (vec_to_list (rec_signature r)).
(** A signature of the provisioned controller over the request. *)
Definition controller_signed (provisioning : AuthorityProvisioning) (q : AcquireTenureRequestV1) : Prop :=
  exists signature transcript key,
    vec_of_list 64 (acq_auth_signature q) = Some signature /\
    acquire_signing_transcript q = Ok transcript /\
    key_from_bytes (az_controller_verification_key (pv_authorization provisioning)) = Some key /\
    verify_strict key transcript signature = true.
(** A signature of the authority over the claim. *)
Definition authority_signed (provisioning : AuthorityProvisioning) (p : WriterTenureProof)
    (signature : bytes64) : Prop :=
  exists key, key_from_bytes (pv_verification_key provisioning) = Some key /\
    verify_strict key (transcript_encoding (proof_authority p) (proof_claim p) (proof_nonce p))
      signature = true.

(** What [validate_record_protocol] asks: the stored request and response are
    the canonical messages of one exchange, with both signatures. *)
Lemma record_protocol_Ok s r :
  validate_record_protocol sha256 s r = Ok tt <->
  exists q a,
    request_built sha256 q /\ acq_canonical_bytes q = rec_exact_request_bytes r /\
    stored_request_mismatch s r q = false /\ controller_signed (sn_provisioning s) q /\
    (rec_supersedes_through_epoch r < rec_epoch r)%N /\
    (1 <= len (rec_nonce r) <= MAX_TENURE_NONCE_BYTES)%N /\
    envelope_digest sha256 (record_proof s r) = Ok (rec_proof_envelope_digest r) /\
    authority_signed (sn_provisioning s) (record_proof s r) (rec_signature r) /\
    decode_for_request sha256 (rec_exact_response_bytes r) q = Ok a /\
    acquire_response_digest_value (rsp_response_digest a) = rec_response_digest r /\
    rsp_proof_digest a = rec_proof_envelope_digest r /\ rsp_proof a = record_proof s r.
Proof.
  unfold validate_record_protocol. split.
  - intros (q & Hq%map_err_Ok & Hv)%bind_Ok. apply decode_acquire_request_Ok in Hq as [Hq Hqb].
    rust_inv. repeat match goal with H : ~ (_ <> _) |- _ => apply dec_stable in H end. subst.
    match goal with H : claim_try_new _ _ _ _ = Ok _ |- _ => apply claim_try_new_Ok in H as (-> & ? & ?) end.
    match goal with H : tenure_proof_try_new _ _ _ _ = Ok _ |- _ =>
      apply tenure_proof_try_new_Ok in H as (Hp & Hn & _); fold (record_proof s r) in Hp end.
    rewrite Hp in *.
    match goal with H : proof_signing_transcript _ = Ok _ |- _ => apply signing_transcript_Ok in H as [_ ->] end.
    eexists q, _. split; [exact Hq|]. split; [done|]. split; [done|]. split; [by eexists _, _, _|].
    split; [done|]. split; [done|]. split; [eassumption|]. split; [by eexists|].
    split; [eassumption|]. done.
  - intros (q & a & Hq & Hqb & Hm & (sg & t & k & Hsg & Ht & Hk & Hvf) & He & Hn & Hd & (vk & Hvk & Hvf')
      & Ha & Hrd & Hpd & Hp).
    rewrite (proj2 (decode_acquire_request_Ok _ _ _) (conj Hq Hqb)). cbn [map_err].
    rewrite bind_Ok_l. cbv beta zeta. rewrite Hm, bind_pass. cbv beta. rewrite Hsg. cbn [ok_or].
    rewrite bind_Ok_l, Ht. cbn [map_err]. rewrite bind_Ok_l, Hk. cbn [ok_or]. rewrite bind_Ok_l, Hvf.
    cbn [negb]. rewrite bind_pass. cbv beta.
    rewrite (proj2 (claim_try_new_Ok _ _ _ _ _)) by (split; [reflexivity|cbn [epoch_value]; lia]).
    cbn [map_err]. rewrite bind_Ok_l.
    rewrite (proj2 (tenure_proof_try_new_Ok _ _ _ _ (record_proof s r)))
      by (split; [reflexivity|rewrite len_vec; split; [done|vm_compute; done]]).
    cbn [map_err]. rewrite bind_Ok_l, Hd. cbn [map_err]. rewrite bind_Ok_l, bool_decide_ne_refl, bind_pass.
    unfold proof_signing_transcript.
    rewrite (proj2 (signing_transcript_Ok (proof_authority (record_proof s r))
      (proof_claim (record_proof s r)) (proof_nonce (record_proof s r)) _) (conj Hn eq_refl)). cbn [map_err].
    rewrite bind_Ok_l, Hvk. cbn [ok_or]. rewrite bind_Ok_l. cbn [transcript_bytes]. rewrite Hvf'.
    cbn [negb]. rewrite bind_pass, Ha. cbn [map_err]. rewrite bind_Ok_l, Hrd, Hpd, Hp, !bool_decide_ne_refl.
    done.
Qed.
Lemma validate_record_protocol_safe s r : validate_record_protocol sha256 s r <> Panic.
Proof.
  unfold validate_record_protocol.
  apply no_panic_bind; [apply no_panic_map_err, decode_acquire_request_safe|intros q Hq%map_err_Ok].
  apply decode_acquire_request_Ok in Hq as [[Hd _] _]. apply acquire_draft_try_new_Ok in Hd as (Hwf & _ & _).
  apply no_panic_bind; [no_panic|intros _ _]. apply no_panic_bind; [no_panic|intros ? _].
  unfold acquire_signing_transcript. rewrite acquire_transcript_eq by done. cbn [map_err]. rewrite bind_Ok_l.
  do 2 (apply no_panic_bind; [no_panic|intros ? _]).
  apply no_panic_bind; [unfold claim_try_new; no_panic|intros c _].
  apply no_panic_bind; [unfold tenure_proof_try_new, validate_tenure_nonce; no_panic|intros p Hp].
  apply map_err_Ok, tenure_proof_try_new_Ok in Hp as (-> & Hn & _).
  apply no_panic_bind; [apply no_panic_map_err, envelope_digest_safe|intros ? _].
  apply no_panic_bind; [no_panic|intros _ _]. unfold proof_signing_transcript. cbn [proof_nonce].
  rewrite (proj2 (signing_transcript_Ok _ _ _ _) (conj Hn eq_refl)). cbn [map_err]. rewrite bind_Ok_l.
  do 2 (apply no_panic_bind; [no_panic|intros ? _]).
  apply no_panic_bind; [apply no_panic_map_err, decode_for_request_safe|intros ? _]. no_panic.
Qed.

(** Joining the workers in order gives the first error in record order, as the
    sequential loop does. *)
Lemma validate_record_protocols_eq n s :
  validate_record_protocols sha256 n s =
  try_for_each (validate_record_protocol sha256 s) (sn_acquire_records s).
Proof.
  unfold validate_record_protocols. set (f := validate_record_protocol sha256 s).
  destruct (N.leb_spec (N.min (N.min n 8) (len (sn_acquire_records s))) 1) as [Hw|Hw]; [done|].
  set (w := N.min (N.min n 8) (len (sn_acquire_records s))) in *. set (l := sn_acquire_records s) in *.
  assert (0 < (len l + w - 1) / w)%N as Hc by (apply N.div_str_pos; lia).
  set (c := N.to_nat ((len l + w - 1) / w)).
  rewrite <-(try_for_each_chunks f (length l) c l) by lia.
  induction (chunks (length l) c l) as [|k ks IH]; [done|]. cbn [map]. rewrite !try_for_each_cons.
  rewrite IH. pose proof (try_for_each_safe f k (fun x _ => validate_record_protocol_safe s x)) as Hs.
  by destruct (try_for_each f k) as [[]| |].
Qed.

(** The invariant of the authority's durable state, by its checks; TenureHistory
    states it without them. *)
Record snapshot_valid s : Prop := {
  sv_provisioning : provisioning_validate sha256 (sn_provisioning s) = Ok tt;
  sv_owner : sn_owner_identity_fingerprint s = fp_owner_identity (pv_fingerprints (sn_provisioning s));
  sv_capacity : (len (sn_acquire_records s) <= MAX_RETAINED_ACQUIRE_RECORDS)%N;
  sv_high_water : sn_epoch_high_water s = len (sn_acquire_records s);
  sv_sequence : sn_snapshot_sequence s = (sn_epoch_high_water s + 1)%N;
  sv_sorted : records_sorted (sn_acquire_records s);
  sv_epochs : gap_free_epochs (sn_acquire_records s);
  sv_structure : Forall (fun r => validate_record_structure s r = Ok tt) (sn_acquire_records s);
  sv_protocol : Forall (fun r => validate_record_protocol sha256 s r = Ok tt) (sn_acquire_records s);
}.

Lemma snapshot_validate_Ok n s : snapshot_validate sha256 n s = Ok tt <-> snapshot_valid s.
Proof.
  unfold snapshot_validate. split_checks. rewrite !fail_if_Ok.
  rewrite N.eqb_neq, bool_decide_eq_false, N.ltb_ge, negb_false_iff, N.eqb_eq. split.
  - intros (Hp & Hz & Ho & Hc & Hh & Hk). apply dec_stable in Ho.
    apply bind_Ok in Hk as (q & Hq%ok_or_Ok%checked_add_Some & Hk). apply bind_unit_Ok in Hk as [Hsq Hk].
    apply fail_if_Ok, negb_false_iff, N.eqb_eq in Hsq.
    apply bind_Ok in Hk as ([p o] & Hfold & Hk). apply bind_unit_Ok in Hk as [_ Hk].
    rewrite validate_record_protocols_eq, try_for_each_Ok in Hk.
    assert (sn_epoch_high_water s <= 64)%N as H64 by (rewrite Hh; exact Hc).
    destruct (validate_records_Ok s (sn_acquire_records s) None _ [] flags_initial H64) as [Hv _].
    destruct (proj1 Hv (ex_intro _ _ Hfold)) as (Hch & Hst & Hnd & _).
    apply chain_sorted in Hch as [_ Hsort]. destruct Hq as [Hq _]. split; try done.
    + by rewrite Hsq, Hq.
    + by apply (distinct_epochs_gap_free s).
  - intros [Hp Ho Hc Hh Hsq Hsort Hg Hst Hpr].
    assert (sn_epoch_high_water s <= 64)%N as H64 by (rewrite Hh; exact Hc).
    split; [done|]. split; [lia|]. split; [by intros Hne|]. split; [done|]. split; [done|].
    rewrite checked_add_ok by (unfold u64_max; lia). cbn [ok_or]. rewrite bind_Ok_l, Hsq, N.eqb_refl.
    cbn [negb]. rewrite bind_pass.
    destruct (validate_records_Ok s (sn_acquire_records s) None _ [] flags_initial H64) as [Hv Hm].
    destruct (proj2 Hv) as [[p o] Hfold].
    { split_and!; try done; [|by apply gap_free_NoDup|].
      - apply chain_sorted. split; [|done]. by apply Forall_forall.
      - intros e _. apply not_elem_of_nil. }
    rewrite Hfold, bind_Ok_l, all_marked; [|done|unfold len in *; lia|by eapply Hm].
    rewrite bind_pass, validate_record_protocols_eq. by apply try_for_each_Ok.
Qed.

(** ** Transitions *)

Lemma preflight_cases s (i : AcquireIntent) :
  snapshot_valid s ->
  (exists r, r ∈ sn_acquire_records s /\ rec_operation_id r = in_operation_id i /\
     preflight s i = if bool_decide (rec_request_digest r = in_request_digest i)
       then Ok (PreflightReplay (rec_exact_response_bytes r) (rec_response_digest r)
                  (rec_proof_envelope_digest r))
       else Err MEOperationDigestConflict) \/
  (in_operation_id i ∉ issued_operations s /\
     preflight s i = if (len (sn_acquire_records s) =? MAX_RETAINED_ACQUIRE_RECORDS)%N
       then Err AcquireCapacityExceeded
       else Ok (PreflightIssue (sn_epoch_high_water s + 1) (sn_snapshot_sequence s + 1))).
Proof.
  intros Hv. pose proof (search_records_spec (in_operation_id i) _ (sv_sorted s Hv)) as Hs.
  unfold preflight. destruct (search_records _ _) as [k|k].
  - left. destruct Hs as (r & Hr & Hop). exists r. split; [by eapply list_elem_of_lookup_2|].
    split; [done|]. rewrite Hr. cbn [unwrap]. rewrite bind_Ok_l.
    destruct (bool_decide_reflect (rec_request_digest r = in_request_digest i)) as [->|Hne].
    + by rewrite bool_decide_ne_refl.
    + by rewrite bool_decide_eq_true_2.
  - right. destruct Hs as (_ & Hn & _). split; [done|].
    pose proof (sv_capacity s Hv) as Hc. unfold MAX_RETAINED_ACQUIRE_RECORDS in Hc.
    rewrite (sv_sequence s Hv), (sv_high_water s Hv).
    destruct (_ =? _)%N; [done|]. cbn [fail_if]. rewrite bind_Ok_l.
    by rewrite !checked_add_ok by (unfold u64_max; lia).
Qed.

Lemma validate_record_protocol_provisioning s s' r :
  sn_provisioning s = sn_provisioning s' ->
  validate_record_protocol sha256 s r = validate_record_protocol sha256 s' r.
Proof. intros Hp. unfold validate_record_protocol, stored_request_mismatch. by rewrite Hp. Qed.
Lemma extend_valid s r :
  snapshot_valid s -> rec_operation_id r ∉ issued_operations s ->
  (len (sn_acquire_records s) < MAX_RETAINED_ACQUIRE_RECORDS)%N ->
  rec_epoch r = (sn_epoch_high_water s + 1)%N ->
  validate_record_structure (extend s r) r = Ok tt ->
  validate_record_protocol sha256 s r = Ok tt ->
  snapshot_valid (extend s r).
Proof.
  intros Hv Hn Hc He Hst Hpr. destruct Hv as [Hp Ho Hc' Hh Hsq Hsort Hg Hsts Hprs].
  pose proof (extend_Permutation s r) as Hperm.
  pose proof (Permutation_length Hperm) as Hlen. cbn [length] in Hlen.
  split; try done.
  - unfold len in *. lia.
  - cbn [extend sn_epoch_high_water]. unfold len in *. lia.
  - cbn [extend sn_epoch_high_water sn_snapshot_sequence]. lia.
  - pose proof (search_records_spec (rec_operation_id r) _ Hsort) as Hs.
    cbn [extend sn_acquire_records]. destruct (search_records _ _) as [k|k].
    + destruct Hs as (x & Hx & Hop). destruct Hn. apply list_elem_of_fmap. exists x.
      split; [done|]. by eapply list_elem_of_lookup_2.
    + by apply Hs.
  - unfold gap_free_epochs in *. rewrite Hlen, Hperm, seq_S, fmap_app. cbn [fmap list_fmap].
    rewrite Hg, Permutation_app_comm. cbn [app]. apply Permutation_cons_iff_eq || idtac.
    replace (N.of_nat (1 + length (sn_acquire_records s))) with (rec_epoch r); [done|].
    unfold len in *. lia.
  - rewrite Hperm. constructor; [done|]. eapply Forall_impl; [exact Hsts|].
    intros x. apply validate_record_structure_extend.
  - rewrite Hperm. constructor; [|eapply Forall_impl; [exact Hprs|intros x Hx]];
      by rewrite (validate_record_protocol_provisioning _ s).
Qed.

(** What a transition asks and does. *)
Lemma with_issued_record_Ok n s i e q sg pd a next :
  snapshot_valid s ->
  with_issued_record sha256 n s i e q sg pd a = Ok next <->
  in_operation_id i ∉ issued_operations s /\
  (len (sn_acquire_records s) < MAX_RETAINED_ACQUIRE_RECORDS)%N /\
  e = (sn_epoch_high_water s + 1)%N /\ q = (sn_snapshot_sequence s + 1)%N /\
  er_proof_envelope_digest a = pd /\ (len (er_exact_bytes a) <= in_response_bound i)%N /\
  next = extend s (issued_record s i sg pd a) /\ snapshot_valid next.
Proof.
  intros Hv. unfold with_issued_record. pose proof (sv_capacity s Hv) as Hcap.
  destruct (preflight_cases s i Hv) as [(r & Hr & Hop & ->)|[Hn ->]].
  { assert (in_operation_id i ∈ issued_operations s) as Hin by (apply list_elem_of_fmap; by exists r).
    split; [|by intros [? _]]. by destruct (bool_decide (rec_request_digest r = _)). }
  destruct (N.eqb_spec (len (sn_acquire_records s)) MAX_RETAINED_ACQUIRE_RECORDS) as [Hc|Hc].
  { split; [done|]. intros (_ & ? & _). lia. }
  rewrite bind_Ok_l. cbv beta iota. split_checks.
  rewrite !fail_if_Ok, !negb_false_iff, !N.eqb_eq, bool_decide_eq_false, N.ltb_ge.
  assert (forall idx, match search_records (in_operation_id i) (sn_acquire_records s) with
            | inl index | inr index => index end = idx -> idx <= length (sn_acquire_records s)) as Hidx.
  { intros idx <-. pose proof (search_records_spec (in_operation_id i) _ (sv_sorted s Hv)) as Hs.
    destruct (search_records _ _) as [k|k]; [|lia].
    destruct Hs as (? & ?%lookup_lt_Some & _). lia. }
  set (idx := match search_records (in_operation_id i) _ with inl x | inr x => x end) in *.
  specialize (Hidx idx eq_refl). split.
  - intros (-> & -> & Hpd & Hl & Hk). apply dec_stable in Hpd.
    apply bind_Ok in Hk as (l & (_ & ->)%vec_insert_Ok & Hk). apply bind_unit_Ok in Hk as [Hval [= <-]].
    apply snapshot_validate_Ok in Hval. split_and!; try done. lia.
  - intros (_ & _ & -> & -> & Hpd & Hl & -> & Hval). split; [done|]. split; [done|]. split; [by intros Hne|]. split; [done|].
    rewrite (proj2 (vec_insert_Ok _ _ _ _) (conj Hidx eq_refl)), bind_Ok_l.
    apply (snapshot_validate_Ok n) in Hval. unfold extend, issued_record in Hval.
    cbn [rec_operation_id] in Hval. fold idx in Hval. by rewrite Hval.
Qed.
End validation.

(** ** Freedom from panics *)

Lemma ensure_nonzero_safe l e : ensure_nonzero l e <> Panic.
Proof. unfold ensure_nonzero. no_panic. Qed.
Lemma ensure_nonzero_digest_safe d e : ensure_nonzero_digest d e <> Panic.
Proof. apply ensure_nonzero_safe. Qed.
#[export] Hint Resolve ensure_nonzero_safe ensure_nonzero_digest_safe : no_panic.
Lemma validate_record_structure_safe s r : validate_record_structure s r <> Panic.
Proof.
  unfold validate_record_structure, operation_try_from_bytes.
  do 6 (apply no_panic_bind; [no_panic|intros ? _]).
  apply no_panic_bind; [no_panic|]. intros [] He. apply fail_if_Ok, orb_false_iff in He as [He _].
  apply N.eqb_neq in He. unfold panicking_sub. rewrite checked_sub_ok by lia. cbn [unwrap].
  rewrite bind_Ok_l. no_panic.
Qed.
Lemma validate_record_step_safe s acc r : validate_record_step s acc r <> Panic.
Proof.
  unfold validate_record_step. destruct acc as [p o]. apply no_panic_bind; [no_panic|intros _ _].
  apply no_panic_bind; [apply validate_record_structure_safe|intros _ _]. no_panic.
Qed.

Section snapshot_safe.
Context `{Ed25519} (sha256 : list byte -> bytes32).

Lemma provisioning_try_new_safe a b c d e f : provisioning_try_new sha256 a b c d e f <> Panic.
Proof.
  unfold provisioning_try_new, signing_key_fingerprint_for, for_ed25519_key. no_panic.
Qed.
Lemma snapshot_validate_safe n s : snapshot_validate sha256 n s <> Panic.
Proof.
  unfold snapshot_validate, provisioning_validate.
  apply no_panic_bind; [apply no_panic_bind; [apply provisioning_try_new_safe|no_panic]|intros _ _].
  do 4 (apply no_panic_bind; [no_panic|intros ? _]).
  do 2 (apply no_panic_bind; [no_panic|intros ? _]).
  apply no_panic_bind; [apply try_fold_safe, validate_record_step_safe|intros [p o] _].
  apply no_panic_bind; [no_panic|intros _ _]. rewrite validate_record_protocols_eq.
  apply try_for_each_safe. intros r _. apply validate_record_protocol_safe.
Qed.
End snapshot_safe.

(** ** Properties *)

(** C40: The fan-out over scoped threads computes what one loop over the records
    computes, errors included: the first failing record in record order
    decides, whatever the parallelism, and no worker ever panics. *)
Theorem parallel_validation_is_sequential `{Ed25519} sha256 (parallelism : N) (s : AuthoritySnapshot) :
  validate_record_protocols sha256 parallelism s =
  try_for_each (validate_record_protocol sha256 s) (sn_acquire_records s).
Proof. apply validate_record_protocols_eq. Qed.
