(* ===== verification/TenureHistory.v ===== *)
(** * The tenure authority's history, stated on its own

    What a valid snapshot of the authority is, in terms of bytes, digests and
    signatures only: the exact messages, transcripts and digest encodings a
    record has to hold.  Nothing of the validation of
    crates/paraegox-deployment/src/tenure_authority/model.rs occurs in the
    specification; the theorem at the end says that the validation accepts
    exactly these snapshots. *)

From Stdlib Require Import Strings.String.
From S2P Require Import Prelude Bytes Slices KernelDigest Tlv ApplyContracts ApplyWire Signatures TenureProtocol TenureModel.
Open Scope rust_scope.

(** ** The specification *)

Section specification.
Context `{Ed25519} (sha256 : list byte -> bytes32).

Definition nonzero (l : list byte) : Prop := exists b, b ∈ l /\ b <> x00.

(** The canonical digest of a field sequence under a domain: magic, version,
    length-prefixed domain, numbered length-prefixed fields, end and count. *)
Definition canonical_encoding (domain : list byte) (fields : list (list byte)) : list byte :=
  ascii_bytes "ParaEGOX" ++ [x00] ++ ascii_bytes "canonical-digest" ++ be_bytes 2 1
  ++ be_bytes 4 (len domain) ++ domain ++ fields_encoding 0 fields ++ [xff] ++ be_bytes 4 (len fields).
Definition hash_of (domain : list byte) (fields : list (list byte)) : bytes32 :=
  sha256 (canonical_encoding domain fields).

Definition usable_key (bytes : bytes32) : Prop :=
  exists k, key_from_bytes bytes = Some k /\ key_is_weak k = false.
Definition verifies (key : bytes32) (text : list byte) (signature : bytes64) : Prop :=
  exists k, key_from_bytes key = Some k /\ verify_strict k text signature = true.

(** Provisioning: identities are not zero, both keys are usable and match
    their fingerprints, and the signature profile is Ed25519, version 1. *)
Record provisioning_ok (p : AuthorityProvisioning) : Prop := {
  pok_nonzero : Forall nonzero [
    vec_to_list (deployment_scope_bytes (pv_source_scope p));
    vec_to_list (deployment_writer_bytes (pv_authorized_writer p));
    vec_to_list (authority_bytes (authority (pv_proof_authority p)));
    vec_to_list (key_bytes (key (pv_proof_authority p)));
    vec_to_list (principal_bytes (az_controller_principal (pv_authorization p)));
    vec_to_list (controller_key_bytes (az_controller_key (pv_authorization p)));
    vec_to_list (az_controller_public_key_fingerprint (pv_authorization p));
    vec_to_list (digest_bytes (fp_signing_key (pv_fingerprints p)));
    vec_to_list (digest_bytes (fp_policy (pv_fingerprints p)));
    vec_to_list (digest_bytes (fp_service_principal (pv_fingerprints p)));
    vec_to_list (digest_bytes (fp_owner_identity (pv_fingerprints p)))];
  pok_controller_key : usable_key (az_controller_verification_key (pv_authorization p));
  pok_controller_fingerprint : az_controller_public_key_fingerprint (pv_authorization p) =
    hash_of CONTROLLER_KEY_FINGERPRINT_DOMAIN
      [be_bytes 2 1; be_bytes 2 1; vec_to_list (az_controller_verification_key (pv_authorization p))];
  pok_key : usable_key (pv_verification_key p);
  pok_fingerprint : digest_bytes (fp_signing_key (pv_fingerprints p)) =
    hash_of AUTHORITY_KEY_FINGERPRINT_DOMAIN [vec_to_list (pv_verification_key p)];
  pok_algorithm : algorithm_value (algorithm (pv_proof_authority p)) = 1%N;
  pok_version : algorithm_version (pv_proof_authority p) = 1%N;
}.

(** *** The exchange a record stands for *)

Section exchange.
Context (p : AuthorityProvisioning) (r : AcquireRecord).

Definition intent_fields : list (list byte) :=
  [vec_to_list (deployment_scope_bytes (pv_source_scope p));
   vec_to_list (deployment_writer_bytes (rec_writer r));
   vec_to_list (record_operation_bytes (rec_operation_id r))].
Definition request_fields : list (list byte) :=
  intent_fields ++
  [vec_to_list (principal_bytes (az_controller_principal (pv_authorization p)));
   vec_to_list (controller_key_bytes (az_controller_key (pv_authorization p)));
   vec_to_list (az_controller_public_key_fingerprint (pv_authorization p));
   be_bytes 2 1; be_bytes 2 1; rec_nonce r; be_bytes 4 (rec_response_bound r);
   vec_to_list (hash_of INTENT_DIGEST_DOMAIN intent_fields)].
(** The request with the controller's signature, and what the controller
    signed. *)
Definition request_message (signature : bytes64) : list byte :=
  message ACQUIRE_REQUEST_MAGIC 1 12 (request_fields ++ [vec_to_list signature]).
Definition request_transcript : list byte :=
  REQUEST_AUTH_TRANSCRIPT_MAGIC ++ be_bytes 2 1
  ++ be_bytes 2 (len REQUEST_AUTH_TRANSCRIPT_DOMAIN) ++ REQUEST_AUTH_TRANSCRIPT_DOMAIN
  ++ be_bytes 2 11 ++ encode_tlvs 1 request_fields.

(** The claim of the proof, and what the authority signed. *)
Definition claim_fields : list (list byte) :=
  [vec_to_list (authority_bytes (authority (pv_proof_authority p)));
   vec_to_list (key_bytes (key (pv_proof_authority p)));
   be_bytes 2 1; be_bytes 2 1;
   vec_to_list (deployment_scope_bytes (pv_source_scope p));
   vec_to_list (deployment_writer_bytes (rec_writer r));
   be_bytes 8 (rec_epoch r); be_bytes 8 (rec_epoch r - 1); rec_nonce r].
Definition claim_transcript : list byte :=
  SIGNING_TRANSCRIPT_MAGIC ++ be_bytes 2 1
  ++ be_bytes 2 (len WRITER_TENURE_SIGNING_DOMAIN) ++ WRITER_TENURE_SIGNING_DOMAIN
  ++ be_bytes 2 9 ++ encode_tlvs 1 claim_fields.
Definition proof_fields : list (list byte) := claim_fields ++ [vec_to_list (rec_signature r)].

(** The response without and with its digest. *)
Definition response_body : list (list byte) :=
  [vec_to_list (record_operation_bytes (rec_operation_id r));
   vec_to_list (digest_bytes (rec_request_digest r)); rec_nonce r]
  ++ proof_fields ++ [vec_to_list (digest_bytes (rec_proof_envelope_digest r))].
Definition response_message : list byte :=
  message ACQUIRE_RESPONSE_MAGIC 1 15 (response_body ++ [vec_to_list (digest_bytes (rec_response_digest r))]).

(** A record of a history with the given high water. *)
Record record_ok (high_water : N) : Prop := {
  rok_nonzero : Forall nonzero [
    vec_to_list (deployment_writer_bytes (rec_writer r));
    vec_to_list (record_operation_bytes (rec_operation_id r));
    vec_to_list (digest_bytes (rec_request_digest r));
    vec_to_list (digest_bytes (rec_proof_envelope_digest r));
    vec_to_list (digest_bytes (rec_response_digest r))];
  rok_writer : rec_writer r = pv_authorized_writer p;
  rok_epoch : (1 <= rec_epoch r <= high_water)%N;
  rok_supersedes : rec_supersedes_through_epoch r = (rec_epoch r - 1)%N;
  rok_nonce : (1 <= len (rec_nonce r) <= 64)%N;
  (** the shortest and the longest response there is *)
  rok_bound : (301 <= rec_response_bound r <= 938)%N;
  rok_request : exists signature,
    rec_exact_request_bytes r = request_message signature /\
    verifies (az_controller_verification_key (pv_authorization p)) request_transcript signature;
  rok_request_digest : digest_bytes (rec_request_digest r) =
    hash_of REQUEST_DIGEST_DOMAIN [rec_exact_request_bytes r];
  rok_signature : verifies (pv_verification_key p) claim_transcript (rec_signature r);
  rok_envelope_digest : digest_bytes (rec_proof_envelope_digest r) =
    hash_of WRITER_TENURE_PROOF_ENVELOPE_DIGEST_DOMAIN proof_fields;
  rok_response : rec_exact_response_bytes r = response_message;
  rok_response_digest : digest_bytes (rec_response_digest r) =
    hash_of RESPONSE_DIGEST_DOMAIN [message ACQUIRE_RESPONSE_MAGIC 1 14 response_body];
  rok_response_fits : (len (rec_exact_response_bytes r) <= rec_response_bound r)%N;
}.
End exchange.

(** A valid snapshot: at most 64 records in the strict order of their
    operations, with the epochs 1 to n, each once. *)
Record history_ok (s : AuthoritySnapshot) : Prop := {
  hok_provisioning : provisioning_ok (sn_provisioning s);
  hok_owner : sn_owner_identity_fingerprint s = fp_owner_identity (pv_fingerprints (sn_provisioning s));
  hok_capacity : length (sn_acquire_records s) <= 64;
  hok_high_water : sn_epoch_high_water s = len (sn_acquire_records s);
  hok_sequence : sn_snapshot_sequence s = (len (sn_acquire_records s) + 1)%N;
  hok_sorted : records_sorted (sn_acquire_records s);
  hok_epochs : rec_epoch <$> sn_acquire_records s ≡ₚ N.of_nat <$> seq 1 (length (sn_acquire_records s));
  hok_records : Forall (fun r => record_ok (sn_provisioning s) r (len (sn_acquire_records s)))
    (sn_acquire_records s);
}.
End specification.

(** ** Digests as hashes of canonical encodings *)

Lemma nonzero_all_zero l : all_zero l = false <-> nonzero l.
Proof.
  unfold all_zero, nonzero. induction l as [|b l IH]; cbn [forallb].
  { split; [done|]. intros (b & Hb & _). by apply not_elem_of_nil in Hb. }
  destruct (Byte.eqb x00 b) eqn:Hb; cbn [andb].
  - apply Byte.byte_dec_bl in Hb. subst b. rewrite IH. split; intros (c & Hc & Hne); exists c.
    + split; [by right|done].
    + by apply elem_of_cons in Hc as [->|?].
  - split; [|done]. intros _. exists b. split; [left|]. intros ->. by rewrite Byte.byte_dec_lb in Hb.
Qed.

Section hashes.
Context (sha256 : list byte -> bytes32).

Lemma hash_preimage domain fields :
  buildable domain fields -> sha256 (preimage domain fields) = hash_of sha256 domain fields.
Proof.
  intros (b & Hb)%build_total. unfold hash_of, preimage. rewrite Hb. f_equal.
  apply build_preimage in Hb as [-> _]. unfold canonical_encoding, FORMAT_MAGIC. by rewrite <-!app_assoc.
Qed.

(** Fixed-size fields fit their length prefix. *)
Ltac solve_fits :=
  split_and!; [done|vm_compute; congruence| |vm_compute; congruence];
  repeat first [apply Forall_nil_2 | apply Forall_cons; split]; rewrite ?len_be_bytes, ?len_vec;
  first [assumption|vm_compute; congruence].
(** Runs the builder calls of the goal on the fields of [domain]. *)
Ltac run_digest domain fields :=
  let Hf := fresh "Hf" in
  assert (buildable domain fields) as Hf by solve_fits;
  let b := fresh "b" in let H := fresh "H" in let Hd := fresh "Hd" in
  destruct (buildable_finish sha256 _ _ Hf) as (b & H & Hd); rewrite (hash_preimage _ _ Hf) in Hd;
  rewrite <-Hd; clear Hd; run_build H; injection H as <-.

Lemma intent_digest_is i :
  intent_digest sha256 i = Ok (MkAcquireTenureIntentDigest (MkDigest32 (hash_of sha256 INTENT_DIGEST_DOMAIN
    [vec_to_list (deployment_scope_bytes (intent_scope i)); vec_to_list (deployment_writer_bytes (intent_writer i));
     vec_to_list (acquire_operation_bytes (intent_operation_id i))]))).
Proof.
  unfold intent_digest, digest_builder, add_digest_bytes.
  run_digest INTENT_DIGEST_DOMAIN [vec_to_list (deployment_scope_bytes (intent_scope i));
    vec_to_list (deployment_writer_bytes (intent_writer i));
    vec_to_list (acquire_operation_bytes (intent_operation_id i))]. done.
Qed.
Lemma complete_request_is bytes :
  (len bytes <= u64_max)%N ->
  digest_complete_request sha256 bytes =
  Ok (MkAcquireTenureRequestDigest (MkDigest32 (hash_of sha256 REQUEST_DIGEST_DOMAIN [bytes]))).
Proof.
  intros Hl. unfold digest_complete_request, digest_builder, add_digest_bytes.
  run_digest REQUEST_DIGEST_DOMAIN [bytes]. done.
Qed.
Lemma response_digest_is o q n p pd :
  (len (build_response_unsigned_bytes o q n p pd) <= u64_max)%N ->
  build_response_digest sha256 o q n p pd =
  Ok (MkAcquireTenureResponseDigest (MkDigest32
    (hash_of sha256 RESPONSE_DIGEST_DOMAIN [build_response_unsigned_bytes o q n p pd]))).
Proof.
  intros Hl. unfold build_response_digest, digest_builder, add_digest_bytes. cbv zeta.
  revert Hl. generalize (build_response_unsigned_bytes o q n p pd). intros w Hl.
  run_digest RESPONSE_DIGEST_DOMAIN [w]. done.
Qed.
Lemma key_fingerprint_is key :
  signing_key_fingerprint_for sha256 key =
  Ok (MkDigest32 (hash_of sha256 AUTHORITY_KEY_FINGERPRINT_DOMAIN [vec_to_list key])).
Proof.
  unfold signing_key_fingerprint_for. run_digest AUTHORITY_KEY_FINGERPRINT_DOMAIN [vec_to_list key]. done.
Qed.
Lemma controller_fingerprint_is key :
  for_ed25519_key sha256 key =
  fingerprint_try_from_digest (MkDigest32 (hash_of sha256 CONTROLLER_KEY_FINGERPRINT_DOMAIN
    [be_bytes 2 1; be_bytes 2 1; vec_to_list key])).
Proof.
  unfold for_ed25519_key, digest_builder, add_digest_u16, add_digest_bytes,
    ACQUIRE_TENURE_ED25519_ALGORITHM, ACQUIRE_TENURE_ED25519_ALGORITHM_VERSION, field_u16.
  run_digest CONTROLLER_KEY_FINGERPRINT_DOMAIN [be_bytes 2 1; be_bytes 2 1; vec_to_list key]. done.
Qed.
Lemma envelope_digest_is p :
  proof_typed p ->
  envelope_digest sha256 p =
  Ok (MkDigest32 (hash_of sha256 WRITER_TENURE_PROOF_ENVELOPE_DIGEST_DOMAIN (envelope_fields p))).
Proof.
  intros Hp. rewrite envelope_digest_eq by done. unfold envelope_preimage.
  by rewrite hash_preimage by by apply envelope_buildable.
Qed.
End hashes.

(** ** Provisioning *)

Section validation.
Context `{Ed25519} (sha256 : list byte -> bytes32).

Lemma ensure_nonzero_iff l e u : ensure_nonzero l e = Ok u <-> nonzero l.
Proof. by rewrite ensure_nonzero_Ok, nonzero_all_zero. Qed.
Lemma controller_fingerprint_Ok key f :
  for_ed25519_key sha256 key = Ok f ->
  digest_bytes (fingerprint_value f) =
    hash_of sha256 CONTROLLER_KEY_FINGERPRINT_DOMAIN [be_bytes 2 1; be_bytes 2 1; vec_to_list key].
Proof.
  rewrite controller_fingerprint_is. generalize (hash_of sha256 CONTROLLER_KEY_FINGERPRINT_DOMAIN
    [be_bytes 2 1; be_bytes 2 1; vec_to_list key]). intros h.
  unfold fingerprint_try_from_digest. intros Hf. rust_inv. by subst.
Qed.
Lemma controller_fingerprint_total key :
  let h := hash_of sha256 CONTROLLER_KEY_FINGERPRINT_DOMAIN [be_bytes 2 1; be_bytes 2 1; vec_to_list key] in
  nonzero (vec_to_list h) ->
  for_ed25519_key sha256 key = Ok (MkControllerPublicKeyFingerprint (MkDigest32 h)).
Proof.
  cbv zeta. rewrite controller_fingerprint_is. generalize (hash_of sha256 CONTROLLER_KEY_FINGERPRINT_DOMAIN
    [be_bytes 2 1; be_bytes 2 1; vec_to_list key]). intros h Hh%nonzero_all_zero.
  unfold fingerprint_try_from_digest, validate_nonzero. cbn [digest_bytes]. by rewrite Hh.
Qed.

Lemma provisioning_validate_iff p :
  provisioning_validate sha256 p = Ok tt <-> provisioning_ok sha256 p.
Proof.
  unfold provisioning_validate, provisioning_try_new, ensure_nonzero_digest. split.
  - intros Hv. rust_inv.
    repeat match goal with
    | H : ensure_nonzero _ _ = Ok _ |- _ => apply ensure_nonzero_iff in H
    | H : ~ (_ <> _) |- _ => apply dec_stable in H
    | H : for_ed25519_key _ _ = Ok _ |- _ => apply controller_fingerprint_Ok in H
    | H : signing_key_fingerprint_for _ _ = Ok _ |- _ => rewrite key_fingerprint_is in H; injection H as H
    end.
    constructor; try (by eexists); try congruence; try done.
    + repeat (constructor; [assumption|]). constructor.
    + match goal with H : _ = fp_signing_key _ |- _ => by rewrite <-H; subst end.
  - intros [Hn (ck & Hck & Hcw) Hcf (k & Hk & Hw) Hf Ha Hv].
    repeat match goal with H : Forall _ (_ :: _) |- _ => apply Forall_cons in H as [? H] end. clear Hn.
    repeat match goal with H : nonzero ?l |- _ =>
      let H' := fresh "Hz" in pose proof (fun e => proj2 (ensure_nonzero_iff l e tt) H) as H'; revert H end.
    intros. repeat match goal with Hz : forall e, ensure_nonzero ?l e = Ok tt |- context [ensure_nonzero ?l] =>
      rewrite Hz; cbn [mbind result_mbind] end.
    rewrite Hck. cbn [ok_or mbind result_mbind]. rewrite Hcw. cbn [fail_if mbind result_mbind].
    rewrite controller_fingerprint_total by (by rewrite <-Hcf). rewrite <-Hcf.
    cbn [map_err mbind result_mbind fingerprint_value digest_bytes]. rewrite bool_decide_ne_refl.
    cbn [fail_if mbind result_mbind].
    repeat match goal with Hz : forall e, ensure_nonzero ?l e = Ok tt |- context [ensure_nonzero ?l] =>
      rewrite Hz; cbn [mbind result_mbind] end.
    rewrite Hk. cbn [ok_or mbind result_mbind]. rewrite Hw. cbn [fail_if mbind result_mbind].
    rewrite key_fingerprint_is, <-Hf, digest_eta. cbn [mbind result_mbind].
    rewrite bool_decide_ne_refl, Ha, Hv. done.
Qed.

(** ** Records *)

(** The draft whose request a record keeps. *)
Definition draft_of (p : AuthorityProvisioning) (r : AcquireRecord) : AcquireTenureRequestDraftV1 :=
  MkAcquireTenureRequestDraft
    (MkAcquireTenureIntent (pv_source_scope p) (rec_writer r)
       (MkAcquireTenureOperationId (record_operation_bytes (rec_operation_id r))))
    (az_controller_principal (pv_authorization p)) (az_controller_key (pv_authorization p))
    (MkControllerPublicKeyFingerprint (MkDigest32 (az_controller_public_key_fingerprint (pv_authorization p))))
    (rec_nonce r) (rec_response_bound r)
    (MkAcquireTenureIntentDigest (MkDigest32 (hash_of sha256 INTENT_DIGEST_DOMAIN (intent_fields p r)))).

Lemma draft_fields p r : acquire_fields (draft_of p r) = request_fields sha256 p r.
Proof. reflexivity. Qed.
Lemma draft_message p r sg : build_request_bytes (draft_of p r) (vec_to_list sg) = request_message sha256 p r sg.
Proof. by rewrite build_request_bytes_eq, draft_fields. Qed.
Lemma draft_transcript p r :
  draft_wf (draft_of p r) -> build_request_signing_transcript (draft_of p r) = Ok (request_transcript sha256 p r).
Proof.
  intros Hwf. rewrite acquire_transcript_eq, draft_fields by done. reflexivity.
Qed.
Lemma draft_eq s r q :
  intent_digest sha256 (acq_intent (acq_draft q)) = Ok (acq_intent_digest (acq_draft q)) ->
  stored_request_mismatch s r q = false <->
  acq_draft q = draft_of (sn_provisioning s) r /\
  acquire_request_digest_value (acq_request_digest q) = rec_request_digest r.
Proof.
  rewrite intent_digest_is. unfold stored_request_mismatch.
  rewrite !orb_false_iff, !bool_decide_eq_false, negb_false_iff, N.eqb_eq.
  destruct q as [d sg w g]. cbn [acq_draft acq_request_digest].
  destruct d as [[sc wr [op]] pr k [[f]] n m ig]. unfold draft_of, intent_fields. cbn. intros Hig. apply Ok_inj in Hig as <-. split.
  - intros ((((((((H1 & H2) & H3) & H4) & H5) & H6) & H7) & H8) & H9).
    apply dec_stable in H1, H2, H3, H4, H5, H7, H8, H9. by subst.
  - intros ([= -> -> -> -> -> -> -> ->] & ->). naive_solver.
Qed.

Section exchange_facts.
Context (s : AuthoritySnapshot) (r : AcquireRecord).
Abbreviation p := (sn_provisioning s).
Context (Ha : algorithm_value (algorithm (pv_proof_authority p)) = 1%N).
Context (Hv : algorithm_version (pv_proof_authority p) = 1%N).
Context (Hs : rec_supersedes_through_epoch r = (rec_epoch r - 1)%N).

Lemma proof_fields_eq : envelope_fields (record_proof s r) = proof_fields p r.
Proof.
  unfold envelope_fields, proof_fields, claim_fields, record_proof.
  cbn [proof_authority proof_claim claim_source_scope claim_writer claim_epoch claim_supersedes_through_epoch
    proof_nonce proof_signature scope_bytes writer_bytes epoch_value]. by rewrite Ha, Hv, Hs.
Qed.
Lemma claim_transcript_eq :
  transcript_encoding (proof_authority (record_proof s r)) (proof_claim (record_proof s r))
    (proof_nonce (record_proof s r)) = claim_transcript p r.
Proof.
  unfold transcript_encoding, claim_transcript, claim_fields, record_proof.
  cbn [proof_authority proof_claim claim_source_scope claim_writer claim_epoch claim_supersedes_through_epoch
    proof_nonce scope_bytes writer_bytes epoch_value encode_tlvs]. rewrite Ha, Hv, Hs, app_nil_r, <-!app_assoc.
  reflexivity.
Qed.
Lemma response_body_eq pd :
  pd = rec_proof_envelope_digest r ->
  response_fields (MkAcquireTenureOperationId (record_operation_bytes (rec_operation_id r)))
    (MkAcquireTenureRequestDigest (rec_request_digest r)) (rec_nonce r) (record_proof s r) pd = response_body p r.
Proof. intros ->. unfold response_fields, response_body. by rewrite proof_fields_eq. Qed.
Lemma response_unsigned_eq pd :
  pd = rec_proof_envelope_digest r ->
  build_response_unsigned_bytes (MkAcquireTenureOperationId (record_operation_bytes (rec_operation_id r)))
    (MkAcquireTenureRequestDigest (rec_request_digest r)) (rec_nonce r) (record_proof s r) pd =
  message ACQUIRE_RESPONSE_MAGIC 1 14 (response_body p r).
Proof.
  intros Hpd. unfold build_response_unsigned_bytes, append_value_header, message.
  rewrite append_response_unsigned_fields_eq, response_body_eq by done. by rewrite <-!app_assoc.
Qed.
Lemma response_message_eq pd rd :
  pd = rec_proof_envelope_digest r -> acquire_response_digest_value rd = rec_response_digest r ->
  build_response_bytes (MkAcquireTenureOperationId (record_operation_bytes (rec_operation_id r)))
    (MkAcquireTenureRequestDigest (rec_request_digest r)) (rec_nonce r) (record_proof s r) pd rd =
  response_message p r.
Proof. intros Hpd Hrd. rewrite build_response_bytes_eq, response_body_eq by done. by rewrite Hrd. Qed.
End exchange_facts.

Lemma controller_signed_iff p q :
  draft_wf (acq_draft q) ->
  controller_signed p q <->
  exists sg t, acq_auth_signature q = vec_to_list sg /\ acquire_signing_transcript q = Ok t /\
    verifies (az_controller_verification_key (pv_authorization p)) t sg.
Proof.
  intros Hwf. unfold controller_signed, verifies. split.
  - intros (sg & t & k & Hsg%vec_of_list_Some & Ht & Hk & Hvf). exists sg, t. split; [done|]. split; [done|]. by exists k.
  - intros (sg & t & Hsg & Ht & k & Hk & Hvf). exists sg, t, k. rewrite Hsg, vec_of_list_to_list. done.
Qed.

Lemma draft_of_wf p r high :
  provisioning_ok sha256 p -> record_ok sha256 p r high -> draft_wf (draft_of p r).
Proof.
  intros [Hn _ _ _ _ _ _] [Hr _ _ _ Hnn Hb _ _ _ _ _ _ _].
  repeat match goal with H : Forall _ (_ :: _) |- _ => apply Forall_cons in H as [? H] end.
  unfold draft_wf, draft_of. cbn [acq_intent intent_scope intent_writer intent_operation_id acq_controller_principal
    acq_controller_key acq_controller_fingerprint fingerprint_value digest_bytes acq_client_nonce
    acq_max_response_payload_bytes acquire_operation_bytes].
  rewrite !nonzero_all_zero. done.
Qed.
Lemma record_proof_wf s r high :
  provisioning_ok sha256 (sn_provisioning s) -> record_ok sha256 (sn_provisioning s) r high -> (high <= 64)%N ->
  proof_wf (record_proof s r).
Proof.
  intros [_ _ _ _ _ Ha Hv] [_ _ He Hs Hn _ _ _ _ _ _ _ _] Hh. unfold proof_wf, record_proof.
  cbn [proof_authority proof_claim claim_epoch claim_supersedes_through_epoch epoch_value proof_nonce proof_signature].
  rewrite Ha, Hv, Hs, len_vec. unfold u16_max, u64_max, MAX_TENURE_NONCE_BYTES, MAX_TENURE_SIGNATURE_BYTES. lia.
Qed.
Lemma response_body_len p r pd :
  (len (rec_nonce r) <= 64)%N ->
  (len (message ACQUIRE_RESPONSE_MAGIC 1 pd (response_body p r)) <= u64_max)%N.
Proof.
  intros Hn. unfold message. rewrite len_app, len_encode_tlvs. unfold response_body, proof_fields, claim_fields.
  cbn [app map sum_N foldr]. rewrite !len_app, !len_be_bytes, !len_vec, ?len_cons.
  change (len (@nil (list byte))) with 0%N. change (len ACQUIRE_RESPONSE_MAGIC) with 8%N. unfold u64_max. lia.
Qed.

(** Both checks of a record accept exactly the records of the specification. *)
Lemma record_sound s r :
  provisioning_ok sha256 (sn_provisioning s) -> (sn_epoch_high_water s <= 64)%N ->
  validate_record_structure s r = Ok tt -> validate_record_protocol sha256 s r = Ok tt ->
  record_ok sha256 (sn_provisioning s) r (sn_epoch_high_water s).
Proof.
  intros [_ _ _ _ _ Ha Hv] Hh
    (S1 & S2 & S3 & S4 & S5 & S6 & S7 & S8 & S9 & S10 & S11 & S12)%record_structure_Ok
    (q & a & [Hd Hf] & Hqb & Hm & Hc & _ & Hnn & Hpd & Hvs & Hdec & Hrd & Hapd & Hap)%record_protocol_Ok.
  apply acquire_draft_try_new_Ok in Hd as (Hwf & Hig & _). apply (draft_eq s r q Hig) in Hm as [Hdr Hqd].
  apply controller_signed_iff in Hc as (sg & t & Hsg & Ht & Hver); [|done]. rewrite Hdr in Hwf.
  apply finalize_Ok in Hf as (_ & Hl & Hg & Hq). rewrite Hsg, Hdr in Hl, Hg, Hq. rewrite draft_message in Hl, Hg, Hq.
  unfold acquire_signing_transcript in Ht. rewrite Hdr, (draft_transcript _ _ Hwf) in Ht. apply Ok_inj in Ht as <-.
  assert (rec_exact_request_bytes r = request_message sha256 (sn_provisioning s) r sg) as Hreq by (by rewrite <-Hqb, Hq).
  rewrite complete_request_is in Hg by (etrans; [exact Hl|by vm_compute]). apply Ok_inj in Hg.
  apply decode_for_request_Ok in Hdec as (Hwp & Hresp & Hrb).
  apply response_try_new_Ok in Hresp as (_ & Ho & Hrq & Hn & _ & Hed & Hrsd & Hcb & Hfit & _).
  assert (acquire_request_digest_value (rsp_request_digest a) = rec_request_digest r) as Hrq' by by rewrite Hrq.
  rewrite Hdr in Ho, Hn, Hfit. cbn [draft_of acq_intent intent_operation_id acq_client_nonce acq_max_response_payload_bytes] in Ho, Hn, Hfit.
  assert (rsp_request_digest a = MkAcquireTenureRequestDigest (rec_request_digest r)) as Hrq2
    by (destruct (rsp_request_digest a); simpl in Hrq'; by subst).
  rewrite Hap, Hapd in Hed. rewrite Hap, Ho, Hn, Hrq2, Hapd in Hrsd, Hcb.
  rewrite (envelope_digest_is _ _ (proof_wf_typed _ (eq_ind _ proof_wf Hwp _ Hap))), proof_fields_eq in Hed by done.
  apply Ok_inj in Hed. rewrite response_digest_is, response_unsigned_eq in Hrsd;
    [|done..|rewrite response_unsigned_eq by done; apply response_body_len, S8]. apply Ok_inj in Hrsd.
  rewrite response_message_eq in Hcb by done.
  destruct Hwf as (_ & _ & _ & _ & _ & _ & Hcn & Hbd). destruct Hvs as (vk & Hvk & Hvf). rewrite claim_transcript_eq in Hvf by done.
  constructor; try done.
  - repeat (constructor; [by apply nonzero_all_zero|]). constructor.
  - by exists sg.
  - by rewrite <-Hqd, <-Hg, Hreq.
  - by exists vk.
  - by rewrite <-Hed.
  - by rewrite <-Hrb.
  - by rewrite <-Hrd, <-Hrsd.
  - by rewrite <-Hrb.
Qed.

Lemma request_message_len p r sg : len (request_message sha256 p r sg) = (300 + len (rec_nonce r))%N.
Proof.
  unfold request_message, message. rewrite len_app, len_encode_tlvs, <-draft_fields, map_app, sum_N_app, acquire_fields_len.
  rewrite !len_app, !len_be_bytes.
  assert (len (acquire_fields (draft_of p r)) = 11%N) as -> by reflexivity.
  assert (len [vec_to_list sg] = 1%N) as -> by reflexivity.
  change (acq_client_nonce (draft_of p r)) with (rec_nonce r). cbn [map sum_N foldr]. rewrite len_vec.
  change (len ACQUIRE_REQUEST_MAGIC) with 8%N. lia.
Qed.
Lemma response_message_len p r : (0 < len (response_message p r))%N.
Proof.
  unfold response_message, message. rewrite !len_app. change (len ACQUIRE_RESPONSE_MAGIC) with 8%N. lia.
Qed.

Lemma record_structure_complete s r :
  provisioning_ok sha256 (sn_provisioning s) -> record_ok sha256 (sn_provisioning s) r (sn_epoch_high_water s) ->
  validate_record_structure s r = Ok tt.
Proof.
  intros Hp [Hr Hw He Hs Hn Hb (sg & Hreq & _) _ _ _ Hresp _ Hfit]. apply record_structure_Ok.
  repeat match goal with H : Forall _ (_ :: _) |- _ => apply Forall_cons in H as [? H] end.
  rewrite !nonzero_all_zero, Hreq, request_message_len, Hresp.
  unfold MAX_ACQUIRE_REQUEST_BYTES, MAX_ACQUIRE_RESPONSE_BYTES, MAX_TENURE_NONCE_BYTES.
  pose proof (response_message_len (sn_provisioning s) r). rewrite Hresp in Hfit. split_and!; done || lia.
Qed.

Lemma record_protocol_complete s r :
  provisioning_ok sha256 (sn_provisioning s) -> (sn_epoch_high_water s <= 64)%N ->
  record_ok sha256 (sn_provisioning s) r (sn_epoch_high_water s) ->
  validate_record_protocol sha256 s r = Ok tt.
Proof.
  intros Hp Hh Hrec. pose proof (draft_of_wf _ _ _ Hp Hrec) as Hwf. pose proof (record_proof_wf _ _ _ Hp Hrec Hh) as Hpw.
  destruct Hp as [_ _ _ _ _ Ha Hv]. destruct Hrec as [_ _ He Hs Hn Hb (sg & Hreq & Hver) Hrd Hsig Hed Hresp Hrsd Hfit].
  set (q := MkAcquireTenureRequest (draft_of (sn_provisioning s) r) (vec_to_list sg) (rec_exact_request_bytes r)
    (MkAcquireTenureRequestDigest (rec_request_digest r))).
  set (a := MkAcquireTenureResponse (MkAcquireTenureOperationId (record_operation_bytes (rec_operation_id r)))
    (MkAcquireTenureRequestDigest (rec_request_digest r)) (rec_nonce r) (record_proof s r) (rec_proof_envelope_digest r)
    (MkAcquireTenureResponseDigest (rec_response_digest r)) (rec_exact_response_bytes r)).
  assert (intent_digest sha256 (acq_intent (acq_draft q)) = Ok (acq_intent_digest (acq_draft q))) as Hig
    by apply intent_digest_is.
  assert (envelope_digest sha256 (record_proof s r) = Ok (rec_proof_envelope_digest r)) as Henv.
  { rewrite envelope_digest_is, proof_fields_eq, <-Hed, digest_eta by (done || by apply proof_wf_typed). done. }
  apply record_protocol_Ok. exists q, a. split; [split|].
  - apply acquire_draft_try_new_Ok. split; [exact Hwf|]. split; [exact Hig|done].
  - apply finalize_Ok. unfold q. cbn [acq_draft acq_auth_signature acq_request_digest].
    rewrite len_vec. split; [done|].
    rewrite draft_message, complete_request_is, <-Hreq, <-Hrd, digest_eta; [|rewrite request_message_len; unfold u64_max; lia].
    split; [|done]. rewrite Hreq, request_message_len. change MAX_ACQUIRE_TENURE_REQUEST_PAYLOAD_BYTES with 364%N. lia.
  - split; [done|]. split; [by apply (draft_eq s r q Hig)|]. split.
    { apply controller_signed_iff; [exact Hwf|]. exists sg, (request_transcript sha256 (sn_provisioning s) r).
      split; [done|]. split; [by apply draft_transcript|done]. }
    split; [lia|]. split; [exact Hn|]. split; [done|]. split.
    { unfold authority_signed. rewrite claim_transcript_eq by done. exact Hsig. }
    split; [|done]. apply decode_for_request_Ok. split; [exact Hpw|]. split; [|done].
    apply response_try_new_Ok. split.
    { apply validate_proof_binding_Ok. done. }
    unfold a. cbn [rsp_operation_id rsp_request_digest rsp_client_nonce rsp_proof rsp_proof_digest rsp_response_digest
      rsp_canonical_bytes]. split_and!; try done.
    + rewrite response_digest_is, response_unsigned_eq; [|done..|rewrite response_unsigned_eq by done; apply response_body_len; lia].
      by rewrite <-Hrsd, digest_eta.
    + by rewrite (response_message_eq s r Ha Hv Hs).
    + etrans; [exact Hfit|]. change MAX_ACQUIRE_TENURE_RESPONSE_PAYLOAD_BYTES with 938%N. lia.
Qed.

(** The internal invariant of the model is the specification. *)
Lemma history_valid s : snapshot_valid sha256 s <-> history_ok sha256 s.
Proof.
  split.
  - intros [Hp Ho Hc Hh Hq Hso He Hst Hpr]. apply provisioning_validate_iff in Hp.
    assert (sn_epoch_high_water s <= 64)%N as H64 by (rewrite Hh; exact Hc).
    constructor; try done; [unfold len, MAX_RETAINED_ACQUIRE_RECORDS in Hc; lia|by rewrite <-Hh|].
    rewrite <-Hh. rewrite Forall_forall in *. intros r Hr. apply record_sound; auto.
  - intros [Hp Ho Hc Hh Hq Hso He Hr]. rewrite <-Hh in Hq, Hr.
    assert (sn_epoch_high_water s <= 64)%N as H64 by (rewrite Hh; unfold len; lia).
    constructor; try done; [by apply provisioning_validate_iff|unfold len, MAX_RETAINED_ACQUIRE_RECORDS; lia|..];
      rewrite Forall_forall in *; intros r Hin; [apply record_structure_complete|apply record_protocol_complete]; auto.
Qed.
End validation.

(** ** Property *)

(** C14: Validation accepts exactly the histories of the specification above,
    which speaks of bytes, digests and signatures only: usable keys that match
    their fingerprints, at most 64 records in the strict order of their
    operations, the epochs 1 to n each once, a sequence one above n, and for
    every record the exact request message, signed by the provisioned
    controller over its transcript, and the exact response message with the
    claim signed by the authority, all digests recomputed.  Validation returns
    for every snapshot, and with the same verdict for any number of worker
    threads. *)
Theorem validate_accepts_exactly `{Ed25519} sha256 (parallelism : N) (s : AuthoritySnapshot) :
  (snapshot_validate sha256 parallelism s = Ok tt <-> history_ok sha256 s) /\
  snapshot_validate sha256 parallelism s <> Panic.
Proof. split; [|apply snapshot_validate_safe]. by rewrite snapshot_validate_Ok, history_valid. Qed.
