(* ===== verification/TenureCodec.v ===== *)
(** * The tenure authority's snapshot codec

    crates/paraegox-deployment/src/tenure_authority/codec.rs: the journal
    envelope of a snapshot (magic, versions, identities, sequence, payload
    length, checksum) and its fixed-layout payload. *)

From Stdlib Require Import Strings.String.
From S2P Require Import Prelude Bytes Slices Cursor KernelDigest Tlv ApplyContracts ApplyWire Signatures TenureProtocol TenureModel.
Open Scope rust_scope.

Definition JOURNAL_MAGIC : list byte := ascii_bytes "PXJR".
Definition JOURNAL_ENVELOPE_VERSION : N := 1.
Definition AUTHORITY_OWNER_KIND : N := 2.
Definition AUTHORITY_PAYLOAD_VERSION : N := 1.
Definition CHECKSUM_ALGORITHM_SHA256 : N := 1.
Definition CHECKSUM_ALGORITHM_VERSION : N := 1.
Definition ENVELOPE_HEADER_WITHOUT_CHECKSUM_BYTES : N := 91.
Definition ENVELOPE_HEADER_BYTES : N := 123.
Definition AUTHORITY_ENVELOPE_CHECKSUM_DOMAIN : list byte :=
  ascii_bytes "paraegox.deployment.tenure-authority.journal-envelope.sha256.v1".

Inductive CodecError :=
| EnvelopeTooLarge | TruncatedEnvelopeHeader | CEInvalidMagic | UnknownEnvelopeVersion
| OwnerKindMismatch | UnknownPayloadVersion | UnknownChecksumAlgorithm | UnknownChecksumVersion
| DeclaredPayloadTooLarge | TruncatedPayload | CETrailingBytes | ChecksumMismatch
| TruncatedPayloadField | TrailingPayloadBytes | FieldTooLarge | RecordCountTooLarge
| InvalidSignatureLength | UnknownIssuanceStatus | NonCanonicalEncoding | CELengthOverflow
| InternalHeaderLayout
| CodecDigest (e : DigestBuildError) | CodecModel (e : ModelError) | CodecProof (e : TenureProofError).
#[export] Instance CodecError_eq_dec : EqDecision CodecError.
Proof. solve_decision. Defined.
#[export] Instance CodecError_cursor : CursorErrors CodecError := {|
  truncated_field := TruncatedPayloadField;
  field_too_large := FieldTooLarge;
|}.
#[local] Abbreviation Res := (result CodecError).
#[local] Abbreviation Reader := (M (list byte) CodecError).

(** ** Encoding *)

Definition append_u16_bytes (encoded bytes : list byte) : Res (list byte) :=
  length ← ok_or (try_from u16_max (len bytes)) CELengthOverflow;
  Ok (encoded ++ be_bytes 2 length ++ bytes).
Definition append_u32_bytes (encoded bytes : list byte) : Res (list byte) :=
  length ← ok_or (try_from u32_max (len bytes)) CELengthOverflow;
  Ok (encoded ++ be_bytes 4 length ++ bytes).

(** [status as u8]. *)
Definition status_byte (s : IssuanceStatus) : N := match s with StatusIssued => 1 end.

Definition encode_record (encoded : list byte) (record : AcquireRecord) : Res (list byte) :=
  let encoded := encoded ++ vec_to_list (record_operation_bytes (rec_operation_id record)) in
  let encoded := encoded ++ vec_to_list (digest_bytes (rec_request_digest record)) in
  encoded ← append_u32_bytes encoded (rec_exact_request_bytes record);
  let encoded := encoded ++ vec_to_list (deployment_writer_bytes (rec_writer record)) in
  let encoded := encoded ++ be_bytes 8 (rec_epoch record) in
  let encoded := encoded ++ be_bytes 8 (rec_supersedes_through_epoch record) in
  encoded ← append_u16_bytes encoded (rec_nonce record);
  let encoded := encoded ++ be_bytes 4 (rec_response_bound record) in
  encoded ← append_u16_bytes encoded (vec_to_list (rec_signature record));
  let encoded := encoded ++ vec_to_list (digest_bytes (rec_proof_envelope_digest record)) in
  encoded ← append_u32_bytes encoded (rec_exact_response_bytes record);
  let encoded := encoded ++ vec_to_list (digest_bytes (rec_response_digest record)) in
  Ok (encoded ++ be_bytes 1 (status_byte (rec_status record))).

Definition encode_payload (snapshot : AuthoritySnapshot) : Res (list byte) :=
  let provisioning := sn_provisioning snapshot in
  let auth := pv_proof_authority provisioning in
  let authorization := pv_authorization provisioning in
  record_count ← ok_or (try_from u16_max (len (sn_acquire_records snapshot))) RecordCountTooLarge;
  let encoded := vec_to_list (deployment_scope_bytes (pv_source_scope provisioning)) in
  let encoded := encoded ++ vec_to_list (deployment_writer_bytes (pv_authorized_writer provisioning)) in
  let encoded := encoded ++ vec_to_list (authority_bytes (authority auth)) in
  let encoded := encoded ++ vec_to_list (key_bytes (key auth)) in
  let encoded := encoded ++ be_bytes 2 (algorithm_value (algorithm auth)) in
  let encoded := encoded ++ be_bytes 2 (algorithm_version auth) in
  let encoded := encoded ++ vec_to_list (pv_verification_key provisioning) in
  let encoded := encoded ++ vec_to_list (principal_bytes (az_controller_principal authorization)) in
  let encoded := encoded ++ vec_to_list (controller_key_bytes (az_controller_key authorization)) in
  let encoded := encoded ++ vec_to_list (az_controller_verification_key authorization) in
  let encoded := encoded ++ vec_to_list (az_controller_public_key_fingerprint authorization) in
  let encoded := encoded ++ vec_to_list (digest_bytes (fp_signing_key (pv_fingerprints provisioning))) in
  let encoded := encoded ++ vec_to_list (digest_bytes (fp_policy (pv_fingerprints provisioning))) in
  let encoded := encoded ++ vec_to_list (digest_bytes (fp_service_principal (pv_fingerprints provisioning))) in
  let encoded := encoded ++ be_bytes 8 (sn_epoch_high_water snapshot) in
  let encoded := encoded ++ be_bytes 2 record_count in
  try_fold encode_record encoded (sn_acquire_records snapshot).

(** ** Decoding *)

Definition decode_status (value : N) : Res IssuanceStatus :=
  if (value =? 1)%N then Ok StatusIssued else Err UnknownIssuanceStatus.

Definition decode_record : Reader AcquireRecord :=
  operation_bytes ← cursor_array 16;
  operation_id ← lift (map_err CodecModel (operation_try_from_bytes operation_bytes));
  request_digest ← cursor_array 32;
  exact_request_bytes ← cursor_u32_bytes MAX_ACQUIRE_REQUEST_BYTES;
  writer ← cursor_array 16;
  epoch ← cursor_u64;
  supersedes_through_epoch ← cursor_u64;
  nonce ← cursor_u16_bytes MAX_TENURE_NONCE_BYTES;
  response_bound ← cursor_u32;
  signature_bytes ← cursor_u16_bytes ED25519_SIGNATURE_BYTES;
  signature ← lift (ok_or (vec_of_list 64 signature_bytes) InvalidSignatureLength);
  proof_envelope_digest ← cursor_array 32;
  exact_response_bytes ← cursor_u32_bytes MAX_ACQUIRE_RESPONSE_BYTES;
  response_digest ← cursor_array 32;
  status_value ← cursor_u8;
  status ← lift (decode_status status_value);
  mret (MkAcquireRecord operation_id (MkDigest32 request_digest) exact_request_bytes
          (MkDeploymentWriterRef writer) epoch supersedes_through_epoch nonce response_bound signature
          (MkDigest32 proof_envelope_digest) exact_response_bytes (MkDigest32 response_digest) status).

Section codec.
Context `{Ed25519} (sha256 : list byte -> bytes32) (parallelism : N).

Definition read_payload (store_instance_id : StoreInstanceId) (owner_identity_fingerprint : Digest32)
    (snapshot_sequence : N) : Reader AuthoritySnapshot :=
  source_scope ← cursor_array 16;
  authorized_writer ← cursor_array 16;
  authority ← cursor_array 16;
  key ← cursor_array 16;
  algorithm_value ← cursor_u16;
  algorithm ← lift (map_err CodecProof (algorithm_try_new algorithm_value));
  algorithm_version ← cursor_u16;
  proof_authority ← lift (map_err CodecProof (authority_try_new (MkTenureAuthorityRef authority)
    (MkTenureKeyRef key) algorithm algorithm_version));
  verification_key ← cursor_array 32;
  controller_principal ← cursor_array 16;
  controller_key ← cursor_array 16;
  controller_verification_key ← cursor_array 32;
  controller_public_key_fingerprint ← cursor_array 32;
  signing_key_fingerprint ← cursor_array 32;
  policy_fingerprint ← cursor_array 32;
  service_principal_fingerprint ← cursor_array 32;
  epoch_high_water ← cursor_u64;
  record_count ← cursor_u16;
  _ ← lift (fail_if (MAX_RETAINED_ACQUIRE_RECORDS <? record_count)%N RecordCountTooLarge);
  provisioning ← lift (map_err CodecModel (provisioning_try_new sha256
    (MkDeploymentScopeId source_scope) (MkDeploymentWriterRef authorized_writer) proof_authority
    verification_key
    (MkAcquireAuthorization (MkPrincipalRef controller_principal)
       (MkControllerAcquireKeyRef controller_key) controller_verification_key
       controller_public_key_fingerprint)
    (MkAuthorityFingerprints (MkDigest32 signing_key_fingerprint) (MkDigest32 policy_fingerprint)
       (MkDigest32 service_principal_fingerprint) owner_identity_fingerprint)));
  acquire_records ← read_many (N.to_nat record_count) decode_record;
  mret (MkAuthoritySnapshot store_instance_id owner_identity_fingerprint snapshot_sequence provisioning
          epoch_high_water acquire_records).
Definition decode_payload (payload : list byte) (store_instance_id : StoreInstanceId)
    (owner_identity_fingerprint : Digest32) (snapshot_sequence : N) : Res AuthoritySnapshot :=
  match read_payload store_instance_id owner_identity_fingerprint snapshot_sequence payload with
  | (remaining, Ok snapshot) =>
      bail TrailingPayloadBytes when negb (bool_decide (remaining = [])); Ok snapshot
  | (_, Err e) => Err e
  | (_, Panic) => Panic
  end.

Definition envelope_checksum (header payload : list byte) : Res Digest32 :=
  map_err CodecDigest (
    builder ← digest_try_new AUTHORITY_ENVELOPE_CHECKSUM_DOMAIN;
    builder ← field_bytes builder header;
    builder ← field_bytes builder payload;
    Ok (finish sha256 builder)).

Definition envelope_header (snapshot : AuthoritySnapshot) (payload_length : N) : list byte :=
  JOURNAL_MAGIC
  ++ be_bytes 2 JOURNAL_ENVELOPE_VERSION
  ++ be_bytes 1 AUTHORITY_OWNER_KIND
  ++ be_bytes 2 AUTHORITY_PAYLOAD_VERSION
  ++ be_bytes 1 CHECKSUM_ALGORITHM_SHA256
  ++ be_bytes 1 CHECKSUM_ALGORITHM_VERSION
  ++ vec_to_list (store_instance_bytes (sn_store_instance_id snapshot))
  ++ vec_to_list (digest_bytes (sn_owner_identity_fingerprint snapshot))
  ++ be_bytes 8 (sn_snapshot_sequence snapshot)
  ++ be_bytes 8 payload_length.

Definition encode_snapshot (snapshot : AuthoritySnapshot) : Res (list byte) :=
  _ ← map_err CodecModel (snapshot_validate sha256 parallelism snapshot);
  payload ← encode_payload snapshot;
  payload_length ← ok_or (try_from u64_max (len payload)) CELengthOverflow;
  let header := envelope_header snapshot payload_length in
  bail InternalHeaderLayout when negb (len header =? ENVELOPE_HEADER_WITHOUT_CHECKSUM_BYTES)%N;
  checksum ← envelope_checksum header payload;
  total_length ← ok_or (checked_add u64_max ENVELOPE_HEADER_BYTES (len payload)) CELengthOverflow;
  bail EnvelopeTooLarge when (AUTHORITY_SNAPSHOT_MAX_BYTES <? total_length)%N;
  Ok (header ++ vec_to_list (digest_bytes checksum) ++ payload).

(** The fields of the header: identities, sequence and payload length. *)
Definition read_header : Reader (StoreInstanceId * Digest32 * N * N) :=
  magic ← cursor_array 4;
  _ ← lift (fail_if (bool_decide (vec_to_list magic <> JOURNAL_MAGIC)) CEInvalidMagic);
  version ← cursor_u16;
  _ ← lift (fail_if (negb (version =? JOURNAL_ENVELOPE_VERSION)%N) UnknownEnvelopeVersion);
  kind ← cursor_u8;
  _ ← lift (fail_if (negb (kind =? AUTHORITY_OWNER_KIND)%N) OwnerKindMismatch);
  payload_version ← cursor_u16;
  _ ← lift (fail_if (negb (payload_version =? AUTHORITY_PAYLOAD_VERSION)%N) UnknownPayloadVersion);
  checksum_algorithm ← cursor_u8;
  _ ← lift (fail_if (negb (checksum_algorithm =? CHECKSUM_ALGORITHM_SHA256)%N) UnknownChecksumAlgorithm);
  checksum_version ← cursor_u8;
  _ ← lift (fail_if (negb (checksum_version =? CHECKSUM_ALGORITHM_VERSION)%N) UnknownChecksumVersion);
  store_bytes ← cursor_array 32;
  store_instance_id ← lift (map_err CodecModel (store_instance_try_from_bytes store_bytes));
  owner_identity_fingerprint ← cursor_array 32;
  snapshot_sequence ← cursor_u64;
  declared_payload_length ← cursor_u64;
  mret (store_instance_id, MkDigest32 owner_identity_fingerprint, snapshot_sequence,
        declared_payload_length).

Definition decode_snapshot (encoded : list byte) : Res AuthoritySnapshot :=
  bail EnvelopeTooLarge when (AUTHORITY_SNAPSHOT_MAX_BYTES <? len encoded)%N;
  bail TruncatedEnvelopeHeader when (len encoded <? ENVELOPE_HEADER_BYTES)%N;
  header ← slice_range encoded 0 ENVELOPE_HEADER_WITHOUT_CHECKSUM_BYTES;
  match read_header header with
  | (remaining, Ok (store_instance_id, owner_identity_fingerprint, snapshot_sequence,
                    declared_payload_length)) =>
      bail InternalHeaderLayout when negb (bool_decide (remaining = []));
      payload_length ← ok_or (try_from u64_max declared_payload_length) DeclaredPayloadTooLarge;
      expected_length ← ok_or (checked_add u64_max ENVELOPE_HEADER_BYTES payload_length)
        DeclaredPayloadTooLarge;
      bail DeclaredPayloadTooLarge when (AUTHORITY_SNAPSHOT_MAX_BYTES <? expected_length)%N;
      bail TruncatedPayload when (len encoded <? expected_length)%N;
      bail CETrailingBytes when (expected_length <? len encoded)%N;
      checksum_bytes ← slice_range encoded ENVELOPE_HEADER_WITHOUT_CHECKSUM_BYTES ENVELOPE_HEADER_BYTES;
      checksum ← ok_or (vec_of_list 32 checksum_bytes) TruncatedEnvelopeHeader;
      payload ← slice_range encoded ENVELOPE_HEADER_BYTES (len encoded);
      actual_checksum ← envelope_checksum header payload;
      bail ChecksumMismatch when bool_decide (actual_checksum <> MkDigest32 checksum);
      snapshot ← decode_payload payload store_instance_id owner_identity_fingerprint snapshot_sequence;
      _ ← map_err CodecModel (snapshot_validate sha256 parallelism snapshot);
      canonical ← encode_snapshot snapshot;
      bail NonCanonicalEncoding when bool_decide (canonical <> encoded);
      Ok snapshot
  | (_, Err e) => Err e
  | (_, Panic) => Panic
  end.
End codec.

(** ** What the encoder writes *)

Definition record_bytes (r : AcquireRecord) : list byte :=
  operation_key r ++ vec_to_list (digest_bytes (rec_request_digest r))
  ++ (be_bytes 4 (len (rec_exact_request_bytes r)) ++ rec_exact_request_bytes r)
  ++ vec_to_list (deployment_writer_bytes (rec_writer r))
  ++ be_bytes 8 (rec_epoch r) ++ be_bytes 8 (rec_supersedes_through_epoch r)
  ++ (be_bytes 2 (len (rec_nonce r)) ++ rec_nonce r)
  ++ be_bytes 4 (rec_response_bound r)
  ++ (be_bytes 2 (len (vec_to_list (rec_signature r))) ++ vec_to_list (rec_signature r))
  ++ vec_to_list (digest_bytes (rec_proof_envelope_digest r))
  ++ (be_bytes 4 (len (rec_exact_response_bytes r)) ++ rec_exact_response_bytes r)
  ++ vec_to_list (digest_bytes (rec_response_digest r))
  ++ be_bytes 1 (status_byte (rec_status r)).
(** The part of the payload before the records. *)
Definition provisioning_bytes (p : AuthorityProvisioning) (high_water record_count : N)
    (rest : list byte) : list byte :=
  vec_to_list (deployment_scope_bytes (pv_source_scope p))
  ++ vec_to_list (deployment_writer_bytes (pv_authorized_writer p))
  ++ vec_to_list (authority_bytes (authority (pv_proof_authority p)))
  ++ vec_to_list (key_bytes (key (pv_proof_authority p)))
  ++ be_bytes 2 (algorithm_value (algorithm (pv_proof_authority p)))
  ++ be_bytes 2 (algorithm_version (pv_proof_authority p))
  ++ vec_to_list (pv_verification_key p)
  ++ vec_to_list (principal_bytes (az_controller_principal (pv_authorization p)))
  ++ vec_to_list (controller_key_bytes (az_controller_key (pv_authorization p)))
  ++ vec_to_list (az_controller_verification_key (pv_authorization p))
  ++ vec_to_list (az_controller_public_key_fingerprint (pv_authorization p))
  ++ vec_to_list (digest_bytes (fp_signing_key (pv_fingerprints p)))
  ++ vec_to_list (digest_bytes (fp_policy (pv_fingerprints p)))
  ++ vec_to_list (digest_bytes (fp_service_principal (pv_fingerprints p)))
  ++ be_bytes 8 high_water ++ be_bytes 2 record_count ++ rest.
Definition payload_bytes (s : AuthoritySnapshot) : list byte :=
  provisioning_bytes (sn_provisioning s) (sn_epoch_high_water s) (len (sn_acquire_records s))
    (concat (record_bytes <$> sn_acquire_records s)).

Lemma append_u16_bytes_eq e b : (len b <= u16_max)%N -> append_u16_bytes e b = Ok (e ++ be_bytes 2 (len b) ++ b).
Proof. intros Hb. unfold append_u16_bytes. by rewrite try_from_ok. Qed.
Lemma append_u32_bytes_eq e b : (len b <= u32_max)%N -> append_u32_bytes e b = Ok (e ++ be_bytes 4 (len b) ++ b).
Proof. intros Hb. unfold append_u32_bytes. by rewrite try_from_ok. Qed.

Lemma encode_record_eq s e r :
  validate_record_structure s r = Ok tt -> encode_record e r = Ok (e ++ record_bytes r).
Proof.
  intros Hst. apply record_structure_Ok in Hst as (_ & _ & Hq & _ & _ & _ & _ & Hn & Hb & Ha & _ & _).
  unfold MAX_ACQUIRE_REQUEST_BYTES, MAX_ACQUIRE_RESPONSE_BYTES, MAX_TENURE_NONCE_BYTES in *.
  unfold encode_record. rewrite append_u32_bytes_eq by (unfold u32_max; lia). rewrite bind_Ok_l.
  rewrite append_u16_bytes_eq by (unfold u16_max; lia). rewrite bind_Ok_l.
  rewrite append_u16_bytes_eq by (rewrite len_vec; vm_compute; discriminate). rewrite bind_Ok_l.
  rewrite append_u32_bytes_eq by (unfold u32_max; lia). rewrite bind_Ok_l.
  unfold record_bytes. by rewrite <-!app_assoc.
Qed.
Lemma encode_records_eq s e l :
  Forall (fun r => validate_record_structure s r = Ok tt) l ->
  try_fold encode_record e l = Ok (e ++ concat (record_bytes <$> l)).
Proof.
  revert e; induction l as [|r l IH]; intros e; cbn [try_fold fmap list_fmap concat].
  { by rewrite app_nil_r. }
  intros [Hr Hl]%Forall_cons. rewrite (encode_record_eq s), bind_Ok_l, IH by done. by rewrite <-app_assoc.
Qed.

Lemma reads_record s r :
  validate_record_structure s r = Ok tt -> (sn_epoch_high_water s <= u64_max)%N ->
  reads decode_record r (record_bytes r).
Proof.
  intros Hst Hu.
  apply record_structure_Ok in Hst as (Ho & _ & Hq & _ & _ & He & Hsup & Hn & Hb & Ha & _ & _).
  unfold decode_record, record_bytes.
  assert (forall k, k <= 64 * 1024 -> k <= u32_max)%N as H32 by (unfold u32_max; lia).
  eapply reads_bind; [apply reads_array|].
  eapply reads_lift; [unfold operation_try_from_bytes; rewrite Ho; reflexivity|].
  eapply reads_bind; [apply reads_array|].
  eapply reads_bind; [apply reads_u32_bytes; [apply Hq|apply H32, Hq]|].
  eapply reads_bind; [apply reads_array|].
  eapply reads_bind; [apply reads_u64; lia|].
  eapply reads_bind; [apply reads_u64; lia|].
  eapply reads_bind; [apply reads_u16_bytes; unfold u16_max, MAX_TENURE_NONCE_BYTES in *; lia|].
  eapply reads_bind; [apply reads_u32, H32; unfold MAX_ACQUIRE_RESPONSE_BYTES in *; lia|].
  eapply reads_bind; [apply reads_u16_bytes; rewrite len_vec; vm_compute; discriminate|].
  eapply reads_lift; [rewrite vec_of_list_to_list; reflexivity|].
  eapply reads_bind; [apply reads_array|].
  eapply reads_bind; [apply reads_u32_bytes; unfold u32_max, MAX_ACQUIRE_RESPONSE_BYTES in *; lia|].
  eapply reads_bind; [apply reads_array|].
  rewrite <-(app_nil_r (be_bytes 1 _)).
  eapply reads_bind; [apply reads_u8; by destruct (rec_status r)|].
  eapply reads_lift; [by destruct (rec_status r)|].
  destruct r as [[?] [?] ? [?] ? ? ? ? ? [?] ? [?] []]. apply reads_ret.
Qed.

Section codec_facts.
Context `{Ed25519} (sha256 : list byte -> bytes32).
Implicit Types (s : AuthoritySnapshot).

Lemma provisioning_rebuilt p :
  provisioning_validate sha256 p = Ok tt ->
  provisioning_try_new sha256 (pv_source_scope p) (pv_authorized_writer p) (pv_proof_authority p)
    (pv_verification_key p) (pv_authorization p) (pv_fingerprints p) = Ok p /\
  algorithm_value (algorithm (pv_proof_authority p)) = 1%N /\
  algorithm_version (pv_proof_authority p) = 1%N.
Proof.
  unfold provisioning_validate. intros (p' & Hp & _)%bind_Ok. rewrite Hp.
  unfold provisioning_try_new in Hp. rust_inv. split; [by destruct p|done].
Qed.

Lemma encode_payload_eq s : snapshot_valid sha256 s -> encode_payload s = Ok (payload_bytes s).
Proof.
  intros Hv. pose proof (sv_capacity _ s Hv) as Hc. unfold MAX_RETAINED_ACQUIRE_RECORDS in Hc.
  unfold encode_payload. rewrite try_from_ok by (unfold u16_max; lia). cbn [ok_or]. rewrite bind_Ok_l.
  rewrite (encode_records_eq s) by apply Hv. unfold payload_bytes, provisioning_bytes.
  by rewrite <-!app_assoc.
Qed.

Lemma reads_payload s :
  snapshot_valid sha256 s ->
  reads (read_payload sha256 (sn_store_instance_id s) (sn_owner_identity_fingerprint s)
           (sn_snapshot_sequence s)) s (payload_bytes s).
Proof.
  intros Hv. destruct (provisioning_rebuilt _ (sv_provisioning _ s Hv)) as (Hp & Ha & Hav).
  pose proof (sv_capacity _ s Hv) as Hc. pose proof (sv_high_water _ s Hv) as Hh.
  pose proof (sv_owner _ s Hv) as Ho.
  assert (sn_epoch_high_water s <= u64_max)%N as Hu
    by (unfold u64_max, MAX_RETAINED_ACQUIRE_RECORDS in *; lia).
  assert (reads (read_many (N.to_nat (len (sn_acquire_records s))) decode_record) (sn_acquire_records s)
            (concat (record_bytes <$> sn_acquire_records s))) as Hr.
  { unfold len. rewrite Nat2N.id. apply reads_many. intros r Hr.
    eapply reads_record; [|exact Hu]. pose proof (sv_structure _ s Hv) as Hst.
    rewrite Forall_forall in Hst. by apply Hst. }
  unfold read_payload, payload_bytes, provisioning_bytes. clear Hh Hv.
  destruct s as [i o q p h l]. cbn [sn_store_instance_id sn_owner_identity_fingerprint
    sn_snapshot_sequence sn_provisioning sn_epoch_high_water sn_acquire_records] in *. subst o.
  do 4 (eapply reads_bind; [apply reads_array|]).
  eapply reads_bind; [apply reads_u16; rewrite Ha; unfold u16_max; lia|].
  eapply reads_lift; [apply map_err_Ok, algorithm_try_new_Ok; split; [reflexivity|lia]|].
  eapply reads_bind; [apply reads_u16; rewrite Hav; unfold u16_max; lia|].
  eapply reads_lift; [apply map_err_Ok, authority_try_new_Ok; split; [reflexivity|lia]|].
  do 8 (eapply reads_bind; [apply reads_array|]).
  eapply reads_bind; [by apply reads_u64|].
  eapply reads_bind; [apply reads_u16; unfold u16_max, MAX_RETAINED_ACQUIRE_RECORDS in *; lia|].
  eapply reads_lift; [by rewrite (proj2 (N.ltb_ge _ _))|].
  eapply reads_lift; [apply map_err_Ok|].
  - destruct p as [[?] [?] [[?] [?] [?] ?] ? [[?] [?] ? ?] [[?] [?] [?] [?]]]. exact Hp.
  - rewrite <-(app_nil_r (concat _)). eapply reads_bind; [exact Hr|].
    destruct p. apply reads_ret.
Qed.

Definition checksum_fields (header payload : list byte) : list (list byte) := [header; payload].
Lemma envelope_checksum_eq header payload :
  (len header <= u64_max)%N -> (len payload <= u64_max)%N ->
  envelope_checksum sha256 header payload =
  Ok (MkDigest32 (sha256 (preimage AUTHORITY_ENVELOPE_CHECKSUM_DOMAIN (checksum_fields header payload)))).
Proof.
  intros Hh Hp.
  destruct (buildable_finish sha256 AUTHORITY_ENVELOPE_CHECKSUM_DOMAIN (checksum_fields header payload))
    as (b & Hb & Hf).
  { split; [done|]. split; [vm_compute; discriminate|]. split; [|vm_compute; discriminate].
    by repeat constructor. }
  unfold envelope_checksum. rewrite <-Hf. revert Hb. generalize AUTHORITY_ENVELOPE_CHECKSUM_DOMAIN.
  intros domain Hb. unfold checksum_fields in Hb. run_build Hb. by injection Hb as ->.
Qed.
Lemma envelope_checksum_safe header payload : envelope_checksum sha256 header payload <> Panic.
Proof. unfold envelope_checksum. no_panic. Qed.

Lemma len_envelope_header s n : len (envelope_header s n) = ENVELOPE_HEADER_WITHOUT_CHECKSUM_BYTES.
Proof. unfold envelope_header. by rewrite !len_app, !len_be_bytes, !len_vec. Qed.

(** The checksum of the envelope, and the whole envelope. *)
Definition snapshot_checksum s : bytes32 :=
  sha256 (preimage AUTHORITY_ENVELOPE_CHECKSUM_DOMAIN
    (checksum_fields (envelope_header s (len (payload_bytes s))) (payload_bytes s))).
Definition snapshot_bytes s : list byte :=
  envelope_header s (len (payload_bytes s)) ++ vec_to_list (snapshot_checksum s) ++ payload_bytes s.

Lemma encode_snapshot_Ok n s b :
  encode_snapshot sha256 n s = Ok b <->
  snapshot_valid sha256 s /\ b = snapshot_bytes s /\ (len b <= AUTHORITY_SNAPSHOT_MAX_BYTES)%N.
Proof.
  unfold encode_snapshot.
  assert (ENVELOPE_HEADER_BYTES = 123 /\ AUTHORITY_SNAPSHOT_MAX_BYTES = 1048576 /\ u64_max = 2 ^ 64 - 1)%N
    as (E1 & E2 & E3) by done.
  assert (len (snapshot_bytes s) = 123 + len (payload_bytes s))%N as Hlen.
  { unfold snapshot_bytes. rewrite !len_app, len_envelope_header, len_vec. unfold
      ENVELOPE_HEADER_WITHOUT_CHECKSUM_BYTES. lia. }
  split.
  - intros ([] & Hv%map_err_Ok%snapshot_validate_Ok & Hk)%bind_Ok.
    rewrite encode_payload_eq, bind_Ok_l in Hk by done.
    apply bind_Ok in Hk as (m & (-> & Hm)%ok_or_Ok%try_from_Some & Hk).
    rewrite len_envelope_header in Hk. cbn [negb N.eqb Pos.eqb ENVELOPE_HEADER_WITHOUT_CHECKSUM_BYTES] in Hk.
    rewrite bind_pass, envelope_checksum_eq, bind_Ok_l in Hk
      by (done || rewrite len_envelope_header; vm_compute; discriminate).
    apply bind_Ok in Hk as (m & (-> & Hm')%ok_or_Ok%checked_add_Some & Hk).
    apply bind_unit_Ok in Hk as [Hx%fail_if_Ok%N.ltb_ge [= <-]].
    split; [done|]. split; [done|]. change (len (snapshot_bytes s) <= AUTHORITY_SNAPSHOT_MAX_BYTES)%N. lia.
  - intros (Hv & -> & Hb).
    rewrite (proj2 (snapshot_validate_Ok sha256 n s) Hv). cbn [map_err].
    rewrite bind_Ok_l, encode_payload_eq, bind_Ok_l by done.
    rewrite try_from_ok by lia. cbn [ok_or]. rewrite bind_Ok_l, len_envelope_header.
    cbn [negb N.eqb Pos.eqb ENVELOPE_HEADER_WITHOUT_CHECKSUM_BYTES]. rewrite bind_pass.
    rewrite envelope_checksum_eq, bind_Ok_l by (lia || rewrite len_envelope_header; vm_compute; discriminate).
    rewrite checked_add_ok by lia. cbn [ok_or]. rewrite bind_Ok_l, (proj2 (N.ltb_ge _ _)) by lia. done.
Qed.

Lemma reads_header s n :
  all_zero (vec_to_list (store_instance_bytes (sn_store_instance_id s))) = false ->
  (sn_snapshot_sequence s <= u64_max)%N -> (n <= u64_max)%N ->
  reads read_header (sn_store_instance_id s, sn_owner_identity_fingerprint s, sn_snapshot_sequence s, n)
    (envelope_header s n).
Proof.
  intros Hz Hs Hn. unfold read_header, envelope_header.
  destruct (vec_of_list_total 4 JOURNAL_MAGIC) as [v Hv]; [done|]. apply vec_of_list_Some in Hv.
  rewrite <-Hv.
  eapply reads_bind; [apply reads_array|]. eapply reads_lift; [by rewrite ?Hv, bool_decide_ne_refl|].
  eapply reads_bind; [by apply reads_u16|]. eapply reads_lift; [done|].
  eapply reads_bind; [by apply reads_u8|]. eapply reads_lift; [done|].
  eapply reads_bind; [by apply reads_u16|]. eapply reads_lift; [done|].
  eapply reads_bind; [by apply reads_u8|]. eapply reads_lift; [done|].
  eapply reads_bind; [by apply reads_u8|]. eapply reads_lift; [done|].
  eapply reads_bind; [apply reads_array|].
  eapply reads_lift; [unfold store_instance_try_from_bytes; rewrite Hz; reflexivity|].
  eapply reads_bind; [apply reads_array|]. eapply reads_bind; [by apply reads_u64|].
  rewrite <-(app_nil_r (be_bytes 8 n)). eapply reads_bind; [by apply reads_u64|].
  destruct (sn_store_instance_id s), (sn_owner_identity_fingerprint s). apply reads_ret.
Qed.
End codec_facts.

Section codec_round_trip.
Context `{Ed25519} (sha256 : list byte -> bytes32) (n : N).
Implicit Types (s : AuthoritySnapshot) (b : list byte).

Lemma read_header_yields :
  yields read_header (fun h => all_zero (vec_to_list (store_instance_bytes h.1.1.1)) = false).
Proof.
  unfold read_header. do 13 (apply yields_bind; intros ?).
  apply yields_lift. intros i Hi. do 3 (apply yields_bind; intros ?). apply yields_ret. cbn [fst].
  apply map_err_Ok in Hi. unfold store_instance_try_from_bytes in Hi.
  apply bind_Ok in Hi as (_ & Hz%fail_if_Ok & [= <-]). done.
Qed.
Lemma read_payload_yields i o q :
  yields (read_payload sha256 i o q) (fun s => sn_store_instance_id s = i).
Proof. unfold read_payload. do 21 (apply yields_bind; intros ?). by apply yields_ret. Qed.
Lemma decode_payload_id payload i o q s :
  decode_payload sha256 payload i o q = Ok s -> sn_store_instance_id s = i.
Proof.
  unfold decode_payload. pose proof (read_payload_yields i o q payload) as Hy.
  destruct (read_payload sha256 i o q payload) as [l [s'|e|]]; [|done|done].
  intros [_ [= <-]]%bind_unit_Ok. by eapply Hy.
Qed.
Lemma decode_payload_eq s :
  snapshot_valid sha256 s ->
  decode_payload sha256 (payload_bytes s) (sn_store_instance_id s) (sn_owner_identity_fingerprint s)
    (sn_snapshot_sequence s) = Ok s.
Proof. intros Hv. unfold decode_payload. by rewrite (reads_all _ _ _ (reads_payload sha256 s Hv)). Qed.

Lemma decode_snapshot_Ok b s :
  decode_snapshot sha256 n b = Ok s <->
  encode_snapshot sha256 n s = Ok b /\
  all_zero (vec_to_list (store_instance_bytes (sn_store_instance_id s))) = false.
Proof.
  unfold decode_snapshot. split.
  - intros [_ Hk]%bind_unit_Ok. apply bind_unit_Ok in Hk as [_ Hk]. apply bind_Ok in Hk as (h & _ & Hk).
    pose proof (read_header_yields h) as Hy. destruct (read_header h) as [l [[[[i o] q] m]|e|]]; [|done|done].
    specialize (Hy l _ eq_refl). cbn [fst] in Hy. rust_inv.
    match goal with Hp : decode_payload _ _ _ _ _ = Ok _ |- _ => apply decode_payload_id in Hp; subst end.
    match goal with Hc : ~ (_ <> b) |- _ => apply dec_stable in Hc; subst end. done.
  - intros [He Hz]. pose proof He as (Hv & Hb & Hl)%encode_snapshot_Ok. subst b.
    assert (AUTHORITY_SNAPSHOT_MAX_BYTES = 1048576 /\ u64_max = 2 ^ 64 - 1)%N as [E2 E3] by done.
    set (p := payload_bytes s) in *. set (hd := envelope_header s (len p)).
    assert (snapshot_bytes sha256 s = hd ++ vec_to_list (snapshot_checksum sha256 s) ++ p) as Hb by done.
    pose proof (len_envelope_header s (len p)) as Hh. fold hd in Hh.
    assert (len (snapshot_bytes sha256 s) = 123 + len p)%N as Hlen.
    { rewrite Hb, !len_app, Hh, len_vec. unfold ENVELOPE_HEADER_WITHOUT_CHECKSUM_BYTES. lia. }
    rewrite (proj2 (N.ltb_ge AUTHORITY_SNAPSHOT_MAX_BYTES (len (snapshot_bytes sha256 s)))) by done.
    rewrite bind_pass.
    rewrite (proj2 (N.ltb_ge (len (snapshot_bytes sha256 s)) ENVELOPE_HEADER_BYTES)) by (unfold ENVELOPE_HEADER_BYTES; lia). rewrite bind_pass.
    rewrite (slice_at _ [] hd (vec_to_list (snapshot_checksum sha256 s) ++ p) 0
      ENVELOPE_HEADER_WITHOUT_CHECKSUM_BYTES); [|exact Hb|reflexivity|by rewrite Hh]. rewrite bind_Ok_l.
    unfold hd at 1. pose proof (sv_capacity _ s Hv) as Hc. pose proof (sv_high_water _ s Hv) as Hhw.
    pose proof (sv_sequence _ s Hv) as Hsq. unfold MAX_RETAINED_ACQUIRE_RECORDS in Hc.
    rewrite (reads_all _ _ _ (reads_header s (len p) Hz ltac:(lia) ltac:(lia))).
    cbn [bool_decide negb]. rewrite bool_decide_eq_true_2 by done. cbn [negb]. rewrite bind_pass.
    rewrite try_from_ok by lia. cbn [ok_or]. rewrite bind_Ok_l.
    rewrite checked_add_ok by (unfold ENVELOPE_HEADER_BYTES; lia). cbn [ok_or]. rewrite bind_Ok_l.
    change (ENVELOPE_HEADER_BYTES + len p)%N with (123 + len p)%N. rewrite Hlen in Hl.
    rewrite (proj2 (N.ltb_ge AUTHORITY_SNAPSHOT_MAX_BYTES (123 + len p))) by done. rewrite bind_pass, Hlen.
    rewrite !N.ltb_irrefl, !bind_pass.
    rewrite (slice_at _ hd (vec_to_list (snapshot_checksum sha256 s)) p
      ENVELOPE_HEADER_WITHOUT_CHECKSUM_BYTES ENVELOPE_HEADER_BYTES);
      [|exact Hb|by rewrite Hh|by rewrite len_vec].
    rewrite bind_Ok_l, vec_of_list_to_list. cbn [ok_or]. rewrite bind_Ok_l.
    rewrite (slice_at _ (hd ++ vec_to_list (snapshot_checksum sha256 s)) p [] ENVELOPE_HEADER_BYTES (123 + len p));
      [|by rewrite Hb, app_nil_r, app_assoc|by rewrite len_app, Hh, len_vec|done].
    rewrite bind_Ok_l, envelope_checksum_eq by (lia || rewrite Hh; vm_compute; discriminate).
    rewrite bind_Ok_l. fold (snapshot_checksum sha256 s). unfold hd, p.
    fold (snapshot_checksum sha256 s). rewrite bool_decide_ne_refl, bind_pass.
    rewrite decode_payload_eq, bind_Ok_l by done.
    rewrite (proj2 (snapshot_validate_Ok sha256 n s) Hv). cbn [map_err]. rewrite bind_Ok_l, He, bind_Ok_l.
    by rewrite bool_decide_ne_refl.
Qed.
End codec_round_trip.

(** ** Freedom from panics *)

Section codec_safe.
Context `{Ed25519} (sha256 : list byte -> bytes32) (n : N).

Lemma decode_record_safe : reader_safe decode_record.
Proof.
  unfold decode_record, operation_try_from_bytes, decode_status. reader_safe.
  apply reader_safe_lift. by destruct (_ =? 1)%N.
Qed.
#[local] Hint Resolve decode_record_safe : reader.
#[local] Hint Resolve provisioning_try_new_safe : no_panic.
Lemma read_payload_safe i o q : reader_safe (read_payload sha256 i o q).
Proof. unfold read_payload, algorithm_try_new, authority_try_new. reader_safe. Qed.
Lemma read_header_safe : reader_safe read_header.
Proof. unfold read_header, store_instance_try_from_bytes. reader_safe. Qed.
Lemma decode_payload_safe p i o q : decode_payload sha256 p i o q <> Panic.
Proof.
  unfold decode_payload. pose proof (read_payload_safe i o q p) as Hs.
  destruct (read_payload sha256 i o q p) as [l [s|e|]]; [no_panic|done|done].
Qed.
Lemma append_u16_bytes_safe e b : append_u16_bytes e b <> Panic.
Proof. unfold append_u16_bytes. no_panic. Qed.
Lemma append_u32_bytes_safe e b : append_u32_bytes e b <> Panic.
Proof. unfold append_u32_bytes. no_panic. Qed.
#[local] Hint Resolve append_u16_bytes_safe append_u32_bytes_safe : no_panic.
Lemma encode_snapshot_safe s : encode_snapshot sha256 n s <> Panic.
Proof.
  unfold encode_snapshot. apply no_panic_bind; [apply no_panic_map_err, snapshot_validate_safe|intros _ _].
  apply no_panic_bind.
  { unfold encode_payload. apply no_panic_bind; [no_panic|intros ? _].
    apply try_fold_safe. intros e r. unfold encode_record. no_panic. }
  intros p _. do 2 (apply no_panic_bind; [no_panic|intros ? _]).
  apply no_panic_bind; [apply envelope_checksum_safe|intros ? _]. no_panic.
Qed.
Lemma decode_snapshot_safe b : decode_snapshot sha256 n b <> Panic.
Proof.
  unfold decode_snapshot. apply no_panic_bind; [no_panic|intros _ _].
  apply no_panic_bind; [no_panic|intros [] Hl]. apply fail_if_Ok, N.ltb_ge in Hl.
  unfold ENVELOPE_HEADER_BYTES in Hl.
  destruct (slice_range_total (E:=CodecError) b 0 ENVELOPE_HEADER_WITHOUT_CHECKSUM_BYTES) as [h ->];
    [done|unfold ENVELOPE_HEADER_WITHOUT_CHECKSUM_BYTES; lia|]. rewrite bind_Ok_l.
  pose proof (read_header_safe h) as Hs. destruct (read_header h) as [l [[[[i o] q] m]|e|]]; [|done|done].
  do 6 (apply no_panic_bind; [no_panic|intros ? _]).
  destruct (slice_range_total (E:=CodecError) b ENVELOPE_HEADER_WITHOUT_CHECKSUM_BYTES ENVELOPE_HEADER_BYTES)
    as [c ->]; [done|done|]. rewrite bind_Ok_l.
  apply no_panic_bind; [no_panic|intros ? _].
  destruct (slice_range_total (E:=CodecError) b ENVELOPE_HEADER_BYTES (len b)) as [p ->];
    [done|done|]. rewrite bind_Ok_l.
  apply no_panic_bind; [apply envelope_checksum_safe|intros ? _].
  apply no_panic_bind; [no_panic|intros _ _].
  apply no_panic_bind; [apply decode_payload_safe|intros s _].
  apply no_panic_bind; [apply no_panic_map_err, snapshot_validate_safe|intros _ _].
  apply no_panic_bind; [apply encode_snapshot_safe|intros ? _]. no_panic.
Qed.
End codec_safe.

(** ** Size of a snapshot *)

Section size.
Context `{Ed25519} (sha256 : list byte -> bytes32).

Definition MAX_RECORD_BYTES : N :=
  355 + MAX_ACQUIRE_TENURE_REQUEST_PAYLOAD_BYTES + MAX_ACQUIRE_TENURE_RESPONSE_PAYLOAD_BYTES.
Lemma len_acquire_record_bytes s r :
  validate_record_protocol sha256 s r = Ok tt -> (len (record_bytes r) <= MAX_RECORD_BYTES)%N.
Proof.
  intros (q & a & [Hd Hq] & Hqb & _ & _ & _ & [_ Hn] & _ & _ & Ha & _)%record_protocol_Ok.
  apply finalize_Ok in Hq as (_ & Hql & _ & Hqw).
  apply decode_for_request_Ok in Ha as (_ & Ha & Hab). apply response_try_new_Ok in Ha.
  destruct Ha as (_ & _ & _ & _ & _ & _ & _ & _ & _ & Hal).
  pose proof (f_equal acq_canonical_bytes Hqw) as Hc. cbn [acq_canonical_bytes] in Hc.
  rewrite <-Hc, Hqb in Hql. rewrite Hab in Hal.
  unfold record_bytes. rewrite !len_app, !len_be_bytes, !len_vec.
  unfold MAX_RECORD_BYTES, MAX_TENURE_NONCE_BYTES in *. lia.
Qed.
Lemma valid_snapshot_fits s :
  snapshot_valid sha256 s -> (len (snapshot_bytes sha256 s) <= AUTHORITY_SNAPSHOT_MAX_BYTES)%N.
Proof.
  intros Hv. pose proof (sv_capacity _ s Hv) as Hc. pose proof (sv_protocol _ s Hv) as Hp.
  assert (len (concat (record_bytes <$> sn_acquire_records s))
          <= len (sn_acquire_records s) * MAX_RECORD_BYTES)%N as Hr.
  { clear Hc Hv. induction Hp as [|r l Hr _ IH]; [done|]. cbn [fmap list_fmap concat].
    rewrite len_app, len_cons. apply len_acquire_record_bytes in Hr. lia. }
  unfold snapshot_bytes, payload_bytes, provisioning_bytes.
  rewrite !len_app, len_envelope_header, !len_be_bytes, !len_vec.
  assert (64 * MAX_RECORD_BYTES + 1000 <= AUTHORITY_SNAPSHOT_MAX_BYTES)%N as Hm by (vm_compute; discriminate).
  unfold MAX_RETAINED_ACQUIRE_RECORDS, ENVELOPE_HEADER_WITHOUT_CHECKSUM_BYTES in *.
  assert (len (sn_acquire_records s) * MAX_RECORD_BYTES <= 64 * MAX_RECORD_BYTES)%N by nia. lia.
Qed.
Lemma encode_snapshot_valid n s :
  snapshot_valid sha256 s -> encode_snapshot sha256 n s = Ok (snapshot_bytes sha256 s).
Proof. intros Hv. apply encode_snapshot_Ok. split_and!; [done..|]. by apply valid_snapshot_fits. Qed.
Lemma decode_snapshot_valid n s :
  snapshot_valid sha256 s -> all_zero (vec_to_list (store_instance_bytes (sn_store_instance_id s))) = false ->
  decode_snapshot sha256 n (snapshot_bytes sha256 s) = Ok s.
Proof. intros Hv Hz. apply decode_snapshot_Ok. split; [by apply encode_snapshot_valid|done]. Qed.
End size.

(** ** Properties *)

(** C19: The snapshot codec is exact: a byte string decodes to a snapshot precisely
    when it is what the encoder writes for that snapshot, which is valid and
    has a nonzero store identity; no byte string makes either direction panic,
    so a torn, truncated or altered file is always reported as an error. *)
Theorem snapshot_codec_round_trip `{Ed25519} sha256 (parallelism : N) (b : list byte)
    (s : AuthoritySnapshot) :
  (decode_snapshot sha256 parallelism b = Ok s <->
   encode_snapshot sha256 parallelism s = Ok b /\
   all_zero (vec_to_list (store_instance_bytes (sn_store_instance_id s))) = false) /\
  decode_snapshot sha256 parallelism b <> Panic /\ encode_snapshot sha256 parallelism s <> Panic.
Proof.
  split; [apply decode_snapshot_Ok|]. split; [apply decode_snapshot_safe|apply encode_snapshot_safe].
Qed.

(** Every valid snapshot fits into the file: the encoder succeeds exactly on
    the snapshots that validate, and what it writes never exceeds the mebibyte
    that the readers accept, even with 64 records of the largest requests and
    responses. *)
Theorem valid_snapshots_always_encode `{Ed25519} sha256 (parallelism : N) (s : AuthoritySnapshot) :
  (exists b, encode_snapshot sha256 parallelism s = Ok b /\ (len b <= AUTHORITY_SNAPSHOT_MAX_BYTES)%N) <->
  snapshot_validate sha256 parallelism s = Ok tt.
Proof.
  rewrite snapshot_validate_Ok. split.
  - by intros (b & [Hv _]%encode_snapshot_Ok & _).
  - intros Hv. exists (snapshot_bytes sha256 s).
    split; [by apply encode_snapshot_valid|by apply valid_snapshot_fits].
Qed.
