(* ===== verification/TenureStore.v ===== *)
(** * The tenure authority's store

    crates/paraegox-deployment/src/tenure_authority/store.rs.  The state
    directory is explicit: the active snapshot file, what its entry reverts to
    when a rename has not been synced, and the temporary files, each with a
    flag for synced contents.  The answers of the operating system are an
    argument: which system call fails and how, or in which one the process
    stops ([Panic]). *)

From Stdlib Require Import Strings.String.
From S2P Require Import Prelude Bytes Wp Slices Cursor KernelDigest ApplyContracts Signatures TenureProtocol TenureModel TenureCodec.
Open Scope rust_scope.

(** ** Names *)

Definition LOCK_FILE_NAME : list byte := ascii_bytes "authority.lock".
Definition ACTIVE_FILE_NAME : list byte := ascii_bytes "authority.snapshot".
Definition TEMP_FILE_PREFIX : list byte := ascii_bytes ".authority.snapshot.tmp-".
Definition TEMP_TOKEN_BYTES : nat := 16.
Definition TEMP_HEX_BYTES : nat := TEMP_TOKEN_BYTES * 2.
Definition MAX_ORPHAN_TEMP_FILES : nat := 32.
Definition PRIVATE_FILE_MODE_BITS : N := 384. (* 0o600 *)
Definition PRIVATE_FILE_MODE_MASK : N := 4095. (* 0o7777 *)

Definition HEX : list byte := ascii_bytes "0123456789abcdef".
Definition hex_digit (index : N) : list byte := option_list (HEX !! N.to_nat index).
Definition temp_name (token : bytes16) : list byte :=
  fold_left (fun name b => name ++ hex_digit (N.shiftr (Byte.to_N b) 4)
                             ++ hex_digit (N.land (Byte.to_N b) 15))
    (vec_to_list token) TEMP_FILE_PREFIX.
Definition strip_prefix (prefix name : list byte) : option (list byte) :=
  if bool_decide (take (length prefix) name = prefix) then Some (drop (length prefix) name) else None.
Definition is_hex_byte (b : byte) : bool :=
  ((48 <=? Byte.to_N b) && (Byte.to_N b <=? 57) || (97 <=? Byte.to_N b) && (Byte.to_N b <=? 102))%N.
Definition valid_temp_name (name : list byte) : bool :=
  match strip_prefix TEMP_FILE_PREFIX name with
  | None => false
  | Some suffix => (length suffix =? TEMP_HEX_BYTES)%nat && forallb is_hex_byte suffix
  end.
Definition is_dot_entry (name : list byte) : bool :=
  bool_decide (name = ascii_bytes ".") || bool_decide (name = ascii_bytes "..").

(** ** Errors *)

Inductive FileStage :=
| InspectDirectory | OpenDirectory | InspectFilesystem | ScanDirectory | CreateLock | OpenLock
| AcquireLock | OpenActive | ReadActive | InspectOrphanTemp | RemoveOrphanTemp | SyncOrphanCleanup
| GenerateTempName | ValidateEncodedSnapshot | RequireMissingActive | CreateTemp | InspectTemp
| WriteTemp | SyncTemp | Rename | SyncDirectory | ReturnDurableCommit.
#[export] Instance FileStage_eq_dec : EqDecision FileStage.
Proof. solve_decision. Defined.
(** [io::ErrorKind]. *)
Inductive ErrorKind := KindNotFound | KindAlreadyExists | KindOther (code : N).
#[export] Instance ErrorKind_eq_dec : EqDecision ErrorKind.
Proof. solve_decision. Defined.
Record IoFailure := MkIoFailure { io_stage : FileStage; io_kind : ErrorKind }.
Record PublishFault := MkPublishFault { pf_stage : FileStage; pf_kind : option ErrorKind }.
Definition fault_injected (stage : FileStage) : PublishFault := MkPublishFault stage None.
Definition fault_io (stage : FileStage) (kind : ErrorKind) : PublishFault :=
  MkPublishFault stage (Some kind).
Definition fault_of_failure (f : IoFailure) : PublishFault :=
  MkPublishFault (io_stage f) (Some (io_kind f)).
Inductive PublishFailure :=
| RejectedBeforePublish (fault : PublishFault) | UncertainAfterPublish (fault : PublishFault).
Inductive StoreOpenError :=
| PathMustBeAbsolute | UnsafeDirectoryPath | SymlinkInDirectoryPath | UnsafeDirectoryType
| UnsafeDirectoryMode | DirectoryIdentityChanged | UnsupportedFilesystem | DirectoryNotFresh
| UnsafeFileType | UnsafeFileMode | FileOwnerMismatch | UnknownDirectoryEntry | TooManyOrphanTemps
| LockContended | ActiveEmpty | ActiveTooLarge | ActiveAllocationFailed | ActiveChangedDuringRead
| StoreInstanceMismatch | ProvisioningMismatch | OpenIo (f : IoFailure) | OpenCodec (e : CodecError).
Inductive StoreError :=
| StoreStopped | ActiveSnapshotChanged | ImmutableIdentityChanged | SequenceOverflow
| SequenceTransitionMismatch | StoreOpen (e : StoreOpenError) | StoreCodec (e : CodecError)
| StorePublish (e : PublishFailure).

Definition rejected_open_error (stage : FileStage) (error : StoreOpenError) : PublishFailure :=
  match error with
  | OpenIo failure => RejectedBeforePublish (fault_of_failure failure)
  | _ => RejectedBeforePublish (fault_injected stage)
  end.
Definition rejected_injected (stage : FileStage) : PublishFailure :=
  RejectedBeforePublish (fault_injected stage).
Definition uncertain_injected (stage : FileStage) : PublishFailure :=
  UncertainAfterPublish (fault_injected stage).

(** ** The directory and the operating system *)

Record StoredFile := MkStoredFile { file_content : list byte; file_synced : bool }.
Record Directory := MkDirectory {
  dir_active : option StoredFile;
  (** [Some f]: the last rename is not synced, a power loss may bring back [f]. *)
  dir_reverts : option (option StoredFile);
  dir_temps : list (list byte * StoredFile);
}.
Definition set_temps (l : list (list byte * StoredFile)) (d : Directory) : Directory :=
  MkDirectory (dir_active d) (dir_reverts d) l.
Definition temp_lookup (name : list byte) (l : list (list byte * StoredFile)) : option StoredFile :=
  snd <$> List.find (fun e => bool_decide (e.1 = name)) l.
Definition temp_remove (name : list byte) (l : list (list byte * StoredFile))
    : list (list byte * StoredFile) := List.filter (fun e => negb (bool_decide (e.1 = name))) l.
Definition temp_write (name : list byte) (f : StoredFile) (d : Directory) : Directory :=
  set_temps ((name, f) :: temp_remove name (dir_temps d)) d.

Record FileMetadata := MkFileMetadata { md_is_file : bool; md_nlink : N; md_uid : N; md_mode : N }.
Inductive Interrupt := IoError (kind : ErrorKind) | ProcessStops.
(** The answers of the system to the calls of one operation. *)
Record Env := MkEnv {
  env_fault : FileStage -> option Interrupt;
  env_metadata : FileStage -> FileMetadata;
  env_allocation : bool;
  env_changed : bool;
}.

Section io.
Context (env : Env) (owner_uid : N).

Definition call {E : Type} (stage : FileStage) (err : ErrorKind -> E) : M Directory E unit := fun d =>
  match env_fault env stage with
  | None => (d, Ok tt)
  | Some (IoError kind) => (d, Err (err kind))
  | Some ProcessStops => (d, Panic)
  end.
Definition open_io (stage : FileStage) (kind : ErrorKind) : StoreOpenError := OpenIo (MkIoFailure stage kind).
Definition rejected_io (stage : FileStage) (kind : ErrorKind) : PublishFailure :=
  RejectedBeforePublish (fault_io stage kind).

Definition validate_regular_file (metadata : FileMetadata) : result StoreOpenError unit :=
  bail UnsafeFileType when negb (md_is_file metadata) || negb (md_nlink metadata =? 1)%N;
  bail FileOwnerMismatch when negb (md_uid metadata =? owner_uid)%N;
  bail UnsafeFileMode
    when negb (N.land (md_mode metadata) PRIVATE_FILE_MODE_MASK =? PRIVATE_FILE_MODE_BITS)%N;
  Ok tt.

(** Opens the file that [select] finds. *)
Definition open_existing_regular (select : Directory -> option StoredFile) (stage : FileStage)
    : M Directory StoreOpenError StoredFile :=
  _ ← call stage (open_io stage);
  file ← read (fun d => ok_or (select d) (open_io stage KindNotFound));
  _ ← lift (validate_regular_file (env_metadata env stage));
  mret file.

Section read_active.
Context `{Ed25519} (sha256 : list byte -> bytes32) (parallelism : N).

Definition read_active_snapshot : M Directory StoreOpenError AuthoritySnapshot :=
  active ← open_existing_regular dir_active OpenActive;
  _ ← call ReadActive (open_io ReadActive);
  let length := len (file_content active) in
  _ ← lift (fail_if (length =? 0)%N ActiveEmpty);
  _ ← lift (fail_if (AUTHORITY_SNAPSHOT_MAX_BYTES <? length)%N ActiveTooLarge);
  _ ← lift (fail_if (negb (env_allocation env)) ActiveAllocationFailed);
  _ ← lift (fail_if (env_changed env) ActiveChangedDuringRead);
  lift (map_err OpenCodec (decode_snapshot sha256 parallelism (file_content active))).
End read_active.

(** The scan of the directory entries. *)
Fixpoint scan_entries (names orphans : list (list byte)) : result StoreOpenError (list (list byte)) :=
  match names with
  | [] => Ok orphans
  | name :: names =>
      if is_dot_entry name then scan_entries names orphans
      else if bool_decide (name = LOCK_FILE_NAME) || bool_decide (name = ACTIVE_FILE_NAME)
      then scan_entries names orphans
      else
        bail UnknownDirectoryEntry when negb (valid_temp_name name);
        let orphans := orphans ++ [name] in
        bail TooManyOrphanTemps when (MAX_ORPHAN_TEMP_FILES <? length orphans)%nat;
        scan_entries names orphans
  end.
Definition directory_entries (d : Directory) : list (list byte) :=
  [ascii_bytes "."; ascii_bytes ".."; LOCK_FILE_NAME]
  ++ (match dir_active d with Some _ => [ACTIVE_FILE_NAME] | None => [] end) ++ map fst (dir_temps d).

Definition remove_orphan (name : list byte) : M Directory StoreOpenError unit :=
  _ ← open_existing_regular (fun d => temp_lookup name (dir_temps d)) InspectOrphanTemp;
  _ ← call RemoveOrphanTemp (open_io RemoveOrphanTemp);
  modify (fun d => set_temps (temp_remove name (dir_temps d)) d).
(** [sync_all] on the directory: renames and removals are durable. *)
Definition sync_directory (d : Directory) : Directory := MkDirectory (dir_active d) None (dir_temps d).

Definition clean_valid_orphan_temps : M Directory StoreOpenError unit :=
  _ ← call ScanDirectory (open_io ScanDirectory);
  orphan_names ← read (fun d => scan_entries (directory_entries d) []);
  if bool_decide (orphan_names = []) then mret tt
  else
    _ ← for_each (fun _ name => remove_orphan name) tt orphan_names;
    _ ← call SyncOrphanCleanup (open_io SyncOrphanCleanup);
    modify sync_directory.

(** ** Publication *)

Inductive PublishMode := RequireMissing | ReplaceExisting.
#[export] Instance PublishMode_eq_dec : EqDecision PublishMode.
Proof. solve_decision. Defined.
Inductive CommitFailpoint :=
| FailpointNone | BeforeTempCreate | AfterTempCreate | AfterPartialWrite | BeforeFileSync
| AfterFileSync | BeforeRename | AfterRename | BeforeDirectorySync | AfterDirectorySyncBeforeReturn.
#[export] Instance CommitFailpoint_eq_dec : EqDecision CommitFailpoint.
Proof. solve_decision. Defined.

Definition ensure_active_missing : M Directory PublishFailure unit :=
  _ ← call RequireMissingActive (rejected_io RequireMissingActive);
  read (fun d => match dir_active d with
                 | Some _ => Err (rejected_injected RequireMissingActive)
                 | None => Ok tt
                 end).

Definition create_temp (name : list byte) : M Directory PublishFailure unit :=
  _ ← call CreateTemp (rejected_io CreateTemp);
  _ ← read (fun d => match temp_lookup name (dir_temps d) with
                     | Some _ => Err (rejected_io CreateTemp KindAlreadyExists)
                     | None => Ok tt
                     end);
  _ ← modify (temp_write name (MkStoredFile [] false));
  _ ← call InspectTemp (rejected_io InspectTemp);
  lift (map_err (fun _ => rejected_injected InspectTemp)
          (validate_regular_file (env_metadata env InspectTemp))).
(** [write_all]: a failing write leaves some prefix, here none of it. *)
Definition write_temp (name content : list byte) : M Directory PublishFailure unit :=
  _ ← call WriteTemp (rejected_io WriteTemp);
  modify (temp_write name (MkStoredFile content false)).
Definition sync_temp (name : list byte) : M Directory PublishFailure unit :=
  _ ← call SyncTemp (rejected_io SyncTemp);
  modify (fun d => match temp_lookup name (dir_temps d) with
                   | Some f => temp_write name (MkStoredFile (file_content f) true) d
                   | None => d
                   end).
Definition rename_temp (name : list byte) : M Directory PublishFailure unit :=
  _ ← call Rename (rejected_io Rename);
  file ← read (fun d => ok_or (temp_lookup name (dir_temps d)) (rejected_io Rename KindNotFound));
  modify (fun d => MkDirectory (Some file) (Some (dir_active d)) (temp_remove name (dir_temps d))).

Definition publish_atomic (encoded : list byte) (token : bytes16) (mode : PublishMode)
    (failpoint : CommitFailpoint) : M Directory PublishFailure unit :=
  let at_failpoint := fun fp error =>
    lift (fail_if (bool_decide (failpoint = fp)) error) : M Directory PublishFailure unit in
  _ ← lift (fail_if (bool_decide (encoded = []) || (AUTHORITY_SNAPSHOT_MAX_BYTES <? len encoded)%N)
              (rejected_injected ValidateEncodedSnapshot));
  _ ← at_failpoint BeforeTempCreate (rejected_injected CreateTemp);
  _ ← match mode with
      | RequireMissing => ensure_active_missing
      | ReplaceExisting =>
          _ ← with_err (rejected_open_error OpenActive) (open_existing_regular dir_active OpenActive);
          mret tt
      end;
  let name := temp_name token in
  _ ← create_temp name;
  _ ← at_failpoint AfterTempCreate (rejected_injected CreateTemp);
  _ ← (if bool_decide (failpoint = AfterPartialWrite) then
         _ ← write_temp name (take (Nat.max (length encoded - 1) 1) encoded);
         lift (Err (rejected_injected WriteTemp))
       else mret tt);
  _ ← write_temp name encoded;
  _ ← at_failpoint BeforeFileSync (rejected_injected SyncTemp);
  _ ← sync_temp name;
  _ ← at_failpoint AfterFileSync (rejected_injected Rename);
  _ ← at_failpoint BeforeRename (rejected_injected Rename);
  _ ← match mode with RequireMissing => ensure_active_missing | ReplaceExisting => mret tt end;
  _ ← rename_temp name;
  _ ← at_failpoint AfterRename (uncertain_injected SyncDirectory);
  _ ← at_failpoint BeforeDirectorySync (uncertain_injected SyncDirectory);
  _ ← call SyncDirectory (fun kind => UncertainAfterPublish (fault_io SyncDirectory kind));
  _ ← modify sync_directory;
  at_failpoint AfterDirectorySyncBeforeReturn (uncertain_injected ReturnDurableCommit).
End io.

(** ** The store *)

Inductive StoreState := Operational | Stopped.
#[export] Instance StoreState_eq_dec : EqDecision StoreState.
Proof. solve_decision. Defined.
(** The directory handle is its owner, the locked file is held by the process. *)
Record AuthorityStore := MkAuthorityStore {
  store_owner_uid : N;
  store_snapshot : AuthoritySnapshot;
  store_state : StoreState;
}.
Definition stopped (self : AuthorityStore) : AuthorityStore :=
  MkAuthorityStore (store_owner_uid self) (store_snapshot self) Stopped.
Definition stop : M (AuthorityStore * Directory) StoreError unit := modify (fun '(s, d) => (stopped s, d)).

(** [map_err(|error| { self.state = Stopped; error })]. *)
Definition or_stop {A : Type} (m : M (AuthorityStore * Directory) StoreError A)
    : M (AuthorityStore * Directory) StoreError A := fun st =>
  match m st with
  | ((s, d), Err e) => ((stopped s, d), Err e)
  | r => r
  end.

Definition ensure_operational (self : AuthorityStore) : result StoreError unit :=
  bail StoreStopped when bool_decide (store_state self = Stopped); Ok tt.

(** The answers of the system to one commit: reading back, the random token
    and the publication. *)
Record CommitEnv := MkCommitEnv {
  ce_read : Env;
  ce_random : result ErrorKind bytes16;
  ce_publish : Env;
}.
Definition system_random_token (random : result ErrorKind bytes16) : result ErrorKind bytes16 :=
  token ← random;
  bail KindOther 0 when all_zero (vec_to_list token);
  Ok token.

Section store.
Context `{Ed25519} (sha256 : list byte -> bytes32) (parallelism : N).

Definition snapshot (self : AuthorityStore) : result StoreError AuthoritySnapshot :=
  _ ← ensure_operational self; Ok (store_snapshot self).

Definition revalidate_current (env : Env) : M (AuthorityStore * Directory) StoreError AuthoritySnapshot :=
  _ ← read (fun '(s, _) => ensure_operational s);
  uid ← gets (fun '(s, _) => store_owner_uid s);
  disk ← or_stop (with_err StoreOpen (on_snd (read_active_snapshot env uid sha256 parallelism)));
  current ← gets (fun '(s, _) => store_snapshot s);
  _ ← or_stop (lift (fail_if (bool_decide (disk <> current)) ActiveSnapshotChanged));
  mret current.

Definition commit (env : CommitEnv) (next : AuthoritySnapshot) (failpoint : CommitFailpoint)
    : M (AuthorityStore * Directory) StoreError unit :=
  _ ← read (fun '(s, _) => ensure_operational s);
  current ← gets (fun '(s, _) => store_snapshot s);
  _ ← or_stop (lift (fail_if
        (bool_decide (sn_store_instance_id next <> sn_store_instance_id current)
         || bool_decide (sn_provisioning next <> sn_provisioning current)
         || bool_decide (sn_owner_identity_fingerprint next <> sn_owner_identity_fingerprint current))
        ImmutableIdentityChanged));
  expected_sequence ← or_stop (lift (ok_or (checked_add u64_max (sn_snapshot_sequence current) 1)
    SequenceOverflow));
  _ ← or_stop (lift (fail_if (negb (sn_snapshot_sequence next =? expected_sequence)%N)
        SequenceTransitionMismatch));
  _ ← or_stop (lift (map_err (fun e => StoreCodec (CodecModel e))
        (snapshot_validate sha256 parallelism next)));
  _ ← revalidate_current (ce_read env);
  encoded ← or_stop (lift (map_err StoreCodec (encode_snapshot sha256 parallelism next)));
  token ← or_stop (lift (map_err (fun kind => StorePublish (RejectedBeforePublish
    (fault_io GenerateTempName kind))) (system_random_token (ce_random env))));
  uid ← gets (fun '(s, _) => store_owner_uid s);
  _ ← or_stop (with_err StorePublish (on_snd (publish_atomic (ce_publish env) uid encoded token
        ReplaceExisting failpoint)));
  modify (fun '(s, d) => (MkAuthorityStore (store_owner_uid s) next (store_state s), d)).

(** [open_directory] answers with the owner of the directory; [contended] says
    that another process holds the lock. *)
Definition open_validated (env : Env) (directory : result StoreOpenError N) (contended : bool)
    (expected_provisioning : AuthorityProvisioning) : M Directory StoreOpenError AuthorityStore :=
  uid ← lift directory;
  _ ← call env OpenLock (open_io OpenLock);
  _ ← lift (validate_regular_file uid (env_metadata env OpenLock));
  _ ← lift (fail_if contended LockContended);
  _ ← call env AcquireLock (open_io AcquireLock);
  snapshot ← read_active_snapshot env uid sha256 parallelism;
  _ ← lift (fail_if
        (bool_decide (sn_provisioning snapshot <> expected_provisioning)
         || bool_decide (sn_owner_identity_fingerprint snapshot
                         <> fp_owner_identity (pv_fingerprints expected_provisioning)))
        ProvisioningMismatch);
  _ ← clean_valid_orphan_temps env uid;
  mret (MkAuthorityStore uid snapshot Operational).

Definition open_with_policy (env : Env) (directory : result StoreOpenError N) (contended : bool)
    (expected_store_instance_id : StoreInstanceId) (expected_provisioning : AuthorityProvisioning)
    : M Directory StoreOpenError AuthorityStore :=
  store ← open_validated env directory contended expected_provisioning;
  _ ← lift (fail_if (bool_decide (sn_store_instance_id (store_snapshot store)
                                  <> expected_store_instance_id)) StoreInstanceMismatch);
  mret store.
End store.

(** ** Temporary files *)

Abbreviation temp_names d := (map fst (dir_temps d)).

Lemma temp_lookup_cons name n f l :
  temp_lookup name ((n, f) :: l) = if bool_decide (n = name) then Some f else temp_lookup name l.
Proof. unfold temp_lookup. cbn [List.find fst]. by destruct (bool_decide (n = name)). Qed.
Lemma temp_lookup_write name f d : temp_lookup name (dir_temps (temp_write name f d)) = Some f.
Proof. cbn [temp_write set_temps dir_temps]. by rewrite temp_lookup_cons, bool_decide_eq_true_2. Qed.
Lemma temp_lookup_None name l : temp_lookup name l = None <-> name ∉ map fst l.
Proof.
  induction l as [|[n f] l IH]; [split; [intros _; apply not_elem_of_nil|done]|].
  rewrite temp_lookup_cons. cbn [map fst]. rewrite not_elem_of_cons.
  destruct (bool_decide_reflect (n = name)) as [->|Hne]; [naive_solver|]. rewrite IH. naive_solver.
Qed.
Lemma elem_of_temp_remove name n l : n ∈ map fst (temp_remove name l) <-> n ∈ map fst l /\ n <> name.
Proof.
  unfold temp_remove. rewrite !elem_of_map. split.
  - intros ([m f] & -> & Hm). apply list_elem_of_In, filter_In in Hm as [Hm Hne].
    apply negb_true_iff, bool_decide_eq_false in Hne. split; [|done].
    exists (m, f). by rewrite list_elem_of_In.
  - intros [([m f] & -> & Hm) Hne]. exists (m, f). split; [done|]. apply list_elem_of_In, filter_In.
    split; [by apply list_elem_of_In|]. by apply negb_true_iff, bool_decide_eq_false.
Qed.
Lemma temp_remove_NoDup name l : NoDup (map fst l) -> NoDup (map fst (temp_remove name l)).
Proof.
  unfold temp_remove. induction l as [|[n f] l IH]; [done|]. cbn [map fst List.filter].
  intros [Hn Hl]%NoDup_cons. destruct (negb _); [|auto]. cbn [map fst]. constructor; [|auto].
  intros Hin. apply Hn. by apply (elem_of_temp_remove name n l) in Hin as [? _].
Qed.

(** The temporary files of a directory the store has written. *)
Definition temps_ok (d : Directory) : Prop :=
  NoDup (temp_names d) /\ Forall (fun n => valid_temp_name n = true) (temp_names d).
Definition temps_within (name : list byte) (d d' : Directory) : Prop :=
  temps_ok d' /\ forall n, n ∈ temp_names d' -> n = name \/ n ∈ temp_names d.

Definition temps_sub (d d' : Directory) : Prop :=
  temps_ok d' /\ forall n, n ∈ temp_names d' -> n ∈ temp_names d.

Lemma temps_within_length name d d' :
  temps_within name d d' -> length (dir_temps d') <= S (length (dir_temps d)).
Proof.
  intros [[Hn _] Hs]. rewrite <-!(length_map fst). change (length (temp_names d') <= length (name :: temp_names d)).
  apply submseteq_length, NoDup_submseteq; [done|]. intros n Hin. apply elem_of_cons. auto.
Qed.
Lemma temps_within_refl name d : temps_ok d -> temps_within name d d.
Proof. intros Ht. split; [done|]. auto. Qed.
Lemma temps_within_names name d d1 d2 :
  temps_within name d d1 -> dir_temps d2 = dir_temps d1 -> temps_within name d d2.
Proof. unfold temps_within, temps_ok. by intros Hw ->. Qed.
Lemma temps_within_write name f d d1 :
  valid_temp_name name = true -> temps_within name d d1 -> temps_within name d (temp_write name f d1).
Proof.
  intros Hv [[Hn Hf] Hs]. unfold temps_within, temps_ok. cbn [temp_write set_temps dir_temps map fst].
  split; [split|].
  - constructor; [|by apply temp_remove_NoDup]. rewrite elem_of_temp_remove. tauto.
  - constructor; [done|]. rewrite Forall_forall in *. intros n [Hin _]%elem_of_temp_remove. auto.
  - intros n [->|[Hin _]%elem_of_temp_remove]%elem_of_cons; auto.
Qed.
Lemma temps_within_remove name x d d1 a r :
  temps_within name d d1 -> temps_within name d (MkDirectory a r (temp_remove x (dir_temps d1))).
Proof.
  intros [[Hn Hf] Hs]. unfold temps_within, temps_ok. cbn [dir_temps]. split; [split|].
  - by apply temp_remove_NoDup.
  - rewrite Forall_forall in *. intros n [Hin _]%elem_of_temp_remove. auto.
  - intros n [Hin _]%elem_of_temp_remove. auto.
Qed.

(** Every name the store makes is one it recognises. *)
Lemma hex_digit_hex k : (k < 16)%N -> exists b, hex_digit k = [b] /\ is_hex_byte b = true.
Proof.
  intros Hk. assert (k ∈ N.of_nat <$> seq 0 16) as Hin.
  { apply list_elem_of_fmap. exists (N.to_nat k). split; [lia|]. apply elem_of_seq. lia. }
  assert (Forall (fun k => exists b, hex_digit k = [b] /\ is_hex_byte b = true) (N.of_nat <$> seq 0 16)) as Hf
    by (repeat (constructor; [by eexists|]); constructor).
  rewrite Forall_forall in Hf. by apply Hf.
Qed.
Lemma temp_name_fold (l prefix : list byte) :
  exists suffix, fold_left (fun name b => name ++ hex_digit (N.shiftr (Byte.to_N b) 4)
                              ++ hex_digit (N.land (Byte.to_N b) 15)) l prefix = prefix ++ suffix /\
    length suffix = 2 * length l /\ forallb is_hex_byte suffix = true.
Proof.
  revert prefix; induction l as [|b l IH]; intros prefix; cbn [fold_left].
  { exists []. by rewrite app_nil_r. }
  destruct (hex_digit_hex (N.shiftr (Byte.to_N b) 4)) as (x & -> & Hx).
  { rewrite N.shiftr_div_pow2. pose proof (to_N_bounded b). apply N.Div0.div_lt_upper_bound. lia. }
  destruct (hex_digit_hex (N.land (Byte.to_N b) 15)) as (y & -> & Hy).
  { change 15%N with (N.ones 4). rewrite N.land_ones. apply N.mod_lt. done. }
  destruct (IH (prefix ++ [x] ++ [y])) as (suffix & -> & Hl & Hf).
  exists (x :: y :: suffix). split; [by rewrite <-app_assoc|]. split; [simpl; lia|].
  cbn [forallb]. by rewrite Hx, Hy.
Qed.
Lemma temp_name_valid token : valid_temp_name (temp_name token) = true.
Proof.
  unfold temp_name. destruct (temp_name_fold (vec_to_list token) TEMP_FILE_PREFIX) as (suffix & -> & Hl & Hf).
  unfold valid_temp_name, strip_prefix. rewrite take_app_length, drop_app_length, bool_decide_eq_true_2 by done.
  rewrite length_vec_to_list in Hl. rewrite Hl, Hf. done.
Qed.

(** ** What publication does *)

Definition same_files (d d' : Directory) : Prop :=
  dir_active d' = dir_active d /\ dir_reverts d' = dir_reverts d.
(** The new contents are in place, synced; the rename may not be durable yet. *)
Definition published (encoded : list byte) (d d' : Directory) : Prop :=
  dir_active d' = Some (MkStoredFile encoded true) /\
  (dir_reverts d' = Some (dir_active d) \/ dir_reverts d' = None).
Definition durably_published (encoded : list byte) (d' : Directory) : Prop :=
  dir_active d' = Some (MkStoredFile encoded true) /\ dir_reverts d' = None.
Definition publish_failed (encoded : list byte) (d : Directory) (e : option PublishFailure)
    (d' : Directory) : Prop :=
  match e with
  | Some (RejectedBeforePublish _) => same_files d d'
  | Some (UncertainAfterPublish _) => published encoded d d'
  | None => same_files d d' \/ published encoded d d'
  end.

Section publish.
Context (env : Env) (uid : N).

Lemma wp_call {E : Type} stage (err : ErrorKind -> E) (Q : unit -> Directory -> Prop) R d :
  Q tt d -> (forall k, R (Some (err k)) d) -> R None d -> wp (call env stage err) Q R d.
Proof. intros HQ HR HP. unfold wp, call. destruct (env_fault env stage) as [[k|]|]; auto. Qed.
Lemma wp_open_existing select stage (Q : StoredFile -> Directory -> Prop) R d :
  (forall f, select d = Some f -> Q f d) -> (forall e, R (Some e) d) -> R None d ->
  wp (open_existing_regular env uid select stage) Q R d.
Proof.
  intros HQ HR HP. unfold open_existing_regular. apply wp_bind, wp_call; [|auto|done].
  apply wp_bind, wp_read; [|auto|by intros _]. intros f Hf%ok_or_Ok.
  apply wp_bind, wp_lift; [|auto|by intros _]. intros [] _. apply wp_ret. auto.
Qed.

Lemma wp_ensure_missing (Q : unit -> Directory -> Prop) R d :
  Q tt d -> (forall f, R (Some (RejectedBeforePublish f)) d) -> R None d -> wp (ensure_active_missing env) Q R d.
Proof.
  intros HQ HR HP. unfold ensure_active_missing. apply wp_bind, wp_call; [|intros k; apply HR|done].
  unfold wp, read. destruct (dir_active d); [apply HR|done].
Qed.

(** Before the rename: the files are as they were, and every failure rejects. *)
Section before_rename.
Context (name : list byte) (d0 : Directory) (R : option PublishFailure -> Directory -> Prop).
Definition untouched (d : Directory) : Prop := same_files d0 d /\ temps_within name d0 d.
Hypothesis name_valid : valid_temp_name name = true.
Hypothesis rejects : forall d, untouched d -> R None d /\ forall f, R (Some (RejectedBeforePublish f)) d.
Implicit Types (Q : unit -> Directory -> Prop) (d : Directory).

Lemma untouched_write f d : untouched d -> untouched (temp_write name f d).
Proof. intros [Hs Hw]. split; [done|by apply temps_within_write]. Qed.
Lemma wp_create_temp Q d :
  untouched d -> (forall d', untouched d' -> Q tt d') -> wp (create_temp env uid name) Q R d.
Proof.
  intros Hu HQ. destruct (rejects d Hu) as [Hn Hr]. unfold create_temp.
  apply wp_bind, wp_call; [|intros k; apply Hr|done]. apply wp_bind, wp_read.
  2: { intros e. destruct (temp_lookup name (dir_temps d)); [|done]. intros [= <-]. apply Hr. }
  2: { by destruct (temp_lookup name (dir_temps d)). }
  intros _ _. apply wp_bind, wp_modify.
  pose proof (untouched_write (MkStoredFile [] false) d Hu) as Hu1. destruct (rejects _ Hu1) as [Hn1 Hr1].
  apply wp_bind, wp_call; [|intros k; apply Hr1|done].
  apply wp_lift; [|intros e (? & _ & ->)%map_err_Err; apply Hr1|by intros _]. intros [] _. by apply HQ.
Qed.
Lemma wp_write_temp content Q d :
  untouched d ->
  (forall d', untouched d' -> temp_lookup name (dir_temps d') = Some (MkStoredFile content false) -> Q tt d') ->
  wp (write_temp env name content) Q R d.
Proof.
  intros Hu HQ. destruct (rejects d Hu) as [Hn Hr]. unfold write_temp.
  apply wp_bind, wp_call; [|intros k; apply Hr|done]. apply wp_modify, HQ; [by apply untouched_write|].
  apply temp_lookup_write.
Qed.
Lemma wp_sync_temp content b Q d :
  untouched d -> temp_lookup name (dir_temps d) = Some (MkStoredFile content b) ->
  (forall d', untouched d' -> temp_lookup name (dir_temps d') = Some (MkStoredFile content true) -> Q tt d') ->
  wp (sync_temp env name) Q R d.
Proof.
  intros Hu Hl HQ. destruct (rejects d Hu) as [Hn Hr]. unfold sync_temp.
  apply wp_bind, wp_call; [|intros k; apply Hr|done]. apply wp_modify. rewrite Hl.
  apply HQ; [by apply untouched_write|]. apply temp_lookup_write.
Qed.
Lemma wp_rename_temp f Q d :
  untouched d -> temp_lookup name (dir_temps d) = Some f ->
  Q tt (MkDirectory (Some f) (Some (dir_active d)) (temp_remove name (dir_temps d))) ->
  wp (rename_temp env name) Q R d.
Proof.
  intros Hu Hl HQ. destruct (rejects d Hu) as [Hn Hr]. unfold rename_temp.
  apply wp_bind, wp_call; [|intros k; apply Hr|done]. apply wp_bind, wp_read.
  - intros f' Hf'%ok_or_Ok. rewrite Hl in Hf'. injection Hf' as <-. by apply wp_modify.
  - intros e [_ ->]%ok_or_Err. apply Hr.
  - by intros ?%ok_or_Panic.
Qed.
End before_rename.

(** Both postconditions keep track of the temporary files. *)
Lemma publish_spec encoded token mode fp d :
  temps_ok d ->
  wp (publish_atomic env uid encoded token mode fp)
    (fun _ d' => durably_published encoded d' /\ temps_sub d d')
    (fun e d' => publish_failed encoded d e d' /\ temps_within (temp_name token) d d') d.
Proof.
  intros Ht. unfold publish_atomic. pose proof (temp_name_valid token) as Hv. revert Hv.
  generalize (temp_name token). intros name Hv.
  set (R := fun e d' => publish_failed encoded d e d' /\ temps_within name d d').
  assert (forall d', untouched name d d' -> R None d' /\ forall f, R (Some (RejectedBeforePublish f)) d') as Hrej.
  { intros d' [Hs Hw]. split; [|intros f]; (split; [|done]); simpl; auto. }
  assert (forall d', published encoded d d' -> temps_within name d d' ->
            R None d' /\ forall f, R (Some (UncertainAfterPublish f)) d') as Hunc.
  { intros d' Hs Hw. split; [|intros f]; (split; [|done]); simpl; auto. }
  assert (untouched name d d) as Hu by (split; [done|by apply temps_within_refl]).
  pose proof (Hrej d Hu) as [Hn Hr].
  do 2 (apply wp_bind, wp_fail_if; [intros _|intros _; apply Hr]).
  assert (forall (Q : unit -> Directory -> Prop) d', untouched name d d' -> Q tt d' ->
    wp (ensure_active_missing env) Q R d') as Hmissing.
  { intros Q d' Hu' HQ. destruct (Hrej d' Hu') as [Hn' Hr']. by apply wp_ensure_missing; [|intros f; apply Hr'|]. }
  apply wp_bind. assert (forall Q : unit -> Directory -> Prop, Q tt d -> wp (match mode with
      | RequireMissing => ensure_active_missing env
      | ReplaceExisting => _ ← with_err (rejected_open_error OpenActive) (open_existing_regular env uid dir_active OpenActive); mret tt
      end) Q R d) as Hmode; [|apply Hmode; clear Hmode].
  { intros Q HQ. destruct mode; [by apply Hmissing|].
    apply wp_bind, wp_with_err, wp_open_existing; [by intros _ _; apply wp_ret|intros []; apply Hr|done]. }
  apply wp_bind, (wp_create_temp name d); [done..|]. intros d1 Hu1.
  apply wp_bind, wp_fail_if; [intros _|intros _; by apply Hrej].
  apply wp_bind. destruct (bool_decide (fp = AfterPartialWrite)).
  { apply wp_bind, (wp_write_temp name d); [done..|]. intros d2 Hu2 _.
    apply wp_lift; [done|intros e [= <-]; by apply Hrej|done]. }
  apply wp_ret, wp_bind, (wp_write_temp name d); [done..|]. intros d2 Hu2 Hl2.
  apply wp_bind, wp_fail_if; [intros _|intros _; by apply Hrej].
  apply wp_bind, (wp_sync_temp name d _ Hv Hrej encoded false); [done..|]. intros d3 Hu3 Hl3.
  do 2 (apply wp_bind, wp_fail_if; [intros _|intros _; by apply Hrej]). apply wp_bind.
  assert (forall Q : unit -> Directory -> Prop, Q tt d3 -> wp (match mode with
      | RequireMissing => ensure_active_missing env | ReplaceExisting => mret tt end) Q R d3) as Hmode;
    [by intros Q HQ; destruct mode; [apply Hmissing|apply wp_ret]|apply Hmode; clear Hmode].
  apply wp_bind, (wp_rename_temp name d _ Hrej (MkStoredFile encoded true)); [done..|].
  destruct Hu3 as [[Ha _] Hw3].
  set (d4 := MkDirectory _ _ _). assert (published encoded d d4) as Hp4 by (split; [done|left; by rewrite <-Ha]).
  assert (temps_within name d d4) as Hw4 by (by apply temps_within_remove).
  do 2 (apply wp_bind, wp_fail_if; [intros _|intros _; by apply Hunc]).
  apply wp_bind, wp_call; [|intros k; by apply Hunc|by apply Hunc].
  apply wp_bind, wp_modify.
  assert (temps_within name d (sync_directory d4)) as Hw5 by (by eapply temps_within_names).
  apply wp_fail_if; [intros _; split; [done|]|].
  { destruct Hw5 as [Ht5 Hn5]. split; [done|]. intros n Hn'. pose proof Hn' as [_ Hne]%elem_of_temp_remove.
    by destruct (Hn5 n Hn'). }
  intros _. apply Hunc; [|done]. split; [done|by right].
Qed.
End publish.

(** ** What the store does *)

Section store_facts.
Context `{Ed25519} (sha256 : list byte -> bytes32) (n : N).
Implicit Types (d : Directory) (s : AuthoritySnapshot) (st : AuthorityStore).

Definition identified s : Prop :=
  all_zero (vec_to_list (store_instance_bytes (sn_store_instance_id s))) = false.
(** The file that holds a snapshot. *)
Definition file_of s : StoredFile := MkStoredFile (snapshot_bytes sha256 s) true.
Definition on_disk s : Prop := snapshot_valid sha256 s /\ identified s.

Lemma wp_read_active env uid (Q : AuthoritySnapshot -> Directory -> Prop) R d :
  (forall s f, dir_active d = Some f -> file_content f = snapshot_bytes sha256 s -> on_disk s -> Q s d) ->
  (forall e, R (Some e) d) -> R None d -> wp (read_active_snapshot env uid sha256 n) Q R d.
Proof.
  intros HQ HR HP. unfold read_active_snapshot. apply wp_bind, wp_open_existing; [|auto|done].
  intros f Hf. apply wp_bind, wp_call; [|auto|done].
  do 4 (apply wp_bind, wp_fail_if; [intros _|auto]). apply wp_lift; [|auto|by intros _].
  intros s Hs%map_err_Ok. apply decode_snapshot_Ok in Hs as [[Hv [Hb _]]%encode_snapshot_Ok Hi]. by eapply HQ.
Qed.

Lemma wp_or_stop {A : Type} (m : M (AuthorityStore * Directory) StoreError A) Q R p :
  wp m Q (fun e p' => match e with Some _ => R e (stopped p'.1, p'.2) | None => R None p' end) p ->
  wp (or_stop m) Q R p.
Proof. unfold wp, or_stop. by destruct (m p) as [[s d] [a|e|]]. Qed.

Lemma wp_revalidate env (Q : AuthoritySnapshot -> AuthorityStore * Directory -> Prop) R st d :
  (store_state st = Operational -> on_disk (store_snapshot st) ->
   (exists b, dir_active d = Some (MkStoredFile (snapshot_bytes sha256 (store_snapshot st)) b)) ->
   Q (store_snapshot st) (st, d)) ->
  (forall e, R (Some e) (stopped st, d)) -> R None (st, d) ->
  wp (revalidate_current sha256 n env) Q R (st, d).
Proof.
  intros HQ HR HP. unfold revalidate_current, ensure_operational.
  apply wp_bind, wp_read.
  2: { intros e. destruct st as [u s []]; [done|]. intros _. apply HR. }
  2: { by destruct st as [u s []]. }
  intros [] Hop%bind_unit_Ok. destruct Hop as [Hop%fail_if_Ok%bool_decide_eq_false _].
  apply wp_bind, wp_gets, wp_bind, wp_or_stop, wp_with_err, wp_on_snd, wp_read_active; [|intros e; apply HR|done].
  intros s [c b] Hf Hc Hs. cbn [file_content] in Hc. apply wp_bind, wp_gets, wp_bind, wp_or_stop, wp_fail_if.
  - intros Hd%bool_decide_eq_false%dec_stable. apply wp_ret. rewrite Hd in *. apply HQ; [|done|by exists b; rewrite <-Hc].
    destruct (store_state st); [done|congruence].
  - intros _. apply HR.
Qed.

(** How a failed call may leave the directory: untouched, or with the contents
    in place. *)
Definition maybe_published (encoded : list byte) (d d' : Directory) : Prop :=
  temps_ok d' /\ length (dir_temps d') <= S (length (dir_temps d)) /\
  (same_files d d' \/ published encoded d d').
Lemma maybe_unchanged encoded d : temps_ok d -> maybe_published encoded d d.
Proof. intros Ht. split; [done|]. split; [lia|by left]. Qed.

Lemma wp_commit env next fp (Q : unit -> AuthorityStore * Directory -> Prop) R st d :
  temps_ok d ->
  (forall d', store_state st = Operational ->
     snapshot_valid sha256 next -> sn_store_instance_id next = sn_store_instance_id (store_snapshot st) ->
     dir_active d' = Some (file_of next) -> dir_reverts d' = None -> temps_sub d d' ->
     Q tt (MkAuthorityStore (store_owner_uid st) next Operational, d')) ->
  (forall e d', maybe_published (snapshot_bytes sha256 next) d d' -> R (Some e) (stopped st, d')) ->
  (forall d', maybe_published (snapshot_bytes sha256 next) d d' -> R None (st, d')) ->
  wp (commit sha256 n env next fp) Q R (st, d).
Proof.
  intros Ht HQ HR HP. pose proof (maybe_unchanged (snapshot_bytes sha256 next) d Ht) as Hu.
  assert (forall e, R (Some e) (stopped st, d)) as HR' by auto. unfold commit.
  apply wp_bind, wp_read.
  2: { intros e. unfold ensure_operational. destruct st as [u s []]; [done|]. intros _. by apply HR'. }
  2: { unfold ensure_operational. by destruct st as [u s []]. }
  intros [] _. apply wp_bind, wp_gets, wp_bind, wp_or_stop, wp_fail_if; [intros Hid|intros _; apply HR'].
  rewrite !orb_false_iff, !bool_decide_eq_false in Hid. destruct Hid as [[Hid _] _]. apply dec_stable in Hid.
  apply wp_bind, wp_or_stop, wp_lift; [intros q _|intros e _; apply HR'|by intros ?%ok_or_Panic].
  apply wp_bind, wp_or_stop, wp_fail_if; [intros _|intros _; apply HR'].
  apply wp_bind, wp_or_stop, wp_lift; [intros u Hv|intros e _; apply HR'|intros _; auto].
  destruct u. apply map_err_Ok, snapshot_validate_Ok in Hv.
  apply wp_bind, wp_revalidate; [|done|auto]. intros Hop _ _.
  rewrite encode_snapshot_valid by done. apply wp_bind, wp_or_stop, wp_lift; [intros w [= <-]|done|done].
  apply wp_bind, wp_or_stop, wp_lift; [intros token _|intros e _; apply HR'|intros _; auto].
  apply wp_bind, wp_gets, wp_bind, wp_or_stop, wp_with_err, wp_on_snd.
  eapply wp_mono; [by apply publish_spec| |].
  - intros [] d' [[Ha Hr] Hw]. apply wp_modify. rewrite Hop. by apply HQ.
  - intros e d' [Hf Hw]. assert (maybe_published (snapshot_bytes sha256 next) d d') as Hm.
    { split; [apply Hw|]. split; [by eapply temps_within_length|].
      destruct e as [[f|f]|]; [by left|by right|done]. }
    destruct e; cbn [fmap option_fmap option_map]; auto.
Qed.

(** Opening reads what is there, removes the temporary files, and may make an
    earlier rename durable. *)
Definition opened (d d' : Directory) : Prop :=
  dir_active d' = dir_active d /\ (dir_reverts d' = dir_reverts d \/ dir_reverts d' = None) /\
  temps_sub d d'.
Lemma opened_refl d : temps_ok d -> opened d d.
Proof. intros Ht. split; [done|]. split; [by left|]. split; [done|]. auto. Qed.

Lemma scan_entries_names names orphans l :
  scan_entries names orphans = Ok l ->
  forall x, x ∈ l <-> x ∈ orphans \/ (x ∈ names /\ valid_temp_name x = true).
Proof.
  revert orphans; induction names as [|name names IH]; intros orphans; cbn [scan_entries].
  { intros [= ->] x. split; [by left|]. intros [?|[Hx _]]; [done|]. by apply not_elem_of_nil in Hx. }
  assert (forall y, is_dot_entry y || (bool_decide (y = LOCK_FILE_NAME) || bool_decide (y = ACTIVE_FILE_NAME)) = true ->
            valid_temp_name y = false) as Hnt.
  { intros y. unfold is_dot_entry. rewrite !orb_true_iff, !bool_decide_eq_true. intros [[Hy|Hy]|[Hy|Hy]]; by rewrite Hy. }
  specialize (Hnt name). destruct (is_dot_entry name).
  { intros Hs x. rewrite (IH _ Hs x), elem_of_cons. specialize (Hnt eq_refl). naive_solver congruence. }
  destruct (bool_decide (name = LOCK_FILE_NAME) || bool_decide (name = ACTIVE_FILE_NAME)).
  { intros Hs x. rewrite (IH _ Hs x), elem_of_cons. specialize (Hnt eq_refl). naive_solver congruence. }
  intros [Hv%fail_if_Ok%negb_false_iff Hs]%bind_unit_Ok. apply bind_unit_Ok in Hs as [_ Hs]. intros x.
  rewrite (IH _ Hs x), elem_of_app, list_elem_of_singleton, elem_of_cons. naive_solver congruence.
Qed.

Lemma wp_clean env uid (Q : unit -> Directory -> Prop) R d :
  temps_ok d ->
  (forall d', opened d d' -> dir_temps d' = [] -> Q tt d') ->
  (forall e d', opened d d' -> R e d') ->
  wp (clean_valid_orphan_temps env uid) Q R d.
Proof.
  intros Ht HQ HR. pose proof (opened_refl d Ht) as Ho. unfold clean_valid_orphan_temps.
  apply wp_bind, wp_call; [|auto|auto]. apply wp_bind, wp_read; [|auto|auto]. intros l Hl.
  pose proof (scan_entries_names _ _ _ Hl) as Hn.
  assert (forall x, x ∈ temp_names d -> x ∈ l) as Hall.
  { intros x Hx. apply Hn. right. split.
    - unfold directory_entries. rewrite !elem_of_app. auto.
    - destruct Ht as [_ Hf]. rewrite Forall_forall in Hf. auto. }
  destruct (bool_decide_reflect (l = [])) as [->|Hne].
  { apply wp_ret, HQ; [done|]. destruct (dir_temps d) as [|[x f] t] eqn:E; [done|].
    specialize (Hall x ltac:(left)). by apply not_elem_of_nil in Hall. }
  apply wp_bind.
  assert (forall l d1, opened d d1 ->
    wp (for_each (fun _ name => remove_orphan env uid name) tt l)
      (fun _ d' => opened d d' /\ forall x, x ∈ temp_names d' -> x ∈ temp_names d1 /\ x ∉ l) R d1) as Hloop.
  { clear l Hl Hn Hall Hne. induction l as [|x l IH]; intros d1 Hd1; cbn [for_each].
    { apply wp_ret. split; [done|]. intros y Hy. split; [done|apply not_elem_of_nil]. }
    apply wp_bind. unfold remove_orphan. apply wp_bind, wp_open_existing; [|auto|auto]. intros _ _.
    apply wp_bind, wp_call; [|auto|auto]. apply wp_modify.
    eapply wp_mono; [apply IH| |done].
    - destruct Hd1 as (Ha & Hr & [Hnd Hf] & Hs). split_and!; try done.
      split; [split; [by apply temp_remove_NoDup|]|]; cbn [set_temps dir_temps].
      + rewrite Forall_forall in *. intros y [Hy _]%elem_of_temp_remove. auto.
      + intros y [Hy _]%elem_of_temp_remove. auto.
    - intros [] d' [Hd' Hx]. split; [done|]. intros y Hy. apply Hx in Hy as [[Hy Hyx]%elem_of_temp_remove Hyl].
      split; [done|]. by apply not_elem_of_cons. }
  eapply wp_mono; [by apply Hloop| |done]. intros [] d' [Hd' Hx]. apply wp_bind, wp_call; [|auto|auto].
  apply wp_modify, HQ.
  - destruct Hd' as (Ha & _ & Hs). split; [done|]. split; [by right|done].
  - cbn [sync_directory dir_temps]. destruct (dir_temps d') as [|[x f] t] eqn:E; [done|].
    destruct (Hx x ltac:(left)) as [Hin Hnl]. destruct Hnl. auto.
Qed.

Lemma wp_open env directory contended id prov (Q : AuthorityStore -> Directory -> Prop) R d :
  temps_ok d ->
  (forall st d', opened d d' -> dir_temps d' = [] -> store_state st = Operational ->
     on_disk (store_snapshot st) ->
     (exists b, dir_active d = Some (MkStoredFile (snapshot_bytes sha256 (store_snapshot st)) b)) ->
     sn_provisioning (store_snapshot st) = prov -> sn_store_instance_id (store_snapshot st) = id -> Q st d') ->
  (forall e d', opened d d' -> R e d') ->
  wp (open_with_policy sha256 n env directory contended id prov) Q R d.
Proof.
  intros Ht HQ HR. pose proof (opened_refl d Ht) as Ho. unfold open_with_policy, open_validated.
  apply wp_bind, wp_bind, wp_lift; [intros uid _|auto|auto].
  apply wp_bind, wp_call; [|auto|auto]. apply wp_bind, wp_lift; [intros [] _|auto|auto].
  apply wp_bind, wp_fail_if; [intros _|auto]. apply wp_bind, wp_call; [|auto|auto].
  apply wp_bind, wp_read_active; [|auto|auto]. intros s [c b] Hf Hc Hs. cbn [file_content] in Hc. subst c.
  apply wp_bind, wp_fail_if; [intros Hp|auto]. apply orb_false_iff in Hp as [Hp%bool_decide_eq_false%dec_stable _].
  apply wp_bind, wp_clean; [done| |auto]. intros d' Hd' He. apply wp_ret.
  apply wp_bind, wp_fail_if; [intros Hi%bool_decide_eq_false%dec_stable|auto]. apply wp_ret.
  apply HQ; try done. by exists b.
Qed.

(** ** Runs without faults *)

Record healthy (env : Env) (uid : N) : Prop := {
  healthy_calls : forall stage, env_fault env stage = None;
  healthy_metadata : forall stage, validate_regular_file uid (env_metadata env stage) = Ok tt;
  healthy_allocation : env_allocation env = true;
  healthy_stable : env_changed env = false;
}.
Lemma wp_call_healthy {E : Type} env uid stage (err : ErrorKind -> E) (Q : unit -> Directory -> Prop) R d :
  healthy env uid -> Q tt d -> wp (call env stage err) Q R d.
Proof. intros He HQ. unfold wp, call. by rewrite (healthy_calls _ _ He). Qed.
Lemma wp_open_existing_healthy env uid select stage (Q : StoredFile -> Directory -> Prop) R d f :
  healthy env uid -> select d = Some f -> Q f d -> wp (open_existing_regular env uid select stage) Q R d.
Proof.
  intros He Hf HQ. unfold open_existing_regular. eapply wp_bind, wp_call_healthy; [done|].
  apply wp_bind. unfold wp at 1, read. rewrite Hf. cbn [ok_or]. apply wp_bind. unfold wp at 1, lift.
  by rewrite (healthy_metadata _ _ He).
Qed.
Lemma wp_read_active_healthy env uid (Q : AuthoritySnapshot -> Directory -> Prop) R d s :
  healthy env uid -> dir_active d = Some (file_of s) -> on_disk s -> Q s d ->
  wp (read_active_snapshot env uid sha256 n) Q R d.
Proof.
  intros He Hf [Hv Hi] HQ. unfold read_active_snapshot. eapply wp_bind, wp_open_existing_healthy; [done..|].
  eapply wp_bind, wp_call_healthy; [done|]. cbn [file_of file_content].
  pose proof (valid_snapshot_fits sha256 s Hv) as Hl.
  assert (len (snapshot_bytes sha256 s) <> 0)%N as Hz.
  { unfold snapshot_bytes. rewrite !len_app, len_envelope_header.
    unfold ENVELOPE_HEADER_WITHOUT_CHECKSUM_BYTES. lia. }
  apply wp_bind, wp_fail_if; [intros _|intros ?%N.eqb_eq; done].
  apply wp_bind, wp_fail_if; [intros _|intros ?%N.ltb_lt; lia].
  apply wp_bind, wp_fail_if; [intros _|by rewrite (healthy_allocation _ _ He)].
  apply wp_bind, wp_fail_if; [intros _|by rewrite (healthy_stable _ _ He)].
  unfold wp, lift. by rewrite decode_snapshot_valid.
Qed.

Lemma scan_entries_total names orphans :
  Forall (fun x => valid_temp_name x = true) names -> length orphans + length names <= MAX_ORPHAN_TEMP_FILES ->
  scan_entries names orphans = Ok (orphans ++ names).
Proof.
  revert orphans; induction names as [|name names IH]; intros orphans Hv Hl; cbn [scan_entries].
  { by rewrite app_nil_r. }
  apply Forall_cons in Hv as [Hn Hv]. unfold is_dot_entry.
  rewrite !bool_decide_eq_false_2 by (intros ->; discriminate Hn). cbn [orb]. rewrite Hn. cbn [negb].
  rewrite bind_pass. cbn [length] in Hl.
  rewrite (proj2 (Nat.ltb_ge _ _)) by (rewrite length_app; simpl; lia). rewrite bind_pass.
  rewrite IH by (done || rewrite length_app; simpl; lia). by rewrite <-app_assoc.
Qed.
Lemma directory_scan d f :
  temps_ok d -> dir_active d = Some f -> length (dir_temps d) <= MAX_ORPHAN_TEMP_FILES ->
  scan_entries (directory_entries d) [] = Ok (temp_names d).
Proof.
  intros [_ Hf] Ha Hl. unfold directory_entries. rewrite Ha.
  transitivity (scan_entries (temp_names d) []); [reflexivity|].
  apply (scan_entries_total _ []); [done|]. by rewrite length_map.
Qed.
Lemma temp_lookup_total name l : name ∈ map fst l -> exists f, temp_lookup name l = Some f.
Proof.
  intros Hn. destruct (temp_lookup name l) eqn:E; [by eexists|]. by apply temp_lookup_None in E.
Qed.
Lemma wp_remove_orphans_healthy env uid (R : option StoreOpenError -> Directory -> Prop) l d :
  healthy env uid -> NoDup l -> (forall x, x ∈ l -> x ∈ temp_names d) ->
  wp (for_each (fun _ name => remove_orphan env uid name) tt l) (fun _ _ => True) R d.
Proof.
  intros He. revert d; induction l as [|x l IH]; intros d Hnd Hin; cbn [for_each]; [done|].
  apply NoDup_cons in Hnd as [Hx Hnd]. apply wp_bind. unfold remove_orphan.
  destruct (temp_lookup_total x (dir_temps d)) as [f Hf]; [apply Hin; left|].
  eapply wp_bind, wp_open_existing_healthy; [done|exact Hf|]. eapply wp_bind, wp_call_healthy; [done|].
  apply wp_modify, IH; [done|]. intros y Hy. cbn [set_temps dir_temps]. apply elem_of_temp_remove.
  split; [apply Hin; by right|]. by intros ->.
Qed.
(** With at most 32 orphans the store opens on a directory that holds a valid
    snapshot. *)
Lemma open_validated_healthy env uid s d :
  healthy env uid -> dir_active d = Some (file_of s) -> on_disk s -> temps_ok d ->
  length (dir_temps d) <= MAX_ORPHAN_TEMP_FILES ->
  wp (open_validated sha256 n env (Ok uid) false (sn_provisioning s))
    (fun st _ => st = MkAuthorityStore uid s Operational) (fun _ _ => False) d.
Proof.
  intros He Ha Hs Ht Hl. unfold open_validated.
  apply wp_bind. unfold wp at 1, lift at 1.
  eapply wp_bind, wp_call_healthy; [done|]. apply wp_bind. unfold wp at 1, lift at 1.
  rewrite (healthy_metadata _ _ He). apply wp_bind. unfold wp at 1, lift at 1. cbn [fail_if].
  eapply wp_bind, wp_call_healthy; [done|]. eapply wp_bind, wp_read_active_healthy; [done..|].
  destruct Hs as [Hv Hi]. rewrite (sv_owner _ s Hv), !bool_decide_ne_refl.
  apply wp_bind. unfold wp at 1, lift at 1. cbn [orb fail_if]. apply wp_bind.
  unfold clean_valid_orphan_temps. eapply wp_bind, wp_call_healthy; [done|].
  apply wp_bind. unfold wp at 1, read. rewrite (directory_scan d (file_of s)) by done.
  destruct (bool_decide (temp_names d = [])); [by apply wp_ret|].
  apply wp_bind. eapply wp_mono; [apply (wp_remove_orphans_healthy env uid (fun _ _ => False)); [done|apply Ht|auto]| |done].
  intros [] d' _. eapply wp_bind, wp_call_healthy; [done|]. by apply wp_modify.
Qed.
Lemma open_healthy env uid s d :
  healthy env uid -> dir_active d = Some (file_of s) -> on_disk s -> temps_ok d ->
  length (dir_temps d) <= MAX_ORPHAN_TEMP_FILES ->
  wp (open_with_policy sha256 n env (Ok uid) false (sn_store_instance_id s) (sn_provisioning s))
    (fun st _ => st = MkAuthorityStore uid s Operational) (fun _ _ => False) d.
Proof.
  intros He Ha Hs Ht Hl. apply wp_bind. eapply wp_mono; [by apply open_validated_healthy| |done].
  intros st d' ->. apply wp_bind, wp_fail_if; [by intros _; apply wp_ret|].
  cbn [store_snapshot]. by rewrite bool_decide_ne_refl.
Qed.

(** Publication and commit succeed when nothing fails and the temporary name
    is free. *)
Lemma publish_healthy env uid encoded token d f :
  healthy env uid -> (0 < len encoded <= AUTHORITY_SNAPSHOT_MAX_BYTES)%N -> dir_active d = Some f ->
  temp_lookup (temp_name token) (dir_temps d) = None ->
  wp (publish_atomic env uid encoded token ReplaceExisting FailpointNone) (fun _ _ => True) (fun _ _ => False) d.
Proof.
  intros He Hl Ha Hn. unfold publish_atomic.
  apply wp_bind, wp_fail_if; [intros _|].
  2: { rewrite orb_true_iff, bool_decide_eq_true, N.ltb_lt. intros [E|E]; [|lia]. rewrite E in Hl. change (len (@nil byte)) with 0%N in Hl. lia. }
  apply wp_bind, wp_fail_if; [intros _|done].
  eapply wp_bind, wp_bind, wp_with_err, wp_open_existing_healthy; [done..|]. apply wp_ret.
  revert Hn. generalize (temp_name token). intros name Hn.
  apply wp_bind. unfold create_temp. eapply wp_bind, wp_call_healthy; [done|]. apply wp_bind. unfold wp at 1, read.
  rewrite Hn. apply wp_bind, wp_modify. eapply wp_bind, wp_call_healthy; [done|]. unfold wp at 1, lift at 1.
  rewrite (healthy_metadata _ _ He). cbn [map_err].
  apply wp_bind, wp_fail_if; [intros _|done]. apply wp_bind. cbn [bool_decide]. rewrite bool_decide_eq_false_2 by done.
  apply wp_ret, wp_bind. unfold write_temp. eapply wp_bind, wp_call_healthy; [done|]. apply wp_modify.
  apply wp_bind, wp_fail_if; [intros _|done]. apply wp_bind. unfold sync_temp.
  eapply wp_bind, wp_call_healthy; [done|]. apply wp_modify. rewrite temp_lookup_write.
  do 2 (apply wp_bind, wp_fail_if; [intros _|done]). apply wp_bind, wp_ret, wp_bind. unfold rename_temp.
  eapply wp_bind, wp_call_healthy; [done|]. apply wp_bind. unfold wp at 1, read at 1. rewrite temp_lookup_write.
  cbn [ok_or]. apply wp_modify. do 2 (apply wp_bind, wp_fail_if; [intros _|done]).
  eapply wp_bind, wp_call_healthy; [done|]. apply wp_bind, wp_modify. by apply wp_fail_if.
Qed.

Lemma wp_revalidate_healthy env (Q : AuthoritySnapshot -> AuthorityStore * Directory -> Prop) R st d :
  healthy env (store_owner_uid st) -> store_state st = Operational ->
  dir_active d = Some (file_of (store_snapshot st)) -> on_disk (store_snapshot st) ->
  Q (store_snapshot st) (st, d) -> wp (revalidate_current sha256 n env) Q R (st, d).
Proof.
  intros He Hop Ha Hs HQ. unfold revalidate_current. apply wp_bind. unfold wp at 1, read, ensure_operational.
  rewrite Hop. apply wp_bind, wp_gets, wp_bind, wp_or_stop, wp_with_err, wp_on_snd.
  eapply wp_read_active_healthy; [done..|]. apply wp_bind, wp_gets, wp_bind, wp_or_stop, wp_fail_if.
  - intros _. by apply wp_ret.
  - by rewrite bool_decide_ne_refl.
Qed.

Lemma commit_healthy env next token st d :
  healthy (ce_read env) (store_owner_uid st) -> healthy (ce_publish env) (store_owner_uid st) ->
  system_random_token (ce_random env) = Ok token -> temp_lookup (temp_name token) (dir_temps d) = None ->
  store_state st = Operational -> dir_active d = Some (file_of (store_snapshot st)) ->
  on_disk (store_snapshot st) -> snapshot_valid sha256 next ->
  sn_store_instance_id next = sn_store_instance_id (store_snapshot st) ->
  sn_provisioning next = sn_provisioning (store_snapshot st) ->
  sn_owner_identity_fingerprint next = sn_owner_identity_fingerprint (store_snapshot st) ->
  sn_snapshot_sequence next = (sn_snapshot_sequence (store_snapshot st) + 1)%N ->
  wp (commit sha256 n env next FailpointNone) (fun _ _ => True) (fun _ _ => False) (st, d).
Proof.
  intros Hr Hp Htk Hn Hop Ha Hs Hv Hid Hpv Hfp Hsq. unfold commit.
  apply wp_bind. unfold wp at 1, read, ensure_operational. rewrite Hop. apply wp_bind, wp_gets, wp_bind, wp_or_stop.
  rewrite Hid, Hpv, Hfp, !bool_decide_ne_refl. unfold wp at 1, lift at 1. cbn [orb fail_if].
  pose proof (sv_sequence _ _ (proj1 Hs)) as Hq. pose proof (sv_high_water _ _ (proj1 Hs)) as Hh.
  pose proof (sv_capacity _ _ (proj1 Hs)) as Hc. unfold MAX_RETAINED_ACQUIRE_RECORDS in Hc.
  apply wp_bind, wp_or_stop. unfold wp at 1, lift at 1. rewrite checked_add_ok by (unfold u64_max; lia).
  cbn [ok_or]. apply wp_bind, wp_or_stop. unfold wp at 1, lift at 1. rewrite Hsq, N.eqb_refl. cbn [negb fail_if].
  apply wp_bind, wp_or_stop. unfold wp at 1, lift at 1. rewrite (proj2 (snapshot_validate_Ok sha256 n next) Hv).
  cbn [map_err]. apply wp_bind, wp_revalidate_healthy; [done..|].
  apply wp_bind, wp_or_stop. unfold wp at 1, lift at 1. rewrite encode_snapshot_valid by done. cbn [map_err].
  apply wp_bind, wp_or_stop. unfold wp at 1, lift at 1. rewrite Htk. cbn [map_err].
  apply wp_bind, wp_gets, wp_bind, wp_or_stop, wp_with_err, wp_on_snd. eapply wp_mono.
  - eapply publish_healthy; [done| |done|done]. split; [|by apply valid_snapshot_fits].
    unfold snapshot_bytes. rewrite !len_app, len_envelope_header. unfold ENVELOPE_HEADER_WITHOUT_CHECKSUM_BYTES. lia.
  - intros [] d' _. by apply wp_modify.
  - by intros e d'.
Qed.
End store_facts.
