(* ===== verification/TenureAuthority.v ===== *)
(** * The tenure authority

    crates/paraegox-deployment/src/tenure_authority/signer.rs and mod.rs: the
    signer, the acquire operation over the store, and opening.  The diagnostics
    texts of mod.rs are left out. *)

From Stdlib Require Import Strings.String.
From S2P Require Import Prelude Bytes Wp Slices Cursor KernelDigest Tlv ApplyContracts ApplyWire Signatures TenureProtocol TenureModel TenureCodec TenureStore.
Open Scope rust_scope.

Inductive SignerError :=
| AllZeroSeed | SEUnsupportedSignatureProfile | SESigningKeyFingerprintMismatch
| ProofAuthorityMismatch | VerificationKeyMismatch
| SignerModel (e : ModelError) | SignerProof (e : TenureProofError) | SignerDigest (e : DigestBuildError).

(** Failure diagnostics are reduced to what they report on. *)
Inductive TenureAcquireError :=
| UnauthorizedScope | AEUnauthorizedWriter | UnauthorizedControllerPrincipal
| UnauthorizedControllerKey | UnsupportedRequestSignatureProfile | InvalidProvisionedControllerKey
| InvalidRequestSignature | OperationDigestConflict | CapacityExceeded | EpochOverflow
| SnapshotSequenceOverflow | InvalidStoredResponse | SigningFailed | ResponseBoundExceeded
| ResponseEncodingFailed | AcquireStoreStopped | AcquireRejected (e : PublishFailure)
| AcquireUncertain (e : PublishFailure) | StoreUnavailableOrInvalid (e : ModelError + StoreError).
Inductive TenureAuthorityOpenError :=
| InvalidExpectedStoreIdentity | SigningKeyMismatch | AuthorityStoreOpen (e : StoreOpenError).

Definition map_acquire_model_error (error : ModelError) : TenureAcquireError :=
  match error with
  | MEOperationDigestConflict => OperationDigestConflict
  | AcquireCapacityExceeded => CapacityExceeded
  | MEEpochOverflow => EpochOverflow
  | MESnapshotSequenceOverflow => SnapshotSequenceOverflow
  | e => StoreUnavailableOrInvalid (inl e)
  end.
Definition map_acquire_store_error (error : StoreError) : TenureAcquireError :=
  match error with
  | StoreStopped => AcquireStoreStopped
  | StorePublish (RejectedBeforePublish f) => AcquireRejected (RejectedBeforePublish f)
  | StorePublish (UncertainAfterPublish f) => AcquireUncertain (UncertainAfterPublish f)
  | SequenceOverflow => SnapshotSequenceOverflow
  | e => StoreUnavailableOrInvalid (inr e)
  end.

Inductive AcquireDisposition := Issued | Replayed.
#[export] Instance AcquireDisposition_eq_dec : EqDecision AcquireDisposition.
Proof. solve_decision. Defined.
Record CommittedAcquireTenure := MkCommittedAcquireTenure {
  committed_response : AcquireTenureResponseV1;
  committed_disposition : AcquireDisposition;
}.

Section authority.
Context `{Ed25519Signing} (sha256 : list byte -> bytes32) (parallelism : N).

(** ** The signer *)

Record Ed25519TenureSigner := MkEd25519TenureSigner {
  signer_proof_authority : TenureProofAuthority;
  signer_key_fingerprint : Digest32;
  signer_key : SigningKey;
}.
Definition try_from_seed (auth : TenureProofAuthority) (seed : bytes32) (expected : Digest32)
    : result SignerError Ed25519TenureSigner :=
  bail AllZeroSeed when all_zero (vec_to_list seed);
  bail SEUnsupportedSignatureProfile
    when negb (algorithm_value (algorithm auth) =? AUTHORITY_ED25519_ALGORITHM)%N
      || negb (algorithm_version auth =? AUTHORITY_ED25519_ALGORITHM_VERSION)%N;
  let signing_key := signing_key_from_seed seed in
  signing_key_fingerprint ← map_err SignerModel
    (signing_key_fingerprint_for sha256 (public_key_bytes signing_key));
  bail SESigningKeyFingerprintMismatch when bool_decide (signing_key_fingerprint <> expected);
  Ok (MkEd25519TenureSigner auth signing_key_fingerprint signing_key).
Definition signer_validate_provisioning (self : Ed25519TenureSigner) (provisioning : AuthorityProvisioning)
    : result SignerError unit :=
  bail ProofAuthorityMismatch
    when bool_decide (signer_proof_authority self <> pv_proof_authority provisioning);
  bail SESigningKeyFingerprintMismatch
    when bool_decide (signer_key_fingerprint self <> fp_signing_key (pv_fingerprints provisioning));
  bail VerificationKeyMismatch
    when bool_decide (public_key_bytes (signer_key self) <> pv_verification_key provisioning);
  Ok tt.

Record SignedTenureProof := MkSignedTenureProof {
  signed_proof : WriterTenureProof;
  signed_signature : bytes64;
  signed_envelope_digest : Digest32;
}.
Definition sign (self : Ed25519TenureSigner) (source_scope : DeploymentScopeId)
    (writer : DeploymentWriterRef) (epoch supersedes_through_epoch : N) (nonce : list byte)
    : result SignerError SignedTenureProof :=
  claim ← map_err SignerProof
    (claim_try_new (MkSourceScopeRef (deployment_scope_bytes source_scope))
       (MkPlanWriterRef (deployment_writer_bytes writer)) (MkPlanWriterEpoch epoch)
       (MkPlanWriterEpoch supersedes_through_epoch));
  transcript ← map_err SignerProof
    (signing_transcript_try_new (signer_proof_authority self) claim nonce);
  let signature := sign_message (signer_key self) (transcript_bytes transcript) in
  proof ← map_err SignerProof
    (tenure_proof_try_new (signer_proof_authority self) claim nonce (vec_to_list signature));
  envelope_digest ← map_err SignerDigest (envelope_digest sha256 proof);
  Ok (MkSignedTenureProof proof signature envelope_digest).

(** ** The acquire operation *)

Record DeploymentTenureAuthority := MkDeploymentTenureAuthority {
  authority_store : AuthorityStore;
  authority_signer : Ed25519TenureSigner;
}.

Definition validate_request_policy (provisioning : AuthorityProvisioning)
    (request : AcquireTenureRequestV1) : result TenureAcquireError unit :=
  let authorization := pv_authorization provisioning in
  let draft := acq_draft request in
  bail UnsupportedRequestSignatureProfile
    when negb (ACQUIRE_TENURE_ED25519_ALGORITHM =? 1)%N
      || negb (ACQUIRE_TENURE_ED25519_ALGORITHM_VERSION =? 1)%N;
  verifying_key ← ok_or (key_from_bytes (az_controller_verification_key authorization))
    InvalidProvisionedControllerKey;
  signature ← ok_or (vec_of_list 64 (acq_auth_signature request)) InvalidRequestSignature;
  transcript ← map_err (fun _ => InvalidRequestSignature) (acquire_signing_transcript request);
  bail InvalidRequestSignature when negb (verify_strict verifying_key transcript signature);
  bail UnauthorizedScope
    when bool_decide (intent_scope (acq_intent draft) <> pv_source_scope provisioning);
  bail AEUnauthorizedWriter
    when bool_decide (intent_writer (acq_intent draft) <> pv_authorized_writer provisioning);
  bail UnauthorizedControllerPrincipal
    when bool_decide (acq_controller_principal draft <> az_controller_principal authorization);
  bail UnauthorizedControllerKey
    when bool_decide (acq_controller_key draft <> az_controller_key authorization)
      || bool_decide (digest_bytes (fingerprint_value (acq_controller_fingerprint draft))
                      <> az_controller_public_key_fingerprint authorization);
  Ok tt.

Record AcquireEnv := MkAcquireEnv { ae_read : Env; ae_commit : CommitEnv }.

(** The intent of a request. *)
Definition request_intent (request : AcquireTenureRequestV1) : result ModelError AcquireIntent :=
  operation ← operation_try_from_bytes
    (acquire_operation_bytes (intent_operation_id (acq_intent (acq_draft request))));
  acquire_intent_try_new operation (acquire_request_digest_value (acq_request_digest request))
    (acq_canonical_bytes request) (intent_writer (acq_intent (acq_draft request)))
    (acq_client_nonce (acq_draft request)) (acq_max_response_payload_bytes (acq_draft request)).

(** The answer to a replayed operation. *)
Definition replay_response (request : AcquireTenureRequestV1) (exact_response_bytes : list byte)
    (response_digest proof_envelope_digest : Digest32)
    : result TenureAcquireError CommittedAcquireTenure :=
  response ← map_err (fun _ => InvalidStoredResponse)
    (decode_for_request sha256 exact_response_bytes request);
  bail InvalidStoredResponse
    when bool_decide (acquire_response_digest_value (rsp_response_digest response) <> response_digest)
      || bool_decide (rsp_proof_digest response <> proof_envelope_digest);
  Ok (MkCommittedAcquireTenure response Replayed).

(** Signing the next epoch and building the next snapshot. *)
Definition prepare_issue (signer : Ed25519TenureSigner) (snapshot : AuthoritySnapshot)
    (request : AcquireTenureRequestV1) (intent : AcquireIntent) (next_epoch next_snapshot_sequence : N)
    : result TenureAcquireError (AcquireTenureResponseV1 * AuthoritySnapshot) :=
  signed ← map_err (fun _ => SigningFailed)
    (sign signer (pv_source_scope (sn_provisioning snapshot)) (in_writer intent) next_epoch
       (sn_epoch_high_water snapshot) (in_nonce intent));
  let signature := signed_signature signed in
  let proof_envelope_digest := signed_envelope_digest signed in
  response ← map_err (fun error =>
      if bool_decide (at_code error = ATResponseBoundExceeded) then ResponseBoundExceeded
      else ResponseEncodingFailed)
    (response_try_new sha256 request (signed_proof signed));
  bail ResponseEncodingFailed when bool_decide (rsp_proof_digest response <> proof_envelope_digest);
  encoded_response ← map_err map_acquire_model_error
    (encoded_response_try_new (rsp_canonical_bytes response)
       (acquire_response_digest_value (rsp_response_digest response)) proof_envelope_digest);
  next ← map_err map_acquire_model_error
    (with_issued_record sha256 parallelism snapshot intent next_epoch next_snapshot_sequence signature
       proof_envelope_digest encoded_response);
  Ok (response, next).

Definition acquire_with_failpoint (env : AcquireEnv) (signer : Ed25519TenureSigner)
    (request : AcquireTenureRequestV1) (failpoint : CommitFailpoint)
    : M (AuthorityStore * Directory) TenureAcquireError CommittedAcquireTenure :=
  snapshot ← with_err map_acquire_store_error (revalidate_current sha256 parallelism (ae_read env));
  _ ← lift (validate_request_policy (sn_provisioning snapshot) request);
  intent ← lift (map_err map_acquire_model_error (request_intent request));
  pre ← lift (map_err map_acquire_model_error (preflight snapshot intent));
  match pre with
  | PreflightReplay exact_response_bytes response_digest proof_envelope_digest =>
      lift (replay_response request exact_response_bytes response_digest proof_envelope_digest)
  | PreflightIssue next_epoch next_snapshot_sequence =>
      '(response, next) ← lift (prepare_issue signer snapshot request intent next_epoch
                                  next_snapshot_sequence);
      _ ← with_err map_acquire_store_error
            (commit sha256 parallelism (ae_commit env) next failpoint);
      mret (MkCommittedAcquireTenure response Issued)
  end.
Definition acquire_authorized_request (env : AcquireEnv) (signer : Ed25519TenureSigner)
    (request : AcquireTenureRequestV1)
    : M (AuthorityStore * Directory) TenureAcquireError CommittedAcquireTenure :=
  acquire_with_failpoint env signer request FailpointNone.

Definition open_authority (env : Env) (directory : result StoreOpenError N) (contended : bool)
    (expected_store_instance_id : bytes32) (provisioning : AuthorityProvisioning) (private_seed : bytes32)
    : M Directory TenureAuthorityOpenError DeploymentTenureAuthority :=
  expected ← lift (map_err (fun _ => InvalidExpectedStoreIdentity)
    (store_instance_try_from_bytes expected_store_instance_id));
  signer ← lift (map_err (fun _ => SigningKeyMismatch)
    (try_from_seed (pv_proof_authority provisioning) private_seed
       (fp_signing_key (pv_fingerprints provisioning))));
  _ ← lift (map_err (fun _ => SigningKeyMismatch) (signer_validate_provisioning signer provisioning));
  store ← with_err AuthorityStoreOpen
    (open_with_policy sha256 parallelism env directory contended expected provisioning);
  mret (MkDeploymentTenureAuthority store signer).
End authority.

(** ** What an acquire does *)

Section acquire_facts.
Context `{Ed25519Signing} (sha256 : list byte -> bytes32) (n : N).
Implicit Types (d : Directory) (s : AuthoritySnapshot) (st : AuthorityStore) (q : AcquireTenureRequestV1)
  (a : AcquireTenureResponseV1) (r : AcquireRecord).

Definition request_operation q : AcquireOperationId :=
  MkAcquireOperationId (acquire_operation_bytes (intent_operation_id (acq_intent (acq_draft q)))).
Definition response_operation a : AcquireOperationId :=
  MkAcquireOperationId (acquire_operation_bytes (rsp_operation_id a)).
Definition response_epoch a : N := epoch_value (claim_epoch (proof_claim (rsp_proof a))).

(** The record that holds a response. *)
Definition record_of s a r : Prop :=
  r ∈ sn_acquire_records s /\ rec_operation_id r = response_operation a /\
  rec_exact_response_bytes r = rsp_canonical_bytes a /\ rsp_proof a = record_proof s r.
Definition backed s a : Prop := exists r, record_of s a r.

Lemma request_intent_Ok q i :
  request_intent q = Ok i ->
  in_operation_id i = request_operation q /\
  in_request_digest i = acquire_request_digest_value (acq_request_digest q) /\
  in_exact_request_bytes i = acq_canonical_bytes q /\
  in_writer i = intent_writer (acq_intent (acq_draft q)) /\
  in_nonce i = acq_client_nonce (acq_draft q) /\
  in_response_bound i = acq_max_response_payload_bytes (acq_draft q).
Proof.
  unfold request_intent. intros (o & Ho & Hi)%bind_Ok. unfold operation_try_from_bytes in Ho.
  apply bind_unit_Ok in Ho as [_ [= <-]]. unfold acquire_intent_try_new in Hi. rust_inv. done.
Qed.

Lemma decode_for_request_det b q q' a a' :
  decode_for_request sha256 b q = Ok a -> decode_for_request sha256 b q' = Ok a' -> a = a'.
Proof.
  unfold decode_for_request. intros (x & Hx & ([] & _ & [= <-])%bind_Ok)%bind_Ok.
  rewrite Hx, bind_Ok_l. by intros ([] & _ & [= <-])%bind_Ok.
Qed.

(** A valid record answers with the proof it stands for. *)
Lemma record_response s r q a :
  validate_record_protocol sha256 s r = Ok tt ->
  decode_for_request sha256 (rec_exact_response_bytes r) q = Ok a ->
  rsp_proof a = record_proof s r /\ rsp_canonical_bytes a = rec_exact_response_bytes r.
Proof.
  intros (q' & a' & _ & _ & _ & _ & _ & _ & _ & _ & Ha' & _ & _ & Hp)%record_protocol_Ok Ha.
  pose proof (decode_for_request_det _ _ _ _ _ Ha Ha') as ->. split; [done|].
  by apply decode_for_request_Ok in Ha' as (_ & _ & <-).
Qed.

Lemma prepare_issue_Ok signer s q i e sq a next :
  snapshot_valid sha256 s -> request_intent q = Ok i ->
  signer_proof_authority signer = pv_proof_authority (sn_provisioning s) ->
  prepare_issue sha256 n signer s q i e sq = Ok (a, next) ->
  rsp_operation_id a = intent_operation_id (acq_intent (acq_draft q)) /\
  exists r, next = extend s r /\ snapshot_valid sha256 next /\
    rec_epoch r = (sn_epoch_high_water s + 1)%N /\ record_of next a r.
Proof.
  intros Hv Hi Hsa. unfold prepare_issue. intros (sg & Hsg%map_err_Ok & Hk)%bind_Ok.
  apply bind_Ok in Hk as (a' & Ha%map_err_Ok & Hk). apply bind_unit_Ok in Hk as [Hpd Hk].
  apply bind_Ok in Hk as (er & Her%map_err_Ok & Hk). apply bind_Ok in Hk as (nx & Hnx%map_err_Ok & [= <- <-]).
  apply with_issued_record_Ok in Hnx as (Hn & Hc & He & Hsq & Hpe & Hl & Hnext & Hval); [|done].
  pose proof Ha as Ha0. apply response_try_new_Ok in Ha0 as (_ & Ho & _ & _ & Hp & _).
  split; [done|]. exists (issued_record s i (signed_signature sg) (signed_envelope_digest sg) er).
  split; [done|]. split; [done|]. split; [done|].
  assert (er_exact_bytes er = rsp_canonical_bytes a') as Hb.
  { unfold encoded_response_try_new in Her. rust_inv. done. }
  apply request_intent_Ok in Hi as (Hop & _ & _ & _ & Hnc & _).
  split; [|split; [|split]].
  - rewrite Hnext, extend_Permutation. left.
  - cbn [issued_record rec_operation_id]. rewrite Hop. unfold request_operation, response_operation. by rewrite Ho.
  - done.
  - rewrite Hp. unfold sign in Hsg. rust_inv.
    match goal with H : claim_try_new _ _ _ _ = Ok _ |- _ => apply claim_try_new_Ok in H as (-> & _) end.
    match goal with H : signing_transcript_try_new _ _ _ = Ok _ |- _ => apply signing_transcript_Ok in H as (_ & ->) end.
    match goal with H : tenure_proof_try_new _ _ _ _ = Ok _ |- _ => apply tenure_proof_try_new_Ok in H as (-> & _) end.
    cbn [signed_proof signed_signature]. unfold record_proof, issued_record.
    cbn [rec_writer rec_epoch rec_supersedes_through_epoch rec_nonce rec_signature].
    cbn [extend sn_provisioning]. by rewrite Hsa.
Qed.

(** A record stays what it is in later snapshots. *)
Lemma record_proof_extend s r x : record_proof (extend s r) x = record_proof s x.
Proof. done. Qed.
Lemma backed_extend s r a : backed s a -> backed (extend s r) a.
Proof.
  intros (x & Hx & Ho & Hb & Hp). exists x. split_and!; try done.
  rewrite extend_Permutation. by right.
Qed.

Lemma wp_acquire env signer q fp (Q : CommittedAcquireTenure -> AuthorityStore * Directory -> Prop) R st d :
  temps_ok d -> signer_proof_authority signer = pv_proof_authority (sn_provisioning (store_snapshot st)) ->
  (forall a, store_state st = Operational -> backed (store_snapshot st) a ->
     Q (MkCommittedAcquireTenure a Replayed) (st, d)) ->
  (forall a r d', store_state st = Operational -> on_disk sha256 (store_snapshot st) ->
     let next := extend (store_snapshot st) r in
     on_disk sha256 next -> rec_epoch r = (sn_epoch_high_water (store_snapshot st) + 1)%N ->
     record_of next a r -> dir_active d' = Some (file_of sha256 next) -> dir_reverts d' = None ->
     temps_sub d d' ->
     Q (MkCommittedAcquireTenure a Issued) (MkAuthorityStore (store_owner_uid st) next Operational, d')) ->
  (forall e st', st' = st \/ st' = stopped st -> R e (st', d)) ->
  (forall e r st' d', store_state st = Operational -> on_disk sha256 (extend (store_snapshot st) r) ->
     maybe_published (snapshot_bytes sha256 (extend (store_snapshot st) r)) d d' ->
     e = None \/ st' = stopped st -> R e (st', d')) ->
  wp (acquire_with_failpoint sha256 n env signer q fp) Q R (st, d).
Proof.
  intros Ht Hsa HQr HQi HRu HRp. unfold acquire_with_failpoint.
  apply wp_bind, wp_with_err, wp_revalidate; [|intros e; apply HRu; by right|apply HRu; by left].
  intros Hop Hs _. assert (forall e, R e (st, d)) as HR by (intros e; apply HRu; by left).
  apply wp_bind, wp_lift; [intros [] _|auto|auto].
  apply wp_bind, wp_lift; [intros i Hi|auto|auto]. apply map_err_Ok in Hi.
  apply wp_bind, wp_lift; [intros pre Hpre|auto|auto]. apply map_err_Ok in Hpre.
  pose proof (request_intent_Ok _ _ Hi) as (Hio & _).
  destruct (preflight_cases sha256 (store_snapshot st) i (proj1 Hs)) as [(r & Hr & Hro & Hp)|[Hn Hp]];
    rewrite Hp in Hpre; clear Hp.
  - destruct (bool_decide _); [|done]. injection Hpre as <-. cbn [fst].
    apply wp_lift; [|auto|auto]. unfold replay_response. intros c (a & Ha%map_err_Ok & Hc)%bind_Ok.
    apply bind_unit_Ok in Hc as [_ [= <-]]. apply HQr; [done|]. exists r.
    pose proof (sv_protocol _ _ (proj1 Hs)) as Hpr. rewrite Forall_forall in Hpr.
    destruct (record_response _ _ _ _ (Hpr r Hr) Ha) as [Hpp Hcb].
    split_and!; try done. rewrite Hro, Hio. unfold request_operation, response_operation.
    apply decode_for_request_Ok in Ha as (_ & Ha & _). apply response_try_new_Ok in Ha as (_ & -> & _). done.
  - destruct (_ =? _)%N; [done|]. injection Hpre as <-.
    apply wp_bind, wp_lift; [intros [a next] Hk|auto|auto].
    destruct (prepare_issue_Ok _ _ _ _ _ _ _ _ (proj1 Hs) Hi Hsa Hk) as (_ & r & -> & Hval & He & Hrec).
    assert (on_disk sha256 (extend (store_snapshot st) r)) as Hdisk by (split; [done|apply Hs]).
    apply wp_bind, wp_with_err, wp_commit; [done|..].
    + intros d' _ _ _ Ha Hr Hsub. apply wp_ret. by apply HQi.
    + intros e d' Hm. eapply HRp; [done|done|done|by right].
    + intros d' Hm. eapply HRp; [done|done|done|by left].
Qed.
End acquire_facts.

(** ** Requests that are served *)

(** A digest that is not all zeros. *)
Abbreviation nonzero_digest d := (all_zero (vec_to_list (digest_bytes d)) = false).

Section responses.
Context (sha256 : list byte -> bytes32).
Implicit Types (q : AcquireTenureRequestV1) (p : WriterTenureProof) (a : AcquireTenureResponseV1).

(** The size of a response. *)
Lemma len_response_bytes o rq c p pd rd :
  len (build_response_bytes o rq c p pd rd) =
  (298 + len c + len (proof_nonce p) + len (proof_signature p))%N.
Proof.
  rewrite build_response_bytes_eq. unfold message, response_fields, envelope_fields. cbv zeta.
  rewrite len_app, len_encode_tlvs. cbn [app map sum_N foldr]. rewrite !len_app, !len_be_bytes, !len_vec.
  generalize (len c) (len (proof_nonce p)) (len (proof_signature p)). intros x y z.
  rewrite ?len_cons. change (len (@nil (list byte))) with 0%N. change (len ACQUIRE_RESPONSE_MAGIC) with 8%N.
  cbn [N.of_nat]. lia.
Qed.
Lemma response_digest_total o rq c p pd :
  (len c + len (proof_nonce p) + len (proof_signature p) <= 2 ^ 32)%N ->
  exists rd, build_response_digest sha256 o rq c p pd = Ok rd.
Proof.
  intros Hl. unfold build_response_digest, digest_builder, add_digest_bytes.
  destruct (build_total RESPONSE_DIGEST_DOMAIN [build_response_unsigned_bytes o rq c p pd]) as [_ Hb].
  destruct Hb as [b Hb].
  { split; [done|]. split; [vm_compute; discriminate|]. split; [|vm_compute; discriminate].
    constructor; [|constructor]. unfold build_response_unsigned_bytes, append_value_header. cbv zeta.
    rewrite append_response_unsigned_fields_eq. unfold response_fields, envelope_fields. cbv zeta.
    rewrite len_app, len_encode_tlvs. cbn [app map sum_N foldr]. rewrite !len_app, !len_be_bytes, !len_vec.
    generalize dependent (len c). generalize dependent (len (proof_nonce p)).
    generalize dependent (len (proof_signature p)). intros x y z Hl.
    rewrite ?len_cons. change (len (@nil (list byte))) with 0%N. change (len ACQUIRE_RESPONSE_MAGIC) with 8%N.
    cbn [N.of_nat]. unfold u64_max. lia. }
  revert Hb. generalize (build_response_unsigned_bytes o rq c p pd) RESPONSE_DIGEST_DOMAIN. intros u domain Hb.
  run_build Hb. by eexists.
Qed.

(** A proof that answers a request makes a response when it fits the bound of
    the request. *)
Lemma response_try_new_total q p :
  validate_proof_binding q p = Ok tt -> proof_wf p -> draft_wf (acq_draft q) ->
  if (acq_max_response_payload_bytes (acq_draft q)
      <? 298 + 2 * len (proof_nonce p) + len (proof_signature p))%N
  then response_try_new sha256 q p = Err (at_new ATResponseBoundExceeded)
  else exists a, response_try_new sha256 q p = Ok a.
Proof.
  intros Hb Hw Hd. pose proof (envelope_digest_eq sha256 p (proof_wf_typed _ Hw)) as He.
  unfold proof_wf, MAX_TENURE_NONCE_BYTES, MAX_TENURE_SIGNATURE_BYTES in Hw. unfold response_try_new.
  pose proof Hb as (_ & _ & Hn)%validate_proof_binding_Ok.
  destruct (response_digest_total (intent_operation_id (acq_intent (acq_draft q))) (acq_request_digest q)
    (proof_nonce p) p (MkDigest32 (sha256 (envelope_preimage p)))) as [rd Hrd]; [lia|].
  rewrite Hb, bind_Ok_l, He. cbv beta. cbn [map_err]. rewrite bind_Ok_l. cbv beta zeta.
  rewrite <-Hn, Hrd, bind_Ok_l. cbv beta zeta. rewrite len_response_bytes.
  replace (298 + len (proof_nonce p) + len (proof_nonce p) + len (proof_signature p))%N
    with (298 + 2 * len (proof_nonce p) + len (proof_signature p))%N by lia.
  destruct (N.ltb_spec (acq_max_response_payload_bytes (acq_draft q))
    (298 + 2 * len (proof_nonce p) + len (proof_signature p))) as [Hlt|Hge]; [done|].
  rewrite bind_pass. cbv beta. destruct Hd as (_ & _ & _ & _ & _ & _ & _ & _ & Hmax).
  rewrite (proj2 (N.ltb_ge _ _)) by lia. rewrite bind_pass. by eexists.
Qed.
End responses.

Section served.
Context `{Ed25519Signing} (sha256 : list byte -> bytes32) (n : N).
Implicit Types (d : Directory) (s : AuthoritySnapshot) (st : AuthorityStore) (q : AcquireTenureRequestV1)
  (a : AcquireTenureResponseV1).

(** The proof that answers the next request. *)
Definition next_proof (signer : Ed25519TenureSigner) s q : WriterTenureProof :=
  let claim := MkWriterTenureClaim
    (MkSourceScopeRef (deployment_scope_bytes (pv_source_scope (sn_provisioning s))))
    (MkPlanWriterRef (deployment_writer_bytes (intent_writer (acq_intent (acq_draft q)))))
    (MkPlanWriterEpoch (sn_epoch_high_water s + 1)) (MkPlanWriterEpoch (sn_epoch_high_water s)) in
  MkWriterTenureProof (signer_proof_authority signer) claim (acq_client_nonce (acq_draft q))
    (vec_to_list (sign_message (signer_key signer)
       (transcript_encoding (signer_proof_authority signer) claim (acq_client_nonce (acq_draft q))))).
(** What the protocol reserves: no digest of the exchange is all zeros. *)
Definition digests_nonzero (signer : Ed25519TenureSigner) s q : Prop :=
  nonzero_digest (acquire_request_digest_value (acq_request_digest q)) /\
  forall a, response_try_new sha256 q (next_proof signer s q) = Ok a ->
    nonzero_digest (acquire_response_digest_value (rsp_response_digest a)) /\
    nonzero_digest (rsp_proof_digest a).

Lemma provisioned_algorithm s :
  snapshot_valid sha256 s ->
  algorithm_value (algorithm (pv_proof_authority (sn_provisioning s))) = 1%N /\
  algorithm_version (pv_proof_authority (sn_provisioning s)) = 1%N.
Proof.
  intros Hv. pose proof (sv_provisioning _ _ Hv) as Hp. unfold provisioning_validate, provisioning_try_new in Hp.
  rust_inv. unfold AUTHORITY_ED25519_ALGORITHM, AUTHORITY_ED25519_ALGORITHM_VERSION in *. lia.
Qed.

Lemma request_wf q : request_built sha256 q -> draft_wf (acq_draft q).
Proof. by intros [(Hd & _)%acquire_draft_try_new_Ok _]. Qed.

Lemma next_proof_wf signer s q :
  snapshot_valid sha256 s -> draft_wf (acq_draft q) ->
  signer_proof_authority signer = pv_proof_authority (sn_provisioning s) ->
  proof_wf (next_proof signer s q).
Proof.
  intros Hv (_ & _ & _ & _ & _ & _ & Hn & _) Hsa. destruct (provisioned_algorithm s Hv) as [Ha Hav].
  pose proof (sv_capacity _ _ Hv) as Hc. pose proof (sv_high_water _ _ Hv) as Hh.
  unfold proof_wf, next_proof. cbn [proof_authority proof_claim proof_nonce proof_signature claim_epoch
    claim_supersedes_through_epoch epoch_value]. rewrite Hsa, Ha, Hav, len_vec.
  unfold MAX_ACQUIRE_TENURE_CLIENT_NONCE_BYTES, MAX_TENURE_NONCE_BYTES, MAX_TENURE_SIGNATURE_BYTES,
    MAX_RETAINED_ACQUIRE_RECORDS, u16_max, u64_max in *. cbn [N.of_nat]. lia.
Qed.

(** The signer makes it. *)
Lemma sign_next signer s q :
  snapshot_valid sha256 s -> draft_wf (acq_draft q) ->
  signer_proof_authority signer = pv_proof_authority (sn_provisioning s) ->
  sign sha256 signer (pv_source_scope (sn_provisioning s)) (intent_writer (acq_intent (acq_draft q)))
    (sn_epoch_high_water s + 1) (sn_epoch_high_water s) (acq_client_nonce (acq_draft q)) =
  let p := next_proof signer s q in
  Ok (MkSignedTenureProof p (sign_message (signer_key signer)
        (transcript_encoding (proof_authority p) (proof_claim p) (proof_nonce p)))
        (MkDigest32 (sha256 (envelope_preimage p)))).
Proof.
  intros Hv Hd Hsa. pose proof (next_proof_wf signer s q Hv Hd Hsa) as Hw.
  pose proof (envelope_digest_eq sha256 _ (proof_wf_typed _ Hw)) as He.
  assert (1 <= len (acq_client_nonce (acq_draft q)) <= MAX_TENURE_NONCE_BYTES)%N as Hn by apply Hd.
  unfold sign. rewrite (proj2 (claim_try_new_Ok _ _ _ _ _)) by (split; [reflexivity|cbn [epoch_value]; lia]).
  cbn [map_err]. rewrite bind_Ok_l. rewrite (proj2 (signing_transcript_Ok _ _ _ _) (conj Hn eq_refl)).
  cbn [map_err transcript_bytes]. rewrite bind_Ok_l. cbv zeta.
  rewrite (proj2 (tenure_proof_try_new_Ok _ _ _ _ (next_proof signer s q)))
    by (split; [reflexivity|rewrite len_vec; split; [done|vm_compute; done]]).
  cbn [map_err]. rewrite bind_Ok_l, He. done.
Qed.

Lemma request_intent_total q :
  request_built sha256 q -> nonzero_digest (acquire_request_digest_value (acq_request_digest q)) ->
  exists i, request_intent q = Ok i.
Proof.
  intros Hq Hz. pose proof (request_wf q Hq) as (_ & Hw & Ho & _ & _ & _ & Hn & Hb).
  destruct Hq as [_ (_ & Hl & _ & Hr)%finalize_Ok]. apply (f_equal acq_canonical_bytes) in Hr.
  cbn [acq_canonical_bytes] in Hr. unfold request_intent, operation_try_from_bytes. rewrite Ho. cbn [fail_if].
  rewrite !bind_Ok_l. unfold acquire_intent_try_new, ensure_nonzero_digest, ensure_nonzero. rewrite Hz, Hw.
  assert (0 < len (acq_canonical_bytes q))%N as Hpos.
  { rewrite Hr, build_request_bytes_eq. unfold message. rewrite !len_app.
    change (len ACQUIRE_REQUEST_MAGIC) with 8%N. lia. }
  rewrite <-Hr in Hl. 
  rewrite !(bool_decide_eq_false_2 (_ = [])) by (rewrite nil_len; lia).
  assert (MAX_ACQUIRE_TENURE_REQUEST_PAYLOAD_BYTES <= MAX_ACQUIRE_REQUEST_BYTES /\
    0 < MIN_ACQUIRE_TENURE_RESPONSE_PAYLOAD_BYTES /\
    MAX_ACQUIRE_TENURE_RESPONSE_PAYLOAD_BYTES <= MAX_ACQUIRE_RESPONSE_BYTES /\
    MAX_ACQUIRE_TENURE_CLIENT_NONCE_BYTES <= MAX_TENURE_NONCE_BYTES)%N as (H1 & H2 & H3 & H4) by (vm_compute; done).
  rewrite (proj2 (N.ltb_ge MAX_ACQUIRE_REQUEST_BYTES (len (acq_canonical_bytes q)))) by lia.
  rewrite (proj2 (N.ltb_ge MAX_TENURE_NONCE_BYTES (len (acq_client_nonce (acq_draft q))))) by lia.
  rewrite (proj2 (N.eqb_neq (acq_max_response_payload_bytes (acq_draft q)) 0)) by lia.
  rewrite (proj2 (N.ltb_ge MAX_ACQUIRE_RESPONSE_BYTES (acq_max_response_payload_bytes (acq_draft q)))) by lia.
  by eexists.
Qed.

Lemma signer_provisioned (signer : Ed25519TenureSigner) (provisioning : AuthorityProvisioning) :
  signer_validate_provisioning signer provisioning = Ok tt ->
  signer_proof_authority signer = pv_proof_authority provisioning /\
  public_key_bytes (signer_key signer) = pv_verification_key provisioning.
Proof.
  unfold signer_validate_provisioning. intros Hv. rust_inv.
  repeat match goal with H : ~ (_ <> _) |- _ => apply dec_stable in H end. done.
Qed.

(** A request that the provisioned controller may make. *)
Definition authorized (s : AuthoritySnapshot) q : Prop :=
  request_built sha256 q /\ validate_request_policy (sn_provisioning s) q = Ok tt.
Lemma authorized_bindings s q :
  validate_request_policy (sn_provisioning s) q = Ok tt ->
  controller_signed (sn_provisioning s) q /\
  intent_scope (acq_intent (acq_draft q)) = pv_source_scope (sn_provisioning s) /\
  intent_writer (acq_intent (acq_draft q)) = pv_authorized_writer (sn_provisioning s) /\
  acq_controller_principal (acq_draft q) = az_controller_principal (pv_authorization (sn_provisioning s)) /\
  acq_controller_key (acq_draft q) = az_controller_key (pv_authorization (sn_provisioning s)) /\
  digest_bytes (fingerprint_value (acq_controller_fingerprint (acq_draft q))) =
    az_controller_public_key_fingerprint (pv_authorization (sn_provisioning s)).
Proof.
  unfold validate_request_policy. intros Hp. rust_inv.
  repeat match goal with H : ~ (_ <> _) |- _ => apply dec_stable in H end.
  split; [by eexists _, _, _|]. done.
Qed.
Lemma stored_request_matches s q (r : AcquireRecord) :
  validate_request_policy (sn_provisioning s) q = Ok tt ->
  rec_operation_id r = request_operation q ->
  rec_request_digest r = acquire_request_digest_value (acq_request_digest q) ->
  rec_writer r = intent_writer (acq_intent (acq_draft q)) -> rec_nonce r = acq_client_nonce (acq_draft q) ->
  rec_response_bound r = acq_max_response_payload_bytes (acq_draft q) ->
  stored_request_mismatch s r q = false.
Proof.
  intros (_ & Hs & _ & Hcp & Hck & Hcf)%authorized_bindings Ho Hr Hw Hn Hb. unfold stored_request_mismatch.
  rewrite Ho, Hr, Hw, Hn, Hb, Hs, Hcp, Hck, Hcf, N.eqb_refl, !bool_decide_ne_refl. done.
Qed.

(** The snapshot with the record of the next request is valid. *)
Lemma issued_snapshot_valid signer s q i a :
  snapshot_valid sha256 s -> authorized s q -> request_intent q = Ok i ->
  signer_validate_provisioning signer (sn_provisioning s) = Ok tt -> signatures_verify (signer_key signer) ->
  digests_nonzero signer s q -> request_operation q ∉ issued_operations s ->
  (len (sn_acquire_records s) < MAX_RETAINED_ACQUIRE_RECORDS)%N ->
  let p := next_proof signer s q in
  response_try_new sha256 q p = Ok a ->
  snapshot_valid sha256 (extend s (issued_record s i
    (sign_message (signer_key signer) (transcript_encoding (proof_authority p) (proof_claim p) (proof_nonce p)))
    (rsp_proof_digest a)
    (MkEncodedAcquireResponse (rsp_canonical_bytes a) (acquire_response_digest_value (rsp_response_digest a))
       (rsp_proof_digest a)))).
Proof.
  intros Hv [Hq Hpol] Hi Hsp Hsv [Hz Hnz] Hnew Hcap p Ha. pose proof (request_wf q Hq) as Hd.
  pose proof (signer_provisioned signer (sn_provisioning s) Hsp) as [Hsa Hvk].
  pose proof (authorized_bindings s q Hpol) as (Hcs & Hscope & Hwriter & _).
  destruct (request_intent_Ok q i Hi) as (Hio & Hird & Hirb & Hiw & Hin & Hibd).
  pose proof (next_proof_wf signer s q Hv Hd Hsa) as Hw. destruct (Hnz a Ha) as [Hz1 Hz2].
  pose proof (proj1 (response_try_new_Ok _ _ _ _) Ha) as (_ & Hao & Haq & Han & Hap & Hapd & Hard & Hab & Hal & Hal').
  set (er := MkEncodedAcquireResponse _ _ _). set (sg := sign_message _ _).
  apply extend_valid; try done; [by cbn [issued_record rec_operation_id]; rewrite Hio|..].
  - apply record_structure_Ok. cbn [issued_record rec_operation_id rec_request_digest rec_exact_request_bytes
      rec_writer rec_epoch rec_supersedes_through_epoch rec_nonce rec_response_bound rec_exact_response_bytes
      rec_response_digest rec_proof_envelope_digest extend sn_provisioning sn_epoch_high_water er_exact_bytes
      er_response_digest er].
    assert (0 < len (rsp_canonical_bytes a))%N by (rewrite Hab, len_response_bytes; lia).
    pose proof Hi as Hi'. unfold request_intent, operation_try_from_bytes, acquire_intent_try_new, ensure_nonzero_digest in Hi'.
    rust_inv. repeat match goal with H : ensure_nonzero _ _ = Ok _ |- _ => apply ensure_nonzero_Ok in H end.
    repeat match goal with H : ~ (_ = []) |- _ => rewrite nil_len in H end.
    cbn [in_operation_id in_request_digest in_exact_request_bytes in_writer in_nonce in_response_bound] in *.
    split_and!; try done; try lia.
  - apply record_protocol_Ok. exists q, a.
    assert (record_proof s (issued_record s i sg (rsp_proof_digest a) er) = next_proof signer s q) as Hrp.
    { unfold record_proof, issued_record, next_proof. cbn [rec_writer rec_epoch rec_supersedes_through_epoch rec_nonce rec_signature].
      rewrite Hiw, Hin, <-Hsa. done. }
    rewrite Hrp. cbn [issued_record rec_exact_request_bytes rec_supersedes_through_epoch rec_epoch rec_nonce
      rec_proof_envelope_digest rec_signature rec_exact_response_bytes rec_response_digest er_exact_bytes er_response_digest er].
    rewrite Hin. split_and!; try done; try apply Hd.
    + by apply stored_request_matches.
    + lia.
    + destruct Hsv as (vk & Hk & Hvf). exists vk. rewrite <-Hvk. split; [done|]. apply Hvf.
    + apply decode_for_request_Ok. by rewrite Hap.
Qed.

(** Signing and building the next snapshot succeed, unless the answer does not
    fit the bound of the request. *)
Lemma prepare_issue_total signer s q i :
  snapshot_valid sha256 s -> authorized s q -> request_intent q = Ok i ->
  signer_validate_provisioning signer (sn_provisioning s) = Ok tt -> signatures_verify (signer_key signer) ->
  digests_nonzero signer s q -> request_operation q ∉ issued_operations s ->
  (len (sn_acquire_records s) < MAX_RETAINED_ACQUIRE_RECORDS)%N ->
  let prepared := prepare_issue sha256 n signer s q i (sn_epoch_high_water s + 1) (sn_snapshot_sequence s + 1) in
  if (acq_max_response_payload_bytes (acq_draft q) <? 362 + 2 * len (acq_client_nonce (acq_draft q)))%N
  then prepared = Err ResponseBoundExceeded
  else exists a next, prepared = Ok (a, next).
Proof.
  intros Hv [Hq Hpol] Hi Hsp Hsv Hnz Hnew Hcap. pose proof (request_wf q Hq) as Hd.
  pose proof (signer_provisioned signer (sn_provisioning s) Hsp) as [Hsa Hvk].
  pose proof (authorized_bindings s q Hpol) as (_ & Hscope & _).
  destruct (request_intent_Ok q i Hi) as (Hio & _ & _ & Hiw & Hin & Hibd).
  unfold prepare_issue. rewrite Hiw, Hin, (sign_next signer s q Hv Hd Hsa). cbv zeta. cbn [map_err].
  rewrite bind_Ok_l. cbv beta zeta. cbn [signed_proof signed_signature signed_envelope_digest].
  pose proof (next_proof_wf signer s q Hv Hd Hsa) as Hw.
  assert (validate_proof_binding q (next_proof signer s q) = Ok tt) as Hbd.
  { apply validate_proof_binding_Ok. unfold next_proof.
    cbn [proof_claim claim_source_scope claim_writer scope_bytes writer_bytes proof_nonce]. by rewrite Hscope. }
  pose proof (response_try_new_total sha256 q (next_proof signer s q) Hbd Hw Hd) as Hr.
  replace (298 + 2 * len (proof_nonce (next_proof signer s q)) + len (proof_signature (next_proof signer s q)))%N
    with (362 + 2 * len (acq_client_nonce (acq_draft q)))%N in Hr
    by (cbn [next_proof proof_signature proof_nonce]; rewrite len_vec; lia).
  destruct (_ <? _)%N; [by rewrite Hr|]. destruct Hr as [a Ha]. rewrite Ha. cbn [map_err].
  rewrite bind_Ok_l. cbv beta. destruct (proj2 Hnz a Ha) as [Hz1 Hz2].
  pose proof (issued_snapshot_valid signer s q i a Hv (conj Hq Hpol) Hi Hsp Hsv Hnz Hnew Hcap Ha) as Hval.
  pose proof (proj1 (response_try_new_Ok _ _ _ _) Ha) as (_ & _ & _ & _ & _ & Hapd & _ & Hab & Hal & Hal').
  rewrite (envelope_digest_eq sha256 _ (proof_wf_typed _ Hw)) in Hapd. injection Hapd as Hapd.
  rewrite <-Hapd, bool_decide_ne_refl, bind_pass. cbv beta. rewrite Hapd.
  assert (0 < len (rsp_canonical_bytes a) <= MAX_ACQUIRE_RESPONSE_BYTES)%N as Hlen.
  { rewrite Hab, len_response_bytes in Hal' |- *.
    assert (MAX_ACQUIRE_TENURE_RESPONSE_PAYLOAD_BYTES <= MAX_ACQUIRE_RESPONSE_BYTES)%N by (vm_compute; done). lia. }
  unfold encoded_response_try_new, ensure_nonzero_digest, ensure_nonzero. rewrite Hz1, Hz2.
  rewrite bool_decide_eq_false_2 by (rewrite nil_len; lia).
  rewrite (proj2 (N.ltb_ge MAX_ACQUIRE_RESPONSE_BYTES (len (rsp_canonical_bytes a)))) by lia.
  cbn [fail_if]. rewrite !bind_Ok_l. cbn [map_err]. rewrite bind_Ok_l. cbv beta.
  erewrite (proj2 (with_issued_record_Ok sha256 n s i _ _ _ _ _ _ Hv)).
  { cbn [map_err]. rewrite bind_Ok_l. by eexists _, _. }
  rewrite Hio, Hibd. split_and!; try done.
Qed.

(** A retried request gets the recorded answer. *)
Lemma replay_response_total s q (r : AcquireRecord) :
  snapshot_valid sha256 s -> r ∈ sn_acquire_records s -> rec_exact_request_bytes r = acq_canonical_bytes q ->
  request_built sha256 q ->
  rec_request_digest r = acquire_request_digest_value (acq_request_digest q) /\
  exists a, rsp_canonical_bytes a = rec_exact_response_bytes r /\
    replay_response sha256 q (rec_exact_response_bytes r) (rec_response_digest r) (rec_proof_envelope_digest r)
    = Ok (MkCommittedAcquireTenure a Replayed).
Proof.
  intros Hv Hr Hb Hq. pose proof (sv_protocol _ _ Hv) as Hpr. rewrite Forall_forall in Hpr.
  destruct (proj1 (record_protocol_Ok _ _ _) (Hpr r Hr)) as (q' & a & Hq' & Hb' & Hm & _ & _ & _ & _ & _ & Ha & Hrd & Hpd & Hp).
  assert (q' = q) as ->.
  { pose proof (proj2 (decode_acquire_request_Ok sha256 _ _) (conj Hq' Hb')) as H1.
    pose proof (proj2 (decode_acquire_request_Ok sha256 _ _) (conj Hq (eq_sym Hb))) as H2. congruence. }
  split.
  - unfold stored_request_mismatch in Hm. rewrite !orb_false_iff in Hm.
    destruct Hm as [[[[[[[[_ Hm] _] _] _] _] _] _] _]. by apply bool_decide_eq_false, dec_stable in Hm.
  - exists a. split; [by apply decode_for_request_Ok in Ha as (_ & _ & <-)|]. unfold replay_response.
    rewrite Ha. cbn [map_err]. rewrite bind_Ok_l, Hrd, Hpd, !bool_decide_ne_refl. done.
Qed.
End served.
