(* ===== verification/TenureSystem.v ===== *)
(** * The tenure authority across faults and restarts

    The authority process, its state directory and its clients: acquires with
    any answers of the operating system, restarts, crashes of the process and
    losses of power.  What is acknowledged to a client is compared with what
    the directory holds. *)

From S2P Require Import Prelude Bytes Wp Slices Cursor KernelDigest ApplyContracts ApplyWire Signatures TenureProtocol TenureModel TenureHistory TenureCodec TenureStore TenureAuthority.
Open Scope rust_scope.

Lemma snapshot_bytes_inj `{Ed25519} sha256 s s' :
  on_disk sha256 s -> on_disk sha256 s' -> snapshot_bytes sha256 s = snapshot_bytes sha256 s' -> s = s'.
Proof.
  intros [Hv Hi] [Hv' Hi'] Hb. apply (decode_snapshot_valid sha256 0) in Hv, Hv'; [|done..].
  rewrite Hb, Hv' in Hv. by injection Hv.
Qed.

Section world.
Context `{Ed25519Signing} (sha256 : list byte -> bytes32) (n : N).
(** The installation: provisioning and store identity. *)
Context (prov : AuthorityProvisioning) (instance : StoreInstanceId).

Record World := MkWorld {
  w_dir : Directory;
  w_process : option DeploymentTenureAuthority;
  w_acknowledged : list AcquireTenureResponseV1;
}.

(** ** Loss of power *)

(** Synced contents survive, others become anything. *)
Definition survives (f f' : option StoredFile) : Prop :=
  match f, f' with
  | None, None => True
  | Some f, Some f' => file_synced f' = true /\ (file_synced f = true -> file_content f' = file_content f)
  | _, _ => False
  end.
(** An unsynced rename may be undone; some temporary files may be gone. *)
Definition power_loss (d d' : Directory) : Prop :=
  (survives (dir_active d) (dir_active d') \/
   exists f, dir_reverts d = Some f /\ survives f (dir_active d')) /\
  dir_reverts d' = None /\ temps_sub d d'.

(** ** Steps *)

(** Which events a run may have: losses of power, and starts of the process
    while a rename is not durable yet. *)
Record RunMode := MkRunMode { may_lose_power : bool; may_open_unsettled : bool }.

Definition after_acquire (auth : DeploymentTenureAuthority) (acks : list AcquireTenureResponseV1)
    (outcome : AuthorityStore * Directory * result TenureAcquireError CommittedAcquireTenure) : World :=
  let '((st, d), r) := outcome in
  match r with
  | Ok c => MkWorld d (Some (MkDeploymentTenureAuthority st (authority_signer auth)))
              (acks ++ [committed_response c])
  | Err _ => MkWorld d (Some (MkDeploymentTenureAuthority st (authority_signer auth))) acks
  | Panic => MkWorld d None acks
  end.
Definition after_open (acks : list AcquireTenureResponseV1)
    (outcome : Directory * result TenureAuthorityOpenError DeploymentTenureAuthority) : World :=
  let '(d, r) := outcome in
  MkWorld d (match r with Ok auth => Some auth | _ => None end) acks.

Inductive authority_step (mode : RunMode) : World -> World -> Prop :=
| step_acquire env q failpoint d auth acks :
    authority_step mode (MkWorld d (Some auth) acks)
      (after_acquire auth acks (acquire_with_failpoint sha256 n env (authority_signer auth) q failpoint
                                  (authority_store auth, d)))
| step_open env directory contended seed d acks :
    may_open_unsettled mode = true \/ dir_reverts d = None ->
    authority_step mode (MkWorld d None acks)
      (after_open acks (open_authority sha256 n env directory contended (store_instance_bytes instance)
                          prov seed d))
| step_exit d auth acks : authority_step mode (MkWorld d (Some auth) acks) (MkWorld d None acks)
| step_power_loss d d' process acks :
    may_lose_power mode = true -> power_loss d d' ->
    authority_step mode (MkWorld d process acks) (MkWorld d' None acks).
Abbreviation authority_steps mode := (rtc (authority_step mode)).

(** An installed directory: one valid snapshot of this installation, no
    process, nothing acknowledged. *)
Definition belongs (s : AuthoritySnapshot) : Prop :=
  on_disk sha256 s /\ sn_provisioning s = prov /\ sn_store_instance_id s = instance.
Definition installed (w : World) : Prop :=
  exists s, belongs s /\ w = MkWorld (MkDirectory (Some (file_of sha256 s)) None []) None [].

(** ** The invariant *)

Definition sound_mode (mode : RunMode) : Prop :=
  may_lose_power mode = false \/ may_open_unsettled mode = false.

Definition process_ok (mode : RunMode) (d : Directory) (s : AuthoritySnapshot)
    (p : option DeploymentTenureAuthority) : Prop :=
  match p with
  | None => True
  | Some auth =>
      signer_validate_provisioning (authority_signer auth) prov = Ok tt /\
      sn_provisioning (store_snapshot (authority_store auth)) = prov /\
      (store_state (authority_store auth) = Operational ->
       store_snapshot (authority_store auth) = s /\ dir_temps d = [] /\
       (may_lose_power mode = true -> dir_reverts d = None))
  end.
(** The older snapshot that a loss of power may bring back. *)
Definition reverts_ok (mode : RunMode) (d : Directory) (acks : list AcquireTenureResponseV1) : Prop :=
  may_lose_power mode = true -> forall f, dir_reverts d = Some f ->
  exists s0, f = Some (file_of sha256 s0) /\ belongs s0 /\ Forall (backed s0) acks.

Record world_ok_at (mode : RunMode) (w : World) (s : AuthoritySnapshot) : Prop := {
  wo_active : dir_active (w_dir w) = Some (file_of sha256 s);
  wo_belongs : belongs s;
  wo_acks : Forall (backed s) (w_acknowledged w);
  wo_reverts : reverts_ok mode (w_dir w) (w_acknowledged w);
  wo_temps : temps_ok (w_dir w) /\ length (dir_temps (w_dir w)) <= 1;
  wo_process : process_ok mode (w_dir w) s (w_process w);
}.
Definition world_ok (mode : RunMode) (w : World) : Prop := exists s, world_ok_at mode w s.

Lemma belongs_extend s r : belongs s -> on_disk sha256 (extend s r) -> belongs (extend s r).
Proof. intros (Hd & Hp & Hi) Hd'. split_and!; done. Qed.

Lemma installed_ok mode w : installed w -> world_ok mode w.
Proof.
  intros (s & Hs & ->). exists s. split; [done|done|constructor|by intros _ f Hf| |done].
  split; [|simpl; lia]. split; constructor.
Qed.

Lemma temps_sub_nil d d' : temps_sub d d' -> dir_temps d = [] -> dir_temps d' = [].
Proof.
  intros [_ Hs] Hd. destruct (dir_temps d') as [|[x f] l] eqn:E; [done|].
  specialize (Hs x). rewrite Hd, ?E in Hs. specialize (Hs ltac:(left)). by apply not_elem_of_nil in Hs.
Qed.
Lemma temps_sub_length d d' : temps_sub d d' -> length (dir_temps d') <= length (dir_temps d).
Proof.
  intros [[Hn _] Hs]. rewrite <-!(length_map fst). apply submseteq_length, NoDup_submseteq; done.
Qed.

(** ** Every step keeps the invariant *)

(** An interrupted publication. *)
Lemma interrupted_ok mode d d' s r acks p :
  dir_active d = Some (file_of sha256 s) -> belongs s -> Forall (backed s) acks ->
  (may_lose_power mode = true -> dir_reverts d = None) ->
  on_disk sha256 (extend s r) -> temps_ok d' -> length (dir_temps d') <= 1 ->
  same_files d d' \/ published (snapshot_bytes sha256 (extend s r)) d d' ->
  (forall s', process_ok mode d' s' p) -> world_ok mode (MkWorld d' p acks).
Proof.
  intros Ha Hb Hk Hrn Hdn Ht Hl [[Ha' Hr']|[Ha' Hr']] Hp.
  - exists s. split; cbn [w_dir w_acknowledged w_process]; try done; [congruence|].
    intros Hm f Hf. rewrite Hr', (Hrn Hm) in Hf. discriminate Hf.
  - exists (extend s r). split; cbn [w_dir w_acknowledged w_process]; try done.
    + by apply belongs_extend.
    + eapply Forall_impl; [exact Hk|]. intros x. apply backed_extend.
    + intros Hm f Hf. destruct Hr' as [Hr'|Hr']; rewrite Hr' in Hf; [|discriminate Hf].
      injection Hf as <-. exists s. by rewrite Ha.
Qed.
Lemma acquire_ok mode d auth acks env q failpoint :
  world_ok mode (MkWorld d (Some auth) acks) ->
  world_ok mode (after_acquire auth acks (acquire_with_failpoint sha256 n env (authority_signer auth) q
                                            failpoint (authority_store auth, d))).
Proof.
  intros [s [Ha Hb Hk Hr [Ht Hl] (Hsa & Hpv & Hop)]]. cbn [w_dir w_acknowledged w_process] in *.
  destruct auth as [st signer]. cbn [authority_store authority_signer] in *.
  assert (wp (acquire_with_failpoint sha256 n env signer q failpoint)
    (fun c p => world_ok mode (MkWorld p.2 (Some (MkDeploymentTenureAuthority p.1 signer))
                                 (acks ++ [committed_response c])))
    (fun e p => match e with
                | Some _ => world_ok mode (MkWorld p.2 (Some (MkDeploymentTenureAuthority p.1 signer)) acks)
                | None => world_ok mode (MkWorld p.2 None acks)
                end) (st, d)) as Hwp; [|].
  2: { unfold wp in Hwp. unfold after_acquire.
       by destruct (acquire_with_failpoint sha256 n env signer q failpoint (st, d)) as [[st' d'] [c|e|]]. }
  apply wp_acquire; [done|by rewrite Hpv; apply signer_provisioned|..]; cbn [fst snd committed_response].
  - intros a Ho Hba. destruct (Hop Ho) as (Hs & Htn & Hrn). rewrite Hs in Hba. exists s. split; try done.
    + apply Forall_app. split; [done|by repeat constructor].
    + intros Hm f Hf. cbn [w_dir] in Hf. rewrite (Hrn Hm) in Hf. discriminate Hf.
  - intros a r d' Ho _ Hdn _ Hrec Ha' Hr' Hsub. destruct (Hop Ho) as (Hs & Htn & Hrn). rewrite Hs in *.
    exists (extend s r). split; cbn [w_dir w_acknowledged w_process]; try done.
    + by apply belongs_extend.
    + apply Forall_app. split; [|by repeat constructor; exists r].
      eapply Forall_impl; [exact Hk|]. intros x. apply backed_extend.
    + intros _ f Hf. rewrite Hr' in Hf. discriminate Hf.
    + split; [apply Hsub|]. pose proof (temps_sub_length _ _ Hsub). lia.
    + split; [done|]. split; [apply Hb|]. intros _. cbn [authority_store store_snapshot].
      split; [done|]. split; [by eapply temps_sub_nil|done].
  - intros e st' Hst. assert (process_ok mode d s (Some (MkDeploymentTenureAuthority st' signer))) as Hpr.
    { destruct Hst as [->| ->]; [done|]. split; [done|]. split; [done|]. intros [=]. }
    destruct e; exists s; split; done.
  - intros e r st' d' Ho Hdn (Ht' & Hl' & Hpub) Hst. destruct (Hop Ho) as (Hs & Htn & Hrn). rewrite Hs in *.
    rewrite Htn in Hl'. cbn [length] in Hl'.
    assert (forall s', process_ok mode d' s' (if e then Some (MkDeploymentTenureAuthority st' signer) else None)) as Hpr.
    { intros s'. destruct e; [|done]. destruct Hst as [[=]| ->]. split; [done|]. split; [by cbn; rewrite Hs|]. intros [=]. }
    assert (world_ok mode (MkWorld d' (if e then Some (MkDeploymentTenureAuthority st' signer) else None) acks)) as Hw
      by (by apply (interrupted_ok mode d d' s r)).
    by destruct e.
Qed.

Lemma open_ok mode d acks env directory contended seed :
  sound_mode mode -> may_open_unsettled mode = true \/ dir_reverts d = None ->
  world_ok mode (MkWorld d None acks) ->
  world_ok mode (after_open acks (open_authority sha256 n env directory contended
                                    (store_instance_bytes instance) prov seed d)).
Proof.
  intros Hsm Hun [s [Ha Hb Hk Hr [Ht Hl] _]]. cbn [w_dir w_acknowledged w_process] in *.
  assert (may_lose_power mode = true -> dir_reverts d = None) as Hset.
  { intros Hm. destruct Hsm as [Hsm|Hsm]; [congruence|]. destruct Hun as [Hun|]; [congruence|done]. }
  assert (forall d' p, opened d d' -> process_ok mode d' s p -> world_ok mode (MkWorld d' p acks)) as Hstep.
  { intros d' p (Ha' & Hr' & Hsub) Hp. exists s. split; cbn [w_dir w_acknowledged w_process]; try done.
    - congruence.
    - intros Hm f Hf. destruct Hr' as [Hr'|Hr']; rewrite Hr' in Hf; [rewrite (Hset Hm) in Hf|]; discriminate Hf.
    - split; [apply Hsub|]. pose proof (temps_sub_length _ _ Hsub). lia. }
  assert (wp (open_authority sha256 n env directory contended (store_instance_bytes instance) prov seed)
    (fun auth d' => world_ok mode (MkWorld d' (Some auth) acks)) (fun _ d' => world_ok mode (MkWorld d' None acks)) d)
    as Hwp; [|].
  2: { unfold wp in Hwp. unfold after_open.
       by destruct (open_authority sha256 n env directory contended (store_instance_bytes instance) prov seed d)
         as [d' [auth|e|]]. }
  assert (world_ok mode (MkWorld d None acks)) as Hnone by (apply Hstep; [by apply opened_refl|done]).
  unfold open_authority. apply wp_bind, wp_lift; [intros id Hid|auto|auto].
  apply wp_bind, wp_lift; [intros signer Hsg|auto|auto].
  apply wp_bind, wp_lift; [intros [] Hval|auto|auto]. apply map_err_Ok in Hval.
  apply wp_bind, wp_with_err, wp_open; [done| |intros e d' Hd'; by apply Hstep].
  intros st d' Hd' Htn Hop Hdisk [b Hf] Hpv Hinst. apply wp_ret, Hstep; [done|].
  split; [done|]. split; [done|]. intros _.
  cbn [authority_store]. split; [|split; [done|]].
  - rewrite Ha in Hf. apply Some_inj, (f_equal file_content) in Hf. cbn [file_of file_content] in Hf.
    symmetry. apply (snapshot_bytes_inj sha256); [apply Hb|done|done].
  - intros Hm. destruct Hd' as (_ & [Hx|Hx] & _); rewrite Hx; auto.
Qed.

Lemma power_loss_ok mode d d' process acks :
  may_lose_power mode = true -> power_loss d d' -> world_ok mode (MkWorld d process acks) ->
  world_ok mode (MkWorld d' None acks).
Proof.
  intros Hm (Hact & Hrev & Hsub) [s [Ha Hb Hk Hr [Ht Hl] _]]. cbn [w_dir w_acknowledged w_process] in *.
  assert (forall s', survives (Some (file_of sha256 s')) (dir_active d') -> dir_active d' = Some (file_of sha256 s')) as Hsv.
  { intros s'. unfold survives. destruct (dir_active d') as [[c b]|]; [|done]. cbn. intros [-> Hc].
    by rewrite (Hc eq_refl). }
  assert (exists s', dir_active d' = Some (file_of sha256 s') /\ belongs s' /\ Forall (backed s') acks) as (s' & Ha' & Hb' & Hk').
  { destruct Hact as [Hact|(f & Hf & Hact)].
    - rewrite Ha in Hact. exists s. split_and!; try done. by apply Hsv.
    - destruct (Hr Hm f Hf) as (s0 & -> & Hb0 & Hk0). exists s0. split_and!; try done. by apply Hsv. }
  exists s'. split; cbn [w_dir w_acknowledged w_process]; try done.
  - intros _ f Hf. rewrite Hrev in Hf. discriminate Hf.
  - split; [apply Hsub|]. pose proof (temps_sub_length _ _ Hsub). lia.
Qed.

Lemma step_ok mode w w' : sound_mode mode -> authority_step mode w w' -> world_ok mode w -> world_ok mode w'.
Proof.
  intros Hm [env q fp d auth acks|env dr c seed d acks Hu|d auth acks|d d' p acks Hp Hl] Hw.
  - by apply acquire_ok.
  - by apply open_ok.
  - destruct Hw as [s [Ha Hb Hk Hr Ht _]]. exists s. by split.
  - by eapply power_loss_ok.
Qed.
Lemma steps_ok mode w w' : sound_mode mode -> authority_steps mode w w' -> world_ok mode w -> world_ok mode w'.
Proof. intros Hm. induction 1 as [|w w1 w' Hs _ IH]; [done|]. intros Hw. by apply IH, (step_ok mode w). Qed.
End world.

(** ** Records and acknowledgements *)

Lemma NoDup_fmap_inj {A B : Type} (f : A -> B) (l : list A) x y :
  NoDup (f <$> l) -> x ∈ l -> y ∈ l -> f x = f y -> x = y.
Proof.
  intros Hn [i Hi]%list_elem_of_lookup [j Hj]%list_elem_of_lookup Hxy.
  assert (i = j) as <-; [|congruence].
  eapply (NoDup_lookup (f <$> l)); [done|by rewrite list_lookup_fmap, Hi|].
  by rewrite list_lookup_fmap, Hj, Hxy.
Qed.
Lemma record_of_epoch s a r : record_of s a r -> response_epoch a = rec_epoch r.
Proof. intros (_ & _ & _ & Hp). unfold response_epoch. by rewrite Hp. Qed.
Lemma backed_unique `{Ed25519} sha256 s a b :
  snapshot_valid sha256 s -> backed s a -> backed s b ->
  (response_operation a = response_operation b ->
   rsp_canonical_bytes a = rsp_canonical_bytes b /\ rsp_proof a = rsp_proof b) /\
  (response_operation a <> response_operation b -> response_epoch a <> response_epoch b).
Proof.
  intros Hv [r Hr] [r' Hr']. pose proof Hr as (Hin & Ho & Hb & Hp). pose proof Hr' as (Hin' & Ho' & Hb' & Hp').
  split.
  - intros Heq. assert (r = r') as <-; [|by rewrite <-Hb, <-Hb', Hp, Hp'].
    apply (NoDup_fmap_inj rec_operation_id (sn_acquire_records s)); [|done|done|congruence].
    by apply records_sorted_NoDup, (sv_sorted sha256).
  - intros Hne. rewrite (record_of_epoch _ _ _ Hr), (record_of_epoch _ _ _ Hr'). intros He. apply Hne.
    rewrite <-Ho, <-Ho'. f_equal.
    apply (NoDup_fmap_inj rec_epoch (sn_acquire_records s)); [|done..].
    by apply gap_free_NoDup, (sv_epochs sha256).
Qed.

Section recovery.
Context `{Ed25519Signing} (sha256 : list byte -> bytes32) (n : N).

(** A signer that the provisioning accepts. *)
Definition provisioned_seed (prov : AuthorityProvisioning) (seed : bytes32) : Prop :=
  exists signer, try_from_seed sha256 (pv_proof_authority prov) seed (fp_signing_key (pv_fingerprints prov))
                 = Ok signer /\ signer_validate_provisioning signer prov = Ok tt.

Lemma provisioned_seed_check prov seed :
  is_ok (signer ← try_from_seed sha256 (pv_proof_authority prov) seed (fp_signing_key (pv_fingerprints prov));
         signer_validate_provisioning signer prov) = true -> provisioned_seed prov seed.
Proof. intros (u & (signer & Hs & Hv)%bind_Ok)%is_ok_Ok. destruct u. by exists signer. Qed.

Lemma open_authority_healthy mode prov instance w env uid seed :
  world_ok sha256 prov instance mode w -> healthy env uid -> provisioned_seed prov seed ->
  exists d' auth, open_authority sha256 n env (Ok uid) false (store_instance_bytes instance) prov seed (w_dir w)
                  = (d', Ok auth) /\ store_state (authority_store auth) = Operational /\
    dir_active (w_dir w) = Some (file_of sha256 (store_snapshot (authority_store auth))).
Proof.
  intros [s [Ha (Hd & Hp & Hi) _ _ [Ht Hl] _]] He (signer & Hsg & Hval).
  assert (wp (open_authority sha256 n env (Ok uid) false (store_instance_bytes instance) prov seed)
    (fun auth _ => authority_store auth = MkAuthorityStore uid s Operational) (fun _ _ => False) (w_dir w)) as Hwp.
  { unfold open_authority. destruct instance as [ib]. pose proof (proj2 Hd) as Hz. unfold identified in Hz.
    rewrite Hi in Hz. cbn [store_instance_bytes] in *. apply wp_bind. unfold wp at 1, lift at 1, store_instance_try_from_bytes.
    rewrite Hz. cbn [fail_if mbind result_mbind map_err].
    apply wp_bind. unfold wp at 1, lift at 1. rewrite Hsg. cbn [map_err].
    apply wp_bind. unfold wp at 1, lift at 1. rewrite Hval. cbn [map_err].
    apply wp_bind, wp_with_err. rewrite <-Hi, <-Hp. eapply wp_mono.
    - apply (open_healthy sha256 n env uid s); [done..|]. unfold MAX_ORPHAN_TEMP_FILES. lia.
    - intros st d' ->. by apply wp_ret.
    - done. }
  unfold wp in Hwp. destruct (open_authority _ _ _ _ _ _ _ _ _) as [d' [auth|e|]]; [|done|done].
  exists d', auth. by rewrite Hwp.
Qed.
End recovery.

(** ** Answers *)

Section answers.
Context `{Ed25519Signing} (sha256 : list byte -> bytes32) (n : N).

(** What an authorized request is answered, by what is recorded: the recorded
    answer for a retry, a conflict for another request of the same operation,
    and for a new operation the next epoch, within the capacity of the store
    and the bound of the request. *)
Definition answer_of (s : AuthoritySnapshot) (q : AcquireTenureRequestV1)
    (answer : result TenureAcquireError CommittedAcquireTenure) : Prop :=
  (forall r, r ∈ sn_acquire_records s -> rec_operation_id r = request_operation q ->
     (rec_exact_request_bytes r = acq_canonical_bytes q ->
      exists a, answer = Ok (MkCommittedAcquireTenure a Replayed) /\
        rsp_canonical_bytes a = rec_exact_response_bytes r) /\
     (rec_request_digest r <> acquire_request_digest_value (acq_request_digest q) ->
      answer = Err OperationDigestConflict)) /\
  (request_operation q ∉ issued_operations s ->
   if (len (sn_acquire_records s) =? MAX_RETAINED_ACQUIRE_RECORDS)%N then answer = Err CapacityExceeded
   else if (acq_max_response_payload_bytes (acq_draft q) <? 362 + 2 * len (acq_client_nonce (acq_draft q)))%N
   then answer = Err ResponseBoundExceeded
   else exists a, answer = Ok (MkCommittedAcquireTenure a Issued) /\
          response_epoch a = (sn_epoch_high_water s + 1)%N).

(** Storage on which everything an acquire asks succeeds. *)
Definition healthy_acquire (env : AcquireEnv) (uid : N) : Prop :=
  healthy (ae_read env) uid /\ healthy (ce_read (ae_commit env)) uid /\ healthy (ce_publish (ae_commit env)) uid /\
  exists token, system_random_token (ce_random (ae_commit env)) = Ok token.

(** An operation on record. *)
Lemma recorded_answer s q r :
  snapshot_valid sha256 s -> request_built sha256 q -> r ∈ sn_acquire_records s ->
  rec_operation_id r = request_operation q ->
  answer_of s q (if bool_decide (rec_request_digest r = acquire_request_digest_value (acq_request_digest q))
                 then replay_response sha256 q (rec_exact_response_bytes r) (rec_response_digest r)
                        (rec_proof_envelope_digest r)
                 else Err OperationDigestConflict).
Proof.
  intros Hv Hq Hr Ho. split.
  - intros r' Hr' Ho'. assert (r' = r) as ->.
    { apply (NoDup_fmap_inj rec_operation_id (sn_acquire_records s)); try done; [|congruence].
      by apply records_sorted_NoDup, (sv_sorted sha256). }
    split.
    + intros Hb. destruct (replay_response_total sha256 s q r Hv Hr Hb Hq) as (Hd & a & Hab & Ha).
      rewrite (bool_decide_eq_true_2 _ Hd). by exists a.
    + intros Hne. by rewrite (bool_decide_eq_false_2 _ Hne).
  - intros []. apply list_elem_of_fmap. by exists r.
Qed.
Lemma replay_response_safe q b rd pd : replay_response sha256 q b rd pd <> Panic.
Proof.
  unfold replay_response. apply no_panic_bind; [apply no_panic_map_err, decode_for_request_safe|intros a _]. no_panic.
Qed.

(** A new operation. *)
Lemma new_answer env signer s q i st d :
  store_snapshot st = s -> store_state st = Operational -> dir_active d = Some (file_of sha256 s) ->
  on_disk sha256 s -> dir_temps d = [] -> healthy_acquire env (store_owner_uid st) ->
  signer_validate_provisioning signer (sn_provisioning s) = Ok tt -> signatures_verify (signer_key signer) ->
  authorized sha256 s q -> digests_nonzero sha256 signer s q -> request_intent q = Ok i ->
  request_operation q ∉ issued_operations s -> len (sn_acquire_records s) <> MAX_RETAINED_ACQUIRE_RECORDS ->
  wp ('(response, next) ← lift (prepare_issue sha256 n signer s q i (sn_epoch_high_water s + 1)
                                 (sn_snapshot_sequence s + 1));
      _ ← with_err map_acquire_store_error (commit sha256 n (ae_commit env) next FailpointNone);
      mret (MkCommittedAcquireTenure response Issued))
    (fun c _ => answer_of s q (Ok c))
    (fun e _ => match e with Some e => answer_of s q (Err e) | None => False end) (st, d).
Proof.
  intros Hst Hop Ha Hs Ht (Hr & Hcr & Hcp & token & Htk) Hsg Hsv Hau Hnz Hi Hnew Hcap.
  pose proof (sv_capacity _ _ (proj1 Hs)) as Hc.
  pose proof (prepare_issue_total sha256 n signer s q i (proj1 Hs) Hau Hi Hsg Hsv Hnz Hnew ltac:(lia)) as Hpi.
  assert (forall a, (forall r, r ∈ sn_acquire_records s -> rec_operation_id r = request_operation q -> a) : Prop) as Hold.
  { intros a r Hrin Hro. destruct Hnew. apply list_elem_of_fmap. by exists r. }
  apply wp_bind. unfold wp at 1, lift at 1. cbv zeta in Hpi.
  destruct (N.ltb_spec (acq_max_response_payload_bytes (acq_draft q)) (362 + 2 * len (acq_client_nonce (acq_draft q)))) as [Hb|Hb].
  - rewrite Hpi. split; [intros r ? ?; by eapply Hold|]. intros _.
    by rewrite (proj2 (N.eqb_neq _ _) Hcap), (proj2 (N.ltb_lt _ _) Hb).
  - destruct Hpi as (a & next & Hpi). rewrite Hpi. cbv beta iota.
    pose proof (signer_provisioned _ _ Hsg) as [Hsa _].
    destruct (prepare_issue_Ok sha256 n signer s q i _ _ a next (proj1 Hs) Hi Hsa Hpi) as (_ & r & -> & Hval & He & Hrec).
    apply wp_bind, wp_with_err. eapply wp_mono.
    + apply (commit_healthy sha256 n (ae_commit env) (extend s r) token st d); rewrite ?Hst; try done. by rewrite Ht.
    + intros _ d' _. apply wp_ret. split; [intros x ? ?; by eapply Hold|]. intros _.
      rewrite (proj2 (N.eqb_neq _ _) Hcap), (proj2 (N.ltb_ge _ _) Hb). exists a. split; [done|].
      by rewrite (record_of_epoch _ _ _ Hrec), He.
    + done.
Qed.

Lemma acquire_answers env signer q st d :
  let s := store_snapshot st in
  store_state st = Operational -> dir_active d = Some (file_of sha256 s) ->
  on_disk sha256 s -> dir_temps d = [] -> healthy_acquire env (store_owner_uid st) ->
  signer_validate_provisioning signer (sn_provisioning s) = Ok tt ->
  signatures_verify (signer_key signer) -> authorized sha256 s q -> digests_nonzero sha256 signer s q ->
  answer_of s q (acquire_authorized_request sha256 n env signer q (st, d)).2.
Proof.
  intros s Hop Ha Hs Ht Henv Hsg Hsv Hau Hnz.
  assert (wp (acquire_authorized_request sha256 n env signer q) (fun c _ => answer_of s q (Ok c))
            (fun e _ => match e with Some e => answer_of s q (Err e) | None => False end) (st, d)) as Hwp; [|].
  2: { unfold wp in Hwp. by destruct (acquire_authorized_request sha256 n env signer q (st, d)) as [? [c|e|]]. }
  destruct (request_intent_total sha256 q (proj1 Hau) (proj1 Hnz)) as [i Hi].
  pose proof (request_intent_Ok q i Hi) as (Hio & Hird & _).
  unfold acquire_authorized_request, acquire_with_failpoint.
  apply wp_bind, wp_with_err, wp_revalidate_healthy; [apply Henv|done..|]. fold s.
  apply wp_bind. unfold wp at 1, lift at 1. rewrite (proj2 Hau).
  apply wp_bind. unfold wp at 1, lift at 1. rewrite Hi. cbn [map_err].
  apply wp_bind. unfold wp at 1, lift at 1.
  destruct (preflight_cases sha256 s i (proj1 Hs)) as [(r & Hrin & Hro & Hpre)|[Hnew Hpre]]; rewrite Hpre; clear Hpre.
  - rewrite Hio in Hro. pose proof (recorded_answer s q r (proj1 Hs) (proj1 Hau) Hrin Hro) as Hans.
    rewrite Hird. destruct (bool_decide _); cbn [map_err]; [|done].
    apply wp_lift; [by intros c Hc; rewrite Hc in Hans|by intros e Hc; rewrite Hc in Hans|].
    intros Hc. by destruct (replay_response_safe _ _ _ _ Hc).
  - rewrite Hio in Hnew. destruct (N.eqb_spec (len (sn_acquire_records s)) MAX_RETAINED_ACQUIRE_RECORDS) as [Hc|Hc]; cbn [map_err].
    + split; [|by intros _; rewrite Hc]. intros r Hrin Hro. destruct Hnew. apply list_elem_of_fmap. by exists r.
    + by apply new_answer.
Qed.
End answers.

(** ** Concrete runs *)

Module TenureSystemDemo.
Export ToySignatures.

Definition key_bytes_of (k : N) : bytes32 := digest_bytes (ContractDemo.digest k).
Definition or_zero {E : Type} (r : result E Digest32) : Digest32 := match r with Ok d => d | _ => zero_digest end.
Definition controller_fingerprint : ControllerPublicKeyFingerprint := Eval vm_compute in
  match for_ed25519_key toy_hash (key_bytes_of 51) with
  | Ok f => f | _ => MkControllerPublicKeyFingerprint zero_digest
  end.
Definition demo_provisioning : AuthorityProvisioning := Eval vm_compute in
  MkAuthorityProvisioning (MkDeploymentScopeId (ContractDemo.ref 2)) (MkDeploymentWriterRef (ContractDemo.ref 8))
    ContractDemo.tenure_authority (key_bytes_of 50)
    (MkAcquireAuthorization (MkPrincipalRef (ContractDemo.ref 12))
       (MkControllerAcquireKeyRef (ContractDemo.ref 5)) (key_bytes_of 51)
       (digest_bytes (fingerprint_value controller_fingerprint)))
    (MkAuthorityFingerprints (or_zero (signing_key_fingerprint_for toy_hash (key_bytes_of 50)))
       (ContractDemo.digest 60) (ContractDemo.digest 61) (ContractDemo.digest 62)).
Definition demo_instance : StoreInstanceId := Eval vm_compute in MkStoreInstanceId (key_bytes_of 70).
Definition first_snapshot : AuthoritySnapshot := Eval vm_compute in
  MkAuthoritySnapshot demo_instance (ContractDemo.digest 62) 1 demo_provisioning 0 [].

(** A request of the controller, signed. *)
Definition request (operation : N) (nonce : byte) : option AcquireTenureRequestV1 :=
  match acquire_draft_try_new toy_hash
          (MkAcquireTenureIntent (MkDeploymentScopeId (ContractDemo.ref 2))
             (MkDeploymentWriterRef (ContractDemo.ref 8)) (MkAcquireTenureOperationId (ContractDemo.ref operation)))
          (MkPrincipalRef (ContractDemo.ref 12)) (MkControllerAcquireKeyRef (ContractDemo.ref 5))
          controller_fingerprint [nonce] MAX_ACQUIRE_TENURE_RESPONSE_PAYLOAD_BYTES with
  | Ok draft =>
      match build_request_signing_transcript draft with
      | Ok t => match finalize_ed25519 toy_hash draft (vec_to_list (toy_sign (key_bytes_of 51) t)) with
                | Ok q => Some q | _ => None
                end
      | _ => None
      end
  | _ => None
  end.
Definition some_request : AcquireTenureRequestV1 :=
  MkAcquireTenureRequest (TenureDemo.draft1) [] [] (MkAcquireTenureRequestDigest zero_digest).
Definition request1 : AcquireTenureRequestV1 := Eval vm_compute in default some_request (request 1 x01).
Definition request2 : AcquireTenureRequestV1 := Eval vm_compute in default some_request (request 2 x02).

(** Storage that works, and storage on which the process dies before the
    directory is synced. *)
Definition good_env : Env :=
  MkEnv (fun _ => None) (fun _ => MkFileMetadata true 1 0 384) true false.
Definition dies_before_sync : Env :=
  MkEnv (fun stage => if bool_decide (stage = SyncDirectory) then Some ProcessStops else None)
    (fun _ => MkFileMetadata true 1 0 384) true false.
Definition token (k : N) : result ErrorKind bytes16 := Ok (ContractDemo.ref k).
Definition good_acquire (k : N) : AcquireEnv := MkAcquireEnv good_env (MkCommitEnv good_env (token k) good_env).
Definition torn_acquire (k : N) : AcquireEnv :=
  MkAcquireEnv good_env (MkCommitEnv good_env (token k) dies_before_sync).

Definition open_at (w : World) : World :=
  match w_process w with
  | None => after_open (w_acknowledged w)
      (open_authority toy_hash 4 good_env (Ok 0%N) false (store_instance_bytes demo_instance)
         demo_provisioning (key_bytes_of 50) (w_dir w))
  | Some _ => w
  end.
Definition acquire_at (env : AcquireEnv) (q : AcquireTenureRequestV1) (w : World) : World :=
  match w_process w with
  | Some auth => after_acquire auth (w_acknowledged w)
      (acquire_with_failpoint toy_hash 4 env (authority_signer auth) q FailpointNone (authority_store auth, w_dir w))
  | None => w
  end.
Definition world0 : World :=
  MkWorld (MkDirectory (Some (file_of toy_hash first_snapshot)) None []) None [].
Definition world1 : World := open_at world0.
Definition world2 : World := acquire_at (good_acquire 91) request1 world1.
Definition world3 : World := acquire_at (good_acquire 92) request2 world2.
(** The process dies between rename and sync. *)
Definition torn2 : World := acquire_at (torn_acquire 91) request1 world1.
Definition torn3 : World := open_at torn2.
Definition torn4 : World := acquire_at (good_acquire 92) request1 torn3.
Definition torn5 : World := MkWorld (w_dir world0) None (w_acknowledged torn4).
Definition torn6 : World := open_at torn5.
Definition torn7 : World := acquire_at (good_acquire 93) request2 torn6.

Lemma first_belongs : belongs toy_hash demo_provisioning demo_instance first_snapshot.
Proof.
  split; [|by split]. split; [|by vm_compute].
  apply (snapshot_validate_Ok toy_hash 4). vm_compute. reflexivity.
Qed.
Lemma world0_installed : installed toy_hash demo_provisioning demo_instance world0.
Proof. exists first_snapshot. split; [apply first_belongs|reflexivity]. Qed.

Definition idle (w : World) : bool := match w_process w with None => true | Some _ => false end.
Definition settled (d : Directory) : bool := match dir_reverts d with None => true | Some _ => false end.
Lemma open_at_step mode w :
  idle w && (may_open_unsettled mode || settled (w_dir w)) = true ->
  authority_step toy_hash 4 demo_provisioning demo_instance mode w (open_at w).
Proof.
  destruct w as [d [auth|] acks]; [discriminate|]. intros Hu. apply step_open. cbn [idle w_process w_dir andb] in Hu.
  apply orb_true_iff in Hu as [Hu|Hu]; [by left|right]. unfold settled in Hu. cbn [w_dir]. by destruct (dir_reverts d).
Qed.
Lemma acquire_at_step mode env q w :
  negb (idle w) = true -> authority_step toy_hash 4 demo_provisioning demo_instance mode w (acquire_at env q w).
Proof. destruct w as [d [auth|] acks]; [intros _; apply step_acquire|discriminate]. Qed.

Lemma world3_reached mode :
  rtc (authority_step toy_hash 4 demo_provisioning demo_instance mode) world0 world3.
Proof.
  apply (rtc_l _ _ world1); [apply open_at_step; destruct mode as [? []]; reflexivity|].
  apply (rtc_l _ _ world2); [apply acquire_at_step; vm_compute; reflexivity|].
  apply rtc_once, acquire_at_step. vm_compute. reflexivity.
Qed.
Lemma world2_reached mode :
  rtc (authority_step toy_hash 4 demo_provisioning demo_instance mode) world0 world2.
Proof.
  apply (rtc_l _ _ world1); [apply open_at_step; destruct mode as [? []]; reflexivity|].
  apply rtc_once, acquire_at_step. vm_compute. reflexivity.
Qed.
Lemma good_acquire_healthy k uid :
  (uid =? 0)%N && is_ok (system_random_token (token k)) = true -> healthy_acquire (good_acquire k) uid.
Proof.
  intros [->%N.eqb_eq (t & Ht)%is_ok_Ok]%andb_true_iff. split_and!; try by split. by exists t.
Qed.
Lemma authorized_check s q :
  decode_acquire_request toy_hash (acq_canonical_bytes q) = Ok q ->
  is_ok (validate_request_policy (sn_provisioning s) q) = true -> authorized toy_hash s q.
Proof. intros [Hb _]%decode_acquire_request_Ok ([] & Hp)%is_ok_Ok. done. Qed.
Definition response_checks (r : result AcquireTenureProtocolError AcquireTenureResponseV1) : bool :=
  match r with
  | Ok a => negb (all_zero (vec_to_list (digest_bytes (acquire_response_digest_value (rsp_response_digest a)))))
            && negb (all_zero (vec_to_list (digest_bytes (rsp_proof_digest a))))
  | _ => false
  end.
Lemma digests_nonzero_check (signer : Ed25519TenureSigner) s q :
  negb (all_zero (vec_to_list (digest_bytes (acquire_request_digest_value (acq_request_digest q)))))
  && response_checks (response_try_new toy_hash q (next_proof signer s q)) = true ->
  digests_nonzero toy_hash signer s q.
Proof.
  intros [Hq%negb_true_iff Hr]%andb_true_iff. split; [done|]. intros a Ha. rewrite Ha in Hr. cbn in Hr.
  by rewrite andb_true_iff, !negb_true_iff in Hr.
Qed.
Lemma power_loss_step mode w d' :
  may_lose_power mode = true -> power_loss (w_dir w) d' ->
  authority_step toy_hash 4 demo_provisioning demo_instance mode w (MkWorld d' None (w_acknowledged w)).
Proof. destruct w as [d p acks]. apply step_power_loss. Qed.
Lemma power_fails :
  authority_step toy_hash 4 demo_provisioning demo_instance (MkRunMode true true) torn4 torn5.
Proof.
  apply power_loss_step; [reflexivity|]. split; [|split; [reflexivity|]].
  - right. exists (dir_active (w_dir world0)). split; [vm_compute; reflexivity|]. by split.
  - split; [split; constructor|]. by intros x Hx%not_elem_of_nil.
Qed.
Lemma torn7_reached :
  rtc (authority_step toy_hash 4 demo_provisioning demo_instance (MkRunMode true true)) world0 torn7.
Proof.
  apply (rtc_l _ _ world1); [apply open_at_step; reflexivity|].
  apply (rtc_l _ _ torn2); [apply acquire_at_step; vm_compute; reflexivity|].
  apply (rtc_l _ _ torn3); [apply open_at_step; vm_compute; reflexivity|].
  apply (rtc_l _ _ torn4); [apply acquire_at_step; vm_compute; reflexivity|].
  apply (rtc_l _ _ torn5); [apply power_fails|].
  apply (rtc_l _ _ torn6); [apply open_at_step; vm_compute; reflexivity|].
  apply rtc_once, acquire_at_step. vm_compute. reflexivity.
Qed.
Definition some_response : AcquireTenureResponseV1 := Eval vm_compute in
  MkAcquireTenureResponse (MkAcquireTenureOperationId (ContractDemo.ref 0))
    (MkAcquireTenureRequestDigest zero_digest) [] (ContractDemo.proof 1 1 0) zero_digest
    (MkAcquireTenureResponseDigest zero_digest) [].
Definition ack (w : World) (k : nat) : AcquireTenureResponseV1 := default some_response (w_acknowledged w !! k).
Lemma ack_in w k : k < length (w_acknowledged w) -> ack w k ∈ w_acknowledged w.
Proof.
  intros Hk. unfold ack. destruct (w_acknowledged w !! k) eqn:E.
  - by eapply list_elem_of_lookup_2.
  - apply lookup_ge_None in E. lia.
Qed.

(** The history of two issued tenures meets the specification. *)
Example issued_history_ok :
  match w_process world3 with
  | Some auth =>
      length (sn_acquire_records (store_snapshot (authority_store auth))) = 2 /\
      history_ok toy_hash (store_snapshot (authority_store auth))
  | None => False
  end.
Proof.
  assert (match w_process world3 with
    | Some auth => length (sn_acquire_records (store_snapshot (authority_store auth))) = 2 /\
        snapshot_validate toy_hash 4 (store_snapshot (authority_store auth)) = Ok tt
    | None => False
    end) as Hv by (vm_compute; split; reflexivity).
  destruct (w_process world3) as [auth|]; [|done]. destruct Hv as [Hl Hv].
  split; [done|]. by apply history_valid, (snapshot_validate_Ok toy_hash 4).
Qed.
End TenureSystemDemo.

(** ** Properties *)

Section properties.
Context `{Ed25519Signing} (sha256 : list byte -> bytes32) (n : N).
Context (prov : AuthorityProvisioning) (instance : StoreInstanceId) (mode : RunMode).
Abbreviation reached w0 w :=
  (installed sha256 prov instance w0 /\ rtc (authority_step sha256 n prov instance mode) w0 w).

(** C3: Fencing at its source: over any run of acquires with any faults, crashes
    and restarts (and losses of power, as long as the process is not started
    while a rename is still pending), clients never hold two different answers
    for one operation, nor one epoch for two operations. *)
Theorem acknowledged_epochs_are_unique w0 w (a b : AcquireTenureResponseV1) :
  sound_mode mode -> reached w0 w -> a ∈ w_acknowledged w -> b ∈ w_acknowledged w ->
  (response_operation a = response_operation b ->
   rsp_canonical_bytes a = rsp_canonical_bytes b /\ rsp_proof a = rsp_proof b) /\
  (response_operation a <> response_operation b -> response_epoch a <> response_epoch b).
Proof.
  intros Hm [Hi Hs] Ha Hb. destruct (steps_ok sha256 n prov instance mode w0 w Hm Hs) as [s Hw].
  { by apply installed_ok. }
  pose proof (wo_acks _ _ _ _ _ _ Hw) as Hk. rewrite Forall_forall in Hk.
  destruct (wo_belongs _ _ _ _ _ _ Hw) as ([Hv _] & _). apply (backed_unique sha256 s); auto.
Qed.

(** C38: What was acknowledged survives: at every moment, and after every loss of
    power the run allows, the directory holds a file that decodes to a valid
    snapshot with a record for every acknowledged response. *)
Theorem acknowledged_tenures_survive w0 w (d : Directory) :
  sound_mode mode -> reached w0 w ->
  d = w_dir w \/ (may_lose_power mode = true /\ power_loss (w_dir w) d) ->
  exists f s, dir_active d = Some f /\ decode_snapshot sha256 n (file_content f) = Ok s /\
    snapshot_valid sha256 s /\ Forall (backed s) (w_acknowledged w).
Proof.
  intros Hm [Hi Hs] Hd. pose proof (steps_ok sha256 n prov instance mode w0 w Hm Hs (installed_ok _ _ _ _ _ Hi)) as Hw.
  assert (world_ok sha256 prov instance mode (MkWorld d None (w_acknowledged w))) as [s Hok].
  { destruct w as [dw p acks]. cbn [w_dir w_acknowledged] in *. destruct Hd as [->|[Hl Hp]].
    - destruct Hw as [s [? ? ? ? ? ?]]. exists s. by split.
    - by eapply power_loss_ok. }
  destruct Hok as [Ha [[Hv Hid] _] Hk _ _ _]. exists (file_of sha256 s), s. split_and!; try done.
  by apply decode_snapshot_valid.
Qed.

(** C39: Recovery: wherever a run has been interrupted, a process started on
    healthy storage with the provisioned seed opens and serves exactly the
    snapshot the directory holds. *)
Theorem authority_always_reopens w0 w (env : Env) (uid : N) (seed : bytes32) :
  sound_mode mode -> reached w0 w -> healthy env uid -> provisioned_seed sha256 prov seed ->
  exists d' auth, open_authority sha256 n env (Ok uid) false (store_instance_bytes instance) prov seed (w_dir w)
                  = (d', Ok auth) /\ store_state (authority_store auth) = Operational /\
    dir_active (w_dir w) = Some (file_of sha256 (store_snapshot (authority_store auth))).
Proof.
  intros Hm [Hi Hs] He Hseed. eapply open_authority_healthy; [|done..].
  by eapply steps_ok; [..|by apply installed_ok].
Qed.

(** C10: Service: after any such run, a process whose store is operational answers
    every authorized request on healthy storage as the record says: a retry is
    replayed, a reused operation is refused, a new operation gets the epoch
    after the highest one (or the capacity or bound it exceeds). *)
Theorem authorized_requests_are_answered w0 w (auth : DeploymentTenureAuthority) (env : AcquireEnv)
    (q : AcquireTenureRequestV1) :
  sound_mode mode -> reached w0 w -> w_process w = Some auth ->
  store_state (authority_store auth) = Operational ->
  healthy_acquire env (store_owner_uid (authority_store auth)) ->
  signatures_verify (signer_key (authority_signer auth)) ->
  authorized sha256 (store_snapshot (authority_store auth)) q ->
  digests_nonzero sha256 (authority_signer auth) (store_snapshot (authority_store auth)) q ->
  answer_of (store_snapshot (authority_store auth)) q
    (acquire_authorized_request sha256 n env (authority_signer auth) q (authority_store auth, w_dir w)).2.
Proof.
  intros Hm [Hi Hs] Hp Hop He Hsv Hq Hnz.
  destruct (steps_ok sha256 n prov instance mode w0 w Hm Hs (installed_ok _ _ _ _ _ Hi)) as [s [Ha Hb _ _ _ Hpr]].
  rewrite Hp in Hpr. destruct Hpr as (Hsg & Hpv & Hst). destruct (Hst Hop) as (Hsn & Ht & _).
  apply acquire_answers; try done; rewrite Hsn; [done|apply Hb|by rewrite <-Hsn, Hpv].
Qed.
End properties.

Import TenureSystemDemo.

(** Two operations acknowledged one after the other. *)
Lemma acknowledged_epochs_are_unique_witness :
  response_epoch (ack world3 0) <> response_epoch (ack world3 1).
Proof.
  apply (acknowledged_epochs_are_unique toy_hash 4 demo_provisioning demo_instance (MkRunMode true false)
           world0 world3 (ack world3 0) (ack world3 1)).
  - right. reflexivity.
  - split; [apply world0_installed|apply world3_reached].
  - apply ack_in. vm_compute. lia.
  - apply ack_in. vm_compute. lia.
  - vm_compute. intros He. discriminate He.
Defined.
Lemma acknowledged_tenures_survive_witness :
  exists f s, dir_active (w_dir world3) = Some f /\ decode_snapshot toy_hash 4 (file_content f) = Ok s /\
    snapshot_valid toy_hash s /\ Forall (backed s) (w_acknowledged world3).
Proof.
  apply (acknowledged_tenures_survive toy_hash 4 demo_provisioning demo_instance (MkRunMode true false)
           world0 world3 (w_dir world3)).
  - right. reflexivity.
  - split; [apply world0_installed|apply world3_reached].
  - left. reflexivity.
Defined.
Lemma authority_always_reopens_witness :
  exists d' auth, open_authority toy_hash 4 good_env (Ok 0%N) false (store_instance_bytes demo_instance)
                    demo_provisioning (key_bytes_of 50) (w_dir world3) = (d', Ok auth) /\
    store_state (authority_store auth) = Operational /\
    dir_active (w_dir world3) = Some (file_of toy_hash (store_snapshot (authority_store auth))).
Proof.
  apply (authority_always_reopens toy_hash 4 demo_provisioning demo_instance (MkRunMode true false)
           world0 world3 good_env 0 (key_bytes_of 50)).
  - right. reflexivity.
  - split; [apply world0_installed|apply world3_reached].
  - split; reflexivity.
  - apply provisioned_seed_check. vm_compute. reflexivity.
Defined.

(** The process of the demonstration, asked for a new operation. *)
Definition serving (w : World) : DeploymentTenureAuthority :=
  match w_process w with
  | Some auth => auth
  | None => MkDeploymentTenureAuthority (MkAuthorityStore 0 first_snapshot Stopped)
              (MkEd25519TenureSigner ContractDemo.tenure_authority zero_digest (key_bytes_of 50))
  end.
Lemma serving_process w : negb (idle w) = true -> w_process w = Some (serving w).
Proof. unfold idle, serving. by destruct (w_process w). Qed.
Lemma authorized_requests_are_answered_witness :
  answer_of (store_snapshot (authority_store (serving world2))) request2
    (acquire_authorized_request toy_hash 4 (good_acquire 92) (authority_signer (serving world2)) request2
       (authority_store (serving world2), w_dir world2)).2.
Proof.
  apply (authorized_requests_are_answered toy_hash 4 demo_provisioning demo_instance (MkRunMode true false)
           world0 world2 (serving world2) (good_acquire 92) request2).
  - right. reflexivity.
  - split; [apply world0_installed|apply world2_reached].
  - apply serving_process. vm_compute. reflexivity.
  - vm_compute. reflexivity.
  - apply good_acquire_healthy. vm_compute. reflexivity.
  - apply toy_signatures_verify.
  - apply authorized_check; vm_compute; reflexivity.
  - apply digests_nonzero_check. vm_compute. reflexivity.
Defined.

(** C13: Without that restriction the guarantee fails: opening never syncs the
    directory unless it finds temporary files, so a process that dies between
    rename and sync leaves an entry that the next process reads, replays and
    acknowledges, and that a loss of power then undoes.  In this run two
    operations are acknowledged with the same epoch. *)
Theorem unsettled_open_can_reissue_an_epoch :
  exists w0 w a b,
    installed toy_hash demo_provisioning demo_instance w0 /\
    rtc (authority_step toy_hash 4 demo_provisioning demo_instance (MkRunMode true true)) w0 w /\
    a ∈ w_acknowledged w /\ b ∈ w_acknowledged w /\
    response_operation a <> response_operation b /\ response_epoch a = response_epoch b.
Proof.
  exists world0, torn7, (ack torn7 0), (ack torn7 1). split; [apply world0_installed|].
  split; [apply torn7_reached|]. split; [apply ack_in; vm_compute; lia|].
  split; [apply ack_in; vm_compute; lia|]. split; [|vm_compute; reflexivity].
  vm_compute. intros He. discriminate He.
Qed.
