(* ===== verification/TenureInit.v ===== *)
(** * Initialization of the tenure authority

    crates/paraegox-deployment/src/tenure_authority/initializer.rs, the parts of
    store.rs it uses, and the receipt recovery of mod.rs: a fresh directory gets
    a lock file and the first snapshot, under a store identity drawn from the
    system's entropy. *)

From Stdlib Require Import Strings.String.
From S2P Require Import Prelude Bytes Wp Slices Cursor KernelDigest ApplyContracts Signatures TenureProtocol TenureModel TenureCodec TenureStore TenureAuthority TenureSystem.
Open Scope rust_scope.

Definition STORE_INSTANCE_ID_BYTES : N := 32.
Definition INITIALIZATION_RECEIPT_MAGIC : list byte := ascii_bytes "PXTAINIT" ++ [x00].
Definition INITIALIZATION_RECEIPT_VERSION : N := 1.
Definition INITIALIZATION_RECEIPT_DIGEST_DOMAIN : list byte :=
  ascii_bytes "paraegox.deployment.tenure-authority.initialization-receipt.sha256.v1".

Inductive InitializationEntropyError := EntropyIo (kind : ErrorKind) | EntropyUnavailable.
Inductive InitializationError :=
| InitEntropy (e : InitializationEntropyError) | InvalidStoreIdentityWidth | InvalidTempTokenWidth
| AllZeroTempToken | InvalidEncodedSnapshot | ReadBackMismatch | InitModel (e : ModelError)
| InitCodec (e : CodecError) | InitStore (e : StoreOpenError) | InitPublish (e : PublishFailure)
| InitDigest (e : DigestBuildError).
(** Failure diagnostics are reduced to what they report on. *)
Inductive TenureAuthorityReceiptRecoveryError :=
| NotSequenceOne | InvalidSnapshot | ReceiptStoreOpen (e : StoreOpenError) | ReceiptStoreState (e : StoreError).

(** ** The receipt *)

Record InitializationReceipt := MkInitializationReceipt {
  ir_store_instance_id : StoreInstanceId;
  ir_owner_identity_fingerprint : Digest32;
  ir_source_scope : DeploymentScopeId;
  ir_authority : TenureAuthorityRef;
  ir_key : TenureKeyRef;
  ir_signing_key_fingerprint : Digest32;
  ir_policy_fingerprint : Digest32;
  ir_service_principal_fingerprint : Digest32;
  ir_snapshot_sequence : N;
  ir_epoch_high_water : N;
  ir_snapshot_checksum : Digest32;
  ir_canonical_bytes : list byte;
  ir_receipt_digest : Digest32;
}.

Definition receipt_canonical (snapshot : AuthoritySnapshot) (snapshot_checksum : Digest32) : list byte :=
  let provisioning := sn_provisioning snapshot in
  let canonical := INITIALIZATION_RECEIPT_MAGIC in
  let canonical := canonical ++ be_bytes 2 INITIALIZATION_RECEIPT_VERSION in
  let canonical := canonical ++ vec_to_list (store_instance_bytes (sn_store_instance_id snapshot)) in
  let canonical := canonical ++ vec_to_list (digest_bytes (sn_owner_identity_fingerprint snapshot)) in
  let canonical := canonical ++ vec_to_list (deployment_scope_bytes (pv_source_scope provisioning)) in
  let canonical := canonical ++ vec_to_list (deployment_writer_bytes (pv_authorized_writer provisioning)) in
  let canonical := canonical ++ vec_to_list (authority_bytes (authority (pv_proof_authority provisioning))) in
  let canonical := canonical ++ vec_to_list (key_bytes (key (pv_proof_authority provisioning))) in
  let canonical := canonical ++ vec_to_list (principal_bytes
    (az_controller_principal (pv_authorization provisioning))) in
  let canonical := canonical ++ vec_to_list (controller_key_bytes
    (az_controller_key (pv_authorization provisioning))) in
  let canonical := canonical ++ vec_to_list (az_controller_verification_key (pv_authorization provisioning)) in
  let canonical := canonical ++ vec_to_list (az_controller_public_key_fingerprint (pv_authorization provisioning)) in
  let canonical := canonical ++ vec_to_list (digest_bytes (fp_signing_key (pv_fingerprints provisioning))) in
  let canonical := canonical ++ vec_to_list (digest_bytes (fp_policy (pv_fingerprints provisioning))) in
  let canonical := canonical ++ vec_to_list (digest_bytes (fp_service_principal (pv_fingerprints provisioning))) in
  let canonical := canonical ++ be_bytes 8 (sn_snapshot_sequence snapshot) in
  let canonical := canonical ++ be_bytes 8 (sn_epoch_high_water snapshot) in
  canonical ++ vec_to_list (digest_bytes snapshot_checksum).

Section init.
Context `{Ed25519} (sha256 : list byte -> bytes32) (parallelism : N).

Definition receipt_from_snapshot (snapshot : AuthoritySnapshot) (encoded_snapshot : list byte)
    : result InitializationError InitializationReceipt :=
  bail InvalidEncodedSnapshot when (len encoded_snapshot <? ENVELOPE_HEADER_BYTES)%N;
  checksum ← slice_range encoded_snapshot ENVELOPE_HEADER_WITHOUT_CHECKSUM_BYTES ENVELOPE_HEADER_BYTES;
  checksum ← ok_or (vec_of_list 32 checksum) InvalidEncodedSnapshot;
  let snapshot_checksum := MkDigest32 checksum in
  let provisioning := sn_provisioning snapshot in
  let canonical := receipt_canonical snapshot snapshot_checksum in
  digest ← map_err InitDigest (digest_try_new INITIALIZATION_RECEIPT_DIGEST_DOMAIN);
  digest ← map_err InitDigest (field_bytes digest canonical);
  Ok (MkInitializationReceipt (sn_store_instance_id snapshot) (sn_owner_identity_fingerprint snapshot)
        (pv_source_scope provisioning) (authority (pv_proof_authority provisioning))
        (key (pv_proof_authority provisioning)) (fp_signing_key (pv_fingerprints provisioning))
        (fp_policy (pv_fingerprints provisioning)) (fp_service_principal (pv_fingerprints provisioning))
        (sn_snapshot_sequence snapshot) (sn_epoch_high_water snapshot) snapshot_checksum canonical
        (finish sha256 digest)).

(** ** The directory before it is initialized *)

(** Besides the files of the store: the lock file, and other entries. *)
Record Surroundings := MkSurroundings { lock_exists : bool; other_entries : list (list byte) }.
Abbreviation InitM := (M (Surroundings * Directory)).
Definition all_entries (sd : Surroundings * Directory) : list (list byte) :=
  [ascii_bytes "."; ascii_bytes ".."] ++ (if lock_exists sd.1 then [LOCK_FILE_NAME] else [])
  ++ (match dir_active sd.2 with Some _ => [ACTIVE_FILE_NAME] | None => [] end) ++ map fst (dir_temps sd.2)
  ++ other_entries sd.1.

(** The answers of the system: to the calls on the store's files, to the mode
    change and the sync of the new lock file, and to the lock. *)
Record InitEnv := MkInitEnv { ie_store : Env; ie_chmod : Env; ie_lock_sync : Env; ie_contended : bool }.

Definition ensure_fresh_directory (env : InitEnv) : InitM StoreOpenError unit :=
  _ ← on_snd (call (ie_store env) ScanDirectory (open_io ScanDirectory));
  read (fun sd => fail_if (existsb (fun name => negb (is_dot_entry name)) (all_entries sd)) DirectoryNotFresh).

Definition create_and_lock_initializer_lock (env : InitEnv) (owner_uid : N) : InitM StoreOpenError unit :=
  _ ← on_snd (call (ie_store env) CreateLock (open_io CreateLock));
  _ ← read (fun sd => fail_if (lock_exists sd.1) (open_io CreateLock KindAlreadyExists));
  _ ← modify (fun '(s, d) => (MkSurroundings true (other_entries s), d));
  _ ← on_snd (call (ie_chmod env) CreateLock (open_io CreateLock));
  _ ← lift (validate_regular_file owner_uid (env_metadata (ie_chmod env) CreateLock));
  _ ← on_snd (call (ie_lock_sync env) CreateLock (open_io CreateLock));
  _ ← lift (fail_if (ie_contended env) LockContended);
  on_snd (call (ie_store env) AcquireLock (open_io AcquireLock)).

Definition publish_initial_snapshot (env : Env) (owner_uid : N) (encoded : list byte) (temp_token : bytes16)
    (failpoint : CommitFailpoint) : M Directory PublishFailure unit :=
  publish_atomic env owner_uid encoded temp_token RequireMissing failpoint.

(** ** Initialization *)

(** The answers of the entropy source: the identity and the temporary name. *)
Abbreviation Entropy := (result InitializationEntropyError (list byte)).

Definition initialize_with (env : InitEnv) (directory : result StoreOpenError N)
    (provisioning : AuthorityProvisioning) (store_entropy temp_entropy : Entropy) (failpoint : CommitFailpoint)
    : InitM InitializationError InitializationReceipt :=
  _ ← lift (map_err InitModel (provisioning_validate sha256 provisioning));
  owner_uid ← lift (map_err InitStore directory);
  _ ← with_err InitStore (ensure_fresh_directory env);
  store_bytes ← lift (map_err InitEntropy store_entropy);
  _ ← lift (fail_if (negb (len store_bytes =? STORE_INSTANCE_ID_BYTES)%N) InvalidStoreIdentityWidth);
  store_array ← lift (ok_or (vec_of_list 32 store_bytes) InvalidStoreIdentityWidth);
  store_instance_id ← lift (map_err InitModel (store_instance_try_from_bytes store_array));
  temp_bytes ← lift (map_err InitEntropy temp_entropy);
  _ ← lift (fail_if (negb (len temp_bytes =? N.of_nat TEMP_TOKEN_BYTES)%N) InvalidTempTokenWidth);
  temp_token ← lift (ok_or (vec_of_list 16 temp_bytes) InvalidTempTokenWidth);
  _ ← lift (fail_if (all_zero (vec_to_list temp_token)) AllZeroTempToken);
  snapshot ← lift (map_err InitModel (snapshot_initial sha256 parallelism store_instance_id provisioning));
  encoded ← lift (map_err InitCodec (encode_snapshot sha256 parallelism snapshot));
  receipt ← lift (receipt_from_snapshot snapshot encoded);
  _ ← with_err InitStore (create_and_lock_initializer_lock env owner_uid);
  _ ← with_err InitPublish (on_snd (publish_initial_snapshot (ie_store env) owner_uid encoded temp_token failpoint));
  read_back ← with_err InitStore (on_snd (read_active_snapshot (ie_store env) owner_uid sha256 parallelism));
  _ ← lift (fail_if (bool_decide (read_back <> snapshot)) ReadBackMismatch);
  mret receipt.

Definition reconstruct_sequence_one_initialization_receipt (env : Env) (directory : result StoreOpenError N)
    (contended : bool) (provisioning : AuthorityProvisioning)
    : M Directory TenureAuthorityReceiptRecoveryError InitializationReceipt :=
  store ← with_err ReceiptStoreOpen (open_validated sha256 parallelism env directory contended provisioning);
  snapshot ← lift (map_err ReceiptStoreState (snapshot store));
  _ ← lift (fail_if (negb (sn_snapshot_sequence snapshot =? 1)%N || negb (sn_epoch_high_water snapshot =? 0)%N
                     || negb (bool_decide (sn_acquire_records snapshot = []))) NotSequenceOne);
  encoded ← lift (map_err (fun _ => InvalidSnapshot) (encode_snapshot sha256 parallelism snapshot));
  lift (map_err (fun _ => InvalidSnapshot) (receipt_from_snapshot snapshot encoded)).
End init.

(** ** What initialization does *)

Section init_facts.
Context `{Ed25519} (sha256 : list byte -> bytes32) (n : N).
Implicit Types (s : AuthoritySnapshot) (d : Directory) (l : Surroundings).

Definition empty_directory : Directory := MkDirectory None None [].
Definition first_snapshot_of (id : StoreInstanceId) (prov : AuthorityProvisioning) : AuthoritySnapshot :=
  MkAuthoritySnapshot id (fp_owner_identity (pv_fingerprints prov)) 1 prov 0 [].

Lemma receipt_total s :
  exists rc, receipt_from_snapshot sha256 s (snapshot_bytes sha256 s) = Ok rc /\
    ir_store_instance_id rc = sn_store_instance_id s /\ ir_snapshot_sequence rc = sn_snapshot_sequence s /\
    ir_epoch_high_water rc = sn_epoch_high_water s.
Proof.
  unfold receipt_from_snapshot.
  rewrite (proj2 (N.ltb_ge (len (snapshot_bytes sha256 s)) ENVELOPE_HEADER_BYTES)).
  2: { unfold snapshot_bytes. rewrite !len_app, len_envelope_header, len_vec.
       unfold ENVELOPE_HEADER_BYTES, ENVELOPE_HEADER_WITHOUT_CHECKSUM_BYTES. lia. }
  rewrite bind_pass. cbv beta.
  rewrite (slice_at (snapshot_bytes sha256 s) (envelope_header s (len (payload_bytes s)))
    (vec_to_list (snapshot_checksum sha256 s)) (payload_bytes s));
    [|done|symmetry; apply (len_envelope_header s (len (payload_bytes s)))|].
  2: { by rewrite len_vec. }
  rewrite bind_Ok_l, vec_of_list_to_list. cbn [ok_or]. rewrite bind_Ok_l. cbv beta zeta.
  set (c := receipt_canonical s _). assert (len c = 379)%N as Hc.
  { unfold c, receipt_canonical. cbv zeta. rewrite !len_app, !len_be_bytes, !len_vec. done. }
  destruct (proj2 (build_total INITIALIZATION_RECEIPT_DIGEST_DOMAIN [c])) as [b Hb].
  { split; [done|]. split; [vm_compute; discriminate|]. split; [|vm_compute; discriminate].
    constructor; [|constructor]. rewrite Hc. vm_compute. discriminate. }
  revert Hb. clearbody c. clear Hc. generalize INITIALIZATION_RECEIPT_DIGEST_DOMAIN. intros domain Hb.
  run_build Hb. by eexists.
Qed.

Lemma snapshot_initial_Ok id prov s :
  snapshot_initial sha256 n id prov = Ok s <-> s = first_snapshot_of id prov /\ snapshot_valid sha256 s.
Proof.
  unfold snapshot_initial. cbv zeta. fold (first_snapshot_of id prov). split.
  - intros ([] & Hv%snapshot_validate_Ok & [= <-])%bind_Ok. done.
  - intros [-> Hv]. by rewrite (proj2 (snapshot_validate_Ok sha256 n _) Hv).
Qed.

(** Failure leaves no snapshot, or the first one in place. *)
Definition not_initialized d : Prop := dir_active d = None.
Definition initialized (prov : AuthorityProvisioning) s d : Prop :=
  s = first_snapshot_of (sn_store_instance_id s) prov /\ on_disk sha256 s /\
  dir_active d = Some (file_of sha256 s) /\ temps_ok d /\ length (dir_temps d) <= 1.

Lemma wp_fresh env (Q : unit -> Surroundings * Directory -> Prop) R l d :
  (lock_exists l = false -> dir_active d = None -> Q tt (l, d)) -> (forall e, R e (l, d)) -> wp (ensure_fresh_directory env) Q R (l, d).
Proof.
  intros HQ HR. unfold ensure_fresh_directory. apply wp_bind, wp_on_snd, wp_call; [|auto|auto].
  apply wp_read; [|auto|auto]. intros [] Hf%fail_if_Ok. unfold all_entries in Hf. cbn [fst snd] in Hf.
  rewrite !existsb_app, !orb_false_iff in Hf. destruct Hf as (_ & Hlk & Ha & _).
  apply HQ; [by destruct (lock_exists l)|by destruct (dir_active d)].
Qed.
Lemma wp_lock env uid (Q : unit -> Surroundings * Directory -> Prop) R l d :
  Q tt (MkSurroundings true (other_entries l), d) -> (forall e l', R e (l', d)) ->
  wp (create_and_lock_initializer_lock env uid) Q R (l, d).
Proof.
  intros HQ HR. unfold create_and_lock_initializer_lock.
  apply wp_bind, wp_on_snd, wp_call; [|auto|auto]. apply wp_bind, wp_read; [intros [] _|auto|auto].
  apply wp_bind, wp_modify, wp_bind, wp_on_snd, wp_call; [|auto|auto].
  apply wp_bind, wp_lift; [intros [] _|auto|auto]. apply wp_bind, wp_on_snd, wp_call; [|auto|auto].
  apply wp_bind, wp_fail_if; [intros _|auto]. by apply wp_on_snd, wp_call; [|auto|auto].
Qed.

Lemma wp_initialize env directory prov se te fp (Q : InitializationReceipt -> Surroundings * Directory -> Prop) R l :
  (forall l' s rc, lock_exists l' = true -> s = first_snapshot_of (sn_store_instance_id s) prov -> on_disk sha256 s ->
     receipt_from_snapshot sha256 s (snapshot_bytes sha256 s) = Ok rc ->
     Q rc (l', MkDirectory (Some (file_of sha256 s)) None [])) ->
  (forall e l' d, not_initialized d -> R e (l', d)) ->
  (forall e l' d s, initialized prov s d -> R e (l', d)) ->
  wp (initialize_with sha256 n env directory prov se te fp) Q R (l, empty_directory).
Proof.
  intros HQ HRn HRi. unfold initialize_with. assert (not_initialized empty_directory) as Hn by done.
  apply wp_bind, wp_lift; [intros [] _|auto|auto]. apply wp_bind, wp_lift; [intros uid _|auto|auto].
  apply wp_bind, wp_with_err, wp_fresh; [intros _ _|auto].
  apply wp_bind, wp_lift; [intros sb _|auto|auto]. apply wp_bind, wp_fail_if; [intros _|auto].
  apply wp_bind, wp_lift; [intros sa _|auto|auto]. apply wp_bind, wp_lift; [intros id Hid%map_err_Ok|auto|auto].
  apply wp_bind, wp_lift; [intros tb _|auto|auto]. apply wp_bind, wp_fail_if; [intros _|auto].
  apply wp_bind, wp_lift; [intros token _|auto|auto]. apply wp_bind, wp_fail_if; [intros _|auto].
  apply wp_bind, wp_lift; [intros s Hs%map_err_Ok%snapshot_initial_Ok|auto|auto]. destruct Hs as [Hs Hv].
  assert (on_disk sha256 s) as Hd.
  { split; [done|]. unfold store_instance_try_from_bytes in Hid.
    rewrite Hs. unfold identified. cbn [first_snapshot_of sn_store_instance_id]. rust_inv. done. }
  assert (s = first_snapshot_of (sn_store_instance_id s) prov) as Hs' by (rewrite Hs; done).
  rewrite encode_snapshot_valid by done. apply wp_bind, wp_lift; [intros w [= <-]|done|done].
  apply wp_bind, wp_lift; [intros rc Hrc|auto|auto]. apply wp_bind, wp_with_err, wp_lock; [|auto].
  set (l1 := MkSurroundings true (other_entries l)). apply wp_bind, wp_with_err, wp_on_snd.
  eapply wp_mono; [apply publish_spec; split; constructor| |].
  - intros [] d [[Ha Hr] Hsub]. assert (dir_temps d = []) as Ht by (by eapply temps_sub_nil).
    assert (initialized prov s d) as Hinit by (split_and!; try done; [by unfold temps_ok; rewrite Ht; split; constructor|by rewrite Ht; simpl; lia]).
    apply wp_bind, wp_with_err, wp_on_snd, wp_read_active; [|intros e; by eapply HRi|by eapply HRi].
    intros s' f _ _ _. apply wp_bind, wp_fail_if; [intros _|intros _; by eapply HRi].
    apply wp_ret. destruct d as [da dr dt]. cbn [dir_active dir_reverts dir_temps] in *. rewrite Ha, Hr, Ht. by eapply HQ.
  - intros e d [Hf Hw]. assert (not_initialized d \/ initialized prov s d) as [Hx|Hx].
    { assert (same_files empty_directory d \/ published (snapshot_bytes sha256 s) empty_directory d) as [[Hx _]|[Hx _]]
        by (by destruct e as [[f|f]|]; [left|right|]).
      - by left.
      - right. split_and!; try done; [apply Hw|]. pose proof (temps_within_length _ _ _ Hw). done. }
    + destruct e; cbn [fmap option_fmap option_map]; by apply HRn.
    + destruct e; cbn [fmap option_fmap option_map]; by eapply HRi.
Qed.

(** The receipt can be read back from an initialized directory. *)
Lemma reconstruct_healthy env uid prov s d rc :
  healthy env uid -> initialized prov s d ->
  receipt_from_snapshot sha256 s (snapshot_bytes sha256 s) = Ok rc ->
  exists d', reconstruct_sequence_one_initialization_receipt sha256 n env (Ok uid) false prov d = (d', Ok rc).
Proof.
  intros He (Hs & Hd & Ha & Ht & Hl) Hrc.
  assert (wp (reconstruct_sequence_one_initialization_receipt sha256 n env (Ok uid) false prov)
    (fun x _ => x = rc) (fun _ _ => False) d) as Hwp.
  { unfold reconstruct_sequence_one_initialization_receipt. apply wp_bind, wp_with_err.
    assert (prov = sn_provisioning s) as -> by (rewrite Hs; done).
    eapply wp_mono; [apply (open_validated_healthy sha256 n env uid s); try done; unfold MAX_ORPHAN_TEMP_FILES; lia| |done].
    intros st d' ->. apply wp_bind. unfold wp at 1, lift at 1. cbn [snapshot ensure_operational store_state store_snapshot].
    cbn [map_err mbind result_mbind]. change (snapshot (MkAuthorityStore uid s Operational)) with (Ok (E:=StoreError) s).
    cbn [map_err]. rewrite Hs. cbn [first_snapshot_of sn_snapshot_sequence sn_epoch_high_water sn_acquire_records].
    apply wp_bind, wp_fail_if; [intros _|done]. fold (first_snapshot_of (sn_store_instance_id s) (sn_provisioning s)).
    change (MkAuthoritySnapshot _ _ _ _ _ _) with (first_snapshot_of (sn_store_instance_id s) (sn_provisioning s)).
    rewrite <-Hs. rewrite encode_snapshot_valid by apply Hd. cbn [map_err]. apply wp_bind. unfold wp at 1, lift at 1.
    unfold wp, lift. by rewrite Hrc. }
  unfold wp in Hwp. destruct (reconstruct_sequence_one_initialization_receipt _ _ _ _ _ _ _) as [d' [x|e|]]; [|done|done].
  exists d'. by rewrite Hwp.
Qed.
End init_facts.

(** ** Concrete runs *)

Module TenureInitDemo.
Import TenureSystemDemo.
Definition fresh : Surroundings := MkSurroundings false [].
Definition good_init : InitEnv := MkInitEnv good_env good_env good_env false.
Abbreviation run env := (initialize_with toy_hash 4 env (Ok 0%N) demo_provisioning
  (Ok (vec_to_list (key_bytes_of 70))) (Ok (vec_to_list (ContractDemo.ref 90))) FailpointNone (fresh, empty_directory)).
Lemma run_ok : exists l d rc, run good_init = ((l, d), Ok rc).
Proof.
  destruct (run good_init) as [[l d] r] eqn:E. assert (is_ok (run good_init).2 = true) as Hok by (vm_compute; reflexivity).
  rewrite E in Hok. apply is_ok_Ok in Hok as [rc Hrc]. cbn in Hrc. subst r. exists l, d, rc. reflexivity.
Qed.
End TenureInitDemo.

(** ** Properties *)

Section properties.
Context `{Ed25519Signing} (sha256 : list byte -> bytes32) (n : N).

(** A successful initialization leaves the directory as an installation with
    the provisioning it was given and the identity of its receipt: every
    guarantee for runs from an installed directory holds from here. *)
Theorem initialization_installs env directory prov store_entropy temp_entropy failpoint l l' d rc :
  initialize_with sha256 n env directory prov store_entropy temp_entropy failpoint (l, empty_directory)
  = ((l', d), Ok rc) ->
  installed sha256 prov (ir_store_instance_id rc) (MkWorld d None []) /\ lock_exists l' = true /\
  ir_snapshot_sequence rc = 1%N /\ ir_epoch_high_water rc = 0%N.
Proof.
  intros Hrun. eapply (wp_run _ (fun rc p => installed sha256 prov (ir_store_instance_id rc) (MkWorld p.2 None []) /\
    lock_exists p.1 = true /\ ir_snapshot_sequence rc = 1%N /\ ir_epoch_high_water rc = 0%N) (fun _ _ => True)) in Hrun.
  - done.
  - apply wp_initialize; [|done|done]. clear. intros l' s rc Hl Hs Hd Hrc.
    destruct (receipt_total sha256 s) as (rc' & Hrc' & Hid & Hsq & Hhw). rewrite Hrc in Hrc'. injection Hrc' as <-.
    split_and!; [|done|by rewrite Hsq, Hs|by rewrite Hhw, Hs].
    exists s. split; [|done]. split; [done|]. by rewrite Hs.
Qed.

(** C20: Initialization is all or nothing: whatever fails, and wherever the process
    stops, the directory has no snapshot, or it has the first one and the
    receipt (the one returned, if any was) can be reconstructed from it. *)
Theorem initialization_is_all_or_nothing env directory prov store_entropy temp_entropy failpoint l :
  let '((_, d), r) := initialize_with sha256 n env directory prov store_entropy temp_entropy failpoint
                        (l, empty_directory) in
  (dir_active d = None /\ is_ok r = false) \/
  exists rc, (forall rc', r = Ok rc' -> rc' = rc) /\ ir_snapshot_sequence rc = 1%N /\ ir_epoch_high_water rc = 0%N /\
    forall env' uid, healthy env' uid ->
      exists d', reconstruct_sequence_one_initialization_receipt sha256 n env' (Ok uid) false prov d = (d', Ok rc).
Proof.
  set (Q := fun d (r : option InitializationReceipt) => exists rc, (forall rc', r = Some rc' -> rc' = rc) /\
    ir_snapshot_sequence rc = 1%N /\ ir_epoch_high_water rc = 0%N /\ forall env' uid, healthy env' uid ->
      exists d', reconstruct_sequence_one_initialization_receipt sha256 n env' (Ok uid) false prov d = (d', Ok rc)).
  assert (forall s d, initialized sha256 prov s d -> forall r, (forall rc, r = Some rc ->
    receipt_from_snapshot sha256 s (snapshot_bytes sha256 s) = Ok rc) -> Q d r) as HQ.
  { intros s d Hi r Hr. destruct (receipt_total sha256 s) as (rc & Hrc & _ & Hsq & Hhw). exists rc.
    pose proof (proj1 Hi) as Hs. split_and!; [|by rewrite Hsq, Hs|by rewrite Hhw, Hs|intros env' uid He; by eapply reconstruct_healthy].
    intros rc' Hrc'%Hr. congruence. }
  assert (wp (initialize_with sha256 n env directory prov store_entropy temp_entropy failpoint)
    (fun rc p => Q p.2 (Some rc)) (fun _ p => dir_active p.2 = None \/ Q p.2 None) (l, empty_directory)) as Hwp.
  { apply wp_initialize; [|by left|by intros e l' d s Hi; right; eapply HQ].
    intros l' s rc _ Hs Hd Hrc. apply (HQ s); [|by intros ? [= <-]].
    split_and!; try done; [split; constructor|simpl; lia]. }
  unfold wp in Hwp. destruct (initialize_with _ _ _ _ _ _ _ _ _) as [[l' d] [rc|e|]]; cbn [snd] in Hwp.
  - right. destruct Hwp as (rc0 & Hr & Hrest). exists rc0. split; [|done]. intros ? [= <-]. by apply Hr.
  - destruct Hwp as [Hn|(rc0 & _ & Hrest)]; [by left|right]. by exists rc0.
  - destruct Hwp as [Hn|(rc0 & _ & Hrest)]; [by left|right]. by exists rc0.
Qed.
End properties.

Import TenureSystemDemo TenureInitDemo.
Lemma initialization_installs_witness :
  exists l d rc, run good_init = ((l, d), Ok rc) /\
    installed toy_hash demo_provisioning (ir_store_instance_id rc) (MkWorld d None []).
Proof.
  destruct run_ok as (l & d & rc & E). exists l, d, rc. split; [exact E|].
  apply initialization_installs in E. exact (proj1 E).
Defined.
