(* ===== verification/Assignment.v ===== *)
(** * Assignment contract values (crates/paraegox-runtime-contracts/src/assignment.rs)

    Opaque references, resolved schemas, port contracts and the bounded
    delivery and mailbox specifications that the runtime components consume. *)

From S2P Require Import Prelude KernelTime KernelDigest ApplyContracts ApplyWire.
Open Scope rust_scope.

Record BindingId := MkBindingId { binding_id_bytes : bytes16 }.
Record InstanceRef := MkInstanceRef { instance_ref_bytes : bytes16 }.
Record PortRef := MkPortRef { port_ref_bytes : bytes16 }.
Record MailboxRef := MkMailboxRef { mailbox_ref_bytes : bytes16 }.
#[export] Instance BindingId_eq_dec : EqDecision BindingId.
Proof. solve_decision. Defined.
#[export] Instance InstanceRef_eq_dec : EqDecision InstanceRef.
Proof. solve_decision. Defined.
#[export] Instance PortRef_eq_dec : EqDecision PortRef.
Proof. solve_decision. Defined.
#[export] Instance MailboxRef_eq_dec : EqDecision MailboxRef.
Proof. solve_decision. Defined.

Record SchemaRef := MkSchemaRef {
  schema_id : bytes16;
  schema_version : N;
  schema_content_digest : Digest32;
}.
#[export] Instance SchemaRef_eq_dec : EqDecision SchemaRef.
Proof. solve_decision. Defined.

Inductive PortDirection := Out | In.
#[export] Instance PortDirection_eq_dec : EqDecision PortDirection.
Proof. solve_decision. Defined.

Inductive InteractionKind := Signal | Event.
#[export] Instance InteractionKind_eq_dec : EqDecision InteractionKind.
Proof. solve_decision. Defined.

Inductive PortCardinality := One.
#[export] Instance PortCardinality_eq_dec : EqDecision PortCardinality.
Proof. solve_decision. Defined.

Record PortSpec := MkPortSpec {
  port_direction : PortDirection;
  port_schema : SchemaRef;
  port_interaction : InteractionKind;
  port_cardinality : PortCardinality;
}.
#[export] Instance PortSpec_eq_dec : EqDecision PortSpec.
Proof. solve_decision. Defined.

Inductive OverflowPolicy :=
| RejectNew
| DropOldest
| Latest
| CoalesceByKey
| BlockUntilDeadline.
#[export] Instance OverflowPolicy_eq_dec : EqDecision OverflowPolicy.
Proof. solve_decision. Defined.

Inductive AssignmentContractError :=
| InvalidSchemaVersion
| InvalidMaxPayloadBytes
| InvalidMaxMessageAge
| InvalidMailboxItemCapacity
| InvalidMailboxByteCapacity
| InvalidMailboxAge
| InvalidMailboxInflightCapacity
| InvalidMailboxRetainedByteCapacity
| InvalidSourceDirection
| InvalidTargetDirection
| SchemaMismatch
| InteractionMismatch
| OverflowPolicyMismatch
| QueueAgeExceedsDeliveryAge
| MailboxCannotHoldPayload
| MailboxCannotRetainCapacity
| EventCannotUseLossyOverflow
| AssignmentCountExceeded
| DuplicateBindingId
| DuplicateSourceEndpoint
| DuplicateTargetEndpoint
| DuplicateMailboxRef
| AssignmentDigestFailed (e : DigestBuildError)
| CanonicalWireMismatch
| AssignmentDigestMismatch
| SliceAssignmentDigestMismatch
| EnvelopeSliceMismatch
| AssignmentProvenance (e : ProvenanceContractError)
| AssignmentEnvelope (e : EnvelopeContractError)
| RequestFrameTooLarge
| RequestCanonicalWireMismatch.
#[export] Instance AssignmentContractError_eq_dec : EqDecision AssignmentContractError.
Proof. solve_decision. Defined.

Definition schema_ref_try_new (id : bytes16) (version : N) (content_digest : Digest32)
    : result AssignmentContractError SchemaRef :=
  bail InvalidSchemaVersion when (version =? 0)%N;
  Ok (MkSchemaRef id version content_digest).

Record DeliveryProfile := MkDeliveryProfile {
  max_payload_bytes : N;
  max_message_age : BoundedDuration;
  delivery_overflow_policy : OverflowPolicy;
}.
#[export] Instance DeliveryProfile_eq_dec : EqDecision DeliveryProfile.
Proof. solve_decision. Defined.

Definition delivery_profile_try_new (max_payload_bytes : N) (max_message_age : BoundedDuration)
    (overflow_policy : OverflowPolicy) : result AssignmentContractError DeliveryProfile :=
  bail InvalidMaxPayloadBytes when (max_payload_bytes =? 0)%N;
  bail InvalidMaxMessageAge when (duration_value max_message_age =? 0)%N;
  Ok (MkDeliveryProfile max_payload_bytes max_message_age overflow_policy).

Record MailboxSpec := MkMailboxSpec {
  capacity_items : N;
  capacity_bytes : N;
  max_queue_age : BoundedDuration;
  max_inflight : N;
  max_retained_bytes : N;
  overflow_policy : OverflowPolicy;
}.
#[export] Instance MailboxSpec_eq_dec : EqDecision MailboxSpec.
Proof. solve_decision. Defined.

Definition mailbox_spec_try_new (capacity_items capacity_bytes : N) (max_queue_age : BoundedDuration)
    (max_inflight max_retained_bytes : N) (overflow_policy : OverflowPolicy)
    : result AssignmentContractError MailboxSpec :=
  bail InvalidMailboxItemCapacity when (capacity_items =? 0)%N;
  bail InvalidMailboxByteCapacity when (capacity_bytes =? 0)%N;
  bail InvalidMailboxAge when (duration_value max_queue_age =? 0)%N;
  bail InvalidMailboxInflightCapacity when (max_inflight =? 0)%N;
  bail InvalidMailboxRetainedByteCapacity when (max_retained_bytes =? 0)%N;
  Ok (MkMailboxSpec capacity_items capacity_bytes max_queue_age max_inflight max_retained_bytes
        overflow_policy).

(** ** Endpoints and bindings *)

Record PortEndpoint := MkPortEndpoint {
  endpoint_instance : InstanceRef;
  endpoint_port : PortRef;
  endpoint_spec : PortSpec;
}.

Record BindingAssignment := MkBindingAssignment {
  binding_id : BindingId;
  source_instance : InstanceRef;
  source_port : PortRef;
  source_spec : PortSpec;
  target_instance : InstanceRef;
  target_port : PortRef;
  target_spec : PortSpec;
  mailbox_ref : MailboxRef;
  delivery : DeliveryProfile;
  binding_mailbox_spec : MailboxSpec;
}.
#[export] Instance BindingAssignment_eq_dec : EqDecision BindingAssignment.
Proof. solve_decision. Defined.

Definition binding_try_new (binding_id : BindingId) (source target : PortEndpoint)
    (mailbox : MailboxRef) (delivery : DeliveryProfile) (mailbox_spec : MailboxSpec)
    : result AssignmentContractError BindingAssignment :=
  let source_spec := endpoint_spec source in
  let target_spec := endpoint_spec target in
  bail InvalidSourceDirection when bool_decide (port_direction source_spec <> Out);
  bail InvalidTargetDirection when bool_decide (port_direction target_spec <> In);
  bail SchemaMismatch when bool_decide (port_schema source_spec <> port_schema target_spec);
  bail InteractionMismatch
    when bool_decide (port_interaction source_spec <> port_interaction target_spec);
  bail OverflowPolicyMismatch
    when bool_decide (delivery_overflow_policy delivery <> overflow_policy mailbox_spec);
  bail QueueAgeExceedsDeliveryAge
    when (duration_value (max_message_age delivery) <? duration_value (max_queue_age mailbox_spec))%N;
  bail MailboxCannotHoldPayload
    when (capacity_bytes mailbox_spec <? max_payload_bytes delivery)%N;
  bail MailboxCannotRetainCapacity
    when (max_retained_bytes mailbox_spec <? capacity_bytes mailbox_spec)%N;
  bail EventCannotUseLossyOverflow
    when bool_decide (port_interaction source_spec = Event)
         && negb (match delivery_overflow_policy delivery with
                  | RejectNew | BlockUntilDeadline => true
                  | _ => false
                  end);
  Ok (MkBindingAssignment binding_id (endpoint_instance source) (endpoint_port source) source_spec
        (endpoint_instance target) (endpoint_port target) target_spec mailbox delivery mailbox_spec).
