(* ===== verification/AssignmentWire.v ===== *)
(** * Target assignments and complete apply requests

    The canonical assignment body, the plan slice and the complete apply
    request of crates/paraegox-runtime-contracts/src/assignment.rs: their
    constructors, validation, encoders and strict decoders.  The record
    cursor, frame slices and fixed-size reads panic out of range, as in the
    source. *)

From Stdlib Require Import Strings.String.
From S2P Require Import Prelude Bytes Slices KernelTime KernelDigest ApplyContracts ApplyWire Assignment.
Open Scope rust_scope.

Definition TARGET_ASSIGNMENTS_VERSION : N := 1.
Definition MAX_TARGET_ASSIGNMENTS : N := 256.
Definition RUNTIME_APPLY_REQUEST_VERSION : N := 1.
Definition TARGET_ASSIGNMENTS_MAGIC : list byte := ascii_bytes "PXTA".
Definition RUNTIME_APPLY_REQUEST_MAGIC : list byte := ascii_bytes "PXAR".
Definition TARGET_ASSIGNMENTS_HEADER_BYTES : N := 10.
Definition APPLY_REQUEST_HEADER_BYTES : N := 14.
Definition TARGET_ASSIGNMENT_RECORD_BYTES : N := 256.
Definition TARGET_ASSIGNMENTS_DIGEST_DOMAIN : list byte :=
  ascii_bytes "paraegox.runtime.target-assignments.sha256.v1".
Definition MAX_TARGET_ASSIGNMENTS_BYTES : N :=
  TARGET_ASSIGNMENTS_HEADER_BYTES + MAX_TARGET_ASSIGNMENTS * TARGET_ASSIGNMENT_RECORD_BYTES.
Definition MAX_RUNTIME_APPLY_REQUEST_BYTES : N :=
  APPLY_REQUEST_HEADER_BYTES + MAX_RUNTIME_APPLY_ENVELOPE_BYTES + MAX_TARGET_ASSIGNMENTS_BYTES.

(** ** Discriminants *)

Definition direction_u8 (d : PortDirection) : N := match d with Out => 1 | In => 2 end.
Definition interaction_u8 (i : InteractionKind) : N := match i with Signal => 1 | Event => 2 end.
Definition cardinality_u8 (c : PortCardinality) : N := match c with One => 1 end.
Definition overflow_u8 (o : OverflowPolicy) : N :=
  match o with
  | RejectNew => 1 | DropOldest => 2 | Latest => 3 | CoalesceByKey => 4 | BlockUntilDeadline => 5
  end.

(** ** Encoding *)

Definition append_endpoint (encoded : list byte) (instance : InstanceRef) (port : PortRef)
    (spec : PortSpec) : list byte :=
  encoded
  ++ vec_to_list (instance_ref_bytes instance)
  ++ vec_to_list (port_ref_bytes port)
  ++ be_bytes 1 (direction_u8 (port_direction spec))
  ++ vec_to_list (schema_id (port_schema spec))
  ++ be_bytes 4 (schema_version (port_schema spec))
  ++ vec_to_list (digest_bytes (schema_content_digest (port_schema spec)))
  ++ be_bytes 1 (interaction_u8 (port_interaction spec))
  ++ be_bytes 1 (cardinality_u8 (port_cardinality spec)).

Definition append_assignment_record (encoded : list byte) (assignment : BindingAssignment)
    : list byte :=
  let encoded := encoded ++ vec_to_list (binding_id_bytes (binding_id assignment)) in
  let encoded := append_endpoint encoded (source_instance assignment) (source_port assignment)
    (source_spec assignment) in
  let encoded := append_endpoint encoded (target_instance assignment) (target_port assignment)
    (target_spec assignment) in
  let delivery := delivery assignment in
  let mailbox := binding_mailbox_spec assignment in
  encoded
  ++ vec_to_list (mailbox_ref_bytes (mailbox_ref assignment))
  ++ be_bytes 8 (max_payload_bytes delivery)
  ++ be_bytes 8 (duration_value (max_message_age delivery))
  ++ be_bytes 1 (overflow_u8 (delivery_overflow_policy delivery))
  ++ be_bytes 4 (capacity_items mailbox)
  ++ be_bytes 8 (capacity_bytes mailbox)
  ++ be_bytes 8 (duration_value (max_queue_age mailbox))
  ++ be_bytes 4 (max_inflight mailbox)
  ++ be_bytes 8 (max_retained_bytes mailbox)
  ++ be_bytes 1 (overflow_u8 (overflow_policy mailbox)).

Definition build_target_assignments_wire (assignments : list BindingAssignment) : list byte :=
  fold_left append_assignment_record assignments
    (TARGET_ASSIGNMENTS_MAGIC
     ++ be_bytes 2 TARGET_ASSIGNMENTS_VERSION
     ++ be_bytes 4 (len assignments mod 2 ^ 32)).

(** ** The target body *)

Definition same_source (a b : BindingAssignment) : bool :=
  bool_decide (source_instance a = source_instance b) && bool_decide (source_port a = source_port b).
Definition same_target (a b : BindingAssignment) : bool :=
  bool_decide (target_instance a = target_instance b) && bool_decide (target_port a = target_port b).

(** The inner loop over [assignments.iter().take(index)]. *)
Definition check_previous (assignment previous : BindingAssignment)
    : result AssignmentContractError unit :=
  bail DuplicateBindingId when bool_decide (binding_id previous = binding_id assignment);
  bail DuplicateSourceEndpoint when same_source previous assignment;
  bail DuplicateTargetEndpoint when same_target previous assignment;
  bail DuplicateMailboxRef when bool_decide (mailbox_ref previous = mailbox_ref assignment);
  Ok tt.
Definition ensure_assignment_uniqueness (assignments : list BindingAssignment)
    : result AssignmentContractError unit :=
  try_fold (fun _ '(index, assignment) =>
    try_fold (fun _ previous => check_previous assignment previous) tt (take index assignments))
    tt (enumerate assignments).

(** [sort_by_key(|assignment| assignment.binding_id())]: a stable sort. *)
Definition binding_leb (a b : BindingAssignment) : bool :=
  bytes_leb (vec_to_list (binding_id_bytes (binding_id a)))
    (vec_to_list (binding_id_bytes (binding_id b))).
Fixpoint sort_insert (a : BindingAssignment) (l : list BindingAssignment) : list BindingAssignment :=
  match l with
  | [] => [a]
  | b :: l => if binding_leb a b then a :: b :: l else b :: sort_insert a l
  end.
Definition sort_by_binding_id (l : list BindingAssignment) : list BindingAssignment :=
  foldr sort_insert [] l.

Record TargetAssignments := MkTargetAssignments {
  assignments : list BindingAssignment;
  ta_canonical_wire : list byte;
  ta_assignment_digest : TargetAssignmentDigest;
}.
#[export] Instance TargetAssignments_eq_dec : EqDecision TargetAssignments.
Proof. solve_decision. Defined.

Record RuntimePlanSlice := MkRuntimePlanSlice {
  plan_commitment : RuntimeSliceCommitment;
  plan_assignments : TargetAssignments;
}.
#[export] Instance RuntimePlanSlice_eq_dec : EqDecision RuntimePlanSlice.
Proof. solve_decision. Defined.

Record RuntimeApplyRequest := MkRuntimeApplyRequest {
  request_envelope : RuntimeApplyEnvelope;
  request_slice : RuntimePlanSlice;
  request_canonical_wire : list byte;
}.
#[export] Instance RuntimeApplyRequest_eq_dec : EqDecision RuntimeApplyRequest.
Proof. solve_decision. Defined.

Definition build_runtime_apply_request_wire (envelope : RuntimeApplyEnvelope)
    (slice : RuntimePlanSlice) : list byte :=
  let assignment_wire := ta_canonical_wire (plan_assignments slice) in
  RUNTIME_APPLY_REQUEST_MAGIC
  ++ be_bytes 2 RUNTIME_APPLY_REQUEST_VERSION
  ++ be_bytes 4 (len (env_canonical_wire envelope) mod 2 ^ 32)
  ++ be_bytes 4 (len assignment_wire mod 2 ^ 32)
  ++ env_canonical_wire envelope
  ++ assignment_wire.

Section body.
Context (sha256 : list byte -> bytes32).

Definition digest_target_assignments (canonical_wire : list byte)
    : result DigestBuildError TargetAssignmentDigest :=
  builder ← digest_try_new TARGET_ASSIGNMENTS_DIGEST_DOMAIN;
  builder ← field_bytes builder canonical_wire;
  Ok (MkTargetAssignmentDigest (finish sha256 builder)).

Definition target_assignments_try_new (assignments : list BindingAssignment)
    : result AssignmentContractError TargetAssignments :=
  bail AssignmentCountExceeded when (MAX_TARGET_ASSIGNMENTS <? len assignments)%N;
  let assignments := sort_by_binding_id assignments in
  _ ← ensure_assignment_uniqueness assignments;
  let canonical_wire := build_target_assignments_wire assignments in
  assignment_digest ← map_err AssignmentDigestFailed (digest_target_assignments canonical_wire);
  Ok (MkTargetAssignments assignments canonical_wire assignment_digest).

Definition target_assignments_validate (self : TargetAssignments)
    : result AssignmentContractError unit :=
  rebuilt ← target_assignments_try_new (assignments self);
  bail CanonicalWireMismatch when bool_decide (assignments rebuilt <> assignments self);
  bail CanonicalWireMismatch when bool_decide (ta_canonical_wire rebuilt <> ta_canonical_wire self);
  bail AssignmentDigestMismatch
    when bool_decide (ta_assignment_digest rebuilt <> ta_assignment_digest self);
  Ok tt.

Definition plan_slice_try_new (commitment : RuntimeSliceCommitment) (assignments : TargetAssignments)
    : result AssignmentContractError RuntimePlanSlice :=
  _ ← map_err AssignmentProvenance (slice_commitment_validate sha256 commitment);
  _ ← target_assignments_validate assignments;
  bail SliceAssignmentDigestMismatch
    when bool_decide (assignment_digest (header commitment) <> ta_assignment_digest assignments);
  Ok (MkRuntimePlanSlice commitment assignments).

Definition plan_slice_validate (self : RuntimePlanSlice) : result AssignmentContractError unit :=
  _ ← map_err AssignmentProvenance (slice_commitment_validate sha256 (plan_commitment self));
  _ ← target_assignments_validate (plan_assignments self);
  bail SliceAssignmentDigestMismatch when bool_decide
    (assignment_digest (header (plan_commitment self)) <> ta_assignment_digest (plan_assignments self));
  Ok tt.

Definition apply_request_try_new (envelope : RuntimeApplyEnvelope) (plan : RuntimePlanSlice)
    : result AssignmentContractError RuntimeApplyRequest :=
  _ ← map_err AssignmentEnvelope (envelope_validate sha256 envelope);
  _ ← plan_slice_validate plan;
  bail EnvelopeSliceMismatch
    when bool_decide (slice (env_control_commitment envelope) <> plan_commitment plan);
  let canonical_wire := build_runtime_apply_request_wire envelope plan in
  bail RequestFrameTooLarge when (MAX_RUNTIME_APPLY_REQUEST_BYTES <? len canonical_wire)%N;
  Ok (MkRuntimeApplyRequest envelope plan canonical_wire).

Definition apply_request_digest (self : RuntimeApplyRequest) : Digest32 :=
  env_request_digest (request_envelope self).

Definition apply_request_validate (self : RuntimeApplyRequest) : result AssignmentContractError unit :=
  _ ← map_err AssignmentEnvelope (envelope_validate sha256 (request_envelope self));
  _ ← plan_slice_validate (request_slice self);
  bail EnvelopeSliceMismatch when bool_decide
    (slice (env_control_commitment (request_envelope self)) <> plan_commitment (request_slice self));
  let rebuilt := build_runtime_apply_request_wire (request_envelope self) (request_slice self) in
  bail RequestCanonicalWireMismatch when bool_decide (rebuilt <> request_canonical_wire self);
  Ok tt.
End body.

(** ** Decoding the target body *)

Inductive AssignmentWireErrorCode :=
| AWFrameTooLarge
| AWTruncated
| AWInvalidMagic
| AWUnsupportedVersion
| AWAssignmentCountExceeded
| AWInvalidFrameLength
| AWInvalidEnumValue
| AWInvalidAssignment
| AWDuplicateBindingId
| AWDuplicateSourceEndpoint
| AWDuplicateTargetEndpoint
| AWNonCanonicalFrame
| AWDuplicateMailboxRef.
Definition assignment_wire_code_value (c : AssignmentWireErrorCode) : N :=
  match c with
  | AWFrameTooLarge => 1 | AWTruncated => 2 | AWInvalidMagic => 3 | AWUnsupportedVersion => 4
  | AWAssignmentCountExceeded => 5 | AWInvalidFrameLength => 6 | AWInvalidEnumValue => 7
  | AWInvalidAssignment => 8 | AWDuplicateBindingId => 9 | AWDuplicateSourceEndpoint => 10
  | AWDuplicateTargetEndpoint => 11 | AWNonCanonicalFrame => 12 | AWDuplicateMailboxRef => 13
  end.
Record AssignmentWireError := MkAssignmentWireError {
  aw_code : AssignmentWireErrorCode;
  aw_record_index : option N;
}.
Definition aw_new (code : AssignmentWireErrorCode) : AssignmentWireError :=
  MkAssignmentWireError code None.
Definition aw_at (code : AssignmentWireErrorCode) (record_index : N) : AssignmentWireError :=
  MkAssignmentWireError code (Some record_index).

(** [RecordCursor]: reads advance the offset and panic past the record. *)
Record RecordCursor := MkRecordCursor { cursor_record : list byte; cursor_offset : N }.
Abbreviation Cursor := (M RecordCursor AssignmentWireError).

Definition cursor_array (n : nat) : Cursor (vec byte n) := fun self =>
  match checked_add u64_max (cursor_offset self) (N.of_nat n) with
  | None => (self, Panic)
  | Some end_ =>
      match (value ← slice_range (cursor_record self) (cursor_offset self) end_; array_of n value)
      with
      | Ok value => (MkRecordCursor (cursor_record self) end_, Ok value)
      | Err e => (self, Err e)
      | Panic => (self, Panic)
      end
  end.
Definition cursor_u8 : Cursor N := fun self =>
  match cursor_record self !! N.to_nat (cursor_offset self) with
  | None => (self, Panic)
  | Some value => (MkRecordCursor (cursor_record self) (cursor_offset self + 1), Ok (Byte.to_N value))
  end.
Definition cursor_u32 : Cursor N :=
  value ← cursor_array 4; mret (of_be_bytes (vec_to_list value)).
Definition cursor_u64 : Cursor N :=
  value ← cursor_array 8; mret (of_be_bytes (vec_to_list value)).

Definition decode_direction (value record_index : N) : result AssignmentWireError PortDirection :=
  if (value =? 1)%N then Ok Out
  else if (value =? 2)%N then Ok In
  else Err (aw_at AWInvalidEnumValue record_index).
Definition decode_interaction (value record_index : N) : result AssignmentWireError InteractionKind :=
  if (value =? 1)%N then Ok Signal
  else if (value =? 2)%N then Ok Event
  else Err (aw_at AWInvalidEnumValue record_index).
Definition decode_cardinality (value record_index : N) : result AssignmentWireError PortCardinality :=
  if (value =? 1)%N then Ok One else Err (aw_at AWInvalidEnumValue record_index).
Definition decode_overflow (value record_index : N) : result AssignmentWireError OverflowPolicy :=
  if (value =? 1)%N then Ok RejectNew
  else if (value =? 2)%N then Ok DropOldest
  else if (value =? 3)%N then Ok Latest
  else if (value =? 4)%N then Ok CoalesceByKey
  else if (value =? 5)%N then Ok BlockUntilDeadline
  else Err (aw_at AWInvalidEnumValue record_index).

Definition decode_endpoint (record_index : N) : Cursor PortEndpoint :=
  instance ← cursor_array 16;
  port ← cursor_array 16;
  direction ← cursor_u8;
  direction ← lift (decode_direction direction record_index);
  schema_id ← cursor_array 16;
  schema_version ← cursor_u32;
  schema_digest ← cursor_array 32;
  schema ← lift (map_err (fun _ => aw_at AWInvalidAssignment record_index)
    (schema_ref_try_new schema_id schema_version (MkDigest32 schema_digest)));
  interaction ← cursor_u8;
  interaction ← lift (decode_interaction interaction record_index);
  cardinality ← cursor_u8;
  cardinality ← lift (decode_cardinality cardinality record_index);
  mret (MkPortEndpoint (MkInstanceRef instance) (MkPortRef port)
          (MkPortSpec direction schema interaction cardinality)).

Definition decode_record (record_index : N) : Cursor BindingAssignment :=
  binding_id ← cursor_array 16;
  source ← decode_endpoint record_index;
  target ← decode_endpoint record_index;
  mailbox ← cursor_array 16;
  max_payload_bytes ← cursor_u64;
  max_message_age ← cursor_u64;
  delivery_overflow ← cursor_u8;
  delivery_overflow ← lift (decode_overflow delivery_overflow record_index);
  capacity_items ← cursor_u32;
  capacity_bytes ← cursor_u64;
  max_queue_age ← cursor_u64;
  max_inflight ← cursor_u32;
  max_retained_bytes ← cursor_u64;
  mailbox_overflow ← cursor_u8;
  mailbox_overflow ← lift (decode_overflow mailbox_overflow record_index);
  delivery ← lift (map_err (fun _ => aw_at AWInvalidAssignment record_index)
    (delivery_profile_try_new max_payload_bytes (from_nanos max_message_age) delivery_overflow));
  mailbox_spec ← lift (map_err (fun _ => aw_at AWInvalidAssignment record_index)
    (mailbox_spec_try_new capacity_items capacity_bytes (from_nanos max_queue_age) max_inflight
       max_retained_bytes mailbox_overflow));
  lift (map_err (fun _ => aw_at AWInvalidAssignment record_index)
    (binding_try_new (MkBindingId binding_id) source target (MkMailboxRef mailbox) delivery
       mailbox_spec)).
Definition decode_assignment_record (record : list byte) (record_index : N)
    : result AssignmentWireError BindingAssignment :=
  snd (decode_record record_index (MkRecordCursor record 0)).

Definition assignment_contract_wire_error (error : AssignmentContractError) : AssignmentWireError :=
  aw_new match error with
         | AssignmentCountExceeded => AWAssignmentCountExceeded
         | DuplicateBindingId => AWDuplicateBindingId
         | DuplicateSourceEndpoint => AWDuplicateSourceEndpoint
         | DuplicateTargetEndpoint => AWDuplicateTargetEndpoint
         | DuplicateMailboxRef => AWDuplicateMailboxRef
         | _ => AWInvalidAssignment
         end.

(** [chunks_exact(n)], [count] chunks; a shorter rest is dropped. *)
Fixpoint chunks_exact (count n : nat) (l : list byte) : list (list byte) :=
  match count with
  | O => []
  | S count => if (length l <? n)%nat then [] else take n l :: chunks_exact count n (drop n l)
  end.
Fixpoint decode_records (index : N) (records : list (list byte))
    : result AssignmentWireError (list BindingAssignment) :=
  match records with
  | [] => Ok []
  | record :: records =>
      assignment ← decode_assignment_record record (index mod 2 ^ 32);
      rest ← decode_records (index + 1) records;
      Ok (assignment :: rest)
  end.

Section decode.
Context (sha256 : list byte -> bytes32).

Definition decode_target_assignments (frame : list byte)
    : result AssignmentWireError TargetAssignments :=
  bail (aw_new AWFrameTooLarge) when (MAX_TARGET_ASSIGNMENTS_BYTES <? len frame)%N;
  bail (aw_new AWTruncated) when (len frame <? TARGET_ASSIGNMENTS_HEADER_BYTES)%N;
  magic ← slice_range frame 0 (len TARGET_ASSIGNMENTS_MAGIC);
  bail (aw_new AWInvalidMagic) when bool_decide (magic <> TARGET_ASSIGNMENTS_MAGIC);
  version_bytes ← slice_range frame 4 6;
  version ← read_u16 version_bytes;
  bail (aw_new AWUnsupportedVersion) when negb (version =? TARGET_ASSIGNMENTS_VERSION)%N;
  count_bytes ← slice_range frame 6 10;
  declared_count ← read_u32 count_bytes;
  bail (aw_new AWAssignmentCountExceeded) when (MAX_TARGET_ASSIGNMENTS <? declared_count)%N;
  records_bytes ← ok_or (checked_mul u64_max declared_count TARGET_ASSIGNMENT_RECORD_BYTES)
    (aw_new AWInvalidFrameLength);
  expected_length ← ok_or (checked_add u64_max TARGET_ASSIGNMENTS_HEADER_BYTES records_bytes)
    (aw_new AWInvalidFrameLength);
  bail (aw_new AWTruncated) when (len frame <? expected_length)%N;
  bail (aw_new AWInvalidFrameLength) when negb (len frame =? expected_length)%N;
  records ← slice_range frame TARGET_ASSIGNMENTS_HEADER_BYTES (len frame);
  assignments ← decode_records 0
    (chunks_exact (length records) (N.to_nat TARGET_ASSIGNMENT_RECORD_BYTES) records);
  decoded ← map_err assignment_contract_wire_error (target_assignments_try_new sha256 assignments);
  bail (aw_new AWNonCanonicalFrame) when bool_decide (ta_canonical_wire decoded <> frame);
  Ok decoded.
End decode.

(** ** Decoding complete requests *)

Inductive RequestWireErrorCode :=
| RWFrameTooLarge
| RWTruncated
| RWInvalidMagic
| RWUnsupportedVersion
| RWInvalidFrameLength
| RWEnvelopeRejected
| RWAssignmentsRejected
| RWCommitmentMismatch.
Record RequestWireError := MkRequestWireError {
  rw_code : RequestWireErrorCode;
  rw_detail_code : option N;
}.
Definition rw_new (code : RequestWireErrorCode) : RequestWireError := MkRequestWireError code None.
Definition request_envelope_wire_error (error : WireError) : RequestWireError :=
  MkRequestWireError RWEnvelopeRejected (Some (wire_error_code_value (wire_code error))).
Definition request_assignment_wire_error (error : AssignmentWireError) : RequestWireError :=
  MkRequestWireError RWAssignmentsRejected (Some (assignment_wire_code_value (aw_code error))).

Section decode_request.
Context (sha256 : list byte -> bytes32).

Definition decode_runtime_apply_request (frame : list byte)
    : result RequestWireError RuntimeApplyRequest :=
  bail (rw_new RWFrameTooLarge) when (MAX_RUNTIME_APPLY_REQUEST_BYTES <? len frame)%N;
  bail (rw_new RWTruncated) when (len frame <? APPLY_REQUEST_HEADER_BYTES)%N;
  magic ← slice_range frame 0 (len RUNTIME_APPLY_REQUEST_MAGIC);
  bail (rw_new RWInvalidMagic) when bool_decide (magic <> RUNTIME_APPLY_REQUEST_MAGIC);
  version_bytes ← slice_range frame 4 6;
  version ← read_u16 version_bytes;
  bail (rw_new RWUnsupportedVersion) when negb (version =? RUNTIME_APPLY_REQUEST_VERSION)%N;
  envelope_length_bytes ← slice_range frame 6 10;
  envelope_length ← read_u32 envelope_length_bytes;
  assignments_length_bytes ← slice_range frame 10 14;
  assignments_length ← read_u32 assignments_length_bytes;
  component_length ← ok_or (checked_add u64_max envelope_length assignments_length)
    (rw_new RWInvalidFrameLength);
  expected_length ← ok_or (checked_add u64_max APPLY_REQUEST_HEADER_BYTES component_length)
    (rw_new RWInvalidFrameLength);
  bail (rw_new RWTruncated) when (len frame <? expected_length)%N;
  bail (rw_new RWInvalidFrameLength) when negb (len frame =? expected_length)%N;
  let envelope_start := APPLY_REQUEST_HEADER_BYTES in
  envelope_end ← panicking_add u64_max envelope_start envelope_length;
  envelope_bytes ← slice_range frame envelope_start envelope_end;
  envelope ← map_err request_envelope_wire_error (decode_apply_envelope sha256 envelope_bytes);
  assignment_bytes ← slice_range frame envelope_end (len frame);
  assignments ← map_err request_assignment_wire_error
    (decode_target_assignments sha256 assignment_bytes);
  plan ← map_err (fun _ => rw_new RWCommitmentMismatch)
    (plan_slice_try_new sha256 (slice (env_control_commitment envelope)) assignments);
  map_err (fun _ => rw_new RWCommitmentMismatch) (apply_request_try_new sha256 envelope plan).
End decode_request.

(** ** Values the constructors accept *)

Definition schema_wf (s : SchemaRef) : Prop := (1 <= schema_version s <= u32_max)%N.
Definition delivery_wf (d : DeliveryProfile) : Prop :=
  (1 <= max_payload_bytes d <= u64_max /\ 1 <= duration_value (max_message_age d) <= u64_max)%N.
Definition mailbox_spec_wf (m : MailboxSpec) : Prop :=
  (1 <= capacity_items m <= u32_max /\ 1 <= capacity_bytes m <= u64_max /\
   1 <= duration_value (max_queue_age m) <= u64_max /\ 1 <= max_inflight m <= u32_max /\
   1 <= max_retained_bytes m <= u64_max)%N.
Definition lossless (o : OverflowPolicy) : bool :=
  match o with RejectNew | BlockUntilDeadline => true | _ => false end.
(** A binding connects an [Out] port to an [In] port of the same schema and
    interaction, under one overflow policy, with a mailbox that can hold one
    payload and retain its queue, never longer than the link's age bound; an
    [Event] binding does not lose messages. *)
Definition assignment_wf (b : BindingAssignment) : Prop :=
  port_direction (source_spec b) = Out /\ port_direction (target_spec b) = In /\
  port_schema (source_spec b) = port_schema (target_spec b) /\
  port_interaction (source_spec b) = port_interaction (target_spec b) /\
  delivery_overflow_policy (delivery b) = overflow_policy (binding_mailbox_spec b) /\
  (duration_value (max_queue_age (binding_mailbox_spec b))
     <= duration_value (max_message_age (delivery b)))%N /\
  (max_payload_bytes (delivery b) <= capacity_bytes (binding_mailbox_spec b))%N /\
  (capacity_bytes (binding_mailbox_spec b) <= max_retained_bytes (binding_mailbox_spec b))%N /\
  (port_interaction (source_spec b) = Event ->
   lossless (delivery_overflow_policy (delivery b)) = true) /\
  schema_wf (port_schema (source_spec b)) /\ delivery_wf (delivery b) /\
  mailbox_spec_wf (binding_mailbox_spec b).
#[export] Instance schema_wf_dec s : Decision (schema_wf s).
Proof. unfold schema_wf. apply _. Defined.
#[export] Instance delivery_wf_dec d : Decision (delivery_wf d).
Proof. unfold delivery_wf. apply _. Defined.
#[export] Instance mailbox_spec_wf_dec m : Decision (mailbox_spec_wf m).
Proof. unfold mailbox_spec_wf. apply _. Defined.
#[export] Instance assignment_wf_dec b : Decision (assignment_wf b).
Proof. unfold assignment_wf. apply _. Defined.
#[global] Typeclasses Opaque schema_wf delivery_wf mailbox_spec_wf assignment_wf.

Lemma schema_ref_try_new_Ok i v d s :
  schema_ref_try_new i v d = Ok s <-> s = MkSchemaRef i v d /\ (1 <= v)%N.
Proof. unfold schema_ref_try_new. solve_ctor. Qed.
Lemma delivery_profile_try_new_Ok p a o d :
  delivery_profile_try_new p a o = Ok d <->
  d = MkDeliveryProfile p a o /\ (1 <= p)%N /\ (1 <= duration_value a)%N.
Proof. unfold delivery_profile_try_new. solve_ctor. Qed.
Lemma mailbox_spec_try_new_Ok i b a f r o m :
  mailbox_spec_try_new i b a f r o = Ok m <->
  m = MkMailboxSpec i b a f r o /\
  (1 <= i /\ 1 <= b /\ 1 <= duration_value a /\ 1 <= f /\ 1 <= r)%N.
Proof. unfold mailbox_spec_try_new. solve_ctor. Qed.
Lemma binding_try_new_Ok i s t m d x b :
  binding_try_new i s t m d x = Ok b <->
  b = MkBindingAssignment i (endpoint_instance s) (endpoint_port s) (endpoint_spec s)
        (endpoint_instance t) (endpoint_port t) (endpoint_spec t) m d x /\
  port_direction (endpoint_spec s) = Out /\ port_direction (endpoint_spec t) = In /\
  port_schema (endpoint_spec s) = port_schema (endpoint_spec t) /\
  port_interaction (endpoint_spec s) = port_interaction (endpoint_spec t) /\
  delivery_overflow_policy d = overflow_policy x /\
  (duration_value (max_queue_age x) <= duration_value (max_message_age d))%N /\
  (max_payload_bytes d <= capacity_bytes x)%N /\ (capacity_bytes x <= max_retained_bytes x)%N /\
  (port_interaction (endpoint_spec s) = Event -> lossless (delivery_overflow_policy d) = true).
Proof.
  unfold binding_try_new. fold (lossless (delivery_overflow_policy d)). cbv zeta. split.
  - intros H. rust_inv.
    repeat match goal with H : ~ (_ <> _) |- _ => apply dec_stable in H end.
    split_and!; try done. intros He.
    match goal with H : _ && negb (lossless _) = false |- _ => rename H into Hl end.
    rewrite bool_decide_eq_true_2 in Hl by done. by destruct (lossless _).
  - intros (-> & H1 & H2 & H3 & H4 & H5 & H6 & H7 & H8 & H9).
    rewrite H1, H2, H3, H4, H5 in *.
    rewrite !bool_decide_ne_refl. cbn [fail_if mbind result_mbind].
    rewrite !(proj2 (N.ltb_ge _ _)) by done. cbn [fail_if mbind result_mbind].
    rewrite <-H4 in *. case_bool_decide as He; [|done]. by rewrite H9.
Qed.

(** ** Sorting *)

Lemma sort_insert_Permutation a l : sort_insert a l ≡ₚ a :: l.
Proof.
  induction l as [|b l IH]; [done|]. cbn [sort_insert]. destruct (binding_leb a b); [done|].
  rewrite IH. apply Permutation_swap.
Qed.
Lemma sort_Permutation l : sort_by_binding_id l ≡ₚ l.
Proof.
  induction l as [|a l IH]; [done|]. cbn [sort_by_binding_id foldr].
  by rewrite sort_insert_Permutation, IH.
Qed.
Abbreviation binding_sorted := (StronglySorted (fun a b => binding_leb a b = true)).
Lemma sort_insert_sorted a l : binding_sorted l -> binding_sorted (sort_insert a l).
Proof.
  induction 1 as [|b l Hl IH Hb]; cbn [sort_insert]; [by repeat constructor|].
  destruct (binding_leb a b) eqn:E.
  - constructor; [by constructor|]. constructor; [done|]. eapply Forall_impl; [exact Hb|].
    intros c Hc. by eapply bytes_leb_trans.
  - constructor; [done|]. rewrite sort_insert_Permutation. constructor; [|done].
    destruct (bytes_leb_total (vec_to_list (binding_id_bytes (binding_id a)))
      (vec_to_list (binding_id_bytes (binding_id b)))) as [H|H]; [|exact H].
    unfold binding_leb in E. congruence.
Qed.
Lemma sort_sorted l : binding_sorted (sort_by_binding_id l).
Proof. induction l; [constructor|]. by apply sort_insert_sorted. Qed.
Lemma sort_id l : binding_sorted l -> sort_by_binding_id l = l.
Proof.
  induction 1 as [|a l Hl IH Ha]; [done|]. cbn [sort_by_binding_id foldr].
  fold (sort_by_binding_id l). rewrite IH. destruct l as [|b l]; [done|].
  apply Forall_cons in Ha as [Hab _]. cbn [sort_insert]. by rewrite Hab.
Qed.
(** Lists without repeated identities have one sorted arrangement. *)
Lemma sort_Permutation_eq l k :
  NoDup (map binding_id l) -> l ≡ₚ k -> sort_by_binding_id l = sort_by_binding_id k.
Proof.
  intros Hnd Hp. pose proof (sort_sorted l) as Hl. pose proof (sort_sorted k) as Hk.
  assert (NoDup (map binding_id (sort_by_binding_id l))) as Hn by by rewrite sort_Permutation.
  assert (sort_by_binding_id l ≡ₚ sort_by_binding_id k) as Hlk by by rewrite !sort_Permutation.
  clear Hnd Hp. revert Hl Hk Hn Hlk.
  generalize (sort_by_binding_id l) (sort_by_binding_id k). clear l k.
  intros l; induction l as [|a l IH]; intros k Hl Hk Hn Hp.
  { by apply Permutation_nil_l in Hp as ->. }
  destruct k as [|b k]; [symmetry in Hp; by apply Permutation_nil_cons in Hp|].
  inversion_clear Hl as [|? ? Hl' Ha]. inversion_clear Hk as [|? ? Hk' Hb].
  assert (a = b) as <-.
  { assert (a ∈ b :: k) as Hak by (rewrite <-Hp; left).
    assert (b ∈ a :: l) as Hbl by (rewrite Hp; left).
    apply elem_of_cons in Hak as [|Hak]; [done|]. apply elem_of_cons in Hbl as [|Hbl]; [done|].
    rewrite Forall_forall in Ha, Hb. specialize (Ha _ Hbl). specialize (Hb _ Hak).
    cbn [map] in Hn. apply NoDup_cons in Hn as [Hn _]. destruct Hn.
    apply elem_of_map. exists b. split; [|done].
    pose proof (bytes_leb_antisym _ _ Ha Hb) as E. apply vec_to_list_inj2 in E.
    by destruct (binding_id a), (binding_id b); simpl in *; subst. }
  f_equal. apply IH; [done..| |by apply Permutation_cons_inv in Hp].
  cbn [map] in Hn. by apply NoDup_cons in Hn as [_ ?].
Qed.

(** ** Uniqueness *)

Definition source_endpoint (a : BindingAssignment) : InstanceRef * PortRef :=
  (source_instance a, source_port a).
Definition target_endpoint (a : BindingAssignment) : InstanceRef * PortRef :=
  (target_instance a, target_port a).
(** No two bindings share an identity, a source, a target or a mailbox. *)
Definition one_to_one (l : list BindingAssignment) : Prop :=
  NoDup (map binding_id l) /\ NoDup (map source_endpoint l) /\ NoDup (map target_endpoint l) /\
  NoDup (map mailbox_ref l).
#[export] Instance one_to_one_dec l : Decision (one_to_one l).
Proof. unfold one_to_one. apply _. Defined.
#[export] Instance one_to_one_Permutation : Proper (Permutation ==> iff) one_to_one.
Proof. intros l k H. unfold one_to_one. by rewrite H. Qed.
#[global] Typeclasses Opaque one_to_one.

Lemma check_previous_Ok a p :
  check_previous a p = Ok tt <->
  binding_id p <> binding_id a /\ source_endpoint p <> source_endpoint a /\
  target_endpoint p <> target_endpoint a /\ mailbox_ref p <> mailbox_ref a.
Proof.
  unfold check_previous, same_source, same_target, source_endpoint, target_endpoint.
  repeat case_bool_decide; cbn [andb fail_if mbind result_mbind]; split; try discriminate;
    try (intros; done); try (intros (? & ? & ? & ?); congruence); intros _; split_and!; congruence.
Qed.
Lemma check_previous_safe a p : check_previous a p <> Panic.
Proof. unfold check_previous. no_panic. Qed.
Lemma try_fold_unit_Ok {E A : Type} (f : A -> result E unit) l :
  try_fold (fun _ x => f x) tt l = Ok tt <-> Forall (fun x => f x = Ok tt) l.
Proof.
  induction l as [|x l IH]; cbn [try_fold]; [by split|]. rewrite bind_Ok, Forall_cons, <-IH.
  split; [intros ([] & ? & ?)|intros [? ?]; exists tt]; done.
Qed.
Lemma NoDup_map_snoc {A B : Type} (f : A -> B) l a :
  NoDup (map f (l ++ [a])) <-> NoDup (map f l) /\ Forall (fun p => f p <> f a) l.
Proof.
  rewrite map_app. cbn [map]. rewrite NoDup_app. split.
  - intros (Hl & Hd & _). split; [done|]. apply Forall_forall. intros p Hp He.
    apply (Hd (f p)); [apply elem_of_map; eauto|]. rewrite He. left.
  - intros [Hl Hf]. split_and!; [done| |apply NoDup_singleton]. rewrite Forall_forall in Hf.
    intros x (p & -> & Hp)%elem_of_map Hx. apply list_elem_of_singleton in Hx. by apply (Hf p).
Qed.
Lemma one_to_one_snoc l a :
  one_to_one (l ++ [a]) <-> one_to_one l /\ Forall (fun p => check_previous a p = Ok tt) l.
Proof.
  unfold one_to_one. rewrite !NoDup_map_snoc. setoid_rewrite check_previous_Ok.
  rewrite !Forall_and. tauto.
Qed.
Lemma one_to_one_app_1 l k : one_to_one (l ++ k) -> one_to_one l.
Proof.
  unfold one_to_one. rewrite !map_app. rewrite !NoDup_app. tauto.
Qed.
Lemma uniqueness_loop pre l :
  one_to_one pre ->
  try_fold (fun _ '(index, assignment) =>
    try_fold (fun _ previous => check_previous assignment previous) tt (take index (pre ++ l)))
    tt (enumerate_from (length pre) l) = Ok tt <-> one_to_one (pre ++ l).
Proof.
  revert pre; induction l as [|a l IH]; intros pre Hpre.
  { cbn [enumerate_from try_fold]. by rewrite app_nil_r. }
  cbn [enumerate_from try_fold]. rewrite take_app_length.
  specialize (IH (pre ++ [a])). rewrite length_app in IH. cbn [length] in IH.
  rewrite Nat.add_1_r, <-app_assoc in IH. cbn [app] in IH.
  rewrite bind_Ok. split.
  - intros ([] & Hc & Hrest). apply try_fold_unit_Ok in Hc. apply IH; [|done].
    by apply one_to_one_snoc.
  - intros H. assert (one_to_one (pre ++ [a])) as Ha.
    { apply (one_to_one_app_1 _ l). by rewrite <-app_assoc. }
    exists tt. split; [apply try_fold_unit_Ok; apply one_to_one_snoc in Ha; apply Ha|]. by apply IH.
Qed.
Lemma uniqueness_Ok l : ensure_assignment_uniqueness l = Ok tt <-> one_to_one l.
Proof.
  unfold ensure_assignment_uniqueness, enumerate. apply (uniqueness_loop [] l).
  unfold one_to_one. split_and!; apply NoDup_nil_2.
Qed.
Lemma uniqueness_safe l : ensure_assignment_uniqueness l <> Panic.
Proof.
  unfold ensure_assignment_uniqueness. apply try_fold_safe. intros _ [i a].
  apply try_fold_safe. intros _ p. apply check_previous_safe.
Qed.

(** ** Construction of the body *)

Section construct.
Context (sha256 : list byte -> bytes32).

(** The bytes hashed for an assignment body. *)
Definition assignments_preimage (wire : list byte) : list byte :=
  preimage TARGET_ASSIGNMENTS_DIGEST_DOMAIN [wire].
Lemma assignments_buildable wire :
  (len wire <= u64_max)%N -> buildable TARGET_ASSIGNMENTS_DIGEST_DOMAIN [wire].
Proof.
  intros Hl. unfold buildable.
  split_and!; [done|vm_compute; congruence|by repeat constructor|vm_compute; congruence].
Qed.
Lemma digest_target_assignments_eq wire :
  (len wire <= u64_max)%N ->
  digest_target_assignments sha256 wire =
  Ok (MkTargetAssignmentDigest (MkDigest32 (sha256 (assignments_preimage wire)))).
Proof.
  intros Hl. destruct (buildable_finish sha256 _ _ (assignments_buildable wire Hl)) as (b & H & Hf).
  unfold digest_target_assignments, assignments_preimage. rewrite <-Hf. clear Hf.
  unfold build in H. cbn [try_fold] in H. rust_inv. run_known. done.
Qed.

(** One encoded record. *)
Definition endpoint_bytes (i : InstanceRef) (p : PortRef) (s : PortSpec) : list byte :=
  append_endpoint [] i p s.
Definition record_bytes (b : BindingAssignment) : list byte := append_assignment_record [] b.
Lemma append_record_app encoded b : append_assignment_record encoded b = encoded ++ record_bytes b.
Proof.
  unfold record_bytes, append_assignment_record, append_endpoint. cbv zeta.
  rewrite <-!app_assoc. reflexivity.
Qed.
Lemma len_record_bytes b : len (record_bytes b) = 256%N.
Proof.
  unfold record_bytes, append_assignment_record, append_endpoint. cbv zeta.
  rewrite !len_app, !len_vec, !len_be_bytes. reflexivity.
Qed.
Lemma fold_records encoded l :
  fold_left append_assignment_record l encoded = encoded ++ concat (map record_bytes l).
Proof.
  revert encoded; induction l as [|b l IH]; intros encoded; cbn [fold_left map concat];
    [by rewrite app_nil_r|]. by rewrite IH, append_record_app, <-app_assoc.
Qed.
Lemma len_records l : len (concat (map record_bytes l)) = (256 * len l)%N.
Proof.
  induction l as [|b l IH]; [done|]. cbn [map concat]. rewrite len_app, len_record_bytes, len_cons, IH.
  lia.
Qed.
Lemma build_wire_app l :
  (len l <= MAX_TARGET_ASSIGNMENTS)%N ->
  build_target_assignments_wire l =
  TARGET_ASSIGNMENTS_MAGIC ++ be_bytes 2 1 ++ be_bytes 4 (len l) ++ concat (map record_bytes l).
Proof.
  unfold MAX_TARGET_ASSIGNMENTS. intros Hl. unfold build_target_assignments_wire.
  rewrite fold_records, N.mod_small, <-!app_assoc by lia. reflexivity.
Qed.
Lemma len_build_wire l :
  (len l <= MAX_TARGET_ASSIGNMENTS)%N ->
  len (build_target_assignments_wire l) = (10 + 256 * len l)%N.
Proof.
  intros Hl. rewrite build_wire_app, !len_app, !len_be_bytes, len_records by done.
  change (len TARGET_ASSIGNMENTS_MAGIC) with 4%N. lia.
Qed.

(** Construction succeeds exactly on at most 256 one-to-one bindings. *)
Lemma target_assignments_try_new_Ok l ta :
  target_assignments_try_new sha256 l = Ok ta <->
  (len l <= MAX_TARGET_ASSIGNMENTS)%N /\ one_to_one l /\
  assignments ta = sort_by_binding_id l /\
  ta_canonical_wire ta = build_target_assignments_wire (assignments ta) /\
  ta_assignment_digest ta =
    MkTargetAssignmentDigest (MkDigest32 (sha256 (assignments_preimage (ta_canonical_wire ta)))).
Proof.
  unfold target_assignments_try_new. destruct (N.ltb_spec MAX_TARGET_ASSIGNMENTS (len l)) as [Hl|Hl].
  { split; [done|lia]. }
  cbn [fail_if mbind result_mbind].
  assert (len (sort_by_binding_id l) = len l) as Hs by by rewrite (sort_Permutation l).
  assert (one_to_one (sort_by_binding_id l) <-> one_to_one l) as Hu by by rewrite sort_Permutation.
  rewrite digest_target_assignments_eq; last first.
  { rewrite len_build_wire by (by rewrite Hs). unfold MAX_TARGET_ASSIGNMENTS, u64_max in *. lia. }
  cbn [map_err mbind result_mbind]. rewrite bind_Ok. destruct ta as [l' w d]; cbn.
  split.
  - intros ([] & H & E). apply uniqueness_Ok, Hu in H. injection E as <- <- <-. done.
  - intros (_ & H & -> & -> & ->). exists tt. split; [by apply uniqueness_Ok, Hu|done].
Qed.
Lemma target_assignments_try_new_safe l : target_assignments_try_new sha256 l <> Panic.
Proof.
  unfold target_assignments_try_new, digest_target_assignments.
  pose proof (uniqueness_safe (sort_by_binding_id l)). no_panic.
Qed.
Lemma target_assignments_validate_Ok ta u :
  target_assignments_validate sha256 ta = Ok u <->
  target_assignments_try_new sha256 (assignments ta) = Ok ta.
Proof.
  unfold target_assignments_validate. destruct u. split.
  - intros H. rust_inv. repeat match goal with H : ~ (_ <> _) |- _ => apply dec_stable in H end.
    match goal with H : target_assignments_try_new _ _ = Ok ?x |- _ => destruct x, ta end.
    simpl in *. subst. done.
  - intros H. run_known. done.
Qed.
Lemma target_assignments_validate_safe ta : target_assignments_validate sha256 ta <> Panic.
Proof.
  unfold target_assignments_validate. pose proof (target_assignments_try_new_safe (assignments ta)).
  no_panic.
Qed.
(** What [try_new] builds validates. *)
Lemma target_assignments_try_new_valid l ta :
  target_assignments_try_new sha256 l = Ok ta -> target_assignments_validate sha256 ta = Ok tt.
Proof.
  intros (Hl & Hu & Hs & Hw & Hd)%target_assignments_try_new_Ok.
  apply target_assignments_validate_Ok, target_assignments_try_new_Ok. rewrite Hs.
  split_and!; [by rewrite (sort_Permutation l)|by rewrite sort_Permutation| |by rewrite Hw, Hs|done].
  symmetry. apply sort_id, sort_sorted.
Qed.
End construct.

(** ** The record cursor *)

(** The cursor stands before [rest]. *)
Definition reads (c : RecordCursor) (rest : list byte) : Prop :=
  exists pre, c = MkRecordCursor (pre ++ rest) (len pre) /\ (len (pre ++ rest) <= u64_max)%N.

Lemma cursor_array_reads n (v : vec byte n) rest c :
  reads c (vec_to_list v ++ rest) -> exists c', cursor_array n c = (c', Ok v) /\ reads c' rest.
Proof.
  intros (pre & -> & Hl). unfold cursor_array. cbn [cursor_offset cursor_record].
  rewrite !len_app, len_vec in Hl. rewrite checked_add_ok by lia.
  rewrite (slice_at _ pre (vec_to_list v) rest) by (rewrite ?len_vec; done).
  cbn [mbind result_mbind]. rewrite array_of_vec.
  eexists. split; [done|]. exists (pre ++ vec_to_list v). rewrite <-app_assoc, !len_app, len_vec.
  split; [done|]. lia.
Qed.
Lemma of_be_bytes_single b : of_be_bytes [b] = Byte.to_N b.
Proof. unfold of_be_bytes. simpl. lia. Qed.
Lemma cursor_u8_reads v rest c :
  (v < 256)%N -> reads c (be_bytes 1 v ++ rest) ->
  exists c', cursor_u8 c = (c', Ok v) /\ reads c' rest.
Proof.
  intros Hv (pre & -> & Hl). unfold cursor_u8. cbn [cursor_offset cursor_record].
  pose proof (length_be_bytes 1 v) as Hlen.
  pose proof (of_be_bytes_be_bytes 1 v ltac:(simpl N.of_nat; lia)) as Hof.
  destruct (be_bytes 1 v) as [|b [|? ?]]; try discriminate Hlen. rewrite of_be_bytes_single in Hof.
  unfold len. rewrite Nat2N.id. cbn [app]. rewrite list_lookup_middle by done. rewrite Hof.
  eexists. split; [done|]. exists (pre ++ [b]). rewrite <-app_assoc. split; [|done].
  f_equal. unfold len. rewrite length_app. simpl. lia.
Qed.
Lemma cursor_be_reads n (v : N) rest c :
  (v < 256 ^ N.of_nat n)%N -> reads c (be_bytes n v ++ rest) ->
  exists c', (value ← cursor_array n; mret (of_be_bytes (vec_to_list value)) : Cursor N) c = (c', Ok v)
             /\ reads c' rest.
Proof.
  intros Hv Hr. destruct (array_of_be (E:=WireError) n v) as (a & _ & Ha). rewrite <-Ha in Hr.
  apply cursor_array_reads in Hr as (c' & Hc & Hr'). exists c'. split; [|done].
  rewrite run_bind, Hc, Ha, of_be_bytes_be_bytes by done. done.
Qed.
Lemma cursor_u32_reads v rest c :
  (v <= u32_max)%N -> reads c (be_bytes 4 v ++ rest) ->
  exists c', cursor_u32 c = (c', Ok v) /\ reads c' rest.
Proof. unfold u32_max. intros Hv. apply cursor_be_reads. simpl N.of_nat. lia. Qed.
Lemma cursor_u64_reads v rest c :
  (v <= u64_max)%N -> reads c (be_bytes 8 v ++ rest) ->
  exists c', cursor_u64 c = (c', Ok v) /\ reads c' rest.
Proof. unfold u64_max. intros Hv. apply cursor_be_reads. simpl N.of_nat. lia. Qed.

(** Runs the first read of the goal. *)
Ltac cursor_run Hr :=
  let Hc := fresh "Hc" in
  destruct Hr as (? & Hc & Hr); rewrite run_bind, Hc; clear Hc; cbv beta iota.
Ltac cursor_step :=
  match goal with
  | Hr : reads ?c (vec_to_list ?v ++ _) |- context [(cursor_array ?n ≫= _) ?c] =>
      apply cursor_array_reads in Hr; cursor_run Hr
  | Hr : reads ?c (be_bytes 1 ?v ++ _) |- context [(cursor_u8 ≫= _) ?c] =>
      apply cursor_u8_reads in Hr; [cursor_run Hr|lia]
  | Hr : reads ?c (be_bytes 4 ?v ++ _) |- context [(cursor_u32 ≫= _) ?c] =>
      apply cursor_u32_reads in Hr; [cursor_run Hr|lia]
  | Hr : reads ?c (be_bytes 8 ?v ++ _) |- context [(cursor_u64 ≫= _) ?c] =>
      apply cursor_u64_reads in Hr; [cursor_run Hr|lia]
  end.

Lemma direction_u8_decode d i : (direction_u8 d < 256)%N /\ decode_direction (direction_u8 d) i = Ok d.
Proof. by destruct d. Qed.
Lemma interaction_u8_decode d i :
  (interaction_u8 d < 256)%N /\ decode_interaction (interaction_u8 d) i = Ok d.
Proof. by destruct d. Qed.
Lemma cardinality_u8_decode d i :
  (cardinality_u8 d < 256)%N /\ decode_cardinality (cardinality_u8 d) i = Ok d.
Proof. by destruct d. Qed.
Lemma overflow_u8_decode d i : (overflow_u8 d < 256)%N /\ decode_overflow (overflow_u8 d) i = Ok d.
Proof. by destruct d. Qed.

Lemma run_lift_bind {S E A B : Type} (r : result E A) (k : A -> M S E B) s a :
  r = Ok a -> (lift r ≫= k) s = k a s.
Proof. by intros ->. Qed.

Lemma decode_endpoint_reads index i p s rest c :
  schema_wf (port_schema s) -> reads c (endpoint_bytes i p s ++ rest) ->
  exists c', decode_endpoint index c = (c', Ok (MkPortEndpoint i p s)) /\ reads c' rest.
Proof.
  unfold schema_wf. intros Hs Hr. unfold endpoint_bytes, append_endpoint in Hr. cbn [app] in Hr.
  rewrite <-!app_assoc in Hr.
  destruct (direction_u8_decode (port_direction s) index) as [Hd Ed].
  destruct (interaction_u8_decode (port_interaction s) index) as [Hi Ei].
  destruct (cardinality_u8_decode (port_cardinality s) index) as [Hc Ec].
  unfold decode_endpoint. do 3 cursor_step. rewrite (run_lift_bind _ _ _ _ Ed). do 3 cursor_step.
  erewrite run_lift_bind by (apply map_err_Ok, schema_ref_try_new_Ok; split; [reflexivity|lia]).
  cursor_step. rewrite (run_lift_bind _ _ _ _ Ei). cursor_step. rewrite (run_lift_bind _ _ _ _ Ec).
  eexists. split; [|done]. destruct i, p, s as [d [si sv [sd]] ik pc]. reflexivity.
Qed.

(** Reading an encoded record returns the binding. *)
Lemma decode_record_bytes index b :
  assignment_wf b -> decode_assignment_record (record_bytes b) index = Ok b.
Proof.
  intros (H1 & H2 & H3 & H4 & H5 & H6 & H7 & H8 & H9 & Hs & Hd & Hm).
  assert (reads (MkRecordCursor (record_bytes b) 0) (record_bytes b ++ [])) as Hr.
  { exists []. rewrite app_nil_r. split; [done|]. cbn [app]. rewrite len_record_bytes.
    unfold u64_max; lia. }
  assert (record_bytes b ++ [] =
    vec_to_list (binding_id_bytes (binding_id b))
    ++ endpoint_bytes (source_instance b) (source_port b) (source_spec b)
    ++ endpoint_bytes (target_instance b) (target_port b) (target_spec b)
    ++ vec_to_list (mailbox_ref_bytes (mailbox_ref b))
    ++ be_bytes 8 (max_payload_bytes (delivery b))
    ++ be_bytes 8 (duration_value (max_message_age (delivery b)))
    ++ be_bytes 1 (overflow_u8 (delivery_overflow_policy (delivery b)))
    ++ be_bytes 4 (capacity_items (binding_mailbox_spec b))
    ++ be_bytes 8 (capacity_bytes (binding_mailbox_spec b))
    ++ be_bytes 8 (duration_value (max_queue_age (binding_mailbox_spec b)))
    ++ be_bytes 4 (max_inflight (binding_mailbox_spec b))
    ++ be_bytes 8 (max_retained_bytes (binding_mailbox_spec b))
    ++ be_bytes 1 (overflow_u8 (overflow_policy (binding_mailbox_spec b))) ++ []) as Hb.
  { unfold record_bytes, append_assignment_record, endpoint_bytes, append_endpoint. cbv zeta.
    rewrite <-!app_assoc. reflexivity. }
  rewrite Hb in Hr. clear Hb. unfold delivery_wf, mailbox_spec_wf in *.
  destruct (overflow_u8_decode (delivery_overflow_policy (delivery b)) index) as [Ho Eo].
  destruct (overflow_u8_decode (overflow_policy (binding_mailbox_spec b)) index) as [Hq Eq].
  unfold decode_assignment_record, decode_record. cursor_step.
  apply (decode_endpoint_reads index) in Hr as (c1 & Hc & Hr); [|done]. rewrite run_bind, Hc. clear Hc. cbv beta iota.
  apply (decode_endpoint_reads index) in Hr as (c2 & Hc & Hr); [|by rewrite <-H3].
  rewrite run_bind, Hc. clear Hc. cbv beta iota. do 4 cursor_step. rewrite (run_lift_bind _ _ _ _ Eo).
  do 6 cursor_step. rewrite (run_lift_bind _ _ _ _ Eq).
  erewrite run_lift_bind
    by (apply map_err_Ok, delivery_profile_try_new_Ok; split; [reflexivity|cbn; lia]).
  erewrite run_lift_bind
    by (apply map_err_Ok, mailbox_spec_try_new_Ok; split; [reflexivity|cbn; lia]).
  cbn [lift snd]. apply map_err_Ok, binding_try_new_Ok. cbn. split_and!; try done.
  destruct b as [[] ? ? ? ? ? ? [] [? [] ?] [? ? [] ? ? ?]]. reflexivity.
Qed.

(** ** Records of a frame *)

Lemma chunks_exact_records count l :
  length l <= count -> chunks_exact count 256 (concat (map record_bytes l)) = map record_bytes l.
Proof.
  assert (forall b, length (record_bytes b) = 256) as Hlen.
  { intros b. pose proof (len_record_bytes b) as H. unfold len in H. lia. }
  revert l; induction count as [|count IH]; intros [|b l] Hc; cbn [length] in Hc; try lia;
    cbn [chunks_exact map concat]; [done..|].
  rewrite length_app, (Hlen b). destruct (Nat.ltb_spec (256 + length (concat (map record_bytes l))) 256);
    [lia|].
  rewrite <-(Hlen b), take_app_length, drop_app_length, (Hlen b), IH by lia. done.
Qed.
Lemma decode_records_map index l :
  Forall assignment_wf l -> decode_records index (map record_bytes l) = Ok l.
Proof.
  intros Hl. revert index; induction Hl as [|b l Hb Hl IH]; intros index; cbn [map decode_records]; [done|].
  rewrite decode_record_bytes by done. cbn [mbind result_mbind]. by rewrite IH.
Qed.

(** [n] bytes are read, whatever they are, without leaving the record. *)
Definition safe_reads {A : Type} (n : N) (m : Cursor A) : Prop :=
  forall record offset, (offset + n <= len record)%N -> (len record <= u64_max)%N ->
  match m (MkRecordCursor record offset) with
  | (c, Ok _) => c = MkRecordCursor record (offset + n)
  | (_, Err _) => True
  | (_, Panic) => False
  end.
Lemma safe_reads_bind {A B : Type} n k (m : Cursor A) (f : A -> Cursor B) :
  safe_reads n m -> (forall a, safe_reads k (f a)) -> safe_reads (n + k) (m ≫= f).
Proof.
  intros Hm Hf record offset Ho Hl. rewrite run_bind. specialize (Hm record offset ltac:(lia) Hl).
  destruct (m _) as [c [a|e|]]; [|done..]. subst c. specialize (Hf a record (offset + n)%N ltac:(lia) Hl).
  destruct (f a _) as [c [b|e|]]; [|done..]. rewrite Hf. f_equal. lia.
Qed.
Lemma safe_reads_lift {A : Type} (r : result AssignmentWireError A) :
  r <> Panic -> safe_reads 0 (lift r).
Proof. intros Hr record offset Ho Hl. destruct r; [|done..]. cbn. by rewrite N.add_0_r. Qed.
Lemma safe_reads_array n : safe_reads (N.of_nat n) (cursor_array n).
Proof.
  intros record offset Ho Hl. unfold cursor_array. cbn [cursor_offset cursor_record].
  rewrite checked_add_ok by lia.
  destruct (slice_range_total (E:=AssignmentWireError) record offset (offset + N.of_nat n))
    as [v Hv]; [lia..|].
  rewrite Hv. apply slice_range_len in Hv. cbn [mbind result_mbind].
  destruct (array_of_total (E:=AssignmentWireError) n v) as [a ->]; [lia|done].
Qed.
Lemma safe_reads_u8 : safe_reads 1 cursor_u8.
Proof.
  intros record offset Ho Hl. unfold cursor_u8. cbn [cursor_offset cursor_record].
  destruct (lookup_lt_is_Some_2 record (N.to_nat offset)) as [b ->]; [unfold len in *; lia|done].
Qed.
Lemma safe_reads_u32 : safe_reads 4 cursor_u32.
Proof.
  change 4%N with (N.of_nat 4 + 0)%N. apply safe_reads_bind; [apply safe_reads_array|].
  intros v. by apply (safe_reads_lift (Ok _)).
Qed.
Lemma safe_reads_u64 : safe_reads 8 cursor_u64.
Proof.
  change 8%N with (N.of_nat 8 + 0)%N. apply safe_reads_bind; [apply safe_reads_array|].
  intros v. by apply (safe_reads_lift (Ok _)).
Qed.
Lemma decode_enum_safe v i :
  decode_direction v i <> Panic /\ decode_interaction v i <> Panic /\
  decode_cardinality v i <> Panic /\ decode_overflow v i <> Panic.
Proof.
  unfold decode_direction, decode_interaction, decode_cardinality, decode_overflow.
  split_and!; by repeat case_match.
Qed.
Lemma safe_reads_eq {A : Type} n k (m : Cursor A) : safe_reads n m -> n = k -> safe_reads k m.
Proof. by intros ? ->. Qed.

(** Composes the bounds of a reading program. *)
Ltac solve_safe_reads :=
  eapply safe_reads_eq;
  [ repeat first
      [ apply safe_reads_array | apply safe_reads_u8 | apply safe_reads_u32 | apply safe_reads_u64
      | apply safe_reads_bind; [|intros ?]
      | apply safe_reads_lift; [apply decode_enum_safe]
      | apply (safe_reads_lift (Ok _)); done
      | apply safe_reads_lift, no_panic_map_err ]
  | ].
Lemma safe_reads_endpoint index : safe_reads 87 (decode_endpoint index).
Proof.
  unfold decode_endpoint, schema_ref_try_new. solve_safe_reads; [|reflexivity]. no_panic.
Qed.
Lemma safe_reads_record index : safe_reads 256 (decode_record index).
Proof.
  unfold decode_record, delivery_profile_try_new, mailbox_spec_try_new, binding_try_new.
  eapply safe_reads_eq; [|].
  { do 3 (apply safe_reads_bind; [first [apply safe_reads_array|apply safe_reads_endpoint]|intros ?]).
    solve_safe_reads; [no_panic..|reflexivity]. }
  reflexivity.
Qed.
Lemma decode_assignment_record_safe record index :
  len record = 256%N -> decode_assignment_record record index <> Panic.
Proof.
  intros Hl. pose proof (safe_reads_record index record 0%N) as H. unfold decode_assignment_record.
  destruct (decode_record index _) as [c [a|e|]]; [done..|]. destruct H; [lia|].
  rewrite Hl. unfold u64_max. lia.
Qed.
Lemma chunks_exact_len count n l : Forall (fun c => length c = n) (chunks_exact count n l).
Proof.
  revert l; induction count as [|count IH]; intros l; cbn [chunks_exact]; [constructor|].
  destruct (Nat.ltb_spec (length l) n); constructor; [|apply IH].
  rewrite length_take. lia.
Qed.
Lemma decode_records_safe index records :
  Forall (fun c => length c = 256) records -> decode_records index records <> Panic.
Proof.
  intros H. revert index; induction H as [|c records Hc H IH]; intros index; cbn [decode_records]; [done|].
  apply no_panic_bind; [apply decode_assignment_record_safe; unfold len; lia|intros ? _].
  apply no_panic_bind; [apply IH|]. done.
Qed.

(** ** Decoded bindings are well formed *)

Lemma run_bind_Ok {S E A B : Type} (m : M S E A) (k : A -> M S E B) s s' b :
  (m ≫= k) s = (s', Ok b) -> exists s1 a, m s = (s1, Ok a) /\ k a s1 = (s', Ok b).
Proof. rewrite run_bind. destruct (m s) as [s1 [a|e|]]; naive_solver. Qed.
Lemma cursor_u32_bound c c' v : cursor_u32 c = (c', Ok v) -> (v <= u32_max)%N.
Proof.
  intros (c1 & a & _ & [= _ <-])%run_bind_Ok. pose proof (of_be_bytes_bound (vec_to_list a)) as H.
  rewrite length_vec_to_list in H. unfold u32_max. simpl N.of_nat in H. lia.
Qed.
Lemma cursor_u64_bound c c' v : cursor_u64 c = (c', Ok v) -> (v <= u64_max)%N.
Proof.
  intros (c1 & a & _ & [= _ <-])%run_bind_Ok. pose proof (of_be_bytes_bound (vec_to_list a)) as H.
  rewrite length_vec_to_list in H. unfold u64_max. simpl N.of_nat in H. lia.
Qed.
Ltac cursor_inv :=
  repeat match goal with
  | H : (cursor_u32 ≫= _) _ = (_, Ok _) |- _ =>
      apply run_bind_Ok in H; destruct H as (? & ? & ?%cursor_u32_bound & H)
  | H : (cursor_u64 ≫= _) _ = (_, Ok _) |- _ =>
      apply run_bind_Ok in H; destruct H as (? & ? & ?%cursor_u64_bound & H)
  | H : (_ ≫= _) _ = (_, Ok _) |- _ => apply run_bind_Ok in H; destruct H as (? & ? & ? & H)
  | H : lift _ _ = (_, Ok _) |- _ => unfold lift in H; injection H as <- H
  end.
Lemma decode_endpoint_wf index c c' e :
  decode_endpoint index c = (c', Ok e) -> schema_wf (port_schema (endpoint_spec e)).
Proof.
  unfold decode_endpoint. intros H. cursor_inv. rust_inv.
  match goal with H : schema_ref_try_new _ _ _ = Ok _ |- _ =>
    apply schema_ref_try_new_Ok in H as [-> ?] end.
  injection H as <- <-. done.
Qed.
Lemma decode_assignment_record_wf record index b :
  decode_assignment_record record index = Ok b -> assignment_wf b.
Proof.
  unfold decode_assignment_record. destruct (decode_record _ _) as [c r] eqn:H. cbn [snd]. intros ->.
  unfold decode_record in H. cursor_inv.
  repeat match goal with H : decode_endpoint _ _ = (_, Ok _) |- _ => apply decode_endpoint_wf in H end.
  rust_inv.
  repeat match goal with
  | H : delivery_profile_try_new _ _ _ = Ok _ |- _ => apply delivery_profile_try_new_Ok in H as (-> & ? & ?)
  | H : mailbox_spec_try_new _ _ _ _ _ _ = Ok _ |- _ =>
      apply mailbox_spec_try_new_Ok in H as (-> & ? & ? & ? & ? & ?)
  | H : binding_try_new _ _ _ _ _ _ = Ok _ |- _ => apply binding_try_new_Ok in H as (-> & ? & H)
  end.
  unfold assignment_wf, delivery_wf, mailbox_spec_wf. cbn in *. tauto.
Qed.
Lemma decode_records_wf index records l :
  decode_records index records = Ok l -> Forall assignment_wf l.
Proof.
  revert index l; induction records as [|c records IH]; intros index l H; cbn [decode_records] in H.
  - apply Ok_inj in H as <-. constructor.
  - rust_inv. constructor; [by eapply decode_assignment_record_wf|by eapply IH].
Qed.

(** ** The body decoder against the encoder *)

Section exact.
Context (sha256 : list byte -> bytes32).

Lemma decode_target_assignments_wf frame ta :
  decode_target_assignments sha256 frame = Ok ta ->
  Forall assignment_wf (assignments ta) /\ target_assignments_validate sha256 ta = Ok tt /\
  ta_canonical_wire ta = frame.
Proof.
  unfold decode_target_assignments. intros H. rust_inv.
  repeat match goal with H : ~ (_ <> _) |- _ => apply dec_stable in H end.
  match goal with H : decode_records _ _ = Ok _ |- _ => apply decode_records_wf in H end.
  match goal with H : target_assignments_try_new _ _ = Ok _ |- _ => rename H into Ht end.
  split_and!; [|by eapply target_assignments_try_new_valid|done].
  apply target_assignments_try_new_Ok in Ht as (_ & _ & -> & _). by rewrite sort_Permutation.
Qed.

Lemma decode_target_assignments_wire ta :
  Forall assignment_wf (assignments ta) -> target_assignments_validate sha256 ta = Ok tt ->
  decode_target_assignments sha256 (ta_canonical_wire ta) = Ok ta.
Proof.
  intros Hwf Hv%target_assignments_validate_Ok.
  pose proof Hv as (Hn & _ & _ & Hw & _)%target_assignments_try_new_Ok.
  set (l := assignments ta) in *. set (frame := ta_canonical_wire ta) in *.
  pose proof (len_build_wire l Hn) as Hlen. rewrite <-Hw in Hlen.
  rewrite (build_wire_app l Hn) in Hw.
  unfold decode_target_assignments, MAX_TARGET_ASSIGNMENTS_BYTES, TARGET_ASSIGNMENTS_HEADER_BYTES,
    TARGET_ASSIGNMENT_RECORD_BYTES, MAX_TARGET_ASSIGNMENTS in *.
  change (len TARGET_ASSIGNMENTS_MAGIC) with 4%N.
  rewrite (proj2 (N.ltb_ge _ (len frame))) by lia. cbn [fail_if mbind result_mbind].
  rewrite (proj2 (N.ltb_ge (len frame) _)) by lia. cbn [fail_if mbind result_mbind].
  rewrite (slice_at frame [] TARGET_ASSIGNMENTS_MAGIC _ 0 4 Hw) by reflexivity.
  cbn [mbind result_mbind]. rewrite bool_decide_ne_refl. cbn [fail_if mbind result_mbind].
  rewrite (slice_at frame TARGET_ASSIGNMENTS_MAGIC (be_bytes 2 1) _ 4 6 Hw)
    by (rewrite ?len_be_bytes; reflexivity).
  cbn [mbind result_mbind]. rewrite read_u16_exact by (unfold u16_max; lia).
  cbn [mbind result_mbind]. change (negb (1 =? TARGET_ASSIGNMENTS_VERSION)%N) with false.
  cbn [fail_if mbind result_mbind].
  rewrite (slice_at frame (TARGET_ASSIGNMENTS_MAGIC ++ be_bytes 2 1) (be_bytes 4 (len l))
             (concat (map record_bytes l)) 6 10)
    by (rewrite <-?app_assoc, ?len_app, ?len_be_bytes; done || reflexivity).
  cbn [mbind result_mbind]. rewrite read_u32_exact by (unfold u32_max; lia).
  cbn [mbind result_mbind]. rewrite (proj2 (N.ltb_ge _ (len l))) by lia.
  cbn [fail_if mbind result_mbind].
  rewrite (proj2 (checked_mul_Some u64_max (len l) 256 (len l * 256)))
    by (unfold u64_max; lia). cbn [ok_or mbind result_mbind].
  rewrite checked_add_ok by (unfold u64_max; lia). cbn [ok_or mbind result_mbind].
  rewrite (proj2 (N.ltb_ge (len frame) _)) by lia. cbn [fail_if mbind result_mbind].
  replace (10 + len l * 256)%N with (len frame) by lia. rewrite N.eqb_refl.
  cbn [negb fail_if mbind result_mbind].
  rewrite (slice_at frame (TARGET_ASSIGNMENTS_MAGIC ++ be_bytes 2 1 ++ be_bytes 4 (len l))
             (concat (map record_bytes l)) [] 10 (len frame));
    [|rewrite <-!app_assoc, app_nil_r; done|rewrite !len_app, !len_be_bytes; reflexivity
     |rewrite len_records; lia].
  cbn [mbind result_mbind]. change (N.to_nat 256) with 256. rewrite chunks_exact_records; last first.
  { pose proof (len_records l). unfold len in *. lia. }
  rewrite decode_records_map by done. cbn [mbind result_mbind]. run_known. done.
Qed.

Lemma decode_target_assignments_safe frame : decode_target_assignments sha256 frame <> Panic.
Proof.
  unfold decode_target_assignments, TARGET_ASSIGNMENTS_HEADER_BYTES.
  change (len TARGET_ASSIGNMENTS_MAGIC) with 4%N.
  destruct (N.ltb_spec MAX_TARGET_ASSIGNMENTS_BYTES (len frame)); [done|].
  destruct (N.ltb_spec (len frame) 10); [done|]. cbn [fail_if mbind result_mbind].
  destruct (slice_range_total (E:=AssignmentWireError) frame 0 4) as [m ->]; [lia..|].
  cbn [mbind result_mbind]. case_bool_decide; [done|]. cbn [fail_if mbind result_mbind].
  destruct (slice_range_total (E:=AssignmentWireError) frame 4 6) as [vb Hvb]; [lia..|].
  rewrite Hvb. apply slice_range_len in Hvb. cbn [mbind result_mbind].
  destruct (read_u16_total (E:=AssignmentWireError) vb) as (v & -> & _); [lia|].
  cbn [mbind result_mbind]. apply no_panic_bind; [auto with no_panic|intros _ _].
  destruct (slice_range_total (E:=AssignmentWireError) frame 6 10) as [cb Hcb]; [lia..|].
  rewrite Hcb. apply slice_range_len in Hcb. cbn [mbind result_mbind].
  destruct (read_u32_total (E:=AssignmentWireError) cb) as (n & -> & _); [lia|].
  cbn [mbind result_mbind]. do 5 (apply no_panic_bind; [auto with no_panic|intros ? _]).
  destruct (slice_range_total (E:=AssignmentWireError) frame 10 (len frame)) as [r ->]; [lia..|].
  cbn [mbind result_mbind].
  apply no_panic_bind; [apply decode_records_safe, chunks_exact_len|intros l _].
  pose proof (target_assignments_try_new_safe sha256 l). no_panic.
Qed.

(** ** Complete requests *)

Lemma plan_slice_try_new_Ok c ta p :
  plan_slice_try_new sha256 c ta = Ok p <->
  p = MkRuntimePlanSlice c ta /\ plan_slice_validate sha256 p = Ok tt.
Proof.
  unfold plan_slice_try_new, plan_slice_validate. split.
  - intros H. rust_inv. split; [done|]. cbn [plan_commitment plan_assignments].
    match goal with H : ~ (_ <> _) |- _ => apply dec_stable in H; rewrite H end. run_known. done.
  - intros [-> H]. cbn [plan_commitment plan_assignments] in H. rust_inv.
    match goal with H : ~ (_ <> _) |- _ => apply dec_stable in H; rewrite H end. run_known. done.
Qed.
Lemma plan_slice_validate_Ok p u :
  plan_slice_validate sha256 p = Ok u <->
  slice_commitment_validate sha256 (plan_commitment p) = Ok tt /\
  target_assignments_validate sha256 (plan_assignments p) = Ok tt /\
  assignment_digest (header (plan_commitment p)) = ta_assignment_digest (plan_assignments p).
Proof.
  unfold plan_slice_validate. destruct u. split.
  - intros H. rust_inv. repeat match goal with x : unit |- _ => destruct x end.
    match goal with H : ~ (_ <> _) |- _ => apply dec_stable in H end. done.
  - intros (H1 & H2 & H3). rewrite H3. run_known. done.
Qed.
Lemma apply_request_try_new_Ok e p r :
  apply_request_try_new sha256 e p = Ok r <->
  e = request_envelope r /\ p = request_slice r /\ apply_request_validate sha256 r = Ok tt /\
  (len (request_canonical_wire r) <= MAX_RUNTIME_APPLY_REQUEST_BYTES)%N.
Proof.
  unfold apply_request_try_new, apply_request_validate. destruct r as [e' p' w]. split.
  - intros H. rust_inv. cbn [request_envelope request_slice request_canonical_wire].
    match goal with H : ~ (_ <> _) |- _ => apply dec_stable in H; rewrite H end. run_known.
    done.
  - cbn [request_envelope request_slice request_canonical_wire]. intros (-> & -> & H & Hl). rust_inv.
    repeat match goal with H : ~ (_ <> _) |- _ => apply dec_stable in H end. subst. run_known.
    match goal with H : slice _ = _ |- _ => rewrite H end. rewrite bool_decide_ne_refl.
    cbn [fail_if mbind result_mbind]. by rewrite (proj2 (N.ltb_ge _ _)).
Qed.
End exact.

(** The guards of the constructors, for both parts of a request. *)
Definition request_wf (r : RuntimeApplyRequest) : Prop :=
  envelope_wf (request_envelope r) /\
  Forall assignment_wf (assignments (plan_assignments (request_slice r))).
#[export] Instance request_wf_dec r : Decision (request_wf r).
Proof. unfold request_wf. apply _. Defined.
#[global] Typeclasses Opaque request_wf.

Section request.
Context (sha256 : list byte -> bytes32).

Lemma apply_request_validate_Ok r u :
  apply_request_validate sha256 r = Ok u <->
  envelope_validate sha256 (request_envelope r) = Ok tt /\
  plan_slice_validate sha256 (request_slice r) = Ok tt /\
  slice (env_control_commitment (request_envelope r)) = plan_commitment (request_slice r) /\
  request_canonical_wire r =
    build_runtime_apply_request_wire (request_envelope r) (request_slice r).
Proof.
  unfold apply_request_validate. destruct u. split.
  - intros H. rust_inv. repeat match goal with x : unit |- _ => destruct x end.
    repeat match goal with H : ~ (_ <> _) |- _ => apply dec_stable in H end. done.
  - intros (H1 & H2 & H3 & H4). rewrite H3, H4. run_known. done.
Qed.

(** The parts of a valid request fit their frames. *)
Lemma request_parts_bound r :
  request_wf r -> apply_request_validate sha256 r = Ok tt ->
  (len (env_canonical_wire (request_envelope r)) <= MAX_RUNTIME_APPLY_ENVELOPE_BYTES)%N /\
  (len (ta_canonical_wire (plan_assignments (request_slice r))) <= MAX_TARGET_ASSIGNMENTS_BYTES)%N.
Proof.
  intros [He _] (Hv & Hp & _ & _)%apply_request_validate_Ok. split.
  - rewrite (envelope_wire_eq sha256 _ He Hv). destruct He as (? & _ & ? & ?).
    by apply apply_frame_bound.
  - apply plan_slice_validate_Ok in Hp as (_ & Ht & _).
    apply target_assignments_validate_Ok, target_assignments_try_new_Ok in Ht as (Hn & _ & _ & Hw & _).
    rewrite Hw, len_build_wire by done.
    unfold MAX_TARGET_ASSIGNMENTS_BYTES, TARGET_ASSIGNMENTS_HEADER_BYTES, MAX_TARGET_ASSIGNMENTS,
      TARGET_ASSIGNMENT_RECORD_BYTES in *. lia.
Qed.

Lemma request_wire_app e p :
  (len (env_canonical_wire e) <= u32_max)%N ->
  (len (ta_canonical_wire (plan_assignments p)) <= u32_max)%N ->
  build_runtime_apply_request_wire e p =
  RUNTIME_APPLY_REQUEST_MAGIC ++ be_bytes 2 1 ++ be_bytes 4 (len (env_canonical_wire e))
  ++ be_bytes 4 (len (ta_canonical_wire (plan_assignments p)))
  ++ env_canonical_wire e ++ ta_canonical_wire (plan_assignments p).
Proof.
  unfold u32_max. intros H1 H2. unfold build_runtime_apply_request_wire.
  rewrite !N.mod_small by lia. reflexivity.
Qed.

(** The frame that a successful decoding has cut into parts. *)
Lemma request_frame_parts frame r :
  decode_runtime_apply_request sha256 frame = Ok r ->
  exists eb ab,
    decode_apply_envelope sha256 eb = Ok (request_envelope r) /\
    decode_target_assignments sha256 ab = Ok (plan_assignments (request_slice r)) /\
    apply_request_validate sha256 r = Ok tt /\ (len eb <= u32_max)%N /\ (len ab <= u32_max)%N /\
    frame = RUNTIME_APPLY_REQUEST_MAGIC ++ be_bytes 2 1 ++ be_bytes 4 (len eb)
            ++ be_bytes 4 (len ab) ++ eb ++ ab.
Proof.
  unfold decode_runtime_apply_request, panicking_add, APPLY_REQUEST_HEADER_BYTES.
  change (len RUNTIME_APPLY_REQUEST_MAGIC) with 4%N. intros H. rust_inv.
  repeat match goal with H : ~ (_ <> _) |- _ => apply dec_stable in H; subst end.
  match goal with H : decode_apply_envelope _ ?b = Ok _ |- _ => rename b into eb; rename H into Hd end.
  match goal with H : decode_target_assignments _ ?b = Ok _ |- _ => rename b into ab; rename H into Ha end.
  match goal with H : plan_slice_try_new _ _ _ = Ok _ |- _ =>
    apply plan_slice_try_new_Ok in H as [-> _] end.
  match goal with H : apply_request_try_new _ _ _ = Ok _ |- _ =>
    apply apply_request_try_new_Ok in H as (-> & <- & Hv & _) end.
  cbn [plan_assignments]. exists eb, ab.
  repeat match goal with
  | H : slice_range _ _ _ = Ok _ |- _ =>
      let Hl := fresh "Hl" in pose proof (slice_range_len _ _ _ _ H) as Hl; apply slice_range_drop in H
  end.
  repeat match goal with
  | H : read_u16 ?l = Ok ?v |- _ => apply (read_u16_Ok l v ltac:(lia)) in H
  | H : read_u32 ?l = Ok ?v |- _ =>
      pose proof (read_u32_bound _ _ H); apply (read_u32_Ok l v ltac:(lia)) in H
  end.
  split; [done|]. split; [done|]. split; [done|]. split; [lia|]. split; [lia|].
  replace (len eb) with x7 by lia. replace (len ab) with x9 by lia. subst.
  change (drop (N.to_nat 0) frame) with frame in *.
  match goal with H : frame = _ ++ _ |- _ => rewrite H at 1 end.
  repeat match goal with H : drop ?n frame = _ |- context [drop ?n frame] => rewrite H end.
  rewrite drop_ge by (unfold len; lia). by rewrite app_nil_r.
Qed.

Lemma decode_runtime_apply_request_wf frame r :
  decode_runtime_apply_request sha256 frame = Ok r ->
  request_wf r /\ apply_request_validate sha256 r = Ok tt /\ request_canonical_wire r = frame.
Proof.
  intros (eb & ab & Hd & Ha & Hv & Hle & Hla & ->)%request_frame_parts.
  apply decode_apply_envelope_wf in Hd as (Hwe & _ & <-).
  apply decode_target_assignments_wf in Ha as (Hwa & _ & <-).
  split; [done|]. split; [done|].
  apply apply_request_validate_Ok in Hv as (_ & _ & _ & ->). by apply request_wire_app.
Qed.

(** Decoding a frame whose lengths match its parts decodes the parts. *)
Lemma decode_request_frame frame eb ab :
  frame = RUNTIME_APPLY_REQUEST_MAGIC ++ be_bytes 2 1 ++ be_bytes 4 (len eb)
          ++ be_bytes 4 (len ab) ++ eb ++ ab ->
  (len eb <= MAX_RUNTIME_APPLY_ENVELOPE_BYTES)%N -> (len ab <= MAX_TARGET_ASSIGNMENTS_BYTES)%N ->
  decode_runtime_apply_request sha256 frame =
  (envelope ← map_err request_envelope_wire_error (decode_apply_envelope sha256 eb);
   assignments ← map_err request_assignment_wire_error (decode_target_assignments sha256 ab);
   plan ← map_err (fun _ => rw_new RWCommitmentMismatch)
     (plan_slice_try_new sha256 (slice (env_control_commitment envelope)) assignments);
   map_err (fun _ => rw_new RWCommitmentMismatch) (apply_request_try_new sha256 envelope plan)).
Proof.
  intros Hw Hbe Hba. unfold MAX_RUNTIME_APPLY_ENVELOPE_BYTES in Hbe.
  change MAX_TARGET_ASSIGNMENTS_BYTES with 65546%N in Hba.
  set (hd := RUNTIME_APPLY_REQUEST_MAGIC ++ be_bytes 2 1 ++ be_bytes 4 (len eb) ++ be_bytes 4 (len ab)).
  assert (frame = hd ++ eb ++ ab) as Hw' by (unfold hd; rewrite Hw, <-!app_assoc; done).
  assert (len hd = 14)%N as Hhd by (unfold hd; rewrite !len_app, !len_be_bytes; reflexivity).
  assert (len frame = 14 + len eb + len ab)%N as Hlen by (rewrite Hw', !len_app; lia).
  unfold decode_runtime_apply_request, APPLY_REQUEST_HEADER_BYTES.
  change (len RUNTIME_APPLY_REQUEST_MAGIC) with 4%N.
  change MAX_RUNTIME_APPLY_REQUEST_BYTES with 69656%N.
  rewrite (proj2 (N.ltb_ge _ (len frame))) by lia. cbn [fail_if mbind result_mbind].
  rewrite (proj2 (N.ltb_ge (len frame) 14)) by lia. cbn [fail_if mbind result_mbind].
  rewrite (slice_at frame [] RUNTIME_APPLY_REQUEST_MAGIC _ 0 4 Hw) by reflexivity.
  cbn [mbind result_mbind]. rewrite bool_decide_ne_refl. cbn [fail_if mbind result_mbind].
  rewrite (slice_at frame RUNTIME_APPLY_REQUEST_MAGIC (be_bytes 2 1) _ 4 6 Hw)
    by (rewrite ?len_be_bytes; reflexivity).
  cbn [mbind result_mbind]. rewrite read_u16_exact by (unfold u16_max; lia).
  cbn [mbind result_mbind]. change (negb (1 =? RUNTIME_APPLY_REQUEST_VERSION)%N) with false.
  cbn [fail_if mbind result_mbind].
  rewrite (slice_at frame (RUNTIME_APPLY_REQUEST_MAGIC ++ be_bytes 2 1) (be_bytes 4 (len eb))
             (be_bytes 4 (len ab) ++ eb ++ ab) 6 10)
    by (rewrite <-?app_assoc, ?len_app, ?len_be_bytes; done || reflexivity).
  cbn [mbind result_mbind]. rewrite read_u32_exact by (unfold u32_max; lia). cbn [mbind result_mbind].
  rewrite (slice_at frame (RUNTIME_APPLY_REQUEST_MAGIC ++ be_bytes 2 1 ++ be_bytes 4 (len eb))
             (be_bytes 4 (len ab)) (eb ++ ab) 10 14)
    by (rewrite <-?app_assoc, ?len_app, ?len_be_bytes; done || reflexivity).
  cbn [mbind result_mbind]. rewrite read_u32_exact by (unfold u32_max; lia). cbn [mbind result_mbind].
  do 2 (rewrite checked_add_ok by (unfold u64_max; lia); cbn [ok_or mbind result_mbind]).
  rewrite (proj2 (N.ltb_ge _ _)) by lia. cbn [fail_if mbind result_mbind].
  rewrite (proj2 (N.eqb_eq _ _)) by lia. cbn [negb fail_if mbind result_mbind].
  unfold panicking_add. rewrite checked_add_ok by (unfold u64_max; lia).
  cbn [unwrap mbind result_mbind].
  rewrite (slice_at frame hd eb ab 14 (14 + len eb) Hw') by lia. cbn [mbind result_mbind].
  destruct (decode_apply_envelope sha256 eb); [|done..]. cbn [map_err mbind result_mbind].
  rewrite (slice_at frame (hd ++ eb) ab [] (14 + len eb) (len frame));
    [done|by rewrite <-app_assoc, app_nil_r|rewrite len_app; lia|lia].
Qed.
Lemma decode_runtime_apply_request_wire r :
  request_wf r -> apply_request_validate sha256 r = Ok tt ->
  decode_runtime_apply_request sha256 (request_canonical_wire r) = Ok r.
Proof.
  intros Hwf Hv. destruct (request_parts_bound r Hwf Hv) as [Hbe Hba].
  pose proof Hv as (Hve & Hvp & Hs & Hw)%apply_request_validate_Ok.
  pose proof Hvp as (_ & Hta & _)%plan_slice_validate_Ok. destruct Hwf as [Hwe Hwa].
  assert (len (request_canonical_wire r) <= MAX_RUNTIME_APPLY_REQUEST_BYTES)%N as Hb.
  { rewrite Hw. unfold build_runtime_apply_request_wire. cbv zeta. rewrite !len_app, !len_be_bytes.
    unfold MAX_RUNTIME_APPLY_REQUEST_BYTES, APPLY_REQUEST_HEADER_BYTES.
    change (len RUNTIME_APPLY_REQUEST_MAGIC) with 4%N. lia. }
  pose proof (decode_envelope_wire sha256 _ Hwe Hve) as Hde.
  pose proof (decode_target_assignments_wire sha256 _ Hwa Hta) as Hda.
  rewrite request_wire_app in Hw by (etrans; [eassumption|vm_compute; discriminate]).
  rewrite (decode_request_frame _ _ _ Hw Hbe Hba).
  rewrite Hde. cbn [map_err mbind result_mbind]. rewrite Hda. cbn [map_err mbind result_mbind].
  rewrite (proj2 (plan_slice_try_new_Ok sha256 _ _ (request_slice r)));
    [|rewrite Hs; split; [by destruct (request_slice r)|done]].
  cbn [map_err mbind result_mbind]. by apply map_err_Ok, apply_request_try_new_Ok.
Qed.

(** No frame makes the decoder panic. *)
Lemma envelope_validate_safe e : envelope_validate sha256 e <> Panic.
Proof.
  unfold envelope_validate, build_apply_envelope_wire.
  pose proof (control_validate_safe sha256). pose proof (append_apply_fields_safe sha256).
  pose proof (request_digest_safe sha256). no_panic.
Qed.
Lemma plan_slice_validate_safe p : plan_slice_validate sha256 p <> Panic.
Proof.
  unfold plan_slice_validate. pose proof (slice_validate_safe sha256).
  pose proof (target_assignments_validate_safe sha256). no_panic.
Qed.
Lemma decode_request_safe frame : decode_runtime_apply_request sha256 frame <> Panic.
Proof.
  unfold decode_runtime_apply_request, APPLY_REQUEST_HEADER_BYTES.
  change (len RUNTIME_APPLY_REQUEST_MAGIC) with 4%N.
  apply no_panic_bind; [auto with no_panic|intros _ _].
  destruct (N.ltb_spec (len frame) 14); [done|]. cbn [fail_if mbind result_mbind].
  destruct (slice_range_total (E:=RequestWireError) frame 0 4) as [m ->]; [lia..|].
  cbn [mbind result_mbind]. apply no_panic_bind; [auto with no_panic|intros _ _].
  destruct (slice_range_total (E:=RequestWireError) frame 4 6) as [vb Hvb]; [lia..|].
  rewrite Hvb. apply slice_range_len in Hvb. cbn [mbind result_mbind].
  destruct (read_u16_total (E:=RequestWireError) vb) as (v & -> & _); [lia|].
  cbn [mbind result_mbind]. apply no_panic_bind; [auto with no_panic|intros _ _].
  destruct (slice_range_total (E:=RequestWireError) frame 6 10) as [eb Heb]; [lia..|].
  rewrite Heb. apply slice_range_len in Heb. cbn [mbind result_mbind].
  destruct (read_u32_total (E:=RequestWireError) eb) as (el & -> & Hel); [lia|]. cbn [mbind result_mbind].
  destruct (slice_range_total (E:=RequestWireError) frame 10 14) as [ab Hab]; [lia..|].
  rewrite Hab. apply slice_range_len in Hab. cbn [mbind result_mbind].
  destruct (read_u32_total (E:=RequestWireError) ab) as (al & -> & Hal); [lia|]. cbn [mbind result_mbind].
  unfold u32_max in *. do 2 (rewrite checked_add_ok by (unfold u64_max; lia); cbn [ok_or mbind result_mbind]).
  destruct (N.ltb_spec (len frame) (14 + (el + al))); [done|]. cbn [fail_if mbind result_mbind].
  apply no_panic_bind; [auto with no_panic|intros _ _]. unfold panicking_add.
  rewrite checked_add_ok by (unfold u64_max; lia). cbn [unwrap mbind result_mbind].
  destruct (slice_range_total (E:=RequestWireError) frame 14 (14 + el)) as [e ->]; [lia..|].
  cbn [mbind result_mbind]. apply no_panic_bind; [apply no_panic_map_err, decode_safe|intros ev _].
  destruct (slice_range_total (E:=RequestWireError) frame (14 + el) (len frame)) as [a ->]; [lia..|].
  cbn [mbind result_mbind].
  apply no_panic_bind; [apply no_panic_map_err, decode_target_assignments_safe|intros ta _].
  unfold plan_slice_try_new, apply_request_try_new. pose proof (slice_validate_safe sha256).
  pose proof (target_assignments_validate_safe sha256). pose proof envelope_validate_safe.
  pose proof plan_slice_validate_safe. no_panic.
Qed.
End request.

(** ** What the request digest determines *)

Section binding.
Context (sha256 : list byte -> bytes32).

Lemma envelope_validate_digest e :
  envelope_validate sha256 e = Ok tt -> (len (env_canonical_wire e) <= u64_max)%N ->
  env_request_digest e = MkDigest32 (sha256 (request_preimage (env_canonical_wire e))).
Proof.
  intros H Hl. unfold envelope_validate in H. rust_inv.
  match goal with H : ~ (_ <> env_canonical_wire e) |- _ => apply dec_stable in H; rewrite H in * end.
  match goal with H : envelope_request_digest _ _ = Ok _ |- _ =>
    rewrite envelope_request_digest_eq in H by done; apply Ok_inj in H; subst end.
  match goal with H : ~ (_ <> _) |- _ => by apply dec_stable in H end.
Qed.
Lemma validated_assignments_digest ta :
  target_assignments_validate sha256 ta = Ok tt ->
  ta_assignment_digest ta =
    MkTargetAssignmentDigest (MkDigest32 (sha256 (assignments_preimage (ta_canonical_wire ta)))).
Proof.
  intros H%target_assignments_validate_Ok. by apply target_assignments_try_new_Ok in H as (_ & _ & _ & _ & H).
Qed.

(** Bodies with the same digest are the same. *)
Lemma assignments_digest_inj ta ta' :
  Forall assignment_wf (assignments ta) -> Forall assignment_wf (assignments ta') ->
  target_assignments_validate sha256 ta = Ok tt -> target_assignments_validate sha256 ta' = Ok tt ->
  (len (ta_canonical_wire ta) <= u64_max)%N -> (len (ta_canonical_wire ta') <= u64_max)%N ->
  collision_free sha256 [assignments_preimage (ta_canonical_wire ta);
                         assignments_preimage (ta_canonical_wire ta')] ->
  ta_assignment_digest ta = ta_assignment_digest ta' -> ta = ta'.
Proof.
  intros Hw Hw' Hv Hv' Hl Hl' Hcf Hd.
  rewrite !validated_assignments_digest in Hd by done. injection Hd as Hd.
  apply (collision_free_inj sha256 _ _ _ Hcf) in Hd; [|set_solver..].
  apply preimage_inj in Hd as [_ Hd]; [|by apply assignments_buildable..].
  apply fields_cons_inj in Hd as [Hd _].
  pose proof (decode_target_assignments_wire sha256 ta Hw Hv) as H.
  rewrite Hd, decode_target_assignments_wire in H by done. congruence.
Qed.
Lemma envelope_digest_inj e e' :
  envelope_wf e -> envelope_wf e' ->
  envelope_validate sha256 e = Ok tt -> envelope_validate sha256 e' = Ok tt ->
  (len (env_canonical_wire e) <= u64_max)%N -> (len (env_canonical_wire e') <= u64_max)%N ->
  collision_free sha256 [request_preimage (env_canonical_wire e);
                         request_preimage (env_canonical_wire e')] ->
  env_request_digest e = env_request_digest e' -> e = e'.
Proof.
  intros Hw Hw' Hv Hv' Hl Hl' Hcf Hd.
  rewrite !envelope_validate_digest in Hd by done. injection Hd as Hd.
  apply (collision_free_inj sha256 _ _ _ Hcf) in Hd; [|set_solver..].
  apply preimage_inj in Hd as [_ Hd]; [|by apply request_buildable..].
  apply fields_cons_inj in Hd as [Hd _].
  pose proof (decode_envelope_wire sha256 e Hw Hv) as H.
  rewrite Hd, decode_envelope_wire in H by done. congruence.
Qed.
End binding.

(** ** Concrete values *)

Module AssignmentDemo.
Definition spec (d : PortDirection) : PortSpec :=
  MkPortSpec d (MkSchemaRef (ContractDemo.ref 30) 1 (ContractDemo.digest 31)) Signal One.
Definition binding (id capacity : N) : BindingAssignment :=
  MkBindingAssignment (MkBindingId (ContractDemo.ref id))
    (MkInstanceRef (ContractDemo.ref 32)) (MkPortRef (ContractDemo.ref id)) (spec Out)
    (MkInstanceRef (ContractDemo.ref 33)) (MkPortRef (ContractDemo.ref id)) (spec In)
    (MkMailboxRef (ContractDemo.ref id)) (MkDeliveryProfile 64 (from_nanos 1000) Latest)
    (MkMailboxSpec 4 capacity (from_nanos 1000) 2 1024 Latest).
Definition body_of (l : list BindingAssignment) : TargetAssignments :=
  match target_assignments_try_new toy_hash l with
  | Ok ta => ta
  | _ => MkTargetAssignments l [] (MkTargetAssignmentDigest (ContractDemo.digest 0))
  end.
Definition slice_of (ta : TargetAssignments) : RuntimeSliceCommitment :=
  let h := MkRuntimeSliceHeader RUNTIME_SLICE_HEADER_VERSION (target (ContractDemo.slice_header 7))
             (provenance (ContractDemo.slice_header 7)) (ta_assignment_digest ta) in
  match slice_commitment_try_new toy_hash h with
  | Ok c => c
  | _ => MkRuntimeSliceCommitment h (MkTargetSliceDigest (ContractDemo.digest 0))
  end.
Definition envelope_of (ta : TargetAssignments) : option RuntimeApplyEnvelope :=
  match control_commitment_try_new toy_hash (slice_of ta)
          (ContractDemo.apply_control 8 2 1 9 ExpectNone) with
  | Ok cc =>
      match envelope_try_new toy_hash cc WireDemo.temporal
              (MkApplyRequestAuthentication (WireDemo.auth [x05]) [x06; x07]) with
      | Ok e => Some e
      | _ => None
      end
  | _ => None
  end.
Definition request_of (l : list BindingAssignment) : option RuntimeApplyRequest :=
  let ta := body_of l in
  match envelope_of ta with
  | Some e =>
      match plan_slice_try_new toy_hash (slice_of ta) ta with
      | Ok p =>
          match apply_request_try_new toy_hash e p with Ok r => Some r | _ => None end
      | _ => None
      end
  | None => None
  end.
(** Two bindings given out of order, and the same with a larger mailbox. *)
Definition request1 : RuntimeApplyRequest :=
  Eval vm_compute in
    match request_of [binding 41 128; binding 40 128] with
    | Some r => r
    | None => MkRuntimeApplyRequest
                (MkRuntimeApplyEnvelope WireDemo.commitment WireDemo.temporal
                   (MkApplyRequestAuthentication (WireDemo.auth []) []) [] (ContractDemo.digest 0))
                (MkRuntimePlanSlice (slice_of (body_of [])) (body_of [])) []
    end.
Definition request2 : RuntimeApplyRequest :=
  Eval vm_compute in
    match request_of [binding 41 128; binding 40 256] with Some r => r | None => request1 end.
End AssignmentDemo.

(** ** Properties *)

(** C24: The request decoder accepts exactly the canonical wires of well-formed,
    valid requests: a frame decodes to [r] if and only if both parts of [r]
    satisfy the constructor guards, [RuntimeApplyRequest::validate] accepts
    [r] (envelope, body and slice commitment agree), and the frame is the
    wire [r] carries.  The outer decoder has no re-encoding check; the frame
    is nevertheless the re-encoding of what it returns. *)
Theorem request_decode_accepts_exactly sha256 (frame : list byte) (r : RuntimeApplyRequest) :
  decode_runtime_apply_request sha256 frame = Ok r <->
  request_wf r /\ apply_request_validate sha256 r = Ok tt /\ request_canonical_wire r = frame.
Proof.
  split; [apply decode_runtime_apply_request_wf|].
  intros (Hwf & Hv & <-). by apply decode_runtime_apply_request_wire.
Qed.

(** Decoding an arbitrary byte string as a complete request never panics:
    every slice of the frame, every read of the record cursor and every
    length addition of the three decoders stays in range. *)
Theorem request_decode_never_panics sha256 (frame : list byte) :
  decode_runtime_apply_request sha256 frame <> Panic.
Proof. apply decode_request_safe. Qed.

(** A target body is built exactly from at most 256 bindings that share no
    binding id, source endpoint, target endpoint or mailbox; the result is
    sorted by binding id, holds the same bindings, validates, and does not
    depend on the order in which the bindings were given. *)
Theorem target_body_canonical sha256 (l : list BindingAssignment) :
  ((exists ta, target_assignments_try_new sha256 l = Ok ta) <->
   (len l <= MAX_TARGET_ASSIGNMENTS)%N /\ one_to_one l) /\
  forall ta, target_assignments_try_new sha256 l = Ok ta ->
    assignments ta ≡ₚ l /\ binding_sorted (assignments ta) /\
    target_assignments_validate sha256 ta = Ok tt /\
    forall l', l ≡ₚ l' -> target_assignments_try_new sha256 l' = Ok ta.
Proof.
  split.
  - split; [intros (ta & (? & ? & _)%target_assignments_try_new_Ok); done|].
    intros [Hl Hu]. eexists (MkTargetAssignments _ _ _). apply target_assignments_try_new_Ok.
    split_and!; simpl; reflexivity || done.
  - intros ta Hta. pose proof (target_assignments_try_new_valid _ _ _ Hta) as Hv.
    apply target_assignments_try_new_Ok in Hta as (Hl & Hu & Hs & Hw & Hd).
    rewrite Hs at 1 2. split_and!; [apply sort_Permutation|apply sort_sorted|done|].
    intros l' Hp. apply target_assignments_try_new_Ok.
    split_and!; [by rewrite <-Hp|by rewrite <-Hp| |done|done].
    rewrite Hs. apply sort_Permutation_eq; [apply Hu|done].
Qed.

(** The digest of the signed envelope identifies the whole request: two
    different valid requests, whatever their bodies, have different request
    digests, as long as SHA-256 does not collide on the two envelope wires
    and the two assignment bodies.  Nothing of the body escapes the
    signature. *)
Theorem request_digest_binds_body sha256 (r r' : RuntimeApplyRequest) :
  request_wf r -> request_wf r' ->
  apply_request_validate sha256 r = Ok tt -> apply_request_validate sha256 r' = Ok tt ->
  collision_free sha256 [request_preimage (env_canonical_wire (request_envelope r));
                         request_preimage (env_canonical_wire (request_envelope r'))] ->
  collision_free sha256
    [assignments_preimage (ta_canonical_wire (plan_assignments (request_slice r)));
     assignments_preimage (ta_canonical_wire (plan_assignments (request_slice r')))] ->
  r <> r' -> apply_request_digest r <> apply_request_digest r'.
Proof.
  intros Hw Hw' Hv Hv' Hce Hca Hne Hd. apply Hne.
  destruct (request_parts_bound sha256 r Hw Hv) as [Hl Hla],
    (request_parts_bound sha256 r' Hw' Hv') as [Hl' Hla'].
  assert (forall a b, a <= b -> b <= u64_max -> a <= u64_max)%N as Htr by lia.
  pose proof (Htr _ _ Hl ltac:(by vm_compute)). pose proof (Htr _ _ Hl' ltac:(by vm_compute)).
  pose proof (Htr _ _ Hla ltac:(by vm_compute)). pose proof (Htr _ _ Hla' ltac:(by vm_compute)).
  destruct Hw as [He Ha], Hw' as [He' Ha'].
  apply apply_request_validate_Ok in Hv as (Hve & (_ & Hta & Hda)%plan_slice_validate_Ok & Hs & Hwire),
    Hv' as (Hve' & (_ & Hta' & Hda')%plan_slice_validate_Ok & Hs' & Hwire').
  assert (request_envelope r = request_envelope r') as E by by eapply envelope_digest_inj.
  assert (plan_commitment (request_slice r) = plan_commitment (request_slice r')) as Ec
    by by rewrite <-Hs, <-Hs', E.
  assert (plan_assignments (request_slice r) = plan_assignments (request_slice r')) as Ea.
  { eapply assignments_digest_inj; [done..|]. by rewrite <-Hda, <-Hda', Ec. }
  destruct r as [e [c a] w], r' as [e' [c' a'] w']; simpl in *. subst. done.
Qed.

(** Two requests that differ in one mailbox capacity of the body. *)
Lemma request_digest_binds_body_witness :
  apply_request_digest AssignmentDemo.request1 <> apply_request_digest AssignmentDemo.request2.
Proof.
  apply (request_digest_binds_body toy_hash AssignmentDemo.request1 AssignmentDemo.request2).
  - decide_now.
  - decide_now.
  - vm_compute. reflexivity.
  - vm_compute. reflexivity.
  - decide_now.
  - decide_now.
  - vm_compute. congruence.
Defined.
