(* ===== verification/MailboxModel.v ===== *)
(** * Target mailbox: data and operations (crates/paraegox-runtime/src/mailbox.rs)

    The mailbox is the only semantic queue of a target.  A message offered to
    it is admitted, rejected, expired, refused under pressure or turned away
    because the mailbox is closing; an admitted message is queued, moved to an
    in-flight token, and ends in exactly one terminal.  Every operation first
    re-validates the accounting ([validate_state]) and fails closed.

    Methods on [&mut self] are computations [M Mailbox E A] that return the
    state they leave behind together with their outcome. *)

From S2P Require Import Prelude KernelTime KernelDigest Assignment.
Open Scope rust_scope.

(** ** Data *)

Record MessageId := MkMessageId { message_id_bytes : bytes16 }.
#[export] Instance MessageId_eq_dec : EqDecision MessageId.
Proof. solve_decision. Defined.
Lemma MkMessageId_bytes m : MkMessageId (message_id_bytes m) = m.
Proof. by destruct m. Qed.
#[export] Instance MessageId_countable : Countable MessageId :=
  inj_countable' (H := byte_array_countable 16) message_id_bytes MkMessageId MkMessageId_bytes.
#[export] Instance MessageId_ord_key : OrdKey MessageId.
Proof.
  refine {| key_leb a b := key_leb (message_id_bytes a) (message_id_bytes b) |}.
  - intros a b; apply key_leb_total.
  - intros a b c; apply key_leb_trans.
Defined.

Record CoalesceKey := MkCoalesceKey { coalesce_key_bytes : bytes16 }.
#[export] Instance CoalesceKey_eq_dec : EqDecision CoalesceKey.
Proof. solve_decision. Defined.

Inductive MailboxError :=
| InvalidMailboxSpec
| UnsupportedInteractionPolicy
| PayloadSizeOverflow
| ClockDomainMismatch
| ClockGenerationMismatch
| MailboxDeadlineOverflow
| CounterOverflow
| StateInconsistent
| InvalidTerminalReason
| InflightTokenMismatch
| AbandonRequiresDraining
| CancelRequiresDraining.
#[export] Instance MailboxError_eq_dec : EqDecision MailboxError.
Proof. solve_decision. Defined.

Definition mailbox_time_error (error : TimeError) : MailboxError :=
  match error with
  | TimeClockDomainMismatch => ClockDomainMismatch
  | TimeClockGenerationMismatch => ClockGenerationMismatch
  | DeadlineOverflow => MailboxDeadlineOverflow
  | InvalidClockGeneration => StateInconsistent
  end.

Record PayloadHandle := MkPayloadHandle { payload_data : list byte; charged_bytes : N }.
#[export] Instance PayloadHandle_eq_dec : EqDecision PayloadHandle.
Proof. solve_decision. Defined.

Definition try_from_vec (bytes : list byte) : result MailboxError PayloadHandle :=
  charged ← ok_or (try_from u64_max (len bytes)) PayloadSizeOverflow;
  Ok (MkPayloadHandle bytes charged).

Inductive MessageClass := ClassSignal | ClassEvent | ClassCommand.
#[export] Instance MessageClass_eq_dec : EqDecision MessageClass.
Proof. solve_decision. Defined.

Definition from_interaction (interaction : InteractionKind) : MessageClass :=
  match interaction with Signal => ClassSignal | Event => ClassEvent end.
Definition assignment_interaction (self : MessageClass) : option InteractionKind :=
  match self with
  | ClassSignal => Some Signal
  | ClassEvent => Some Event
  | ClassCommand => None
  end.

Record ValidatedMessage := MkValidatedMessage {
  msg_id : MessageId;
  msg_schema : SchemaRef;
  msg_class : MessageClass;
  msg_coalesce_key : option CoalesceKey;
  msg_fresh_until : MonotonicDeadline;
  msg_run_deadline : MonotonicDeadline;
  msg_payload : PayloadHandle;
}.
#[export] Instance ValidatedMessage_eq_dec : EqDecision ValidatedMessage.
Proof. solve_decision. Defined.

Definition validated_message_new (id : MessageId) (schema : SchemaRef)
    (interaction : InteractionKind) (coalesce_key : option CoalesceKey)
    (deadline : MonotonicDeadline) (payload : PayloadHandle) : ValidatedMessage :=
  MkValidatedMessage id schema (from_interaction interaction) coalesce_key deadline deadline payload.
Definition new_with_deadlines (id : MessageId) (schema : SchemaRef)
    (interaction : InteractionKind) (coalesce_key : option CoalesceKey)
    (fresh_until run_deadline : MonotonicDeadline) (payload : PayloadHandle) : ValidatedMessage :=
  MkValidatedMessage id schema (from_interaction interaction) coalesce_key fresh_until run_deadline
    payload.

Inductive RejectionReason :=
| SchemaMismatch
| InteractionMismatch
| DuplicateActiveMessage
| PayloadTooLarge
| MissingCoalesceKey
| CapacityFull
| RetainedCapacityFull.
#[export] Instance RejectionReason_eq_dec : EqDecision RejectionReason.
Proof. solve_decision. Defined.

Inductive TerminalReason :=
| Completed
| Failed
| Cancelled
| ExpiredAfterAdmission
| StaleBeforeRun
| RunDeadlineExpired
| QueueAgeExpired
| Evicted
| Coalesced
| Uncertain.
#[export] Instance TerminalReason_eq_dec : EqDecision TerminalReason.
Proof. solve_decision. Defined.

Definition is_inflight_completion (self : TerminalReason) : bool :=
  match self with
  | Completed | Failed | Cancelled | ExpiredAfterAdmission | StaleBeforeRun
  | RunDeadlineExpired | Uncertain => true
  | QueueAgeExpired | Evicted | Coalesced => false
  end.

Record TerminalRecord := MkTerminalRecord {
  terminal_message_id : MessageId;
  terminal_reason : TerminalReason;
  released_bytes : N;
}.
#[export] Instance TerminalRecord_eq_dec : EqDecision TerminalRecord.
Proof. solve_decision. Defined.

Inductive EnqueueOutcome :=
| EnqueueAdmitted
| EnqueueRejected (reason : RejectionReason) (message : ValidatedMessage)
| EnqueueExpiredBeforeAdmission (message : ValidatedMessage)
| EnqueueClosed (message : ValidatedMessage)
| WouldBlock (message : ValidatedMessage) (deadline : MonotonicDeadline).

Record OfferReport := MkOfferReport {
  offer_outcome : EnqueueOutcome;
  offer_terminals : list TerminalRecord;
}.

Record OfferFailure := MkOfferFailure {
  offer_failure_error : MailboxError;
  offer_failure_message : ValidatedMessage;
}.

Inductive MailboxLifecycle := Accepting | Draining | Closed.
#[export] Instance MailboxLifecycle_eq_dec : EqDecision MailboxLifecycle.
Proof. solve_decision. Defined.

(** ** Counters *)

Record OfferCounters := MkOfferCounters {
  offered : N;
  admitted : N;
  rejected : N;
  closed : N;
  expired_before_admission : N;
}.

Inductive OfferCategory :=
| CategoryAdmitted
| CategoryRejected
| CategoryClosed
| CategoryExpiredBeforeAdmission.

Definition offer_counters_default : OfferCounters := MkOfferCounters 0 0 0 0 0.

Definition checked_terminal (self : OfferCounters) (category : OfferCategory)
    : result MailboxError OfferCounters :=
  offered' ← ok_or (checked_add u64_max (offered self) 1) CounterOverflow;
  match category with
  | CategoryAdmitted =>
      n ← ok_or (checked_add u64_max (admitted self) 1) CounterOverflow;
      Ok (MkOfferCounters offered' n (rejected self) (closed self) (expired_before_admission self))
  | CategoryRejected =>
      n ← ok_or (checked_add u64_max (rejected self) 1) CounterOverflow;
      Ok (MkOfferCounters offered' (admitted self) n (closed self) (expired_before_admission self))
  | CategoryClosed =>
      n ← ok_or (checked_add u64_max (closed self) 1) CounterOverflow;
      Ok (MkOfferCounters offered' (admitted self) (rejected self) n (expired_before_admission self))
  | CategoryExpiredBeforeAdmission =>
      n ← ok_or (checked_add u64_max (expired_before_admission self) 1) CounterOverflow;
      Ok (MkOfferCounters offered' (admitted self) (rejected self) (closed self) n)
  end.

Definition offers_validate (self : OfferCounters) : result MailboxError unit :=
  terminal_total ← ok_or
    (value ← checked_add u64_max (admitted self) (rejected self);
     value ← checked_add u64_max value (closed self);
     checked_add u64_max value (expired_before_admission self))
    StateInconsistent;
  bail StateInconsistent when negb (terminal_total =? offered self)%N;
  Ok tt.

Record TerminalCounters := MkTerminalCounters {
  completed : N;
  failed : N;
  cancelled : N;
  expired_after_admission : N;
  stale_before_run : N;
  run_deadline_expired : N;
  queue_age_expired : N;
  evicted : N;
  coalesced : N;
  uncertain : N;
}.

Definition terminal_counters_default : TerminalCounters :=
  MkTerminalCounters 0 0 0 0 0 0 0 0 0 0.

Definition checked_increment (self : TerminalCounters) (reason : TerminalReason)
    : result MailboxError TerminalCounters :=
  let '(MkTerminalCounters c f ca ea sb rd qa ev co un) := self in
  let bump (n : N) := ok_or (checked_add u64_max n 1) CounterOverflow in
  match reason with
  | Completed => n ← bump c; Ok (MkTerminalCounters n f ca ea sb rd qa ev co un)
  | Failed => n ← bump f; Ok (MkTerminalCounters c n ca ea sb rd qa ev co un)
  | Cancelled => n ← bump ca; Ok (MkTerminalCounters c f n ea sb rd qa ev co un)
  | ExpiredAfterAdmission => n ← bump ea; Ok (MkTerminalCounters c f ca n sb rd qa ev co un)
  | StaleBeforeRun => n ← bump sb; Ok (MkTerminalCounters c f ca ea n rd qa ev co un)
  | RunDeadlineExpired => n ← bump rd; Ok (MkTerminalCounters c f ca ea sb n qa ev co un)
  | QueueAgeExpired => n ← bump qa; Ok (MkTerminalCounters c f ca ea sb rd n ev co un)
  | Evicted => n ← bump ev; Ok (MkTerminalCounters c f ca ea sb rd qa n co un)
  | Coalesced => n ← bump co; Ok (MkTerminalCounters c f ca ea sb rd qa ev n un)
  | Uncertain => n ← bump un; Ok (MkTerminalCounters c f ca ea sb rd qa ev co n)
  end.

Definition checked_increment_records (self : TerminalCounters) (records : list TerminalRecord)
    : result MailboxError TerminalCounters :=
  try_fold (fun counters record => checked_increment counters (terminal_reason record)) self records.

Definition terminals_total (self : TerminalCounters) : result MailboxError N :=
  ok_or
    (value ← checked_add u64_max (completed self) (failed self);
     value ← checked_add u64_max value (cancelled self);
     value ← checked_add u64_max value (expired_after_admission self);
     value ← checked_add u64_max value (stale_before_run self);
     value ← checked_add u64_max value (run_deadline_expired self);
     value ← checked_add u64_max value (queue_age_expired self);
     value ← checked_add u64_max value (evicted self);
     value ← checked_add u64_max value (coalesced self);
     checked_add u64_max value (uncertain self))
    StateInconsistent.

(** ** Mailbox state *)

Record QueuedMessage := MkQueuedMessage {
  queued_message : ValidatedMessage;
  queue_age_deadline : MonotonicDeadline;
}.

Record InflightAccounting := MkInflightAccounting {
  token_generation : N;
  payload_bytes : N;
}.

Record MailboxLimits := MkMailboxLimits {
  limit_capacity_items : N;
  limit_capacity_bytes : N;
  limit_max_queue_age : BoundedDuration;
  limit_max_inflight : N;
  limit_max_retained_bytes : N;
  limit_overflow : OverflowPolicy;
}.

Record Mailbox := MkMailbox {
  mb_reference : MailboxRef;
  mb_schema : SchemaRef;
  mb_interaction : InteractionKind;
  mb_message_class : MessageClass;
  mb_spec : MailboxSpec;
  mb_clock_domain : ClockDomainRef;
  mb_clock_generation : ClockGeneration;
  mb_limits : MailboxLimits;
  mb_lifecycle : MailboxLifecycle;
  mb_queue : list QueuedMessage;
  mb_inflight : gmap MessageId InflightAccounting;
  mb_queued_bytes : N;
  mb_inflight_bytes : N;
  mb_next_token_generation : N;
  mb_offers : OfferCounters;
  mb_terminals : TerminalCounters;
}.

(** Assignments to the mutable fields of [self]. *)
Definition set_lifecycle (v : MailboxLifecycle) (mb : Mailbox) : Mailbox :=
  let '(MkMailbox a b c d e f g h _ j k l m n o p) := mb in MkMailbox a b c d e f g h v j k l m n o p.
Definition set_queue (v : list QueuedMessage) (mb : Mailbox) : Mailbox :=
  let '(MkMailbox a b c d e f g h i _ k l m n o p) := mb in MkMailbox a b c d e f g h i v k l m n o p.
Definition set_inflight (v : gmap MessageId InflightAccounting) (mb : Mailbox) : Mailbox :=
  let '(MkMailbox a b c d e f g h i j _ l m n o p) := mb in MkMailbox a b c d e f g h i j v l m n o p.
Definition set_queued_bytes (v : N) (mb : Mailbox) : Mailbox :=
  let '(MkMailbox a b c d e f g h i j k _ m n o p) := mb in MkMailbox a b c d e f g h i j k v m n o p.
Definition set_inflight_bytes (v : N) (mb : Mailbox) : Mailbox :=
  let '(MkMailbox a b c d e f g h i j k l _ n o p) := mb in MkMailbox a b c d e f g h i j k l v n o p.
Definition set_next_token_generation (v : N) (mb : Mailbox) : Mailbox :=
  let '(MkMailbox a b c d e f g h i j k l m _ o p) := mb in MkMailbox a b c d e f g h i j k l m v o p.
Definition set_offers (v : OfferCounters) (mb : Mailbox) : Mailbox :=
  let '(MkMailbox a b c d e f g h i j k l m n _ p) := mb in MkMailbox a b c d e f g h i j k l m n v p.
Definition set_terminals (v : TerminalCounters) (mb : Mailbox) : Mailbox :=
  let '(MkMailbox a b c d e f g h i j k l m n o _) := mb in MkMailbox a b c d e f g h i j k l m n o v.

Record MailboxSnapshot := MkMailboxSnapshot {
  snapshot_lifecycle : MailboxLifecycle;
  snapshot_queued_items : N;
  snapshot_queued_bytes : N;
  snapshot_inflight_items : N;
  snapshot_inflight_bytes : N;
  snapshot_retained_bytes : N;
  snapshot_offers : OfferCounters;
  snapshot_terminals : TerminalCounters;
}.

Record MailboxHeadHint := MkMailboxHeadHint {
  hint_mailbox : MailboxRef;
  hint_message_id : MessageId;
  hint_charged_bytes : N;
  hint_fresh_until : MonotonicDeadline;
  hint_run_deadline : MonotonicDeadline;
  hint_queue_age_deadline : MonotonicDeadline;
}.

Inductive MailboxHeadReadiness :=
| HeadReady (hint : MailboxHeadHint)
| HeadExpired (hint : MailboxHeadHint) (reason : TerminalReason)
| HeadEmpty
| HeadNoPermit (hint : MailboxHeadHint)
| HeadClosed.

Definition is_dispatchable (self : MailboxHeadReadiness) : bool :=
  match self with HeadReady _ => true | _ => false end.
Definition readiness_hint (self : MailboxHeadReadiness) : option MailboxHeadHint :=
  match self with
  | HeadReady hint | HeadExpired hint _ | HeadNoPermit hint => Some hint
  | HeadEmpty | HeadClosed => None
  end.

Record InflightToken := MkInflightToken {
  token_mailbox : MailboxRef;
  token_token_generation : N;
  token_message : ValidatedMessage;
}.

Inductive DispatchOutcome :=
| Started (token : InflightToken)
| NoQueuedMessage
| DispatchNoPermit
| DispatchClosed.

Record DispatchReport := MkDispatchReport {
  dispatch_outcome : DispatchOutcome;
  dispatch_expired : list TerminalRecord;
}.

Record FinishFailure := MkFinishFailure {
  finish_failure_error : MailboxError;
  finish_failure_token : InflightToken;
}.

Inductive PlannedOffer :=
| PlanAdmit
| PlanRejected (reason : RejectionReason)
| PlanExpiredBeforeAdmission
| PlanWouldBlock.
#[export] Instance PlannedOffer_eq_dec : EqDecision PlannedOffer.
Proof. solve_decision. Defined.

Definition offer_category (self : PlannedOffer) : option OfferCategory :=
  match self with
  | PlanAdmit => Some CategoryAdmitted
  | PlanRejected _ => Some CategoryRejected
  | PlanExpiredBeforeAdmission => Some CategoryExpiredBeforeAdmission
  | PlanWouldBlock => Some CategoryRejected
  end.

Record CapacityFit := MkCapacityFit {
  fit_items : bool;
  fit_queued_bytes : bool;
  fit_retained_bytes : bool;
}.
Definition is_full_fit (self : CapacityFit) : bool :=
  fit_items self && fit_queued_bytes self && fit_retained_bytes self.
Definition rejection_reason (self : CapacityFit) : RejectionReason :=
  if negb (fit_items self) || negb (fit_queued_bytes self) then CapacityFull
  else RetainedCapacityFull.

(** ** Construction *)

Definition class_policy_supported (message_class : MessageClass) (overflow : OverflowPolicy) : bool :=
  match message_class, overflow with
  | ClassSignal, _ => true
  | ClassEvent, RejectNew | ClassEvent, BlockUntilDeadline => true
  | ClassCommand, RejectNew => true
  | ClassEvent, _ | ClassCommand, _ => false
  end.

Definition try_new_with_class (reference : MailboxRef) (schema : SchemaRef)
    (interaction : InteractionKind) (message_class : MessageClass) (spec : MailboxSpec)
    (clock_domain : ClockDomainRef) (clock_generation : ClockGeneration)
    : result MailboxError Mailbox :=
  let limits :=
    {| limit_capacity_items := capacity_items spec;
       limit_capacity_bytes := capacity_bytes spec;
       limit_max_queue_age := max_queue_age spec;
       limit_max_inflight := max_inflight spec;
       limit_max_retained_bytes := max_retained_bytes spec;
       limit_overflow := overflow_policy spec |} in
  bail InvalidMailboxSpec when
    ((limit_capacity_items limits =? 0) || (limit_capacity_bytes limits =? 0)
     || (limit_max_inflight limits =? 0) || (limit_max_retained_bytes limits =? 0))%N;
  bail UnsupportedInteractionPolicy when
    negb (class_policy_supported message_class (limit_overflow limits));
  Ok {| mb_reference := reference;
        mb_schema := schema;
        mb_interaction := interaction;
        mb_message_class := message_class;
        mb_spec := spec;
        mb_clock_domain := clock_domain;
        mb_clock_generation := clock_generation;
        mb_limits := limits;
        mb_lifecycle := Accepting;
        mb_queue := [];
        mb_inflight := ∅;
        mb_queued_bytes := 0;
        mb_inflight_bytes := 0;
        mb_next_token_generation := 0;
        mb_offers := offer_counters_default;
        mb_terminals := terminal_counters_default |}.

Definition mailbox_try_new (reference : MailboxRef) (schema : SchemaRef)
    (interaction : InteractionKind) (spec : MailboxSpec)
    (clock_domain : ClockDomainRef) (clock_generation : ClockGeneration)
    : result MailboxError Mailbox :=
  try_new_with_class reference schema interaction (from_interaction interaction) spec
    clock_domain clock_generation.

(** ** Accounting checks *)

Definition item_bytes (item : QueuedMessage) : N := charged_bytes (msg_payload (queued_message item)).
Definition item_id (item : QueuedMessage) : MessageId := msg_id (queued_message item).

Definition in_clock (domain : ClockDomainRef) (generation : ClockGeneration)
    (d : MonotonicDeadline) : bool :=
  bool_decide (deadline_domain d = domain) && bool_decide (deadline_generation d = generation).

(** The loop over the queue that collects the active identities. *)
Fixpoint collect_queued (domain : ClockDomainRef) (generation : ClockGeneration)
    (active : gset MessageId) (queue : list QueuedMessage) : result MailboxError (gset MessageId) :=
  match queue with
  | [] => Ok active
  | item :: queue =>
      bail StateInconsistent when
        (negb (in_clock domain generation (queue_age_deadline item))
         || negb (in_clock domain generation (msg_fresh_until (queued_message item)))
         || negb (in_clock domain generation (msg_run_deadline (queued_message item)))
         || bool_decide (item_id item ∈ active));
      collect_queued domain generation ({[item_id item]} ∪ active) queue
  end.
Fixpoint collect_inflight (active : gset MessageId) (keys : list MessageId)
    : result MailboxError (gset MessageId) :=
  match keys with
  | [] => Ok active
  | key :: keys =>
      bail StateInconsistent when bool_decide (key ∈ active);
      collect_inflight ({[key]} ∪ active) keys
  end.

Definition validate_state (self : Mailbox) : result MailboxError unit :=
  _ ← offers_validate (mb_offers self);
  queued_items ← ok_or (try_from u32_max (len (mb_queue self))) StateInconsistent;
  inflight_items ← ok_or (try_from u32_max (N.of_nat (size (mb_inflight self)))) StateInconsistent;
  bail StateInconsistent when
    ((limit_capacity_items (mb_limits self) <? queued_items)
     || (limit_max_inflight (mb_limits self) <? inflight_items)
     || (limit_capacity_bytes (mb_limits self) <? mb_queued_bytes self))%N;
  recomputed_queued ←
    ok_or (checked_sum u64_max 0 (map item_bytes (mb_queue self))) StateInconsistent;
  recomputed_inflight ←
    ok_or (checked_sum u64_max 0 (map payload_bytes (btree_values (mb_inflight self))))
      StateInconsistent;
  bail StateInconsistent when
    (negb (recomputed_queued =? mb_queued_bytes self)
     || negb (recomputed_inflight =? mb_inflight_bytes self))%N;
  retained ← ok_or (checked_add u64_max (mb_queued_bytes self) (mb_inflight_bytes self))
    StateInconsistent;
  bail StateInconsistent when (limit_max_retained_bytes (mb_limits self) <? retained)%N;
  active ← collect_queued (mb_clock_domain self) (mb_clock_generation self) ∅ (mb_queue self);
  _ ← collect_inflight active (btree_keys (mb_inflight self));
  active_count ← ok_or (checked_add u64_max queued_items inflight_items) StateInconsistent;
  total ← terminals_total (mb_terminals self);
  admitted_accounted ← ok_or (checked_add u64_max active_count total) StateInconsistent;
  bail StateInconsistent when negb (admitted_accounted =? admitted (mb_offers self))%N;
  bail StateInconsistent when
    bool_decide (mb_lifecycle self = Closed) && negb (active_count =? 0)%N;
  Ok tt.

Definition ensure_reading (self : Mailbox) (reading : ClockReading) : result MailboxError unit :=
  bail ClockDomainMismatch when bool_decide (reading_domain reading <> mb_clock_domain self);
  bail ClockGenerationMismatch
    when bool_decide (reading_generation reading <> mb_clock_generation self);
  Ok tt.

Definition close_if_drained_internal (self : Mailbox) : Mailbox :=
  if bool_decide (mb_lifecycle self = Draining) && bool_decide (mb_queue self = [])
     && bool_decide (mb_inflight self = ∅)
  then set_lifecycle Closed self
  else self.

(** ** Expiry and index sets *)

Definition expiration_reason (item : QueuedMessage) (reading : ClockReading)
    : result MailboxError (option TerminalReason) :=
  let run := deadline_value (msg_run_deadline (queued_message item)) in
  let fresh := deadline_value (msg_fresh_until (queued_message item)) in
  let queue_age := deadline_value (queue_age_deadline item) in
  let '(deadline, reason) :=
    if (run <=? fresh)%N && (run <=? queue_age)%N then
      (msg_run_deadline (queued_message item), RunDeadlineExpired)
    else if (fresh <=? queue_age)%N then
      (msg_fresh_until (queued_message item), StaleBeforeRun)
    else (queue_age_deadline item, QueueAgeExpired) in
  expired ← map_err mailbox_time_error (is_expired_at deadline reading);
  Ok (if (expired : bool) then Some reason else None).

Definition expired_items (self : Mailbox) (reading : ClockReading)
    : result MailboxError (list (nat * TerminalReason)) :=
  try_fold (fun items '(index, item) =>
      reason ← expiration_reason item reading;
      Ok (match reason with Some reason => items ++ [(index, reason)] | None => items end))
    [] (enumerate (mb_queue self)).

Definition indices_for_expired_items (items : list (nat * TerminalReason)) : list nat :=
  map fst items.

Definition record_of (reason : TerminalReason) (item : QueuedMessage) : TerminalRecord :=
  MkTerminalRecord (item_id item) reason (item_bytes item).

(** [self.queue[*index]] panics out of range. *)
Definition queue_index {E : Type} (self : Mailbox) (index : nat) : result E QueuedMessage :=
  unwrap (mb_queue self !! index).

Definition records_for_expired_items (self : Mailbox) (items : list (nat * TerminalReason))
    : result MailboxError (list TerminalRecord) :=
  try_fold (fun records '(index, reason) =>
      item ← queue_index self index; Ok (records ++ [record_of reason item])) [] items.

Definition live_indices_excluding (self : Mailbox) (excluded : list nat) : list nat :=
  base.filter (fun index => binary_search_is_ok excluded index = false)
    (seq 0 (length (mb_queue self))).

Definition records_for_indices (self : Mailbox) (indices : list nat) (reason : TerminalReason)
    : list TerminalRecord :=
  omap (fun '(index, item) =>
      if binary_search_is_ok indices index then Some (record_of reason item) else None)
    (enumerate (mb_queue self)).

Definition bytes_for_indices (self : Mailbox) (indices : list nat) : result MailboxError N :=
  ok_or (checked_sum u64_max 0
      (map (fun p => item_bytes (snd p))
        (base.filter (fun p => binary_search_is_ok indices (fst p) = true)
          (enumerate (mb_queue self)))))
    CounterOverflow.

(** [for index in 0..original_len { pop_front; push_back unless listed }]. *)
Fixpoint remove_loop (indices : list nat) (todo : list nat) (queue : list QueuedMessage)
    : option (list QueuedMessage) :=
  match todo with
  | [] => Some queue
  | index :: todo =>
      match queue with
      | [] => None
      | item :: queue =>
          remove_loop indices todo
            (if binary_search_is_ok indices index then queue else queue ++ [item])
      end
  end.
Definition remove_queue_indices {E : Type} (indices : list nat) : M Mailbox E unit :=
  fun self =>
    match remove_loop indices (seq 0 (length (mb_queue self))) (mb_queue self) with
    | Some queue => (set_queue queue self, Ok tt)
    | None => (set_queue [] self, Panic)
    end.

Definition fit_after_removing (self : Mailbox) (expired displaced : list nat) (incoming_bytes : N)
    : result MailboxError CapacityFit :=
  let removed := dedup (sort_unstable (expired ++ displaced)) in
  removed_bytes ← bytes_for_indices self removed;
  queued_items ← ok_or
    (value ← checked_sub (len (mb_queue self)) (len removed); checked_add u64_max value 1)
    CounterOverflow;
  queued_items ← ok_or (try_from u32_max queued_items) CounterOverflow;
  queued_bytes ← ok_or
    (value ← checked_sub (mb_queued_bytes self) removed_bytes;
     checked_add u64_max value incoming_bytes)
    CounterOverflow;
  retained_bytes ← ok_or (checked_add u64_max queued_bytes (mb_inflight_bytes self)) CounterOverflow;
  Ok {| fit_items := (queued_items <=? limit_capacity_items (mb_limits self))%N;
        fit_queued_bytes := (queued_bytes <=? limit_capacity_bytes (mb_limits self))%N;
        fit_retained_bytes := (retained_bytes <=? limit_max_retained_bytes (mb_limits self))%N |}.

(** ** Offering a message *)

(** [indices.iter().any(|index| f(self.queue[*index]))]. *)
Fixpoint any_index {E : Type} (self : Mailbox) (f : QueuedMessage -> bool) (indices : list nat)
    : result E bool :=
  match indices with
  | [] => Ok false
  | index :: indices =>
      item ← queue_index self index;
      if f item then Ok true else any_index self f indices
  end.
(** [indices.iter().find(|index| f(self.queue[**index]))]. *)
Fixpoint find_index {E : Type} (self : Mailbox) (f : QueuedMessage -> bool) (indices : list nat)
    : result E (option nat) :=
  match indices with
  | [] => Ok None
  | index :: indices =>
      item ← queue_index self index;
      if f item then Ok (Some index) else find_index self f indices
  end.

Definition initial_decision (self : Mailbox) (message : ValidatedMessage)
    (freshness_expired run_deadline_expired queue_age_immediately_expired duplicate : bool)
    : PlannedOffer :=
  if freshness_expired || run_deadline_expired || queue_age_immediately_expired then
    PlanExpiredBeforeAdmission
  else if bool_decide (msg_schema message <> mb_schema self) then PlanRejected SchemaMismatch
  else if bool_decide (msg_class message <> mb_message_class self) then
    PlanRejected InteractionMismatch
  else if duplicate then PlanRejected DuplicateActiveMessage
  else if ((limit_capacity_bytes (mb_limits self) <? charged_bytes (msg_payload message))
           || (limit_max_retained_bytes (mb_limits self) <? charged_bytes (msg_payload message)))%N
  then PlanRejected PayloadTooLarge
  else if bool_decide (limit_overflow (mb_limits self) = CoalesceByKey)
          && bool_decide (msg_coalesce_key message = None)
  then PlanRejected MissingCoalesceKey
  else PlanAdmit.

(** The messages a policy displaces before capacity is looked at. *)
Definition initial_displacement (self : Mailbox) (message : ValidatedMessage)
    (live_indices : list nat) : result MailboxError (list nat * TerminalReason) :=
  match limit_overflow (mb_limits self) with
  | Latest => Ok (live_indices, Evicted)
  | CoalesceByKey =>
      found ← find_index self
        (fun item => bool_decide
           (msg_coalesce_key (queued_message item) = msg_coalesce_key message))
        (rev live_indices);
      Ok (match found with Some index => ([index], Coalesced) | None => ([], Evicted) end)
  | RejectNew | DropOldest | BlockUntilDeadline => Ok ([], Evicted)
  end.

(** The eviction loop of [DropOldest]: oldest live messages first, until the
    incoming message fits. *)
Fixpoint drop_oldest_loop (self : Mailbox) (expired_indices : list nat) (incoming_bytes : N)
    (displaced : list nat) (live_indices : list nat) : result MailboxError (list nat) :=
  match live_indices with
  | [] => Ok displaced
  | index :: live_indices =>
      if binary_search_is_ok displaced index then
        drop_oldest_loop self expired_indices incoming_bytes displaced live_indices
      else
        let displaced := sort_unstable (displaced ++ [index]) in
        fit ← fit_after_removing self expired_indices displaced incoming_bytes;
        if is_full_fit fit then Ok displaced
        else drop_oldest_loop self expired_indices incoming_bytes displaced live_indices
  end.

(** The [if decision == PlannedOffer::Admit] block. *)
Definition resolve_admission (self : Mailbox) (message : ValidatedMessage)
    (expired_indices live_indices : list nat)
    : result MailboxError (PlannedOffer * list nat * TerminalReason) :=
  let incoming := charged_bytes (msg_payload message) in
  '(displaced, displaced_reason) ← initial_displacement self message live_indices;
  initial_fit ← fit_after_removing self expired_indices displaced incoming;
  if is_full_fit initial_fit then Ok (PlanAdmit, displaced, displaced_reason)
  else
    '(decision, displaced) ←
      match limit_overflow (mb_limits self) with
      | RejectNew => Ok (PlanRejected (rejection_reason initial_fit), displaced)
      | BlockUntilDeadline => Ok (PlanWouldBlock, displaced)
      | DropOldest =>
          displaced ← drop_oldest_loop self expired_indices incoming displaced live_indices;
          Ok (PlanAdmit, displaced)
      | Latest | CoalesceByKey => Ok (PlanAdmit, displaced)
      end;
    if bool_decide (decision = PlanAdmit) then
      final_fit ← fit_after_removing self expired_indices displaced incoming;
      if is_full_fit final_fit then Ok (PlanAdmit, displaced, displaced_reason)
      else Ok (PlanRejected (rejection_reason final_fit), [], displaced_reason)
    else Ok (decision, displaced, displaced_reason).

(** Everything [try_offer] computes before it assigns to [self]. *)
Record OfferPlan := MkOfferPlan {
  plan_decision : PlannedOffer;
  plan_queue_age_deadline : MonotonicDeadline;
  plan_expired_records : list TerminalRecord;
  plan_displaced_records : list TerminalRecord;
  plan_remove_indices : list nat;
  plan_next_queued_bytes : N;
  plan_next_offers : OfferCounters;
  plan_next_terminals : TerminalCounters;
}.

Definition offer_plan (self : Mailbox) (message : ValidatedMessage) (reading : ClockReading)
    : result MailboxError OfferPlan :=
  _ ← ensure_reading self reading;
  freshness_expired ← map_err mailbox_time_error (is_expired_at (msg_fresh_until message) reading);
  run_deadline_expired ←
    map_err mailbox_time_error (is_expired_at (msg_run_deadline message) reading);
  queue_age_deadline ←
    map_err mailbox_time_error (try_deadline_after reading (limit_max_queue_age (mb_limits self)));
  queue_age_immediately_expired ←
    map_err mailbox_time_error (is_expired_at queue_age_deadline reading);
  expired_items ← expired_items self reading;
  let expired_indices := indices_for_expired_items expired_items in
  expired_records ← records_for_expired_items self expired_items;
  next_terminals ← checked_increment_records (mb_terminals self) expired_records;
  let live_indices := live_indices_excluding self expired_indices in
  duplicate ←
    (if bool_decide (is_Some (mb_inflight self !! msg_id message)) then Ok true
     else any_index self (fun item => bool_decide (item_id item = msg_id message)) live_indices);
  let decision := initial_decision self message freshness_expired run_deadline_expired
    queue_age_immediately_expired duplicate in
  '(decision, displaced_indices, displaced_reason) ←
    (if bool_decide (decision = PlanAdmit) then
       resolve_admission self message expired_indices live_indices
     else Ok (decision, [], Evicted));
  let displaced_records := records_for_indices self displaced_indices displaced_reason in
  next_terminals ← checked_increment_records next_terminals displaced_records;
  next_offers ←
    match offer_category decision with
    | Some category => checked_terminal (mb_offers self) category
    | None => Ok (mb_offers self)
    end;
  let remove_indices := dedup (sort_unstable (expired_indices ++ displaced_indices)) in
  removed_bytes ← bytes_for_indices self remove_indices;
  next_queued_bytes ← ok_or (checked_sub (mb_queued_bytes self) removed_bytes) StateInconsistent;
  next_queued_bytes ←
    (if bool_decide (decision = PlanAdmit) then
       ok_or (checked_add u64_max next_queued_bytes (charged_bytes (msg_payload message)))
         CounterOverflow
     else Ok next_queued_bytes);
  Ok {| plan_decision := decision;
        plan_queue_age_deadline := queue_age_deadline;
        plan_expired_records := expired_records;
        plan_displaced_records := displaced_records;
        plan_remove_indices := remove_indices;
        plan_next_queued_bytes := next_queued_bytes;
        plan_next_offers := next_offers;
        plan_next_terminals := next_terminals |}.

Definition offer_commit (message : ValidatedMessage) (plan : OfferPlan)
    : M Mailbox OfferFailure OfferReport :=
  _ ← remove_queue_indices (plan_remove_indices plan);
  _ ← modify (set_queued_bytes (plan_next_queued_bytes plan));
  _ ← modify (set_offers (plan_next_offers plan));
  _ ← modify (set_terminals (plan_next_terminals plan));
  let terminals := plan_expired_records plan ++ plan_displaced_records plan in
  outcome ←
    match plan_decision plan with
    | PlanAdmit =>
        _ ← modify (fun self =>
              set_queue (mb_queue self ++ [MkQueuedMessage message (plan_queue_age_deadline plan)])
                self);
        mret EnqueueAdmitted
    | PlanRejected reason => mret (EnqueueRejected reason message)
    | PlanExpiredBeforeAdmission => mret (EnqueueExpiredBeforeAdmission message)
    | PlanWouldBlock =>
        let deadline :=
          if (deadline_value (msg_fresh_until message) <=?
              deadline_value (msg_run_deadline message))%N
          then msg_fresh_until message else msg_run_deadline message in
        mret (WouldBlock message deadline)
    end;
  mret (MkOfferReport outcome terminals).

Definition try_offer (message : ValidatedMessage) (reading : ClockReading)
    : M Mailbox OfferFailure OfferReport :=
  let failure (error : MailboxError) := MkOfferFailure error message in
  _ ← read (fun self => map_err failure (validate_state self));
  lifecycle ← gets mb_lifecycle;
  if bool_decide (lifecycle <> Accepting) then
    next_offers ←
      read (fun self => map_err failure (checked_terminal (mb_offers self) CategoryClosed));
    _ ← modify (set_offers next_offers);
    mret (MkOfferReport (EnqueueClosed message) [])
  else
    plan ← read (fun self => map_err failure (offer_plan self message reading));
    offer_commit message plan.

(** ** Dispatch *)

Definition head_readiness (self : Mailbox) (reading : ClockReading)
    : result MailboxError MailboxHeadReadiness :=
  _ ← validate_state self;
  if bool_decide (mb_lifecycle self = Closed) then Ok HeadClosed
  else
    _ ← ensure_reading self reading;
    match mb_queue self with
    | [] => Ok HeadEmpty
    | item :: _ =>
        let hint :=
          {| hint_mailbox := mb_reference self;
             hint_message_id := item_id item;
             hint_charged_bytes := item_bytes item;
             hint_fresh_until := msg_fresh_until (queued_message item);
             hint_run_deadline := msg_run_deadline (queued_message item);
             hint_queue_age_deadline := queue_age_deadline item |} in
        expired ← expiration_reason item reading;
        match expired with
        | Some reason => Ok (HeadExpired hint reason)
        | None =>
            inflight_items ←
              ok_or (try_from u32_max (N.of_nat (size (mb_inflight self)))) StateInconsistent;
            if (limit_max_inflight (mb_limits self) <=? inflight_items)%N
            then Ok (HeadNoPermit hint) else Ok (HeadReady hint)
        end
    end.

(** What [try_begin_inflight] computes before it assigns to [self]. *)
Record InflightPlan := MkInflightPlan {
  inflight_expired_indices : list nat;
  inflight_expired_records : list TerminalRecord;
  inflight_next_terminals : TerminalCounters;
  inflight_next_queued_bytes : N;
  inflight_remaining_items : N;
  inflight_next_token_generation : option N;
}.

Definition inflight_plan (self : Mailbox) (reading : ClockReading)
    : result MailboxError InflightPlan :=
  expired_items ← expired_items self reading;
  let expired_indices := indices_for_expired_items expired_items in
  expired_records ← records_for_expired_items self expired_items;
  next_terminals ← checked_increment_records (mb_terminals self) expired_records;
  removed_bytes ← bytes_for_indices self expired_indices;
  next_queued_bytes ← ok_or (checked_sub (mb_queued_bytes self) removed_bytes) StateInconsistent;
  remaining_items ← ok_or (checked_sub (len (mb_queue self)) (len expired_indices)) StateInconsistent;
  inflight_items ← ok_or (try_from u32_max (N.of_nat (size (mb_inflight self)))) StateInconsistent;
  let can_dispatch :=
    ((0 <? remaining_items) && (inflight_items <? limit_max_inflight (mb_limits self)))%N in
  next_token_generation ←
    (if can_dispatch then
       generation ← ok_or (checked_add u64_max (mb_next_token_generation self) 1) CounterOverflow;
       Ok (Some generation)
     else Ok None);
  Ok {| inflight_expired_indices := expired_indices;
        inflight_expired_records := expired_records;
        inflight_next_terminals := next_terminals;
        inflight_next_queued_bytes := next_queued_bytes;
        inflight_remaining_items := remaining_items;
        inflight_next_token_generation := next_token_generation |}.

(** [self.queue.pop_front()]. *)
Definition pop_front : M Mailbox MailboxError (option QueuedMessage) :=
  fun self => match mb_queue self with
              | [] => (self, Ok None)
              | item :: queue => (set_queue queue self, Ok (Some item))
              end.

(** The transfer of the FIFO head to in-flight, with generation
    [token_generation]. *)
Definition start_inflight (generation : N) : M Mailbox MailboxError DispatchOutcome :=
  head ← pop_front;
  match head with
  | None => lift (Err StateInconsistent)
  | Some item =>
      let payload := item_bytes item in
      next_queued_bytes ←
        read (fun self => ok_or (checked_sub (mb_queued_bytes self) payload) StateInconsistent);
      next_inflight_bytes ←
        read (fun self =>
          ok_or (checked_add u64_max (mb_inflight_bytes self) payload) CounterOverflow);
      present ← gets (fun self => bool_decide (is_Some (mb_inflight self !! item_id item)));
      if (present : bool) then lift (Err StateInconsistent)
      else
        _ ← modify (set_queued_bytes next_queued_bytes);
        _ ← modify (set_inflight_bytes next_inflight_bytes);
        _ ← modify (set_next_token_generation generation);
        _ ← modify (fun self =>
              set_inflight (<[item_id item := MkInflightAccounting generation payload]>
                              (mb_inflight self)) self);
        reference ← gets mb_reference;
        mret (Started (MkInflightToken reference generation (queued_message item)))
  end.

Definition try_begin_inflight (reading : ClockReading) : M Mailbox MailboxError DispatchReport :=
  _ ← read validate_state;
  lifecycle ← gets mb_lifecycle;
  if bool_decide (lifecycle = Closed) then mret (MkDispatchReport DispatchClosed [])
  else
    _ ← read (fun self => ensure_reading self reading);
    plan ← read (fun self => inflight_plan self reading);
    _ ← remove_queue_indices (inflight_expired_indices plan);
    _ ← modify (set_queued_bytes (inflight_next_queued_bytes plan));
    _ ← modify (set_terminals (inflight_next_terminals plan));
    outcome ←
      match inflight_next_token_generation plan with
      | Some generation => start_inflight generation
      | None =>
          if (inflight_remaining_items plan =? 0)%N then
            _ ← modify close_if_drained_internal;
            lifecycle ← gets mb_lifecycle;
            mret (if bool_decide (lifecycle = Closed) then DispatchClosed else NoQueuedMessage)
          else mret DispatchNoPermit
      end;
    mret (MkDispatchReport outcome (inflight_expired_records plan)).

(** ** Terminals and shutdown *)

(** The checks of [finish]; the accounting of the token, the next counters
    and the next in-flight byte count. *)
Definition finish_checks (self : Mailbox) (token : InflightToken) (reason : TerminalReason)
    : result MailboxError (TerminalCounters * N) :=
  _ ← validate_state self;
  bail InvalidTerminalReason when negb (is_inflight_completion reason);
  bail InflightTokenMismatch when bool_decide (token_mailbox token <> mb_reference self);
  accounting ← ok_or (mb_inflight self !! msg_id (token_message token)) InflightTokenMismatch;
  bail InflightTokenMismatch when
    (negb (token_generation accounting =? token_token_generation token)
     || negb (payload_bytes accounting =? charged_bytes (msg_payload (token_message token))))%N;
  next_terminals ← checked_increment (mb_terminals self) reason;
  next_inflight_bytes ←
    ok_or (checked_sub (mb_inflight_bytes self) (payload_bytes accounting)) StateInconsistent;
  Ok (next_terminals, next_inflight_bytes).

Definition mailbox_finish (token : InflightToken) (reason : TerminalReason)
    : M Mailbox FinishFailure TerminalRecord :=
  let failure (error : MailboxError) := MkFinishFailure error token in
  '(next_terminals, next_inflight_bytes) ←
    read (fun self => map_err failure (finish_checks self token reason));
  let record := MkTerminalRecord (msg_id (token_message token)) reason
    (charged_bytes (msg_payload (token_message token))) in
  _ ← modify (fun self => set_inflight (delete (msg_id (token_message token)) (mb_inflight self)) self);
  _ ← modify (set_inflight_bytes next_inflight_bytes);
  _ ← modify (set_terminals next_terminals);
  _ ← modify close_if_drained_internal;
  mret record.

Definition uncertain_records (self : Mailbox) : list TerminalRecord :=
  map (fun '(message_id, accounting) =>
      MkTerminalRecord message_id Uncertain (payload_bytes accounting))
    (btree_iter (mb_inflight self)).

Definition abandon_all_inflight_uncertain : M Mailbox MailboxError (list TerminalRecord) :=
  _ ← read validate_state;
  lifecycle ← gets mb_lifecycle;
  if bool_decide (lifecycle = Accepting) then lift (Err AbandonRequiresDraining)
  else
    records ← gets uncertain_records;
    next_terminals ← read (fun self => checked_increment_records (mb_terminals self) records);
    _ ← modify (set_inflight ∅);
    _ ← modify (set_inflight_bytes 0);
    _ ← modify (set_terminals next_terminals);
    _ ← modify close_if_drained_internal;
    mret records.

Definition stop_accepting : M Mailbox MailboxError unit :=
  _ ← read validate_state;
  lifecycle ← gets mb_lifecycle;
  _ ← (if bool_decide (lifecycle = Accepting) then modify (set_lifecycle Draining) else mret tt);
  modify close_if_drained_internal.

Definition cancel_all_queued : M Mailbox MailboxError (list TerminalRecord) :=
  _ ← read validate_state;
  lifecycle ← gets mb_lifecycle;
  if bool_decide (lifecycle = Accepting) then lift (Err CancelRequiresDraining)
  else
    queue ← gets mb_queue;
    if bool_decide (queue = []) then
      _ ← modify close_if_drained_internal;
      mret []
    else
      records ← gets (fun self =>
        records_for_indices self (seq 0 (length (mb_queue self))) Cancelled);
      next_terminals ← read (fun self => checked_increment_records (mb_terminals self) records);
      _ ← modify (set_queue []);
      _ ← modify (set_queued_bytes 0);
      _ ← modify (set_terminals next_terminals);
      _ ← modify close_if_drained_internal;
      mret records.

Definition expire_plan (self : Mailbox) (reading : ClockReading)
    : result MailboxError (list nat * list TerminalRecord * TerminalCounters * N) :=
  expired_items ← expired_items self reading;
  let expired_indices := indices_for_expired_items expired_items in
  records ← records_for_expired_items self expired_items;
  next_terminals ← checked_increment_records (mb_terminals self) records;
  removed_bytes ← bytes_for_indices self expired_indices;
  next_queued_bytes ← ok_or (checked_sub (mb_queued_bytes self) removed_bytes) StateInconsistent;
  Ok (expired_indices, records, next_terminals, next_queued_bytes).

Definition expire_queued (reading : ClockReading) : M Mailbox MailboxError (list TerminalRecord) :=
  _ ← read validate_state;
  lifecycle ← gets mb_lifecycle;
  if bool_decide (lifecycle = Closed) then mret []
  else
    _ ← read (fun self => ensure_reading self reading);
    '(expired_indices, records, next_terminals, next_queued_bytes) ←
      read (fun self => expire_plan self reading);
    _ ← remove_queue_indices expired_indices;
    _ ← modify (set_queued_bytes next_queued_bytes);
    _ ← modify (set_terminals next_terminals);
    _ ← modify close_if_drained_internal;
    mret records.

Definition close_if_drained : M Mailbox MailboxError bool :=
  _ ← read validate_state;
  _ ← modify close_if_drained_internal;
  gets (fun self => bool_decide (mb_lifecycle self = Closed)).

Definition mailbox_snapshot (self : Mailbox) : result MailboxError MailboxSnapshot :=
  _ ← validate_state self;
  queued_items ← ok_or (try_from u32_max (len (mb_queue self))) StateInconsistent;
  inflight_items ← ok_or (try_from u32_max (N.of_nat (size (mb_inflight self)))) StateInconsistent;
  retained_bytes ← ok_or (checked_add u64_max (mb_queued_bytes self) (mb_inflight_bytes self))
    StateInconsistent;
  Ok {| snapshot_lifecycle := mb_lifecycle self;
        snapshot_queued_items := queued_items;
        snapshot_queued_bytes := mb_queued_bytes self;
        snapshot_inflight_items := inflight_items;
        snapshot_inflight_bytes := mb_inflight_bytes self;
        snapshot_retained_bytes := retained_bytes;
        snapshot_offers := mb_offers self;
        snapshot_terminals := mb_terminals self |}.
