(* ===== verification/MailboxInv.v ===== *)
(** * Target mailbox: the accounting invariant

    [mailbox_inv] states what the accounting of a mailbox means;
    [validate_state] decides it.  The lemmas of this file describe the index
    machinery of the operations (expiry scan, displacement, removal) on a
    mailbox that satisfies the invariant. *)

From S2P Require Import Prelude KernelTime KernelDigest Assignment MailboxModel.

(** ** The invariant *)

Definition tc_total (t : TerminalCounters) : N :=
  completed t + failed t + cancelled t + expired_after_admission t + stale_before_run t
  + run_deadline_expired t + queue_age_expired t + evicted t + coalesced t + uncertain t.

Definition item_in_clock (mb : Mailbox) (item : QueuedMessage) : Prop :=
  in_clock (mb_clock_domain mb) (mb_clock_generation mb) (queue_age_deadline item) = true /\
  in_clock (mb_clock_domain mb) (mb_clock_generation mb)
    (msg_fresh_until (queued_message item)) = true /\
  in_clock (mb_clock_domain mb) (mb_clock_generation mb)
    (msg_run_deadline (queued_message item)) = true.

Definition inflight_len (mb : Mailbox) : N := N.of_nat (size (mb_inflight mb)).

Record mailbox_inv (mb : Mailbox) : Prop := {
  inv_offers :
    (admitted (mb_offers mb) + rejected (mb_offers mb) + closed (mb_offers mb)
     + expired_before_admission (mb_offers mb) = offered (mb_offers mb))%N;
  inv_offered : (offered (mb_offers mb) <= u64_max)%N;
  inv_queue_len : (len (mb_queue mb) <= limit_capacity_items (mb_limits mb))%N;
  inv_queue_u32 : (len (mb_queue mb) <= u32_max)%N;
  inv_inflight_len : (inflight_len mb <= limit_max_inflight (mb_limits mb))%N;
  inv_inflight_u32 : (inflight_len mb <= u32_max)%N;
  inv_queued_bytes : mb_queued_bytes mb = sum_N (map item_bytes (mb_queue mb));
  inv_capacity_bytes : (mb_queued_bytes mb <= limit_capacity_bytes (mb_limits mb))%N;
  inv_inflight_bytes : mb_inflight_bytes mb = btree_sum payload_bytes (mb_inflight mb);
  inv_retained :
    (mb_queued_bytes mb + mb_inflight_bytes mb <= limit_max_retained_bytes (mb_limits mb))%N;
  inv_retained_u64 : (mb_queued_bytes mb + mb_inflight_bytes mb <= u64_max)%N;
  inv_clock : Forall (item_in_clock mb) (mb_queue mb);
  inv_ids : NoDup (map item_id (mb_queue mb));
  inv_disjoint :
    forall item, item ∈ mb_queue mb -> mb_inflight mb !! item_id item = None;
  inv_admitted :
    (len (mb_queue mb) + inflight_len mb + tc_total (mb_terminals mb) = admitted (mb_offers mb))%N;
  inv_closed : mb_lifecycle mb = Closed -> mb_queue mb = [] /\ mb_inflight mb = ∅;
  (* the type of [max_inflight] *)
  inv_limit_u32 : (limit_max_inflight (mb_limits mb) <= u32_max)%N;
}.

(** ** [validate_state] decides the invariant *)

Lemma in_clock_iff domain generation d :
  in_clock domain generation d = true <->
  deadline_domain d = domain /\ deadline_generation d = generation.
Proof. unfold in_clock. by rewrite andb_true_iff, !bool_decide_eq_true. Qed.

Lemma terminals_total_Ok t n :
  terminals_total t = Ok n <-> n = tc_total t /\ (tc_total t <= u64_max)%N.
Proof.
  trans (checked_sum u64_max (completed t) [failed t; cancelled t; expired_after_admission t;
    stale_before_run t; run_deadline_expired t; queue_age_expired t; evicted t; coalesced t;
    uncertain t] = Some n).
  - unfold terminals_total. rewrite ok_or_Ok. simpl. unfold mbind, option_bind.
    by repeat case_match.
  - rewrite checked_sum_cons_Some. unfold tc_total; simpl. lia.
Qed.
Lemma offers_validate_Ok o :
  offers_validate o = Ok tt <->
  (admitted o + rejected o + closed o + expired_before_admission o = offered o
   /\ offered o <= u64_max)%N.
Proof.
  trans (checked_sum u64_max (admitted o) [rejected o; closed o; expired_before_admission o]
    = Some (offered o)).
  - unfold offers_validate.
    replace (value ← checked_add u64_max (admitted o) (rejected o);
             value ← checked_add u64_max value (closed o);
             checked_add u64_max value (expired_before_admission o))
      with (checked_sum u64_max (admitted o) [rejected o; closed o; expired_before_admission o])
      by (simpl; unfold mbind, option_bind; by repeat case_match).
    destruct (checked_sum _ _ _) as [n|]; simpl; [|done].
    destruct (N.eqb_spec n (offered o)); simpl; naive_solver.
  - rewrite checked_sum_cons_Some. simpl. lia.
Qed.

Lemma collect_queued_spec domain generation active queue r :
  collect_queued domain generation active queue = Ok r <->
  Forall (fun item =>
    in_clock domain generation (queue_age_deadline item) = true /\
    in_clock domain generation (msg_fresh_until (queued_message item)) = true /\
    in_clock domain generation (msg_run_deadline (queued_message item)) = true) queue /\
  NoDup (map item_id queue) /\
  (forall item, item ∈ queue -> item_id item ∉ active) /\
  r = list_to_set (map item_id queue) ∪ active.
Proof.
  revert active; induction queue as [|item queue IH]; intros active; simpl.
  - split; [intros [= <-]|intros (_&_&_&->)]; [|f_equal; set_solver].
    split_and!; [constructor..|set_solver|set_solver].
  - rewrite Forall_cons, NoDup_cons, elem_of_map.
    destruct (_ || bool_decide _) eqn:E; simpl.
    + split; [done|]. intros ((H&_)&_&Hact&_). exfalso. destruct H as (H1&H2&H3).
      rewrite H1, H2, H3 in E. simpl in E. apply bool_decide_eq_true in E.
      apply (Hact item); [left|done].
    + rewrite IH. rust_inv. split.
      * intros (? & ? & Hact & ->). split_and!; [done..| |done| |set_solver].
        -- intros (y & Heq & Hy). apply Hact in Hy. set_solver.
        -- intros y [->|Hy]%elem_of_cons; [done|]. apply Hact in Hy. set_solver.
      * intros ((_ & ?) & (Hin & ?) & Hact & ->). split_and!; [done..| |set_solver].
        intros y Hy. apply not_elem_of_union. split; [|apply Hact; by right].
        intros Heq%elem_of_singleton. apply Hin. by exists y.
Qed.
Lemma collect_inflight_spec active keys :
  NoDup keys ->
  (exists r, collect_inflight active keys = Ok r) <-> (forall key, key ∈ keys -> key ∉ active).
Proof.
  revert active; induction keys as [|key keys IH]; intros active Hnd; simpl.
  - split; [set_solver|by eexists].
  - apply NoDup_cons in Hnd as [Hk Hnd]. case_bool_decide as Hin; simpl.
    + split; [intros [? ?]; done|]. intros H. exfalso. apply (H key); [left|done].
    + rewrite IH by done. split; intros H k Hk'.
      * apply elem_of_cons in Hk' as [->|Hk']; [done|]. apply H in Hk'. set_solver.
      * apply not_elem_of_union. split; [|apply H; by right]. set_solver.
Qed.

Lemma validate_state_inv mb :
  (limit_max_inflight (mb_limits mb) <= u32_max)%N -> validate_state mb = Ok tt -> mailbox_inv mb.
Proof.
  unfold validate_state. intros Hlim H. rust_inv.
  match goal with H : offers_validate _ = Ok ?u |- _ => destruct u; apply offers_validate_Ok in H as [??] end.
  repeat match goal with H : checked_sum _ _ _ = Some _ |- _ => apply checked_sum_Some in H as [? ?] end.
  match goal with H : collect_queued _ _ _ _ = _ |- _ => apply collect_queued_spec in H as (?&?&_&->) end.
  match goal with H : terminals_total _ = _ |- _ => apply terminals_total_Ok in H as [-> ?] end.
  match goal with H : collect_inflight _ _ = Ok ?r |- _ =>
    assert (forall key, key ∈ btree_keys (mb_inflight mb) ->
      key ∉ list_to_set (C := gset MessageId) (map item_id (mb_queue mb)) ∪ ∅) as Hdisj
      by (apply collect_inflight_spec; [apply btree_keys_NoDup|by exists r]) end.
  constructor; try done; try (unfold inflight_len; lia);
    try assumption.
  - intros item Hin. destruct (mb_inflight mb !! item_id item) eqn:E; [|done]. exfalso.
    apply (Hdisj (item_id item)); [apply elem_of_btree_keys; by eexists|].
    apply elem_of_union_l, elem_of_list_to_set, elem_of_map. by exists item.
  - intros Hc. match goal with H : _ && _ = false |- _ => rename H into Hclosed end.
    rewrite Hc in Hclosed. simpl in Hclosed. rust_inv.
    split; [apply length_zero_iff_nil; unfold len in *; lia|apply map_size_empty_iff; lia].
Qed.


Lemma inv_validate_state mb : mailbox_inv mb -> validate_state mb = Ok tt.
Proof.
  intros Hi. destruct Hi as [Ho Ho' Hq Hq' Hf Hf' Hqb Hcb Hib Hr Hr' Hc Hids Hdis Ha Hcl Hlim].
  unfold validate_state, inflight_len, btree_sum in *.
  rewrite (proj2 (offers_validate_Ok _)) by done. simpl.
  rewrite !try_from_ok by done. simpl.
  destruct (_ || _ || _)%N eqn:E; [exfalso; rewrite !orb_true_iff, !N.ltb_lt in E; lia|].
  simpl; clear E.
  rewrite (checked_sum_ok _ (map item_bytes _)) by lia. simpl.
  rewrite checked_sum_ok by lia. simpl.
  rewrite <-Hqb, <-Hib, !N.eqb_refl. simpl.
  rewrite (checked_add_ok _ (mb_queued_bytes mb)) by lia. simpl.
  rewrite (proj2 (N.ltb_ge _ _)) by lia. simpl.
  erewrite (proj2 (collect_queued_spec _ _ _ _ _)) by (split_and!; [done..|set_solver|done]).
  simpl.
  destruct (proj2 (collect_inflight_spec
    (list_to_set (map item_id (mb_queue mb)) ∪ ∅) (btree_keys (mb_inflight mb))
    (btree_keys_NoDup _))) as [r Hr2].
  { intros key Hk Hin. apply elem_of_btree_keys in Hk.
    apply elem_of_union in Hin as [Hin|Hin]; [|set_solver].
    apply elem_of_list_to_set, elem_of_map in Hin as (item & -> & Hin).
    rewrite Hdis in Hk by done. by destruct Hk. }
  rewrite Hr2. simpl.
  assert (u32_max + u32_max <= u64_max)%N by done.
  rewrite checked_add_ok by lia. simpl.
  erewrite (proj2 (terminals_total_Ok _ _)) by (split; [done|lia]). simpl.
  rewrite checked_add_ok by lia. simpl.
  rewrite (proj2 (N.eqb_eq _ _) Ha). simpl.
  case_bool_decide as Hclosed; [|done]. destruct (Hcl Hclosed) as [Hqn Hin].
  rewrite Hqn, Hin, map_size_empty. done.
Qed.

Lemma validate_state_iff mb :
  (limit_max_inflight (mb_limits mb) <= u32_max)%N ->
  validate_state mb = Ok tt <-> mailbox_inv mb.
Proof. intros. split; [by apply validate_state_inv|apply inv_validate_state]. Qed.


(** ** Counters *)

Lemma checked_increment_Ok t reason t' :
  checked_increment t reason = Ok t' -> tc_total t' = (tc_total t + 1)%N.
Proof.
  destruct t, reason; simpl; intros H; rust_inv; unfold tc_total; simpl; lia.
Qed.
Lemma checked_increment_total t reason :
  (tc_total t < u64_max)%N -> exists t', checked_increment t reason = Ok t'.
Proof.
  unfold tc_total. destruct t, reason; simpl; intros H;
    (rewrite checked_add_ok by lia; by eexists).
Qed.
Lemma checked_increment_records_Ok t records t' :
  checked_increment_records t records = Ok t' -> tc_total t' = (tc_total t + len records)%N.
Proof.
  unfold checked_increment_records. revert t.
  induction records as [|r records IH]; intros t H; simpl in H.
  - rust_inv. unfold len; simpl; lia.
  - rust_inv. rewrite len_cons.
    repeat match goal with
    | H : checked_increment _ _ = Ok _ |- _ => apply checked_increment_Ok in H
    | H : try_fold _ _ _ = Ok _ |- _ => apply IH in H end. lia.
Qed.
Lemma checked_increment_records_total t records :
  (tc_total t + len records <= u64_max)%N ->
  exists t', checked_increment_records t records = Ok t'.
Proof.
  unfold checked_increment_records. revert t.
  induction records as [|r records IH]; intros t H; simpl; [by eexists|].
  rewrite len_cons in H.
  destruct (checked_increment_total t (terminal_reason r)) as [t1 H1]; [lia|].
  rewrite H1. simpl. apply IH. apply checked_increment_Ok in H1. lia.
Qed.

(** ** Removing indices from the queue *)

Lemma remove_loop_spec indices l acc i :
  remove_loop indices (seq i (length l)) (l ++ acc) =
  Some (acc ++ select_from i (fun j => negb (binary_search_is_ok indices j)) l).
Proof.
  revert i acc; induction l as [|x l IH]; intros i acc; simpl; [by rewrite app_nil_r|].
  rewrite select_from_cons. destruct (binary_search_is_ok indices i); simpl.
  - by rewrite IH.
  - by rewrite <-app_assoc, IH, <-app_assoc.
Qed.
Lemma remove_queue_indices_run {E} indices mb :
  remove_queue_indices (E := E) indices mb =
  (set_queue (select (fun j => negb (binary_search_is_ok indices j)) (mb_queue mb)) mb, Ok tt).
Proof.
  unfold remove_queue_indices. pose proof (remove_loop_spec indices (mb_queue mb) [] 0) as H.
  rewrite app_nil_r in H. by rewrite H.
Qed.

Lemma omap_enumerate_select {A B} (f : A -> B) (P : nat -> bool) i (l : list A) :
  omap (fun '(j, x) => if P j then Some (f x) else None) (enumerate_from i l) =
  map f (select_from i P l).
Proof.
  revert i; induction l as [|x l IH]; intros i; [done|]. simpl.
  rewrite select_from_cons. destruct (P i); simpl; [by rewrite IH|done].
Qed.
Lemma records_for_indices_select mb indices reason :
  records_for_indices mb indices reason =
  map (record_of reason) (select (binary_search_is_ok indices) (mb_queue mb)).
Proof. apply omap_enumerate_select. Qed.

Definition removed (indices : list nat) (mb : Mailbox) : list QueuedMessage :=
  select (fun j => bool_decide (j ∈ indices)) (mb_queue mb).
Definition kept (indices : list nat) (mb : Mailbox) : list QueuedMessage :=
  select (fun j => negb (bool_decide (j ∈ indices))) (mb_queue mb).

(** A set of indices that the operations may remove. *)
Definition index_set (indices : list nat) (mb : Mailbox) : Prop :=
  strictly_sorted indices /\ Forall (fun j => j < length (mb_queue mb)) indices.

Lemma kept_search indices mb :
  index_set indices mb ->
  select (fun j => negb (binary_search_is_ok indices j)) (mb_queue mb) = kept indices mb.
Proof.
  intros [Hs _]. apply select_from_ext. intros j _. by rewrite binary_search_spec.
Qed.
Lemma removed_search indices mb :
  index_set indices mb ->
  select (binary_search_is_ok indices) (mb_queue mb) = removed indices mb.
Proof.
  intros [Hs _]. apply select_from_ext. intros j _. by rewrite binary_search_spec.
Qed.
Lemma removed_kept indices mb : removed indices mb ++ kept indices mb ≡ₚ mb_queue mb.
Proof. apply select_from_split. Qed.
Lemma length_removed indices mb :
  index_set indices mb -> length (removed indices mb) = length indices.
Proof.
  intros [Hs Hl]. apply length_select; [by apply strictly_sorted_NoDup|done|].
  intros j _. apply bool_decide_eq_true.
Qed.
Lemma len_removed indices mb : index_set indices mb -> len (removed indices mb) = len indices.
Proof. intros. unfold len. by rewrite length_removed. Qed.

Lemma sum_removed_kept indices mb :
  (sum_N (map item_bytes (removed indices mb)) + sum_N (map item_bytes (kept indices mb)))%N
  = sum_N (map item_bytes (mb_queue mb)).
Proof. by rewrite <-sum_N_app, <-map_app, (removed_kept indices mb). Qed.
Lemma len_removed_kept indices mb :
  (len (removed indices mb) + len (kept indices mb))%N = len (mb_queue mb).
Proof. by rewrite <-len_app, (removed_kept indices mb). Qed.
Lemma elem_of_kept indices mb item : item ∈ kept indices mb -> item ∈ mb_queue mb.
Proof. intros H. rewrite <-(removed_kept indices mb). by apply elem_of_app; right. Qed.
Lemma kept_ids_NoDup indices mb :
  NoDup (map item_id (mb_queue mb)) -> NoDup (map item_id (kept indices mb)).
Proof.
  rewrite <-(removed_kept indices mb). rewrite map_app.
  by intros (_ & _ & H)%NoDup_app.
Qed.

Lemma bytes_for_indices_removed mb indices :
  mailbox_inv mb -> index_set indices mb ->
  bytes_for_indices mb indices = Ok (sum_N (map item_bytes (removed indices mb))).
Proof.
  intros Hi Hs. unfold bytes_for_indices.
  replace (map (fun p => item_bytes (snd p)) _)
    with (map item_bytes (select (binary_search_is_ok indices) (mb_queue mb)))
    by (unfold select_from; by rewrite map_map).
  rewrite removed_search by done. rewrite checked_sum_ok; [done|].
  pose proof (sum_removed_kept indices mb).
  pose proof (inv_queued_bytes mb Hi). pose proof (inv_retained_u64 mb Hi). lia.
Qed.

Lemma index_set_union expired displaced mb :
  index_set expired mb -> index_set displaced mb ->
  index_set (dedup (sort_unstable (expired ++ displaced))) mb.
Proof.
  intros [_ He] [_ Hd]. split; [apply sort_dedup_sorted|].
  apply Forall_forall. intros j Hj. rewrite elem_of_sort_dedup, elem_of_app in Hj.
  rewrite Forall_forall in He, Hd. naive_solver.
Qed.
Lemma index_set_nil mb : index_set [] mb.
Proof. split; constructor. Qed.
#[export] Hint Resolve index_set_union index_set_nil : core.

(** ** The expiry scan *)

Definition reading_in_clock (mb : Mailbox) (r : ClockReading) : Prop :=
  reading_domain r = mb_clock_domain mb /\ reading_generation r = mb_clock_generation mb.

Lemma ensure_reading_Ok mb r u : ensure_reading mb r = Ok u <-> reading_in_clock mb r.
Proof.
  unfold ensure_reading, reading_in_clock. destruct u.
  repeat case_bool_decide; simpl; naive_solver.
Qed.

(** The earliest of the three boundaries of a queued message, and the reason
    it expires with; ties are resolved run deadline, freshness, queue age. *)
Definition item_boundary (item : QueuedMessage) : N * TerminalReason :=
  let run := deadline_value (msg_run_deadline (queued_message item)) in
  let fresh := deadline_value (msg_fresh_until (queued_message item)) in
  let queue_age := deadline_value (queue_age_deadline item) in
  if (run <=? fresh)%N && (run <=? queue_age)%N then (run, RunDeadlineExpired)
  else if (fresh <=? queue_age)%N then (fresh, StaleBeforeRun)
  else (queue_age, QueueAgeExpired).
Definition item_expiry (r : ClockReading) (item : QueuedMessage) : option TerminalReason :=
  if (fst (item_boundary item) <=? now_value r)%N then Some (snd (item_boundary item)) else None.
Definition live (r : ClockReading) (q : list QueuedMessage) : list QueuedMessage :=
  base.filter (fun item => item_expiry r item = None) q.
Definition expiry_records (r : ClockReading) (q : list QueuedMessage) : list TerminalRecord :=
  omap (fun item => (fun reason => record_of reason item) <$> item_expiry r item) q.
Definition expiry_items (r : ClockReading) (i : nat) (q : list QueuedMessage)
    : list (nat * TerminalReason) :=
  omap (fun '(j, item) => (fun reason => (j, reason)) <$> item_expiry r item) (enumerate_from i q).
Definition expired_indices (mb : Mailbox) (r : ClockReading) : list nat :=
  map fst (expiry_items r 0 (mb_queue mb)).

Lemma compatible_in_clock mb r d :
  reading_in_clock mb r ->
  in_clock (mb_clock_domain mb) (mb_clock_generation mb) d = true -> compatible d r.
Proof.
  unfold reading_in_clock, compatible. intros [-> ->] [-> ->]%in_clock_iff. done.
Qed.

Lemma expiration_reason_Ok mb r item :
  item_in_clock mb item -> reading_in_clock mb r ->
  expiration_reason item r = Ok (item_expiry r item).
Proof.
  intros (Hq & Hf & Hr) Hc. unfold expiration_reason, item_expiry, item_boundary.
  destruct (_ && _); [|destruct (_ <=? _)%N];
    rewrite is_expired_at_compatible by eauto using compatible_in_clock; done.
Qed.

Lemma try_fold_expired mb r q items i :
  Forall (item_in_clock mb) q -> reading_in_clock mb r ->
  try_fold (fun items '(index, item) =>
      reason ← expiration_reason item r;
      Ok (match reason with Some reason => items ++ [(index, reason)] | None => items end))
    items (enumerate_from i q)
  = Ok (items ++ expiry_items r i q).
Proof.
  intros Hq Hc. revert items i; induction Hq as [|item q Hi _ IH]; intros items i.
  - unfold expiry_items; simpl. by rewrite app_nil_r.
  - simpl. rewrite (expiration_reason_Ok mb) by done. simpl. rewrite IH. f_equal.
    unfold expiry_items; simpl. destruct (item_expiry r item); simpl; [|done].
    by rewrite <-app_assoc.
Qed.
Lemma expired_items_Ok mb r :
  mailbox_inv mb -> reading_in_clock mb r ->
  expired_items mb r = Ok (expiry_items r 0 (mb_queue mb)).
Proof.
  intros Hi Hc. unfold expired_items, enumerate.
  by rewrite (try_fold_expired mb r (mb_queue mb) [] 0 (inv_clock mb Hi) Hc).
Qed.

Lemma elem_of_expiry_items r i q j :
  j ∈ map fst (expiry_items r i q) <->
  exists item, i <= j /\ q !! (j - i) = Some item /\ item_expiry r item <> None.
Proof.
  revert i; induction q as [|item q IH]; intros i.
  - simpl. split; [by intros ?%not_elem_of_nil|]. by intros (?&?&?&?).
  - unfold expiry_items in *; simpl. destruct (item_expiry r item) as [reason|] eqn:E; simpl.
    + rewrite elem_of_cons, IH. split.
      * intros [->|(it&Hle&Hl&?)].
        -- exists item. rewrite Nat.sub_diag. split_and!; [lia|done|congruence].
        -- exists it. split_and!; [lia| |done]. by replace (j - i) with (S (j - S i)) by lia.
      * intros (it&Hle&Hl&Hne). destruct (decide (j = i)) as [->|]; [by left|right].
        exists it. replace (j - i) with (S (j - S i)) in Hl by lia. split_and!; [lia|done|done].
    + rewrite IH. split.
      * intros (it&Hle&Hl&?). exists it. split_and!; [lia| |done].
        by replace (j - i) with (S (j - S i)) by lia.
      * intros (it&Hle&Hl&Hne). destruct (decide (j = i)) as [->|].
        -- rewrite Nat.sub_diag in Hl. by simplify_eq/=.
        -- exists it. replace (j - i) with (S (j - S i)) in Hl by lia. split_and!; [lia|done|done].
Qed.
Lemma expiry_items_sorted r i q : strictly_sorted (map fst (expiry_items r i q)).
Proof.
  revert i; induction q as [|item q IH]; intros i; [constructor|].
  unfold expiry_items; simpl. destruct (item_expiry r item); simpl; [|apply IH].
  constructor; [apply IH|]. apply Forall_forall.
  intros j (?&?&_)%elem_of_expiry_items. lia.
Qed.
Lemma elem_of_expired_indices mb r j :
  j ∈ expired_indices mb r <->
  exists item, mb_queue mb !! j = Some item /\ item_expiry r item <> None.
Proof.
  unfold expired_indices. rewrite elem_of_expiry_items. rewrite Nat.sub_0_r.
  naive_solver lia.
Qed.
Lemma expired_index_set mb r : index_set (expired_indices mb r) mb.
Proof.
  split; [apply expiry_items_sorted|]. apply Forall_forall.
  intros j (?&?&_)%elem_of_expired_indices. by eapply lookup_lt_Some.
Qed.
#[export] Hint Resolve expired_index_set : core.

(** Selecting by a predicate of the element instead of its index. *)
Lemma select_from_filter {A} (Q : A -> Prop) `{forall x, Decision (Q x)} (P : nat -> bool) i l :
  (forall j x, l !! j = Some x -> P (i + j) = true <-> Q x) ->
  select_from i P l = base.filter Q l.
Proof.
  revert i; induction l as [|x l IH]; intros i HP; [done|].
  rewrite select_from_cons, filter_cons.
  pose proof (HP 0 x eq_refl) as H0. rewrite Nat.add_0_r in H0.
  rewrite (IH (S i)).
  - destruct (P i), (decide (Q x)); simpl; naive_solver.
  - intros j y Hy. specialize (HP (S j) y Hy). by rewrite Nat.add_succ_r in HP.
Qed.
Lemma kept_expired mb r : kept (expired_indices mb r) mb = live r (mb_queue mb).
Proof.
  apply select_from_filter. intros j item Hj. simpl.
  rewrite negb_true_iff, bool_decide_eq_false, elem_of_expired_indices. split.
  - intros H. destruct (item_expiry r item) eqn:E; [|done]. exfalso. apply H.
    exists item. by rewrite E.
  - intros H (item' & ? & ?). by simplify_eq.
Qed.
Lemma removed_expired mb r :
  removed (expired_indices mb r) mb =
  base.filter (fun item => item_expiry r item <> None) (mb_queue mb).
Proof.
  apply select_from_filter. intros j item Hj. simpl.
  rewrite bool_decide_eq_true, elem_of_expired_indices. split; [|by eauto].
  intros (item' & ? & ?). by simplify_eq.
Qed.
Lemma len_expiry_records mb r :
  len (expiry_records r (mb_queue mb)) = len (expired_indices mb r).
Proof.
  unfold expired_indices, len. f_equal. rewrite length_map. unfold expiry_items, expiry_records.
  generalize 0. induction (mb_queue mb) as [|item q IH]; intros i; [done|]. simpl.
  destruct (item_expiry r item); simpl; [f_equal|]; apply IH.
Qed.
Lemma records_for_expired_items_Ok mb r :
  records_for_expired_items mb (expiry_items r 0 (mb_queue mb)) =
  Ok (expiry_records r (mb_queue mb)).
Proof.
  unfold records_for_expired_items.
  assert (forall q k acc,
    mb_queue mb = k ++ q ->
    try_fold (fun records '(index, reason) =>
      item ← queue_index mb index; Ok (records ++ [record_of reason item])) acc
      (expiry_items r (length k) q) = Ok (E := MailboxError) (acc ++ expiry_records r q)) as H.
  { induction q as [|item q IH]; intros k acc Hk; simpl.
    - by rewrite app_nil_r.
    - unfold expiry_items, expiry_records; simpl.
      specialize (IH (k ++ [item])). rewrite length_app, Nat.add_1_r, <-app_assoc in IH.
      destruct (item_expiry r item) as [reason|]; simpl; [|by apply IH].
      unfold queue_index. rewrite Hk, list_lookup_middle by done. simpl.
      rewrite <-Hk, IH by done. by rewrite <-app_assoc. }
  apply (H (mb_queue mb) [] []). done.
Qed.
