(* ===== verification/MailboxOffer.v ===== *)
(** * Target mailbox: offering a message

    What [try_offer] decides and does on a mailbox that satisfies the
    invariant: the capacity test, the displacement chosen by each overflow
    policy, and the committed state. *)

From S2P Require Import Prelude KernelTime KernelDigest Assignment MailboxModel MailboxInv.

(** ** Capacity *)

Section plan.
Context (mb : Mailbox) (Hinv : mailbox_inv mb).

Definition union_indices (expired displaced : list nat) : list nat :=
  dedup (sort_unstable (expired ++ displaced)).

(** The new totals if [displaced] goes as well as [expired] and a message of
    [incoming] bytes joins. *)
Definition items_after (expired displaced : list nat) : N :=
  len (mb_queue mb) - len (union_indices expired displaced) + 1.
Definition bytes_after (expired displaced : list nat) (incoming : N) : N :=
  mb_queued_bytes mb - sum_N (map item_bytes (removed (union_indices expired displaced) mb))
  + incoming.
Definition fits (expired displaced : list nat) (incoming : N) : Prop :=
  (items_after expired displaced <= limit_capacity_items (mb_limits mb))%N /\
  (bytes_after expired displaced incoming <= limit_capacity_bytes (mb_limits mb))%N /\
  (bytes_after expired displaced incoming + mb_inflight_bytes mb
    <= limit_max_retained_bytes (mb_limits mb))%N.

Lemma sum_removed_le idx :
  (sum_N (map item_bytes (removed idx mb)) <= mb_queued_bytes mb)%N.
Proof. pose proof (sum_removed_kept idx mb). rewrite (inv_queued_bytes mb Hinv). lia. Qed.
Lemma len_index_set_le idx : index_set idx mb -> (len idx <= len (mb_queue mb))%N.
Proof.
  intros H. rewrite <-(len_removed idx mb H). pose proof (len_removed_kept idx mb). lia.
Qed.

Lemma fit_after_removing_cases expired displaced incoming :
  index_set expired mb -> index_set displaced mb ->
  (fit_after_removing mb expired displaced incoming = Err CounterOverflow /\
   (u32_max < items_after expired displaced
    \/ u64_max < bytes_after expired displaced incoming + mb_inflight_bytes mb)%N) \/
  (exists fit, fit_after_removing mb expired displaced incoming = Ok fit /\
    (is_full_fit fit = true <-> fits expired displaced incoming) /\
    (is_full_fit fit = true ->
      items_after expired displaced <= u32_max /\
      bytes_after expired displaced incoming + mb_inflight_bytes mb <= u64_max)%N /\
    (rejection_reason fit = CapacityFull <->
      ~ (items_after expired displaced <= limit_capacity_items (mb_limits mb) /\
         bytes_after expired displaced incoming <= limit_capacity_bytes (mb_limits mb))%N)).
Proof.
  intros He Hd. pose proof (index_set_union _ _ _ He Hd) as Hu.
  unfold fit_after_removing, fits, items_after, bytes_after.
  change (dedup (sort_unstable (expired ++ displaced))) with (union_indices expired displaced) in *.
  rewrite bytes_for_indices_removed by done. simpl.
  pose proof (len_index_set_le _ Hu). pose proof (sum_removed_le (union_indices expired displaced)).
  pose proof (inv_queue_u32 mb Hinv). assert (u32_max < u64_max)%N by done.
  rewrite (checked_sub_ok (len (mb_queue mb))) by done. simpl.
  rewrite (checked_add_ok _ _ 1) by lia. simpl.
  set (items := (len (mb_queue mb) - len (union_indices expired displaced) + 1)%N) in *.
  unfold try_from. destruct (N.leb_spec items u32_max); simpl; [|by left; split; [|lia]].
  rewrite (checked_sub_ok (mb_queued_bytes mb)) by done. simpl.
  set (left := (mb_queued_bytes mb - _)%N) in *.
  unfold checked_add. destruct (N.leb_spec (left + incoming) u64_max); simpl;
    [|by left; split; [|lia]].
  destruct (N.leb_spec (left + incoming + mb_inflight_bytes mb) u64_max); simpl;
    [|by left; split; [|lia]].
  right. eexists. split; [reflexivity|]. unfold is_full_fit, rejection_reason; simpl.
  rewrite !andb_true_iff, !N.leb_le. split_and!; [tauto|lia|].
  destruct (N.leb_spec items (limit_capacity_items (mb_limits mb))),
    (N.leb_spec (left + incoming) (limit_capacity_bytes (mb_limits mb))); simpl;
    split; try done; try lia.
Qed.

(** ** Live indices *)

Context (r : ClockReading).
Abbreviation expired := (expired_indices mb r).
Abbreviation live_idx := (live_indices_excluding mb expired).

Lemma elem_of_live_idx j :
  j ∈ live_idx <-> j < length (mb_queue mb) /\ j ∉ expired.
Proof.
  unfold live_indices_excluding. rewrite list_elem_of_filter, elem_of_seq.
  destruct (expired_index_set mb r) as [Hs _].
  rewrite binary_search_spec, bool_decide_eq_false by done. simpl.
  split; intros [??]; split; (done || lia).
Qed.
Lemma live_idx_index_set : index_set live_idx mb.
Proof.
  split; [apply strictly_sorted_filter, strictly_sorted_seq|].
  apply Forall_forall. intros j [? _]%elem_of_live_idx. done.
Qed.

(** Displacement never names an expired message. *)
Definition displaceable (d : list nat) : Prop :=
  strictly_sorted d /\ (forall j, j ∈ d -> j ∈ live_idx).

Lemma displaceable_index_set d : displaceable d -> index_set d mb.
Proof.
  intros [Hs Hl]. split; [done|]. apply Forall_forall. intros j Hj.
  apply Hl, elem_of_live_idx in Hj as [? _]. done.
Qed.
Lemma displaceable_nil : displaceable [].
Proof. split; [constructor|]. by intros j ?%not_elem_of_nil. Qed.
Lemma displaceable_live : displaceable live_idx.
Proof. split; [apply live_idx_index_set|done]. Qed.

Lemma len_union_indices d :
  displaceable d -> len (union_indices expired d) = (len expired + len d)%N.
Proof.
  intros [Hs Hl]. rewrite <-len_app. unfold len. f_equal.
  apply Permutation_length, NoDup_Permutation.
  - apply strictly_sorted_NoDup, sort_dedup_sorted.
  - apply NoDup_app. split_and!; [apply strictly_sorted_NoDup, expired_index_set| |
      by apply strictly_sorted_NoDup].
    intros j He Hd. apply Hl, elem_of_live_idx in Hd. tauto.
  - intros j. apply elem_of_sort_dedup.
Qed.

Lemma sort_snoc_sorted d j :
  strictly_sorted d -> Forall (fun i => i < j) d -> sort_unstable (d ++ [j]) = d ++ [j].
Proof.
  intros Hs Hj. apply (StronglySorted_unique le).
  - apply sort_unstable_sorted.
  - apply StronglySorted_app_2.
    + intros x1 x2 H1 H2. apply list_elem_of_singleton in H2 as ->.
      rewrite Forall_forall in Hj. apply Hj in H1. simpl in H1. lia.
    + clear Hj. induction Hs as [|a d ? IH Ha]; constructor; [done|].
      eapply Forall_impl; [exact Ha|]. simpl; lia.
    + repeat constructor.
  - apply sort_unstable_Permutation.
Qed.

(** ** Searching the live messages *)

Lemma queue_index_Ok {E} idx j :
  index_set idx mb -> j ∈ idx ->
  exists item, mb_queue mb !! j = Some item /\ queue_index (E := E) mb j = Ok item.
Proof.
  intros [_ Hl] Hj. rewrite Forall_forall in Hl. apply Hl in Hj.
  destruct (lookup_lt_is_Some_2 (mb_queue mb) j Hj) as [item Hitem].
  exists item. unfold queue_index. by rewrite Hitem.
Qed.

Lemma any_index_Ok {E} f idx :
  (forall j, j ∈ idx -> j < length (mb_queue mb)) ->
  exists b, any_index (E := E) mb f idx = Ok b /\
    (b = true <-> exists j item, j ∈ idx /\ mb_queue mb !! j = Some item /\ f item = true).
Proof.
  induction idx as [|j idx IH]; intros Hl; simpl.
  - exists false. split; [done|]. split; [done|]. by intros (?&?&?%not_elem_of_nil&_).
  - destruct (lookup_lt_is_Some_2 (mb_queue mb) j) as [item Hitem]; [apply Hl; left|].
    unfold queue_index. rewrite Hitem. simpl. destruct (f item) eqn:Ef.
    + exists true. split; [done|]. split; [|done]. intros _. exists j, item.
      split_and!; [left|done|done].
    + destruct IH as (b & -> & Hb); [intros; apply Hl; by right|].
      exists b. split; [done|]. rewrite Hb. split.
      * intros (i&it&?&?&?). exists i, it. split_and!; [by right|done|done].
      * intros (i&it&[->|?]%elem_of_cons&?&?); [congruence|]. by exists i, it.
Qed.

Lemma find_index_Ok {E} f idx :
  (forall j, j ∈ idx -> j < length (mb_queue mb)) ->
  exists o, find_index (E := E) mb f idx = Ok o /\
    match o with
    | Some j => exists pre post item, idx = pre ++ j :: post /\
        mb_queue mb !! j = Some item /\ f item = true /\
        (forall i it, i ∈ pre -> mb_queue mb !! i = Some it -> f it = false)
    | None => forall i it, i ∈ idx -> mb_queue mb !! i = Some it -> f it = false
    end.
Proof.
  induction idx as [|j idx IH]; intros Hl; simpl.
  - exists None. split; [done|]. by intros ?? ?%not_elem_of_nil.
  - destruct (lookup_lt_is_Some_2 (mb_queue mb) j) as [item Hitem]; [apply Hl; left|].
    unfold queue_index. rewrite Hitem. simpl. destruct (f item) eqn:Ef.
    + exists (Some j). split; [done|]. exists [], idx, item. split_and!; try done.
      by intros ?? ?%not_elem_of_nil.
    + destruct IH as (o & -> & Ho); [intros; apply Hl; by right|].
      exists o. split; [done|]. destruct o as [j'|].
      * destruct Ho as (pre&post&it&->&?&?&Hpre). exists (j :: pre), post, it.
        split_and!; try done. intros i it' [->|Hi]%elem_of_cons ?; [congruence|by eapply Hpre].
      * intros i it [->|Hi]%elem_of_cons ?; [congruence|by eapply Ho].
Qed.

(** ** Displacement *)

Lemma displaceable_prefix n : displaceable (take n live_idx).
Proof.
  split.
  - destruct live_idx_index_set as [Hs _]. rewrite <-(take_drop n live_idx) in Hs.
    by apply StronglySorted_app_1_l in Hs.
  - intros j Hj. rewrite <-(take_drop n live_idx). by apply elem_of_app; left.
Qed.
Lemma displaceable_singleton j : j ∈ live_idx -> displaceable [j].
Proof. intros Hj. split; [repeat constructor|]. by intros i ->%list_elem_of_singleton. Qed.

Lemma initial_displacement_Ok message :
  exists d reason, initial_displacement mb message live_idx = Ok (d, reason) /\ displaceable d /\
    match limit_overflow (mb_limits mb) with
    | Latest => d = live_idx /\ reason = Evicted
    | CoalesceByKey =>
        (d = [] /\ reason = Evicted /\
          forall j it, j ∈ live_idx -> mb_queue mb !! j = Some it ->
            msg_coalesce_key (queued_message it) <> msg_coalesce_key message) \/
        (exists j it, d = [j] /\ reason = Coalesced /\ mb_queue mb !! j = Some it /\
          msg_coalesce_key (queued_message it) = msg_coalesce_key message /\
          forall i it', i ∈ live_idx -> j < i -> mb_queue mb !! i = Some it' ->
            msg_coalesce_key (queued_message it') <> msg_coalesce_key message)
    | RejectNew | DropOldest | BlockUntilDeadline => d = [] /\ reason = Evicted
    end.
Proof.
  unfold initial_displacement. destruct (limit_overflow (mb_limits mb)).
  1,2,5: exists [], Evicted; eauto using displaceable_nil.
  - exists live_idx, Evicted. eauto using displaceable_live.
  - destruct (find_index_Ok (E := MailboxError) (fun item => bool_decide
      (msg_coalesce_key (queued_message item) = msg_coalesce_key message)) (rev live_idx))
      as (o & -> & Ho).
    { intros j [? _]%elem_of_rev%elem_of_live_idx. done. }
    simpl. destruct o as [j|].
    + destruct Ho as (pre & post & it & Hrev & Hj & Hkey & Hpre).
      apply bool_decide_eq_true in Hkey.
      assert (live_idx = rev post ++ j :: rev pre) as Hlive.
      { rewrite <-(rev_involutive live_idx), Hrev, rev_app_distr. simpl. by rewrite <-app_assoc. }
      exists [j], Coalesced. split_and!; [done| |].
      * apply displaceable_singleton. rewrite Hlive. apply elem_of_app; right; left.
      * right. exists j, it. split_and!; [done..|]. intros i it' Hi Hji Hit'.
        apply (bool_decide_eq_false (_ = _)), (Hpre i it'); [|done].
        destruct live_idx_index_set as [Hs _]. rewrite Hlive in Hs, Hi.
        apply elem_of_app in Hi as [Hi|[->|Hi]%elem_of_cons]; [|lia|by apply elem_of_rev].
        pose proof (StronglySorted_app_1_elem_of lt _ _ _ _ Hs Hi
          (proj2 (elem_of_cons (rev pre) j j) (or_introl eq_refl))). lia.
    + exists [], Evicted. split_and!; [done|apply displaceable_nil|]. left. split_and!; [done..|].
      intros j it Hj Hit. apply (bool_decide_eq_false (_ = _)), (Ho j it); [|done].
      by apply elem_of_rev.
Qed.

(** ** The eviction loop of [DropOldest] *)

Lemma drop_oldest_loop_spec incoming k rest :
  live_idx = take k live_idx ++ rest -> k <= length live_idx ->
  (drop_oldest_loop mb expired incoming (take k live_idx) rest = Err CounterOverflow) \/
  (exists n, drop_oldest_loop mb expired incoming (take k live_idx) rest = Ok (take n live_idx) /\
    k <= n <= length live_idx /\
    (forall m, k < m < n -> ~ fits expired (take m live_idx) incoming) /\
    (n = length live_idx \/ fits expired (take n live_idx) incoming)).
Proof.
  revert k; induction rest as [|j rest IH]; intros k Hlive Hk; simpl.
  - right. exists k. rewrite app_nil_r in Hlive. split_and!; [done|lia|done|lia|].
    left. apply (f_equal length) in Hlive. rewrite length_take in Hlive. lia.
  - pose proof (displaceable_prefix k) as [Hs _].
    assert (Forall (fun i => i < j) (take k live_idx)) as Hlt.
    { destruct live_idx_index_set as [Hl _]. rewrite Hlive in Hl. apply Forall_forall.
      intros i Hi. eapply StronglySorted_app_1_elem_of; [exact Hl|exact Hi|left]. }
    rewrite binary_search_spec, bool_decide_eq_false_2 by
      (done || (intros Hin; rewrite Forall_forall in Hlt; apply Hlt in Hin; simpl in Hin; lia)).
    rewrite sort_snoc_sorted by done.
    assert (take k live_idx ++ [j] = take (S k) live_idx) as Htake.
    { transitivity (take (S k) (take k live_idx ++ j :: rest)); [|by rewrite <-Hlive].
      rewrite take_app_ge by (rewrite length_take; lia).
      replace (S k - length (take k live_idx)) with 1 by (rewrite length_take; lia). done. }
    assert (S k <= length live_idx).
    { apply (f_equal length) in Hlive. rewrite length_app, length_take in Hlive. simpl in Hlive. lia. }
    rewrite Htake.
    destruct (fit_after_removing_cases expired (take (S k) live_idx) incoming)
      as [[-> _]|(fit & -> & Hfit & _)];
      [done|by apply displaceable_index_set, displaceable_prefix|by left|].
    simpl. destruct (is_full_fit fit) eqn:Ef.
    + right. exists (S k). split_and!; [done|lia|lia|lia|]. right. by apply Hfit.
    + destruct (IH (S k)) as [->|(n & -> & Hn & Hmin & Hend)]; [|done|by left|].
      { by rewrite <-Htake, <-app_assoc. }
      right. exists n. split_and!; [done|lia|lia| |done].
      intros m Hm. destruct (decide (m = S k)) as [->|]; [|apply Hmin; lia].
      intros Hf. apply Hfit in Hf. congruence.
Qed.

(** ** The admission decision under pressure *)

Definition coalesce_displacement (message : ValidatedMessage) (d : list nat)
    (reason : TerminalReason) : Prop :=
  (d = [] /\ reason = Evicted /\
    forall j it, j ∈ live_idx -> mb_queue mb !! j = Some it ->
      msg_coalesce_key (queued_message it) <> msg_coalesce_key message) \/
  (exists j it, d = [j] /\ reason = Coalesced /\ mb_queue mb !! j = Some it /\
    msg_coalesce_key (queued_message it) = msg_coalesce_key message /\
    forall i it', i ∈ live_idx -> j < i -> mb_queue mb !! i = Some it' ->
      msg_coalesce_key (queued_message it') <> msg_coalesce_key message).

(** Which live messages an admission displaces under each policy. *)
Definition policy_displacement (message : ValidatedMessage) (d : list nat)
    (reason : TerminalReason) : Prop :=
  match limit_overflow (mb_limits mb) with
  | RejectNew | BlockUntilDeadline => d = []
  | Latest => d = live_idx /\ reason = Evicted
  | CoalesceByKey => coalesce_displacement message d reason
  | DropOldest =>
      exists n, d = take n live_idx /\ reason = Evicted /\
        forall m, m < n -> ~ fits expired (take m live_idx) (charged_bytes (msg_payload message))
  end.

Definition admission_outcome (message : ValidatedMessage) (dec : PlannedOffer) (d : list nat)
    (reason : TerminalReason) : Prop :=
  let incoming := charged_bytes (msg_payload message) in
  match dec with
  | PlanAdmit =>
      fits expired d incoming /\ (items_after expired d <= u32_max)%N /\
      (bytes_after expired d incoming + mb_inflight_bytes mb <= u64_max)%N /\
      policy_displacement message d reason
  | PlanRejected why =>
      (why = CapacityFull \/ why = RetainedCapacityFull) /\
      d = [] /\ limit_overflow (mb_limits mb) <> BlockUntilDeadline /\
      (limit_overflow (mb_limits mb) = RejectNew -> ~ fits expired [] incoming) /\
      (limit_overflow (mb_limits mb) = DropOldest \/ limit_overflow (mb_limits mb) = Latest ->
        ~ fits expired live_idx incoming)
  | PlanWouldBlock =>
      d = [] /\ limit_overflow (mb_limits mb) = BlockUntilDeadline /\ ~ fits expired [] incoming
  | PlanExpiredBeforeAdmission => False
  end.

Lemma rejection_reason_cases fit :
  rejection_reason fit = CapacityFull \/ rejection_reason fit = RetainedCapacityFull.
Proof. unfold rejection_reason. destruct (_ || _); auto. Qed.

(** The last capacity test of an admission that displaces [d]. *)
Lemma final_fit_spec incoming d (reason : TerminalReason) :
  displaceable d ->
  let run :=
    final_fit ← fit_after_removing mb expired d incoming;
    if is_full_fit final_fit then Ok (PlanAdmit, d, reason)
    else Ok (PlanRejected (rejection_reason final_fit), [], reason) in
  run = Err CounterOverflow \/
  (run = Ok (PlanAdmit, d, reason) /\ fits expired d incoming /\
    (items_after expired d <= u32_max)%N /\
    (bytes_after expired d incoming + mb_inflight_bytes mb <= u64_max)%N) \/
  (exists fit, run = Ok (PlanRejected (rejection_reason fit), [], reason) /\
    ~ fits expired d incoming).
Proof.
  intros Hd. simpl. destruct (fit_after_removing_cases expired d incoming)
    as [[-> _]|(fit & -> & Hfit & Hb & _)]; [done|by apply displaceable_index_set|by left|].
  simpl. right. destruct (is_full_fit fit) eqn:Ef.
  - left. destruct Hb as [??]; [done|]. split_and!; [done|by apply Hfit|done|done].
  - right. eexists. split; [done|]. intros Hf%Hfit. congruence.
Qed.

Lemma resolve_admission_spec message :
  resolve_admission mb message expired live_idx = Err CounterOverflow \/
  exists dec d reason,
    resolve_admission mb message expired live_idx = Ok (dec, d, reason) /\
    displaceable d /\ admission_outcome message dec d reason.
Proof.
  unfold resolve_admission. set (incoming := charged_bytes (msg_payload message)).
  destruct (initial_displacement_Ok message) as (d & reason & -> & Hd & Hpol). simpl.
  destruct (fit_after_removing_cases expired d incoming)
    as [[-> _]|(fit & -> & Hfit & Hb & _)]; [done|by apply displaceable_index_set|by left|].
  simpl. destruct (is_full_fit fit) eqn:Ef.
  { right. exists PlanAdmit, d, reason. split_and!; [done..|]. simpl.
    destruct Hb as [Hb1 Hb2]; [done|]. split_and!; [by apply Hfit|done|done|].
    unfold policy_displacement.
    destruct (limit_overflow _); try first [exact Hpol | exact (proj1 Hpol)].
    destruct Hpol as [-> ->]. exists 0. split_and!; [done..|lia]. }
  assert (~ fits expired d incoming) as Hnofit by (intros Hf%Hfit; congruence).
  destruct (limit_overflow (mb_limits mb)) eqn:Epol; simpl.
  - destruct Hpol as [-> ->]. right. eexists _, _, _. split_and!; [done..|]. simpl.
    rewrite Epol. split_and!; [apply rejection_reason_cases|done..|]. intros [?|?]; congruence.
  - destruct Hpol as [-> ->]. pose proof (drop_oldest_loop_spec incoming 0 live_idx) as Hdrop.
    change (take 0 live_idx) with (@nil nat) in Hdrop.
    destruct Hdrop as [->|(n & -> & Hn & Hmin & Hend)]; [done|lia|by left|]. simpl.
    destruct (final_fit_spec incoming (take n live_idx) Evicted (displaceable_prefix n))
      as [H|[(H & Hf & ? & ?)|(fit' & H & Hf)]]; simpl in H; rewrite H; [by left|..]; right;
      eexists _, _, _; (split; [done|]).
    + split; [apply displaceable_prefix|]. split_and!; [done..|].
      unfold policy_displacement. rewrite Epol. exists n. split_and!; [done..|].
      intros [|m] Hm; [done|]. apply Hmin. lia.
    + split; [apply displaceable_nil|]. simpl. rewrite Epol.
      split_and!; [apply rejection_reason_cases|done..|]. intros _ Hl.
      destruct Hend as [->|?]; [|done]. by rewrite firstn_all in Hf.
  - destruct Hpol as [-> ->].
    destruct (final_fit_spec incoming live_idx Evicted Hd)
      as [H|[(H & Hf & ? & ?)|(fit' & H & Hf)]]; simpl in H; rewrite H; [by left|done|]; right.
    eexists _, _, _. split_and!; [done|apply displaceable_nil|]. simpl. rewrite Epol.
    by split_and!; [apply rejection_reason_cases|..].
  - destruct (final_fit_spec incoming d reason Hd)
      as [H|[(H & Hf & ? & ?)|(fit' & H & Hf)]]; simpl in H; rewrite H; [by left|done|]; right.
    eexists _, _, _. split_and!; [done|apply displaceable_nil|]. simpl. rewrite Epol.
    split_and!; [apply rejection_reason_cases|done..|]. intros [?|?]; congruence.
  - destruct Hpol as [-> ->]. right. eexists _, _, _. split_and!; [done..|]. simpl.
    by rewrite Epol.
Qed.
End plan.

(** ** The plan of an offer *)

(** The messages that are not yet expired at [r], and their number. *)
Record planned (mb : Mailbox) (r : ClockReading) (message : ValidatedMessage) (plan : OfferPlan)
    (d : list nat) (reason : TerminalReason) : Prop := {
  planned_clock : reading_in_clock mb r;
  planned_fresh : compatible (msg_fresh_until message) r;
  planned_run : compatible (msg_run_deadline message) r;
  planned_displaceable : displaceable mb r d;
  planned_age_max : (now_value r + duration_value (limit_max_queue_age (mb_limits mb)) <= u64_max)%N;
  planned_age :
    plan_queue_age_deadline plan =
    MkMonotonicDeadline (reading_domain r) (reading_generation r)
      (from_ticks (now_value r + duration_value (limit_max_queue_age (mb_limits mb))));
  planned_expired : plan_expired_records plan = expiry_records r (mb_queue mb);
  planned_displaced : plan_displaced_records plan = map (record_of reason) (removed d mb);
  planned_remove : plan_remove_indices plan = union_indices (expired_indices mb r) d;
  planned_terminals :
    tc_total (plan_next_terminals plan) =
    (tc_total (mb_terminals mb) + len (expired_indices mb r) + len d)%N;
  planned_offers :
    match offer_category (plan_decision plan) with
    | Some category => checked_terminal (mb_offers mb) category = Ok (plan_next_offers plan)
    | None => False
    end;
  planned_bytes :
    plan_next_queued_bytes plan =
    (if bool_decide (plan_decision plan = PlanAdmit)
     then bytes_after mb (expired_indices mb r) d (charged_bytes (msg_payload message))
     else bytes_after mb (expired_indices mb r) d 0)%N;
  planned_decision :
    match plan_decision plan with
    | PlanExpiredBeforeAdmission =>
        d = [] /\ (deadline_value (msg_fresh_until message) <= now_value r
          \/ deadline_value (msg_run_deadline message) <= now_value r
          \/ duration_value (limit_max_queue_age (mb_limits mb)) = 0)%N
    | PlanRejected SchemaMismatch => d = [] /\ msg_schema message <> mb_schema mb
    | PlanRejected InteractionMismatch => d = [] /\ msg_class message <> mb_message_class mb
    | PlanRejected DuplicateActiveMessage =>
        d = [] /\ (is_Some (mb_inflight mb !! msg_id message) \/
          exists item, item ∈ live r (mb_queue mb) /\ item_id item = msg_id message)
    | PlanRejected PayloadTooLarge =>
        d = [] /\
        (limit_capacity_bytes (mb_limits mb) < charged_bytes (msg_payload message)
         \/ limit_max_retained_bytes (mb_limits mb) < charged_bytes (msg_payload message))%N
    | PlanRejected MissingCoalesceKey =>
        d = [] /\ limit_overflow (mb_limits mb) = CoalesceByKey /\ msg_coalesce_key message = None
    | dec =>
        (now_value r < deadline_value (msg_fresh_until message)
         /\ now_value r < deadline_value (msg_run_deadline message)
         /\ 0 < duration_value (limit_max_queue_age (mb_limits mb)))%N /\
        msg_schema message = mb_schema mb /\ msg_class message = mb_message_class mb /\
        mb_inflight mb !! msg_id message = None /\
        (forall item, item ∈ live r (mb_queue mb) -> item_id item <> msg_id message) /\
        admission_outcome mb r message dec d reason
    end;
}.

Lemma elem_of_live_index mb r item :
  item ∈ live r (mb_queue mb) <->
  exists j, j ∈ live_indices_excluding mb (expired_indices mb r) /\ mb_queue mb !! j = Some item.
Proof.
  unfold live. rewrite list_elem_of_filter, list_elem_of_lookup. split.
  - intros (He & j & Hj). exists j. split; [|done]. apply elem_of_live_idx.
    split; [by eapply lookup_lt_Some|]. intros (it & ? & ?)%elem_of_expired_indices.
    by simplify_eq.
  - intros (j & [? Hne]%elem_of_live_idx & Hj). split; [|by exists j].
    destruct (item_expiry r item) eqn:E; [|done]. exfalso. apply Hne.
    apply elem_of_expired_indices. exists item. by rewrite E.
Qed.

Definition offer_error (e : MailboxError) : Prop :=
  e = ClockDomainMismatch \/ e = ClockGenerationMismatch \/ e = MailboxDeadlineOverflow \/
  e = CounterOverflow.

Lemma is_expired_at_cases d r :
  (compatible d r /\ is_expired_at d r = Ok (deadline_value d <=? now_value r)%N) \/
  (exists e, is_expired_at d r = Err e /\ offer_error (mailbox_time_error e)).
Proof.
  destruct (decide (compatible d r)) as [Hc|Hc].
  - left. by rewrite is_expired_at_compatible.
  - right. apply ensure_compatible_Err in Hc as (e & He & H). exists e.
    unfold is_expired_at, offer_error. rewrite H. split; [done|].
    destruct He as [-> | ->]; simpl; tauto.
Qed.
Lemma ensure_reading_cases mb r :
  (reading_in_clock mb r /\ ensure_reading mb r = Ok tt) \/
  (exists e, ensure_reading mb r = Err e /\ offer_error e).
Proof.
  unfold ensure_reading, reading_in_clock, offer_error.
  repeat case_bool_decide; simpl; (left; tauto) || (right; eexists; split; [done|tauto]).
Qed.
Lemma try_deadline_after_cases r dur :
  ((now_value r + duration_value dur <= u64_max)%N /\
   try_deadline_after r dur =
   Ok (MkMonotonicDeadline (reading_domain r) (reading_generation r)
        (from_ticks (now_value r + duration_value dur)))) \/
  try_deadline_after r dur = Err DeadlineOverflow.
Proof.
  unfold try_deadline_after, checked_add. destruct (N.leb_spec (now_value r + duration_value dur) u64_max); auto.
Qed.
Lemma checked_terminal_cases o category :
  checked_terminal o category = Err CounterOverflow \/
  exists o', checked_terminal o category = Ok o'.
Proof.
  unfold checked_terminal, checked_add. destruct category;
    repeat (case_match; simpl; eauto).
Qed.

Lemma duplicate_Ok mb r message :
  exists b,
    (if bool_decide (is_Some (mb_inflight mb !! msg_id message)) then Ok true
     else any_index mb (fun item => bool_decide (item_id item = msg_id message))
            (live_indices_excluding mb (expired_indices mb r))) = Ok (E := MailboxError) b /\
    (b = true <-> is_Some (mb_inflight mb !! msg_id message) \/
      exists item, item ∈ live r (mb_queue mb) /\ item_id item = msg_id message).
Proof.
  case_bool_decide as Hin; [exists true; split; [done|]; tauto|].
  destruct (any_index_Ok (E := MailboxError) mb (fun item => bool_decide (item_id item = msg_id message))
    (live_indices_excluding mb (expired_indices mb r))) as (b & -> & Hb).
  { intros j [? _]%elem_of_live_idx. done. }
  exists b. split; [done|]. rewrite Hb. split.
  - intros (j & item & Hj & Hitem & Heq%bool_decide_eq_true). right. exists item.
    split; [|done]. apply elem_of_live_index. by exists j.
  - intros [?|(item & (j & Hj & Hitem)%elem_of_live_index & Heq)]; [done|].
    exists j, item. by rewrite bool_decide_eq_true.
Qed.

(** The first checks of an offer: what holds when they let the message through,
    and why they stop it otherwise. *)
Lemma initial_decision_spec mb r message dup :
  let d := initial_decision mb message
    (deadline_value (msg_fresh_until message) <=? now_value r)%N
    (deadline_value (msg_run_deadline message) <=? now_value r)%N
    (now_value r + duration_value (limit_max_queue_age (mb_limits mb)) <=? now_value r)%N dup in
  match d with
  | PlanExpiredBeforeAdmission =>
      (deadline_value (msg_fresh_until message) <= now_value r
       \/ deadline_value (msg_run_deadline message) <= now_value r
       \/ duration_value (limit_max_queue_age (mb_limits mb)) = 0)%N
  | PlanRejected SchemaMismatch => msg_schema message <> mb_schema mb
  | PlanRejected InteractionMismatch => msg_class message <> mb_message_class mb
  | PlanRejected DuplicateActiveMessage => dup = true
  | PlanRejected PayloadTooLarge =>
      (limit_capacity_bytes (mb_limits mb) < charged_bytes (msg_payload message)
       \/ limit_max_retained_bytes (mb_limits mb) < charged_bytes (msg_payload message))%N
  | PlanRejected MissingCoalesceKey =>
      limit_overflow (mb_limits mb) = CoalesceByKey /\ msg_coalesce_key message = None
  | PlanAdmit =>
      (now_value r < deadline_value (msg_fresh_until message)
       /\ now_value r < deadline_value (msg_run_deadline message)
       /\ 0 < duration_value (limit_max_queue_age (mb_limits mb)))%N /\
      msg_schema message = mb_schema mb /\ msg_class message = mb_message_class mb /\ dup = false
  | _ => False
  end.
Proof.
  unfold initial_decision.
  destruct (_ || _ || _)%N eqn:E1; simpl.
  { rewrite !orb_true_iff, !N.leb_le in E1. lia. }
  rust_inv. case_bool_decide; [done|]. case_bool_decide; [done|]. destruct dup; [done|].
  destruct (_ || _)%N eqn:E2; simpl. { by rewrite !orb_true_iff, !N.ltb_lt in E2. }
  destruct (_ && _) eqn:E3; simpl; rust_inv; [done|].
  split_and!; try done; try lia; by apply dec_stable.
Qed.

Lemma len_expired_displaced mb r d :
  mailbox_inv mb -> displaceable mb r d ->
  (len (expired_indices mb r) + len d <= len (mb_queue mb))%N.
Proof.
  intros Hi Hd. rewrite <-len_union_indices by done. apply len_index_set_le.
  apply index_set_union; [done|by eapply displaceable_index_set].
Qed.

Lemma offer_plan_tail mb r message dec d reason next_terminals age :
  mailbox_inv mb -> displaceable mb r d ->
  tc_total next_terminals = (tc_total (mb_terminals mb) + len (expired_indices mb r))%N ->
  (dec = PlanAdmit ->
    bytes_after mb (expired_indices mb r) d (charged_bytes (msg_payload message)) <= u64_max)%N ->
  let run :=
    next_terminals ←
      checked_increment_records next_terminals (records_for_indices mb d reason);
    next_offers ←
      match offer_category dec with
      | Some category => checked_terminal (mb_offers mb) category
      | None => Ok (mb_offers mb)
      end;
    let remove_indices := dedup (sort_unstable (expired_indices mb r ++ d)) in
    removed_bytes ← bytes_for_indices mb remove_indices;
    next_queued_bytes ← ok_or (checked_sub (mb_queued_bytes mb) removed_bytes) StateInconsistent;
    next_queued_bytes ←
      (if bool_decide (dec = PlanAdmit) then
         ok_or (checked_add u64_max next_queued_bytes (charged_bytes (msg_payload message)))
           CounterOverflow
       else Ok next_queued_bytes);
    Ok (MkOfferPlan dec age (expiry_records r (mb_queue mb)) (records_for_indices mb d reason)
          remove_indices next_queued_bytes next_offers next_terminals) in
  run = Err CounterOverflow \/
  exists o t, run = Ok (MkOfferPlan dec age (expiry_records r (mb_queue mb))
      (map (record_of reason) (removed d mb)) (union_indices (expired_indices mb r) d)
      (if bool_decide (dec = PlanAdmit)
       then bytes_after mb (expired_indices mb r) d (charged_bytes (msg_payload message))
       else bytes_after mb (expired_indices mb r) d 0)%N o t) /\
    tc_total t = (tc_total (mb_terminals mb) + len (expired_indices mb r) + len d)%N /\
    match offer_category dec with
    | Some category => checked_terminal (mb_offers mb) category = Ok o
    | None => False
    end.
Proof.
  intros Hi Hd Ht Hb. pose proof (displaceable_index_set mb r d Hd) as Hs.
  pose proof (index_set_union _ _ _ (expired_index_set mb r) Hs) as Hu.
  pose proof (len_expired_displaced mb r d Hi Hd) as Hlen.
  pose proof (inv_admitted mb Hi). pose proof (inv_offers mb Hi). pose proof (inv_offered mb Hi).
  rewrite records_for_indices_select, removed_search by done.
  destruct (checked_increment_records_total next_terminals (map (record_of reason) (removed d mb)))
    as [t Ht']; [unfold len in *; rewrite length_map, length_removed by done; lia|].
  rewrite Ht'. apply checked_increment_records_Ok in Ht'. simpl.
  assert (exists category, offer_category dec = Some category) as [category ->]
    by (destruct dec; by eexists).
  destruct (checked_terminal_cases (mb_offers mb) category) as [->|[o ->]]; [by left|].
  simpl. rewrite bytes_for_indices_removed by done. simpl.
  rewrite checked_sub_ok by (by apply sum_removed_le). simpl. right. exists o, t.
  split_and!; [|unfold len in *; rewrite length_map, length_removed in Ht' by done; lia|done].
  unfold bytes_after in *. case_bool_decide as Hdec; simpl.
  - rewrite checked_add_ok; [done|]. by apply Hb.
  - by rewrite N.add_0_r.
Qed.

Lemma offer_plan_spec mb r message :
  mailbox_inv mb ->
  (exists e, offer_plan mb message r = Err e /\ offer_error e) \/
  (exists plan d reason, offer_plan mb message r = Ok plan /\ planned mb r message plan d reason).
Proof.
  intros Hi. unfold offer_plan.
  destruct (ensure_reading_cases mb r) as [[Hc ->]|(e & -> & He)]; [|by left; exists e]. simpl.
  destruct (is_expired_at_cases (msg_fresh_until message) r) as [[Hf ->]|(e & -> & He)];
    [|left; by eexists]. simpl.
  destruct (is_expired_at_cases (msg_run_deadline message) r) as [[Hr ->]|(e & -> & He)];
    [|left; by eexists]. simpl.
  destruct (try_deadline_after_cases r (limit_max_queue_age (mb_limits mb)))
    as [[Hage ->]| ->]; [|left; eexists; split; [done|unfold offer_error; simpl; tauto]]. simpl.
  set (age := MkMonotonicDeadline _ _ _).
  rewrite is_expired_at_compatible by done. simpl.
  rewrite expired_items_Ok by done. simpl. rewrite records_for_expired_items_Ok. simpl.
  destruct (checked_increment_records_total (mb_terminals mb) (expiry_records r (mb_queue mb)))
    as [t Ht].
  { rewrite len_expiry_records. pose proof (len_index_set_le mb _ (expired_index_set mb r)).
    pose proof (inv_admitted mb Hi). pose proof (inv_offers mb Hi). pose proof (inv_offered mb Hi).
    lia. }
  rewrite Ht. simpl. apply checked_increment_records_Ok in Ht. rewrite len_expiry_records in Ht.
  change (indices_for_expired_items (expiry_items r 0 (mb_queue mb))) with (expired_indices mb r).
  destruct (duplicate_Ok mb r message) as (dup & -> & Hdup). simpl.
  pose proof (initial_decision_spec mb r message dup) as Hdec. simpl in Hdec.
  change (deadline_value age) with
    (now_value r + duration_value (limit_max_queue_age (mb_limits mb)))%N.
  set (dec := initial_decision _ _ _ _ _ _) in *. clearbody dec.
  case_bool_decide as Hadm.
  - subst dec. destruct Hdec as (Htime & Hsch & Hcls & ->).
    destruct (resolve_admission_spec mb Hi r message)
      as [->|(dec & d & reason & -> & Hd & Hout)];
      [left; eexists; split; [done|unfold offer_error; tauto]|]. simpl.
    destruct (offer_plan_tail mb r message dec d reason t age Hi Hd Ht) as [Hrun|(o & t' & Hrun & Ht' & Ho)].
    + intros ->. destruct Hout as (_ & _ & Hb & _). lia.
    + left. eexists. split; [exact Hrun|]. unfold offer_error. tauto.
    + right. eexists _, d, reason. split; [exact Hrun|]. constructor; simpl; try done.
      assert (mb_inflight mb !! msg_id message = None /\
        forall item, item ∈ live r (mb_queue mb) -> item_id item <> msg_id message) as [Hn1 Hn2].
      { split; [apply eq_None_not_Some; intros ?; assert (false = true); [apply Hdup; by left|done]|].
        intros item ??. assert (false = true); [apply Hdup; right; eauto|done]. }
      destruct dec as [|why| |]; simpl; [|pose proof Hout as ([-> | ->] & _)|done|]; (do 5 (split; [done|]); exact Hout).
  - simpl. destruct (offer_plan_tail mb r message dec [] Evicted t age Hi (displaceable_nil mb r) Ht)
      as [Hrun|(o & t' & Hrun & Ht' & Ho)]; [done|..].
    + left. eexists. split; [exact Hrun|]. unfold offer_error. tauto.
    + right. eexists _, [], Evicted. split; [exact Hrun|]. constructor; simpl; try done.
      * apply displaceable_nil.
      * destruct dec as [|[]| |]; try done; split; try done. by apply Hdup.
Qed.
