(* ===== verification/MailboxSteps.v ===== *)
(** * Target mailbox: every operation preserves the accounting

    One lemma per kind of state change, then for every operation of the
    mailbox: on a mailbox satisfying the invariant it leaves a mailbox
    satisfying the invariant, whatever its outcome. *)

From S2P Require Import Prelude KernelTime KernelDigest Assignment MailboxModel MailboxInv MailboxOffer.

(** ** State changes *)

Lemma inv_removal mb idx t :
  mailbox_inv mb -> index_set idx mb ->
  tc_total t = (tc_total (mb_terminals mb) + len idx)%N ->
  mailbox_inv (set_terminals t (set_queued_bytes
    (mb_queued_bytes mb - sum_N (map item_bytes (removed idx mb)))
    (set_queue (kept idx mb) mb))).
Proof.
  intros Hi Hs Ht.
  pose proof (sum_removed_kept idx mb) as Hsum. pose proof (len_removed_kept idx mb) as Hlen.
  pose proof (len_removed idx mb Hs) as Hrem. pose proof (elem_of_kept idx mb) as Hk.
  pose proof (kept_ids_NoDup idx mb (inv_ids mb Hi)) as Hids.
  assert (mb_queue mb = [] -> kept idx mb = []) as Hnil.
  { intros E. unfold kept. by rewrite E. }
  destruct Hi as [Ho Ho' Hq Hq' Hf Hf' Hqb Hcb Hib Hr Hr' Hc Hids0 Hdis Ha Hcl Hlim].
  unfold inflight_len in *. revert Hk Hids Hnil Hsum Hlen Hrem.
  generalize (kept idx mb) (removed idx mb). intros k rm Hk Hids Hnil Hsum Hlen Hrem.
  destruct mb; simpl in *.
  constructor; unfold inflight_len; simpl; try lia; try done.
  - apply Forall_forall. intros item Hin. rewrite Forall_forall in Hc. apply Hc. auto.
  - intros item Hin. auto.
  - intros H. destruct (Hcl H). auto.
Qed.

Lemma inv_offers_only mb o :
  mailbox_inv mb ->
  admitted o = admitted (mb_offers mb) ->
  (admitted o + rejected o + closed o + expired_before_admission o = offered o
   /\ offered o <= u64_max)%N ->
  mailbox_inv (set_offers o mb).
Proof.
  intros [] Ha [Hs Hm]. destruct mb; simpl in *.
  constructor; unfold inflight_len in *; simpl in *; try done; lia.
Qed.

Lemma checked_terminal_other o category o' :
  (admitted o + rejected o + closed o + expired_before_admission o = offered o)%N ->
  checked_terminal o category = Ok o' ->
  (admitted o' + rejected o' + closed o' + expired_before_admission o' = offered o'
   /\ offered o' <= u64_max /\ offered o' = offered o + 1)%N /\
  admitted o' = (admitted o + match category with CategoryAdmitted => 1 | _ => 0 end)%N.
Proof.
  unfold checked_terminal. intros Hs H. destruct category; rust_inv; simpl; lia.
Qed.

Lemma inv_push mb item o :
  mailbox_inv mb -> mb_lifecycle mb = Accepting -> item_in_clock mb item ->
  mb_inflight mb !! item_id item = None ->
  (forall it, it ∈ mb_queue mb -> item_id it <> item_id item) ->
  (len (mb_queue mb) + 1 <= limit_capacity_items (mb_limits mb))%N ->
  (len (mb_queue mb) + 1 <= u32_max)%N ->
  (mb_queued_bytes mb + item_bytes item <= limit_capacity_bytes (mb_limits mb))%N ->
  (mb_queued_bytes mb + item_bytes item + mb_inflight_bytes mb
    <= limit_max_retained_bytes (mb_limits mb))%N ->
  (mb_queued_bytes mb + item_bytes item + mb_inflight_bytes mb <= u64_max)%N ->
  checked_terminal (mb_offers mb) CategoryAdmitted = Ok o ->
  mailbox_inv (set_queue (mb_queue mb ++ [item]) (set_offers o
    (set_queued_bytes (mb_queued_bytes mb + item_bytes item) mb))).
Proof.
  intros Hi Hlc Hclk Hnf Hnd Hc1 Hc2 Hb1 Hb2 Hb3 Hterm.
  destruct (checked_terminal_other _ _ _ (inv_offers mb Hi) Hterm) as ((Hs & Hm & _) & Ha').
  destruct Hi as [Ho Ho' Hq Hq' Hf Hf' Hqb Hcb Hib Hr Hr' Hc Hids Hdis Ha Hcl Hlim].
  destruct mb; unfold inflight_len in *; simpl in *.
  constructor; unfold inflight_len; simpl; rewrite ?len_app; change (len [item]) with 1%N;
    try lia; try done.
  - rewrite map_app, sum_N_app. simpl. lia.
  - apply Forall_app. split; [done|by constructor].
  - rewrite map_app. apply NoDup_app. split_and!; [done| |by apply NoDup_singleton].
    intros x (it & -> & Hit)%elem_of_map ?%list_elem_of_singleton. by eapply Hnd.
  - intros it [?| ->%list_elem_of_singleton]%elem_of_app; [by apply Hdis|done].
  - by rewrite Hlc.
Qed.

Lemma inv_close mb : mailbox_inv mb -> mailbox_inv (close_if_drained_internal mb).
Proof.
  intros Hi. unfold close_if_drained_internal. destruct (_ && _ && _) eqn:E; [|done].
  rust_inv. destruct mb; simpl in *. destruct Hi; simpl in *.
  by constructor; unfold inflight_len in *; simpl in *.
Qed.

Lemma inv_draining mb :
  mailbox_inv mb -> mb_lifecycle mb <> Closed -> mailbox_inv (set_lifecycle Draining mb).
Proof.
  intros [] Hl. destruct mb; simpl in *.
  by constructor; unfold inflight_len in *; simpl in *.
Qed.

(** The FIFO head moves to in-flight. *)
Lemma inv_start mb item q generation :
  mailbox_inv mb -> mb_queue mb = item :: q ->
  (inflight_len mb < limit_max_inflight (mb_limits mb))%N ->
  (inflight_len mb < u32_max)%N -> mb_lifecycle mb <> Closed ->
  mailbox_inv
    (set_inflight (<[item_id item := MkInflightAccounting generation (item_bytes item)]>
        (mb_inflight mb))
      (set_next_token_generation generation
        (set_inflight_bytes (mb_inflight_bytes mb + item_bytes item)
          (set_queued_bytes (mb_queued_bytes mb - item_bytes item) (set_queue q mb))))).
Proof.
  intros Hi Hqueue Hmax Hu32 Hl.
  assert (mb_inflight mb !! item_id item = None) as Hnone.
  { apply (inv_disjoint mb Hi). rewrite Hqueue. left. }
  destruct Hi as [Ho Ho' Hq Hq' Hf Hf' Hqb Hcb Hib Hr Hr' Hc Hids Hdis Ha Hcl Hlim].
  destruct mb; unfold inflight_len in *; simpl in *. subst.
  rewrite len_cons in *. simpl in *. apply Forall_cons in Hc as [_ Hc].
  apply NoDup_cons in Hids as [Hnin Hids].
  constructor; unfold inflight_len; simpl; rewrite ?map_size_insert_None by done;
    try lia; try done.
  - rewrite btree_sum_insert by done. simpl. lia.
  - intros it Hit. rewrite lookup_insert_ne; [apply Hdis; by right|].
    intros Heq. apply Hnin. rewrite Heq. apply elem_of_map. by exists it.
Qed.

(** One in-flight message ends. *)
Lemma inv_finish mb id acc t :
  mailbox_inv mb -> mb_inflight mb !! id = Some acc ->
  tc_total t = (tc_total (mb_terminals mb) + 1)%N ->
  mailbox_inv (set_terminals t (set_inflight_bytes (mb_inflight_bytes mb - payload_bytes acc)
    (set_inflight (delete id (mb_inflight mb)) mb))).
Proof.
  intros Hi Hid Ht.
  pose proof (btree_sum_delete payload_bytes _ _ _ Hid) as Hsum.
  pose proof (map_size_delete_Some _ (mb_inflight mb) (mk_is_Some _ _ Hid)) as Hsize.
  assert (size (mb_inflight mb) <> 0) as Hne.
  { intros E. apply map_size_empty_iff in E. by rewrite E, lookup_empty in Hid. }
  destruct Hi as [Ho Ho' Hq Hq' Hf Hf' Hqb Hcb Hib Hr Hr' Hc Hids Hdis Ha Hcl Hlim].
  destruct mb; unfold inflight_len in *; simpl in *.
  constructor; unfold inflight_len; simpl; rewrite ?Hsize; try lia; try done.
  - intros item Hin. rewrite lookup_delete_None. right. by apply Hdis.
  - intros H. destruct (Hcl H) as [-> ->]. by rewrite lookup_empty in Hid.
Qed.

(** All in-flight messages end. *)
Lemma inv_abandon mb t :
  mailbox_inv mb -> tc_total t = (tc_total (mb_terminals mb) + inflight_len mb)%N ->
  mailbox_inv (set_terminals t (set_inflight_bytes 0 (set_inflight ∅ mb))).
Proof.
  intros Hi Ht. destruct Hi as [Ho Ho' Hq Hq' Hf Hf' Hqb Hcb Hib Hr Hr' Hc Hids Hdis Ha Hcl Hlim].
  destruct mb; unfold inflight_len in *; simpl in *.
  constructor; unfold inflight_len; simpl; rewrite ?map_size_empty; try lia; try done.
  intros H. split; [|done]. by apply Hcl.
Qed.

(** ** Offers *)

Definition outcome_of (message : ValidatedMessage) (dec : PlannedOffer) : EnqueueOutcome :=
  match dec with
  | PlanAdmit => EnqueueAdmitted
  | PlanRejected reason => EnqueueRejected reason message
  | PlanExpiredBeforeAdmission => EnqueueExpiredBeforeAdmission message
  | PlanWouldBlock =>
      WouldBlock message
        (if (deadline_value (msg_fresh_until message) <=?
             deadline_value (msg_run_deadline message))%N
         then msg_fresh_until message else msg_run_deadline message)
  end.
Definition queue_after_offer (mb : Mailbox) (r : ClockReading) (message : ValidatedMessage)
    (plan : OfferPlan) (d : list nat) : list QueuedMessage :=
  kept (union_indices (expired_indices mb r) d) mb ++
  (if bool_decide (plan_decision plan = PlanAdmit)
   then [MkQueuedMessage message (plan_queue_age_deadline plan)] else []).
Definition state_after_offer (mb : Mailbox) (r : ClockReading) (message : ValidatedMessage)
    (plan : OfferPlan) (d : list nat) : Mailbox :=
  set_queue (queue_after_offer mb r message plan d)
    (set_terminals (plan_next_terminals plan) (set_offers (plan_next_offers plan)
      (set_queued_bytes (plan_next_queued_bytes plan) mb))).

Lemma offer_commit_run mb r message plan d reason :
  planned mb r message plan d reason ->
  offer_commit message plan mb =
  (state_after_offer mb r message plan d,
   Ok (MkOfferReport (outcome_of message (plan_decision plan))
     (plan_expired_records plan ++ plan_displaced_records plan))).
Proof.
  intros Hp. unfold offer_commit. rewrite run_bind, remove_queue_indices_run.
  rewrite (planned_remove _ _ _ _ _ _ Hp).
  rewrite kept_search by (apply index_set_union; [done|];
    eapply displaceable_index_set, planned_displaceable, Hp).
  unfold state_after_offer, queue_after_offer. rewrite !run_modify.
  generalize (kept (union_indices (expired_indices mb r) d) mb). intros k.
  destruct (plan_decision plan); rewrite run_bind, ?run_modify, run_ret; simpl;
    rewrite ?app_nil_r; by destruct mb.
Qed.

Lemma try_offer_cases mb r message :
  mailbox_inv mb ->
  (exists e, try_offer message r mb = (mb, Err (MkOfferFailure e message)) /\ offer_error e) \/
  (mb_lifecycle mb <> Accepting /\
   exists o, checked_terminal (mb_offers mb) CategoryClosed = Ok o /\
    try_offer message r mb = (set_offers o mb, Ok (MkOfferReport (EnqueueClosed message) []))) \/
  (mb_lifecycle mb = Accepting /\
   exists plan d reason, planned mb r message plan d reason /\
    try_offer message r mb =
    (state_after_offer mb r message plan d,
     Ok (MkOfferReport (outcome_of message (plan_decision plan))
       (plan_expired_records plan ++ plan_displaced_records plan)))).
Proof.
  intros Hi. unfold try_offer. rewrite run_read, inv_validate_state by done. simpl.
  rewrite run_gets. case_bool_decide as Hl.
  - rewrite run_read. destruct (checked_terminal_cases (mb_offers mb) CategoryClosed)
      as [->|[o Ho]]; simpl.
    + left. eexists. split; [done|]. unfold offer_error. tauto.
    + right. left. split; [done|]. exists o. by rewrite Ho.
  - rewrite run_read.
    destruct (offer_plan_spec mb r message Hi) as [(e & -> & He)|(plan & d & reason & -> & Hp)];
      simpl.
    + left. by exists e.
    + right. right. split; [done|]. exists plan, d, reason. split; [done|].
      by erewrite offer_commit_run.
Qed.

Lemma planned_item_in_clock mb r message plan d reason :
  planned mb r message plan d reason ->
  item_in_clock mb (MkQueuedMessage message (plan_queue_age_deadline plan)).
Proof.
  intros Hp. destruct (planned_clock _ _ _ _ _ _ Hp) as [H1 H2].
  destruct (planned_fresh _ _ _ _ _ _ Hp), (planned_run _ _ _ _ _ _ Hp).
  unfold item_in_clock. simpl. rewrite !in_clock_iff, (planned_age _ _ _ _ _ _ Hp). simpl.
  split_and!; congruence.
Qed.

(** A message that survives the removal is live. *)
Lemma kept_union_live mb r d item :
  displaceable mb r d ->
  item ∈ kept (union_indices (expired_indices mb r) d) mb -> item ∈ live r (mb_queue mb).
Proof.
  intros Hd. unfold kept. rewrite elem_of_select_from. intros (j & Hj & Hn).
  apply negb_true_iff, bool_decide_eq_false in Hn. simpl in Hn.
  apply elem_of_live_index. exists j. split; [|done]. apply elem_of_live_idx.
  split; [by eapply lookup_lt_Some|]. intros He. apply Hn.
  apply elem_of_sort_dedup, elem_of_app. by left.
Qed.

Lemma state_after_offer_inv mb r message plan d reason :
  mailbox_inv mb -> mb_lifecycle mb = Accepting -> planned mb r message plan d reason ->
  mailbox_inv (state_after_offer mb r message plan d).
Proof.
  intros Hi Hl Hp. pose proof (planned_displaceable _ _ _ _ _ _ Hp) as Hd.
  assert (index_set (union_indices (expired_indices mb r) d) mb) as Hu.
  { apply index_set_union; [done|]. by eapply displaceable_index_set. }
  pose proof (planned_terminals _ _ _ _ _ _ Hp) as Ht.
  rewrite <-N.add_assoc, <-len_union_indices in Ht by done.
  pose proof (inv_removal mb _ _ Hi Hu Ht) as Hi1.
  pose proof (planned_bytes _ _ _ _ _ _ Hp) as Hb.
  pose proof (planned_offers _ _ _ _ _ _ Hp) as Ho.
  pose proof (len_removed_kept (union_indices (expired_indices mb r) d) mb) as Hlen.
  rewrite (len_removed _ _ Hu) in Hlen.
  unfold state_after_offer, queue_after_offer. revert Hb. unfold bytes_after.
  case_bool_decide as Hadm; intros Hb; rewrite Hb.
  - pose proof (planned_decision _ _ _ _ _ _ Hp) as Hdec.
    pose proof (planned_item_in_clock _ _ _ _ _ _ Hp) as Hclk.
    rewrite Hadm in Hdec, Ho. simpl in Ho.
    destruct Hdec as (_ & _ & _ & Hnf & Hnd & (Hc1 & Hc2 & Hc3) & Hu32 & Hu64 & _).
    unfold items_after, bytes_after in *.
    assert (item_bytes (MkQueuedMessage message (plan_queue_age_deadline plan)) =
      charged_bytes (msg_payload message)) as Hib by done.
    apply (inv_push _ (MkQueuedMessage message (plan_queue_age_deadline plan))
      (plan_next_offers plan)) in Hi1.
    + match goal with H : mailbox_inv ?a |- mailbox_inv ?b => replace b with a; [exact H|] end.
      by destruct mb.
    + by destruct mb.
    + by destruct mb.
    + by destruct mb.
    + intros it Hit. apply Hnd. eapply kept_union_live; [done|]. by destruct mb.
    + destruct mb; simpl in *. lia.
    + destruct mb; simpl in *. lia.
    + rewrite Hib. destruct mb; simpl in *. lia.
    + rewrite Hib. destruct mb; simpl in *. lia.
    + rewrite Hib. destruct mb; simpl in *. lia.
    + destruct mb; simpl in *. exact Ho.
  - assert (exists cat, offer_category (plan_decision plan) = Some cat /\
      match cat with CategoryAdmitted => False | _ => True end) as (cat & Hcat & Hna)
      by (destruct (plan_decision plan); [done|by eexists..]).
    rewrite Hcat in Ho.
    destruct (checked_terminal_other _ _ _ (inv_offers mb Hi) Ho) as ((Hs & Hm & _) & Ha).
    apply (inv_offers_only _ (plan_next_offers plan)) in Hi1.
    + match goal with H : mailbox_inv ?a |- mailbox_inv ?b => replace b with a; [exact H|] end.
      rewrite app_nil_r, N.add_0_r. by destruct mb.
    + destruct mb; simpl in *. destruct cat; [done|lia..].
    + lia.
Qed.

Lemma try_offer_inv mb r message :
  mailbox_inv mb -> mailbox_inv (fst (try_offer message r mb)).
Proof.
  intros Hi. destruct (try_offer_cases mb r message Hi)
    as [(e & -> & _)|[(_ & o & Ho & ->)|(Hl & plan & d & reason & Hp & ->)]]; simpl.
  - done.
  - destruct (checked_terminal_other _ _ _ (inv_offers mb Hi) Ho) as ((Hs & Hm & _) & Ha).
    apply inv_offers_only; [done|lia|lia].
  - by eapply state_after_offer_inv.
Qed.

(** ** Dispatch *)

(** The mailbox after the expired messages have been removed. *)
Definition state_without_expired (mb : Mailbox) (r : ClockReading) (t : TerminalCounters) : Mailbox :=
  set_terminals t (set_queued_bytes
    (mb_queued_bytes mb - sum_N (map item_bytes (removed (expired_indices mb r) mb)))
    (set_queue (live r (mb_queue mb)) mb)).

(** The transfer of the head [item] of [item :: q] to in-flight. *)
Definition state_started (mb : Mailbox) (item : QueuedMessage) (q : list QueuedMessage) : Mailbox :=
  let generation := (mb_next_token_generation mb + 1)%N in
  set_inflight (<[item_id item := MkInflightAccounting generation (item_bytes item)]>
      (mb_inflight mb))
    (set_next_token_generation generation
      (set_inflight_bytes (mb_inflight_bytes mb + item_bytes item)
        (set_queued_bytes (mb_queued_bytes mb - item_bytes item) (set_queue q mb)))).

Lemma expiry_counters mb r :
  mailbox_inv mb ->
  exists t, checked_increment_records (mb_terminals mb) (expiry_records r (mb_queue mb)) = Ok t /\
    tc_total t = (tc_total (mb_terminals mb) + len (expired_indices mb r))%N.
Proof.
  intros Hi. destruct (checked_increment_records_total (mb_terminals mb)
    (expiry_records r (mb_queue mb))) as [t Ht].
  - rewrite len_expiry_records. pose proof (len_index_set_le mb _ (expired_index_set mb r)).
    pose proof (inv_admitted mb Hi). pose proof (inv_offers mb Hi).
    pose proof (inv_offered mb Hi). lia.
  - exists t. split; [done|]. by rewrite (checked_increment_records_Ok _ _ _ Ht), len_expiry_records.
Qed.

Lemma state_without_expired_inv mb r t :
  mailbox_inv mb -> tc_total t = (tc_total (mb_terminals mb) + len (expired_indices mb r))%N ->
  mailbox_inv (state_without_expired mb r t).
Proof.
  intros Hi Ht. unfold state_without_expired. rewrite <-kept_expired.
  by apply inv_removal.
Qed.

Lemma len_live mb r :
  len (live r (mb_queue mb)) = (len (mb_queue mb) - len (expired_indices mb r))%N.
Proof.
  rewrite <-kept_expired. pose proof (len_removed_kept (expired_indices mb r) mb).
  rewrite len_removed in H by done. lia.
Qed.

Lemma inflight_plan_spec mb r :
  mailbox_inv mb -> reading_in_clock mb r ->
  exists t, tc_total t = (tc_total (mb_terminals mb) + len (expired_indices mb r))%N /\
  let can := bool_decide (live r (mb_queue mb) <> [])
             && (inflight_len mb <? limit_max_inflight (mb_limits mb))%N in
  let plan generation :=
    {| inflight_expired_indices := expired_indices mb r;
       inflight_expired_records := expiry_records r (mb_queue mb);
       inflight_next_terminals := t;
       inflight_next_queued_bytes :=
         (mb_queued_bytes mb - sum_N (map item_bytes (removed (expired_indices mb r) mb)))%N;
       inflight_remaining_items := len (live r (mb_queue mb));
       inflight_next_token_generation := generation |} in
  inflight_plan mb r =
  if can then
    if (mb_next_token_generation mb + 1 <=? u64_max)%N
    then Ok (plan (Some (mb_next_token_generation mb + 1)%N)) else Err CounterOverflow
  else Ok (plan None).
Proof.
  intros Hi Hc. destruct (expiry_counters mb r Hi) as (t & Ht & Htot).
  exists t. split; [done|]. unfold inflight_plan.
  rewrite expired_items_Ok by done. simpl. rewrite records_for_expired_items_Ok. simpl.
  rewrite Ht. simpl. unfold indices_for_expired_items. fold (expired_indices mb r).
  rewrite bytes_for_indices_removed by done. simpl.
  pose proof (sum_removed_le mb Hi (expired_indices mb r)).
  pose proof (len_index_set_le mb _ (expired_index_set mb r)).
  pose proof (inv_inflight_u32 mb Hi) as Hu. unfold inflight_len in *.
  rewrite (checked_sub_ok (mb_queued_bytes mb)) by done. simpl.
  rewrite (checked_sub_ok (len (mb_queue mb))) by done. simpl.
  rewrite try_from_ok by done. simpl. rewrite <-len_live.
  replace (0 <? len (live r (mb_queue mb)))%N with (bool_decide (live r (mb_queue mb) <> [])).
  2:{ destruct (live r (mb_queue mb)); [done|]. rewrite len_cons. symmetry.
      rewrite bool_decide_eq_true_2 by done. apply N.ltb_lt. lia. }
  destruct (_ && _); [|done]. unfold checked_add. by destruct (_ <=? _)%N.
Qed.

Lemma ensure_reading_exact mb r :
  (reading_in_clock mb r /\ ensure_reading mb r = Ok tt) \/
  (~ reading_in_clock mb r /\
   exists e, ensure_reading mb r = Err e /\
     (e = ClockDomainMismatch \/ e = ClockGenerationMismatch)).
Proof.
  unfold ensure_reading, reading_in_clock. repeat case_bool_decide; simpl;
    (left; tauto) || (right; split; [tauto|eauto]).
Qed.

(** What a dispatch attempt does, on every branch. *)
Inductive dispatched (mb : Mailbox) (r : ClockReading)
    : Mailbox * result MailboxError DispatchReport -> Prop :=
| dispatched_closed :
    mb_lifecycle mb = Closed ->
    dispatched mb r (mb, Ok (MkDispatchReport DispatchClosed []))
| dispatched_clock e :
    mb_lifecycle mb <> Closed -> ~ reading_in_clock mb r ->
    e = ClockDomainMismatch \/ e = ClockGenerationMismatch ->
    dispatched mb r (mb, Err e)
| dispatched_exhausted :
    mb_lifecycle mb <> Closed -> reading_in_clock mb r -> live r (mb_queue mb) <> [] ->
    (inflight_len mb < limit_max_inflight (mb_limits mb))%N ->
    (u64_max < mb_next_token_generation mb + 1)%N ->
    dispatched mb r (mb, Err CounterOverflow)
| dispatched_started t item q :
    mb_lifecycle mb <> Closed -> reading_in_clock mb r ->
    mailbox_inv (state_without_expired mb r t) ->
    live r (mb_queue mb) = item :: q ->
    (inflight_len mb < limit_max_inflight (mb_limits mb))%N ->
    dispatched mb r
      (state_started (state_without_expired mb r t) item q,
       Ok (MkDispatchReport
         (Started (MkInflightToken (mb_reference mb) (mb_next_token_generation mb + 1)
           (queued_message item)))
         (expiry_records r (mb_queue mb))))
| dispatched_empty t :
    mb_lifecycle mb <> Closed -> reading_in_clock mb r ->
    mailbox_inv (state_without_expired mb r t) ->
    live r (mb_queue mb) = [] ->
    dispatched mb r
      (close_if_drained_internal (state_without_expired mb r t),
       Ok (MkDispatchReport
         (if bool_decide (mb_lifecycle (close_if_drained_internal (state_without_expired mb r t))
                          = Closed)
          then DispatchClosed else NoQueuedMessage)
         (expiry_records r (mb_queue mb))))
| dispatched_no_permit t :
    mb_lifecycle mb <> Closed -> reading_in_clock mb r ->
    mailbox_inv (state_without_expired mb r t) ->
    live r (mb_queue mb) <> [] ->
    (limit_max_inflight (mb_limits mb) <= inflight_len mb)%N ->
    dispatched mb r
      (state_without_expired mb r t,
       Ok (MkDispatchReport DispatchNoPermit (expiry_records r (mb_queue mb)))).

Lemma start_inflight_run mb item q :
  mailbox_inv mb -> mb_queue mb = item :: q ->
  start_inflight (mb_next_token_generation mb + 1) mb =
  (state_started mb item q,
   Ok (Started (MkInflightToken (mb_reference mb) (mb_next_token_generation mb + 1)
     (queued_message item)))).
Proof.
  intros Hi Hq. unfold start_inflight. rewrite run_bind. unfold pop_front. rewrite Hq.
  assert (mb_inflight mb !! item_id item = None) as Hnone.
  { apply (inv_disjoint mb Hi). rewrite Hq. left. }
  pose proof (inv_queued_bytes mb Hi) as Hqb. pose proof (inv_retained_u64 mb Hi).
  rewrite Hq in Hqb. simpl in Hqb.
  unfold state_started. destruct mb; simpl in *.
  rewrite run_read. simpl. rewrite checked_sub_ok by lia. simpl.
  rewrite run_read. simpl. rewrite checked_add_ok by lia. simpl.
  rewrite run_gets. simpl. rewrite Hnone. done.
Qed.

Lemma try_begin_inflight_cases mb r :
  mailbox_inv mb -> dispatched mb r (try_begin_inflight r mb).
Proof.
  intros Hi. unfold try_begin_inflight. rewrite run_read, inv_validate_state by done.
  rewrite run_gets. case_bool_decide as Hl; [by apply dispatched_closed|].
  rewrite run_read. destruct (ensure_reading_exact mb r) as [[Hc ->]|(Hc & e & -> & He)];
    [|by apply dispatched_clock].
  destruct (inflight_plan_spec mb r Hi Hc) as (t & Ht & Hplan).
  pose proof (state_without_expired_inv mb r t Hi Ht) as Hi'.
  rewrite run_read, Hplan. clear Hplan.
  destruct (bool_decide _ && _) eqn:Ecan; rust_inv; [destruct (_ <=? _)%N eqn:Eg|].
  - destruct (live r (mb_queue mb)) as [|item q] eqn:Elive; [done|].
    rewrite run_bind, remove_queue_indices_run. simpl.
    rewrite kept_search, kept_expired by done. rewrite !run_modify.
    rewrite run_bind.
    match goal with |- context[start_inflight _ ?s] =>
      assert (s = state_without_expired mb r t) as -> by by destruct mb end.
    assert (mb_next_token_generation mb =
      mb_next_token_generation (state_without_expired mb r t)) as Hg by by destruct mb.
    rewrite Hg, (start_inflight_run _ item q) by (done || by destruct mb).
    rewrite <-Hg. rewrite run_ret.
    replace (mb_reference (state_without_expired mb r t)) with (mb_reference mb) by by destruct mb.
    by apply dispatched_started.
  - apply N.leb_gt in Eg. by apply dispatched_exhausted.
  - rewrite run_bind, remove_queue_indices_run. simpl.
    rewrite kept_search, kept_expired by done. rewrite !run_modify.
    match goal with |- context[set_terminals t ?s] =>
      assert (set_terminals t s = state_without_expired mb r t) as -> by by destruct mb end.
    rewrite run_bind. destruct (N.eqb_spec (len (live r (mb_queue mb))) 0) as [E0|E0].
    + rewrite run_modify, run_gets, !run_ret. apply dispatched_empty; [done..|].
      apply length_zero_iff_nil. unfold len in E0. lia.
    + rewrite !run_ret. apply dispatched_no_permit; [done..| |].
      * intros E. by rewrite E in E0.
      * apply andb_false_iff in Ecan as [Ecan|Ecan]; rust_inv; [|lia].
        destruct Ecan. intros E. by rewrite E in E0.
Qed.

Lemma try_begin_inflight_inv mb r :
  mailbox_inv mb -> mailbox_inv (fst (try_begin_inflight r mb)).
Proof.
  intros Hi. destruct (try_begin_inflight_cases mb r Hi) as
    [| | |t item q Hl _ Hi' Hlive Hmax|t Hl _ Hi' Hlive|]; simpl; try done.
  - unfold state_started.
    replace (mb_next_token_generation mb) with
      (mb_next_token_generation (state_without_expired mb r t)) by by destruct mb.
    apply inv_start; [done|by destruct mb| | |by destruct mb].
    + by destruct mb.
    + pose proof (inv_inflight_u32 _ Hi'). pose proof (inv_limit_u32 _ Hi').
      unfold inflight_len in *. destruct mb; simpl in *. lia.
  - by apply inv_close.
Qed.

(** ** Terminals and shutdown *)

(** The mailbox after [token] ended and the counters became [t]. *)
Definition state_finished (mb : Mailbox) (token : InflightToken) (t : TerminalCounters) : Mailbox :=
  close_if_drained_internal (set_terminals t
    (set_inflight_bytes (mb_inflight_bytes mb - charged_bytes (msg_payload (token_message token)))
      (set_inflight (delete (msg_id (token_message token)) (mb_inflight mb)) mb))).

(** A token names the in-flight message it was issued for. *)
Definition token_live (mb : Mailbox) (token : InflightToken) : Prop :=
  token_mailbox token = mb_reference mb /\
  mb_inflight mb !! msg_id (token_message token) =
    Some (MkInflightAccounting (token_token_generation token)
            (charged_bytes (msg_payload (token_message token)))).

Lemma btree_sum_lookup_le mb id acc :
  mailbox_inv mb -> mb_inflight mb !! id = Some acc -> (payload_bytes acc <= mb_inflight_bytes mb)%N.
Proof.
  intros Hi Hid. rewrite (inv_inflight_bytes mb Hi), (btree_sum_delete payload_bytes _ _ _ Hid). lia.
Qed.
Lemma inflight_pos mb id acc : mb_inflight mb !! id = Some acc -> (0 < inflight_len mb)%N.
Proof.
  intros Hid. unfold inflight_len. destruct (decide (size (mb_inflight mb) = 0)) as [E|]; [|lia].
  apply map_size_empty_iff in E. by rewrite E, lookup_empty in Hid.
Qed.
Lemma room_for_terminal mb :
  mailbox_inv mb -> (0 < inflight_len mb)%N -> (tc_total (mb_terminals mb) < u64_max)%N.
Proof.
  intros Hi ?. pose proof (inv_admitted mb Hi). pose proof (inv_offers mb Hi).
  pose proof (inv_offered mb Hi). lia.
Qed.

Lemma finish_checks_spec mb token reason :
  mailbox_inv mb ->
  (is_inflight_completion reason = false /\
    finish_checks mb token reason = Err InvalidTerminalReason) \/
  (is_inflight_completion reason = true /\ ~ token_live mb token /\
    finish_checks mb token reason = Err InflightTokenMismatch) \/
  (is_inflight_completion reason = true /\ token_live mb token /\
   exists t, tc_total t = (tc_total (mb_terminals mb) + 1)%N /\
    finish_checks mb token reason =
    Ok (t, mb_inflight_bytes mb - charged_bytes (msg_payload (token_message token)))%N).
Proof.
  intros Hi. unfold finish_checks, token_live. rewrite inv_validate_state by done. simpl.
  destruct (is_inflight_completion reason); simpl; [right|by left].
  case_bool_decide as Href; simpl; [left; split_and!; [done|tauto|done]|].
  destruct (mb_inflight mb !! msg_id (token_message token)) as [[g p]|] eqn:Hid; simpl;
    [|left; split_and!; [done|by intros [_ ?]|done]].
  destruct (N.eqb_spec g (token_token_generation token)) as [->|]; simpl;
    [|left; split_and!; [done|intros [_ ?]; by simplify_eq|done]].
  destruct (N.eqb_spec p (charged_bytes (msg_payload (token_message token)))) as [->|]; simpl;
    [|left; split_and!; [done|intros [_ ?]; by simplify_eq|done]].
  right. split_and!; [done..|].
  destruct (checked_increment_total (mb_terminals mb) reason) as [t Ht].
  { apply room_for_terminal; [done|]. by eapply inflight_pos. }
  exists t. split; [by eapply checked_increment_Ok|]. rewrite Ht. simpl.
  apply btree_sum_lookup_le in Hid; [|done]. simpl in Hid. by rewrite checked_sub_ok.
Qed.

Lemma mailbox_finish_cases mb token reason :
  mailbox_inv mb ->
  (is_inflight_completion reason = false /\
    mailbox_finish token reason mb = (mb, Err (MkFinishFailure InvalidTerminalReason token))) \/
  (is_inflight_completion reason = true /\ ~ token_live mb token /\
    mailbox_finish token reason mb = (mb, Err (MkFinishFailure InflightTokenMismatch token))) \/
  (is_inflight_completion reason = true /\ token_live mb token /\
   exists t, tc_total t = (tc_total (mb_terminals mb) + 1)%N /\
    mailbox_finish token reason mb =
    (state_finished mb token t,
     Ok (MkTerminalRecord (msg_id (token_message token)) reason
       (charged_bytes (msg_payload (token_message token)))))).
Proof.
  intros Hi. unfold mailbox_finish. rewrite run_read.
  destruct (finish_checks_spec mb token reason Hi) as
    [(? & ->)|[(? & ? & ->)|(? & ? & t & ? & ->)]]; simpl; [by left|by right; left|].
  right; right. split_and!; [done..|]. by exists t.
Qed.

Lemma mailbox_finish_inv mb token reason :
  mailbox_inv mb -> mailbox_inv (fst (mailbox_finish token reason mb)).
Proof.
  intros Hi. destruct (mailbox_finish_cases mb token reason Hi) as
    [(? & ->)|[(? & ? & ->)|(? & [_ Hid] & t & Ht & ->)]]; [done..|]. simpl.
  apply inv_close. by apply (inv_finish mb _ _ t Hi Hid).
Qed.

Lemma len_uncertain_records mb : len (uncertain_records mb) = inflight_len mb.
Proof.
  unfold uncertain_records, len, inflight_len. rewrite length_map.
  by rewrite <-(length_btree_keys (mb_inflight mb)); unfold btree_keys; rewrite length_map.
Qed.

Lemma abandon_cases mb :
  mailbox_inv mb ->
  (mb_lifecycle mb = Accepting /\
    abandon_all_inflight_uncertain mb = (mb, Err AbandonRequiresDraining)) \/
  (mb_lifecycle mb <> Accepting /\
   exists t, tc_total t = (tc_total (mb_terminals mb) + inflight_len mb)%N /\
    abandon_all_inflight_uncertain mb =
    (close_if_drained_internal (set_terminals t (set_inflight_bytes 0 (set_inflight ∅ mb))),
     Ok (uncertain_records mb))).
Proof.
  intros Hi. unfold abandon_all_inflight_uncertain. rewrite run_read, inv_validate_state by done.
  rewrite run_gets. case_bool_decide as Hl; [by left|]. right. split; [done|].
  destruct (checked_increment_records_total (mb_terminals mb) (uncertain_records mb)) as [t Ht].
  { rewrite len_uncertain_records. pose proof (inv_admitted mb Hi). pose proof (inv_offers mb Hi).
    pose proof (inv_offered mb Hi). lia. }
  exists t. split; [by rewrite (checked_increment_records_Ok _ _ _ Ht), len_uncertain_records|].
  by rewrite run_gets, run_read, Ht.
Qed.
Lemma abandon_inv mb :
  mailbox_inv mb -> mailbox_inv (fst (abandon_all_inflight_uncertain mb)).
Proof.
  intros Hi. destruct (abandon_cases mb Hi) as [[_ ->]|(_ & t & Ht & ->)]; [done|]. simpl.
  by apply inv_close, inv_abandon.
Qed.

Definition state_stopped (mb : Mailbox) : Mailbox :=
  close_if_drained_internal
    (if bool_decide (mb_lifecycle mb = Accepting) then set_lifecycle Draining mb else mb).
Lemma stop_accepting_run mb : mailbox_inv mb -> stop_accepting mb = (state_stopped mb, Ok tt).
Proof.
  intros Hi. unfold stop_accepting, state_stopped. rewrite run_read, inv_validate_state by done.
  rewrite run_gets, run_bind. by case_bool_decide.
Qed.
Lemma stop_accepting_inv mb : mailbox_inv mb -> mailbox_inv (fst (stop_accepting mb)).
Proof.
  intros Hi. rewrite stop_accepting_run by done. apply inv_close.
  case_bool_decide as Hl; [|done]. apply inv_draining; [done|]. by rewrite Hl.
Qed.

Lemma binary_search_seq n j : j < n -> binary_search_is_ok (seq 0 n) j = true.
Proof.
  intros. rewrite binary_search_spec by apply strictly_sorted_seq.
  apply bool_decide_eq_true, elem_of_seq. lia.
Qed.
Lemma records_for_all mb reason :
  records_for_indices mb (seq 0 (length (mb_queue mb))) reason = map (record_of reason) (mb_queue mb).
Proof.
  rewrite records_for_indices_select, select_from_all; [done|].
  intros j Hj. apply binary_search_seq. lia.
Qed.

Lemma cancel_cases mb :
  mailbox_inv mb ->
  (mb_lifecycle mb = Accepting /\ cancel_all_queued mb = (mb, Err CancelRequiresDraining)) \/
  (mb_lifecycle mb <> Accepting /\
   exists t, tc_total t = (tc_total (mb_terminals mb) + len (mb_queue mb))%N /\
    cancel_all_queued mb =
    (close_if_drained_internal (set_terminals t (set_queued_bytes 0 (set_queue [] mb))),
     Ok (map (record_of Cancelled) (mb_queue mb)))).
Proof.
  intros Hi. unfold cancel_all_queued. rewrite run_read, inv_validate_state by done.
  rewrite run_gets. case_bool_decide as Hl; [by left|]. right. split; [done|].
  rewrite run_gets. case_bool_decide as Hq.
  - exists (mb_terminals mb). rewrite run_modify, run_ret. rewrite Hq. split; [unfold len; simpl; lia|].
    do 3 f_equal. pose proof (inv_queued_bytes mb Hi) as Hb. rewrite Hq in Hb.
    destruct mb; simpl in *. by subst.
  - destruct (checked_increment_records_total (mb_terminals mb)
      (map (record_of Cancelled) (mb_queue mb))) as [t Ht].
    { unfold len. rewrite length_map. fold (len (mb_queue mb)).
      pose proof (inv_admitted mb Hi). pose proof (inv_offers mb Hi).
      pose proof (inv_offered mb Hi). lia. }
    exists t. split.
    + rewrite (checked_increment_records_Ok _ _ _ Ht). unfold len. by rewrite length_map.
    + by rewrite run_gets, run_read, records_for_all, Ht.
Qed.
Lemma cancel_inv mb : mailbox_inv mb -> mailbox_inv (fst (cancel_all_queued mb)).
Proof.
  intros Hi. destruct (cancel_cases mb Hi) as [[_ ->]|(_ & t & Ht & ->)]; [done|]. simpl.
  apply inv_close. pose proof (inv_queued_bytes mb Hi) as Hb.
  pose proof (inv_removal mb (seq 0 (length (mb_queue mb))) t Hi) as H.
  assert (kept (seq 0 (length (mb_queue mb))) mb = []) as Hk.
  { apply select_from_none. intros j Hj. apply negb_false_iff, bool_decide_eq_true, elem_of_seq. lia. }
  assert (removed (seq 0 (length (mb_queue mb))) mb = mb_queue mb) as Hr.
  { apply select_from_all. intros j Hj. apply bool_decide_eq_true, elem_of_seq. lia. }
  rewrite Hk, Hr, <-Hb, N.sub_diag in H. destruct mb. apply H.
  - split; [apply strictly_sorted_seq|]. apply Forall_forall. intros j Hj%elem_of_seq. lia.
  - rewrite Ht. unfold len. by rewrite length_seq.
Qed.

Lemma expire_cases mb r :
  mailbox_inv mb ->
  (mb_lifecycle mb = Closed /\ expire_queued r mb = (mb, Ok [])) \/
  (exists e, expire_queued r mb = (mb, Err e) /\ offer_error e /\ ~ reading_in_clock mb r) \/
  (mb_lifecycle mb <> Closed /\ reading_in_clock mb r /\
   exists t, tc_total t = (tc_total (mb_terminals mb) + len (expired_indices mb r))%N /\
    expire_queued r mb =
    (close_if_drained_internal (state_without_expired mb r t),
     Ok (expiry_records r (mb_queue mb)))).
Proof.
  intros Hi. unfold expire_queued. rewrite run_read, inv_validate_state by done.
  rewrite run_gets. case_bool_decide as Hl; [by left|]. right.
  rewrite run_read. destruct (ensure_reading_exact mb r) as [[Hc ->]|(Hc & e & -> & He)];
    [|left; exists e; unfold offer_error; naive_solver].
  right. split_and!; [done..|]. destruct (expiry_counters mb r Hi) as (t & Ht & Htot).
  exists t. split; [done|]. rewrite run_read. unfold expire_plan.
  rewrite expired_items_Ok by done. simpl. rewrite records_for_expired_items_Ok. simpl.
  rewrite Ht. simpl. unfold indices_for_expired_items. fold (expired_indices mb r).
  rewrite bytes_for_indices_removed by done. simpl.
  pose proof (sum_removed_le mb Hi (expired_indices mb r)).
  rewrite (checked_sub_ok (mb_queued_bytes mb)) by done. simpl.
  rewrite run_bind, remove_queue_indices_run. simpl.
  rewrite kept_search, kept_expired by done. rewrite !run_modify, run_ret.
  by destruct mb.
Qed.
Lemma expire_inv mb r : mailbox_inv mb -> mailbox_inv (fst (expire_queued r mb)).
Proof.
  intros Hi. destruct (expire_cases mb r Hi) as
    [[_ ->]|[(e & -> & _)|(_ & _ & t & Ht & ->)]]; [done..|]. simpl.
  by apply inv_close, state_without_expired_inv.
Qed.

Lemma close_if_drained_run mb :
  mailbox_inv mb ->
  close_if_drained mb =
  (close_if_drained_internal mb,
   Ok (bool_decide (mb_lifecycle (close_if_drained_internal mb) = Closed))).
Proof.
  intros Hi. unfold close_if_drained. by rewrite run_read, inv_validate_state.
Qed.
Lemma close_if_drained_inv mb : mailbox_inv mb -> mailbox_inv (fst (close_if_drained mb)).
Proof. intros Hi. rewrite close_if_drained_run by done. by apply inv_close. Qed.

(** A new mailbox satisfies the invariant. *)
Lemma try_new_with_class_inv reference schema interaction cls spec domain generation mb :
  (max_inflight spec <= u32_max)%N ->
  try_new_with_class reference schema interaction cls spec domain generation = Ok mb ->
  mailbox_inv mb.
Proof.
  unfold try_new_with_class. intros Hu H. rust_inv. simplify_eq.
  constructor; unfold inflight_len, len, tc_total; simpl; rewrite ?map_size_empty; try done; try lia.
  constructor.
Qed.
