(* ===== verification/Mailbox.v ===== *)
(** * Target mailbox: what its clients rely on

    The operations of the mailbox as a labelled step relation, and the
    properties of every run: the accounting invariant, exactly one terminal
    per admitted message, FIFO dispatch, the displacement each overflow
    policy performs, single-use tokens, failure atomicity and draining. *)

From S2P Require Import Prelude Bytes KernelTime KernelDigest Assignment MailboxModel MailboxInv MailboxOffer MailboxSteps.

(** ** Runs *)

(** What one call shows to its caller: the identity it admitted, the terminal
    records it returned, the token it issued and whether it failed. *)
Record CallEvent := MkCallEvent {
  ev_admitted : list MessageId;
  ev_terminals : list TerminalRecord;
  ev_token : option InflightToken;
  ev_status : result MailboxError unit;
}.

Definition status_of {E A : Type} (error : E -> MailboxError) (res : result E A)
    : result MailboxError unit :=
  match res with Ok _ => Ok tt | Err e => Err (error e) | Panic => Panic end.
Definition quiet {E A : Type} (error : E -> MailboxError) (res : result E A) : CallEvent :=
  MkCallEvent [] [] None (status_of error res).

Definition offer_event (message : ValidatedMessage) (res : result OfferFailure OfferReport) : CallEvent :=
  let admitted := match res with
                  | Ok (MkOfferReport EnqueueAdmitted _) => [msg_id message]
                  | _ => []
                  end in
  let records := match res with Ok report => offer_terminals report | _ => [] end in
  MkCallEvent admitted records None (status_of offer_failure_error res).
Definition dispatch_event (res : result MailboxError DispatchReport) : CallEvent :=
  MkCallEvent [] (match res with Ok report => dispatch_expired report | _ => [] end)
    (match res with Ok (MkDispatchReport (Started token) _) => Some token | _ => None end)
    (status_of id res).
Definition finish_event (res : result FinishFailure TerminalRecord) : CallEvent :=
  MkCallEvent [] (match res with Ok record => [record] | _ => [] end) None
    (status_of finish_failure_error res).
Definition records_event (res : result MailboxError (list TerminalRecord)) : CallEvent :=
  MkCallEvent [] (match res with Ok records => records | _ => [] end) None (status_of id res).

Inductive step (mb : Mailbox) : CallEvent -> Mailbox -> Prop :=
| step_offer message r mb' res :
    try_offer message r mb = (mb', res) -> step mb (offer_event message res) mb'
| step_dispatch r mb' res :
    try_begin_inflight r mb = (mb', res) -> step mb (dispatch_event res) mb'
| step_finish token reason mb' res :
    mailbox_finish token reason mb = (mb', res) -> step mb (finish_event res) mb'
| step_abandon mb' res :
    abandon_all_inflight_uncertain mb = (mb', res) -> step mb (records_event res) mb'
| step_stop mb' res :
    stop_accepting mb = (mb', res) -> step mb (quiet id res) mb'
| step_cancel mb' res :
    cancel_all_queued mb = (mb', res) -> step mb (records_event res) mb'
| step_expire r mb' res :
    expire_queued r mb = (mb', res) -> step mb (records_event res) mb'
| step_close mb' res :
    close_if_drained mb = (mb', res) -> step mb (quiet id res) mb'.

Inductive run : Mailbox -> list CallEvent -> Mailbox -> Prop :=
| run_nil mb : run mb [] mb
| run_cons mb event mb' events mb'' :
    step mb event mb' -> run mb' events mb'' -> run mb (event :: events) mb''.

Definition fresh (mb : Mailbox) : Prop :=
  exists reference schema interaction cls spec domain generation,
    (max_inflight spec <= u32_max)%N /\
    try_new_with_class reference schema interaction cls spec domain generation = Ok mb.
Definition reachable (mb : Mailbox) : Prop := exists mb0 events, fresh mb0 /\ run mb0 events mb.

(** The identities a mailbox is responsible for. *)
Definition active (mb : Mailbox) : list MessageId :=
  map item_id (mb_queue mb) ++ btree_keys (mb_inflight mb).

(** ** Invariant along runs *)

Lemma step_inv mb event mb' : mailbox_inv mb -> step mb event mb' -> mailbox_inv mb'.
Proof.
  intros Hi. inversion 1; subst;
    match goal with H : ?op = (mb', _) |- _ => replace mb' with (fst op) by by rewrite H end;
    auto using try_offer_inv, try_begin_inflight_inv, mailbox_finish_inv, abandon_inv,
      stop_accepting_inv, cancel_inv, expire_inv, close_if_drained_inv.
Qed.
Lemma run_inv mb events mb' : mailbox_inv mb -> run mb events mb' -> mailbox_inv mb'.
Proof. intros Hi. induction 1; eauto using step_inv. Qed.
Lemma fresh_inv mb : fresh mb -> mailbox_inv mb.
Proof. intros (?&?&?&?&?&?&?&?&?). by eapply try_new_with_class_inv. Qed.
Lemma reachable_inv mb : reachable mb -> mailbox_inv mb.
Proof. intros (mb0 & events & ? & ?). eapply run_inv; [by apply fresh_inv|done]. Qed.
#[export] Hint Resolve reachable_inv fresh_inv : core.

(** ** Where the identities go *)

Lemma close_if_drained_internal_frame mb :
  exists l, close_if_drained_internal mb = set_lifecycle l mb /\
    (l = mb_lifecycle mb \/ l = Closed /\ mb_queue mb = [] /\ mb_inflight mb = ∅).
Proof.
  unfold close_if_drained_internal. destruct (_ && _ && _) eqn:E; rust_inv.
  - exists Closed. auto.
  - exists (mb_lifecycle mb). split; [by destruct mb|by left].
Qed.
Lemma active_close mb : active (close_if_drained_internal mb) = active mb.
Proof. destruct (close_if_drained_internal_frame mb) as (l & -> & _). by destruct mb. Qed.

Lemma expiry_record_ids mb r :
  map terminal_message_id (expiry_records r (mb_queue mb)) =
  map item_id (removed (expired_indices mb r) mb).
Proof.
  rewrite removed_expired. unfold expiry_records.
  induction (mb_queue mb) as [|item q IH]; [done|]. simpl. rewrite filter_cons.
  destruct (item_expiry r item); simpl; [f_equal|]; apply IH.
Qed.
Lemma record_of_ids reason q : map terminal_message_id (map (record_of reason) q) = map item_id q.
Proof. by rewrite map_map. Qed.

Lemma removed_union mb r d :
  displaceable mb r d ->
  removed (union_indices (expired_indices mb r) d) mb ≡ₚ
  removed (expired_indices mb r) mb ++ removed d mb.
Proof.
  intros [_ Hd]. unfold removed.
  rewrite (select_from_ext 0 _ (fun j => bool_decide (j ∈ expired_indices mb r) || bool_decide (j ∈ d))).
  - apply select_from_orb. intros j He Hj. rust_inv. by apply Hd, elem_of_live_idx in Hj as [_ ?].
  - intros j _. unfold union_indices. apply eq_bool_prop_intro.
    rewrite orb_True, !bool_decide_spec. by rewrite elem_of_sort_dedup, elem_of_app.
Qed.

Lemma active_offer mb r message plan d reason :
  planned mb r message plan d reason ->
  active mb ++ (if bool_decide (plan_decision plan = PlanAdmit) then [msg_id message] else []) ≡ₚ
  active (state_after_offer mb r message plan d) ++
    map terminal_message_id (plan_expired_records plan ++ plan_displaced_records plan).
Proof.
  intros Hp. rewrite (planned_expired _ _ _ _ _ _ Hp), (planned_displaced _ _ _ _ _ _ Hp).
  rewrite map_app, expiry_record_ids, record_of_ids, <-map_app.
  rewrite <-removed_union by eapply planned_displaceable, Hp.
  set (u := union_indices _ _).
  assert (active (state_after_offer mb r message plan d) =
    (map item_id (kept u mb) ++
      (if bool_decide (plan_decision plan = PlanAdmit) then [msg_id message] else [])) ++
    btree_keys (mb_inflight mb)) as ->.
  { unfold active, state_after_offer, queue_after_offer. destruct mb; simpl. f_equal.
    rewrite map_app. by case_bool_decide. }
  unfold active. rewrite <-(removed_kept u mb) at 1. rewrite map_app.
  solve_Permutation.
Qed.

Lemma active_without_expired mb r t :
  active mb ≡ₚ active (state_without_expired mb r t) ++
    map terminal_message_id (expiry_records r (mb_queue mb)).
Proof.
  rewrite expiry_record_ids.
  assert (active (state_without_expired mb r t) =
    map item_id (kept (expired_indices mb r) mb) ++ btree_keys (mb_inflight mb)) as ->
    by (rewrite kept_expired; by destruct mb).
  unfold active. rewrite <-(removed_kept (expired_indices mb r) mb) at 1. rewrite map_app.
  solve_Permutation.
Qed.

Lemma btree_keys_insert {V} (m : gmap MessageId V) k v :
  m !! k = None -> btree_keys (<[k:=v]> m) ≡ₚ k :: btree_keys m.
Proof.
  intros Hk. unfold btree_keys. by rewrite !btree_iter_Permutation, map_to_list_insert.
Qed.
Lemma btree_keys_delete {V} (m : gmap MessageId V) k v :
  m !! k = Some v -> btree_keys m ≡ₚ k :: btree_keys (delete k m).
Proof.
  intros Hk. rewrite <-(insert_delete_id m k v Hk) at 1. apply btree_keys_insert.
  apply lookup_delete_eq.
Qed.

Lemma active_started mb item q :
  mailbox_inv mb -> mb_queue mb = item :: q -> active (state_started mb item q) ≡ₚ active mb.
Proof.
  intros Hi Hq. assert (mb_inflight mb !! item_id item = None) as Hnone.
  { apply (inv_disjoint mb Hi). rewrite Hq. left. }
  unfold active, state_started. destruct mb; simpl in *. subst.
  rewrite btree_keys_insert by done. simpl. symmetry. apply Permutation_middle.
Qed.

Lemma uncertain_record_ids mb :
  map terminal_message_id (uncertain_records mb) = btree_keys (mb_inflight mb).
Proof.
  unfold uncertain_records, btree_keys. rewrite map_map. apply map_ext. by intros [].
Qed.

(** One call: what was active or was admitted by the call is still active or
    has its terminal record in the report, each exactly once. *)
Lemma step_accounts mb event mb' :
  mailbox_inv mb -> step mb event mb' ->
  active mb ++ ev_admitted event ≡ₚ active mb' ++ map terminal_message_id (ev_terminals event).
Proof.
  intros Hi Hstep. inversion Hstep as [m r ? res H|r ? res H|tok reason ? res H|? res H|? res H|? res H
    |r ? res H|? res H]; subst.
  - destruct (try_offer_cases mb r m Hi) as
      [(e & Ho & _)|[(_ & o & _ & Ho)|(_ & plan & d & reason & Hp & Ho)]];
      rewrite Ho in H; simplify_eq; simpl.
    + done.
    + by destruct mb.
    + etrans; [|by eapply active_offer]. apply Permutation_app_head.
      by destruct (plan_decision plan).
  - rewrite app_nil_r. pose proof (try_begin_inflight_cases mb r Hi) as Hd. rewrite H in Hd.
    inversion Hd as [| | |t item q ? ? Hi' Hlive|t ? ? Hi' Hlive|t]; subst; simpl.
    + by rewrite app_nil_r.
    + by rewrite app_nil_r.
    + by rewrite app_nil_r.
    + rewrite active_started; [apply active_without_expired|done|by destruct mb].
    + rewrite active_close. apply active_without_expired.
    + apply active_without_expired.
  - rewrite app_nil_r. destruct (mailbox_finish_cases mb tok reason Hi) as
      [(_ & Hf)|[(_ & _ & Hf)|(_ & [_ Hl] & t & _ & Hf)]];
      rewrite Hf in H; simplify_eq; simpl; rewrite ?app_nil_r; [done..|].
    unfold state_finished. rewrite active_close. unfold active. rewrite (btree_keys_delete _ _ _ Hl).
    destruct mb; simpl. solve_Permutation.
  - rewrite app_nil_r. destruct (abandon_cases mb Hi) as [[_ Hf]|(_ & t & _ & Hf)];
      rewrite Hf in H; simplify_eq; simpl; rewrite ?app_nil_r; [done|].
    rewrite active_close, uncertain_record_ids. unfold active. destruct mb; simpl.
    by rewrite app_nil_r.
  - rewrite stop_accepting_run in H by done. simplify_eq. simpl. unfold state_stopped.
    rewrite active_close, !app_nil_r. case_bool_decide; by destruct mb.
  - rewrite app_nil_r. destruct (cancel_cases mb Hi) as [[_ Hf]|(_ & t & _ & Hf)];
      rewrite Hf in H; simplify_eq; simpl; rewrite ?app_nil_r; [done|].
    rewrite active_close, record_of_ids. unfold active. destruct mb; simpl.
    apply Permutation_app_comm.
  - rewrite app_nil_r. destruct (expire_cases mb r Hi) as [[_ Hf]|[(e & Hf & _)|(_ & _ & t & _ & Hf)]];
      rewrite Hf in H; simplify_eq; simpl; rewrite ?app_nil_r; [done..|].
    rewrite active_close. apply active_without_expired.
  - rewrite close_if_drained_run in H by done. simplify_eq. simpl.
    by rewrite active_close, !app_nil_r.
Qed.

Lemma run_accounts mb events mb' :
  mailbox_inv mb -> run mb events mb' ->
  active mb ++ mjoin (map ev_admitted events) ≡ₚ
  active mb' ++ map terminal_message_id (mjoin (map ev_terminals events)).
Proof.
  intros Hi Hr. induction Hr as [|mb event mb' events mb'' Hs Hr IH]; [done|]. simpl.
  rewrite app_assoc, (step_accounts _ _ _ Hi Hs), map_app.
  specialize (IH (step_inv _ _ _ Hi Hs)).
  trans ((active mb' ++ mjoin (map ev_admitted events)) ++
    map terminal_message_id (ev_terminals event)); [solve_Permutation|].
  rewrite IH. solve_Permutation.
Qed.

(** ** Tokens *)

(** Every in-flight message carries a generation that was already issued. *)
Definition generations_issued (mb : Mailbox) : Prop :=
  forall id acc, mb_inflight mb !! id = Some acc ->
    (token_generation acc <= mb_next_token_generation mb)%N.

(** A token that was issued and is no longer in flight. *)
Definition token_spent (mb : Mailbox) (token : InflightToken) : Prop :=
  (token_token_generation token <= mb_next_token_generation mb)%N /\
  forall acc, mb_inflight mb !! msg_id (token_message token) = Some acc ->
    token_generation acc <> token_token_generation token.

(** How a step changes the in-flight table. *)
Lemma step_inflight mb event mb' :
  mailbox_inv mb -> step mb event mb' ->
  (mb_next_token_generation mb' = mb_next_token_generation mb /\
   mb_inflight mb' ⊆ mb_inflight mb) \/
  (exists id p, mb_next_token_generation mb' = (mb_next_token_generation mb + 1)%N /\
    mb_inflight mb' = <[id := MkInflightAccounting (mb_next_token_generation mb + 1) p]>
                        (mb_inflight mb)).
Proof.
  assert (forall m, mb_next_token_generation (close_if_drained_internal m) =
    mb_next_token_generation m /\
    mb_inflight (close_if_drained_internal m) = mb_inflight m) as Hclose.
  { intros m. destruct (close_if_drained_internal_frame m) as (l & -> & _). by destruct m. }
  intros Hi Hstep. inversion Hstep as [m r ? res H|r ? res H|tok reason ? res H|? res H|? res H|? res H
    |r ? res H|? res H]; subst.
  - left. destruct (try_offer_cases mb r m Hi) as
      [(e & Ho & _)|[(_ & o & _ & Ho)|(_ & plan & d & reason & Hp & Ho)]];
      rewrite Ho in H; injection H as <- <-; by destruct mb.
  - pose proof (try_begin_inflight_cases mb r Hi) as Hd. rewrite H in Hd.
    inversion Hd as [| | |t item q ? ? Hi' Hlive|t ? ? Hi' Hlive|t]; subst; [by left|by left|by left| | |].
    + right. exists (item_id item), (item_bytes item). by destruct mb.
    + left. destruct (Hclose (state_without_expired mb r t)) as [-> ->]. by destruct mb.
    + left. by destruct mb.
  - left. destruct (mailbox_finish_cases mb tok reason Hi) as
      [(_ & Hf)|[(_ & _ & Hf)|(_ & [_ Hl] & t & _ & Hf)]];
      rewrite Hf in H; injection H as <- <-; simpl; [done..|].
    unfold state_finished. rewrite !(proj1 (Hclose _)), !(proj2 (Hclose _)).
    destruct mb; simpl. split; [done|apply delete_subseteq].
  - left. destruct (abandon_cases mb Hi) as [[_ Hf]|(_ & t & _ & Hf)];
      rewrite Hf in H; injection H as <- <-; [done|].
    rewrite !(proj1 (Hclose _)), !(proj2 (Hclose _)).
    destruct mb; simpl. split; [done|apply map_empty_subseteq].
  - left. rewrite stop_accepting_run in H by done. injection H as <- <-. unfold state_stopped.
    rewrite !(proj1 (Hclose _)), !(proj2 (Hclose _)). case_bool_decide; by destruct mb.
  - left. destruct (cancel_cases mb Hi) as [[_ Hf]|(_ & t & _ & Hf)];
      rewrite Hf in H; injection H as <- <-; [done|].
    rewrite !(proj1 (Hclose _)), !(proj2 (Hclose _)). by destruct mb.
  - left. destruct (expire_cases mb r Hi) as [[_ Hf]|[(e & Hf & _)|(_ & _ & t & _ & Hf)]];
      rewrite Hf in H; injection H as <- <-; [done..|].
    rewrite !(proj1 (Hclose _)), !(proj2 (Hclose _)). by destruct mb.
  - left. rewrite close_if_drained_run in H by done. injection H as <- <-.
    by rewrite !(proj1 (Hclose _)), !(proj2 (Hclose _)).
Qed.

Lemma step_generations mb event mb' :
  mailbox_inv mb -> step mb event mb' -> generations_issued mb -> generations_issued mb'.
Proof.
  intros Hi Hs Hg id acc. destruct (step_inflight _ _ _ Hi Hs) as [[-> Hsub]|(id' & p & -> & ->)].
  - intros Hid. eapply Hg, lookup_weaken; done.
  - rewrite lookup_insert_Some. intros [[_ <-]|[_ Hid]]; simpl; [lia|].
    specialize (Hg _ _ Hid). lia.
Qed.
Lemma step_spent mb event mb' token :
  mailbox_inv mb -> step mb event mb' -> token_spent mb token -> token_spent mb' token.
Proof.
  intros Hi Hs [Hle Hne]. destruct (step_inflight _ _ _ Hi Hs) as [[Hg Hsub]|(id' & p & Hg & Hin)];
    split; try lia; intros acc.
  - intros Hid. by eapply Hne, lookup_weaken.
  - rewrite Hin, lookup_insert_Some. intros [[_ <-]|[_ Hid]]; simpl; [lia|by apply Hne].
Qed.
Lemma run_spent mb events mb' token :
  mailbox_inv mb -> run mb events mb' -> token_spent mb token -> token_spent mb' token.
Proof. intros Hi. induction 1; eauto using step_spent, step_inv. Qed.
Lemma reachable_generations mb : reachable mb -> generations_issued mb.
Proof.
  intros (mb0 & events & Hf & Hr).
  assert (generations_issued mb0) as Hg.
  { destruct Hf as (?&?&?&?&?&?&?&_&Hnew). unfold try_new_with_class in Hnew. rust_inv. simplify_eq.
    intros id acc. simpl. by rewrite lookup_empty. }
  apply fresh_inv in Hf. induction Hr; eauto using step_generations, step_inv.
Qed.

Lemma finish_spends mb token reason mb' record :
  reachable mb -> mailbox_finish token reason mb = (mb', Ok record) -> token_spent mb' token.
Proof.
  intros Hr H. pose proof (reachable_generations mb Hr) as Hg.
  destruct (mailbox_finish_cases mb token reason) as
    [(_ & Hf)|[(_ & _ & Hf)|(_ & [_ Hl] & t & _ & Hf)]]; [by auto|by rewrite Hf in H..|].
  rewrite Hf in H. simplify_eq. apply Hg in Hl as Hle.
  unfold state_finished, token_spent.
  destruct (close_if_drained_internal_frame (set_terminals t (set_inflight_bytes
    (mb_inflight_bytes mb - charged_bytes (msg_payload (token_message token)))
    (set_inflight (delete (msg_id (token_message token)) (mb_inflight mb)) mb)))) as (l & -> & _).
  destruct mb; simpl in *. split; [done|]. intros acc. by rewrite lookup_delete_eq.
Qed.

(** ** Offers, on the contents of the queue *)

Definition bytes_of (q : list QueuedMessage) : N := sum_N (map item_bytes q).

(** Room for a message of [incoming] bytes behind [q]. *)
Definition has_room (mb : Mailbox) (q : list QueuedMessage) (incoming : N) : Prop :=
  (len q + 1 <= limit_capacity_items (mb_limits mb))%N /\
  (bytes_of q + incoming <= limit_capacity_bytes (mb_limits mb))%N /\
  (bytes_of q + incoming + mb_inflight_bytes mb <= limit_max_retained_bytes (mb_limits mb))%N.

(** What is left of the live messages [q] when a policy admits [message]. *)
Definition displaced_by_policy (mb : Mailbox) (message : ValidatedMessage)
    (q rest : list QueuedMessage) : Prop :=
  match limit_overflow (mb_limits mb) with
  | RejectNew | BlockUntilDeadline => rest = q
  | Latest => rest = []
  | DropOldest =>
      exists n, rest = drop n q /\
        forall m, m < n -> ~ has_room mb (drop m q) (charged_bytes (msg_payload message))
  | CoalesceByKey =>
      let same_key item := msg_coalesce_key (queued_message item) = msg_coalesce_key message in
      (rest = q /\ Forall (fun item => ~ same_key item) q) \/
      (exists older item newer, q = older ++ item :: newer /\ rest = older ++ newer /\
        same_key item /\ Forall (fun item => ~ same_key item) newer)
  end.

Lemma select_from_omap {A} i (P : nat -> bool) (l : list A) :
  select_from i P l =
  omap (fun j => l !! (j - i)) (base.filter (fun j => P j = true) (seq i (length l))).
Proof.
  revert i; induction l as [|x l IH]; intros i; [done|].
  rewrite select_from_cons, IH. simpl length. simpl seq. rewrite filter_cons.
  assert (omap (fun j => l !! (j - S i)) (base.filter (fun j => P j = true) (seq (S i) (length l))) =
    omap (fun j => (x :: l) !! (j - i)) (base.filter (fun j => P j = true) (seq (S i) (length l))))
    as Heq.
  { assert (Forall (fun j => i < j) (base.filter (fun j => P j = true) (seq (S i) (length l)))) as Hlt.
    { apply Forall_forall. intros j [_ Hj%elem_of_seq]%list_elem_of_filter. lia. }
    induction Hlt as [|j js Hj _ IHjs]; [done|]. csimpl.
    replace (j - i) with (S (j - S i)) by lia. simpl. by rewrite IHjs. }
  case_decide as HP; rewrite Heq; [|by destruct (P i)].
  rewrite HP. csimpl. by rewrite Nat.sub_diag.
Qed.

Lemma select_omap {A} (P : nat -> bool) (l : list A) :
  select P l = omap (fun j => l !! j) (base.filter (fun j => P j = true) (seq 0 (length l))).
Proof.
  rewrite select_from_omap. induction (base.filter _ _) as [|j js IH]; [done|]. csimpl.
  by rewrite Nat.sub_0_r, IH.
Qed.

Section offers.
Context (mb : Mailbox) (r : ClockReading).
Local Abbreviation L := (live_indices_excluding mb (expired_indices mb r)).

Definition items_at (js : list nat) : list QueuedMessage := omap (fun j => mb_queue mb !! j) js.

Lemma kept_items d :
  kept (union_indices (expired_indices mb r) d) mb = items_at (base.filter (fun j => j ∉ d) L).
Proof.
  unfold kept. rewrite select_omap. unfold items_at. f_equal.
  unfold live_indices_excluding. rewrite list_filter_filter. apply list_filter_iff. intros j.
  rewrite negb_true_iff, bool_decide_eq_false.
  rewrite binary_search_spec by apply expired_index_set. rewrite bool_decide_eq_false.
  unfold union_indices. rewrite elem_of_sort_dedup, elem_of_app. tauto.
Qed.
Lemma kept_nothing : kept (union_indices (expired_indices mb r) []) mb = live r (mb_queue mb).
Proof.
  rewrite <-kept_expired. apply select_from_ext. intros j _.
  f_equal. apply bool_decide_ext. unfold union_indices. by rewrite elem_of_sort_dedup, app_nil_r.
Qed.
Lemma live_items : live r (mb_queue mb) = items_at L.
Proof. 
  rewrite <-kept_nothing, kept_items, filter_all; [done|].
  apply Forall_forall. intros j _. apply not_elem_of_nil.
Qed.

Lemma items_at_drop n js :
  Forall (fun j => j < length (mb_queue mb)) js -> items_at (drop n js) = drop n (items_at js).
Proof.
  intros Hjs. revert n; induction Hjs as [|j js Hj Hjs IH]; intros [|n]; try done.
  simpl. rewrite IH. unfold items_at. csimpl.
  by destruct (lookup_lt_is_Some_2 _ _ Hj) as [item ->].
Qed.

Lemma live_idx_bounds : Forall (fun j => j < length (mb_queue mb)) L.
Proof. apply live_idx_index_set. Qed.
Lemma live_idx_NoDup : NoDup L.
Proof. apply strictly_sorted_NoDup, live_idx_index_set. Qed.

(** Displacing the [n] oldest live messages. *)
Lemma kept_drop n :
  kept (union_indices (expired_indices mb r) (take n L)) mb = drop n (live r (mb_queue mb)).
Proof.
  rewrite kept_items, live_items, <-(items_at_drop n L live_idx_bounds). f_equal.
  pose proof (filter_not_prefix (take n L) (drop n L)) as H. rewrite take_drop in H.
  apply H, live_idx_NoDup.
Qed.
Lemma kept_no_live :
  kept (union_indices (expired_indices mb r) L) mb = [].
Proof.
  rewrite kept_items, filter_none; [done|]. apply Forall_forall. tauto.
Qed.

(** Displacing one live message. *)
Lemma kept_one j item :
  j ∈ L -> mb_queue mb !! j = Some item ->
  exists older newer,
    live r (mb_queue mb) = older ++ item :: newer /\
    kept (union_indices (expired_indices mb r) [j]) mb = older ++ newer /\
    (forall it, it ∈ newer -> exists i, i ∈ L /\ j < i /\ mb_queue mb !! i = Some it).
Proof.
  intros Hj Hitem. pose proof live_idx_index_set mb r as [Hs _].
  apply list_elem_of_split in Hj as (pre & post & HL).
  exists (items_at pre), (items_at post).
  rewrite kept_items, live_items. rewrite HL in *.
  apply StronglySorted_app_1_r in Hs as Hs2. apply StronglySorted_inv in Hs2 as [_ Hpost].
  apply strictly_sorted_NoDup in Hs. split_and!.
  - unfold items_at. rewrite omap_app. csimpl. by rewrite Hitem.
  - apply NoDup_app in Hs as (_ & Hd & Hs2). apply NoDup_cons in Hs2 as [Hnin _].
    rewrite filter_app, filter_cons_False by (intros H; apply H; left).
    rewrite !filter_all; [by apply omap_app|..]; apply Forall_forall.
    + intros x Hx ->%list_elem_of_singleton. done.
    + intros x Hx ->%list_elem_of_singleton. apply (Hd j Hx). left.
  - intros it (i & Hi & Hit)%list_elem_of_omap. exists i.
    rewrite Forall_forall in Hpost. split_and!; [|by apply Hpost|done].
    rewrite elem_of_app, elem_of_cons. auto.
Qed.

Lemma fits_has_room d incoming :
  mailbox_inv mb -> displaceable mb r d ->
  fits mb (expired_indices mb r) d incoming <->
  has_room mb (kept (union_indices (expired_indices mb r) d) mb) incoming.
Proof.
  intros Hi Hd. unfold fits, has_room, items_after, bytes_after, bytes_of.
  set (u := union_indices _ _).
  assert (index_set u mb) as Hu by (apply index_set_union; eauto using displaceable_index_set).
  pose proof (sum_removed_kept u mb). pose proof (len_removed_kept u mb).
  pose proof (inv_queued_bytes mb Hi). rewrite (len_removed u mb Hu) in *.
  assert (len (mb_queue mb) - len u = len (kept u mb))%N as -> by lia.
  assert (mb_queued_bytes mb - sum_N (map item_bytes (removed u mb)) =
    sum_N (map item_bytes (kept u mb)))%N as -> by lia.
  done.
Qed.
End offers.

Lemma policy_displacement_view mb r message plan d reason :
  mailbox_inv mb -> planned mb r message plan d reason -> plan_decision plan = PlanAdmit ->
  let rest := kept (union_indices (expired_indices mb r) d) mb in
  displaced_by_policy mb message (live r (mb_queue mb)) rest /\
  has_room mb rest (charged_bytes (msg_payload message)).
Proof.
  intros Hi Hp Hadm rest. pose proof (planned_displaceable _ _ _ _ _ _ Hp) as Hd.
  pose proof (planned_decision _ _ _ _ _ _ Hp) as Hdec. rewrite Hadm in Hdec.
  destruct Hdec as (_ & _ & _ & _ & _ & Hfits & _ & _ & Hpol).
  split; [|by apply fits_has_room].
  unfold policy_displacement in Hpol. unfold displaced_by_policy.
  destruct (limit_overflow (mb_limits mb)).
  - subst d. apply kept_nothing.
  - destruct Hpol as (n & -> & _ & Hmin). exists n. split; [apply kept_drop|].
    intros m Hm Hroom. apply (Hmin m Hm). apply fits_has_room; [done|apply displaceable_prefix|].
    by rewrite kept_drop.
  - destruct Hpol as [-> _]. apply kept_no_live.
  - destruct Hpol as [(-> & _ & Hne)|(j & it & -> & _ & Hj & Hkey & Hne)].
    + left. split; [apply kept_nothing|]. apply Forall_forall.
      intros item (i & Hi' & Hit)%elem_of_live_index. by eapply Hne.
    + right. destruct (kept_one mb r j it) as (older & newer & Hlive & Hkept & Hnew); [|done|].
      { apply Hd. left. }
      exists older, it, newer. split_and!; [done..|]. apply Forall_forall.
      intros item (i & Hi' & Hlt & Hit)%Hnew. by eapply Hne.
  - subst d. apply kept_nothing.
Qed.

Lemma planned_not_admitted mb r message plan d reason :
  planned mb r message plan d reason -> plan_decision plan <> PlanAdmit -> d = [].
Proof.
  intros Hp Hne. pose proof (planned_decision _ _ _ _ _ _ Hp) as Hdec.
  destruct (plan_decision plan) as [|[]| |]; try done; try (by destruct Hdec as [? _]);
    destruct Hdec as (_ & _ & _ & _ & _ & Hout); apply Hout.
Qed.

(** ** Configuration and lifecycle *)

(** The fields no operation assigns to. *)
Definition config (mb : Mailbox) :=
  (mb_reference mb, mb_schema mb, mb_interaction mb, mb_message_class mb, mb_spec mb,
   mb_clock_domain mb, mb_clock_generation mb, mb_limits mb).

Lemma close_config mb : config (close_if_drained_internal mb) = config mb.
Proof. destruct (close_if_drained_internal_frame mb) as (l & -> & _). by destruct mb. Qed.

(** The lifecycle only moves from accepting to draining to closed. *)
Definition lifecycle_rank (l : MailboxLifecycle) : nat :=
  match l with Accepting => 0 | Draining => 1 | Closed => 2 end.

Lemma close_lifecycle mb :
  lifecycle_rank (mb_lifecycle mb) <= lifecycle_rank (mb_lifecycle (close_if_drained_internal mb)).
Proof.
  destruct (close_if_drained_internal_frame mb) as (l & -> & Hl). destruct mb; simpl in *.
  destruct Hl as [->|[-> _]]; [done|]. destruct mb_lifecycle; simpl; lia.
Qed.

Lemma step_frame mb event mb' :
  mailbox_inv mb -> step mb event mb' ->
  config mb' = config mb /\ lifecycle_rank (mb_lifecycle mb) <= lifecycle_rank (mb_lifecycle mb').
Proof.
  assert (forall m m', config m' = config m -> mb_lifecycle m' = mb_lifecycle m ->
    config (close_if_drained_internal m') = config m /\
    lifecycle_rank (mb_lifecycle m) <=
      lifecycle_rank (mb_lifecycle (close_if_drained_internal m'))) as Hclose.
  { intros m m' Hc Hl. rewrite close_config, <-Hl. auto using close_lifecycle. }
  intros Hi Hstep. inversion Hstep as [m r ? res H|r ? res H|tok reason ? res H|? res H|? res H|? res H
    |r ? res H|? res H]; subst.
  - destruct (try_offer_cases mb r m Hi) as
      [(e & Ho & _)|[(_ & o & _ & Ho)|(_ & plan & d & reason & Hp & Ho)]];
      rewrite Ho in H; injection H as <- <-; by destruct mb.
  - pose proof (try_begin_inflight_cases mb r Hi) as Hd. rewrite H in Hd.
    inversion Hd; subst; try done; try (by destruct mb). apply Hclose; by destruct mb.
  - destruct (mailbox_finish_cases mb tok reason Hi) as
      [(_ & Hf)|[(_ & _ & Hf)|(_ & [_ Hl] & t & _ & Hf)]];
      rewrite Hf in H; injection H as <- <-; [done..|]. apply Hclose; by destruct mb.
  - destruct (abandon_cases mb Hi) as [[_ Hf]|(_ & t & _ & Hf)];
      rewrite Hf in H; injection H as <- <-; [done|]. apply Hclose; by destruct mb.
  - rewrite stop_accepting_run in H by done. injection H as <- <-. unfold state_stopped.
    case_bool_decide as Hl; [|by apply Hclose]. rewrite close_config, Hl.
    split; [by destruct mb|simpl; lia].
  - destruct (cancel_cases mb Hi) as [[_ Hf]|(_ & t & _ & Hf)];
      rewrite Hf in H; injection H as <- <-; [done|]. apply Hclose; by destruct mb.
  - destruct (expire_cases mb r Hi) as [[_ Hf]|[(e & Hf & _)|(_ & _ & t & _ & Hf)]];
      rewrite Hf in H; injection H as <- <-; [done..|]. apply Hclose; by destruct mb.
  - rewrite close_if_drained_run in H by done. injection H as <- <-. by apply Hclose.
Qed.
Lemma run_frame mb events mb' :
  mailbox_inv mb -> run mb events mb' ->
  config mb' = config mb /\ lifecycle_rank (mb_lifecycle mb) <= lifecycle_rank (mb_lifecycle mb').
Proof.
  intros Hi Hr. induction Hr as [|mb event mb' events mb'' Hs Hr IH]; [done|].
  destruct (step_frame _ _ _ Hi Hs). destruct (IH (step_inv _ _ _ Hi Hs)). split; [congruence|lia].
Qed.

(** The policy of a reachable mailbox is one its message class supports. *)
Lemma reachable_policy mb :
  reachable mb ->
  class_policy_supported (mb_message_class mb) (limit_overflow (mb_limits mb)) = true.
Proof.
  intros (mb0 & events & Hf & Hr). destruct (run_frame _ _ _ (fresh_inv _ Hf) Hr) as [Hc _].
  unfold config in Hc. injection Hc as _ _ _ -> _ _ _ ->.
  destruct Hf as (?&?&?&?&?&?&?&_&Hnew). unfold try_new_with_class in Hnew. rust_inv. by simplify_eq.
Qed.

Lemma close_drained mb :
  mb_lifecycle mb <> Accepting -> mb_queue mb = [] -> mb_inflight mb = ∅ ->
  mb_lifecycle (close_if_drained_internal mb) = Closed.
Proof.
  intros Hl Hq Hf. unfold close_if_drained_internal.
  rewrite (bool_decide_eq_true_2 _ Hq), (bool_decide_eq_true_2 _ Hf), !andb_true_r.
  case_bool_decide; [by destruct mb|]. by destruct (mb_lifecycle mb).
Qed.
Lemma closed_stays mb events mb' :
  mailbox_inv mb -> mb_lifecycle mb = Closed -> run mb events mb' ->
  mb_lifecycle mb' = Closed /\ active mb' = [].
Proof.
  intros Hi Hl Hr. destruct (run_frame _ _ _ Hi Hr) as [_ Hrank]. rewrite Hl in Hrank.
  assert (mb_lifecycle mb' = Closed) as Hl' by (destruct (mb_lifecycle mb'); simpl in *; (done || lia)).
  split; [done|]. destruct (inv_closed mb' (run_inv _ _ _ Hi Hr) Hl') as [Hq Hf].
  unfold active. by rewrite Hq, Hf.
Qed.

(** The three stages of a shutdown. *)
Lemma stopped_view mb :
  mb_queue (state_stopped mb) = mb_queue mb /\ mb_inflight (state_stopped mb) = mb_inflight mb /\
  mb_lifecycle (state_stopped mb) <> Accepting.
Proof.
  unfold state_stopped. destruct (close_if_drained_internal_frame
    (if bool_decide (mb_lifecycle mb = Accepting) then set_lifecycle Draining mb else mb))
    as (l & -> & Hl).
  case_bool_decide; destruct mb; simpl in *; split_and!; try done;
    destruct Hl as [->|[-> _]]; done.
Qed.
Lemma cancelled_view mb mb' res :
  mailbox_inv mb -> mb_lifecycle mb <> Accepting -> cancel_all_queued mb = (mb', res) ->
  res = Ok (map (record_of Cancelled) (mb_queue mb)) /\
  mb_queue mb' = [] /\ mb_inflight mb' = mb_inflight mb /\ mb_lifecycle mb' <> Accepting.
Proof.
  intros Hi Hl H. destruct (cancel_cases mb Hi) as [[? _]|(_ & t & _ & Hc)]; [done|].
  rewrite Hc in H. injection H as <- <-.
  destruct (close_if_drained_internal_frame (set_terminals t (set_queued_bytes 0 (set_queue [] mb))))
    as (l & -> & Hl').
  destruct mb; simpl in *. split_and!; try done. by destruct Hl' as [->|[-> _]].
Qed.
Lemma abandoned_view mb mb' res :
  mailbox_inv mb -> mb_lifecycle mb <> Accepting -> mb_queue mb = [] ->
  abandon_all_inflight_uncertain mb = (mb', res) ->
  res = Ok (uncertain_records mb) /\ mb_lifecycle mb' = Closed.
Proof.
  intros Hi Hl Hq H. destruct (abandon_cases mb Hi) as [[? _]|(_ & t & _ & Ha)]; [done|].
  rewrite Ha in H. injection H as <- <-. split; [done|].
  apply close_drained; by destruct mb.
Qed.

(** ** Properties *)

(** C28: The effect of a successful offer on the queue: a message that is not
    admitted displaces no live message, an admitted one joins the back of
    what the overflow policy leaves, and always finds room there. *)
Theorem offer_effect mb r message mb' outcome records :
  reachable mb ->
  try_offer message r mb = (mb', Ok (MkOfferReport outcome records)) ->
  match outcome with
  | EnqueueClosed _ => mb_lifecycle mb <> Accepting /\ mb_queue mb' = mb_queue mb /\ records = []
  | EnqueueRejected _ _ | EnqueueExpiredBeforeAdmission _ | WouldBlock _ _ =>
      mb_queue mb' = live r (mb_queue mb) /\ records = expiry_records r (mb_queue mb)
  | EnqueueAdmitted =>
      exists rest item,
        mb_queue mb' = rest ++ [item] /\ queued_message item = message /\
        displaced_by_policy mb message (live r (mb_queue mb)) rest /\
        has_room mb rest (charged_bytes (msg_payload message))
  end.
Proof.
  intros Hr H. destruct (try_offer_cases mb r message) as
    [(e & Ho & _)|[(Hl & o & _ & Ho)|(Hl & plan & d & reason & Hp & Ho)]]; [by auto|..];
    rewrite Ho in H; [done|injection H as <- <- <-..].
  { split_and!; [done|by destruct mb|done]. }
  assert (mb_queue (state_after_offer mb r message plan d) =
    queue_after_offer mb r message plan d) as Hq by by destruct mb.
  destruct (decide (plan_decision plan = PlanAdmit)) as [Hadm|Hne].
  - rewrite Hadm. simpl. rewrite Hq. unfold queue_after_offer.
    rewrite bool_decide_eq_true_2 by done. eexists _, _. split; [done|]. split; [done|].
    eapply policy_displacement_view; eauto.
  - pose proof (planned_not_admitted _ _ _ _ _ _ Hp Hne) as ->.
    pose proof (planned_displaced _ _ _ _ _ _ Hp) as Hdisp.
    assert (removed [] mb = []) as Hnil by (apply select_from_none; done).
    rewrite Hnil in Hdisp. simpl in Hdisp.
    rewrite (planned_expired _ _ _ _ _ _ Hp), Hdisp, app_nil_r, Hq.
    unfold queue_after_offer. rewrite bool_decide_eq_false_2, app_nil_r, kept_nothing by done.
    destruct (plan_decision plan); [done|done..].
Qed.

(** C23: Every reachable mailbox passes its own accounting check and respects its
    limits: the queue, the in-flight table and the retained bytes stay within
    the configured capacities, and every offer and every admitted message is
    counted exactly once. *)
Theorem reachable_mailbox_valid mb :
  reachable mb ->
  validate_state mb = Ok tt /\
  (len (mb_queue mb) <= limit_capacity_items (mb_limits mb))%N /\
  (bytes_of (mb_queue mb) <= limit_capacity_bytes (mb_limits mb))%N /\
  (N.of_nat (size (mb_inflight mb)) <= limit_max_inflight (mb_limits mb))%N /\
  (bytes_of (mb_queue mb) + btree_sum payload_bytes (mb_inflight mb)
     <= limit_max_retained_bytes (mb_limits mb))%N /\
  (len (mb_queue mb) + N.of_nat (size (mb_inflight mb)) + tc_total (mb_terminals mb)
     = admitted (mb_offers mb))%N /\
  (admitted (mb_offers mb) + rejected (mb_offers mb) + closed (mb_offers mb)
     + expired_before_admission (mb_offers mb) = offered (mb_offers mb))%N.
Proof.
  intros Hi%reachable_inv. split; [by apply inv_validate_state|].
  unfold bytes_of. rewrite <-(inv_queued_bytes mb Hi), <-(inv_inflight_bytes mb Hi).
  destruct Hi. done.
Qed.

(** C1: Over any run of a new mailbox, the identities admitted are exactly those
    still queued or in flight together with those of the terminal records
    returned: no message is lost, duplicated or terminated twice. *)
Theorem every_admitted_message_ends_once mb0 events mb :
  fresh mb0 -> run mb0 events mb ->
  mjoin (map ev_admitted events) ≡ₚ
    active mb ++ map terminal_message_id (mjoin (map ev_terminals events)) /\
  NoDup (active mb).
Proof.
  intros Hf Hrun. apply fresh_inv in Hf as Hi. pose proof (run_inv _ _ _ Hi Hrun) as Hi'. split.
  - rewrite <-(run_accounts mb0 events mb Hi Hrun).
    assert (active mb0 = []) as ->; [|done].
    destruct Hf as (?&?&?&?&?&?&?&_&Hnew). unfold try_new_with_class in Hnew. rust_inv.
    by simplify_eq.
  - apply NoDup_app. split_and!; [by apply inv_ids| |apply btree_keys_NoDup].
    intros x (item & -> & Hin)%elem_of_map Hk%elem_of_btree_keys.
    rewrite (inv_disjoint mb Hi' item Hin) in Hk. by destruct Hk.
Qed.

(** A call on a reachable mailbox never panics and never reports
    inconsistent accounting, and a call that fails changes nothing. *)
Theorem failed_calls_change_nothing mb event mb' :
  reachable mb -> step mb event mb' ->
  ev_status event <> Panic /\ ev_status event <> Err StateInconsistent /\
  (forall e, ev_status event = Err e -> mb' = mb /\ ev_terminals event = []).
Proof.
  intros Hi%reachable_inv Hstep.
  assert (forall e, offer_error e -> e <> StateInconsistent) as Hne.
  { intros e [->|[->|[->| ->]]]; done. }
  inversion Hstep as [m r ? res H|r ? res H|tok reason ? res H|? res H|? res H|? res H
    |r ? res H|? res H]; subst.
  - destruct (try_offer_cases mb r m Hi) as
      [(e & Ho & He)|[(_ & o & _ & Ho)|(_ & plan & d & reason & Hp & Ho)]];
      rewrite Ho in H; injection H as <- <-; simpl; [|done..].
    apply Hne in He. split_and!; [done|congruence|done].
  - pose proof (try_begin_inflight_cases mb r Hi) as Hd. rewrite H in Hd.
    inversion Hd as [|e ? ? He| | | |]; subst; simpl; try done. by destruct He as [-> | ->].
  - destruct (mailbox_finish_cases mb tok reason Hi) as
      [(_ & Hf)|[(_ & _ & Hf)|(_ & [_ Hl] & t & _ & Hf)]];
      rewrite Hf in H; injection H as <- <-; done.
  - destruct (abandon_cases mb Hi) as [[_ Hf]|(_ & t & _ & Hf)];
      rewrite Hf in H; injection H as <- <-; done.
  - rewrite stop_accepting_run in H by done. by injection H as <- <-.
  - destruct (cancel_cases mb Hi) as [[_ Hf]|(_ & t & _ & Hf)];
      rewrite Hf in H; injection H as <- <-; done.
  - destruct (expire_cases mb r Hi) as [[_ Hf]|[(e & Hf & He & _)|(_ & _ & t & _ & Hf)]];
      rewrite Hf in H; injection H as <- <-; simpl; [done| |done].
    apply Hne in He. split_and!; [done|unfold id; congruence|done].
  - rewrite close_if_drained_run in H by done. by injection H as <- <-.
Qed.

(** Dispatch is first in, first out over the messages that have not expired:
    the token carries the oldest live message, exactly the expired ones leave
    the queue, the order of the rest is kept, and the token can be finished. *)
Theorem dispatch_is_fifo mb r mb' token expired :
  reachable mb ->
  try_begin_inflight r mb = (mb', Ok (MkDispatchReport (Started token) expired)) ->
  exists item rest,
    live r (mb_queue mb) = item :: rest /\ token_message token = queued_message item /\
    mb_queue mb' = rest /\ expired = expiry_records r (mb_queue mb) /\ token_live mb' token /\
    forall reason, is_inflight_completion reason = true ->
      exists record, snd (mailbox_finish token reason mb') = Ok record.
Proof.
  intros Hi%reachable_inv H. pose proof (try_begin_inflight_inv mb r Hi) as Hi'.
  pose proof (try_begin_inflight_cases mb r Hi) as Hd. rewrite H in Hd, Hi'. simpl in Hi'.
  inversion Hd as [| | |t item q Hl Hc Hw Hlive Hmax|t Hl Hc Hw Hlive E|].
  2: { match goal with E : context[bool_decide ?P] |- _ => by destruct (bool_decide P) end. }
  subst. assert (token_live (state_started (state_without_expired mb r t) item q)
    (MkInflightToken (mb_reference mb) (mb_next_token_generation mb + 1) (queued_message item)))
    as Htok.
  { split; [by destruct mb|]. destruct mb; simpl. by rewrite lookup_insert_eq. }
  exists item, q. split_and!; [done|done|by destruct mb|done|done|].
  intros reason Hreason.
  destruct (mailbox_finish_cases _ (MkInflightToken (mb_reference mb)
    (mb_next_token_generation mb + 1) (queued_message item)) reason Hi') as
    [(? & _)|[(_ & ? & _)|(_ & _ & t' & _ & ->)]]; [congruence|done|by eexists].
Qed.

(** The readiness probe predicts dispatch: a ready head is started next
    (unless the token generations are exhausted), a head without permit, an
    empty queue or a closed mailbox start nothing. *)
Theorem readiness_predicts_dispatch mb r readiness :
  reachable mb -> head_readiness mb r = Ok readiness ->
  let outcome := snd (try_begin_inflight r mb) in
  match readiness with
  | HeadReady hint =>
      (exists token expired, outcome = Ok (MkDispatchReport (Started token) expired) /\
        msg_id (token_message token) = hint_message_id hint) \/
      outcome = Err CounterOverflow
  | HeadNoPermit _ => exists expired, outcome = Ok (MkDispatchReport DispatchNoPermit expired)
  | HeadEmpty =>
      outcome = Ok (MkDispatchReport
        (if bool_decide (mb_lifecycle mb = Draining) && bool_decide (mb_inflight mb = ∅)
         then DispatchClosed else NoQueuedMessage) [])
  | HeadExpired hint reason =>
      forall report, outcome = Ok report ->
        MkTerminalRecord (hint_message_id hint) reason (hint_charged_bytes hint)
          ∈ dispatch_expired report
  | HeadClosed => outcome = Ok (MkDispatchReport DispatchClosed [])
  end.
Proof.
  intros Hi%reachable_inv H outcome. unfold outcome, head_readiness in *.
  rewrite inv_validate_state in H by done. simpl in H.
  pose proof (try_begin_inflight_cases mb r Hi) as Hd.
  case_bool_decide as Hl.
  { injection H as <-. inversion Hd; done. }
  apply bind_Ok in H as (u & Hc & H). pose proof Hc as Hc'. rewrite ensure_reading_Ok in Hc.
  destruct (mb_queue mb) as [|item q] eqn:Hq.
  { injection H as <-.
    assert (live r (mb_queue mb) = []) as Hlive by by rewrite Hq.
    inversion Hd as [|e|? ? ?|t item q ? ? ? Hlive'|t ? ? ? ? E|t]; try done.
    - by rewrite Hlive in Hlive'.
    - simpl. rewrite Hq. do 3 f_equal. unfold close_if_drained_internal.
      assert (mb_queue (state_without_expired mb r t) = []) as -> by by destruct mb.
      rewrite bool_decide_eq_true_2 with (P := @nil QueuedMessage = []) by done.
      rewrite andb_true_r.
      replace (mb_lifecycle (state_without_expired mb r t)) with (mb_lifecycle mb) by by destruct mb.
      replace (mb_inflight (state_without_expired mb r t)) with (mb_inflight mb) by by destruct mb.
      destruct (_ && _); [by destruct mb|]. rewrite bool_decide_eq_false_2; [done|by destruct mb]. }
  pose proof (inv_clock mb Hi) as Hclk. rewrite Hq in Hclk. apply Forall_cons in Hclk as [Hitem _].
  rewrite (expiration_reason_Ok mb r item Hitem Hc) in H. simpl in H.
  destruct (item_expiry r item) as [reason|] eqn:Hexp.
  { injection H as <-. intros report Hrep.
    assert (dispatch_expired report = expiry_records r (mb_queue mb)) as ->.
    { revert Hrep. destruct Hd; simpl; intros; by simplify_eq. }
    rewrite Hq. unfold expiry_records. csimpl. rewrite Hexp. simpl. left. }
  assert (exists q', live r (mb_queue mb) = item :: q') as [q' Hlive].
  { rewrite Hq. unfold live. rewrite filter_cons_True by done. by eexists. }
  pose proof (inv_inflight_u32 mb Hi) as Hu. unfold inflight_len in Hu.
  rewrite try_from_ok in H by done. simpl in H.
  destruct (N.leb_spec (limit_max_inflight (mb_limits mb)) (N.of_nat (size (mb_inflight mb)))) as [Hp|Hp];
    injection H as <-; destruct Hd; unfold inflight_len in *; simpl; try done; try lia;
    rewrite Hlive in *; simplify_eq.
  - by eexists.
  - by right.
  - left. by eexists _, _.
Qed.

(** A token finishes at most once: after it has been finished, no later state
    of the mailbox accepts it again, whatever happened in between, and the
    attempt changes nothing. *)
Theorem token_finishes_once mb token reason record mb' events mb'' reason' :
  reachable mb ->
  mailbox_finish token reason mb = (mb', Ok record) ->
  run mb' events mb'' ->
  mailbox_finish token reason' mb'' =
  (mb'', Err (MkFinishFailure
    (if is_inflight_completion reason' then InflightTokenMismatch else InvalidTerminalReason)
    token)).
Proof.
  intros Hr Hfin Hrun. pose proof (finish_spends _ _ _ _ _ Hr Hfin) as Hspent.
  assert (mailbox_inv mb') as Hi'.
  { pose proof (mailbox_finish_inv mb token reason (reachable_inv mb Hr)) as H.
    by rewrite Hfin in H. }
  destruct (run_spent _ _ _ _ Hi' Hrun Hspent) as [_ Hne].
  destruct (mailbox_finish_cases mb'' token reason' (run_inv _ _ _ Hi' Hrun)) as
    [(-> & ->)|[(-> & _ & ->)|(_ & [_ Hl] & _)]]; [done..|].
  by destruct (Hne _ Hl).
Qed.

(** Shutdown: stopping, cancelling the queue and abandoning what is in flight
    closes any reachable mailbox, with one record for each message it held;
    afterwards it stays closed and empty. *)
Theorem drain_closes mb mb1 mb2 mb3 u records1 records2 :
  reachable mb ->
  stop_accepting mb = (mb1, u) ->
  cancel_all_queued mb1 = (mb2, records1) ->
  abandon_all_inflight_uncertain mb2 = (mb3, records2) ->
  exists cancelled uncertain,
    records1 = Ok cancelled /\ records2 = Ok uncertain /\
    map terminal_message_id (cancelled ++ uncertain) = active mb /\
    forall events mb4, run mb3 events mb4 -> mb_lifecycle mb4 = Closed /\ active mb4 = [].
Proof.
  intros Hi%reachable_inv H1 H2 H3.
  pose proof (stop_accepting_inv mb Hi) as Hi1. rewrite H1 in Hi1. simpl in Hi1.
  pose proof (cancel_inv mb1 Hi1) as Hi2. rewrite H2 in Hi2. simpl in Hi2.
  pose proof (abandon_inv mb2 Hi2) as Hi3. rewrite H3 in Hi3. simpl in Hi3.
  rewrite stop_accepting_run in H1 by done. injection H1 as <- <-.
  destruct (stopped_view mb) as (Hq1 & Hf1 & Hl1).
  destruct (cancelled_view _ _ _ Hi1 Hl1 H2) as (-> & Hq2 & Hf2 & Hl2).
  destruct (abandoned_view _ _ _ Hi2 Hl2 Hq2 H3) as (-> & Hl3).
  eexists _, _. split_and!; [done|done| |].
  - rewrite map_app, record_of_ids, uncertain_record_ids, Hq1, Hf2, Hf1. done.
  - intros events mb4. by apply closed_stays.
Qed.

(** An Event or Command mailbox never evicts or coalesces: admission leaves
    every message that has not expired in the queue. *)
Theorem only_signals_are_displaced mb r message mb' records :
  reachable mb -> mb_message_class mb <> ClassSignal ->
  try_offer message r mb = (mb', Ok (MkOfferReport EnqueueAdmitted records)) ->
  exists item, queued_message item = message /\
    mb_queue mb' = live r (mb_queue mb) ++ [item] /\ records = expiry_records r (mb_queue mb).
Proof.
  intros Hr Hcls H. pose proof (reachable_policy mb Hr) as Hpol. apply reachable_inv in Hr as Hi.
  destruct (try_offer_cases mb r message Hi) as
    [(e & Ho & _)|[(Hl & o & _ & Ho)|(Hl & plan & d & reason & Hp & Ho)]];
    rewrite Ho in H; [done|done|]. injection H as <- Hout <-.
  assert (plan_decision plan = PlanAdmit) as Hadm by by destruct (plan_decision plan).
  pose proof (planned_decision _ _ _ _ _ _ Hp) as Hdec. rewrite Hadm in Hdec.
  destruct Hdec as (_ & _ & _ & _ & _ & _ & _ & _ & Hd). unfold policy_displacement in Hd.
  assert (d = []) as ->.
  { by destruct (mb_message_class mb), (limit_overflow (mb_limits mb)). }
  eexists. split; [|split].
  2: { destruct mb; simpl. unfold queue_after_offer. rewrite kept_nothing.
       rewrite bool_decide_eq_true_2 by done. done. }
  - done.
  - rewrite (planned_expired _ _ _ _ _ _ Hp), (planned_displaced _ _ _ _ _ _ Hp).
    assert (removed [] mb = []) as -> by (apply select_from_none; done). apply app_nil_r.
Qed.

(** ** A concrete mailbox *)

Module Demo.

Definition id16 (n : N) : bytes16 := vreplicate 16 (byte_of_N n).
Definition demo_domain : ClockDomainRef := MkClockDomainRef (id16 1).
Definition demo_generation : ClockGeneration := MkClockGeneration 1.
Definition demo_schema : SchemaRef := MkSchemaRef (id16 2) 1 (MkDigest32 (vreplicate 32 x00)).
Definition at_tick (n : N) : ClockReading := MkClockReading demo_domain demo_generation (from_ticks n).
Definition until (n : N) : MonotonicDeadline :=
  MkMonotonicDeadline demo_domain demo_generation (from_ticks n).
Definition msg (n bytes deadline : N) (interaction : InteractionKind) : ValidatedMessage :=
  validated_message_new (MkMessageId (id16 n)) demo_schema interaction None (until deadline)
    (MkPayloadHandle (replicate (N.to_nat bytes) x00) bytes).

Definition new (interaction : InteractionKind) (policy : OverflowPolicy) : Mailbox :=
  match mailbox_try_new (MkMailboxRef (id16 3)) demo_schema interaction
          (MkMailboxSpec 2 10 (from_nanos 50) 1 12 policy) demo_domain demo_generation with
  | Ok mb => mb
  | _ => MkMailbox (MkMailboxRef (id16 3)) demo_schema interaction (from_interaction interaction)
           (MkMailboxSpec 0 0 (from_nanos 0) 0 0 policy) demo_domain demo_generation
           (MkMailboxLimits 0 0 (from_nanos 0) 0 0 policy) Closed [] ∅ 0 0 0
           offer_counters_default terminal_counters_default
  end.

Definition signals : Mailbox := new Signal DropOldest.
Definition events : Mailbox := new Event RejectNew.

(** Two offers to [signals]; the second message expires at tick 60. *)
Definition offer1 := try_offer (msg 11 4 30 Signal) (at_tick 10) signals.
Definition offer2 := try_offer (msg 12 4 60 Signal) (at_tick 10) (fst offer1).
(** A third offer evicts the oldest message. *)
Definition offer3 := try_offer (msg 13 4 90 Signal) (at_tick 20) (fst offer2).
(** A dispatch after the first message expired. *)
Definition begin1 := try_begin_inflight (at_tick 30) (fst offer2).
Definition demo_token : InflightToken :=
  MkInflightToken (MkMailboxRef (id16 3)) 1 (msg 12 4 60 Signal).
Definition finish1 := mailbox_finish demo_token Completed (fst begin1).

Lemma signals_fresh : fresh signals.
Proof.
  exists (MkMailboxRef (id16 3)), demo_schema, Signal, ClassSignal,
    (MkMailboxSpec 2 10 (from_nanos 50) 1 12 DropOldest), demo_domain, demo_generation.
  split; [done|]. reflexivity.
Defined.
Lemma events_fresh : fresh events.
Proof.
  exists (MkMailboxRef (id16 3)), demo_schema, Event, ClassEvent,
    (MkMailboxSpec 2 10 (from_nanos 50) 1 12 RejectNew), demo_domain, demo_generation.
  split; [done|]. reflexivity.
Defined.
Lemma offers_run :
  run signals [offer_event (msg 11 4 30 Signal) (snd offer1);
               offer_event (msg 12 4 60 Signal) (snd offer2)] (fst offer2).
Proof.
  eapply run_cons; [apply (step_offer _ _ (at_tick 10)), surjective_pairing|].
  eapply run_cons; [apply (step_offer _ _ (at_tick 10)), surjective_pairing|]. constructor.
Defined.
Lemma offers_reachable : reachable (fst offer2).
Proof. eexists _, _. split; [apply signals_fresh|apply offers_run]. Defined.
Lemma begin_reachable : reachable (fst begin1).
Proof.
  eexists _, (_ :: _ :: _ :: nil). split; [apply signals_fresh|].
  eapply run_cons; [apply (step_offer _ (msg 11 4 30 Signal) (at_tick 10)), surjective_pairing|].
  eapply run_cons; [apply (step_offer _ (msg 12 4 60 Signal) (at_tick 10)), surjective_pairing|].
  eapply run_cons; [apply (step_dispatch _ (at_tick 30)), surjective_pairing|]. constructor.
Defined.

End Demo.
Import Demo.

Lemma reachable_mailbox_valid_witness : validate_state (fst begin1) = Ok tt.
Proof. apply (reachable_mailbox_valid _ begin_reachable). Defined.

Lemma every_admitted_message_ends_once_witness :
  [MkMessageId (id16 11); MkMessageId (id16 12)] ≡ₚ active (fst offer2) ++ [] /\
  NoDup (active (fst offer2)).
Proof. exact (every_admitted_message_ends_once _ _ _ signals_fresh offers_run). Defined.

Lemma failed_calls_change_nothing_witness :
  fst (cancel_all_queued (fst offer2)) = fst offer2.
Proof.
  destruct (failed_calls_change_nothing (fst offer2) (records_event (snd (cancel_all_queued (fst offer2))))
    (fst (cancel_all_queued (fst offer2)))) as (_ & _ & H).
  - apply offers_reachable.
  - apply step_cancel, surjective_pairing.
  - apply (H CancelRequiresDraining). vm_compute. reflexivity.
Defined.

Lemma offer_effect_witness :
  exists rest item,
    mb_queue (fst offer3) = rest ++ [item] /\ queued_message item = msg 13 4 90 Signal /\
    displaced_by_policy (fst offer2) (msg 13 4 90 Signal)
      (live (at_tick 20) (mb_queue (fst offer2))) rest /\
    has_room (fst offer2) rest 4.
Proof.
  apply (offer_effect (fst offer2) (at_tick 20) (msg 13 4 90 Signal) (fst offer3) EnqueueAdmitted
    [MkTerminalRecord (MkMessageId (id16 11)) Evicted 4]).
  - apply offers_reachable.
  - vm_compute. reflexivity.
Defined.

Lemma dispatch_is_fifo_witness :
  exists item rest, live (at_tick 30) (mb_queue (fst offer2)) = item :: rest /\
    queued_message item = msg 12 4 60 Signal.
Proof.
  destruct (dispatch_is_fifo (fst offer2) (at_tick 30) (fst begin1) demo_token
    [MkTerminalRecord (MkMessageId (id16 11)) RunDeadlineExpired 4]) as (item & rest & H1 & H2 & _).
  - apply offers_reachable.
  - vm_compute. reflexivity.
  - exists item, rest. split; [exact H1|]. symmetry. exact H2.
Defined.

Lemma readiness_predicts_dispatch_witness :
  (exists token expired,
    snd (try_begin_inflight (at_tick 20) (fst offer2)) = Ok (MkDispatchReport (Started token) expired) /\
    msg_id (token_message token) = MkMessageId (id16 11)) \/
  snd (try_begin_inflight (at_tick 20) (fst offer2)) = Err CounterOverflow.
Proof.
  apply (readiness_predicts_dispatch (fst offer2) (at_tick 20)
    (HeadReady (MkMailboxHeadHint (MkMailboxRef (id16 3)) (MkMessageId (id16 11)) 4
      (until 30) (until 30) (until 60)))).
  - apply offers_reachable.
  - vm_compute. reflexivity.
Defined.

Lemma token_finishes_once_witness :
  mailbox_finish demo_token Failed (fst finish1) =
  (fst finish1, Err (MkFinishFailure InflightTokenMismatch demo_token)).
Proof.
  apply (token_finishes_once (fst begin1) demo_token Completed
    (MkTerminalRecord (MkMessageId (id16 12)) Completed 4) (fst finish1) [] (fst finish1) Failed).
  - apply begin_reachable.
  - vm_compute. reflexivity.
  - constructor.
Defined.

Lemma drain_closes_witness :
  exists cancelled uncertain,
    snd (cancel_all_queued (fst (stop_accepting (fst begin1)))) = Ok cancelled /\
    map terminal_message_id (cancelled ++ uncertain) = active (fst begin1).
Proof.
  destruct (drain_closes (fst begin1) _ _ _ _ _ _ begin_reachable (surjective_pairing _)
    (surjective_pairing _) (surjective_pairing _)) as (c & u & H1 & _ & H2 & _).
  exists c, u. split; [exact H1|exact H2].
Defined.

Lemma only_signals_are_displaced_witness :
  exists item, queued_message item = msg 11 4 30 Event /\
    mb_queue (fst (try_offer (msg 11 4 30 Event) (at_tick 10) events)) =
      live (at_tick 10) (mb_queue events) ++ [item] /\ [] = expiry_records (at_tick 10) (mb_queue events).
Proof.
  apply (only_signals_are_displaced events (at_tick 10)).
  - exists events, []. split; [apply events_fresh|constructor].
  - discriminate.
  - vm_compute. reflexivity.
Defined.
