(* ===== verification/DispatchPermits.v ===== *)
(** * Domain permit ledger (crates/paraegox-runtime/src/dispatcher.rs)

    One loop domain owns [total] permits, [control_reserved] of which only
    control work may take.  Tokens are issued by [try_acquire] and come back
    through [release]; every operation first re-validates the ledger. *)

From S2P Require Import Prelude.
Open Scope rust_scope.

(** ** Data *)

Inductive DispatchClass := Control | Interactive | Stream | Background.
#[export] Instance DispatchClass_eq_dec : EqDecision DispatchClass.
Proof. solve_decision. Defined.

Definition is_control (self : DispatchClass) : bool :=
  match self with Control => true | _ => false end.

(** [marker] is the address of the [Arc] the identity was created with. *)
Record DomainPermitLedgerId := MkDomainPermitLedgerId {
  ledger_domain : bytes16;
  ledger_domain_epoch : N;
  ledger_marker : N;
}.
#[export] Instance DomainPermitLedgerId_eq_dec : EqDecision DomainPermitLedgerId.
Proof. solve_decision. Defined.

Inductive PermitPool := Shared | ControlReserved.
#[export] Instance PermitPool_eq_dec : EqDecision PermitPool.
Proof. solve_decision. Defined.

Record DomainPermitToken := MkDomainPermitToken {
  token_ledger : DomainPermitLedgerId;
  token_permit_id : N;
  token_pool : PermitPool;
  token_active : bool;
}.
#[export] Instance DomainPermitToken_eq_dec : EqDecision DomainPermitToken.
Proof. solve_decision. Defined.

Record DomainPermitSnapshot := MkDomainPermitSnapshot {
  snap_total : N;
  snap_control_reserved : N;
  snap_shared_in_use : N;
  snap_control_reserved_in_use : N;
}.

Definition in_use {E : Type} (self : DomainPermitSnapshot) : result E N :=
  panicking_add u32_max (snap_shared_in_use self) (snap_control_reserved_in_use self).
Definition available {E : Type} (self : DomainPermitSnapshot) : result E N :=
  used ← in_use self; panicking_sub (snap_total self) used.

Record DomainPermitLedger := MkDomainPermitLedger {
  ledger_id : DomainPermitLedgerId;
  ledger_total : N;
  ledger_control_reserved : N;
  ledger_shared_in_use : N;
  ledger_control_reserved_in_use : N;
  ledger_next_permit_id : N;
  ledger_active : gmap N PermitPool;
}.

Inductive PermitError :=
| InvalidCapacity
| PermitCounterOverflow
| PermitStateInconsistent
| LedgerMismatch
| TokenMismatch
| AlreadyReleased.
#[export] Instance PermitError_eq_dec : EqDecision PermitError.
Proof. solve_decision. Defined.

Definition set_shared_in_use (v : N) (l : DomainPermitLedger) : DomainPermitLedger :=
  let '(MkDomainPermitLedger a b c _ e f g) := l in MkDomainPermitLedger a b c v e f g.
Definition set_control_reserved_in_use (v : N) (l : DomainPermitLedger) : DomainPermitLedger :=
  let '(MkDomainPermitLedger a b c d _ f g) := l in MkDomainPermitLedger a b c d v f g.
Definition set_next_permit_id (v : N) (l : DomainPermitLedger) : DomainPermitLedger :=
  let '(MkDomainPermitLedger a b c d e _ g) := l in MkDomainPermitLedger a b c d e v g.
Definition set_ledger_active (v : gmap N PermitPool) (l : DomainPermitLedger) : DomainPermitLedger :=
  let '(MkDomainPermitLedger a b c d e f _) := l in MkDomainPermitLedger a b c d e f v.

(** ** Operations *)

Definition ledger_try_new (id : DomainPermitLedgerId) (total control_reserved : N)
    : result PermitError DomainPermitLedger :=
  bail InvalidCapacity when ((total =? 0) || (total <? control_reserved))%N;
  Ok (MkDomainPermitLedger id total control_reserved 0 0 0 ∅).

Definition reserve_open (self : DomainPermitLedger) (class : DispatchClass) : bool :=
  is_control class && (ledger_control_reserved_in_use self <? ledger_control_reserved self)%N.

(** [self.total - self.control_reserved] panics on underflow. *)
Definition can_acquire {E : Type} (self : DomainPermitLedger) (class : DispatchClass)
    : result E bool :=
  if reserve_open self class then Ok true
  else
    shared ← panicking_sub (ledger_total self) (ledger_control_reserved self);
    Ok (ledger_shared_in_use self <? shared)%N.

Definition ledger_validate_state (self : DomainPermitLedger) : result PermitError unit :=
  shared_capacity ←
    ok_or (checked_sub (ledger_total self) (ledger_control_reserved self)) PermitStateInconsistent;
  bail PermitStateInconsistent when
    ((ledger_total self =? 0) || (shared_capacity <? ledger_shared_in_use self)
     || (ledger_control_reserved self <? ledger_control_reserved_in_use self))%N;
  active ← ok_or (try_from u32_max (N.of_nat (size (ledger_active self)))) PermitStateInconsistent;
  counted ← ok_or (checked_add u32_max (ledger_shared_in_use self)
                     (ledger_control_reserved_in_use self)) PermitStateInconsistent;
  bail PermitStateInconsistent when negb (active =? counted)%N;
  let recomputed_shared :=
    len (base.filter (fun pool => pool = Shared) (btree_values (ledger_active self))) in
  recomputed_reserved ←
    panicking_sub (N.of_nat (size (ledger_active self))) recomputed_shared;
  bail PermitStateInconsistent when
    (negb (ledger_shared_in_use self =? recomputed_shared)
     || negb (ledger_control_reserved_in_use self =? recomputed_reserved))%N;
  Ok tt.

Definition try_acquire (class : DispatchClass)
    : M DomainPermitLedger PermitError (option DomainPermitToken) :=
  _ ← read ledger_validate_state;
  reserved ← gets (fun self => reserve_open self class);
  shared_capacity ← (if (reserved : bool) then mret 0%N
    else read (fun self => panicking_sub (ledger_total self) (ledger_control_reserved self)));
  shared ← gets (fun self => (ledger_shared_in_use self <? shared_capacity)%N);
  match (if (reserved : bool) then Some ControlReserved
         else if (shared : bool) then Some Shared else None) with
  | None => mret None
  | Some pool =>
      permit_id ← read (fun self =>
        ok_or (checked_add u64_max (ledger_next_permit_id self) 1) PermitCounterOverflow);
      previous ← gets (fun self => ledger_active self !! permit_id);
      _ ← modify (fun self => set_ledger_active (<[permit_id := pool]> (ledger_active self)) self);
      if bool_decide (is_Some previous) then lift (Err PermitStateInconsistent)
      else
        _ ← match pool with
            | Shared =>
                next ← read (fun self =>
                  ok_or (checked_add u32_max (ledger_shared_in_use self) 1) PermitCounterOverflow);
                modify (set_shared_in_use next)
            | ControlReserved =>
                next ← read (fun self =>
                  ok_or (checked_add u32_max (ledger_control_reserved_in_use self) 1)
                    PermitCounterOverflow);
                modify (set_control_reserved_in_use next)
            end;
        _ ← modify (set_next_permit_id permit_id);
        id ← gets ledger_id;
        mret (Some (MkDomainPermitToken id permit_id pool true))
  end.

(** [release] assigns to the ledger and to the caller's token. *)
Definition release : M (DomainPermitLedger * DomainPermitToken) PermitError unit :=
  _ ← read (fun '(self, _) => ledger_validate_state self);
  _ ← read (fun '(_, token) => fail_if (negb (token_active token)) AlreadyReleased);
  _ ← read (fun '(self, token) =>
        fail_if (bool_decide (token_ledger token <> ledger_id self)) LedgerMismatch);
  pool ← read (fun '(self, token) =>
        ok_or (ledger_active self !! token_permit_id token) TokenMismatch);
  _ ← read (fun '(_, token) => fail_if (bool_decide (pool <> token_pool token)) TokenMismatch);
  _ ← match pool with
      | Shared =>
          next ← read (fun '(self, _) =>
            ok_or (checked_sub (ledger_shared_in_use self) 1) PermitStateInconsistent);
          modify (fun '(self, token) => (set_shared_in_use next self, token))
      | ControlReserved =>
          next ← read (fun '(self, _) =>
            ok_or (checked_sub (ledger_control_reserved_in_use self) 1) PermitStateInconsistent);
          modify (fun '(self, token) => (set_control_reserved_in_use next self, token))
      end;
  modify (fun '(self, MkDomainPermitToken l i p _ as token) =>
    (set_ledger_active (delete (token_permit_id token) (ledger_active self)) self,
     MkDomainPermitToken l i p false)).

Definition ledger_snapshot (self : DomainPermitLedger) : result PermitError DomainPermitSnapshot :=
  _ ← ledger_validate_state self;
  Ok (MkDomainPermitSnapshot (ledger_total self) (ledger_control_reserved self)
        (ledger_shared_in_use self) (ledger_control_reserved_in_use self)).

(** ** The ledger invariant *)

(** Permits of one pool that are out. *)
Definition pool_count (p : PermitPool) (m : gmap N PermitPool) : N :=
  len (base.filter (fun pool => pool = p) (btree_values m)).

Record ledger_inv (l : DomainPermitLedger) : Prop := {
  ledger_inv_total : (0 < ledger_total l <= u32_max)%N;
  ledger_inv_reserved : (ledger_control_reserved l <= ledger_total l)%N;
  ledger_inv_shared : ledger_shared_in_use l = pool_count Shared (ledger_active l);
  ledger_inv_shared_max :
    (ledger_shared_in_use l <= ledger_total l - ledger_control_reserved l)%N;
  ledger_inv_control : ledger_control_reserved_in_use l = pool_count ControlReserved (ledger_active l);
  ledger_inv_control_max : (ledger_control_reserved_in_use l <= ledger_control_reserved l)%N;
  ledger_inv_ids : forall id, is_Some (ledger_active l !! id) -> (id <= ledger_next_permit_id l)%N;
}.

Lemma btree_values_insert {V} (m : gmap N V) k v :
  m !! k = None -> btree_values (<[k:=v]> m) ≡ₚ v :: btree_values m.
Proof.
  intros Hk. unfold btree_values. by rewrite !btree_iter_Permutation, map_to_list_insert.
Qed.
Lemma pool_count_insert p m k v :
  m !! k = None ->
  pool_count p (<[k:=v]> m) = (pool_count p m + if bool_decide (v = p) then 1 else 0)%N.
Proof.
  intros Hk. unfold pool_count. rewrite (btree_values_insert m k v Hk), filter_cons.
  case_decide; [rewrite bool_decide_eq_true_2, len_cons by done|rewrite bool_decide_eq_false_2 by done];
    lia.
Qed.
Lemma pool_count_delete p m k v :
  m !! k = Some v ->
  pool_count p m = (pool_count p (delete k m) + if bool_decide (v = p) then 1 else 0)%N.
Proof.
  intros Hk. rewrite <-(insert_delete_id m k v Hk) at 1. apply pool_count_insert, lookup_delete_eq.
Qed.
Lemma pool_count_size m :
  N.of_nat (size m) = (pool_count Shared m + pool_count ControlReserved m)%N.
Proof.
  unfold pool_count. rewrite <-length_btree_keys. unfold btree_keys, btree_values. rewrite length_map.
  induction (btree_iter m) as [|[k []] l IH]; [done|..]; csimpl; rewrite !filter_cons;
    repeat case_decide; try done; rewrite len_cons; lia.
Qed.

Lemma ledger_inv_validate l : ledger_inv l -> ledger_validate_state l = Ok tt.
Proof.
  intros [[Ht0 Ht] Hr Hs Hsm Hc Hcm _]. unfold ledger_validate_state.
  rewrite (checked_sub_ok (ledger_total l)) by done. simpl.
  destruct (_ || _ || _)%N eqn:E; [exfalso; rewrite !orb_true_iff, !N.ltb_lt, N.eqb_eq in E; lia|].
  simpl. pose proof (pool_count_size (ledger_active l)) as Hsize.
  rewrite <-Hs, <-Hc in Hsize. fold (pool_count Shared (ledger_active l)). rewrite <-Hs, Hsize.
  rewrite try_from_ok by lia. simpl. rewrite checked_add_ok by lia. simpl.
  rewrite N.eqb_refl. simpl. unfold panicking_sub. rewrite checked_sub_ok by lia. simpl.
  rewrite N.eqb_refl, (proj2 (N.eqb_eq _ _)) by lia. done.
Qed.

(** ** Acquiring and releasing *)

(** The pool a class draws from, if any. *)
Definition chosen_pool (l : DomainPermitLedger) (class : DispatchClass) : option PermitPool :=
  if reserve_open l class then Some ControlReserved
  else if (ledger_shared_in_use l <? ledger_total l - ledger_control_reserved l)%N
  then Some Shared else None.

Definition ledger_after (l : DomainPermitLedger) (pool : PermitPool) : DomainPermitLedger :=
  let permit_id := (ledger_next_permit_id l + 1)%N in
  let l := set_ledger_active (<[permit_id := pool]> (ledger_active l))
             (set_next_permit_id permit_id l) in
  match pool with
  | Shared => set_shared_in_use (ledger_shared_in_use l + 1) l
  | ControlReserved => set_control_reserved_in_use (ledger_control_reserved_in_use l + 1) l
  end.

Lemma fresh_permit_id l :
  ledger_inv l -> ledger_active l !! (ledger_next_permit_id l + 1)%N = None.
Proof.
  intros Hi. destruct (ledger_active l !! _) eqn:E; [|done].
  pose proof (ledger_inv_ids l Hi (ledger_next_permit_id l + 1)) as H. rewrite E in H.
  specialize (H (mk_is_Some _ _ eq_refl)). lia.
Qed.

Lemma can_acquire_spec {E} l class :
  ledger_inv l -> can_acquire (E := E) l class = Ok (bool_decide (is_Some (chosen_pool l class))).
Proof.
  intros Hi. unfold can_acquire, chosen_pool, panicking_sub. destruct (reserve_open l class); [done|].
  rewrite checked_sub_ok by apply Hi. simpl. by destruct (_ <? _)%N.
Qed.

Lemma try_acquire_cases l class :
  ledger_inv l ->
  try_acquire class l =
  match chosen_pool l class with
  | None => (l, Ok None)
  | Some pool =>
      if (ledger_next_permit_id l + 1 <=? u64_max)%N then
        (ledger_after l pool,
         Ok (Some (MkDomainPermitToken (ledger_id l) (ledger_next_permit_id l + 1) pool true)))
      else (l, Err PermitCounterOverflow)
  end.
Proof.
  intros Hi. pose proof (fresh_permit_id l Hi) as Hfresh. unfold try_acquire.
  rewrite run_read, ledger_inv_validate, run_gets, run_bind by done. unfold chosen_pool.
  destruct Hi as [[Ht0 Ht] Hr Hs Hsm Hc Hcm _].
  destruct (reserve_open l class) eqn:Hopen.
  - rewrite run_ret, run_gets, run_read. unfold checked_add at 1.
    destruct (_ <=? _)%N; [|done]. simpl. rewrite run_gets, Hfresh, run_modify.
    unfold reserve_open in Hopen. rust_inv. destruct l; simpl in *.
    rewrite run_bind, run_read. simpl. rewrite checked_add_ok by lia. done.
  - unfold read. unfold panicking_sub. rewrite checked_sub_ok by done. simpl. rewrite run_gets.
    destruct (N.ltb_spec (ledger_shared_in_use l) (ledger_total l - ledger_control_reserved l)); [|done].
    change (fun s => (s, ?f s)) with (read f).
    rewrite run_bind. unfold checked_add at 1.
    destruct (_ <=? _)%N; [|done]. simpl. rewrite run_gets, Hfresh, run_modify.
    destruct l; simpl in *.
    rewrite run_bind, run_bind. simpl. rewrite checked_add_ok by lia. done.
Qed.

Lemma ledger_after_inv l class pool :
  ledger_inv l -> chosen_pool l class = Some pool -> ledger_inv (ledger_after l pool).
Proof.
  intros Hi Hc. pose proof (fresh_permit_id l Hi) as Hfresh.
  destruct Hi as [Ht Hr Hs Hsm Hcr Hcm Hids].
  unfold chosen_pool, reserve_open in Hc. unfold ledger_after.
  assert (forall id, is_Some (<[(ledger_next_permit_id l + 1)%N := pool]> (ledger_active l) !! id) ->
    (id <= ledger_next_permit_id l + 1)%N) as Hids'.
  { intros id. rewrite lookup_insert_is_Some. intros [<-|[_ Hid]]; [lia|].
    apply Hids in Hid. lia. }
  assert ((pool = ControlReserved /\ ledger_control_reserved_in_use l < ledger_control_reserved l)%N \/
    (pool = Shared /\ ledger_shared_in_use l < ledger_total l - ledger_control_reserved l)%N)
    as [[-> Hroom]|[-> Hroom]].
  { destruct (is_control class && _) eqn:E; rust_inv; simplify_eq; [by left|].
    destruct (N.ltb_spec (ledger_shared_in_use l) (ledger_total l - ledger_control_reserved l));
      simplify_eq. by right. }
  all: destruct l; simpl in *; constructor; simpl; rewrite ?pool_count_insert by done;
    repeat case_bool_decide; try done; lia.
Qed.

(** The ledger after the permit [id] of [pool] came back. *)
Definition ledger_released (l : DomainPermitLedger) (id : N) (pool : PermitPool) : DomainPermitLedger :=
  let l' := set_ledger_active (delete id (ledger_active l)) l in
  match pool with
  | Shared => set_shared_in_use (ledger_shared_in_use l - 1) l'
  | ControlReserved => set_control_reserved_in_use (ledger_control_reserved_in_use l - 1) l'
  end.

Definition permit_live (l : DomainPermitLedger) (t : DomainPermitToken) : Prop :=
  token_ledger t = ledger_id l /\ ledger_active l !! token_permit_id t = Some (token_pool t).

Definition spend (t : DomainPermitToken) : DomainPermitToken :=
  MkDomainPermitToken (token_ledger t) (token_permit_id t) (token_pool t) false.

Lemma release_cases l t :
  ledger_inv l ->
  (token_active t = false /\ release (l, t) = ((l, t), Err AlreadyReleased)) \/
  (token_active t = true /\ ~ permit_live l t /\
    exists e, (e = LedgerMismatch \/ e = TokenMismatch) /\ release (l, t) = ((l, t), Err e)) \/
  (token_active t = true /\ permit_live l t /\
    release (l, t) = ((ledger_released l (token_permit_id t) (token_pool t), spend t), Ok tt)).
Proof.
  intros Hi. unfold release, permit_live, spend. rewrite run_read, ledger_inv_validate by done.
  rewrite run_read. destruct t as [tl ti tp []]; simpl; [|by left]. right.
  rewrite run_read. simpl. case_bool_decide as Hid; simpl.
  { left. split_and!; [done|tauto|eexists; split; [by left|done]]. }
  rewrite run_read. simpl. destruct (ledger_active l !! ti) as [pool|] eqn:Hl; simpl.
  2:{ left. split_and!; [done|by intros [_ ?]|eexists; split; [by right|done]]. }
  rewrite run_read. simpl. case_bool_decide as Hp; simpl.
  { left. split_and!; [done|intros [_ ?]; congruence|eexists; split; [by right|done]]. }
  right. subst pool. split_and!; [done..|]. destruct Hi as [_ _ Hs _ Hc _ _].
  pose proof (pool_count_delete Shared _ _ _ Hl). pose proof (pool_count_delete ControlReserved _ _ _ Hl).
  rewrite run_bind. destruct tp; simpl in *; rewrite run_read; simpl;
    rewrite checked_sub_ok by lia; by destruct l.
Qed.

Lemma ledger_released_inv l id pool :
  ledger_inv l -> ledger_active l !! id = Some pool -> ledger_inv (ledger_released l id pool).
Proof.
  intros Hi Hl. pose proof (pool_count_delete Shared _ _ _ Hl).
  pose proof (pool_count_delete ControlReserved _ _ _ Hl).
  destruct Hi as [Ht Hr Hs Hsm Hcr Hcm Hids]. unfold ledger_released.
  assert (forall k, is_Some (delete id (ledger_active l) !! k) -> (k <= ledger_next_permit_id l)%N)
    as Hids' by (intros k Hk; apply Hids; by apply lookup_delete_is_Some in Hk as [_ ?]).
  destruct pool, l; simpl in *; constructor; simpl in *; try done; lia.
Qed.

(** ** Runs of a ledger *)

Inductive ledger_step (l : DomainPermitLedger) : DomainPermitLedger -> Prop :=
| ledger_step_acquire class l' res : try_acquire class l = (l', res) -> ledger_step l l'
| ledger_step_release t l' t' res : release (l, t) = ((l', t'), res) -> ledger_step l l'.

Definition ledger_reachable (l : DomainPermitLedger) : Prop :=
  exists id total control_reserved l0,
    (total <= u32_max)%N /\ ledger_try_new id total control_reserved = Ok l0 /\ rtc ledger_step l0 l.

Lemma ledger_step_inv l l' : ledger_inv l -> ledger_step l l' -> ledger_inv l'.
Proof.
  intros Hi [class ? res H|t ? t' res H].
  - rewrite try_acquire_cases in H by done. destruct (chosen_pool l class) eqn:Hc; [|by simplify_eq].
    destruct (_ <=? _)%N; simplify_eq; [|done]. by eapply ledger_after_inv.
  - destruct (release_cases l t Hi) as [[_ Hr]|[(_ & _ & e & _ & Hr)|(_ & [_ Hl] & Hr)]];
      rewrite Hr in H; simplify_eq; [done..|]. by apply ledger_released_inv.
Qed.
Lemma ledger_run_inv l l' : ledger_inv l -> rtc ledger_step l l' -> ledger_inv l'.
Proof. intros Hi Hrun. induction Hrun; eauto using ledger_step_inv. Qed.
Lemma ledger_new_inv id total control_reserved l :
  (total <= u32_max)%N -> ledger_try_new id total control_reserved = Ok l -> ledger_inv l.
Proof.
  unfold ledger_try_new. intros Ht H. rust_inv. simplify_eq.
  constructor; simpl; try done; try lia. intros k [v Hv]. by rewrite lookup_empty in Hv.
Qed.
Lemma ledger_reachable_inv l : ledger_reachable l -> ledger_inv l.
Proof.
  intros (id & total & reserved & l0 & Ht & Hnew & Hrun).
  apply ledger_new_inv in Hnew; [|done]. induction Hrun; eauto using ledger_step_inv.
Qed.
#[export] Hint Resolve ledger_reachable_inv : core.

(** A permit that came back is never live again: ids only grow. *)
Definition permit_spent (l : DomainPermitLedger) (t : DomainPermitToken) : Prop :=
  (token_permit_id t <= ledger_next_permit_id l)%N /\ ledger_active l !! token_permit_id t = None.

Lemma ledger_step_spent l l' t :
  ledger_inv l -> ledger_step l l' -> permit_spent l t -> permit_spent l' t.
Proof.
  intros Hi [class ? res H|t0 ? t' res H] [Hle Hnone].
  - rewrite try_acquire_cases in H by done. destruct (chosen_pool l class) as [pool|] eqn:Hc; [|by simplify_eq].
    destruct (_ <=? _)%N; simplify_eq; [|done]. unfold ledger_after, permit_spent.
    destruct pool, l; simpl in *; split; try lia; by rewrite lookup_insert_ne by lia.
  - destruct (release_cases l t0 Hi) as [[_ Hr]|[(_ & _ & e & _ & Hr)|(_ & [_ Hl] & Hr)]];
      rewrite Hr in H; simplify_eq; [done..|]. unfold ledger_released, permit_spent.
    destruct (token_pool t0), l; simpl in *; split; try done; rewrite lookup_delete_None; auto.
Qed.
Lemma ledger_run_spent l l' t :
  ledger_inv l -> rtc ledger_step l l' -> permit_spent l t -> permit_spent l' t.
Proof. intros Hi Hrun. induction Hrun; eauto using ledger_step_spent, ledger_step_inv. Qed.

(** ** Properties *)

(** Whatever was acquired and released, the permits in use stay within each
    pool and the snapshot reports them without leaving [u32]. *)
Theorem permits_within_capacity l :
  ledger_reachable l ->
  (ledger_shared_in_use l <= ledger_total l - ledger_control_reserved l)%N /\
  (ledger_control_reserved_in_use l <= ledger_control_reserved l)%N /\
  exists snap, ledger_snapshot l = Ok snap /\
    in_use (E := PermitError) snap = Ok (N.of_nat (size (ledger_active l))) /\
    available (E := PermitError) snap = Ok (ledger_total l - N.of_nat (size (ledger_active l)))%N.
Proof.
  intros Hi%ledger_reachable_inv. split_and!; [apply Hi..|].
  unfold ledger_snapshot. rewrite ledger_inv_validate by done. eexists. split; [done|].
  destruct Hi as [[Ht0 Ht] Hr Hs Hsm Hc Hcm _].
  unfold available, in_use, panicking_add, panicking_sub; simpl.
  rewrite pool_count_size, <-Hs, <-Hc. rewrite checked_add_ok by lia. simpl.
  by rewrite checked_sub_ok by lia.
Qed.

(** [can_acquire] decides [try_acquire]: a permit is issued exactly when the
    probe says so, unless the permit ids are exhausted, and a refusal changes
    nothing. *)
Theorem can_acquire_decides_try_acquire l class :
  ledger_reachable l ->
  exists b, can_acquire (E := PermitError) l class = Ok b /\
    (b = false -> try_acquire class l = (l, Ok None)) /\
    (b = true -> (ledger_next_permit_id l < u64_max)%N ->
      exists l' t, try_acquire class l = (l', Ok (Some t)) /\ token_active t = true /\
        permit_live l' t /\
        (token_pool t = ControlReserved -> class = Control)).
Proof.
  intros Hi%ledger_reachable_inv. eexists. split; [by apply can_acquire_spec|].
  rewrite try_acquire_cases by done. unfold chosen_pool. split.
  - intros Hb. rust_inv. destruct (reserve_open l class); [by destruct Hb|].
    destruct (_ <? _)%N; [by destruct Hb|done].
  - intros Hb Hid. rust_inv. rewrite (proj2 (N.leb_le _ _)) by lia.
    assert (forall pool, permit_live (ledger_after l pool)
      (MkDomainPermitToken (ledger_id l) (ledger_next_permit_id l + 1) pool true)) as Hlive.
    { intros pool. split; destruct pool, l; simpl; try done; by rewrite lookup_insert_eq. }
    destruct (reserve_open l class) eqn:E.
    + eexists _, _. split_and!; [done..|apply Hlive|].
      intros _. unfold reserve_open, is_control in E. by destruct class.
    + destruct (_ <? _)%N; [|by destruct Hb]. eexists _, _. split_and!; [done..|apply Hlive|done].
Qed.

(** Control work is never starved by the other classes: while the reserve is
    not used up by control work itself, a control acquisition succeeds however
    many permits the other classes hold, and it leaves the shared pool alone. *)
Theorem control_reserve_is_exclusive l :
  ledger_reachable l ->
  (ledger_control_reserved_in_use l < ledger_control_reserved l)%N ->
  (ledger_next_permit_id l < u64_max)%N ->
  exists l' t, try_acquire Control l = (l', Ok (Some t)) /\ token_pool t = ControlReserved /\
    ledger_shared_in_use l' = ledger_shared_in_use l /\
    forall class l'' res, class <> Control -> try_acquire class l = (l'', res) ->
      ledger_control_reserved_in_use l'' = ledger_control_reserved_in_use l.
Proof.
  intros Hi%ledger_reachable_inv Hroom Hid. rewrite try_acquire_cases by done.
  unfold chosen_pool, reserve_open. simpl.
  rewrite (proj2 (N.ltb_lt _ _) Hroom), (proj2 (N.leb_le _ _)) by lia. simpl.
  eexists _, _. split_and!; [done..|by destruct l|].
  intros class l'' res Hcls H. rewrite try_acquire_cases in H by done.
  unfold chosen_pool, reserve_open in H. destruct class; [done|simpl in H..];
    (destruct (_ <? _)%N in H; [destruct (_ <=? _)%N in H|]); injection H as <- _; by destruct l.
Qed.

(** Acquire and release are inverse on the accounting, and a permit returns
    at most once: its token refuses a second release, and a copy of it is
    refused by every later state of the ledger. *)
Theorem permit_returns_once l class l1 t :
  ledger_reachable l -> try_acquire class l = (l1, Ok (Some t)) ->
  exists l2 t', release (l1, t) = ((l2, t'), Ok tt) /\
    ledger_shared_in_use l2 = ledger_shared_in_use l /\
    ledger_control_reserved_in_use l2 = ledger_control_reserved_in_use l /\
    ledger_active l2 = ledger_active l /\
    forall l3, rtc ledger_step l2 l3 ->
      release (l3, t') = ((l3, t'), Err AlreadyReleased) /\
      exists e, release (l3, t) = ((l3, t), Err e).
Proof.
  intros Hi%ledger_reachable_inv H. pose proof (fresh_permit_id l Hi) as Hfresh.
  pose proof (try_acquire_cases l class Hi) as Hc. rewrite H in Hc.
  destruct (chosen_pool l class) as [pool|] eqn:Hp; [|done].
  destruct (_ <=? _)%N; simplify_eq. pose proof (ledger_after_inv _ _ _ Hi Hp) as Hi1.
  set (t := MkDomainPermitToken _ _ _ _) in *.
  destruct (release_cases _ t Hi1) as [[? _]|[(_ & Hn & _)|(_ & _ & Hr)]]; [done|..].
  { destruct Hn. split; destruct pool, l; simpl; try done; by rewrite lookup_insert_eq. }
  rewrite Hr. eexists _, _. split; [done|].
  assert (ledger_inv (ledger_released (ledger_after l pool) (ledger_next_permit_id l + 1) pool)) as Hi2.
  { apply ledger_released_inv; [done|]. destruct pool, l; simpl; by rewrite lookup_insert_eq. }
  assert (permit_spent (ledger_released (ledger_after l pool) (ledger_next_permit_id l + 1) pool) t)
    as Hspent.
  { split; destruct pool, l; simpl; try done; by rewrite lookup_delete_eq. }
  split_and!; try (destruct pool, l; simpl in *; lia).
  { destruct pool, l; simpl in *; by rewrite delete_insert_id by done. }
  intros l3 Hrun. pose proof (ledger_run_spent _ _ _ Hi2 Hrun Hspent) as [_ Hnone].
  assert (ledger_inv l3) as Hi3 by by eapply ledger_run_inv.
  split.
  - by destruct (release_cases l3 (spend t) Hi3) as [[_ ->]|[(? & _)|(? & _)]].
  - destruct (release_cases l3 t Hi3) as [[? _]|[(_ & _ & e & _ & ->)|(_ & [_ Hl] & _)]];
      [done|by exists e|]. by rewrite Hnone in Hl.
Qed.

Module PermitDemo.
Definition demo_id : DomainPermitLedgerId := MkDomainPermitLedgerId (vreplicate 16 x01) 1 7.
Definition demo_ledger : DomainPermitLedger := MkDomainPermitLedger demo_id 3 1 0 0 0 ∅.
(** Two interactive permits are out: the shared pool is exhausted. *)
Definition busy : DomainPermitLedger :=
  fst (try_acquire Interactive (fst (try_acquire Interactive demo_ledger))).
Lemma busy_reachable : ledger_reachable busy.
Proof.
  exists demo_id, 3%N, 1%N, demo_ledger. split; [done|]. split; [reflexivity|].
  eapply rtc_l; [eapply (ledger_step_acquire _ Interactive), surjective_pairing|].
  eapply rtc_l; [eapply (ledger_step_acquire _ Interactive), surjective_pairing|]. constructor.
Defined.
End PermitDemo.
Import PermitDemo.

Lemma permits_within_capacity_witness :
  (ledger_shared_in_use busy <= 2)%N.
Proof. apply (permits_within_capacity busy busy_reachable). Defined.
Lemma can_acquire_decides_try_acquire_witness :
  exists b, can_acquire (E := PermitError) busy Interactive = Ok b /\
    (b = false -> try_acquire Interactive busy = (busy, Ok None)).
Proof.
  destruct (can_acquire_decides_try_acquire busy Interactive busy_reachable) as (b & H1 & H2 & _).
  exists b. split; [exact H1|exact H2].
Defined.
Lemma control_reserve_is_exclusive_witness :
  exists l' t, try_acquire Control busy = (l', Ok (Some t)) /\ token_pool t = ControlReserved.
Proof.
  destruct (control_reserve_is_exclusive busy busy_reachable) as (l' & t & H1 & H2 & _).
  - vm_compute. reflexivity.
  - vm_compute. reflexivity.
  - exists l', t. split; [exact H1|exact H2].
Defined.
Lemma permit_returns_once_witness :
  exists l2 t', release (fst (try_acquire Control busy),
    MkDomainPermitToken demo_id 3 ControlReserved true) = ((l2, t'), Ok tt).
Proof.
  destruct (permit_returns_once busy Control (fst (try_acquire Control busy))
    (MkDomainPermitToken demo_id 3 ControlReserved true) busy_reachable) as (l2 & t' & H & _).
  - vm_compute. reflexivity.
  - exists l2, t'. exact H.
Defined.
