(* ===== verification/DispatchModel.v ===== *)
(** * Dispatch policy: data and operations (crates/paraegox-runtime/src/dispatcher.rs)

    A loop domain serves its mailbox slots by a two-level weighted deficit
    round robin: four dispatch classes take turns with a quantum and a burst
    cap each, and inside a class the slots accumulate their own deficits.
    When all slots are alike the policy degenerates to a round-robin scan. *)

From S2P Require Import Prelude Assignment MailboxModel DispatchPermits.
Open Scope rust_scope.

Definition MAX_SERVICE_COST_TOKENS : N := 1000000.
Definition MAX_MINIMUM_SERVICE_WEIGHT : N := 1000000.
Definition MAX_DISPATCH_SLOTS : N := 256.
Definition CLASS_COUNT : nat := 4.
Definition MAX_DEFICIT : N := N.shiftl 1 48.
Definition MAX_CLASS_QUANTUM : N := MAX_MINIMUM_SERVICE_WEIGHT * MAX_DISPATCH_SLOTS.
Definition MAX_CLASS_BURST : N := u16_max * MAX_DISPATCH_SLOTS.

(** ** Data *)

Definition ALL : list DispatchClass := [Control; Interactive; Stream; Background].

(** A [[T; CLASS_COUNT]] indexed by [class.index()]. *)
Record per_class (A : Type) := PerClass {
  at_control : A;
  at_interactive : A;
  at_stream : A;
  at_background : A;
}.
Arguments PerClass {A} _ _ _ _.
Definition class_get {A : Type} (a : per_class A) (c : DispatchClass) : A :=
  let '(PerClass w x y z) := a in
  match c with Control => w | Interactive => x | Stream => y | Background => z end.
Definition class_put {A : Type} (c : DispatchClass) (v : A) (a : per_class A) : per_class A :=
  let '(PerClass w x y z) := a in
  match c with
  | Control => PerClass v x y z
  | Interactive => PerClass w v y z
  | Stream => PerClass w x v z
  | Background => PerClass w x y v
  end.

Inductive DispatcherError :=
| NoSlots
| TooManySlots
| DuplicateMailbox
| InvalidCost
| InvalidWeight
| InvalidBurst
| TooManyReadinessHints
| DuplicateReadinessHint
| UnknownMailbox
| ReadinessMailboxMismatch
| DispatchCounterOverflow
| DispatchStateInconsistent
| PermitStateChanged
| Permit (e : PermitError).
#[export] Instance DispatcherError_eq_dec : EqDecision DispatcherError.
Proof. solve_decision. Defined.

Record DispatchClassPolicy := MkDispatchClassPolicy { quantum : N; class_max_burst : N }.

Definition class_policy_try_new (quantum max_burst : N) : result DispatcherError DispatchClassPolicy :=
  bail InvalidWeight when ((quantum =? 0) || (MAX_CLASS_QUANTUM <? quantum))%N;
  bail InvalidBurst when ((max_burst =? 0) || (MAX_CLASS_BURST <? max_burst))%N;
  Ok (MkDispatchClassPolicy quantum max_burst).

Record DispatchSlotSpec := MkDispatchSlotSpec {
  spec_mailbox : MailboxRef;
  spec_class : DispatchClass;
  spec_cost : N;
  spec_weight : N;
  spec_max_burst : N;
}.

Definition slot_spec_try_new (mailbox : MailboxRef) (class : DispatchClass) (cost weight max_burst : N)
    : result DispatcherError DispatchSlotSpec :=
  bail InvalidCost when ((cost =? 0) || (MAX_SERVICE_COST_TOKENS <? cost))%N;
  bail InvalidWeight when ((weight =? 0) || (MAX_MINIMUM_SERVICE_WEIGHT <? weight))%N;
  bail InvalidBurst when (max_burst =? 0)%N;
  Ok (MkDispatchSlotSpec mailbox class cost weight max_burst).

Record DispatchReadiness := MkDispatchReadiness {
  readiness_mailbox : MailboxRef;
  readiness_head : MailboxHeadReadiness;
}.

Record DispatchSlot := MkDispatchSlot {
  slot_mailbox : MailboxRef;
  slot_class : DispatchClass;
  slot_cost : N;
  slot_weight : N;
  slot_deficit : N;
  slot_max_burst : N;
  slot_registration : N;
}.
Definition set_deficit (v : N) (s : DispatchSlot) : DispatchSlot :=
  let '(MkDispatchSlot a b c d _ f g) := s in MkDispatchSlot a b c d v f g.

Inductive SelectionPath := DirectScan | HierarchicalDeficit.

Record DispatchSelection := MkDispatchSelection {
  selection_mailbox : MailboxRef;
  selection_class : DispatchClass;
  selection_cost : N;
  selection_path : SelectionPath;
}.

Inductive DispatchIdleReason := NoReadyMailbox | NoDomainPermit.
Record DispatchGrant := MkDispatchGrant {
  grant_selection : DispatchSelection;
  grant_permit : DomainPermitToken;
}.
Inductive DispatchDecision :=
| Selected (grant : DispatchGrant)
| Idle (reason : DispatchIdleReason).

Record DispatchPolicy := MkDispatchPolicy {
  slots : list DispatchSlot;
  classes : per_class DispatchClassPolicy;
  class_deficit : per_class N;
  class_cursor : nat;
  class_visit_open : bool;
  slot_cursor : per_class nat;
  last_class : option DispatchClass;
  class_burst : N;
  last_slot : option nat;
  slot_burst : N;
  direct_scan : bool;
  direct_cursor : nat;
}.
Definition set_slots (v : list DispatchSlot) (p : DispatchPolicy) : DispatchPolicy :=
  let '(MkDispatchPolicy _ b c d e f g h i j k l) := p in MkDispatchPolicy v b c d e f g h i j k l.
Definition set_class_deficit (v : per_class N) (p : DispatchPolicy) : DispatchPolicy :=
  let '(MkDispatchPolicy a b _ d e f g h i j k l) := p in MkDispatchPolicy a b v d e f g h i j k l.
Definition set_class_visit (cursor : nat) (visit_open : bool) (p : DispatchPolicy) : DispatchPolicy :=
  let '(MkDispatchPolicy a b c _ _ f g h i j k l) := p in
  MkDispatchPolicy a b c cursor visit_open f g h i j k l.
Definition set_slot_cursor (v : per_class nat) (p : DispatchPolicy) : DispatchPolicy :=
  let '(MkDispatchPolicy a b c d e _ g h i j k l) := p in MkDispatchPolicy a b c d e v g h i j k l.
Definition set_class_service (class : option DispatchClass) (burst : N) (p : DispatchPolicy)
    : DispatchPolicy :=
  let '(MkDispatchPolicy a b c d e f _ _ i j k l) := p in
  MkDispatchPolicy a b c d e f class burst i j k l.
Definition set_slot_service (slot : option nat) (burst : N) (p : DispatchPolicy) : DispatchPolicy :=
  let '(MkDispatchPolicy a b c d e f g h _ _ k l) := p in
  MkDispatchPolicy a b c d e f g h slot burst k l.
Definition set_direct_cursor (v : nat) (p : DispatchPolicy) : DispatchPolicy :=
  let '(MkDispatchPolicy a b c d e f g h i j k _) := p in MkDispatchPolicy a b c d e f g h i j k v.

#[export] Instance MailboxRef_ord_key : OrdKey MailboxRef.
Proof.
  refine {| key_leb a b := key_leb (mailbox_ref_bytes a) (mailbox_ref_bytes b) |}.
  - intros a b; apply key_leb_total.
  - intros a b c; apply key_leb_trans.
Defined.
Definition mailbox_le : relation MailboxRef := fun a b => key_leb a b = true.
#[export] Instance mailbox_le_dec a b : Decision (mailbox_le a b) := bool_eq_dec _ _.

(** [windows(2).any(|pair| pair[0] == pair[1])]. *)
Fixpoint repeats (l : list MailboxRef) : bool :=
  match l with
  | x :: ((y :: _) as l') => bool_decide (x = y) || repeats l'
  | _ => false
  end.

Definition alike (specs : list DispatchSlotSpec) : bool :=
  match specs with
  | [] => true
  | first :: _ =>
      forallb (fun spec => bool_decide (spec_class spec = spec_class first)
                 && (spec_cost spec =? spec_cost first)%N
                 && (spec_weight spec =? spec_weight first)%N) specs
  end.

Definition policy_try_new (classes : per_class DispatchClassPolicy) (specs : list DispatchSlotSpec)
    : result DispatcherError DispatchPolicy :=
  bail NoSlots when bool_decide (specs = []);
  bail TooManySlots when (MAX_DISPATCH_SLOTS <? len specs)%N;
  bail DuplicateMailbox when repeats (merge_sort mailbox_le (map spec_mailbox specs));
  slots ← try_fold (fun slots '(cursor, spec) =>
      cursor ← ok_or (try_from u16_max (N.of_nat cursor)) TooManySlots;
      Ok (slots ++ [MkDispatchSlot (spec_mailbox spec) (spec_class spec) (spec_cost spec)
                      (spec_weight spec) 0 (spec_max_burst spec) cursor]))
    [] (enumerate specs);
  Ok {| slots := slots;
        classes := classes;
        class_deficit := PerClass 0%N 0%N 0%N 0%N;
        class_cursor := 0;
        class_visit_open := false;
        slot_cursor := PerClass 0 0 0 0;
        last_class := None;
        class_burst := 0;
        last_slot := None;
        slot_burst := 0;
        direct_scan := alike specs;
        direct_cursor := 0 |}.

(** ** Queries *)

(** [eligible[index]]; the eligibility vector has one entry per slot. *)
Definition eligible_at (eligible : list bool) (index : nat) : bool := default false (eligible !! index).
(** [eligible[index] && slots[index].class == class]. *)
Definition in_class (self : DispatchPolicy) (class : DispatchClass) (eligible : list bool)
    (index : nat) : bool :=
  eligible_at eligible index
  && match slots self !! index with Some slot => bool_decide (slot_class slot = class) | None => false end.

Definition any_slot (self : DispatchPolicy) (f : nat -> DispatchSlot -> bool) : bool :=
  existsb (fun '(index, slot) => f index slot) (enumerate (slots self)).

Definition class_has_eligible (self : DispatchPolicy) (class : DispatchClass) (eligible : list bool)
    : bool :=
  any_slot self (fun index slot => eligible_at eligible index && bool_decide (slot_class slot = class)).
Definition has_other_eligible_class (self : DispatchPolicy) (class : DispatchClass)
    (eligible : list bool) : bool :=
  any_slot self (fun index slot => eligible_at eligible index && bool_decide (slot_class slot <> class)).
Definition has_other_eligible_slot (self : DispatchPolicy) (selected : nat) (class : DispatchClass)
    (eligible : list bool) : bool :=
  any_slot self (fun index slot =>
    negb (index =? selected)%nat && eligible_at eligible index && bool_decide (slot_class slot = class)).
Definition minimum_eligible_cost (self : DispatchPolicy) (class : DispatchClass)
    (eligible : list bool) : N :=
  let costs := omap (fun '(index, slot) =>
      if eligible_at eligible index && bool_decide (slot_class slot = class)
      then Some (slot_cost slot) else None) (enumerate (slots self)) in
  match costs with
  | [] => u64_max
  | cost :: costs => foldl N.min cost costs
  end.
Definition class_burst_exhausted (self : DispatchPolicy) (class : DispatchClass) : bool :=
  bool_decide (last_class self = Some class)
  && (class_max_burst (class_get (classes self) class) <=? class_burst self)%N.
Definition slot_burst_exhausted (self : DispatchPolicy) (index : nat) : bool :=
  bool_decide (last_slot self = Some index)
  && match slots self !! index with
     | Some slot => (slot_max_burst slot <=? slot_burst self)%N
     | None => false
     end.

(** The slots a class may serve now: the [continue] tests of both scans. *)
Definition candidate (self : DispatchPolicy) (class : DispatchClass) (eligible : list bool)
    (index : nat) : bool :=
  in_class self class eligible index
  && negb (slot_burst_exhausted self index && has_other_eligible_slot self index class eligible).

(** The indices [(start + offset) % n] for [offset] in [0..n]. *)
Definition scan (start n : nat) : list nat := map (fun offset => (start + offset) mod n) (seq 0 n).
Fixpoint first_of (P : nat -> bool) (l : list nat) : option nat :=
  match l with [] => None | i :: l => if P i then Some i else first_of P l end.

(** ** Slot level *)

Definition service_rounds (slot : DispatchSlot) : result DispatcherError N :=
  let missing := saturating_sub (slot_cost slot) (slot_deficit slot) in
  if (missing =? 0)%N then Ok 0%N
  else
    pad ← panicking_sub (slot_weight slot) 1;
    total ← ok_or (checked_add u64_max missing pad) DispatchCounterOverflow;
    Ok (total / slot_weight slot)%N.

Definition required_rounds (self : DispatchPolicy) (class : DispatchClass) (eligible : list bool)
    (indices : list nat) : result DispatcherError (option N) :=
  try_fold (fun required index =>
      if candidate self class eligible index then
        slot ← unwrap (slots self !! index);
        rounds ← service_rounds slot;
        Ok (Some (match required with Some value => N.min value rounds | None => rounds end))
      else Ok required) None indices.

(** The credit loop over [slots.iter_mut()]: slots credited before a failing
    one keep their credit. *)
Fixpoint credit_slots (rounds : N) (class : DispatchClass) (eligible : list bool) (index : nat)
    (slots : list DispatchSlot) : list DispatchSlot * result DispatcherError unit :=
  match slots with
  | [] => ([], Ok tt)
  | slot :: rest =>
      let credited :=
        if eligible_at eligible index && bool_decide (slot_class slot = class) then
          credit ← ok_or (checked_mul u64_max rounds (slot_weight slot)) DispatchCounterOverflow;
          total ← ok_or (checked_add u64_max (slot_deficit slot) credit) DispatchCounterOverflow;
          Ok (set_deficit (N.min total MAX_DEFICIT) slot)
        else Ok slot in
      match credited with
      | Ok slot' =>
          let '(rest', res) := credit_slots rounds class eligible (S index) rest in
          (slot' :: rest', res)
      | Err e => (slot :: rest, Err e)
      | Panic => (slot :: rest, Panic)
      end
  end.
Definition credit_class_slots (rounds : N) (class : DispatchClass) (eligible : list bool)
    : M DispatchPolicy DispatcherError unit :=
  fun self =>
    let '(slots', res) := credit_slots rounds class eligible 0 (slots self) in
    (set_slots slots' self, res).

Definition affordable (self : DispatchPolicy) (index : nat) : bool :=
  match slots self !! index with
  | Some slot => (slot_cost slot <=? slot_deficit slot)%N
  | None => false
  end.

Definition prepare_slot_in_class (class : DispatchClass) (eligible : list bool)
    : M DispatchPolicy DispatcherError nat :=
  indices ← gets (fun self =>
    scan (class_get (slot_cursor self) class mod length (slots self)) (length (slots self)));
  required ← read (fun self => required_rounds self class eligible indices);
  required_rounds ← lift (ok_or required DispatchStateInconsistent);
  _ ← (if (0 <? required_rounds)%N then credit_class_slots required_rounds class eligible
       else mret tt);
  read (fun self =>
    ok_or (first_of (fun index => candidate self class eligible index && affordable self index) indices)
      DispatchStateInconsistent).

Definition record_slot_service (index : nat) (self : DispatchPolicy) : DispatchPolicy :=
  if bool_decide (last_slot self = Some index)
  then set_slot_service (last_slot self) (saturating_add u32_max (slot_burst self) 1) self
  else set_slot_service (Some index) 1 self.
Definition record_class_service (class : DispatchClass) (self : DispatchPolicy) : DispatchPolicy :=
  if bool_decide (last_class self = Some class)
  then set_class_service (last_class self) (saturating_add u32_max (class_burst self) 1) self
  else set_class_service (Some class) 1 self.

Definition commit_slot_service (index : nat) : M DispatchPolicy DispatcherError unit :=
  slot ← read (fun self => unwrap (slots self !! index));
  deficit ← lift (ok_or (checked_sub (slot_deficit slot) (slot_cost slot)) DispatchStateInconsistent);
  _ ← modify (fun self => set_slots (<[index := set_deficit deficit slot]> (slots self)) self);
  _ ← modify (record_slot_service index);
  repeat ← gets (fun self =>
    ((slot_burst self <? slot_max_burst slot) && (slot_cost slot <=? deficit))%N);
  modify (fun self => set_slot_cursor
    (class_put (slot_class slot)
      (if (repeat : bool) then index else (index + 1) mod length (slots self))
      (slot_cursor self)) self).

(** ** Class level *)

Definition advance_class_visit (class_index : nat) (self : DispatchPolicy) : DispatchPolicy :=
  set_class_visit ((class_index + 1) mod CLASS_COUNT) false self.

Definition credit_class_visit (class : DispatchClass) : M DispatchPolicy DispatcherError unit :=
  total ← read (fun self => ok_or
    (checked_add u64_max (class_get (class_deficit self) class)
      (quantum (class_get (classes self) class))) DispatchCounterOverflow);
  modify (fun self =>
    set_class_deficit (class_put class (N.min total MAX_DEFICIT) (class_deficit self)) self).

(** [DispatchClass::ALL[class_index]]. *)
Definition class_at {E : Type} (class_index : nat) : result E DispatchClass :=
  unwrap (ALL !! class_index).

Definition commit_class_service (class_index slot_index : nat) (eligible : list bool)
    : M DispatchPolicy DispatcherError nat :=
  class ← lift (class_at class_index);
  slot ← read (fun self => unwrap (slots self !! slot_index));
  deficit ← read (fun self => ok_or
    (checked_sub (class_get (class_deficit self) class) (slot_cost slot)) DispatchStateInconsistent);
  _ ← modify (fun self => set_class_deficit (class_put class deficit (class_deficit self)) self);
  _ ← commit_slot_service slot_index;
  _ ← modify (record_class_service class);
  keep_class ← gets (fun self =>
    ((class_burst self <? class_max_burst (class_get (classes self) class))
     && (minimum_eligible_cost self class eligible <=? class_get (class_deficit self) class))%N);
  _ ← modify (if (keep_class : bool) then set_class_visit class_index true
              else advance_class_visit class_index);
  mret slot_index.

(** The [for _ in 0..CLASS_COUNT] loop; [turns] are the turns left. *)
Fixpoint pass_loop (turns : nat) (burst_fallback : option (nat * nat)) (eligible : list bool)
    : M DispatchPolicy DispatcherError (option nat) :=
  match turns with
  | O =>
      match burst_fallback with
      | Some (class_index, slot_index) =>
          slot ← commit_class_service class_index slot_index eligible; mret (Some slot)
      | None => mret None
      end
  | S turns =>
      class_index ← gets class_cursor;
      class ← lift (class_at class_index);
      has ← gets (fun self => class_has_eligible self class eligible);
      if negb has then
        _ ← modify (advance_class_visit class_index);
        pass_loop turns burst_fallback eligible
      else
        visit_open ← gets class_visit_open;
        _ ← (if (visit_open : bool) then mret tt
             else
               _ ← credit_class_visit class;
               modify (fun self => set_class_visit (class_cursor self) true self));
        slot_index ← prepare_slot_in_class class eligible;
        slot ← read (fun self => unwrap (slots self !! slot_index));
        deficit ← gets (fun self => class_get (class_deficit self) class);
        if (deficit <? slot_cost slot)%N then
          _ ← modify (advance_class_visit class_index);
          pass_loop turns burst_fallback eligible
        else
          yields ← gets (fun self =>
            class_burst_exhausted self class && has_other_eligible_class self class eligible);
          if (yields : bool) then
            _ ← modify (advance_class_visit class_index);
            pass_loop turns (Some (class_index, slot_index)) eligible
          else
            slot ← commit_class_service class_index slot_index eligible; mret (Some slot)
  end.
Definition select_hierarchical_pass (eligible : list bool)
    : M DispatchPolicy DispatcherError (option nat) :=
  pass_loop CLASS_COUNT None eligible.

(** How many visits a class needs before it can pay for its next slot. *)
Definition visits_for_class (eligible : list bool) (visits_until_service : option N)
    (class : DispatchClass) : M DispatchPolicy DispatcherError (option N) :=
  has ← gets (fun self => class_has_eligible self class eligible);
  if negb has then mret visits_until_service
  else
    slot_index ← prepare_slot_in_class class eligible;
    slot ← read (fun self => unwrap (slots self !! slot_index));
    missing ← read (fun self => ok_or
      (missing ← checked_sub (slot_cost slot) (class_get (class_deficit self) class);
       if (0 <? missing)%N then Some missing else None) DispatchStateInconsistent);
    quantum ← gets (fun self => quantum (class_get (classes self) class));
    pad ← lift (panicking_sub quantum 1);
    total ← lift (ok_or (checked_add u64_max missing pad) DispatchCounterOverflow);
    let visits := (total / quantum)%N in
    mret (Some (match visits_until_service with
                | Some current => N.min current visits
                | None => visits
                end)).

Definition credit_empty_rounds (eligible : list bool) (empty_rounds : N) (u : unit)
    (class : DispatchClass) : M DispatchPolicy DispatcherError unit :=
  has ← gets (fun self => class_has_eligible self class eligible);
  if negb has then mret tt
  else
    credit ← read (fun self => ok_or
      (checked_mul u64_max empty_rounds (quantum (class_get (classes self) class)))
      DispatchCounterOverflow);
    total ← read (fun self => ok_or
      (checked_add u64_max (class_get (class_deficit self) class) credit) DispatchCounterOverflow);
    modify (fun self =>
      set_class_deficit (class_put class (N.min total MAX_DEFICIT) (class_deficit self)) self).

Definition fast_forward_empty_class_rounds (eligible : list bool)
    : M DispatchPolicy DispatcherError unit :=
  visit_open ← gets class_visit_open;
  if (visit_open : bool) then lift (Err DispatchStateInconsistent)
  else
    visits_until_service ← for_each (visits_for_class eligible) None ALL;
    empty_rounds ← lift (ok_or
      (visits ← visits_until_service; checked_sub visits 1) DispatchStateInconsistent);
    if (empty_rounds =? 0)%N then mret tt
    else for_each (credit_empty_rounds eligible empty_rounds) tt ALL.

Definition select_hierarchical (eligible : list bool) : M DispatchPolicy DispatcherError nat :=
  first ← select_hierarchical_pass eligible;
  match first with
  | Some slot_index => mret slot_index
  | None =>
      _ ← fast_forward_empty_class_rounds eligible;
      second ← select_hierarchical_pass eligible;
      lift (ok_or second DispatchStateInconsistent)
  end.

Definition select_direct (eligible : list bool) : M DispatchPolicy DispatcherError nat :=
  indices ← gets (fun self => scan (direct_cursor self) (length (slots self)));
  match first_of (eligible_at eligible) indices with
  | Some index =>
      _ ← modify (fun self => set_direct_cursor ((index + 1) mod length (slots self)) self);
      mret index
  | None => lift (Err DispatchStateInconsistent)
  end.

(** ** Selection with a permit *)

Definition position (self : DispatchPolicy) (mailbox : MailboxRef) : option nat :=
  fst <$> list_find (fun slot => slot_mailbox slot = mailbox) (slots self).

Fixpoint readiness_loop (self : DispatchPolicy) (ready seen : list bool)
    (readiness : list DispatchReadiness) : result DispatcherError (list bool) :=
  match readiness with
  | [] => Ok ready
  | input :: readiness =>
      index ← ok_or (position self (readiness_mailbox input)) UnknownMailbox;
      already ← unwrap (seen !! index);
      bail DuplicateReadinessHint when already;
      bail ReadinessMailboxMismatch when
        match readiness_hint (readiness_head input) with
        | Some hint => bool_decide (hint_mailbox hint <> readiness_mailbox input)
        | None => false
        end;
      readiness_loop self (<[index := is_dispatchable (readiness_head input)]> ready)
        (<[index := true]> seen) readiness
  end.
Definition validate_readiness (self : DispatchPolicy) (readiness : list DispatchReadiness)
    : result DispatcherError (list bool) :=
  bail TooManyReadinessHints when (MAX_DISPATCH_SLOTS <? len readiness)%N;
  let none := replicate (length (slots self)) false in
  readiness_loop self none none readiness.

Definition eligible_slots (self : DispatchPolicy) (permits : DomainPermitLedger) (ready : list bool)
    : result DispatcherError (list bool) :=
  try_fold (fun eligible '(index, value) =>
      flag ← (if (value : bool) then
                slot ← unwrap (slots self !! index); can_acquire permits (slot_class slot)
              else Ok false);
      Ok (eligible ++ [flag])) [] (enumerate ready).

Definition try_select_and_acquire (readiness : list DispatchReadiness)
    : M (DispatchPolicy * DomainPermitLedger) DispatcherError DispatchDecision :=
  ready ← read (fun '(self, _) => validate_readiness self readiness);
  if negb (existsb id ready) then mret (Idle NoReadyMailbox)
  else
    eligible ← read (fun '(self, permits) => eligible_slots self permits ready);
    if negb (existsb id eligible) then mret (Idle NoDomainPermit)
    else
      direct ← gets (fun '(self, _) => direct_scan self);
      slot_index ← on_fst (if (direct : bool) then select_direct eligible
                           else select_hierarchical eligible);
      let path := if (direct : bool) then DirectScan else HierarchicalDeficit in
      slot ← read (fun '(self, _) => unwrap (slots self !! slot_index));
      permit ← on_snd (with_err Permit (try_acquire (slot_class slot)));
      match permit with
      | None => lift (Err PermitStateChanged)
      | Some permit =>
          mret (Selected (MkDispatchGrant
            (MkDispatchSelection (slot_mailbox slot) (slot_class slot) (slot_cost slot) path)
            permit))
      end.
