(* ===== verification/DispatchInv.v ===== *)
(** * Dispatch policy: the invariant and the selection passes

    On a policy that satisfies [policy_inv] the two-level selection always
    finds an affordable slot: a pass over the four classes either serves one
    or leaves every eligible class short of credit, and the fast forward then
    gives the closest class exactly what it was missing. *)

From S2P Require Import Prelude Assignment MailboxModel DispatchPermits DispatchModel.

(** ** The invariant *)

Record slot_ok (s : DispatchSlot) : Prop := {
  slot_ok_cost : (0 < slot_cost s <= MAX_SERVICE_COST_TOKENS)%N;
  slot_ok_weight : (0 < slot_weight s <= MAX_MINIMUM_SERVICE_WEIGHT)%N;
  slot_ok_deficit : (slot_deficit s <= MAX_DEFICIT)%N;
}.

Definition class_index (c : DispatchClass) : nat :=
  match c with Control => 0 | Interactive => 1 | Stream => 2 | Background => 3 end.
Definition next_class (c : DispatchClass) : DispatchClass :=
  match c with
  | Control => Interactive | Interactive => Stream | Stream => Background | Background => Control
  end.

Record policy_inv (p : DispatchPolicy) : Prop := {
  policy_inv_nonempty : slots p <> [];
  policy_inv_slots : Forall slot_ok (slots p);
  policy_inv_quantum : forall c, (0 < quantum (class_get (classes p) c) <= MAX_CLASS_QUANTUM)%N;
  policy_inv_deficit : forall c, (class_get (class_deficit p) c <= MAX_DEFICIT)%N;
  policy_inv_cursor : exists c, class_cursor p = class_index c;
  policy_inv_direct : direct_cursor p < length (slots p);
}.

(** ** Frames *)

(** The same slot with another deficit. *)
Definition slot_evolves (s s' : DispatchSlot) : Prop := s' = set_deficit (slot_deficit s') s.
Definition slots_evolve (p p' : DispatchPolicy) : Prop := Forall2 slot_evolves (slots p) (slots p').

(** [p'] differs from [p] at most in deficits and in the class visit. *)
Record same_service (p p' : DispatchPolicy) : Prop := {
  same_slots : slots_evolve p p';
  same_classes : classes p' = classes p;
  same_slot_cursor : slot_cursor p' = slot_cursor p;
  same_last_class : last_class p' = last_class p;
  same_class_burst : class_burst p' = class_burst p;
  same_last_slot : last_slot p' = last_slot p;
  same_slot_burst : slot_burst p' = slot_burst p;
  same_direct : direct_scan p' = direct_scan p /\ direct_cursor p' = direct_cursor p;
}.
(** The slots and the deficit of class [c] are untouched. *)
Definition class_untouched (c : DispatchClass) (p p' : DispatchPolicy) : Prop :=
  class_get (class_deficit p') c = class_get (class_deficit p) c /\
  forall i s, slots p !! i = Some s -> slot_class s = c -> slots p' !! i = Some s.

Lemma set_deficit_fields v s :
  slot_mailbox (set_deficit v s) = slot_mailbox s /\ slot_class (set_deficit v s) = slot_class s /\
  slot_cost (set_deficit v s) = slot_cost s /\ slot_weight (set_deficit v s) = slot_weight s /\
  slot_max_burst (set_deficit v s) = slot_max_burst s /\ slot_deficit (set_deficit v s) = v.
Proof. by destruct s. Qed.
Lemma slot_evolves_fields s s' :
  slot_evolves s s' ->
  slot_mailbox s' = slot_mailbox s /\ slot_class s' = slot_class s /\ slot_cost s' = slot_cost s /\
  slot_weight s' = slot_weight s /\ slot_max_burst s' = slot_max_burst s.
Proof. intros ->. destruct (set_deficit_fields (slot_deficit s') s) as (?&?&?&?&?&?). done. Qed.

#[export] Instance slot_evolves_preorder : PreOrder slot_evolves.
Proof.
  split.
  - intros []. done.
  - intros [] [] [] [=] [=]. by subst.
Qed.
#[export] Instance slots_evolve_preorder : PreOrder slots_evolve.
Proof.
  split.
  - intros p. unfold slots_evolve. reflexivity.
  - intros p p' p''. unfold slots_evolve. apply transitivity.
Qed.
#[export] Instance same_service_preorder : PreOrder same_service.
Proof.
  split.
  - intros p. by constructor.
  - intros p p' p'' [] []. constructor; try congruence; [by etrans|].
    split; destruct_and!; congruence.
Qed.
#[export] Instance class_untouched_preorder c : PreOrder (class_untouched c).
Proof.
  split.
  - intros p. done.
  - intros p p' p'' [H1 H2] [H3 H4]. split; [congruence|]. eauto.
Qed.

Lemma slots_evolve_lookup p p' i s :
  slots_evolve p p' -> slots p !! i = Some s -> exists s', slots p' !! i = Some s' /\ slot_evolves s s'.
Proof. intros H Hi. eapply Forall2_lookup_l in H as (s' & ? & ?); eauto. Qed.
Lemma slots_evolve_lookup_r p p' i s' :
  slots_evolve p p' -> slots p' !! i = Some s' -> exists s, slots p !! i = Some s /\ slot_evolves s s'.
Proof. intros H Hi. eapply Forall2_lookup_r in H as (s & ? & ?); eauto. Qed.
Lemma slots_evolve_None p p' i :
  slots_evolve p p' -> slots p !! i = None -> slots p' !! i = None.
Proof.
  intros H. rewrite !lookup_ge_None. by rewrite (Forall2_length _ _ _ H).
Qed.
Lemma slots_evolve_length p p' : slots_evolve p p' -> length (slots p') = length (slots p).
Proof. intros H. by rewrite (Forall2_length _ _ _ H). Qed.

(** ** Queries under evolution *)

Section queries.
Context (eligible : list bool).

Lemma any_slot_spec p f :
  any_slot p f = true <-> exists i s, slots p !! i = Some s /\ f i s = true.
Proof.
  unfold any_slot, enumerate. rewrite existsb_exists. split.
  - intros ([i s] & Hin & Hf). exists i, s. split; [|done].
    apply list_elem_of_In, elem_of_enumerate_from in Hin as [_ Hin]. by rewrite Nat.sub_0_r in Hin.
  - intros (i & s & Hi & Hf). exists (i, s). split; [|done].
    apply list_elem_of_In, elem_of_enumerate_from. split; [lia|]. by rewrite Nat.sub_0_r.
Qed.

Lemma any_slot_evolves p p' (f : nat -> DispatchSlot -> bool) :
  slots_evolve p p' -> (forall i s s', slot_evolves s s' -> f i s' = f i s) ->
  any_slot p' f = any_slot p f.
Proof.
  intros He Hf. apply eq_true_iff_eq. rewrite !any_slot_spec. split.
  - intros (i & s' & Hi & H). destruct (slots_evolve_lookup_r _ _ _ _ He Hi) as (s & Hs & Hss).
    exists i, s. split; [done|]. by rewrite <-(Hf i s s').
  - intros (i & s & Hi & H). destruct (slots_evolve_lookup _ _ _ _ He Hi) as (s' & Hs & Hss).
    exists i, s'. split; [done|]. by rewrite (Hf i s s').
Qed.

Lemma class_has_eligible_spec p c :
  class_has_eligible p c eligible = true <->
  exists i s, slots p !! i = Some s /\ eligible_at eligible i = true /\ slot_class s = c.
Proof.
  unfold class_has_eligible. rewrite any_slot_spec.
  setoid_rewrite andb_true_iff. by setoid_rewrite bool_decide_eq_true.
Qed.
Lemma class_has_eligible_evolves p p' c :
  slots_evolve p p' -> class_has_eligible p' c eligible = class_has_eligible p c eligible.
Proof.
  intros He. apply any_slot_evolves; [done|]. intros i s s' (_ & -> & _)%slot_evolves_fields. done.
Qed.
Lemma has_other_eligible_slot_evolves p p' i c :
  slots_evolve p p' -> has_other_eligible_slot p' i c eligible = has_other_eligible_slot p i c eligible.
Proof.
  intros He. apply any_slot_evolves; [done|]. intros j s s' (_ & -> & _)%slot_evolves_fields. done.
Qed.
Lemma in_class_evolves p p' c i :
  slots_evolve p p' -> in_class p' c eligible i = in_class p c eligible i.
Proof.
  intros He. unfold in_class. f_equal. destruct (slots p !! i) as [s|] eqn:E.
  - destruct (slots_evolve_lookup _ _ _ _ He E) as (s' & -> & (_ & -> & _)%slot_evolves_fields). done.
  - by rewrite (slots_evolve_None _ _ _ He E).
Qed.
Lemma candidate_same p p' c i :
  same_service p p' -> candidate p' c eligible i = candidate p c eligible i.
Proof.
  intros H. pose proof (same_slots _ _ H) as He. unfold candidate.
  rewrite (in_class_evolves _ _ _ _ He), (has_other_eligible_slot_evolves _ _ _ _ He).
  unfold slot_burst_exhausted. rewrite (same_last_slot _ _ H), (same_slot_burst _ _ H).
  destruct (slots p !! i) as [s|] eqn:E.
  - by destruct (slots_evolve_lookup _ _ _ _ He E) as (s' & -> & (_&_&_&_& ->)%slot_evolves_fields).
  - by rewrite (slots_evolve_None _ _ _ He E).
Qed.
Lemma candidate_in_class p c i :
  candidate p c eligible i = true ->
  exists s, slots p !! i = Some s /\ eligible_at eligible i = true /\ slot_class s = c.
Proof.
  unfold candidate, in_class. intros H. rust_inv. destruct (slots p !! i) as [s|]; [|done]. rust_inv.
  by exists s.
Qed.
End queries.

(** ** Scans *)

Lemma first_of_Some P l i :
  first_of P l = Some i -> P i = true /\ i ∈ l.
Proof.
  induction l as [|x l IH]; simpl; [done|]. destruct (P x) eqn:E.
  - intros [= ->]. split; [done|left].
  - intros [? ?]%IH. split; [done|by right].
Qed.
Lemma first_of_is_Some P l i : i ∈ l -> P i = true -> is_Some (first_of P l).
Proof.
  induction 1 as [|x y l _ IH]; intros HP; simpl; [by rewrite HP|].
  destruct (P y); [by eexists|auto].
Qed.
Lemma first_of_ext P Q l : (forall i, i ∈ l -> P i = Q i) -> first_of P l = first_of Q l.
Proof.
  induction l as [|x l IH]; intros H; simpl; [done|]. rewrite (H x) by left.
  destruct (Q x); [done|]. apply IH. intros. apply H. by right.
Qed.
Lemma elem_of_scan start n i : 0 < n -> i ∈ scan start n <-> i < n.
Proof.
  intros Hn. unfold scan. rewrite elem_of_map. split.
  - intros (o & -> & _). by apply Nat.mod_upper_bound; lia.
  - intros Hi. exists ((i + (n - start mod n)) mod n). split.
    + rewrite Nat.Div0.add_mod_idemp_r.
      pose proof (Nat.mod_upper_bound start n ltac:(lia)).
      rewrite <-(Nat.Div0.add_mod_idemp_l start).
      replace (start mod n + (i + (n - start mod n))) with (i + 1 * n) by lia.
      by rewrite Nat.Div0.mod_add, Nat.mod_small.
    + apply elem_of_seq. split; [lia|]. by apply Nat.mod_upper_bound; lia.
Qed.

(** ** Slot credit *)

(** The rounds of credit slot [s] still needs. *)
Definition rounds_of (s : DispatchSlot) : N :=
  if (slot_cost s - slot_deficit s =? 0)%N then 0%N
  else ((slot_cost s - slot_deficit s + (slot_weight s - 1)) / slot_weight s)%N.

Lemma max_deficit_value : MAX_DEFICIT = 281474976710656%N.
Proof. reflexivity. Qed.
Lemma max_quantum_value : MAX_CLASS_QUANTUM = 256000000%N.
Proof. reflexivity. Qed.
Lemma ceil_div_spec a b : (0 < b -> a <= (a + (b - 1)) / b * b /\ (a + (b - 1)) / b <= a)%N.
Proof.
  intros Hb. pose proof (N.div_mod (a + (b - 1)) b ltac:(lia)) as H.
  pose proof (N.mod_lt (a + (b - 1)) b ltac:(lia)) as Hm.
  revert H Hm. generalize ((a + (b - 1)) / b)%N ((a + (b - 1)) mod b)%N. intros q m H Hm.
  split; [lia|]. destruct (N.le_gt_cases q a) as [|Hq]; [done|].
  assert (b * (a + 1) <= b * q)%N by (apply N.mul_le_mono_l; lia).
  assert (1 * a <= b * a)%N by (apply N.mul_le_mono_r; lia). lia.
Qed.

Lemma service_rounds_Ok s : slot_ok s -> service_rounds s = Ok (rounds_of s).
Proof.
  intros [Hc Hw Hd]. unfold service_rounds, rounds_of, saturating_sub.
  destruct (_ =? 0)%N; [done|]. unfold panicking_sub. rewrite checked_sub_ok by lia. simpl.
  unfold MAX_SERVICE_COST_TOKENS, MAX_MINIMUM_SERVICE_WEIGHT in *.
  rewrite checked_add_ok; [done|]. unfold u64_max. lia.
Qed.
Lemma rounds_of_spec s :
  slot_ok s ->
  (slot_cost s <= slot_deficit s + rounds_of s * slot_weight s)%N /\
  (rounds_of s <= MAX_SERVICE_COST_TOKENS)%N /\
  (rounds_of s = 0 <-> slot_cost s <= slot_deficit s)%N.
Proof.
  intros [Hc Hw Hd]. unfold rounds_of. destruct (N.eqb_spec (slot_cost s - slot_deficit s) 0);
    [split_and!; lia|].
  pose proof (ceil_div_spec (slot_cost s - slot_deficit s) (slot_weight s) ltac:(lia)) as [H1 H2].
  set (q := ((slot_cost s - slot_deficit s + (slot_weight s - 1)) / slot_weight s)%N) in *.
  assert (q <> 0%N) by (intros ->; lia). split_and!; lia.
Qed.

Definition credit_slot (rounds : N) (s : DispatchSlot) : DispatchSlot :=
  set_deficit (N.min (slot_deficit s + rounds * slot_weight s) MAX_DEFICIT) s.
Definition credited_slots (rounds : N) (c : DispatchClass) (eligible : list bool) (i : nat)
    (l : list DispatchSlot) : list DispatchSlot :=
  imap (fun j s => if eligible_at eligible (i + j) && bool_decide (slot_class s = c)
                   then credit_slot rounds s else s) l.

Lemma credit_slots_Ok rounds c eligible i l :
  (rounds <= MAX_SERVICE_COST_TOKENS)%N -> Forall slot_ok l ->
  credit_slots rounds c eligible i l = (credited_slots rounds c eligible i l, Ok tt).
Proof.
  intros Hr Hl. revert i; induction Hl as [|s l [Hc Hw Hd] Hl IH]; intros i; [done|]. simpl.
  unfold credited_slots. rewrite imap_cons, Nat.add_0_r.
  destruct (_ && _).
  - unfold MAX_SERVICE_COST_TOKENS, MAX_MINIMUM_SERVICE_WEIGHT in *. rewrite max_deficit_value in Hd.
    unfold checked_mul. rewrite (proj2 (N.leb_le _ _)) by (unfold u64_max; nia). simpl.
    rewrite checked_add_ok by (unfold u64_max; nia). simpl.
    rewrite IH. unfold credited_slots, credit_slot. do 2 f_equal. apply imap_ext.
    intros j x _. simpl. by rewrite Nat.add_succ_r.
  - rewrite IH. unfold credited_slots. do 2 f_equal. apply imap_ext.
    intros j x _. simpl. by rewrite Nat.add_succ_r.
Qed.

Lemma credited_slots_ok rounds c eligible i l :
  Forall slot_ok l -> Forall slot_ok (credited_slots rounds c eligible i l).
Proof.
  intros Hl. apply Forall_lookup. intros j s. unfold credited_slots. rewrite list_lookup_imap.
  destruct (l !! j) as [s0|] eqn:E; [|done]. intros [= <-].
  assert (slot_ok s0) as [Hc Hw Hd] by by eapply Forall_lookup_1.
  destruct (_ && _); [|done]. unfold credit_slot.
  destruct (set_deficit_fields (N.min (slot_deficit s0 + rounds * slot_weight s0) MAX_DEFICIT) s0)
    as (E1 & E2 & E3 & E4 & E5 & E6).
  constructor; rewrite ?E3, ?E4, ?E6; try done. lia.
Qed.
Lemma credited_slots_evolve rounds c eligible i l :
  Forall2 slot_evolves l (credited_slots rounds c eligible i l).
Proof.
  apply Forall2_same_length_lookup_2; [by unfold credited_slots; rewrite length_imap|].
  intros j s s' Hs. unfold credited_slots. rewrite list_lookup_imap, Hs. intros [= <-].
  destruct (_ && _); [|reflexivity]. unfold credit_slot, slot_evolves. by destruct s.
Qed.

(** ** Preparing a slot *)

Section prepare.
Context (eligible : list bool).

(** The slot class [c] serves next: the first candidate in cursor order that
    can pay for its service. *)
Definition class_scan (p : DispatchPolicy) (c : DispatchClass) : list nat :=
  scan (class_get (slot_cursor p) c mod length (slots p)) (length (slots p)).
Definition pick (p : DispatchPolicy) (c : DispatchClass) : option nat :=
  first_of (fun i => candidate p c eligible i && affordable p i) (class_scan p c).

Lemma elem_of_class_scan p c i : policy_inv p -> i ∈ class_scan p c <-> i < length (slots p).
Proof.
  intros Hi. apply elem_of_scan. pose proof (policy_inv_nonempty p Hi).
  destruct (slots p); [done|simpl; lia].
Qed.

Lemma pick_Some p c i :
  pick p c = Some i ->
  exists s, slots p !! i = Some s /\ eligible_at eligible i = true /\ slot_class s = c /\
    (slot_cost s <= slot_deficit s)%N.
Proof.
  unfold pick. intros [H _]%first_of_Some. apply andb_true_iff in H as [Hc Ha].
  apply candidate_in_class in Hc as (s & Hs & He & Hcls). exists s. split_and!; try done.
  unfold affordable in Ha. rewrite Hs in Ha. by apply N.leb_le.
Qed.

Lemma pick_untouched p p' c :
  same_service p p' -> class_untouched c p p' -> pick p' c = pick p c.
Proof.
  intros Hs [_ Hu]. unfold pick, class_scan.
  rewrite (same_slot_cursor _ _ Hs), (slots_evolve_length _ _ (same_slots _ _ Hs)).
  apply first_of_ext. intros i _. rewrite (candidate_same _ _ _ _ _ Hs).
  destruct (candidate p c eligible i) eqn:Hc; [|done]. simpl.
  apply candidate_in_class in Hc as (s & Hi & _ & Hcls).
  unfold affordable. by rewrite Hi, (Hu _ _ Hi Hcls).
Qed.

(** At most one slot of a class is barred by its burst, so an eligible class
    always has a candidate. *)
Lemma candidate_exists p c :
  class_has_eligible p c eligible = true ->
  exists i, i < length (slots p) /\ candidate p c eligible i = true.
Proof.
  rewrite class_has_eligible_spec. intros (i & s & Hi & He & Hc).
  assert (in_class p c eligible i = true) as Hin.
  { unfold in_class. rewrite He, Hi. simpl. by apply bool_decide_eq_true. }
  destruct (slot_burst_exhausted p i && has_other_eligible_slot p i c eligible) eqn:E.
  2:{ exists i. split; [by eapply lookup_lt_Some|]. unfold candidate. by rewrite Hin, E. }
  apply andb_true_iff in E as [Hex Hother].
  unfold has_other_eligible_slot in Hother. rewrite any_slot_spec in Hother.
  destruct Hother as (j & sj & Hj & H). rust_inv.
  exists j. split; [by eapply lookup_lt_Some|]. unfold candidate, in_class.
  rewrite Hj. rewrite H1. simpl. rewrite bool_decide_eq_true_2 by done. simpl.
  unfold slot_burst_exhausted in *. rust_inv.
  rewrite bool_decide_eq_false_2 by congruence. done.
Qed.

Lemma required_rounds_spec p c l acc :
  policy_inv p -> (forall i, i ∈ l -> i < length (slots p)) ->
  exists r, try_fold (fun required index =>
      if candidate p c eligible index then
        slot ← unwrap (slots p !! index);
        rounds ← service_rounds slot;
        Ok (Some (match required with Some value => N.min value rounds | None => rounds end))
      else Ok required) acc l = Ok (E := DispatcherError) r /\
    (match r with
     | Some n => (acc = Some n \/ exists i s, i ∈ l /\ candidate p c eligible i = true /\
         slots p !! i = Some s /\ n = rounds_of s)
     | None => acc = None /\ forall i, i ∈ l -> candidate p c eligible i = false
     end) /\
    (forall n i s, r = Some n -> i ∈ l -> candidate p c eligible i = true -> slots p !! i = Some s ->
      (n <= rounds_of s)%N) /\
    (forall n m, acc = Some m -> r = Some n -> (n <= m)%N).
Proof.
  intros Hi. revert acc; induction l as [|i l IH]; intros acc Hl; simpl.
  - exists acc. split; [done|]. split_and!.
    + destruct acc; [by left|]. split; [done|]. by intros ? ?%not_elem_of_nil.
    + by intros ???? ?%not_elem_of_nil.
    + intros; simplify_eq. lia.
  - assert (forall j, j ∈ l -> j < length (slots p)) as Hl' by (intros; apply Hl; by right).
    destruct (candidate p c eligible i) eqn:Hc; simpl.
    + destruct (lookup_lt_is_Some_2 (slots p) i) as [s Hs]; [apply Hl; left|]. rewrite Hs. simpl.
      assert (slot_ok s) as Hok by (eapply Forall_lookup_1; [apply Hi|done]).
      rewrite service_rounds_Ok by done. simpl.
      destruct (IH (Some (match acc with Some value => N.min value (rounds_of s) | None => rounds_of s end))
        Hl') as (r & -> & H1 & H2 & H3).
      exists r. split; [done|]. split_and!.
      * destruct r as [n|]; [|by destruct H1]. destruct H1 as [Heq|(j & sj & ? & ? & ? & ?)].
        -- destruct acc as [m|]; simplify_eq.
           ++ destruct (N.min_spec m (rounds_of s)) as [[_ ->]|[_ ->]]; [by left|].
              right. exists i, s. split_and!; [left|done..].
           ++ right. exists i, s. split_and!; [left|done..].
        -- right. exists j, sj. split_and!; [by right|done..].
      * intros n j sj -> [->|Hj]%elem_of_cons Hcj Hsj; [|by eapply H2].
        simplify_eq. specialize (H3 n _ eq_refl eq_refl). destruct acc; lia.
      * intros n m -> ->. specialize (H3 n _ eq_refl eq_refl). lia.
    + destruct (IH acc Hl') as (r & -> & H1 & H2 & H3). exists r. split; [done|]. split_and!.
      * destruct r as [n|].
        -- destruct H1 as [?|(j & sj & ? & ? & ? & ?)]; [by left|].
           right. exists j, sj. split_and!; [by right|done..].
        -- destruct H1 as [? H1]. split; [done|]. intros j [->|Hj]%elem_of_cons; auto.
      * intros n j sj -> [->|Hj]%elem_of_cons Hcj Hsj; [congruence|by eapply H2].
      * done.
Qed.

(** What preparing class [c] does: it leaves every other class alone, and a
    class that already had an affordable slot is left alone too. *)
Record prepared (c : DispatchClass) (p p' : DispatchPolicy) (i : nat) : Prop := {
  prepared_inv : policy_inv p';
  prepared_pick : pick p' c = Some i;
  prepared_same : same_service p p';
  prepared_others : forall c', c' <> c -> class_untouched c' p p';
  prepared_deficit : class_deficit p' = class_deficit p;
  prepared_visit : class_cursor p' = class_cursor p /\ class_visit_open p' = class_visit_open p;
  prepared_stable : forall j, pick p c = Some j -> i = j /\ slots p' = slots p;
}.

Lemma set_slots_prepared c p l i :
  policy_inv p -> Forall slot_ok l -> Forall2 slot_evolves (slots p) l ->
  (forall j s, slots p !! j = Some s -> slot_class s <> c -> l !! j = Some s) ->
  pick (set_slots l p) c = Some i -> (pick p c = None \/ l = slots p) ->
  prepared c p (set_slots l p) i.
Proof.
  intros Hi Hok He Hother Hpick Hst. pose proof (Forall2_length _ _ _ He) as Hlen.
  constructor; [|done|..].
  - destruct Hi as [Hne _ Hq Hd Hc Hdir]. destruct p; simpl in *.
    constructor; simpl; try done; [|lia]. intros ->. apply Hne. by apply Forall2_nil_inv_r in He.
  - destruct p; by constructor.
  - intros c' Hne. destruct p; split; [done|]. intros j s Hj Hc. simpl in *.
    apply Hother; congruence.
  - by destruct p.
  - by destruct p.
  - intros j Hj. destruct Hst as [?| ->]; [congruence|].
    assert (set_slots (slots p) p = p) as Heq by by destruct p. rewrite Heq in *.
    split; [congruence|done].
Qed.

Lemma credited_pick p c r i s :
  policy_inv p -> i < length (slots p) -> candidate p c eligible i = true ->
  slots p !! i = Some s -> r = rounds_of s ->
  exists j, pick (set_slots (credited_slots r c eligible 0 (slots p)) p) c = Some j.
Proof.
  intros Hi Hlt Hc Hs ->. set (p' := set_slots _ p).
  assert (slots p' = credited_slots (rounds_of s) c eligible 0 (slots p)) as Hsl by by destruct p.
  assert (same_service p p') as Hsame.
  { constructor; try (by destruct p). unfold slots_evolve. rewrite Hsl.
    apply credited_slots_evolve. }
  assert (slot_ok s) as Hok by (eapply Forall_lookup_1; [apply Hi|done]).
  destruct (candidate_in_class _ _ _ _ Hc) as (s0 & Hs0 & He & Hcls). simplify_eq.
  apply (first_of_is_Some _ _ i).
  - unfold class_scan. rewrite (slots_evolve_length _ _ (same_slots _ _ Hsame)).
    apply elem_of_scan; lia.
  - rewrite (candidate_same _ _ _ _ _ Hsame), Hc. simpl. unfold affordable. rewrite Hsl.
    unfold credited_slots. rewrite list_lookup_imap, Hs. simpl. rewrite He. simpl.
    rewrite bool_decide_eq_true_2 by done. unfold credit_slot.
    destruct (set_deficit_fields (N.min (slot_deficit s + rounds_of s * slot_weight s) MAX_DEFICIT) s)
      as (_ & _ & -> & _ & _ & ->).
    apply N.leb_le. destruct (rounds_of_spec s Hok) as (H1 & _ & _).
    pose proof (slot_ok_cost s Hok). rewrite max_deficit_value.
    unfold MAX_SERVICE_COST_TOKENS in *. lia.
Qed.

Lemma prepare_spec p c :
  policy_inv p -> class_has_eligible p c eligible = true ->
  exists p' i, prepare_slot_in_class c eligible p = (p', Ok i) /\ prepared c p p' i.
Proof.
  intros Hi Hhas. unfold prepare_slot_in_class. rewrite run_gets, run_read.
  fold (class_scan p c). unfold required_rounds.
  destruct (required_rounds_spec p c (class_scan p c) None Hi) as (r & -> & Hr & Hmin & _).
  { intros i. by rewrite elem_of_class_scan. }
  destruct (candidate_exists p c Hhas) as (i0 & Hi0 & Hc0).
  destruct r as [r|]; [|destruct Hr as [_ Hr]; rewrite Hr in Hc0; [done|by rewrite elem_of_class_scan]].
  destruct Hr as [?|(i & s & Hin & Hc & Hs & ->)]; [done|]. simpl.
  assert (slot_ok s) as Hok by (eapply Forall_lookup_1; [apply Hi|done]).
  rewrite run_bind, run_lift. simpl. rewrite run_bind.
  destruct (N.ltb_spec 0 (rounds_of s)) as [Hpos|Hzero].
  - assert (pick p c = None) as Hnone.
    { destruct (pick p c) as [j|] eqn:Hj; [|done]. exfalso. pose proof Hj as Hj'.
      unfold pick in Hj'. apply first_of_Some in Hj' as [Hcj Hjin]. apply andb_true_iff in Hcj as [Hcj _].
      apply pick_Some in Hj as (sj & Hsj & _ & _ & Haff).
      assert (slot_ok sj) as Hokj by (eapply Forall_lookup_1; [apply Hi|done]).
      pose proof (Hmin _ _ _ eq_refl Hjin Hcj Hsj).
      apply (rounds_of_spec sj Hokj) in Haff. lia. }
    unfold credit_class_slots. rewrite credit_slots_Ok by (apply rounds_of_spec || apply Hi; done).
    destruct (credited_pick p c (rounds_of s) i s Hi) as [j Hj]; [by eapply lookup_lt_Some|done..|].
    exists (set_slots (credited_slots (rounds_of s) c eligible 0 (slots p)) p), j. split.
    + unfold read. unfold pick, class_scan in Hj.
      replace (slot_cursor (set_slots _ p)) with (slot_cursor p) in Hj by by destruct p.
      replace (length (slots (set_slots _ p))) with (length (slots p)) in Hj
        by (destruct p; simpl; unfold credited_slots; by rewrite length_imap).
      unfold class_scan. by rewrite Hj.
    + apply set_slots_prepared; [done|by apply credited_slots_ok, Hi|apply credited_slots_evolve| |done|by left].
      intros k sk Hk Hne. unfold credited_slots. rewrite list_lookup_imap, Hk. simpl.
      rewrite bool_decide_eq_false_2 by done. by rewrite andb_false_r.
  - assert (exists j, pick p c = Some j) as [j Hj].
    { apply (first_of_is_Some _ _ i); [done|]. rewrite Hc. unfold affordable. rewrite Hs.
      apply N.leb_le, (rounds_of_spec s Hok). lia. }
    assert (set_slots (slots p) p = p) as Heq by by destruct p.
    exists (set_slots (slots p) p), j. split.
    + rewrite run_ret. unfold read. rewrite Heq. unfold pick in Hj. by rewrite Hj.
    + apply set_slots_prepared; [done|apply Hi|by apply same_slots|done|by rewrite Heq|by right].
Qed.
End prepare.

(** ** Serving a class *)

Lemma class_get_put {A} c c' (v : A) a :
  class_get (class_put c v a) c' = if decide (c = c') then v else class_get a c'.
Proof. by destruct a, c, c'. Qed.
Lemma class_at_index {E} c : class_at (E := E) (class_index c) = Ok c.
Proof. by destruct c. Qed.
Lemma advance_index c : (class_index c + 1) mod CLASS_COUNT = class_index (next_class c).
Proof. by destruct c. Qed.
Lemma class_index_inj c c' : class_index c = class_index c' -> c = c'.
Proof. by destruct c, c'. Qed.

(** The outcome of serving slot [i] of class [c]. *)
Record served (c : DispatchClass) (i : nat) (p p' : DispatchPolicy) : Prop := {
  served_inv : policy_inv p';
  served_slots : slots_evolve p p';
  served_classes : classes p' = classes p;
  served_direct : direct_scan p' = direct_scan p /\ direct_cursor p' = direct_cursor p;
  served_last : last_class p' = Some c /\ last_slot p' = Some i;
  served_burst : class_burst p' =
    (if bool_decide (last_class p = Some c) then N.min (class_burst p + 1) u32_max else 1)%N;
  served_index : i < length (slots p);
}.

Lemma set_deficit_ok v s : slot_ok s -> (v <= MAX_DEFICIT)%N -> slot_ok (set_deficit v s).
Proof.
  intros [] Hv. destruct (set_deficit_fields v s) as (_ & _ & E1 & E2 & _ & E3).
  constructor; rewrite ?E1, ?E2, ?E3; done.
Qed.

Lemma commit_slot_spec p i s :
  policy_inv p -> slots p !! i = Some s -> (slot_cost s <= slot_deficit s)%N ->
  exists cursor burst,
    commit_slot_service i p =
    (set_slot_cursor cursor (set_slot_service (Some i) burst
      (set_slots (<[i := set_deficit (slot_deficit s - slot_cost s) s]> (slots p)) p)), Ok tt).
Proof.
  intros Hi Hs Hd. unfold commit_slot_service. rewrite run_read, Hs. simpl.
  rewrite run_bind, run_lift, checked_sub_ok by done. simpl. rewrite !run_modify, run_gets.
  unfold record_slot_service. case_bool_decide as Hl.
  - rewrite Hl. destruct p. by eexists _, _.
  - destruct p. by eexists _, _.
Qed.

Lemma insert_evolves (l : list DispatchSlot) i s v :
  l !! i = Some s -> Forall2 slot_evolves l (<[i := set_deficit v s]> l).
Proof.
  intros Hs. rewrite <-(list_insert_id l i s Hs) at 1. apply Forall2_insert; [reflexivity|].
  unfold slot_evolves. by destruct s.
Qed.

Lemma served_visit c i p q c' b :
  served c i p q -> served c i p (set_class_visit (class_index c') b q).
Proof.
  intros [[Hne Hok Hq Hd Hc Hdir] Hs Hcl Hdr Hl Hb Hidx]. destruct q; simpl in *.
  constructor; simpl; try done. constructor; simpl; try done. by exists c'.
Qed.

Lemma commit_class_spec eligible p c i s :
  policy_inv p -> slots p !! i = Some s -> slot_class s = c ->
  (slot_cost s <= slot_deficit s)%N -> (slot_cost s <= class_get (class_deficit p) c)%N ->
  exists p', commit_class_service (class_index c) i eligible p = (p', Ok i) /\ served c i p p'.
Proof.
  intros Hi Hs Hc Hd Hcd. unfold commit_class_service.
  rewrite run_bind, run_lift, class_at_index, run_read, Hs. simpl.
  rewrite run_read, checked_sub_ok by done. simpl. rewrite run_modify, run_bind.
  set (p1 := set_class_deficit _ p).
  assert (policy_inv p1) as Hi1.
  { destruct Hi as [Hne Hok Hq Hdef Hcur Hdir]. destruct p; simpl in *. constructor; simpl; try done.
    intros c'. rewrite class_get_put. case_decide; [subst|done]. specialize (Hdef (slot_class s)). lia. }
  destruct (commit_slot_spec p1 i s Hi1) as (cursor & burst & ->); [by destruct p|done|].
  rewrite run_modify, run_gets, run_modify, run_ret.
  eexists. split; [reflexivity|].
  assert (slot_ok s) as Hok by (eapply Forall_lookup_1; [apply Hi|done]).
  pose proof (slot_ok_deficit s Hok).
  set (q := record_class_service c _).
  assert (served c i p q) as Hq.
  { unfold q, p1, record_class_service. clear q.
    replace (last_class (set_slot_cursor _ _)) with (last_class p) by by destruct p.
    replace (class_burst (set_slot_cursor _ _)) with (class_burst p) by by destruct p.
    destruct Hi as [Hne Hoks Hqu Hdef Hcur Hdir]. destruct p; simpl in *.
    unfold saturating_add.
    case_bool_decide as Hl; (constructor; [|apply insert_evolves; exact Hs|simpl..];
      [|done|done|done|by rewrite ?bool_decide_eq_true_2, ?bool_decide_eq_false_2 by done
        |by eapply lookup_lt_Some]);
      (constructor; simpl; [| |done| |done|by rewrite length_insert]).
    1,4: intros E; apply (f_equal length) in E; rewrite length_insert in E;
      by apply nil_length_inv in E.
    1,3: apply Forall_insert; [done|apply set_deficit_ok; [done|lia]].
    all: intros c'; rewrite class_get_put; case_decide; [|done]; subst; specialize (Hdef (slot_class s)); lia. }
  destruct (_ && _).
  - by apply served_visit.
  - unfold advance_class_visit. rewrite advance_index. by apply served_visit.
Qed.

(** ** One turn of a pass *)

Section pass.
Context (eligible : list bool).

(** Class [c] was credited (unless its visit was open) and prepared. *)
Record visited (c : DispatchClass) (p p' : DispatchPolicy) (i : nat) : Prop := {
  visited_inv : policy_inv p';
  visited_pick : pick eligible p' c = Some i;
  visited_same : same_service p p';
  visited_others : forall c', c' <> c -> class_untouched c' p p';
  visited_cursor : class_cursor p' = class_cursor p;
  visited_deficit :
    class_get (class_deficit p') c =
    if class_visit_open p then class_get (class_deficit p) c
    else N.min (class_get (class_deficit p) c + quantum (class_get (classes p) c)) MAX_DEFICIT;
  visited_stable : forall j, pick eligible p c = Some j -> i = j /\ slots p' = slots p;
}.

Definition opened (c : DispatchClass) (p : DispatchPolicy) : DispatchPolicy :=
  if class_visit_open p then p
  else set_class_visit (class_cursor p) true
    (set_class_deficit (class_put c
      (N.min (class_get (class_deficit p) c + quantum (class_get (classes p) c)) MAX_DEFICIT)
      (class_deficit p)) p).

Lemma opened_facts c p :
  policy_inv p ->
  policy_inv (opened c p) /\ same_service p (opened c p) /\ slots (opened c p) = slots p /\
  class_cursor (opened c p) = class_cursor p /\
  (forall c', c' <> c -> class_untouched c' p (opened c p)) /\
  class_get (class_deficit (opened c p)) c =
    (if class_visit_open p then class_get (class_deficit p) c
     else N.min (class_get (class_deficit p) c + quantum (class_get (classes p) c)) MAX_DEFICIT).
Proof.
  intros Hi. unfold opened. destruct (class_visit_open p) eqn:E; [done|].
  assert (same_service p (set_class_visit (class_cursor p) true
    (set_class_deficit (class_put c
      (N.min (class_get (class_deficit p) c + quantum (class_get (classes p) c)) MAX_DEFICIT)
      (class_deficit p)) p))) as Hs.
  { destruct p; constructor; simpl; try done. unfold slots_evolve. reflexivity. }
  destruct Hi as [Hne Hok Hq Hd Hc Hdir]. split_and!; try done; destruct p; simpl in *; try done.
  - constructor; simpl; try done. intros c'. rewrite class_get_put.
    case_decide; [lia|done].
  - intros c' Hne'. split; [|done]. simpl. rewrite class_get_put. by rewrite decide_False.
  - rewrite class_get_put. by rewrite decide_True.
Qed.

Lemma open_visit_run c p :
  policy_inv p ->
  (if class_visit_open p then mret tt
   else _ ← credit_class_visit c;
        modify (fun self => set_class_visit (class_cursor self) true self)) p =
  (opened c p, Ok (E := DispatcherError) tt).
Proof.
  intros Hi. unfold opened. destruct (class_visit_open p); [done|].
  unfold credit_class_visit. rewrite run_bind, run_read, checked_add_ok.
  - by destruct p.
  - pose proof (policy_inv_quantum p Hi c) as Hq. pose proof (policy_inv_deficit p Hi c) as Hd.
    rewrite max_deficit_value in Hd. rewrite max_quantum_value in Hq. unfold u64_max. lia.
Qed.

Lemma pass_step p c n fb :
  policy_inv p -> class_cursor p = class_index c ->
  let advance := advance_class_visit (class_index c) in
  (class_has_eligible p c eligible = false /\
    pass_loop (S n) fb eligible p = pass_loop n fb eligible (advance p)) \/
  (class_has_eligible p c eligible = true /\
   exists p1 i s, visited c p p1 i /\ slots p1 !! i = Some s /\
    ((class_get (class_deficit p1) c < slot_cost s)%N /\
      pass_loop (S n) fb eligible p = pass_loop n fb eligible (advance p1) \/
     (slot_cost s <= class_get (class_deficit p1) c)%N /\
      class_burst_exhausted p1 c = true /\ has_other_eligible_class p1 c eligible = true /\
      pass_loop (S n) fb eligible p =
      pass_loop n (Some (class_index c, i)) eligible (advance p1) \/
     (slot_cost s <= class_get (class_deficit p1) c)%N /\
      class_burst_exhausted p1 c && has_other_eligible_class p1 c eligible = false /\
      exists p2, served c i p1 p2 /\ pass_loop (S n) fb eligible p = (p2, Ok (Some i)))).
Proof.
  intros Hi Hcur advance. cbn [pass_loop].
  rewrite run_gets, Hcur, run_bind, run_lift, class_at_index, run_gets.
  destruct (class_has_eligible p c eligible) eqn:Hhas; [right|by left]. split; [done|]. cbn [negb].
  destruct (opened_facts c p Hi) as (Hio & Hso & Hslo & Hcuro & Hoo & Hdo).
  destruct (prepare_spec eligible (opened c p) c Hio) as (p1 & i & Hprep & Hp).
  { by rewrite (class_has_eligible_evolves eligible _ _ c (same_slots _ _ Hso)). }
  destruct (pick_Some eligible p1 c i) as (s & Hs & _ & Hcls & Haff); [by apply Hp|].
  exists p1, i, s.
  assert (visited c p p1 i) as Hv.
  { destruct Hp as [Hpi Hpp Hps Hpo Hpd [Hpc _] Hst]. constructor; [done..| | | | |].
    - by etrans.
    - intros c' Hne. etrans; [by apply Hoo|by apply Hpo].
    - congruence.
    - by rewrite Hpd.
    - intros j Hj. rewrite <-Hslo. apply Hst. rewrite <-Hj. unfold pick, class_scan.
      rewrite (same_slot_cursor _ _ Hso), Hslo. apply first_of_ext. intros k _.
      rewrite (candidate_same _ _ _ _ _ Hso). unfold affordable. by rewrite Hslo. }
  split; [done|]. split; [done|].
  rewrite run_gets, run_bind, open_visit_run by done. rewrite run_bind, Hprep.
  rewrite run_read, Hs. simpl unwrap. cbv iota. rewrite run_gets.
  destruct (N.ltb_spec (class_get (class_deficit p1) c) (slot_cost s)) as [Hlt|Hle]; [by left|right].
  rewrite run_gets. destruct (class_burst_exhausted p1 c && has_other_eligible_class p1 c eligible) eqn:Hy.
  - left. rust_inv. done.
  - right. split_and!; [done..|].
    destruct (commit_class_spec eligible p1 c i s) as (p2 & Hcm & Hsv); [apply Hv|done..|].
    exists p2. split; [done|]. by rewrite run_bind, Hcm.
Qed.
End pass.

(** ** Whole passes *)

(** The classes of the next [n] turns. *)
Fixpoint turns (c : DispatchClass) (n : nat) : list DispatchClass :=
  match n with O => [] | S n => c :: turns (next_class c) n end.
Lemma turns_all c : turns c CLASS_COUNT ≡ₚ ALL.
Proof. destruct c; simpl; solve_Permutation. Qed.
Lemma turns_NoDup c : NoDup (turns c CLASS_COUNT).
Proof. destruct c; apply (bool_decide_unpack _); reflexivity. Qed.

Lemma advance_facts p c :
  policy_inv p ->
  let p' := advance_class_visit (class_index c) p in
  policy_inv p' /\ same_service p p' /\ slots p' = slots p /\ class_deficit p' = class_deficit p /\
  class_cursor p' = class_index (next_class c) /\ class_visit_open p' = false /\
  (forall c', class_untouched c' p p').
Proof.
  intros [Hne Hok Hq Hd Hc Hdir] p'. unfold p', advance_class_visit. rewrite advance_index.
  destruct p; simpl in *. split_and!; try done.
  - constructor; simpl; try done. by eexists.
  - constructor; simpl; try done. unfold slots_evolve. reflexivity.
Qed.

Section passes.
Context (eligible : list bool).

(** A pass may fall back to a class that was barred by its burst only. *)
Definition fallback_ok (p : DispatchPolicy) (later : list DispatchClass) (fb : option (nat * nat)) : Prop :=
  match fb with
  | None => True
  | Some (k, i) => exists c s, k = class_index c /\ c ∉ later /\ pick eligible p c = Some i /\
      slots p !! i = Some s /\ (slot_cost s <= class_get (class_deficit p) c)%N
  end.

(** Class [c] ended its visit without the credit for its next slot. *)
Definition short_of_credit (c : DispatchClass) (p p' : DispatchPolicy) : Prop :=
  exists i s, pick eligible p' c = Some i /\ slots p' !! i = Some s /\
    (class_get (class_deficit p') c < slot_cost s)%N /\
    (class_visit_open p = false ->
      class_get (class_deficit p') c =
      N.min (class_get (class_deficit p) c + quantum (class_get (classes p) c)) MAX_DEFICIT) /\
    (forall j, pick eligible p c = Some j -> i = j).

Record idle_pass (cs : list DispatchClass) (p p' : DispatchPolicy) : Prop := {
  idle_inv : policy_inv p';
  idle_same : same_service p p';
  idle_others : forall c, c ∉ cs -> class_untouched c p p';
  idle_short : forall c, c ∈ cs -> class_has_eligible p c eligible = true -> short_of_credit c p p';
  idle_visit : cs <> [] -> class_visit_open p' = false;
}.

Lemma fallback_frame p p' later c fb :
  fallback_ok p (c :: later) fb -> same_service p p' ->
  (forall c', c' <> c -> class_untouched c' p p') -> fallback_ok p' later fb.
Proof.
  destruct fb as [[k i]|]; [|done]. intros (cf & s & -> & Hnin & Hp & Hs & Hd) Hsame Ho.
  rewrite not_elem_of_cons in Hnin. destruct Hnin as [Hne Hnin].
  destruct (Ho cf Hne) as [Hdef Hslots]. exists cf, s. split_and!; try done.
  - by rewrite (pick_untouched _ _ _ _ Hsame (Ho cf Hne)).
  - destruct (pick_Some _ _ _ _ Hp) as (s' & Hs' & _ & Hc & _). simplify_eq. by apply Hslots.
  - by rewrite Hdef.
Qed.

Lemma short_after c p p1 p2 :
  same_service p p1 -> class_untouched c p p1 -> class_visit_open p1 = false ->
  short_of_credit c p1 p2 -> short_of_credit c p p2.
Proof.
  intros Hs Hu Hv (i & s & Hp & Hsl & Hlt & Hd & Hst). exists i, s. split_and!; [done..| |].
  - intros _. rewrite (Hd Hv), (proj1 Hu), (same_classes _ _ Hs). done.
  - intros j Hj. apply Hst. by rewrite (pick_untouched _ _ _ _ Hs Hu).
Qed.
Lemma short_before c p p1 p2 :
  same_service p1 p2 -> class_untouched c p1 p2 ->
  short_of_credit c p p1 -> short_of_credit c p p2.
Proof.
  intros Hs Hu (i & s & Hp & Hsl & Hlt & Hd & Hst). exists i, s.
  destruct (pick_Some _ _ _ _ Hp) as (s' & Hs' & _ & Hc & _). simplify_eq.
  rewrite (pick_untouched _ _ _ _ Hs Hu), (proj1 Hu). split_and!; try done. by apply (proj2 Hu).
Qed.

(** A turn that serves nothing, followed by turns that serve nothing. *)
Lemma idle_pass_cons c cs p pa p' :
  c ∉ cs -> same_service p pa -> (forall c', c' <> c -> class_untouched c' p pa) ->
  class_visit_open pa = false ->
  (class_has_eligible p c eligible = true -> short_of_credit c p pa) ->
  idle_pass cs pa p' -> (cs = [] -> p' = pa) -> idle_pass (c :: cs) p p'.
Proof.
  intros Hnin Hs Ho Hv Hshort [Hii Hsi Hoi Hshi Hvi] Hnil. constructor; [done|by etrans|..].
  - intros c' [? ?]%not_elem_of_cons. etrans; [by apply Ho|by apply Hoi].
  - intros c' Hin Hhas. destruct (decide (c' = c)) as [->|Hne].
    + by apply (short_before c p pa p' Hsi (Hoi c Hnin)), Hshort.
    + apply elem_of_cons in Hin as [?|Hin]; [done|].
      apply (short_after c' p pa p' Hs (Ho c' Hne) Hv), Hshi; [done|].
      by rewrite (class_has_eligible_evolves _ _ _ _ (same_slots _ _ Hs)).
  - intros _. destruct cs; [by rewrite Hnil|by apply Hvi].
Qed.

(** The outcome of a pass from [p]: it served a slot, or nothing could pay. *)
Definition pass_outcome (cs : list DispatchClass) (fb : option (nat * nat)) (p p' : DispatchPolicy)
    (res : option nat) : Prop :=
  match res with
  | Some i => eligible_at eligible i = true /\ exists cf pm, same_service p pm /\ served cf i pm p'
  | None => fb = None /\ idle_pass cs p p'
  end.
Lemma pass_outcome_cons c cs fb p pa p' res :
  c ∉ cs -> same_service p pa -> (forall c', c' <> c -> class_untouched c' p pa) ->
  class_visit_open pa = false ->
  (class_has_eligible p c eligible = true -> short_of_credit c p pa) ->
  (cs = [] -> res = None -> p' = pa) ->
  pass_outcome cs fb pa p' res -> pass_outcome (c :: cs) fb p p' res.
Proof.
  intros Hnin Hs Ho Hv Hshort Hnil. destruct res as [i|]; simpl.
  - intros [He (cf & pm & Hsm & Hsv)]. split; [done|]. exists cf, pm. split; [by etrans|done].
  - intros [-> Hidle]. split; [done|]. eapply idle_pass_cons; eauto.
Qed.

Lemma pass_loop_spec n p c fb :
  policy_inv p -> class_cursor p = class_index c -> NoDup (turns c n) -> fallback_ok p (turns c n) fb ->
  exists p' res, pass_loop n fb eligible p = (p', Ok res) /\ pass_outcome (turns c n) fb p p' res.
Proof.
  revert p c fb; induction n as [|n IH]; intros p c fb Hi Hcur Hnd Hfb.
  { simpl. destruct fb as [[k i]|].
    - destruct Hfb as (cf & s & -> & _ & Hp & Hs & Hd).
      destruct (pick_Some _ _ _ _ Hp) as (s' & Hs' & He & Hc & Haff). simplify_eq.
      destruct (commit_class_spec eligible p _ i s Hi Hs eq_refl Haff Hd) as (p' & Hrun & Hsv).
      exists p', (Some i). rewrite run_bind, Hrun. split; [done|]. split; [done|].
      by exists (slot_class s), p.
    - exists p, None. split; [done|]. split; [done|]. constructor; try done.
      by intros ? ?%not_elem_of_nil. }
  simpl in Hnd. apply NoDup_cons in Hnd as [Hnin Hnd].
  assert (forall pa p' res, pass_loop n fb eligible pa = (p', Ok res) ->
    turns (next_class c) n = [] -> res = None -> p' = pa) as Hnil.
  { intros pa p' res Hrun Hn ->. destruct n; [|done]. simpl in Hrun.
    destruct fb as [[]|]; [|by injection Hrun as <-]. rewrite run_bind in Hrun.
    by destruct (commit_class_service _ _ _ _) as [? []]. }
  destruct (pass_step eligible p c n fb Hi Hcur) as
    [(Hno & ->)|(Hhas & p1 & i & s & Hv & Hs & Hcase)].
  - destruct (advance_facts p c Hi) as (Hia & Hsa & _ & _ & Hca & Hva & Hua).
    destruct (IH _ _ fb Hia Hca Hnd) as (p' & res & Hrun & Hres); [by eapply fallback_frame|].
    exists p', res. split; [done|]. eapply pass_outcome_cons; eauto. congruence.
  - destruct Hv as [Hvi Hvp Hvs Hvo Hvc Hvd Hvst].
    destruct (advance_facts p1 c Hvi) as (Hia & Hsa & Hsla & Hda & Hca & Hva & Hua).
    set (pa := advance_class_visit (class_index c) p1) in *.
    assert (same_service p pa) as Hspa by by etrans.
    assert (forall c', c' <> c -> class_untouched c' p pa) as Hopa.
    { intros c' Hne. etrans; [by apply Hvo|apply Hua]. }
    assert (pick eligible pa c = Some i) as Hpa.
    { by rewrite (pick_untouched _ _ _ _ Hsa (Hua c)). }
    destruct Hcase as [(Hlt & ->)|[(Hle & _ & _ & ->)|(Hle & _ & p2 & Hsv & ->)]].
    + destruct (IH _ _ fb Hia Hca Hnd) as (p' & res & Hrun & Hres); [by eapply fallback_frame|].
      exists p', res. split; [done|]. eapply pass_outcome_cons; eauto.
      intros _. exists i, s. rewrite Hsla, Hda.
      split_and!; try done; [by intros Ho; rewrite Ho in Hvd|]. intros j Hj. by apply Hvst.
    + destruct (IH _ _ (Some (class_index c, i)) Hia Hca Hnd) as (p' & res & Hrun & Hres).
      { exists c, s. split_and!; try done; by rewrite ?Hsla, ?Hda. }
      exists p', res. split; [done|]. destruct res as [k|]; [|by destruct Hres].
      destruct Hres as [He (cf & pm & Hsm & Hsv)]. split; [done|]. exists cf, pm. split; [by etrans|done].
    + exists p2, (Some i). split; [done|]. split; [|by exists c, p1].
      destruct (pick_Some _ _ _ _ Hvp) as (_ & _ & He & _). done.
Qed.
End passes.

(** ** Fast forward *)

Section fast_forward.
Context (eligible : list bool) (p : DispatchPolicy).
Context (Hinv : policy_inv p).

Definition missing_credit (c : DispatchClass) : N :=
  match pick eligible p c with
  | Some i => match slots p !! i with
              | Some s => slot_cost s - class_get (class_deficit p) c
              | None => 0
              end
  | None => 0
  end.
Definition visits_of (c : DispatchClass) : N :=
  let q := quantum (class_get (classes p) c) in ((missing_credit c + (q - 1)) / q)%N.
(** Every eligible class lacks credit for the slot it would serve. *)
Definition all_short : Prop :=
  forall c, class_has_eligible p c eligible = true ->
    exists i s, pick eligible p c = Some i /\ slots p !! i = Some s /\
      (class_get (class_deficit p) c < slot_cost s)%N.
Context (Hshort : all_short).

Lemma prepare_id c i :
  class_has_eligible p c eligible = true -> pick eligible p c = Some i ->
  prepare_slot_in_class c eligible p = (p, Ok i).
Proof using Hinv.
  intros Hhas Hp. destruct (prepare_spec eligible p c Hinv Hhas) as (p' & j & Hrun & Hpr).
  destruct (prepared_stable _ _ _ _ _ Hpr i Hp) as [-> Hsl].
  destruct Hpr as [_ _ [_ Hcl Hsc Hlc Hcb Hls Hsb [Hds Hdc]] _ Hd [Hcc Hcv] _].
  rewrite Hrun. do 2 f_equal. destruct p, p'; simpl in *. congruence.
Qed.

Lemma visits_bounds c :
  class_has_eligible p c eligible = true ->
  let q := quantum (class_get (classes p) c) in
  (0 < missing_credit c <= MAX_SERVICE_COST_TOKENS)%N /\ (1 <= visits_of c)%N /\
  (missing_credit c <= visits_of c * q)%N /\ (visits_of c <= MAX_SERVICE_COST_TOKENS)%N.
Proof using Hinv Hshort.
  intros Hhas q. destruct (Hshort c Hhas) as (i & s & Hp & Hs & Hlt).
  assert (slot_ok s) as Hok by (eapply Forall_lookup_1; [apply Hinv|done]).
  pose proof (slot_ok_cost s Hok). pose proof (policy_inv_quantum p Hinv c) as Hq. fold q in Hq.
  unfold visits_of, missing_credit. fold q. rewrite Hp, Hs.
  set (m := (slot_cost s - class_get (class_deficit p) c)%N).
  assert (0 < m <= MAX_SERVICE_COST_TOKENS)%N by lia.
  destruct (ceil_div_spec m q) as [H1 H2]; [lia|].
  set (v := ((m + (q - 1)) / q)%N) in *. assert (v <> 0)%N by (intros E; rewrite E in H1; lia).
  split_and!; lia.
Qed.

Lemma visits_for_class_run acc c :
  visits_for_class eligible acc c p =
  (p, Ok (if class_has_eligible p c eligible
          then Some (match acc with Some v => N.min v (visits_of c) | None => visits_of c end)
          else acc)).
Proof using Hinv Hshort.
  unfold visits_for_class. rewrite run_gets.
  destruct (class_has_eligible p c eligible) eqn:Hhas; [|done]. cbn [negb].
  destruct (Hshort c Hhas) as (i & s & Hp & Hs & Hlt).
  assert (slot_ok s) as Hok by (eapply Forall_lookup_1; [apply Hinv|done]).
  pose proof (slot_ok_cost s Hok) as Hcost. pose proof (policy_inv_quantum p Hinv c) as Hq.
  rewrite max_quantum_value in Hq. unfold MAX_SERVICE_COST_TOKENS in Hcost.
  rewrite run_bind, (prepare_id c i Hhas Hp), run_read, Hs. simpl unwrap. cbv iota.
  rewrite run_read, checked_sub_ok by lia. simpl.
  rewrite (proj2 (N.ltb_lt _ _)) by lia. simpl. rewrite run_gets, run_bind, run_lift.
  unfold panicking_sub. rewrite checked_sub_ok by lia. simpl. rewrite run_bind, run_lift.
  rewrite checked_add_ok by (unfold u64_max; lia). simpl.
  unfold visits_of, missing_credit. by rewrite Hp, Hs.
Qed.

Lemma visits_loop cs acc :
  exists r, for_each (visits_for_class eligible) acc cs p = (p, Ok r) /\
    (forall c, c ∈ cs -> class_has_eligible p c eligible = true ->
      exists v, r = Some v /\ (v <= visits_of c)%N) /\
    (forall v, r = Some v -> acc = Some v \/
      exists c, c ∈ cs /\ class_has_eligible p c eligible = true /\ v = visits_of c) /\
    (forall m, acc = Some m -> exists v, r = Some v /\ (v <= m)%N).
Proof using Hinv Hshort.
  revert acc; induction cs as [|c cs IH]; intros acc; simpl.
  { exists acc. split; [done|]. split_and!; [by intros ? ?%not_elem_of_nil|by left|].
    intros m ->. by exists m. }
  rewrite run_bind, visits_for_class_run.
  destruct (class_has_eligible p c eligible) eqn:Hhas.
  - destruct (IH (Some (match acc with Some v => N.min v (visits_of c) | None => visits_of c end)))
      as (r & -> & H1 & H2 & H3). exists r. split; [done|]. destruct (H3 _ eq_refl) as (v & -> & Hv).
    split_and!.
    + intros c' [->|Hin]%elem_of_cons Hh; [|by apply H1]. exists v. split; [done|]. destruct acc; lia.
    + intros v' [= <-]. destruct (H2 v eq_refl) as [Heq|(c' & ? & ? & ?)].
      * destruct acc as [m|]; simplify_eq; [|right; exists c; split_and!; [left|done..]].
        destruct (N.min_spec m (visits_of c)) as [[_ ->]|[_ ->]]; [by left|].
        right. exists c. split_and!; [left|done..].
      * right. exists c'. split_and!; [by right|done..].
    + intros m ->. exists v. split; [done|lia].
  - destruct (IH acc) as (r & -> & H1 & H2 & H3). exists r. split; [done|]. split_and!; [| |done].
    + intros c' [->|Hin]%elem_of_cons Hh; [congruence|by apply H1].
    + intros v Hv. destruct (H2 v Hv) as [?|(c' & ? & ? & ?)]; [by left|].
      right. exists c'. split_and!; [by right|done..].
Qed.

(** The credit of [rounds] visits for every eligible class of [cs]. *)
Fixpoint forwarded (rounds : N) (cs : list DispatchClass) (d : per_class N) : per_class N :=
  match cs with
  | [] => d
  | c :: cs =>
      forwarded rounds cs
        (if class_has_eligible p c eligible
         then class_put c (N.min (class_get d c + rounds * quantum (class_get (classes p) c)) MAX_DEFICIT) d
         else d)
  end.

Lemma forwarded_get rounds cs d c :
  NoDup cs ->
  class_get (forwarded rounds cs d) c =
  if bool_decide (c ∈ cs) && class_has_eligible p c eligible
  then N.min (class_get d c + rounds * quantum (class_get (classes p) c)) MAX_DEFICIT
  else class_get d c.
Proof using.
  intros Hnd. revert d; induction Hnd as [|c' cs Hnin Hnd IH]; intros d; [done|]. simpl. rewrite IH.
  destruct (decide (c = c')) as [->|Hne].
  - rewrite bool_decide_eq_false_2 by done.
    rewrite bool_decide_eq_true_2 by left. simpl.
    destruct (class_has_eligible p c' eligible); [|done]. by rewrite class_get_put, decide_True.
  - replace (bool_decide (c ∈ c' :: cs)) with (bool_decide (c ∈ cs))
      by (apply bool_decide_ext; rewrite elem_of_cons; tauto).
    destruct (class_has_eligible p c' eligible); [|done]. by rewrite class_get_put, decide_False.
Qed.

Lemma credit_loop rounds cs d :
  (rounds <= MAX_SERVICE_COST_TOKENS)%N -> (forall c, class_get d c <= MAX_DEFICIT)%N ->
  for_each (credit_empty_rounds eligible rounds) tt cs (set_class_deficit d p) =
  (set_class_deficit (forwarded rounds cs d) p, Ok tt).
Proof using Hinv.
  intros Hr. revert d; induction cs as [|c cs IH]; intros d Hd; simpl; [done|].
  rewrite run_bind. unfold credit_empty_rounds at 1. rewrite run_gets.
  replace (class_has_eligible (set_class_deficit d p) c eligible) with (class_has_eligible p c eligible)
    by (by destruct p).
  destruct (class_has_eligible p c eligible) eqn:Hhas; cbn [negb].
  2:{ rewrite run_ret. by apply IH. }
  pose proof (policy_inv_quantum p Hinv c) as Hq. rewrite max_quantum_value in Hq.
  pose proof (Hd c) as Hdc. rewrite max_deficit_value in Hdc. unfold MAX_SERVICE_COST_TOKENS in Hr.
  assert (rounds * quantum (class_get (classes p) c) <= 1000000 * 256000000)%N as Hmul
    by (apply N.mul_le_mono; lia).
  rewrite run_read. replace (classes (set_class_deficit d p)) with (classes p) by by destruct p.
  unfold checked_mul. rewrite (proj2 (N.leb_le _ _)) by (unfold u64_max; lia). simpl.
  rewrite run_read. replace (class_deficit (set_class_deficit d p)) with d by by destruct p.
  rewrite checked_add_ok by (unfold u64_max; lia). simpl.
  match goal with |- context[for_each _ _ _ ?q] =>
    replace q with (set_class_deficit (class_put c (N.min (class_get d c +
      rounds * quantum (class_get (classes p) c)) MAX_DEFICIT) d) p) by by destruct p end.
  apply IH. intros c'. rewrite class_get_put. case_decide; [lia|apply Hd].
Qed.

Lemma forwarded_zero cs d : (forall c, class_get d c <= MAX_DEFICIT)%N -> forwarded 0 cs d = d.
Proof using.
  revert d; induction cs as [|c cs IH]; intros d Hd; [done|]. simpl. rewrite N.add_0_r.
  rewrite N.min_l by apply Hd.
  destruct (class_has_eligible p c eligible); rewrite IH; try done; [by destruct d, c|].
  intros c'. rewrite class_get_put. case_decide; apply Hd.
Qed.
Local Arguments forwarded : simpl never.

Lemma fast_forward_spec c0 :
  class_visit_open p = false -> class_has_eligible p c0 eligible = true ->
  exists c rounds,
    class_has_eligible p c eligible = true /\ visits_of c = (rounds + 1)%N /\
    fast_forward_empty_class_rounds eligible p =
      (set_class_deficit (forwarded rounds ALL (class_deficit p)) p, Ok tt).
Proof using Hinv Hshort.
  intros Hclosed Hhas0. unfold fast_forward_empty_class_rounds. rewrite run_gets, Hclosed.
  destruct (visits_loop ALL None) as (r & Hrun & H1 & H2 & _). rewrite run_bind, Hrun.
  destruct (H1 c0) as (v & -> & _); [destruct c0; set_solver|done|].
  destruct (H2 v eq_refl) as [?|(c & _ & Hhas & ->)]; [done|].
  destruct (visits_bounds c Hhas) as (_ & Hv1 & _ & Hvm).
  exists c, (visits_of c - 1)%N. split; [done|]. split; [lia|].
  rewrite run_bind, run_lift.
  replace (ok_or _ _) with (Ok (E := DispatcherError) (visits_of c - 1)%N)
    by (simpl; by rewrite checked_sub_ok).
  assert (set_class_deficit (class_deficit p) p = p) as Hid by by destruct p.
  destruct (N.eqb_spec (visits_of c - 1) 0) as [E0|E0].
  - rewrite run_ret, E0, forwarded_zero by apply Hinv. by rewrite Hid.
  - rewrite <-Hid at 1. apply credit_loop; [lia|apply Hinv].
Qed.
End fast_forward.

(** ** Hierarchical selection always serves an eligible slot *)

Lemma elem_of_ALL c : c ∈ ALL.
Proof. destruct c; set_solver. Qed.

Lemma set_class_deficit_facts d p :
  policy_inv p -> (forall c, class_get d c <= MAX_DEFICIT)%N ->
  policy_inv (set_class_deficit d p) /\ same_service p (set_class_deficit d p) /\
  slots (set_class_deficit d p) = slots p /\ class_cursor (set_class_deficit d p) = class_cursor p /\
  class_visit_open (set_class_deficit d p) = class_visit_open p /\
  class_deficit (set_class_deficit d p) = d.
Proof.
  intros [Hne Hok Hq Hdef Hc Hdir] Hd. split_and!; try (by destruct p).
  destruct p; constructor; simpl; try done. unfold slots_evolve. reflexivity.
Qed.

Lemma pick_same_slots eligible p p' c :
  same_service p p' -> slots p' = slots p -> pick eligible p' c = pick eligible p c.
Proof.
  intros Hs Hsl. unfold pick, class_scan. rewrite (same_slot_cursor _ _ Hs), Hsl.
  apply first_of_ext. intros i _. rewrite (candidate_same _ _ _ _ _ Hs). unfold affordable.
  by rewrite Hsl.
Qed.

(** After the fast forward a pass cannot stay idle: the class that was
    closest now has the credit it was missing. *)
Lemma forwarded_pass_serves eligible p c rounds p' cs :
  policy_inv p -> all_short eligible p -> class_visit_open p = false ->
  class_has_eligible p c eligible = true -> visits_of eligible p c = (rounds + 1)%N -> c ∈ cs ->
  idle_pass eligible cs (set_class_deficit (forwarded eligible p rounds ALL (class_deficit p)) p) p' ->
  False.
Proof.
  intros Hi Hshort Hclosed Hhas Hvis Hin Hidle.
  assert (forall c, class_get (forwarded eligible p rounds ALL (class_deficit p)) c <= MAX_DEFICIT)%N
    as Hmax.
  { intros c'. rewrite forwarded_get by (apply (bool_decide_unpack _); reflexivity).
    destruct (_ && _); [lia|apply Hi]. }
  destruct (set_class_deficit_facts _ p Hi Hmax) as (Hi2 & Hs2 & Hsl2 & _ & Hv2 & Hd2).
  set (p2 := set_class_deficit _ p) in *.
  destruct (idle_short _ _ _ _ Hidle c Hin) as (i & s & Hp & Hs & Hlt & Hd & Hst).
  { by rewrite (class_has_eligible_evolves _ _ _ _ (same_slots _ _ Hs2)). }
  rewrite Hv2 in Hd. specialize (Hd Hclosed). rewrite Hd2, (same_classes _ _ Hs2) in Hd.
  rewrite forwarded_get in Hd by (apply (bool_decide_unpack _); reflexivity).
  rewrite bool_decide_eq_true_2, Hhas in Hd by apply elem_of_ALL. cbn [andb] in Hd.
  destruct (Hshort c Hhas) as (j & sj & Hpj & Hsj & Hltj).
  rewrite (pick_same_slots _ _ _ _ Hs2 Hsl2) in Hst. specialize (Hst j Hpj) as ->.
  destruct (visits_bounds eligible p Hi Hshort c Hhas) as (_ & _ & Hcover & _).
  unfold missing_credit in Hcover. rewrite Hpj, Hsj, Hvis in Hcover.
  assert (slot_cost s = slot_cost sj) as Hcost.
  { rewrite <-Hsl2 in Hsj.
    destruct (slots_evolve_lookup _ _ _ _ (same_slots _ _ (idle_same _ _ _ _ Hidle)) Hsj)
      as (s' & Hs' & Hev). simplify_eq. by apply slot_evolves_fields in Hev as (_ & _ & -> & _). }
  assert (slot_ok sj) as Hok by (eapply Forall_lookup_1; [apply Hi|done]).
  pose proof (slot_ok_cost sj Hok). unfold MAX_SERVICE_COST_TOKENS in *.
  rewrite max_deficit_value in *. lia.
Qed.

(** The slots are the same up to deficits, and so is the configuration. *)
Record policy_evolves (p p' : DispatchPolicy) : Prop := {
  evolves_inv : policy_inv p';
  evolves_slots : slots_evolve p p';
  evolves_classes : classes p' = classes p;
  evolves_direct : direct_scan p' = direct_scan p /\ direct_cursor p' = direct_cursor p;
}.
Lemma served_evolves p pm p' c i :
  same_service p pm -> served c i pm p' -> policy_evolves p p'.
Proof.
  intros [] []. constructor; [done|by etrans|congruence|].
  split; destruct_and!; congruence.
Qed.

Lemma select_hierarchical_spec eligible p c :
  policy_inv p -> class_has_eligible p c eligible = true ->
  exists p' i, select_hierarchical eligible p = (p', Ok i) /\ eligible_at eligible i = true /\
    policy_evolves p p' /\ i < length (slots p).
Proof.
  intros Hi Hhas. unfold select_hierarchical, select_hierarchical_pass.
  destruct (policy_inv_cursor p Hi) as [c0 Hc0].
  destruct (pass_loop_spec eligible CLASS_COUNT p c0 None Hi Hc0 (turns_NoDup c0)) as
    (p1 & res & Hrun & Hres); [done|]. rewrite run_bind, Hrun.
  destruct res as [i|].
  { destruct Hres as [He (cf & pm & Hsm & Hsv)]. exists p1, i. split; [done|]. split; [done|].
    split; [by eapply served_evolves|].
    rewrite <-(slots_evolve_length _ _ (same_slots _ _ Hsm)). apply Hsv. }
  destruct Hres as [_ Hidle].
  assert (forall c, c ∈ turns c0 CLASS_COUNT) as Hall.
  { intros c'. rewrite (turns_all c0). apply elem_of_ALL. }
  destruct Hidle as [Hi1 Hs1 _ Hshort1 Hv1]. specialize (Hv1 ltac:(done)).
  assert (all_short eligible p1) as Hshort.
  { intros c' Hh. destruct (Hshort1 c' (Hall c')) as (i & s & ? & ? & ? & _); [|by exists i, s].
    by rewrite <-(class_has_eligible_evolves _ _ _ _ (same_slots _ _ Hs1)). }
  assert (class_has_eligible p1 c eligible = true) as Hhas1.
  { by rewrite (class_has_eligible_evolves _ _ _ _ (same_slots _ _ Hs1)). }
  destruct (fast_forward_spec eligible p1 Hi1 Hshort c Hv1 Hhas1) as (cm & rounds & Hcm & Hvis & Hff).
  rewrite run_bind, Hff.
  assert (forall c, class_get (forwarded eligible p1 rounds ALL (class_deficit p1)) c <= MAX_DEFICIT)%N
    as Hmax.
  { intros c'. rewrite forwarded_get by (apply (bool_decide_unpack _); reflexivity).
    destruct (_ && _); [lia|apply Hi1]. }
  destruct (set_class_deficit_facts _ p1 Hi1 Hmax) as (Hi2 & Hs2 & _).
  destruct (policy_inv_cursor _ Hi2) as [c2 Hc2].
  destruct (pass_loop_spec eligible CLASS_COUNT _ c2 None Hi2 Hc2 (turns_NoDup c2)) as
    (p3 & res & Hrun3 & Hres3); [done|]. rewrite run_bind, Hrun3.
  destruct res as [i|].
  - destruct Hres3 as [He (cf & pm & Hsm & Hsv)]. exists p3, i. split; [done|]. split; [done|].
    assert (same_service p pm) as Hsp by (etrans; [done|]; by etrans).
    split; [by eapply served_evolves|].
    rewrite <-(slots_evolve_length _ _ (same_slots _ _ Hsp)). apply Hsv.
  - exfalso. destruct Hres3 as [_ Hidle3].
    refine (forwarded_pass_serves _ _ _ _ _ _ Hi1 Hshort Hv1 Hcm Hvis _ Hidle3).
    rewrite (turns_all c2). apply elem_of_ALL.
Qed.
