(* ===== verification/Dispatch.v ===== *)
(** * Dispatch: selection with a permit

    The runs of a dispatcher (policy and permit ledger together), and what
    they guarantee: the dispatcher never fails internally, grants only ready
    mailboxes for which it holds a permit, never idles while work can run,
    and the direct scan starves nobody. *)

From S2P Require Import Prelude Bytes KernelTime KernelDigest Assignment MailboxModel DispatchPermits DispatchModel DispatchInv.

(** ** Construction *)

Definition spec_ok (spec : DispatchSlotSpec) : Prop :=
  (0 < spec_cost spec <= MAX_SERVICE_COST_TOKENS)%N /\
  (0 < spec_weight spec <= MAX_MINIMUM_SERVICE_WEIGHT)%N.
Definition classes_ok (classes : per_class DispatchClassPolicy) : Prop :=
  forall c, (0 < quantum (class_get classes c) <= MAX_CLASS_QUANTUM)%N.

Lemma slot_spec_try_new_ok mailbox class cost weight burst spec :
  slot_spec_try_new mailbox class cost weight burst = Ok spec -> spec_ok spec.
Proof. unfold slot_spec_try_new. intros H. rust_inv. simplify_eq. unfold spec_ok. simpl. lia. Qed.

Definition slot_of (index : nat) (spec : DispatchSlotSpec) : DispatchSlot :=
  MkDispatchSlot (spec_mailbox spec) (spec_class spec) (spec_cost spec) (spec_weight spec) 0
    (spec_max_burst spec) (N.of_nat index).

Lemma policy_try_new_slots classes specs p :
  policy_try_new classes specs = Ok p ->
  specs <> [] /\ (len specs <= MAX_DISPATCH_SLOTS)%N /\
  p = MkDispatchPolicy (map (fun '(i, spec) => slot_of i spec) (enumerate specs)) classes
        (PerClass 0%N 0%N 0%N 0%N) 0 false (PerClass 0 0 0 0) None 0 None 0 (alike specs) 0.
Proof.
  intros H. unfold policy_try_new in H. rust_inv.
  match goal with H : try_fold _ _ _ = Ok ?l |- _ => rename H into Hfold; rename l into built end.
  erewrite try_fold_ext, (try_fold_push (fun '(i, spec) =>
    i' ← ok_or (try_from u16_max (N.of_nat i)) TooManySlots;
    Ok (MkDispatchSlot (spec_mailbox spec) (spec_class spec) (spec_cost spec) (spec_weight spec) 0
      (spec_max_burst spec) i')) (fun '(i, spec) => slot_of i spec)) in Hfold.
  - simplify_eq. done.
  - intros [i spec] [_ Hi]%elem_of_enumerate_from. rewrite Nat.sub_0_r in Hi.
    apply lookup_lt_Some in Hi. rewrite try_from_ok; [done|].
    unfold len, MAX_DISPATCH_SLOTS, u16_max in *. lia.
  - intros b [i spec]. by destruct (ok_or _ _).
Qed.
Lemma policy_try_new_inv classes specs p :
  classes_ok classes -> Forall spec_ok specs -> policy_try_new classes specs = Ok p -> policy_inv p.
Proof.
  intros Hc Hs (Hne & _ & ->)%policy_try_new_slots.
  constructor; simpl; try done.
  - by destruct specs.
  - apply Forall_forall. intros s ([i spec] & -> & [_ Hi]%elem_of_enumerate_from)%elem_of_map.
    rewrite Nat.sub_0_r in Hi. eapply Forall_lookup_1 in Hs as [? ?]; [|done]. by constructor.
  - by intros [].
  - by exists Control.
  - rewrite length_map. unfold enumerate. rewrite length_enumerate_from. destruct specs; [done|simpl; lia].
Qed.

(** ** Readiness *)

Lemma position_Some p mailbox i :
  position p mailbox = Some i -> exists s, slots p !! i = Some s /\ slot_mailbox s = mailbox.
Proof.
  unfold position. intros H. apply fmap_Some in H as ([j s] & Hf & ->).
  apply list_find_Some in Hf as (? & ? & _). by exists s.
Qed.

Definition readiness_error (e : DispatcherError) : Prop :=
  e = TooManyReadinessHints \/ e = UnknownMailbox \/ e = DuplicateReadinessHint \/
  e = ReadinessMailboxMismatch.

Lemma readiness_loop_spec p l ready seen :
  length ready = length (slots p) -> length seen = length (slots p) ->
  (exists e, readiness_loop p ready seen l = Err e /\ readiness_error e) \/
  (exists ready', readiness_loop p ready seen l = Ok ready' /\ length ready' = length (slots p) /\
    (forall i, seen !! i = Some true -> ready' !! i = ready !! i) /\
    (forall i, ready' !! i = Some true -> ready !! i = Some true \/
      exists input, input ∈ l /\ position p (readiness_mailbox input) = Some i /\
        is_dispatchable (readiness_head input) = true) /\
    (forall input, input ∈ l -> exists i, position p (readiness_mailbox input) = Some i /\
      ready' !! i = Some (is_dispatchable (readiness_head input)))).
Proof.
  unfold readiness_error. revert ready seen; induction l as [|input l IH]; intros ready seen Hr Hs; simpl.
  { right. exists ready. split_and!; try done; [by left|by intros ? ?%not_elem_of_nil]. }
  destruct (position p (readiness_mailbox input)) as [index|] eqn:Hpos; simpl; [|left; eauto 10].
  destruct (position_Some _ _ _ Hpos) as (s & Hslot & _). apply lookup_lt_Some in Hslot as Hlt.
  destruct (lookup_lt_is_Some_2 seen index) as [already Hseen]; [lia|]. rewrite Hseen. simpl.
  destruct already; simpl; [left; eauto 10|].
  destruct (match readiness_hint (readiness_head input) with Some _ => _ | None => _ end); simpl;
    [left; eauto 10|].
  destruct (IH (<[index := is_dispatchable (readiness_head input)]> ready) (<[index := true]> seen))
    as [(e & -> & He)|(ready' & -> & Hlen & Hkeep & Hsrc & Hall)]; [by rewrite length_insert..|left; eauto|].
  right. exists ready'. split_and!; [done|done|..].
  - intros i Hi. rewrite Hkeep.
    + apply list_lookup_insert_ne. intros ->. congruence.
    + rewrite list_lookup_insert_ne; [done|]. intros ->. congruence.
  - intros i Hi. destruct (Hsrc i Hi) as [Hold|(inp & ? & ? & ?)].
    + destruct (decide (index = i)) as [->|Hne].
      * rewrite list_lookup_insert_eq in Hold by lia. right. exists input.
        split_and!; [left|done|congruence].
      * rewrite list_lookup_insert_ne in Hold by done. by left.
    + right. exists inp. split_and!; [by right|done..].
  - intros inp [->|Hin]%elem_of_cons; [|by apply Hall]. exists index. split; [done|].
    rewrite Hkeep; apply list_lookup_insert_eq; lia.
Qed.

Lemma validate_readiness_spec p readiness :
  (exists e, validate_readiness p readiness = Err e /\ readiness_error e) \/
  (exists ready, validate_readiness p readiness = Ok ready /\ length ready = length (slots p) /\
    (forall input, input ∈ readiness -> is_Some (position p (readiness_mailbox input))) /\
    (forall i, ready !! i = Some true <->
      exists input, input ∈ readiness /\ position p (readiness_mailbox input) = Some i /\
        is_dispatchable (readiness_head input) = true)).
Proof.
  unfold validate_readiness. destruct (_ <? _)%N; simpl; [left; unfold readiness_error; eauto|].
  destruct (readiness_loop_spec p readiness (replicate (length (slots p)) false)
    (replicate (length (slots p)) false)) as [(e & -> & He)|(ready & -> & Hlen & _ & Hsrc & Hall)];
    [by rewrite length_replicate..|left; eauto|].
  right. exists ready. split_and!; [done..| |].
  { intros input (i & Hi & _)%Hall. by exists i. }
  intros i. split.
  - intros Hi. destruct (Hsrc i Hi) as [Hr|?]; [|done].
    by apply lookup_replicate in Hr as [? _].
  - intros (input & Hin & Hpos & Hd). destruct (Hall input Hin) as (j & Hj & Hr). congruence.
Qed.

Lemma existsb_id_spec (l : list bool) : existsb id l = true <-> exists i, l !! i = Some true.
Proof.
  rewrite existsb_exists. split.
  - intros (b & Hin%list_elem_of_In & Hb). unfold id in Hb. subst.
    by apply list_elem_of_lookup in Hin.
  - intros (i & Hi). exists true. split; [|done].
    by apply list_elem_of_In, list_elem_of_lookup; exists i.
Qed.

Definition may_run (p : DispatchPolicy) (l : DomainPermitLedger) (i : nat) : bool :=
  match slots p !! i with Some s => bool_decide (is_Some (chosen_pool l (slot_class s))) | None => false end.
Lemma eligible_slots_Ok p l ready :
  ledger_inv l -> length ready = length (slots p) ->
  eligible_slots p l ready = Ok (imap (fun i v => v && may_run p l i) ready).
Proof.
  intros Hl Hlen. unfold eligible_slots.
  rewrite (try_fold_ext _ (fun eligible x =>
    flag ← (fun '(i, v) => if (v : bool) then slot ← unwrap (slots p !! i);
                             can_acquire (E := DispatcherError) l (slot_class slot) else Ok false) x;
    Ok (eligible ++ [flag]))) by (by intros b [i v]).
  rewrite (try_fold_push _ (fun '(i, v) => v && may_run p l i)).
  - simpl. f_equal. apply list_eq. intros i. rewrite list_lookup_imap, list_lookup_fmap.
    unfold enumerate. clear. assert (forall k, enumerate_from k ready !! i = (fun v => (k + i, v)) <$> ready !! i) as H.
    { revert i; induction ready as [|b ready IH]; intros i k; [done|]. destruct i; simpl.
      - by rewrite Nat.add_0_r.
      - rewrite IH. destruct (ready !! i); simpl; [|done]. do 2 f_equal. lia. }
    rewrite H. by destruct (ready !! i).
  - intros [i v] [_ Hi]%elem_of_enumerate_from. rewrite Nat.sub_0_r in Hi. destruct v; [|done].
    apply lookup_lt_Some in Hi. rewrite Hlen in Hi. apply lookup_lt_is_Some_2 in Hi as [s Hs].
    unfold may_run. rewrite Hs. simpl. by apply can_acquire_spec.
Qed.

(** ** The direct scan *)

Lemma first_of_scan P start n j :
  first_of P (scan start n) = Some j ->
  exists o, o < n /\ j = (start + o) mod n /\ forall o', o' < o -> P ((start + o') mod n) = false.
Proof.
  unfold scan. assert (forall k, first_of P (map (fun o => (start + o) mod n) (seq k (n - k))) = Some j ->
    exists o, k <= o < n /\ j = (start + o) mod n /\ forall o', k <= o' < o -> P ((start + o') mod n) = false)
    as H.
  { intros k. remember (n - k) as m eqn:Hm. revert k Hm; induction m as [|m IH]; intros k Hm; simpl; [done|].
    destruct (P ((start + k) mod n)) eqn:E.
    - intros [= <-]. exists k. split_and!; [lia..|done|]. lia.
    - intros (o & ? & ? & Ho)%IH; [|lia]. exists o. split_and!; [lia..|done|].
      intros o' Ho'. destruct (decide (o' = k)) as [->|]; [done|]. apply Ho. lia. }
  intros H0. specialize (H 0). rewrite Nat.sub_0_r in H. destruct (H H0) as (o & ? & ? & Ho).
  exists o. split_and!; [lia|done|]. intros o' ?. apply Ho. lia.
Qed.

(** How many slots the cursor passes before it reaches [i]. *)
Definition distance (p : DispatchPolicy) (i : nat) : nat :=
  (i + (length (slots p) - direct_cursor p)) mod length (slots p).

Lemma set_direct_cursor_inv p k :
  policy_inv p -> k < length (slots p) -> policy_inv (set_direct_cursor k p).
Proof. intros [] Hk. destruct p; simpl in *. by constructor. Qed.

Lemma mod_wrap a n : 0 < n -> a < 2 * n -> a mod n = if (a <? n)%nat then a else a - n.
Proof.
  intros Hn Ha. destruct (Nat.ltb_spec a n); [by apply Nat.mod_small|].
  replace a with ((a - n) + 1 * n) at 1 by lia. rewrite Nat.Div0.mod_add. apply Nat.mod_small. lia.
Qed.

Lemma select_direct_spec eligible p i :
  policy_inv p -> i < length (slots p) -> eligible_at eligible i = true ->
  exists j, j < length (slots p) /\ eligible_at eligible j = true /\
    select_direct eligible p =
      (set_direct_cursor ((j + 1) mod length (slots p)) p, Ok j) /\
    (j = i \/ distance (set_direct_cursor ((j + 1) mod length (slots p)) p) i < distance p i).
Proof.
  intros Hi Hlt He. unfold select_direct. rewrite run_gets.
  pose proof (policy_inv_direct p Hi) as Hdir.
  assert (is_Some (first_of (eligible_at eligible) (scan (direct_cursor p) (length (slots p))))) as [j Hj].
  { apply (first_of_is_Some _ _ i); [|done]. apply elem_of_scan; lia. }
  rewrite Hj, run_modify, run_ret. destruct (first_of_Some _ _ _ Hj) as [Hje Hjn].
  apply first_of_scan in Hj as (o & Ho & Hjo & Hbefore).
  exists j. apply elem_of_scan in Hjn as Hjlt; [|lia]. split_and!; [done..|].
  unfold distance. replace (length (slots (set_direct_cursor _ p))) with (length (slots p)) by by destruct p.
  replace (direct_cursor (set_direct_cursor ((j + 1) mod length (slots p)) p))
    with ((j + 1) mod length (slots p)) by by destruct p.
  revert Hlt Hdir Ho Hjo Hbefore Hjlt.
  generalize (direct_cursor p) (length (slots p)). intros cur n Hlt Hdir Ho Hjo Hbefore Hjlt.
  assert (o <= (i + (n - cur)) mod n) as Hle.
  { destruct (decide (o <= (i + (n - cur)) mod n)); [done|]. exfalso.
    specialize (Hbefore ((i + (n - cur)) mod n) ltac:(lia)). rewrite Nat.Div0.add_mod_idemp_r in Hbefore.
    replace (cur + (i + (n - cur))) with (i + 1 * n) in Hbefore by lia.
    rewrite Nat.Div0.mod_add, Nat.mod_small in Hbefore by lia. congruence. }
  rewrite (mod_wrap (cur + o)) in Hjo by lia. rewrite (mod_wrap (j + 1)) by lia.
  rewrite (mod_wrap (i + (n - cur))) in * by lia. rewrite mod_wrap by (case_match; lia).
  repeat case_match; rust_inv; repeat match goal with
    | H : (_ <? _)%nat = true |- _ => apply Nat.ltb_lt in H
    | H : (_ <? _)%nat = false |- _ => apply Nat.ltb_ge in H end; lia.
Qed.

(** ** Runs of a dispatcher *)

Inductive dispatcher_step (pl : DispatchPolicy * DomainPermitLedger)
    : DispatchPolicy * DomainPermitLedger -> Prop :=
| dispatcher_select readiness pl' res :
    try_select_and_acquire readiness pl = (pl', res) -> dispatcher_step pl pl'
| dispatcher_release token l' token' res :
    release (snd pl, token) = ((l', token'), res) -> dispatcher_step pl (fst pl, l').

Definition dispatcher_new (p : DispatchPolicy) (l : DomainPermitLedger) : Prop :=
  (exists classes specs, classes_ok classes /\ Forall spec_ok specs /\
    policy_try_new classes specs = Ok p) /\
  (exists id total reserved, (total <= u32_max)%N /\ ledger_try_new id total reserved = Ok l).
Definition dispatcher_reachable (pl : DispatchPolicy * DomainPermitLedger) : Prop :=
  exists p l, dispatcher_new p l /\ rtc dispatcher_step (p, l) pl.

(** What a selection does, on every branch. *)
Inductive selected (readiness : list DispatchReadiness) (p : DispatchPolicy) (l : DomainPermitLedger)
    : (DispatchPolicy * DomainPermitLedger) * result DispatcherError DispatchDecision -> Prop :=
| selected_refused e :
    validate_readiness p readiness = Err e -> readiness_error e ->
    selected readiness p l ((p, l), Err e)
| selected_no_ready :
    (forall input, input ∈ readiness -> is_dispatchable (readiness_head input) = false) ->
    selected readiness p l ((p, l), Ok (Idle NoReadyMailbox))
| selected_no_permit :
    (forall input i s, input ∈ readiness -> is_dispatchable (readiness_head input) = true ->
      position p (readiness_mailbox input) = Some i -> slots p !! i = Some s ->
      chosen_pool l (slot_class s) = None) ->
    selected readiness p l ((p, l), Ok (Idle NoDomainPermit))
| selected_slot p' i s input pool path :
    policy_inv p' -> slots_evolve p p' -> slots p !! i = Some s ->
    input ∈ readiness -> is_dispatchable (readiness_head input) = true ->
    position p (readiness_mailbox input) = Some i ->
    chosen_pool l (slot_class s) = Some pool ->
    (ledger_next_permit_id l + 1 <= u64_max)%N ->
    selected readiness p l ((p', ledger_after l pool),
      Ok (Selected (MkDispatchGrant
        (MkDispatchSelection (slot_mailbox s) (slot_class s) (slot_cost s) path)
        (MkDomainPermitToken (ledger_id l) (ledger_next_permit_id l + 1) pool true))))
| selected_exhausted p' :
    policy_inv p' -> slots_evolve p p' -> (u64_max < ledger_next_permit_id l + 1)%N ->
    selected readiness p l ((p', l), Err (Permit PermitCounterOverflow)).

Lemma select_spec (direct : bool) eligible p i :
  policy_inv p -> i < length (slots p) -> eligible !! i = Some true ->
  exists p' j, (if direct then select_direct eligible else select_hierarchical eligible) p = (p', Ok j) /\
    eligible !! j = Some true /\ policy_inv p' /\ slots_evolve p p'.
Proof.
  intros Hi Hlt He.
  assert (forall k, eligible_at eligible k = true <-> eligible !! k = Some true) as Hat.
  { intros k. unfold eligible_at. by destruct (eligible !! k) as [[]|]. }
  destruct direct.
  - destruct (select_direct_spec eligible p i) as (j & Hj & Hje & -> & _); [done..|by apply Hat|].
    eexists _, j. split; [done|]. split; [by apply Hat|]. split.
    + apply set_direct_cursor_inv; [done|]. apply Nat.mod_upper_bound. lia.
    + destruct p. unfold slots_evolve. simpl. reflexivity.
  - apply lookup_lt_is_Some_2 in Hlt as [s Hs].
    destruct (select_hierarchical_spec eligible p (slot_class s)) as (p' & j & -> & Hje & Hev & _); [done|..].
    { apply class_has_eligible_spec. exists i, s. split_and!; [done|by apply Hat|done]. }
    exists p', j. split; [done|]. split; [by apply Hat|]. split; apply Hev.
Qed.

Lemma try_select_and_acquire_spec readiness p l :
  policy_inv p -> ledger_inv l -> selected readiness p l (try_select_and_acquire readiness (p, l)).
Proof.
  intros Hp Hl. unfold try_select_and_acquire. rewrite run_read.
  destruct (validate_readiness_spec p readiness) as [(e & Hv & He)|(ready & -> & Hlen & Hknown & Hready)];
    [rewrite Hv; by apply selected_refused|].
  destruct (existsb id ready) eqn:Hany; cbn [negb].
  2:{ apply selected_no_ready. intros input Hin. destruct (is_dispatchable _) eqn:Hd; [|done].
      exfalso. assert (existsb id ready = true) as Ht; [|congruence]. apply existsb_id_spec.
      destruct (Hknown input Hin) as [i Hi]. exists i. apply Hready. eauto. }
  rewrite run_read, eligible_slots_Ok by done.
  set (eligible := imap _ ready).
  assert (forall i, eligible !! i = Some true -> exists s pool input,
    slots p !! i = Some s /\ chosen_pool l (slot_class s) = Some pool /\ input ∈ readiness /\
    is_dispatchable (readiness_head input) = true /\ position p (readiness_mailbox input) = Some i) as Hel.
  { intros i. unfold eligible. rewrite list_lookup_imap. destruct (ready !! i) as [[]|] eqn:Hr; [|done..].
    simpl. unfold may_run. destruct (slots p !! i) as [s|]; [|done]. intros [= H].
    apply bool_decide_eq_true in H as [pool Hpool]. apply Hready in Hr as (input & ? & ? & ?).
    by exists s, pool, input. }
  destruct (existsb id eligible) eqn:Hane; cbn [negb].
  2:{ apply selected_no_permit. intros input i s Hin Hd Hpos Hs.
      destruct (chosen_pool l (slot_class s)) eqn:Hc; [|done]. exfalso.
      assert (existsb id eligible = true) as Ht; [|congruence]. apply existsb_id_spec. exists i.
      unfold eligible. rewrite list_lookup_imap, (proj2 (Hready i)) by eauto. simpl.
      unfold may_run. rewrite Hs, Hc. done. }
  rewrite run_gets. apply existsb_id_spec in Hane as [i Hi].
  destruct (Hel i Hi) as (s0 & _ & _ & Hs0 & _). apply lookup_lt_Some in Hs0.
  destruct (select_spec (direct_scan p) eligible p i Hp Hs0 Hi) as (p' & j & Hsel & Hj & Hp' & Hev).
  rewrite run_bind. unfold on_fst. rewrite Hsel.
  destruct (Hel j Hj) as (s & pool & input & Hs & Hpool & Hin & Hd & Hpos).
  destruct (slots_evolve_lookup _ _ _ _ Hev Hs) as (s' & Hs' & (Hm & Hc & Hcost & _)%slot_evolves_fields).
  rewrite run_read, Hs'. simpl unwrap. cbv iota. rewrite run_bind. unfold on_snd, with_err.
  rewrite Hc, try_acquire_cases, Hpool by done.
  destruct (N.leb_spec (ledger_next_permit_id l + 1) u64_max).
  - rewrite Hm, Hcost. simpl. by eapply selected_slot.
  - simpl. by apply selected_exhausted.
Qed.

Lemma dispatcher_step_inv pl pl' :
  policy_inv (fst pl) /\ ledger_inv (snd pl) -> dispatcher_step pl pl' ->
  policy_inv (fst pl') /\ ledger_inv (snd pl').
Proof.
  destruct pl as [p l]. intros [Hp Hl] [readiness ? res H|token l' token' res H].
  - pose proof (try_select_and_acquire_spec readiness p l Hp Hl) as Hs. rewrite H in Hs.
    inversion Hs; subst; simpl; split; try done. by eapply ledger_after_inv.
  - simpl. split; [done|]. eapply ledger_step_inv; [done|]. by eapply ledger_step_release.
Qed.
Lemma dispatcher_reachable_inv pl :
  dispatcher_reachable pl -> policy_inv (fst pl) /\ ledger_inv (snd pl).
Proof.
  intros (p & l & [(classes & specs & ? & ? & Hp) (id & total & reserved & ? & Hl)] & Hrun).
  assert (policy_inv (fst (p, l)) /\ ledger_inv (snd (p, l))) as Hi.
  { split; [by eapply policy_try_new_inv|by eapply ledger_new_inv]. }
  induction Hrun; eauto using dispatcher_step_inv.
Qed.

(** ** Properties *)

(** C6: The dispatcher never fails internally: in every reachable state a
    selection either reports malformed readiness, changing nothing, or decides;
    the only other failure is the exhaustion of the 64-bit permit ids.  It
    never reports an inconsistent state, a counter overflow of its deficits or
    a permit that vanished between probe and acquisition, and never panics. *)
Theorem selection_never_fails_internally readiness p l :
  dispatcher_reachable (p, l) ->
  match snd (try_select_and_acquire readiness (p, l)) with
  | Ok _ => True
  | Err e =>
      (readiness_error e /\ fst (try_select_and_acquire readiness (p, l)) = (p, l)) \/
      (e = Permit PermitCounterOverflow /\ (u64_max <= ledger_next_permit_id l)%N)
  | Panic => False
  end.
Proof.
  intros [Hp Hl]%dispatcher_reachable_inv.
  destruct (try_select_and_acquire_spec readiness p l Hp Hl); simpl; try done; [by left|].
  right. split; [done|lia].
Qed.

(** Grants are sound: the selected mailbox was reported ready in this very
    call, the permit is live in the ledger and charges the pool its class is
    entitled to. *)
Theorem grants_are_backed readiness p l p' l' grant :
  dispatcher_reachable (p, l) ->
  try_select_and_acquire readiness (p, l) = ((p', l'), Ok (Selected grant)) ->
  (exists input, input ∈ readiness /\ is_dispatchable (readiness_head input) = true /\
    readiness_mailbox input = selection_mailbox (grant_selection grant)) /\
  permit_live l' (grant_permit grant) /\ token_active (grant_permit grant) = true /\
  (token_pool (grant_permit grant) = ControlReserved ->
    selection_class (grant_selection grant) = Control) /\
  size (ledger_active l') = S (size (ledger_active l)).
Proof.
  intros [Hp Hl]%dispatcher_reachable_inv H. simpl in Hp, Hl.
  pose proof (try_select_and_acquire_spec readiness p l Hp Hl) as Hs. rewrite H in Hs.
  inversion Hs as [| | |? i s input pool path ? ? Hsl Hin Hd Hpos Hc|]; subst. simpl. split_and!.
  - exists input. split_and!; [done..|].
    destruct (position_Some _ _ _ Hpos) as (s' & Hs' & <-). by simplify_eq.
  - split; destruct pool, l; simpl; try done; by rewrite lookup_insert_eq.
  - done.
  - intros ->. unfold chosen_pool, reserve_open in Hc. 
    destruct (slot_class s); [done|simpl in Hc..]; by destruct (_ <? _)%N in Hc.
  - pose proof (fresh_permit_id l Hl). destruct pool, l; simpl in *; by apply map_size_insert_None.
Qed.

(** C30: Work conservation: if some mailbox is ready and its class can take a
    permit, the dispatcher selects (it never idles on runnable work). *)
Theorem dispatch_is_work_conserving readiness p l input i s :
  dispatcher_reachable (p, l) -> (ledger_next_permit_id l < u64_max)%N ->
  (exists ready, validate_readiness p readiness = Ok ready) ->
  input ∈ readiness -> is_dispatchable (readiness_head input) = true ->
  position p (readiness_mailbox input) = Some i -> slots p !! i = Some s ->
  can_acquire (E := DispatcherError) l (slot_class s) = Ok true ->
  exists pl' grant, try_select_and_acquire readiness (p, l) = (pl', Ok (Selected grant)).
Proof.
  intros [Hp Hl]%dispatcher_reachable_inv Hid [ready Hready] Hin Hd Hpos Hs Hcan. simpl in Hp, Hl.
  rewrite can_acquire_spec in Hcan by done. injection Hcan as [pool Hpool]%bool_decide_eq_true.
  destruct (try_select_and_acquire_spec readiness p l Hp Hl) as [e He|Hnr|Hnp|p' j s' inp pool' path|p']; simpl in *.
  - congruence.
  - by rewrite Hnr in Hd.
  - by rewrite (Hnp input i s) in Hpool.
  - by eexists _, _.
  - lia.
Qed.

(** Consecutive direct selections under the given eligibility vectors. *)
Fixpoint direct_run (p : DispatchPolicy) (rounds : list (list bool)) : list (result DispatcherError nat) :=
  match rounds with
  | [] => []
  | eligible :: rounds =>
      let '(p', res) := select_direct eligible p in res :: direct_run p' rounds
  end.
Lemma direct_run_serves p rounds i :
  policy_inv p -> i < length (slots p) -> distance p i < length rounds ->
  Forall (fun eligible => eligible_at eligible i = true) rounds -> Ok i ∈ direct_run p rounds.
Proof.
  intros Hi Hlt Hd Hr. revert p Hi Hlt Hd; induction Hr as [|eligible rounds He Hr IH];
    intros p Hi Hlt Hd; simpl in *; [lia|].
  destruct (select_direct_spec eligible p i Hi Hlt He) as (j & Hj & _ & -> & Hcase).
  destruct (decide (j = i)) as [->|Hne]; [left|]. right.
  assert (length (slots (set_direct_cursor ((j + 1) mod length (slots p)) p)) = length (slots p)) as Hlen
    by by destruct p.
  apply IH; [apply set_direct_cursor_inv; [done|apply Nat.mod_upper_bound; lia]|lia|].
  destruct Hcase as [?|Hcase]; [done|]. lia.
Qed.
(** The direct scan starves nobody: a slot that is eligible in [n] consecutive
    selections over [n] slots is selected in one of them. *)
Theorem direct_scan_starves_nobody p l rounds i :
  dispatcher_reachable (p, l) -> i < length (slots p) ->
  length rounds = length (slots p) ->
  Forall (fun eligible => eligible_at eligible i = true) rounds ->
  Ok i ∈ direct_run p rounds.
Proof.
  intros [Hp _]%dispatcher_reachable_inv Hlt Hlen Hr. apply direct_run_serves; [done..| |done].
  rewrite Hlen. unfold distance. apply Nat.mod_upper_bound. lia.
Qed.

(** Hierarchical selection is total and sound: whatever deficits, cursors and
    bursts the past left, as long as some slot is eligible one of the two
    passes serves an eligible slot; deficits never exceed their cap. *)
Theorem hierarchical_selection_total p l eligible i :
  dispatcher_reachable (p, l) -> i < length (slots p) -> eligible_at eligible i = true ->
  exists p' j, select_hierarchical eligible p = (p', Ok j) /\ eligible_at eligible j = true /\
    j < length (slots p) /\
    Forall (fun slot => slot_deficit slot <= MAX_DEFICIT)%N (slots p') /\
    forall c, (class_get (class_deficit p') c <= MAX_DEFICIT)%N.
Proof.
  intros [Hp _]%dispatcher_reachable_inv Hlt He. simpl in Hp.
  apply lookup_lt_is_Some_2 in Hlt as [s Hs].
  destruct (select_hierarchical_spec eligible p (slot_class s) Hp) as (p' & j & -> & Hje & Hev & Hl).
  { apply class_has_eligible_spec. by exists i, s. }
  destruct Hev as [[_ Hok _ Hd _ _] Hev _ _]. exists p', j. split_and!; try done.
  eapply Forall_impl; [exact Hok|]. intros x. apply slot_ok_deficit.
Qed.

(** ** A concrete dispatcher *)

Module DispatchDemo.
Definition mailbox (n : N) : MailboxRef := MkMailboxRef (vreplicate 16 (byte_of_N n)).
Definition demo_classes : per_class DispatchClassPolicy :=
  let policy := MkDispatchClassPolicy 3 2 in PerClass policy policy policy policy.
(** A control slot and two stream slots of different costs. *)
Definition demo_specs : list DispatchSlotSpec :=
  [MkDispatchSlotSpec (mailbox 1) Control 5 1 1; MkDispatchSlotSpec (mailbox 2) Stream 7 2 2;
   MkDispatchSlotSpec (mailbox 3) Stream 40 3 1].
Definition demo_policy : DispatchPolicy :=
  match policy_try_new demo_classes demo_specs with
  | Ok p => p
  | _ => MkDispatchPolicy [] demo_classes (PerClass 0 0 0 0)%N 0 false (PerClass 0 0 0 0) None 0 None 0
           false 0
  end.
Definition demo_permits : DomainPermitLedger := PermitDemo.demo_ledger.
Definition demo_hint (n : N) : MailboxHeadHint :=
  let deadline := MkMonotonicDeadline (MkClockDomainRef (vreplicate 16 x01)) (MkClockGeneration 1)
                    (from_ticks 9) in
  MkMailboxHeadHint (mailbox n) (MkMessageId (vreplicate 16 x05)) 1 deadline deadline deadline.
Definition ready_head (n : N) : DispatchReadiness :=
  MkDispatchReadiness (mailbox n) (HeadReady (demo_hint n)).
Definition demo_input : list DispatchReadiness := [ready_head 3].
Definition demo_select := try_select_and_acquire demo_input (demo_policy, demo_permits).
Definition demo_grant : DispatchGrant :=
  MkDispatchGrant (MkDispatchSelection (mailbox 3) Stream 40 HierarchicalDeficit)
    (MkDomainPermitToken PermitDemo.demo_id 1 Shared true).

Lemma demo_new : dispatcher_new demo_policy demo_permits.
Proof.
  split.
  - exists demo_classes, demo_specs. split_and!.
    + intros []; vm_compute; split; reflexivity || discriminate.
    + repeat (apply Forall_cons; split); try apply Forall_nil;
        (vm_compute; split; split; reflexivity || discriminate).
    + vm_compute. reflexivity.
  - exists PermitDemo.demo_id, 3%N, 1%N. split; [done|reflexivity].
Defined.
Lemma demo_reachable : dispatcher_reachable (demo_policy, demo_permits).
Proof. exists demo_policy, demo_permits. split; [apply demo_new|constructor]. Defined.
End DispatchDemo.
Import DispatchDemo.

Lemma selection_never_fails_internally_witness :
  match snd demo_select with
  | Ok _ => True
  | Err e => (readiness_error e /\ fst demo_select = (demo_policy, demo_permits)) \/
      (e = Permit PermitCounterOverflow /\ (u64_max <= ledger_next_permit_id demo_permits)%N)
  | Panic => False
  end.
Proof. exact (selection_never_fails_internally demo_input _ _ demo_reachable). Defined.

Lemma grants_are_backed_witness : permit_live (snd (fst demo_select)) (grant_permit demo_grant).
Proof.
  apply (grants_are_backed demo_input demo_policy demo_permits (fst (fst demo_select))
    (snd (fst demo_select)) demo_grant demo_reachable).
  vm_compute. reflexivity.
Defined.

Lemma dispatch_is_work_conserving_witness :
  exists pl' grant, try_select_and_acquire demo_input (demo_policy, demo_permits) =
    (pl', Ok (Selected grant)).
Proof.
  apply (dispatch_is_work_conserving demo_input demo_policy demo_permits (ready_head 3) 2
    (slot_of 2 (MkDispatchSlotSpec (mailbox 3) Stream 40 3 1)) demo_reachable).
  - vm_compute. reflexivity.
  - eexists. vm_compute. reflexivity.
  - left.
  - reflexivity.
  - vm_compute. reflexivity.
  - vm_compute. reflexivity.
  - vm_compute. reflexivity.
Defined.

Lemma direct_scan_starves_nobody_witness :
  Ok 1 ∈ direct_run demo_policy [[true; true; true]; [false; true; true]; [true; true; false]].
Proof.
  apply (direct_scan_starves_nobody demo_policy demo_permits _ 1 demo_reachable).
  - vm_compute. lia.
  - vm_compute. reflexivity.
  - repeat constructor.
Defined.

Lemma hierarchical_selection_total_witness :
  exists p' j, select_hierarchical [false; true; true] demo_policy = (p', Ok j) /\
    eligible_at [false; true; true] j = true.
Proof.
  destruct (hierarchical_selection_total demo_policy demo_permits [false; true; true] 2 demo_reachable)
    as (p' & j & H1 & H2 & _).
  - vm_compute. lia.
  - reflexivity.
  - exists p', j. split; [exact H1|exact H2].
Defined.
