(* ===== verification/ExecutorBudget.v ===== *)
(** * Executor budget (crates/paraegox-runtime/src/executor_budget.rs)

    The host-wide ledger of planned threads: framework threads, managed
    workers and trusted native threads.  A reservation is returned only
    against a proof that the workers it paid for were really joined
    (crates/paraegox-runtime/src/thread_domain.rs). *)

From S2P Require Import Prelude.
Open Scope rust_scope.

(** ** Data *)

(** [marker] is the address of the budget's [Arc]. *)
Record ExecutorReservation := MkExecutorReservation {
  res_marker : N;
  res_id : N;
  res_managed_workers : N;
  res_native_threads : N;
  res_active : bool;
}.

Record ReservationRecord := MkReservationRecord {
  rec_managed_workers : N;
  rec_native_threads : N;
}.

Record ExecutorBudgetSnapshot := MkExecutorBudgetSnapshot {
  snap_maximum_threads : N;
  snap_framework_threads : N;
  snap_managed_workers : N;
  snap_native_threads : N;
  snap_active_reservations : N;
}.

(** [const fn] arithmetic on [u32]: it panics when it leaves the type. *)
Definition reserved_threads {E : Type} (self : ExecutorBudgetSnapshot) : result E N :=
  value ← panicking_add u32_max (snap_framework_threads self) (snap_managed_workers self);
  panicking_add u32_max value (snap_native_threads self).
Definition available_threads {E : Type} (self : ExecutorBudgetSnapshot) : result E N :=
  reserved ← reserved_threads self;
  panicking_sub (snap_maximum_threads self) reserved.

Record ThreadInventoryObservation := MkThreadInventoryObservation {
  obs_framework_threads : N;
  obs_managed_workers : N;
  obs_native_threads : N;
  obs_unknown_threads : N;
}.

Record ExecutorBudget := MkExecutorBudget {
  budget_marker : N;
  maximum_threads : N;
  framework_threads : N;
  managed_workers : N;
  native_threads : N;
  next_reservation_id : N;
  budget_active : gmap N ReservationRecord;
}.

Inductive ExecutorBudgetError :=
| InvalidPlan
| InvalidReservation
| CapacityExhausted
| BudgetCounterOverflow
| IdentifierExhausted
| ReservationAlreadyReleased
| OwnerMismatch
| ReservationMismatch
| JoinProofMismatch
| BudgetStateInconsistent.
#[export] Instance ExecutorBudgetError_eq_dec : EqDecision ExecutorBudgetError.
Proof. solve_decision. Defined.

Inductive ThreadInventoryMismatch :=
| BudgetStateInvalid
| ObservedCounterOverflow
| ObservedTotalExceeded
| FrameworkMismatch
| ManagedWorkerMismatch
| NativeReservationExceeded
| UnknownThreadsObserved.

Inductive ThreadDomainJoinKind := ConstructionRollback | CompleteShutdown.
#[export] Instance ThreadDomainJoinKind_eq_dec : EqDecision ThreadDomainJoinKind.
Proof. solve_decision. Defined.

Record ThreadDomainJoinProof := MkThreadDomainJoinProof {
  proof_kind : ThreadDomainJoinKind;
  proof_reservation : option ExecutorReservation;
  started_workers : N;
  joined_workers : N;
  native_threads_released : bool;
}.
Definition join_proof_new (kind : ThreadDomainJoinKind) (reservation : ExecutorReservation)
    (started joined : N) (native_released : bool) : ThreadDomainJoinProof :=
  MkThreadDomainJoinProof kind (Some reservation) started joined native_released.
Definition mark_released (self : ThreadDomainJoinProof) : ThreadDomainJoinProof :=
  let '(MkThreadDomainJoinProof k _ s j n) := self in MkThreadDomainJoinProof k None s j n.

Definition set_planned (managed native : N) (b : ExecutorBudget) : ExecutorBudget :=
  let '(MkExecutorBudget m x f _ _ i a) := b in MkExecutorBudget m x f managed native i a.
Definition set_next_reservation_id (v : N) (b : ExecutorBudget) : ExecutorBudget :=
  let '(MkExecutorBudget m x f w n _ a) := b in MkExecutorBudget m x f w n v a.
Definition set_budget_active (v : gmap N ReservationRecord) (b : ExecutorBudget) : ExecutorBudget :=
  let '(MkExecutorBudget m x f w n i _) := b in MkExecutorBudget m x f w n i v.

(** ** Operations *)

(** [marker] is the address of the [Arc] the constructor allocates. *)
Definition budget_try_new (marker maximum_threads framework_threads : N)
    : result ExecutorBudgetError ExecutorBudget :=
  bail InvalidPlan when
    ((maximum_threads =? 0) || (framework_threads =? 0) || (maximum_threads <? framework_threads))%N;
  Ok (MkExecutorBudget marker maximum_threads framework_threads 0 0 0 ∅).

Definition budget_total (self : ExecutorBudget) (managed native : N) : option N :=
  value ← checked_add u32_max (framework_threads self) managed;
  checked_add u32_max value native.

Definition budget_validate_state (self : ExecutorBudget) : result ExecutorBudgetError unit :=
  bail BudgetStateInconsistent when
    ((maximum_threads self =? 0) || (framework_threads self =? 0)
     || (maximum_threads self <? framework_threads self))%N;
  let recomputed_managed :=
    checked_sum u32_max 0 (map rec_managed_workers (btree_values (budget_active self))) in
  let recomputed_native :=
    checked_sum u32_max 0 (map rec_native_threads (btree_values (budget_active self))) in
  bail BudgetStateInconsistent when
    (bool_decide (recomputed_managed <> Some (managed_workers self))
     || bool_decide (recomputed_native <> Some (native_threads self)));
  total ← ok_or (budget_total self (managed_workers self) (native_threads self))
    BudgetStateInconsistent;
  bail BudgetStateInconsistent when (maximum_threads self <? total)%N;
  Ok tt.

Definition try_reserve (managed native : N) : M ExecutorBudget ExecutorBudgetError ExecutorReservation :=
  _ ← read budget_validate_state;
  _ ← lift (fail_if (managed =? 0)%N InvalidReservation);
  new_managed ← read (fun self =>
    ok_or (checked_add u32_max (managed_workers self) managed) BudgetCounterOverflow);
  new_native ← read (fun self =>
    ok_or (checked_add u32_max (native_threads self) native) BudgetCounterOverflow);
  total ← read (fun self => ok_or (budget_total self new_managed new_native) BudgetCounterOverflow);
  _ ← read (fun self => fail_if (maximum_threads self <? total)%N CapacityExhausted);
  reservation_id ← read (fun self =>
    ok_or (checked_add u64_max (next_reservation_id self) 1) IdentifierExhausted);
  previous ← gets (fun self => budget_active self !! reservation_id);
  _ ← modify (fun self =>
    set_budget_active (<[reservation_id := MkReservationRecord managed native]> (budget_active self)) self);
  if bool_decide (is_Some previous) then lift (Err BudgetStateInconsistent)
  else
    _ ← modify (set_planned new_managed new_native);
    _ ← modify (set_next_reservation_id reservation_id);
    marker ← gets budget_marker;
    mret (MkExecutorReservation marker reservation_id managed native true).

(** The checks of [release], and the totals it leaves. *)
Definition release_checks (self : ExecutorBudget) (proof : ThreadDomainJoinProof)
    : result ExecutorBudgetError (N * N * N) :=
  _ ← budget_validate_state self;
  reservation ← ok_or (proof_reservation proof) ReservationAlreadyReleased;
  bail ReservationAlreadyReleased when negb (res_active reservation);
  bail OwnerMismatch when negb (res_marker reservation =? budget_marker self)%N;
  record ← ok_or (budget_active self !! res_id reservation) ReservationMismatch;
  bail ReservationMismatch when
    (negb (rec_managed_workers record =? res_managed_workers reservation)
     || negb (rec_native_threads record =? res_native_threads reservation))%N;
  managed ← ok_or (try_from u64_max (res_managed_workers reservation)) ReservationMismatch;
  bail JoinProofMismatch when
    (negb (started_workers proof =? joined_workers proof)%N
     || (managed <? started_workers proof)%N
     || (bool_decide (proof_kind proof = CompleteShutdown) && negb (started_workers proof =? managed)%N)
     || (negb (res_native_threads reservation =? 0)%N && negb (native_threads_released proof)));
  new_managed ← ok_or (checked_sub (managed_workers self) (rec_managed_workers record))
    BudgetStateInconsistent;
  new_native ← ok_or (checked_sub (native_threads self) (rec_native_threads record))
    BudgetStateInconsistent;
  Ok (res_id reservation, new_managed, new_native).

Definition budget_release : M (ExecutorBudget * ThreadDomainJoinProof) ExecutorBudgetError unit :=
  '(id, new_managed, new_native) ← read (fun '(self, proof) => release_checks self proof);
  _ ← modify (fun '(self, proof) =>
        (set_budget_active (delete id (budget_active self)) self, proof));
  _ ← modify (fun '(self, proof) => (set_planned new_managed new_native self, proof));
  _ ← modify (fun '(self, proof) => (self, mark_released proof));
  read (fun '(self, _) => budget_validate_state self).

Definition budget_snapshot (self : ExecutorBudget) : result ExecutorBudgetError ExecutorBudgetSnapshot :=
  _ ← budget_validate_state self;
  active ← ok_or (try_from u32_max (N.of_nat (size (budget_active self)))) BudgetStateInconsistent;
  Ok (MkExecutorBudgetSnapshot (maximum_threads self) (framework_threads self) (managed_workers self)
        (native_threads self) active).

Definition evaluate_observation (self : ExecutorBudget) (observation : ThreadInventoryObservation)
    : result ThreadInventoryMismatch unit :=
  planned ← map_err (fun _ => BudgetStateInvalid) (budget_snapshot self);
  observed_total ← ok_or
    (value ← checked_add u32_max (obs_framework_threads observation) (obs_managed_workers observation);
     value ← checked_add u32_max value (obs_native_threads observation);
     checked_add u32_max value (obs_unknown_threads observation)) ObservedCounterOverflow;
  bail ObservedTotalExceeded when (snap_maximum_threads planned <? observed_total)%N;
  bail FrameworkMismatch when
    negb (obs_framework_threads observation =? snap_framework_threads planned)%N;
  bail ManagedWorkerMismatch when
    negb (obs_managed_workers observation =? snap_managed_workers planned)%N;
  bail NativeReservationExceeded when
    (snap_native_threads planned <? obs_native_threads observation)%N;
  bail UnknownThreadsObserved when negb (obs_unknown_threads observation =? 0)%N;
  Ok tt.

(** ** The budget invariant *)

Record budget_inv (b : ExecutorBudget) : Prop := {
  budget_inv_plan : (0 < framework_threads b <= maximum_threads b)%N;
  budget_inv_u32 : (maximum_threads b <= u32_max)%N;
  budget_inv_managed : managed_workers b = btree_sum rec_managed_workers (budget_active b);
  budget_inv_native : native_threads b = btree_sum rec_native_threads (budget_active b);
  budget_inv_total :
    (framework_threads b + managed_workers b + native_threads b <= maximum_threads b)%N;
  budget_inv_records : map_Forall (fun _ r => (0 < rec_managed_workers r)%N) (budget_active b);
  budget_inv_ids : forall id, is_Some (budget_active b !! id) -> (id <= next_reservation_id b)%N;
}.

Lemma budget_total_ok b managed native :
  (framework_threads b + managed + native <= u32_max)%N ->
  budget_total b managed native = Some (framework_threads b + managed + native)%N.
Proof.
  intros H. unfold budget_total. rewrite (checked_add_ok _ (framework_threads b)) by lia. simpl.
  by rewrite checked_add_ok.
Qed.

Lemma budget_inv_validate b : budget_inv b -> budget_validate_state b = Ok tt.
Proof.
  intros [[Hf0 Hf] Hu Hm Hn Ht _ _]. unfold budget_validate_state, btree_sum in *.
  destruct (_ || _ || _)%N eqn:E; [exfalso; rewrite !orb_true_iff, !N.eqb_eq, N.ltb_lt in E; lia|].
  simpl. rewrite !checked_sum_ok by lia.
  rewrite <-Hm, <-Hn, !bool_decide_eq_false_2 by tauto. simpl.
  rewrite budget_total_ok by lia. simpl. rewrite (proj2 (N.ltb_ge _ _)) by lia. done.
Qed.

Lemma btree_sum_size (m : gmap N ReservationRecord) :
  map_Forall (fun _ r => (0 < rec_managed_workers r)%N) m ->
  (N.of_nat (size m) <= btree_sum rec_managed_workers m)%N.
Proof.
  induction m as [|k r m Hk IH] using map_ind; intros H; [by rewrite map_size_empty|].
  apply map_Forall_insert in H as [Hr Hm]; [|done].
  rewrite map_size_insert_None, btree_sum_insert by done. specialize (IH Hm). lia.
Qed.

(** ** Reserving *)

Definition budget_after (b : ExecutorBudget) (managed native : N) : ExecutorBudget :=
  let id := (next_reservation_id b + 1)%N in
  set_next_reservation_id id (set_planned (managed_workers b + managed) (native_threads b + native)
    (set_budget_active (<[id := MkReservationRecord managed native]> (budget_active b)) b)).
Definition reservation_of (b : ExecutorBudget) (managed native : N) : ExecutorReservation :=
  MkExecutorReservation (budget_marker b) (next_reservation_id b + 1) managed native true.

Lemma fresh_reservation_id b :
  budget_inv b -> budget_active b !! (next_reservation_id b + 1)%N = None.
Proof.
  intros Hi. destruct (budget_active b !! _) eqn:E; [|done].
  pose proof (budget_inv_ids b Hi (next_reservation_id b + 1)) as H. rewrite E in H.
  specialize (H (mk_is_Some _ _ eq_refl)). lia.
Qed.

Lemma try_reserve_cases b managed native :
  budget_inv b ->
  ((0 < managed)%N /\
   (framework_threads b + managed_workers b + managed + native_threads b + native
      <= maximum_threads b)%N /\ (next_reservation_id b < u64_max)%N /\
   try_reserve managed native b = (budget_after b managed native, Ok (reservation_of b managed native))) \/
  (~ ((0 < managed)%N /\
      (framework_threads b + managed_workers b + managed + native_threads b + native
        <= maximum_threads b)%N /\ (next_reservation_id b < u64_max)%N) /\
   exists e, try_reserve managed native b = (b, Err e) /\ e <> BudgetStateInconsistent).
Proof.
  intros Hi. pose proof (fresh_reservation_id b Hi) as Hfresh.
  unfold try_reserve, budget_total, checked_add, fail_if.
  rewrite run_read, budget_inv_validate by done. rewrite run_bind, run_lift.
  destruct Hi as [[Hf0 Hf] Hu Hm Hn Ht _ _].
  destruct (N.eqb_spec managed 0) as [->|Hne]; simpl; [right; split; [lia|by eexists]|].
  rewrite run_read.
  destruct (N.leb_spec (managed_workers b + managed) u32_max); simpl; [|right; split; [lia|by eexists]].
  rewrite run_read.
  destruct (N.leb_spec (native_threads b + native) u32_max); simpl; [|right; split; [lia|by eexists]].
  rewrite run_read.
  destruct (N.leb_spec (framework_threads b + (managed_workers b + managed)) u32_max); simpl;
    [|right; split; [lia|by eexists]].
  destruct (N.leb_spec (framework_threads b + (managed_workers b + managed) + (native_threads b + native))
    u32_max); simpl; [|right; split; [lia|by eexists]].
  rewrite run_read.
  destruct (N.ltb_spec (maximum_threads b) (framework_threads b + (managed_workers b + managed) +
    (native_threads b + native))); simpl; [right; split; [lia|by eexists]|].
  rewrite run_read. simpl.
  destruct (N.leb_spec (next_reservation_id b + 1) u64_max); simpl; [|right; split; [lia|by eexists]].
  left. split_and!; [lia..|]. rewrite run_gets, Hfresh, run_modify. simpl. by destruct b.
Qed.

Lemma budget_after_inv b managed native :
  budget_inv b -> (0 < managed)%N ->
  (framework_threads b + managed_workers b + managed + native_threads b + native
    <= maximum_threads b)%N ->
  budget_inv (budget_after b managed native).
Proof.
  intros Hi Hm0 Hfit. pose proof (fresh_reservation_id b Hi) as Hfresh.
  destruct Hi as [Hf Hu Hm Hn Ht Hr Hids]. unfold budget_after. destruct b; simpl in *.
  constructor; simpl; rewrite ?btree_sum_insert by done; simpl; try done; try lia.
  - by apply map_Forall_insert_2.
  - intros id. rewrite lookup_insert_is_Some. intros [<-|[_ Hid]]; [lia|]. apply Hids in Hid. lia.
Qed.

(** ** Releasing *)

(** The proof settles the reservation recorded in the budget. *)
Record settles (b : ExecutorBudget) (p : ThreadDomainJoinProof) (r : ExecutorReservation) : Prop := {
  settles_reservation : proof_reservation p = Some r;
  settles_active : res_active r = true;
  settles_owner : res_marker r = budget_marker b;
  settles_record : budget_active b !! res_id r =
    Some (MkReservationRecord (res_managed_workers r) (res_native_threads r));
  settles_joined : started_workers p = joined_workers p;
  settles_started : (started_workers p <= res_managed_workers r)%N;
  settles_complete : proof_kind p = CompleteShutdown -> started_workers p = res_managed_workers r;
  settles_native : res_native_threads r <> 0%N -> native_threads_released p = true;
}.

Definition budget_released (b : ExecutorBudget) (r : ExecutorReservation) : ExecutorBudget :=
  set_planned (managed_workers b - res_managed_workers r) (native_threads b - res_native_threads r)
    (set_budget_active (delete (res_id r) (budget_active b)) b).

Lemma record_within b id rec :
  budget_inv b -> budget_active b !! id = Some rec ->
  (rec_managed_workers rec <= managed_workers b /\ rec_native_threads rec <= native_threads b)%N.
Proof.
  intros Hi Hid. rewrite (budget_inv_managed b Hi), (budget_inv_native b Hi).
  rewrite (btree_sum_delete rec_managed_workers _ _ _ Hid), (btree_sum_delete rec_native_threads _ _ _ Hid).
  lia.
Qed.

Lemma budget_released_inv b r :
  budget_inv b ->
  budget_active b !! res_id r = Some (MkReservationRecord (res_managed_workers r) (res_native_threads r)) ->
  budget_inv (budget_released b r).
Proof.
  intros Hi Hid. pose proof (record_within b _ _ Hi Hid) as [H1 H2]. simpl in H1, H2.
  destruct Hi as [Hf Hu Hm Hn Ht Hr Hids].
  pose proof (btree_sum_delete rec_managed_workers _ _ _ Hid) as Hdm.
  pose proof (btree_sum_delete rec_native_threads _ _ _ Hid) as Hdn. simpl in Hdm, Hdn.
  unfold budget_released. destruct b; simpl in *. constructor; simpl in *; try done; try lia.
  - by apply map_Forall_delete.
  - intros id Hs. apply Hids. by apply lookup_delete_is_Some in Hs as [_ ?].
Qed.

Lemma budget_release_cases b p :
  budget_inv b -> (forall r, proof_reservation p = Some r -> res_managed_workers r <= u32_max)%N ->
  (exists r, settles b p r /\
    budget_release (b, p) = ((budget_released b r, mark_released p), Ok tt)) \/
  ((forall r, ~ settles b p r) /\
    exists e, budget_release (b, p) = ((b, p), Err e) /\ e <> BudgetStateInconsistent).
Proof.
  intros Hi Hu32. unfold budget_release. rewrite run_bind. unfold read at 1, release_checks. simpl.
  rewrite (budget_inv_validate b Hi). simpl.
  destruct (proof_reservation p) as [r|] eqn:Hr; simpl;
    [|right; split; [intros r []; congruence|eexists; split; [reflexivity|done]]].
  destruct (res_active r) eqn:Hact; simpl;
    [|right; split; [intros r' []; congruence|eexists; split; [reflexivity|done]]].
  destruct (N.eqb_spec (res_marker r) (budget_marker b)) as [Hmk|Hmk]; simpl;
    [|right; split; [intros r' []; congruence|eexists; split; [reflexivity|done]]].
  destruct (budget_active b !! res_id r) as [[m n]|] eqn:Hid; simpl;
    [|right; split; [intros r' []; congruence|eexists; split; [reflexivity|done]]].
  destruct (N.eqb_spec m (res_managed_workers r)) as [->|]; simpl;
    [|right; split; [intros r' []; congruence|eexists; split; [reflexivity|done]]].
  destruct (N.eqb_spec n (res_native_threads r)) as [->|]; simpl;
    [|right; split; [intros r' []; congruence|eexists; split; [reflexivity|done]]].
  specialize (Hu32 r eq_refl). rewrite try_from_ok by (assert (u32_max <= u64_max)%N by done; lia). simpl.
  destruct (_ || _ || _ || _) eqn:E; simpl.
  - right. split; [|eexists; split; [reflexivity|done]]. intros r' [Hr' _ _ _ Hj Hst Hc Hn]. simplify_eq.
    rewrite Hj, N.eqb_refl in E. simpl in E. rewrite Hj in Hst, Hc.
    rewrite !orb_true_iff, !andb_true_iff, !negb_true_iff, !N.eqb_neq, N.ltb_lt, bool_decide_eq_true in E.
    destruct E as [[?|[Hk ?]]|[Hz Hf]]; [lia|apply Hc in Hk; congruence|].
    by rewrite Hn in Hf.
  - left. exists r. rust_inv. destruct (record_within b _ _ Hi Hid) as [H1' H2']. simpl in H1', H2'.
    rewrite checked_sub_ok by done. simpl. rewrite checked_sub_ok by done. simpl.
    rewrite !run_modify. unfold read. fold (budget_released b r). rewrite (budget_inv_validate (budget_released b r))
      by by apply budget_released_inv.
    split; [|done]. constructor; try done.
    + intros Hk. rewrite bool_decide_eq_true_2 in * by done. simpl in *. by rust_inv.
    + intros Hz. destruct (native_threads_released p); [done|].
      apply N.eqb_neq in Hz. by rewrite Hz in *.
Qed.

(** ** Runs *)

Definition proof_typed (p : ThreadDomainJoinProof) : Prop :=
  forall r, proof_reservation p = Some r -> (res_managed_workers r <= u32_max)%N.

Inductive budget_step (b : ExecutorBudget) : ExecutorBudget -> Prop :=
| budget_step_reserve managed native b' res :
    try_reserve managed native b = (b', res) -> budget_step b b'
| budget_step_release p b' p' res :
    proof_typed p -> budget_release (b, p) = ((b', p'), res) -> budget_step b b'.
Definition budget_reachable (b : ExecutorBudget) : Prop :=
  exists marker maximum framework b0, (maximum <= u32_max)%N /\
    budget_try_new marker maximum framework = Ok b0 /\ rtc budget_step b0 b.

Lemma budget_step_inv b b' : budget_inv b -> budget_step b b' -> budget_inv b'.
Proof.
  intros Hi [managed native ? res H|p ? p' res Ht H].
  - destruct (try_reserve_cases b managed native Hi) as [(? & ? & _ & Hr)|(_ & e & Hr & _)];
      rewrite Hr in H; simplify_eq; [by apply budget_after_inv|done].
  - destruct (budget_release_cases b p Hi Ht) as [(r & Hs & Hr)|(_ & e & Hr & _)];
      rewrite Hr in H; simplify_eq; [|done]. by apply budget_released_inv, settles_record with (p := p).
Qed.
Lemma budget_run_inv b b' : budget_inv b -> rtc budget_step b b' -> budget_inv b'.
Proof. intros Hi Hrun. induction Hrun; eauto using budget_step_inv. Qed.
Lemma budget_reachable_inv b : budget_reachable b -> budget_inv b.
Proof.
  intros (marker & maximum & framework & b0 & Hu & Hnew & Hrun).
  eapply budget_run_inv; [|done]. unfold budget_try_new in Hnew. rust_inv. simplify_eq.
  constructor; simpl; try done; try lia.
  intros k [v Hv]. by rewrite lookup_empty in Hv.
Qed.

(** A reservation that was settled: its id was issued and is not active. *)
Definition reservation_spent (b : ExecutorBudget) (id : N) : Prop :=
  (id <= next_reservation_id b)%N /\ budget_active b !! id = None.
Lemma budget_step_spent b b' id :
  budget_inv b -> budget_step b b' -> reservation_spent b id -> reservation_spent b' id.
Proof.
  intros Hi [managed native ? res H|p ? p' res Ht H] [Hle Hn].
  - destruct (try_reserve_cases b managed native Hi) as [(? & ? & _ & Hr)|(_ & e & Hr & _)];
      rewrite Hr in H; injection H as <- <-; [|done].
    destruct b; simpl in *. split; simpl; [lia|]. by rewrite lookup_insert_ne by lia.
  - destruct (budget_release_cases b p Hi Ht) as [(r & Hs & Hr)|(_ & e & Hr & _)];
      rewrite Hr in H; injection H as <- <- <-; [|done].
    destruct b; simpl in *. split; simpl; [done|]. rewrite lookup_delete_None. auto.
Qed.
Lemma budget_run_spent b b' id :
  budget_inv b -> rtc budget_step b b' -> reservation_spent b id -> reservation_spent b' id.
Proof. intros Hi Hrun. induction Hrun; eauto using budget_step_spent, budget_step_inv. Qed.

(** ** Properties *)

(** C33: The plan is never oversubscribed: whatever was reserved and released,
    framework threads plus all outstanding reservations fit the maximum, and
    the snapshot arithmetic stays inside [u32]. *)
Theorem budget_never_oversubscribed b :
  budget_reachable b ->
  (framework_threads b + btree_sum rec_managed_workers (budget_active b)
     + btree_sum rec_native_threads (budget_active b) <= maximum_threads b)%N /\
  exists snap, budget_snapshot b = Ok snap /\
    available_threads (E := ExecutorBudgetError) snap =
      Ok (maximum_threads b - (framework_threads b + managed_workers b + native_threads b))%N /\
    snap_active_reservations snap = N.of_nat (size (budget_active b)).
Proof.
  intros Hi%budget_reachable_inv. pose proof (btree_sum_size _ (budget_inv_records b Hi)) as Hsize.
  unfold budget_snapshot. rewrite budget_inv_validate by done.
  destruct Hi as [Hf Hu Hm Hn Ht _ _]. rewrite <-Hm, <-Hn. split; [done|]. simpl.
  rewrite try_from_ok by lia. eexists. split; [done|].
  unfold available_threads, reserved_threads, panicking_add, panicking_sub. simpl.
  rewrite checked_add_ok by lia. simpl. rewrite checked_add_ok by lia. simpl.
  by rewrite checked_sub_ok by lia.
Qed.

(** A reservation is granted exactly when it asks for at least one worker,
    fits what is left of the plan and an id is left; a refusal changes
    nothing. *)
Theorem reserve_exactly_when_it_fits b managed native :
  budget_reachable b ->
  (exists b' r, try_reserve managed native b = (b', Ok r)) <->
  ((0 < managed)%N /\
   (framework_threads b + managed_workers b + managed + native_threads b + native
      <= maximum_threads b)%N /\ (next_reservation_id b < u64_max)%N).
Proof.
  intros Hi%budget_reachable_inv. destruct (try_reserve_cases b managed native Hi)
    as [(? & ? & ? & ->)|(Hno & e & -> & _)].
  - split; [done|]. intros _. by eexists _, _.
  - split; [by intros (b' & r & ?)|done].
Qed.

(** Capacity comes back only after a real join: a successful release carries a
    proof that every started worker was joined (all of them for a complete
    shutdown, and the native threads too), and returns exactly what was
    reserved; a refused release changes neither the budget nor the proof. *)
Theorem release_needs_a_join_proof b p b' p' res :
  budget_reachable b -> proof_typed p -> budget_release (b, p) = ((b', p'), res) ->
  match res with
  | Ok _ => exists r, proof_reservation p = Some r /\ started_workers p = joined_workers p /\
      (proof_kind p = CompleteShutdown -> joined_workers p = res_managed_workers r) /\
      (res_native_threads r <> 0%N -> native_threads_released p = true) /\
      (managed_workers b' + res_managed_workers r = managed_workers b)%N /\
      (native_threads b' + res_native_threads r = native_threads b)%N /\
      proof_reservation p' = None
  | Err e => b' = b /\ p' = p /\ e <> BudgetStateInconsistent
  | Panic => False
  end.
Proof.
  intros Hi%budget_reachable_inv Ht H.
  destruct (budget_release_cases b p Hi Ht) as [(r & Hs & Hr)|(_ & e & Hr & He)];
    rewrite Hr in H; injection H as <- <- <-; [|done].
  destruct (record_within b _ _ Hi (settles_record _ _ _ Hs)) as [H1 H2]. simpl in H1, H2.
  destruct Hs as [Hpr Hact Hown Hrec Hj Hst Hc Hn]. exists r.
  split_and!; try done; try (destruct b, p; simpl in *; lia); [|by destruct p].
  intros Hk. rewrite <-Hj. auto.
Qed.

(** Reserve and release are inverse, once: settling a fresh reservation with
    all its workers joined restores the totals and the table, and no later
    state accepts another proof for the same reservation. *)
Theorem reservation_settles_once b managed native b1 r :
  budget_reachable b -> (managed <= u32_max)%N -> try_reserve managed native b = (b1, Ok r) ->
  exists b2, budget_release (b1, join_proof_new CompleteShutdown r managed managed true) =
      ((b2, mark_released (join_proof_new CompleteShutdown r managed managed true)), Ok tt) /\
    managed_workers b2 = managed_workers b /\ native_threads b2 = native_threads b /\
    budget_active b2 = budget_active b /\
    forall b3 kind started joined released, rtc budget_step b2 b3 ->
      exists e, budget_release (b3, join_proof_new kind r started joined released) =
        ((b3, join_proof_new kind r started joined released), Err e).
Proof.
  intros Hi%budget_reachable_inv Hu H. pose proof (fresh_reservation_id b Hi) as Hfresh.
  destruct (try_reserve_cases b managed native Hi) as [(Hm0 & Hfit & _ & Hr)|(_ & e & Hr & _)];
    rewrite Hr in H; [injection H as <- <-|done].
  pose proof (budget_after_inv b managed native Hi Hm0 Hfit) as Hi1.
  set (r := reservation_of b managed native).
  assert (forall kind s j n, proof_typed (join_proof_new kind r s j n)) as Htyped.
  { intros kind s j n r'. intros [= <-]. done. }
  assert (settles (budget_after b managed native) (join_proof_new CompleteShutdown r managed managed true) r)
    as Hs.
  { constructor; try done; destruct b; simpl; try done. by rewrite lookup_insert_eq. }
  destruct (budget_release_cases _ _ Hi1 (Htyped CompleteShutdown managed managed true))
    as [(r' & Hs' & Hrel)|(Hno & _)]; [|by destruct (Hno r)].
  assert (r' = r) as -> by (pose proof (settles_reservation _ _ _ Hs'); simpl in *; congruence).
  rewrite Hrel. eexists. split; [done|].
  assert (budget_inv (budget_released (budget_after b managed native) r)) as Hi2
    by by apply budget_released_inv, (settles_record _ _ _ Hs).
  assert (reservation_spent (budget_released (budget_after b managed native) r) (res_id r)) as Hspent.
  { destruct b; simpl. split; simpl; [done|]. apply lookup_delete_eq. }
  split_and!; try (destruct b; simpl in *; lia).
  { destruct b; simpl in *. by rewrite delete_insert_id. }
  intros b3 kind started joined released Hrun.
  pose proof (budget_run_spent _ _ _ Hi2 Hrun Hspent) as [_ Hnone].
  destruct (budget_release_cases b3 (join_proof_new kind r started joined released))
    as [(r3 & [Hp _ _ Hrec _ _ _ _] & _)|(_ & e & -> & _)];
    [by eapply budget_run_inv|apply Htyped| |by exists e].
  simpl in Hp. injection Hp as <-. congruence.
Qed.

(** An observed inventory is accepted exactly when the framework threads and
    the managed workers match the plan, native threads stay within theirs and
    nothing unowned is running. *)
Theorem observation_accepted_iff b obs :
  budget_reachable b ->
  evaluate_observation b obs = Ok tt <->
  obs_framework_threads obs = framework_threads b /\ obs_managed_workers obs = managed_workers b /\
  (obs_native_threads obs <= native_threads b)%N /\ obs_unknown_threads obs = 0%N.
Proof.
  intros Hi%budget_reachable_inv. pose proof (btree_sum_size _ (budget_inv_records b Hi)) as Hsize.
  unfold evaluate_observation, budget_snapshot. rewrite budget_inv_validate by done.
  destruct Hi as [Hf Hu Hm Hn Ht _ _]. rewrite <-Hm in Hsize. simpl. rewrite try_from_ok by lia. simpl.
  split.
  - intros H. rust_inv. lia.
  - intros (H1 & H2 & H3 & H4). rewrite H1, H2, H4.
    rewrite checked_add_ok by lia. simpl. rewrite checked_add_ok by lia. simpl.
    rewrite checked_add_ok by lia. simpl. rewrite !N.eqb_refl.
    rewrite (proj2 (N.ltb_ge (maximum_threads b) _)) by lia. simpl.
    by rewrite (proj2 (N.ltb_ge (native_threads b) _)) by lia.
Qed.

Module BudgetDemo.
Definition plan : ExecutorBudget := MkExecutorBudget 9 8 2 0 0 0 ∅.
Definition reserved : ExecutorBudget := fst (try_reserve 3 1 plan).
Definition reservation : ExecutorReservation := MkExecutorReservation 9 1 3 1 true.
Definition join : ThreadDomainJoinProof := join_proof_new CompleteShutdown reservation 3 3 true.
Lemma reserved_reachable : budget_reachable reserved.
Proof.
  exists 9%N, 8%N, 2%N, plan. split; [done|]. split; [reflexivity|].
  eapply rtc_l; [eapply (budget_step_reserve _ 3 1), surjective_pairing|constructor].
Defined.
Lemma plan_reachable : budget_reachable plan.
Proof. exists 9%N, 8%N, 2%N, plan. split; [done|]. split; [reflexivity|constructor]. Defined.
End BudgetDemo.
Import BudgetDemo.

Lemma budget_never_oversubscribed_witness :
  (2 + btree_sum rec_managed_workers (budget_active reserved)
     + btree_sum rec_native_threads (budget_active reserved) <= 8)%N.
Proof. apply (budget_never_oversubscribed reserved reserved_reachable). Defined.
Lemma reserve_exactly_when_it_fits_witness :
  exists b' r, try_reserve 1 1 reserved = (b', Ok r).
Proof.
  apply (reserve_exactly_when_it_fits reserved 1 1 reserved_reachable).
  vm_compute. repeat split; discriminate.
Defined.
Lemma release_needs_a_join_proof_witness :
  exists r, proof_reservation join = Some r /\ started_workers join = joined_workers join.
Proof.
  destruct (release_needs_a_join_proof reserved join (fst (fst (budget_release (reserved, join))))
    (snd (fst (budget_release (reserved, join)))) (Ok tt) reserved_reachable) as (r & H1 & H2 & _).
  - intros r [= <-]. done.
  - vm_compute. reflexivity.
  - exists r. split; [exact H1|exact H2].
Defined.
Lemma reservation_settles_once_witness :
  exists b2, fst (fst (budget_release (reserved, join))) = b2 /\ managed_workers b2 = 0%N.
Proof.
  destruct (reservation_settles_once plan 3 1 reserved reservation plan_reachable) as (b2 & H1 & H2 & _).
  - done.
  - vm_compute. reflexivity.
  - exists b2. split; [by unfold join; rewrite H1|exact H2].
Defined.
Lemma observation_accepted_iff_witness :
  evaluate_observation reserved (MkThreadInventoryObservation 2 3 0 0) = Ok tt.
Proof.
  apply (observation_accepted_iff reserved _ reserved_reachable). vm_compute.
  repeat split; discriminate.
Defined.
