(* ===== verification/ApplyState.v ===== *)
(** * Writer fence and apply control (crates/paraegox-runtime/src/apply_state.rs)

    The pure reducers that decide whether an admitted apply request may move
    the writer fence, prepare a slice and activate it. *)

From S2P Require Import Prelude KernelTime KernelDigest ApplyContracts.
Open Scope rust_scope.

Record WriterFence := MkWriterFence {
  fence_writer : PlanWriterRef;
  fence_epoch : PlanWriterEpoch;
  fence_proof_envelope_digest : Digest32;
  fence_principal : PrincipalRef;
}.
#[export] Instance WriterFence_eq_dec : EqDecision WriterFence.
Proof. solve_decision. Defined.

Inductive PrepareStage := ControlAccepted.
#[export] Instance PrepareStage_eq_dec : EqDecision PrepareStage.
Proof. solve_decision. Defined.

Record PreparedControl := MkPreparedControl {
  prepared_operation_id : ApplyOperationId;
  prepared_request_digest : Digest32;
  incoming : RuntimeSliceCommitment;
  prepared_expected_active : ExpectedActive;
  prepared_writer_fence : WriterFence;
  prepared_deadline : MonotonicDeadline;
  stage : PrepareStage;
}.
#[export] Instance PreparedControl_eq_dec : EqDecision PreparedControl.
Proof. solve_decision. Defined.

Record ActiveControl := MkActiveControl { active_slice : RuntimeSliceCommitment }.
#[export] Instance ActiveControl_eq_dec : EqDecision ActiveControl.
Proof. solve_decision. Defined.

Record ApplyControlState := MkApplyControlState {
  state_source_scope : SourceScopeRef;
  state_target : RuntimeHostId;
  writer_fence : option WriterFence;
  prepared : option PreparedControl;
  active : option ActiveControl;
}.
#[export] Instance ApplyControlState_eq_dec : EqDecision ApplyControlState.
Proof. solve_decision. Defined.

Definition control_state_new (source_scope : SourceScopeRef) (target : RuntimeHostId)
    : ApplyControlState :=
  {| state_source_scope := source_scope;
     state_target := target;
     writer_fence := None;
     prepared := None;
     active := None |}.

Record VerifiedWriterTenure := MkVerifiedWriterTenure {
  tenure_source_scope : SourceScopeRef;
  tenure_writer : PlanWriterRef;
  tenure_epoch : PlanWriterEpoch;
  tenure_supersedes_through_epoch : PlanWriterEpoch;
  tenure_proof_envelope_digest : Digest32;
  tenure_principal : PrincipalRef;
}.
Record AdmittedApply := MkAdmittedApply {
  payload : RuntimeApplyControlCommitment;
  tenure : VerifiedWriterTenure;
  request_digest : Digest32;
  deadline : MonotonicDeadline;
  exact_replay : bool;
}.

Inductive FenceDisposition := Kept | Advanced.

Inductive OperationPhase := PhasePrepared | PhaseActive | PhaseSuperseded.
#[export] Instance OperationPhase_eq_dec : EqDecision OperationPhase.
Proof. solve_decision. Defined.

Record OperationRecord := MkOperationRecord {
  record_source_scope : SourceScopeRef;
  record_target : RuntimeHostId;
  record_operation_id : ApplyOperationId;
  record_request_digest : Digest32;
  phase : OperationPhase;
}.
#[export] Instance OperationRecord_eq_dec : EqDecision OperationRecord.
Proof. solve_decision. Defined.

Record FenceTransition := MkFenceTransition {
  fence_next_state : ApplyControlState;
  fence_disposition : FenceDisposition;
  superseded_operation : option OperationRecord;
}.

Inductive PrepareDisposition :=
| Prepared
| PrepareReplayed (phase : OperationPhase).

Record PrepareTransition := MkPrepareTransition {
  prepare_next_state : ApplyControlState;
  prepare_operation : OperationRecord;
  prepare_disposition : PrepareDisposition;
}.

Record PreparationReadyFact := MkPreparationReadyFact {
  ready_operation_id : ApplyOperationId;
  ready_request_digest : Digest32;
}.

Inductive ActivateDisposition := Activated | ActivateReplayed.

Record ActivateTransition := MkActivateTransition {
  activate_next_state : ApplyControlState;
  activate_operation : OperationRecord;
  activate_disposition : ActivateDisposition;
}.

Inductive ApplyRejection :=
| RejContract (e : ApplyContractError)
| RejDigest (e : DigestBuildError)
| RejTime (e : TimeError)
| DeadlineExpired
| TargetMismatch
| SourceScopeMismatch
| StaleWriterEpoch
| WriterFenceConflict
| TenureDoesNotSupersedeFence
| WriterFenceNotDurable
| OperationLookupMismatch
| OperationConflict
| OperationStateMismatch
| OperationSuperseded
| ExpectedActiveMismatch
| NonMonotonicRevision
| PrepareInProgress
| ReadinessMismatch.
#[export] Instance ApplyRejection_eq_dec : EqDecision ApplyRejection.
Proof. solve_decision. Defined.

Definition slice_scope (s : RuntimeSliceCommitment) : SourceScopeRef :=
  source_scope (provenance (header s)).
Definition slice_target (s : RuntimeSliceCommitment) : RuntimeHostId := target (header s).
Definition slice_revision (s : RuntimeSliceCommitment) : N :=
  revision_value (source_revision (provenance (header s))).

Definition ensure_deadline_live (deadline : MonotonicDeadline) (reading : ClockReading)
    : result ApplyRejection unit :=
  expired ← map_err RejTime (is_expired_at deadline reading);
  bail DeadlineExpired when expired;
  Ok tt.

Definition expected_active_matches (state : ApplyControlState) (expected : ExpectedActive) : bool :=
  match expected, active state with
  | ExpectNone, None => true
  | ExpectExact expected_digest, Some active =>
      bool_decide (target_slice_digest (active_slice active) = expected_digest)
  | _, _ => false
  end.

Definition ensure_expected_active (state : ApplyControlState) (expected : ExpectedActive)
    : result ApplyRejection unit :=
  bail ExpectedActiveMismatch when negb (expected_active_matches state expected);
  Ok tt.

Definition ensure_revision_advances (state : ApplyControlState) (incoming : RuntimeSliceCommitment)
    : result ApplyRejection unit :=
  match active state with
  | Some active =>
      bail NonMonotonicRevision
        when (slice_revision incoming <=? slice_revision (active_slice active))%N;
      Ok tt
  | None => Ok tt
  end.

Definition ensure_operation_belongs_to_state (state : ApplyControlState)
    (operation : OperationRecord) : result ApplyRejection unit :=
  bail SourceScopeMismatch
    when bool_decide (record_source_scope operation <> state_source_scope state);
  bail TargetMismatch when bool_decide (record_target operation <> state_target state);
  Ok tt.

Definition ensure_replayed_operation_consistent (state : ApplyControlState)
    (operation : OperationRecord) : result ApplyRejection unit :=
  match phase operation with
  | PhasePrepared =>
      match prepared state with
      | None => Err OperationStateMismatch
      | Some prepared =>
          bail OperationStateMismatch
            when bool_decide (prepared_operation_id prepared <> record_operation_id operation)
              || bool_decide (prepared_request_digest prepared <> record_request_digest operation)
              || bool_decide (writer_fence state <> Some (prepared_writer_fence prepared));
          Ok tt
      end
  | PhaseActive | PhaseSuperseded =>
      bail OperationStateMismatch
        when match prepared state with
             | Some prepared =>
                 bool_decide (prepared_operation_id prepared = record_operation_id operation)
                 || bool_decide (prepared_request_digest prepared = record_request_digest operation)
             | None => false
             end;
      Ok tt
  end.

(** The fence that an admitted tenure asks for. *)
Definition fence_of (verified : VerifiedWriterTenure) : WriterFence :=
  {| fence_writer := tenure_writer verified;
     fence_epoch := tenure_epoch verified;
     fence_proof_envelope_digest := tenure_proof_envelope_digest verified;
     fence_principal := tenure_principal verified |}.

Definition matching_writer_fence (state : ApplyControlState) (verified : VerifiedWriterTenure)
    : result ApplyRejection WriterFence :=
  let expected := fence_of verified in
  bail WriterFenceNotDurable when bool_decide (writer_fence state <> Some expected);
  Ok expected.

Section reducers.
Context (sha256 : list byte -> bytes32).

Definition validate_stored_slice (slice : RuntimeSliceCommitment) : result ApplyRejection unit :=
  map_err (fun error => RejContract (ContractProvenance error))
    (slice_commitment_validate sha256 slice).

Definition ensure_control_state_consistent (state : ApplyControlState)
    : result ApplyRejection unit :=
  bail OperationStateMismatch
    when bool_decide (is_Some (active state)) && bool_decide (writer_fence state = None);
  _ ← match active state with
      | Some active =>
          _ ← validate_stored_slice (active_slice active);
          bail OperationStateMismatch
            when bool_decide (slice_target (active_slice active) <> state_target state)
              || bool_decide (slice_scope (active_slice active) <> state_source_scope state);
          Ok tt
      | None => Ok tt
      end;
  match prepared state with
  | Some prepared =>
      _ ← validate_stored_slice (incoming prepared);
      bail OperationStateMismatch
        when bool_decide (slice_target (incoming prepared) <> state_target state)
          || bool_decide (slice_scope (incoming prepared) <> state_source_scope state)
          || bool_decide (writer_fence state <> Some (prepared_writer_fence prepared))
          || negb (expected_active_matches state (prepared_expected_active prepared));
      match active state with
      | Some active =>
          bail OperationStateMismatch
            when (slice_revision (incoming prepared) <=? slice_revision (active_slice active))%N;
          Ok tt
      | None => Ok tt
      end
  | None => Ok tt
  end.

Definition evaluate_writer_fence (state : ApplyControlState) (admitted : AdmittedApply)
    (reading : ClockReading) : result ApplyRejection FenceTransition :=
  let verified := tenure admitted in
  bail SourceScopeMismatch
    when bool_decide (tenure_source_scope verified <> state_source_scope state);
  _ ← ensure_control_state_consistent state;
  let next_fence := fence_of verified in
  match writer_fence state with
  | None =>
      _ ← ensure_deadline_live (deadline admitted) reading;
      Ok {| fence_next_state :=
              {| state_source_scope := state_source_scope state;
                 state_target := state_target state;
                 writer_fence := Some next_fence;
                 prepared := prepared state;
                 active := active state |};
            fence_disposition := Advanced;
            superseded_operation := None |}
  | Some current =>
      if (epoch_value (tenure_epoch verified) <? epoch_value (fence_epoch current))%N
      then Err StaleWriterEpoch
      else if (epoch_value (tenure_epoch verified) =? epoch_value (fence_epoch current))%N
      then
        bail WriterFenceConflict when bool_decide (current <> next_fence);
        _ ← (if negb (exact_replay admitted)
             then ensure_deadline_live (deadline admitted) reading else Ok tt);
        Ok {| fence_next_state := state;
              fence_disposition := Kept;
              superseded_operation := None |}
      else
        bail TenureDoesNotSupersedeFence
          when (epoch_value (tenure_supersedes_through_epoch verified)
                <? epoch_value (fence_epoch current))%N;
        _ ← ensure_deadline_live (deadline admitted) reading;
        Ok {| fence_next_state :=
                {| state_source_scope := state_source_scope state;
                   state_target := state_target state;
                   writer_fence := Some next_fence;
                   prepared := None;
                   active := active state |};
              fence_disposition := Advanced;
              superseded_operation :=
                option_map (fun prepared =>
                  {| record_source_scope := state_source_scope state;
                     record_target := state_target state;
                     record_operation_id := prepared_operation_id prepared;
                     record_request_digest := prepared_request_digest prepared;
                     phase := PhaseSuperseded |}) (prepared state) |}
  end.

Definition evaluate_prepare (state : ApplyControlState) (admitted : AdmittedApply)
    (prior_operation : option OperationRecord) (reading : ClockReading)
    : result ApplyRejection PrepareTransition :=
  _ ← map_err RejContract (control_commitment_validate sha256 (payload admitted));
  let slice := slice (payload admitted) in
  let control := control (payload admitted) in
  bail TargetMismatch when bool_decide (slice_target slice <> state_target state);
  bail SourceScopeMismatch when bool_decide (slice_scope slice <> state_source_scope state);
  _ ← ensure_control_state_consistent state;
  match prior_operation with
  | Some existing =>
      _ ← ensure_operation_belongs_to_state state existing;
      bail OperationLookupMismatch
        when bool_decide (record_operation_id existing <> operation_id control);
      bail OperationConflict
        when bool_decide (record_request_digest existing <> request_digest admitted);
      _ ← ensure_replayed_operation_consistent state existing;
      Ok {| prepare_next_state := state;
            prepare_operation := existing;
            prepare_disposition := PrepareReplayed (phase existing) |}
  | None =>
      _ ← ensure_deadline_live (deadline admitted) reading;
      fence ← matching_writer_fence state (tenure admitted);
      _ ← ensure_expected_active state (expected_active control);
      _ ← ensure_revision_advances state slice;
      bail PrepareInProgress when bool_decide (is_Some (prepared state));
      let new_prepared :=
        {| prepared_operation_id := operation_id control;
           prepared_request_digest := request_digest admitted;
           incoming := slice;
           prepared_expected_active := expected_active control;
           prepared_writer_fence := fence;
           prepared_deadline := deadline admitted;
           stage := ControlAccepted |} in
      Ok {| prepare_next_state :=
              {| state_source_scope := state_source_scope state;
                 state_target := state_target state;
                 writer_fence := writer_fence state;
                 prepared := Some new_prepared;
                 active := active state |};
            prepare_operation :=
              {| record_source_scope := state_source_scope state;
                 record_target := state_target state;
                 record_operation_id := prepared_operation_id new_prepared;
                 record_request_digest := prepared_request_digest new_prepared;
                 phase := PhasePrepared |};
            prepare_disposition := Prepared |}
  end.

Definition evaluate_activate (state : ApplyControlState) (operation : OperationRecord)
    (ready : PreparationReadyFact) (reading : ClockReading)
    : result ApplyRejection ActivateTransition :=
  _ ← ensure_operation_belongs_to_state state operation;
  _ ← ensure_control_state_consistent state;
  _ ← ensure_replayed_operation_consistent state operation;
  match phase operation with
  | PhaseSuperseded => Err OperationSuperseded
  | PhaseActive =>
      Ok {| activate_next_state := state;
            activate_operation := operation;
            activate_disposition := ActivateReplayed |}
  | PhasePrepared =>
      match prepared state with
      | None => Err OperationStateMismatch
      | Some prepared =>
          _ ← ensure_deadline_live (prepared_deadline prepared) reading;
          bail OperationStateMismatch
            when bool_decide (prepared_operation_id prepared <> record_operation_id operation)
              || bool_decide (prepared_request_digest prepared <> record_request_digest operation);
          bail ReadinessMismatch
            when bool_decide (ready_operation_id ready <> record_operation_id operation)
              || bool_decide (ready_request_digest ready <> record_request_digest operation);
          Ok {| activate_next_state :=
                  {| state_source_scope := state_source_scope state;
                     state_target := state_target state;
                     writer_fence := writer_fence state;
                     prepared := None;
                     active := Some (MkActiveControl (incoming prepared)) |};
                activate_operation :=
                  {| record_source_scope := state_source_scope state;
                     record_target := state_target state;
                     record_operation_id := record_operation_id operation;
                     record_request_digest := record_request_digest operation;
                     phase := PhaseActive |};
                activate_disposition := Activated |}
      end
  end.
End reducers.
