(* ===== verification/ApplyControl.v ===== *)
(** * Writer fence and apply control: journals and theorems

    The reducers of ApplyState are run against a journal the way their results
    are meant to be persisted: the next state and the operation record of one
    transition in one atomic write.  The theorems say what they guarantee over
    every sequence of calls against a journal that starts empty. *)

From S2P Require Import Prelude KernelTime KernelDigest ApplyContracts ApplyState.
Open Scope rust_scope.

(** ** The journal the reducers write to

    One row per operation id.  A transition is persisted atomically with its
    operation record; a superseded operation is updated conditionally, from
    the exact [Prepared] row it had. *)

Record Journal := MkJournal {
  journal_state : ApplyControlState;
  journal_operations : gmap ApplyOperationId OperationRecord;
}.

Inductive ApplyCall :=
| CallFence (admitted : AdmittedApply) (reading : ClockReading)
| CallPrepare (admitted : AdmittedApply) (reading : ClockReading)
| CallActivate (id : ApplyOperationId) (ready : PreparationReadyFact) (reading : ClockReading).

Definition call_operation (a : AdmittedApply) : ApplyOperationId :=
  operation_id (control (payload a)).

(** The row a superseded operation must have had. *)
Definition prepared_row (r : OperationRecord) : OperationRecord :=
  {| record_source_scope := record_source_scope r;
     record_target := record_target r;
     record_operation_id := record_operation_id r;
     record_request_digest := record_request_digest r;
     phase := PhasePrepared |}.

Section journal.
Context (sha256 : list byte -> bytes32).

Definition journal_apply (j : Journal) (call : ApplyCall) : result ApplyRejection Journal :=
  let ops := journal_operations j in
  match call with
  | CallFence a reading =>
      t ← evaluate_writer_fence sha256 (journal_state j) a reading;
      match superseded_operation t with
      | None => Ok (MkJournal (fence_next_state t) ops)
      | Some r =>
          bail OperationStateMismatch
            when bool_decide (ops !! record_operation_id r <> Some (prepared_row r));
          Ok (MkJournal (fence_next_state t) (<[record_operation_id r := r]> ops))
      end
  | CallPrepare a reading =>
      t ← evaluate_prepare sha256 (journal_state j) a (ops !! call_operation a) reading;
      Ok (MkJournal (prepare_next_state t) (<[call_operation a := prepare_operation t]> ops))
  | CallActivate id ready reading =>
      operation ← ok_or (ops !! id) OperationLookupMismatch;
      t ← evaluate_activate sha256 (journal_state j) operation ready reading;
      Ok (MkJournal (activate_next_state t) (<[id := activate_operation t]> ops))
  end.

(** A rejected call persists nothing. *)
Definition journal_step (j : Journal) (call : ApplyCall) : Journal :=
  match journal_apply j call with Ok j' => j' | _ => j end.
Definition journal_run (j : Journal) (calls : list ApplyCall) : Journal :=
  fold_left journal_step calls j.
Definition journal_new (scope : SourceScopeRef) (host : RuntimeHostId) : Journal :=
  MkJournal (control_state_new scope host) ∅.
Definition journal_reachable (j : Journal) : Prop :=
  exists scope host calls, j = journal_run (journal_new scope host) calls.

(** ** Consistent control state *)

Definition slice_fits (st : ApplyControlState) (s : RuntimeSliceCommitment) : Prop :=
  slice_commitment_validate sha256 s = Ok tt /\
  slice_target s = state_target st /\ slice_scope s = state_source_scope st.

Definition revision_above (st : ApplyControlState) (s : RuntimeSliceCommitment) : Prop :=
  match active st with
  | Some a => (slice_revision (active_slice a) < slice_revision s)%N
  | None => True
  end.

Definition prepared_ok (st : ApplyControlState) (p : PreparedControl) : Prop :=
  slice_fits st (incoming p) /\ writer_fence st = Some (prepared_writer_fence p) /\
  expected_active_matches st (prepared_expected_active p) = true /\
  revision_above st (incoming p).

Record consistent (st : ApplyControlState) : Prop := {
  con_active : forall a, active st = Some a -> is_Some (writer_fence st) /\ slice_fits st (active_slice a);
  con_prepared : forall p, prepared st = Some p -> prepared_ok st p;
}.

Lemma validate_stored_slice_Ok s u :
  validate_stored_slice sha256 s = Ok u <-> slice_commitment_validate sha256 s = Ok tt.
Proof. unfold validate_stored_slice. rewrite map_err_Ok. by destruct u. Qed.

Lemma ensure_control_state_consistent_Ok st u :
  ensure_control_state_consistent sha256 st = Ok u <-> consistent st.
Proof.
  unfold ensure_control_state_consistent.
  split.
  - intros H. rust_inv. split.
    + intros a Ha. rewrite Ha in *. rust_inv.
      repeat match goal with H : validate_stored_slice _ _ = Ok _ |- _ =>
        apply validate_stored_slice_Ok in H end.
      destruct (writer_fence st) eqn:Ef; [|simpl in *; discriminate].
      repeat match goal with H : ~ (_ <> _) |- _ => apply dec_stable in H end. done.
    + intros p Hp. rewrite Hp in *. rust_inv.
      repeat match goal with H : validate_stored_slice _ (incoming p) = Ok _ |- _ =>
        apply validate_stored_slice_Ok in H end.
      repeat match goal with H : ~ (_ <> _) |- _ => apply dec_stable in H end.
      unfold prepared_ok, slice_fits, revision_above.
      destruct (active st); rust_inv; split_and!; done || lia.
  - intros [Ha Hp]. destruct u. apply bind_Ok. exists tt. split; [|apply bind_Ok; exists tt; split].
    + apply fail_if_Ok, andb_false_iff. destruct (active st) as [a|] eqn:Ea; [right|left; done].
      destruct (Ha a eq_refl) as [[f Hf] _]. apply bool_decide_eq_false. congruence.
    + destruct (active st) as [a|]; [|done]. destruct (Ha a eq_refl) as [_ (Hv & Ht & Hs)].
      rewrite (proj2 (validate_stored_slice_Ok _ tt)) by done. simpl.
      rewrite !bool_decide_eq_false_2 by tauto. done.
    + destruct (prepared st) as [p|]; [|done].
      destruct (Hp p eq_refl) as ((Hv & Ht & Hs) & Hf & He & Hr).
      rewrite (proj2 (validate_stored_slice_Ok _ tt)) by done. simpl.
      rewrite !bool_decide_eq_false_2 by tauto. rewrite He. simpl.
      unfold revision_above in Hr. destruct (active st); [|done].
      by rewrite (proj2 (N.leb_gt _ _)).
Qed.

(** ** What each check accepts *)

Definition live (d : MonotonicDeadline) (r : ClockReading) : Prop :=
  compatible d r /\ (now_value r < deadline_value d)%N.

Lemma ensure_deadline_live_Ok d r : ensure_deadline_live d r = Ok tt <-> live d r.
Proof.
  unfold ensure_deadline_live, live. rewrite bind_Ok. setoid_rewrite map_err_Ok.
  setoid_rewrite is_expired_at_Ok. split.
  - intros (b & [Hc ->] & H). rust_inv. done.
  - intros [Hc Hlt]. eexists. split; [done|]. by rewrite (proj2 (N.leb_gt _ _)).
Qed.
Lemma ensure_expected_active_Ok st e :
  ensure_expected_active st e = Ok tt <-> expected_active_matches st e = true.
Proof. unfold ensure_expected_active. destruct (expected_active_matches st e); simpl; naive_solver. Qed.
Lemma ensure_revision_advances_Ok st s :
  ensure_revision_advances st s = Ok tt <-> revision_above st s.
Proof.
  unfold ensure_revision_advances, revision_above. destruct (active st); [|done].
  rewrite bind_unit_Ok, fail_if_Ok, N.leb_gt. naive_solver.
Qed.
Definition belongs (st : ApplyControlState) (r : OperationRecord) : Prop :=
  record_source_scope r = state_source_scope st /\ record_target r = state_target st.
Lemma ensure_operation_belongs_to_state_Ok st r :
  ensure_operation_belongs_to_state st r = Ok tt <-> belongs st r.
Proof.
  unfold ensure_operation_belongs_to_state. rewrite !bind_unit_Ok, !fail_unless_Ok.
  unfold belongs. naive_solver.
Qed.

(** The row and the control state describe one snapshot. *)
Definition replay_ok (st : ApplyControlState) (r : OperationRecord) : Prop :=
  match phase r with
  | PhasePrepared =>
      exists p, prepared st = Some p /\ prepared_operation_id p = record_operation_id r /\
        prepared_request_digest p = record_request_digest r /\
        writer_fence st = Some (prepared_writer_fence p)
  | _ =>
      forall p, prepared st = Some p -> prepared_operation_id p <> record_operation_id r /\
        prepared_request_digest p <> record_request_digest r
  end.
Lemma ensure_replayed_operation_consistent_Ok st r :
  ensure_replayed_operation_consistent st r = Ok tt <-> replay_ok st r.
Proof.
  unfold ensure_replayed_operation_consistent, replay_ok.
  destruct (phase r), (prepared st) as [p|]; cbv iota;
    rewrite ?bind_unit_Ok, ?fail_if_Ok, ?orb_false_iff, ?bool_decide_eq_false.
  2,4,6: naive_solver. 2,3: split; [intros ([? ?] & _) q [= <-]; done|intros H; by split; [apply H|]].
  split.
  - intros ([[H1 H2] H3] & _). exists p. apply dec_stable in H1, H2, H3. done.
  - intros (? & [= <-] & -> & -> & ->). naive_solver.
Qed.
Lemma matching_writer_fence_Ok st v f :
  matching_writer_fence st v = Ok f <-> writer_fence st = Some (fence_of v) /\ f = fence_of v.
Proof.
  unfold matching_writer_fence. rewrite bind_unit_Ok, fail_unless_Ok. naive_solver.
Qed.

Lemma bind_writer_fence {B : Type} st v (k : WriterFence -> result ApplyRejection B) b :
  (f ← matching_writer_fence st v; k f) = Ok b <->
  writer_fence st = Some (fence_of v) /\ k (fence_of v) = Ok b.
Proof. rewrite bind_Ok. setoid_rewrite matching_writer_fence_Ok. naive_solver. Qed.

(** ** Outcomes of the reducers *)

Definition with_fence (st : ApplyControlState) (f : WriterFence) (p : option PreparedControl)
    : ApplyControlState :=
  MkApplyControlState (state_source_scope st) (state_target st) (Some f) p (active st).
Definition supersede (st : ApplyControlState) (p : PreparedControl) : OperationRecord :=
  MkOperationRecord (state_source_scope st) (state_target st) (prepared_operation_id p)
    (prepared_request_digest p) PhaseSuperseded.

Inductive fence_outcome (st : ApplyControlState) (v : VerifiedWriterTenure) : FenceTransition -> Prop :=
| fence_first :
    writer_fence st = None ->
    fence_outcome st v
      (MkFenceTransition (with_fence st (fence_of v) (prepared st)) Advanced None)
| fence_kept :
    writer_fence st = Some (fence_of v) -> fence_outcome st v (MkFenceTransition st Kept None)
| fence_advanced current :
    writer_fence st = Some current ->
    (epoch_value (fence_epoch current) < epoch_value (tenure_epoch v))%N ->
    (epoch_value (fence_epoch current) <= epoch_value (tenure_supersedes_through_epoch v))%N ->
    fence_outcome st v
      (MkFenceTransition (with_fence st (fence_of v) None) Advanced
         (option_map (supersede st) (prepared st))).

Lemma evaluate_writer_fence_Ok st a r t :
  evaluate_writer_fence sha256 st a r = Ok t ->
  consistent st /\ tenure_source_scope (tenure a) = state_source_scope st /\
  fence_outcome st (tenure a) t.
Proof.
  unfold evaluate_writer_fence. cbv zeta. split_checks. rewrite fail_unless_Ok.
  intros (Hs & Hc & H). apply ensure_control_state_consistent_Ok in Hc.
  split_and!; [done..|]. destruct (writer_fence st) as [current|] eqn:Ef.
  - destruct (N.ltb_spec (epoch_value (tenure_epoch (tenure a)))
                (epoch_value (fence_epoch current))); [done|].
    destruct (N.eqb_spec (epoch_value (tenure_epoch (tenure a)))
                (epoch_value (fence_epoch current))).
    + rewrite !bind_unit_Ok, fail_unless_Ok in H. destruct H as (-> & _ & [= <-]).
      by apply fence_kept.
    + rewrite !bind_unit_Ok, fail_if_Ok, N.ltb_ge in H. destruct H as (? & _ & [= <-]).
      eapply fence_advanced; [done|lia|done].
  - rewrite bind_unit_Ok in H. destruct H as (_ & [= <-]). by apply fence_first.
Qed.

Lemma ensure_deadline_live_Err d r e :
  ensure_deadline_live d r = Err e -> e = DeadlineExpired \/ exists e', e = RejTime e'.
Proof.
  unfold ensure_deadline_live. intros [H|(b & _ & H)]%bind_Err.
  - apply map_err_Err in H as (e' & _ & ->). eauto.
  - destruct b; [|done]. injection H as <-. auto.
Qed.
Lemma evaluate_writer_fence_no_mismatch st a r :
  consistent st -> evaluate_writer_fence sha256 st a r <> Err OperationStateMismatch.
Proof.
  intros Hc. unfold evaluate_writer_fence. cbv zeta.
  rewrite (proj2 (ensure_control_state_consistent_Ok st tt) Hc).
  assert (forall k : result ApplyRejection FenceTransition, k <> Err OperationStateMismatch ->
    (_ ← ensure_deadline_live (deadline a) r; k) <> Err OperationStateMismatch) as Hd.
  { intros k Hk [H|(u & _ & H)]%bind_Err; [|done].
    apply ensure_deadline_live_Err in H as [H|[e H]]; done. }
  case_bool_decide; [done|]. simpl. destruct (writer_fence st) as [cur|]; [|by apply Hd].
  destruct (_ <? _)%N; [done|]. destruct (_ =? _)%N; simpl.
  - case_bool_decide; [done|]. simpl. destruct (exact_replay a); [done|by apply Hd].
  - destruct (_ <? _)%N; [done|]. simpl. by apply Hd.
Qed.

Definition admitted_slice (a : AdmittedApply) : RuntimeSliceCommitment := slice (payload a).
Definition admitted_expected (a : AdmittedApply) : ExpectedActive :=
  expected_active (control (payload a)).

(** What every prepare asks of the request and the state. *)
Definition prepare_checks (st : ApplyControlState) (a : AdmittedApply) : Prop :=
  control_commitment_validate sha256 (payload a) = Ok tt /\
  slice_target (admitted_slice a) = state_target st /\
  slice_scope (admitted_slice a) = state_source_scope st /\ consistent st.

Definition new_prepared (a : AdmittedApply) : PreparedControl :=
  MkPreparedControl (call_operation a) (request_digest a) (admitted_slice a)
    (admitted_expected a) (fence_of (tenure a)) (deadline a) ControlAccepted.
Definition with_prepared (st : ApplyControlState) (p : PreparedControl) : ApplyControlState :=
  MkApplyControlState (state_source_scope st) (state_target st) (writer_fence st) (Some p)
    (active st).
Definition row_of (st : ApplyControlState) (p : PreparedControl) (ph : OperationPhase)
    : OperationRecord :=
  MkOperationRecord (state_source_scope st) (state_target st) (prepared_operation_id p)
    (prepared_request_digest p) ph.

(** What a new operation needs. *)
Definition prepare_guard (st : ApplyControlState) (a : AdmittedApply) (r : ClockReading) : Prop :=
  live (deadline a) r /\ writer_fence st = Some (fence_of (tenure a)) /\
  expected_active_matches st (admitted_expected a) = true /\
  revision_above st (admitted_slice a) /\ prepared st = None.

Lemma evaluate_prepare_new st a r t :
  evaluate_prepare sha256 st a None r = Ok t <->
  prepare_checks st a /\ prepare_guard st a r /\
  t = MkPrepareTransition (with_prepared st (new_prepared a))
        (row_of st (new_prepared a) PhasePrepared) Prepared.
Proof.
  unfold evaluate_prepare. cbv zeta.
  split_checks. rewrite bind_writer_fence. split_checks.
  rewrite !fail_unless_Ok, map_err_Ok, ensure_control_state_consistent_Ok,
    ensure_deadline_live_Ok, ensure_expected_active_Ok, ensure_revision_advances_Ok, fail_if_Ok,
    bool_decide_eq_false, <-eq_None_not_Some.
  unfold prepare_checks, prepare_guard. split.
  - intros (? & ? & ? & ? & ? & ? & ? & ? & ? & [= <-]). done.
  - intros ((? & ? & ? & ?) & (? & ? & ? & ? & ?) & ->). done.
Qed.
Lemma evaluate_prepare_replay st a e r t :
  evaluate_prepare sha256 st a (Some e) r = Ok t <->
  prepare_checks st a /\ belongs st e /\ record_operation_id e = call_operation a /\
  record_request_digest e = request_digest a /\ replay_ok st e /\
  t = MkPrepareTransition st e (PrepareReplayed (phase e)).
Proof.
  unfold evaluate_prepare. cbv zeta.
  split_checks. rewrite !fail_unless_Ok, map_err_Ok, ensure_control_state_consistent_Ok,
    ensure_operation_belongs_to_state_Ok, ensure_replayed_operation_consistent_Ok.
  unfold prepare_checks, call_operation, admitted_slice. naive_solver.
Qed.

Definition with_active (st : ApplyControlState) (s : RuntimeSliceCommitment) : ApplyControlState :=
  MkApplyControlState (state_source_scope st) (state_target st) (writer_fence st) None
    (Some (MkActiveControl s)).
Definition activated_row (st : ApplyControlState) (o : OperationRecord) : OperationRecord :=
  MkOperationRecord (state_source_scope st) (state_target st) (record_operation_id o)
    (record_request_digest o) PhaseActive.

(** What the first activation of a prepared operation needs. *)
Definition activate_guard (st : ApplyControlState) (o : OperationRecord) (p : PreparedControl)
    (ready : PreparationReadyFact) (r : ClockReading) : Prop :=
  prepared st = Some p /\ live (prepared_deadline p) r /\
  prepared_operation_id p = record_operation_id o /\
  prepared_request_digest p = record_request_digest o /\
  ready_operation_id ready = record_operation_id o /\
  ready_request_digest ready = record_request_digest o.

Lemma evaluate_activate_Ok st o ready r t :
  evaluate_activate sha256 st o ready r = Ok t <->
  belongs st o /\ consistent st /\ replay_ok st o /\
  match phase o with
  | PhaseSuperseded => False
  | PhaseActive => t = MkActivateTransition st o ActivateReplayed
  | PhasePrepared =>
      exists p, activate_guard st o p ready r /\
        t = MkActivateTransition (with_active st (incoming p)) (activated_row st o) Activated
  end.
Proof.
  unfold evaluate_activate. split_checks. rewrite ensure_operation_belongs_to_state_Ok,
    ensure_control_state_consistent_Ok, ensure_replayed_operation_consistent_Ok.
  destruct (phase o); [|naive_solver..].
  destruct (prepared st) as [p|] eqn:Ep; unfold activate_guard; [|naive_solver].
  split_checks. rewrite ensure_deadline_live_Ok, !fail_if_Ok, !orb_false_iff, !bool_decide_eq_false.
  split.
  - intros (? & ? & ? & ? & [H1 H2] & [H3 H4] & [= <-]). apply dec_stable in H1, H2, H3, H4.
    split_and!; try done. exists p. done.
  - intros (? & ? & ? & p' & (Hp & ? & ? & ? & ? & ?) & ->).
    rewrite Ep in Hp. injection Hp as <-. tauto.
Qed.

(** ** The journal invariant *)

(** The control state is consistent, rows are filed under their own id and
    belong to this scope and target, and the one [Prepared] row is the row of
    the operation the control state has prepared. *)
Record journal_inv (j : Journal) : Prop := {
  jinv_consistent : consistent (journal_state j);
  jinv_row : forall id r, journal_operations j !! id = Some r ->
    record_operation_id r = id /\ belongs (journal_state j) r;
  jinv_prepared : forall p, prepared (journal_state j) = Some p ->
    journal_operations j !! prepared_operation_id p =
      Some (row_of (journal_state j) p PhasePrepared);
  jinv_prepared_row : forall id r, journal_operations j !! id = Some r ->
    phase r = PhasePrepared ->
    exists p, prepared (journal_state j) = Some p /\ prepared_operation_id p = id;
}.

(** What an accepted call does to a journal. *)
Inductive journal_move (j : Journal) : Journal -> Prop :=
| move_none : journal_move j j
| move_first_fence v :
    writer_fence (journal_state j) = None ->
    tenure_source_scope v = state_source_scope (journal_state j) ->
    journal_move j
      (MkJournal (with_fence (journal_state j) (fence_of v) (prepared (journal_state j)))
         (journal_operations j))
| move_fence v current :
    writer_fence (journal_state j) = Some current ->
    tenure_source_scope v = state_source_scope (journal_state j) ->
    (epoch_value (fence_epoch current) < epoch_value (tenure_epoch v))%N ->
    (epoch_value (fence_epoch current) <= epoch_value (tenure_supersedes_through_epoch v))%N ->
    journal_move j
      (MkJournal (with_fence (journal_state j) (fence_of v) None)
         (match prepared (journal_state j) with
          | Some p => <[prepared_operation_id p := supersede (journal_state j) p]>
                        (journal_operations j)
          | None => journal_operations j
          end))
| move_prepare a reading :
    journal_operations j !! call_operation a = None ->
    prepare_checks (journal_state j) a ->
    prepare_guard (journal_state j) a reading ->
    journal_move j
      (MkJournal (with_prepared (journal_state j) (new_prepared a))
         (<[call_operation a := row_of (journal_state j) (new_prepared a) PhasePrepared]>
            (journal_operations j)))
| move_activate o p ready reading :
    journal_operations j !! record_operation_id o = Some o ->
    phase o = PhasePrepared ->
    activate_guard (journal_state j) o p ready reading ->
    journal_move j
      (MkJournal (with_active (journal_state j) (incoming p))
         (<[record_operation_id o := activated_row (journal_state j) o]> (journal_operations j))).

Lemma journal_eta j : MkJournal (journal_state j) (journal_operations j) = j.
Proof. by destruct j. Qed.

Lemma journal_apply_move j call j' :
  journal_inv j -> journal_apply j call = Ok j' -> journal_move j j'.
Proof.
  intros Hj H. unfold journal_apply in H. destruct call as [a r|a r|id ready r].
  - apply bind_Ok in H as (t & Ht & H).
    apply evaluate_writer_fence_Ok in Ht as (_ & Hscope & Ht).
    destruct Ht as [Hn|Hk|cur Hc Hlt Hsup]; simpl in H.
    + injection H as <-. by apply move_first_fence.
    + injection H as <-. rewrite journal_eta. apply move_none.
    + pose proof (move_fence j (tenure a) cur Hc Hscope Hlt Hsup) as Hm.
      destruct (prepared (journal_state j)) as [p|]; simpl in H; [|by injection H as <-].
      apply bind_unit_Ok in H as [_ H]. by injection H as <-.
  - destruct (journal_operations j !! call_operation a) as [e|] eqn:Ee;
      apply bind_Ok in H as (t & Ht & H).
    + apply evaluate_prepare_replay in Ht as (_ & _ & _ & _ & _ & ->). injection H as <-.
      simpl. rewrite insert_id by done. rewrite journal_eta. apply move_none.
    + apply evaluate_prepare_new in Ht as (? & ? & ->). injection H as <-. by eapply move_prepare.
  - apply bind_Ok in H as (o & Ho & H). apply ok_or_Ok in Ho.
    pose proof (jinv_row j Hj id o Ho) as [<- _].
    apply bind_Ok in H as (t & Ht & H). apply evaluate_activate_Ok in Ht as (_ & _ & _ & Ht).
    destruct (phase o) eqn:Eo; [|subst t|done].
    + destruct Ht as (p & Hg & ->). injection H as <-. by eapply move_activate.
    + injection H as <-. simpl. rewrite insert_id by done. rewrite journal_eta. apply move_none.
Qed.

Lemma journal_move_inv j j' : journal_inv j -> journal_move j j' -> journal_inv j'.
Proof.
  intros [Hcon Hrow Hprep Hprow] Hm.
  destruct Hm as [|v Hn Hscope|v cur Hc Hscope Hlt Hsup|a r Hno Hchk Hg|o p ready r Ho Hph Hg].
  - by split.
  - assert (prepared (journal_state j) = None) as Hpn.
    { destruct (prepared (journal_state j)) as [p|] eqn:Ep; [|done].
      destruct (con_prepared _ Hcon p Ep) as (_ & Hf & _). congruence. }
    split; simpl; [|done..]. split; simpl; [|intros p; congruence].
    intros a Ha. destruct (con_active _ Hcon a Ha) as [[? ?] _]. congruence.
  - split; simpl.
    + split; simpl; [|done]. intros a Ha. destruct (con_active _ Hcon a Ha). by split.
    + intros id r. destruct (prepared (journal_state j)) as [p|] eqn:Ep; [|apply Hrow].
      rewrite lookup_insert_Some. intros [[<- <-]|[_ H]]; [done|by apply Hrow].
    + done.
    + intros id r. destruct (prepared (journal_state j)) as [p|] eqn:Ep.
      * rewrite lookup_insert_Some. intros [[<- <-]|[Hne H]] Hp; [done|].
        destruct (Hprow id r H Hp) as (p' & Hp' & Hid). congruence.
      * intros H Hp. destruct (Hprow id r H Hp) as (p' & Hp' & Hid). done.
  - destruct Hchk as (Hval & Ht & Hs & _), Hg as (_ & Hf & He & Hrev & Hpn).
    apply control_commitment_validate_Ok in Hval as (Hsv & _ & _).
    split; simpl.
    + split; simpl; [intros b Hb; destruct (con_active _ Hcon b Hb); by split|].
      intros ? [= <-]. by split_and!.
    + intros id r'. rewrite lookup_insert_Some. intros [[<- <-]|[_ H]]; [done|by apply Hrow].
    + intros ? [= <-]. apply lookup_insert_eq.
    + intros id r'. rewrite lookup_insert_Some. intros [[<- <-]|[_ H]] Hp; [by eexists|].
      destruct (Hprow id r' H Hp) as (p' & Hp' & Hid). congruence.
  - destruct Hg as (Hp & _ & Hid & _). destruct (con_prepared _ Hcon p Hp) as (Hfit & Hf & _).
    split; simpl.
    + split; simpl; [|done]. intros ? [= <-]. split; [by eexists|done].
    + intros id r'. rewrite lookup_insert_Some. intros [[<- <-]|[_ H]]; [done|by apply Hrow].
    + done.
    + intros id r'. rewrite lookup_insert_Some. intros [[<- <-]|[Hne H]] Hph'; [done|].
      destruct (Hprow id r' H Hph') as (p' & Hp' & Hid'). congruence.
Qed.

Lemma journal_new_inv scope host : journal_inv (journal_new scope host).
Proof. split; simpl; [split; done|intros *; rewrite lookup_empty; done|done|
  intros *; rewrite lookup_empty; done]. Qed.

(** A property of moves that is reflexive and transitive holds of runs. *)
Lemma journal_run_ind (R : Journal -> Journal -> Prop) :
  (forall j, R j j) -> (forall a b c, R a b -> R b c -> R a c) ->
  (forall j j', journal_inv j -> journal_move j j' -> R j j') ->
  forall calls j, journal_inv j ->
    journal_inv (journal_run j calls) /\ R j (journal_run j calls).
Proof.
  intros Hrefl Htrans Hmove calls. induction calls as [|c calls IH]; intros j Hj; [done|].
  change (journal_run j (c :: calls)) with (journal_run (journal_step j c) calls).
  unfold journal_step.
  destruct (journal_apply j c) as [j1| |] eqn:Ea; [|by apply IH..].
  apply journal_apply_move in Ea; [|done].
  destruct (IH j1 (journal_move_inv j j1 Hj Ea)) as [Hi Hr]. split; [done|]. eauto.
Qed.
Lemma journal_run_inv calls j : journal_inv j -> journal_inv (journal_run j calls).
Proof.
  intros Hj. by destruct (journal_run_ind (fun _ _ => True) (fun _ => I) (fun _ _ _ _ _ => I)
    (fun _ _ _ _ => I) calls j Hj).
Qed.
Lemma journal_reachable_inv j : journal_reachable j -> journal_inv j.
Proof. intros (scope & host & calls & ->). apply journal_run_inv, journal_new_inv. Qed.
End journal.

(** ** Concrete journals *)

Module ApplyDemo.
Import ContractDemo.
Definition clock (now : N) : ClockReading :=
  MkClockReading (MkClockDomainRef (ref 11)) (MkClockGeneration 1) (from_ticks now).
Definition due (at_ : N) : MonotonicDeadline :=
  MkMonotonicDeadline (MkClockDomainRef (ref 11)) (MkClockGeneration 1) (from_ticks at_).
Definition tenure_of (c : RuntimeApplyControlCommitment) : VerifiedWriterTenure :=
  let context := writer_context (control c) in
  let claim := proof_claim (context_proof context) in
  MkVerifiedWriterTenure (claim_source_scope claim) (context_writer context)
    (context_epoch context) (claim_supersedes_through_epoch claim)
    (match envelope_digest toy_hash (context_proof context) with Ok d => d | _ => zero_digest end)
    (MkPrincipalRef (ref 12)).
Definition admit_commitment (c : RuntimeApplyControlCommitment) (replay : bool) : AdmittedApply :=
  MkAdmittedApply c (tenure_of c) (commitment_digest c) (due 100) replay.

Definition first : AdmittedApply :=
  Eval vm_compute in admit_commitment (request 7 8 2 1 20 ExpectNone) false.
Definition second : AdmittedApply :=
  Eval vm_compute in
    admit_commitment (request 9 8 2 1 21 (ExpectExact (target_slice_digest (commit 7)))) false.
Definition newer_writer : AdmittedApply :=
  Eval vm_compute in
    admit_commitment (request 9 13 3 2 22 (ExpectExact (target_slice_digest (commit 7)))) false.
Definition ready_for (a : AdmittedApply) : PreparationReadyFact :=
  MkPreparationReadyFact (call_operation a) (request_digest a).

Definition start : Journal :=
  journal_new (MkSourceScopeRef (ref 2)) (MkRuntimeHostId (ref 1)).
Definition preparing : list ApplyCall := [CallFence first (clock 1); CallPrepare first (clock 2)].
Definition activating : list ApplyCall := [CallActivate (call_operation first) (ready_for first) (clock 3)].
Definition turnover : list ApplyCall :=
  [CallFence second (clock 4); CallPrepare second (clock 5); CallFence newer_writer (clock 6)].
Definition prepared_journal : Journal := journal_run toy_hash start preparing.
Definition active_journal : Journal := journal_run toy_hash start (preparing ++ activating).
Definition turned_journal : Journal :=
  journal_run toy_hash start (preparing ++ activating ++ turnover).
Lemma prepared_journal_reachable : journal_reachable toy_hash prepared_journal.
Proof. exists (MkSourceScopeRef (ref 2)), (MkRuntimeHostId (ref 1)), preparing. reflexivity. Defined.
Lemma active_journal_reachable : journal_reachable toy_hash active_journal.
Proof. exists (MkSourceScopeRef (ref 2)), (MkRuntimeHostId (ref 1)), (preparing ++ activating). reflexivity. Defined.
Lemma turned_journal_reachable : journal_reachable toy_hash turned_journal.
Proof. exists (MkSourceScopeRef (ref 2)), (MkRuntimeHostId (ref 1)), (preparing ++ activating ++ turnover). reflexivity. Defined.
End ApplyDemo.

Section properties.
Context (sha256 : list byte -> bytes32).

(** ** Moves and what they preserve *)

Lemma move_fence_monotone j j' :
  journal_move sha256 j j' -> forall f, writer_fence (journal_state j) = Some f ->
  exists f', writer_fence (journal_state j') = Some f' /\
    (f' = f \/ (epoch_value (fence_epoch f) < epoch_value (fence_epoch f'))%N).
Proof.
  intros Hm f Hf. destruct Hm; simpl; try (exists f; by auto); [congruence|].
  assert (current = f) as -> by congruence. eexists. split; [done|]. by right.
Qed.
Lemma move_active_monotone j j' :
  journal_inv sha256 j -> journal_move sha256 j j' ->
  forall a, active (journal_state j) = Some a ->
  exists a', active (journal_state j') = Some a' /\
    (a' = a \/ (slice_revision (active_slice a) < slice_revision (active_slice a'))%N).
Proof.
  intros Hj Hm a Ha. destruct Hm as [| | | |o p ready r Ho Hph Hg]; simpl; try (exists a; by auto).
  destruct Hg as (Hp & _). eexists. split; [done|]. right.
  destruct (con_prepared _ _ (jinv_consistent _ _ Hj) p Hp) as (_ & _ & _ & Hr).
  unfold revision_above in Hr. by rewrite Ha in Hr.
Qed.
Lemma move_finished_row j j' :
  journal_inv sha256 j -> journal_move sha256 j j' ->
  forall id r, journal_operations j !! id = Some r -> phase r <> PhasePrepared ->
  journal_operations j' !! id = Some r.
Proof.
  intros Hj Hm id r Hr Hph. destruct Hm as [|v Hn|v cur Hc|a rd Hno|o p ready rd Ho Ho2 Hg]; simpl.
  - done.
  - done.
  - destruct (prepared (journal_state j)) as [p|] eqn:Ep; [|done].
    pose proof (jinv_prepared _ _ Hj p Ep) as Hp.
    rewrite lookup_insert_ne; [done|]. intros <-. rewrite Hp in Hr. injection Hr as <-. by apply Hph.
  - rewrite lookup_insert_ne; [done|]. intros <-. congruence.
  - rewrite lookup_insert_ne; [done|]. intros <-. rewrite Ho in Hr. injection Hr as <-. done.
Qed.
Lemma move_keeps_rows j j' id r :
  journal_inv sha256 j -> journal_move sha256 j j' -> journal_operations j !! id = Some r ->
  exists r', journal_operations j' !! id = Some r' /\
    record_request_digest r' = record_request_digest r.
Proof.
  intros Hj Hm Hr. destruct (decide (phase r = PhasePrepared)) as [Hph|Hph].
  2: { exists r. split; [by eapply move_finished_row|done]. }
  destruct (jinv_prepared_row _ _ Hj id r Hr Hph) as (p & Hp & <-).
  pose proof (jinv_prepared _ _ Hj p Hp) as Hrow.
  destruct Hm as [|v Hn|v cur Hc|a rd Hno Hchk Hg|o q ready rd Ho Ho2 Hg]; simpl.
  - by exists r.
  - by exists r.
  - rewrite Hp, lookup_insert_eq. rewrite Hrow in Hr. injection Hr as <-. eexists; by split.
  - destruct Hg as (_ & _ & _ & _ & ?). congruence.
  - destruct Hg as (Hq & _ & Hid & _). assert (q = p) as -> by congruence.
    rewrite <-Hid, lookup_insert_eq. eexists. split; [done|]. simpl. congruence.
Qed.

(** ** Runs *)

Lemma scope_run calls j :
  journal_inv sha256 j ->
  state_source_scope (journal_state (journal_run sha256 j calls)) =
  state_source_scope (journal_state j).
Proof.
  intros Hj. apply (journal_run_ind sha256 (fun j j' =>
    state_source_scope (journal_state j') = state_source_scope (journal_state j))); try done.
  - intros a b c H1 H2. congruence.
  - intros ? ? _ Hm. by destruct Hm.
Qed.
Lemma fence_monotone_run calls j :
  journal_inv sha256 j -> forall f, writer_fence (journal_state j) = Some f ->
  exists f', writer_fence (journal_state (journal_run sha256 j calls)) = Some f' /\
    (f' = f \/ (epoch_value (fence_epoch f) < epoch_value (fence_epoch f'))%N).
Proof.
  intros Hj. apply (journal_run_ind sha256 (fun j j' => forall f,
    writer_fence (journal_state j) = Some f ->
    exists f', writer_fence (journal_state j') = Some f' /\
      (f' = f \/ (epoch_value (fence_epoch f) < epoch_value (fence_epoch f'))%N))); [| | |done].
  - eauto.
  - intros a b c Hab Hbc f Hf. destruct (Hab f Hf) as (f1 & Hf1 & H1).
    destruct (Hbc f1 Hf1) as (f2 & Hf2 & H2). exists f2. split; [done|].
    destruct H1 as [->|], H2 as [->|]; auto; right; lia.
  - intros ? ? _ Hm. by apply move_fence_monotone.
Qed.
Lemma active_monotone_run calls j :
  journal_inv sha256 j -> forall a, active (journal_state j) = Some a ->
  exists a', active (journal_state (journal_run sha256 j calls)) = Some a' /\
    (a' = a \/ (slice_revision (active_slice a) < slice_revision (active_slice a'))%N).
Proof.
  intros Hj. apply (journal_run_ind sha256 (fun j j' => forall a,
    active (journal_state j) = Some a ->
    exists a', active (journal_state j') = Some a' /\
      (a' = a \/ (slice_revision (active_slice a) < slice_revision (active_slice a'))%N)));
    [| | |done].
  - eauto.
  - intros a b c Hab Hbc f Hf. destruct (Hab f Hf) as (f1 & Hf1 & H1).
    destruct (Hbc f1 Hf1) as (f2 & Hf2 & H2). exists f2. split; [done|].
    destruct H1 as [->|], H2 as [->|]; auto; right; lia.
  - intros ? ? Hi Hm. by apply move_active_monotone.
Qed.
Lemma finished_row_run calls j :
  journal_inv sha256 j -> forall id r, journal_operations j !! id = Some r ->
  phase r <> PhasePrepared -> journal_operations (journal_run sha256 j calls) !! id = Some r.
Proof.
  intros Hj. apply (journal_run_ind sha256 (fun j j' => forall id r,
    journal_operations j !! id = Some r -> phase r <> PhasePrepared ->
    journal_operations j' !! id = Some r)); [done|eauto| |done].
  intros ? ? Hi Hm. by apply move_finished_row.
Qed.

(** ** Outcomes on a consistent journal *)

Lemma evaluate_writer_fence_stale st a r f :
  consistent sha256 st -> writer_fence st = Some f ->
  tenure_source_scope (tenure a) = state_source_scope st ->
  (epoch_value (tenure_epoch (tenure a)) < epoch_value (fence_epoch f))%N ->
  evaluate_writer_fence sha256 st a r = Err StaleWriterEpoch.
Proof.
  intros Hc Hf Hs Hlt. unfold evaluate_writer_fence.
  rewrite bool_decide_eq_false_2 by tauto.
  rewrite (proj2 (ensure_control_state_consistent_Ok sha256 st tt) Hc), Hf. simpl.
  by rewrite (proj2 (N.ltb_lt _ _) Hlt).
Qed.
Lemma journal_replay_ok j id r :
  journal_inv sha256 j -> journal_operations j !! id = Some r ->
  (phase r <> PhasePrepared -> forall p, prepared (journal_state j) = Some p ->
     prepared_request_digest p <> record_request_digest r) ->
  replay_ok (journal_state j) r.
Proof.
  intros Hj Hr Hfin. pose proof (jinv_row _ _ Hj id r Hr) as [Hid _]. unfold replay_ok.
  assert (forall p, prepared (journal_state j) = Some p -> phase r <> PhasePrepared ->
    prepared_operation_id p <> record_operation_id r) as Hne.
  { intros p Hp Hph Heq. rewrite Hid in Heq. pose proof (jinv_prepared _ _ Hj p Hp) as H.
    rewrite Heq, Hr in H. injection H as ->. by apply Hph. }
  destruct (phase r) eqn:Eph; [|intros p Hp; split; [by apply Hne|by apply Hfin]..].
  destruct (jinv_prepared_row _ _ Hj id r Hr Eph) as (p & Hp & Hpid).
  pose proof (jinv_prepared _ _ Hj p Hp) as H. rewrite Hpid, Hr in H. injection H as ->.
  exists p. split_and!; [done..|].
  apply (con_prepared _ _ (jinv_consistent _ _ Hj) p Hp).
Qed.
Lemma evaluate_prepare_conflict st a e r :
  consistent sha256 st -> control_commitment_validate sha256 (payload a) = Ok tt ->
  slice_target (admitted_slice a) = state_target st ->
  slice_scope (admitted_slice a) = state_source_scope st ->
  belongs st e -> record_operation_id e = call_operation a ->
  record_request_digest e <> request_digest a ->
  evaluate_prepare sha256 st a (Some e) r = Err OperationConflict.
Proof.
  intros Hc Hv Ht Hs Hb Hid Hd. unfold evaluate_prepare. rewrite Hv.
  unfold admitted_slice in *. cbv zeta. cbn [map_err mbind result_mbind].
  rewrite (bool_decide_eq_false_2 (slice_target _ <> _)) by tauto.
  rewrite (bool_decide_eq_false_2 (slice_scope _ <> _)) by tauto. cbn [fail_if mbind result_mbind].
  rewrite (proj2 (ensure_control_state_consistent_Ok sha256 st tt) Hc).
  rewrite (proj2 (ensure_operation_belongs_to_state_Ok st e) Hb). simpl.
  unfold call_operation in Hid.
  rewrite (bool_decide_eq_false_2 (record_operation_id e <> _)) by tauto. simpl.
  by rewrite bool_decide_eq_true_2.
Qed.
End properties.

(** ** Properties *)

(** In every journal reached from an empty one, the control state passes the
    code's own consistency check, a row is in phase [Prepared] exactly when
    the control state has that very operation prepared, and the conditional
    update of a superseded operation always finds its row (a fence call
    never ends in [OperationStateMismatch]). *)
Theorem reachable_journal_consistent (sha256 : list byte -> bytes32) (j : Journal) :
  journal_reachable sha256 j ->
  ensure_control_state_consistent sha256 (journal_state j) = Ok tt /\
  (forall id r, journal_operations j !! id = Some r ->
     (phase r = PhasePrepared <->
      exists p, prepared (journal_state j) = Some p /\ prepared_operation_id p = id)) /\
  (forall a reading,
     journal_apply sha256 j (CallFence a reading) <> Err OperationStateMismatch).
Proof.
  intros Hj%journal_reachable_inv. pose proof (jinv_consistent _ _ Hj) as Hc.
  split; [by apply ensure_control_state_consistent_Ok|]. split.
  - intros id r Hr. split; [by apply (jinv_prepared_row _ _ Hj)|].
    intros (p & Hp & <-). rewrite (jinv_prepared _ _ Hj p Hp) in Hr. by injection Hr as <-.
  - intros a reading. simpl. intros [H|(t & Ht & H)]%bind_Err.
    + revert H. apply evaluate_writer_fence_no_mismatch, Hc.
    + apply evaluate_writer_fence_Ok in Ht as (_ & _ & Ht).
      destruct Ht as [Hn|Hk|cur Hcur Hlt Hsup]; simpl in H; [done..|].
      destruct (prepared (journal_state j)) as [p|] eqn:Ep; [|done]. simpl in H.
      unfold prepared_row in H. simpl in H. rewrite (jinv_prepared _ _ Hj p Ep) in H.
      by rewrite bool_decide_eq_false_2 in H by tauto.
Qed.

Lemma reachable_journal_consistent_witness :
  is_Some (prepared (journal_state ApplyDemo.prepared_journal)) /\
  ensure_control_state_consistent toy_hash (journal_state ApplyDemo.prepared_journal) = Ok tt.
Proof.
  split; [vm_compute; eauto|].
  apply (reachable_journal_consistent toy_hash _ ApplyDemo.prepared_journal_reachable).
Defined.

(** Whatever calls follow, the writer fence never disappears, its epoch never
    goes back, and at one epoch it never changes hands: writer, proof
    fingerprint and principal stay those first accepted at that epoch. *)
Theorem writer_fence_never_regresses (sha256 : list byte -> bytes32) (j : Journal)
    (calls : list ApplyCall) (f : WriterFence) :
  journal_reachable sha256 j ->
  writer_fence (journal_state j) = Some f ->
  exists f', writer_fence (journal_state (journal_run sha256 j calls)) = Some f' /\
    (epoch_value (fence_epoch f) <= epoch_value (fence_epoch f'))%N /\
    (epoch_value (fence_epoch f) = epoch_value (fence_epoch f') -> f' = f).
Proof.
  intros Hj%journal_reachable_inv Hf.
  destruct (fence_monotone_run sha256 calls j Hj f Hf) as (f' & Hf' & [->|Hlt]).
  - exists f. done.
  - exists f'. split_and!; [done|lia|lia].
Qed.

Lemma writer_fence_never_regresses_witness :
  exists f f',
    writer_fence (journal_state ApplyDemo.active_journal) = Some f /\
    writer_fence (journal_state (journal_run toy_hash ApplyDemo.active_journal ApplyDemo.turnover))
      = Some f' /\
    (epoch_value (fence_epoch f) <= epoch_value (fence_epoch f'))%N.
Proof.
  destruct (writer_fence (journal_state ApplyDemo.active_journal)) as [f|] eqn:Ef.
  2: { vm_compute in Ef. discriminate Ef. }
  destruct (writer_fence_never_regresses toy_hash _ ApplyDemo.turnover f
              ApplyDemo.active_journal_reachable Ef) as (f' & Hf' & Hle & _).
  exists f, f'. auto.
Defined.

(** C26: Once a fence is durable, a request with an older writer epoch is refused
    in every later journal: its fence call with [StaleWriterEpoch], and it
    prepares no new operation. *)
Theorem stale_writer_refused (sha256 : list byte -> bytes32) (j : Journal)
    (calls : list ApplyCall) (f : WriterFence) (a : AdmittedApply) :
  journal_reachable sha256 j ->
  writer_fence (journal_state j) = Some f ->
  (epoch_value (tenure_epoch (tenure a)) < epoch_value (fence_epoch f))%N ->
  tenure_source_scope (tenure a) = state_source_scope (journal_state j) ->
  let j' := journal_run sha256 j calls in
  (forall reading, journal_apply sha256 j' (CallFence a reading) = Err StaleWriterEpoch) /\
  (forall reading j'', journal_operations j' !! call_operation a = None ->
     journal_apply sha256 j' (CallPrepare a reading) <> Ok j'').
Proof.
  intros Hj%journal_reachable_inv Hf Hlt Hscope j'.
  destruct (fence_monotone_run sha256 calls j Hj f Hf) as (f' & Hf' & Hle).
  assert (epoch_value (tenure_epoch (tenure a)) < epoch_value (fence_epoch f'))%N as Hlt'
    by (destruct Hle as [->|]; lia).
  pose proof (journal_run_inv sha256 calls j Hj) as Hj'. fold j' in Hf', Hj'.
  split.
  - intros reading. simpl.
    rewrite (evaluate_writer_fence_stale sha256 _ a reading f'); [done|apply Hj'|done| |done].
    unfold j'. by rewrite (scope_run sha256 calls j Hj).
  - intros reading j'' Hno Happ. simpl in Happ. rewrite Hno in Happ.
    apply bind_Ok in Happ as (t & Ht & _). apply evaluate_prepare_new in Ht as (_ & Hg & _).
    destruct Hg as (_ & Hfence & _). rewrite Hf' in Hfence. injection Hfence as ->.
    simpl in Hlt'. lia.
Qed.

(** After the turnover to epoch 3, the epoch-2 writer is shut out. *)
Lemma stale_writer_refused_witness :
  journal_apply toy_hash (journal_run toy_hash ApplyDemo.turned_journal [])
    (CallFence ApplyDemo.second (ApplyDemo.clock 7)) = Err StaleWriterEpoch.
Proof.
  destruct (writer_fence (journal_state ApplyDemo.turned_journal)) as [f|] eqn:Ef.
  2: { vm_compute in Ef. discriminate Ef. }
  destruct (stale_writer_refused toy_hash ApplyDemo.turned_journal [] f ApplyDemo.second
              ApplyDemo.turned_journal_reachable Ef) as [H _].
  - vm_compute in Ef. injection Ef as <-. vm_compute. reflexivity.
  - vm_compute. reflexivity.
  - exact (H (ApplyDemo.clock 7)).
Defined.

(** C4: An accepted activation either replays an operation that is already
    active and changes nothing, or it is the compare-and-swap the request
    asked for: the operation is the prepared one, the readiness evidence
    names it, its deadline has not passed, its writer still holds the fence,
    the slice it replaces is exactly the one it expected (or none), and the
    slice it installs is valid for this target and scope and has a higher
    source revision. *)
Theorem activation_is_compare_and_swap (sha256 : list byte -> bytes32) (j j' : Journal)
    (id : ApplyOperationId) (ready : PreparationReadyFact) (reading : ClockReading) :
  journal_reachable sha256 j ->
  journal_apply sha256 j (CallActivate id ready reading) = Ok j' ->
  j' = j \/
  exists p,
    prepared (journal_state j) = Some p /\ prepared_operation_id p = id /\
    ready = MkPreparationReadyFact id (prepared_request_digest p) /\
    is_expired_at (prepared_deadline p) reading = Ok false /\
    writer_fence (journal_state j) = Some (prepared_writer_fence p) /\
    expected_active_matches (journal_state j) (prepared_expected_active p) = true /\
    ensure_revision_advances (journal_state j) (incoming p) = Ok tt /\
    slice_commitment_validate sha256 (incoming p) = Ok tt /\
    slice_target (incoming p) = state_target (journal_state j) /\
    slice_scope (incoming p) = state_source_scope (journal_state j) /\
    journal_state j' = with_active (journal_state j) (incoming p) /\
    journal_operations j' =
      <[id := row_of (journal_state j) p PhaseActive]> (journal_operations j).
Proof.
  intros Hj%journal_reachable_inv H. simpl in H.
  apply bind_Ok in H as (o & Ho & H). apply ok_or_Ok in Ho.
  pose proof (jinv_row _ _ Hj id o Ho) as [<- _].
  apply bind_Ok in H as (t & Ht & H). apply evaluate_activate_Ok in Ht as (_ & _ & _ & Ht).
  destruct (phase o); [|subst t|done].
  2: { left. injection H as <-. simpl. rewrite insert_id by done. apply journal_eta. }
  right. destruct Ht as (p & (Hp & [Hc Hlive] & Hid & Hdig & Hrid & Hrdig) & ->). injection H as <-.
  destruct (con_prepared _ _ (jinv_consistent _ _ Hj) p Hp) as ((Hv & Ht & Hs) & Hf & He & Hrev).
  exists p. split_and!; try done.
  - destruct ready; simpl in *. congruence.
  - rewrite is_expired_at_compatible by done. f_equal. apply N.leb_gt. done.
  - by apply ensure_revision_advances_Ok.
  - simpl. unfold row_of, activated_row. by rewrite <-Hid, <-Hdig.
Qed.

Lemma activation_is_compare_and_swap_witness :
  exists p, prepared (journal_state ApplyDemo.prepared_journal) = Some p /\
    active (journal_state ApplyDemo.active_journal) = Some (MkActiveControl (incoming p)).
Proof.
  destruct (activation_is_compare_and_swap toy_hash ApplyDemo.prepared_journal
              ApplyDemo.active_journal (call_operation ApplyDemo.first)
              (ApplyDemo.ready_for ApplyDemo.first) (ApplyDemo.clock 3)
              ApplyDemo.prepared_journal_reachable) as [H|(p & Hp & H)].
  - vm_compute. reflexivity.
  - exfalso. apply (f_equal (fun j => active (journal_state j))) in H. vm_compute in H. discriminate H.
  - exists p. split; [exact Hp|]. destruct H as (_ & _ & _ & _ & _ & _ & _ & _ & _ & H & _).
    rewrite H. reflexivity.
Defined.

(** Over any sequence of calls the active slice is only ever replaced by one
    with a strictly higher source revision; a target never rolls back. *)
Theorem active_revision_never_rolls_back (sha256 : list byte -> bytes32) (j : Journal)
    (calls : list ApplyCall) (a : ActiveControl) :
  journal_reachable sha256 j ->
  active (journal_state j) = Some a ->
  exists a', active (journal_state (journal_run sha256 j calls)) = Some a' /\
    (a' = a \/ (slice_revision (active_slice a) < slice_revision (active_slice a'))%N).
Proof. intros Hj%journal_reachable_inv. by apply active_monotone_run. Qed.

Lemma active_revision_never_rolls_back_witness :
  exists a a', active (journal_state ApplyDemo.active_journal) = Some a /\
    active (journal_state (journal_run toy_hash ApplyDemo.active_journal
      [CallFence ApplyDemo.second (ApplyDemo.clock 4);
       CallPrepare ApplyDemo.second (ApplyDemo.clock 5);
       CallActivate (call_operation ApplyDemo.second) (ApplyDemo.ready_for ApplyDemo.second)
         (ApplyDemo.clock 6)])) = Some a' /\ a' <> a /\
    (slice_revision (active_slice a) < slice_revision (active_slice a'))%N.
Proof.
  destruct (active (journal_state ApplyDemo.active_journal)) as [a|] eqn:Ea.
  2: { vm_compute in Ea. discriminate Ea. }
  destruct (active_revision_never_rolls_back toy_hash ApplyDemo.active_journal
      [CallFence ApplyDemo.second (ApplyDemo.clock 4);
       CallPrepare ApplyDemo.second (ApplyDemo.clock 5);
       CallActivate (call_operation ApplyDemo.second) (ApplyDemo.ready_for ApplyDemo.second)
         (ApplyDemo.clock 6)] a ApplyDemo.active_journal_reachable Ea) as (a' & Ha' & H).
  assert (a' <> a) as Hne.
  { intros ->. apply (f_equal (option_map (fun x => slice_revision (active_slice x)))) in Ha', Ea.
    rewrite <-Ea in Ha'. vm_compute in Ha'. discriminate Ha'. }
  exists a, a'. refine (conj eq_refl (conj Ha' (conj Hne _))).
  destruct H as [H|H]; [destruct (Hne H)|exact H].
Defined.

(** An operation that is active or superseded stays so with the same record
    in every later journal: it is never prepared or activated again, and a
    superseded one is never activated. *)
Theorem finished_operations_stay_finished (sha256 : list byte -> bytes32) (j : Journal)
    (calls : list ApplyCall) (id : ApplyOperationId) (r : OperationRecord) :
  journal_reachable sha256 j ->
  journal_operations j !! id = Some r -> phase r <> PhasePrepared ->
  let j' := journal_run sha256 j calls in
  journal_operations j' !! id = Some r /\
  forall ready reading j'',
    journal_apply sha256 j' (CallActivate id ready reading) = Ok j'' ->
    j'' = j' /\ phase r = PhaseActive.
Proof.
  intros Hj%journal_reachable_inv Hr Hph j'.
  pose proof (finished_row_run sha256 calls j Hj id r Hr Hph) as Hr'. fold j' in Hr'.
  split; [done|]. intros ready reading j'' H. simpl in H. rewrite Hr' in H. simpl in H.
  apply bind_Ok in H as (t & Ht & H). apply evaluate_activate_Ok in Ht as (_ & _ & _ & Ht).
  destruct (phase r); [done|subst t|done]. injection H as <-. simpl.
  rewrite insert_id by done. split; [apply journal_eta|done].
Qed.

Lemma finished_operations_stay_finished_witness :
  exists r, journal_operations ApplyDemo.turned_journal !! call_operation ApplyDemo.second = Some r /\
    phase r = PhaseSuperseded /\
    forall calls, journal_operations (journal_run toy_hash ApplyDemo.turned_journal calls)
      !! call_operation ApplyDemo.second = Some r.
Proof.
  eexists. split; [vm_compute; reflexivity|]. split; [reflexivity|]. intros calls.
  apply (finished_operations_stay_finished toy_hash ApplyDemo.turned_journal calls).
  - exact ApplyDemo.turned_journal_reachable.
  - vm_compute. reflexivity.
  - discriminate.
Defined.

(** C36: A new operation is prepared exactly when the request's commitments
    validate, it is for this target and scope, its deadline is live, its
    tenure is the durable fence, its expected slice is the active one, its
    revision advances and nothing else is prepared; the active slice and the
    fence are untouched. *)
Theorem prepare_accepts_exactly (sha256 : list byte -> bytes32) (j : Journal)
    (a : AdmittedApply) (reading : ClockReading) :
  journal_reachable sha256 j ->
  journal_operations j !! call_operation a = None ->
  (exists j', journal_apply sha256 j (CallPrepare a reading) = Ok j' /\
     active (journal_state j') = active (journal_state j) /\
     writer_fence (journal_state j') = writer_fence (journal_state j) /\
     prepared (journal_state j') = Some (new_prepared a)) <->
  (control_commitment_validate sha256 (payload a) = Ok tt /\
   slice_target (admitted_slice a) = state_target (journal_state j) /\
   slice_scope (admitted_slice a) = state_source_scope (journal_state j) /\
   is_expired_at (deadline a) reading = Ok false /\
   writer_fence (journal_state j) = Some (fence_of (tenure a)) /\
   expected_active_matches (journal_state j) (admitted_expected a) = true /\
   ensure_revision_advances (journal_state j) (admitted_slice a) = Ok tt /\
   prepared (journal_state j) = None).
Proof.
  intros Hj%journal_reachable_inv Hno. simpl. rewrite Hno.
  assert (is_expired_at (deadline a) reading = Ok false <-> live (deadline a) reading) as Hlive.
  { rewrite is_expired_at_Ok. unfold live. rewrite <-N.leb_gt. naive_solver. }
  rewrite ensure_revision_advances_Ok, Hlive. split.
  - intros (j' & H & _). apply bind_Ok in H as (t & Ht & _).
    apply evaluate_prepare_new in Ht as ((? & ? & ? & _) & (? & ? & ? & ? & ?) & _). done.
  - intros (? & ? & ? & ? & ? & ? & ? & ?).
    assert (prepare_checks sha256 (journal_state j) a) as Hchk by (split_and!; done || apply Hj).
    assert (prepare_guard (journal_state j) a reading) as Hg by (by split_and!).
    rewrite (proj2 (evaluate_prepare_new sha256 _ _ _ _) (conj Hchk (conj Hg eq_refl))).
    by eexists.
Qed.

Lemma prepare_accepts_exactly_witness :
  exists j', journal_apply toy_hash (journal_run toy_hash ApplyDemo.start
    [CallFence ApplyDemo.first (ApplyDemo.clock 1)])
    (CallPrepare ApplyDemo.first (ApplyDemo.clock 2)) = Ok j' /\
    prepared (journal_state j') = Some (new_prepared ApplyDemo.first).
Proof.
  destruct (proj2 (prepare_accepts_exactly toy_hash (journal_run toy_hash ApplyDemo.start
    [CallFence ApplyDemo.first (ApplyDemo.clock 1)]) ApplyDemo.first (ApplyDemo.clock 2)
    ltac:(by eexists _, _, _) ltac:(vm_compute; reflexivity))) as (j' & H & _ & _ & Hp).
  - repeat split; vm_compute; reflexivity.
  - exists j'. auto.
Defined.

(** Resubmitting a recorded operation: the identical request is answered
    from the record and changes nothing, with no deadline, fence or CAS
    check; the same id with any other request is refused with
    [OperationConflict].  A finished operation replays as long as nothing
    else is prepared under its request digest. *)
Theorem replay_changes_nothing (sha256 : list byte -> bytes32) (j : Journal)
    (a : AdmittedApply) (r : OperationRecord) (reading : ClockReading) :
  journal_reachable sha256 j ->
  journal_operations j !! call_operation a = Some r ->
  control_commitment_validate sha256 (payload a) = Ok tt ->
  slice_target (admitted_slice a) = state_target (journal_state j) ->
  slice_scope (admitted_slice a) = state_source_scope (journal_state j) ->
  (phase r <> PhasePrepared -> forall p, prepared (journal_state j) = Some p ->
     prepared_request_digest p <> record_request_digest r) ->
  journal_apply sha256 j (CallPrepare a reading) =
    if decide (record_request_digest r = request_digest a) then Ok j else Err OperationConflict.
Proof.
  intros Hj%journal_reachable_inv Hr Hv Ht Hs Hfin.
  pose proof (jinv_row _ _ Hj _ r Hr) as [Hid Hb].
  assert (replay_ok (journal_state j) r) as Hrep by (by apply (journal_replay_ok sha256 _ _ _ Hj Hr)).
  unfold journal_apply. rewrite Hr. case_decide as Hd.
  - assert (prepare_checks sha256 (journal_state j) a) as Hchk by (split_and!; done || apply Hj).
    rewrite (proj2 (evaluate_prepare_replay sha256 _ _ _ _ _)
      (conj Hchk (conj Hb (conj Hid (conj Hd (conj Hrep eq_refl)))))).
    simpl. rewrite insert_id by done. by rewrite journal_eta.
  - by rewrite (evaluate_prepare_conflict sha256 _ _ _ _ (jinv_consistent _ _ Hj) Hv Ht Hs Hb Hid Hd).
Qed.

(** Past its deadline and with another operation prepared, the active
    operation still answers. *)
Lemma replay_changes_nothing_witness :
  journal_apply toy_hash ApplyDemo.turned_journal
    (CallPrepare ApplyDemo.first (ApplyDemo.clock 1000)) = Ok ApplyDemo.turned_journal.
Proof.
  destruct (journal_operations ApplyDemo.turned_journal !! call_operation ApplyDemo.first)
    as [r|] eqn:Er.
  2: { vm_compute in Er. discriminate Er. }
  rewrite (replay_changes_nothing toy_hash ApplyDemo.turned_journal ApplyDemo.first r
    (ApplyDemo.clock 1000) ApplyDemo.turned_journal_reachable Er).
  - vm_compute in Er. injection Er as <-. rewrite decide_True; [reflexivity|]. vm_compute. reflexivity.
  - vm_compute. reflexivity.
  - vm_compute. reflexivity.
  - vm_compute. reflexivity.
  - intros _ p Hp. vm_compute in Hp. discriminate Hp.
Defined.
