(* ===== verification/ApplyRefinement.v ===== *)
(** * The apply control refines a fenced compare-and-swap register

    What a runtime target promises its controllers, without operation rows,
    deadlines, readiness evidence or prepared operations: a register that
    holds one plan slice, owned by the writer with the newest tenure, and
    changed only by that owner through compare-and-swap, each operation at
    most once.  The journal of ApplyControl implements it. *)

From S2P Require Import Prelude KernelTime KernelDigest ApplyContracts ApplyState ApplyControl.
Open Scope rust_scope.

(** ** The register *)

Record Register := MkRegister {
  owner : option WriterFence;
  content : option RuntimeSliceCommitment;
  applied : gset ApplyOperationId;
}.

Definition register_new : Register := MkRegister None None ∅.

(** The content a compare-and-swap expects. *)
Definition expects (c : option RuntimeSliceCommitment) (e : ExpectedActive) : Prop :=
  match e with
  | ExpectNone => c = None
  | ExpectExact d => exists s, c = Some s /\ target_slice_digest s = d
  end.
Definition revision_grows (c : option RuntimeSliceCommitment) (s : RuntimeSliceCommitment) : Prop :=
  forall old, c = Some old -> (slice_revision old < slice_revision s)%N.

Inductive RegisterEvent :=
| Takeover (f : WriterFence)
| Swap (f : WriterFence) (id : ApplyOperationId) (e : ExpectedActive) (s : RuntimeSliceCommitment).

Inductive register_step : Register -> RegisterEvent -> Register -> Prop :=
| step_takeover r f :
    (forall old, owner r = Some old ->
       (epoch_value (fence_epoch old) < epoch_value (fence_epoch f))%N) ->
    register_step r (Takeover f) (MkRegister (Some f) (content r) (applied r))
| step_swap r f id e s :
    owner r = Some f -> id ∉ applied r -> expects (content r) e -> revision_grows (content r) s ->
    register_step r (Swap f id e s) (MkRegister (Some f) (Some s) ({[ id ]} ∪ applied r)).

Inductive register_trace : Register -> list RegisterEvent -> Register -> Prop :=
| trace_nil r : register_trace r [] r
| trace_cons r ev r' evs r'' :
    register_step r ev r' -> register_trace r' evs r'' -> register_trace r (ev :: evs) r''.

Lemma register_trace_app r evs r' evs' r'' :
  register_trace r evs r' -> register_trace r' evs' r'' -> register_trace r (evs ++ evs') r''.
Proof. induction 1; simpl; [done|]. intros. econstructor; eauto. Qed.

(** ** The journal as a register *)

Definition is_active_row (kv : ApplyOperationId * OperationRecord) : Prop := phase kv.2 = PhaseActive.
#[export] Instance is_active_row_dec kv : Decision (is_active_row kv) := _.

Definition register_of (j : Journal) : Register :=
  MkRegister (writer_fence (journal_state j)) (active_slice <$> active (journal_state j))
    (dom (filter is_active_row (journal_operations j))).

Lemma register_of_new scope host : register_of (journal_new scope host) = register_new.
Proof. reflexivity. Qed.

Lemma expected_active_matches_expects st e :
  expected_active_matches st e = true <-> expects (active_slice <$> active st) e.
Proof.
  unfold expected_active_matches, expects.
  destruct (active st), e; simpl; rewrite ?bool_decide_eq_true; naive_solver.
Qed.
Lemma revision_above_grows st s :
  revision_above st s <-> revision_grows (active_slice <$> active st) s.
Proof. unfold revision_above, revision_grows. destruct (active st); simpl; naive_solver. Qed.

(** Writing a row that is not active where none was leaves the applied set alone. *)
Lemma applied_insert_inactive (ops : gmap ApplyOperationId OperationRecord) id r :
  phase r <> PhaseActive -> (forall r0, ops !! id = Some r0 -> phase r0 <> PhaseActive) ->
  dom (filter is_active_row (<[id := r]> ops)) = dom (filter is_active_row ops).
Proof.
  intros Hr Hold. apply set_eq. intros x. rewrite !elem_of_dom. unfold is_Some.
  setoid_rewrite map_lookup_filter_Some. unfold is_active_row. simpl.
  split; intros (r' & H & Hp).
  - apply lookup_insert_Some in H as [[<- <-]|[_ H]]; [done|eauto].
  - exists r'. rewrite lookup_insert_ne; [done|]. intros ->. by eapply Hold.
Qed.
Lemma applied_insert_active (ops : gmap ApplyOperationId OperationRecord) id r :
  phase r = PhaseActive ->
  dom (filter is_active_row (<[id := r]> ops)) = {[ id ]} ∪ dom (filter is_active_row ops).
Proof.
  intros Hr. rewrite map_filter_insert_True by done. by rewrite dom_insert_L.
Qed.
Lemma applied_elem (ops : gmap ApplyOperationId OperationRecord) id :
  id ∈ dom (filter is_active_row ops) <-> exists r, ops !! id = Some r /\ phase r = PhaseActive.
Proof. rewrite elem_of_dom. unfold is_Some. by setoid_rewrite map_lookup_filter_Some. Qed.

(** ** Simulation *)

(** The register event of an accepted call. *)
Definition call_event (j : Journal) (call : ApplyCall) : option RegisterEvent :=
  match call with
  | CallFence a _ =>
      if bool_decide (writer_fence (journal_state j) = Some (fence_of (tenure a))) then None
      else Some (Takeover (fence_of (tenure a)))
  | CallPrepare _ _ => None
  | CallActivate id _ _ =>
      match phase <$> journal_operations j !! id, prepared (journal_state j) with
      | Some PhasePrepared, Some p =>
          Some (Swap (prepared_writer_fence p) id (prepared_expected_active p) (incoming p))
      | _, _ => None
      end
  end.
Definition simulates (j : Journal) (ev : option RegisterEvent) (j' : Journal) : Prop :=
  match ev with
  | None => register_of j' = register_of j
  | Some ev => register_step (register_of j) ev (register_of j')
  end.

Section simulation.
Context (sha256 : list byte -> bytes32).

(** The events of the accepted calls of a run, in order. *)
Fixpoint run_events (j : Journal) (calls : list ApplyCall) : list RegisterEvent :=
  match calls with
  | [] => []
  | c :: rest =>
      match journal_apply sha256 j c with Ok _ => option_list (call_event j c) | _ => [] end
      ++ run_events (journal_step sha256 j c) rest
  end.

Lemma fence_call_simulates j a r j' :
  journal_inv sha256 j -> journal_apply sha256 j (CallFence a r) = Ok j' ->
  simulates j (call_event j (CallFence a r)) j'.
Proof.
  intros Hj H. simpl in H. apply bind_Ok in H as (t & Ht & H).
  apply evaluate_writer_fence_Ok in Ht as (_ & _ & Ht). unfold call_event.
  destruct Ht as [Hn|Hk|cur Hc Hlt Hsup]; simpl in H.
  - injection H as <-. rewrite Hn, bool_decide_eq_false_2 by done.
    apply (step_takeover (register_of j)). simpl. congruence.
  - injection H as <-. rewrite bool_decide_eq_true_2 by done. done.
  - rewrite bool_decide_eq_false_2 by (rewrite Hc; intros [= ->]; simpl in Hlt; lia).
    assert (register_of j' = MkRegister (Some (fence_of (tenure a))) (content (register_of j))
              (applied (register_of j))) as Heq.
    { destruct (prepared (journal_state j)) as [p|] eqn:Ep; simpl in H; [|by injection H as <-].
      apply bind_unit_Ok in H as [_ H]. injection H as <-. unfold register_of. simpl. f_equal.
      apply applied_insert_inactive; [done|]. intros r0 H0.
      rewrite (jinv_prepared _ _ Hj p Ep) in H0. by injection H0 as <-. }
    unfold simulates. rewrite Heq. constructor. simpl. intros old. rewrite Hc. by intros [= <-].
Qed.
Lemma prepare_call_simulates j a r j' :
  journal_apply sha256 j (CallPrepare a r) = Ok j' -> register_of j' = register_of j.
Proof.
  intros H. simpl in H. destruct (journal_operations j !! call_operation a) as [e|] eqn:Ee;
    apply bind_Ok in H as (t & Ht & H).
  - apply evaluate_prepare_replay in Ht as (_ & _ & _ & _ & _ & ->). injection H as <-.
    simpl. rewrite insert_id by done. by rewrite journal_eta.
  - apply evaluate_prepare_new in Ht as (_ & _ & ->). injection H as <-. unfold register_of. simpl.
    f_equal. apply applied_insert_inactive; [done|]. congruence.
Qed.
Lemma activate_call_simulates j id ready r j' :
  journal_inv sha256 j -> journal_apply sha256 j (CallActivate id ready r) = Ok j' ->
  simulates j (call_event j (CallActivate id ready r)) j'.
Proof.
  intros Hj H. simpl in H. apply bind_Ok in H as (o & Ho & H). apply ok_or_Ok in Ho.
  pose proof (jinv_row _ _ Hj id o Ho) as [Hid _].
  apply bind_Ok in H as (t & Ht & H). apply evaluate_activate_Ok in Ht as (_ & _ & _ & Ht).
  unfold call_event. rewrite Ho. cbn [fmap option_fmap option_map].
  destruct (phase o) eqn:Eo; [|subst t|done].
  - destruct Ht as (p & (Hp & _) & ->). injection H as <-. rewrite Hp. subst id.
    destruct (con_prepared _ _ (jinv_consistent _ _ Hj) p Hp) as (_ & Hf & He & Hr).
    unfold simulates, register_of at 2. simpl. rewrite applied_insert_active, Hf by done.
    apply (step_swap (register_of j)); simpl; [done| |by apply expected_active_matches_expects|
      by apply revision_above_grows].
    rewrite applied_elem. intros (r0 & H & Ha). rewrite Ho in H. injection H as <-. congruence.
  - injection H as <-. simpl. rewrite insert_id by done. by rewrite journal_eta.
Qed.
Lemma call_simulates j call j' :
  journal_inv sha256 j -> journal_apply sha256 j call = Ok j' -> simulates j (call_event j call) j'.
Proof.
  destruct call; intros Hj H.
  - by eapply fence_call_simulates.
  - by eapply prepare_call_simulates.
  - by eapply activate_call_simulates.
Qed.

Lemma run_simulates calls j :
  journal_inv sha256 j ->
  register_trace (register_of j) (run_events j calls) (register_of (journal_run sha256 j calls)).
Proof.
  revert j. induction calls as [|c calls IH]; intros j Hj; [constructor|].
  change (journal_run sha256 j (c :: calls)) with
    (journal_run sha256 (journal_step sha256 j c) calls).
  cbn [run_events]. unfold journal_step.
  destruct (journal_apply sha256 j c) as [j1| |] eqn:Ea; [|by apply IH..].
  pose proof (call_simulates j c j1 Hj Ea) as Hs.
  assert (journal_inv sha256 j1) as Hj1
    by (eapply journal_move_inv, journal_apply_move; eauto).
  destruct (call_event j c) as [ev|]; simpl in *.
  - econstructor; [done|by apply IH].
  - rewrite <-Hs. by apply IH.
Qed.

(** ** Where swapped slices come from *)

(** The prepared operation of a journal is one that a prepare call carried. *)
Definition prepared_from (calls : list ApplyCall) (j : Journal) : Prop :=
  forall p, prepared (journal_state j) = Some p ->
  exists a r, CallPrepare a r ∈ calls /\ p = new_prepared a.

Lemma step_prepared_from calls j c :
  prepared_from calls j -> c ∈ calls -> prepared_from calls (journal_step sha256 j c).
Proof.
  intros Hp Hc. unfold journal_step. destruct (journal_apply sha256 j c) as [j1| |] eqn:Ea; [|done..].
  destruct c as [a r|a r|id ready r]; simpl in Ea.
  - apply bind_Ok in Ea as (t & Ht & Ea). apply evaluate_writer_fence_Ok in Ht as (_ & _ & Ht).
    destruct Ht; simpl in Ea; [injection Ea as <-; exact Hp..|].
    destruct (prepared (journal_state j)); simpl in Ea;
      [apply bind_unit_Ok in Ea as [_ Ea]|]; injection Ea as <-; intros ?; done.
  - destruct (journal_operations j !! call_operation a) as [e|];
      apply bind_Ok in Ea as (t & Ht & Ea).
    + apply evaluate_prepare_replay in Ht as (_ & _ & _ & _ & _ & ->). injection Ea as <-. exact Hp.
    + apply evaluate_prepare_new in Ht as (_ & _ & ->). injection Ea as <-. intros p [= <-]. eauto.
  - apply bind_Ok in Ea as (o & _ & Ea). apply bind_Ok in Ea as (t & Ht & Ea).
    apply evaluate_activate_Ok in Ht as (_ & _ & _ & Ht).
    destruct (phase o); [destruct Ht as (q & _ & ->)|subst t|done]; injection Ea as <-; [|exact Hp].
    intros p. done.
Qed.

Definition carried (calls : list ApplyCall) (ev : RegisterEvent) : Prop :=
  match ev with
  | Takeover f => exists a r, CallFence a r ∈ calls /\ f = fence_of (tenure a)
  | Swap f id e s =>
      (exists ready r, CallActivate id ready r ∈ calls) /\
      exists a r, CallPrepare a r ∈ calls /\ id = call_operation a /\ s = admitted_slice a /\
        e = admitted_expected a /\ f = fence_of (tenure a)
  end.

Lemma call_event_carried calls j c j' ev :
  journal_inv sha256 j -> prepared_from calls j -> c ∈ calls ->
  journal_apply sha256 j c = Ok j' -> call_event j c = Some ev -> carried calls ev.
Proof.
  intros Hj Hp Hc Ha He. destruct c as [a r|a r|id ready r]; simpl in He; [| done|].
  - case_bool_decide; [done|]. injection He as <-. simpl. eauto.
  - simpl in Ha. apply bind_Ok in Ha as (o & Ho & Ha). apply ok_or_Ok in Ho. rewrite Ho in He.
    pose proof (jinv_row _ _ Hj id o Ho) as [Hid _].
    apply bind_Ok in Ha as (t & Ht & _). apply evaluate_activate_Ok in Ht as (_ & _ & _ & Ht).
    simpl in He. destruct (phase o); [|done..]. destruct Ht as (q & (Hq & _ & Hqid & _) & _).
    rewrite Hq in He. injection He as <-.
    destruct (Hp q Hq) as (a & r' & Hin & ->). simpl in *. split; [eauto|].
    exists a, r'. split_and!; congruence || done.
Qed.
Lemma run_events_carried calls all j :
  journal_inv sha256 j -> prepared_from all j -> calls ⊆ all ->
  Forall (carried all) (run_events j calls).
Proof.
  revert j. induction calls as [|c calls IH]; intros j Hj Hp Hsub; [constructor|].
  cbn [run_events]. apply Forall_app. split.
  - destruct (journal_apply sha256 j c) as [j1| |] eqn:Ea; [|constructor..].
    destruct (call_event j c) as [ev|] eqn:Ev; constructor; [|constructor].
    eapply call_event_carried; eauto. apply Hsub. by left.
  - apply IH; [|apply step_prepared_from; [done|apply Hsub; by left]|intros x Hx; apply Hsub; by right].
    apply (journal_run_inv sha256 [c] j Hj).
Qed.
End simulation.

(** ** What every trace of the register satisfies *)

Definition swap_ids (evs : list RegisterEvent) : list ApplyOperationId :=
  omap (fun ev => match ev with Swap _ id _ _ => Some id | Takeover _ => None end) evs.
Definition swap_slices (evs : list RegisterEvent) : list RuntimeSliceCommitment :=
  omap (fun ev => match ev with Swap _ _ _ s => Some s | Takeover _ => None end) evs.
Definition takeover_epochs (evs : list RegisterEvent) : list N :=
  omap (fun ev => match ev with Takeover f => Some (epoch_value (fence_epoch f)) | _ => None end) evs.

Lemma trace_swap_ids r evs r' :
  register_trace r evs r' ->
  NoDup (swap_ids evs) /\ applied r' = list_to_set (swap_ids evs) ∪ applied r /\
  Forall (fun id => id ∉ applied r) (swap_ids evs).
Proof.
  induction 1 as [r|r ev r' evs r'' Hs _ IH]; simpl; [split_and!; [constructor|set_solver|constructor]|].
  destruct IH as (IHn & IHa & IHf). destruct Hs as [r f Ho|r f id e s Ho Hn He Hr]; simpl in *; [done|].
  rewrite Forall_forall in IHf. split_and!.
  - constructor; [|done]. intros Hin. apply IHf in Hin. set_solver.
  - set_solver.
  - constructor; [done|]. apply Forall_forall. intros x Hx%IHf. set_solver.
Qed.
Lemma trace_revisions r evs r' :
  register_trace r evs r' ->
  StronglySorted N.lt (slice_revision <$> option_list (content r) ++ swap_slices evs) /\
  content r' = last (option_list (content r) ++ swap_slices evs).
Proof.
  induction 1 as [r|r ev r' evs r'' Hs _ IH].
  - destruct (content r); simpl; repeat constructor.
  - destruct Hs as [r f Ho|r f id e s Ho Hn He Hr]; simpl in *; [done|].
    destruct IH as [IHs IHl]. split.
    + destruct (content r) as [c|] eqn:Ec; simpl; [|done]. constructor; [done|].
      specialize (Hr c eq_refl). apply StronglySorted_inv in IHs as [_ Hall].
      constructor; [done|]. eapply Forall_impl; [done|]. simpl. lia.
    + rewrite IHl. destruct (content r); done.
Qed.
Lemma trace_epochs r evs r' :
  register_trace r evs r' ->
  StronglySorted N.lt (option_list ((fun f => epoch_value (fence_epoch f)) <$> owner r)
                       ++ takeover_epochs evs).
Proof.
  induction 1 as [r|r ev r' evs r'' Hs _ IH].
  - destruct (owner r); simpl; repeat constructor.
  - destruct Hs as [r f Ho|r f id e s Ho Hn He Hr]; simpl in *.
    + destruct (owner r) as [o|] eqn:Eo; simpl; [|done]. constructor; [done|].
      specialize (Ho o eq_refl). apply StronglySorted_inv in IH as [_ Hall].
      constructor; [done|]. eapply Forall_impl; [done|]. simpl. lia.
    + by rewrite Ho in *.
Qed.

(** ** Properties *)

(** C5: The journal refines the register: the events of its accepted calls are a
    trace of the register from its initial state to the state the journal
    shows, a takeover carries the verified tenure of a fence call, and a swap
    installs the slice, expects the slice and acts under the fence of a
    prepare call with that operation id, after an activation of it was
    asked for. *)
Theorem journal_refines_register (sha256 : list byte -> bytes32) (scope : SourceScopeRef)
    (host : RuntimeHostId) (calls : list ApplyCall) :
  let j := journal_new scope host in
  register_trace register_new (run_events sha256 j calls)
    (register_of (journal_run sha256 j calls)) /\
  Forall (carried calls) (run_events sha256 j calls).
Proof.
  intros j. pose proof (journal_new_inv sha256 scope host) as Hj. split.
  - rewrite <-(register_of_new scope host). by apply run_simulates.
  - apply run_events_carried; [done| |done]. intros p. done.
Qed.

(** Through the register: whatever calls a target receives, each operation is
    swapped in at most once, the installed slices have strictly increasing
    source revisions and end with the active one, and the tenures that took
    over have strictly increasing epochs. *)
Theorem target_history_is_linear (sha256 : list byte -> bytes32) (scope : SourceScopeRef)
    (host : RuntimeHostId) (calls : list ApplyCall) :
  let j := journal_new scope host in
  let evs := run_events sha256 j calls in
  NoDup (swap_ids evs) /\
  StronglySorted N.lt (slice_revision <$> swap_slices evs) /\
  active_slice <$> active (journal_state (journal_run sha256 j calls)) = last (swap_slices evs) /\
  StronglySorted N.lt (takeover_epochs evs).
Proof.
  intros j evs.
  assert (register_trace register_new evs (register_of (journal_run sha256 j calls))) as H.
  { unfold evs. rewrite <-(register_of_new scope host).
    apply run_simulates, journal_new_inv. }
  split_and!.
  - apply (trace_swap_ids _ _ _ H).
  - apply (trace_revisions _ _ _ H).
  - apply (trace_revisions _ _ _ H).
  - apply (trace_epochs _ _ _ H).
Qed.

(** A takeover, a swap and another takeover, as the demo journal shows them. *)
Example demo_events :
  length (run_events toy_hash ApplyDemo.start
    (ApplyDemo.preparing ++ ApplyDemo.activating ++ ApplyDemo.turnover)) = 3%nat.
Proof. vm_compute. reflexivity. Qed.
