(* ===== verification/Admission.v ===== *)
(** * Request admission (crates/paraegox-runtime/src/admission.rs, request.rs)

    The trust policy, the replay and temporal ledgers and the admission of
    signed apply envelopes and complete requests.  Ed25519 (the
    ed25519-dalek crate) is a parameter: a class of operations on keys. *)

From S2P Require Import Prelude Bytes KernelTime KernelDigest ApplyContracts ApplyWire Assignment AssignmentWire ApplyState Signatures.
Open Scope rust_scope.

Definition ED25519_ALGORITHM : N := 1.
Definition ED25519_ALGORITHM_VERSION : N := 1.

(** ** Selectors and ledger keys *)

Record TenureTrustSelector := MkTenureTrustSelector {
  ts_source_scope : SourceScopeRef;
  ts_authority : TenureAuthorityRef;
  ts_key : TenureKeyRef;
  ts_algorithm : TenureProofAlgorithm;
  ts_algorithm_version : N;
}.
#[export] Instance TenureTrustSelector_eq_dec : EqDecision TenureTrustSelector.
Proof. solve_decision. Defined.
#[export] Instance TenureTrustSelector_countable : Countable TenureTrustSelector.
Proof.
  refine (inj_countable'
    (fun s => (scope_bytes (ts_source_scope s), authority_bytes (ts_authority s),
               key_bytes (ts_key s), algorithm_value (ts_algorithm s), ts_algorithm_version s))
    (fun '(s, a, k, g, v) => MkTenureTrustSelector (MkSourceScopeRef s) (MkTenureAuthorityRef a)
       (MkTenureKeyRef k) (MkTenureProofAlgorithm g) v) _).
  by intros [[] [] [] [] ?].
Defined.

Record ApplyTrustSelector := MkApplyTrustSelector {
  as_source_scope : SourceScopeRef;
  as_target : RuntimeHostId;
  as_principal : PrincipalRef;
  as_writer : PlanWriterRef;
  as_key : ApplyAuthKeyRef;
  as_algorithm : ApplyAuthAlgorithm;
  as_algorithm_version : N;
}.
#[export] Instance ApplyTrustSelector_eq_dec : EqDecision ApplyTrustSelector.
Proof. solve_decision. Defined.
#[export] Instance ApplyTrustSelector_countable : Countable ApplyTrustSelector.
Proof.
  refine (inj_countable'
    (fun s => (scope_bytes (as_source_scope s), host_bytes (as_target s),
               principal_bytes (as_principal s), writer_bytes (as_writer s),
               auth_key_bytes (as_key s), auth_algorithm_value (as_algorithm s),
               as_algorithm_version s))
    (fun '(s, t, p, w, k, g, v) => MkApplyTrustSelector (MkSourceScopeRef s) (MkRuntimeHostId t)
       (MkPrincipalRef p) (MkPlanWriterRef w) (MkApplyAuthKeyRef k) (MkApplyAuthAlgorithm g) v) _).
  by intros [[] [] [] [] [] [] ?].
Defined.

(** A trust selector with the nonce used under it. *)
Record TenureNonceKey := MkTenureNonceKey {
  tn_selector : TenureTrustSelector;
  tn_nonce : list byte;
}.
#[export] Instance TenureNonceKey_eq_dec : EqDecision TenureNonceKey.
Proof. solve_decision. Defined.
#[export] Instance TenureNonceKey_countable : Countable TenureNonceKey :=
  inj_countable' (fun k => (tn_selector k, tn_nonce k)) (fun '(s, n) => MkTenureNonceKey s n)
    (fun '(MkTenureNonceKey _ _) => eq_refl).
Record RequestNonceKey := MkRequestNonceKey {
  rn_selector : ApplyTrustSelector;
  rn_nonce : list byte;
}.
#[export] Instance RequestNonceKey_eq_dec : EqDecision RequestNonceKey.
Proof. solve_decision. Defined.
#[export] Instance RequestNonceKey_countable : Countable RequestNonceKey :=
  inj_countable' (fun k => (rn_selector k, rn_nonce k)) (fun '(s, n) => MkRequestNonceKey s n)
    (fun '(MkRequestNonceKey _ _) => eq_refl).
#[export] Instance TemporalConstraintId_countable : Countable TemporalConstraintId :=
  inj_countable' constraint_bytes MkTemporalConstraintId (fun '(MkTemporalConstraintId _) => eq_refl).

(** ** Configuration *)

Record AdmissionStateLimits := MkAdmissionStateLimits {
  tenure_nonce_capacity : N;
  request_nonce_capacity : N;
  temporal_lineage_capacity : N;
}.
Inductive AdmissionConfigurationError :=
| UnsupportedSignatureProfile
| InvalidVerifyingKey
| WeakVerifyingKey
| EmptyTenureTrust
| EmptyApplyTrust
| DuplicateTenureTrust
| DuplicateApplyTrust
| ZeroMaximumBudget
| ZeroTenureNonceCapacity
| ZeroRequestNonceCapacity
| ZeroTemporalLineageCapacity.

Definition limits_try_new (tenure_nonce_capacity request_nonce_capacity temporal_lineage_capacity : N)
    : result AdmissionConfigurationError AdmissionStateLimits :=
  bail ZeroTenureNonceCapacity when (tenure_nonce_capacity =? 0)%N;
  bail ZeroRequestNonceCapacity when (request_nonce_capacity =? 0)%N;
  bail ZeroTemporalLineageCapacity when (temporal_lineage_capacity =? 0)%N;
  Ok (MkAdmissionStateLimits tenure_nonce_capacity request_nonce_capacity temporal_lineage_capacity).

Definition ensure_ed25519_profile (algorithm algorithm_version : N)
    : result AdmissionConfigurationError unit :=
  bail UnsupportedSignatureProfile
    when negb (algorithm =? ED25519_ALGORITHM)%N || negb (algorithm_version =? ED25519_ALGORITHM_VERSION)%N;
  Ok tt.

Record TrustedTenureIdentity := MkTrustedTenureIdentity {
  ti_source_scope : SourceScopeRef;
  ti_authority_principal : PrincipalRef;
  ti_authority_uid : N;
  ti_authority_gid : N;
  ti_authority : TenureAuthorityRef;
}.
Record TrustedApplyIdentity := MkTrustedApplyIdentity {
  ai_source_scope : SourceScopeRef;
  ai_target : RuntimeHostId;
  ai_principal : PrincipalRef;
  ai_writer : PlanWriterRef;
}.

(** ** Ledgers *)

Record TemporalLedgerEntry := MkTemporalLedgerEntry {
  entry_source_scope : SourceScopeRef;
  entry_target : RuntimeHostId;
  entry_original_budget : BoundedDuration;
  entry_remaining_budget : BoundedDuration;
  entry_deadline : MonotonicDeadline;
}.
#[export] Instance TemporalLedgerEntry_eq_dec : EqDecision TemporalLedgerEntry.
Proof. solve_decision. Defined.

Record AdmissionState := MkAdmissionState {
  tenure_nonces : gmap TenureNonceKey Digest32;
  request_nonces : gmap RequestNonceKey Digest32;
  temporal : gmap TemporalConstraintId TemporalLedgerEntry;
}.
#[export] Instance AdmissionState_eq_dec : EqDecision AdmissionState.
Proof. solve_decision. Defined.
Definition for_new_boundary : AdmissionState := MkAdmissionState ∅ ∅ ∅.

Inductive AdmissionDisposition := Fresh | Replayed.
#[export] Instance AdmissionDisposition_eq_dec : EqDecision AdmissionDisposition.
Proof. solve_decision. Defined.
Record AdmissionTransition := MkAdmissionTransition {
  admission_next_state : AdmissionState;
  admitted : AdmittedApply;
  disposition : AdmissionDisposition;
}.

Inductive AdmissionError :=
| AdmWire (e : WireError)
| AdmContract (e : ApplyContractError)
| AdmEnvelope (e : EnvelopeContractError)
| AdmDigest (e : DigestBuildError)
| AdmTenureProof (e : TenureProofError)
| UntrustedTenureKey
| UntrustedApplyKey
| InvalidTenureSignatureLength
| InvalidRequestSignatureLength
| InvalidTenureSignature
| InvalidRequestSignature
| TenureNonceConflict
| RequestNonceConflict
| AdmissionStateInconsistent
| TenureNonceCapacityExceeded
| RequestNonceCapacityExceeded
| TemporalLineageCapacityExceeded
| TemporalLineageConflict
| AdmClockDomainMismatch
| AdmClockGenerationMismatch
| BudgetExceedsPolicy
| BudgetExpired
| BudgetExtended
| AdmDeadlineOverflow.

(** [<&[u8; 64]>::try_from(signature)]. *)
Definition parse_signature (signature : list byte) (invalid_length : AdmissionError)
    : result AdmissionError bytes64 :=
  ok_or (vec_of_list 64 signature) invalid_length.

Definition ensure_nonce_consistent {K : Type} `{Countable K} (ledger : gmap K Digest32) (key : K)
    (digest : Digest32) (conflict : AdmissionError) : result AdmissionError unit :=
  bail conflict when match ledger !! key with
                     | Some existing => bool_decide (existing <> digest)
                     | None => false
                     end;
  Ok tt.
Definition ensure_ledger_capacity {K V : Type} `{Countable K} (ledger : gmap K V) (key : K)
    (capacity : N) (capacity_exceeded : AdmissionError) : result AdmissionError unit :=
  bail capacity_exceeded
    when negb (bool_decide (is_Some (ledger !! key))) && (capacity <=? N.of_nat (size ledger))%N;
  Ok tt.

Definition earlier_deadline (first second : MonotonicDeadline) : MonotonicDeadline :=
  if (deadline_value first <=? deadline_value second)%N then first else second.
Definition map_deadline_error (error : TimeError) : AdmissionError :=
  match error with
  | TimeClockDomainMismatch => AdmClockDomainMismatch
  | TimeClockGenerationMismatch => AdmClockGenerationMismatch
  | DeadlineOverflow => AdmDeadlineOverflow
  | InvalidClockGeneration => AdmClockGenerationMismatch
  end.

(** The lineage check of [install_temporal] against an existing entry. *)
Definition lineage_conflict (previous : TemporalLedgerEntry) (temporal : ApplyTemporalConstraint)
    (source_scope : SourceScopeRef) (target : RuntimeHostId) : bool :=
  bool_decide (entry_source_scope previous <> source_scope)
  || bool_decide (entry_target previous <> target)
  || bool_decide (entry_original_budget previous <> original_budget temporal)
  || bool_decide (deadline_domain (entry_deadline previous) <> target_clock_domain temporal)
  || bool_decide (deadline_generation (entry_deadline previous) <> target_clock_generation temporal).

(** The tail of [install_temporal], after the previous entry was examined. *)
Definition install_deadline (temporal : ApplyTemporalConstraint) (source_scope : SourceScopeRef)
    (target : RuntimeHostId) (reading : ClockReading) (previous_deadline : option MonotonicDeadline)
    : result AdmissionError TemporalLedgerEntry :=
  candidate_deadline ← map_err map_deadline_error
    (try_deadline_after reading (remaining_budget temporal));
  let deadline := match previous_deadline with
                  | Some previous => earlier_deadline previous candidate_deadline
                  | None => candidate_deadline
                  end in
  Ok (MkTemporalLedgerEntry source_scope target (original_budget temporal)
        (remaining_budget temporal) deadline).

Definition install_temporal (temporal : ApplyTemporalConstraint) (source_scope : SourceScopeRef)
    (target : RuntimeHostId) (existing : option TemporalLedgerEntry) (reading : ClockReading)
    (maximum_budget : BoundedDuration) (exact_replay : bool)
    : result AdmissionError TemporalLedgerEntry :=
  bail AdmClockDomainMismatch
    when bool_decide (target_clock_domain temporal <> reading_domain reading);
  bail AdmClockGenerationMismatch
    when bool_decide (target_clock_generation temporal <> reading_generation reading);
  bail BudgetExceedsPolicy
    when (duration_value maximum_budget <? duration_value (original_budget temporal))%N;
  bail BudgetExpired when (duration_value (remaining_budget temporal) =? 0)%N;
  match existing with
  | Some previous =>
      bail TemporalLineageConflict when lineage_conflict previous temporal source_scope target;
      bail AdmissionStateInconsistent
        when exact_replay && (duration_value (remaining_budget temporal)
                              <? duration_value (entry_remaining_budget previous))%N;
      if exact_replay then Ok previous
      else
        bail BudgetExtended when (duration_value (entry_remaining_budget previous)
                                  <? duration_value (remaining_budget temporal))%N;
        expired ← map_err map_deadline_error (is_expired_at (entry_deadline previous) reading);
        bail BudgetExpired when expired;
        install_deadline temporal source_scope target reading (Some (entry_deadline previous))
  | None =>
      bail AdmissionStateInconsistent when exact_replay;
      install_deadline temporal source_scope target reading None
  end.

Section admission.
Context `{Ed25519} (sha256 : list byte -> bytes32).

Definition parse_trusted_key (bytes : bytes32) : result AdmissionConfigurationError VerifyingKey :=
  verifying_key ← ok_or (key_from_bytes bytes) InvalidVerifyingKey;
  bail WeakVerifyingKey when key_is_weak verifying_key;
  Ok verifying_key.

Record TrustedTenureBinding := MkTrustedTenureBinding {
  authority_principal : PrincipalRef;
  authority_uid : N;
  authority_gid : N;
  tenure_verifying_key : VerifyingKey;
}.
Record TrustedTenureKey := MkTrustedTenureKey {
  tenure_selector : TenureTrustSelector;
  tenure_binding : TrustedTenureBinding;
}.
Record TrustedApplyKey := MkTrustedApplyKey {
  apply_selector : ApplyTrustSelector;
  apply_verifying_key : VerifyingKey;
}.

Definition tenure_key_try_new (identity : TrustedTenureIdentity) (key : TenureKeyRef)
    (algorithm : TenureProofAlgorithm) (algorithm_version : N) (verifying_key : bytes32)
    : result AdmissionConfigurationError TrustedTenureKey :=
  _ ← ensure_ed25519_profile (algorithm_value algorithm) algorithm_version;
  verifying_key ← parse_trusted_key verifying_key;
  Ok (MkTrustedTenureKey
        (MkTenureTrustSelector (ti_source_scope identity) (ti_authority identity) key algorithm
           algorithm_version)
        (MkTrustedTenureBinding (ti_authority_principal identity) (ti_authority_uid identity)
           (ti_authority_gid identity) verifying_key)).

Definition apply_key_try_new (identity : TrustedApplyIdentity) (key : ApplyAuthKeyRef)
    (algorithm : ApplyAuthAlgorithm) (algorithm_version : N) (verifying_key : bytes32)
    : result AdmissionConfigurationError TrustedApplyKey :=
  _ ← ensure_ed25519_profile (auth_algorithm_value algorithm) algorithm_version;
  verifying_key ← parse_trusted_key verifying_key;
  Ok (MkTrustedApplyKey
        (MkApplyTrustSelector (ai_source_scope identity) (ai_target identity) (ai_principal identity)
           (ai_writer identity) key algorithm algorithm_version)
        verifying_key).

Record ApplyAdmissionPolicy := MkApplyAdmissionPolicy {
  maximum_budget : BoundedDuration;
  state_limits : AdmissionStateLimits;
  tenure_keys : gmap TenureTrustSelector TrustedTenureBinding;
  apply_keys : gmap ApplyTrustSelector VerifyingKey;
}.

(** A [for] loop that inserts and fails on an occupied key. *)
Definition insert_unique {K V : Type} `{Countable K} (duplicate : AdmissionConfigurationError)
    (entries : list (K * V)) : result AdmissionConfigurationError (gmap K V) :=
  try_fold (fun m '(k, v) =>
    bail duplicate when bool_decide (is_Some (m !! k));
    Ok (<[k := v]> m)) ∅ entries.

Definition admission_policy_try_new (maximum_budget : BoundedDuration)
    (state_limits : AdmissionStateLimits) (tenure_keys : list TrustedTenureKey)
    (apply_keys : list TrustedApplyKey) : result AdmissionConfigurationError ApplyAdmissionPolicy :=
  bail ZeroMaximumBudget when (duration_value maximum_budget =? 0)%N;
  trusted_tenure ← insert_unique DuplicateTenureTrust
    (map (fun t => (tenure_selector t, tenure_binding t)) tenure_keys);
  bail EmptyTenureTrust when bool_decide (size trusted_tenure = 0);
  trusted_apply ← insert_unique DuplicateApplyTrust
    (map (fun t => (apply_selector t, apply_verifying_key t)) apply_keys);
  bail EmptyApplyTrust when bool_decide (size trusted_apply = 0);
  Ok (MkApplyAdmissionPolicy maximum_budget state_limits trusted_tenure trusted_apply).

(** The selectors and nonce keys of an envelope. *)
Definition tenure_selector_of (envelope : RuntimeApplyEnvelope) : TenureTrustSelector :=
  let payload := env_control_commitment envelope in
  let proof_authority := proof_authority (context_proof (writer_context (control payload))) in
  MkTenureTrustSelector (source_scope (provenance (header (slice payload))))
    (authority proof_authority) (key proof_authority) (algorithm proof_authority)
    (algorithm_version proof_authority).
Definition apply_selector_of (envelope : RuntimeApplyEnvelope) : ApplyTrustSelector :=
  let payload := env_control_commitment envelope in
  let auth_claim := auth_claim (env_authentication envelope) in
  MkApplyTrustSelector (source_scope (provenance (header (slice payload))))
    (target (header (slice payload))) (auth_principal auth_claim)
    (context_writer (writer_context (control payload))) (auth_key auth_claim)
    (auth_algorithm auth_claim) (auth_algorithm_version auth_claim).
Definition tenure_nonce_of (envelope : RuntimeApplyEnvelope) : TenureNonceKey :=
  MkTenureNonceKey (tenure_selector_of envelope)
    (proof_nonce (context_proof (writer_context (control (env_control_commitment envelope))))).
Definition request_nonce_of (envelope : RuntimeApplyEnvelope) : RequestNonceKey :=
  MkRequestNonceKey (apply_selector_of envelope)
    (auth_nonce (auth_claim (env_authentication envelope))).

(** The first half of [admit_envelope]: trust and both signatures.  Returns
    the digest of the proof envelope. *)
Definition authenticate_envelope (policy : ApplyAdmissionPolicy) (envelope : RuntimeApplyEnvelope)
    : result AdmissionError Digest32 :=
  let payload := env_control_commitment envelope in
  _ ← map_err AdmContract (control_commitment_validate sha256 payload);
  let proof := context_proof (writer_context (control payload)) in
  let authentication := env_authentication envelope in
  tenure_key ← ok_or (tenure_keys policy !! tenure_selector_of envelope) UntrustedTenureKey;
  apply_key ← ok_or (apply_keys policy !! apply_selector_of envelope) UntrustedApplyKey;
  tenure_signature ← parse_signature (proof_signature proof) InvalidTenureSignatureLength;
  tenure_transcript ← map_err AdmTenureProof (proof_signing_transcript proof);
  bail InvalidTenureSignature
    when negb (verify_strict (tenure_verifying_key tenure_key) (transcript_bytes tenure_transcript)
                 tenure_signature);
  request_signature ← parse_signature (auth_signature authentication) InvalidRequestSignatureLength;
  request_transcript ← map_err AdmEnvelope (envelope_signing_transcript sha256 envelope);
  bail InvalidRequestSignature
    when negb (verify_strict apply_key (apply_transcript_bytes request_transcript)
                 request_signature);
  map_err AdmDigest (envelope_digest sha256 proof).

(** The second half: replay, temporal installation and capacity. *)
Definition admit_envelope (policy : ApplyAdmissionPolicy) (envelope : RuntimeApplyEnvelope)
    (state : AdmissionState) (reading : ClockReading) : result AdmissionError AdmissionTransition :=
  proof_envelope_digest ← authenticate_envelope policy envelope;
  let payload := env_control_commitment envelope in
  let source_scope := source_scope (provenance (header (slice payload))) in
  let target := target (header (slice payload)) in
  let writer_context := writer_context (control payload) in
  let proof_claim := proof_claim (context_proof writer_context) in
  let request_digest := env_request_digest envelope in
  let tenure_nonce_key := tenure_nonce_of envelope in
  let request_nonce_key := request_nonce_of envelope in
  _ ← ensure_nonce_consistent (tenure_nonces state) tenure_nonce_key proof_envelope_digest
    TenureNonceConflict;
  disposition ← match request_nonces state !! request_nonce_key with
                | None => Ok Fresh
                | Some existing =>
                    if bool_decide (existing = request_digest) then Ok Replayed
                    else Err RequestNonceConflict
                end;
  let temporal_id := constraint_id (env_temporal envelope) in
  let replayed := bool_decide (disposition = Replayed) in
  bail AdmissionStateInconsistent
    when replayed && (negb (bool_decide (is_Some (tenure_nonces state !! tenure_nonce_key)))
                      || negb (bool_decide (is_Some (temporal state !! temporal_id))));
  temporal_entry ← install_temporal (env_temporal envelope) source_scope target
    (temporal state !! temporal_id) reading (maximum_budget policy) replayed;
  _ ← ensure_ledger_capacity (tenure_nonces state) tenure_nonce_key
    (tenure_nonce_capacity (state_limits policy)) TenureNonceCapacityExceeded;
  _ ← ensure_ledger_capacity (request_nonces state) request_nonce_key
    (request_nonce_capacity (state_limits policy)) RequestNonceCapacityExceeded;
  _ ← ensure_ledger_capacity (temporal state) temporal_id
    (temporal_lineage_capacity (state_limits policy)) TemporalLineageCapacityExceeded;
  let verified_tenure :=
    MkVerifiedWriterTenure (claim_source_scope proof_claim) (context_writer writer_context)
      (context_epoch writer_context) (claim_supersedes_through_epoch proof_claim)
      proof_envelope_digest (auth_principal (auth_claim (env_authentication envelope))) in
  let admitted := MkAdmittedApply payload verified_tenure request_digest
                    (entry_deadline temporal_entry) replayed in
  let next_state :=
    MkAdmissionState (<[tenure_nonce_key := proof_envelope_digest]> (tenure_nonces state))
      (<[request_nonce_key := request_digest]> (request_nonces state))
      (<[temporal_id := temporal_entry]> (temporal state)) in
  Ok (MkAdmissionTransition next_state admitted disposition).

(** ** Complete requests *)

Inductive RuntimeRequestAdmissionError :=
| RequestWire (e : RequestWireError)
| RequestAdmission (e : AdmissionError).
Record RuntimeRequestAdmissionTransition := MkRequestAdmissionTransition {
  request_admission : AdmissionTransition;
  admitted_slice : RuntimePlanSlice;
}.
Definition admit_request (policy : ApplyAdmissionPolicy) (frame : list byte) (state : AdmissionState)
    (reading : ClockReading) : result RuntimeRequestAdmissionError RuntimeRequestAdmissionTransition :=
  request ← map_err RequestWire (decode_runtime_apply_request sha256 frame);
  admission ← map_err RequestAdmission
    (admit_envelope policy (request_envelope request) state reading);
  Ok (MkRequestAdmissionTransition admission (request_slice request)).
End admission.

(** ** What an accepted admission establishes *)

Section facts.
Context `{Ed25519} (sha256 : list byte -> bytes32).
Implicit Types (policy : ApplyAdmissionPolicy) (e : RuntimeApplyEnvelope) (st : AdmissionState)
  (r : ClockReading) (tr : AdmissionTransition).

(** Trust records and signatures of an envelope. *)
Definition authenticated (policy : ApplyAdmissionPolicy) (e : RuntimeApplyEnvelope) : Prop :=
  let proof := context_proof (writer_context (control (env_control_commitment e))) in
  control_commitment_validate sha256 (env_control_commitment e) = Ok tt /\
  exists tenure_key apply_key tenure_sig request_sig tenure_msg request_msg,
    tenure_keys policy !! tenure_selector_of e = Some tenure_key /\
    apply_keys policy !! apply_selector_of e = Some apply_key /\
    proof_signature proof = vec_to_list tenure_sig /\
    auth_signature (env_authentication e) = vec_to_list request_sig /\
    proof_signing_transcript proof = Ok tenure_msg /\
    envelope_signing_transcript sha256 e = Ok request_msg /\
    verify_strict (tenure_verifying_key tenure_key) (transcript_bytes tenure_msg) tenure_sig = true /\
    verify_strict apply_key (apply_transcript_bytes request_msg) request_sig = true.

Lemma authenticate_envelope_Ok policy e d :
  authenticate_envelope sha256 policy e = Ok d <->
  authenticated policy e /\
  envelope_digest sha256 (context_proof (writer_context (control (env_control_commitment e)))) = Ok d.
Proof.
  unfold authenticate_envelope, authenticated, parse_signature. split.
  - intros Ha. rust_inv. repeat match goal with x : unit |- _ => destruct x end.
    repeat match goal with H : vec_of_list _ _ = Some _ |- _ => apply vec_of_list_Some in H end.
    split; [|done]. split; [done|]. by repeat eexists.
  - intros ([Hv (tk & ak & ts & rs & tm & rm & Htk & Hak & Hts & Hrs & Htm & Hrm & Hvt & Hvr)] & Hd).
    rewrite Hv, Htk, Hak, Hts, Hrs, !vec_of_list_to_list, Htm, Hrm.
    cbn [map_err ok_or mbind result_mbind]. rewrite Hvt, Hvr.
    cbn [negb fail_if mbind result_mbind]. by rewrite Hd.
Qed.

(** Whether the ledgers take the envelope, and as what. *)
Definition nonce_disposition (e : RuntimeApplyEnvelope) (st : AdmissionState) (d : Digest32)
    (o : AdmissionDisposition) : Prop :=
  (forall d', tenure_nonces st !! tenure_nonce_of e = Some d' -> d' = d) /\
  match o with
  | Fresh => request_nonces st !! request_nonce_of e = None
  | Replayed =>
      request_nonces st !! request_nonce_of e = Some (env_request_digest e) /\
      is_Some (tenure_nonces st !! tenure_nonce_of e) /\
      is_Some (temporal st !! constraint_id (env_temporal e))
  end.
Definition has_room {K V : Type} `{Countable K} (m : gmap K V) (k : K) (capacity : N) : Prop :=
  is_Some (m !! k) \/ (N.of_nat (size m) < capacity)%N.

Lemma ensure_nonce_consistent_Ok {K : Type} `{Countable K} (m : gmap K Digest32) k d err u :
  ensure_nonce_consistent m k d err = Ok u <-> forall d', m !! k = Some d' -> d' = d.
Proof.
  unfold ensure_nonce_consistent. destruct u. destruct (m !! k) as [d'|]; [|naive_solver].
  case_bool_decide; cbn [fail_if mbind result_mbind]; naive_solver.
Qed.
Lemma ensure_ledger_capacity_Ok {K V : Type} `{Countable K} (m : gmap K V) k c err u :
  ensure_ledger_capacity m k c err = Ok u <-> has_room m k c.
Proof.
  unfold ensure_ledger_capacity, has_room. destruct u.
  case_bool_decide; cbn [negb andb fail_if mbind result_mbind]; [naive_solver|].
  destruct (N.leb_spec c (N.of_nat (size m))); cbn [fail_if mbind result_mbind]; naive_solver lia.
Qed.

(** The transition of an accepted envelope. *)
Definition transition_of (e : RuntimeApplyEnvelope) (st : AdmissionState) (d : Digest32)
    (entry : TemporalLedgerEntry) (o : AdmissionDisposition) : AdmissionTransition :=
  let cc := env_control_commitment e in
  let w := writer_context (control cc) in
  MkAdmissionTransition
    (MkAdmissionState (<[tenure_nonce_of e := d]> (tenure_nonces st))
       (<[request_nonce_of e := env_request_digest e]> (request_nonces st))
       (<[constraint_id (env_temporal e) := entry]> (temporal st)))
    (MkAdmittedApply cc
       (MkVerifiedWriterTenure (claim_source_scope (proof_claim (context_proof w)))
          (context_writer w) (context_epoch w)
          (claim_supersedes_through_epoch (proof_claim (context_proof w))) d
          (auth_principal (auth_claim (env_authentication e))))
       (env_request_digest e) (entry_deadline entry) (bool_decide (o = Replayed)))
    o.
Definition install_for (policy : ApplyAdmissionPolicy) (e : RuntimeApplyEnvelope)
    (st : AdmissionState) (r : ClockReading) (o : AdmissionDisposition)
    : result AdmissionError TemporalLedgerEntry :=
  install_temporal (env_temporal e)
    (source_scope (provenance (header (slice (env_control_commitment e)))))
    (target (header (slice (env_control_commitment e))))
    (temporal st !! constraint_id (env_temporal e)) r (maximum_budget policy)
    (bool_decide (o = Replayed)).

Lemma admit_envelope_Ok policy e st r tr :
  admit_envelope sha256 policy e st r = Ok tr <->
  exists d entry o,
    authenticated policy e /\
    envelope_digest sha256 (context_proof (writer_context (control (env_control_commitment e)))) = Ok d /\
    nonce_disposition e st d o /\ install_for policy e st r o = Ok entry /\
    has_room (tenure_nonces st) (tenure_nonce_of e) (tenure_nonce_capacity (state_limits policy)) /\
    has_room (request_nonces st) (request_nonce_of e) (request_nonce_capacity (state_limits policy)) /\
    has_room (temporal st) (constraint_id (env_temporal e))
      (temporal_lineage_capacity (state_limits policy)) /\
    tr = transition_of e st d entry o.
Proof.
  unfold admit_envelope. split.
  - intros Ha. rust_inv.
    match goal with Ha : authenticate_envelope _ _ _ = Ok _ |- _ =>
      apply authenticate_envelope_Ok in Ha as [Hauth Hd] end.
    repeat match goal with
    | H : ensure_nonce_consistent _ _ _ _ = Ok _ |- _ =>
        pose proof (proj1 (ensure_nonce_consistent_Ok _ _ _ _ _) H); clear H
    | H : ensure_ledger_capacity _ _ _ _ = Ok _ |- _ => apply ensure_ledger_capacity_Ok in H
    end.
    match goal with H : match _ with Some _ => _ | None => _ end = Ok ?o |- _ =>
      rename H into Hn; rename o into o' end.
    eexists _, _, o'. split; [done|]. split; [done|].
    split; [|split; [match goal with H : install_temporal _ _ _ _ _ _ _ = Ok _ |- _ => exact H end|done]].
    split; [done|].
    destruct (request_nonces st !! request_nonce_of e) as [x'|] eqn:E.
    + destruct (bool_decide (x' = env_request_digest e)) eqn:Eb; [|discriminate Hn].
      apply bool_decide_eq_true in Eb. apply Ok_inj in Hn as <-. subst.
      match goal with H : _ && _ = false |- _ => rename H into Hs end.
      rewrite bool_decide_eq_true_2 in Hs by done. cbn [andb] in Hs.
      apply orb_false_iff in Hs as [H1 H2]. apply negb_false_iff, bool_decide_eq_true in H1, H2. done.
    + apply Ok_inj in Hn as <-. done.
  - intros (d & entry & o & Ha & Hd & [Hn Ho] & Hi & H1 & H2 & H3 & ->).
    rewrite (proj2 (authenticate_envelope_Ok policy e d)) by done. cbn [mbind result_mbind].
    rewrite (proj2 (ensure_nonce_consistent_Ok _ _ _ _ tt)) by done. cbn [mbind result_mbind].
    assert (match request_nonces st !! request_nonce_of e with
            | Some existing => if bool_decide (existing = env_request_digest e) then Ok Replayed
                               else Err RequestNonceConflict
            | None => Ok Fresh
            end = Ok o) as ->.
    { destruct o; [by rewrite Ho|]. destruct Ho as [-> _]. by rewrite bool_decide_eq_true_2. }
    cbn [mbind result_mbind].
    assert (bool_decide (o = Replayed)
      && (negb (bool_decide (is_Some (tenure_nonces st !! tenure_nonce_of e)))
          || negb (bool_decide (is_Some (temporal st !! constraint_id (env_temporal e))))) = false) as ->.
    { destruct o; [done|]. destruct Ho as (_ & ? & ?). by repeat case_bool_decide. }
    cbn [fail_if mbind result_mbind]. unfold install_for in Hi. rewrite Hi. cbn [mbind result_mbind].
    do 3 (rewrite (proj2 (ensure_ledger_capacity_Ok _ _ _ _ tt)) by done; cbn [mbind result_mbind]).
    done.
Qed.
End facts.

(** ** Temporal installation *)

Lemma and_iff_dep (A B C : Prop) : (A -> B <-> C) -> (A /\ B <-> A /\ C).
Proof. tauto. Qed.
Lemma insert_subseteq_dec {K V : Type} `{Countable K} (m : gmap K V) k v :
  (forall v', m !! k = Some v' -> v' = v) -> m ⊆ <[k := v]> m.
Proof.
  intros Hv. destruct (m !! k) as [v'|] eqn:E; [|by apply insert_subseteq].
  rewrite (Hv v' eq_refl) in E. by rewrite insert_id.
Qed.

(** The entry belongs to the lineage the constraint names. *)
Definition lineage (p : TemporalLedgerEntry) (t : ApplyTemporalConstraint) (s : SourceScopeRef)
    (g : RuntimeHostId) : Prop :=
  entry_source_scope p = s /\ entry_target p = g /\ entry_original_budget p = original_budget t /\
  deadline_domain (entry_deadline p) = target_clock_domain t /\
  deadline_generation (entry_deadline p) = target_clock_generation t.
(** The deadline installed from the reading alone. *)
Definition fresh_deadline (t : ApplyTemporalConstraint) (r : ClockReading) : MonotonicDeadline :=
  MkMonotonicDeadline (reading_domain r) (reading_generation r)
    (from_ticks (now_value r + duration_value (remaining_budget t))).
(** The constraint is for this clock and has budget left within the policy. *)
Definition budget_ok (t : ApplyTemporalConstraint) (r : ClockReading) (m : BoundedDuration) : Prop :=
  target_clock_domain t = reading_domain r /\ target_clock_generation t = reading_generation r /\
  (duration_value (original_budget t) <= duration_value m)%N /\
  (1 <= duration_value (remaining_budget t))%N.

Lemma lineage_conflict_false p t s g : lineage_conflict p t s g = false <-> lineage p t s g.
Proof.
  unfold lineage_conflict, lineage. rewrite !orb_false_iff, !bool_decide_eq_false.
  split; [intros [[[[H1 H2] H3] H4] H5]; split_and!; by apply dec_stable|naive_solver].
Qed.
Lemma budget_checks {A : Type} t r m (k : result AdmissionError A) a :
  (bail AdmClockDomainMismatch when bool_decide (target_clock_domain t <> reading_domain r);
   bail AdmClockGenerationMismatch
     when bool_decide (target_clock_generation t <> reading_generation r);
   bail BudgetExceedsPolicy when (duration_value m <? duration_value (original_budget t))%N;
   bail BudgetExpired when (duration_value (remaining_budget t) =? 0)%N; k) = Ok a <->
  budget_ok t r m /\ k = Ok a.
Proof.
  unfold budget_ok. split.
  - intros H. rust_inv. repeat match goal with H : ~ (_ <> _) |- _ => apply dec_stable in H end.
    split_and!; done || lia.
  - intros ((H1 & H2 & H3 & H4) & H5). rewrite H1, H2, !bool_decide_ne_refl.
    cbn [fail_if mbind result_mbind]. rewrite (proj2 (N.ltb_ge _ _)), (proj2 (N.eqb_neq _ _)) by lia.
    done.
Qed.
Lemma install_deadline_Ok t s g r prev en :
  install_deadline t s g r prev = Ok en <->
  (now_value r + duration_value (remaining_budget t) <= u64_max)%N /\
  en = MkTemporalLedgerEntry s g (original_budget t) (remaining_budget t)
         match prev with
         | Some p => earlier_deadline p (fresh_deadline t r)
         | None => fresh_deadline t r
         end.
Proof.
  unfold install_deadline, try_deadline_after, checked_add, fresh_deadline.
  destruct (N.leb_spec (now_value r + duration_value (remaining_budget t)) u64_max);
    cbn [map_err mbind result_mbind]; [|split; [done|lia]].
  split; [intros H'%Ok_inj; subst; done|intros [_ ->]; done].
Qed.

(** Installation on every branch. *)
Lemma install_temporal_Ok t s g existing r m replay en :
  install_temporal t s g existing r m replay = Ok en <->
  budget_ok t r m /\
  match existing with
  | Some p =>
      lineage p t s g /\
      if replay then
        (duration_value (entry_remaining_budget p) <= duration_value (remaining_budget t))%N /\ en = p
      else
        (duration_value (remaining_budget t) <= duration_value (entry_remaining_budget p))%N /\
        (now_value r < deadline_value (entry_deadline p))%N /\
        (now_value r + duration_value (remaining_budget t) <= u64_max)%N /\
        en = MkTemporalLedgerEntry s g (original_budget t) (remaining_budget t)
               (earlier_deadline (entry_deadline p) (fresh_deadline t r))
  | None =>
      replay = false /\ (now_value r + duration_value (remaining_budget t) <= u64_max)%N /\
      en = MkTemporalLedgerEntry s g (original_budget t) (remaining_budget t) (fresh_deadline t r)
  end.
Proof.
  unfold install_temporal. rewrite budget_checks. apply and_iff_dep. intros Hb.
  destruct existing as [p|].
  - rewrite <-lineage_conflict_false. destruct (lineage_conflict p t s g) eqn:El; cbn.
    { split; [done|naive_solver]. }
    destruct replay; cbn.
    + destruct (N.ltb_spec (duration_value (remaining_budget t))
                  (duration_value (entry_remaining_budget p))); cbn; naive_solver lia.
    + destruct (N.ltb_spec (duration_value (entry_remaining_budget p))
                  (duration_value (remaining_budget t))); cbn; [naive_solver lia|].
      apply lineage_conflict_false in El as (_ & _ & _ & Hd & Hg). destruct Hb as (Hd' & Hg' & _).
      rewrite (is_expired_at_compatible (entry_deadline p) r) by (split; congruence).
      cbn [map_err mbind result_mbind]. destruct (N.leb_spec (deadline_value (entry_deadline p)) (now_value r));
        cbn [fail_if mbind result_mbind]; [naive_solver lia|]. rewrite install_deadline_Ok. naive_solver.
  - destruct replay; cbn; [naive_solver|]. rewrite install_deadline_Ok. naive_solver.
Qed.

(** ** Ledgers only tighten *)

(** The same lineage, with no later deadline and no larger budget. *)
Definition tightens (en' en : TemporalLedgerEntry) : Prop :=
  entry_source_scope en' = entry_source_scope en /\ entry_target en' = entry_target en /\
  entry_original_budget en' = entry_original_budget en /\
  deadline_domain (entry_deadline en') = deadline_domain (entry_deadline en) /\
  deadline_generation (entry_deadline en') = deadline_generation (entry_deadline en) /\
  (deadline_value (entry_deadline en') <= deadline_value (entry_deadline en))%N /\
  (duration_value (entry_remaining_budget en') <= duration_value (entry_remaining_budget en))%N.
#[export] Instance tightens_preorder : PreOrder tightens.
Proof.
  split; [intros en; unfold tightens; split_and!; done || lia|].
  intros a b c (?&?&?&?&?&?&?) (?&?&?&?&?&?&?). unfold tightens. split_and!; congruence || lia.
Qed.
Definition ledger_le (st st' : AdmissionState) : Prop :=
  tenure_nonces st ⊆ tenure_nonces st' /\ request_nonces st ⊆ request_nonces st' /\
  forall id en, temporal st !! id = Some en ->
    exists en', temporal st' !! id = Some en' /\ tightens en' en.
#[export] Instance ledger_le_preorder : PreOrder ledger_le.
Proof.
  split; [intros st; unfold ledger_le; split_and!; [done..|]; intros id en ?; by exists en|].
  intros a b c (? & ? & Hab) (? & ? & Hbc). unfold ledger_le. split_and!; [by etrans..|].
  intros id en (en1 & Hen1 & ?)%Hab. apply Hbc in Hen1 as (en2 & ? & ?). exists en2. split; [done|].
  by etrans.
Qed.
Lemma install_tightens t s g p r m replay en :
  install_temporal t s g (Some p) r m replay = Ok en -> tightens en p.
Proof.
  intros (Hb & (H1 & H2 & H3 & H4 & H5) & Hr)%install_temporal_Ok. destruct replay.
  - destruct Hr as [_ ->]. done.
  - destruct Hr as (Hle & _ & _ & ->). destruct Hb as (Hd & Hg & _). unfold tightens; cbn.
    unfold earlier_deadline, fresh_deadline.
    destruct (N.leb_spec (deadline_value (entry_deadline p))
      (deadline_value (MkMonotonicDeadline (reading_domain r) (reading_generation r)
         (from_ticks (now_value r + duration_value (remaining_budget t)))))); cbn in *;
      split_and!; try congruence; try lia.
Qed.

Section ledgers.
Context `{Ed25519} (sha256 : list byte -> bytes32) (policy : ApplyAdmissionPolicy).
Implicit Types (e : RuntimeApplyEnvelope) (st : AdmissionState) (r : ClockReading).

(** An admission whose snapshot is persisted. *)
Definition admission_step (st st' : AdmissionState) : Prop :=
  exists e r tr, admit_envelope sha256 policy e st r = Ok tr /\ st' = admission_next_state tr.
Abbreviation admission_steps := (rtc admission_step).

Lemma admit_ledger_le e st r tr :
  admit_envelope sha256 policy e st r = Ok tr -> ledger_le st (admission_next_state tr).
Proof.
  intros (d & en & o & _ & _ & [Hn Ho] & Hi & _ & _ & _ & ->)%admit_envelope_Ok. split_and!; cbn.
  - apply insert_subseteq_dec. intros d' Hd'. by apply Hn.
  - apply insert_subseteq_dec. destruct o; [by rewrite Ho|]. destruct Ho as [-> _]. by intros ? [= <-].
  - intros id en0 Hid. unfold install_for in Hi.
    destruct (decide (id = constraint_id (env_temporal e))) as [->|Hne].
    + rewrite lookup_insert_eq. exists en. split; [done|]. rewrite Hid in Hi. by eapply install_tightens.
    + rewrite lookup_insert_ne by done. by exists en0.
Qed.
Lemma steps_ledger_le st st' : admission_steps st st' -> ledger_le st st'.
Proof.
  induction 1 as [|st st1 st' (e & r & tr & Ha & ->) _ IH]; [done|].
  etrans; [by eapply admit_ledger_le|done].
Qed.
End ledgers.

Section bounds.
Context `{Ed25519} (sha256 : list byte -> bytes32) (policy : ApplyAdmissionPolicy).

(** ** Ledger sizes *)

Definition ledgers_within (l : AdmissionStateLimits) (st : AdmissionState) : Prop :=
  (N.of_nat (size (tenure_nonces st)) <= tenure_nonce_capacity l /\
   N.of_nat (size (request_nonces st)) <= request_nonce_capacity l /\
   N.of_nat (size (temporal st)) <= temporal_lineage_capacity l)%N.
Lemma insert_within {K V : Type} `{Countable K} (m : gmap K V) k v (c : N) :
  (N.of_nat (size m) <= c)%N -> has_room m k c -> (N.of_nat (size (<[k := v]> m)) <= c)%N.
Proof.
  intros Hm Hr. destruct (m !! k) as [v'|] eqn:E.
  - by rewrite map_size_insert_Some by eauto.
  - rewrite map_size_insert_None by done. destruct Hr as [[? ?]|]; [congruence|lia].
Qed.
Lemma admit_within e st r tr :
  ledgers_within (state_limits policy) st -> admit_envelope sha256 policy e st r = Ok tr ->
  ledgers_within (state_limits policy) (admission_next_state tr).
Proof.
  intros (H1 & H2 & H3) (d & en & o & _ & _ & _ & _ & Hr1 & Hr2 & Hr3 & ->)%admit_envelope_Ok.
  split_and!; by apply insert_within.
Qed.

(** ** Replays *)

(** What a run keeps of an admitted envelope. *)
Definition retained (e : RuntimeApplyEnvelope) (d : Digest32) (st : AdmissionState) : Prop :=
  tenure_nonces st !! tenure_nonce_of e = Some d /\
  request_nonces st !! request_nonce_of e = Some (env_request_digest e) /\
  exists en, temporal st !! constraint_id (env_temporal e) = Some en /\
    lineage en (env_temporal e) (source_scope (provenance (header (slice (env_control_commitment e)))))
      (target (header (slice (env_control_commitment e)))) /\
    (duration_value (entry_remaining_budget en) <= duration_value (remaining_budget (env_temporal e)))%N.
Lemma admit_retained e st r tr :
  admit_envelope sha256 policy e st r = Ok tr ->
  exists d, retained e d (admission_next_state tr) /\
    envelope_digest sha256 (context_proof (writer_context (control (env_control_commitment e)))) = Ok d /\
    authenticated sha256 policy e.
Proof.
  intros (d & en & o & Ha & Hd & _ & Hi & _ & _ & _ & ->)%admit_envelope_Ok.
  exists d. split; [|done]. unfold retained; cbn. rewrite !lookup_insert_eq. split_and!; [done..|].
  exists en. split; [done|]. unfold install_for in Hi.
  apply install_temporal_Ok in Hi as [(Hdom & Hgen & _) Hi].
  destruct (temporal st !! constraint_id (env_temporal e)) as [p|].
  - destruct Hi as [Hl Hi]. destruct (bool_decide (o = Replayed)).
    + destruct Hi as [? ->]. done.
    + destruct Hi as (_ & _ & _ & ->). split; [|done]. destruct Hl as (_ & _ & _ & ? & ?).
      unfold lineage, earlier_deadline; cbn. by destruct (_ <=? _)%N.
  - destruct Hi as (_ & _ & ->). split; [|done]. unfold lineage; cbn. done.
Qed.
Lemma retained_le e d st st' : ledger_le st st' -> retained e d st -> retained e d st'.
Proof.
  intros (Ht & Hr & Htemp) (H1 & H2 & en & Hen & (Hl1 & Hl2 & Hl3 & Hl4 & Hl5) & Hle).
  split_and!; [by eapply lookup_weaken..|].
  apply Htemp in Hen as (en' & Hen' & (? & ? & ? & ? & ? & ? & ?)). exists en'. split; [done|].
  unfold lineage. split_and!; try congruence. lia.
Qed.
(** A retained envelope is replayed, on any reading of its clock. *)
Lemma retained_replays e d st r :
  retained e d st -> authenticated sha256 policy e ->
  envelope_digest sha256 (context_proof (writer_context (control (env_control_commitment e)))) = Ok d ->
  budget_ok (env_temporal e) r (maximum_budget policy) ->
  exists en, temporal st !! constraint_id (env_temporal e) = Some en /\
    admit_envelope sha256 policy e st r = Ok (transition_of e st d en Replayed) /\
    admission_next_state (transition_of e st d en Replayed) = st.
Proof.
  intros (H1 & H2 & en & Hen & Hl & Hle) Ha Hd Hb. exists en. split; [done|]. split.
  - apply admit_envelope_Ok. exists d, en, Replayed. split; [done|]. split; [done|]. split.
    { split; [intros d' Hd'; congruence|]. rewrite H1, Hen. by eauto. }
    split; [|unfold has_room; rewrite H1, H2, Hen; eauto 10].
    unfold install_for. apply install_temporal_Ok. by rewrite Hen.
  - cbn. rewrite !insert_id by done. by destruct st.
Qed.
Lemma admit_budget_ok e st r tr :
  admit_envelope sha256 policy e st r = Ok tr -> budget_ok (env_temporal e) r (maximum_budget policy).
Proof.
  intros (d & en & o & _ & _ & _ & Hi & _)%admit_envelope_Ok. by apply install_temporal_Ok in Hi as [? _].
Qed.
Lemma admit_Replayed e st r tr :
  admit_envelope sha256 policy e st r = Ok tr ->
  request_nonces st !! request_nonce_of e <> None ->
  disposition tr = Replayed /\ admission_next_state tr = st /\
  request_nonces st !! request_nonce_of e = Some (env_request_digest e).
Proof.
  intros (d & en & o & _ & _ & [Hn Ho] & Hi & _ & _ & _ & ->)%admit_envelope_Ok Hs.
  destruct o; [done|]. destruct Ho as (Hr & [d' Hd'] & [en' Hen']). split; [done|]. split; [|done].
  unfold install_for in Hi. rewrite Hen' in Hi. apply install_temporal_Ok in Hi as (_ & _ & _ & ->).
  pose proof (Hn _ Hd') as ->. cbn. rewrite !insert_id by done. by destruct st.
Qed.

(** ** Complete requests *)

Lemma admit_request_Ok frame st r tr :
  admit_request sha256 policy frame st r = Ok tr <->
  exists q, decode_runtime_apply_request sha256 frame = Ok q /\ admitted_slice tr = request_slice q /\
    admit_envelope sha256 policy (request_envelope q) st r = Ok (request_admission tr).
Proof.
  unfold admit_request. destruct tr as [a s]. split.
  - intros Hq. rust_inv. by eexists.
  - intros (q & Hd & Hs & Ha). cbn in *. rewrite Hd. cbn [map_err mbind result_mbind]. rewrite Ha.
    by subst.
Qed.
(** The part of an envelope that is signed. *)
Definition envelope_draft (e : RuntimeApplyEnvelope) : RuntimeApplyEnvelopeDraft :=
  MkApplyEnvelopeDraft (env_control_commitment e) (env_temporal e) (auth_claim (env_authentication e)).
Lemma authenticated_draft_transcript e :
  authenticated sha256 policy e ->
  exists ak t s, apply_keys policy !! apply_selector_of e = Some ak /\
    draft_signing_transcript sha256 (envelope_draft e) = Ok t /\
    verify_strict ak (apply_transcript_bytes t) s = true.
Proof.
  intros (_ & tk & ak & ts & rs & tm & rm & _ & Hak & _ & _ & _ & Hrm & _ & Hv). by exists ak, rm, rs.
Qed.
End bounds.

(** ** Concrete values *)

Module AdmissionDemo.
Export ToySignatures.
Definition key_of (n : N) : bytes32 := digest_bytes (ContractDemo.digest n).
Definition demo_proof : WriterTenureProof :=
  let claim := ContractDemo.claim 8 2 1 in
  match signing_transcript_try_new ContractDemo.tenure_authority claim [x01; x02] with
  | Ok t => MkWriterTenureProof ContractDemo.tenure_authority claim [x01; x02]
              (vec_to_list (toy_sign (key_of 50) (transcript_bytes t)))
  | _ => ContractDemo.proof 8 2 1
  end.
Definition demo_control (operation : N) : RuntimeApplyControl :=
  MkRuntimeApplyControl
    (MkPlanWriterContext (MkPlanWriterRef (ContractDemo.ref 8)) (MkPlanWriterEpoch 2) demo_proof)
    ExpectNone (MkApplyOperationId (ContractDemo.ref operation)).
Definition demo_body : TargetAssignments :=
  AssignmentDemo.body_of [AssignmentDemo.binding 41 128; AssignmentDemo.binding 40 128].
Definition demo_temporal (remaining : N) : ApplyTemporalConstraint :=
  MkApplyTemporalConstraint APPLY_TEMPORAL_CONSTRAINT_VERSION
    (MkTemporalConstraintId (ContractDemo.ref 20)) (MkClockDomainRef (ContractDemo.ref 21))
    (MkClockGeneration 3) (from_nanos 1000) (from_nanos remaining).
Definition demo_draft (operation remaining : N) (nonce : byte) : option RuntimeApplyEnvelopeDraft :=
  match control_commitment_try_new toy_hash (AssignmentDemo.slice_of demo_body) (demo_control operation) with
  | Ok cc => Some (MkApplyEnvelopeDraft cc (demo_temporal remaining) (WireDemo.auth [nonce]))
  | _ => None
  end.
(** A signed request for an operation. *)
Definition demo_request (operation remaining : N) (nonce : byte) : option RuntimeApplyRequest :=
  match demo_draft operation remaining nonce with
  | Some d =>
      match draft_signing_transcript toy_hash d with
      | Ok t =>
          match draft_finalize toy_hash d
                  (vec_to_list (toy_sign (key_of 51) (apply_transcript_bytes t))) with
          | Ok e =>
              match apply_request_try_new toy_hash e
                      (MkRuntimePlanSlice (AssignmentDemo.slice_of demo_body) demo_body) with
              | Ok q => Some q
              | _ => None
              end
          | _ => None
          end
      | _ => None
      end
  | None => None
  end.
Definition demo_request1 : RuntimeApplyRequest :=
  Eval vm_compute in
    match demo_request 9 900 x05 with Some q => q | None => AssignmentDemo.request1 end.
(** The same operation retried under the same temporal lineage. *)
Definition demo_request2 : RuntimeApplyRequest :=
  Eval vm_compute in
    match demo_request 9 800 x06 with Some q => q | None => AssignmentDemo.request1 end.
Definition demo_policy : ApplyAdmissionPolicy :=
  MkApplyAdmissionPolicy (from_nanos 5000) (MkAdmissionStateLimits 4 4 4)
    {[ tenure_selector_of (request_envelope demo_request1) :=
         MkTrustedTenureBinding (MkPrincipalRef (ContractDemo.ref 52)) 10 10 (key_of 50) ]}
    {[ apply_selector_of (request_envelope demo_request1) := key_of 51 ]}.
Definition demo_reading (now : N) : ClockReading :=
  MkClockReading (MkClockDomainRef (ContractDemo.ref 21)) (MkClockGeneration 3) (from_ticks now).
Definition demo_transition (q : RuntimeApplyRequest) (st : AdmissionState) (now : N)
    : AdmissionTransition :=
  match admit_envelope toy_hash demo_policy (request_envelope q) st (demo_reading now) with
  | Ok tr => tr
  | _ => MkAdmissionTransition st
           (MkAdmittedApply (env_control_commitment (request_envelope q))
              (MkVerifiedWriterTenure (MkSourceScopeRef (ContractDemo.ref 0))
                 (MkPlanWriterRef (ContractDemo.ref 0)) (MkPlanWriterEpoch 0) (MkPlanWriterEpoch 0)
                 (ContractDemo.digest 0) (MkPrincipalRef (ContractDemo.ref 0)))
              (ContractDemo.digest 0) (MkMonotonicDeadline (MkClockDomainRef (ContractDemo.ref 0))
                 (MkClockGeneration 0) (from_ticks 0)) false) Fresh
  end.
Abbreviation state1 :=
  (admission_next_state (demo_transition demo_request1 for_new_boundary 100)).
Abbreviation state2 :=
  (admission_next_state (demo_transition demo_request2 state1 150)).
End AdmissionDemo.

Example demo_run :
  (bool_decide (disposition (AdmissionDemo.demo_transition AdmissionDemo.demo_request1 for_new_boundary 100) = Fresh),
   deadline_value (deadline (admitted (AdmissionDemo.demo_transition AdmissionDemo.demo_request1 for_new_boundary 100))),
   deadline_value (deadline (admitted (AdmissionDemo.demo_transition AdmissionDemo.demo_request2 AdmissionDemo.state1 150))))
  = (true, 1000%N, 950%N).
Proof. vm_compute. reflexivity. Qed.

(** ** Properties *)

Section properties.
Context `{Ed25519} (sha256 : list byte -> bytes32) (policy : ApplyAdmissionPolicy).

(** C29: A request whose nonce is new is admitted exactly when it is
    authenticated (valid commitment, both trust records present, both
    64-byte signatures verify on the rebuilt transcripts), its tenure nonce
    is not bound to another proof, its temporal constraint is for this
    clock, within the policy and not spent, its lineage is new or continued
    without extension before its deadline, the new deadline fits 64 bits,
    and every ledger has room. *)
Theorem fresh_admission_accepts_exactly (e : RuntimeApplyEnvelope) (st : AdmissionState)
    (r : ClockReading) :
  envelope_wf e ->
  request_nonces st !! request_nonce_of e = None ->
  (exists tr, admit_envelope sha256 policy e st r = Ok tr) <->
  authenticated sha256 policy e /\
  (forall d', tenure_nonces st !! tenure_nonce_of e = Some d' ->
     envelope_digest sha256 (context_proof (writer_context (control (env_control_commitment e))))
       = Ok d') /\
  budget_ok (env_temporal e) r (maximum_budget policy) /\
  (now_value r + duration_value (remaining_budget (env_temporal e)) <= u64_max)%N /\
  (forall p, temporal st !! constraint_id (env_temporal e) = Some p ->
     lineage p (env_temporal e) (source_scope (provenance (header (slice (env_control_commitment e)))))
       (target (header (slice (env_control_commitment e)))) /\
     (duration_value (remaining_budget (env_temporal e))
        <= duration_value (entry_remaining_budget p))%N /\
     (now_value r < deadline_value (entry_deadline p))%N) /\
  has_room (tenure_nonces st) (tenure_nonce_of e) (tenure_nonce_capacity (state_limits policy)) /\
  has_room (request_nonces st) (request_nonce_of e) (request_nonce_capacity (state_limits policy)) /\
  has_room (temporal st) (constraint_id (env_temporal e))
    (temporal_lineage_capacity (state_limits policy)).
Proof.
  intros ((_ & _ & _ & _ & Hp) & _) Hnew.
  rewrite (envelope_digest_eq sha256 _ (proof_wf_typed _ Hp)).
  set (d := MkDigest32 _).
  assert (envelope_digest sha256
    (context_proof (writer_context (control (env_control_commitment e)))) = Ok d) as Hd
    by exact (envelope_digest_eq sha256 _ (proof_wf_typed _ Hp)).
  split.
  - intros (tr & (d1 & en & o & Ha & Hd1 & [Hn Ho] & Hi & H1 & H2 & H3 & _)%admit_envelope_Ok).
    assert (o = Fresh) as -> by (destruct o; [done|destruct Ho; congruence]).
    rewrite Hd in Hd1. apply Ok_inj in Hd1 as <-.
    unfold install_for in Hi. apply install_temporal_Ok in Hi as [Hb Hi].
    change (bool_decide (Fresh = Replayed)) with false in Hi.
    split; [done|]. split; [intros d' ->%Hn; done|]. split; [done|].
    destruct (temporal st !! constraint_id (env_temporal e)) as [p|].
    + destruct Hi as (Hl & Hle & Hlt & Hov & _). split; [done|]. split; [|done]. by intros p' [= <-].
    + destruct Hi as (_ & Hov & _). split; [done|]. split; done.
  - intros (Ha & Hn & Hb & Hov & Hl & H1 & H2 & H3).
    assert (exists en, install_for policy e st r Fresh = Ok en) as [en Hi].
    { unfold install_for. change (bool_decide (Fresh = Replayed)) with false.
      setoid_rewrite install_temporal_Ok.
      destruct (temporal st !! constraint_id (env_temporal e)) as [p|]; [|by eexists].
      destruct (Hl p eq_refl) as (? & ? & ?). by eexists. }
    eexists. apply admit_envelope_Ok. exists d, en, Fresh. split; [done|]. split; [done|].
    split; [split; [|done]; intros d' Hd'%Hn; by apply Ok_inj in Hd'|]. done.
Qed.

(** C2: Whatever bytes arrive, a request is admitted only if the holder of the
    trusted apply key signed exactly that request: if every message that
    verifies under the key the policy trusts is the transcript of one of
    the drafts [signed], then the admitted commitment, temporal constraint
    and authentication claim are those of one of these drafts. *)
Theorem only_signed_requests_admitted (frame : list byte) (st : AdmissionState) (r : ClockReading)
    tr (signed : list RuntimeApplyEnvelopeDraft) :
  (forall selector ak m s, apply_keys policy !! selector = Some ak -> verify_strict ak m s = true ->
     exists d t, d ∈ signed /\ draft_signing_transcript sha256 d = Ok t /\
       m = apply_transcript_bytes t) ->
  Forall (fun d => commitment_wf (draft_control_commitment d) /\ temporal_wf (draft_temporal d) /\
                   auth_claim_wf (draft_auth_claim d)) signed ->
  admit_request sha256 policy frame st r = Ok tr ->
  exists q, decode_runtime_apply_request sha256 frame = Ok q /\
    envelope_draft (request_envelope q) ∈ signed /\
    payload (admitted (request_admission tr)) = env_control_commitment (request_envelope q).
Proof.
  intros Hsig Hwf (q & Hd & _ & Ha)%admit_request_Ok. exists q. split; [done|].
  apply decode_runtime_apply_request_wf in Hd as ([(Hc & Ht & Hauth & _) _] & _ & _).
  apply admit_envelope_Ok in Ha as (dg & en & o & Hauthd & _ & _ & _ & _ & _ & _ & ->).
  apply authenticated_draft_transcript in Hauthd as (ak & t & s & Hak & Htr & Hv).
  destruct (Hsig _ _ _ _ Hak Hv) as (d & t' & Hin & Htr' & Heq).
  split; [|done]. rewrite Forall_forall in Hwf. destruct (Hwf d Hin) as (Hc' & Ht' & Hauth').
  assert (t = t') as <- by (destruct t, t'; simpl in *; congruence).
  by rewrite (draft_transcript_inj sha256 (envelope_draft (request_envelope q)) d t
                Hc Hc' Ht Ht' Hauth Hauth' Htr Htr').
Qed.

(** A request nonce admits one request: after an envelope was admitted, an
    envelope under the same nonce is accepted in a later state only if it
    has the same request digest, and then as a replay that changes nothing. *)
Theorem request_nonce_admits_one_request (e e' : RuntimeApplyEnvelope) (st st' : AdmissionState)
    (r r' : ClockReading) tr tr' :
  admit_envelope sha256 policy e st r = Ok tr ->
  rtc (admission_step sha256 policy) (admission_next_state tr) st' ->
  admit_envelope sha256 policy e' st' r' = Ok tr' ->
  request_nonce_of e' = request_nonce_of e ->
  env_request_digest e' = env_request_digest e /\ disposition tr' = Replayed /\
  admission_next_state tr' = st'.
Proof.
  intros (d & Hret & _ & _)%admit_retained Hrun%steps_ledger_le Ha' Hk.
  apply (retained_le _ _ _ _ Hrun) in Hret as (_ & Hr & _). rewrite <-Hk in Hr.
  apply admit_Replayed in Ha' as (? & ? & Hr'); [|by rewrite Hr]. split; [|done]. congruence.
Qed.

(** A retry is never refused: after an envelope was admitted, admitting it
    again in any later state, on any reading of its clock domain and
    generation, succeeds as a replay, changes no ledger and returns the
    deadline in force, which is not later than the one first granted. *)
Theorem admitted_request_can_be_retried (e : RuntimeApplyEnvelope) (st st' : AdmissionState)
    (r r' : ClockReading) tr :
  admit_envelope sha256 policy e st r = Ok tr ->
  rtc (admission_step sha256 policy) (admission_next_state tr) st' ->
  reading_domain r' = reading_domain r -> reading_generation r' = reading_generation r ->
  exists tr', admit_envelope sha256 policy e st' r' = Ok tr' /\ disposition tr' = Replayed /\
    admission_next_state tr' = st' /\
    (deadline_value (deadline (admitted tr')) <= deadline_value (deadline (admitted tr)))%N.
Proof.
  intros Ha Hrun%steps_ledger_le Hdom Hgen. pose proof (admit_budget_ok _ _ _ _ _ _ Ha) as Hb.
  destruct (admit_retained _ _ _ _ _ _ Ha) as (d & Hret & Hd & Hauth).
  apply (retained_le _ _ _ _ Hrun) in Hret.
  destruct (retained_replays sha256 policy e d st' r' Hret Hauth Hd) as (en & Hen & Hok & Hst).
  { destruct Hb as (? & ? & ? & ?). split_and!; congruence. }
  exists (transition_of e st' d en Replayed). split; [done|]. split; [done|]. split; [done|].
  apply admit_envelope_Ok in Ha as (d0 & en0 & o & _ & _ & _ & _ & _ & _ & _ & ->).
  destruct Hrun as (_ & _ & Hle). specialize (Hle (constraint_id (env_temporal e)) en0).
  cbn in Hle. rewrite lookup_insert_eq in Hle. destruct (Hle eq_refl) as (en' & Hen' & Ht).
  rewrite Hen in Hen'. injection Hen' as <-. apply Ht.
Qed.

(** Deadlines only tighten: over any run of admissions the ledger entry of
    a temporal lineage is never removed, keeps its scope, target, original
    budget and clock, and neither its deadline nor its remaining budget ever
    grows; a fresh admission never grants more than its remaining budget
    from the reading. *)
Theorem deadlines_only_tighten (st st' : AdmissionState) :
  rtc (admission_step sha256 policy) st st' ->
  (forall id en, temporal st !! id = Some en ->
     exists en', temporal st' !! id = Some en' /\ tightens en' en) /\
  (forall e r tr, admit_envelope sha256 policy e st' r = Ok tr -> disposition tr = Fresh ->
     (now_value r < deadline_value (deadline (admitted tr))
        <= now_value r + duration_value (remaining_budget (env_temporal e)))%N).
Proof.
  intros Hrun. split; [by apply steps_ledger_le in Hrun as (_ & _ & ?)|].
  intros e r tr (d & en & o & _ & _ & _ & Hi & _ & _ & _ & ->)%admit_envelope_Ok Ho.
  cbn in Ho. subst o. unfold install_for in Hi.
  apply install_temporal_Ok in Hi as [(_ & _ & _ & Hb) Hi].
  change (bool_decide (Fresh = Replayed)) with false in Hi. cbn.
  destruct (temporal st' !! constraint_id (env_temporal e)) as [p|].
  - destruct Hi as (_ & _ & Hlt & _ & ->). cbn. unfold earlier_deadline.
    destruct (N.leb_spec (deadline_value (entry_deadline p))
      (deadline_value (fresh_deadline (env_temporal e) r))) as [Hle|Hle];
      unfold fresh_deadline, deadline_value in *; cbn in *; lia.
  - destruct Hi as (_ & _ & ->). unfold fresh_deadline, deadline_value; cbn. lia.
Qed.

(** The three ledgers never outgrow the configured capacities. *)
Theorem ledgers_bounded (st : AdmissionState) :
  rtc (admission_step sha256 policy) for_new_boundary st ->
  ledgers_within (state_limits policy) st.
Proof.
  assert (ledgers_within (state_limits policy) for_new_boundary) as H0.
  { unfold ledgers_within, for_new_boundary; cbn. rewrite !map_size_empty. lia. }
  revert H0. generalize for_new_boundary. intros st0 H0 Hrun.
  induction Hrun as [|st0 st1 st' (e & r & tr & Ha & ->) _ IH]; [done|].
  apply IH. by eapply admit_within.
Qed.

(** The body that accompanies an admitted request is the signed one: its
    slice commitment is the admitted slice, it validates, its bindings are
    well formed and one-to-one, and its digest is the assignment digest of
    the signed header. *)
Theorem admitted_body_is_signed (frame : list byte) (st : AdmissionState) (r : ClockReading) tr :
  admit_request sha256 policy frame st r = Ok tr ->
  let slice := slice (payload (admitted (request_admission tr))) in
  let body := plan_assignments (admitted_slice tr) in
  plan_commitment (admitted_slice tr) = slice /\
  slice_commitment_validate sha256 slice = Ok tt /\
  ta_assignment_digest body = assignment_digest (header slice) /\
  target_assignments_validate sha256 body = Ok tt /\
  Forall assignment_wf (assignments body) /\ one_to_one (assignments body).
Proof.
  intros (q & Hd & Hs & Ha)%admit_request_Ok. cbv zeta. rewrite Hs.
  apply decode_runtime_apply_request_wf in Hd as ([_ Hwf] & Hv & _).
  apply apply_request_validate_Ok in Hv as (_ & (Hsv & Hta & Hdg)%plan_slice_validate_Ok & Hsl & _).
  apply admit_envelope_Ok in Ha as (dg & en & o & _ & _ & _ & _ & _ & _ & _ & ->). cbn.
  rewrite Hsl. split_and!; try done.
  by apply target_assignments_validate_Ok, target_assignments_try_new_Ok in Hta as (_ & ? & _).
Qed.
End properties.

(** ** Witnesses *)

Module AdmissionWitness.
Import AdmissionDemo.
(** Verification of one signed request and its tenure proof, and nothing else. *)
Definition signed_tenure : list byte :=
  Eval vm_compute in
    match proof_signing_transcript demo_proof with Ok t => transcript_bytes t | _ => [] end.
Definition signed_draft : RuntimeApplyEnvelopeDraft :=
  Eval vm_compute in envelope_draft (request_envelope demo_request1).
Definition signed_message : list byte :=
  Eval vm_compute in
    match draft_signing_transcript toy_hash signed_draft with
    | Ok t => apply_transcript_bytes t | _ => []
    end.
Definition oracle_ed25519 : Ed25519 := {|
  VerifyingKey := bytes32;
  key_from_bytes := Some;
  key_is_weak k := false;
  verify_strict k m s :=
    (bool_decide (k = key_of 50) && bool_decide (m = signed_tenure))
    || (bool_decide (k = key_of 51) && bool_decide (m = signed_message));
|}.
Definition oracle_policy : @ApplyAdmissionPolicy oracle_ed25519 :=
  @MkApplyAdmissionPolicy oracle_ed25519 (from_nanos 5000) (MkAdmissionStateLimits 4 4 4)
    {[ tenure_selector_of (request_envelope demo_request1) :=
         @MkTrustedTenureBinding oracle_ed25519 (MkPrincipalRef (ContractDemo.ref 52)) 10 10
           (key_of 50) ]}
    {[ apply_selector_of (request_envelope demo_request1) := key_of 51 ]}.
Lemma oracle_unforgeable selector ak m s :
  @apply_keys oracle_ed25519 oracle_policy !! selector = Some ak ->
  @verify_strict oracle_ed25519 ak m s = true ->
  exists d t, d ∈ [signed_draft] /\ draft_signing_transcript toy_hash d = Ok t /\
    m = apply_transcript_bytes t.
Proof.
  intros Hk Hv. unfold oracle_policy in Hk. cbn [apply_keys] in Hk.
  apply lookup_singleton_Some in Hk as [_ <-].
  apply orb_true_iff in Hv as [Hv|Hv]; apply andb_true_iff in Hv as [Hk Hm].
  - apply bool_decide_eq_true in Hk. exfalso. revert Hk. vm_compute. discriminate.
  - apply bool_decide_eq_true in Hm. exists signed_draft, (MkApplySigningTranscript m).
    split; [left|]. split; [rewrite Hm; vm_compute; reflexivity|reflexivity].
Qed.
Lemma demo_transition_ok q st now :
  is_ok (admit_envelope toy_hash demo_policy (request_envelope q) st (demo_reading now)) = true ->
  admit_envelope toy_hash demo_policy (request_envelope q) st (demo_reading now) =
  Ok (demo_transition q st now).
Proof. unfold demo_transition. by destruct (admit_envelope _ _ _ _ _). Qed.
Lemma admitted1 :
  admit_envelope toy_hash demo_policy (request_envelope demo_request1) for_new_boundary
    (demo_reading 100) = Ok (demo_transition demo_request1 for_new_boundary 100).
Proof. apply demo_transition_ok. vm_compute. reflexivity. Qed.
Lemma admitted2 :
  admit_envelope toy_hash demo_policy (request_envelope demo_request2) state1
    (demo_reading 150) = Ok (demo_transition demo_request2 state1 150).
Proof. apply demo_transition_ok. vm_compute. reflexivity. Qed.
Lemma admitted3 :
  admit_envelope toy_hash demo_policy (request_envelope demo_request1) state2
    (demo_reading 5000) = Ok (demo_transition demo_request1 state2 5000).
Proof. apply demo_transition_ok. vm_compute. reflexivity. Qed.
Lemma run1 : rtc (admission_step toy_hash demo_policy) for_new_boundary state1.
Proof. apply rtc_once. eexists _, _, _. exact (conj admitted1 eq_refl). Qed.
Lemma run2 : rtc (admission_step toy_hash demo_policy) state1 state2.
Proof. apply rtc_once. eexists _, _, _. exact (conj admitted2 eq_refl). Qed.
End AdmissionWitness.

Lemma fresh_admission_accepts_exactly_witness :
  authenticated (H:=ToySignatures.toy_ed25519) toy_hash AdmissionDemo.demo_policy
    (request_envelope AdmissionDemo.demo_request1).
Proof.
  refine (proj1 (proj1 (fresh_admission_accepts_exactly (H:=ToySignatures.toy_ed25519)
    toy_hash AdmissionDemo.demo_policy (request_envelope AdmissionDemo.demo_request1)
    for_new_boundary (AdmissionDemo.demo_reading 100) _ _)
    (ex_intro _ _ AdmissionWitness.admitted1))).
  - decide_now.
  - vm_compute. reflexivity.
Defined.

Lemma only_signed_requests_admitted_witness :
  exists tr q, admit_request (H:=AdmissionWitness.oracle_ed25519) toy_hash AdmissionWitness.oracle_policy
      (request_canonical_wire AdmissionDemo.demo_request1) for_new_boundary
      (AdmissionDemo.demo_reading 100) = Ok tr /\
    decode_runtime_apply_request toy_hash (request_canonical_wire AdmissionDemo.demo_request1) = Ok q /\
    envelope_draft (request_envelope q) ∈ [AdmissionWitness.signed_draft].
Proof.
  destruct (is_ok_Ok (admit_request (H:=AdmissionWitness.oracle_ed25519) toy_hash
    AdmissionWitness.oracle_policy (request_canonical_wire AdmissionDemo.demo_request1)
    for_new_boundary (AdmissionDemo.demo_reading 100))) as [tr Htr]; [vm_compute; reflexivity|].
  destruct (only_signed_requests_admitted (H:=AdmissionWitness.oracle_ed25519) toy_hash
    AdmissionWitness.oracle_policy (request_canonical_wire AdmissionDemo.demo_request1)
    for_new_boundary (AdmissionDemo.demo_reading 100) tr [AdmissionWitness.signed_draft]
    AdmissionWitness.oracle_unforgeable) as (q & Hq & Hin & _); [decide_now|exact Htr|].
  exists tr, q. exact (conj Htr (conj Hq Hin)).
Defined.

(** The second request is not a reuse of the first one's nonce; a replay is. *)
Lemma request_nonce_admits_one_request_witness :
  disposition (AdmissionDemo.demo_transition AdmissionDemo.demo_request1 AdmissionDemo.state2 5000)
    = Replayed.
Proof.
  refine (proj1 (proj2 (request_nonce_admits_one_request (H:=ToySignatures.toy_ed25519) toy_hash
    AdmissionDemo.demo_policy (request_envelope AdmissionDemo.demo_request1)
    (request_envelope AdmissionDemo.demo_request1) for_new_boundary AdmissionDemo.state2
    (AdmissionDemo.demo_reading 100) (AdmissionDemo.demo_reading 5000)
    (AdmissionDemo.demo_transition AdmissionDemo.demo_request1 for_new_boundary 100) _
    AdmissionWitness.admitted1 AdmissionWitness.run2 AdmissionWitness.admitted3 eq_refl))).
Defined.

Lemma admitted_request_can_be_retried_witness :
  exists tr', admit_envelope (H:=ToySignatures.toy_ed25519) toy_hash AdmissionDemo.demo_policy
      (request_envelope AdmissionDemo.demo_request1) AdmissionDemo.state2
      (AdmissionDemo.demo_reading 5000) = Ok tr' /\ disposition tr' = Replayed /\
    admission_next_state tr' = AdmissionDemo.state2 /\
    (deadline_value (deadline (admitted tr'))
     <= deadline_value (deadline (admitted
          (AdmissionDemo.demo_transition AdmissionDemo.demo_request1 for_new_boundary 100))))%N.
Proof.
  refine (admitted_request_can_be_retried (H:=ToySignatures.toy_ed25519) toy_hash
    AdmissionDemo.demo_policy (request_envelope AdmissionDemo.demo_request1) for_new_boundary
    AdmissionDemo.state2 (AdmissionDemo.demo_reading 100) (AdmissionDemo.demo_reading 5000)
    (AdmissionDemo.demo_transition AdmissionDemo.demo_request1 for_new_boundary 100)
    AdmissionWitness.admitted1 AdmissionWitness.run2 eq_refl eq_refl).
Defined.

Lemma deadlines_only_tighten_witness :
  exists en en', temporal AdmissionDemo.state1 !! MkTemporalConstraintId (ContractDemo.ref 20) = Some en /\
    temporal AdmissionDemo.state2 !! MkTemporalConstraintId (ContractDemo.ref 20) = Some en' /\
    tightens en' en.
Proof.
  pose proof (proj1 (deadlines_only_tighten (H:=ToySignatures.toy_ed25519) toy_hash
    AdmissionDemo.demo_policy _ _ AdmissionWitness.run2) (MkTemporalConstraintId (ContractDemo.ref 20)))
    as Ht.
  destruct (temporal AdmissionDemo.state1 !! MkTemporalConstraintId (ContractDemo.ref 20)) as [en|] eqn:E;
    [|exfalso; revert E; vm_compute; discriminate].
  destruct (Ht en eq_refl) as (en' & He' & Hle). exists en, en'.
  exact (conj eq_refl (conj He' Hle)).
Defined.

Lemma ledgers_bounded_witness :
  ledgers_within (MkAdmissionStateLimits 4 4 4) AdmissionDemo.state1.
Proof.
  exact (ledgers_bounded (H:=ToySignatures.toy_ed25519) toy_hash AdmissionDemo.demo_policy
    AdmissionDemo.state1 AdmissionWitness.run1).
Defined.

Lemma admitted_body_is_signed_witness :
  exists tr, admit_request (H:=ToySignatures.toy_ed25519) toy_hash AdmissionDemo.demo_policy
      (request_canonical_wire AdmissionDemo.demo_request1) for_new_boundary
      (AdmissionDemo.demo_reading 100) = Ok tr /\
    one_to_one (assignments (plan_assignments (admitted_slice tr))).
Proof.
  destruct (is_ok_Ok (admit_request (H:=ToySignatures.toy_ed25519) toy_hash
    AdmissionDemo.demo_policy (request_canonical_wire AdmissionDemo.demo_request1)
    for_new_boundary (AdmissionDemo.demo_reading 100))) as [tr Htr]; [vm_compute; reflexivity|].
  exists tr. exact (conj Htr (proj2 (proj2 (proj2 (proj2 (proj2
    (admitted_body_is_signed (H:=ToySignatures.toy_ed25519) toy_hash AdmissionDemo.demo_policy
       (request_canonical_wire AdmissionDemo.demo_request1) for_new_boundary
       (AdmissionDemo.demo_reading 100) tr Htr))))))).
Defined.
