(* ===== verification/CardInstance.v ===== *)
(** * Card instances (crates/paraegox-runtime/src/card_instance.rs)

    The owner of one Card implementation: its lifecycle, the invocation
    identities it hands out and the fences that completions must present.
    The implementation behind the callback seam is a value of an arbitrary
    type; the owner never looks inside it. *)

From S2P Require Import Prelude KernelTime KernelDigest Assignment ApplyContracts MailboxModel.
Open Scope rust_scope.

Definition MAX_OUTPUT_PROPOSAL_BYTES : N := 1024 * 1024.

Inductive CardInstanceError :=
| CardInvalidEpoch
| EpochExhausted
| InvocationExhausted
| InvalidLifecycleTransition
| InvocationAlreadyActive
| InvocationNotActive
| InvocationsStillActive
| StaleCompletionFence
| OutputTooLarge.
#[export] Instance CardInstanceError_eq_dec : EqDecision CardInstanceError.
Proof. solve_decision. Defined.

(** ** Epochs: the [local_epoch!] types *)

Record RuntimeHostEpoch := MkRuntimeHostEpoch { host_epoch_value : N }.
#[export] Instance RuntimeHostEpoch_eq_dec : EqDecision RuntimeHostEpoch.
Proof. solve_decision. Defined.
Record DomainEpoch := MkDomainEpoch { domain_epoch_value : N }.
#[export] Instance DomainEpoch_eq_dec : EqDecision DomainEpoch.
Proof. solve_decision. Defined.
Record InstanceGeneration := MkInstanceGeneration { generation_epoch_value : N }.
#[export] Instance InstanceGeneration_eq_dec : EqDecision InstanceGeneration.
Proof. solve_decision. Defined.
Record InvocationId := MkInvocationId { invocation_value : N }.
#[export] Instance InvocationId_eq_dec : EqDecision InvocationId.
Proof. solve_decision. Defined.
#[export] Instance InvocationId_countable : Countable InvocationId :=
  inj_countable' invocation_value MkInvocationId (fun '(MkInvocationId _) => eq_refl).

(** [try_new] and [try_next] of an epoch type with constructor [mk] and
    accessor [value]. *)
Definition epoch_try_new {A : Type} (mk : N -> A) (value : N) : result CardInstanceError A :=
  if (value =? 0)%N then Err CardInvalidEpoch else Ok (mk value).
Definition epoch_try_next {A : Type} (mk : N -> A) (value : A -> N) (self : A)
    : result CardInstanceError A :=
  match checked_add u64_max (value self) 1 with
  | Some next => if (next =? 0)%N then Err EpochExhausted else Ok (mk next)
  | None => Err EpochExhausted
  end.

Record CardInstanceIdentity := MkCardInstanceIdentity {
  card_runtime_host : RuntimeHostId;
  card_runtime_host_epoch : RuntimeHostEpoch;
  card_planned_instance : InstanceRef;
  card_source_revision : SourcePlanRevision;
  card_target_slice_digest : TargetSliceDigest;
  card_domain_epoch : DomainEpoch;
  card_generation : InstanceGeneration;
}.
#[export] Instance CardInstanceIdentity_eq_dec : EqDecision CardInstanceIdentity.
Proof. solve_decision. Defined.

Inductive CardLifecycle :=
| Created
| Starting
| Started
| StartFailed
| Draining
| Stopping
| Stopped
| Poisoned.
#[export] Instance CardLifecycle_eq_dec : EqDecision CardLifecycle.
Proof. solve_decision. Defined.

(** ** Callback input and output *)

Record InputView := MkInputView {
  view_binding : BindingId;
  view_mailbox : MailboxRef;
  view_target_port : PortRef;
  view_message_id : MessageId;
  view_schema : SchemaRef;
  view_payload : list byte;
  view_run_deadline : MonotonicDeadline;
  view_fresh_until : MonotonicDeadline;
}.

Definition input_view_from_message (binding : BindingId) (mailbox : MailboxRef)
    (target_port : PortRef) (message : ValidatedMessage) : InputView :=
  {| view_binding := binding;
     view_mailbox := mailbox;
     view_target_port := target_port;
     view_message_id := msg_id message;
     view_schema := msg_schema message;
     view_payload := payload_data (msg_payload message);
     view_run_deadline := msg_run_deadline message;
     view_fresh_until := msg_fresh_until message |}.

Record OutputProposal := MkOutputProposal {
  output_port : PortRef;
  output_schema : SchemaRef;
  output_payload : list byte;
}.

Definition output_proposal_try_new (port : PortRef) (schema : SchemaRef) (payload : list byte)
    (assigned_maximum : N) : result CardInstanceError OutputProposal :=
  length ← ok_or (try_from u64_max (len payload)) OutputTooLarge;
  let effective_maximum := N.min assigned_maximum MAX_OUTPUT_PROPOSAL_BYTES in
  bail OutputTooLarge when (effective_maximum <? length)%N;
  Ok (MkOutputProposal port schema payload).

Record InvocationFence := MkInvocationFence {
  fence_runtime_host : RuntimeHostId;
  fence_runtime_host_epoch : RuntimeHostEpoch;
  fence_domain_epoch : DomainEpoch;
  fence_planned_instance : InstanceRef;
  fence_generation : InstanceGeneration;
  fence_invocation : InvocationId;
  fence_source_revision : SourcePlanRevision;
  fence_target_slice_digest : TargetSliceDigest;
}.
#[export] Instance InvocationFence_eq_dec : EqDecision InvocationFence.
Proof. solve_decision. Defined.

(** ** The owner *)

Section owner.
Context {Implementation : Type}.

Record CardInstanceOwner := MkCardInstanceOwner {
  identity : CardInstanceIdentity;
  lifecycle : CardLifecycle;
  implementation : Implementation;
  next_invocation : N;
  active_invocations : gset InvocationId;
}.

Definition owner_new (identity : CardInstanceIdentity) (implementation : Implementation)
    : CardInstanceOwner :=
  {| identity := identity;
     lifecycle := Created;
     implementation := implementation;
     next_invocation := 0;
     active_invocations := ∅ |}.

Definition with_lifecycle (self : CardInstanceOwner) (next : CardLifecycle) : CardInstanceOwner :=
  {| identity := identity self;
     lifecycle := next;
     implementation := implementation self;
     next_invocation := next_invocation self;
     active_invocations := active_invocations self |}.
Definition with_invocations (self : CardInstanceOwner) (next : N) (active : gset InvocationId)
    : CardInstanceOwner :=
  {| identity := identity self;
     lifecycle := lifecycle self;
     implementation := implementation self;
     next_invocation := next;
     active_invocations := active |}.

Abbreviation CardM := (M CardInstanceOwner CardInstanceError).

Definition fence (self : CardInstanceOwner) (invocation : InvocationId) : InvocationFence :=
  {| fence_runtime_host := card_runtime_host (identity self);
     fence_runtime_host_epoch := card_runtime_host_epoch (identity self);
     fence_domain_epoch := card_domain_epoch (identity self);
     fence_planned_instance := card_planned_instance (identity self);
     fence_generation := card_generation (identity self);
     fence_invocation := invocation;
     fence_source_revision := card_source_revision (identity self);
     fence_target_slice_digest := card_target_slice_digest (identity self) |}.

Definition transition (expected next : CardLifecycle) : CardM unit :=
  _ ← read (fun self => fail_if (bool_decide (lifecycle self <> expected))
                          InvalidLifecycleTransition);
  modify (fun self => with_lifecycle self next).

Definition begin_start : CardM unit := transition Created Starting.

Definition finish_start (succeeded : bool) : CardM unit :=
  transition Starting (if succeeded then Started else StartFailed).

Definition begin_invocation : CardM InvocationFence :=
  _ ← read (fun self => fail_if (bool_decide (lifecycle self <> Started))
                          InvalidLifecycleTransition);
  value ← read (fun self => ok_or (checked_add u64_max (next_invocation self) 1)
                              InvocationExhausted);
  invocation ← lift (epoch_try_new MkInvocationId value);
  _ ← read (fun self => fail_if (bool_decide (invocation ∈ active_invocations self))
                          InvocationAlreadyActive);
  _ ← modify (fun self =>
        with_invocations self (next_invocation self) ({[invocation]} ∪ active_invocations self));
  _ ← modify (fun self => with_invocations self value (active_invocations self));
  gets (fun self => fence self invocation).

Definition validate_completion (self : CardInstanceOwner) (f : InvocationFence)
    : result CardInstanceError unit :=
  bail StaleCompletionFence when bool_decide (f <> fence self (fence_invocation f));
  bail InvocationNotActive
    when negb (bool_decide (fence_invocation f ∈ active_invocations self));
  Ok tt.

(** The observer acts on the world [W] it was given. *)
Definition observe_output {W : Type} (self : CardInstanceOwner) (f : InvocationFence)
    (proposal : OutputProposal) (observe : OutputProposal -> W -> W) : M W CardInstanceError unit :=
  _ ← lift (validate_completion self f);
  modify (observe proposal).

Definition finish_invocation (f : InvocationFence) : CardM unit :=
  _ ← read (fun self => validate_completion self f);
  modify (fun self => with_invocations self (next_invocation self)
                        (active_invocations self ∖ {[fence_invocation f]})).

Definition begin_draining : CardM unit :=
  current ← gets lifecycle;
  match current with
  | Started | StartFailed | Poisoned => modify (fun self => with_lifecycle self Draining)
  | Draining => mret tt
  | _ => lift (Err InvalidLifecycleTransition)
  end.

Definition begin_stop : CardM unit :=
  _ ← read (fun self => fail_if (bool_decide (active_invocations self <> ∅))
                          InvocationsStillActive);
  transition Draining Stopping.

Definition finish_stop : CardM unit := transition Stopping Stopped.

Definition poison : CardM unit := modify (fun self => with_lifecycle self Poisoned).

(** ** Runs *)

Inductive CardCall :=
| CallBeginStart
| CallFinishStart (succeeded : bool)
| CallBeginInvocation
| CallFinishInvocation (f : InvocationFence)
| CallBeginDraining
| CallBeginStop
| CallFinishStop
| CallPoison.

(** The owner after a call, and the fence the call handed out. *)
Definition card_step (o : CardInstanceOwner) (call : CardCall)
    : CardInstanceOwner * option InvocationFence :=
  let silent (m : CardM unit) := (fst (m o), None) in
  match call with
  | CallBeginStart => silent begin_start
  | CallFinishStart b => silent (finish_start b)
  | CallBeginInvocation =>
      let '(o', res) := begin_invocation o in
      (o', match res with Ok f => Some f | _ => None end)
  | CallFinishInvocation f => silent (finish_invocation f)
  | CallBeginDraining => silent begin_draining
  | CallBeginStop => silent begin_stop
  | CallFinishStop => silent finish_stop
  | CallPoison => silent poison
  end.

(** The owner after a run, with the fences handed out, in order. *)
Fixpoint card_run (o : CardInstanceOwner) (calls : list CardCall)
    : CardInstanceOwner * list InvocationFence :=
  match calls with
  | [] => (o, [])
  | c :: calls =>
      let '(o1, issued) := card_step o c in
      let '(o2, rest) := card_run o1 calls in
      (o2, match issued with Some f => f :: rest | None => rest end)
  end.

Definition card_reachable (o : CardInstanceOwner) : Prop :=
  exists id impl calls, o = fst (card_run (owner_new id impl) calls).

(** ** The invariant *)

Record card_inv (o : CardInstanceOwner) : Prop := {
  cinv_active : forall i, i ∈ active_invocations o -> (1 <= invocation_value i <= next_invocation o)%N;
  cinv_next : (next_invocation o <= u64_max)%N;
  cinv_stopped : lifecycle o = Stopping \/ lifecycle o = Stopped -> active_invocations o = ∅;
  cinv_unstarted : lifecycle o = Created \/ lifecycle o = Starting \/ lifecycle o = StartFailed ->
    next_invocation o = 0%N;
}.

(** Where one call can take the lifecycle and the invocation set. *)
Inductive card_move (o : CardInstanceOwner) : CardInstanceOwner -> option InvocationFence -> Prop :=
| card_same : card_move o o None
| card_lifecycle next :
    (lifecycle o, next) ∈ [(Created, Starting); (Starting, Started); (Starting, StartFailed);
      (Started, Draining); (StartFailed, Draining); (Poisoned, Draining);
      (Draining, Stopping); (Stopping, Stopped)] \/ next = Poisoned ->
    (next = Stopping -> active_invocations o = ∅) ->
    card_move o (with_lifecycle o next) None
| card_begin :
    lifecycle o = Started -> (next_invocation o < u64_max)%N ->
    let i := MkInvocationId (next_invocation o + 1) in
    card_move o (with_invocations o (next_invocation o + 1) ({[i]} ∪ active_invocations o))
      (Some (fence o i))
| card_finish f :
    f = fence o (fence_invocation f) -> fence_invocation f ∈ active_invocations o ->
    card_move o (with_invocations o (next_invocation o)
                   (active_invocations o ∖ {[fence_invocation f]})) None.

Lemma validate_completion_Ok o f :
  validate_completion o f = Ok tt <->
  f = fence o (fence_invocation f) /\ fence_invocation f ∈ active_invocations o.
Proof.
  unfold validate_completion.
  destruct (decide (f = fence o (fence_invocation f))) as [He|He].
  - rewrite (bool_decide_eq_false_2 (f <> _)) by tauto. simpl. case_bool_decide; simpl; naive_solver.
  - rewrite (bool_decide_eq_true_2 (f <> _)) by done. simpl. naive_solver.
Qed.

Lemma transition_move o expected next :
  (expected, next) ∈ [(Created, Starting); (Starting, Started); (Starting, StartFailed);
      (Started, Draining); (StartFailed, Draining); (Poisoned, Draining);
      (Draining, Stopping); (Stopping, Stopped)] ->
  (next = Stopping -> active_invocations o = ∅) ->
  card_move o (fst (transition expected next o)) None.
Proof.
  intros Hin Hs. unfold transition. rewrite run_read. case_bool_decide as Hd; simpl.
  - apply card_same.
  - apply card_lifecycle; [left; by rewrite Hd|done].
Qed.

Lemma begin_invocation_cases o :
  card_inv o ->
  (begin_invocation o = (o, Err InvalidLifecycleTransition) /\ lifecycle o <> Started) \/
  (begin_invocation o = (o, Err InvocationExhausted) /\ lifecycle o = Started /\
   next_invocation o = u64_max) \/
  (let i := MkInvocationId (next_invocation o + 1) in
   begin_invocation o =
     (with_invocations o (next_invocation o + 1) ({[i]} ∪ active_invocations o), Ok (fence o i)) /\
   lifecycle o = Started /\ (next_invocation o < u64_max)%N).
Proof.
  intros Ho. unfold begin_invocation. rewrite run_read. case_bool_decide as Hl; simpl; [by left|].
  right. rewrite run_read. unfold checked_add.
  pose proof (cinv_next o Ho). destruct (N.leb_spec (next_invocation o + 1) u64_max); simpl.
  2: { left. split_and!; [done..|lia]. }
  right. unfold epoch_try_new. destruct (N.eqb_spec (next_invocation o + 1) 0); [lia|].
  rewrite run_bind, run_lift, run_read.
  rewrite bool_decide_eq_false_2.
  2: { intros Hin. apply (cinv_active o Ho) in Hin. simpl in Hin. lia. }
  simpl. split_and!; [|done|lia]. done.
Qed.

Lemma card_step_move o call :
  card_inv o -> card_move o (fst (card_step o call)) (snd (card_step o call)).
Proof.
  intros Ho. destruct call as [|b| |f| | | |]; cbn [card_step fst snd].
  - apply transition_move; [set_solver|done].
  - apply transition_move; [destruct b; set_solver|by destruct b].
  - destruct (begin_invocation_cases o Ho) as [[-> _]|[[-> _]|(-> & Hl & Hn)]]; simpl;
      [apply card_same..|by apply card_begin].
  - unfold finish_invocation. rewrite run_read.
    destruct (validate_completion o f) as [[]|e|] eqn:Ev; simpl; [|apply card_same..].
    apply validate_completion_Ok in Ev as [??]. by apply card_finish.
  - unfold begin_draining. rewrite run_gets.
    destruct (lifecycle o) eqn:El; simpl; try apply card_same;
      (apply card_lifecycle; [left; rewrite El; set_solver|done]).
  - unfold begin_stop. rewrite run_read. case_bool_decide as He; simpl; [apply card_same|].
    apply transition_move; [set_solver|]. done.
  - apply transition_move; [set_solver|done].
  - apply card_lifecycle; [by right|done].
Qed.

Lemma card_move_inv o o' issued : card_inv o -> card_move o o' issued -> card_inv o'.
Proof.
  intros [Ha Hn Hs Hu] Hm. destruct Hm as [|next Hnext He|Hl Hlt i|f Hf Hin]; [by split| | |].
  - split; simpl; [done|done| |].
    + intros [->| ->]; [by apply He|]. destruct Hnext as [Hnext|]; [|done].
      apply Hs. left. set_solver.
    + intros Hx. destruct Hnext as [Hnext| ->]; [|naive_solver].
      apply Hu. revert Hnext Hx. destruct (lifecycle o), next; set_solver.
  - split; simpl.
    + intros j [->%elem_of_singleton|Hj]%elem_of_union; [unfold i; simpl; lia|].
      apply Ha in Hj. lia.
    + lia.
    + rewrite Hl. intros [|]; done.
    + rewrite Hl. intros [|[|]]; done.
  - split; simpl; [|done| |done].
    + intros j Hj. apply Ha. set_solver.
    + intros Hl. rewrite (Hs Hl). set_solver.
Qed.
Lemma owner_new_inv id impl : card_inv (owner_new id impl).
Proof. split; simpl; [set_solver|unfold u64_max; lia|done|done]. Qed.

(** Induction over runs: a relation between the owner before, the owner after
    and the fences handed out. *)
Lemma card_run_ind (R : CardInstanceOwner -> CardInstanceOwner -> list InvocationFence -> Prop) :
  (forall o, card_inv o -> R o o []) ->
  (forall o o1 issued o2 rest, card_inv o -> card_move o o1 issued -> R o1 o2 rest ->
    R o o2 (match issued with Some f => f :: rest | None => rest end)) ->
  forall calls o, card_inv o ->
    card_inv (fst (card_run o calls)) /\ R o (fst (card_run o calls)) (snd (card_run o calls)).
Proof.
  intros H0 H1 calls. induction calls as [|c calls IH]; intros o Ho; [by split; [|apply H0]|].
  simpl. pose proof (card_step_move o c Ho) as Hm.
  destruct (card_step o c) as [o1 issued]. simpl in Hm.
  pose proof (card_move_inv _ _ _ Ho Hm) as Ho1. destruct (IH o1 Ho1) as [Hi HR].
  destruct (card_run o1 calls) as [o2 rest]. simpl in *. eauto.
Qed.
Lemma card_reachable_inv o : card_reachable o -> card_inv o.
Proof.
  intros (id & impl & calls & ->).
  by destruct (card_run_ind (fun _ _ _ => True) (fun _ _ => I) (fun _ _ _ _ _ _ _ _ => I)
    calls _ (owner_new_inv id impl)).
Qed.

Lemma card_move_identity o o' issued : card_move o o' issued -> identity o' = identity o.
Proof. by intros []. Qed.
Lemma fence_identity o o' i : identity o' = identity o -> fence o' i = fence o i.
Proof. unfold fence. by intros ->. Qed.

(** The fences of a run carry consecutive invocation ids. *)
Lemma card_run_issued calls o :
  card_inv o ->
  let '(o', issued) := card_run o calls in
  next_invocation o' = (next_invocation o + len issued)%N /\
  identity o' = identity o /\
  issued = map (fun k => fence o (MkInvocationId (next_invocation o + N.of_nat k)))
             (seq 1 (length issued)).
Proof.
  intros Ho. pose proof (card_run_ind (fun o o' issued =>
    next_invocation o' = (next_invocation o + len issued)%N /\ identity o' = identity o /\
    issued = map (fun k => fence o (MkInvocationId (next_invocation o + N.of_nat k)))
               (seq 1 (length issued)))) as Hind.
  destruct (card_run o calls) as [o' issued] eqn:E.
  destruct (Hind) with (calls := calls) (o := o) as [_ H]; [| |done|rewrite E in H; exact H].
  - intros. unfold len; simpl. split_and!; [lia|done..].
  - clear. intros o o1 issued o2 rest Ho Hm (Hn & Hid & Hrest).
    pose proof (card_move_identity _ _ _ Hm) as Hid1.
    assert (match issued with
      | Some f => f = fence o (MkInvocationId (next_invocation o + 1)) /\
          next_invocation o1 = (next_invocation o + 1)%N
      | None => next_invocation o1 = next_invocation o end) as Hiss by (by destruct Hm).
    destruct issued as [f|].
    + destruct Hiss as [-> Hn1]. rewrite len_cons. split_and!; [lia|congruence|].
      simpl. f_equal. rewrite Hrest at 1. rewrite <-(seq_shift _ 1), map_map.
      apply map_ext. intros k. rewrite Hn1, (fence_identity o o1) by done.
      do 2 f_equal. lia.
    + split_and!; [lia|congruence|]. rewrite Hrest at 1. apply map_ext. intros k.
      rewrite Hiss. by apply fence_identity.
Qed.

(** Finishing an id at or below the counter retires it for good; an active
    fence stays valid until its own finish. *)
Lemma card_move_inactive o o' issued i :
  card_move o o' issued -> (invocation_value i <= next_invocation o)%N ->
  i ∉ active_invocations o ->
  (invocation_value i <= next_invocation o')%N /\ i ∉ active_invocations o'.
Proof.
  intros Hm Hle Hi. destruct Hm as [|next Hnext He|Hl Hlt j|f Hf Hin]; simpl; [done..| |].
  - split; [lia|]. assert (i <> j); [|set_solver]. intros ->. unfold j in Hle. simpl in Hle. lia.
  - set_solver.
Qed.
Lemma card_run_inactive calls o i :
  card_inv o -> (invocation_value i <= next_invocation o)%N -> i ∉ active_invocations o ->
  i ∉ active_invocations (fst (card_run o calls)).
Proof.
  intros Ho. apply (card_run_ind (fun o o' _ => (invocation_value i <= next_invocation o)%N ->
    i ∉ active_invocations o -> i ∉ active_invocations o')); [done| |done].
  intros o0 o1 issued o2 rest _ Hm IH Hle Hi.
  destruct (card_move_inactive _ _ _ i Hm Hle Hi). auto.
Qed.
Lemma card_run_identity calls o :
  card_inv o -> identity (fst (card_run o calls)) = identity o.
Proof.
  intros Ho. pose proof (card_run_issued calls o Ho) as H.
  destruct (card_run o calls). by destruct H as (_ & ? & _).
Qed.
Lemma transition_active o expected next :
  active_invocations (fst (transition expected next o)) = active_invocations o.
Proof. unfold transition. rewrite run_read. by case_bool_decide. Qed.
Lemma card_step_active o call f :
  card_inv o -> call <> CallFinishInvocation f -> f = fence o (fence_invocation f) ->
  fence_invocation f ∈ active_invocations o ->
  fence_invocation f ∈ active_invocations (fst (card_step o call)).
Proof.
  intros Ho Hne Hf Hin. destruct call as [|b| |g| | | |]; cbn [card_step fst].
  1,2,7: unfold begin_start, finish_start, finish_stop; by rewrite transition_active.
  - destruct (begin_invocation_cases o Ho) as [[-> _]|[[-> _]|(-> & _ & _)]]; simpl; set_solver.
  - unfold finish_invocation. rewrite run_read.
    destruct (validate_completion o g) as [[]|e|] eqn:Ev; simpl; [|done..].
    apply validate_completion_Ok in Ev as [Hg _].
    assert (fence_invocation g <> fence_invocation f); [congruence|set_solver].
  - unfold begin_draining. rewrite run_gets. by destruct (lifecycle o).
  - unfold begin_stop. rewrite run_read. case_bool_decide; simpl; [done|].
    by rewrite transition_active.
  - done.
Qed.
Lemma validate_completion_inactive o f :
  f = fence o (fence_invocation f) -> fence_invocation f ∉ active_invocations o ->
  validate_completion o f = Err InvocationNotActive.
Proof.
  intros Hf Hi. unfold validate_completion.
  rewrite (bool_decide_eq_false_2 (f <> _)) by tauto. simpl. by rewrite bool_decide_eq_false_2.
Qed.
Lemma validate_until_finished calls o f :
  card_inv o -> Forall (fun c => c <> CallFinishInvocation f) calls ->
  f = fence o (fence_invocation f) -> fence_invocation f ∈ active_invocations o ->
  validate_completion (fst (card_run o calls)) f = Ok tt.
Proof.
  revert o; induction calls as [|c calls IH]; intros o Ho Hcalls Hf Hin.
  { by apply validate_completion_Ok. }
  apply Forall_cons in Hcalls as [Hc Hcalls]. simpl.
  pose proof (card_step_active o c f Ho Hc Hf Hin) as Hact.
  pose proof (card_step_move o c Ho) as Hm.
  destruct (card_step o c) as [o1 issued]. simpl in Hact, Hm.
  assert (validate_completion (fst (card_run o1 calls)) f = Ok tt) as H.
  { apply IH; [by eapply card_move_inv|done| |done].
    rewrite (fence_identity o o1); [done|by eapply card_move_identity]. }
  by destruct (card_run o1 calls).
Qed.
Lemma card_run_retired calls o :
  card_inv o -> lifecycle o <> Created /\ lifecycle o <> Starting /\ lifecycle o <> Started ->
  (lifecycle (fst (card_run o calls)) <> Created /\
   lifecycle (fst (card_run o calls)) <> Starting /\
   lifecycle (fst (card_run o calls)) <> Started) /\ snd (card_run o calls) = [].
Proof.
  intros Ho. apply (card_run_ind (fun o o' issued =>
    lifecycle o <> Created /\ lifecycle o <> Starting /\ lifecycle o <> Started ->
    (lifecycle o' <> Created /\ lifecycle o' <> Starting /\ lifecycle o' <> Started) /\
    issued = [])); [done| |done].
  clear o Ho. intros o o1 issued o2 rest _ Hm IH Hl.
  destruct Hm as [|next Hnext He|Hs Hlt i|f Hf Hin]; [by apply IH| |naive_solver|by apply IH].
  apply IH. simpl. destruct Hnext as [Hnext| ->]; [|done].
  revert Hnext Hl. destruct (lifecycle o), next; set_solver.
Qed.
End owner.

Arguments CardInstanceOwner : clear implicits.

(** ** Concrete owners *)

Module CardDemo.
Definition ref (n : byte) : bytes16 := Vector.const n 16.
Definition card_identity (generation : N) : CardInstanceIdentity :=
  MkCardInstanceIdentity (MkRuntimeHostId (ref x01)) (MkRuntimeHostEpoch 1)
    (MkInstanceRef (ref x02)) (MkSourcePlanRevision 5)
    (MkTargetSliceDigest (MkDigest32 (Vector.const x03 32))) (MkDomainEpoch 1)
    (MkInstanceGeneration generation).
Definition fresh (generation : N) : CardInstanceOwner unit := owner_new (card_identity generation) tt.
Definition started (generation : N) : CardInstanceOwner unit :=
  fst (card_run (fresh generation) [CallBeginStart; CallFinishStart true]).
Definition busy : CardInstanceOwner unit := fst (begin_invocation (started 1)).
Definition draining : CardInstanceOwner unit := fst (card_run busy [CallBeginDraining]).
Definition first_fence : InvocationFence := fence (fresh 1) (MkInvocationId 1).
Lemma started_reachable generation : card_reachable (started generation).
Proof. by eexists _, _, _. Defined.
Lemma card_busy_reachable : card_reachable busy.
Proof. by eexists _, _, [CallBeginStart; CallFinishStart true; CallBeginInvocation]. Defined.
Lemma draining_reachable : card_reachable draining.
Proof.
  by eexists _, _, [CallBeginStart; CallFinishStart true; CallBeginInvocation; CallBeginDraining].
Defined.
End CardDemo.

(** ** Properties *)

(** Whatever calls an owner receives, the invocation fences it hands out
    carry the ids 1, 2, 3, ... in order, under the owner's own identity, and
    the counter never leaves 64 bits: no fence is handed out twice. *)
Theorem invocation_fences_are_numbered {I : Type} (id : CardInstanceIdentity) (impl : I)
    (calls : list CardCall) :
  let '(o, issued) := card_run (owner_new id impl) calls in
  issued = map (fun k => fence (owner_new id impl) (MkInvocationId (N.of_nat k)))
             (seq 1 (length issued)) /\
  NoDup issued /\
  next_invocation o = len issued /\ (len issued <= u64_max)%N.
Proof.
  pose proof (card_run_issued calls _ (owner_new_inv id impl)) as H.
  pose proof (card_reachable_inv (fst (card_run (owner_new id impl) calls))
    ltac:(by eexists _, _, _)) as Hi.
  destruct (card_run (owner_new id impl) calls) as [o issued]. simpl in H, Hi.
  destruct H as (Hn & _ & Hiss). pose proof (cinv_next o Hi).
  assert (NoDup issued).
  { rewrite Hiss. apply NoDup_fmap_2_strong; [|apply NoDup_seq].
    intros x y _ _ Hxy. apply (f_equal fence_invocation) in Hxy. simpl in Hxy.
    injection Hxy as Hxy. lia. }
  split_and!; [done..|lia|lia].
Qed.

(** C37: A finished invocation is retired for good: after [finish_invocation]
    accepts a fence, every later completion with it is refused with
    [InvocationNotActive], a second finish changes nothing, and no output
    presented with it reaches the observer. *)
Theorem finished_fence_refused_forever {I W : Type} (o o1 : CardInstanceOwner I)
    (f : InvocationFence) (calls : list CardCall) (proposal : OutputProposal)
    (observe : OutputProposal -> W -> W) (w : W) :
  card_reachable o ->
  finish_invocation f o = (o1, Ok tt) ->
  let o2 := fst (card_run o1 calls) in
  validate_completion o2 f = Err InvocationNotActive /\
  finish_invocation f o2 = (o2, Err InvocationNotActive) /\
  observe_output o2 f proposal observe w = (w, Err InvocationNotActive).
Proof.
  intros Ho%card_reachable_inv Hfin o2. unfold finish_invocation in Hfin. rewrite run_read in Hfin.
  destruct (validate_completion o f) as [[]|e|] eqn:Ev; [|done..].
  unfold modify in Hfin. injection Hfin as <-.
  apply validate_completion_Ok in Ev as [Hf Hin].
  pose proof (card_move_inv _ _ _ Ho (card_finish o f Hf Hin)) as Ho1.
  assert (validate_completion o2 f = Err InvocationNotActive) as Hv.
  { apply validate_completion_inactive; unfold o2.
    - rewrite Hf at 1. symmetry. apply fence_identity. by rewrite card_run_identity.
    - apply card_run_inactive; simpl; [done|by apply (cinv_active o Ho)|set_solver]. }
  split; [done|]. unfold finish_invocation, observe_output. rewrite run_read, Hv.
  split; [done|]. reflexivity.
Qed.

Lemma finished_fence_refused_forever_witness :
  finish_invocation CardDemo.first_fence (fst (finish_invocation CardDemo.first_fence CardDemo.busy))
    = (fst (finish_invocation CardDemo.first_fence CardDemo.busy), Err InvocationNotActive).
Proof.
  destruct (finished_fence_refused_forever (W := unit) CardDemo.busy
    (fst (finish_invocation CardDemo.first_fence CardDemo.busy)) CardDemo.first_fence []
    (MkOutputProposal (MkPortRef (CardDemo.ref x04))
       (MkSchemaRef (CardDemo.ref x05) 1 (MkDigest32 (Vector.const x06 32))) [])
    (fun _ w => w) tt CardDemo.card_busy_reachable) as (_ & H & _).
  - vm_compute. reflexivity.
  - exact H.
Defined.

(** A fence handed out by [begin_invocation] is accepted until that very
    invocation is finished, whatever else happens to the owner: further
    invocations, draining, poisoning. *)
Theorem issued_fence_valid_until_finished {I : Type} (o o1 : CardInstanceOwner I)
    (f : InvocationFence) (calls : list CardCall) :
  card_reachable o ->
  begin_invocation o = (o1, Ok f) ->
  Forall (fun c => c <> CallFinishInvocation f) calls ->
  validate_completion (fst (card_run o1 calls)) f = Ok tt.
Proof.
  intros Ho%card_reachable_inv Hb Hcalls.
  destruct (begin_invocation_cases o Ho) as [[Hb' _]|[[Hb' _]|(Hb' & Hl & Hn)]];
    rewrite Hb' in Hb; [done..|]. injection Hb as <- <-.
  apply validate_until_finished; [|done|done|simpl; set_solver].
  eapply card_move_inv; [done|by apply card_begin].
Qed.

Lemma issued_fence_valid_until_finished_witness :
  validate_completion (fst (card_run CardDemo.busy [CallBeginInvocation; CallBeginDraining; CallPoison]))
    CardDemo.first_fence = Ok tt.
Proof.
  apply (issued_fence_valid_until_finished (CardDemo.started 1) CardDemo.busy).
  - exact (CardDemo.started_reachable 1).
  - vm_compute. reflexivity.
  - repeat constructor; discriminate.
Defined.

(** A completion credential from any other generation of the card (another
    host or host epoch, domain epoch, planned instance, generation, source
    revision or slice digest) is refused as stale, and its output never
    reaches the observer. *)
Theorem foreign_fence_is_stale {I J W : Type} (o : CardInstanceOwner I) (o' : CardInstanceOwner J)
    (i : InvocationId) (proposal : OutputProposal) (observe : OutputProposal -> W -> W) (w : W) :
  identity o' <> identity o ->
  validate_completion o (fence o' i) = Err StaleCompletionFence /\
  observe_output o (fence o' i) proposal observe w = (w, Err StaleCompletionFence).
Proof.
  intros Hne. assert (validate_completion o (fence o' i) = Err StaleCompletionFence) as Hv.
  { unfold validate_completion. rewrite (bool_decide_eq_true_2 (fence o' i <> _)); [done|].
    intros Heq. apply Hne. unfold fence in Heq. simpl in Heq. injection Heq as ???????.
    destruct (identity o'), (identity o). simpl in *. congruence. }
  split; [done|]. unfold observe_output. rewrite run_bind, run_lift, Hv. reflexivity.
Qed.

Lemma foreign_fence_is_stale_witness :
  validate_completion (CardDemo.started 2) CardDemo.first_fence = Err StaleCompletionFence.
Proof.
  apply (foreign_fence_is_stale (W := unit) (CardDemo.started 2) (CardDemo.fresh 1)
    (MkInvocationId 1) (MkOutputProposal (MkPortRef (CardDemo.ref x04))
       (MkSchemaRef (CardDemo.ref x05) 1 (MkDigest32 (Vector.const x06 32))) [])
    (fun _ w => w) tt).
  vm_compute. congruence.
Defined.

(** The callback [on_stop] is never started over a running invocation: a
    stopping or stopped card has none, [begin_stop] succeeds exactly on a
    draining card with none, and reports [InvocationsStillActive] otherwise. *)
Theorem stop_waits_for_invocations {I : Type} (o : CardInstanceOwner I) :
  card_reachable o ->
  (lifecycle o = Stopping \/ lifecycle o = Stopped -> active_invocations o = ∅) /\
  snd (begin_stop o) =
    if decide (active_invocations o = ∅)
    then if decide (lifecycle o = Draining) then Ok tt else Err InvalidLifecycleTransition
    else Err InvocationsStillActive.
Proof.
  intros Ho%card_reachable_inv. split; [apply (cinv_stopped o Ho)|].
  unfold begin_stop, transition. rewrite run_read.
  case_bool_decide as He; simpl; case_decide; try done.
  rewrite run_read. case_bool_decide; simpl; by case_decide.
Qed.

Lemma stop_waits_for_invocations_witness :
  snd (begin_stop CardDemo.draining) = Err InvocationsStillActive.
Proof.
  rewrite (proj2 (stop_waits_for_invocations CardDemo.draining CardDemo.draining_reachable)).
  vm_compute. reflexivity.
Defined.

(** Once a card has left [Created], [Starting] and [Started] (it failed to
    start, drains, stops or is poisoned) it never runs again: no sequence of
    calls makes it [Started] and no further invocation is handed out. *)
Theorem no_invocation_after_started {I : Type} (o : CardInstanceOwner I) (calls : list CardCall) :
  card_reachable o ->
  lifecycle o <> Created -> lifecycle o <> Starting -> lifecycle o <> Started ->
  lifecycle (fst (card_run o calls)) <> Started /\ snd (card_run o calls) = [].
Proof.
  intros Ho%card_reachable_inv H1 H2 H3.
  destruct (card_run_retired calls o Ho) as [(_ & _ & H) Hi]; done.
Qed.

Lemma no_invocation_after_started_witness :
  lifecycle (fst (card_run CardDemo.draining [CallPoison; CallBeginStart; CallFinishStart true]))
    <> Started /\
  snd (card_run CardDemo.draining [CallBeginInvocation]) = [].
Proof.
  split.
  - apply (no_invocation_after_started CardDemo.draining
      [CallPoison; CallBeginStart; CallFinishStart true] CardDemo.draining_reachable);
      vm_compute; congruence.
  - apply (no_invocation_after_started CardDemo.draining
      [CallBeginInvocation] CardDemo.draining_reachable); vm_compute; congruence.
Defined.

(** A callback's output proposal is accepted exactly when it fits both the
    assigned maximum and the one-mebibyte cap, and is kept unchanged. *)
Theorem output_proposal_bounded (port : PortRef) (schema : SchemaRef) (bytes : list byte)
    (assigned_maximum : N) :
  output_proposal_try_new port schema bytes assigned_maximum =
    if (len bytes <=? N.min assigned_maximum MAX_OUTPUT_PROPOSAL_BYTES)%N
    then Ok (MkOutputProposal port schema bytes) else Err OutputTooLarge.
Proof.
  unfold output_proposal_try_new, try_from.
  assert (MAX_OUTPUT_PROPOSAL_BYTES <= u64_max)%N by (vm_compute; congruence).
  destruct (N.leb_spec (len bytes) (N.min assigned_maximum MAX_OUTPUT_PROPOSAL_BYTES)).
  - destruct (N.leb_spec (len bytes) u64_max); [|lia]. simpl.
    by rewrite (proj2 (N.ltb_ge _ _)).
  - destruct (N.leb_spec (len bytes) u64_max); [|done]. simpl.
    by rewrite (proj2 (N.ltb_lt _ _)).
Qed.
