(* ===== verification/HostWatchdog.v ===== *)
(** * RuntimeHost watchdog frames (crates/paraegox-runtime/src/host_watchdog.rs)

    The PXHW protocol between a RuntimeHost process and the service manager
    that owns it: forty-byte frames that carry the child generation, a
    direction-local sequence and a typed body. *)

From Stdlib Require Import Strings.String.
From S2P Require Import Prelude Bytes.
Open Scope rust_scope.

Inductive HostWatchdogProtocolError :=
| WrongLength
| MagicMismatch
| UnsupportedVersion
| UnknownKind
| ZeroGeneration
| ZeroSequence
| ZeroControlProbeNonce
| InvalidBody
| NonZeroReserved.

Definition HOST_WATCHDOG_PROTOCOL_MAGIC : list byte := ascii_bytes "PXHW"%string.
Definition HOST_WATCHDOG_PROTOCOL_VERSION : N := 1.
Definition HOST_WATCHDOG_FRAME_BYTES : N := 40.

Definition BOOTSTRAP_PROGRESS_KIND : N := 1.
Definition RUNNING_HEARTBEAT_KIND : N := 2.
Definition CONTROL_PROBE_KIND : N := 3.
Definition CONTROL_ACK_KIND : N := 4.

Record HostWatchdogGeneration := MkHostWatchdogGeneration { watchdog_generation_value : N }.
#[export] Instance HostWatchdogGeneration_eq_dec : EqDecision HostWatchdogGeneration.
Proof. solve_decision. Defined.
Definition watchdog_generation_try_new (value : N)
    : result HostWatchdogProtocolError HostWatchdogGeneration :=
  if (value =? 0)%N then Err ZeroGeneration else Ok (MkHostWatchdogGeneration value).

Record HostWatchdogSequence := MkHostWatchdogSequence { watchdog_sequence_value : N }.
#[export] Instance HostWatchdogSequence_eq_dec : EqDecision HostWatchdogSequence.
Proof. solve_decision. Defined.
Definition watchdog_sequence_try_new (value : N)
    : result HostWatchdogProtocolError HostWatchdogSequence :=
  if (value =? 0)%N then Err ZeroSequence else Ok (MkHostWatchdogSequence value).

Record HostControlProbeNonce := MkHostControlProbeNonce { probe_nonce_value : N }.
#[export] Instance HostControlProbeNonce_eq_dec : EqDecision HostControlProbeNonce.
Proof. solve_decision. Defined.
Definition probe_nonce_try_new (value : N)
    : result HostWatchdogProtocolError HostControlProbeNonce :=
  if (value =? 0)%N then Err ZeroControlProbeNonce else Ok (MkHostControlProbeNonce value).

Inductive HostBootstrapPhase := ReactorStarted | ControlReady | PhaseRunning.
#[export] Instance HostBootstrapPhase_eq_dec : EqDecision HostBootstrapPhase.
Proof. solve_decision. Defined.

(** [phase as u64]. *)
Definition phase_u64 (phase : HostBootstrapPhase) : N :=
  match phase with ReactorStarted => 1 | ControlReady => 2 | PhaseRunning => 3 end.
Definition phase_try_from_wire (value : N) : result HostWatchdogProtocolError HostBootstrapPhase :=
  match value with
  | 1 => Ok ReactorStarted
  | 2 => Ok ControlReady
  | 3 => Ok PhaseRunning
  | _ => Err InvalidBody
  end%N.

Inductive HostWatchdogDirection := HostToManager | ManagerToHost.
#[export] Instance HostWatchdogDirection_eq_dec : EqDecision HostWatchdogDirection.
Proof. solve_decision. Defined.

Inductive HostWatchdogFrameBody :=
| BootstrapProgress (phase : HostBootstrapPhase)
| RunningHeartbeat
| ControlProbe (nonce : HostControlProbeNonce)
| ControlAck (nonce : HostControlProbeNonce).

Definition body_direction (self : HostWatchdogFrameBody) : HostWatchdogDirection :=
  match self with
  | BootstrapProgress _ | RunningHeartbeat | ControlAck _ => HostToManager
  | ControlProbe _ => ManagerToHost
  end.
Definition wire_kind (self : HostWatchdogFrameBody) : N :=
  match self with
  | BootstrapProgress _ => BOOTSTRAP_PROGRESS_KIND
  | RunningHeartbeat => RUNNING_HEARTBEAT_KIND
  | ControlProbe _ => CONTROL_PROBE_KIND
  | ControlAck _ => CONTROL_ACK_KIND
  end.
Definition wire_value (self : HostWatchdogFrameBody) : N :=
  match self with
  | BootstrapProgress phase => phase_u64 phase
  | RunningHeartbeat => 0
  | ControlProbe nonce | ControlAck nonce => probe_nonce_value nonce
  end.

Record HostWatchdogFrame := MkHostWatchdogFrame {
  frame_generation : HostWatchdogGeneration;
  frame_sequence : HostWatchdogSequence;
  frame_body : HostWatchdogFrameBody;
}.
Definition frame_direction (self : HostWatchdogFrame) : HostWatchdogDirection :=
  body_direction (frame_body self).

Definition watchdog_encode (self : HostWatchdogFrame) : list byte :=
  HOST_WATCHDOG_PROTOCOL_MAGIC ++
  be_bytes 2 HOST_WATCHDOG_PROTOCOL_VERSION ++
  be_bytes 2 (wire_kind (frame_body self)) ++
  be_bytes 8 (watchdog_generation_value (frame_generation self)) ++
  be_bytes 8 (watchdog_sequence_value (frame_sequence self)) ++
  be_bytes 8 (wire_value (frame_body self)) ++
  replicate 8 x00.

Definition watchdog_read_u64 (bytes : list byte) (offset : N) : result HostWatchdogProtocolError N :=
  value ← slice_range bytes offset (offset + 8);
  read_u64 value.

Definition decode_body (kind value : N) : result HostWatchdogProtocolError HostWatchdogFrameBody :=
  if (kind =? BOOTSTRAP_PROGRESS_KIND)%N then
    phase ← phase_try_from_wire value; Ok (BootstrapProgress phase)
  else if (kind =? RUNNING_HEARTBEAT_KIND)%N && (value =? 0)%N then Ok RunningHeartbeat
  else if (kind =? RUNNING_HEARTBEAT_KIND)%N then Err InvalidBody
  else if (kind =? CONTROL_PROBE_KIND)%N then
    nonce ← probe_nonce_try_new value; Ok (ControlProbe nonce)
  else if (kind =? CONTROL_ACK_KIND)%N then
    nonce ← probe_nonce_try_new value; Ok (ControlAck nonce)
  else Err UnknownKind.

Definition watchdog_decode (bytes : list byte) : result HostWatchdogProtocolError HostWatchdogFrame :=
  bail WrongLength when negb (len bytes =? HOST_WATCHDOG_FRAME_BYTES)%N;
  magic ← slice_range bytes 0 4;
  bail MagicMismatch when bool_decide (magic <> HOST_WATCHDOG_PROTOCOL_MAGIC);
  version_bytes ← slice_range bytes 4 6;
  version ← read_u16 version_bytes;
  bail UnsupportedVersion when negb (version =? HOST_WATCHDOG_PROTOCOL_VERSION)%N;
  reserved ← slice_range bytes 32 40;
  bail NonZeroReserved when existsb (fun byte => bool_decide (byte <> x00)) reserved;
  kind_bytes ← slice_range bytes 6 8;
  kind ← read_u16 kind_bytes;
  generation_value ← watchdog_read_u64 bytes 8;
  generation ← watchdog_generation_try_new generation_value;
  sequence_value ← watchdog_read_u64 bytes 16;
  sequence ← watchdog_sequence_try_new sequence_value;
  value ← watchdog_read_u64 bytes 24;
  body ← decode_body kind value;
  Ok {| frame_generation := generation; frame_sequence := sequence; frame_body := body |}.

(** ** Properties *)

(** The values the constructors of the protocol admit. *)
Definition nonzero_u64 (value : N) : Prop := (0 < value <= u64_max)%N.
Definition body_wf (body : HostWatchdogFrameBody) : Prop :=
  match body with
  | BootstrapProgress _ | RunningHeartbeat => True
  | ControlProbe nonce | ControlAck nonce => nonzero_u64 (probe_nonce_value nonce)
  end.
Definition frame_wf (frame : HostWatchdogFrame) : Prop :=
  nonzero_u64 (watchdog_generation_value (frame_generation frame)) /\
  nonzero_u64 (watchdog_sequence_value (frame_sequence frame)) /\
  body_wf (frame_body frame).

Lemma watchdog_generation_try_new_Ok value g :
  watchdog_generation_try_new value = Ok g <-> value <> 0%N /\ g = MkHostWatchdogGeneration value.
Proof. unfold watchdog_generation_try_new. destruct (N.eqb_spec value 0); naive_solver. Qed.
Lemma watchdog_sequence_try_new_Ok value s :
  watchdog_sequence_try_new value = Ok s <-> value <> 0%N /\ s = MkHostWatchdogSequence value.
Proof. unfold watchdog_sequence_try_new. destruct (N.eqb_spec value 0); naive_solver. Qed.
Lemma probe_nonce_try_new_Ok value n :
  probe_nonce_try_new value = Ok n <-> value <> 0%N /\ n = MkHostControlProbeNonce value.
Proof. unfold probe_nonce_try_new. destruct (N.eqb_spec value 0); naive_solver. Qed.

(** A body is decoded from its kind and value exactly. *)
Lemma decode_body_exact kind value body :
  (value <= u64_max)%N ->
  decode_body kind value = Ok body <->
  kind = wire_kind body /\ value = wire_value body /\ body_wf body.
Proof.
  intros Hv. unfold decode_body, BOOTSTRAP_PROGRESS_KIND, RUNNING_HEARTBEAT_KIND, CONTROL_PROBE_KIND, CONTROL_ACK_KIND.
  split.
  - destruct (N.eqb_spec kind 1) as [Hk|_]; [subst kind|destruct (N.eqb_spec kind 2) as [Hk|_];
      [subst kind|destruct (N.eqb_spec kind 3) as [Hk|_]; [subst kind|destruct (N.eqb_spec kind 4) as [Hk|_]; [subst kind|done]]]].
    + intros (p & Hp & [= <-])%bind_Ok. split; [done|].
      destruct value as [|[[]|[]|]]; try discriminate Hp; by injection Hp as <-.
    + simpl. destruct (N.eqb_spec value 0); [subst|done]. by intros [= <-].
    + simpl. intros (n & [Hn ->]%probe_nonce_try_new_Ok & [= <-])%bind_Ok.
      repeat split; simpl; lia.
    + simpl. intros (n & [Hn ->]%probe_nonce_try_new_Ok & [= <-])%bind_Ok.
      repeat split; simpl; lia.
  - intros (-> & -> & Hwf). destruct body as [p| |[n]|[n]]; try done.
    + by destruct p.
    + unfold probe_nonce_try_new; simpl in *. destruct (N.eqb_spec n 0); [|done]. destruct Hwf; simpl in *; lia.
    + unfold probe_nonce_try_new; simpl in *. destruct (N.eqb_spec n 0); [|done]. destruct Hwf; simpl in *; lia.
Qed.
Lemma decode_body_safe kind value : decode_body kind value <> Panic.
Proof.
  unfold decode_body, probe_nonce_try_new, phase_try_from_wire.
  repeat case_match; done.
Qed.

Lemma split_field (l : list byte) n k :
  len l = (N.of_nat n + k)%N ->
  l = take n l ++ drop n l /\ len (take n l) = N.of_nat n /\ len (drop n l) = k.
Proof. unfold len. rewrite take_drop, length_take, length_drop. split; [done|]. lia. Qed.
(** The fields of a frame, at their offsets. *)
Lemma frame_fields (bytes : list byte) :
  len bytes = 40%N ->
  exists m v k g s x r : list byte, bytes = m ++ v ++ k ++ g ++ s ++ x ++ r /\
    len m = 4%N /\ len v = 2%N /\ len k = 2%N /\ len g = 8%N /\ len s = 8%N /\ len x = 8%N /\ len r = 8%N.
Proof.
  intros Hl. pose proof split_field as Hs.
  destruct (Hs bytes 4%nat 36%N) as (E1 & L1 & R1); [done|].
  destruct (Hs _ 2%nat 34%N R1) as (E2 & L2 & R2).
  destruct (Hs _ 2%nat 32%N R2) as (E3 & L3 & R3).
  destruct (Hs _ 8%nat 24%N R3) as (E4 & L4 & R4).
  destruct (Hs _ 8%nat 16%N R4) as (E5 & L5 & R5).
  destruct (Hs _ 8%nat 8%N R5) as (E6 & L6 & R6).
  do 7 eexists. rewrite <-E6, <-E5, <-E4, <-E3, <-E2. done.
Qed.

(** What the decoder computes from the fields. *)
Lemma watchdog_decode_fields m v k g s x r :
  len m = 4%N -> len v = 2%N -> len k = 2%N -> len g = 8%N -> len s = 8%N -> len x = 8%N -> len r = 8%N ->
  watchdog_decode (m ++ v ++ k ++ g ++ s ++ x ++ r) =
  (bail MagicMismatch when bool_decide (m <> HOST_WATCHDOG_PROTOCOL_MAGIC);
   version ← read_u16 v;
   bail UnsupportedVersion when negb (version =? HOST_WATCHDOG_PROTOCOL_VERSION)%N;
   bail NonZeroReserved when existsb (fun byte => bool_decide (byte <> x00)) r;
   kind ← read_u16 k;
   generation_value ← read_u64 g;
   generation ← watchdog_generation_try_new generation_value;
   sequence_value ← read_u64 s;
   sequence ← watchdog_sequence_try_new sequence_value;
   value ← read_u64 x;
   body ← decode_body kind value;
   Ok {| frame_generation := generation; frame_sequence := sequence; frame_body := body |}).
Proof.
  intros Hm Hv Hk Hg Hs Hx Hr. set (bytes := m ++ _).
  assert (len bytes = 40%N) as Hl by (subst bytes; unfold len in *; rewrite !length_app; lia).
  unfold watchdog_decode, watchdog_read_u64, HOST_WATCHDOG_FRAME_BYTES. rewrite Hl. cbn [fail_if].
  change (fail_if (negb (40 =? 40)%N) WrongLength) with (Ok (E:=HostWatchdogProtocolError) tt).
  rewrite (slice_at bytes [] m (v ++ k ++ g ++ s ++ x ++ r) 0 4) by (try done; unfold len in *; simpl; lia).
  rewrite (slice_at bytes m v (k ++ g ++ s ++ x ++ r) 4 6) by (try done; unfold len in *; simpl; lia).
  rewrite (slice_at bytes (m ++ v) k (g ++ s ++ x ++ r) 6 8) by
    (subst bytes; rewrite <-?app_assoc; try done; unfold len in *; rewrite ?length_app; lia).
  rewrite (slice_at bytes (m ++ v ++ k) g (s ++ x ++ r) 8 (8 + 8)) by
    (subst bytes; rewrite <-?app_assoc; try done; unfold len in *; rewrite ?length_app; lia).
  rewrite (slice_at bytes (m ++ v ++ k ++ g) s (x ++ r) 16 (16 + 8)) by
    (subst bytes; rewrite <-?app_assoc; try done; unfold len in *; rewrite ?length_app; lia).
  rewrite (slice_at bytes (m ++ v ++ k ++ g ++ s) x r 24 (24 + 8)) by
    (subst bytes; rewrite <-?app_assoc; try done; unfold len in *; rewrite ?length_app; lia).
  rewrite (slice_at bytes (m ++ v ++ k ++ g ++ s ++ x) r [] 32 40) by
    (subst bytes; rewrite <-?app_assoc, ?app_nil_r; try done; unfold len in *; rewrite ?length_app; lia).
  done.
Qed.

Lemma reserved_zero (r : list byte) :
  len r = 8%N -> existsb (fun byte => bool_decide (byte <> x00)) r = false <-> r = replicate 8 x00.
Proof.
  intros Hl. assert (List.length r = 8%nat) as Hn by (unfold len in Hl; lia). clear Hl. split.
  - intros Hz. rewrite <-Hn. clear Hn. induction r as [|b r IH]; [done|]. simpl in *.
    apply orb_false_iff in Hz as [Hb Hz]. apply bool_decide_eq_false in Hb.
    destruct (decide (b = x00)) as [->|]; [|done]. f_equal. by apply IH.
  - intros ->. by vm_compute.
Qed.
Lemma watchdog_encode_decodes frame : frame_wf frame -> watchdog_decode (watchdog_encode frame) = Ok frame.
Proof.
  destruct frame as [[g] [s] body]. intros ([Hg Hg'] & [Hs Hs'] & Hb); simpl in *.
  assert (wire_kind body <= u16_max)%N as Hk by (destruct body; by vm_compute).
  assert (wire_value body <= u64_max)%N as Hx.
  { destruct body as [[]| |n|n]; [by vm_compute..|apply Hb|apply Hb]. }
  unfold watchdog_encode; cbn [frame_body frame_generation frame_sequence watchdog_generation_value watchdog_sequence_value].
  rewrite watchdog_decode_fields by first [apply len_be_bytes | done].
  rewrite bool_decide_eq_false_2 by tauto.
  rewrite !read_u16_exact, !read_u64_exact by (done || by vm_compute). cbn [mbind result_mbind fail_if].
  rewrite (proj2 (reserved_zero (replicate 8 x00) eq_refl) eq_refl). cbn [fail_if mbind result_mbind].
  rewrite (proj2 (watchdog_generation_try_new_Ok g _)) by (split; [lia|done]).
  rewrite (proj2 (watchdog_sequence_try_new_Ok s _)) by (split; [lia|done]).
  cbn [mbind result_mbind]. by rewrite (proj2 (decode_body_exact _ _ body Hx)).
Qed.

Lemma watchdog_decode_encodes bytes frame :
  watchdog_decode bytes = Ok frame -> frame_wf frame /\ bytes = watchdog_encode frame.
Proof.
  intros Hd. assert (len bytes = 40%N) as Hl.
  { unfold watchdog_decode in Hd. apply bind_Ok in Hd as (_ & Hl%fail_if_Ok & _).
    apply negb_false_iff, N.eqb_eq in Hl. done. }
  destruct (frame_fields bytes Hl) as (m & v & k & g & s & x & r & -> & Hm & Hv & Hk & Hg & Hs & Hx & Hr).
  rewrite watchdog_decode_fields in Hd by done.
  apply bind_Ok in Hd as (_ & Em%fail_if_Ok%bool_decide_eq_false & Hd).
  apply bind_Ok in Hd as (ver & Ev & Hd). apply read_u16_Ok in Ev; [|done].
  apply bind_Ok in Hd as (_ & Ever%fail_if_Ok%negb_false_iff%N.eqb_eq & Hd).
  apply bind_Ok in Hd as (_ & Er%fail_if_Ok & Hd). apply reserved_zero in Er; [|done].
  apply bind_Ok in Hd as (kind & Ek & Hd). apply read_u16_Ok in Ek; [|done].
  apply bind_Ok in Hd as (gv & Eg & Hd). pose proof (read_u64_bound _ _ Eg). apply read_u64_Ok in Eg; [|done].
  apply bind_Ok in Hd as (gen & [Hgz ->]%watchdog_generation_try_new_Ok & Hd).
  apply bind_Ok in Hd as (sv & Es & Hd). pose proof (read_u64_bound _ _ Es). apply read_u64_Ok in Es; [|done].
  apply bind_Ok in Hd as (sq & [Hsz ->]%watchdog_sequence_try_new_Ok & Hd).
  apply bind_Ok in Hd as (xv & Ex & Hd). pose proof (read_u64_bound _ _ Ex) as Hxb. apply read_u64_Ok in Ex; [|done].
  apply bind_Ok in Hd as (body & Eb & [= <-]). apply decode_body_exact in Eb as (-> & -> & Hb); [|done].
  split; [split; [|split]; simpl; unfold nonzero_u64; (done || lia)|].
  unfold watchdog_encode; simpl frame_body; simpl frame_generation; simpl frame_sequence.
  assert (m = HOST_WATCHDOG_PROTOCOL_MAGIC) as -> by (destruct (decide (m = HOST_WATCHDOG_PROTOCOL_MAGIC)); tauto).
  by rewrite Ev, Ever, Ek, Eg, Es, Ex, Er.
Qed.
Lemma watchdog_decode_safe bytes : watchdog_decode bytes <> Panic.
Proof.
  destruct (N.eqb_spec (len bytes) 40) as [Hl|Hl].
  + destruct (frame_fields bytes Hl) as (m & v & k & g & s & x & r & -> & Hm & Hv & Hk & Hg & Hs & Hx & Hr).
    rewrite watchdog_decode_fields by done. intros Hp.
    assert (forall l, len l = 8%N -> read_u64 (E:=HostWatchdogProtocolError) l <> Panic) as H8 by (intros; by apply read_u64_safe).
    assert (forall l, len l = 2%N -> read_u16 (E:=HostWatchdogProtocolError) l <> Panic) as H2 by (intros; by apply read_u16_safe).
    repeat (apply bind_Panic in Hp as [Hp|(? & _ & Hp)];
      [solve [by apply fail_if_Panic in Hp | by eapply H2 in Hp | by eapply H8 in Hp | by apply decode_body_safe in Hp
        | revert Hp; unfold watchdog_generation_try_new, watchdog_sequence_try_new; by case_match]|]).
    done.
  + unfold watchdog_decode, HOST_WATCHDOG_FRAME_BYTES. rewrite (proj2 (N.eqb_neq _ _) Hl). done.
Qed.

(** a byte string decodes to a watchdog frame exactly when it is the
    forty-byte encoding of that frame and the frame's generation, sequence
    and nonce are non-zero; the decoder never panics. *)
Theorem watchdog_frame_round_trip :
  (forall bytes frame, watchdog_decode bytes = Ok frame <-> frame_wf frame /\ bytes = watchdog_encode frame) /\
  forall bytes, watchdog_decode bytes <> Panic.
Proof.
  split; [|apply watchdog_decode_safe]. intros bytes frame. split; [apply watchdog_decode_encodes|].
  intros [Hwf ->]. by apply watchdog_encode_decodes.
Qed.
