(* ===== verification/Liveness.v ===== *)
(** * Process liveness (crates/paraegox-runtime/src/liveness.rs)

    The owner-local liveness observations of one process generation: startup
    acknowledgement, heartbeats, control probes and the evaluation of the
    deadlines they arm.  With the budgets of
    crates/paraegox-runtime-contracts/src/process_execution.rs and the
    generation identity of crates/paraegox-runtime/src/runtime_ownership.rs. *)

From S2P Require Import Prelude Wp KernelTime KernelDigest ApplyContracts Assignment CardInstance.
Open Scope rust_scope.

(** ** Budgets and identity *)

Record ProcessDomainRef := MkProcessDomainRef { process_domain_bytes : bytes16 }.
#[export] Instance ProcessDomainRef_eq_dec : EqDecision ProcessDomainRef.
Proof. solve_decision. Defined.

Record ProcessLivenessBudgets := MkProcessLivenessBudgets {
  liveness_start : BoundedDuration;
  liveness_heartbeat_interval : BoundedDuration;
  liveness_heartbeat_timeout : BoundedDuration;
  liveness_control_response : BoundedDuration;
}.
Record ProcessShutdownBudgets := MkProcessShutdownBudgets {
  shutdown_drain : BoundedDuration;
  shutdown_cooperative_stop : BoundedDuration;
  shutdown_terminate_grace : BoundedDuration;
  shutdown_kill_grace : BoundedDuration;
  shutdown_cleanup : BoundedDuration;
}.
Record ProcessLifecycleBudgets := MkProcessLifecycleBudgets {
  lifecycle_liveness : ProcessLivenessBudgets;
  lifecycle_shutdown : ProcessShutdownBudgets;
}.

Definition MAX_EXECUTION_DURATION_NANOS : N := 86400000000000.
Definition valid_process_duration (value : BoundedDuration) : bool :=
  (0 <? duration_value value)%N && (duration_value value <=? MAX_EXECUTION_DURATION_NANOS)%N.

Inductive ProcessBudgetError := InvalidLivenessBudget.

Definition liveness_budgets_try_new
    (start heartbeat_interval heartbeat_timeout control_response : BoundedDuration)
    : result ProcessBudgetError ProcessLivenessBudgets :=
  bail InvalidLivenessBudget
    when negb (valid_process_duration start)
      || negb (valid_process_duration heartbeat_interval)
      || negb (valid_process_duration heartbeat_timeout)
      || negb (valid_process_duration control_response)
      || (duration_value heartbeat_timeout <=? duration_value heartbeat_interval)%N;
  Ok {| liveness_start := start;
        liveness_heartbeat_interval := heartbeat_interval;
        liveness_heartbeat_timeout := heartbeat_timeout;
        liveness_control_response := control_response |}.

Definition shutdown_budgets_try_new
    (drain cooperative_stop terminate_grace kill_grace cleanup : BoundedDuration)
    : result ProcessBudgetError ProcessShutdownBudgets :=
  bail InvalidLivenessBudget
    when negb (valid_process_duration drain)
      || negb (valid_process_duration cooperative_stop)
      || negb (valid_process_duration terminate_grace)
      || negb (valid_process_duration kill_grace)
      || negb (valid_process_duration cleanup);
  Ok {| shutdown_drain := drain;
        shutdown_cooperative_stop := cooperative_stop;
        shutdown_terminate_grace := terminate_grace;
        shutdown_kill_grace := kill_grace;
        shutdown_cleanup := cleanup |}.

Definition budget_start (b : ProcessLifecycleBudgets) : BoundedDuration :=
  liveness_start (lifecycle_liveness b).
Definition budget_heartbeat_timeout (b : ProcessLifecycleBudgets) : BoundedDuration :=
  liveness_heartbeat_timeout (lifecycle_liveness b).
Definition budget_control_response (b : ProcessLifecycleBudgets) : BoundedDuration :=
  liveness_control_response (lifecycle_liveness b).

Record ProcessGenerationIdentity := MkProcessGenerationIdentity {
  process_runtime_host : RuntimeHostId;
  process_runtime_host_epoch : RuntimeHostEpoch;
  process_source_revision : SourcePlanRevision;
  process_target_slice_digest : TargetSliceDigest;
  process_domain : ProcessDomainRef;
  process_domain_epoch : DomainEpoch;
}.
#[export] Instance ProcessGenerationIdentity_eq_dec : EqDecision ProcessGenerationIdentity.
Proof. solve_decision. Defined.

(** ** The liveness state *)

Inductive LivenessPhase := Bootstrapping | Live | Unresponsive | Exited | Quarantined.
#[export] Instance LivenessPhase_eq_dec : EqDecision LivenessPhase.
Proof. solve_decision. Defined.

Inductive LivenessFailure :=
| StartupTimedOut
| HeartbeatMissed (last_heartbeat_sequence : N)
| ControlResponseMissed (probe : N).

Inductive LivenessFrameDisposition := Advanced | Duplicate.

Inductive LivenessError :=
| GenerationMismatch
| ClockMismatch
| ClockRegressed
| LivenessDeadlineOverflow
| DeadlineElapsed
| StaleWorkerSequence
| StaleHeartbeatSequence
| StaleProbe
| ProbeAlreadyOutstanding
| NoProbeOutstanding
| ProbeMismatch
| TerminalState
| LivenessStateInconsistent.
#[export] Instance LivenessError_eq_dec : EqDecision LivenessError.
Proof. solve_decision. Defined.

Record HeartbeatDeadline := MkHeartbeatDeadline {
  heartbeat_deadline_at : MonotonicDeadline;
  heartbeat_remaining : BoundedDuration;
}.
Record OutstandingProbe := MkOutstandingProbe { outstanding_id : N; sent_at : ClockReading }.
Record CompletedProbe := MkCompletedProbe { completed_id : N; completed_worker_sequence : N }.
#[export] Instance CompletedProbe_eq_dec : EqDecision CompletedProbe.
Proof. solve_decision. Defined.

Record ProcessLivenessState := MkProcessLivenessState {
  liveness_identity : ProcessGenerationIdentity;
  liveness_budgets : ProcessLifecycleBudgets;
  liveness_phase : LivenessPhase;
  started_at : ClockReading;
  last_observed_at : ClockReading;
  last_worker_sequence : N;
  last_heartbeat_sequence : N;
  last_heartbeat_at : option ClockReading;
  outstanding_probe : option OutstandingProbe;
  last_control_response : option CompletedProbe;
  last_probe_id : N;
}.
Abbreviation Liveness A := (M ProcessLivenessState LivenessError A).

Definition compare_sequence (incoming current : N) : result LivenessError LivenessFrameDisposition :=
  bail StaleWorkerSequence when (incoming =? 0)%N || (incoming <? current)%N;
  if (incoming =? current)%N then Ok Duplicate else Ok Advanced.

Definition validate_clock (previous current : ClockReading) : result LivenessError unit :=
  bail ClockMismatch
    when bool_decide (reading_domain previous <> reading_domain current)
      || bool_decide (reading_generation previous <> reading_generation current);
  bail ClockRegressed when (now_value current <? now_value previous)%N;
  Ok tt.

Definition map_time_error (error : TimeError) : LivenessError :=
  match error with
  | DeadlineOverflow => LivenessDeadlineOverflow
  | TimeClockDomainMismatch | TimeClockGenerationMismatch => ClockMismatch
  | InvalidClockGeneration => LivenessStateInconsistent
  end.

Definition liveness_deadline (reading : ClockReading) (budget : BoundedDuration)
    : result LivenessError MonotonicInstant :=
  value ← ok_or (checked_add u64_max (now_value reading) (duration_value budget)) LivenessDeadlineOverflow;
  Ok (from_ticks value).

Definition reached (reading : ClockReading) (at_ : MonotonicInstant) : bool :=
  (instant_value at_ <=? now_value reading)%N.

Definition ensure_before (reading : ClockReading) (deadline : MonotonicInstant)
    : result LivenessError unit :=
  if reached reading deadline then Err DeadlineElapsed else Ok tt.

Definition liveness_try_new (identity : ProcessGenerationIdentity)
    (budgets : ProcessLifecycleBudgets) (observed_at : ClockReading)
    : result LivenessError ProcessLivenessState :=
  _ ← liveness_deadline observed_at (budget_start budgets);
  Ok {| liveness_identity := identity;
        liveness_budgets := budgets;
        liveness_phase := Bootstrapping;
        started_at := observed_at;
        last_observed_at := observed_at;
        last_worker_sequence := 0;
        last_heartbeat_sequence := 0;
        last_heartbeat_at := None;
        outstanding_probe := None;
        last_control_response := None;
        last_probe_id := 0 |}.

Definition validate_identity_and_time (identity : ProcessGenerationIdentity)
    (observed_at : ClockReading) (self : ProcessLivenessState) : result LivenessError unit :=
  bail GenerationMismatch when bool_decide (identity <> liveness_identity self);
  validate_clock (last_observed_at self) observed_at.

Definition duplicate_or_terminal (worker_sequence : N) (self : ProcessLivenessState)
    : result LivenessError LivenessFrameDisposition :=
  if (worker_sequence =? last_worker_sequence self)%N && negb (worker_sequence =? 0)%N
  then Ok Duplicate else Err TerminalState.

Definition heartbeat_deadline (self : ProcessLivenessState) (identity : ProcessGenerationIdentity)
    (observed_at : ClockReading) : result LivenessError HeartbeatDeadline :=
  _ ← validate_identity_and_time identity observed_at self;
  bail TerminalState when bool_decide (liveness_phase self <> Live);
  heartbeat_at ← ok_or (last_heartbeat_at self) LivenessStateInconsistent;
  deadline ← map_err map_time_error
    (try_deadline_after heartbeat_at (budget_heartbeat_timeout (liveness_budgets self)));
  remaining ← map_err map_time_error (remaining_at deadline observed_at);
  Ok {| heartbeat_deadline_at := deadline; heartbeat_remaining := remaining |}.

(** Field assignments. *)
Definition set_live (worker_frame_sequence : N) (observed_at : ClockReading)
    (self : ProcessLivenessState) : ProcessLivenessState :=
  {| liveness_identity := liveness_identity self; liveness_budgets := liveness_budgets self;
     liveness_phase := Live; started_at := started_at self; last_observed_at := observed_at;
     last_worker_sequence := worker_frame_sequence;
     last_heartbeat_sequence := last_heartbeat_sequence self;
     last_heartbeat_at := Some observed_at; outstanding_probe := outstanding_probe self;
     last_control_response := last_control_response self; last_probe_id := last_probe_id self |}.
Definition set_heartbeat (worker_frame_sequence heartbeat_sequence : N) (observed_at : ClockReading)
    (self : ProcessLivenessState) : ProcessLivenessState :=
  {| liveness_identity := liveness_identity self; liveness_budgets := liveness_budgets self;
     liveness_phase := liveness_phase self; started_at := started_at self;
     last_observed_at := observed_at; last_worker_sequence := worker_frame_sequence;
     last_heartbeat_sequence := heartbeat_sequence; last_heartbeat_at := Some observed_at;
     outstanding_probe := outstanding_probe self;
     last_control_response := last_control_response self; last_probe_id := last_probe_id self |}.
Definition set_probe (probe : N) (observed_at : ClockReading) (self : ProcessLivenessState)
    : ProcessLivenessState :=
  {| liveness_identity := liveness_identity self; liveness_budgets := liveness_budgets self;
     liveness_phase := liveness_phase self; started_at := started_at self;
     last_observed_at := observed_at; last_worker_sequence := last_worker_sequence self;
     last_heartbeat_sequence := last_heartbeat_sequence self;
     last_heartbeat_at := last_heartbeat_at self;
     outstanding_probe := Some {| outstanding_id := probe; sent_at := observed_at |};
     last_control_response := last_control_response self; last_probe_id := probe |}.
Definition set_response (probe worker_sequence : N) (observed_at : ClockReading)
    (self : ProcessLivenessState) : ProcessLivenessState :=
  {| liveness_identity := liveness_identity self; liveness_budgets := liveness_budgets self;
     liveness_phase := liveness_phase self; started_at := started_at self;
     last_observed_at := observed_at; last_worker_sequence := worker_sequence;
     last_heartbeat_sequence := last_heartbeat_sequence self;
     last_heartbeat_at := last_heartbeat_at self; outstanding_probe := None;
     last_control_response :=
       Some {| completed_id := probe; completed_worker_sequence := worker_sequence |};
     last_probe_id := last_probe_id self |}.
Definition set_observed (phase : LivenessPhase) (probe : option OutstandingProbe)
    (observed_at : ClockReading) (self : ProcessLivenessState) : ProcessLivenessState :=
  {| liveness_identity := liveness_identity self; liveness_budgets := liveness_budgets self;
     liveness_phase := phase; started_at := started_at self; last_observed_at := observed_at;
     last_worker_sequence := last_worker_sequence self;
     last_heartbeat_sequence := last_heartbeat_sequence self;
     last_heartbeat_at := last_heartbeat_at self; outstanding_probe := probe;
     last_control_response := last_control_response self; last_probe_id := last_probe_id self |}.

(** ** Observations *)

Definition observe_startup_ack (identity : ProcessGenerationIdentity) (worker_frame_sequence : N)
    (observed_at : ClockReading) : Liveness LivenessFrameDisposition :=
  _ ← read (validate_identity_and_time identity observed_at);
  phase ← gets liveness_phase;
  if bool_decide (phase <> Bootstrapping) then read (duplicate_or_terminal worker_frame_sequence)
  else
    disposition ← read (fun self => compare_sequence worker_frame_sequence (last_worker_sequence self));
    match disposition with
    | Duplicate => mret Duplicate
    | Advanced =>
        _ ← read (fun self =>
          deadline ← liveness_deadline (started_at self) (budget_start (liveness_budgets self));
          ensure_before observed_at deadline);
        _ ← read (fun self => liveness_deadline observed_at (budget_heartbeat_timeout (liveness_budgets self)));
        _ ← modify (set_live worker_frame_sequence observed_at);
        mret Advanced
    end.

Definition observe_heartbeat (identity : ProcessGenerationIdentity)
    (worker_frame_sequence heartbeat_sequence : N) (observed_at : ClockReading)
    : Liveness LivenessFrameDisposition :=
  _ ← read (validate_identity_and_time identity observed_at);
  phase ← gets liveness_phase;
  if bool_decide (phase <> Live) then read (duplicate_or_terminal worker_frame_sequence)
  else
    heartbeat_at ← read (fun self => ok_or (last_heartbeat_at self) LivenessStateInconsistent);
    _ ← read (fun self =>
      deadline ← liveness_deadline heartbeat_at (budget_heartbeat_timeout (liveness_budgets self));
      ensure_before observed_at deadline);
    disposition ← read (fun self => compare_sequence worker_frame_sequence (last_worker_sequence self));
    last_heartbeat_sequence ← gets last_heartbeat_sequence;
    match disposition with
    | Duplicate =>
        if (heartbeat_sequence =? last_heartbeat_sequence)%N && negb (heartbeat_sequence =? 0)%N
        then mret Duplicate else lift (Err StaleHeartbeatSequence)
    | Advanced =>
        _ ← lift (fail_if ((heartbeat_sequence =? 0)%N || (heartbeat_sequence <=? last_heartbeat_sequence)%N)
                    StaleHeartbeatSequence);
        _ ← read (fun self => liveness_deadline observed_at (budget_heartbeat_timeout (liveness_budgets self)));
        _ ← modify (set_heartbeat worker_frame_sequence heartbeat_sequence observed_at);
        mret Advanced
    end.

Definition begin_control_probe (identity : ProcessGenerationIdentity) (probe : N)
    (observed_at : ClockReading) : Liveness unit :=
  _ ← read (validate_identity_and_time identity observed_at);
  _ ← read (fun self => fail_if (bool_decide (liveness_phase self <> Live)) TerminalState);
  _ ← read (fun self => fail_if (bool_decide (is_Some (outstanding_probe self))) ProbeAlreadyOutstanding);
  _ ← read (fun self => fail_if ((probe =? 0)%N || (probe <=? last_probe_id self)%N) StaleProbe);
  heartbeat_at ← read (fun self => ok_or (last_heartbeat_at self) LivenessStateInconsistent);
  _ ← read (fun self =>
    deadline ← liveness_deadline heartbeat_at (budget_heartbeat_timeout (liveness_budgets self));
    ensure_before observed_at deadline);
  _ ← read (fun self => liveness_deadline observed_at (budget_control_response (liveness_budgets self)));
  modify (set_probe probe observed_at).

Definition observe_control_response (identity : ProcessGenerationIdentity)
    (worker_sequence probe : N) (observed_at : ClockReading) : Liveness LivenessFrameDisposition :=
  _ ← read (validate_identity_and_time identity observed_at);
  last ← gets last_control_response;
  if bool_decide (last = Some {| completed_id := probe; completed_worker_sequence := worker_sequence |})
  then mret Duplicate
  else
    _ ← read (fun self => fail_if (bool_decide (liveness_phase self <> Live)) TerminalState);
    outstanding ← read (fun self => ok_or (outstanding_probe self) NoProbeOutstanding);
    _ ← lift (fail_if (negb (outstanding_id outstanding =? probe)%N) ProbeMismatch);
    _ ← read (fun self =>
      deadline ← liveness_deadline (sent_at outstanding) (budget_control_response (liveness_budgets self));
      ensure_before observed_at deadline);
    _ ← read (fun self =>
      fail_if ((worker_sequence =? 0)%N || (worker_sequence <=? last_worker_sequence self)%N) StaleWorkerSequence);
    _ ← modify (set_response probe worker_sequence observed_at);
    mret Advanced.

(** The deadlines of a live process, the probe's first when it is not after
    the heartbeat's. *)
Definition evaluate_live (observed_at : ClockReading) (self : ProcessLivenessState)
    : result LivenessError (option LivenessFailure) :=
  heartbeat_at ← ok_or (last_heartbeat_at self) LivenessStateInconsistent;
  heartbeat_deadline ← liveness_deadline heartbeat_at (budget_heartbeat_timeout (liveness_budgets self));
  probe_deadline ←
    match outstanding_probe self with
    | Some probe =>
        value ← liveness_deadline (sent_at probe) (budget_control_response (liveness_budgets self));
        Ok (Some (value, outstanding_id probe))
    | None => Ok None
    end;
  let heartbeat_verdict :=
    if reached observed_at heartbeat_deadline
    then Some (HeartbeatMissed (last_heartbeat_sequence self)) else None in
  Ok match probe_deadline with
     | Some (probe_at, probe) =>
         if reached observed_at probe_at
            && (instant_value probe_at <=? instant_value heartbeat_deadline)%N
         then Some (ControlResponseMissed probe) else heartbeat_verdict
     | None => heartbeat_verdict
     end.

Definition evaluate (observed_at : ClockReading) : Liveness (option LivenessFailure) :=
  _ ← read (fun self => validate_clock (last_observed_at self) observed_at);
  phase ← gets liveness_phase;
  match phase with
  | Unresponsive | Exited | Quarantined =>
      _ ← modify (fun self => set_observed (liveness_phase self) (outstanding_probe self) observed_at self);
      mret None
  | Bootstrapping | Live =>
      failure ← read (fun self =>
        match phase with
        | Bootstrapping =>
            deadline ← liveness_deadline (started_at self) (budget_start (liveness_budgets self));
            Ok (if reached observed_at deadline then Some StartupTimedOut else None)
        | Live => evaluate_live observed_at self
        | _ => Ok None
        end);
      _ ← modify (fun self =>
        set_observed (match failure with Some _ => Unresponsive | None => liveness_phase self end)
          (outstanding_probe self) observed_at self);
      mret failure
  end.

Definition mark_exited (identity : ProcessGenerationIdentity) (observed_at : ClockReading)
    : Liveness unit :=
  _ ← read (validate_identity_and_time identity observed_at);
  modify (set_observed Exited None observed_at).
Definition mark_quarantined (identity : ProcessGenerationIdentity) (observed_at : ClockReading)
    : Liveness unit :=
  _ ← read (validate_identity_and_time identity observed_at);
  modify (set_observed Quarantined None observed_at).

(** ** Calls and runs *)

Inductive LivenessCall :=
| CallStartupAck (identity : ProcessGenerationIdentity) (worker : N) (observed : ClockReading)
| CallHeartbeat (identity : ProcessGenerationIdentity) (worker heartbeat : N) (observed : ClockReading)
| CallBeginProbe (identity : ProcessGenerationIdentity) (probe : N) (observed : ClockReading)
| CallControlResponse (identity : ProcessGenerationIdentity) (worker probe : N) (observed : ClockReading)
| CallEvaluate (observed : ClockReading)
| CallExited (identity : ProcessGenerationIdentity) (observed : ClockReading)
| CallQuarantined (identity : ProcessGenerationIdentity) (observed : ClockReading).

Inductive LivenessReport :=
| FrameReport (disposition : LivenessFrameDisposition)
| VerdictReport (failure : option LivenessFailure)
| DoneReport.

Definition run_call (c : LivenessCall) : Liveness LivenessReport :=
  match c with
  | CallStartupAck i w t => d ← observe_startup_ack i w t; mret (FrameReport d)
  | CallHeartbeat i w h t => d ← observe_heartbeat i w h t; mret (FrameReport d)
  | CallBeginProbe i p t => _ ← begin_control_probe i p t; mret DoneReport
  | CallControlResponse i w p t => d ← observe_control_response i w p t; mret (FrameReport d)
  | CallEvaluate t => f ← evaluate t; mret (VerdictReport f)
  | CallExited i t => _ ← mark_exited i t; mret DoneReport
  | CallQuarantined i t => _ ← mark_quarantined i t; mret DoneReport
  end.

Abbreviation LivenessEvent := (LivenessCall * result LivenessError LivenessReport)%type.

(** The calls of an owner, one after the other, with their outcomes. *)
Fixpoint run_calls (s : ProcessLivenessState) (l : list LivenessCall)
    : ProcessLivenessState * list LivenessEvent :=
  match l with
  | [] => (s, [])
  | c :: l =>
      let '(s', r) := run_call c s in
      let '(s'', out) := run_calls s' l in
      (s'', (c, r) :: out)
  end.

(** ** What the outcomes of a run say *)

(** The worker frame an event accepted. *)
Definition accepted_frame (e : LivenessEvent) : option N :=
  match e with
  | (CallStartupAck _ w _, Ok (FrameReport Advanced))
  | (CallHeartbeat _ w _ _, Ok (FrameReport Advanced))
  | (CallControlResponse _ w _ _, Ok (FrameReport Advanced)) => Some w
  | _ => None
  end.
Definition accepted_frames (out : list LivenessEvent) : list N := omap accepted_frame out.

(** The event that ended the observation: a verdict, an exit or a quarantine. *)
Definition ends (e : LivenessEvent) : bool :=
  match e with
  | (CallEvaluate _, Ok (VerdictReport (Some _))) => true
  | (CallExited _ _, Ok _) | (CallQuarantined _ _, Ok _) => true
  | _ => false
  end.

(** The last accepted sign of life with its heartbeat number, and the probe
    that waits for its response, as the outcomes show them. *)
Record history := MkHistory {
  hist_beat : option (N * N);
  hist_probe : option (N * N);
  hist_ended : bool;
}.
Definition history_start : history := MkHistory None None false.
Definition history_step (h : history) (e : LivenessEvent) : history :=
  match e with
  | (CallStartupAck _ _ t, Ok (FrameReport Advanced)) =>
      MkHistory (Some (now_value t, 0%N)) (hist_probe h) (hist_ended h)
  | (CallHeartbeat _ _ q t, Ok (FrameReport Advanced)) =>
      MkHistory (Some (now_value t, q)) (hist_probe h) (hist_ended h)
  | (CallBeginProbe _ p t, Ok _) => MkHistory (hist_beat h) (Some (p, now_value t)) (hist_ended h)
  | (CallControlResponse _ _ _ _, Ok (FrameReport Advanced)) =>
      MkHistory (hist_beat h) None (hist_ended h)
  | _ => if ends e then MkHistory (hist_beat h) (hist_probe h) true else h
  end.
Definition history_of (out : list LivenessEvent) : history := fold_left history_step out history_start.

(** The deadlines a history arms. *)
Definition armed (start : ClockReading) (b : ProcessLifecycleBudgets) (h : history)
    : list (N * LivenessFailure) :=
  if hist_ended h then []
  else match hist_beat h with
       | None => [((now_value start + duration_value (budget_start b))%N, StartupTimedOut)]
       | Some (t, q) =>
           ((t + duration_value (budget_heartbeat_timeout b))%N, HeartbeatMissed q) ::
           match hist_probe h with
           | Some (p, t') => [((t' + duration_value (budget_control_response b))%N, ControlResponseMissed p)]
           | None => []
           end
       end.

(** ** The observations, case by case *)

Definition same_clock (a b : ClockReading) : Prop :=
  reading_domain a = reading_domain b /\ reading_generation a = reading_generation b.
(** [b] was read from the clock of [a] and not before it. *)
Definition not_before (a b : ClockReading) : Prop :=
  same_clock a b /\ (now_value a <= now_value b)%N.

Lemma validate_clock_Ok a b u : validate_clock a b = Ok u <-> not_before a b.
Proof.
  unfold validate_clock, not_before, same_clock. destruct u.
  repeat case_bool_decide; simpl; try (naive_solver; fail).
  destruct (N.ltb_spec (now_value b) (now_value a)); simpl; [|naive_solver].
  split; [done|]. intros [_ ?]. lia.
Qed.
Lemma validate_identity_and_time_Ok i t s u :
  validate_identity_and_time i t s = Ok u <-> i = liveness_identity s /\ not_before (last_observed_at s) t.
Proof.
  unfold validate_identity_and_time. case_bool_decide; simpl; [naive_solver|].
  rewrite validate_clock_Ok. destruct (decide (i = liveness_identity s)); tauto.
Qed.
Lemma liveness_deadline_Ok r b i :
  liveness_deadline r b = Ok i <->
  (now_value r + duration_value b <= u64_max)%N /\ i = from_ticks (now_value r + duration_value b).
Proof.
  unfold liveness_deadline. destruct (checked_add _ _ _) eqn:E; autorewrite with rust in E; simpl;
    [destruct E as [-> ?]; naive_solver|]. split; [done|]. intros []. lia.
Qed.
Lemma ensure_before_Ok r i u : ensure_before r i = Ok u <-> (now_value r < instant_value i)%N.
Proof.
  unfold ensure_before, reached. destruct u, (N.leb_spec (instant_value i) (now_value r)); naive_solver lia.
Qed.
Lemma compare_sequence_Ok i c d :
  compare_sequence i c = Ok d <->
  i <> 0%N /\ (i = c /\ d = Duplicate \/ (c < i)%N /\ d = Advanced).
Proof.
  unfold compare_sequence.
  destruct (N.eqb_spec i 0), (N.ltb_spec i c), (N.eqb_spec i c); simpl; naive_solver lia.
Qed.
#[export] Hint Rewrite validate_clock_Ok validate_identity_and_time_Ok liveness_deadline_Ok
  ensure_before_Ok compare_sequence_Ok : rust.

(** An outcome that is neither a panic nor the inconsistency error. *)
Definition clean {A : Type} (r : result LivenessError A) : Prop :=
  r <> Panic /\ r <> Err LivenessStateInconsistent.
(** A call that failed cleanly left the state [s] as it was. *)
Definition refused (s : ProcessLivenessState) (e : option LivenessError) (s' : ProcessLivenessState) : Prop :=
  s' = s /\ e <> None /\ e <> Some LivenessStateInconsistent.

Lemma clean_Ok {A : Type} (a : A) : clean (Ok a).
Proof. done. Qed.
Lemma clean_bind {A B : Type} (r : result LivenessError A) (f : A -> result LivenessError B) :
  clean r -> (forall a, r = Ok a -> clean (f a)) -> clean (r ≫= f).
Proof.
  intros [Hp He] Hf. destruct r as [a|e|]; [by apply Hf|split; [done|]; intros [= ->]; done|done].
Qed.
Lemma clean_fail_if b e : e <> LivenessStateInconsistent -> clean (fail_if b e).
Proof. intros He. destruct b; split; simpl; congruence. Qed.
Lemma clean_ok_or {A : Type} (o : option A) e : e <> LivenessStateInconsistent -> clean (ok_or o e).
Proof. intros He. destruct o; split; simpl; congruence. Qed.
Lemma clean_validate_clock a b : clean (validate_clock a b).
Proof. by repeat (apply clean_bind; [by apply clean_fail_if|intros ? _]). Qed.
Lemma clean_validate i t s : clean (validate_identity_and_time i t s).
Proof. apply clean_bind; [by apply clean_fail_if|intros _ _; apply clean_validate_clock]. Qed.
Lemma clean_deadline r b : clean (liveness_deadline r b).
Proof. unfold liveness_deadline. by destruct (checked_add _ _ _). Qed.
Lemma clean_before r i : clean (ensure_before r i).
Proof. unfold ensure_before. by case_match. Qed.
Lemma clean_compare i c : clean (compare_sequence i c).
Proof. apply clean_bind; [by apply clean_fail_if|intros ? _; by case_match]. Qed.
Lemma clean_duplicate w s : clean (duplicate_or_terminal w s).
Proof. unfold duplicate_or_terminal. by case_match. Qed.
Create HintDb clean.
#[export] Hint Resolve clean_Ok clean_validate_clock clean_validate clean_deadline clean_before
  clean_compare clean_duplicate : clean.
#[export] Hint Extern 1 (clean (fail_if _ _)) => apply clean_fail_if; discriminate : clean.
#[export] Hint Extern 1 (clean (ok_or _ _)) => apply clean_ok_or; discriminate : clean.
#[export] Hint Extern 2 (clean (_ ≫= _)) => apply clean_bind; [|intros ? ?] : clean.

Lemma wp_clean_read {A : Type} (f : ProcessLivenessState -> result LivenessError A) Q s :
  clean (f s) -> (forall a, f s = Ok a -> Q a s) -> wp (read f) Q (refused s) s.
Proof.
  intros [Hp He] HQ. apply wp_read; [done| |done]. intros e Hf. split; [done|]. split; [done|].
  intros [= ->]. done.
Qed.
Lemma wp_clean_lift {A : Type} (r : result LivenessError A) Q s :
  clean r -> (forall a, r = Ok a -> Q a s) -> wp (lift r) Q (refused s) s.
Proof. apply (wp_clean_read (fun _ => r)). Qed.

(** Runs the checks of an observation up to its first assignment. *)
Ltac observe :=
  repeat first
    [ apply wp_bind
    | apply wp_gets
    | match goal with H : last_heartbeat_at _ = Some _ |- _ => eapply wp_read_Ok; [by rewrite H|] end
    | apply wp_clean_read; [by eauto 6 with clean|intros ?]
    | apply wp_clean_lift; [by eauto 6 with clean|intros ?]
    | apply wp_modify
    | apply wp_ret
    | match goal with |- forall _, _ => intros ? end
    | match goal with H : _ ≫= _ = Ok _ |- _ => apply bind_Ok in H as (? & ? & ?) end ];
  autorewrite with rust in *;
  repeat match goal with H : ~ (_ <> _) |- _ => apply dec_stable in H end.

Section observations.
Context (i : ProcessGenerationIdentity) (t : ClockReading) (s : ProcessLivenessState).

Definition on_time : Prop := i = liveness_identity s /\ not_before (last_observed_at s) t.
Definition fits (b : ProcessLifecycleBudgets -> BoundedDuration) (r : ClockReading) : Prop :=
  (now_value r + duration_value (b (liveness_budgets s)) <= u64_max)%N.
(** [t] is before the deadline [r] armed with the budget [b]. *)
Definition before (b : ProcessLifecycleBudgets -> BoundedDuration) (r : ClockReading) : Prop :=
  (now_value t < now_value r + duration_value (b (liveness_budgets s)))%N.

Lemma startup_effect w :
  wp (observe_startup_ack i w t)
    (fun d s' =>
       d = Duplicate /\ s' = s \/
       d = Advanced /\ liveness_phase s = Bootstrapping /\ on_time /\ (last_worker_sequence s < w)%N /\
       fits budget_heartbeat_timeout t /\ before budget_start (started_at s) /\ s' = set_live w t s)
    (refused s) s.
Proof.
  unfold observe_startup_ack, on_time, fits, before. observe.
  case_bool_decide as Hp.
  - apply wp_clean_read; [by eauto with clean|]. intros d Hd. unfold duplicate_or_terminal in Hd.
    case_match; [|done]. injection Hd as <-. by left.
  - observe. destruct a0; observe; [right|by left]. naive_solver.
Qed.

Lemma heartbeat_effect w q hb :
  last_heartbeat_at s = Some hb \/ liveness_phase s <> Live ->
  wp (observe_heartbeat i w q t)
    (fun d s' =>
       d = Duplicate /\ s' = s \/
       d = Advanced /\ liveness_phase s = Live /\ on_time /\ (last_worker_sequence s < w)%N /\
       (last_heartbeat_sequence s < q)%N /\ last_heartbeat_at s = Some hb /\
       fits budget_heartbeat_timeout t /\ before budget_heartbeat_timeout hb /\ s' = set_heartbeat w q t s)
    (refused s) s.
Proof.
  intros Hhb. unfold observe_heartbeat, on_time, fits, before. observe.
  case_bool_decide as Hp.
  - apply wp_clean_read; [by eauto with clean|]. intros d Hd. unfold duplicate_or_terminal in Hd.
    case_match; [|done]. injection Hd as <-. by left.
  - destruct Hhb as [Hhb|?]; [|tauto]. observe.
    destruct a1; [observe; right; naive_solver lia|].
    case_match; [apply wp_ret; by left|by apply wp_clean_lift].
Qed.

Lemma begin_probe_effect p hb :
  last_heartbeat_at s = Some hb \/ liveness_phase s <> Live ->
  wp (begin_control_probe i p t)
    (fun _ s' =>
       liveness_phase s = Live /\ on_time /\ (last_probe_id s < p)%N /\ outstanding_probe s = None /\
       last_heartbeat_at s = Some hb /\ fits budget_control_response t /\
       before budget_heartbeat_timeout hb /\ s' = set_probe p t s)
    (refused s) s.
Proof.
  intros Hhb. unfold begin_control_probe, on_time, fits, before.
  destruct (decide (liveness_phase s = Live)) as [Hl|Hl].
  - destruct Hhb as [Hhb|?]; [|done]. observe. rewrite <-eq_None_not_Some in *. naive_solver lia.
  - observe. tauto.
Qed.

Lemma response_effect w p :
  wp (observe_control_response i w p t)
    (fun d s' =>
       d = Duplicate /\ s' = s \/
       d = Advanced /\ liveness_phase s = Live /\ on_time /\ (last_worker_sequence s < w)%N /\
       (exists o, outstanding_probe s = Some o /\ outstanding_id o = p /\
          before budget_control_response (sent_at o)) /\ s' = set_response p w t s)
    (refused s) s.
Proof.
  unfold observe_control_response, on_time, before. observe. case_bool_decide; [apply wp_ret; by left|].
  observe. right. naive_solver lia.
Qed.
End observations.

(** ** The state follows the history *)

Definition terminal (p : LivenessPhase) : bool :=
  match p with Bootstrapping | Live => false | Unresponsive | Exited | Quarantined => true end.

Record liveness_inv (start : ClockReading) (b : ProcessLifecycleBudgets) (h : history)
    (s : ProcessLivenessState) : Prop := {
  li_budgets : liveness_budgets s = b;
  li_started : started_at s = start;
  li_start_fits : (now_value start + duration_value (budget_start b) <= u64_max)%N;
  li_phase :
    match liveness_phase s with
    | Bootstrapping =>
        h = history_start /\ last_worker_sequence s = 0%N /\ last_heartbeat_sequence s = 0%N /\
        outstanding_probe s = None
    | Live =>
        hist_ended h = false /\
        (exists hb, last_heartbeat_at s = Some hb /\ not_before hb (last_observed_at s) /\
           hist_beat h = Some (now_value hb, last_heartbeat_sequence s) /\
           (now_value hb + duration_value (budget_heartbeat_timeout b) <= u64_max)%N) /\
        hist_probe h = (fun p => (outstanding_id p, now_value (sent_at p))) <$> outstanding_probe s /\
        (forall p, outstanding_probe s = Some p ->
           (now_value (sent_at p) + duration_value (budget_control_response b) <= u64_max)%N)
    | Unresponsive | Exited | Quarantined => hist_ended h = true
    end }.

Lemma not_before_refl a : not_before a a.
Proof. split; [done|lia]. Qed.
Lemma not_before_trans a b c : not_before a b -> not_before b c -> not_before a c.
Proof. intros [[Ha Hb] ?] [[Hc Hd] ?]. split; [split; congruence|lia]. Qed.

Lemma liveness_try_new_inv i b t s :
  liveness_try_new i b t = Ok s -> liveness_inv t b history_start s.
Proof.
  unfold liveness_try_new. intros (d & [Hd ->]%liveness_deadline_Ok & [= <-])%bind_Ok. by split.
Qed.

Section preserved.
Context (start : ClockReading) (b : ProcessLifecycleBudgets) (h : history) (s : ProcessLivenessState).
Hypothesis Hinv : liveness_inv start b h s.

Lemma inv_beat : exists hb, last_heartbeat_at s = Some hb \/ liveness_phase s <> Live.
Proof.
  destruct Hinv as [_ _ _ Hp]. destruct (liveness_phase s); try (by exists start; right).
  destruct Hp as (_ & (hb & ? & _) & _). exists hb. by left.
Qed.

Lemma set_live_inv w t q :
  liveness_phase s = Bootstrapping -> fits s budget_heartbeat_timeout t ->
  liveness_inv start b (history_step h (CallStartupAck q w t, Ok (FrameReport Advanced))) (set_live w t s).
Proof.
  destruct Hinv as [Hb Hs Hf Hp]. intros Hph Hfit. rewrite Hph in Hp. destruct Hp as (-> & Hw & Hq & Ho).
  split; try done. simpl. rewrite Hq, Ho. split; [done|]. split; [|done].
  exists t. repeat split; try done. unfold fits in Hfit. by rewrite Hb in Hfit.
Qed.
Lemma set_heartbeat_inv w q t j :
  liveness_phase s = Live -> fits s budget_heartbeat_timeout t ->
  liveness_inv start b (history_step h (CallHeartbeat j w q t, Ok (FrameReport Advanced))) (set_heartbeat w q t s).
Proof.
  destruct Hinv as [Hb Hs Hf Hp]. intros Hph Hfit. rewrite Hph in Hp. destruct Hp as (He & _ & Hpr).
  split; try done. simpl. rewrite Hph. split; [done|]. split; [|done].
  exists t. repeat split; try done. unfold fits in Hfit. by rewrite Hb in Hfit.
Qed.
Lemma set_probe_inv p t j :
  liveness_phase s = Live -> on_time j t s -> fits s budget_control_response t ->
  liveness_inv start b (history_step h (CallBeginProbe j p t, Ok DoneReport)) (set_probe p t s).
Proof.
  destruct Hinv as [Hb Hs Hf Hp]. intros Hph [_ Ht] Hfit. rewrite Hph in Hp.
  destruct Hp as (He & (hb & Hhb & Hbef & ? & ?) & _). unfold fits in Hfit. rewrite Hb in Hfit.
  split; try done. simpl. rewrite Hph. split; [done|]. split; [|split; [done|]].
  - exists hb. repeat split; try done. all: by eapply not_before_trans.
  - by intros ? [= <-].
Qed.
Lemma set_response_inv w p t j :
  liveness_phase s = Live -> on_time j t s ->
  liveness_inv start b (history_step h (CallControlResponse j w p t, Ok (FrameReport Advanced))) (set_response p w t s).
Proof.
  destruct Hinv as [Hb Hs Hf Hp]. intros Hph [_ Ht]. rewrite Hph in Hp.
  destruct Hp as (He & (hb & Hhb & Hbef & ? & ?) & _).
  split; try done. simpl. rewrite Hph. split; [done|]. split; [|done].
  exists hb. repeat split; try done. all: by eapply not_before_trans.
Qed.
Lemma set_ended_inv phase probe t e :
  terminal phase = true -> ends e = true ->
  liveness_inv start b (history_step h e) (set_observed phase probe t s).
Proof.
  destruct Hinv as [Hb Hs Hf Hp]. intros Ht He. split; try done. simpl.
  assert (hist_ended (history_step h e) = true) as Hend.
  { unfold history_step. destruct e as [[] [[[]| |]|?|]]; try discriminate He; rewrite ?He; done. }
  by destruct phase.
Qed.
Lemma set_observed_inv t :
  not_before (last_observed_at s) t ->
  liveness_inv start b h (set_observed (liveness_phase s) (outstanding_probe s) t s).
Proof.
  destruct Hinv as [Hb Hs Hf Hp]. intros Ht. split; try done. simpl.
  destruct (liveness_phase s); try done. destruct Hp as (He & (hb & Hhb & Hbef & Hrest) & Hpr).
  split; [done|]. split; [|done]. exists hb. split; [done|]. split; [by eapply not_before_trans|done].
Qed.
End preserved.

(** The verdict the armed deadlines call for at [now]: the earliest one, when
    it has passed. *)
Definition verdict_of (deadlines : list (N * LivenessFailure)) (now : N) (v : option LivenessFailure) : Prop :=
  match v with
  | None => forall d f, (d, f) ∈ deadlines -> (now < d)%N
  | Some f => exists d, (d, f) ∈ deadlines /\ (d <= now)%N /\
                forall d' f', (d', f') ∈ deadlines -> (d <= d')%N
  end.

Section evaluation.
Context (start : ClockReading) (b : ProcessLifecycleBudgets) (h : history) (s : ProcessLivenessState).
Hypothesis Hinv : liveness_inv start b h s.

Lemma evaluate_live_exact t :
  liveness_phase s = Live ->
  exists v, evaluate_live t s = Ok v /\ verdict_of (armed start b h) (now_value t) v.
Proof.
  destruct Hinv as [Hb Hs Hf Hp]. intros Hph. rewrite Hph in Hp.
  destruct Hp as (He & (hb & Hhb & _ & Hbeat & Hfit) & Hpr & Hpf).
  unfold evaluate_live. rewrite Hhb, Hb. cbn [ok_or mbind result_mbind].
  rewrite (proj2 (liveness_deadline_Ok _ _ _) (conj Hfit eq_refl)). cbn [ok_or mbind result_mbind].
  unfold armed. rewrite He, Hbeat, Hpr.
  destruct (outstanding_probe s) as [[p ts]|]; simpl in *.
  - pose proof (Hpf _ eq_refl) as Hpf'; simpl in Hpf'.
    rewrite (proj2 (liveness_deadline_Ok _ _ _) (conj Hpf' eq_refl)). cbn [mbind result_mbind].
    eexists; split; [done|]. unfold reached; simpl.
    set (dh := (now_value hb + _)%N). set (dp := (now_value ts + _)%N).
    destruct (N.leb_spec dp (now_value t)), (N.leb_spec dp dh), (N.leb_spec dh (now_value t)); simpl;
      try lia; unfold verdict_of; setoid_rewrite elem_of_cons; setoid_rewrite list_elem_of_singleton;
      try (eexists; split; [by (left + right)|split; [lia|]]); naive_solver lia.
  - eexists; split; [done|]. unfold reached; simpl. destruct (N.leb_spec (now_value hb + duration_value (budget_heartbeat_timeout b)) (now_value t)); simpl;
      setoid_rewrite list_elem_of_singleton; naive_solver lia.
Qed.

Lemma wp_clean_clock t Q (R : option LivenessError -> ProcessLivenessState -> Prop) :
  (not_before (last_observed_at s) t -> Q tt s) ->
  (forall e, refused s e s -> ~ not_before (last_observed_at s) t -> R e s) ->
  wp (read (fun self => validate_clock (last_observed_at self) t)) Q R s.
Proof.
  intros HQ HR. pose proof (clean_validate_clock (last_observed_at s) t) as [Hp He].
  apply wp_read; [intros [] ?%validate_clock_Ok; auto| |done].
  intros e Hv. apply HR; [split; [done|split; [done|]]; by intros [= ->]|].
  intros Hn. apply (validate_clock_Ok _ _ tt) in Hn. congruence.
Qed.
Lemma evaluate_effect t :
  wp (evaluate t)
    (fun v s' => not_before (last_observed_at s) t /\ verdict_of (armed start b h) (now_value t) v /\
       s' = set_observed (match v with Some _ => Unresponsive | None => liveness_phase s end)
              (outstanding_probe s) t s)
    (fun e s' => refused s e s' /\ ~ not_before (last_observed_at s) t) s.
Proof.
  unfold evaluate. apply wp_bind, wp_clean_clock; [|done]. intros Ht. apply wp_bind, wp_gets.
  destruct Hinv as [Hb Hs Hf Hp].
  destruct (liveness_phase s) eqn:Hph;
    [| |apply wp_bind, wp_modify, wp_ret; unfold armed; rewrite Hp, Hph; split; [done|]; split; [|done];
        by intros ? ? ?%not_elem_of_nil..].
  - destruct Hp as (-> & _). apply wp_bind. rewrite <-Hs, <-Hb in Hf.
    eapply wp_read_Ok; [rewrite (proj2 (liveness_deadline_Ok _ _ _) (conj Hf eq_refl)); done|].
    apply wp_bind, wp_modify, wp_ret. split; [done|]. rewrite Hph. split; [|done].
    unfold reached, armed; simpl. rewrite <-Hs, <-Hb.
    destruct (N.leb_spec (now_value (started_at s) + duration_value (budget_start (liveness_budgets s))) (now_value t));
      simpl; setoid_rewrite list_elem_of_singleton; naive_solver lia.
  - destruct (evaluate_live_exact t Hph) as (v & Hv & Hver). apply wp_bind. eapply wp_read_Ok; [done|].
    apply wp_bind, wp_modify, wp_ret. by rewrite Hph.
Qed.
End evaluation.

(** ** Runs *)

Definition verdict_event (e : LivenessEvent) : bool :=
  match e with (_, Ok (VerdictReport (Some _))) => true | _ => false end.

(** What an event says about the frames accepted and the phase. *)
Definition frame_step (e : LivenessEvent) (s s' : ProcessLivenessState) : Prop :=
  match accepted_frame e with
  | Some w => (last_worker_sequence s < w)%N /\ last_worker_sequence s' = w /\
              terminal (liveness_phase s) = false
  | None => last_worker_sequence s' = last_worker_sequence s
  end /\
  (terminal (liveness_phase s) = true -> terminal (liveness_phase s') = true /\ verdict_event e = false) /\
  (ends e = true -> terminal (liveness_phase s') = true).

Section call.
Context (start : ClockReading) (b : ProcessLifecycleBudgets) (h : history) (s : ProcessLivenessState).
Hypothesis Hinv : liveness_inv start b h s.

Definition call_post (c : LivenessCall) (r : LivenessReport) (s' : ProcessLivenessState) : Prop :=
  liveness_inv start b (history_step h (c, Ok r)) s' /\ frame_step (c, Ok r) s s'.

Lemma run_call_effect c : wp (run_call c) (call_post c) (refused s) s.
Proof.
  unfold call_post, frame_step.
  destruct (inv_beat _ _ _ _ Hinv) as [hb Hhb].
  destruct c as [i w t|i w q t|i p t|i w p t|t|i t|i t]; unfold run_call; apply wp_bind.
  - eapply wp_mono; [apply startup_effect| |done]. intros d s' [[-> ->]|(-> & Hp & ? & ? & ? & ? & ->)]; apply wp_ret.
    + done.
    + rewrite Hp. split; [by apply set_live_inv|]. done.
  - eapply wp_mono; [by eapply heartbeat_effect| |done]. intros d s' [[-> ->]|(-> & Hp & ? & ? & ? & ? & ? & ? & ->)]; apply wp_ret.
    + done.
    + split; [by apply set_heartbeat_inv|]. simpl. by rewrite Hp.
  - eapply wp_mono; [by eapply begin_probe_effect| |done]. intros [] s' (Hp & ? & ? & ? & ? & ? & ? & ->); apply wp_ret.
    split; [by apply set_probe_inv|]. simpl. by rewrite Hp.
  - eapply wp_mono; [by eapply response_effect| |done]. intros d s' [[-> ->]|(-> & Hp & ? & ? & _ & ->)]; apply wp_ret.
    + done.
    + split; [by apply set_response_inv|]. simpl. by rewrite Hp.
  - eapply wp_mono; [by apply evaluate_effect| |by intros ?? []]. intros v s' (Ht & Hv & ->). apply wp_ret.
    destruct v as [f|].
    + split; [by apply set_ended_inv|]. split; [done|]. split; [|done]. intros Hterm.
      exfalso. destruct Hv as (d & Hd & _). destruct Hinv as [_ _ _ Hp].
      destruct (liveness_phase s); try discriminate Hterm; unfold armed in Hd; rewrite Hp in Hd; by apply not_elem_of_nil in Hd.
    + split; [by apply set_observed_inv|]. done.
  - unfold mark_exited. apply wp_bind, wp_clean_read; [by eauto with clean|]. intros _ _. apply wp_modify, wp_ret.
    split; [by apply set_ended_inv|]. done.
  - unfold mark_quarantined. apply wp_bind, wp_clean_read; [by eauto with clean|]. intros _ _. apply wp_modify, wp_ret.
    split; [by apply set_ended_inv|]. done.
Qed.

(** A call keeps the invariant, fails cleanly, and changes nothing when it fails. *)
Lemma run_call_step c s' r :
  run_call c s = (s', r) ->
  liveness_inv start b (history_step h (c, r)) s' /\ frame_step (c, r) s s' /\ clean r /\
  ((forall a, r <> Ok a) -> s' = s).
Proof.
  intros Hr. pose proof (wp_run _ _ _ _ _ _ (run_call_effect c) Hr) as Hw.
  destruct r as [a|e|]; [| |by destruct Hw as (_ & ? & _)].
  - destruct Hw as [Hi Hf]. split; [done|]. split; [done|]. split; [done|]. intros Hn. by destruct (Hn a).
  - destruct Hw as (-> & _ & He). split; [by destruct c|]. split; [by destruct c; repeat split|].
    split; [|done]. split; [done|]. intros [= ->]. done.
Qed.
End call.

Lemma run_calls_inv start b l s h s' out :
  liveness_inv start b h s -> run_calls s l = (s', out) ->
  liveness_inv start b (fold_left history_step out h) s'.
Proof.
  revert s h s' out; induction l as [|c l IH]; simpl; intros s h s' out Hinv Hr; [by simplify_eq|].
  destruct (run_call c s) as [s1 r] eqn:Hc, (run_calls s1 l) as [s2 out'] eqn:Hl. simplify_eq. simpl.
  apply run_call_step with (1 := Hinv) in Hc as (Hi & _). by eapply IH.
Qed.

Lemma run_calls_frames start b l s h s' out :
  liveness_inv start b h s -> run_calls s l = (s', out) ->
  StronglySorted N.lt (last_worker_sequence s :: accepted_frames out) /\
  (terminal (liveness_phase s) = true -> accepted_frames out = [] /\ forallb (fun e => negb (verdict_event e)) out = true).
Proof.
  revert s h s' out; induction l as [|c l IH]; simpl; intros s h s' out Hinv Hr.
  { simplify_eq. split; [|done]. repeat constructor. }
  destruct (run_call c s) as [s1 r] eqn:Hc, (run_calls s1 l) as [s2 out'] eqn:Hl. simplify_eq.
  apply run_call_step with (1 := Hinv) in Hc as (Hi & (Hf & Ht & _) & _).
  destruct (IH _ _ _ _ Hi Hl) as [Hs Hterm]. unfold accepted_frames in *.
  assert (omap accepted_frame ((c, r) :: out') =
    match accepted_frame (c, r) with Some w => [w] | None => [] end ++ omap accepted_frame out') as ->.
  { cbn [omap list_omap]. by destruct (accepted_frame _). }
  destruct (accepted_frame (c, r)) as [w|].
  - destruct Hf as (Hlt & <- & Hnt). rewrite Hnt. split; [|done]. simpl. constructor; [done|].
    inversion Hs as [|? ? ? Hall]; subst. constructor; [done|]. eapply List.Forall_impl; [|done].
    simpl. intros. lia.
  - rewrite <-Hf. split; [done|]. intros Hp%Ht. destruct Hp as [Hp Hv]. destruct (Hterm Hp) as [-> Hall].
    split; [done|]. cbn [forallb]. by rewrite Hv, Hall.
Qed.

Lemma run_calls_app s l k :
  run_calls s (l ++ k) =
  let '(s1, out1) := run_calls s l in let '(s2, out2) := run_calls s1 k in (s2, out1 ++ out2).
Proof.
  revert s; induction l as [|c l IH]; intros s; simpl; [by destruct (run_calls s k)|].
  destruct (run_call c s) as [s1 r]. rewrite IH. destruct (run_calls s1 l) as [s2 o2].
  by destruct (run_calls s2 k).
Qed.
Lemma run_calls_split l s s' pre e post :
  run_calls s l = (s', pre ++ e :: post) ->
  exists l1 l2 s1 s2, run_calls s l1 = (s1, pre) /\ run_call e.1 s1 = (s2, e.2) /\ run_calls s2 l2 = (s', post).
Proof.
  revert s pre; induction l as [|c l IH]; intros s pre; simpl.
  { intros [= _ Hn]. by destruct pre. }
  destruct (run_call c s) as [s1 r] eqn:Hc, (run_calls s1 l) as [s2 out] eqn:Hl. intros Hr.
  destruct pre as [|e' pre]; simpl in Hr; injection Hr as -> <- Hout.
  - exists [], l, s, s1. simpl. by rewrite Hl, <-Hout.
  - subst out. destruct (IH s1 pre Hl) as (l1 & l2 & s3 & s4 & H1 & H2 & H3).
    exists (c :: l1), l2, s3, s4. simpl. by rewrite Hc, H1.
Qed.

(** The query of a live process returns the deadline that its last accepted
    sign of life armed, on the same clock, and the time left until it. *)
Lemma heartbeat_deadline_exact start b h s i t :
  liveness_inv start b h s -> liveness_phase s = Live -> on_time i t s ->
  exists beat q, hist_beat h = Some (beat, q) /\
    let at_ := (beat + duration_value (budget_heartbeat_timeout b))%N in
    heartbeat_deadline s i t =
      Ok {| heartbeat_deadline_at :=
              MkMonotonicDeadline (reading_domain t) (reading_generation t) (from_ticks at_);
            heartbeat_remaining := from_nanos (at_ - now_value t) |}.
Proof.
  intros [Hb Hs Hf Hp] Hl [Hi Ht]. rewrite Hl in Hp. destruct Hp as (_ & (hb & Hhb & Hbef & Hbeat & Hfit) & _).
  exists (now_value hb), (last_heartbeat_sequence s). split; [done|]. cbv zeta. unfold heartbeat_deadline.
  rewrite (proj2 (validate_identity_and_time_Ok i t s tt)) by done. cbn [mbind result_mbind].
  rewrite Hl, Hhb, bool_decide_eq_false_2 by tauto. cbn [mbind result_mbind fail_if ok_or].
  rewrite Hb, (proj2 (try_deadline_after_Ok _ _ _) (conj Hfit eq_refl)). cbn [map_err mbind result_mbind].
  destruct (not_before_trans _ _ _ Hbef Ht) as [[-> ->] _].
  unfold remaining_at. by rewrite (proj2 (ensure_compatible_spec _ t tt)).
Qed.

(** C21: over any run of calls from a new liveness state, evaluating at a
    reading of the same clock that is not before the last one always
    succeeds, and it reports a failure exactly when the earliest of the
    deadlines that the outcomes so far armed (startup, last accepted sign of
    life, unanswered control probe) has passed; the failure reported is that
    deadline's, and the phase becomes [Unresponsive] exactly then. *)
Theorem liveness_verdict_exact identity budgets start s0 calls s out t :
  liveness_try_new identity budgets start = Ok s0 ->
  run_calls s0 calls = (s, out) ->
  not_before (last_observed_at s) t ->
  exists v s', evaluate t s = (s', Ok v) /\
    verdict_of (armed start budgets (history_of out)) (now_value t) v /\
    liveness_phase s' = match v with Some _ => Unresponsive | None => liveness_phase s end.
Proof.
  intros Hi%liveness_try_new_inv Hr Ht. eapply run_calls_inv in Hr; [|done].
  pose proof (evaluate_effect _ _ _ _ Hr t) as Hw. unfold wp in Hw.
  destruct (evaluate t s) as [s' [v|e|]]; [|by destruct Hw as [_ ?]..].
  destruct Hw as (_ & Hv & ->). by exists v, (set_observed (match v with Some _ => Unresponsive | None => liveness_phase s end) (outstanding_probe s) t s).
Qed.

(** over any run of calls from a new liveness state, the worker frames
    accepted as progress carry strictly increasing sequence numbers, so no
    frame is accepted twice, and once a verdict, an exit or a quarantine has
    ended the observation no frame is accepted and no further verdict is
    reported. *)
Theorem liveness_frames_accepted_once identity budgets start s0 calls s out :
  liveness_try_new identity budgets start = Ok s0 ->
  run_calls s0 calls = (s, out) ->
  StronglySorted N.lt (accepted_frames out) /\
  forall pre e post, out = pre ++ e :: post -> ends e = true ->
    accepted_frames post = [] /\ forallb (fun e => negb (verdict_event e)) post = true.
Proof.
  intros Hi%liveness_try_new_inv Hr. split.
  - eapply run_calls_frames in Hr as [Hs _]; [|done]. by inversion Hs.
  - intros pre [c r] post -> He. apply run_calls_split in Hr as (l1 & l2 & s1 & s2 & H1 & H2 & H3).
    eapply run_calls_inv in H1; [|done]. apply run_call_step with (1 := H1) in H2 as (H2 & (_ & _ & Ht) & _).
    eapply run_calls_frames in H3 as [_ Hp]; [|done]. auto.
Qed.

(** in every state a run of calls reaches, a call never panics and never
    reports the inconsistency error, and a call that fails leaves the state
    as it was. *)
Theorem liveness_failures_change_nothing identity budgets start s0 calls s out c s' r :
  liveness_try_new identity budgets start = Ok s0 ->
  run_calls s0 calls = (s, out) ->
  run_call c s = (s', r) ->
  r <> Panic /\ r <> Err LivenessStateInconsistent /\ ((forall report, r <> Ok report) -> s' = s).
Proof.
  intros Hi%liveness_try_new_inv Hr Hc. eapply run_calls_inv in Hr; [|done].
  apply run_call_step with (1 := Hr) in Hc as (_ & _ & [? ?] & ?). done.
Qed.

(** ** Witnesses *)

Definition liveness_demo_identity : ProcessGenerationIdentity :=
  {| process_runtime_host := MkRuntimeHostId (vreplicate 16 x01);
     process_runtime_host_epoch := MkRuntimeHostEpoch 1;
     process_source_revision := MkSourcePlanRevision 1;
     process_target_slice_digest := MkTargetSliceDigest (MkDigest32 (vreplicate 32 x02));
     process_domain := MkProcessDomainRef (vreplicate 16 x03);
     process_domain_epoch := MkDomainEpoch 1 |}.
Definition liveness_demo_budgets : ProcessLifecycleBudgets :=
  {| lifecycle_liveness := MkProcessLivenessBudgets (from_nanos 100) (from_nanos 10) (from_nanos 30) (from_nanos 20);
     lifecycle_shutdown := MkProcessShutdownBudgets (from_nanos 1) (from_nanos 1) (from_nanos 1) (from_nanos 1) (from_nanos 1) |}.
Definition liveness_demo_at (n : N) : ClockReading :=
  MkClockReading (MkClockDomainRef (vreplicate 16 x04)) (MkClockGeneration 1) (from_ticks n).
Definition liveness_demo_start : ProcessLivenessState :=
  match liveness_try_new liveness_demo_identity liveness_demo_budgets (liveness_demo_at 0) with
  | Ok s => s
  | _ => MkProcessLivenessState liveness_demo_identity liveness_demo_budgets Exited (liveness_demo_at 0)
           (liveness_demo_at 0) 0 0 None None None 0
  end.
(** Startup, a probe, a heartbeat and a duplicate of it. *)
Definition liveness_demo_calls : list LivenessCall :=
  [CallStartupAck liveness_demo_identity 1 (liveness_demo_at 50);
   CallBeginProbe liveness_demo_identity 7 (liveness_demo_at 55);
   CallHeartbeat liveness_demo_identity 2 1 (liveness_demo_at 60);
   CallHeartbeat liveness_demo_identity 2 1 (liveness_demo_at 61);
   CallEvaluate (liveness_demo_at 70)].

Lemma liveness_demo_not_before a b : (a <= b)%N -> not_before (liveness_demo_at a) (liveness_demo_at b).
Proof. by repeat split. Qed.

Lemma liveness_verdict_exact_witness :
  exists v s', evaluate (liveness_demo_at 75) (run_calls liveness_demo_start liveness_demo_calls).1 = (s', Ok v) /\
    v = Some (ControlResponseMissed 7) /\
    verdict_of (armed (liveness_demo_at 0) liveness_demo_budgets
      (history_of (run_calls liveness_demo_start liveness_demo_calls).2)) 75 v.
Proof.
  destruct (liveness_verdict_exact liveness_demo_identity liveness_demo_budgets (liveness_demo_at 0)
    liveness_demo_start liveness_demo_calls (run_calls liveness_demo_start liveness_demo_calls).1
    (run_calls liveness_demo_start liveness_demo_calls).2 (liveness_demo_at 75) eq_refl (surjective_pairing _))
    as (v & s' & Hv & Hverdict & _); [by apply liveness_demo_not_before|].
  exists v, s'. split; [done|]. split; [|done]. by vm_compute in Hv; injection Hv as <- <-.
Defined.
Lemma liveness_frames_accepted_once_witness :
  StronglySorted N.lt (accepted_frames (run_calls liveness_demo_start liveness_demo_calls).2).
Proof.
  apply (liveness_frames_accepted_once liveness_demo_identity liveness_demo_budgets (liveness_demo_at 0)
    liveness_demo_start liveness_demo_calls (run_calls liveness_demo_start liveness_demo_calls).1 _ eq_refl
    (surjective_pairing _)).
Defined.
Lemma liveness_failures_change_nothing_witness :
  (run_call (CallBeginProbe liveness_demo_identity 8 (liveness_demo_at 71))
     (run_calls liveness_demo_start liveness_demo_calls).1).1 =
  (run_calls liveness_demo_start liveness_demo_calls).1.
Proof.
  apply (liveness_failures_change_nothing liveness_demo_identity liveness_demo_budgets (liveness_demo_at 0)
    liveness_demo_start liveness_demo_calls (run_calls liveness_demo_start liveness_demo_calls).1
    (run_calls liveness_demo_start liveness_demo_calls).2
    (CallBeginProbe liveness_demo_identity 8 (liveness_demo_at 71)) _
    (Err ProbeAlreadyOutstanding) eq_refl (surjective_pairing _)); [by vm_compute|done].
Defined.
