(* ===== verification/ServiceManager.v ===== *)
(** * RuntimeHost service manager (crates/paraegox-runtime-host/src/service_manager.rs)

    The external owner of one RuntimeHost process: it spawns the child, watches
    the PXHW stream of [HostWatchdog], terminates and reaps the child's process
    group, and restarts it inside a bounded restart window or quarantines it.

    The operating system is a parameter: the class [Os] lists the calls the
    adapter makes, over a world of any type.  An [Instant] is an integer count
    of nanoseconds, a [Duration] a natural one. *)

From S2P Require Import Prelude Bytes HostWatchdog.
Open Scope rust_scope.
Local Open Scope N_scope.

Abbreviation Instant := Z (only parsing).
Abbreviation Duration := N (only parsing).

(** [Instant::duration_since]: saturates at zero. *)
Definition duration_since (later earlier : Instant) : Duration := Z.to_N (later - earlier)%Z.
Definition from_millis (n : N) : Duration := n * 1000000.
Definition from_secs (n : N) : Duration := n * 1000000000.
Definition DURATION_MAX : Duration := u64_max * 1000000000 + 999999999.

(** ** Policies *)

Definition MIN_TIMING : Duration := from_millis 5.
Definition MAX_TIMING : Duration := from_secs 60.
Definition MAX_RESTART_WINDOW : Duration := from_secs (24 * 60 * 60).
Definition MAX_RESTART_ATTEMPTS : N := 32.
Definition MIN_EVIDENCE_CAPACITY : N := 16.
Definition MAX_EVIDENCE_CAPACITY : N := 256.
Definition MAX_FRAMES_PER_POLL : nat := 32%nat.

Inductive Errno := ESRCH | EPERM | OtherErrno (code : N).

Inductive ServiceManagerError :=
| InvalidConfiguration
| GenerationExhausted
| MissingChildPipe
| WatchdogPipeFailed
| OwnedProcessGroupDidNotExit
| ManagerStateInconsistent
| InvalidProcessIdentity
| Io
| SignalError (errno : Errno).

Record HostWatchdogTiming := MkHostWatchdogTiming {
  heartbeat_interval : Duration;
  heartbeat_timeout : Duration;
  bootstrap_timeout : Duration;
  bootstrap_progress_timeout : Duration;
  control_probe_interval : Duration;
  control_response_timeout : Duration;
  handshake_timeout : Duration;
}.
Definition watchdog_timing_try_new (heartbeat_interval heartbeat_timeout bootstrap_timeout
    bootstrap_progress_timeout control_probe_interval control_response_timeout
    handshake_timeout : Duration) : result ServiceManagerError HostWatchdogTiming :=
  let values := [heartbeat_interval; heartbeat_timeout; bootstrap_timeout;
                 bootstrap_progress_timeout; control_probe_interval; control_response_timeout;
                 handshake_timeout] in
  bail InvalidConfiguration
    when existsb (fun value => (value <? MIN_TIMING) || (MAX_TIMING <? value)) values
      || (heartbeat_timeout <=? heartbeat_interval)
      || (bootstrap_timeout <=? heartbeat_interval)
      || (bootstrap_timeout <? bootstrap_progress_timeout)
      || (control_response_timeout <=? heartbeat_interval)
      || (bootstrap_timeout <? handshake_timeout);
  Ok (MkHostWatchdogTiming heartbeat_interval heartbeat_timeout bootstrap_timeout
        bootstrap_progress_timeout control_probe_interval control_response_timeout
        handshake_timeout).

Record HostTerminationTiming := MkHostTerminationTiming {
  term_grace : Duration;
  kill_grace : Duration;
  poll_interval : Duration;
}.
Definition termination_timing_try_new (term_grace kill_grace poll_interval : Duration)
    : result ServiceManagerError HostTerminationTiming :=
  bail InvalidConfiguration
    when (term_grace <? MIN_TIMING) || (MAX_TIMING <? term_grace)
      || (kill_grace <? MIN_TIMING) || (MAX_TIMING <? kill_grace)
      || (poll_interval <? MIN_TIMING) || (term_grace <? poll_interval)
      || (kill_grace <? poll_interval);
  Ok (MkHostTerminationTiming term_grace kill_grace poll_interval).

Record HostRestartPolicy := MkHostRestartPolicy {
  window : Duration;
  maximum_restarts : N;
  initial_backoff : Duration;
  maximum_backoff : Duration;
  maximum_jitter : Duration;
}.
Definition restart_policy_try_new (window : Duration) (maximum_restarts : N)
    (initial_backoff maximum_backoff maximum_jitter : Duration)
    : result ServiceManagerError HostRestartPolicy :=
  bail InvalidConfiguration
    when (window <? MIN_TIMING) || (MAX_RESTART_WINDOW <? window)
      || (maximum_restarts =? 0) || (MAX_RESTART_ATTEMPTS <? maximum_restarts)
      || (initial_backoff <? MIN_TIMING) || (maximum_backoff <? initial_backoff)
      || (MAX_TIMING <? maximum_backoff) || (maximum_backoff <? maximum_jitter);
  Ok (MkHostRestartPolicy window maximum_restarts initial_backoff maximum_backoff maximum_jitter).

Record RuntimeHostServiceManagerPolicy := MkServiceManagerPolicy {
  watchdog : HostWatchdogTiming;
  termination : HostTerminationTiming;
  restart : HostRestartPolicy;
  evidence_capacity : N;
}.
Definition manager_policy_try_new (watchdog : HostWatchdogTiming)
    (termination : HostTerminationTiming) (restart : HostRestartPolicy) (evidence_capacity : N)
    : result ServiceManagerError RuntimeHostServiceManagerPolicy :=
  bail InvalidConfiguration
    when negb ((MIN_EVIDENCE_CAPACITY <=? evidence_capacity)
               && (evidence_capacity <=? MAX_EVIDENCE_CAPACITY));
  Ok (MkServiceManagerPolicy watchdog termination restart evidence_capacity).

Definition reference_defaults : result ServiceManagerError RuntimeHostServiceManagerPolicy :=
  watchdog ← watchdog_timing_try_new (from_millis 100) (from_millis 750) (from_secs 5)
    (from_secs 2) (from_millis 250) (from_secs 1) (from_secs 2);
  termination ← termination_timing_try_new (from_secs 2) (from_secs 2) (from_millis 20);
  restart ← restart_policy_try_new (from_secs 30) 3 (from_millis 100) (from_secs 2) (from_millis 50);
  manager_policy_try_new watchdog termination restart 128.

(** [RuntimeHostLaunch::try_new]: the executable's path, as bytes. *)
Definition launch_try_new (executable : list byte) : result ServiceManagerError (list byte) :=
  bail InvalidConfiguration when bool_decide (executable = []);
  Ok executable.

Definition wrapping_mul64 (a b : N) : N := (a * b) mod 2 ^ 64.
Definition rotate_left64 (a k : N) : N :=
  N.lor (N.shiftl a k mod 2 ^ 64) (N.shiftr a (64 - k)).

Definition restart_delay (policy : HostRestartPolicy) (attempt generation : N) : Duration :=
  let shift := N.min (saturating_sub attempt 1) 31 in
  let multiplier := 2 ^ shift in
  let base := N.min (N.min (initial_backoff policy * multiplier) DURATION_MAX)
                    (maximum_backoff policy) in
  let jitter_limit := match try_from u64_max (maximum_jitter policy) with
                      | Some limit => limit | None => u64_max end in
  if jitter_limit =? 0 then base
  else
    let mixed := rotate_left64 (wrapping_mul64 generation 0x9e3779b97f4a7c15) 17 in
    N.min (base + mixed mod (saturating_add u64_max jitter_limit 1)) DURATION_MAX.

Definition duration_millis (value : Duration) : result ServiceManagerError N :=
  ok_or (try_from u64_max (value / 1000000)) InvalidConfiguration.

(** ** Evidence and state *)

Inductive ServiceManagerFailure :=
| HostExited
| BootstrapDeadlineExceeded
| BootstrapProgressStalled
| ManagerHeartbeatMissed
| ControlUnresponsive
| WatchdogStreamClosed
| WatchdogProtocolViolation
| SpawnSetupFailed
| SpawnCleanupFailed
| RestartSpawnFailed.

Inductive ServiceManagerEvidenceKind :=
| Spawned
| EvBootstrapProgress (phase : HostBootstrapPhase)
| EvRunningHeartbeat
| ControlProbeSent (nonce : HostControlProbeNonce)
| ControlAcknowledged (nonce : HostControlProbeNonce)
| HostExitObserved
| FailureDetected (failure : ServiceManagerFailure)
| TermSent
| KillSent
| Reaped
| RestartScheduled (attempt : N) (delay : Duration)
| EvQuarantined (failure : ServiceManagerFailure)
| ShutdownRequested.

Record ServiceManagerEvidence := MkServiceManagerEvidence {
  evidence_elapsed : Duration;
  evidence_generation : N;
  evidence_pid : option N;
  evidence_kind : ServiceManagerEvidenceKind;
}.

Inductive RuntimeHostServiceManagerState :=
| ManagerBootstrapping
| ManagerRunning
| RestartBackoff
| ManagerQuarantined
| Stopped.
#[export] Instance ManagerState_eq_dec : EqDecision RuntimeHostServiceManagerState.
Proof. solve_decision. Defined.

Record RuntimeHostServiceManagerSnapshot := MkManagerSnapshot {
  snapshot_state : RuntimeHostServiceManagerState;
  snapshot_generation : N;
  snapshot_active_pid : option N;
  snapshot_restart_attempts_in_window : N;
  snapshot_evidence_entries : N;
}.

Record PendingRestart := MkPendingRestart {
  due : Instant;
  pending_failure : ServiceManagerFailure;
}.

(** What the child is started with. *)
Record LaunchRequest := MkLaunchRequest {
  request_executable : list byte;
  request_generation : N;
  request_heartbeat_millis : N;
  request_handshake_millis : N;
}.

Inductive PosixSignal := SIGTERM | SIGKILL.
Inductive ReadError := WouldBlock | OtherReadError.

(** ** The operating system *)

(** The calls of the adapter.  [Child] is the handle [Command::spawn]
    returns; the sums put the error on the left. *)
Class Os (W Child : Type) := {
  instant_min : Z;
  instant_max : Z;
  os_now : W -> W * Instant;
  os_sleep : Duration -> W -> W;
  os_spawn : LaunchRequest -> W -> W * option Child;
  os_child_id : Child -> N;
  os_has_stdin : Child -> bool;
  os_has_stdout : Child -> bool;
  os_getfl : Child -> W -> W * (Errno + N);
  os_setfl : Child -> N -> W -> W * (Errno + unit);
  os_truncate_flags : N -> N;
  os_nonblock : N;
  os_try_wait : Child -> W -> W * option bool;
  os_kill : Child -> W -> W;
  os_killpg : N -> option PosixSignal -> W -> W * (Errno + unit);
  os_read : Child -> N -> W -> W * (ReadError + list byte);
  os_write_all : Child -> list byte -> W -> W * bool;
  os_flush : Child -> W -> W * bool;
}.

Section manager.
Context {W Child : Type} `{Os W Child}.

Record ManagedRuntimeHost := MkManagedRuntimeHost {
  managed_generation : HostWatchdogGeneration;
  managed_pid : N;
  managed_child : Child;
  read_buffer : list byte;
  read_offset : N;
  spawned_at : Instant;
  last_progress_at : Instant;
  managed_last_heartbeat_at : Instant;
  bootstrap_phase : option HostBootstrapPhase;
  next_host_sequence : N;
  next_manager_sequence : N;
  next_probe_nonce : N;
  managed_outstanding_probe : option (HostControlProbeNonce * Instant);
  last_probe_completed_at : Instant;
}.
Record FailedSpawnCleanupOwner := MkFailedSpawnCleanupOwner {
  failed_generation : HostWatchdogGeneration;
  failed_pid : N;
  failed_child : Child;
}.
Record RuntimeHostServiceManager := MkServiceManager {
  launch : list byte;
  policy : RuntimeHostServiceManagerPolicy;
  origin : Instant;
  state : RuntimeHostServiceManagerState;
  generation : N;
  active : option ManagedRuntimeHost;
  failed_spawn_cleanup : option FailedSpawnCleanupOwner;
  restart_attempts : list Instant;
  pending_restart : option PendingRestart;
  evidence : list ServiceManagerEvidence;
}.

Definition is_running (self : ManagedRuntimeHost) : bool :=
  bool_decide (bootstrap_phase self = Some PhaseRunning).

(** Methods run on the manager and the world. *)
Abbreviation Manager A := (M (RuntimeHostServiceManager * W) ServiceManagerError A).

Definition os_call {A : Type} (f : W -> W * A) : Manager A :=
  fun '(m, w) => let '(w', a) := f w in ((m, w'), Ok a).
Definition os_do (f : W -> W) : Manager unit := fun '(m, w) => ((m, f w), Ok tt).
Definition self_get {A : Type} (f : RuntimeHostServiceManager -> A) : Manager A :=
  fun '(m, w) => ((m, w), Ok (f m)).
Definition self_set (f : RuntimeHostServiceManager -> RuntimeHostServiceManager) : Manager unit :=
  fun '(m, w) => ((f m, w), Ok tt).
(** The [Result] of a call that is inspected instead of propagated. *)
Definition caught {A : Type} (m : Manager A) : Manager (ServiceManagerError + A) :=
  fun s => match m s with
           | (s', Ok a) => (s', Ok (inr a))
           | (s', Err e) => (s', Ok (inl e))
           | (s', Panic) => (s', Panic)
           end.

Definition instant_checked_add (t : Instant) (d : Duration) : option Instant :=
  let r := (t + Z.of_N d)%Z in if (r <=? instant_max)%Z then Some r else None.
Definition instant_checked_sub (t : Instant) (d : Duration) : option Instant :=
  let r := (t - Z.of_N d)%Z in if (instant_min <=? r)%Z then Some r else None.

(** Field assignments. *)
Definition set_state (v : RuntimeHostServiceManagerState) (m : RuntimeHostServiceManager) : RuntimeHostServiceManager :=
  MkServiceManager (launch m) (policy m) (origin m) v (generation m) (active m)
    (failed_spawn_cleanup m) (restart_attempts m) (pending_restart m) (evidence m).
Definition set_generation (v : N) (m : RuntimeHostServiceManager) : RuntimeHostServiceManager :=
  MkServiceManager (launch m) (policy m) (origin m) (state m) v (active m)
    (failed_spawn_cleanup m) (restart_attempts m) (pending_restart m) (evidence m).
Definition set_active (v : option ManagedRuntimeHost) (m : RuntimeHostServiceManager) : RuntimeHostServiceManager :=
  MkServiceManager (launch m) (policy m) (origin m) (state m) (generation m) v
    (failed_spawn_cleanup m) (restart_attempts m) (pending_restart m) (evidence m).
Definition set_failed (v : option FailedSpawnCleanupOwner) (m : RuntimeHostServiceManager) : RuntimeHostServiceManager :=
  MkServiceManager (launch m) (policy m) (origin m) (state m) (generation m) (active m)
    v (restart_attempts m) (pending_restart m) (evidence m).
Definition set_attempts (v : list Instant) (m : RuntimeHostServiceManager) : RuntimeHostServiceManager :=
  MkServiceManager (launch m) (policy m) (origin m) (state m) (generation m) (active m)
    (failed_spawn_cleanup m) v (pending_restart m) (evidence m).
Definition set_pending (v : option PendingRestart) (m : RuntimeHostServiceManager) : RuntimeHostServiceManager :=
  MkServiceManager (launch m) (policy m) (origin m) (state m) (generation m) (active m)
    (failed_spawn_cleanup m) (restart_attempts m) v (evidence m).
Definition set_evidence (v : list ServiceManagerEvidence) (m : RuntimeHostServiceManager) : RuntimeHostServiceManager :=
  MkServiceManager (launch m) (policy m) (origin m) (state m) (generation m) (active m)
    (failed_spawn_cleanup m) (restart_attempts m) (pending_restart m) v.

(** ** Evidence ring *)

Definition record_for (g : N) (pid : option N) (kind : ServiceManagerEvidenceKind) : Manager unit :=
  _ ← self_set (fun m =>
    if len (evidence m) =? evidence_capacity (policy m) then set_evidence (tail (evidence m)) m else m);
  now ← os_call os_now;
  self_set (fun m =>
    set_evidence (evidence m ++ [{| evidence_elapsed := duration_since now (origin m);
                                    evidence_generation := g;
                                    evidence_pid := pid;
                                    evidence_kind := kind |}]) m).
Definition record (pid : option N) (kind : ServiceManagerEvidenceKind) : Manager unit :=
  g ← self_get generation; record_for g pid kind.

(** ** Restart window *)

Fixpoint prune_attempts (now : Instant) (limit : Duration) (l : list Instant) : list Instant :=
  match l with
  | [] => []
  | attempt :: l' =>
      if limit <? duration_since now attempt then prune_attempts now limit l' else l
  end.
Definition prune_restart_attempts (now : Instant) : Manager unit :=
  self_set (fun m => set_attempts (prune_attempts now (window (restart (policy m))) (restart_attempts m)) m).

(** [self.pending_restart = None; self.state = Quarantined; self.record(..)]. *)
Definition quarantine (failure : ServiceManagerFailure) : Manager unit :=
  _ ← self_set (set_pending None);
  _ ← self_set (set_state ManagerQuarantined);
  record None (EvQuarantined failure).

Definition commit_restart_attempt (failure : ServiceManagerFailure) (now : Instant) : Manager bool :=
  _ ← prune_restart_attempts now;
  attempts ← self_get restart_attempts;
  maximum ← self_get (fun m => maximum_restarts (restart (policy m)));
  if maximum <=? len attempts then _ ← quarantine failure; mret false
  else _ ← self_set (fun m => set_attempts (restart_attempts m ++ [now]) m); mret true.

Definition schedule_restart (failure : ServiceManagerFailure) (now : Instant) : Manager unit :=
  _ ← prune_restart_attempts now;
  attempts ← self_get restart_attempts;
  maximum ← self_get (fun m => maximum_restarts (restart (policy m)));
  if maximum <=? len attempts then quarantine failure
  else
    let attempt := saturating_add u64_max (len attempts) 1 in
    delay ← self_get (fun m => restart_delay (restart (policy m)) attempt (generation m));
    match instant_checked_add now delay with
    | None => quarantine failure
    | Some restart_due =>
        _ ← self_set (set_pending (Some {| due := restart_due; pending_failure := failure |}));
        _ ← self_set (set_state RestartBackoff);
        record None (RestartScheduled attempt delay)
    end.

(** ** Process groups *)

Definition pid (value : N) : result ServiceManagerError N :=
  if value <=? 2 ^ 31 - 1 then Ok value else Err InvalidProcessIdentity.

Definition signal_process_group (process_group : N) (signal : PosixSignal) : Manager unit :=
  group ← lift (pid process_group);
  outcome ← os_call (os_killpg group (Some signal));
  match outcome with
  | inr _ | inl ESRCH => mret tt
  | inl error => lift (Err (SignalError error))
  end.
Definition process_group_exists (process_group : N) : Manager bool :=
  group ← lift (pid process_group);
  outcome ← os_call (os_killpg group None);
  match outcome with
  | inr _ | inl EPERM => mret true
  | inl ESRCH => mret false
  | inl error => lift (Err (SignalError error))
  end.
(** [child.try_wait().map_err(Io)?.is_some()]. *)
Definition leader_exited (child : Child) : Manager bool :=
  outcome ← os_call (os_try_wait child);
  lift (ok_or outcome Io).

(** The loop of [wait_for_owned_group_cleanup]; running out of [fuel] stops
    the model. *)
Fixpoint cleanup_loop (fuel : nat) (child : Child) (process_group : N) (deadline : Instant)
    (poll_interval : Duration) : Manager bool :=
  match fuel with
  | O => lift Panic
  | S fuel =>
      leader_reaped ← leader_exited child;
      gone ← (if (leader_reaped : bool)
              then group ← process_group_exists process_group; mret (negb group) else mret false);
      if (gone : bool) then mret true
      else
        now ← os_call os_now;
        if (deadline <=? now)%Z then mret false
        else
          _ ← os_do (os_sleep (N.min poll_interval (duration_since deadline now)));
          cleanup_loop fuel child process_group deadline poll_interval
  end.
(** One iteration per poll interval of the budget, and two more. *)
Definition cleanup_fuel (budget poll_interval : Duration) : nat := N.to_nat (budget / poll_interval + 2).
Definition wait_for_owned_group_cleanup (child : Child) (process_group : N)
    (budget poll_interval : Duration) : Manager bool :=
  now ← os_call os_now;
  deadline ← lift (ok_or (instant_checked_add now budget) InvalidConfiguration);
  cleanup_loop (cleanup_fuel budget poll_interval) child process_group deadline poll_interval.

Definition kill_and_reap_failed_spawn (owner : FailedSpawnCleanupOwner) : Manager unit :=
  let record_owner := record_for (watchdog_generation_value (failed_generation owner)) (Some (failed_pid owner)) in
  _ ← signal_process_group (failed_pid owner) SIGKILL;
  _ ← record_owner KillSent;
  _ ← os_do (os_kill (failed_child owner));
  timing ← self_get (fun m => termination (policy m));
  cleaned ← wait_for_owned_group_cleanup (failed_child owner) (failed_pid owner)
    (kill_grace timing) (poll_interval timing);
  _ ← lift (fail_if (negb cleaned) OwnedProcessGroupDidNotExit);
  record_owner Reaped.

Definition terminate_and_reap (host : ManagedRuntimeHost) : Manager unit :=
  let record_host := record_for (watchdog_generation_value (managed_generation host)) (Some (managed_pid host)) in
  leader_reaped ← leader_exited (managed_child host);
  group_exists ← process_group_exists (managed_pid host);
  if leader_reaped && negb group_exists then record_host Reaped
  else if negb leader_reaped && negb group_exists then lift (Err ManagerStateInconsistent)
  else
    _ ← signal_process_group (managed_pid host) SIGTERM;
    _ ← record_host TermSent;
    timing ← self_get (fun m => termination (policy m));
    terminated ← wait_for_owned_group_cleanup (managed_child host) (managed_pid host)
      (term_grace timing) (poll_interval timing);
    _ ← (if (terminated : bool) then mret tt
         else
           _ ← signal_process_group (managed_pid host) SIGKILL;
           _ ← record_host KillSent;
           killed ← wait_for_owned_group_cleanup (managed_child host) (managed_pid host)
             (kill_grace timing) (poll_interval timing);
           lift (fail_if (negb killed) OwnedProcessGroupDidNotExit));
    record_host Reaped.

Definition force_reap_owned_group (child : Child) (process_group : N) (budget poll_interval : Duration)
    : Manager unit :=
  _ ← signal_process_group process_group SIGKILL;
  _ ← os_do (os_kill child);
  cleaned ← wait_for_owned_group_cleanup child process_group budget poll_interval;
  if (cleaned : bool) then mret tt else lift (Err OwnedProcessGroupDidNotExit).

(** ** Watchdog stream *)

Definition with_sequence (v : N) (h : ManagedRuntimeHost) : ManagedRuntimeHost :=
  MkManagedRuntimeHost (managed_generation h) (managed_pid h) (managed_child h) (read_buffer h)
    (read_offset h) (spawned_at h) (last_progress_at h) (managed_last_heartbeat_at h)
    (bootstrap_phase h) v (next_manager_sequence h) (next_probe_nonce h)
    (managed_outstanding_probe h) (last_probe_completed_at h).
(** The fields a bootstrap stage assigns. *)
Definition with_progress (phase : HostBootstrapPhase) (now : Instant) (h : ManagedRuntimeHost) : ManagedRuntimeHost :=
  MkManagedRuntimeHost (managed_generation h) (managed_pid h) (managed_child h) (read_buffer h)
    (read_offset h) (spawned_at h) now
    (if bool_decide (phase = PhaseRunning) then now else managed_last_heartbeat_at h)
    (Some phase) (next_host_sequence h) (next_manager_sequence h) (next_probe_nonce h)
    (if bool_decide (phase = PhaseRunning)
     then match managed_outstanding_probe h with
          | Some (nonce, _) => Some (nonce, now)
          | None => None
          end
     else managed_outstanding_probe h)
    (last_probe_completed_at h).
Definition with_heartbeat (now : Instant) (h : ManagedRuntimeHost) : ManagedRuntimeHost :=
  MkManagedRuntimeHost (managed_generation h) (managed_pid h) (managed_child h) (read_buffer h)
    (read_offset h) (spawned_at h) (last_progress_at h) now (bootstrap_phase h)
    (next_host_sequence h) (next_manager_sequence h) (next_probe_nonce h)
    (managed_outstanding_probe h) (last_probe_completed_at h).
Definition with_ack (now : Instant) (h : ManagedRuntimeHost) : ManagedRuntimeHost :=
  MkManagedRuntimeHost (managed_generation h) (managed_pid h) (managed_child h) (read_buffer h)
    (read_offset h) (spawned_at h) (last_progress_at h) (managed_last_heartbeat_at h)
    (bootstrap_phase h) (next_host_sequence h) (next_manager_sequence h) (next_probe_nonce h)
    None now.
Definition with_buffer (buffer : list byte) (offset : N) (h : ManagedRuntimeHost) : ManagedRuntimeHost :=
  MkManagedRuntimeHost (managed_generation h) (managed_pid h) (managed_child h) buffer offset
    (spawned_at h) (last_progress_at h) (managed_last_heartbeat_at h) (bootstrap_phase h)
    (next_host_sequence h) (next_manager_sequence h) (next_probe_nonce h)
    (managed_outstanding_probe h) (last_probe_completed_at h).
Definition with_manager_sequence (v : N) (h : ManagedRuntimeHost) : ManagedRuntimeHost :=
  MkManagedRuntimeHost (managed_generation h) (managed_pid h) (managed_child h) (read_buffer h)
    (read_offset h) (spawned_at h) (last_progress_at h) (managed_last_heartbeat_at h)
    (bootstrap_phase h) (next_host_sequence h) v (next_probe_nonce h)
    (managed_outstanding_probe h) (last_probe_completed_at h).
Definition with_probe (next : N) (nonce : HostControlProbeNonce) (now : Instant) (h : ManagedRuntimeHost)
    : ManagedRuntimeHost :=
  MkManagedRuntimeHost (managed_generation h) (managed_pid h) (managed_child h) (read_buffer h)
    (read_offset h) (spawned_at h) (last_progress_at h) (managed_last_heartbeat_at h)
    (bootstrap_phase h) (next_host_sequence h) (next_manager_sequence h) next
    (Some (nonce, now)) (last_probe_completed_at h).

Definition expected_phase (phase : option HostBootstrapPhase) : option HostBootstrapPhase :=
  match phase with
  | None => Some ReactorStarted
  | Some ReactorStarted => Some ControlReady
  | Some ControlReady => Some PhaseRunning
  | Some PhaseRunning => None
  end.

(** The changes to [active] and the evidence of one frame; [None] is the
    [Err(())] of [accept_host_frame]. *)
Definition accept_body (host : ManagedRuntimeHost) (body : HostWatchdogFrameBody) (now : Instant)
    : option (ManagedRuntimeHost * ServiceManagerEvidenceKind) :=
  match body with
  | BootstrapProgress phase =>
      match expected_phase (bootstrap_phase host) with
      | Some expected =>
          if bool_decide (phase <> expected) then None
          else Some (with_progress phase now host, EvBootstrapProgress phase)
      | None => None
      end
  | RunningHeartbeat =>
      if negb (is_running host) then None else Some (with_heartbeat now host, EvRunningHeartbeat)
  | ControlAck nonce =>
      if bool_decide ((fst <$> managed_outstanding_probe host) <> Some nonce) then None
      else Some (with_ack now host, ControlAcknowledged nonce)
  | ControlProbe _ => None
  end.
Definition accept_host_frame (host : ManagedRuntimeHost) (frame : HostWatchdogFrame) (now : Instant)
    : Manager (ManagedRuntimeHost * bool) :=
  if bool_decide (frame_direction frame <> HostToManager)
     || bool_decide (frame_generation frame <> managed_generation host)
     || negb (watchdog_sequence_value (frame_sequence frame) =? next_host_sequence host)
  then mret (host, false)
  else
    match checked_add u64_max (next_host_sequence host) 1 with
    | None => mret (host, false)
    | Some next =>
        let host := with_sequence next host in
        match accept_body host (frame_body frame) now with
        | None => mret (host, false)
        | Some (host, kind) =>
            _ ← record_for (watchdog_generation_value (managed_generation host))
                  (Some (managed_pid host)) kind;
            mret (host, true)
        end
    end.

(** The [for] loop of [read_host_frames], [n] reads left. *)
Fixpoint read_frames_loop (n : nat) (host : ManagedRuntimeHost) (now : Instant)
    : Manager (ManagedRuntimeHost * option ServiceManagerFailure) :=
  match n with
  | O => mret (host, None)
  | S n =>
      _ ← lift (if HOST_WATCHDOG_FRAME_BYTES <? read_offset host then Panic else Ok tt);
      outcome ← os_call (os_read (managed_child host) (HOST_WATCHDOG_FRAME_BYTES - read_offset host));
      match outcome with
      | inr [] => mret (host, Some WatchdogStreamClosed)
      | inr bytes =>
          let offset := read_offset host + len bytes in
          let buffer := take (N.to_nat (read_offset host)) (read_buffer host) ++ bytes ++
                        drop (N.to_nat offset) (read_buffer host) in
          if negb (offset =? HOST_WATCHDOG_FRAME_BYTES)
          then read_frames_loop n (with_buffer buffer offset host) now
          else
            let host := with_buffer buffer 0 host in
            match watchdog_decode buffer with
            | Ok frame =>
                accepted ← accept_host_frame host frame now;
                let '(host, ok) := (accepted : ManagedRuntimeHost * bool) in
                if ok then read_frames_loop n host now
                else mret (host, Some WatchdogProtocolViolation)
            | Err _ => mret (host, Some WatchdogProtocolViolation)
            | Panic => lift Panic
            end
      | inl WouldBlock => mret (host, None)
      | inl OtherReadError => mret (host, Some WatchdogStreamClosed)
      end
  end.
Definition read_host_frames (host : ManagedRuntimeHost) (now : Instant)
    : Manager (ManagedRuntimeHost * option ServiceManagerFailure) :=
  read_frames_loop MAX_FRAMES_PER_POLL host now.

Definition observation_timeout (timing : HostWatchdogTiming) (host : ManagedRuntimeHost) (now : Instant)
    : option ServiceManagerFailure :=
  let control_timeout :=
    if is_running host then control_response_timeout timing else bootstrap_timeout timing in
  let control_late :=
    match managed_outstanding_probe host with
    | Some (_, sent_at) => control_timeout <? duration_since now sent_at
    | None => false
    end in
  if control_late then Some ControlUnresponsive
  else if is_running host then
    if heartbeat_timeout timing <? duration_since now (managed_last_heartbeat_at host)
    then Some ManagerHeartbeatMissed else None
  else if bootstrap_timeout timing <? duration_since now (spawned_at host)
  then Some BootstrapDeadlineExceeded
  else if bootstrap_progress_timeout timing <? duration_since now (last_progress_at host)
  then Some BootstrapProgressStalled
  else None.

Definition send_control_probe (host : ManagedRuntimeHost) (now : Instant)
    : Manager (ManagedRuntimeHost * option HostControlProbeNonce) :=
  match watchdog_sequence_try_new (next_manager_sequence host), probe_nonce_try_new (next_probe_nonce host) with
  | Ok sequence, Ok nonce =>
      let frame := watchdog_encode {| frame_generation := managed_generation host;
                                      frame_sequence := sequence;
                                      frame_body := ControlProbe nonce |} in
      written ← os_call (os_write_all (managed_child host) frame);
      if negb written then mret (host, None)
      else
        flushed ← os_call (os_flush (managed_child host));
        if negb flushed then mret (host, None)
        else
          match checked_add u64_max (next_manager_sequence host) 1 with
          | None => mret (host, None)
          | Some sequence' =>
              let host := with_manager_sequence sequence' host in
              match checked_add u64_max (next_probe_nonce host) 1 with
              | None => mret (host, None)
              | Some nonce' => mret (with_probe nonce' nonce now host, Some nonce)
              end
          end
  | _, _ => mret (host, None)
  end.

Definition maybe_send_probe (host : ManagedRuntimeHost) (now : Instant)
    : Manager (ManagedRuntimeHost * option ServiceManagerFailure) :=
  interval ← self_get (fun m => control_probe_interval (watchdog (policy m)));
  if bool_decide (is_Some (managed_outstanding_probe host))
     || (duration_since now (last_probe_completed_at host) <? interval)
  then mret (host, None)
  else
    sent ← send_control_probe host now;
    match (sent : ManagedRuntimeHost * option HostControlProbeNonce) with
    | (host, Some nonce) =>
        _ ← record_for (watchdog_generation_value (managed_generation host)) (Some (managed_pid host))
              (ControlProbeSent nonce);
        mret (host, None)
    | (host, None) => mret (host, Some WatchdogStreamClosed)
    end.

(** ** Spawning *)

Definition set_nonblocking (child : Child) : Manager unit :=
  flags ← os_call (os_getfl child);
  match flags with
  | inl error => lift (Err (SignalError error))
  | inr flags =>
      outcome ← os_call (os_setfl child (N.lor (os_truncate_flags flags) os_nonblock));
      match outcome with
      | inl error => lift (Err (SignalError error))
      | inr _ => mret tt
      end
  end.

Definition finish_rejected_spawn (owner : FailedSpawnCleanupOwner) (setup_error : ServiceManagerError)
    (cleanup : ServiceManagerError + unit) : Manager unit :=
  match cleanup with
  | inr _ => lift (Err setup_error)
  | inl _ =>
      let record_owner := record_for (watchdog_generation_value (failed_generation owner)) (Some (failed_pid owner)) in
      _ ← self_set (set_pending None);
      _ ← self_set (set_state ManagerQuarantined);
      _ ← record_owner (FailureDetected SpawnCleanupFailed);
      _ ← record_owner (EvQuarantined SpawnCleanupFailed);
      self_set (set_failed (Some owner))
  end.
Definition reject_spawned_child (owner : FailedSpawnCleanupOwner) (setup_error : ServiceManagerError)
    : Manager unit :=
  _ ← record_for (watchdog_generation_value (failed_generation owner)) (Some (failed_pid owner))
        (FailureDetected SpawnSetupFailed);
  cleanup ← caught (kill_and_reap_failed_spawn owner);
  finish_rejected_spawn owner setup_error cleanup.

Definition fresh_host (g : HostWatchdogGeneration) (child : Child) (now : Instant) (interval : Duration)
    : ManagedRuntimeHost :=
  {| managed_generation := g;
     managed_pid := os_child_id child;
     managed_child := child;
     read_buffer := replicate (N.to_nat HOST_WATCHDOG_FRAME_BYTES) x00;
     read_offset := 0;
     spawned_at := now;
     last_progress_at := now;
     managed_last_heartbeat_at := now;
     bootstrap_phase := None;
     next_host_sequence := 1;
     next_manager_sequence := 1;
     next_probe_nonce := 1;
     managed_outstanding_probe := None;
     last_probe_completed_at :=
       match instant_checked_sub now interval with Some t => t | None => now end |}.

(** The part of [spawn_next] after the generation was committed. *)
Definition install_child (g : HostWatchdogGeneration) (child : Child) (now : Instant) : Manager unit :=
  let owner := {| failed_generation := g; failed_pid := os_child_id child; failed_child := child |} in
  if negb (os_has_stdin child) then reject_spawned_child owner MissingChildPipe
  else if negb (os_has_stdout child) then reject_spawned_child owner MissingChildPipe
  else
    nonblocking ← caught (set_nonblocking child);
    match nonblocking with
    | inl error => reject_spawned_child owner error
    | inr _ =>
        interval ← self_get (fun m => control_probe_interval (watchdog (policy m)));
        sent ← send_control_probe (fresh_host g child now interval) now;
        match (sent : ManagedRuntimeHost * option HostControlProbeNonce) with
        | (host, None) => reject_spawned_child owner WatchdogPipeFailed
        | (host, Some nonce) =>
            _ ← self_set (set_state ManagerBootstrapping);
            _ ← record_for (watchdog_generation_value g) (Some (os_child_id child)) (ControlProbeSent nonce);
            self_set (set_active (Some host))
        end
    end.

Definition spawn_next (now : Instant) : Manager unit :=
  owned ← self_get (fun m => bool_decide (is_Some (active m)) || bool_decide (is_Some (failed_spawn_cleanup m)));
  _ ← lift (fail_if owned ManagerStateInconsistent);
  generation_value ← read (fun '(m, _) => ok_or (checked_add u64_max (generation m) 1) GenerationExhausted);
  g ← lift (map_err (fun _ => GenerationExhausted) (watchdog_generation_try_new generation_value));
  heartbeat ← read (fun '(m, _) => duration_millis (heartbeat_interval (watchdog (policy m))));
  handshake ← read (fun '(m, _) => duration_millis (handshake_timeout (watchdog (policy m))));
  executable ← self_get launch;
  spawned ← os_call (os_spawn {| request_executable := executable;
                                 request_generation := generation_value;
                                 request_heartbeat_millis := heartbeat;
                                 request_handshake_millis := handshake |});
  child ← lift (ok_or spawned Io);
  _ ← self_set (set_generation generation_value);
  _ ← record_for generation_value (Some (os_child_id child)) Spawned;
  install_child g child now.

(** ** The lifecycle *)

Definition snapshot (self : RuntimeHostServiceManager) : RuntimeHostServiceManagerSnapshot :=
  {| snapshot_state := state self;
     snapshot_generation := generation self;
     snapshot_active_pid :=
       match active self with
       | Some host => Some (managed_pid host)
       | None => failed_pid <$> failed_spawn_cleanup self
       end;
     snapshot_restart_attempts_in_window := len (restart_attempts self);
     snapshot_evidence_entries := len (evidence self) |}.

(** Termination of an owner that was taken out of [self.active]: it is put
    back, quarantined, when it cannot be reaped. *)
Definition reap_or_quarantine (host : ManagedRuntimeHost) : Manager unit :=
  reaped ← caught (terminate_and_reap host);
  match reaped with
  | inr _ => mret tt
  | inl error =>
      _ ← self_set (set_active (Some host));
      _ ← self_set (set_state ManagerQuarantined);
      lift (Err error)
  end.

(** The [or_else] chain of [poll_active]. *)
Definition observe_host (host : ManagedRuntimeHost) (now : Instant)
    : Manager (ManagedRuntimeHost * option ServiceManagerFailure) :=
  frames ← read_host_frames host now;
  match (frames : ManagedRuntimeHost * option ServiceManagerFailure) with
  | (host, Some failure) => mret (host, Some failure)
  | (host, None) =>
      timing ← self_get (fun m => watchdog (policy m));
      match observation_timeout timing host now with
      | Some failure => mret (host, Some failure)
      | None => maybe_send_probe host now
      end
  end.

Definition poll_active : Manager unit :=
  taken ← self_get active;
  _ ← self_set (set_active None);
  host ← lift (ok_or taken ManagerStateInconsistent);
  let record_host := record_for (watchdog_generation_value (managed_generation host)) (Some (managed_pid host)) in
  now ← os_call os_now;
  waited ← os_call (os_try_wait (managed_child host));
  match waited with
  | Some true =>
      _ ← record_host HostExitObserved;
      _ ← record_host (FailureDetected HostExited);
      _ ← reap_or_quarantine host;
      schedule_restart HostExited now
  | None => _ ← self_set (set_active (Some host)); lift (Err Io)
  | Some false =>
      observed ← observe_host host now;
      match (observed : ManagedRuntimeHost * option ServiceManagerFailure) with
      | (host, Some failure) =>
          _ ← record_host (FailureDetected failure);
          _ ← reap_or_quarantine host;
          now ← os_call os_now;
          schedule_restart failure now
      | (host, None) =>
          _ ← self_set (set_state (if is_running host then ManagerRunning else ManagerBootstrapping));
          self_set (set_active (Some host))
      end
  end.

Definition poll_backoff : Manager unit :=
  now ← os_call os_now;
  pending ← self_get pending_restart;
  match pending with
  | Some p =>
      if (due p <=? now)%Z then
        _ ← self_set (set_pending None);
        committed ← commit_restart_attempt (pending_failure p) now;
        if (committed : bool) then
          spawned ← caught (spawn_next now);
          match spawned with
          | inr _ => mret tt
          | inl _ =>
              _ ← record None (FailureDetected RestartSpawnFailed);
              now ← os_call os_now;
              schedule_restart RestartSpawnFailed now
          end
        else mret tt
      else mret tt
  | None => mret tt
  end.

Definition poll : Manager RuntimeHostServiceManagerSnapshot :=
  current ← self_get state;
  match current with
  | ManagerQuarantined | Stopped => self_get snapshot
  | RestartBackoff => _ ← poll_backoff; self_get snapshot
  | ManagerBootstrapping | ManagerRunning => _ ← poll_active; self_get snapshot
  end.

(** Reaps an owner taken out of [self.failed_spawn_cleanup]. *)
Definition shutdown_failed (owner : FailedSpawnCleanupOwner) : Manager unit :=
  _ ← self_set (set_failed None);
  _ ← record_for (watchdog_generation_value (failed_generation owner)) (Some (failed_pid owner)) ShutdownRequested;
  reaped ← caught (kill_and_reap_failed_spawn owner);
  match reaped with
  | inr _ => mret tt
  | inl error =>
      _ ← self_set (set_failed (Some owner));
      _ ← self_set (set_state ManagerQuarantined);
      lift (Err error)
  end.
Definition shutdown_active (host : ManagedRuntimeHost) : Manager unit :=
  _ ← self_set (set_active None);
  _ ← record_for (watchdog_generation_value (managed_generation host)) (Some (managed_pid host)) ShutdownRequested;
  reap_or_quarantine host.
Definition shutdown : Manager unit :=
  current ← self_get state;
  if bool_decide (current = Stopped) then mret tt
  else
    _ ← self_set (set_pending None);
    failed ← self_get failed_spawn_cleanup;
    _ ← match failed with Some owner => shutdown_failed owner | None => mret tt end;
    owned ← self_get active;
    _ ← match owned with Some host => shutdown_active host | None => mret tt end;
    self_set (set_state Stopped).

(** The endless loop of [reap_owned_group_without_detaching], cut after [fuel]
    rounds; the result says whether it ended. *)
Fixpoint reap_owned_group_without_detaching (fuel : nat) (child : Child) (process_group : N)
    (poll_interval : Duration) : Manager bool :=
  match fuel with
  | O => mret false
  | S fuel =>
      _ ← caught (signal_process_group process_group SIGKILL);
      _ ← os_do (os_kill child);
      waited ← os_call (os_try_wait child);
      exists_ ← caught (process_group_exists process_group);
      if bool_decide (waited = Some true) && (match exists_ with inr false => true | _ => false end)
      then mret true
      else
        _ ← os_do (os_sleep poll_interval);
        reap_owned_group_without_detaching fuel child process_group poll_interval
  end.
Definition drop_child (fuel : nat) (child : Child) (process_group : N) : Manager bool :=
  timing ← self_get (fun m => termination (policy m));
  reaped ← caught (force_reap_owned_group child process_group (kill_grace timing) (poll_interval timing));
  match reaped with
  | inr _ => mret true
  | inl _ => reap_owned_group_without_detaching fuel child process_group (poll_interval timing)
  end.
(** [Drop]: whether both owners were reaped within [fuel] rounds each. *)
Definition drop_manager (fuel : nat) : Manager bool :=
  failed ← self_get failed_spawn_cleanup;
  _ ← self_set (set_failed None);
  first ← match failed with
          | Some owner => drop_child fuel (failed_child owner) (failed_pid owner)
          | None => mret true
          end;
  owned ← self_get active;
  _ ← self_set (set_active None);
  second ← match owned with
           | Some host => drop_child fuel (managed_child host) (managed_pid host)
           | None => mret true
           end;
  mret (first && second).

Definition manager_new (executable : list byte) (p : RuntimeHostServiceManagerPolicy) (now : Instant)
    : RuntimeHostServiceManager :=
  {| launch := executable; policy := p; origin := now; state := ManagerBootstrapping; generation := 0;
     active := None; failed_spawn_cleanup := None; restart_attempts := []; pending_restart := None;
     evidence := [] |}.
(** [try_start]: the manager it returns, in the world it leaves behind. *)
Definition try_start (executable : list byte) (p : RuntimeHostServiceManagerPolicy) (w : W)
    : (RuntimeHostServiceManager * W) * result ServiceManagerError unit :=
  let '(w, now) := os_now w in spawn_next now (manager_new executable p now, w).
End manager.
