(* ===== verification/ServiceManagerProps.v ===== *)
(** * Properties of the RuntimeHost service manager

    The manager of [ServiceManager] on any operating system whose monotonic
    clock does not go back and whose sleep lasts at least as long as asked.
    The system calls are logged by a wrapper of the operating system, so that
    the theorems speak about what the system saw: the spawns, the waits, the
    process-group probes and the sleeps. *)

From S2P Require Import Prelude Wp Bytes RestartWindow HostWatchdog ServiceManager.
Open Scope rust_scope.
Local Open Scope N_scope.

(** ** Back-off *)

(** The back-off of a policy: exponential from the initial value, capped, plus
    at most the configured jitter; nothing saturates. *)
Lemma restart_delay_bounded window maximum initial cap jitter policy attempt g :
  restart_policy_try_new window maximum initial cap jitter = Ok policy ->
  let base := N.min (initial * 2 ^ N.min (attempt - 1) 31) cap in
  base <= restart_delay policy attempt g <= base + jitter.
Proof.
  unfold restart_policy_try_new. intros (_ & Hc%fail_if_Ok & [= <-])%bind_Ok. repeat rust_step.
  unfold MAX_TIMING, from_secs in *. unfold restart_delay, saturating_sub, saturating_add.
  cbn [initial_backoff maximum_backoff maximum_jitter]. cbv zeta.
  generalize (initial * 2 ^ N.min (attempt - 1) 31). intros x.
  assert (120 * 1000000000 <= DURATION_MAX) as Hmax by (by vm_compute).
  revert Hmax. generalize DURATION_MAX. intros dm Hmax.
  replace (N.min (N.min x dm) cap) with (N.min x cap) by lia.
  rewrite (proj2 (try_from_Some u64_max jitter jitter)) by (split; [done|]; unfold u64_max; lia).
  destruct (N.eqb_spec jitter 0); [lia|].
  replace (N.min (jitter + 1) u64_max) with (jitter + 1) by (unfold u64_max; lia).
  pose proof (N.mod_lt (rotate_left64 (wrapping_mul64 g 0x9e3779b97f4a7c15) 17) (jitter + 1) ltac:(lia)) as Hmod.
  revert Hmod. generalize (rotate_left64 (wrapping_mul64 g 0x9e3779b97f4a7c15) 17 mod (jitter + 1)). intros y Hy. lia.
Qed.

(** ** The documented behaviour of the system *)

Class OsLaws (W Child : Type) `{Os W Child} := {
  (** A lower bound of every later reading of the monotonic clock. *)
  clock : W -> Z;
  now_law w : (clock w <= (os_now w).2 <= clock (os_now w).1)%Z;
  sleep_law d w : (clock w + Z.of_N d <= clock (os_sleep d w))%Z;
  spawn_law r w : (clock w <= clock (os_spawn r w).1)%Z;
  getfl_law c w : (clock w <= clock (os_getfl c w).1)%Z;
  setfl_law c f w : (clock w <= clock (os_setfl c f w).1)%Z;
  try_wait_law c w : (clock w <= clock (os_try_wait c w).1)%Z;
  kill_law c w : (clock w <= clock (os_kill c w))%Z;
  killpg_law g s w : (clock w <= clock (os_killpg g s w).1)%Z;
  read_law c n w : (clock w <= clock (os_read c n w).1)%Z;
  write_law c b w : (clock w <= clock (os_write_all c b w).1)%Z;
  flush_law c w : (clock w <= clock (os_flush c w).1)%Z;
  (** [Read::read] returns at most as many bytes as the buffer holds. *)
  read_len_law c n w bytes : (os_read c n w).2 = inr bytes -> len bytes <= n;
}.

Inductive OsEvent (Child : Type) :=
| SawNow (t : Z)
| SawSleep (d : N)
| SawSpawn (r : LaunchRequest) (c : option Child)
| SawWait (c : Child) (o : option bool)
| SawGroup (g : N) (s : option PosixSignal) (o : Errno + unit).
Arguments SawNow {Child}.
Arguments SawSleep {Child}.
Arguments SawSpawn {Child}.
Arguments SawWait {Child}.
Arguments SawGroup {Child}.

Section logged.
Context {W Child : Type} `{Hos : Os W Child}.

(** The system with a log of its calls, newest first. *)
Definition logged {A : Type} (event : A -> OsEvent Child) (f : W -> W * A)
    : W * list (OsEvent Child) -> (W * list (OsEvent Child)) * A :=
  fun '(w, l) => let '(w', a) := f w in ((w', event a :: l), a).
Definition silent {A : Type} (f : W -> W * A) : W * list (OsEvent Child) -> (W * list (OsEvent Child)) * A :=
  fun '(w, l) => let '(w', a) := f w in ((w', l), a).

#[local] Instance logged_os : Os (W * list (OsEvent Child)) Child := {
  instant_min := instant_min;
  instant_max := instant_max;
  os_now := logged SawNow os_now;
  os_sleep d := fun '(w, l) => (os_sleep d w, SawSleep d :: l);
  os_spawn r := logged (SawSpawn r) (os_spawn r);
  os_child_id := os_child_id;
  os_has_stdin := os_has_stdin;
  os_has_stdout := os_has_stdout;
  os_getfl c := silent (os_getfl c);
  os_setfl c f := silent (os_setfl c f);
  os_truncate_flags := os_truncate_flags;
  os_nonblock := os_nonblock;
  os_try_wait c := logged (SawWait c) (os_try_wait c);
  os_kill c := fun '(w, l) => (os_kill c w, l);
  os_killpg g s := logged (SawGroup g s) (os_killpg g s);
  os_read c n := silent (os_read c n);
  os_write_all c b := silent (os_write_all c b);
  os_flush c := silent (os_flush c);
}.

(** ** Steps that own nothing new *)

Context {Hlaws : OsLaws W Child}.
Abbreviation St := (@RuntimeHostServiceManager Child * (W * list (OsEvent Child)))%type.
Abbreviation Do A := (M St ServiceManagerError A).
Implicit Types (l ext : list (OsEvent Child)) (c : Child).

Definition log (s : St) : list (OsEvent Child) := s.2.2.
Definition time (s : St) : Z := clock s.2.1.

Definition is_spawn (e : OsEvent Child) : bool := match e with SawSpawn _ _ => true | _ => false end.
Definition no_spawn ext : Prop := forallb (fun e => negb (is_spawn e)) ext = true.
(** The time the calls of a log slept. *)
Fixpoint slept l : N :=
  match l with
  | [] => 0
  | SawSleep d :: l => d + slept l
  | _ :: l => slept l
  end.
(** The leader of the child's group was waited for and, next, the group
    observed absent. *)
Definition cleaned ext c : Prop :=
  exists l1 l2, ext = l1 ++ SawGroup (os_child_id c) None (inl ESRCH) :: SawWait c (Some true) :: l2.

Lemma slept_app l k : slept (l ++ k) = slept l + slept k.
Proof. induction l as [|e l IH]; [done|]. destruct e; cbn [app slept]; rewrite ?IH; lia. Qed.
Lemma no_spawn_app l k : no_spawn (l ++ k) <-> no_spawn l /\ no_spawn k.
Proof. unfold no_spawn. by rewrite forallb_app, andb_true_iff. Qed.
Lemma cleaned_app_l l k c : cleaned l c -> cleaned (l ++ k) c.
Proof. intros (l1 & l2 & ->). exists l1, (l2 ++ k). by rewrite <-app_assoc. Qed.
Lemma cleaned_app_r l k c : cleaned k c -> cleaned (l ++ k) c.
Proof. intros (l1 & l2 & ->). exists (l ++ l1), l2. by rewrite <-app_assoc. Qed.

Section steps.
Context (p : RuntimeHostServiceManagerPolicy).

(** The calls [ext] changed the manager in its evidence only, which stays
    within its capacity, spawned nothing and slept at most [k]. *)
Record step (k : N) ext (s s' : St) : Prop := {
  step_manager : exists ev, s'.1 = set_evidence ev s.1 /\
    (0 < evidence_capacity p -> len (evidence s.1) <= evidence_capacity p -> len ev <= evidence_capacity p);
  step_clock : (time s <= time s')%Z;
  step_log : log s' = ext ++ log s;
  step_spawn : no_spawn ext;
  step_slept : slept ext <= k }.

Definition does {A : Type} (k : N) (m : Do A) (Q : A -> list (OsEvent Child) -> Prop) : Prop :=
  forall s s' r, policy s.1 = p -> m s = (s', r) ->
    r <> Panic /\ exists ext, step k ext s s' /\ forall a, r = Ok a -> Q a ext.

Lemma set_evidence_id (m : @RuntimeHostServiceManager Child) : set_evidence (evidence m) m = m.
Proof. by destruct m. Qed.
Lemma set_evidence_twice (m : @RuntimeHostServiceManager Child) ev ev' :
  set_evidence ev (set_evidence ev' m) = set_evidence ev m.
Proof. done. Qed.
Lemma step_refl k s : step k [] s s.
Proof.
  split; [|lia|done|done|apply N.le_0_l]. exists (evidence s.1). by rewrite set_evidence_id.
Qed.
Lemma step_trans k k' ext ext' s s' s'' :
  step k ext s s' -> step k' ext' s' s'' -> step (k + k') (ext' ++ ext) s s''.
Proof.
  intros [(ev & Hm & He) Hc Hl Hs Hk] [(ev' & Hm' & He') Hc' Hl' Hs' Hk'].
  split; [|lia|by rewrite Hl', Hl, app_assoc|by apply no_spawn_app|rewrite slept_app; lia].
  exists ev'. rewrite Hm', Hm. split; [done|]. rewrite Hm in He'. simpl in He'. auto.
Qed.
Lemma step_policy k ext s s' : step k ext s s' -> policy s'.1 = policy s.1.
Proof. intros [(ev & -> & _) _ _ _ _]. done. Qed.

Lemma does_mono {A : Type} k k' (m : Do A) (Q Q' : A -> list (OsEvent Child) -> Prop) :
  does k m Q -> k <= k' -> (forall a ext, Q a ext -> Q' a ext) -> does k' m Q'.
Proof.
  intros Hm Hk HQ s s' r Hp Hr. destruct (Hm s s' r Hp Hr) as (Hn & ext & [] & Ha).
  split; [done|]. exists ext. split; [split; try done; lia|]. eauto.
Qed.
Lemma does_bind {A B : Type} k k1 k2 (m : Do A) (f : A -> Do B) Q1 Q :
  does k1 m Q1 ->
  (forall a ext1, Q1 a ext1 -> does k2 (f a) (fun b ext2 => Q b (ext2 ++ ext1))) ->
  k1 + k2 <= k -> does k (m ≫= f) Q.
Proof.
  intros Hm Hf Hk s s' r Hp Hr. unfold mbind, M_mbind in Hr. destruct (m s) as [s1 r1] eqn:E.
  destruct (Hm _ _ _ Hp E) as (Hn & ext & Hs & Ha).
  destruct r1 as [a|e|]; [|injection Hr as <- <-|done].
  - assert (policy s1.1 = p) as Hp1 by (by rewrite (step_policy _ _ _ _ Hs)).
    destruct (Hf a ext (Ha a eq_refl) _ _ _ Hp1 Hr) as (Hn' & ext' & Hs' & Ha').
    split; [done|]. exists (ext' ++ ext). split; [|done].
    pose proof (step_trans _ _ _ _ _ _ _ Hs Hs') as []. split; try done. lia.
  - split; [done|]. exists ext. split; [destruct Hs; split; try done; lia|done].
Qed.
Lemma does_ret {A : Type} k (a : A) (Q : A -> list (OsEvent Child) -> Prop) : Q a [] -> does k (mret a) Q.
Proof.
  intros HQ s s' r _ [= <- <-]. split; [done|]. exists []. split; [apply step_refl|]. by intros ? [= <-].
Qed.
Lemma does_lift {A : Type} k (r : result ServiceManagerError A) (Q : A -> list (OsEvent Child) -> Prop) :
  r <> Panic -> (forall a, r = Ok a -> Q a []) -> does k (lift r) Q.
Proof. intros Hr HQ s s' r' _ [= <- <-]. split; [done|]. exists []. split; [apply step_refl|done]. Qed.
Lemma does_policy {A : Type} k (f : RuntimeHostServiceManagerPolicy -> A) (Q : A -> list (OsEvent Child) -> Prop) :
  Q (f p) [] -> does k (self_get (fun m => f (policy m))) Q.
Proof.
  intros HQ [m w] s' r Hp [= <- <-]. split; [done|]. exists []. split; [apply step_refl|].
  intros a [= <-]. simpl in Hp. by rewrite Hp.
Qed.
Lemma does_caught {A : Type} k (m : Do A) (Q : ServiceManagerError + A -> list (OsEvent Child) -> Prop) Q1 :
  does k m Q1 -> (forall a ext, Q1 a ext -> Q (inr a) ext) -> (forall e ext, Q (inl e) ext) -> does k (caught m) Q.
Proof.
  intros Hm HQ HE s s' r Hp Hr. unfold caught in Hr. destruct (m s) as [s1 r1] eqn:E.
  destruct (Hm _ _ _ Hp E) as (Hn & ext & Hs & Ha).
  destruct r1 as [a|e|]; [| |done]; injection Hr as <- <-; (split; [done|]); exists ext; (split; [done|]);
    intros ? [= <-]; auto.
Qed.
Lemma does_silent {A : Type} k (f : W -> W * A) (Q : A -> list (OsEvent Child) -> Prop) :
  (forall w, (clock w <= clock (f w).1)%Z) -> (forall w, Q (f w).2 []) -> does k (os_call (silent f)) Q.
Proof.
  intros Hc HQ [m [w l]] s' r _. unfold os_call, silent. specialize (Hc w). specialize (HQ w).
  destruct (f w) as [w' a]. intros [= <- <-]. split; [done|]. exists [].
  split; [|by intros ? [= <-]]. destruct (step_refl k (m, (w, l))). by split.
Qed.
Lemma does_logged {A : Type} k (event : A -> OsEvent Child) (f : W -> W * A) (Q : A -> list (OsEvent Child) -> Prop) :
  (forall w, (clock w <= clock (f w).1)%Z) -> (forall a, is_spawn (event a) = false /\ slept [event a] = 0) ->
  (forall w, Q (f w).2 [event (f w).2]) -> does k (os_call (logged event f)) Q.
Proof.
  intros Hc He HQ [m [w l]] s' r _. unfold os_call, logged. specialize (Hc w). specialize (HQ w).
  destruct (f w) as [w' a]. intros [= <- <-]. destruct (He a) as [Hs Hk]. split; [done|]. exists [event a].
  split; [|by intros ? [= <-]]. destruct (step_refl k (m, (w, l))). split; try done.
  - unfold no_spawn. simpl. by rewrite Hs.
  - rewrite Hk. lia.
Qed.

(** ** The system calls *)

Lemma does_now k : does k (os_call os_now) (fun _ _ => True).
Proof. apply (does_logged k SawNow os_now); [|done..]. intros w. pose proof (now_law w). lia. Qed.

Lemma does_record_for g i kind : does 0 (record_for g i kind) (fun _ _ => True).
Proof.
  intros [m [w l]] s' r Hp Hr. simpl in Hp.
  assert (s' = (set_evidence ((if len (evidence m) =? evidence_capacity p then tail (evidence m) else evidence m) ++
      [MkServiceManagerEvidence (duration_since (os_now w).2 (origin m)) g i kind]) m,
    ((os_now w).1, SawNow (os_now w).2 :: l)) /\ r = Ok tt) as [-> ->].
  { unfold record_for, self_set, os_call, mbind, M_mbind, os_now, logged_os, logged in Hr.
    rewrite Hp in Hr. destruct (os_now w) as [w' t]. by destruct (_ =? _); injection Hr as <- <-. }
  split; [done|]. exists [SawNow (os_now w).2]. split; [|done]. split; try done.
  - eexists. split; [done|]. simpl. intros Hpos Hle. unfold len in *. rewrite length_app. simpl.
    destruct (N.eqb_spec (N.of_nat (length (evidence m))) (evidence_capacity p)) as [He|He]; [|lia].
    destruct (evidence m); simpl in *; lia.
  - unfold time; simpl. pose proof (now_law w). lia.
Qed.

Lemma does_signal pg sg : does 0 (signal_process_group pg sg) (fun _ _ => True).
Proof.
  unfold signal_process_group. eapply (does_bind _ 0 0); [apply (does_lift 0 _ (fun _ _ => True)); [|done]; unfold pid; by case_match| |lia].
  intros a ext1 _. eapply (does_bind _ 0 0); [apply (does_logged 0 (SawGroup a (Some sg)) (os_killpg a (Some sg)) (fun _ _ => True)); [|done..]; apply killpg_law| |lia].
  intros [[]|[]] ? _; first [by apply does_ret | by apply does_lift].
Qed.
Lemma does_exists pg :
  does 0 (process_group_exists pg) (fun b ext => b = false -> ext = [SawGroup pg None (inl ESRCH)]).
Proof.
  unfold process_group_exists.
  eapply (does_bind _ 0 0); [apply (does_lift 0 _ (fun a ext => a = pg /\ ext = [])); unfold pid; [by case_match|]; case_match; [by intros ? [= ->]|done]| |lia].
  intros a ext1 [-> ->].
  eapply (does_bind _ 0 0); [apply (does_logged 0 (SawGroup pg None) (os_killpg pg None) (fun o ext => ext = [SawGroup pg None o])); [|done..]; apply killpg_law| |lia].
  intros [[]|[]] ? ->; first [by apply does_ret | by apply does_lift].
Qed.
Lemma does_leader c :
  does 0 (leader_exited c) (fun b ext => b = true -> ext = [SawWait c (Some true)]).
Proof.
  unfold leader_exited.
  eapply (does_bind _ 0 0); [apply (does_logged 0 (SawWait c) (os_try_wait c) (fun o ext => ext = [SawWait c o])); [|done..]; apply try_wait_law| |lia].
  intros o ? ->. apply does_lift; [by destruct o|]. intros [] Ho%ok_or_Ok; [by subst|done].
Qed.

(** One observation of the leader and its group. *)
Lemma does_observe c pg :
  does 0 (leader_reaped ← leader_exited c;
          if (leader_reaped : bool) then group ← process_group_exists pg; mret (negb group) else mret false)
    (fun b ext => b = true -> ext = [SawGroup pg None (inl ESRCH); SawWait c (Some true)]).
Proof.
  eapply (does_bind _ 0 0); [apply does_leader| |lia]. intros [] ext1 H1; [|by apply does_ret].
  rewrite (H1 eq_refl). eapply (does_bind _ 0 0); [apply does_exists| |lia]. intros [] ext2 H2; [by apply does_ret|].
  apply does_ret. intros _. by rewrite (H2 eq_refl).
Qed.
Lemma cleanup_loop_S n c pg deadline poll s :
  cleanup_loop (S n) c pg deadline poll s =
  ((leader_reaped ← leader_exited c;
    if (leader_reaped : bool) then group ← process_group_exists pg; mret (negb group) else mret false) ≫=
   fun gone : bool =>
     if gone then mret true
     else now ← os_call os_now;
          if (deadline <=? now)%Z then mret false
          else _ ← os_do (os_sleep (N.min poll (duration_since deadline now)));
               cleanup_loop n c pg deadline poll) s.
Proof.
  simpl. unfold mbind, M_mbind. by destruct (leader_exited c s) as [s1 [[]|e|]].
Qed.

Lemma step_sleep k d m w l :
  d <= k -> step k [SawSleep d] (m, (w, l)) (m, (os_sleep d w, SawSleep d :: l)).
Proof.
  intros Hd. split; try done.
  - exists (evidence m). by rewrite set_evidence_id.
  - unfold time; simpl. pose proof (sleep_law d w). lia.
  - cbn [slept]. lia.
Qed.

(** A reading of the clock. *)
Lemma step_now m w l :
  exists w' now, os_call os_now (m, (w, l)) = ((m, (w', SawNow now :: l)), Ok now) /\
    (clock w <= now <= clock w')%Z /\ step 0 [SawNow now] (m, (w, l)) (m, (w', SawNow now :: l)).
Proof.
  pose proof (now_law w) as Hl. unfold os_call, os_now at 1, logged_os, logged.
  destruct (os_now w) as [w' now]; simpl in Hl. exists w', now. split; [done|]. split; [done|].
  destruct (step_refl 0 (m, (w, l))). split; try done. unfold time; simpl; lia.
Qed.

(** The loop ends within its fuel and sleeps no longer than the time left. *)
Lemma cleanup_loop_does n c pg deadline poll : forall s s' r,
  policy s.1 = p -> 0 < poll -> (1 <= n)%nat ->
  (deadline <= time s + Z.of_nat (n - 1) * Z.of_N poll)%Z ->
  cleanup_loop n c pg deadline poll s = (s', r) ->
  r <> Panic /\ exists ext, step (Z.to_N (deadline - time s)) ext s s' /\
    (r = Ok true -> pg = os_child_id c -> cleaned ext c).
Proof.
  induction n as [|n IH]; intros s s' r Hp Hpoll Hn Hd Hr; [lia|].
  rewrite cleanup_loop_S in Hr. unfold mbind at 1, M_mbind at 1 in Hr.
  match type of Hr with (let (_, _) := ?t in _) = _ => destruct t as [s1 r1] eqn:E1 end.
  destruct (does_observe c pg _ _ _ Hp E1) as (Hn1 & ext1 & Hs1 & HQ1).
  assert (forall k, step k ext1 s s1) as Hs1' by (intros k; destruct Hs1; split; try done; lia).
  destruct r1 as [gone|e|]; [|injection Hr as <- <-; split; [done|]; exists ext1; split; [done|done]|done].
  destruct gone.
  { injection Hr as <- <-. split; [done|]. exists ext1. split; [done|]. intros _ ->.
    rewrite (HQ1 true eq_refl eq_refl). by exists [], []. }
  assert (policy s1.1 = p) as Hp1 by (by rewrite (step_policy _ _ _ _ Hs1)).
  pose proof (step_clock _ _ _ _ Hs1) as Hc1. destruct s1 as [m1 [w1 l1]].
  destruct (step_now m1 w1 l1) as (w2 & now & Ew & Hnow & Hs2).
  unfold mbind at 1, M_mbind at 1 in Hr. rewrite Ew in Hr.
  unfold time in *; simpl in *.
  destruct (Z.leb_spec deadline now) as [Hle|Hgt].
  { injection Hr as <- <-. split; [done|]. exists ([SawNow now] ++ ext1). split; [|done].
    pose proof (step_trans _ _ _ _ _ _ _ Hs1 Hs2) as []. split; try done. lia. }
  set (d := N.min poll (duration_since deadline now)) in *.
  assert (Z.of_N d = Z.min (Z.of_N poll) (deadline - now))%Z as Hdz by (unfold d, duration_since; lia).
  pose proof (sleep_law d w2) as Hsl.
  pose proof (step_sleep d d m1 w2 (SawNow now :: l1) (N.le_refl d)) as Hs3.
  destruct (IH (m1, (os_sleep d w2, SawSleep d :: SawNow now :: l1)) s' r) as (Hn' & ext' & Hs4 & HQ'); try done.
  1,2: unfold time; simpl; destruct n; simpl in *; nia || lia.
  split; [done|]. exists (ext' ++ [SawSleep d] ++ [SawNow now] ++ ext1). split; [|].
  - pose proof (step_trans _ _ _ _ _ _ _ (step_trans _ _ _ _ _ _ _ (step_trans _ _ _ _ _ _ _ Hs1 Hs2) Hs3) Hs4) as [].
    split; try done. unfold time in *; simpl in *. lia.
  - intros. apply cleaned_app_l. auto.
Qed.

Lemma does_wait c pg budget poll :
  0 < poll ->
  does budget (wait_for_owned_group_cleanup c pg budget poll)
    (fun b ext => b = true -> pg = os_child_id c -> cleaned ext c).
Proof.
  intros Hpoll [m [w l]] s' r Hp Hr. unfold wait_for_owned_group_cleanup in Hr.
  destruct (step_now m w l) as (w2 & now & Ew & Hnow & Hs2).
  unfold mbind at 1, M_mbind at 1 in Hr. rewrite Ew in Hr. unfold mbind, M_mbind, lift in Hr.
  destruct (instant_checked_add now budget) as [deadline|] eqn:Hdl; simpl in Hr; [|injection Hr as <- <-].
  - assert (deadline = now + Z.of_N budget)%Z as -> by (revert Hdl; unfold instant_checked_add; case_match; naive_solver).
    assert (budget < (budget / poll + 1) * poll) as Hdiv.
    { pose proof (N.div_mod budget poll ltac:(lia)). pose proof (N.mod_lt budget poll ltac:(lia)). lia. }
    apply cleanup_loop_does in Hr as (Hn & ext & Hs & HQ); try done.
    + split; [done|]. exists (ext ++ [SawNow now]). split; [|intros; subst; apply cleaned_app_l; auto].
      pose proof (step_trans _ _ _ _ _ _ _ Hs2 Hs) as []. split; try done.
      unfold time in *; simpl in *. lia.
    + unfold cleanup_fuel. generalize (budget / poll). intros q. lia.
    + unfold time, cleanup_fuel; simpl. revert Hdiv. generalize (budget / poll). intros q Hdiv.
      replace (Z.of_nat (N.to_nat (q + 2) - 1)) with (Z.of_N (q + 1)) by lia. nia.
  - split; [done|]. exists [SawNow now]. split; [|done]. destruct Hs2. split; try done. lia.
Qed.

(** ** Reaping and the watchdog stream *)

Context (Hpoll : 0 < poll_interval (termination p)).
Abbreviation any := (fun _ _ => True).

Lemma does_seq {A B : Type} k k1 k2 (m : Do A) (f : A -> Do B) Q :
  does k1 m any -> (forall a, does k2 (f a) (fun b _ => Q b)) -> k1 + k2 <= k -> does k (m ≫= f) (fun b _ => Q b).
Proof. intros Hm Hf Hk. by eapply does_bind; [done|intros a ext1 _; apply Hf|]. Qed.
Lemma does_do_kill c : does 0 (os_do (os_kill c)) any.
Proof.
  intros [m [w l]] s' r _ [= <- <-]. split; [done|]. exists []. split; [|done].
  destruct (step_refl 0 (m, (w, l))). split; try done. unfold time; simpl. apply kill_law.
Qed.

(** Finds the observation of the empty group among the calls of a sequence. *)
Ltac cleaned_in :=
  rewrite <-?app_assoc;
  repeat first [solve [auto] | apply cleaned_app_l; solve [auto] | apply cleaned_app_r].

Lemma does_kill_failed owner :
  failed_pid owner = os_child_id (failed_child owner) ->
  does (kill_grace (termination p)) (kill_and_reap_failed_spawn owner) (fun _ ext => cleaned ext (failed_child owner)).
Proof.
  intros Hid. unfold kill_and_reap_failed_spawn.
  eapply (does_bind _ 0); [apply does_signal|intros _ e1 _|by apply N.le_refl].
  eapply (does_bind _ 0); [apply does_record_for|intros _ e2 _|by apply N.le_refl].
  eapply (does_bind _ 0); [apply does_do_kill|intros _ e3 _|by apply N.le_refl].
  eapply (does_bind _ 0); [apply (does_policy 0 termination (fun t _ => t = termination p)); done|intros ? e4 ->|by apply N.le_refl].
  eapply (does_bind _ _ 0); [by apply does_wait|intros cl e5 H5|lia].
  eapply (does_bind _ 0 0); [apply (does_lift 0 _ (fun _ _ => cl = true)); destruct cl; done|intros _ e6 ->|lia].
  eapply does_mono; [apply does_record_for|lia|]. intros _ e7 _.
  cleaned_in.
Qed.

Definition host_ok (h : @ManagedRuntimeHost Child) : Prop :=
  read_offset h < HOST_WATCHDOG_FRAME_BYTES /\ managed_pid h = os_child_id (managed_child h).

Lemma does_terminate h :
  managed_pid h = os_child_id (managed_child h) ->
  does (term_grace (termination p) + kill_grace (termination p)) (terminate_and_reap h)
    (fun _ ext => cleaned ext (managed_child h)).
Proof.
  intros Hid. unfold terminate_and_reap.
  eapply (does_bind _ 0); [apply does_leader|intros leader e1 H1|by apply N.le_refl].
  eapply (does_bind _ 0); [apply does_exists|intros group e2 H2|by apply N.le_refl].
  destruct leader, group; cbn [andb negb].
  2:{ rewrite (H1 eq_refl), (H2 eq_refl). eapply does_mono; [apply does_record_for|apply N.le_0_l|].
      intros _ e3 _. exists e3, []. by rewrite <-Hid, <-?app_assoc. }
  3:{ by apply does_lift. }
  all: eapply (does_bind _ 0); [apply does_signal|intros _ e3 _|by apply N.le_refl];
    (eapply (does_bind _ 0); [apply does_record_for|intros _ e4 _|by apply N.le_refl]);
    (eapply (does_bind _ 0); [apply (does_policy 0 termination (fun t _ => t = termination p)); done|intros ? e5 ->|by apply N.le_refl]);
    (eapply (does_bind _ (term_grace (termination p)) (kill_grace (termination p))); [by apply does_wait|intros terminated e6 H6|lia]);
    (eapply (does_bind _ (kill_grace (termination p)) 0 _ _ (fun _ e => terminated = true \/ cleaned e (managed_child h)));
      [|intros _ e7 H7; eapply does_mono; [apply does_record_for|lia|intros _ e8 _; destruct H7 as [H7|H7]; [subst|]; cleaned_in]|lia]).
  all: destruct terminated; [apply does_ret; by left|].
  all: eapply (does_bind _ 0); [apply does_signal|intros _ e7 _|by apply N.le_refl].
  all: eapply (does_bind _ 0); [apply does_record_for|intros _ e8 _|by apply N.le_refl].
  all: eapply (does_bind _ _ 0); [by apply does_wait|intros killed e9 H9|lia].
  all: apply does_lift; [by destruct killed|intros _ Hk%fail_if_Ok; right; destruct killed; [|done]; cleaned_in].
Qed.

(** The same child, and still a well-formed owner of it. *)
Definition same_owner (h h' : @ManagedRuntimeHost Child) : Prop :=
  managed_child h' = managed_child h /\ managed_pid h' = managed_pid h /\
  managed_generation h' = managed_generation h /\
  (read_offset h < HOST_WATCHDOG_FRAME_BYTES -> read_offset h' < HOST_WATCHDOG_FRAME_BYTES).
Lemma same_owner_refl h : same_owner h h.
Proof. done. Qed.
Lemma same_owner_trans h h' h'' : same_owner h h' -> same_owner h' h'' -> same_owner h h''.
Proof. unfold same_owner. intros (? & ? & ? & ?) (? & ? & ? & ?). repeat split; [congruence..|auto]. Qed.
Lemma same_owner_ok h h' : same_owner h h' -> host_ok h -> host_ok h'.
Proof. intros (? & ? & ? & ?) []. split; [auto|congruence]. Qed.

Lemma does_send_probe h now :
  does 0 (send_control_probe h now) (fun x _ => same_owner h x.1).
Proof.
  unfold send_control_probe.
  destruct (watchdog_sequence_try_new (next_manager_sequence h)), (probe_nonce_try_new (next_probe_nonce h)); try by apply does_ret.
  eapply (does_seq _ 0 0 _ _ (fun x => same_owner h x.1)); [apply does_silent; [intros; apply write_law|done]| |lia].
  intros []; simpl; [|by apply does_ret].
  eapply (does_seq _ 0 0 _ _ (fun x => same_owner h x.1)); [apply does_silent; [intros; apply flush_law|done]| |lia].
  intros []; simpl; [|by apply does_ret].
  destruct (checked_add _ _ _); [|by apply does_ret].
  destruct (checked_add _ _ _); by apply does_ret.
Qed.
Lemma does_maybe_probe h now :
  does 0 (maybe_send_probe h now) (fun x _ => same_owner h x.1).
Proof.
  unfold maybe_send_probe.
  eapply (does_seq _ 0 0 _ _ (fun x => same_owner h x.1));
    [by apply (does_policy 0 (fun q => control_probe_interval (watchdog q)))| |lia].
  intros interval. case_match; [by apply does_ret|].
  eapply (does_bind _ 0 0); [apply does_send_probe| |lia]. intros [h' [nonce|]] ext1 Hh; [|by apply does_ret].
  eapply (does_bind _ 0 0); [apply does_record_for| |lia]. intros _ ext2 _. by apply does_ret.
Qed.
Lemma accept_body_owner h body now h' kind :
  accept_body h body now = Some (h', kind) -> same_owner h h'.
Proof. unfold accept_body. intros Hb. repeat case_match; simplify_eq; by repeat split. Qed.
Lemma does_accept h frame now :
  does 0 (accept_host_frame h frame now) (fun x _ => same_owner h x.1).
Proof.
  unfold accept_host_frame. case_match; [by apply does_ret|].
  destruct (checked_add _ _ _) as [next|]; [|by apply does_ret].
  destruct (accept_body _ _ _) as [[h' kind]|] eqn:Hb; [|by apply does_ret].
  apply accept_body_owner in Hb.
  eapply (does_bind _ 0 0); [apply does_record_for| |lia]. intros _ ext2 _. by apply does_ret.
Qed.
Lemma does_read_frames n h now :
  read_offset h < HOST_WATCHDOG_FRAME_BYTES ->
  does 0 (read_frames_loop n h now) (fun x _ => same_owner h x.1).
Proof.
  revert h; induction n as [|n IH]; intros h Hoff; cbn [read_frames_loop]; [by apply does_ret|].
  eapply (does_seq _ 0 0 _ _ (fun x => same_owner h x.1)); [|intros _|lia].
  { apply does_lift; [|done]. by rewrite (proj2 (N.ltb_ge _ _) (N.lt_le_incl _ _ Hoff)). }
  eapply (does_bind _ 0 0 _ _ (fun o _ => forall bytes, o = inr bytes -> len bytes <= HOST_WATCHDOG_FRAME_BYTES - read_offset h)).
  { apply does_silent; [intros; apply read_law|]. intros w bytes. apply read_len_law. }
  2: lia.
  intros o ext1 Ho. destruct o as [[]|bytes]; [by apply does_ret..|].
  destruct bytes as [|b bytes]; [by apply does_ret|].
  specialize (Ho _ eq_refl). set (bs := b :: bytes) in *.
  destruct (N.eqb_spec (read_offset h + len bs) HOST_WATCHDOG_FRAME_BYTES) as [He|He]; cbn [negb].
  - set (h1 := with_buffer _ 0 h). assert (same_owner h h1) as Hh1 by (repeat split; intros; done).
    pose proof (watchdog_decode_safe (take (N.to_nat (read_offset h)) (read_buffer h) ++ bs ++
      drop (N.to_nat (read_offset h + len bs)) (read_buffer h))) as Hsafe.
    destruct (watchdog_decode _) as [frame|e|]; [|by apply does_ret|done].
    eapply (does_bind _ 0 0); [apply does_accept| |lia]. intros [h2 ok] ext2 Hh2.
    assert (same_owner h h2) as Hh by (by eapply same_owner_trans).
    destruct ok; [|by apply does_ret].
    eapply does_mono; [apply IH; by apply Hh|lia|]. intros [h3 f] ? Hh3. by eapply same_owner_trans.
  - eapply does_mono; [apply IH; simpl; lia|lia|]. intros [h3 f] ? Hh3. eapply same_owner_trans; [|done].
    repeat split. simpl. lia.
Qed.
Lemma does_observe_host h now :
  read_offset h < HOST_WATCHDOG_FRAME_BYTES ->
  does 0 (observe_host h now) (fun x _ => same_owner h x.1).
Proof.
  intros Hoff. unfold observe_host, read_host_frames.
  eapply (does_bind _ 0 0); [by apply does_read_frames| |lia]. intros [h1 [f|]] ext1 Hh1; [by apply does_ret|].
  eapply (does_bind _ 0 0); [by apply (does_policy 0 watchdog (fun t _ => True))| |lia]. intros t ext2 _.
  destruct (observation_timeout t h1 now); [by apply does_ret|].
  eapply does_mono; [apply does_maybe_probe|lia|]. intros [h2 f] ? Hh2. by eapply same_owner_trans.
Qed.
Lemma does_set_nonblocking c : does 0 (set_nonblocking c) any.
Proof.
  unfold set_nonblocking.
  eapply (does_seq _ 0 0 _ _ (fun _ => True)); [apply does_silent; [intros; apply getfl_law|done]| |lia].
  intros [e|f]; [by apply does_lift|].
  eapply (does_seq _ 0 0 _ _ (fun _ => True)); [apply does_silent; [intros; apply setfl_law|done]| |lia].
  intros [e|[]]; [by apply does_lift|by apply does_ret].
Qed.

(** ** What the log says about the children and the restarts *)

(** When each spawn call was made: the clock reading before it. *)
Fixpoint last_now l : Z :=
  match l with [] => 0%Z | SawNow t :: _ => t | _ :: l => last_now l end.
Fixpoint spawn_times l : list Z :=
  match l with
  | [] => []
  | SawSpawn _ _ :: l => last_now l :: spawn_times l
  | _ :: l => spawn_times l
  end.
(** The generations of the children that were started. *)
Fixpoint spawned_generations l : list N :=
  match l with
  | [] => []
  | SawSpawn r (Some _) :: l => request_generation r :: spawned_generations l
  | _ :: l => spawned_generations l
  end.
Fixpoint countdown (n : nat) : list N :=
  match n with O => [] | S n => N.of_nat (S n) :: countdown n end.

(** Every child started so far was cleaned since, or is one of [held]. *)
Definition settled l (held : list Child) : Prop :=
  forall l1 r c l2, l = l1 ++ SawSpawn r (Some c) :: l2 -> cleaned l1 c \/ c ∈ held.
(** Before every spawn call each earlier child was cleaned. *)
Definition separated l : Prop :=
  forall l1 r o l2 r' c l3, l = l1 ++ SawSpawn r o :: l2 ++ SawSpawn r' (Some c) :: l3 -> cleaned l2 c.

(** Times of attempts, newest first, with at most [maximum_restarts] in any
    window. *)
Definition restarts_spaced (attempts : list Z) : Prop :=
  spaced (fun t' t => Z.of_N (window (restart p)) < t' - t)%Z (maximum_restarts (restart p)) attempts.
(** The replacement spawns are among attempts that the ledger, and what was
    pruned from it, accounts for. *)
Definition budgeted l (ledger : list Z) (now : Z) : Prop :=
  exists attempts old, removelast (spawn_times l) `sublist_of` attempts /\
    attempts = rev ledger ++ old /\
    (forall t, t ∈ old -> (Z.of_N (window (restart p)) < now - t)%Z) /\ restarts_spaced attempts.

Lemma spawn_split ext l l1 r o l2 :
  no_spawn ext -> ext ++ l = l1 ++ SawSpawn r o :: l2 ->
  exists l1', l1 = ext ++ l1' /\ l = l1' ++ SawSpawn r o :: l2.
Proof.
  revert l1; induction ext as [|e ext IH]; intros l1 Hn He; [by exists l1|].
  unfold no_spawn in Hn. simpl in Hn. apply andb_true_iff in Hn as [He' Hn].
  destruct l1 as [|e' l1]; simpl in He; injection He as -> He; [done|].
  destruct (IH l1 Hn He) as (l1' & -> & ->). by exists l1'.
Qed.
Lemma spawn_times_app ext l : no_spawn ext -> spawn_times (ext ++ l) = spawn_times l.
Proof.
  induction ext as [|e ext IH]; [done|]. unfold no_spawn; simpl. rewrite andb_true_iff. intros [He Hn].
  destruct e; try done; by apply IH.
Qed.
Lemma spawned_generations_app ext l : no_spawn ext -> spawned_generations (ext ++ l) = spawned_generations l.
Proof.
  induction ext as [|e ext IH]; [done|]. unfold no_spawn; simpl. rewrite andb_true_iff. intros [He Hn].
  destruct e; try done; by apply IH.
Qed.

Record core (held : list Child) (s : St) : Prop := {
  core_policy : policy s.1 = p;
  core_evidence : len (evidence s.1) <= evidence_capacity p;
  core_settled : settled (log s) held;
  core_separated : separated (log s);
  core_generations : spawned_generations (log s) = countdown (N.to_nat (generation s.1));
  core_budget : budgeted (log s) (restart_attempts s.1) (time s) }.

Context (Hcap : 0 < evidence_capacity p).

Lemma budgeted_mono l ledger now now' : budgeted l ledger now -> (now <= now')%Z -> budgeted l ledger now'.
Proof.
  intros (A & old & ? & ? & Hold & ?) Hle. exists A, old. repeat split; try done.
  intros t Ht. specialize (Hold t Ht). lia.
Qed.
Lemma budgeted_app ext l ledger now : no_spawn ext -> budgeted l ledger now -> budgeted (ext ++ l) ledger now.
Proof. intros Hn. unfold budgeted. by rewrite spawn_times_app. Qed.
Lemma separated_app ext l : no_spawn ext -> separated l -> separated (ext ++ l).
Proof.
  intros Hn Hs l1 r o l2 r' c l3 He. destruct (spawn_split _ _ _ _ _ _ Hn He) as (l1' & -> & ->).
  by eapply Hs.
Qed.
Lemma settled_app ext l c held :
  no_spawn ext -> cleaned ext c -> settled l (c :: held) -> settled (ext ++ l) held.
Proof.
  intros Hn Hc Hs l1 r c' l2 He. destruct (spawn_split _ _ _ _ _ _ Hn He) as (l1' & -> & ->).
  destruct (Hs _ _ _ _ eq_refl) as [Hl|[->|]%elem_of_cons]; [left; by apply cleaned_app_r| |by right].
  left. by apply cleaned_app_l.
Qed.
Lemma settled_keep ext l held : no_spawn ext -> settled l held -> settled (ext ++ l) held.
Proof.
  intros Hn Hs l1 r c' l2 He. destruct (spawn_split _ _ _ _ _ _ Hn He) as (l1' & -> & ->).
  destruct (Hs _ _ _ _ eq_refl); [left; by apply cleaned_app_r|by right].
Qed.
Lemma core_step held k ext s s' : core held s -> step k ext s s' -> core held s'.
Proof.
  intros [] [(ev & Hm & He) Hc Hl Hs Hk]. split; rewrite ?Hm, ?Hl; simpl; auto.
  - by apply settled_keep.
  - by apply separated_app.
  - by rewrite spawned_generations_app.
  - apply budgeted_app; [done|]. by eapply budgeted_mono.
Qed.
Lemma core_reaped held c k ext s s' : core (c :: held) s -> step k ext s s' -> cleaned ext c -> core held s'.
Proof.
  intros [] [(ev & Hm & He) Hc Hl Hs Hk] Hcl. split; rewrite ?Hm, ?Hl; simpl; auto.
  - by eapply settled_app.
  - by apply separated_app.
  - by rewrite spawned_generations_app.
  - apply budgeted_app; [done|]. by eapply budgeted_mono.
Qed.
(** A spawn call that the budget has room for, when every child was cleaned. *)
Lemma core_spawn s s' r o :
  core [] s ->
  s'.1 = match o with Some _ => set_generation (request_generation r) s.1 | None => s.1 end ->
  log s' = SawSpawn r o :: log s -> (time s <= time s')%Z ->
  budgeted (SawSpawn r o :: log s) (restart_attempts s.1) (time s) ->
  request_generation r = generation s.1 + 1 ->
  core (match o with Some c => [c] | None => [] end) s'.
Proof.
  intros [] Hm Hl Ht Hb Hr.
  assert (policy s'.1 = policy s.1 /\ evidence s'.1 = evidence s.1 /\ restart_attempts s'.1 = restart_attempts s.1)
    as (Hp' & He' & Ha') by (by destruct o; rewrite Hm).
  split; rewrite ?Hp', ?He', ?Ha', ?Hl; try done.
  - intros l1 r' c l2 He. destruct l1 as [|e l1]; simpl in He.
    + injection He as -> -> He. right. by apply list_elem_of_singleton.
    + injection He as <- He. destruct (core_settled0 _ _ _ _ He) as [Hc|?%not_elem_of_nil]; [|done].
      left. by apply (cleaned_app_r [SawSpawn r o]).
  - intros l1 r1 o1 l2 r2 c2 l3 He. destruct l1 as [|e l1]; simpl in He.
    + injection He as -> -> He. destruct (core_settled0 _ _ _ _ He) as [?|?%not_elem_of_nil]; done.
    + injection He as _ He. by eapply core_separated0.
  - destruct o as [c|]; rewrite Hm; cbn [spawned_generations]; [|done]. simpl generation.
    rewrite Hr, core_generations0. replace (N.to_nat (generation s.1 + 1)) with (S (N.to_nat (generation s.1))) by lia.
    cbn [countdown]. f_equal. lia.
  - by eapply budgeted_mono.
Qed.

(** ** Restart window *)

Lemma prune_split now limit ledger :
  exists dropped, ledger = dropped ++ prune_attempts now limit ledger /\
    forall t, t ∈ dropped -> (Z.of_N limit < now - t)%Z.
Proof.
  induction ledger as [|a ledger (d & Hd & Hold)]; [by exists []; split; [|intros ? ?%not_elem_of_nil]|].
  cbn [prune_attempts]. destruct (N.ltb_spec limit (duration_since now a)) as [Hlt|Hge].
  - exists (a :: d). split; [by rewrite Hd at 1|]. intros t [->|Ht]%elem_of_cons; [|auto].
    unfold duration_since in Hlt. lia.
  - exists []. by split; [|intros ? ?%not_elem_of_nil].
Qed.
Lemma budgeted_prune l ledger clk now :
  budgeted l ledger clk -> (now <= clk)%Z ->
  budgeted l (prune_attempts now (window (restart p)) ledger) clk.
Proof.
  intros (A & old & Hsub & HA & Hold & Hsp) Hle.
  destruct (prune_split now (window (restart p)) ledger) as (d & Hd & Hdrop).
  exists A, (rev d ++ old). split; [done|]. split; [|split; [|done]].
  - rewrite HA. rewrite Hd at 1. by rewrite rev_app_distr, <-app_assoc.
  - intros t [Ht|Ht]%elem_of_app; [|by apply Hold].
    apply list_elem_of_In, in_rev, list_elem_of_In in Ht. specialize (Hdrop t Ht). lia.
Qed.
Lemma budgeted_attempt l ledger now :
  budgeted l ledger now -> len ledger < maximum_restarts (restart p) -> last_now l = now ->
  budgeted l (ledger ++ [now]) now /\ forall r o, budgeted (SawSpawn r o :: l) (ledger ++ [now]) now.
Proof.
  intros (A & old & Hsub & HA & Hold & Hsp) Hlen Hnow.
  assert (now :: A = rev (ledger ++ [now]) ++ old) as HA' by (rewrite rev_app_distr, HA; done).
  pose proof (spaced_cons _ _ now A ledger old Hsp HA Hlen Hold) as Hsp'.
  split; [exists (now :: A), old; split; [by apply sublist_cons|done]|].
  intros r o. exists (now :: A), old. split; [|done]. cbn [spawn_times]. rewrite Hnow.
  destruct (spawn_times l) as [|t ts] eqn:Hts; [apply sublist_nil_l|].
  by apply sublist_skip.
Qed.

(** The world moved on, sleeping at most [k]. *)
Definition grown (k : N) (s s' : St) : Prop :=
  (time s <= time s')%Z /\ exists ext, log s' = ext ++ log s /\ slept ext <= k.
Lemma grown_refl k s : grown k s s.
Proof. split; [lia|]. exists []. split; [done|apply N.le_0_l]. Qed.
Lemma grown_trans k k1 k2 s s' s'' : grown k1 s s' -> grown k2 s' s'' -> k1 + k2 <= k -> grown k s s''.
Proof.
  intros [? (e1 & H1 & ?)] [? (e2 & H2 & ?)] ?. split; [lia|]. exists (e2 ++ e1).
  rewrite H2, H1, slept_app, app_assoc. split; [done|lia].
Qed.
(** Only the world counts. *)
Lemma grown_world k k' s m m' w : grown k s (m, w) -> k <= k' -> grown k' s (m', w).
Proof. intros [? (ext & ? & ?)] ?. split; [done|]. exists ext. split; [done|lia]. Qed.
Lemma step_grown k ext s s' : step k ext s s' -> grown k s s'.
Proof. intros []. split; [done|]. by exists ext. Qed.

(** A step with its effect on the invariant: the manager changed in its
    evidence only. *)
Lemma wp_does {A : Type} k (m : Do A) Q0 held s (Q : A -> St -> Prop) (R : option ServiceManagerError -> St -> Prop) :
  does k m Q0 -> core held s ->
  (forall s' ext ev, step k ext s s' -> core held s' -> grown k s s' -> s'.1 = set_evidence ev s.1 ->
     (forall a, Q0 a ext -> Q a s') /\ (forall e, R (Some e) s')) ->
  wp m Q R s.
Proof.
  intros Hm Hc HQ. unfold wp. destruct (m s) as [s' r] eqn:E.
  destruct (Hm s s' r (core_policy _ _ Hc) E) as (Hn & ext & Hs & Ha).
  destruct (step_manager _ _ _ _ Hs) as (ev & Hev & _).
  destruct (HQ s' ext ev Hs (core_step _ _ _ _ _ Hc Hs) (step_grown _ _ _ _ Hs) Hev) as [HQa HR].
  destruct r; auto. done.
Qed.
(** An assignment to the fields that the invariant does not mention. *)
Definition bookkeeping (f : @RuntimeHostServiceManager Child -> @RuntimeHostServiceManager Child) : Prop :=
  forall m, policy (f m) = policy m /\ evidence (f m) = evidence m /\ generation (f m) = generation m /\
    restart_attempts (f m) = restart_attempts m.
Lemma core_set held f (m : @RuntimeHostServiceManager Child) w :
  bookkeeping f -> core held (m, w) -> core held (f m, w).
Proof. intros Hf []. destruct (Hf m) as (H1 & H2 & H3 & H4). by split; simpl; rewrite ?H1, ?H2, ?H3, ?H4. Qed.
Lemma wp_set (f : @RuntimeHostServiceManager Child -> @RuntimeHostServiceManager Child) (m : @RuntimeHostServiceManager Child) w (Q : unit -> St -> Prop) (R : option ServiceManagerError -> St -> Prop) :
  Q tt (f m, w) -> wp (self_set f) Q R (m, w).
Proof. done. Qed.
Lemma wp_get {A : Type} (f : @RuntimeHostServiceManager Child -> A) (s : St) (Q : A -> St -> Prop) (R : option ServiceManagerError -> St -> Prop) :
  Q (f s.1) s -> wp (self_get f) Q R s.
Proof. by destruct s. Qed.
Lemma wp_caught {A : Type} (m : Do A) s (Q : ServiceManagerError + A -> St -> Prop) R :
  wp m (fun a => Q (inr a)) (fun e s' => match e with Some e => Q (inl e) s' | None => R None s' end) s ->
  wp (caught m) Q R s.
Proof. unfold wp, caught. by destruct (m s) as [s' [a|e|]]. Qed.

Lemma record_for_Ok g i kind (s : St) : (record_for g i kind s).2 = Ok tt.
Proof.
  destruct s as [m [w l]]. unfold record_for, self_set, os_call, mbind, M_mbind, os_now, logged_os, logged.
  by destruct (os_now w).
Qed.
Lemma wp_record g i kind held s (Q : unit -> St -> Prop) R :
  core held s ->
  (forall s' ev, core held s' -> grown 0 s s' -> s'.1 = set_evidence ev s.1 -> Q tt s') ->
  wp (record_for g i kind) Q R s.
Proof.
  intros Hc HQ. pose proof (record_for_Ok g i kind s) as Hok.
  eapply wp_mono with (R := fun e _ => False); [|by intros [] s' Hs|done].
  unfold wp in *. pose proof (does_record_for g i kind s) as Hd.
  destruct (record_for g i kind s) as [s' r] eqn:E. simpl in Hok; subst r.
  destruct (Hd s' (Ok tt) (core_policy _ _ Hc) eq_refl) as (_ & ext & Hs & _).
  destruct (step_manager _ _ _ _ Hs) as (ev & Hev & _).
  eapply HQ; [by eapply core_step|by eapply step_grown|done].
Qed.

(** Nothing was taken or given up, and the restart was decided. *)
Definition decided (s s' : St) : Prop :=
  active s'.1 = active s.1 /\ failed_spawn_cleanup s'.1 = failed_spawn_cleanup s.1 /\
  (state s'.1 = ManagerQuarantined /\ pending_restart s'.1 = None \/
   state s'.1 = RestartBackoff /\ is_Some (pending_restart s'.1)).

Lemma wp_quarantine f held s (Q : unit -> St -> Prop) R :
  core held s ->
  (forall s', core held s' -> grown 0 s s' -> decided s s' -> state s'.1 = ManagerQuarantined -> Q tt s') ->
  wp (quarantine f) Q R s.
Proof.
  intros Hc HQ. destruct s as [m w]. unfold quarantine, record.
  apply wp_bind, wp_set, wp_bind, wp_set, wp_bind, wp_get.
  eapply wp_record; [by apply (core_set _ (set_state _)), (core_set _ (set_pending _))|].
  intros s' ev Hc' Hg Hm. apply HQ; [done|done| |]; rewrite ?Hm; [|done]. split; [|split]; rewrite ?Hm; auto.
Qed.
Lemma wp_schedule f now held s (Q : unit -> St -> Prop) R :
  core held s -> (now <= time s)%Z ->
  (forall s', core held s' -> grown 0 s s' -> decided s s' -> Q tt s') ->
  wp (schedule_restart f now) Q R s.
Proof.
  intros Hc Hnow HQ. destruct s as [m w]. unfold schedule_restart, prune_restart_attempts.
  apply wp_bind, wp_set. set (m1 := set_attempts _ m).
  assert (core held (m1, w)) as Hc1.
  { destruct Hc. split; try done. simpl in *. rewrite core_policy0. by apply budgeted_prune. }
  apply wp_bind, wp_get, wp_bind, wp_get. case_match.
  { eapply wp_quarantine; [done|]. intros s' ? ? ? ?. by apply HQ. }
  apply wp_bind, wp_get. simpl. destruct (instant_checked_add now _) as [d|].
  2:{ eapply wp_quarantine; [done|]. intros s' ? ? ? ?. by apply HQ. }
  unfold record. apply wp_bind, wp_set, wp_bind, wp_set, wp_bind, wp_get.
  eapply wp_record; [by apply (core_set _ (set_state _)), (core_set _ (set_pending _))|].
  intros s' ev Hc' Hg Hm. apply HQ; [done|done|]. split; [|split]; rewrite ?Hm; [done..|]. right. by eauto.
Qed.
(** An attempt that is committed leaves room for a spawn call. *)
Definition may_spawn (s : St) : Prop :=
  forall r o, budgeted (SawSpawn r o :: log s) (restart_attempts s.1) (time s).
Lemma wp_commit_attempt f now held s (Q : bool -> St -> Prop) R :
  core held s -> (now <= time s)%Z -> budgeted (log s) (restart_attempts s.1) now -> last_now (log s) = now ->
  (forall s', core held s' -> grown 0 s s' -> decided s s' -> state s'.1 = ManagerQuarantined -> Q false s') ->
  (forall s' a, core held s' -> may_spawn s' -> s'.2 = s.2 -> s'.1 = set_attempts a s.1 -> Q true s') ->
  wp (commit_restart_attempt f now) Q R s.
Proof.
  intros Hc Hnow Hb Hlast HQf HQt. destruct s as [m w]. unfold commit_restart_attempt, prune_restart_attempts.
  apply wp_bind, wp_set. set (m1 := set_attempts _ m).
  pose proof (core_policy _ _ Hc) as Hp; simpl in Hp.
  assert (budgeted (log (m, w)) (restart_attempts m1) now) as Hb1.
  { simpl. rewrite Hp. by apply budgeted_prune. }
  assert (core held (m1, w)) as Hc1.
  { destruct Hc. split; try done. by eapply budgeted_mono. }
  assert (policy m1 = p) as Hp1 by done. assert (forall a, set_attempts a m1 = set_attempts a m) as Hm1 by done.
  assert (active m1 = active m) as Ha1 by done. assert (failed_spawn_cleanup m1 = failed_spawn_cleanup m) as Hf1 by done.
  clearbody m1. apply wp_bind, wp_get, wp_bind, wp_get. cbn [fst]. rewrite Hp1. case_match eqn:Hlen.
  { apply wp_bind. eapply wp_quarantine; [done|]. intros s' ? ? (? & ? & ?) ?. apply wp_ret. apply HQf; try done.
    unfold decided; simpl. by rewrite <-Ha1, <-Hf1. }
  apply N.leb_gt in Hlen. apply wp_bind, wp_set, wp_ret.
  destruct (budgeted_attempt _ _ _ Hb1 Hlen Hlast) as [Hb2 Hb3].
  eapply HQt; [| |done|by simpl; rewrite Hm1].
  - destruct Hc1. split; try done. simpl. by eapply budgeted_mono.
  - intros r o. by eapply budgeted_mono.
Qed.

(** ** Calls that do not fail *)

Definition total {A : Type} (m : Do A) : Prop := forall s e, (m s).2 <> Err e.
Lemma total_ret {A : Type} (a : A) : total (mret a).
Proof. done. Qed.
Lemma total_bind {A B : Type} (m : Do A) (f : A -> Do B) : total m -> (forall a, total (f a)) -> total (m ≫= f).
Proof.
  intros Hm Hf s e. unfold mbind, M_mbind. specialize (Hm s). destruct (m s) as [s' [a|e'|]]; [apply Hf|by destruct (Hm e')|done].
Qed.
Lemma total_os_call {A : Type} (f : W * list (OsEvent Child) -> (W * list (OsEvent Child)) * A) : total (os_call f).
Proof. intros [m w] e. unfold os_call. by destruct (f w). Qed.
Lemma total_get {A : Type} (f : @RuntimeHostServiceManager Child -> A) : total (self_get f).
Proof. by intros [m w] e. Qed.
Lemma total_record g i kind : total (record_for g i kind).
Proof. intros s e. by rewrite record_for_Ok. Qed.
Create HintDb total.
#[local] Hint Resolve total_ret total_os_call total_get total_record : total.
Ltac total_steps := repeat first [case_match | solve [auto with total] | apply total_bind; [auto with total|intros]].

Lemma total_send_probe h now : total (send_control_probe h now).
Proof. unfold send_control_probe. total_steps. Qed.
#[local] Hint Resolve total_send_probe : total.
Lemma total_maybe_probe h now : total (maybe_send_probe h now).
Proof. unfold maybe_send_probe. total_steps. Qed.
Lemma total_accept h frame now : total (accept_host_frame h frame now).
Proof. unfold accept_host_frame. total_steps. Qed.
#[local] Hint Resolve total_maybe_probe total_accept : total.
Lemma total_read_frames n h now : total (read_frames_loop n h now).
Proof.
  revert h; induction n as [|n IH]; intros h; cbn [read_frames_loop]; [apply total_ret|].
  apply total_bind; [intros s e; by destruct (_ <? _)|intros _]. apply total_bind; [apply total_os_call|].
  intros o. total_steps.
  by intros s e.
Qed.
#[local] Hint Resolve total_read_frames : total.
Lemma total_observe_host h now : total (observe_host h now).
Proof. unfold observe_host, read_host_frames. total_steps. Qed.

Lemma wp_does_total {A : Type} k (m : Do A) Q0 held s (Q : A -> St -> Prop) (R : option ServiceManagerError -> St -> Prop) :
  total m -> does k m Q0 -> core held s ->
  (forall s' ext ev, step k ext s s' -> core held s' -> grown k s s' -> s'.1 = set_evidence ev s.1 ->
     forall a, Q0 a ext -> Q a s') ->
  wp m Q R s.
Proof.
  intros Ht Hm Hc HQ. specialize (Ht s).
  assert (wp m Q (fun e s' => exists e', e = Some e' /\ (m s).2 = Err e') s) as Hw.
  { unfold wp. destruct (m s) as [s' r] eqn:E. destruct (Hm s s' r (core_policy _ _ Hc) E) as (Hn & ext & Hs & Ha).
    destruct (step_manager _ _ _ _ Hs) as (ev & Hev & _).
    destruct r; [|by eauto|done]. eapply HQ; [done|by eapply core_step|by eapply step_grown|done|auto]. }
  eapply wp_mono; [exact Hw|done|]. intros e s' (e' & -> & He). by destruct (Ht e').
Qed.

(** ** The lifecycle *)

Definition owners (m : @RuntimeHostServiceManager Child) : list Child :=
  (match active m with Some h => [managed_child h] | None => [] end) ++
  (match failed_spawn_cleanup m with Some o => [failed_child o] | None => [] end).
(** Which fields each state comes with. *)
Definition consistent (m : @RuntimeHostServiceManager Child) : Prop :=
  (forall h, active m = Some h -> host_ok h) /\
  (forall o, failed_spawn_cleanup m = Some o -> failed_pid o = os_child_id (failed_child o)) /\
  match state m with
  | ManagerBootstrapping | ManagerRunning =>
      is_Some (active m) /\ failed_spawn_cleanup m = None /\ pending_restart m = None
  | RestartBackoff => active m = None /\ failed_spawn_cleanup m = None /\ is_Some (pending_restart m)
  | ManagerQuarantined => (active m = None \/ failed_spawn_cleanup m = None) /\ pending_restart m = None
  | Stopped => active m = None /\ failed_spawn_cleanup m = None /\ pending_restart m = None
  end.
Definition manager_inv (s : St) : Prop := core (owners s.1) s /\ consistent s.1.

(** No owner and no restart pending: between a reap and a spawn. *)
Definition vacant (m : @RuntimeHostServiceManager Child) : Prop :=
  active m = None /\ failed_spawn_cleanup m = None /\ pending_restart m = None.
(** A failed spawn left nothing behind. *)
Definition spawn_failed (s : St) (e : option ServiceManagerError) (s' : St) : Prop :=
  e <> None /\ core [] s' /\ vacant s'.1 /\ grown (kill_grace (termination p)) s s'.

Abbreviation Kill := (kill_grace (termination p)).
Abbreviation Term := (term_grace (termination p)).

Lemma wp_reject owner err s :
  core [failed_child owner] s -> failed_pid owner = os_child_id (failed_child owner) -> vacant s.1 ->
  wp (reject_spawned_child owner err) (fun _ s' => manager_inv s' /\ grown Kill s s') (spawn_failed s) s.
Proof.
  intros Hc Hid Hv. unfold reject_spawned_child. apply wp_bind. eapply wp_record; [done|].
  intros s1 ev1 Hc1 Hg1 Hm1. apply wp_bind, wp_caught. eapply wp_does; [by apply does_kill_failed|done|].
  intros s2 ext2 ev2 Hs2 Hc2 Hg2 Hm2.
  assert (grown Kill s s2) as Hg by (eapply grown_trans; [done..|lia]).
  assert (vacant s2.1) as Hv2 by (by rewrite Hm2, Hm1). split.
  - intros [] Hcl. unfold finish_rejected_spawn. apply wp_lift; try done. intros e _.
    split; [done|]. split; [eapply core_reaped; [exact Hc1|exact Hs2|exact Hcl]|]. done.
  - intros e. unfold finish_rejected_spawn. destruct s2 as [m2 w2].
    apply wp_bind, wp_set, wp_bind, wp_set, wp_bind.
    eapply wp_record; [by apply (core_set _ (set_state _)), (core_set _ (set_pending _))|].
    intros s3 ev3 Hc3 Hg3 Hm3. apply wp_bind. eapply wp_record; [done|].
    intros [m4 w4] ev4 Hc4 Hg4 Hm4. apply wp_set. simpl in *. rewrite Hm3 in Hm4.
    destruct Hv2 as (Ha & Hf & Hpend). simpl in Ha, Hf, Hpend. split; [split|].
    + unfold owners. simpl. rewrite Hm4. simpl. rewrite Ha. rewrite <-Hm4. by apply (core_set _ (set_failed _)).
    + rewrite Hm4. split; [|split]; simpl; [by rewrite Ha|by intros ? [= <-]|by split; [left|]].
    + eapply grown_trans; [exact Hg|eapply grown_trans; [exact Hg3|exact Hg4|reflexivity]|lia].
Qed.

Lemma wp_install g c now s :
  core [c] s -> vacant s.1 ->
  wp (install_child g c now) (fun _ s' => manager_inv s' /\ grown Kill s s') (spawn_failed s) s.
Proof.
  intros Hc Hv. unfold install_child.
  case_match; [by apply wp_reject|]. case_match; [by apply wp_reject|].
  apply wp_bind, wp_caught. eapply wp_does; [apply does_set_nonblocking|done|].
  intros s1 ext1 ev1 _ Hc1 Hg1 Hm1. assert (vacant s1.1) as Hv1 by (by rewrite Hm1).
  assert (forall s2, vacant s2.1 -> core [c] s2 -> grown 0 s s2 -> forall err,
    wp (reject_spawned_child (MkFailedSpawnCleanupOwner g (os_child_id c) c) err)
      (fun _ s' => manager_inv s' /\ grown Kill s s') (spawn_failed s) s2) as Hreject.
  { intros s2 Hv2 Hc2 Hg2 err. eapply wp_mono; [by apply wp_reject| |].
    - intros _ s' [? ?]. split; [done|]. eapply grown_trans; [done..|lia].
    - intros e s' (? & ? & ? & ?). split; [done|]. split; [done|]. split; [done|]. eapply grown_trans; [done..|lia]. }
  split; [intros [] _|intros e; by apply Hreject].
  apply wp_bind, wp_get, wp_bind. eapply wp_does_total; [apply total_send_probe|apply does_send_probe|done|].
  intros [m2 w2] ext2 ev2 _ Hc2 Hg2 Hm2. simpl in Hm2.
  assert (grown 0 s (m2, w2)) as Hg12 by (eapply grown_trans; [done..|lia]).
  assert (vacant m2) as Hv2 by (by rewrite Hm2).
  intros [h [nonce|]] Hh; [|by apply Hreject]. apply wp_bind, wp_set, wp_bind.
  eapply wp_record; [by apply (core_set _ (set_state _))|]. intros [m3 w3] ev3 Hc3 Hg3 Hm3. apply wp_set.
  simpl in Hm3. destruct Hv2 as (Ha & Hf & Hpend).
  assert (host_ok h) as Hok by (eapply same_owner_ok; [exact Hh|by split]).
  destruct Hh as (Hch & _). simpl in Hch. split; [split|].
  - unfold owners. simpl. rewrite Hm3, Hch. simpl. rewrite Hf. rewrite <-Hm3. by apply (core_set _ (set_active _)).
  - rewrite Hm3. split; [|split]; simpl; [by intros ? [= <-]|by rewrite Hf|by eauto].
  - eapply grown_trans; [exact Hg12|exact Hg3|lia].
Qed.

Lemma wp_spawn now s :
  core [] s -> may_spawn s -> vacant s.1 ->
  wp (spawn_next now) (fun _ s' => manager_inv s' /\ grown Kill s s') (spawn_failed s) s.
Proof.
  intros Hc Hmay Hv. assert (forall e, spawn_failed s (Some e) s) as Herr.
  { intros e. split; [done|]. split; [done|]. split; [done|apply grown_refl]. }
  unfold spawn_next. apply wp_bind, wp_get, wp_bind, wp_fail_if; [intros _|done].
  destruct s as [m [w l]]. apply wp_bind, wp_read; [|done|by intros ?%ok_or_Panic].
  intros gv [-> Hgv]%ok_or_Ok%checked_add_Some.
  apply wp_bind, wp_lift; [intros g Hg|done|by unfold watchdog_generation_try_new; case_match].
  apply wp_bind, wp_read; [intros hb _|done|by intros ?%ok_or_Panic].
  apply wp_bind, wp_read; [intros hs _|done|by intros ?%ok_or_Panic].
  apply wp_bind, wp_get, wp_bind. unfold wp at 1, os_call, os_spawn, logged_os, logged.
  set (r := MkLaunchRequest _ _ _ _). pose proof (spawn_law r w) as Hlaw.
  destruct (os_spawn r w) as [w' o]; simpl in Hlaw.
  assert (forall m', m' = match o with Some _ => set_generation (generation m + 1) m | None => m end ->
    core (match o with Some c => [c] | None => [] end) (m', (w', SawSpawn r o :: l))) as Hcore.
  { intros m' ->. by apply (core_spawn (m, (w, l)) _ r o Hc); [destruct o|..]. }
  assert (grown 0 (m, (w, l)) (m, (w', SawSpawn r o :: l))) as Hgr.
  { split; [done|]. by exists [SawSpawn r o]. }
  apply wp_bind, wp_lift; [|intros e [-> ->]%ok_or_Err|by intros ?%ok_or_Panic].
  2:{ split; [done|]. split; [by apply Hcore|]. split; [done|]. eapply grown_trans; [exact Hgr|apply (grown_refl 0)|lia]. }
  intros c ->%ok_or_Ok. apply wp_bind, wp_set, wp_bind. eapply wp_record; [by apply Hcore|].
  intros s1 ev1 Hc1 Hg1 Hm1.
  assert (grown 0 (m, (w, l)) s1) as Hg01 by (eapply grown_trans; [exact Hgr|exact Hg1|lia]).
  eapply wp_mono; [apply wp_install; [done|by rewrite Hm1]| |].
  - intros _ s' [? ?]. split; [done|]. eapply grown_trans; [exact Hg01|done|lia].
  - intros e s' (? & ? & ? & ?). split; [done|]. split; [done|]. split; [done|]. eapply grown_trans; [exact Hg01|done|lia].
Qed.

(** What a reap does to an owner taken out of the manager. *)
Lemma wp_reap h held s (Q : unit -> St -> Prop) (R : option ServiceManagerError -> St -> Prop) :
  core (managed_child h :: held) s -> managed_pid h = os_child_id (managed_child h) ->
  (forall s' ev, core held s' -> grown (Term + Kill) s s' -> s'.1 = set_evidence ev s.1 -> Q tt s') ->
  (forall e s' ev, core (managed_child h :: held) s' -> grown (Term + Kill) s s' ->
     s'.1 = set_state ManagerQuarantined (set_active (Some h) (set_evidence ev s.1)) -> R (Some e) s') ->
  wp (reap_or_quarantine h) Q R s.
Proof.
  intros Hc Hid HQ HR. unfold reap_or_quarantine. apply wp_bind, wp_caught.
  eapply wp_does; [by apply does_terminate|done|]. intros [m1 w1] ext ev Hs Hc' Hg Hm. simpl in Hm. split.
  - intros [] Hcl. apply wp_ret. eapply HQ; [eapply core_reaped; [exact Hc|exact Hs|exact Hcl]|done|done].
  - intros e. apply wp_bind, wp_set, wp_bind, wp_set, wp_lift; try done. intros e' _.
    eapply HR; [by apply (core_set _ (set_state _)), (core_set _ (set_active _))|done|simpl; by rewrite Hm].
Qed.

(** Every outcome of a call keeps the invariant; none is a panic. *)
Definition keeps {A : Type} (k : N) (m : Do A) (s : St) : Prop :=
  wp m (fun _ s' => manager_inv s' /\ grown k s s') (fun e s' => e <> None /\ manager_inv s' /\ grown k s s') s.

(** A decided restart with no owner is a state of the manager. *)
Lemma decided_inv s s' :
  core [] s' -> decided s s' -> active s.1 = None -> failed_spawn_cleanup s.1 = None -> manager_inv s'.
Proof.
  intros Hc (Ha & Hf & Hd) Ha0 Hf0. rewrite Ha0 in Ha. rewrite Hf0 in Hf.
  split; [unfold owners; by rewrite Ha, Hf|]. split; [by rewrite Ha|]. split; [by rewrite Hf|].
  destruct Hd as [[-> ?]|[-> ?]]; [|done]. split; [by left|done].
Qed.
(** An owner put back in quarantine is one, too. *)
Lemma requarantined_inv h ev m s' :
  core [managed_child h] s' -> host_ok h -> failed_spawn_cleanup m = None -> pending_restart m = None ->
  s'.1 = set_state ManagerQuarantined (set_active (Some h) (set_evidence ev m)) -> manager_inv s'.
Proof.
  intros Hc Hok Hf Hp Hm. split; [unfold owners; rewrite Hm; simpl; by rewrite Hf|].
  rewrite Hm. split; [|split]; simpl; [by intros ? [= <-]|by rewrite Hf|by split; [right|]].
Qed.

Lemma keeps_frame {A : Type} k k1 (m : Do A) s s1 : grown k1 s s1 -> keeps k m s1 -> forall k', k1 + k <= k' ->
  wp m (fun _ s' => manager_inv s' /\ grown k' s s') (fun e s' => e <> None /\ manager_inv s' /\ grown k' s s') s1.
Proof.
  intros Hg Hk k' Hle. eapply wp_mono; [exact Hk| |].
  - intros _ s' [? ?]. split; [done|]. by eapply grown_trans.
  - intros e s' (? & ? & ?). split; [done|]. split; [done|]. by eapply grown_trans.
Qed.

Lemma wp_now m w l (Q : Z -> St -> Prop) R :
  (forall w' t, (clock w <= t <= clock w')%Z -> Q t (m, (w', SawNow t :: l))) -> wp (os_call os_now) Q R (m, (w, l)).
Proof.
  intros HQ. destruct (step_now m w l) as (w' & t & E & Ht & _). unfold wp. rewrite E. by apply HQ.
Qed.
Lemma core_now held m w w' t l :
  core held (m, (w, l)) -> (clock w <= t <= clock w')%Z -> core held (m, (w', SawNow t :: l)).
Proof.
  intros Hc Ht. apply (core_step held 0 [SawNow t] _ _ Hc). destruct (step_refl 0 (m, (w, l))).
  split; try done. unfold time; simpl. lia.
Qed.

(** Reaping an owner and deciding the restart. *)
Lemma reap_then_keeps h s (k : Do unit) :
  core [managed_child h] s -> host_ok h -> vacant s.1 ->
  (forall s1, core [] s1 -> grown (Term + Kill) s s1 -> vacant s1.1 ->
     wp k (fun _ s2 => manager_inv s2 /\ grown 0 s1 s2) (fun _ _ => False) s1) ->
  keeps (Term + Kill) (_ ← reap_or_quarantine h; k) s.
Proof.
  intros Hc Hok (Ha & Hf & Hp) Hk. unfold keeps. apply wp_bind. eapply wp_reap; [done|apply Hok|..].
  - intros s1 ev1 Hc1 Hg1 Hm1. eapply wp_mono; [apply Hk; [done..|by rewrite Hm1]| |done].
    intros _ s2 [Hi Hg2]. split; [done|]. eapply grown_trans; [exact Hg1|exact Hg2|lia].
  - intros e s1 ev1 Hc1 Hg1 Hm1. split; [done|]. split; [by eapply requarantined_inv|done].
Qed.
Lemma vacant_schedule failure now s R :
  core [] s -> vacant s.1 -> (now <= time s)%Z ->
  wp (schedule_restart failure now) (fun _ s' => manager_inv s' /\ grown 0 s s') R s.
Proof.
  intros Hc (Ha & Hf & _) Hle. eapply wp_schedule; [done|done|]. intros s' Hc' Hg Hd.
  split; [by eapply decided_inv|done].
Qed.
(** The host exited: its group is reaped and the restart decided at [now]. *)
Lemma exited_keeps h now s :
  core [managed_child h] s -> host_ok h -> vacant s.1 -> (now <= time s)%Z ->
  keeps (Term + Kill)
    (_ ← record_for (watchdog_generation_value (managed_generation h)) (Some (managed_pid h)) HostExitObserved;
     _ ← record_for (watchdog_generation_value (managed_generation h)) (Some (managed_pid h)) (FailureDetected HostExited);
     _ ← reap_or_quarantine h;
     schedule_restart HostExited now) s.
Proof.
  intros Hc Hok Hv Hle. unfold keeps. apply wp_bind. eapply wp_record; [done|]. intros s3 ev3 Hc3 Hg3 Hm3.
  apply wp_bind. eapply wp_record; [done|]. intros s4 ev4 Hc4 Hg4 Hm4.
  eapply (keeps_frame (Term + Kill) 0); [|apply reap_then_keeps; [done|done|by rewrite Hm4, Hm3|]|lia].
  - by eapply grown_trans.
  - intros s5 Hc5 Hg5 Hv5. apply vacant_schedule; [done|done|]. destruct Hg3 as [? _], Hg4 as [? _], Hg5 as [? _]. lia.
Qed.
(** A failure was observed: the same, decided after the reap. *)
Lemma failed_keeps g pd h failure s :
  core [managed_child h] s -> host_ok h -> vacant s.1 ->
  keeps (Term + Kill)
    (_ ← record_for g pd (FailureDetected failure);
     _ ← reap_or_quarantine h;
     now ← os_call os_now;
     schedule_restart failure now) s.
Proof.
  intros Hc Hok Hv. unfold keeps. apply wp_bind. eapply wp_record; [done|]. intros s4 ev4 Hc4 Hg4 Hm4.
  eapply (keeps_frame (Term + Kill) 0); [exact Hg4|apply reap_then_keeps; [done|done|by rewrite Hm4|]|lia].
  intros [m5 [w5 l5]] Hc5 Hg5 Hv5. apply wp_bind, wp_now. intros w6 t Ht.
  eapply wp_mono; [apply (vacant_schedule _ _ _ (fun _ _ => False)); [by eapply core_now|done|apply Ht]| |done].
  intros _ s' [Hi Hg]. split; [done|]. eapply (grown_trans 0 0 0); [|exact Hg|done].
  split; [unfold time; simpl; lia|]. by exists [SawNow t].
Qed.
(** The owner goes back into the manager, observed or not. *)
Lemma put_back h m w st s :
  core [managed_child h] (m, w) -> host_ok h -> failed_spawn_cleanup m = None -> pending_restart m = None ->
  st = ManagerBootstrapping \/ st = ManagerRunning -> grown 0 s (m, w) ->
  manager_inv (set_active (Some h) (set_state st m), w).
Proof.
  intros Hc Hok Hf Hp Hst Hg. split.
  - unfold owners; simpl. rewrite Hf. by apply (core_set _ (set_active _)), (core_set _ (set_state _)).
  - split; [|split]; simpl; [by intros ? [= <-]|by rewrite Hf|by destruct Hst as [->| ->]; eauto].
Qed.

Lemma poll_active_keeps s :
  manager_inv s -> state s.1 = ManagerBootstrapping \/ state s.1 = ManagerRunning ->
  keeps (Term + Kill) poll_active s.
Proof.
  intros [Hc (Hh & Hf & Hst)] Hs.
  assert (is_Some (active s.1) /\ failed_spawn_cleanup s.1 = None /\ pending_restart s.1 = None) as ([h Ha] & Hf0 & Hp0)
    by (by destruct Hs as [Hs|Hs]; rewrite Hs in Hst).
  specialize (Hh h Ha). unfold owners in Hc. rewrite Ha, Hf0 in Hc. simpl in Hc.
  destruct s as [m [w l]]. simpl in *. unfold keeps, poll_active. apply wp_bind, wp_get. cbn [fst]. rewrite Ha.
  apply wp_bind, wp_set, wp_bind, wp_lift; [intros h' Hh'%ok_or_Ok; injection Hh' as <-|done..].
  apply wp_bind, wp_now. intros w1 now Hnow.
  apply (core_set _ (set_active None)) in Hc; [|done].
  pose proof (core_now _ _ _ _ _ _ Hc Hnow) as Hc1.
  assert (grown 0 (m, (w, l)) (set_active None m, (w1, SawNow now :: l))) as Hg1.
  { split; [unfold time; simpl; lia|]. by exists [SawNow now]. }
  set (m1 := set_active None m) in *.
  assert (vacant m1) as Hv1 by done. apply wp_bind.
  eapply wp_does_total; [apply total_os_call|
    apply (does_logged 0 (SawWait (managed_child h)) (os_try_wait (managed_child h)) (fun _ _ => True)); [apply try_wait_law|done..]|exact Hc1|].
  intros s2 ext2 ev2 _ Hc2 Hg2 Hm2 waited _. simpl in Hm2.
  assert (grown 0 (m, (w, l)) s2) as Hg02 by (eapply grown_trans; [exact Hg1|exact Hg2|lia]).
  assert (vacant s2.1) as Hv2 by (by rewrite Hm2).
  assert (now <= time s2)%Z as Hle by (destruct Hg2 as [Hg2 _]; unfold time in Hg2 at 1; simpl in Hg2; lia).
  destruct waited as [[]|].
  - by eapply (keeps_frame (Term + Kill) 0); [exact Hg02|apply exited_keeps|lia].
  - apply wp_bind. eapply wp_does_total; [apply total_observe_host|apply does_observe_host; apply Hh|exact Hc2|].
    intros s3 ext3 ev3 _ Hc3 Hg3 Hm3 [h' [failure|]] Hown; cbn [fst] in Hown;
      pose proof (same_owner_ok _ _ Hown Hh) as Hh'; destruct Hown as (Hch & _); rewrite <-Hch in Hc3;
      assert (grown 0 (m, (w, l)) s3) as Hg03 by (eapply grown_trans; [exact Hg02|exact Hg3|lia]).
    + eapply (keeps_frame (Term + Kill) 0); [exact Hg03|apply failed_keeps; [done|done|by rewrite Hm3]|lia].
    + destruct s3 as [m3 w3]. apply wp_bind, wp_set, wp_set. simpl in Hm3. split.
      * eapply put_back; [done|done|by rewrite Hm3, Hm2|by rewrite Hm3, Hm2|destruct (is_running h'); auto|exact Hg03].
      * eapply grown_world; [exact Hg03|lia].
  - destruct s2 as [m2 w2]. apply wp_bind, wp_set, wp_lift; try done. intros e _. split; [done|]. simpl in Hm2. split.
    + replace (set_active (Some h) m2) with (set_active (Some h) (set_state (state m) m2)) by (rewrite Hm2; by destruct m).
      eapply put_back; [done|done|by rewrite Hm2|by rewrite Hm2|done|done].
    + eapply grown_world; [exact Hg02|lia].
Qed.

Lemma poll_backoff_keeps s :
  manager_inv s -> state s.1 = RestartBackoff -> keeps Kill poll_backoff s.
Proof.
  intros [Hc (_ & _ & Hst)] Hs. rewrite Hs in Hst. destruct Hst as (Ha & Hf & Hp).
  unfold owners in Hc. rewrite Ha, Hf in Hc. simpl in Hc.
  destruct s as [m [w l]]. simpl in *. unfold keeps, poll_backoff. apply wp_bind, wp_now. intros w1 now Hnow.
  pose proof (core_now _ _ _ _ _ _ Hc Hnow) as Hc1.
  assert (grown 0 (m, (w, l)) (m, (w1, SawNow now :: l))) as Hg1.
  { split; [unfold time; simpl; lia|]. by exists [SawNow now]. }
  assert (manager_inv (m, (w1, SawNow now :: l)) /\ grown Kill (m, (w, l)) (m, (w1, SawNow now :: l))) as Hstay.
  { split; [|eapply grown_trans; [exact Hg1|apply (grown_refl 0)|lia]].
    split; [unfold owners; simpl; by rewrite Ha, Hf|].
    split; [simpl; by rewrite Ha|]. split; [simpl; by rewrite Hf|]. simpl. by rewrite Hs. }
  apply wp_bind, wp_get. cbn [fst]. destruct Hp as [pd Hp]. rewrite Hp. case_match; [|by apply wp_ret].
  apply wp_bind, wp_set, wp_bind. set (m1 := set_pending None m).
  assert (core [] (m1, (w1, SawNow now :: l))) as Hc1' by (by apply (core_set _ (set_pending None))).
  assert (vacant m1) as Hv1 by done.
  eapply wp_commit_attempt; [exact Hc1'|unfold time; simpl; lia| |done|..].
  - apply (budgeted_app [SawNow now]); [done|]. eapply budgeted_mono; [apply (core_budget _ _ Hc)|]. unfold time; simpl; lia.
  - intros s2 Hc2 Hg2 Hd Hq. apply wp_ret. split; [by eapply decided_inv|].
    eapply grown_trans; [exact Hg1|exact Hg2|lia].
  - intros [m2 w2] a Hc2 Hmay Hw Hm2. simpl in Hw, Hm2. subst w2. assert (vacant m2) as Hv2 by (by rewrite Hm2).
    apply wp_bind, wp_caught. eapply wp_mono; [by apply wp_spawn| |].
    + intros [] s3 [Hi Hg3]. apply wp_ret. split; [done|]. eapply grown_trans; [exact Hg1|exact Hg3|lia].
    + intros [e|] s3 (Hn & Hc3 & Hv3 & Hg3); [|done]. unfold record. apply wp_bind, wp_bind, wp_get.
      eapply wp_record; [done|]. intros [m4 [w4 l4]] ev4 Hc4 Hg4 Hm4. apply wp_bind, wp_now. intros w5 t Ht.
      eapply wp_mono; [apply (vacant_schedule _ _ _ (fun _ _ => False)); [by eapply core_now|simpl in *; by rewrite Hm4|apply Ht]| |done].
      intros _ s6 [Hi Hg6]. split; [done|].
      assert (grown 0 (m4, (w4, l4)) (m4, (w5, SawNow t :: l4))) as Hg5 by (split; [unfold time; simpl; lia|]; by exists [SawNow t]).
      eapply (grown_trans _ 0 Kill); [exact Hg1| |lia].
      eapply (grown_trans _ Kill 0); [exact Hg3| |lia].
      eapply (grown_trans _ 0 0); [exact Hg4| |lia]. by eapply (grown_trans _ 0 0).
Qed.

Lemma keeps_ret {A B : Type} k k' (m : Do A) (f : A -> Do B) s :
  keeps k m s -> k <= k' -> (forall a s', exists b, f a s' = (s', Ok b)) -> keeps k' (m ≫= f) s.
Proof.
  intros Hm Hk Hf. pose proof (keeps_frame k 0 m s s (grown_refl 0 s) Hm k' Hk) as Hw.
  unfold keeps, wp, mbind, M_mbind in *. destruct (m s) as [s' [a|e|]]; [|done..].
  by destruct (Hf a s') as [b ->].
Qed.
Lemma poll_keeps s : manager_inv s -> keeps (Term + Kill) poll s.
Proof.
  intros Hi. unfold keeps, poll. apply wp_bind, wp_get.
  assert (keeps (Term + Kill) (self_get snapshot) s) as Hstay.
  { apply wp_get. split; [done|apply grown_refl]. }
  destruct (state s.1) eqn:Hs; try done.
  - apply (keeps_ret (Term + Kill)); [apply poll_active_keeps; auto|lia|]. intros _ [m w]. by eexists.
  - apply (keeps_ret (Term + Kill)); [apply poll_active_keeps; auto|lia|]. intros _ [m w]. by eexists.
  - apply (keeps_ret Kill); [by apply poll_backoff_keeps|lia|]. intros _ [m w]. by eexists.
Qed.

Lemma wp_shutdown_failed o s :
  core [failed_child o] s -> failed_pid o = os_child_id (failed_child o) ->
  active s.1 = None -> pending_restart s.1 = None ->
  wp (shutdown_failed o) (fun _ s' => core [] s' /\ vacant s'.1 /\ grown Kill s s')
    (fun e s' => e <> None /\ manager_inv s' /\ grown Kill s s') s.
Proof.
  intros Hc Hid Ha Hp. unfold shutdown_failed. destruct s as [m w]. apply wp_bind, wp_set, wp_bind.
  eapply wp_record; [by apply (core_set _ (set_failed None))|]. intros s1 ev1 Hc1 Hg1 Hm1.
  apply wp_bind, wp_caught. eapply wp_does; [by apply does_kill_failed|exact Hc1|].
  intros [m2 w2] ext2 ev2 Hs2 Hc2 Hg2 Hm2. simpl in *.
  assert (grown Kill (m, w) (m2, w2)) as Hg by (eapply (grown_trans _ 0 Kill); [exact Hg1|exact Hg2|lia]).
  split.
  - intros [] Hcl. apply wp_ret. split; [eapply core_reaped; [exact Hc1|exact Hs2|exact Hcl]|].
    split; [|exact Hg]. simpl. by rewrite Hm2, Hm1.
  - intros e. apply wp_bind, wp_set, wp_bind, wp_set, wp_lift; try done. intros e' _. split; [done|].
    split; [|by eapply grown_world].
    split; [unfold owners; simpl; rewrite Hm2, Hm1; simpl; rewrite Ha; rewrite <-Hm1, <-Hm2;
      by apply (core_set _ (set_state _)), (core_set _ (set_failed _))|].
    rewrite Hm2, Hm1. split; [|split]; simpl; [by rewrite Ha|by intros ? [= <-]|by split; [left|]].
Qed.
Lemma wp_shutdown_active h s :
  core [managed_child h] s -> host_ok h -> failed_spawn_cleanup s.1 = None -> pending_restart s.1 = None ->
  wp (shutdown_active h) (fun _ s' => core [] s' /\ vacant s'.1 /\ grown (Term + Kill) s s')
    (fun e s' => e <> None /\ manager_inv s' /\ grown (Term + Kill) s s') s.
Proof.
  intros Hc Hok Hf Hp. unfold shutdown_active. destruct s as [m w]. apply wp_bind, wp_set, wp_bind.
  eapply wp_record; [by apply (core_set _ (set_active None))|]. intros s1 ev1 Hc1 Hg1 Hm1. simpl in *.
  eapply wp_reap; [exact Hc1|apply Hok|..].
  - intros s2 ev2 Hc2 Hg2 Hm2. split; [done|]. split; [by rewrite Hm2, Hm1|].
    eapply (grown_trans _ 0 (Term + Kill)); [exact Hg1|exact Hg2|lia].
  - intros e s2 ev2 Hc2 Hg2 Hm2. split; [done|].
    split; [by eapply requarantined_inv; [| | | |rewrite Hm2, Hm1]|].
    eapply (grown_trans _ 0 (Term + Kill)); [exact Hg1|exact Hg2|lia].
Qed.

(** The last assignment of a shutdown. *)
Lemma wp_stop s s2 k (R : option ServiceManagerError -> St -> Prop) :
  core [] s2 -> vacant s2.1 -> grown k s s2 -> k <= Term + Kill + Kill ->
  wp (self_set (set_state Stopped))
    (fun _ s' => manager_inv s' /\ grown (Term + Kill + Kill) s s' /\ state s'.1 = Stopped) R s2.
Proof.
  intros Hc2 (Ha2 & Hf2 & Hp2) Hg2 Hk. destruct s2 as [m2 w2]. apply wp_set. simpl in *.
  split; [|split; [by eapply grown_world|done]].
  split; [unfold owners; simpl; rewrite Ha2, Hf2; by apply (core_set _ (set_state _))|].
  split; [simpl; by rewrite Ha2|]. split; [simpl; by rewrite Hf2|]. done.
Qed.
Lemma grown_pending k k' m w s' : grown k (set_pending None m, w) s' -> k <= k' -> grown k' (m, w) s'.
Proof. intros [? (ext & ? & ?)] ?. split; [done|]. exists ext. split; [done|lia]. Qed.
Lemma shutdown_keeps s :
  manager_inv s ->
  wp shutdown (fun _ s' => manager_inv s' /\ grown (Term + Kill + Kill) s s' /\ state s'.1 = Stopped)
    (fun e s' => e <> None /\ manager_inv s' /\ grown (Term + Kill + Kill) s s') s.
Proof.
  intros [Hc (Hh & Hf & Hst)]. unfold shutdown. apply wp_bind, wp_get. case_bool_decide as Hs.
  { apply wp_ret. split; [by split|]. split; [apply grown_refl|done]. }
  destruct s as [m w]. simpl in *. apply wp_bind, wp_set, wp_bind, wp_get, wp_bind.
  assert (active m = None \/ failed_spawn_cleanup m = None) as Hone by (destruct (state m); naive_solver).
  assert (core (owners m) (set_pending None m, w)) as Hc1 by (by apply (core_set _ (set_pending None))).
  unfold owners in Hc1. cbn [fst]. change (failed_spawn_cleanup (set_pending None m)) with (failed_spawn_cleanup m).
  destruct (failed_spawn_cleanup m) as [o|] eqn:Hfo.
  - destruct Hone as [Ha|]; [|done]. rewrite Ha in Hc1.
    eapply wp_mono; [apply wp_shutdown_failed; [done|by apply Hf|done|done]| |].
    + intros [] s2 (Hc2 & (Ha2 & Hf2 & Hp2) & Hg2). apply wp_bind, wp_get. rewrite Ha2. apply wp_bind, wp_ret.
      eapply wp_stop; [done|done|by apply (grown_pending _ Kill) in Hg2|lia].
    + intros e s2 (? & ? & Hg2). split; [done|]. split; [done|]. eapply grown_pending; [exact Hg2|lia].
  - apply wp_ret. apply wp_bind, wp_get. cbn [fst]. change (active (set_pending None m)) with (active m).
    destruct (active m) as [h|] eqn:Hah; apply wp_bind.
    + eapply wp_mono; [apply wp_shutdown_active; [done|by apply Hh|done|done]| |].
      * intros [] s2 (Hc2 & Hv2 & Hg2). eapply wp_stop; [done|done|by apply (grown_pending _ (Term + Kill)) in Hg2|lia].
      * intros e s2 (? & ? & Hg2). split; [done|]. split; [done|]. eapply grown_pending; [exact Hg2|lia].
    + apply wp_ret. eapply wp_stop; [done|by split|eapply grown_world; [apply (grown_refl 0 (m, w))|apply (N.le_refl 0)]|lia].
Qed.

(** ** Runs *)

Inductive ManagerCall := CallPoll | CallShutdown.
Definition manager_call (call : ManagerCall) : Do unit :=
  match call with CallPoll => _ ← poll; mret tt | CallShutdown => shutdown end.
(** The calls of the program around the manager, one after the other. *)
Fixpoint manager_run (s : St) (calls : list ManagerCall) : St :=
  match calls with [] => s | call :: calls => manager_run (manager_call call s).1 calls end.

Lemma manager_call_keeps call s : manager_inv s -> keeps (Term + Kill + Kill) (manager_call call) s.
Proof.
  intros Hi. destruct call.
  - apply (keeps_ret (Term + Kill)); [by apply poll_keeps|lia|]. by eexists.
  - eapply wp_mono; [by apply shutdown_keeps| |done]. intros _ s' (? & ? & ?). done.
Qed.
Lemma manager_run_inv calls s : manager_inv s -> manager_inv (manager_run s calls).
Proof.
  revert s; induction calls as [|call calls IH]; intros s Hi; [done|]. simpl. apply IH.
  pose proof (manager_call_keeps call s Hi) as Hk. unfold keeps, wp in Hk.
  destruct (manager_call call s) as [s' [a|e|]]; naive_solver.
Qed.
Lemma manager_new_core executable now w t :
  core [] (manager_new executable p now, (w, [SawNow t])).
Proof.
  assert (forall l1 r o l2, [SawNow t] <> l1 ++ SawSpawn r o :: l2) as Hnone.
  { intros [|e [|e' l1]] r o l2 He; discriminate He. }
  split; try done; simpl.
  - apply N.le_0_l.
  - intros l1 r c l2 He. by apply Hnone in He.
  - intros l1 r o l2 r' c l3 He. by apply Hnone in He.
  - exists [], []. split; [done|]. split; [done|]. split; [by intros ? ?%not_elem_of_nil|].
    intros pre t' mid t0 post He. by destruct pre.
Qed.
Lemma try_start_inv executable w s :
  try_start executable p (w, []) = (s, Ok tt) -> manager_inv s.
Proof.
  unfold try_start, os_now at 1, logged_os, logged. destruct (os_now w) as [w1 now] eqn:E. intros Hr.
  refine (proj1 (wp_run _ _ _ _ _ _ (wp_spawn now _ (manager_new_core executable now w1 now) _ _) Hr)); [|done].
  intros r o. exists [], []. split; [done|]. split; [done|]. split; [by intros ? ?%not_elem_of_nil|].
  apply spaced_nil.
Qed.

Lemma manager_inv_spaced s : manager_inv s -> restarts_spaced (removelast (spawn_times (log s))).
Proof. intros [[_ _ _ _ _ (A & old & Hsub & _ & _ & Hsp)] _]. by eapply spaced_sublist. Qed.
Lemma manager_inv_evidence s : manager_inv s -> len (evidence s.1) <= evidence_capacity p.
Proof. by intros [[] _]. Qed.
End steps.

(** A policy as the constructors make it. *)
Definition policy_valid (p : RuntimeHostServiceManagerPolicy) : Prop :=
  exists t r, termination_timing_try_new (term_grace (termination p)) (kill_grace (termination p)) (poll_interval (termination p)) = Ok t /\
    restart_policy_try_new (window (restart p)) (maximum_restarts (restart p)) (initial_backoff (restart p))
      (maximum_backoff (restart p)) (maximum_jitter (restart p)) = Ok r /\
    manager_policy_try_new (watchdog p) (termination p) (restart p) (evidence_capacity p) = Ok p.
Lemma policy_valid_positive p :
  policy_valid p -> 0 < poll_interval (termination p) /\ 0 < evidence_capacity p.
Proof.
  intros (t & r & Ht & _ & Hm). unfold termination_timing_try_new, manager_policy_try_new in *.
  apply bind_Ok in Ht as (_ & Ht%fail_if_Ok & _). apply bind_Ok in Hm as (_ & Hm%fail_if_Ok & _).
  repeat rust_step. unfold MIN_TIMING, from_millis, MIN_EVIDENCE_CAPACITY in *. lia.
Qed.

(** C16: on any system with a monotonic clock, whatever its calls return and
    however often the manager is polled or shut down, the system never sees
    more than [maximum_restarts] replacement spawns within one restart
    window: two spawn calls (the initial one apart) that are
    [maximum_restarts] apart lie more than a window apart. *)
Theorem restart_budget_respected p executable w s0 calls pre t' mid t post :
  policy_valid p ->
  try_start executable p (w, []) = (s0, Ok tt) ->
  removelast (spawn_times (log (manager_run s0 calls))) = pre ++ t' :: mid ++ t :: post ->
  maximum_restarts (restart p) <= N.of_nat (length mid) + 1 ->
  (Z.of_N (window (restart p)) < t' - t)%Z.
Proof.
  intros [Hpoll Hcap]%policy_valid_positive Hs Hl Hlen.
  apply (try_start_inv p Hpoll) in Hs; [|done]. apply (manager_run_inv p Hpoll Hcap calls) in Hs.
  assert (restarts_spaced p (removelast (spawn_times (log (manager_run s0 calls))))) as Hsp by (by eapply manager_inv_spaced).
  by eapply Hsp.
Qed.

(** C11: over any such run the manager owns at most one RuntimeHost: between
    two spawn calls the leader of the earlier child was waited for and its
    process group then observed absent, the children carry generations
    counted down from the manager's without reuse, and once the manager is
    stopped every child it ever started was cleaned so. *)
Theorem one_host_at_a_time p executable w s0 calls s :
  policy_valid p ->
  try_start executable p (w, []) = (s0, Ok tt) ->
  s = manager_run s0 calls ->
  separated (log s) /\
  spawned_generations (log s) = countdown (N.to_nat (generation s.1)) /\
  (state s.1 = Stopped -> settled (log s) []).
Proof.
  intros [Hpoll Hcap]%policy_valid_positive Hs ->.
  apply (try_start_inv p Hpoll) in Hs; [|done]. apply (manager_run_inv p Hpoll Hcap calls) in Hs as [[] (_ & _ & Hst)].
  split; [done|]. split; [done|]. intros Hstop. rewrite Hstop in Hst. destruct Hst as (Ha & Hf & _).
  unfold owners in core_settled0. by rewrite Ha, Hf in core_settled0.
Qed.

(** C31: on a system whose sleep lasts at least as long as asked, every poll
    and every shutdown returns, without panicking, and sleeps no longer than
    the configured termination and kill graces; the evidence ring stays
    within its capacity. *)
Theorem manager_calls_bounded p executable w s0 calls call s' r :
  policy_valid p ->
  try_start executable p (w, []) = (s0, Ok tt) ->
  manager_call call (manager_run s0 calls) = (s', r) ->
  r <> Panic /\
  (exists ext, log s' = ext ++ log (manager_run s0 calls) /\
     slept ext <= term_grace (termination p) + kill_grace (termination p) + kill_grace (termination p)) /\
  len (evidence s'.1) <= evidence_capacity p.
Proof.
  intros [Hpoll Hcap]%policy_valid_positive Hs Hr.
  apply (try_start_inv p Hpoll) in Hs; [|done]. apply (manager_run_inv p Hpoll Hcap calls) in Hs.
  pose proof (wp_run _ _ _ _ _ _ (manager_call_keeps p Hpoll Hcap call _ Hs) Hr) as Hw.
  destruct r as [a|e|]; [| |by destruct Hw as [? _]].
  - destruct Hw as [Hi [_ Hg]]. split; [done|]. split; [done|]. by eapply manager_inv_evidence.
  - destruct Hw as (_ & Hi & _ & Hg). split; [done|]. split; [done|]. by eapply manager_inv_evidence.
Qed.
End logged.

(** ** Witnesses *)

(** A system whose clock advances with every reading, and whose children
    never speak and die at the first signal. *)
Record Sim := MkSim { sim_clock : Z; sim_alive : bool; sim_next : N }.
Definition sim_kill (w : Sim) : Sim := MkSim (sim_clock w) false (sim_next w).
#[export] Instance sim_os : Os Sim N := {
  instant_min := (- 2 ^ 62)%Z;
  instant_max := (2 ^ 62)%Z;
  os_now w := let t := (sim_clock w + 100000000)%Z in (MkSim t (sim_alive w) (sim_next w), t);
  os_sleep d w := MkSim (sim_clock w + Z.of_N d) (sim_alive w) (sim_next w);
  os_spawn r w := (MkSim (sim_clock w) true (sim_next w + 1), Some (sim_next w));
  os_child_id c := c;
  os_has_stdin c := true;
  os_has_stdout c := true;
  os_getfl c w := (w, inr 0);
  os_setfl c f w := (w, inr tt);
  os_truncate_flags f := f;
  os_nonblock := 2048;
  os_try_wait c w := (w, Some (negb (sim_alive w)));
  os_kill c w := sim_kill w;
  os_killpg g s w :=
    match s with
    | None => (w, if sim_alive w then inr tt else inl ESRCH)
    | Some _ => (sim_kill w, inr tt)
    end;
  os_read c n w := (w, inl WouldBlock);
  os_write_all c b w := (w, true);
  os_flush c w := (w, true);
}.
#[export] Instance sim_laws : OsLaws Sim N.
Proof.
  refine {| clock := sim_clock |}; try (intros; simpl; lia); intros; try by destruct s. done.
Defined.

Definition sim_policy : RuntimeHostServiceManagerPolicy :=
  MkServiceManagerPolicy
    (MkHostWatchdogTiming (from_millis 100) (from_millis 300) (from_millis 500) (from_millis 200)
       (from_millis 250) (from_millis 500) (from_millis 400))
    (MkHostTerminationTiming (from_millis 100) (from_millis 100) (from_millis 20))
    (MkHostRestartPolicy (from_millis 400) 1 (from_millis 10) (from_millis 50) (from_millis 5))
    16.
Definition sim_world : Sim := MkSim 0 false 100.
Definition sim_start : RuntimeHostServiceManager * (Sim * list (OsEvent N)) :=
  (try_start (H := logged_os) [x61] sim_policy (sim_world, [])).1.
Abbreviation sim_run calls := (manager_run sim_start calls).


Lemma sim_policy_valid : policy_valid sim_policy.
Proof. by do 2 eexists. Qed.
Lemma sim_started : try_start (H := logged_os) [x61] sim_policy (sim_world, []) = (sim_start, Ok tt).
Proof. by vm_compute. Qed.

Lemma restart_budget_respected_witness :
  removelast (spawn_times (log (sim_run (replicate 4 CallPoll)))) = [2100000000; 1100000000]%Z /\
  (Z.of_N (window (restart sim_policy)) < 2100000000 - 1100000000)%Z.
Proof.
  split; [by vm_compute|].
  apply (restart_budget_respected sim_policy [x61] sim_world sim_start (replicate 4 CallPoll)
    [] 2100000000%Z [] 1100000000%Z [] sim_policy_valid sim_started); by vm_compute.
Defined.
Lemma one_host_at_a_time_witness :
  exists s, s = sim_run (replicate 4 CallPoll ++ [CallShutdown]) /\
    state s.1 = Stopped /\ spawned_generations (log s) = [3; 2; 1] /\ separated (log s) /\ settled (log s) [].
Proof.
  eexists. split; [reflexivity|].
  assert (state (sim_run (replicate 4 CallPoll ++ [CallShutdown])).1 = Stopped) as Hs by (by vm_compute).
  assert (spawned_generations (log (sim_run (replicate 4 CallPoll ++ [CallShutdown]))) = [3; 2; 1]) as Hg by (by vm_compute).
  split; [exact Hs|]. split; [exact Hg|].
  destruct (one_host_at_a_time sim_policy [x61] sim_world sim_start
    (replicate 4 CallPoll ++ [CallShutdown]) _ sim_policy_valid sim_started eq_refl) as (Hsep & _ & Hset).
  split; [exact Hsep|exact (Hset Hs)].
Defined.
Lemma manager_calls_bounded_witness :
  exists ext, log (manager_call CallPoll (sim_run (replicate 4 CallPoll))).1 = ext ++ log (sim_run (replicate 4 CallPoll)) /\
    slept ext <= 300000000.
Proof.
  apply (manager_calls_bounded sim_policy [x61] sim_world sim_start (replicate 4 CallPoll) CallPoll _ _
    sim_policy_valid sim_started (surjective_pairing _)).
Defined.
