(* ===== verification/RuntimeOwnership.v ===== *)
(** * Runtime ownership snapshots (crates/paraegox-runtime/src/runtime_ownership.rs)

    Immutable observations of the process generations a RuntimeHost owns, the
    admission fence that turns a snapshot into a process-loss observation, and
    the chain of authorities from that loss to an exact-zero cleanup proof. *)

From S2P Require Import Prelude Bytes Slices SortKeys KernelDigest ApplyContracts Assignment AssignmentWire CardInstance Liveness.
Open Scope rust_scope.

(** ** Observations *)

Inductive SideEffectClass := EffectFree | External | UnknownEffect.
#[export] Instance SideEffectClass_eq_dec : EqDecision SideEffectClass.
Proof. solve_decision. Defined.

Definition MAX_PROCESS_DOMAINS : N := 64.
Definition MAX_OBSERVED_INVOCATIONS : N := MAX_TARGET_ASSIGNMENTS * 64.

Inductive ProcessOwnershipLifecycle :=
| OwnershipStarting | OwnershipLive | OwnershipClosing | OwnershipQuarantined.
#[export] Instance ProcessOwnershipLifecycle_eq_dec : EqDecision ProcessOwnershipLifecycle.
Proof. solve_decision. Defined.

Inductive ProcessInvocationOwnershipStage :=
| StateAdmitted | HandoffStarted | StageStarted | CancellationRequested | TerminalDelivered | Uncertain.
#[export] Instance ProcessInvocationOwnershipStage_eq_dec : EqDecision ProcessInvocationOwnershipStage.
Proof. solve_decision. Defined.

Definition crossed_handoff (self : ProcessInvocationOwnershipStage) : bool :=
  match self with StateAdmitted | TerminalDelivered => false | _ => true end.
Definition requires_loss_classification (self : ProcessInvocationOwnershipStage) : bool :=
  crossed_handoff self.

Record ProcessInvocationOwnership := MkProcessInvocationOwnership {
  owned_invocation : InvocationId;
  owned_stage : ProcessInvocationOwnershipStage;
  owned_side_effect : SideEffectClass;
  ipc_credit_held : bool;
  owned_retained_bytes : N;
}.

Record ProcessInstanceOwnership := MkProcessInstanceOwnership {
  owned_instance : InstanceRef;
  owned_generation : InstanceGeneration;
  owned_invocations : list ProcessInvocationOwnership;
}.

Record ProcessOwnershipLimits := MkProcessOwnershipLimits {
  limit_outstanding : N;
  limit_ipc_credit_items : N;
  limit_retained_bytes : N;
  limit_process_tree_members : N;
}.

Record ProcessDomainOwnership := MkProcessDomainOwnership {
  ownership_identity : ProcessGenerationIdentity;
  ownership_lifecycle : ProcessOwnershipLifecycle;
  process_tree_members : N;
  ownership_instances : list ProcessInstanceOwnership;
  ownership_outstanding : N;
  held_ipc_credits : N;
  ownership_retained_bytes : N;
}.

Inductive RuntimeOwnershipError :=
| DomainCapacityExceeded
| InstanceCapacityExceeded
| InvocationCapacityExceeded
| ProcessTreeCapacityExceeded
| RetainedByteCapacityExceeded
| DuplicateDomain
| DuplicateInstance
| DuplicateInvocation
| HostIdentityMismatch
| AdmissionFenceIdentityMismatch
| LossSnapshotNotFenced
| CleanupLineageMismatch
| CleanupOwnershipNotSettled
| CleanupInvocationMismatch
| OwnershipCounterOverflow
| CleanupNotExactZero.

#[export] Instance InvocationId_ord_key : OrdKey InvocationId.
Proof. refine {| key_leb a b := (invocation_value a <=? invocation_value b)%N |}; intros *; rewrite ?N.leb_le; lia. Defined.
#[export] Instance InstanceRef_ord_key : OrdKey InstanceRef.
Proof.
  refine {| key_leb a b := key_leb (instance_ref_bytes a) (instance_ref_bytes b) |}; intros *;
    [apply key_leb_total|apply key_leb_trans].
Defined.
#[export] Instance ProcessDomainRef_ord_key : OrdKey ProcessDomainRef.
Proof.
  refine {| key_leb a b := key_leb (process_domain_bytes a) (process_domain_bytes b) |}; intros *;
    [apply key_leb_total|apply key_leb_trans].
Defined.

Definition instance_ownership_try_new (instance : InstanceRef) (generation : InstanceGeneration)
    (invocations : list ProcessInvocationOwnership)
    : result RuntimeOwnershipError ProcessInstanceOwnership :=
  bail InvocationCapacityExceeded when (MAX_OBSERVED_INVOCATIONS <? len invocations)%N;
  let invocations := sort_by_key owned_invocation invocations in
  bail DuplicateInvocation when adjacent_duplicate owned_invocation invocations;
  Ok {| owned_instance := instance; owned_generation := generation; owned_invocations := invocations |}.

(** The loop of [ProcessDomainOwnership::try_new] over all invocations:
    outstanding, held credits and retained bytes. *)
Definition count_invocation (acc : N * N * N) (invocation : ProcessInvocationOwnership)
    : result RuntimeOwnershipError (N * N * N) :=
  let '(outstanding, held, retained) := acc in
  outstanding ← ok_or (checked_add u32_max outstanding 1) OwnershipCounterOverflow;
  held ← (if ipc_credit_held invocation
          then ok_or (checked_add u32_max held 1) OwnershipCounterOverflow else Ok held);
  retained ← ok_or (checked_add u64_max retained (owned_retained_bytes invocation)) OwnershipCounterOverflow;
  Ok (outstanding, held, retained).

Definition domain_ownership_try_new (identity : ProcessGenerationIdentity)
    (lifecycle : ProcessOwnershipLifecycle) (members : N) (limits : ProcessOwnershipLimits)
    (instances : list ProcessInstanceOwnership) : result RuntimeOwnershipError ProcessDomainOwnership :=
  bail InstanceCapacityExceeded
    when bool_decide (instances = []) || (MAX_TARGET_ASSIGNMENTS <? len instances)%N;
  bail ProcessTreeCapacityExceeded when (limit_process_tree_members limits <? members)%N;
  let instances := sort_by_key owned_instance instances in
  bail DuplicateInstance when adjacent_duplicate owned_instance instances;
  counts ← try_fold count_invocation (0%N, 0%N, 0%N) (concat (map owned_invocations instances));
  let '(outstanding, held, retained) := counts in
  bail InvocationCapacityExceeded
    when (limit_outstanding limits <? outstanding)%N || (limit_ipc_credit_items limits <? held)%N;
  bail RetainedByteCapacityExceeded when (limit_retained_bytes limits <? retained)%N;
  Ok {| ownership_identity := identity;
        ownership_lifecycle := lifecycle;
        process_tree_members := members;
        ownership_instances := instances;
        ownership_outstanding := outstanding;
        held_ipc_credits := held;
        ownership_retained_bytes := retained |}.

(** ** Fence and loss *)

Record ProcessAdmissionGate := MkProcessAdmissionGate { gate_identity : ProcessGenerationIdentity }.
Record ProcessAdmissionFence := MkProcessAdmissionFence { admission_fence_identity : ProcessGenerationIdentity }.
Definition gate_fence (self : ProcessAdmissionGate) : ProcessAdmissionFence :=
  MkProcessAdmissionFence (gate_identity self).

Record ProcessInvocationLoss := MkProcessInvocationLoss {
  loss_instance : InstanceRef;
  loss_generation : InstanceGeneration;
  loss_invocation : InvocationId;
  loss_side_effect : SideEffectClass;
}.
#[export] Instance ProcessInvocationLoss_eq_dec : EqDecision ProcessInvocationLoss.
Proof. solve_decision. Defined.

Record ProcessLossLineage := MkProcessLossLineage {
  lineage_identity : ProcessGenerationIdentity;
  snapshot_process_tree_members : N;
  snapshot_outstanding : N;
  snapshot_held_ipc_credits : N;
  snapshot_retained_bytes : N;
  crossed_handoffs : N;
  classified_handoffs : N;
  lineage_external_effect_uncertain : bool;
}.
#[export] Instance ProcessLossLineage_eq_dec : EqDecision ProcessLossLineage.
Proof. solve_decision. Defined.

Definition lineage_unsettled_handoffs (self : ProcessLossLineage) : N :=
  saturating_sub (crossed_handoffs self) (classified_handoffs self).

Record ProcessLossObservation := MkProcessLossObservation {
  observation_lineage : ProcessLossLineage;
  observation_expected : bool;
  uncertain_invocations : list ProcessInvocationLoss;
}.
Definition observation_identity (self : ProcessLossObservation) : ProcessGenerationIdentity :=
  lineage_identity (observation_lineage self).
Definition all_crossed_handoffs_settled (self : ProcessLossObservation) : bool :=
  (lineage_unsettled_handoffs (observation_lineage self) =? 0)%N.

Record ProcessCleanupAuthority := MkProcessCleanupAuthority {
  authority_lineage : ProcessLossLineage;
  authority_invocations : list ProcessInvocationLoss;
}.
Record ProcessLossBundle := MkProcessLossBundle {
  bundle_observation : ProcessLossObservation;
  bundle_cleanup_authority : ProcessCleanupAuthority;
}.

Definition invocation_loss (instance : ProcessInstanceOwnership) (invocation : ProcessInvocationOwnership)
    : ProcessInvocationLoss :=
  {| loss_instance := owned_instance instance;
     loss_generation := owned_generation instance;
     loss_invocation := owned_invocation invocation;
     loss_side_effect := owned_side_effect invocation |}.

(** The nested loops that classify every crossed invocation. *)
Definition classify_losses (instances : list ProcessInstanceOwnership) : list ProcessInvocationLoss :=
  concat (map (fun instance =>
    map (invocation_loss instance)
      (base.filter (fun i => requires_loss_classification (owned_stage i) = true) (owned_invocations instance)))
    instances).

Definition fenced_lifecycle (lifecycle : ProcessOwnershipLifecycle) : bool :=
  match lifecycle with OwnershipClosing | OwnershipQuarantined => true | _ => false end.

Definition observe_process_loss (self : ProcessAdmissionFence) (expected : bool)
    (ownership : ProcessDomainOwnership) : result RuntimeOwnershipError ProcessLossBundle :=
  bail AdmissionFenceIdentityMismatch
    when bool_decide (ownership_identity ownership <> admission_fence_identity self);
  bail LossSnapshotNotFenced when negb (fenced_lifecycle (ownership_lifecycle ownership));
  let losses := classify_losses (ownership_instances ownership) in
  crossed ← ok_or (try_from u32_max (len losses)) OwnershipCounterOverflow;
  let lineage :=
    {| lineage_identity := admission_fence_identity self;
       snapshot_process_tree_members := process_tree_members ownership;
       snapshot_outstanding := ownership_outstanding ownership;
       snapshot_held_ipc_credits := held_ipc_credits ownership;
       snapshot_retained_bytes := ownership_retained_bytes ownership;
       crossed_handoffs := crossed;
       classified_handoffs := crossed;
       lineage_external_effect_uncertain :=
         existsb (fun loss => bool_decide (loss_side_effect loss <> EffectFree)) losses |} in
  Ok {| bundle_observation :=
          {| observation_lineage := lineage; observation_expected := expected;
             uncertain_invocations := losses |};
        bundle_cleanup_authority :=
          {| authority_lineage := lineage; authority_invocations := losses |} |}.

(** ** The ownership tree *)

Record RuntimeOwnershipTree := MkRuntimeOwnershipTree {
  tree_runtime_host : RuntimeHostId;
  tree_runtime_host_epoch : RuntimeHostEpoch;
  tree_domains : list ProcessDomainOwnership;
}.

Definition domain_key (domain : ProcessDomainOwnership) : ProcessDomainRef :=
  process_domain (ownership_identity domain).

Definition ownership_tree_try_new (runtime_host : RuntimeHostId) (runtime_host_epoch : RuntimeHostEpoch)
    (domains : list ProcessDomainOwnership) : result RuntimeOwnershipError RuntimeOwnershipTree :=
  bail DomainCapacityExceeded when (MAX_PROCESS_DOMAINS <? len domains)%N;
  bail HostIdentityMismatch
    when existsb (fun domain =>
           bool_decide (process_runtime_host (ownership_identity domain) <> runtime_host)
           || bool_decide (process_runtime_host_epoch (ownership_identity domain) <> runtime_host_epoch))
           domains;
  let domains := sort_by_key domain_key domains in
  bail DuplicateDomain when adjacent_duplicate domain_key domains;
  instance_count ← try_fold (fun count domain =>
    ok_or (checked_add u64_max count (len (ownership_instances domain))) OwnershipCounterOverflow) 0%N domains;
  bail InstanceCapacityExceeded when (MAX_TARGET_ASSIGNMENTS <? instance_count)%N;
  invocation_count ← try_fold (fun count domain =>
    outstanding ← ok_or (try_from u64_max (ownership_outstanding domain)) OwnershipCounterOverflow;
    ok_or (checked_add u64_max count outstanding) OwnershipCounterOverflow) 0%N domains;
  bail InvocationCapacityExceeded when (MAX_OBSERVED_INVOCATIONS <? invocation_count)%N;
  Ok {| tree_runtime_host := runtime_host;
        tree_runtime_host_epoch := runtime_host_epoch;
        tree_domains := domains |}.

Definition compare_domain (reference : ProcessDomainRef) (domain : ProcessDomainOwnership) : comparison :=
  compare_bytes (vec_to_list (process_domain_bytes (domain_key domain)))
    (vec_to_list (process_domain_bytes reference)).

Definition tree_domain (self : RuntimeOwnershipTree) (reference : ProcessDomainRef)
    : option ProcessDomainOwnership :=
  match binary_search_by (compare_domain reference) (tree_domains self) with
  | inl index => tree_domains self !! index
  | inr _ => None
  end.

(** ** Cleanup *)

Record ProcessCleanupCensus := MkProcessCleanupCensus {
  leader_reaped : bool;
  live_process_tree_members : N;
  open_ipc_handles : N;
  outstanding_ipc_credits : N;
  census_retained_bytes : N;
  workspace_entries : N;
  registered_resources : N;
}.
#[export] Instance ProcessCleanupCensus_eq_dec : EqDecision ProcessCleanupCensus.
Proof. solve_decision. Defined.

Definition is_exact_zero (self : ProcessCleanupCensus) : bool :=
  leader_reaped self
  && (live_process_tree_members self =? 0)%N
  && (open_ipc_handles self =? 0)%N
  && (outstanding_ipc_credits self =? 0)%N
  && (census_retained_bytes self =? 0)%N
  && (workspace_entries self =? 0)%N
  && (registered_resources self =? 0)%N.

Record ProcessCleanupReadyAuthority := MkProcessCleanupReadyAuthority {
  ready_lineage : ProcessLossLineage;
}.
Record ProcessCleanupProof := MkProcessCleanupProof {
  proof_lineage : ProcessLossLineage;
  proof_census : ProcessCleanupCensus;
}.
Definition proof_identity (self : ProcessCleanupProof) : ProcessGenerationIdentity :=
  lineage_identity (proof_lineage self).

(** One turn of the inner loop of [validate_reconcile]. *)
Definition settle_invocation (instance : ProcessInstanceOwnership) (settled : list ProcessInvocationLoss)
    (invocation : ProcessInvocationOwnership) : result RuntimeOwnershipError (list ProcessInvocationLoss) :=
  bail CleanupOwnershipNotSettled
    when bool_decide (owned_stage invocation <> Uncertain)
      || ipc_credit_held invocation
      || negb (owned_retained_bytes invocation =? 0)%N;
  Ok (settled ++ [invocation_loss instance invocation]).

Definition validate_reconcile (self : ProcessCleanupAuthority) (ownership : ProcessDomainOwnership)
    : result RuntimeOwnershipError unit :=
  bail CleanupLineageMismatch
    when bool_decide (ownership_identity ownership <> lineage_identity (authority_lineage self));
  bail CleanupOwnershipNotSettled
    when negb (fenced_lifecycle (ownership_lifecycle ownership))
      || negb (process_tree_members ownership =? 0)%N;
  settled ← try_fold (fun settled instance =>
    try_fold (settle_invocation instance) settled (owned_invocations instance)) []
    (ownership_instances ownership);
  bail CleanupInvocationMismatch when bool_decide (settled <> authority_invocations self);
  Ok tt.

Definition reconcile (self : ProcessCleanupAuthority) (ownership : ProcessDomainOwnership)
    : result RuntimeOwnershipError ProcessCleanupReadyAuthority :=
  _ ← validate_reconcile self ownership;
  Ok {| ready_lineage := authority_lineage self |}.

Definition try_prove (self : ProcessCleanupReadyAuthority) (census : ProcessCleanupCensus)
    : result RuntimeOwnershipError ProcessCleanupProof :=
  bail CleanupNotExactZero when negb (is_exact_zero census);
  Ok {| proof_lineage := ready_lineage self; proof_census := census |}.

(** ** What the snapshots contain *)

#[export] Instance InvocationId_antisym : AntisymKey InvocationId.
Proof. intros [a] [b]. simpl. rewrite !N.leb_le. intros ??. f_equal. lia. Qed.
#[export] Instance InstanceRef_antisym : AntisymKey InstanceRef.
Proof. intros [a] [b]. simpl. intros ??. f_equal. by apply vec_to_list_inj2, bytes_leb_antisym. Qed.
#[export] Instance ProcessDomainRef_antisym : AntisymKey ProcessDomainRef.
Proof. intros [a] [b]. simpl. intros ??. f_equal. by apply vec_to_list_inj2, bytes_leb_antisym. Qed.

(** All invocations of a snapshot, and what they hold. *)
Definition all_invocations (instances : list ProcessInstanceOwnership) : list ProcessInvocationOwnership :=
  concat (map owned_invocations instances).
Definition credits_of (invocations : list ProcessInvocationOwnership) : N :=
  len (base.filter (fun i => ipc_credit_held i = true) invocations).
Definition bytes_of (invocations : list ProcessInvocationOwnership) : N :=
  sum_N (map owned_retained_bytes invocations).

#[local] Instance all_invocations_Permutation : Proper (Permutation ==> Permutation) all_invocations.
Proof. intros l k H. unfold all_invocations. by rewrite H. Qed.
#[local] Instance credits_of_Permutation : Proper (Permutation ==> eq) credits_of.
Proof. intros l k H. unfold credits_of. by rewrite H. Qed.
#[local] Instance bytes_of_Permutation : Proper (Permutation ==> eq) bytes_of.
Proof. intros l k H. unfold bytes_of. by rewrite H. Qed.
Lemma credits_of_le l : (credits_of l <= len l)%N.
Proof. unfold credits_of, len. pose proof (length_filter (fun i => ipc_credit_held i = true) l). lia. Qed.

(** The counting loop sums, or overflows. *)
Lemma count_spec l a b c r :
  (b <= a <= u32_max)%N -> (c <= u64_max)%N ->
  try_fold count_invocation (a, b, c) l = Ok r <->
  r = (a + len l, b + credits_of l, c + bytes_of l)%N /\
  (a + len l <= u32_max)%N /\ (c + bytes_of l <= u64_max)%N.
Proof.
  revert a b c; induction l as [|i l IH]; intros a b c Ha Hc.
  { unfold credits_of, bytes_of, len. simpl. rewrite !N.add_0_r. naive_solver. }
  cbn [try_fold]. unfold count_invocation at 2. cbn iota beta.
  assert (credits_of (i :: l) = (if ipc_credit_held i then 1 else 0) + credits_of l)%N as ->.
  { unfold credits_of. rewrite filter_cons. case_decide as Hi; [rewrite Hi, len_cons; lia|].
    destruct (ipc_credit_held i); [done|lia]. }
  change (bytes_of (i :: l)) with (owned_retained_bytes i + bytes_of l)%N. rewrite len_cons.
  destruct (checked_add u32_max a 1) as [a'|] eqn:Ha'; simpl.
  2:{ apply checked_add_None in Ha'. split; [discriminate|intros (_ & ? & ?); lia]. }
  apply checked_add_Some in Ha' as [-> Ha'].
  assert ((if ipc_credit_held i
          then ok_or (checked_add u32_max b 1) OwnershipCounterOverflow else Ok b) =
          Ok (b + (if ipc_credit_held i then 1 else 0))%N) as ->.
  { destruct (ipc_credit_held i); [by rewrite checked_add_ok by lia|]. f_equal. lia. }
  cbn [mbind result_mbind].
  destruct (checked_add u64_max c (owned_retained_bytes i)) as [c'|] eqn:Hc'; simpl.
  2:{ apply checked_add_None in Hc'. split; [discriminate|intros (_ & ? & ?); lia]. }
  apply checked_add_Some in Hc' as [-> Hc'].
  rewrite IH by (destruct (ipc_credit_held i); lia).
  split; intros (-> & H1 & H2); (split; [f_equal; [f_equal|]; lia|lia]).
Qed.

Record limits_wf (limits : ProcessOwnershipLimits) : Prop := {
  limits_outstanding_u32 : (limit_outstanding limits <= u32_max)%N;
  limits_bytes_u64 : (limit_retained_bytes limits <= u64_max)%N;
}.

(** A snapshot of a domain is accepted exactly when it has between one
    and 256 instances, all different, and its process tree, its outstanding
    invocations, their IPC credits and their retained bytes are within the
    planned limits; the accepted snapshot reports these totals exactly and
    lists the instances in order. *)
Theorem domain_snapshot_accepts_exactly identity lifecycle members limits instances o :
  limits_wf limits ->
  domain_ownership_try_new identity lifecycle members limits instances = Ok o <->
  (instances <> [] /\ (len instances <= MAX_TARGET_ASSIGNMENTS)%N /\
   (members <= limit_process_tree_members limits)%N /\
   NoDup (map owned_instance instances) /\
   (len (all_invocations instances) <= limit_outstanding limits)%N /\
   (credits_of (all_invocations instances) <= limit_ipc_credit_items limits)%N /\
   (bytes_of (all_invocations instances) <= limit_retained_bytes limits)%N) /\
  o = {| ownership_identity := identity;
         ownership_lifecycle := lifecycle;
         process_tree_members := members;
         ownership_instances := sort_by_key owned_instance instances;
         ownership_outstanding := len (all_invocations instances);
         held_ipc_credits := credits_of (all_invocations instances);
         ownership_retained_bytes := bytes_of (all_invocations instances) |}.
Proof.
  intros [Hlo Hlb]. unfold domain_ownership_try_new.
  pose proof (sort_by_key_Permutation owned_instance instances) as Hp.
  fold (all_invocations (sort_by_key owned_instance instances)).
  assert (all_invocations (sort_by_key owned_instance instances) ≡ₚ all_invocations instances) as Hi by by rewrite Hp.
  assert (forall r, try_fold count_invocation (0%N, 0%N, 0%N) (all_invocations (sort_by_key owned_instance instances)) = Ok r <->
    r = (len (all_invocations instances), credits_of (all_invocations instances), bytes_of (all_invocations instances)) /\
    (len (all_invocations instances) <= u32_max)%N /\ (bytes_of (all_invocations instances) <= u64_max)%N) as Hcount.
  { intros r. rewrite count_spec by done. rewrite !N.add_0_l.
    by rewrite Hi. }
  split.
  - intros H. rust_inv. match goal with H : try_fold _ _ _ = Ok _ |- _ => apply Hcount in H as (Hr & ? & ?) end.
    subst. rust_inv.
    match goal with H : adjacent_duplicate _ _ = false |- _ => apply (proj1 (unique_keys owned_instance instances)) in H end.
    split; [|done]. split_and!; try done; lia.
  - intros [(Hne & Hlen & Hm & Hnd & H1 & H2 & H3) ->].
    rewrite bool_decide_eq_false_2 by done.
    rewrite (proj2 (N.ltb_ge _ _)) by done. cbn [orb]. rewrite bind_pass.
    rewrite (proj2 (N.ltb_ge _ _)) by done. rewrite bind_pass.
    rewrite (proj2 (unique_keys owned_instance instances)) by done. rewrite bind_pass.
    rewrite (proj2 (Hcount _)) by (split; [done|split; lia]). rewrite bind_Ok_l. cbn iota beta.
    rewrite !(proj2 (N.ltb_ge _ _)) by done. by rewrite bind_pass.
Qed.

(** ** From a loss to a proof of cleanup *)

(** What is lost with a snapshot: the invocations that crossed the handoff. *)
Lemma elem_of_classify instances loss :
  loss ∈ classify_losses instances <->
  exists instance invocation, instance ∈ instances /\ invocation ∈ owned_invocations instance /\
    crossed_handoff (owned_stage invocation) = true /\ loss = invocation_loss instance invocation.
Proof.
  unfold classify_losses. rewrite list_elem_of_In, in_concat. setoid_rewrite <-list_elem_of_In.
  setoid_rewrite elem_of_map. split.
  - intros (k & (instance & -> & Hin) & (invocation & -> & [Hc Hi]%list_elem_of_filter)%elem_of_map).
    by exists instance, invocation.
  - intros (instance & invocation & Hin & Hi & Hc & ->). eexists. split; [by exists instance|].
    apply elem_of_map. exists invocation. split; [done|]. by apply list_elem_of_filter.
Qed.

Lemma classify_losses_le instances : (len (classify_losses instances) <= len (all_invocations instances))%N.
Proof.
  unfold classify_losses, all_invocations. induction instances as [|x l IH]; [done|].
  cbn [map concat]. rewrite !len_app. pose proof (length_filter
    (fun i => requires_loss_classification (owned_stage i) = true) (owned_invocations x)).
  assert (forall A B (f : A -> B) k, len (map f k) = len k) as -> by (intros; unfold len; by rewrite length_map).
  unfold len in *. lia.
Qed.
(** The uncertainty flag of a lineage. *)
Lemma external_exactly instances :
  existsb (fun loss => bool_decide (loss_side_effect loss <> EffectFree)) (classify_losses instances) = true <->
  exists instance invocation, instance ∈ instances /\ invocation ∈ owned_invocations instance /\
    crossed_handoff (owned_stage invocation) = true /\ owned_side_effect invocation <> EffectFree.
Proof.
  rewrite existsb_exists. setoid_rewrite <-list_elem_of_In. setoid_rewrite elem_of_classify.
  setoid_rewrite bool_decide_eq_true. split.
  - intros (? & (instance & invocation & ? & ? & ? & ->) & ?). by exists instance, invocation.
  - intros (instance & invocation & ? & ? & ? & ?). exists (invocation_loss instance invocation).
    split; [by exists instance, invocation|done].
Qed.
Lemma is_exact_zero_eq census :
  is_exact_zero census = true <-> census = MkProcessCleanupCensus true 0 0 0 0 0 0.
Proof.
  destruct census. unfold is_exact_zero. simpl. rewrite !andb_true_iff, !N.eqb_eq. split.
  - intros [[[[[[-> ->] ->] ->] ->] ->] ->]. done.
  - intros [= -> -> -> -> -> -> ->]. done.
Qed.

Definition settled_invocation (i : ProcessInvocationOwnership) : Prop :=
  owned_stage i = Uncertain /\ ipc_credit_held i = false /\ owned_retained_bytes i = 0%N.

Lemma settle_invocations_Ok instance l acc r :
  try_fold (settle_invocation instance) acc l = Ok r <->
  Forall settled_invocation l /\ r = acc ++ map (invocation_loss instance) l.
Proof.
  revert acc; induction l as [|i l IH]; intros acc.
  { simpl. rewrite app_nil_r. naive_solver. }
  cbn [try_fold map]. rewrite Forall_cons, bind_Ok. setoid_rewrite IH. clear IH.
  unfold settle_invocation, settled_invocation. split.
  - intros (k & Hk & Hl & ->). rust_inv. rewrite <-app_assoc. split; [|done]. split; [|done]. split_and!; [by apply dec_stable|done|done].
  - intros [[(-> & -> & ->) Hl] ->]. eexists. split; [by rewrite bool_decide_ne_refl|].
    by rewrite <-app_assoc.
Qed.
Lemma settle_instances_Ok instances acc r :
  try_fold (fun settled instance => try_fold (settle_invocation instance) settled (owned_invocations instance))
    acc instances = Ok r <->
  Forall settled_invocation (all_invocations instances) /\
  r = acc ++ concat (map (fun instance => map (invocation_loss instance) (owned_invocations instance)) instances).
Proof.
  revert acc; induction instances as [|instance l IH]; intros acc.
  { simpl. rewrite app_nil_r. split; [by intros [= ->]|by intros [_ ->]]. }
  cbn [try_fold map concat]. rewrite bind_Ok. setoid_rewrite settle_invocations_Ok. setoid_rewrite IH.
  unfold all_invocations. cbn [map concat]. rewrite Forall_app. split.
  - intros (k & [H1 ->] & H2 & ->). by rewrite <-app_assoc.
  - intros [[H1 H2] ->]. eexists. split; [done|]. by rewrite <-app_assoc.
Qed.
(** When everything is settled, the records left are the losses they stand for. *)
Lemma settled_losses instances :
  Forall settled_invocation (all_invocations instances) ->
  concat (map (fun instance => map (invocation_loss instance) (owned_invocations instance)) instances)
    = classify_losses instances.
Proof.
  unfold all_invocations, classify_losses.
  induction instances as [|instance l IH]; [done|]. cbn [map concat]. rewrite Forall_app. intros [Hi Hl].
  rewrite IH by done. f_equal. f_equal. symmetry. apply filter_all.
  eapply Forall_impl; [exact Hi|]. intros i (-> & _). done.
Qed.

(** The owner's path from a fenced loss to a proof of cleanup. *)
Definition cleanup_chain (gate : ProcessAdmissionGate) (expected : bool)
    (lost cleaned : ProcessDomainOwnership) (census : ProcessCleanupCensus)
    : result RuntimeOwnershipError (ProcessLossObservation * ProcessCleanupProof) :=
  bundle ← observe_process_loss (gate_fence gate) expected lost;
  ready ← reconcile (bundle_cleanup_authority bundle) cleaned;
  proof ← try_prove ready census;
  Ok (bundle_observation bundle, proof).

(** C22: A cleanup proof exists exactly when both snapshots are of the fenced
    generation and taken after admission was closed, the second has no live
    process and holds nothing but settled records of exactly the invocations
    that had crossed the handoff at the loss, and the census is zero.  The
    proof and the loss observation share one lineage, which reports external
    uncertainty exactly when a crossed invocation was not effect-free. *)
Theorem cleanup_proof_exactly gate expected lost cleaned census observation proof :
  (ownership_outstanding lost <= u32_max)%N ->
  (len (all_invocations (ownership_instances lost)) <= ownership_outstanding lost)%N ->
  cleanup_chain gate expected lost cleaned census = Ok (observation, proof) <->
  (ownership_identity lost = gate_identity gate /\ ownership_identity cleaned = gate_identity gate /\
   fenced_lifecycle (ownership_lifecycle lost) = true /\
   fenced_lifecycle (ownership_lifecycle cleaned) = true /\
   process_tree_members cleaned = 0%N /\
   Forall settled_invocation (all_invocations (ownership_instances cleaned)) /\
   classify_losses (ownership_instances cleaned) = classify_losses (ownership_instances lost) /\
   census = MkProcessCleanupCensus true 0 0 0 0 0 0) /\
  (observation_expected observation = expected /\
   uncertain_invocations observation = classify_losses (ownership_instances lost) /\
   proof_lineage proof = observation_lineage observation /\ proof_census proof = census /\
   lineage_identity (proof_lineage proof) = gate_identity gate /\
   all_crossed_handoffs_settled observation = true /\
   crossed_handoffs (proof_lineage proof) = len (classify_losses (ownership_instances lost)) /\
   classified_handoffs (proof_lineage proof) = len (classify_losses (ownership_instances lost)) /\
   snapshot_process_tree_members (proof_lineage proof) = process_tree_members lost /\
   snapshot_outstanding (proof_lineage proof) = ownership_outstanding lost /\
   snapshot_held_ipc_credits (proof_lineage proof) = held_ipc_credits lost /\
   snapshot_retained_bytes (proof_lineage proof) = ownership_retained_bytes lost /\
   (lineage_external_effect_uncertain (proof_lineage proof) = true <->
    exists instance invocation, instance ∈ ownership_instances lost /\
      invocation ∈ owned_invocations instance /\
      crossed_handoff (owned_stage invocation) = true /\ owned_side_effect invocation <> EffectFree)).
Proof.
  intros Hu Hlen. unfold cleanup_chain.
  set (losses := classify_losses (ownership_instances lost)).
  assert (len losses <= u32_max)%N as Hl.
  { etrans; [|exact Hu]. etrans; [apply classify_losses_le|exact Hlen]. }
  split.
  - intros H. unfold observe_process_loss, reconcile, validate_reconcile, try_prove in H. rust_inv.
    simpl in *. rust_inv.
    match goal with H : try_fold _ _ _ = Ok _ |- _ => apply settle_instances_Ok in H as [Hs ->] end.
    rewrite settled_losses, app_nil_l in * by done.
    split; [split_and!; try done; first [by apply is_exact_zero_eq|by apply dec_stable]|].
    split_and!; try done; [by apply N.eqb_eq, N.sub_diag|].
    apply external_exactly.
  - intros [(H1 & H2 & H3 & H4 & H5 & H6 & H7 & ->) Hr].
    unfold observe_process_loss, reconcile, validate_reconcile, try_prove. simpl.
    rewrite H1, H3, bool_decide_ne_refl. simpl. fold losses. rewrite try_from_ok by done. simpl.
    rewrite H2, H4, H5, bool_decide_ne_refl. simpl.
    rewrite (proj2 (settle_instances_Ok _ _ _)) by done. simpl.
    rewrite settled_losses, H7 by done. fold losses. rewrite bool_decide_ne_refl. simpl.
    destruct observation as [lineage e k], proof as [lineage' c]. simpl in Hr.
    destruct Hr as (-> & -> & -> & -> & Hid & _ & Hr). destruct lineage. simpl in *.
    destruct Hr as (-> & -> & -> & -> & -> & -> & Hx). subst.
    unfold losses. rewrite <-external_exactly in Hx. apply eq_true_iff_eq in Hx. by rewrite <-Hx.
Qed.

Lemma increasing_lookup {A K : Type} `{OrdKey K} (key : A -> K) l i j x y :
  StronglySorted (fun a b => key_leb (key b) (key a) = false) l ->
  l !! i = Some x -> l !! j = Some y -> i < j -> key_leb (key y) (key x) = false.
Proof.
  intros Hs. revert i j; induction Hs as [|a l Hl IH Ha]; intros i j Hi Hj Hij; [done|].
  destruct i as [|i], j as [|j]; simpl in *; try lia.
  - injection Hi as ->. rewrite Forall_forall in Ha. apply Ha. by eapply list_elem_of_lookup_2.
  - eapply IH; [done..|lia].
Qed.

(** The ownership tree finds a domain by its reference exactly when it
    was given a snapshot of it. *)
Theorem tree_domain_finds_exactly host epoch domains tree reference domain :
  ownership_tree_try_new host epoch domains = Ok tree ->
  tree_domain tree reference = Some domain <-> domain ∈ domains /\ domain_key domain = reference.
Proof.
  unfold ownership_tree_try_new. intros H. rust_inv.
  match goal with H : adjacent_duplicate _ _ = false |- _ =>
    rewrite (adjacent_duplicate_sorted domain_key) in H by apply sort_by_key_sorted; rename H into Hinc end.
  unfold tree_domain. cbn [tree_domains]. set (l := sort_by_key domain_key domains) in *.
  assert (forall d, d ∈ domains <-> d ∈ l) as Hin by (intros d; unfold l; by rewrite sort_by_key_Permutation).
  rewrite Hin. clear Hin.
  assert (ordered_by (compare_domain reference) l) as Ho.
  { intros i j d d' Hi Hj Hij Hc. unfold compare_domain in *.
    pose proof (increasing_lookup domain_key _ _ _ _ _ Hinc Hi Hj Hij) as Hlt.
    rewrite compare_bytes_Lt in Hc. apply not_false_is_true in Hc.
    apply compare_bytes_Gt, not_true_is_false. intros Hd.
    assert (key_leb (domain_key d') (domain_key d) = true) by (simpl; by eapply bytes_leb_trans). congruence. }
  pose proof (binary_search_by_spec _ _ Ho) as Hs.
  assert (forall d, compare_domain reference d = Eq <-> domain_key d = reference) as Heq.
  { intros d. unfold compare_domain. rewrite compare_bytes_Eq. destruct reference, (domain_key d).
    simpl. split; [intros ->%vec_to_list_inj2; done|by intros [= ->]]. }
  destruct (binary_search_by _ l) as [i|i].
  - destruct Hs as (d & Hd & Hc). rewrite Hd. apply Heq in Hc as Hkey. split.
    + intros [= ->]. split; [by eapply list_elem_of_lookup_2|done].
    + intros [[j Hj]%list_elem_of_lookup_1 <-]. destruct (decide (i = j)) as [->|Hne]; [congruence|].
      destruct (decide (i < j)) as [Hij|Hij].
      * pose proof (increasing_lookup domain_key _ _ _ _ _ Hinc Hd Hj Hij) as Hlt.
        by rewrite Hkey, key_leb_refl in Hlt.
      * assert (j < i) as Hji by lia. pose proof (increasing_lookup domain_key _ _ _ _ _ Hinc Hj Hd Hji) as Hlt.
        by rewrite Hkey, key_leb_refl in Hlt.
  - destruct Hs as (_ & Hb & He). split; [done|]. intros [[j Hj]%list_elem_of_lookup_1 Hk%Heq].
    destruct (decide (j < i)) as [Hji|Hji]; [rewrite (Hb _ _ Hji Hj) in Hk|rewrite (He j _ ltac:(lia) Hj) in Hk]; done.
Qed.

(** ** Examples *)

Definition zero16 : bytes16 := Vector.const x00 16.
Definition zero32 : bytes32 := Vector.const x00 32.
Definition example_process : ProcessGenerationIdentity :=
  {| process_runtime_host := MkRuntimeHostId zero16;
     process_runtime_host_epoch := MkRuntimeHostEpoch 1;
     process_source_revision := MkSourcePlanRevision 1;
     process_target_slice_digest := MkTargetSliceDigest (MkDigest32 zero32);
     process_domain := MkProcessDomainRef zero16;
     process_domain_epoch := MkDomainEpoch 1 |}.
Definition example_limits : ProcessOwnershipLimits := MkProcessOwnershipLimits 4 4 1024 8.
Definition example_instance (stage : ProcessInvocationOwnershipStage) (held : bool) (retained : N)
    : ProcessInstanceOwnership :=
  {| owned_instance := MkInstanceRef zero16; owned_generation := MkInstanceGeneration 1;
     owned_invocations := [MkProcessInvocationOwnership (MkInvocationId 7) stage External held retained] |}.
Definition example_snapshot (members : N) (stage : ProcessInvocationOwnershipStage) (held : bool) (retained : N)
    : ProcessDomainOwnership :=
  {| ownership_identity := example_process; ownership_lifecycle := OwnershipClosing;
     process_tree_members := members; ownership_instances := [example_instance stage held retained];
     ownership_outstanding := 1; held_ipc_credits := if held then 1 else 0;
     ownership_retained_bytes := retained |}.

Lemma domain_snapshot_accepts_exactly_witness :
  domain_ownership_try_new example_process OwnershipClosing 2 example_limits
    [example_instance StageStarted true 5] = Ok (example_snapshot 2 StageStarted true 5).
Proof.
  apply domain_snapshot_accepts_exactly; [by split|]. split; [|by vm_compute].
  split_and!; try (by vm_compute). repeat constructor. by intros ?%not_elem_of_nil.
Defined.

Lemma tree_domain_finds_exactly_witness :
  exists tree,
    ownership_tree_try_new (MkRuntimeHostId zero16) (MkRuntimeHostEpoch 1) [example_snapshot 2 StageStarted true 5]
      = Ok tree /\
    tree_domain tree (MkProcessDomainRef zero16) = Some (example_snapshot 2 StageStarted true 5).
Proof.
  eexists. split; [vm_compute; reflexivity|].
  eapply (tree_domain_finds_exactly (MkRuntimeHostId zero16) (MkRuntimeHostEpoch 1)
    [example_snapshot 2 StageStarted true 5]); [vm_compute; reflexivity|].
  split; [by left|done].
Defined.

Lemma cleanup_proof_exactly_witness :
  exists observation proof,
    cleanup_chain (MkProcessAdmissionGate example_process) false
      (example_snapshot 2 StageStarted true 5) (example_snapshot 0 Uncertain false 0)
      (MkProcessCleanupCensus true 0 0 0 0 0 0) = Ok (observation, proof) /\
    lineage_external_effect_uncertain (proof_lineage proof) = true.
Proof.
  eexists _, _. split; [vm_compute; reflexivity|].
  apply (cleanup_proof_exactly (MkProcessAdmissionGate example_process) false
    (example_snapshot 2 StageStarted true 5) (example_snapshot 0 Uncertain false 0)
    (MkProcessCleanupCensus true 0 0 0 0 0 0)
    (MkProcessLossObservation (MkProcessLossLineage example_process 2 1 1 5 1 1 true) false
       [MkProcessInvocationLoss (MkInstanceRef zero16) (MkInstanceGeneration 1) (MkInvocationId 7) External])
    (MkProcessCleanupProof (MkProcessLossLineage example_process 2 1 1 5 1 1 true)
       (MkProcessCleanupCensus true 0 0 0 0 0 0))); [by vm_compute|by vm_compute|vm_compute; reflexivity|].
  exists (example_instance StageStarted true 5),
    (MkProcessInvocationOwnership (MkInvocationId 7) StageStarted External true 5).
  split_and!; [by left|by left|done|done].
Defined.

