(* ===== verification/Recovery.v ===== *)
(** * Process-domain recovery (crates/paraegox-runtime/src/recovery.rs)

    The pure reducer that decides, from the ordered facts about one process
    generation and the completions of the actions it asked for, how the
    generation is fenced, stopped, cleaned up, restarted or quarantined.
    With the restart policy of
    crates/paraegox-runtime-contracts/src/process_execution.rs.  The reducer
    takes the state by reference and returns the next one, so every operation
    is a function from a state to a transition or an error. *)

From Stdlib Require Import Strings.String.
From S2P Require Import Prelude Bytes KernelTime KernelDigest ApplyContracts Assignment CardInstance Liveness RuntimeOwnership.
Open Scope rust_scope.

(** ** Policy *)

Definition MAX_PROCESS_RESTART_ATTEMPTS : N := 1024.

Record ProcessRestartPolicy := MkProcessRestartPolicy {
  max_attempts : N;
  restart_window : BoundedDuration;
  initial_backoff : BoundedDuration;
  max_backoff : BoundedDuration;
  jitter_basis_points : N;
}.
Inductive ProcessRestartPolicyError := InvalidRestartPolicy.

Definition process_restart_policy_try_new (max_attempts : N)
    (restart_window initial_backoff max_backoff : BoundedDuration) (jitter_basis_points : N)
    : result ProcessRestartPolicyError ProcessRestartPolicy :=
  bail InvalidRestartPolicy
    when (MAX_PROCESS_RESTART_ATTEMPTS <? max_attempts)%N
      || negb (valid_process_duration restart_window)
      || negb (valid_process_duration initial_backoff)
      || negb (valid_process_duration max_backoff)
      || (duration_value max_backoff <? duration_value initial_backoff)%N
      || (duration_value restart_window <? duration_value max_backoff)%N
      || (10000 <? jitter_basis_points)%N;
  Ok (MkProcessRestartPolicy max_attempts restart_window initial_backoff max_backoff jitter_basis_points).

Inductive InvocationReplayPolicy := NoReplay.

(** ** Facts *)

Inductive ProcessProtocolFailure :=
| InvalidFrame | UnsupportedVersion | ProtocolGenerationMismatch | SequenceViolation | CreditViolation
| PayloadTooLarge.
Inductive ProcessResourceFailure := MemoryFailure | OpenFds | ProcessTree | CpuFailure.
Inductive ProcessOwnerInvariantFailure :=
| OwnerGenerationMismatch | OwnerClockMismatch | OwnerClockRegressed | OwnerDeadlineOverflow
| OwnerStateInconsistent.

Record ProcessInvocationFailure := MkProcessInvocationFailure {
  failure_instance : InstanceRef;
  failure_generation : InstanceGeneration;
  failure_invocation : InvocationId;
  failure_side_effect : SideEffectClass;
}.

Inductive RuntimeFailureFactKind :=
| ProcessExited (observation : ProcessLossObservation)
| HeartbeatMissed (last_sequence : N)
| ControlProbeMissed (probe : N)
| WedgeDetected (invocation : ProcessInvocationFailure)
| InvocationUncertain (invocation : ProcessInvocationFailure)
| ProtocolViolation (failure : ProcessProtocolFailure)
| ResourceLimitExceeded (failure : ProcessResourceFailure)
| OwnerInvariantViolation (failure : ProcessOwnerInvariantFailure)
| LaunchFailed
| ShutdownFailed
| CleanupCompleted (proof : ProcessCleanupProof)
| CleanupIncomplete (census : ProcessCleanupCensus).

Inductive RecoveryError :=
| GenerationMismatch
| ClockMismatch
| ClockRegressed
| DeadlineOverflow
| CounterOverflow
| InvalidFactSequence
| StaleFact
| ConflictingFact
| ProcessLossAlreadyObserved
| ProcessLossNotObserved
| UnsettledProcessHandoffs
| CleanupLineageMismatch
| CleanupNotProven
| UnexpectedCleanupFact
| ActionAlreadyPending
| NoActionPending
| ActionMismatch
| ConflictingActionCompletion
| InvalidActionOutcome
| GenerationRollNotReady
| GenerationContinuityMismatch
| DigestFailed
| StateInconsistent.
#[export] Instance RecoveryError_eq_dec : EqDecision RecoveryError.
Proof. solve_decision. Defined.

Record RuntimeFailureFact := MkRuntimeFailureFact {
  fact_identity : ProcessGenerationIdentity;
  fact_sequence : N;
  fact_observed_at : ClockReading;
  fact_kind : RuntimeFailureFactKind;
}.

Definition fact_try_new (identity : ProcessGenerationIdentity) (sequence : N)
    (observed_at : ClockReading) (kind : RuntimeFailureFactKind) : result RecoveryError RuntimeFailureFact :=
  bail InvalidFactSequence when (sequence =? 0)%N;
  bail GenerationMismatch
    when match kind with
         | ProcessExited observation => bool_decide (observation_identity observation <> identity)
         | CleanupCompleted proof => bool_decide (proof_identity proof <> identity)
         | _ => false
         end;
  Ok {| fact_identity := identity; fact_sequence := sequence;
        fact_observed_at := observed_at; fact_kind := kind |}.

(** ** State *)

Inductive QuarantineReason :=
| RestartAttemptsExhausted
| ExternalEffectUncertain
| ReasonCleanupNotProven
| RecoveryActionFailed
| ReasonOwnerInvariantViolation
| ReasonEpochExhausted.
#[export] Instance QuarantineReason_eq_dec : EqDecision QuarantineReason.
Proof. solve_decision. Defined.

Inductive RecoveryPhase :=
| Healthy
| Fencing
| CooperativeStopping
| WaitingCooperative (deadline : MonotonicInstant)
| Terminating
| WaitingTerminate (deadline : MonotonicInstant)
| Killing
| WaitingKill (deadline : MonotonicInstant)
| AwaitingProcessLoss (deadline : MonotonicInstant)
| Cleaning
| AwaitingCleanup (deadline : MonotonicInstant)
| Backoff (restart_at : MonotonicInstant)
| StartingFresh (next_epoch : DomainEpoch)
| Recovered (next_epoch : DomainEpoch)
| Stopped
| Quarantined (reason : QuarantineReason).
#[export] Instance RecoveryPhase_eq_dec : EqDecision RecoveryPhase.
Proof. solve_decision. Defined.

Inductive RecoveryAction :=
| FenceAndStopAdmission
| RequestCooperativeStop
| SendTerminate
| SendKill
| CollectCleanup
| StartFreshDomain (next_epoch : DomainEpoch)
| EnterQuarantine (reason : QuarantineReason).

Record RecoveryActionEnvelope := MkRecoveryActionEnvelope { action_id : N; action : RecoveryAction }.

Inductive RecoveryActionOutcome := Succeeded | ProcessAlreadyExited | Failed.
#[export] Instance RecoveryActionOutcome_eq_dec : EqDecision RecoveryActionOutcome.
Proof. solve_decision. Defined.

Inductive RecoveryDecision :=
| NoAction
| Execute (envelope : RecoveryActionEnvelope)
| AwaitingAction (id : N)
| WaitUntil (deadline : MonotonicInstant).

Record CompletedAction := MkCompletedAction { completed_action_id : N; completed_outcome : RecoveryActionOutcome }.

Record RecoveryState := MkRecoveryState {
  rs_identity : ProcessGenerationIdentity;
  rs_lifecycle : ProcessLifecycleBudgets;
  rs_restart : ProcessRestartPolicy;
  rs_replay : InvocationReplayPolicy;
  rs_phase : RecoveryPhase;
  restart_after_cleanup : bool;
  process_exited : bool;
  external_effect_uncertain : bool;
  quarantine_reason : option QuarantineReason;
  quarantine_entered : bool;
  loss_lineage : option ProcessLossLineage;
  unsettled_handoffs : N;
  cleanup_proven : bool;
  attempt_sequence : N;
  attempts : list MonotonicInstant;
  next_action_id : N;
  pending_action : option RecoveryActionEnvelope;
  last_completed_action : option CompletedAction;
  last_fact_sequence : N;
  last_fact_fingerprint : option Digest32;
  rs_last_observed_at : ClockReading;
}.

(** Field assignments. *)
Definition set_phase (v : RecoveryPhase) (s : RecoveryState) : RecoveryState :=
  MkRecoveryState (rs_identity s) (rs_lifecycle s) (rs_restart s) (rs_replay s) v (restart_after_cleanup s)
    (process_exited s) (external_effect_uncertain s) (quarantine_reason s) (quarantine_entered s)
    (loss_lineage s) (unsettled_handoffs s) (cleanup_proven s) (attempt_sequence s) (attempts s)
    (next_action_id s) (pending_action s) (last_completed_action s) (last_fact_sequence s)
    (last_fact_fingerprint s) (rs_last_observed_at s).
Definition set_restart_after_cleanup (v : bool) (s : RecoveryState) : RecoveryState :=
  MkRecoveryState (rs_identity s) (rs_lifecycle s) (rs_restart s) (rs_replay s) (rs_phase s) v
    (process_exited s) (external_effect_uncertain s) (quarantine_reason s) (quarantine_entered s)
    (loss_lineage s) (unsettled_handoffs s) (cleanup_proven s) (attempt_sequence s) (attempts s)
    (next_action_id s) (pending_action s) (last_completed_action s) (last_fact_sequence s)
    (last_fact_fingerprint s) (rs_last_observed_at s).
Definition set_external (v : bool) (s : RecoveryState) : RecoveryState :=
  MkRecoveryState (rs_identity s) (rs_lifecycle s) (rs_restart s) (rs_replay s) (rs_phase s)
    (restart_after_cleanup s) (process_exited s) v (quarantine_reason s) (quarantine_entered s)
    (loss_lineage s) (unsettled_handoffs s) (cleanup_proven s) (attempt_sequence s) (attempts s)
    (next_action_id s) (pending_action s) (last_completed_action s) (last_fact_sequence s)
    (last_fact_fingerprint s) (rs_last_observed_at s).
Definition set_reason (v : option QuarantineReason) (s : RecoveryState) : RecoveryState :=
  MkRecoveryState (rs_identity s) (rs_lifecycle s) (rs_restart s) (rs_replay s) (rs_phase s)
    (restart_after_cleanup s) (process_exited s) (external_effect_uncertain s) v (quarantine_entered s)
    (loss_lineage s) (unsettled_handoffs s) (cleanup_proven s) (attempt_sequence s) (attempts s)
    (next_action_id s) (pending_action s) (last_completed_action s) (last_fact_sequence s)
    (last_fact_fingerprint s) (rs_last_observed_at s).
Definition set_entered (v : bool) (s : RecoveryState) : RecoveryState :=
  MkRecoveryState (rs_identity s) (rs_lifecycle s) (rs_restart s) (rs_replay s) (rs_phase s)
    (restart_after_cleanup s) (process_exited s) (external_effect_uncertain s) (quarantine_reason s) v
    (loss_lineage s) (unsettled_handoffs s) (cleanup_proven s) (attempt_sequence s) (attempts s)
    (next_action_id s) (pending_action s) (last_completed_action s) (last_fact_sequence s)
    (last_fact_fingerprint s) (rs_last_observed_at s).
Definition set_proven (v : bool) (s : RecoveryState) : RecoveryState :=
  MkRecoveryState (rs_identity s) (rs_lifecycle s) (rs_restart s) (rs_replay s) (rs_phase s)
    (restart_after_cleanup s) (process_exited s) (external_effect_uncertain s) (quarantine_reason s)
    (quarantine_entered s) (loss_lineage s) (unsettled_handoffs s) v (attempt_sequence s) (attempts s)
    (next_action_id s) (pending_action s) (last_completed_action s) (last_fact_sequence s)
    (last_fact_fingerprint s) (rs_last_observed_at s).
Definition set_attempt_sequence (v : N) (s : RecoveryState) : RecoveryState :=
  MkRecoveryState (rs_identity s) (rs_lifecycle s) (rs_restart s) (rs_replay s) (rs_phase s)
    (restart_after_cleanup s) (process_exited s) (external_effect_uncertain s) (quarantine_reason s)
    (quarantine_entered s) (loss_lineage s) (unsettled_handoffs s) (cleanup_proven s) v (attempts s)
    (next_action_id s) (pending_action s) (last_completed_action s) (last_fact_sequence s)
    (last_fact_fingerprint s) (rs_last_observed_at s).
Definition set_attempts (v : list MonotonicInstant) (s : RecoveryState) : RecoveryState :=
  MkRecoveryState (rs_identity s) (rs_lifecycle s) (rs_restart s) (rs_replay s) (rs_phase s)
    (restart_after_cleanup s) (process_exited s) (external_effect_uncertain s) (quarantine_reason s)
    (quarantine_entered s) (loss_lineage s) (unsettled_handoffs s) (cleanup_proven s) (attempt_sequence s) v
    (next_action_id s) (pending_action s) (last_completed_action s) (last_fact_sequence s)
    (last_fact_fingerprint s) (rs_last_observed_at s).
Definition set_next_action_id (v : N) (s : RecoveryState) : RecoveryState :=
  MkRecoveryState (rs_identity s) (rs_lifecycle s) (rs_restart s) (rs_replay s) (rs_phase s)
    (restart_after_cleanup s) (process_exited s) (external_effect_uncertain s) (quarantine_reason s)
    (quarantine_entered s) (loss_lineage s) (unsettled_handoffs s) (cleanup_proven s) (attempt_sequence s)
    (attempts s) v (pending_action s) (last_completed_action s) (last_fact_sequence s)
    (last_fact_fingerprint s) (rs_last_observed_at s).
Definition set_pending (v : option RecoveryActionEnvelope) (s : RecoveryState) : RecoveryState :=
  MkRecoveryState (rs_identity s) (rs_lifecycle s) (rs_restart s) (rs_replay s) (rs_phase s)
    (restart_after_cleanup s) (process_exited s) (external_effect_uncertain s) (quarantine_reason s)
    (quarantine_entered s) (loss_lineage s) (unsettled_handoffs s) (cleanup_proven s) (attempt_sequence s)
    (attempts s) (next_action_id s) v (last_completed_action s) (last_fact_sequence s)
    (last_fact_fingerprint s) (rs_last_observed_at s).
Definition set_completed (v : option CompletedAction) (s : RecoveryState) : RecoveryState :=
  MkRecoveryState (rs_identity s) (rs_lifecycle s) (rs_restart s) (rs_replay s) (rs_phase s)
    (restart_after_cleanup s) (process_exited s) (external_effect_uncertain s) (quarantine_reason s)
    (quarantine_entered s) (loss_lineage s) (unsettled_handoffs s) (cleanup_proven s) (attempt_sequence s)
    (attempts s) (next_action_id s) (pending_action s) v (last_fact_sequence s) (last_fact_fingerprint s)
    (rs_last_observed_at s).
Definition set_fact (v0 : N) (v1 : option Digest32) (s : RecoveryState) : RecoveryState :=
  MkRecoveryState (rs_identity s) (rs_lifecycle s) (rs_restart s) (rs_replay s) (rs_phase s)
    (restart_after_cleanup s) (process_exited s) (external_effect_uncertain s) (quarantine_reason s)
    (quarantine_entered s) (loss_lineage s) (unsettled_handoffs s) (cleanup_proven s) (attempt_sequence s)
    (attempts s) (next_action_id s) (pending_action s) (last_completed_action s) v0 v1
    (rs_last_observed_at s).
Definition set_observed_at (v : ClockReading) (s : RecoveryState) : RecoveryState :=
  MkRecoveryState (rs_identity s) (rs_lifecycle s) (rs_restart s) (rs_replay s) (rs_phase s)
    (restart_after_cleanup s) (process_exited s) (external_effect_uncertain s) (quarantine_reason s)
    (quarantine_entered s) (loss_lineage s) (unsettled_handoffs s) (cleanup_proven s) (attempt_sequence s)
    (attempts s) (next_action_id s) (pending_action s) (last_completed_action s) (last_fact_sequence s)
    (last_fact_fingerprint s) v.
Definition set_loss (v0 : option ProcessLossLineage) (v1 : N) (v2 : bool) (s : RecoveryState) : RecoveryState :=
  MkRecoveryState (rs_identity s) (rs_lifecycle s) (rs_restart s) (rs_replay s) (rs_phase s)
    (restart_after_cleanup s) v2 (external_effect_uncertain s) (quarantine_reason s) (quarantine_entered s)
    v0 v1 (cleanup_proven s) (attempt_sequence s) (attempts s) (next_action_id s) (pending_action s)
    (last_completed_action s) (last_fact_sequence s) (last_fact_fingerprint s) (rs_last_observed_at s).

Definition recovery_try_new (identity : ProcessGenerationIdentity) (lifecycle : ProcessLifecycleBudgets)
    (restart : ProcessRestartPolicy) (replay : InvocationReplayPolicy) (observed_at : ClockReading)
    : result RecoveryError RecoveryState :=
  _ ← ok_or (try_from u64_max (max_attempts restart)) CounterOverflow;
  Ok {| rs_identity := identity; rs_lifecycle := lifecycle; rs_restart := restart; rs_replay := replay;
        rs_phase := Healthy; restart_after_cleanup := false; process_exited := false;
        external_effect_uncertain := false; quarantine_reason := None; quarantine_entered := false;
        loss_lineage := None; unsettled_handoffs := 0; cleanup_proven := false; attempt_sequence := 0;
        attempts := []; next_action_id := 0; pending_action := None; last_completed_action := None;
        last_fact_sequence := 0; last_fact_fingerprint := None; rs_last_observed_at := observed_at |}.

Record RecoveryTransition := MkRecoveryTransition {
  transition_state : RecoveryState;
  transition_decision : RecoveryDecision;
}.
Abbreviation Transition := (result RecoveryError RecoveryTransition).

Definition unchanged (state : RecoveryState) : RecoveryTransition :=
  {| transition_state := state;
     transition_decision :=
       match pending_action state with
       | None => NoAction
       | Some pending => AwaitingAction (action_id pending)
       end |}.
Definition waiting (state : RecoveryState) (deadline : MonotonicInstant) : RecoveryTransition :=
  {| transition_state := state; transition_decision := WaitUntil deadline |}.

(** ** Helpers of the reducer *)

Definition validate_clock (previous current : ClockReading) : result RecoveryError unit :=
  bail ClockMismatch
    when bool_decide (reading_domain previous <> reading_domain current)
      || bool_decide (reading_generation previous <> reading_generation current);
  bail ClockRegressed when (now_value current <? now_value previous)%N;
  Ok tt.

Definition add_budget (reading : ClockReading) (budget : BoundedDuration)
    : result RecoveryError MonotonicInstant :=
  value ← ok_or (checked_add u64_max (now_value reading) (duration_value budget)) DeadlineOverflow;
  Ok (from_ticks value).

Definition reached (reading : ClockReading) (at_ : MonotonicInstant) : bool :=
  (instant_value at_ <=? now_value reading)%N.

Definition issue (state : RecoveryState) (phase : RecoveryPhase) (act : RecoveryAction) : Transition :=
  bail ActionAlreadyPending when bool_decide (is_Some (pending_action state));
  value ← ok_or (checked_add u64_max (next_action_id state) 1) CounterOverflow;
  let envelope := {| action_id := value; action := act |} in
  let state := set_pending (Some envelope) (set_phase phase (set_next_action_id value state)) in
  Ok {| transition_state := state; transition_decision := Execute envelope |}.

Definition remember_quarantine_reason (reason : QuarantineReason) (state : RecoveryState) : RecoveryState :=
  if bool_decide (quarantine_reason state = None)
     || bool_decide (reason = ExternalEffectUncertain)
     || (bool_decide (reason = ReasonOwnerInvariantViolation)
         && bool_decide (quarantine_reason state <> Some ExternalEffectUncertain))
  then set_reason (Some reason) state else state.

Definition remember_action_failure (state : RecoveryState) : RecoveryState :=
  let state := remember_quarantine_reason RecoveryActionFailed state in
  if external_effect_uncertain state
  then remember_quarantine_reason ExternalEffectUncertain state else state.

Definition quarantine (state : RecoveryState) (reason : QuarantineReason) : Transition :=
  let state := remember_quarantine_reason reason state in
  reason ← ok_or (quarantine_reason state) StateInconsistent;
  if bool_decide (is_Some (pending_action state)) then Ok (unchanged state)
  else if quarantine_entered state then Ok (unchanged (set_phase (Quarantined reason) state))
  else issue state (Quarantined reason) (EnterQuarantine reason).

Definition begin_failure (state : RecoveryState) : Transition :=
  let state := set_restart_after_cleanup true state in
  if bool_decide (rs_phase state = Healthy) then issue state Fencing FenceAndStopAdmission
  else Ok (unchanged state).

Definition begin_owner_invariant_failure (state : RecoveryState) : Transition :=
  let state := remember_quarantine_reason ReasonOwnerInvariantViolation state in
  match rs_phase state with
  | Backoff _ | StartingFresh _ | Recovered _ | Stopped =>
      quarantine state ReasonOwnerInvariantViolation
  | _ => begin_failure state
  end.

Definition ensure_loss_settled (state : RecoveryState) : result RecoveryError ProcessLossLineage :=
  lineage ← ok_or (loss_lineage state) ProcessLossNotObserved;
  bail UnsettledProcessHandoffs
    when negb (unsettled_handoffs state =? 0)%N || negb (lineage_unsettled_handoffs lineage =? 0)%N;
  Ok lineage.

Definition begin_cleanup (state : RecoveryState) : Transition :=
  _ ← ensure_loss_settled state;
  bail ProcessLossNotObserved when negb (process_exited state);
  issue state Cleaning CollectCleanup.

Definition cooperative_stop (b : ProcessLifecycleBudgets) : BoundedDuration :=
  shutdown_cooperative_stop (lifecycle_shutdown b).
Definition terminate_grace (b : ProcessLifecycleBudgets) : BoundedDuration :=
  shutdown_terminate_grace (lifecycle_shutdown b).
Definition kill_grace (b : ProcessLifecycleBudgets) : BoundedDuration :=
  shutdown_kill_grace (lifecycle_shutdown b).
Definition cleanup (b : ProcessLifecycleBudgets) : BoundedDuration :=
  shutdown_cleanup (lifecycle_shutdown b).

Definition await_process_loss (state : RecoveryState) (observed_at : ClockReading) : Transition :=
  deadline ← add_budget observed_at (cleanup (rs_lifecycle state));
  Ok (waiting (set_phase (AwaitingProcessLoss deadline) state) deadline).

Definition attempts_exhausted (state : RecoveryState) : result RecoveryError bool :=
  maximum ← ok_or (try_from u64_max (max_attempts (rs_restart state))) CounterOverflow;
  Ok (maximum <=? len (attempts state))%N.

Definition prune_attempts (state : RecoveryState) (observed_at : ClockReading)
    : result RecoveryError RecoveryState :=
  _ ← validate_clock (rs_last_observed_at state) observed_at;
  let window := duration_value (restart_window (rs_restart state)) in
  let now := now_value observed_at in
  _ ← try_fold (fun _ attempt =>
        _ ← ok_or (checked_add u64_max (instant_value attempt) window) DeadlineOverflow; Ok tt)
      tt (attempts state);
  Ok (set_attempts (base.filter (fun attempt =>
        now < saturating_add u64_max (instant_value attempt) window)%N (attempts state)) state).

(** ** Digests: restart jitter and fact fingerprints *)

Section digests.
Context (sha256 : list byte -> bytes32).

Definition RECOVERY_FACT_DIGEST_DOMAIN : list byte :=
  ascii_bytes "paraegox.runtime.failure-fact.sha256.internal.v1".
Definition RECOVERY_JITTER_DIGEST_DOMAIN : list byte :=
  ascii_bytes "paraegox.runtime.restart-jitter.sha256.internal.v1".

Abbreviation Builder := (result RecoveryError Digest32Builder).

Definition digest_failed (e : DigestBuildError) : RecoveryError := DigestFailed.
Definition rec_field_bytes (builder : Digest32Builder) (value : list byte) : Builder :=
  map_err digest_failed (field_bytes builder value).
Definition field_tag (builder : Digest32Builder) (value : byte) : Builder :=
  rec_field_bytes builder [value].
Definition field_bool (builder : Digest32Builder) (value : bool) : Builder :=
  rec_field_bytes builder [if value then x01 else x00].
Definition field_u32 (builder : Digest32Builder) (value : N) : Builder :=
  rec_field_bytes builder (be_bytes 4 value).
Definition rec_field_u64 (builder : Digest32Builder) (value : N) : Builder :=
  map_err digest_failed (field_u64 builder value).

Definition side_effect_tag (value : SideEffectClass) : byte :=
  match value with EffectFree => x01 | External => x02 | UnknownEffect => x03 end.
Definition protocol_failure_tag (value : ProcessProtocolFailure) : byte :=
  match value with
  | InvalidFrame => x01 | UnsupportedVersion => x02 | ProtocolGenerationMismatch => x03
  | SequenceViolation => x04 | CreditViolation => x05 | PayloadTooLarge => x06
  end.
Definition resource_failure_tag (value : ProcessResourceFailure) : byte :=
  match value with MemoryFailure => x01 | OpenFds => x02 | ProcessTree => x03 | CpuFailure => x04 end.
Definition owner_invariant_failure_tag (value : ProcessOwnerInvariantFailure) : byte :=
  match value with
  | OwnerGenerationMismatch => x01 | OwnerClockMismatch => x02 | OwnerClockRegressed => x03
  | OwnerDeadlineOverflow => x04 | OwnerStateInconsistent => x05
  end.

(** The six identity fields every digest of this module starts with. *)
Definition append_identity (builder : Digest32Builder) (identity : ProcessGenerationIdentity) : Builder :=
  builder ← rec_field_bytes builder (vec_to_list (host_bytes (process_runtime_host identity)));
  builder ← rec_field_u64 builder (host_epoch_value (process_runtime_host_epoch identity));
  builder ← rec_field_u64 builder (revision_value (process_source_revision identity));
  builder ← rec_field_bytes builder
    (vec_to_list (digest_bytes (slice_digest_value (process_target_slice_digest identity))));
  builder ← rec_field_bytes builder (vec_to_list (process_domain_bytes (process_domain identity)));
  rec_field_u64 builder (domain_epoch_value (process_domain_epoch identity)).

Definition append_loss_lineage (builder : Digest32Builder) (lineage : ProcessLossLineage) : Builder :=
  builder ← field_u32 builder (snapshot_process_tree_members lineage);
  builder ← field_u32 builder (snapshot_outstanding lineage);
  builder ← field_u32 builder (snapshot_held_ipc_credits lineage);
  builder ← rec_field_u64 builder (snapshot_retained_bytes lineage);
  builder ← field_u32 builder (crossed_handoffs lineage);
  builder ← field_u32 builder (classified_handoffs lineage);
  field_bool builder (lineage_external_effect_uncertain lineage).

Definition append_loss (builder : Digest32Builder) (invocation : ProcessInvocationLoss) : Builder :=
  builder ← rec_field_bytes builder (vec_to_list (instance_ref_bytes (loss_instance invocation)));
  builder ← rec_field_u64 builder (generation_epoch_value (loss_generation invocation));
  builder ← rec_field_u64 builder (invocation_value (loss_invocation invocation));
  field_tag builder (side_effect_tag (loss_side_effect invocation)).

Definition append_loss_observation (builder : Digest32Builder) (observation : ProcessLossObservation) : Builder :=
  builder ← append_identity builder (observation_identity observation);
  builder ← append_loss_lineage builder (observation_lineage observation);
  try_fold append_loss builder (uncertain_invocations observation).

Definition append_invocation (builder : Digest32Builder) (invocation : ProcessInvocationFailure) : Builder :=
  builder ← rec_field_bytes builder (vec_to_list (instance_ref_bytes (failure_instance invocation)));
  builder ← rec_field_u64 builder (generation_epoch_value (failure_generation invocation));
  builder ← rec_field_u64 builder (invocation_value (failure_invocation invocation));
  field_tag builder (side_effect_tag (failure_side_effect invocation)).

Definition append_census (builder : Digest32Builder) (census : ProcessCleanupCensus) : Builder :=
  builder ← field_bool builder (leader_reaped census);
  builder ← field_u32 builder (live_process_tree_members census);
  builder ← field_u32 builder (open_ipc_handles census);
  builder ← field_u32 builder (outstanding_ipc_credits census);
  builder ← rec_field_u64 builder (census_retained_bytes census);
  builder ← field_u32 builder (workspace_entries census);
  field_u32 builder (registered_resources census).

Definition append_fact_kind (builder : Digest32Builder) (kind : RuntimeFailureFactKind) : Builder :=
  match kind with
  | ProcessExited observation =>
      builder ← field_tag builder x01;
      builder ← field_bool builder (observation_expected observation);
      append_loss_observation builder observation
  | HeartbeatMissed last_sequence =>
      builder ← field_tag builder x02; rec_field_u64 builder last_sequence
  | ControlProbeMissed probe => builder ← field_tag builder x03; rec_field_u64 builder probe
  | WedgeDetected invocation => builder ← field_tag builder x04; append_invocation builder invocation
  | InvocationUncertain invocation => builder ← field_tag builder x05; append_invocation builder invocation
  | ProtocolViolation failure =>
      builder ← field_tag builder x06; field_tag builder (protocol_failure_tag failure)
  | ResourceLimitExceeded failure =>
      builder ← field_tag builder x0a; field_tag builder (resource_failure_tag failure)
  | OwnerInvariantViolation failure =>
      builder ← field_tag builder x0b; field_tag builder (owner_invariant_failure_tag failure)
  | LaunchFailed => field_tag builder x07
  | ShutdownFailed => field_tag builder x0c
  | CleanupCompleted proof =>
      builder ← field_tag builder x08;
      builder ← append_loss_lineage builder (proof_lineage proof);
      append_census builder (proof_census proof)
  | CleanupIncomplete census => builder ← field_tag builder x09; append_census builder census
  end.

Definition fingerprint_fact (fact : RuntimeFailureFact) : result RecoveryError Digest32 :=
  builder ← map_err digest_failed (digest_try_new RECOVERY_FACT_DIGEST_DOMAIN);
  builder ← append_identity builder (fact_identity fact);
  builder ← rec_field_u64 builder (fact_sequence fact);
  builder ← rec_field_bytes builder (vec_to_list (clock_domain_bytes (reading_domain (fact_observed_at fact))));
  builder ← rec_field_u64 builder (generation_value (reading_generation (fact_observed_at fact)));
  builder ← rec_field_u64 builder (now_value (fact_observed_at fact));
  builder ← append_fact_kind builder (fact_kind fact);
  Ok (finish sha256 builder).

Definition deterministic_jitter (state : RecoveryState) (cap : N) : result RecoveryError N :=
  builder ← map_err digest_failed (digest_try_new RECOVERY_JITTER_DIGEST_DOMAIN);
  builder ← append_identity builder (rs_identity state);
  next_attempt ← ok_or (checked_add u64_max (attempt_sequence state) 1) CounterOverflow;
  builder ← rec_field_u64 builder next_attempt;
  let digest := finish sha256 builder in
  let prefix := take 8 (vec_to_list (digest_bytes digest)) in
  range ← ok_or (checked_add u64_max cap 1) CounterOverflow;
  Ok (of_be_bytes prefix mod range)%N.

Definition u128_max : N := 2 ^ 128 - 1.

Definition restart_delay (state : RecoveryState) : result RecoveryError N :=
  let initial := duration_value (initial_backoff (rs_restart state)) in
  let maximum := duration_value (max_backoff (rs_restart state)) in
  let base := Nat.iter (List.length (attempts state))
    (fun base => N.min (default maximum (checked_mul u64_max base 2)) maximum) initial in
  product ← ok_or (checked_mul u128_max base (jitter_basis_points (rs_restart state))) CounterOverflow;
  let jitter_cap := (product / 10000)%N in
  let available := saturating_sub maximum base in
  jitter_cap ← ok_or (try_from u64_max jitter_cap) CounterOverflow;
  let jitter_cap := N.min jitter_cap available in
  jitter ← (if (jitter_cap =? 0)%N then Ok 0%N else deterministic_jitter state jitter_cap);
  ok_or (checked_add u64_max base jitter) CounterOverflow.

Definition schedule_after_cleanup (state : RecoveryState) (observed_at : ClockReading) : Transition :=
  _ ← ensure_loss_settled state;
  bail CleanupNotProven when negb (cleanup_proven state);
  if external_effect_uncertain state then quarantine state ExternalEffectUncertain
  else match quarantine_reason state with
  | Some reason => quarantine state reason
  | None =>
      if negb (restart_after_cleanup state) then Ok (unchanged (set_phase Stopped state))
      else
        state ← prune_attempts state observed_at;
        exhausted ← attempts_exhausted state;
        if (exhausted : bool) then quarantine state RestartAttemptsExhausted
        else
          delay ← restart_delay state;
          value ← ok_or (checked_add u64_max (now_value observed_at) delay) DeadlineOverflow;
          let restart_at := from_ticks value in
          Ok (waiting (set_phase (Backoff restart_at) state) restart_at)
  end.

(** ** The reducer *)

(** The facts a quarantined generation still listens to. *)
Definition quarantined_ignores (state : RecoveryState) (kind : RuntimeFailureFactKind) : bool :=
  match rs_phase state with
  | Quarantined _ =>
      cleanup_proven state
      || match kind with ProcessExited _ | CleanupCompleted _ | CleanupIncomplete _ => false | _ => true end
  | _ => false
  end.

Definition observe_process_exited (next : RecoveryState) (observation : ProcessLossObservation) : Transition :=
  bail ProcessLossAlreadyObserved when bool_decide (is_Some (loss_lineage next));
  bail UnsettledProcessHandoffs when negb (all_crossed_handoffs_settled observation);
  let expected := observation_expected observation in
  let lineage := observation_lineage observation in
  let next := set_external (external_effect_uncertain next || lineage_external_effect_uncertain lineage)
    (set_loss (Some lineage) (lineage_unsettled_handoffs lineage) true next) in
  if expected && bool_decide (rs_phase next = Healthy)
  then issue (set_restart_after_cleanup false next) Fencing FenceAndStopAdmission
  else if bool_decide (rs_phase next = Healthy)
  then issue (set_restart_after_cleanup true next) Fencing FenceAndStopAdmission
  else if bool_decide (pending_action next = None)
          && match rs_phase next with
             | Cleaning | AwaitingCleanup _ | Backoff _ | StartingFresh _ | Recovered _ | Stopped => false
             | _ => true
             end
  then begin_cleanup next
  else Ok (unchanged next).

Definition observe_invocation_failure (next : RecoveryState) (invocation : ProcessInvocationFailure) : Transition :=
  if bool_decide (failure_side_effect invocation <> EffectFree)
  then
    let next := set_external true next in
    match rs_phase next with
    | Backoff _ | Recovered _ | Stopped => quarantine next ExternalEffectUncertain
    | _ => begin_failure next
    end
  else begin_failure next.

Definition observe_cleanup_completed (next : RecoveryState) (proof : ProcessCleanupProof)
    (fact_observed_at : ClockReading) : Transition :=
  bail GenerationMismatch when bool_decide (proof_identity proof <> rs_identity next);
  lineage ← ok_or (loss_lineage next) ProcessLossNotObserved;
  bail UnsettledProcessHandoffs when negb (unsettled_handoffs next =? 0)%N;
  bail CleanupLineageMismatch when bool_decide (proof_lineage proof <> lineage);
  let next := set_external
    (external_effect_uncertain next || lineage_external_effect_uncertain (proof_lineage proof)) next in
  deadline ← match rs_phase next with
             | AwaitingCleanup deadline => Ok (Some deadline)
             | Quarantined _ =>
                 if bool_decide (is_Some (quarantine_reason next)) then Ok None else Err UnexpectedCleanupFact
             | _ => Err UnexpectedCleanupFact
             end;
  let next := set_proven true next in
  if match deadline with Some deadline => reached fact_observed_at deadline | None => false end
  then quarantine next ReasonCleanupNotProven
  else if bool_decide (is_Some (pending_action next)) then Ok (unchanged next)
  else schedule_after_cleanup next fact_observed_at.

Definition observe_cleanup_incomplete (next : RecoveryState) : Transition :=
  match rs_phase next with
  | AwaitingCleanup _ => quarantine next ReasonCleanupNotProven
  | Quarantined _ =>
      if bool_decide (is_Some (quarantine_reason next)) then Ok (unchanged next) else Err UnexpectedCleanupFact
  | _ => Err UnexpectedCleanupFact
  end.

Definition observe_fact (state : RecoveryState) (fact : RuntimeFailureFact) : Transition :=
  bail GenerationMismatch when bool_decide (fact_identity fact <> rs_identity state);
  _ ← validate_clock (rs_last_observed_at state) (fact_observed_at fact);
  fingerprint ← fingerprint_fact fact;
  bail StaleFact when (fact_sequence fact <? last_fact_sequence state)%N;
  if (fact_sequence fact =? last_fact_sequence state)%N
  then if bool_decide (last_fact_fingerprint state = Some fingerprint)
       then Ok (unchanged state) else Err ConflictingFact
  else
    let next := set_observed_at (fact_observed_at fact)
      (set_fact (fact_sequence fact) (Some fingerprint) state) in
    if quarantined_ignores next (fact_kind fact) then Ok (unchanged next)
    else match fact_kind fact with
    | ProcessExited observation => observe_process_exited next observation
    | HeartbeatMissed _ | ControlProbeMissed _ | ProtocolViolation _ | ResourceLimitExceeded _
    | LaunchFailed => begin_failure next
    | ShutdownFailed => begin_failure next
    | OwnerInvariantViolation _ => begin_owner_invariant_failure next
    | WedgeDetected invocation | InvocationUncertain invocation => observe_invocation_failure next invocation
    | CleanupCompleted proof => observe_cleanup_completed next proof (fact_observed_at fact)
    | CleanupIncomplete _ => observe_cleanup_incomplete next
    end.

(** A failed action of [complete_action]. *)
Definition complete_failed (next : RecoveryState) (act : RecoveryAction) : Transition :=
  match act with
  | RequestCooperativeStop =>
      let next := remember_action_failure next in
      if process_exited next then begin_cleanup next else issue next Terminating SendTerminate
  | SendTerminate =>
      let next := remember_action_failure next in
      if process_exited next then begin_cleanup next else issue next Killing SendKill
  | SendKill =>
      let next := remember_action_failure next in
      if process_exited next then begin_cleanup next
      else reason ← ok_or (quarantine_reason next) StateInconsistent; quarantine next reason
  | EnterQuarantine reason =>
      let next := remember_quarantine_reason reason next in
      let next := if external_effect_uncertain next
                  then remember_quarantine_reason ExternalEffectUncertain next else next in
      reason ← ok_or (quarantine_reason next) StateInconsistent;
      Ok (unchanged (set_phase (Quarantined reason) next))
  | FenceAndStopAdmission | CollectCleanup | StartFreshDomain _ =>
      let next := remember_action_failure next in
      reason ← ok_or (quarantine_reason next) StateInconsistent; quarantine next reason
  end.

(** The stop signals: cleanup when the loss is known, else wait for it. *)
Definition complete_stop_signal (next : RecoveryState) (outcome : RecoveryActionOutcome)
    (observed_at : ClockReading) (budget : BoundedDuration)
    (phase : MonotonicInstant -> RecoveryPhase) : Transition :=
  if process_exited next then begin_cleanup next
  else if bool_decide (outcome = ProcessAlreadyExited) then await_process_loss next observed_at
  else
    deadline ← add_budget observed_at budget;
    Ok (waiting (set_phase (phase deadline) next) deadline).

(** An action of [complete_action] that did not fail. *)
Definition complete_done (next : RecoveryState) (act : RecoveryAction) (outcome : RecoveryActionOutcome)
    (observed_at : ClockReading) : Transition :=
  match act with
  | FenceAndStopAdmission =>
      if process_exited next then begin_cleanup next
      else issue next CooperativeStopping RequestCooperativeStop
  | RequestCooperativeStop =>
      complete_stop_signal next outcome observed_at (cooperative_stop (rs_lifecycle next)) WaitingCooperative
  | SendTerminate =>
      complete_stop_signal next outcome observed_at (terminate_grace (rs_lifecycle next)) WaitingTerminate
  | SendKill => complete_stop_signal next outcome observed_at (kill_grace (rs_lifecycle next)) WaitingKill
  | CollectCleanup =>
      _ ← ensure_loss_settled next;
      deadline ← add_budget observed_at (cleanup (rs_lifecycle next));
      Ok (waiting (set_phase (AwaitingCleanup deadline) next) deadline)
  | StartFreshDomain next_epoch =>
      _ ← ensure_loss_settled next;
      bail CleanupNotProven when negb (cleanup_proven next);
      if external_effect_uncertain next then quarantine next ExternalEffectUncertain
      else match quarantine_reason next with
           | Some reason => quarantine next reason
           | None => Ok (unchanged (set_phase (Recovered next_epoch) next))
           end
  | EnterQuarantine reason =>
      let next := remember_quarantine_reason reason next in
      let next := if external_effect_uncertain next
                  then remember_quarantine_reason ExternalEffectUncertain next else next in
      let next := set_entered true next in
      if process_exited next && negb (cleanup_proven next) then begin_cleanup next
      else
        reason ← ok_or (quarantine_reason next) StateInconsistent;
        Ok (unchanged (set_phase (Quarantined reason) next))
  end.

Definition is_stop_signal (act : RecoveryAction) : bool :=
  match act with RequestCooperativeStop | SendTerminate | SendKill => true | _ => false end.

Definition complete_action (state : RecoveryState) (id : N) (outcome : RecoveryActionOutcome)
    (observed_at : ClockReading) : Transition :=
  _ ← validate_clock (rs_last_observed_at state) observed_at;
  let perform :=
    pending ← ok_or (pending_action state) NoActionPending;
    bail ActionMismatch when negb (action_id pending =? id)%N;
    bail InvalidActionOutcome
      when bool_decide (outcome = ProcessAlreadyExited) && negb (is_stop_signal (action pending));
    let next := set_observed_at observed_at
      (set_completed (Some {| completed_action_id := id; completed_outcome := outcome |})
        (set_pending None state)) in
    if bool_decide (outcome = Failed) then complete_failed next (action pending)
    else complete_done next (action pending) outcome observed_at in
  match last_completed_action state with
  | Some completed =>
      if (completed_action_id completed =? id)%N && bool_decide (completed_outcome completed = outcome)
      then Ok (unchanged state)
      else if (completed_action_id completed =? id)%N then Err ConflictingActionCompletion
      else perform
  | None => perform
  end.

Definition roll_generation (state : RecoveryState) (identity : ProcessGenerationIdentity)
    (observed_at : ClockReading) : result RecoveryError RecoveryState :=
  _ ← validate_clock (rs_last_observed_at state) observed_at;
  match rs_phase state with
  | Recovered next_epoch =>
      bail StateInconsistent when bool_decide (is_Some (pending_action state));
      bail StateInconsistent
        when external_effect_uncertain state
          || bool_decide (is_Some (quarantine_reason state)) || quarantine_entered state;
      bail GenerationContinuityMismatch
        when bool_decide (process_runtime_host identity <> process_runtime_host (rs_identity state))
          || bool_decide (process_runtime_host_epoch identity <> process_runtime_host_epoch (rs_identity state))
          || bool_decide (process_source_revision identity <> process_source_revision (rs_identity state))
          || bool_decide (process_target_slice_digest identity <> process_target_slice_digest (rs_identity state))
          || bool_decide (process_domain identity <> process_domain (rs_identity state))
          || bool_decide (process_domain_epoch identity <> next_epoch);
      Ok {| rs_identity := identity; rs_lifecycle := rs_lifecycle state; rs_restart := rs_restart state;
            rs_replay := rs_replay state; rs_phase := Healthy; restart_after_cleanup := false;
            process_exited := false; external_effect_uncertain := false; quarantine_reason := None;
            quarantine_entered := false; loss_lineage := None; unsettled_handoffs := 0;
            cleanup_proven := false; attempt_sequence := attempt_sequence state;
            attempts := attempts state; next_action_id := next_action_id state;
            pending_action := pending_action state; last_completed_action := last_completed_action state;
            last_fact_sequence := 0; last_fact_fingerprint := None; rs_last_observed_at := observed_at |}
  | _ => Err GenerationRollNotReady
  end.

(** The backoff is over: consume an attempt and start the next generation. *)
Definition poll_backoff (next : RecoveryState) (observed_at : ClockReading) : Transition :=
  _ ← ensure_loss_settled next;
  bail CleanupNotProven when negb (cleanup_proven next);
  next ← prune_attempts next observed_at;
  exhausted ← attempts_exhausted next;
  if (exhausted : bool) then quarantine next RestartAttemptsExhausted
  else match epoch_try_next MkDomainEpoch domain_epoch_value (process_domain_epoch (rs_identity next)) with
  | Ok next_epoch =>
      value ← ok_or (checked_add u64_max (attempt_sequence next) 1) CounterOverflow;
      let next := set_attempts (attempts next ++ [reading_now observed_at]) (set_attempt_sequence value next) in
      issue next (StartingFresh next_epoch) (StartFreshDomain next_epoch)
  | Err _ => quarantine next ReasonEpochExhausted
  | Panic => Panic
  end.

Definition poll (state : RecoveryState) (observed_at : ClockReading) : Transition :=
  _ ← validate_clock (rs_last_observed_at state) observed_at;
  match pending_action state with
  | Some pending =>
      Ok {| transition_state := state; transition_decision := AwaitingAction (action_id pending) |}
  | None =>
      let next := set_observed_at observed_at state in
      match rs_phase next with
      | WaitingCooperative deadline =>
          if negb (reached observed_at deadline) then Ok (waiting next deadline)
          else issue next Terminating SendTerminate
      | WaitingTerminate deadline =>
          if negb (reached observed_at deadline) then Ok (waiting next deadline)
          else issue next Killing SendKill
      | WaitingKill deadline | AwaitingProcessLoss deadline | AwaitingCleanup deadline =>
          if negb (reached observed_at deadline) then Ok (waiting next deadline)
          else quarantine next ReasonCleanupNotProven
      | Backoff restart_at =>
          if negb (reached observed_at restart_at) then Ok (waiting next restart_at)
          else poll_backoff next observed_at
      | Quarantined _ =>
          if process_exited next && negb (cleanup_proven next) then begin_cleanup next
          else Ok (unchanged next)
      | Healthy | Recovered _ | Stopped => Ok (unchanged next)
      | Fencing | CooperativeStopping | Terminating | Killing | Cleaning | StartingFresh _ =>
          Err StateInconsistent
      end
  end.
End digests.
