(* ===== verification/RecoveryInv.v ===== *)
(** * Process-domain recovery: the invariant of the reducer

    What holds of every state the reducer returns, and that no operation
    fails with one of the errors that report a broken reducer state. *)

From S2P Require Import Prelude Bytes KernelTime KernelDigest ApplyContracts Assignment CardInstance Liveness RuntimeOwnership Recovery.
Open Scope rust_scope.

(** ** The invariant *)

(** Phases in which an action is pending. *)
Definition acts (phase : RecoveryPhase) (act : RecoveryAction) : Prop :=
  match phase, act with
  | Fencing, FenceAndStopAdmission | CooperativeStopping, RequestCooperativeStop
  | Terminating, SendTerminate | Killing, SendKill | Cleaning, CollectCleanup => True
  | StartingFresh e, StartFreshDomain e' => e = e'
  | Quarantined r, EnterQuarantine r' => r = r'
  | _, _ => False
  end.
(** Phases in which none has to be. *)
Definition idle (phase : RecoveryPhase) : Prop :=
  match phase with
  | Fencing | CooperativeStopping | Terminating | Killing | Cleaning | StartingFresh _ => False
  | _ => True
  end.

(** A generation that may not be restarted. *)
Definition doomed (s : RecoveryState) : Prop :=
  external_effect_uncertain s = true \/ is_Some (quarantine_reason s).
Definition clean (s : RecoveryState) : Prop :=
  external_effect_uncertain s = false /\ quarantine_reason s = None /\ quarantine_entered s = false.

Definition successor (s : RecoveryState) (e : DomainEpoch) : Prop :=
  domain_epoch_value e = (domain_epoch_value (process_domain_epoch (rs_identity s)) + 1)%N /\
  (domain_epoch_value e <= u64_max)%N.

(** What a phase says about the rest of the state. *)
Definition phase_holds (phase : RecoveryPhase) (s : RecoveryState) : Prop :=
  match phase with
  | Healthy => clean s /\ loss_lineage s = None /\ cleanup_proven s = false
  | Fencing | CooperativeStopping | Terminating | Killing =>
      cleanup_proven s = false /\ quarantine_entered s = false
  | WaitingCooperative _ | WaitingTerminate _ | WaitingKill _ | AwaitingProcessLoss _ =>
      loss_lineage s = None /\ cleanup_proven s = false /\ quarantine_entered s = false
  | Cleaning | AwaitingCleanup _ => is_Some (loss_lineage s) /\ cleanup_proven s = false
  | Backoff _ => clean s /\ cleanup_proven s = true /\ restart_after_cleanup s = true
  | StartingFresh e =>
      quarantine_entered s = false /\ cleanup_proven s = true /\ restart_after_cleanup s = true /\ successor s e
  | Recovered e => clean s /\ cleanup_proven s = true /\ restart_after_cleanup s = true /\ successor s e
  | Stopped => clean s /\ cleanup_proven s = true
  | Quarantined _ => is_Some (quarantine_reason s)
  end.

Definition loss_holds (s : RecoveryState) : Prop :=
  match loss_lineage s with
  | None => process_exited s = false /\ cleanup_proven s = false
  | Some lineage =>
      process_exited s = true /\ lineage_unsettled_handoffs lineage = 0%N /\
      lineage_identity lineage = rs_identity s /\
      (lineage_external_effect_uncertain lineage = true -> external_effect_uncertain s = true)
  end.

Definition completed_before (s : RecoveryState) (id : N) : Prop :=
  match last_completed_action s with None => True | Some c => (completed_action_id c <= id)%N end.

(** The part of the invariant that speaks neither of the phase nor of the
    pending action. *)
Definition base_inv (s : RecoveryState) : Prop :=
  loss_holds s /\ unsettled_handoffs s = 0%N /\
  (quarantine_entered s = true -> is_Some (quarantine_reason s)) /\
  (len (attempts s) <= max_attempts (rs_restart s))%N /\
  StronglySorted (fun a b => instant_value a <= instant_value b)%N (attempts s) /\
  Forall (fun a => instant_value a <= now_value (rs_last_observed_at s))%N (attempts s).

Definition pending_holds (s : RecoveryState) : Prop :=
  match pending_action s with
  | None => idle (rs_phase s) /\ completed_before s (next_action_id s)
  | Some e =>
      acts (rs_phase s) (action e) /\ action_id e = next_action_id s /\
      (0 < next_action_id s)%N /\ completed_before s (next_action_id s - 1)
  end.

Record rec_inv (s : RecoveryState) : Prop := {
  rec_base : base_inv s;
  rec_phase : phase_holds (rs_phase s) s;
  rec_pending : pending_holds s;
}.

(** Errors that report a reducer state no run should reach. *)
Definition broken (e : RecoveryError) : bool :=
  match e with
  | StateInconsistent | ActionAlreadyPending | CleanupNotProven => true
  | _ => false
  end.

(** ** What a call changes *)

Definition is_start (act : RecoveryAction) : bool :=
  match act with StartFreshDomain _ => true | _ => false end.

(** The restart ledger along one call: attempts older than the window may be
    dropped, and a fresh start appends the time of the call. *)
Definition ledger_step (s s' : RecoveryState) (start : bool) : Prop :=
  exists dropped kept,
    attempts s = dropped ++ kept /\
    Forall (fun a => instant_value a + duration_value (restart_window (rs_restart s))
                       <= now_value (rs_last_observed_at s'))%N dropped /\
    attempts s' = kept ++ (if start then [reading_now (rs_last_observed_at s')] else []) /\
    (start = true -> (len kept < max_attempts (rs_restart s))%N).

Definition later (r r' : ClockReading) : Prop :=
  reading_domain r' = reading_domain r /\ reading_generation r' = reading_generation r /\
  (now_value r <= now_value r')%N.

Definition carried (s s' : RecoveryState) (start : bool) : Prop :=
  rs_identity s' = rs_identity s /\
  (rs_lifecycle s' = rs_lifecycle s /\ rs_restart s' = rs_restart s) /\
  (doomed s -> doomed s') /\
  later (rs_last_observed_at s) (rs_last_observed_at s') /\
  ledger_step s s' start.

(** The relation between the state a call is given and its transition: at
    most one action is issued, under the next id. *)
Definition moved (s s' : RecoveryState) (d : RecoveryDecision) : Prop :=
  match d with
  | Execute e =>
      carried s s' (is_start (action e)) /\ action_id e = (next_action_id s + 1)%N /\
      (action_id e <= u64_max)%N /\ next_action_id s' = action_id e /\ pending_action s' = Some e
  | _ => carried s s' false /\ next_action_id s' = next_action_id s
  end.

Definition good (s : RecoveryState) (r : Transition) : Prop :=
  match r with
  | Ok t => rec_inv (transition_state t) /\ moved s (transition_state t) (transition_decision t)
  | Err e => broken e = false
  | Panic => False
  end.

(** ** The helpers *)

Lemma good_bind {A : Type} s (r : result RecoveryError A) (f : A -> Transition) :
  r <> Panic -> (forall e, r = Err e -> broken e = false) -> (forall a, r = Ok a -> good s (f a)) ->
  good s (r ≫= f).
Proof. destruct r as [a|e|]; simpl; [intros _ _ H; by apply H|intros _ H _; by apply H|done]. Qed.

Lemma good_unchanged s n :
  rec_inv n -> carried s n false -> next_action_id n = next_action_id s -> good s (Ok (unchanged n)).
Proof.
  intros Hi Hc Hn. split; [done|]. unfold unchanged. simpl. by destruct (pending_action n).
Qed.
Lemma good_waiting s n deadline :
  rec_inv n -> carried s n false -> next_action_id n = next_action_id s -> good s (Ok (waiting n deadline)).
Proof. done. Qed.

(** A state in the middle of a call, about to settle on a phase. *)
Definition settling (s n : RecoveryState) (start : bool) : Prop :=
  base_inv n /\ pending_action n = None /\ completed_before n (next_action_id n) /\
  carried s n start /\ next_action_id n = next_action_id s.

Lemma settle s n phase :
  settling s n false -> phase_holds phase n -> idle phase ->
  rec_inv (set_phase phase n) /\ carried s (set_phase phase n) false.
Proof.
  intros (Hb & Hp & Hco & Hc & Hn) Hph Hid. split; [|exact Hc]. split; [exact Hb|exact Hph|].
  unfold pending_holds. simpl. rewrite Hp. done.
Qed.

Lemma good_issue s n phase act :
  settling s n (is_start act) -> phase_holds phase n -> acts phase act -> good s (issue n phase act).
Proof.
  intros (Hb & Hp & Hco & Hc & Hn) Hph Ha. unfold issue. rewrite Hp. simpl.
  destruct (checked_add u64_max (next_action_id n) 1) as [value|] eqn:Hv; simpl; [|done].
  apply checked_add_Some in Hv as [-> Hv]. split.
  - split; [exact Hb|exact Hph|]. unfold pending_holds. simpl. split_and!; [done|done|lia|].
    unfold completed_before in *. simpl. destruct (last_completed_action n); [lia|done].
  - split; [exact Hc|]. simpl. by rewrite Hn in *.
Qed.

Lemma remember_cases r n :
  remember_quarantine_reason r n = n /\ is_Some (quarantine_reason n) \/
  remember_quarantine_reason r n = set_reason (Some r) n.
Proof.
  unfold remember_quarantine_reason. destruct (quarantine_reason n) eqn:Hq; [|by right].
  case_match; [by right|]. left. by split.
Qed.

Lemma remember_doomed r n : doomed (remember_quarantine_reason r n).
Proof. destruct (remember_cases r n) as [[-> H]| ->]; right; [done|by eexists]. Qed.
Lemma carried_remember s n r start :
  carried s n start -> carried s (remember_quarantine_reason r n) start.
Proof.
  intros Hc. pose proof (remember_doomed r n) as Hd.
  destruct (remember_cases r n) as [[Heq _]|Heq]; rewrite Heq in *; [done|].
  destruct Hc as (H1 & H2 & H3 & H4 & H5). by repeat (split; [done|]).
Qed.
Lemma base_remember n r : base_inv n -> base_inv (remember_quarantine_reason r n).
Proof.
  intros Hb. destruct (remember_cases r n) as [[-> _]| ->]; [done|].
  destruct Hb as (H1 & H2 & H3 & H4). split; [done|]. split; [done|]. split; [by eexists|done].
Qed.
Lemma settling_remember s n r start :
  settling s n start -> settling s (remember_quarantine_reason r n) start.
Proof.
  intros (Hb & Hp & Hco & Hc & Hn). pose proof (base_remember n r Hb). pose proof (carried_remember s n r start Hc).
  destruct (remember_cases r n) as [[Heq _]|Heq]; rewrite Heq in *; by repeat (split; [done|]).
Qed.
(** Remembering a reason while an action is pending. *)
Lemma rec_inv_remember n r :
  rec_inv n -> is_Some (pending_action n) -> rec_inv (remember_quarantine_reason r n).
Proof.
  intros [Hb Hph Hp] [e He]. pose proof (base_remember n r Hb).
  destruct (remember_cases r n) as [[Heq _]|Heq]; rewrite Heq in *; [by split|]. split; [done| |done].
  unfold pending_holds in Hp. rewrite He in Hp. destruct Hp as [Ha _].
  simpl. destruct (rs_phase n), (action e); simpl in *; try done; by eexists.
Qed.

(** A state in the middle of a call: settling, or with its action still
    pending. *)
Definition passing (s n : RecoveryState) : Prop :=
  settling s n false \/
  rec_inv n /\ is_Some (pending_action n) /\ carried s n false /\ next_action_id n = next_action_id s.

Lemma good_quarantine s n r : passing s n -> good s (quarantine n r).
Proof.
  intros Hp. unfold quarantine.
  assert (exists r', quarantine_reason (remember_quarantine_reason r n) = Some r') as [r' Hr].
  { destruct (remember_cases r n) as [[-> [r' ?]]| ->]; by eexists. }
  rewrite Hr. simpl. destruct Hp as [Hset|(Hi & He & Hc & Hn)].
  - pose proof (settling_remember s n r false Hset) as Hset'. clear Hset.
    destruct Hset' as (Hb & Hpe & Hco & Hc & Hn) eqn:Heq. rewrite Hpe. rewrite bool_decide_eq_false_2 by by intros [].
    destruct (quarantine_entered _) eqn:Hent.
    + destruct (settle s (remember_quarantine_reason r n) (Quarantined r')) as [Hi Hc']; [done|by eexists|done|].
      by apply good_unchanged.
    + apply good_issue; [done|by eexists|done].
  - pose proof (rec_inv_remember n r Hi He) as Hi'. pose proof (carried_remember s n r false Hc) as Hc'.
    destruct (remember_cases r n) as [[Heq _]|Heq]; rewrite Heq in *.
    all: rewrite bool_decide_eq_true_2 by done; by apply good_unchanged.
Qed.

Lemma carried_set_restart s n b : carried s n false -> carried s (set_restart_after_cleanup b n) false.
Proof. intros H. exact H. Qed.

(** A failure while the generation is not healthy only records the wish to
    restart. *)
Lemma rec_inv_restart n : rec_inv n -> rec_inv (set_restart_after_cleanup true n).
Proof. intros [Hb Hph Hp]. split; [exact Hb| |exact Hp]. simpl. destruct (rs_phase n); simpl in *; naive_solver. Qed.

(** What a failure needs: the phase is right and, in the healthy phase, a
    fence may be issued. *)
Definition facing (s n : RecoveryState) : Prop :=
  base_inv n /\ pending_holds n /\ carried s n false /\ next_action_id n = next_action_id s /\
  (if bool_decide (rs_phase n = Healthy) then cleanup_proven n = false /\ quarantine_entered n = false
   else phase_holds (rs_phase n) n).

Lemma good_begin_failure s n : facing s n -> good s (begin_failure n).
Proof.
  intros (Hb & Hp & Hc & Hn & Hph). unfold begin_failure. simpl. case_bool_decide as Hh.
  - unfold pending_holds in Hp. rewrite Hh in Hp. apply good_issue; [|done|done].
    destruct (pending_action n) eqn:He; [destruct Hp as [Ha _]; done|]. destruct Hp as [_ Hco]. by split_and!.
  - apply (good_unchanged s (set_restart_after_cleanup true n)); [|exact Hc|done].
    apply rec_inv_restart. by split.
Qed.

Lemma loss_settled n : base_inv n -> is_Some (loss_lineage n) -> exists l, ensure_loss_settled n = Ok l.
Proof.
  intros (Hl & Hu & _) [l Hs]. unfold loss_holds in Hl. rewrite Hs in Hl. destruct Hl as (_ & Hz & _).
  exists l. unfold ensure_loss_settled. rewrite Hs, Hu. simpl. rewrite Hz. done.
Qed.

Lemma good_begin_cleanup s n :
  settling s n false -> process_exited n = true -> cleanup_proven n = false -> good s (begin_cleanup n).
Proof.
  intros Hset He Hcl. pose proof Hset as (Hb & _). unfold begin_cleanup.
  assert (is_Some (loss_lineage n)) as Hl.
  { destruct Hb as (Hl & _). unfold loss_holds in Hl. destruct (loss_lineage n); [by eexists|]. destruct Hl; congruence. }
  destruct (loss_settled n Hb Hl) as [l ->]. simpl. rewrite He. simpl. by apply good_issue.
Qed.

(** ** The restart ledger *)

Lemma recovery_clock_Ok p c : validate_clock p c = Ok tt <-> later p c.
Proof.
  unfold validate_clock, later. split.
  - intros H. rust_inv. split_and!; [by symmetry; apply dec_stable|by symmetry; apply dec_stable|lia].
  - intros (-> & -> & H). rewrite !bool_decide_ne_refl. simpl. by rewrite (proj2 (N.ltb_ge _ _)).
Qed.
Lemma validate_clock_cases p c :
  later p c /\ validate_clock p c = Ok tt \/ exists e, validate_clock p c = Err e /\ broken e = false.
Proof.
  destruct (validate_clock p c) as [[]|e|] eqn:H; [left|right|exfalso; revert H; unfold validate_clock; no_panic].
  - split; [|done]. by apply recovery_clock_Ok.
  - exists e. split; [done|]. revert H. unfold validate_clock, fail_if.
destruct (_ || _); simpl; [naive_solver|]. destruct (_ <? _)%N; simpl; naive_solver.
Qed.
Lemma later_refl r : later r r.
Proof. by split_and!. Qed.
Lemma later_trans r1 r2 r3 : later r1 r2 -> later r2 r3 -> later r1 r3.
Proof. unfold later. intros (-> & -> & ?) (-> & -> & ?). split_and!; [done|done|lia]. Qed.

Lemma window_check l window u :
  try_fold (E:=RecoveryError) (fun _ attempt =>
    _ ← ok_or (checked_add u64_max (instant_value attempt) window) DeadlineOverflow; Ok tt) tt l = Ok u ->
  Forall (fun a => instant_value a + window <= u64_max)%N l.
Proof.
  induction l as [|a l IH]; [constructor|]. cbn [try_fold]. intros ([] & Ha & H)%bind_Ok.
  constructor; [rust_inv; lia|by apply IH].
Qed.

(** Pruning a sorted ledger drops its oldest part. *)
Lemma prune_prefix l window now :
  Forall (fun a => instant_value a + window <= u64_max)%N l ->
  StronglySorted (fun a b => instant_value a <= instant_value b)%N l ->
  exists dropped,
    l = dropped ++ base.filter (fun a => now < saturating_add u64_max (instant_value a) window)%N l /\
    Forall (fun a => instant_value a + window <= now)%N dropped.
Proof.
  intros Hw Hs. induction Hs as [|a l Hl IH Ha]; [by exists []|].
  apply Forall_cons in Hw as [Hwa Hw]. rewrite filter_cons. unfold saturating_add in *.
  case_decide as Hd.
  - exists []. split; [|constructor]. simpl. f_equal. symmetry. apply filter_all.
    rewrite Forall_forall in *. intros b Hb. specialize (Ha b Hb). specialize (Hw b Hb). lia.
  - destruct (IH Hw) as (dropped & Hd1 & Hd2). exists (a :: dropped). split; [simpl; by f_equal|].
    constructor; [lia|done].
Qed.

Definition keep_attempts (s : RecoveryState) : list MonotonicInstant :=
  base.filter (fun a => now_value (rs_last_observed_at s)
    < saturating_add u64_max (instant_value a) (duration_value (restart_window (rs_restart s))))%N (attempts s).

Lemma prune_Ok n n' :
  prune_attempts n (rs_last_observed_at n) = Ok n' ->
  n' = set_attempts (keep_attempts n) n /\
  Forall (fun a => instant_value a + duration_value (restart_window (rs_restart n)) <= u64_max)%N (attempts n).
Proof.
  unfold prune_attempts. intros H. rust_inv.
  match goal with H : try_fold _ _ _ = Ok _ |- _ => apply window_check in H end. done.
Qed.
Lemma prune_cases n :
  (exists n', prune_attempts n (rs_last_observed_at n) = Ok n') \/
  prune_attempts n (rs_last_observed_at n) = Err DeadlineOverflow.
Proof.
  unfold prune_attempts. rewrite (proj2 (recovery_clock_Ok _ _)) by apply later_refl. simpl.
  generalize (duration_value (restart_window (rs_restart n))). intros w.
  assert (forall l, try_fold (E:=RecoveryError) (fun _ attempt =>
    _ ← ok_or (checked_add u64_max (instant_value attempt) w) DeadlineOverflow; Ok tt) tt l = Ok tt \/
    try_fold (E:=RecoveryError) (fun _ attempt =>
    _ ← ok_or (checked_add u64_max (instant_value attempt) w) DeadlineOverflow; Ok tt) tt l = Err DeadlineOverflow) as H.
  { induction l as [|a l IH]; [by left|]. cbn [try_fold]. destruct (checked_add u64_max (instant_value a) w); simpl; [done|by right]. }
  destruct (H (attempts n)) as [Hf|Hf]; rewrite Hf; simpl; [left; by eexists|by right].
Qed.

Lemma base_keep n :
  base_inv n ->
  Forall (fun a => instant_value a + duration_value (restart_window (rs_restart n)) <= u64_max)%N (attempts n) ->
  base_inv (set_attempts (keep_attempts n) n) /\
  exists dropped, attempts n = dropped ++ keep_attempts n /\
    Forall (fun a => instant_value a + duration_value (restart_window (rs_restart n))
                       <= now_value (rs_last_observed_at n))%N dropped.
Proof.
  intros (H1 & H2 & H3 & H4 & H5 & H6) Hw.
  destruct (prune_prefix (attempts n) (duration_value (restart_window (rs_restart n)))
    (now_value (rs_last_observed_at n)) Hw H5) as (dropped & Hd & Hold).
  fold (keep_attempts n) in Hd. split; [|by exists dropped].
  rewrite Hd in H4, H5, H6. split; [done|]. split; [done|]. split; [done|]. simpl.
  rewrite len_app in H4. apply StronglySorted_app in H5 as (_ & _ & H5). apply Forall_app in H6 as [_ H6].
  split_and!; [lia|done|done].
Qed.

(** A ledger step followed by dropping what is too old. *)
Lemma ledger_keep s n :
  rs_restart n = rs_restart s -> ledger_step s n false ->
  base_inv n ->
  Forall (fun a => instant_value a + duration_value (restart_window (rs_restart n)) <= u64_max)%N (attempts n) ->
  ledger_step s (set_attempts (keep_attempts n) n) false.
Proof.
  intros Hr (d1 & k1 & H1 & H2 & H3 & _) Hb Hw.
  destruct (base_keep n Hb Hw) as (_ & d2 & H4 & H5).
  exists (d1 ++ d2), (keep_attempts n). simpl. rewrite app_nil_r in *. split_and!; [|apply Forall_app; split; [done|by rewrite <-Hr]|done|done].
  by rewrite H1, <-H3, H4, <-app_assoc.
Qed.
Lemma settling_keep s n :
  settling s n false ->
  Forall (fun a => instant_value a + duration_value (restart_window (rs_restart n)) <= u64_max)%N (attempts n) ->
  settling s (set_attempts (keep_attempts n) n) false.
Proof.
  intros (Hb & Hp & Hco & (C1 & C2 & C3 & C4 & C5) & Hn) Hw.
  split; [by apply base_keep|]. split; [done|]. split; [done|]. split; [|done].
  split; [done|]. split; [done|]. split; [done|]. split; [done|]. apply ledger_keep; try done. apply C2.
Qed.

(** ** Computations that fail only with ordinary errors *)

Definition quiet {A : Type} (r : result RecoveryError A) : Prop :=
  match r with Ok _ => True | Err e => broken e = false | Panic => False end.

Lemma quiet_bind {A B : Type} (r : result RecoveryError A) (f : A -> result RecoveryError B) :
  quiet r -> (forall a, quiet (f a)) -> quiet (r ≫= f).
Proof. destruct r; simpl; auto. Qed.
Lemma quiet_ok_or {A : Type} (o : option A) e : broken e = false -> quiet (ok_or o e).
Proof. by destruct o. Qed.
Lemma quiet_digest {A : Type} (r : result DigestBuildError A) : r <> Panic -> quiet (map_err digest_failed r).
Proof. by destruct r. Qed.
Lemma quiet_field_bytes b v : quiet (rec_field_bytes b v).
Proof. apply quiet_digest, field_bytes_safe. Qed.
Lemma quiet_field_u64 b v : quiet (rec_field_u64 b v).
Proof. apply quiet_digest, field_bytes_safe. Qed.
Lemma quiet_new d : quiet (map_err digest_failed (digest_try_new d)).
Proof. apply quiet_digest, digest_try_new_safe. Qed.
Lemma quiet_fold {A : Type} f (l : list A) (b : Digest32Builder) :
  (forall b a, quiet (f b a)) -> quiet (try_fold f b l).
Proof. intros H. revert b; induction l as [|a l IH]; intros b; [done|]. cbn [try_fold]. apply quiet_bind; auto. Qed.

Create HintDb quiet.
#[export] Hint Resolve quiet_field_bytes quiet_field_u64 quiet_new : quiet.
#[export] Hint Extern 1 (quiet (field_tag _ _)) => apply quiet_field_bytes : quiet.
#[export] Hint Extern 1 (quiet (field_bool _ _)) => apply quiet_field_bytes : quiet.
#[export] Hint Extern 1 (quiet (field_u32 _ _)) => apply quiet_field_bytes : quiet.
#[export] Hint Extern 1 (quiet (Ok _)) => exact I : quiet.
#[export] Hint Extern 1 (quiet (ok_or _ _)) => apply quiet_ok_or; reflexivity : quiet.
#[export] Hint Extern 2 (quiet (_ ≫= _)) => apply quiet_bind; [|intros ?] : quiet.

Lemma quiet_identity b i : quiet (append_identity b i).
Proof. unfold append_identity. auto 20 with quiet. Qed.
Lemma quiet_lineage b l : quiet (append_loss_lineage b l).
Proof. unfold append_loss_lineage. auto 20 with quiet. Qed.
Lemma quiet_census b c : quiet (append_census b c).
Proof. unfold append_census. auto 20 with quiet. Qed.
Lemma quiet_invocation b i : quiet (append_invocation b i).
Proof. unfold append_invocation. auto 20 with quiet. Qed.
Lemma quiet_observation b o : quiet (append_loss_observation b o).
Proof.
  unfold append_loss_observation. apply quiet_bind; [apply quiet_identity|intros b1].
  apply quiet_bind; [apply quiet_lineage|intros b2]. apply quiet_fold. intros b3 i.
  unfold append_loss. auto 20 with quiet.
Qed.
#[export] Hint Resolve quiet_identity quiet_lineage quiet_census quiet_invocation quiet_observation : quiet.
Lemma quiet_fact_kind b k : quiet (append_fact_kind b k).
Proof. unfold append_fact_kind. destruct k; auto 20 with quiet. Qed.
#[export] Hint Resolve quiet_fact_kind : quiet.

Section digest.
Context (sha256 : list byte -> bytes32).

Lemma quiet_fingerprint f : quiet (fingerprint_fact sha256 f).
Proof. unfold fingerprint_fact. auto 20 with quiet. Qed.
Lemma quiet_jitter s c : quiet (deterministic_jitter sha256 s c).
Proof. unfold deterministic_jitter. auto 20 with quiet. Qed.
#[local] Hint Resolve quiet_jitter : quiet.
Lemma quiet_delay s : quiet (restart_delay sha256 s).
Proof.
  unfold restart_delay. apply quiet_bind; [auto with quiet|intros p]. apply quiet_bind; [auto with quiet|intros c].
  apply quiet_bind; [|auto with quiet]. case_match; auto with quiet.
Qed.
Lemma quiet_budget r b : quiet (add_budget r b).
Proof. unfold add_budget. auto with quiet. Qed.

Lemma good_bind_quiet {A : Type} s (r : result RecoveryError A) (f : A -> Transition) :
  quiet r -> (forall a, r = Ok a -> good s (f a)) -> good s (r ≫= f).
Proof. destruct r; simpl; auto. Qed.

(** ** Cleanup and backoff *)

Lemma good_schedule s n :
  settling s n false -> is_Some (loss_lineage n) -> cleanup_proven n = true ->
  good s (schedule_after_cleanup sha256 n (rs_last_observed_at n)).
Proof.
  intros Hset Hl Hcl. pose proof Hset as (Hb & _). unfold schedule_after_cleanup.
  destruct (loss_settled n Hb Hl) as [l ->]. simpl. rewrite Hcl. simpl.
  destruct (external_effect_uncertain n) eqn:Hx; [apply good_quarantine; by left|].
  destruct (quarantine_reason n) as [r|] eqn:Hq; [apply good_quarantine; by left|].
  assert (quarantine_entered n = false) as Hent.
  { destruct Hb as (_ & _ & He & _). destruct (quarantine_entered n); [|done]. rewrite Hq in He. by destruct (He eq_refl). }
  destruct (restart_after_cleanup n) eqn:Hra; simpl.
  2:{ destruct (settle s n Stopped Hset) as [Hi Hc]; [by split_and!|done|]. apply good_unchanged; [done..|]. apply Hset. }
  destruct (prune_cases n) as [[n' Hpr]|Hpr]; rewrite Hpr; simpl; [|done].
  apply prune_Ok in Hpr as [-> Hw]. pose proof (settling_keep s n Hset Hw) as Hset'. clear Hset.
  unfold attempts_exhausted. apply good_bind_quiet; [auto with quiet|]. intros exhausted _.
  destruct exhausted; [apply good_quarantine; by left|].
  apply good_bind_quiet; [apply quiet_delay|]. intros delay _.
  apply good_bind_quiet; [auto with quiet|]. intros value _.
  destruct (settle s _ (Backoff (from_ticks value)) Hset') as [Hi Hc]; [by split_and!|done|].
  apply good_waiting; [done..|]. apply Hset'.
Qed.

Lemma good_poll_backoff s n :
  settling s n false -> is_Some (loss_lineage n) -> cleanup_proven n = true -> restart_after_cleanup n = true ->
  clean n ->
  good s (poll_backoff n (rs_last_observed_at n)).
Proof.
  intros Hset Hl Hcl Hra (Hx & Hq & Hent). pose proof Hset as (Hb & _). unfold poll_backoff.
  destruct (loss_settled n Hb Hl) as [l ->]. simpl. rewrite Hcl. simpl.
  destruct (prune_cases n) as [[n' Hpr]|Hpr]; rewrite Hpr; simpl; [|done].
  apply prune_Ok in Hpr as [-> Hw]. pose proof (settling_keep s n Hset Hw) as Hset'.
  unfold attempts_exhausted. destruct (try_from u64_max _) as [m|] eqn:Hm; simpl; [|done].
  apply try_from_Some in Hm as [-> Hm]. change (rs_restart (set_attempts (keep_attempts n) n)) with (rs_restart n) in *.
  destruct (N.leb_spec (max_attempts (rs_restart n)) (len (keep_attempts n))) as [Hlen|Hlen];
    [apply good_quarantine; by left|].
  unfold epoch_try_next. destruct (checked_add u64_max _ 1) as [e|] eqn:He; [|apply good_quarantine; by left].
  apply checked_add_Some in He as [-> He].
  rewrite (proj2 (N.eqb_neq _ 0)) by lia.
  apply good_bind_quiet; [auto with quiet|]. intros value _. clear Hset.
  destruct Hset' as ((B1 & B2 & B3 & B4 & B5 & B6) & Hp & Hco & (C1 & C2 & C3 & C4 & C5) & Hn). simpl in *.
  apply good_issue; [|by split_and!|done].
  split; [|split; [done|split; [done|split; [|done]]]].
  - split; [done|]. split; [done|]. split; [done|]. simpl. split; [rewrite len_app; unfold len in *; simpl; lia|].
    split; [apply StronglySorted_app_2; [|done|by repeat constructor]|apply Forall_app; split; [done|by repeat constructor]].
    intros a b Ha [->|?]%elem_of_cons; [|by apply not_elem_of_nil in H]. rewrite Forall_forall in B6. by apply B6.
  - split; [done|]. split; [done|]. split; [done|]. split; [done|].
    destruct C5 as (d & k & H1 & H2 & H3 & _). rewrite app_nil_r in H3. simpl in H3. exists d, k. simpl.
    split; [done|]. split; [done|]. split; [by rewrite H3|]. intros _. rewrite <-H3. destruct C2 as [_ <-]. done.
Qed.

(** ** The facts *)

Lemma base_observe n t : base_inv n -> later (rs_last_observed_at n) t -> base_inv (set_observed_at t n).
Proof.
  intros (H1 & H2 & H3 & H4 & H5 & H6) (_ & _ & Ht). repeat (split; [done|]).
  eapply Forall_impl; [exact H6|]. simpl. intros a Ha. lia.
Qed.
Lemma carried_observe s t q f :
  later (rs_last_observed_at s) t -> carried s (set_observed_at t (set_fact q f s)) false.
Proof.
  intros Ht. split; [done|]. split; [done|]. split; [done|]. split; [done|].
  exists [], (attempts s). simpl. rewrite app_nil_r. split_and!; [done|constructor|done|done].
Qed.
Lemma rec_inv_observe s t q f :
  rec_inv s -> later (rs_last_observed_at s) t -> rec_inv (set_observed_at t (set_fact q f s)).
Proof. intros [Hb Hph Hp] Ht. split; [|exact Hph|exact Hp]. by apply (base_observe (set_fact q f s)). Qed.
Lemma carried_poll s t : later (rs_last_observed_at s) t -> carried s (set_observed_at t s) false.
Proof. exact (carried_observe s t (last_fact_sequence s) (last_fact_fingerprint s)). Qed.

(** The state a fact is applied to. *)
Definition observing (s n : RecoveryState) : Prop :=
  rec_inv n /\ carried s n false /\ next_action_id n = next_action_id s.

Lemma observing_settling s n : observing s n -> pending_action n = None -> settling s n false.
Proof.
  intros ([Hb _ Hp] & Hc & Hn) He. unfold pending_holds in Hp. rewrite He in Hp. destruct Hp as [_ Hco].
  by repeat (split; [done|]).
Qed.
Lemma observing_passing s n : observing s n -> passing s n.
Proof.
  intros Ho. destruct (pending_action n) eqn:He; [right|left; by apply observing_settling].
  destruct Ho as (Hi & Hc & Hn). rewrite He. by split_and!.
Qed.
Lemma observing_facing s n : observing s n -> facing s n.
Proof.
  intros ([Hb Hph Hp] & Hc & Hn). split; [done|]. split; [done|]. split; [done|]. split; [done|].
  case_bool_decide as Hh; [|done]. rewrite Hh in Hph. simpl in Hph. unfold clean in Hph. tauto.
Qed.

Lemma good_owner_failure s n : observing s n -> good s (begin_owner_invariant_failure n).
Proof.
  intros Ho. unfold begin_owner_invariant_failure.
  set (n' := remember_quarantine_reason ReasonOwnerInvariantViolation n).
  assert (rs_phase n' = rs_phase n /\ pending_action n' = pending_action n) as [Hph' Hpe'].
  { unfold n'. by destruct (remember_cases ReasonOwnerInvariantViolation n) as [[-> _]| ->]. }
  assert (match rs_phase n with Backoff _ | StartingFresh _ | Recovered _ | Stopped => True | _ => False end ->
          passing s n') as Hq.
  { intros _. destruct (observing_passing s n Ho) as [Hs|(Hi & He & Hc & Hn)].
    - left. by apply settling_remember.
    - right. split; [by apply rec_inv_remember|]. rewrite Hpe'. split; [done|]. split; [by apply carried_remember|].
      unfold n'. by destruct (remember_cases ReasonOwnerInvariantViolation n) as [[-> _]| ->]. }
  assert (match rs_phase n with Backoff _ | StartingFresh _ | Recovered _ | Stopped => False | _ => True end ->
          facing s n') as Hf.
  { intros Hne. destruct Ho as ([Hb Hph Hp] & Hc & Hn).
    split; [by apply base_remember|]. split; [|split; [by apply carried_remember|split]].
    - unfold n'. destruct (remember_cases ReasonOwnerInvariantViolation n) as [[-> _]| ->]; exact Hp.
    - unfold n'. by destruct (remember_cases ReasonOwnerInvariantViolation n) as [[-> _]| ->].
    - unfold n' in *. destruct (remember_cases ReasonOwnerInvariantViolation n) as [[Heq Hsome]|Heq]; rewrite Heq in *; simpl;
        destruct (rs_phase n); simpl in *; unfold clean in *; try done; try tauto; by eexists. }
  rewrite Hph'. destruct (rs_phase n); try (apply good_begin_failure; by apply Hf); apply good_quarantine; by apply Hq.
Qed.

Lemma carried_external s n b start :
  carried s n start -> carried s (set_external (external_effect_uncertain n || b) n) start.
Proof.
  intros (H1 & H2 & H3 & H4). split; [done|]. split; [done|]. split; [|done].
  intros [Hd|Hd]%H3; [left; simpl; by rewrite Hd|by right].
Qed.
Lemma base_external n b : base_inv n -> base_inv (set_external (external_effect_uncertain n || b) n).
Proof.
  intros (H1 & H2). split; [|done]. unfold loss_holds in *. simpl. destruct (loss_lineage n); [|done].
  destruct H1 as (? & ? & ? & H). split_and!; try done. intros Hx%H. by rewrite Hx.
Qed.
Lemma set_external_true n : set_external true n = set_external (external_effect_uncertain n || true) n.
Proof. by rewrite orb_true_r. Qed.

Lemma good_invocation_failure s n i : observing s n -> good s (observe_invocation_failure n i).
Proof.
  intros Ho. unfold observe_invocation_failure. case_bool_decide.
  2:{ by apply good_begin_failure, observing_facing. }
  rewrite set_external_true. set (n' := set_external (external_effect_uncertain n || true) n).
  assert (match rs_phase n with Backoff _ | Recovered _ | Stopped => True | _ => False end -> passing s n') as Hq.
  { intros Hph. left. destruct Ho as ([Hb _ Hp] & Hc & Hn). unfold pending_holds in Hp.
    assert (pending_action n = None) as He.
    { destruct (pending_action n); [|done]. destruct Hp as [Ha _]. by destruct (rs_phase n). }
    rewrite He in Hp. split; [by apply base_external|]. split; [done|]. split; [apply Hp|].
    split; [by apply carried_external|done]. }
  assert (match rs_phase n with Backoff _ | Recovered _ | Stopped => False | _ => True end -> facing s n') as Hf.
  { intros Hne. destruct Ho as ([Hb Hph Hp] & Hc & Hn).
    split; [by apply base_external|]. split; [exact Hp|]. split; [by apply carried_external|]. split; [done|].
    unfold n'. simpl. destruct (rs_phase n); simpl in *; unfold clean in *; try done; tauto. }
  change (rs_phase n') with (rs_phase n).
  destruct (rs_phase n); try (apply good_begin_failure; by apply Hf); apply good_quarantine; by apply Hq.
Qed.

Lemma good_process_exited s n o :
  observing s n -> observation_identity o = rs_identity n -> good s (observe_process_exited n o).
Proof.
  intros Ho Hid. unfold observe_process_exited.
  destruct (loss_lineage n) as [l|] eqn:Hl; [done|]. simpl.
  destruct (all_crossed_handoffs_settled o) eqn:Hs; [|done]. simpl.
  apply N.eqb_eq in Hs.
  set (m := set_loss (Some (observation_lineage o)) (lineage_unsettled_handoffs (observation_lineage o)) true n).
  pose proof Ho as ([Hb Hph Hp] & Hc & Hn).
  assert (cleanup_proven n = false) as Hcl.
  { destruct Hb as (Hlh & _). unfold loss_holds in Hlh. rewrite Hl in Hlh. tauto. }
  change (external_effect_uncertain n) with (external_effect_uncertain m).
  set (n' := set_external (external_effect_uncertain m || lineage_external_effect_uncertain (observation_lineage o)) m).
  assert (base_inv n') as Hb'.
  { destruct Hb as (_ & _ & Hb'). split; [|by split]. unfold loss_holds. simpl. split_and!; try done.
    intros Hx. rewrite Hx. by rewrite orb_true_r. }
  assert (carried s n' false) as Hc' by (apply carried_external; exact Hc).
  assert (pending_action n = None -> settling s n' false) as Hset.
  { intros He. unfold pending_holds in Hp. rewrite He in Hp. destruct Hp as [_ Hco]. by repeat (split; [done|]). }
  case_bool_decide as Hh.
  { assert (pending_action n = None) as He.
    { unfold pending_holds in Hp. rewrite Hh in Hp. destruct (pending_action n); [|done]. by destruct Hp as [[] _]. }
    rewrite Hh in Hph. destruct Hph as ((_ & _ & Hent) & _). specialize (Hset He).
    destruct (observation_expected o); simpl; (apply good_issue; [exact Hset|by split|done]). }
  rewrite andb_false_r.
  case_bool_decide as He; simpl.
  - assert (good s (begin_cleanup n')) as Hg by (apply good_begin_cleanup; [by apply Hset|done|done]).
    unfold pending_holds in Hp. rewrite He in Hp. destruct Hp as [Hidle _].
    destruct (rs_phase n) eqn:Hphase; simpl in *; try done; unfold clean in *; rewrite ?Hcl, ?Hl in Hph; naive_solver.
  - apply good_unchanged; [|done|done]. split; [done| |exact Hp]. simpl.
    unfold pending_holds in Hp. destruct (pending_action n) as [e|]; [|done]. destruct Hp as [Ha _].
    destruct (rs_phase n); simpl in *; try done; rewrite ?Hcl in Hph; destruct_and?; split_and?; try done; by eexists.
Qed.

Lemma good_cleanup_completed s n p :
  observing s n -> good s (observe_cleanup_completed sha256 n p (rs_last_observed_at n)).
Proof.
  intros Ho. unfold observe_cleanup_completed.
  apply good_bind_quiet; [by destruct (bool_decide _)|intros _ _].
  destruct (loss_lineage n) as [l|] eqn:Hl; [|done]. cbn [ok_or mbind result_mbind].
  apply good_bind_quiet; [by destruct (negb _)|intros _ _].
  apply good_bind_quiet; [by destruct (bool_decide _)|intros _ _].
  set (n1 := set_external _ n). set (n2 := set_proven true n1).
  pose proof Ho as ([Hb Hph Hp] & Hc & Hn).
  assert (base_inv n2) as Hb'.
  { pose proof (base_external n (lineage_external_effect_uncertain (proof_lineage p)) Hb) as (H1 & H2).
    split; [|exact H2]. revert H1. unfold loss_holds. simpl. by rewrite Hl. }
  assert (carried s n2 false) as Hc' by (apply (carried_external s n _ false); exact Hc).
  assert (pending_action n = None -> settling s n2 false) as Hset.
  { intros He. unfold pending_holds in Hp. rewrite He in Hp. destruct Hp as [_ Hco]. by repeat (split; [done|]). }
  assert (pending_action n = None -> good s (schedule_after_cleanup sha256 n2 (rs_last_observed_at n))) as Hsch.
  { intros He. apply (good_schedule s n2); [by apply Hset| |done]. unfold n2. simpl. by rewrite Hl. }
  change (rs_phase n1) with (rs_phase n). change (pending_action n2) with (pending_action n).
  unfold pending_holds in Hp. destruct (rs_phase n) eqn:Hphase; try done; simpl.
  - assert (pending_action n = None) as He by (destruct (pending_action n); [by destruct Hp as [[] _]|done]).
    destruct (reached _ deadline); [apply good_quarantine; left; by apply Hset|]. rewrite He.
    rewrite bool_decide_eq_false_2 by by intros []. by apply Hsch.
  - change (quarantine_reason n1) with (quarantine_reason n). rewrite (bool_decide_eq_true_2 _ Hph). simpl.
    case_bool_decide as He; [|apply Hsch; by apply eq_None_not_Some].
    apply good_unchanged; [|done|done]. split; [done|unfold n2; simpl; by rewrite Hphase|].
    unfold pending_holds, n2. simpl. by rewrite Hphase.
Qed.

Lemma good_cleanup_incomplete s n : observing s n -> good s (observe_cleanup_incomplete n).
Proof.
  intros Ho. unfold observe_cleanup_incomplete.
  destruct (rs_phase n) eqn:Hph; try done.
  - by apply good_quarantine, observing_passing.
  - case_bool_decide; [|done]. apply good_unchanged; apply Ho.
Qed.

(** Facts as [RuntimeFailureFact::try_new] makes them. *)
Definition fact_wf (f : RuntimeFailureFact) : Prop :=
  (fact_sequence f <> 0)%N /\
  match fact_kind f with
  | ProcessExited o => observation_identity o = fact_identity f
  | CleanupCompleted p => proof_identity p = fact_identity f
  | _ => True
  end.
Lemma fact_try_new_wf i q t k f :
  fact_try_new i q t k = Ok f ->
  fact_wf f /\ f = {| fact_identity := i; fact_sequence := q; fact_observed_at := t; fact_kind := k |}.
Proof.
  unfold fact_try_new. intros H. rust_inv. split; [|done]. split; [done|]. simpl.
  destruct k; try done; rust_inv; by apply dec_stable.
Qed.

Lemma rec_inv_good_refl s d :
  rec_inv s -> (forall e, d <> Execute e) -> good s (Ok (MkRecoveryTransition s d)).
Proof.
  intros Hi Hd. split; [done|]. simpl. unfold moved. destruct d; try done.
  1,3,4: (split; [|done]; exact (carried_poll s (rs_last_observed_at s) (later_refl _))).
  by destruct (Hd envelope).
Qed.
Lemma good_refl s : rec_inv s -> good s (Ok (unchanged s)).
Proof. intros Hi. apply rec_inv_good_refl; [done|]. intros e. by destruct (pending_action s). Qed.

Lemma good_observe_fact s f : rec_inv s -> fact_wf f -> good s (observe_fact sha256 s f).
Proof.
  intros Hi [_ Hwf]. unfold observe_fact.
  destruct (decide (fact_identity f = rs_identity s)) as [Hid|Hid].
  2:{ by rewrite bool_decide_eq_true_2 by done. }
  rewrite bool_decide_eq_false_2 by (intros H; by apply H). cbn [fail_if mbind result_mbind].
  destruct (validate_clock_cases (rs_last_observed_at s) (fact_observed_at f)) as [[Ht ->]|(e & -> & He)]; [|done].
  cbn [mbind result_mbind]. apply good_bind_quiet; [apply quiet_fingerprint|]. intros d _.
  apply good_bind_quiet; [by destruct (_ <? _)%N|]. intros _ _.
  destruct (_ =? _)%N; [destruct (bool_decide _); [by apply good_refl|done]|].
  set (n := set_observed_at _ _).
  assert (observing s n) as Ho.
  { split; [by apply rec_inv_observe|]. split; [by apply carried_observe|done]. }
  change (fact_observed_at f) with (rs_last_observed_at n).
  destruct (quarantined_ignores _ _). { apply good_unchanged; apply Ho. }
  destruct (fact_kind f); try (by apply good_begin_failure, observing_facing).
  - apply good_process_exited; [done|]. by rewrite Hwf.
  - by apply good_invocation_failure.
  - by apply good_invocation_failure.
  - by apply good_owner_failure.
  - by apply good_cleanup_completed.
  - by apply good_cleanup_incomplete.
Qed.

(** ** The completions *)

Lemma remember_is r n : exists r', remember_quarantine_reason r n = set_reason (Some r') n.
Proof.
  destruct (remember_cases r n) as [[-> [r' Hr]]| ->]; [|by exists r].
  exists r'. destruct n. simpl in *. by rewrite Hr.
Qed.
(** A reason, and external uncertainty first. *)
Definition remember_both (r : QuarantineReason) (n : RecoveryState) : RecoveryState :=
  let n := remember_quarantine_reason r n in
  if external_effect_uncertain n then remember_quarantine_reason ExternalEffectUncertain n else n.
Lemma remember_both_is r n : exists r', remember_both r n = set_reason (Some r') n.
Proof.
  unfold remember_both. destruct (remember_is r n) as [r1 ->]. case_match; [|by exists r1].
  destruct (remember_is ExternalEffectUncertain (set_reason (Some r1) n)) as [r2 ->]. by exists r2.
Qed.
Lemma settling_both s n r start : settling s n start -> settling s (remember_both r n) start.
Proof.
  intros H. unfold remember_both. case_match; [by apply settling_remember, settling_remember|].
  by apply settling_remember.
Qed.

Lemma proven_loss n : base_inv n -> cleanup_proven n = true -> is_Some (loss_lineage n).
Proof.
  intros (Hl & _) Hcl. unfold loss_holds in Hl. destruct (loss_lineage n); [by eexists|]. destruct Hl; congruence.
Qed.

(** The state a completion is applied to, in the phase of its action. *)
Definition completing (s n : RecoveryState) (act : RecoveryAction) : Prop :=
  settling s n false /\ exists phase, acts phase act /\ phase_holds phase n.

Lemma good_await s n t :
  settling s n false -> cleanup_proven n = false -> quarantine_entered n = false -> process_exited n = false ->
  good s (await_process_loss n t).
Proof.
  intros Hset Hcl Hent Hex. unfold await_process_loss. apply good_bind_quiet; [apply quiet_budget|]. intros d _.
  assert (loss_lineage n = None) as Hl.
  { destruct Hset as ((Hl & _) & _). unfold loss_holds in Hl. destruct (loss_lineage n); [|done]. destruct Hl; congruence. }
  destruct (settle s n (AwaitingProcessLoss d) Hset) as [Hi Hc]; [by split_and!|done|].
  apply good_waiting; [done..|]. apply Hset.
Qed.

Lemma good_complete_failed s n act : completing s n act -> good s (complete_failed n act).
Proof.
  intros [Hset (phase & Ha & Hph)]. unfold complete_failed.
  assert (forall r, good s (r' ← ok_or (quarantine_reason (remember_both r n)) StateInconsistent;
                            quarantine (remember_both r n) r')) as Hq.
  { intros r. pose proof (settling_both s n r false Hset) as Hset'. destruct (remember_both_is r n) as [r' Hr].
    rewrite Hr in *. simpl. apply good_quarantine. by left. }
  assert (cleanup_proven n = false -> forall r, process_exited (remember_both r n) = true ->
          good s (begin_cleanup (remember_both r n))) as Hcl.
  { intros Hcl r Hex. pose proof (settling_both s n r false Hset) as Hset'. destruct (remember_both_is r n) as [r' Hr].
    rewrite Hr in *. by apply good_begin_cleanup. }
  assert (cleanup_proven n = false -> quarantine_entered n = false -> forall r, 
          good s (issue (remember_both r n) Terminating SendTerminate) /\
          good s (issue (remember_both r n) Killing SendKill)) as Hi.
  { intros H1 H2 r. pose proof (settling_both s n r false Hset) as Hset'. destruct (remember_both_is r n) as [r' Hr].
    rewrite Hr in *. split; by apply good_issue. }
  change (remember_action_failure n) with (remember_both RecoveryActionFailed n).
  destruct act; try apply Hq.
  1-3: destruct phase; try done; destruct Hph as [Hp1 Hp2]; cbv zeta;
       destruct (process_exited (remember_both _ _)) eqn:Hex; [by apply Hcl|].
  - by apply Hi.
  - by apply Hi.
  - apply Hq.
  - fold (remember_both reason n). pose proof (settling_both s n reason false Hset) as Hset'.
    destruct (remember_both_is reason n) as [r' Hr]. cbv zeta. rewrite Hr in *. simpl.
    destruct (settle s (set_reason (Some r') n) (Quarantined r') Hset') as [Hi' Hc']; [by eexists|done|].
    apply good_unchanged; [done..|]. apply Hset'.
Qed.

Lemma good_stop_signal s n outcome t b phase :
  settling s n false -> cleanup_proven n = false -> quarantine_entered n = false ->
  (forall d, idle (phase d) /\ (loss_lineage n = None -> phase_holds (phase d) n)) ->
  good s (complete_stop_signal n outcome t b phase).
Proof.
  intros Hset Hcl Hent Hph. unfold complete_stop_signal.
  destruct (process_exited n) eqn:Hex; [by apply good_begin_cleanup|].
  case_bool_decide; [by apply good_await|].
  apply good_bind_quiet; [apply quiet_budget|]. intros d _. destruct (Hph d) as [Hid Hh].
  destruct (settle s n (phase d) Hset) as [Hi Hc]; [|done|].
  - apply Hh. destruct Hset as ((Hl & _) & _). unfold loss_holds in Hl. destruct (loss_lineage n); [|done].
    destruct Hl; congruence.
  - apply good_waiting; [done..|]. apply Hset.
Qed.

Lemma good_complete_done s n act outcome t : completing s n act -> good s (complete_done n act outcome t).
Proof.
  intros [Hset (phase & Ha & Hph)]. pose proof Hset as (Hb & _).
  destruct act; destruct phase; try done; simpl in Hph; cbn [complete_done].
  - destruct Hph as [H1 H2]. destruct (process_exited n) eqn:Hex; [by apply good_begin_cleanup|by apply good_issue].
  - destruct Hph as [H1 H2]. apply good_stop_signal; [done..|]. intros d. by split; [|intros ?; split_and!].
  - destruct Hph as [H1 H2]. apply good_stop_signal; [done..|]. intros d. by split; [|intros ?; split_and!].
  - destruct Hph as [H1 H2]. apply good_stop_signal; [done..|]. intros d. by split; [|intros ?; split_and!].
  - destruct Hph as [Hl Hcl]. destruct (loss_settled n Hb Hl) as [l ->]. cbn [mbind result_mbind].
    apply good_bind_quiet; [apply quiet_budget|]. intros d _.
    destruct (settle s n (AwaitingCleanup d) Hset) as [Hi Hc]; [by split|done|].
    apply good_waiting; [done..|]. apply Hset.
  - destruct Hph as (Hent & Hcl & Hra & Hsucc). simpl in Ha. subst.
    pose proof (proven_loss n Hb Hcl) as Hl.
    destruct (loss_settled n Hb Hl) as [l ->]. cbn [mbind result_mbind]. rewrite Hcl. cbn [negb fail_if mbind result_mbind].
    destruct (external_effect_uncertain n) eqn:Hx; [apply good_quarantine; by left|].
    destruct (quarantine_reason n) as [r|] eqn:Hq; [apply good_quarantine; by left|].
    destruct (settle s n (Recovered next_epoch) Hset) as [Hi Hc]; [by split_and!|done|].
    apply good_unchanged; [done..|]. apply Hset.
  - fold (remember_both reason n). pose proof (settling_both s n reason false Hset) as Hset'.
    destruct (remember_both_is reason n) as [r' Hr]. cbv zeta. rewrite Hr in *.
    assert (settling s (set_entered true (set_reason (Some r') n)) false) as Hset2.
    { destruct Hset' as ((B1 & B2 & B3 & B4) & Hset'). split; [|exact Hset'].
      split; [exact B1|]. split; [exact B2|]. split; [by eexists|exact B4]. }
    cbn [ok_or]. destruct (process_exited _ && _) eqn:Hex.
    { apply andb_true_iff in Hex as [H1 H2%negb_true_iff]. by apply good_begin_cleanup. }
    destruct (settle s _ (Quarantined r') Hset2) as [Hi Hc]; [by eexists|done|].
    apply (good_unchanged s (set_phase (Quarantined r') _)); [done..|]. apply Hset2.
Qed.

Lemma good_complete_action s id outcome t : rec_inv s -> good s (complete_action s id outcome t).
Proof.
  intros Hi. unfold complete_action.
  destruct (validate_clock_cases (rs_last_observed_at s) t) as [[Ht ->]|(e & -> & He)]; [|done].
  cbn [mbind result_mbind]. cbv zeta.
  match goal with |- good s (match _ with Some c => if _ then _ else if _ then _ else ?p | None => _ end) =>
    assert (good s p) as Hp; [|destruct (last_completed_action s) as [c|]; [|done];
      destruct (_ && _); [by apply good_refl|]; by destruct (_ =? _)%N] end.
  destruct (pending_action s) as [e|] eqn:He; [|done]. cbn [ok_or mbind result_mbind].
  destruct (N.eqb_spec (action_id e) id) as [<-|]; [|done]. cbn [negb fail_if mbind result_mbind].
  apply good_bind_quiet; [by destruct (_ && _)|intros _ _].
  set (n := set_observed_at t _).
  assert (completing s n (action e)) as Hcomp.
  { destruct Hi as [Hb Hph Hpe]. unfold pending_holds in Hpe. rewrite He in Hpe. destruct Hpe as (Ha & Hid & _).
    split; [|by exists (rs_phase s)].
    split; [exact (base_observe s t Hb Ht)|]. split; [done|]. split; [unfold completed_before; simpl; lia|].
    split; [exact (carried_poll s t Ht)|done]. }
  case_bool_decide; [by apply good_complete_failed|by apply good_complete_done].
Qed.

Lemma good_poll s t : rec_inv s -> good s (poll s t).
Proof.
  intros Hi. unfold poll.
  destruct (validate_clock_cases (rs_last_observed_at s) t) as [[Ht ->]|(e & -> & He)]; [|done].
  cbn [mbind result_mbind]. destruct (pending_action s) as [e|] eqn:He; [by apply rec_inv_good_refl|].
  set (n := set_observed_at t s).
  assert (observing s n) as Ho.
  { split; [by apply (rec_inv_observe s t (last_fact_sequence s) (last_fact_fingerprint s))|].
    split; [by apply carried_poll|done]. }
  pose proof (observing_settling s n Ho He) as Hset. pose proof Ho as ([Hb Hph Hp] & Hc & Hn).
  unfold pending_holds in Hp. change (pending_action n) with (pending_action s) in Hp. rewrite He in Hp.
  destruct Hp as [Hidle _]. cbv zeta. change t with (rs_last_observed_at n) at 2 3 4 5 6.
  assert (good s (Ok (unchanged n))) as Hu by (apply good_unchanged; apply Ho).
  assert (forall d, good s (Ok (waiting n d))) as Hw by (intros d; apply good_waiting; apply Ho).
  destruct (rs_phase n) eqn:Hphase; try done; simpl in Hph.
  - destruct Hph as (Hl & H1 & H2). destruct (reached _ _); [|apply Hw]. by apply good_issue.
  - destruct Hph as (Hl & H1 & H2). destruct (reached _ _); [|apply Hw]. by apply good_issue.
  - destruct (reached _ _); [|apply Hw]. apply good_quarantine. by left.
  - destruct (reached _ _); [|apply Hw]. apply good_quarantine. by left.
  - destruct (reached _ _); [|apply Hw]. apply good_quarantine. by left.
  - destruct Hph as (Hcl & H1 & H2). destruct (reached _ _); [|apply Hw]. apply good_poll_backoff; try done.
    by apply proven_loss.
  - destruct (process_exited n && _) eqn:Hex; [|done].
    apply andb_true_iff in Hex as [H1 H2%negb_true_iff]. by apply good_begin_cleanup.
Qed.
End digest.
