(* ===== verification/RecoveryProps.v ===== *)
(** * Process-domain recovery: properties of runs

    Runs of the reducer under any sequence of facts, completions, polls and
    generation rolls: when a fresh generation may be started and how often, and
    that the reducer stays consistent. *)

From S2P Require Import Prelude Bytes RestartWindow KernelTime KernelDigest ApplyContracts Assignment CardInstance Liveness RuntimeOwnership Recovery RecoveryInv.
Open Scope rust_scope.

Section runs.
Context (sha256 : list byte -> bytes32).

(** ** Runs *)

Inductive RecoveryCall :=
| CallFact (identity : ProcessGenerationIdentity) (sequence : N) (at_ : ClockReading)
    (kind : RuntimeFailureFactKind)
| CallComplete (id : N) (outcome : RecoveryActionOutcome) (at_ : ClockReading)
| CallPoll (at_ : ClockReading)
| CallRoll (identity : ProcessGenerationIdentity) (at_ : ClockReading).

(** A call of the reducer.  The owner keeps its state when a call fails. *)
Definition recovery_call (s : RecoveryState) (c : RecoveryCall)
    : RecoveryState * result RecoveryError RecoveryDecision :=
  let answer r :=
    match r with
    | Ok t => (transition_state t, Ok (transition_decision t))
    | Err e => (s, Err e)
    | Panic => (s, Panic)
    end in
  match c with
  | CallFact i q t k => answer (f ← fact_try_new i q t k; observe_fact sha256 s f)
  | CallComplete id outcome t => answer (complete_action s id outcome t)
  | CallPoll t => answer (poll s t)
  | CallRoll i t => answer (s' ← roll_generation s i t; Ok (MkRecoveryTransition s' NoAction))
  end.

(** One call of a run: the state it found, the call and its answer. *)
Record Entry := MkEntry {
  found : RecoveryState;
  made : RecoveryCall;
  answered : result RecoveryError RecoveryDecision;
}.

(** The state after a run and its history, newest call first. *)
Definition recovery_run (s : RecoveryState) (calls : list RecoveryCall) : RecoveryState * list Entry :=
  foldl (fun '(s, log) c => let '(s', r) := recovery_call s c in (s', MkEntry s c r :: log)) (s, []) calls.

Lemma recovery_run_snoc s calls c :
  recovery_run s (calls ++ [c]) =
  let '(s1, log) := recovery_run s calls in
  let '(s', r) := recovery_call s1 c in (s', MkEntry s1 c r :: log).
Proof. unfold recovery_run. rewrite foldl_app. simpl. by destruct (foldl _ _ calls). Qed.

(** ** Generations *)

Lemma roll_Ok s i t s' :
  rec_inv s -> roll_generation s i t = Ok s' ->
  exists e, rs_phase s = Recovered e /\ later (rs_last_observed_at s) t /\ pending_action s = None /\
    rs_identity s' = i /\ process_domain_epoch i = e /\
    process_runtime_host i = process_runtime_host (rs_identity s) /\
    process_runtime_host_epoch i = process_runtime_host_epoch (rs_identity s) /\
    process_source_revision i = process_source_revision (rs_identity s) /\
    process_target_slice_digest i = process_target_slice_digest (rs_identity s) /\
    process_domain i = process_domain (rs_identity s) /\
    rec_inv s' /\ rs_restart s' = rs_restart s /\ attempts s' = attempts s /\
    rs_last_observed_at s' = t /\ next_action_id s' = next_action_id s /\
    loss_lineage s' = None /\ cleanup_proven s' = false /\ clean s' /\ rs_phase s' = Healthy.
Proof.
  intros [Hb Hph Hp] H. unfold roll_generation in H. apply bind_Ok in H as ([] & Ht%recovery_clock_Ok & H).
  destruct (rs_phase s) eqn:Hphase; try done. rust_inv.
  match goal with H : ~ is_Some (pending_action s) |- _ => apply eq_None_not_Some in H as He end.
  repeat match goal with H : ~ _ <> _ |- _ => apply dec_stable in H end.
  unfold pending_holds in Hp. rewrite He in Hp. destruct Hp as [_ Hco].
  eexists. split_and!; try done. split; [|by split_and!|unfold pending_holds; simpl; by rewrite He].
  destruct Hb as (_ & _ & _ & B4 & B5 & B6). split; [done|]. split; [done|]. split; [done|].
  split; [done|]. split; [done|]. simpl. eapply Forall_impl; [exact B6|]. simpl. destruct Ht as (_ & _ & Ht). lia.
Qed.
Lemma roll_errors s i t :
  rec_inv s -> match roll_generation s i t with Ok _ => True | Err e => broken e = false | Panic => False end.
Proof.
  intros [Hb Hph Hp]. unfold roll_generation.
  destruct (validate_clock_cases (rs_last_observed_at s) t) as [[_ ->]|(e & -> & He)]; [|done].
  cbn [mbind result_mbind]. destruct (rs_phase s) eqn:Hphase; try done. destruct Hph as ((-> & -> & ->) & _).
  unfold pending_holds in Hp. rewrite Hphase in Hp. destruct (pending_action s); [by destruct Hp as [[] _]|].
  simpl. by destruct (_ || _).
Qed.

(** ** What a call leaves alone *)

Definition starts (d : RecoveryDecision) : Prop :=
  match d with Execute e => is_start (action e) = true | _ => False end.

(** The states from which a fresh generation may be started. *)
Definition startable (n : RecoveryState) : Prop :=
  clean n /\ match rs_phase n with Backoff _ => True | _ => False end.

(** The evidence about the loss and its cleanup is not touched, a doomed
    generation stays doomed, and a fresh start needs a clean one. *)
Definition framed (n : RecoveryState) (r : Transition) : Prop :=
  match r with
  | Ok t =>
      loss_lineage (transition_state t) = loss_lineage n /\
      cleanup_proven (transition_state t) = cleanup_proven n /\
      (doomed n -> doomed (transition_state t)) /\
      (starts (transition_decision t) ->
       startable n /\ rs_last_observed_at (transition_state t) = rs_last_observed_at n)
  | _ => True
  end.

Lemma framed_bind {A : Type} n (r : result RecoveryError A) (f : A -> Transition) :
  (forall a, r = Ok a -> framed n (f a)) -> framed n (r ≫= f).
Proof. destruct r; simpl; auto. Qed.
Lemma framed_from n n' r :
  framed n' r -> loss_lineage n' = loss_lineage n -> cleanup_proven n' = cleanup_proven n ->
  (doomed n -> doomed n') -> (startable n' -> startable n) -> rs_last_observed_at n' = rs_last_observed_at n ->
  framed n r.
Proof.
  destruct r as [t| |]; simpl; [|done..]. intros (-> & -> & H1 & H2) -> -> H3 H4 Ht. split_and!; auto.
  intros [Hc Ho]%H2. rewrite Ho, Ht. auto.
Qed.
Lemma framed_unchanged n : framed n (Ok (unchanged n)).
Proof. unfold unchanged. simpl. by destruct (pending_action n). Qed.
Lemma framed_waiting n d : framed n (Ok (waiting n d)).
Proof. done. Qed.
Lemma framed_phase n phase : framed n (Ok (unchanged (set_phase phase n))).
Proof. unfold unchanged. simpl. by destruct (pending_action n). Qed.
Lemma framed_issue n phase act : (is_start act = true -> startable n) -> framed n (issue n phase act).
Proof.
  intros Hs. unfold issue. apply framed_bind. intros _ _. apply framed_bind. intros v _. simpl. split_and!; auto.
Qed.
Lemma framed_remember n r t :
  framed (remember_quarantine_reason r n) t -> framed n t.
Proof.
  intros H. destruct (remember_is r n) as [r' Hr]. eapply framed_from; [exact H|..]; rewrite Hr; try done.
  - intros _. right. by eexists.
  - by intros ((_ & ? & _) & _).
Qed.
Lemma framed_quarantine n r : framed n (quarantine n r).
Proof.
  unfold quarantine. apply (framed_remember n r). apply framed_bind. intros r' _.
  case_bool_decide; [apply framed_unchanged|]. case_match; [apply framed_phase|by apply framed_issue].
Qed.
Lemma framed_begin_failure n : framed n (begin_failure n).
Proof.
  unfold begin_failure. apply (framed_from n (set_restart_after_cleanup true n)); try done.
  case_bool_decide; [by apply framed_issue|apply framed_unchanged].
Qed.
Lemma framed_owner n : framed n (begin_owner_invariant_failure n).
Proof.
  unfold begin_owner_invariant_failure. apply (framed_remember n ReasonOwnerInvariantViolation).
  case_match; first [apply framed_begin_failure|apply framed_quarantine].
Qed.
Lemma framed_begin_cleanup n : framed n (begin_cleanup n).
Proof.
  unfold begin_cleanup. apply framed_bind. intros _ _. apply framed_bind. intros _ _. by apply framed_issue.
Qed.
Lemma framed_await n t : framed n (await_process_loss n t).
Proof. unfold await_process_loss. apply framed_bind. intros d _. done. Qed.
Lemma framed_attempts n k t : framed (set_attempts k n) t -> framed n t.
Proof. intros H. by eapply framed_from. Qed.
Lemma framed_schedule n t : framed n (schedule_after_cleanup sha256 n t).
Proof.
  unfold schedule_after_cleanup. apply framed_bind. intros _ _. apply framed_bind. intros _ _.
  destruct (external_effect_uncertain n); [apply framed_quarantine|].
  destruct (quarantine_reason n); [apply framed_quarantine|].
  destruct (restart_after_cleanup n); [|apply framed_phase]. simpl.
  apply framed_bind. intros n' Hn'. unfold prune_attempts in Hn'. rust_inv.
  eapply framed_attempts. apply framed_bind. intros [] _; [apply framed_quarantine|].
  apply framed_bind. intros d _. by apply framed_bind.
Qed.
Lemma framed_poll_backoff n t : startable n -> framed n (poll_backoff n t).
Proof.
  intros Hc. unfold poll_backoff. apply framed_bind. intros _ _. apply framed_bind. intros _ _.
  apply framed_bind. intros n' Hn'. unfold prune_attempts in Hn'. rust_inv.
  eapply framed_attempts. apply framed_bind. intros [] _; [apply framed_quarantine|].
  destruct (epoch_try_next _ _ _); [|apply framed_quarantine|done].
  apply framed_bind. intros v _. eapply framed_from; [by apply framed_issue|done..].
Qed.
Lemma framed_both n r t : framed (remember_both r n) t -> framed n t.
Proof.
  unfold remember_both. cbv zeta. case_match; [|apply framed_remember].
  intros H'. by eapply framed_remember, framed_remember.
Qed.
Lemma framed_complete_failed n act : exists r, framed (remember_both r n) (complete_failed n act).
Proof.
  unfold complete_failed. change (remember_action_failure n) with (remember_both RecoveryActionFailed n).
  destruct act; cbv zeta; [exists RecoveryActionFailed..|fold (remember_both reason n); exists reason];
    repeat first [apply framed_begin_cleanup|by apply framed_issue|apply framed_quarantine|apply framed_phase
      |apply framed_bind; intros ? _|case_match].
Qed.
Lemma framed_stop_signal n o t b ph : framed n (complete_stop_signal n o t b ph).
Proof.
  unfold complete_stop_signal. case_match; [apply framed_begin_cleanup|]. case_bool_decide; [apply framed_await|].
  by apply framed_bind.
Qed.
Lemma framed_complete_done n act o t : framed n (complete_done n act o t).
Proof.
  destruct act; cbn [complete_done]; try apply framed_stop_signal.
  - case_match; [apply framed_begin_cleanup|by apply framed_issue].
  - apply framed_bind. intros _ _. by apply framed_bind.
  - apply framed_bind. intros _ _. apply framed_bind. intros _ _.
    destruct (external_effect_uncertain n); [apply framed_quarantine|].
    destruct (quarantine_reason n); [apply framed_quarantine|apply framed_phase].
  - cbv zeta. fold (remember_both reason n). apply (framed_both n reason).
    apply (framed_from _ (set_entered true (remember_both reason n))); try done.
    2:{ destruct (remember_both_is reason n) as [r ->]. by intros ((_ & ? & _) & _). }
    case_match; [apply framed_begin_cleanup|]. apply framed_bind. intros r _. apply framed_phase.
Qed.

(** ** What a call adds *)

Definition reports_loss (c : RecoveryCall) (l : ProcessLossLineage) : Prop :=
  match c with CallFact _ _ _ (ProcessExited o) => observation_lineage o = l | _ => False end.
Definition reports_cleanup (c : RecoveryCall) (l : ProcessLossLineage) : Prop :=
  match c with CallFact _ _ _ (CleanupCompleted p) => proof_lineage p = l | _ => False end.

(** Calls after which a generation may not be restarted. *)
Definition forbids (c : RecoveryCall) : bool :=
  match c with
  | CallFact _ _ _ k =>
      match k with
      | ProcessExited o => lineage_external_effect_uncertain (observation_lineage o)
      | WedgeDetected i | InvocationUncertain i => bool_decide (failure_side_effect i <> EffectFree)
      | OwnerInvariantViolation _ | CleanupIncomplete _ => true
      | CleanupCompleted p => lineage_external_effect_uncertain (proof_lineage p)
      | _ => false
      end
  | CallComplete _ Failed _ => true
  | _ => false
  end.

(** Accepted facts and completions that are not repetitions. *)
Definition counted (en : Entry) : bool :=
  match answered en, made en with
  | Ok _, CallFact _ q _ _ => negb (q =? last_fact_sequence (found en))%N
  | Ok _, CallComplete id _ _ =>
      match pending_action (found en) with Some e => (action_id e =? id)%N | None => false end
  | _, _ => false
  end.

Lemma observe_fact_Ok s f t :
  observe_fact sha256 s f = Ok t ->
  fact_identity f = rs_identity s /\ later (rs_last_observed_at s) (fact_observed_at f) /\
  ((fact_sequence f = last_fact_sequence s /\ t = unchanged s) \/
   (last_fact_sequence s < fact_sequence f)%N /\
   exists d, let n := set_observed_at (fact_observed_at f) (set_fact (fact_sequence f) (Some d) s) in
     quarantined_ignores n (fact_kind f) = true /\ t = unchanged n \/
     quarantined_ignores n (fact_kind f) = false /\
     match fact_kind f with
     | ProcessExited o => observe_process_exited n o
     | HeartbeatMissed _ | ControlProbeMissed _ | ProtocolViolation _ | ResourceLimitExceeded _
     | LaunchFailed | ShutdownFailed => begin_failure n
     | OwnerInvariantViolation _ => begin_owner_invariant_failure n
     | WedgeDetected i | InvocationUncertain i => observe_invocation_failure n i
     | CleanupCompleted p => observe_cleanup_completed sha256 n p (fact_observed_at f)
     | CleanupIncomplete _ => observe_cleanup_incomplete n
     end = Ok t).
Proof.
  unfold observe_fact. intros H. apply bind_Ok in H as ([] & Hid & H). apply fail_if_Ok, bool_decide_eq_false in Hid.
  apply dec_stable in Hid. apply bind_Ok in H as ([] & Ht%recovery_clock_Ok & H).
  apply bind_Ok in H as (d & _ & H). apply bind_Ok in H as ([] & Hs%fail_if_Ok%N.ltb_ge & H).
  split; [done|]. split; [done|].
  destruct (N.eqb_spec (fact_sequence f) (last_fact_sequence s)) as [Heq|Hne].
  { left. case_bool_decide; [|done]. by injection H as <-. }
  right. split; [lia|]. exists d. cbv zeta in *.
  destruct (quarantined_ignores _ _); [left; by injection H as <-|right]. split; [done|].
  by destruct (fact_kind f).
Qed.

Definition call_time (c : RecoveryCall) : ClockReading :=
  match c with CallFact _ _ t _ | CallComplete _ _ t | CallPoll t | CallRoll _ t => t end.

Definition evidence (s s' : RecoveryState) (c : RecoveryCall) (d : RecoveryDecision) : Prop :=
  (loss_lineage s' = loss_lineage s \/
   exists l, loss_lineage s = None /\ loss_lineage s' = Some l /\ reports_loss c l) /\
  (cleanup_proven s' = cleanup_proven s \/
   exists l, loss_lineage s = Some l /\ loss_lineage s' = Some l /\ reports_cleanup c l) /\
  (forbids c = true -> doomed s') /\
  (starts d -> startable s /\ rs_last_observed_at s' = call_time c).

Lemma framed_evidence s n c t :
  framed n (Ok t) -> loss_lineage n = loss_lineage s -> cleanup_proven n = cleanup_proven s ->
  (startable n -> startable s) -> (forbids c = true -> doomed n) -> rs_last_observed_at n = call_time c ->
  evidence s (transition_state t) c (transition_decision t).
Proof.
  intros (H1 & H2 & H3 & H4) Hl Hc Hcl Hf Ht. split; [left; congruence|]. split; [left; congruence|].
  split; [auto|]. intros [Hn Ho]%H4. rewrite Ho. auto.
Qed.

Lemma evidence_exited s n i q at_ o t :
  loss_lineage n = loss_lineage s -> cleanup_proven n = cleanup_proven s -> (startable n -> startable s) ->
  rs_last_observed_at n = at_ -> observe_process_exited n o = Ok t ->
  evidence s (transition_state t) (CallFact i q at_ (ProcessExited o)) (transition_decision t).
Proof.
  intros Hl Hcp Hcl Hat H. unfold observe_process_exited in H.
  apply bind_Ok in H as ([] & Hnone%fail_if_Ok%bool_decide_eq_false%eq_None_not_Some & H). apply bind_Ok in H as ([] & _ & H). cbv zeta in H.
  set (m := set_external _ (set_loss (Some (observation_lineage o)) _ true n)) in *.
  assert (framed m (Ok t)) as Hfr.
  { rewrite <-H. clear H.
    repeat case_match; try apply framed_begin_cleanup; try apply framed_unchanged;
      (eapply framed_from; [by apply framed_issue|done..]). }
  destruct Hfr as (H1 & H2 & H3 & H4). split; [right; exists (observation_lineage o); rewrite <-Hl; by split_and!|].
  split; [left; rewrite H2; exact Hcp|]. split.
  - intros Hf. apply H3. left. unfold m. simpl. simpl in Hf. by rewrite Hf, orb_true_r.
  - intros [((Hx & Hq & He) & Hbo) Ho]%H4. split; [|rewrite Ho; exact Hat]. apply Hcl. split; [|exact Hbo]. split_and!; try done.
    unfold m in Hx. simpl in Hx. by apply orb_false_iff in Hx as [? _].
Qed.

Lemma evidence_completed s n i q at_ p t :
  loss_lineage n = loss_lineage s -> (startable n -> startable s) -> rs_last_observed_at n = at_ ->
  observe_cleanup_completed sha256 n p at_ = Ok t ->
  evidence s (transition_state t) (CallFact i q at_ (CleanupCompleted p)) (transition_decision t).
Proof.
  intros Hl Hcl Hat H. unfold observe_cleanup_completed in H.
  apply bind_Ok in H as ([] & _ & H). apply bind_Ok in H as (l & Hlin%ok_or_Ok & H).
  apply bind_Ok in H as ([] & _ & H). apply bind_Ok in H as ([] & Hp%fail_if_Ok & H). cbv zeta in H.
  apply bool_decide_eq_false, dec_stable in Hp.
  apply bind_Ok in H as (deadline & _ & H).
  set (m := set_proven true (set_external _ n)) in *.
  assert (framed m (Ok t)) as Hfr.
  { rewrite <-H. clear H. repeat case_match; first [apply framed_quarantine|apply framed_unchanged|apply framed_schedule]. }
  destruct Hfr as (H1 & H2 & H3 & H4). split; [left; by rewrite H1|].
  split; [right; exists l; rewrite <-Hl, H1; by split_and!|]. split.
  - intros Hf. apply H3. left. unfold m. simpl. simpl in Hf. by rewrite Hf, orb_true_r.
  - intros [((Hx & Hq & He) & Hbo) Ho]%H4. split; [|rewrite Ho; exact Hat]. apply Hcl. split; [|exact Hbo]. split_and!; try done.
    unfold m in Hx. simpl in Hx. by apply orb_false_iff in Hx as [? _].
Qed.

Lemma evidence_invocation s n c i t :
  loss_lineage n = loss_lineage s -> cleanup_proven n = cleanup_proven s -> (startable n -> startable s) ->
  (forbids c = true -> failure_side_effect i <> EffectFree) -> rs_last_observed_at n = call_time c ->
  observe_invocation_failure n i = Ok t -> evidence s (transition_state t) c (transition_decision t).
Proof.
  intros Hl Hcp Hcl Hf Hat H. unfold observe_invocation_failure in H. case_bool_decide as Hs.
  - apply (framed_evidence s (set_external true n)); try done.
    + rewrite <-H. cbv zeta. case_match; first [apply framed_begin_failure|apply framed_quarantine].
    + by intros ((? & _) & _).
    + intros _. by left.
  - apply (framed_evidence s n); try done.
    + rewrite <-H. apply framed_begin_failure.
    + intros Hx%Hf. done.
Qed.

Lemma ignored_evidence s n c :
  loss_lineage n = loss_lineage s -> cleanup_proven n = cleanup_proven s -> doomed n ->
  evidence s (transition_state (unchanged n)) c (transition_decision (unchanged n)).
Proof.
  intros Hl Hcp Hd. unfold unchanged, evidence. simpl. split; [by left|]. split; [by left|]. split; [done|].
  by destruct (pending_action n).
Qed.

Lemma evidence_fact s i q at_ k f t :
  rec_inv s -> fact_try_new i q at_ k = Ok f -> observe_fact sha256 s f = Ok t ->
  q = last_fact_sequence s /\ t = unchanged s \/
  q <> last_fact_sequence s /\
  evidence s (transition_state t) (CallFact i q at_ k) (transition_decision t).
Proof.
  intros Hi [_ ->]%fact_try_new_wf H. apply observe_fact_Ok in H as (_ & Ht & [[Heq ->]|[Hlt H]]); [by left|right].
  simpl in *. split; [lia|]. destruct H as (d & [[Hig ->]|[_ H]]).
  { apply ignored_evidence; [done..|]. unfold quarantined_ignores in Hig. simpl in Hig.
    destruct Hi as [_ Hph _]. destruct (rs_phase s); try done. right. exact Hph. }
  set (n := set_observed_at at_ (set_fact q (Some d) s)) in *.
  assert (forall c, forbids c = false -> call_time c = at_ -> forall r, framed n r -> r = Ok t ->
          evidence s (transition_state t) c (transition_decision t)) as Hplain.
  { intros c Hc Ht' r Hr ->. apply (framed_evidence s n); try done. by rewrite Hc. }
  destruct k; try (eapply Hplain; [done|done| |exact H]; apply framed_begin_failure).
  - by apply (evidence_exited s n).
  - eapply (evidence_invocation s n); [done..| |done|exact H]. simpl. by rewrite bool_decide_eq_true.
  - eapply (evidence_invocation s n); [done..| |done|exact H]. simpl. by rewrite bool_decide_eq_true.
  - unfold begin_owner_invariant_failure in H. set (m := remember_quarantine_reason _ n) in *.
    destruct (remember_is ReasonOwnerInvariantViolation n) as [r Hr].
    apply (framed_evidence s m).
    + rewrite <-H. cbv zeta. case_match; first [apply framed_begin_failure|apply framed_quarantine].
    + unfold m. by rewrite Hr.
    + unfold m. by rewrite Hr.
    + unfold m. rewrite Hr. by intros ((_ & ? & _) & _).
    + intros _. apply remember_doomed.
    + unfold m. by rewrite Hr.
  - by apply (evidence_completed s n).
  - unfold observe_cleanup_incomplete in H. destruct (rs_phase n) eqn:Hph; try done.
    + unfold quarantine in H. set (m := remember_quarantine_reason _ n) in *.
      destruct (remember_is ReasonCleanupNotProven n) as [r Hr].
      apply (framed_evidence s m).
      * rewrite <-H. apply framed_bind. intros r' _.
        case_bool_decide; [apply framed_unchanged|]. case_match; [apply framed_phase|by apply framed_issue].
      * unfold m. by rewrite Hr.
      * unfold m. by rewrite Hr.
      * unfold m. rewrite Hr. by intros ((_ & ? & _) & _).
      * intros _. apply remember_doomed.
      * unfold m. by rewrite Hr.
    + case_bool_decide as Hq; [|done]. injection H as <-. apply ignored_evidence; [done..|]. by right.
Qed.

Lemma evidence_complete s id outcome at_ t :
  rec_inv s -> complete_action s id outcome at_ = Ok t ->
  t = unchanged s /\ (forall e, pending_action s = Some e -> action_id e <> id) \/
  (exists e, pending_action s = Some e /\ action_id e = id) /\
  evidence s (transition_state t) (CallComplete id outcome at_) (transition_decision t).
Proof.
  intros [_ _ Hp] H. unfold complete_action in H. apply bind_Ok in H as ([] & _ & H). cbv zeta in H.
  assert (forall c, last_completed_action s = Some c -> completed_action_id c = id ->
          forall e, pending_action s = Some e -> action_id e <> id) as Hold.
  { intros c Hc <- e He. unfold pending_holds in Hp. rewrite He in Hp. destruct Hp as (_ & Hid & H0 & Hco).
    unfold completed_before in Hco. rewrite Hc in Hco. lia. }
  match type of H with match _ with Some c => if _ then _ else if _ then _ else ?p | None => _ end = _ =>
    assert (p = Ok t -> (exists e, pending_action s = Some e /\ action_id e = id) /\
      evidence s (transition_state t) (CallComplete id outcome at_) (transition_decision t)) as Hperf end.
  { clear H. intros H. apply bind_Ok in H as (e & He%ok_or_Ok & H).
    apply bind_Ok in H as ([] & Hid%fail_if_Ok%negb_false_iff%N.eqb_eq & H). apply bind_Ok in H as ([] & _ & H).
    split; [by exists e|]. set (n := set_observed_at at_ _) in *.
    case_bool_decide as Ho.
    - destruct (framed_complete_failed n (action e)) as [r Hf]. rewrite H in Hf.
      destruct (remember_both_is r n) as [r' Hr]. rewrite Hr in Hf.
      apply (framed_evidence s _ _ _ Hf); try done; [by intros ((_ & ? & _) & _)|]. intros _. right. by eexists.
    - apply (framed_evidence s n); try done; [rewrite <-H; apply framed_complete_done|].
      simpl. by destruct outcome. }
  destruct (last_completed_action s) as [c|] eqn:Hc; [|right; by apply Hperf].
  destruct (N.eqb_spec (completed_action_id c) id) as [Hid|Hid].
  - cbn [andb] in H. destruct (bool_decide _); [|discriminate H]. injection H as <-. left. split; [done|]. by eapply Hold.
  - cbn [andb] in H. right. by apply Hperf.
Qed.

Lemma evidence_poll s at_ t :
  rec_inv s -> poll s at_ = Ok t -> evidence s (transition_state t) (CallPoll at_) (transition_decision t).
Proof.
  intros [_ Hph _] H. unfold poll in H. apply bind_Ok in H as ([] & _ & H).
  destruct (pending_action s) as [e|].
  { injection H as <-. split; [by left|]. split; [by left|done]. }
  cbv zeta in H. set (n := set_observed_at at_ s) in *.
  assert (framed n (Ok t)) as Hf; [|by apply (framed_evidence s n)].
  rewrite <-H. clear H. change (rs_phase n) with (rs_phase s). destruct (rs_phase s) eqn:Hphase; simpl in Hph;
    repeat first [done|apply framed_unchanged|apply framed_quarantine|by apply framed_issue|apply framed_begin_cleanup
      |apply framed_poll_backoff; split; [exact (proj1 Hph)|unfold n; simpl; by rewrite Hphase]|case_match].
Qed.

(** ** The invariant of runs *)

Definition epoch_of (s : RecoveryState) : N := domain_epoch_value (process_domain_epoch (rs_identity s)).

(** Times of the fresh starts of a history, newest first. *)
Definition start_time (en : Entry) : option MonotonicInstant :=
  match answered en with
  | Ok (Execute e) => if is_start (action e) then Some (reading_now (call_time (made en))) else None
  | _ => None
  end.
Definition start_times (log : list Entry) : list MonotonicInstant := omap start_time log.

(** The envelopes issued in a history, newest first. *)
Definition issued (log : list Entry) : list RecoveryActionEnvelope :=
  omap (fun en => match answered en with Ok (Execute e) => Some e | _ => None end) log.

Definition outside (policy : ProcessRestartPolicy) (t' t : MonotonicInstant) : Prop :=
  (instant_value t + duration_value (restart_window policy) <= instant_value t')%N.

(** What a history says about the current generation. *)
Definition witnessed (log : list Entry) (s : RecoveryState) (P : RecoveryCall -> Prop) : Prop :=
  exists en, en ∈ log /\ counted en = true /\ rs_identity (found en) = rs_identity s /\ P (made en).

Record run_inv (policy : ProcessRestartPolicy) (s : RecoveryState) (log : list Entry) : Prop := {
  run_rec : rec_inv s;
  run_policy : rs_restart s = policy;
  run_epochs : forall en, en ∈ log -> (epoch_of (found en) <= epoch_of s)%N;
  run_forbids : forall en, en ∈ log -> counted en = true -> rs_identity (found en) = rs_identity s ->
    forbids (made en) = true -> doomed s;
  run_loss : forall l, loss_lineage s = Some l -> witnessed log s (fun c => reports_loss c l);
  run_cleanup : cleanup_proven s = true ->
    exists l, loss_lineage s = Some l /\ witnessed log s (fun c => reports_cleanup c l);
  run_ledger : exists old, start_times log = rev (attempts s) ++ old /\
    (forall t, t ∈ old -> outside policy (reading_now (rs_last_observed_at s)) t) /\
    spaced (outside policy) (max_attempts policy) (start_times log);
  run_ids : map action_id (issued log) = rev (map N.of_nat (seq 1 (N.to_nat (next_action_id s))));
}.

Lemma witnessed_cons log s s' en P :
  rs_identity s' = rs_identity s -> witnessed log s P -> witnessed (en :: log) s' P.
Proof. intros Hid (x & Hx & H). exists x. rewrite Hid. split; [by right|done]. Qed.

(** The ledger after one more call. *)
Lemma ledger_cons policy log s s' en d :
  rs_restart s = policy -> later (rs_last_observed_at s) (rs_last_observed_at s') ->
  ledger_step s s' d ->
  start_time en = (if d then Some (reading_now (rs_last_observed_at s')) else None) ->
  (exists old, start_times log = rev (attempts s) ++ old /\
    (forall t, t ∈ old -> outside policy (reading_now (rs_last_observed_at s)) t) /\
    spaced (outside policy) (max_attempts policy) (start_times log)) ->
  exists old, start_times (en :: log) = rev (attempts s') ++ old /\
    (forall t, t ∈ old -> outside policy (reading_now (rs_last_observed_at s')) t) /\
    spaced (outside policy) (max_attempts policy) (start_times (en :: log)).
Proof.
  intros Hp (_ & _ & Hlat) (dropped & kept & Hs & Hd & Hs' & Hroom) Hst (old & Heq & Hold & Hsp).
  assert (start_times log = rev kept ++ (rev dropped ++ old)) as Heq'.
  { by rewrite Heq, Hs, rev_app_distr, <-app_assoc. }
  assert (forall t, t ∈ rev dropped ++ old -> outside policy (reading_now (rs_last_observed_at s')) t) as Hold'.
  { intros t [Ht|Ht]%elem_of_app.
    - rewrite elem_of_rev in Ht. rewrite Forall_forall in Hd. apply Hd in Ht. rewrite Hp in Ht. exact Ht.
    - apply Hold in Ht. unfold outside, now_value in *. lia. }
  assert (start_times (en :: log) = (if d then [reading_now (rs_last_observed_at s')] else []) ++ start_times log) as ->.
  { unfold start_times. cbn [omap list_omap]. rewrite Hst. by destruct d. }
  exists (rev dropped ++ old). rewrite Hs'. destruct d; simpl; [|by rewrite app_nil_r].
  rewrite rev_app_distr. simpl. rewrite Heq'. split; [done|]. split; [done|].
  eapply spaced_cons; [by rewrite <-Heq'|done| |exact Hold'].
  rewrite <-Hp. by apply Hroom.
Qed.

(** A call fails or repeats and changes nothing, or moves the reducer, or
    rolls the generation. *)
Definition still (s s' : RecoveryState) (en : Entry) : Prop :=
  s' = s /\ counted en = false /\ start_time en = None /\ issued [en] = [] /\ quiet (answered en).
Definition advanced (s s' : RecoveryState) (c : RecoveryCall) (r : result RecoveryError RecoveryDecision) : Prop :=
  exists d, r = Ok d /\ rec_inv s' /\ moved s s' d /\ evidence s s' c d /\
    (match c with CallFact _ _ _ _ => True | _ => False end -> counted (MkEntry s c r) = true).
Definition rolled (s s' : RecoveryState) (c : RecoveryCall) (r : result RecoveryError RecoveryDecision) : Prop :=
  exists i t, c = CallRoll i t /\ r = Ok NoAction /\ roll_generation s i t = Ok s'.

Lemma still_unchanged s c :
  counted (MkEntry s c (Ok (transition_decision (unchanged s)))) = false ->
  still s s (MkEntry s c (Ok (transition_decision (unchanged s)))).
Proof.
  intros Hc. unfold still. split; [done|]. split; [done|]. unfold start_time, issued, unchanged. simpl.
  by destruct (pending_action s).
Qed.
Lemma still_failed s c r : quiet r -> (forall d, r <> Ok d) -> still s s (MkEntry s c r).
Proof. intros Hq Hr. destruct r as [d| |]; [by destruct (Hr d)|by destruct c|done]. Qed.

Lemma quiet_fact_try_new i q t k : quiet (fact_try_new i q t k).
Proof.
  unfold fact_try_new. apply quiet_bind; [by destruct (_ =? _)%N|intros _].
  apply quiet_bind; [|done]. unfold fail_if. by case_match.
Qed.

Lemma call_cases s c s' r :
  rec_inv s -> recovery_call s c = (s', r) -> still s s' (MkEntry s c r) \/ advanced s s' c r \/ rolled s s' c r.
Proof.
  intros Hi. destruct c as [i q at_ k|id outcome at_|at_|i at_]; cbn [recovery_call].
  - destruct (fact_try_new i q at_ k) as [f|e|] eqn:Hf; cbn [mbind result_mbind].
    2:{ intros [= <- <-]. left. apply still_failed; [|done]. pose proof (quiet_fact_try_new i q at_ k) as Hq. by rewrite Hf in Hq. }
    2:{ pose proof (quiet_fact_try_new i q at_ k) as Hq. by rewrite Hf in Hq. }
    pose proof (good_observe_fact sha256 s f Hi (proj1 (fact_try_new_wf _ _ _ _ _ Hf))) as Hg.
    destruct (observe_fact sha256 s f) as [t|e|] eqn:Ho; simpl in Hg; [|intros [= <- <-]; left; by apply still_failed|done].
    intros [= <- <-]. destruct (evidence_fact s i q at_ k f t Hi Hf Ho) as [[Hq ->]|[Hq He]].
    + left. apply still_unchanged. unfold counted. simpl. apply negb_false_iff. by apply N.eqb_eq.
    + right; left. exists (transition_decision t). destruct Hg. split_and!; try done. intros _. simpl.
      by apply negb_true_iff, N.eqb_neq.
  - pose proof (good_complete_action s id outcome at_ Hi) as Hg.
    destruct (complete_action s id outcome at_) as [t|e|] eqn:Ho; simpl in Hg; [|intros [= <- <-]; left; by apply still_failed|done].
    intros [= <- <-]. destruct (evidence_complete s id outcome at_ t Hi Ho) as [[-> Hne]|[_ He]].
    + left. apply still_unchanged. unfold counted. cbn [answered made found].
      destruct (pending_action s) as [e|]; [|reflexivity]. by apply N.eqb_neq, Hne.
    + right; left. exists (transition_decision t). destruct Hg. by split_and!.
  - pose proof (good_poll s at_ Hi) as Hg.
    destruct (poll s at_) as [t|e|] eqn:Ho; simpl in Hg; [|intros [= <- <-]; left; by apply still_failed|done].
    intros [= <- <-]. right; left. exists (transition_decision t). destruct Hg. split_and!; try done. by apply evidence_poll.
  - pose proof (roll_errors s i at_ Hi) as Hg.
    destruct (roll_generation s i at_) as [t|e|] eqn:Ho; simpl in *; [|intros [= <- <-]; left; by apply still_failed|done].
    intros [= <- <-]. right; right. by exists i, at_.
Qed.

Lemma moved_carried s s' d : moved s s' d ->
  exists start, carried s s' start /\ (start = true <-> starts d) /\
    next_action_id s' = (next_action_id s + match d with Execute _ => 1 | _ => 0 end)%N.
Proof.
  unfold moved, starts. destruct d as [|e| |].
  2:{ intros (Hc & Hid & _ & Hn & _). exists (is_start (action e)). split_and!; [done|done..|]. lia. }
  all: (intros [Hc Hn]; exists false; split_and!; [done|done..|]; lia).
Qed.

Lemma run_inv_advanced policy s s' c r log :
  run_inv policy s log -> advanced s s' c r -> run_inv policy s' (MkEntry s c r :: log).
Proof.
  intros [Hi Hp Hep Hf Hl Hcl Hled Hids] (d & -> & Hi' & Hm & (E1 & E2 & E3 & E4) & Hcount).
  destruct (moved_carried s s' d Hm) as (start & (Hid & [_ Hres] & Hdoom & Hlat & Hstep) & Hst & Hnext).
  split.
  - done.
  - by rewrite Hres.
  - unfold epoch_of. rewrite Hid. intros en [->|Hin]%elem_of_cons; [done|]. by apply Hep.
  - rewrite Hid. intros en [->|Hin]%elem_of_cons Hc Hsame Hfb; [by apply E3|]. apply Hdoom. by eapply Hf.
  - intros l Hl'. destruct E1 as [E1|(l' & _ & E1 & E1')].
    + eapply witnessed_cons; [exact Hid|]. apply Hl. congruence.
    + exists (MkEntry s c (Ok d)). split; [by left|]. rewrite Hid. assert (l' = l) as -> by congruence.
      split; [|done]. apply Hcount. by destruct c.
  - intros Hpr. destruct E2 as [E2|(l & E2 & E2' & E2'')].
    + destruct Hcl as (l & Hl' & Hw); [congruence|]. exists l. split; [|by eapply witnessed_cons].
      destruct E1 as [E1|(l' & E1 & _)]; congruence.
    + exists l. split; [done|]. exists (MkEntry s c (Ok d)). split; [by left|]. rewrite Hid.
      split; [|done]. apply Hcount. by destruct c.
  - eapply (ledger_cons policy log s s' _ start); [done|done|done| |done].
    unfold start_time. simpl. destruct d as [|e| |]; simpl in Hst; destruct start; try done; try (by destruct Hst as [Hst _]; destruct (Hst eq_refl)).
    + rewrite (proj1 Hst) by done. destruct E4 as [_ ->]; [by apply Hst|done].
    + destruct (is_start (action e)); [|done]. by discriminate (proj2 Hst eq_refl).
  - unfold issued in *. cbn [omap list_omap]. simpl. rewrite Hnext.
    destruct d as [|e| |]; simpl; rewrite ?N.add_0_r; try done.
    rewrite Hids, N.add_1_r, N2Nat.inj_succ, seq_S, map_app, rev_app_distr. simpl. f_equal.
    destruct Hm as (_ & -> & _). lia.
Qed.

Lemma run_inv_still policy s s' en log :
  run_inv policy s log -> found en = s -> still s s' en -> run_inv policy s' (en :: log).
Proof.
  intros [Hi Hp Hep Hf Hl Hcl Hled Hids] Hfound (-> & Hc & Hst & Hiss & _). split; try done.
  - intros x [->|Hin]%elem_of_cons; [by rewrite Hfound|by apply Hep].
  - intros x [->|Hin]%elem_of_cons Hx; [congruence|by apply Hf].
  - intros l Hll. eapply witnessed_cons; [done|by apply Hl].
  - intros Hpr. destruct (Hcl Hpr) as (l & ? & ?). exists l. split; [done|]. by eapply witnessed_cons.
  - unfold start_times. cbn [omap list_omap]. by rewrite Hst.
  - unfold issued in *. cbn [omap list_omap] in *. by destruct (match answered en with Ok _ => _ | _ => _ end).
Qed.

Lemma run_inv_rolled policy s s' c r log :
  run_inv policy s log -> rolled s s' c r -> run_inv policy s' (MkEntry s c r :: log).
Proof.
  intros [Hi Hp Hep Hf Hl Hcl Hled Hids] (i & t & -> & -> & Hroll).
  destruct (roll_Ok s i t s' Hi Hroll) as (e & Hph & Ht & _ & Hi1 & He & _ & _ & _ & _ & _ & Hi' & Hres & Hatt & Hat & Hn & Hloss & Hpr & _).
  destruct Hi as [_ Hphase _]. rewrite Hph in Hphase. destruct Hphase as (_ & _ & _ & Hsucc & _).
  assert (epoch_of s' = epoch_of s + 1)%N as Hepo by (unfold epoch_of; by rewrite Hi1, He).
  split; try done.
  - by rewrite Hres.
  - rewrite Hepo. intros x [->|Hin]%elem_of_cons; [simpl; lia|]. apply Hep in Hin. lia.
  - intros x Hx _ Hsame. exfalso.
    assert (epoch_of (found x) <= epoch_of s)%N as Hle.
    { apply elem_of_cons in Hx as [->|Hx]; [done|]. by apply Hep. }
    unfold epoch_of in *. rewrite Hsame in Hle. lia.
  - by rewrite Hloss.
  - by rewrite Hpr.
  - destruct Hled as (old & H1 & H2 & H3). exists old. unfold start_times in *. cbn [omap list_omap]. simpl.
    rewrite Hatt. split; [done|]. split; [|done]. intros x Hx. apply H2 in Hx. rewrite Hat.
    unfold outside in *. destruct Ht as (_ & _ & Ht). unfold now_value in Ht. lia.
  - unfold issued in *. cbn [omap list_omap]. simpl. by rewrite Hn.
Qed.

Lemma run_inv_call policy s log c s' r :
  run_inv policy s log -> recovery_call s c = (s', r) -> run_inv policy s' (MkEntry s c r :: log).
Proof.
  intros Hr Hc. destruct (call_cases s c s' r (run_rec _ _ _ Hr) Hc) as [H|[H|H]].
  - by apply (run_inv_still policy s).
  - by apply run_inv_advanced.
  - by apply run_inv_rolled.
Qed.

Lemma run_inv_new identity lifecycle restart replay t s :
  recovery_try_new identity lifecycle restart replay t = Ok s -> run_inv restart s [].
Proof.
  intros H. unfold recovery_try_new in H. rust_inv.
  split; simpl; try done.
  - split; [|by split_and!|by split]. split; [done|]. split; [done|]. split; [done|]. simpl.
    split_and!; [unfold len; simpl; lia|constructor|constructor].
  - by intros ? ?%not_elem_of_nil.
  - by intros ? ?%not_elem_of_nil.
  - exists []. split; [done|]. split; [by intros ? ?%not_elem_of_nil|apply spaced_nil].
Qed.

Lemma run_inv_run identity lifecycle restart replay t s0 calls s log :
  recovery_try_new identity lifecycle restart replay t = Ok s0 -> recovery_run s0 calls = (s, log) ->
  run_inv restart s log.
Proof.
  intros H0. revert s log; induction calls as [|c calls IH] using rev_ind; intros s log.
  - intros [= <- <-]. by eapply run_inv_new.
  - rewrite recovery_run_snoc. destruct (recovery_run s0 calls) as [s1 log1].
    destruct (recovery_call s1 c) as [s2 r] eqn:Hc. intros [= <- <-]. by eapply run_inv_call; [apply IH|].
Qed.

(** ** Properties of runs *)

(** A call that starts a fresh generation, or takes over the one started. *)
Definition renews (c : RecoveryCall) (r : result RecoveryError RecoveryDecision) (next : DomainEpoch) : Prop :=
  (exists e, r = Ok (Execute e) /\ action e = StartFreshDomain next) \/
  (exists i t d, c = CallRoll i t /\ r = Ok d /\ process_domain_epoch i = next).

Lemma start_startable s c s' e next :
  rec_inv s -> recovery_call s c = (s', Ok (Execute e)) -> action e = StartFreshDomain next ->
  clean s /\ cleanup_proven s = true /\ successor s next.
Proof.
  intros Hi Hc He.
  destruct (call_cases s c s' _ Hi Hc) as [(_ & _ & Hst & _)|[(d & [= <-] & Hi' & Hm & (_ & _ & _ & E4) & _)|(i & t & _ & [=] & _)]].
  { unfold start_time in Hst. simpl in Hst. by rewrite He in Hst. }
  destruct E4 as [[Hcl Hbo] _]; [simpl; by rewrite He|]. split; [done|].
  destruct Hi as [_ Hph _]. destruct (rs_phase s); try done. destruct Hph as (_ & Hpr & _). split; [done|].
  destruct Hm as ((Hid & _) & _ & _ & _ & Hp). destruct Hi' as [_ Hph' Hpe']. unfold pending_holds in Hpe'.
  rewrite Hp, He in Hpe'. destruct Hpe' as [Ha _]. destruct (rs_phase s'); try done. simpl in Ha. subst.
  destruct Hph' as (_ & _ & _ & Hs). unfold successor in *. by rewrite Hid in Hs.
Qed.

(** C12: A fresh generation is started, and a started one taken over, only under
    the successor epoch and only after the loss of the process of the current
    generation was reported with every handoff settled and a cleanup proof of
    that very loss was accepted; and after no accepted fact of the generation
    reported a possible external effect, an owner invariant violation or an
    incomplete cleanup, and no recovery action failed. *)
Theorem fresh_start_is_earned identity lifecycle restart replay t0 s0 calls s log c s' r next :
  recovery_try_new identity lifecycle restart replay t0 = Ok s0 ->
  recovery_run s0 calls = (s, log) ->
  recovery_call s c = (s', r) -> renews c r next ->
  domain_epoch_value next = (epoch_of s + 1)%N /\ (domain_epoch_value next <= u64_max)%N /\
  (exists lineage, lineage_identity lineage = rs_identity s /\ lineage_unsettled_handoffs lineage = 0%N /\
     lineage_external_effect_uncertain lineage = false /\
     witnessed log s (fun c => reports_loss c lineage) /\ witnessed log s (fun c => reports_cleanup c lineage)) /\
  (forall en, en ∈ log -> counted en = true -> rs_identity (found en) = rs_identity s -> forbids (made en) = false).
Proof.
  intros H0 Hrun Hc Hn. pose proof (run_inv_run _ _ _ _ _ _ _ _ _ H0 Hrun) as Hr.
  pose proof (run_rec _ _ _ Hr) as Hi.
  assert (clean s /\ cleanup_proven s = true /\ successor s next) as (Hclean & Hpr & Hsu & Hmax).
  { destruct Hn as [(e & -> & He)|(i & t & d & -> & -> & <-)].
    - by eapply start_startable.
    - cbn [recovery_call] in Hc. destruct (roll_generation s i t) as [s1| |] eqn:Hroll; try done.
      destruct (roll_Ok s i t s1 Hi Hroll) as (e & Hph & _ & _ & _ & -> & _).
      destruct Hi as [_ Hphase _]. rewrite Hph in Hphase. simpl in Hphase. tauto. }
  split; [done|]. split; [done|]. split.
  - destruct (run_cleanup _ _ _ Hr Hpr) as (l & Hl & Hw). exists l.
    destruct Hi as [(Hb & _) _ _]. unfold loss_holds in Hb. rewrite Hl in Hb. destruct Hb as (_ & Hz & Hid & Hx).
    split; [done|]. split; [done|]. split; [|split; [by apply (run_loss _ _ _ Hr)|done]].
    destruct (lineage_external_effect_uncertain l); [|done]. destruct Hclean as (Hx' & _). rewrite Hx' in Hx.
    by discriminate (Hx eq_refl).
  - intros en Hin Hcnt Hsame. destruct (forbids (made en)) eqn:Hf; [|done]. exfalso.
    destruct (run_forbids _ _ _ Hr en Hin Hcnt Hsame Hf) as [Hd|[x Hd]]; destruct Hclean as (? & ? & _); congruence.
Qed.

(** C17: At most [max_attempts] fresh generations are started within one restart
    window, over any run and across the generations it rolls through. *)
Theorem fresh_starts_within_window identity lifecycle restart replay t0 s0 calls s log pre t' mid t post :
  recovery_try_new identity lifecycle restart replay t0 = Ok s0 ->
  recovery_run s0 calls = (s, log) ->
  start_times log = pre ++ t' :: mid ++ t :: post ->
  (max_attempts restart <= N.of_nat (length mid) + 1)%N ->
  (instant_value t + duration_value (restart_window restart) <= instant_value t')%N.
Proof.
  intros H0 Hrun Hst Hlen. destruct (run_inv_run _ _ _ _ _ _ _ _ _ H0 Hrun) as [_ _ _ _ _ _ (old & _ & _ & Hsp) _].
  by eapply Hsp.
Qed.

(** C35: In every state a run reaches the reducer answers each call without
    panicking and never with an error that reports an inconsistent reducer:
    its state is consistent, no action is issued over a pending one, and no
    fresh start is reached without proven cleanup. *)
Theorem reducer_stays_consistent identity lifecycle restart replay t0 s0 calls s log c s' r :
  recovery_try_new identity lifecycle restart replay t0 = Ok s0 ->
  recovery_run s0 calls = (s, log) -> recovery_call s c = (s', r) ->
  r <> Panic /\ r <> Err StateInconsistent /\ r <> Err ActionAlreadyPending /\ r <> Err CleanupNotProven.
Proof.
  intros H0 Hrun Hc. pose proof (run_inv_run _ _ _ _ _ _ _ _ _ H0 Hrun) as Hr.
  assert (quiet r) as Hq.
  { destruct (call_cases s c s' r (run_rec _ _ _ Hr) Hc) as [(_ & _ & _ & _ & Hq)|[(d & -> & _)|(i & t & _ & -> & _)]]; done. }
  split_and!; intros ->; done.
Qed.

(** Over any run the issued actions are numbered 1, 2, 3, ..., also across
    generations: an idempotency id never stands for two actions. *)
Theorem actions_are_numbered identity lifecycle restart replay t0 s0 calls s log :
  recovery_try_new identity lifecycle restart replay t0 = Ok s0 ->
  recovery_run s0 calls = (s, log) ->
  map action_id (issued log) = rev (map N.of_nat (seq 1 (length (issued log)))).
Proof.
  intros H0 Hrun. pose proof (run_ids _ _ _ (run_inv_run _ _ _ _ _ _ _ _ _ H0 Hrun)) as Hids.
  rewrite Hids at 1. do 3 f_equal. apply (f_equal length) in Hids. by rewrite length_rev, !length_map, length_seq in Hids.
Qed.

(** ** Repeated deliveries *)

(** What identifies the calls already taken: only the entry points write it. *)
Definition delivered (s : RecoveryState) :=
  (rs_identity s, last_fact_sequence s, last_fact_fingerprint s, last_completed_action s, rs_last_observed_at s).
Definition keeps (n : RecoveryState) (r : Transition) : Prop :=
  match r with Ok t => delivered (transition_state t) = delivered n | _ => True end.

Lemma keeps_bind {A : Type} n (r : result RecoveryError A) (f : A -> Transition) :
  (forall a, r = Ok a -> keeps n (f a)) -> keeps n (r ≫= f).
Proof. destruct r; simpl; auto. Qed.
Lemma keeps_from n n' r : keeps n' r -> delivered n' = delivered n -> keeps n r.
Proof. destruct r; simpl; congruence. Qed.
Lemma keeps_issue n phase act : keeps n (issue n phase act).
Proof. unfold issue. apply keeps_bind. intros _ _. by apply keeps_bind. Qed.
Lemma keeps_remember n r t : keeps (remember_quarantine_reason r n) t -> keeps n t.
Proof. intros H. eapply keeps_from; [exact H|]. by destruct (remember_is r n) as [r' ->]. Qed.
Lemma keeps_quarantine n r : keeps n (quarantine n r).
Proof.
  unfold quarantine. apply (keeps_remember n r). apply keeps_bind. intros r' _.
  repeat case_match; try done; apply keeps_issue.
Qed.
Lemma keeps_begin_failure n : keeps n (begin_failure n).
Proof.
  unfold begin_failure. apply (keeps_from n (set_restart_after_cleanup true n)); [|done].
  case_bool_decide; [apply keeps_issue|done].
Qed.
Lemma keeps_begin_cleanup n : keeps n (begin_cleanup n).
Proof. unfold begin_cleanup. apply keeps_bind. intros _ _. apply keeps_bind. intros _ _. apply keeps_issue. Qed.
Lemma keeps_await n t : keeps n (await_process_loss n t).
Proof. unfold await_process_loss. by apply keeps_bind. Qed.
Lemma keeps_schedule n t : keeps n (schedule_after_cleanup sha256 n t).
Proof.
  unfold schedule_after_cleanup. apply keeps_bind. intros _ _. apply keeps_bind. intros _ _.
  destruct (external_effect_uncertain n); [apply keeps_quarantine|].
  destruct (quarantine_reason n); [apply keeps_quarantine|]. destruct (restart_after_cleanup n); [|done]. simpl.
  apply keeps_bind. intros n' Hn'. unfold prune_attempts in Hn'. rust_inv.
  eapply (keeps_from n); [|reflexivity]. eapply keeps_from; [|shelve].
  apply keeps_bind. intros [] _; [apply keeps_quarantine|]. apply keeps_bind. intros d _. by apply keeps_bind.
  Unshelve. done.
Qed.
#[local] Hint Resolve keeps_issue keeps_quarantine keeps_begin_failure keeps_begin_cleanup keeps_await : keeps.

Lemma keeps_owner n : keeps n (begin_owner_invariant_failure n).
Proof.
  unfold begin_owner_invariant_failure. apply (keeps_remember n ReasonOwnerInvariantViolation).
  case_match; auto with keeps.
Qed.
Lemma keeps_exited n o : keeps n (observe_process_exited n o).
Proof.
  unfold observe_process_exited. apply keeps_bind. intros _ _. apply keeps_bind. intros _ _. cbv zeta.
  set (m := set_external _ _). apply (keeps_from n m); [|done].
  repeat case_match; try done; try apply keeps_begin_cleanup; (eapply keeps_from; [apply keeps_issue|done]).
Qed.
Lemma keeps_invocation n i : keeps n (observe_invocation_failure n i).
Proof.
  unfold observe_invocation_failure. case_bool_decide; [|auto with keeps].
  apply (keeps_from n (set_external true n)); [|done]. case_match; auto with keeps.
Qed.
Lemma keeps_completed n p t : keeps n (observe_cleanup_completed sha256 n p t).
Proof.
  unfold observe_cleanup_completed. do 4 (apply keeps_bind; intros ? _). apply keeps_bind. intros d _.
  eapply (keeps_from n); [|reflexivity].
  match goal with |- keeps _ (if _ then quarantine ?m _ else _) => apply (keeps_from n m); [|done] end.
  repeat case_match; try done; first [apply keeps_quarantine|apply keeps_schedule].
Qed.
Lemma keeps_incomplete n : keeps n (observe_cleanup_incomplete n).
Proof. unfold observe_cleanup_incomplete. repeat case_match; try done; auto with keeps. Qed.
Lemma keeps_both n r t : keeps (remember_both r n) t -> keeps n t.
Proof. intros H. eapply keeps_from; [exact H|]. by destruct (remember_both_is r n) as [r' ->]. Qed.
Lemma keeps_failed n act : keeps n (complete_failed n act).
Proof.
  unfold complete_failed. change (remember_action_failure n) with (remember_both RecoveryActionFailed n).
  destruct act; cbv zeta; [| | | | | |fold (remember_both reason n)]; eapply keeps_both;
    repeat first [apply keeps_begin_cleanup|apply keeps_issue|apply keeps_quarantine|done
      |apply keeps_bind; intros ? _|case_match].
Qed.
Lemma keeps_done n act o t : keeps n (complete_done n act o t).
Proof.
  destruct act; cbn [complete_done]; unfold complete_stop_signal;
    try (repeat first [apply keeps_begin_cleanup|apply keeps_issue|apply keeps_quarantine|apply keeps_await|done
      |apply keeps_bind; intros ? _|case_match]; fail).
  cbv zeta. fold (remember_both reason n). apply (keeps_both n reason).
  apply (keeps_from _ (set_entered true (remember_both reason n))); [|done].
  case_match; [apply keeps_begin_cleanup|]. by apply keeps_bind.
Qed.

(** After an accepted fact the state carries its sequence number and
    fingerprint, and the clock of the fact is not behind it. *)
Lemma observe_fact_recorded s f tr :
  observe_fact sha256 s f = Ok tr ->
  exists dg, fingerprint_fact sha256 f = Ok dg /\
    rs_identity (transition_state tr) = fact_identity f /\
    later (rs_last_observed_at (transition_state tr)) (fact_observed_at f) /\
    last_fact_sequence (transition_state tr) = fact_sequence f /\
    last_fact_fingerprint (transition_state tr) = Some dg.
Proof.
  intros Ho. unfold observe_fact in Ho. apply bind_Ok in Ho as ([] & Hid%fail_if_Ok%bool_decide_eq_false & Ho).
  apply dec_stable in Hid. apply bind_Ok in Ho as ([] & Ht%recovery_clock_Ok & Ho).
  apply bind_Ok in Ho as (dg & Hdg & Ho). apply bind_Ok in Ho as ([] & _ & Ho).
  exists dg. split; [done|].
  destruct (N.eqb_spec (fact_sequence f) (last_fact_sequence s)) as [Hq|Hne].
  { case_bool_decide; [|done]. injection Ho as <-. by split_and!. }
  set (n := set_observed_at (fact_observed_at f) (set_fact (fact_sequence f) (Some dg) s)) in *.
  assert (keeps n (Ok tr)) as Hk.
  { rewrite <-Ho. destruct (quarantined_ignores n (fact_kind f)); [done|].
    destruct (fact_kind f); auto with keeps; first [apply keeps_exited|apply keeps_invocation|apply keeps_owner
      |apply keeps_completed|apply keeps_incomplete]. }
  injection Hk as -> -> -> _ ->. split_and!; [done|apply later_refl|done|done].
Qed.

(** Delivering an accepted fact or completion a second time is accepted and
    changes nothing: a retried delivery never acts twice. *)
Theorem repeated_delivery_changes_nothing s c s' d :
  match c with CallFact _ _ _ _ | CallComplete _ _ _ => True | _ => False end ->
  recovery_call s c = (s', Ok d) ->
  recovery_call s' c = (s', Ok (transition_decision (unchanged s'))).
Proof.
  destruct c as [i q t k|id outcome t| |]; try done; intros _; cbn [recovery_call].
  - destruct (fact_try_new i q t k) as [f| |] eqn:Hf; cbn [mbind result_mbind]; try done.
    destruct (observe_fact sha256 s f) as [tr| |] eqn:Ho; try done. intros [= <- _].
    pose proof Ho as Ho'. apply fact_try_new_wf in Hf as [_ ->].
    destruct (observe_fact_recorded s (MkRuntimeFailureFact i q t k) tr Ho) as (dg & Hdg & H1 & H2 & H3 & H4).
    simpl in *.
    unfold observe_fact. cbn [fact_identity fact_observed_at fact_sequence].
    rewrite H1, bool_decide_ne_refl. cbn [fail_if mbind result_mbind].
    rewrite (proj2 (recovery_clock_Ok _ _) H2), Hdg. cbn [mbind result_mbind].
    rewrite H3, N.ltb_irrefl, N.eqb_refl, H4. cbn [fail_if mbind result_mbind].
    by rewrite bool_decide_eq_true_2 by done.
  - destruct (complete_action s id outcome t) as [tr| |] eqn:Ho; try done. intros [= <- _].
    assert (later (rs_last_observed_at (transition_state tr)) t /\
      last_completed_action (transition_state tr) = Some (MkCompletedAction id outcome)) as [H1 H2].
    { unfold complete_action in Ho. apply bind_Ok in Ho as ([] & Ht%recovery_clock_Ok & Ho). cbv zeta in Ho.
      match type of Ho with match _ with Some c => if _ then _ else if _ then _ else ?p | None => _ end = _ =>
        assert (p = Ok tr -> later (rs_last_observed_at (transition_state tr)) t /\
          last_completed_action (transition_state tr) = Some (MkCompletedAction id outcome)) as Hperf end.
      { intros H. apply bind_Ok in H as (e & _ & H). apply bind_Ok in H as ([] & _ & H).
        apply bind_Ok in H as ([] & _ & H). set (n := set_observed_at t _) in *.
        assert (keeps n (Ok tr)) as Hk by (rewrite <-H; case_bool_decide; [apply keeps_failed|apply keeps_done]).
        injection Hk as _ _ _ -> ->. split; [apply later_refl|done]. }
      destruct (last_completed_action s) as [[cid co]|] eqn:Hc; [|by apply Hperf].
      destruct (N.eqb_spec (completed_action_id (MkCompletedAction cid co)) id) as [Hid|Hid]; cbn [andb] in Ho;
        [|by apply Hperf].
      destruct (bool_decide _) eqn:Hout; [apply bool_decide_eq_true in Hout|discriminate Ho].
      injection Ho as <-. simpl in *. subst. by rewrite Hc. }
    unfold complete_action. rewrite (proj2 (recovery_clock_Ok _ _) H1), H2. cbn [mbind result_mbind]. cbv zeta.
    cbn [completed_action_id completed_outcome]. rewrite N.eqb_refl. by rewrite bool_decide_eq_true_2 by done.
Qed.
End runs.

(** ** A run *)

Module RecoveryDemo.
Definition no_hash (_ : list byte) : bytes32 := zero32.
Definition clock (now : N) : ClockReading :=
  MkClockReading (MkClockDomainRef zero16) (MkClockGeneration 1) (from_ticks now).
Definition generation (epoch : N) : ProcessGenerationIdentity :=
  {| process_runtime_host := process_runtime_host example_process;
     process_runtime_host_epoch := process_runtime_host_epoch example_process;
     process_source_revision := process_source_revision example_process;
     process_target_slice_digest := process_target_slice_digest example_process;
     process_domain := process_domain example_process;
     process_domain_epoch := MkDomainEpoch epoch |}.
Definition budgets : ProcessLifecycleBudgets :=
  let d := from_nanos 10 in
  MkProcessLifecycleBudgets (MkProcessLivenessBudgets d d d d) (MkProcessShutdownBudgets d d d d d).
(** One restart per hundred ticks, after ten to twenty ticks of backoff. *)
Definition policy : ProcessRestartPolicy :=
  MkProcessRestartPolicy 1 (from_nanos 100) (from_nanos 10) (from_nanos 20) 5000.
Definition lineage (epoch : N) : ProcessLossLineage :=
  MkProcessLossLineage (generation epoch) 1 0 0 0 0 0 false.

(** The process of a generation dies, is cleaned up and started again. *)
Definition lost_and_restarted (epoch action_id at_ : N) : list RecoveryCall :=
  [CallFact (generation epoch) 1 (clock at_) (ProcessExited (MkProcessLossObservation (lineage epoch) false []));
   CallComplete action_id Succeeded (clock (at_ + 1));
   CallComplete (action_id + 1) Succeeded (clock (at_ + 2));
   CallFact (generation epoch) 2 (clock (at_ + 3))
     (CleanupCompleted (MkProcessCleanupProof (lineage epoch) (MkProcessCleanupCensus true 0 0 0 0 0 0)));
   CallPoll (clock (at_ + 50))].
Definition rolled_over (epoch action_id at_ : N) : list RecoveryCall :=
  [CallComplete action_id Succeeded (clock at_); CallRoll (generation (epoch + 1)) (clock at_)].

Definition start : RecoveryState :=
  match recovery_try_new (generation 1) budgets policy NoReplay (clock 0) with
  | Ok s => s
  | _ => MkRecoveryState (generation 1) budgets policy NoReplay Stopped false false false None false None 0 false 0
           [] 0 None None 0 None (clock 0)
  end.
Lemma started : recovery_try_new (generation 1) budgets policy NoReplay (clock 0) = Ok start.
Proof. reflexivity. Qed.

(** Up to the end of the backoff of the first generation. *)
Definition to_backoff : list RecoveryCall := removelast (lost_and_restarted 1 1 0).
Definition two_restarts : list RecoveryCall :=
  lost_and_restarted 1 1 0 ++ rolled_over 1 3 60 ++ lost_and_restarted 2 4 200.
Abbreviation run calls := (recovery_run no_hash start calls).
End RecoveryDemo.
Import RecoveryDemo.

Lemma fresh_start_is_earned_witness :
  let s := fst (run to_backoff) in
  snd (recovery_call no_hash s (CallPoll (clock 50)))
    = Ok (Execute (MkRecoveryActionEnvelope 3 (StartFreshDomain (MkDomainEpoch 2)))) /\
  exists l, lineage_identity l = rs_identity s /\ witnessed (snd (run to_backoff)) s (fun c => reports_cleanup c l).
Proof.
  cbv zeta. split; [vm_compute; reflexivity|].
  destruct (fresh_start_is_earned no_hash (generation 1) budgets policy NoReplay (clock 0) start to_backoff
    (fst (run to_backoff)) (snd (run to_backoff)) (CallPoll (clock 50))
    (fst (recovery_call no_hash (fst (run to_backoff)) (CallPoll (clock 50))))
    (snd (recovery_call no_hash (fst (run to_backoff)) (CallPoll (clock 50)))) (MkDomainEpoch 2)) as (_ & _ & (l & H) & _).
  - exact started.
  - apply surjective_pairing.
  - apply surjective_pairing.
  - left. eexists. split; [vm_compute; reflexivity|reflexivity].
  - exists l. tauto.
Defined.

Lemma fresh_starts_within_window_witness :
  start_times (snd (run two_restarts)) = [from_ticks 250; from_ticks 50] /\ (50 + 100 <= 250)%N.
Proof.
  split; [vm_compute; reflexivity|].
  apply (fresh_starts_within_window no_hash (generation 1) budgets policy NoReplay (clock 0) start two_restarts
    (fst (run two_restarts)) (snd (run two_restarts)) [] (from_ticks 250) [] (from_ticks 50) []).
  - exact started.
  - apply surjective_pairing.
  - vm_compute; reflexivity.
  - by vm_compute.
Defined.

Lemma reducer_stays_consistent_witness :
  snd (recovery_call no_hash (fst (run two_restarts)) (CallPoll (clock 300))) <> Err StateInconsistent.
Proof.
  apply (reducer_stays_consistent no_hash (generation 1) budgets policy NoReplay (clock 0) start two_restarts
    (fst (run two_restarts)) (snd (run two_restarts)) (CallPoll (clock 300))
    (fst (recovery_call no_hash (fst (run two_restarts)) (CallPoll (clock 300))))).
  - exact started.
  - apply surjective_pairing.
  - apply surjective_pairing.
Defined.

Lemma actions_are_numbered_witness :
  map action_id (issued (snd (run two_restarts))) = [6; 5; 4; 3; 2; 1]%N.
Proof.
  transitivity (rev (map N.of_nat (seq 1 (length (issued (snd (run two_restarts))))))); [|vm_compute; reflexivity].
  apply (actions_are_numbered no_hash (generation 1) budgets policy NoReplay (clock 0) start two_restarts
    (fst (run two_restarts))); [exact started|apply surjective_pairing].
Defined.

Lemma repeated_delivery_changes_nothing_witness :
  let c := CallFact (generation 1) 1 (clock 5) LaunchFailed in
  let s := fst (recovery_call no_hash start c) in
  recovery_call no_hash s c = (s, Ok (transition_decision (unchanged s))).
Proof.
  cbv zeta. eapply (repeated_delivery_changes_nothing no_hash start); [exact I|vm_compute; reflexivity].
Defined.
