(* ===== verification/RecoveryDigest.v ===== *)
(** * Process-domain recovery: fingerprints and restart delays

    The fingerprint by which the reducer recognises a repeated fact binds the
    whole fact, and the jittered restart delay stays within the policy. *)

From S2P Require Import Prelude Bytes KernelTime KernelDigest ApplyContracts Assignment CardInstance Liveness RuntimeOwnership Recovery RecoveryInv RecoveryProps.
Open Scope rust_scope.

(** ** Digests as field sequences *)

Definition appends (b : Digest32Builder) (fields : list (list byte))
    (r : result RecoveryError Digest32Builder) : Prop :=
  r = map_err digest_failed (try_fold field_bytes b fields).

Lemma try_fold_app {E A B : Type} (f : B -> A -> result E B) l k b :
  try_fold f b (l ++ k) = (b' ← try_fold f b l; try_fold f b' k).
Proof.
  revert b; induction l as [|a l IH]; intros b; [done|]. cbn [app try_fold].
  destruct (f b a); simpl; [apply IH|done|done].
Qed.
Lemma appends_nil b : appends b [] (Ok b).
Proof. done. Qed.
Lemma appends_field b v : appends b [v] (rec_field_bytes b v).
Proof. unfold appends, rec_field_bytes. simpl. by destruct (field_bytes b v). Qed.
Lemma appends_bind b fs fs' r f :
  appends b fs r -> (forall b', appends b' fs' (f b')) -> appends b (fs ++ fs') (r ≫= f).
Proof.
  unfold appends. intros -> Hf. rewrite try_fold_app. destruct (try_fold field_bytes b fs); simpl; [apply Hf|done|done].
Qed.
(** One more field in front. *)
Lemma appends_cons b v fs f :
  (forall b', appends b' fs (f b')) -> appends b (v :: fs) (rec_field_bytes b v ≫= f).
Proof. apply (appends_bind b [v]), appends_field. Qed.
Lemma appends_fold {A : Type} (g : A -> list (list byte)) f l b :
  (forall b a, appends b (g a) (f b a)) -> appends b (concat (map g l)) (try_fold f b l).
Proof.
  intros Hf. revert b; induction l as [|a l IH]; intros b; [done|]. cbn [map concat try_fold].
  apply appends_bind; [apply Hf|apply IH].
Qed.

(** The fields of the parts of a fact. *)
Definition u32_field (v : N) : list byte := be_bytes 4 v.
Definition u64_field (v : N) : list byte := be_bytes 8 v.
Definition bool_field (v : bool) : list byte := [if v then x01 else x00].

Definition identity_fields (i : ProcessGenerationIdentity) : list (list byte) :=
  [vec_to_list (host_bytes (process_runtime_host i)); u64_field (host_epoch_value (process_runtime_host_epoch i));
   u64_field (revision_value (process_source_revision i));
   vec_to_list (digest_bytes (slice_digest_value (process_target_slice_digest i)));
   vec_to_list (process_domain_bytes (process_domain i)); u64_field (domain_epoch_value (process_domain_epoch i))].
Definition lineage_fields (l : ProcessLossLineage) : list (list byte) :=
  [u32_field (snapshot_process_tree_members l); u32_field (snapshot_outstanding l);
   u32_field (snapshot_held_ipc_credits l); u64_field (snapshot_retained_bytes l);
   u32_field (crossed_handoffs l); u32_field (classified_handoffs l);
   bool_field (lineage_external_effect_uncertain l)].
Definition loss_fields (i : ProcessInvocationLoss) : list (list byte) :=
  [vec_to_list (instance_ref_bytes (loss_instance i)); u64_field (generation_epoch_value (loss_generation i));
   u64_field (invocation_value (loss_invocation i)); [side_effect_tag (loss_side_effect i)]].
Definition invocation_fields (i : ProcessInvocationFailure) : list (list byte) :=
  [vec_to_list (instance_ref_bytes (failure_instance i)); u64_field (generation_epoch_value (failure_generation i));
   u64_field (invocation_value (failure_invocation i)); [side_effect_tag (failure_side_effect i)]].
Definition census_fields (c : ProcessCleanupCensus) : list (list byte) :=
  [bool_field (leader_reaped c); u32_field (live_process_tree_members c); u32_field (open_ipc_handles c);
   u32_field (outstanding_ipc_credits c); u64_field (census_retained_bytes c); u32_field (workspace_entries c);
   u32_field (registered_resources c)].
Definition kind_fields (k : RuntimeFailureFactKind) : list (list byte) :=
  match k with
  | ProcessExited o =>
      [x01] :: bool_field (observation_expected o) :: identity_fields (observation_identity o)
      ++ lineage_fields (observation_lineage o) ++ concat (map loss_fields (uncertain_invocations o))
  | HeartbeatMissed v => [[x02]; u64_field v]
  | ControlProbeMissed v => [[x03]; u64_field v]
  | WedgeDetected i => [x04] :: invocation_fields i
  | InvocationUncertain i => [x05] :: invocation_fields i
  | ProtocolViolation v => [[x06]; [protocol_failure_tag v]]
  | ResourceLimitExceeded v => [[x0a]; [resource_failure_tag v]]
  | OwnerInvariantViolation v => [[x0b]; [owner_invariant_failure_tag v]]
  | LaunchFailed => [[x07]]
  | ShutdownFailed => [[x0c]]
  | CleanupCompleted p => [x08] :: lineage_fields (proof_lineage p) ++ census_fields (proof_census p)
  | CleanupIncomplete c => [x09] :: census_fields c
  end.
Definition fact_fields (f : RuntimeFailureFact) : list (list byte) :=
  identity_fields (fact_identity f) ++
  [u64_field (fact_sequence f); vec_to_list (clock_domain_bytes (reading_domain (fact_observed_at f)));
   u64_field (generation_value (reading_generation (fact_observed_at f)));
   u64_field (now_value (fact_observed_at f))] ++ kind_fields (fact_kind f).

Lemma appends_identity b i : appends b (identity_fields i) (append_identity b i).
Proof. unfold append_identity, identity_fields. repeat (apply appends_cons; intros ?). apply appends_field. Qed.
Lemma appends_lineage b l : appends b (lineage_fields l) (append_loss_lineage b l).
Proof. unfold append_loss_lineage, lineage_fields. repeat (apply appends_cons; intros ?). apply appends_field. Qed.
Lemma appends_census b c : appends b (census_fields c) (append_census b c).
Proof. unfold append_census, census_fields. repeat (apply appends_cons; intros ?). apply appends_field. Qed.
Lemma appends_invocation b i : appends b (invocation_fields i) (append_invocation b i).
Proof. unfold append_invocation, invocation_fields. repeat (apply appends_cons; intros ?). apply appends_field. Qed.
Lemma appends_loss b i : appends b (loss_fields i) (append_loss b i).
Proof. unfold append_loss, loss_fields. repeat (apply appends_cons; intros ?). apply appends_field. Qed.
Lemma appends_kind b k : appends b (kind_fields k) (append_fact_kind b k).
Proof.
  destruct k; cbn [append_fact_kind kind_fields]; unfold field_tag; try (apply appends_field);
    apply appends_cons; intros b1; try apply appends_field; try apply appends_invocation; try apply appends_census.
  - apply appends_cons. intros b2. unfold append_loss_observation.
    apply appends_bind; [apply appends_identity|intros b3]. apply appends_bind; [apply appends_lineage|intros b4].
    apply appends_fold, appends_loss.
  - apply appends_bind; [apply appends_lineage|intros b2; apply appends_census].
Qed.

Section sha.
Context (sha256 : list byte -> bytes32).

Lemma fingerprint_build f d :
  fingerprint_fact sha256 f = Ok d <->
  exists b, build RECOVERY_FACT_DIGEST_DOMAIN (fact_fields f) = Ok b /\ d = finish sha256 b.
Proof.
  assert (fingerprint_fact sha256 f =
    (b ← map_err digest_failed (build RECOVERY_FACT_DIGEST_DOMAIN (fact_fields f)); Ok (finish sha256 b))) as ->.
  { unfold fingerprint_fact, build. destruct (digest_try_new _) as [b0| |]; cbn [map_err mbind result_mbind]; [|done..].
    assert (forall b, appends b (fact_fields f) (
      builder ← append_identity b (fact_identity f);
      builder ← rec_field_u64 builder (fact_sequence f);
      builder ← rec_field_bytes builder (vec_to_list (clock_domain_bytes (reading_domain (fact_observed_at f))));
      builder ← rec_field_u64 builder (generation_value (reading_generation (fact_observed_at f)));
      builder ← rec_field_u64 builder (now_value (fact_observed_at f));
      append_fact_kind builder (fact_kind f))) as Ha.
    { intros b. unfold fact_fields. apply appends_bind; [apply appends_identity|intros b1]. cbn [app].
      repeat (apply appends_cons; intros ?). apply appends_kind. }
    unfold appends in Ha. rewrite <-Ha. clear Ha.
    repeat (match goal with |- context [(?r ≫= _) ≫= _] => idtac | |- _ => fail end).
    destruct (append_identity b0 (fact_identity f)) as [b1| |]; cbn [mbind result_mbind]; [|done..].
    do 4 (match goal with |- (?r ≫= _) = ((?r ≫= _) ≫= _) => destruct r end; cbn [mbind result_mbind]; [|done..]).
    done. }
  rewrite bind_Ok. setoid_rewrite map_err_Ok. split.
  - intros (b & Hb & H). exists b. split; [done|]. by injection H as <-.
  - intros (b & Hb & ->). by exists b.
Qed.
End sha.

(** ** The fields determine the fact *)

Record identity_width (i : ProcessGenerationIdentity) : Prop := {
  width_host_epoch : (host_epoch_value (process_runtime_host_epoch i) <= u64_max)%N;
  width_revision : (revision_value (process_source_revision i) <= u64_max)%N;
  width_epoch : (domain_epoch_value (process_domain_epoch i) <= u64_max)%N;
}.
Definition lineage_width (l : ProcessLossLineage) : Prop :=
  Forall (fun v => v <= u32_max)%N [snapshot_process_tree_members l; snapshot_outstanding l;
    snapshot_held_ipc_credits l; crossed_handoffs l; classified_handoffs l] /\
  (snapshot_retained_bytes l <= u64_max)%N.
Definition loss_width (i : ProcessInvocationLoss) : Prop :=
  (generation_epoch_value (loss_generation i) <= u64_max)%N /\ (invocation_value (loss_invocation i) <= u64_max)%N.
Definition invocation_width (i : ProcessInvocationFailure) : Prop :=
  (generation_epoch_value (failure_generation i) <= u64_max)%N /\ (invocation_value (failure_invocation i) <= u64_max)%N.
Definition census_width (c : ProcessCleanupCensus) : Prop :=
  Forall (fun v => v <= u32_max)%N [live_process_tree_members c; open_ipc_handles c; outstanding_ipc_credits c;
    workspace_entries c; registered_resources c] /\ (census_retained_bytes c <= u64_max)%N.
Definition kind_width (k : RuntimeFailureFactKind) : Prop :=
  match k with
  | ProcessExited o => lineage_width (observation_lineage o) /\ Forall loss_width (uncertain_invocations o)
  | HeartbeatMissed v | ControlProbeMissed v => (v <= u64_max)%N
  | WedgeDetected i | InvocationUncertain i => invocation_width i
  | CleanupCompleted p => lineage_width (proof_lineage p) /\ census_width (proof_census p)
  | CleanupIncomplete c => census_width c
  | _ => True
  end.
(** The values of a fact fit the integer types of the code. *)
Definition fact_width (f : RuntimeFailureFact) : Prop :=
  identity_width (fact_identity f) /\ (fact_sequence f <= u64_max)%N /\
  (generation_value (reading_generation (fact_observed_at f)) <= u64_max)%N /\
  (now_value (fact_observed_at f) <= u64_max)%N /\ kind_width (fact_kind f).

Lemma u64_field_inj v w : (v <= u64_max)%N -> (w <= u64_max)%N -> u64_field v = u64_field w -> v = w.
Proof. intros Hv Hw. apply be_bytes_inj; change (256 ^ N.of_nat 8)%N with (u64_max + 1)%N; lia. Qed.
Lemma u32_field_inj v w : (v <= u32_max)%N -> (w <= u32_max)%N -> u32_field v = u32_field w -> v = w.
Proof. intros Hv Hw. apply be_bytes_inj; change (256 ^ N.of_nat 4)%N with (u32_max + 1)%N; lia. Qed.
Lemma bool_field_inj v w : bool_field v = bool_field w -> v = w.
Proof. by destruct v, w. Qed.
Lemma side_effect_tag_inj v w : [side_effect_tag v] = [side_effect_tag w] -> v = w.
Proof. by destruct v, w. Qed.

Lemma field_cons_inj (v w : list byte) l k : v :: l = w :: k -> v = w /\ l = k.
Proof. intros H. by injection H. Qed.

(** Splits an equation of field lists and reads the fields off. *)
Ltac split_fields H := repeat (let Hf := fresh "F" in apply field_cons_inj in H as [Hf H]).

(** Reads a field equation off two equal field lists. *)
Ltac field_inj :=
  repeat match goal with
  | H : u64_field _ = u64_field _ |- _ => apply u64_field_inj in H; [|done..]
  | H : u32_field _ = u32_field _ |- _ => apply u32_field_inj in H; [|done..]
  | H : bool_field _ = bool_field _ |- _ => apply bool_field_inj in H
  | H : [side_effect_tag _] = [side_effect_tag _] |- _ => apply side_effect_tag_inj in H
  | H : vec_to_list _ = vec_to_list _ |- _ => apply vec_to_list_inj2 in H
  end.

Lemma identity_fields_inj i j rest rest' :
  identity_width i -> identity_width j ->
  identity_fields i ++ rest = identity_fields j ++ rest' -> i = j /\ rest = rest'.
Proof.
  intros [] [] H. unfold identity_fields in H. cbn [app] in H.
  split_fields H. field_inj.
  destruct i as [[] [] [] [[]] [] []], j as [[] [] [] [[]] [] []]. simpl in *. subst. done.
Qed.

Lemma lineage_fields_inj l k rest rest' :
  lineage_width l -> lineage_width k -> lineage_identity l = lineage_identity k ->
  lineage_fields l ++ rest = lineage_fields k ++ rest' -> l = k /\ rest = rest'.
Proof.
  intros [Hl Hl'] [Hk Hk'] Hid H. unfold lineage_fields in H. cbn [app] in H. split_fields H.
  repeat match goal with H : Forall _ (_ :: _) |- _ => apply Forall_cons in H as [? ?] end. field_inj.
  destruct l, k. simpl in *. by subst.
Qed.
Lemma census_fields_inj c d :
  census_width c -> census_width d -> census_fields c = census_fields d -> c = d.
Proof.
  intros [Hc Hc'] [Hd Hd'] H. unfold census_fields in H. split_fields H.
  repeat match goal with H : Forall _ (_ :: _) |- _ => apply Forall_cons in H as [? ?] end. field_inj.
  destruct c, d. simpl in *. by subst.
Qed.
Lemma invocation_fields_inj i j :
  invocation_width i -> invocation_width j -> invocation_fields i = invocation_fields j -> i = j.
Proof.
  intros [? ?] [? ?] Heq. unfold invocation_fields in Heq. split_fields Heq.
  field_inj.
  destruct i as [[] [] [] ?], j as [[] [] [] ?]. simpl in *. by subst.
Qed.
Lemma losses_inj l k :
  Forall loss_width l -> Forall loss_width k ->
  concat (map loss_fields l) = concat (map loss_fields k) -> l = k.
Proof.
  intros Hl. revert k; induction Hl as [|i l [? ?] Hl IH]; intros [|j k] Hk Heq; [done..|].
  apply Forall_cons in Hk as [[? ?] Hk]. cbn [map concat loss_fields app] in Heq. split_fields Heq.
  field_inj.
  f_equal; [|by apply IH]. destruct i as [[] [] [] ?], j as [[] [] [] ?]. simpl in *. by subst.
Qed.

Lemma kind_fields_inj i k j :
  identity_width i -> kind_width k -> kind_width j ->
  fact_wf (MkRuntimeFailureFact i 1 (MkClockReading (MkClockDomainRef zero16) (MkClockGeneration 1) (from_ticks 0)) k) ->
  fact_wf (MkRuntimeFailureFact i 1 (MkClockReading (MkClockDomainRef zero16) (MkClockGeneration 1) (from_ticks 0)) j) ->
  kind_fields k = kind_fields j -> k = j.
Proof.
  intros Hi Hk Hj [_ Wk] [_ Wj] H. simpl in Wk, Wj.
  destruct k, j; cbn [kind_fields] in H; try (split_fields H; discriminate); simpl in Hk, Hj.
  - apply field_cons_inj in H as [_ H]. apply field_cons_inj in H as [Hexp H].
    destruct Hk as [Hk1 Hk2], Hj as [Hj1 Hj2]. field_inj.
    apply identity_fields_inj in H as [_ H]; [|by rewrite ?Wk, ?Wj..].
    apply lineage_fields_inj in H as [Hlin H]; [|done|done|by transitivity i].
    apply losses_inj in H; [|done..]. destruct observation, observation0. simpl in *. by subst.
  - split_fields H. field_inj. by subst.
  - split_fields H. field_inj. by subst.
  - apply field_cons_inj in H as [_ H]. by apply invocation_fields_inj in H as ->.
  - apply field_cons_inj in H as [_ H]. by apply invocation_fields_inj in H as ->.
  - by destruct failure, failure0.
  - by destruct failure, failure0.
  - by destruct failure, failure0.
  - done.
  - done.
  - apply field_cons_inj in H as [_ H]. destruct Hk as [Hk1 Hk2], Hj as [Hj1 Hj2].
    apply lineage_fields_inj in H as [Hlin H]; [|done|done|by transitivity i].
    apply census_fields_inj in H; [|done..]. destruct proof, proof0. simpl in *. by subst.
  - apply field_cons_inj in H as [_ H]. by apply census_fields_inj in H as ->.
Qed.

Section fingerprints.
Context (sha256 : list byte -> bytes32).

Lemma fact_fields_inj f g :
  fact_width f -> fact_width g -> fact_wf f -> fact_wf g -> fact_fields f = fact_fields g -> f = g.
Proof.
  intros (Wi & Wq & Wg & Wn & Wk) (Wi' & Wq' & Wg' & Wn' & Wk') [Hq Hf] [Hq' Hg] Heq. unfold fact_fields in Heq.
  apply identity_fields_inj in Heq as [Hid Heq]; [|done..]. cbn [app] in Heq.
  do 4 (let Hf := fresh "F" in apply field_cons_inj in Heq as [Hf Heq]). field_inj.
  destruct f as [i q [[dom] [gen] [now]] k], g as [i' q' [[dom'] [gen'] [now']] k']. unfold now_value in *. simpl in *. subst.
  f_equal. by eapply (kind_fields_inj i').
Qed.

(** The fingerprint under which a fact was recorded binds the whole fact:
    right after a fact was accepted, a fact with the same sequence number is
    only accepted when it is the very same fact, unless SHA-256 collides on
    the two encodings. *)
Theorem repeated_sequence_is_same_fact s f s' d g r :
  fact_wf f -> fact_width f -> fact_wf g -> fact_width g ->
  observe_fact sha256 s f = Ok (MkRecoveryTransition s' d) ->
  fact_sequence g = fact_sequence f -> observe_fact sha256 s' g = Ok r ->
  collision_free sha256
    [preimage RECOVERY_FACT_DIGEST_DOMAIN (fact_fields f); preimage RECOVERY_FACT_DIGEST_DOMAIN (fact_fields g)] ->
  g = f.
Proof.
  intros Wf Lf Wg Lg Ho Hseq Ho' Hcf.
  assert (exists d, fingerprint_fact sha256 f = Ok d /\ fingerprint_fact sha256 g = Ok d) as (dg & Hf & Hg).
  { destruct (observe_fact_recorded sha256 _ _ _ Ho) as (df & Hf & _ & _ & Hs & Hfp).
    exists df. split; [done|]. unfold observe_fact in Ho'.
    apply bind_Ok in Ho' as ([] & _ & Ho'). apply bind_Ok in Ho' as ([] & _ & Ho').
    apply bind_Ok in Ho' as (dg & Hg & Ho'). apply bind_Ok in Ho' as ([] & _ & Ho').
    simpl in Hs, Hfp. rewrite Hseq, Hs, N.eqb_refl, Hfp in Ho'.
    destruct (bool_decide _) eqn:Heq; [|done]. apply bool_decide_eq_true in Heq. by injection Heq as ->. }
  apply fingerprint_build in Hf as (b & Hb & Hd), Hg as (b' & Hb' & Hd'). subst.
  symmetry. apply fact_fields_inj; try done.
  unfold preimage in Hcf. rewrite Hb, Hb' in Hcf.
  eapply (build_preimage_inj _ _ _ _ _ _ Hb Hb'), (collision_free_inj sha256 _ _ _ Hcf); [set_solver..|].
  by injection Hd'.
Qed.
End fingerprints.

(** ** Restart delays *)

Section delay.
Context (sha256 : list byte -> bytes32).

Lemma doubling_iter initial maximum k :
  (initial <= maximum)%N -> (maximum * 2 <= u64_max)%N ->
  Nat.iter k (fun base => N.min (default maximum (checked_mul u64_max base 2)) maximum) initial
    = N.min (initial * 2 ^ N.of_nat k) maximum.
Proof.
  intros Hi Hm. induction k as [|k IH].
  { simpl. rewrite N.mul_1_r. lia. }
  change (Nat.iter (S k) ?f initial) with (f (Nat.iter k f initial)). rewrite IH. clear IH. rewrite Nat2N.inj_succ, N.pow_succ_r'.
  replace (initial * (2 * 2 ^ N.of_nat k))%N with (initial * 2 ^ N.of_nat k * 2)%N by lia.
  generalize (initial * 2 ^ N.of_nat k)%N. intros x. unfold checked_mul.
  destruct (N.leb_spec (N.min x maximum * 2) u64_max) as [H|H]; simpl; [|exfalso]; lia.
Qed.

Lemma jitter_total s cap :
  (attempt_sequence s < u64_max)%N -> (cap < u64_max)%N ->
  exists j, deterministic_jitter sha256 s cap = Ok j /\ (j <= cap)%N.
Proof.
  intros Ha Hc. unfold deterministic_jitter.
  assert (exists b, build RECOVERY_JITTER_DIGEST_DOMAIN
    (identity_fields (rs_identity s) ++ [u64_field (attempt_sequence s + 1)]) = Ok b) as [b Hb].
  { apply build_total. split; [done|]. split; [by vm_compute|]. split; [|by vm_compute].
    unfold identity_fields, u64_field. cbn [app]. repeat constructor; rewrite ?len_be_bytes, ?len_vec; by vm_compute. }
  unfold build in Hb. destruct (digest_try_new _) as [b0| |]; cbn [mbind result_mbind] in Hb; [|done..].
  cbn [map_err mbind result_mbind].
  rewrite try_fold_app in Hb. rewrite (appends_identity b0).
  destruct (try_fold field_bytes b0 (identity_fields (rs_identity s))) as [b1| |]; cbn [mbind result_mbind] in Hb; [|done..].
  cbn [map_err mbind result_mbind]. rewrite (checked_add_ok u64_max (attempt_sequence s) 1) by lia. cbn [ok_or mbind result_mbind].
  unfold rec_field_u64, field_u64. unfold u64_field in Hb.
  apply bind_Ok in Hb as (b2 & Hb2 & _). rewrite Hb2. cbn [map_err mbind result_mbind].
  rewrite checked_add_ok by lia. cbn [ok_or mbind result_mbind]. eexists. split; [done|].
  match goal with |- (?x mod ?y <= _)%N => pose proof (N.mod_lt x y ltac:(lia)) as Hm; revert Hm; generalize (x mod y)%N end.
  lia.
Qed.

(** Under a valid policy the restart delay is the initial backoff doubled
    once per attempt still in the window and capped, plus a jitter of at most
    the configured share of it, and never more than the maximal backoff. *)
Theorem restart_delay_within_policy s m w i x j :
  process_restart_policy_try_new m w i x j = Ok (rs_restart s) ->
  (attempt_sequence s < u64_max)%N ->
  let base := N.min (duration_value i * 2 ^ len (attempts s)) (duration_value x) in
  exists delay, restart_delay sha256 s = Ok delay /\
    (base <= delay <= N.min (base + base * j / 10000) (duration_value x))%N.
Proof.
  intros Hp Ha base. unfold process_restart_policy_try_new in Hp. rust_inv.
  unfold valid_process_duration, MAX_EXECUTION_DURATION_NANOS in *. rust_inv.
  match goal with H : MkProcessRestartPolicy _ _ _ _ _ = rs_restart s |- _ => unfold restart_delay; rewrite <-H end.
  cbn [initial_backoff max_backoff jitter_basis_points].
  assert (duration_value x * 2 <= u64_max)%N as Hx2 by (unfold u64_max; lia).
  rewrite doubling_iter by lia. fold (len (attempts s)). fold base.
  assert (base <= duration_value x)%N as Hbx by (unfold base; lia).
  assert (base * j <= u128_max)%N as Hbj.
  { transitivity (86400000000000 * 10000)%N; [apply N.mul_le_mono; lia|by vm_compute]. }
  unfold checked_mul. rewrite (proj2 (N.leb_le _ _)) by done. cbn [ok_or mbind result_mbind].
  assert (base * j / 10000 <= base)%N as Hcap.
  { transitivity (base * 10000 / 10000)%N; [apply N.Div0.div_le_mono; nia|by rewrite N.div_mul]. }
  set (c := (base * j / 10000)%N) in *. clearbody c base.
  assert (u64_max = 18446744073709551615)%N as Hu by done.
  rewrite try_from_ok by lia. cbn [ok_or mbind result_mbind]. unfold saturating_sub.
  destruct (N.eqb_spec (N.min c (duration_value x - base)) 0) as [Hz|Hz]; cbn [mbind result_mbind].
  - rewrite checked_add_ok by lia. eexists. split; [done|]. lia.
  - destruct (jitter_total s (N.min c (duration_value x - base))) as (jit & -> & Hj); [done|lia|].
    cbn [mbind result_mbind]. rewrite checked_add_ok by lia. eexists. split; [done|]. lia.
Qed.
End delay.

(** ** Examples *)

Import RecoveryDemo.

Lemma repeated_sequence_is_same_fact_witness :
  let f := MkRuntimeFailureFact (generation 1) 1 (clock 5) LaunchFailed in
  exists t, observe_fact no_hash start f = Ok t /\ f = f.
Proof.
  cbv zeta. eexists. split; [vm_compute; reflexivity|].
  eapply (repeated_sequence_is_same_fact no_hash start
    (MkRuntimeFailureFact (generation 1) 1 (clock 5) LaunchFailed) _ _
    (MkRuntimeFailureFact (generation 1) 1 (clock 5) LaunchFailed));
    [by split|by repeat split|by split|by repeat split|vm_compute; reflexivity|done|vm_compute; reflexivity|].
  apply (bool_decide_unpack _). vm_compute. exact I.
Defined.

Lemma restart_delay_within_policy_witness :
  exists delay, restart_delay no_hash start = Ok delay /\ (10 <= delay <= 15)%N.
Proof.
  apply (restart_delay_within_policy no_hash start 1 (from_nanos 100) (from_nanos 10) (from_nanos 20) 5000);
    [reflexivity|by vm_compute].
Defined.
