(* ===== verification/RecoverySettle.v ===== *)
(** * Process-domain recovery: settling

    An owner that carries out the actions of the reducer, polls at its
    deadlines and reports how the cleanup ended (record_process_loss,
    record_cleanup_completed and record_cleanup_incomplete of
    crates/paraegox-runtime/src/process_domain.rs) brings recovery to rest,
    in a number of turns that grows only with the collections of the cleanup
    that come to nothing.  The reducer retries those without a bound of its
    own. *)

From S2P Require Import Prelude Bytes KernelTime KernelDigest ApplyContracts Assignment CardInstance Liveness RuntimeOwnership Recovery RecoveryInv RecoveryProps RecoveryDigest.
Open Scope rust_scope.

Section settle.
Context (sha256 : list byte -> bytes32).

(** ** The owner *)

(** No action is pending and a poll has nothing to do.  A quarantined
    generation whose process is gone but whose cleanup is not proven is not at
    rest: a poll collects the cleanup again. *)
Definition at_rest (s : RecoveryState) : bool :=
  match pending_action s, rs_phase s with
  | None, (Healthy | Recovered _ | Stopped) => true
  | None, Quarantined _ => negb (process_exited s && negb (cleanup_proven s))
  | _, _ => false
  end.

(** One turn of the owner: the clock, how the pending action ended, and what
    became of the cleanup that was collected, when that is known. *)
Record OwnerTurn := MkOwnerTurn {
  turn_at : ClockReading;
  turn_outcome : RecoveryActionOutcome;
  turn_report : option RuntimeFailureFactKind;
}.

(** The report of the turn, while the reducer awaits the cleanup. *)
Definition reporting (s : RecoveryState) (x : OwnerTurn) : option RuntimeFailureFactKind :=
  match pending_action s, rs_phase s with
  | None, AwaitingCleanup _ => turn_report x
  | _, _ => None
  end.

(** A fact under the next sequence number. *)
Definition report_fact (s : RecoveryState) (t : ClockReading) (kind : RuntimeFailureFactKind) : Transition :=
  sequence ← ok_or (checked_add u64_max (last_fact_sequence s) 1) CounterOverflow;
  fact ← fact_try_new (rs_identity s) sequence t kind;
  observe_fact sha256 s fact.

Definition owner_turn (s : RecoveryState) (x : OwnerTurn) : Transition :=
  match pending_action s with
  | Some e => complete_action s (action_id e) (turn_outcome x) (turn_at x)
  | None =>
      match reporting s x with
      | Some kind => report_fact s (turn_at x) kind
      | None => poll s (turn_at x)
      end
  end.

(** A collection of the cleanup that comes to nothing: the collection failed,
    its deadline passed or its census was not zero. *)
Definition missed (s : RecoveryState) (x : OwnerTurn) : bool :=
  match pending_action s with
  | Some e =>
      match action e with CollectCleanup => bool_decide (turn_outcome x = Failed) | _ => false end
  | None =>
      match rs_phase s with
      | AwaitingCleanup _ => match reporting s x with Some (CleanupCompleted _) => false | _ => true end
      | _ => false
      end
  end.

(** Turns until recovery rests, with the number of missed collections; no
    result when the fuel runs out.  The environment may depend on the turn
    and on the state. *)
Fixpoint drive (environment : nat -> RecoveryState -> OwnerTurn) (fuel : nat) (s : RecoveryState)
    : nat * option (result RecoveryError RecoveryState) :=
  if at_rest s then (0, Some (Ok s))
  else match fuel with
       | O => (0, None)
       | S fuel =>
           let x := environment fuel s in
           let misses := if missed s x then 1 else 0 in
           match owner_turn s x with
           | Ok tr =>
               let '(later_misses, r) := drive environment fuel (transition_state tr) in
               (misses + later_misses, r)
           | Err e => (misses, Some (Err e))
           | Panic => (misses, Some Panic)
           end
       end.

(** The owner reads a clock that does not go back and polls when it has
    reached the deadline the reducer waits for, reports an outcome the pending
    action can have, and hands in the proof of the loss that was accepted. *)
Definition phase_deadline (phase : RecoveryPhase) : option MonotonicInstant :=
  match phase with
  | WaitingCooperative d | WaitingTerminate d | WaitingKill d | AwaitingProcessLoss d
  | AwaitingCleanup d | Backoff d => Some d
  | _ => None
  end.
Definition timely (s : RecoveryState) (x : OwnerTurn) : Prop :=
  later (rs_last_observed_at s) (turn_at x) /\
  (turn_outcome x = ProcessAlreadyExited ->
   forall e, pending_action s = Some e -> is_stop_signal (action e) = true) /\
  match reporting s x with
  | Some (CleanupCompleted proof) => loss_lineage s = Some (proof_lineage proof)
  | Some (CleanupIncomplete _) => True
  | Some _ => False
  | None => pending_action s = None -> forall d, phase_deadline (rs_phase s) = Some d ->
      (instant_value d <= now_value (turn_at x))%N
  end.

(** A counter or the clock ran out. *)
Definition overflow (e : RecoveryError) : Prop := e = CounterOverflow \/ e = DeadlineOverflow.

(** Polling a state at rest moves its clock and nothing else. *)
Definition stays_at_rest (s : RecoveryState) : Prop :=
  pending_action s = None /\
  forall t, later (rs_last_observed_at s) t -> poll s t = Ok (unchanged (set_observed_at t s)).
Lemma at_rest_stays s : at_rest s = true -> stays_at_rest s.
Proof.
  unfold at_rest. intros H. destruct (pending_action s) eqn:Hp; [done|]. split; [done|].
  intros t Ht. unfold poll. rewrite (proj2 (recovery_clock_Ok _ _) Ht), Hp. cbn [mbind result_mbind]. cbv zeta.
  change (rs_phase (set_observed_at t s)) with (rs_phase s). destruct (rs_phase s); try done.
  apply negb_true_iff in H. change (process_exited (set_observed_at t s)) with (process_exited s).
  change (cleanup_proven (set_observed_at t s)) with (cleanup_proven s). by rewrite H.
Qed.

(** ** The measure *)

(** How many turns are left when [k] more collections are missed. *)
Definition rank (k : nat) (s : RecoveryState) : nat :=
  match pending_action s, rs_phase s with
  | None, (Healthy | Recovered _ | Stopped) => 0
  | None, Quarantined _ => if process_exited s && negb (cleanup_proven s) then 6 + 4 * k else 0
  | Some _, Quarantined _ => if cleanup_proven s then 1 else 7 + 4 * k
  | _, phase =>
      match phase with
      | Fencing => 14 + 4 * k | CooperativeStopping => 13 + 4 * k | WaitingCooperative _ => 12 + 4 * k
      | Terminating => 11 + 4 * k | WaitingTerminate _ => 10 + 4 * k
      | Killing => 9 + 4 * k | WaitingKill _ | AwaitingProcessLoss _ => 8 + 4 * k
      | Cleaning => 5 + 4 * k | AwaitingCleanup _ => 4 + 4 * k
      | Backoff _ => 3 | StartingFresh _ => 2 | _ => 1
      end
  end.
Lemma rank_bound k s : rank k s <= 14 + 4 * k.
Proof. unfold rank. repeat case_match; lia. Qed.
Lemma rank_not_at_rest k s : at_rest s = false -> 0 < rank k s.
Proof. unfold rank, at_rest. intros H. repeat case_match; simpl in *; lia || congruence. Qed.

(** A turn that comes below the bound [b], or reports an overflow. *)
Definition nearer (k b : nat) (r : Transition) : Prop :=
  match r with
  | Ok t => rank k (transition_state t) < b
  | Err e => overflow e
  | Panic => False
  end.

Section steps.
Context (k : nat).

Lemma nearer_overflow {A : Type} b (o : option A) e (f : A -> Transition) :
  overflow e -> (forall a, nearer k b (f a)) -> nearer k b (ok_or o e ≫= f).
Proof. destruct o; simpl; auto. Qed.
Lemma nearer_bind {A : Type} b (r : result RecoveryError A) (f : A -> Transition) :
  match r with Err e => overflow e | Panic => False | Ok _ => True end ->
  (forall a, r = Ok a -> nearer k b (f a)) -> nearer k b (r ≫= f).
Proof. destruct r; simpl; auto. Qed.
Lemma nearer_budget b r budget (f : MonotonicInstant -> Transition) :
  (forall a, nearer k b (f a)) -> nearer k b (add_budget r budget ≫= f).
Proof. unfold add_budget, overflow. destruct (checked_add _ _ _); simpl; auto. unfold overflow; auto. Qed.

(** The bound an action keeps, in the phase it is issued in. *)
Definition issue_rank (n : RecoveryState) (phase : RecoveryPhase) : nat :=
  match phase with
  | Quarantined _ => if cleanup_proven n then 1 else 7 + 4 * k
  | Fencing => 14 + 4 * k | CooperativeStopping => 13 + 4 * k | Terminating => 11 + 4 * k
  | Killing => 9 + 4 * k | Cleaning => 5 + 4 * k | StartingFresh _ => 2 | _ => 14 + 4 * k
  end.
Lemma nearer_issue b n phase act :
  pending_action n = None -> issue_rank n phase < b -> nearer k b (issue n phase act).
Proof.
  intros Hp Hk. unfold issue. rewrite Hp. simpl. apply nearer_overflow; [by left|]. intros v.
  unfold nearer, rank, issue_rank in *. simpl. destruct phase; simpl in *; lia.
Qed.
Lemma nearer_waits b n phase deadline :
  pending_action n = None -> rank k (set_phase phase n) < b -> nearer k b (Ok (waiting (set_phase phase n) deadline)).
Proof. done. Qed.

Lemma nearer_quarantine b n r :
  pending_action n = None -> (if cleanup_proven n then 1 else 7 + 4 * k) < b -> nearer k b (quarantine n r).
Proof.
  intros Hp Hk. unfold quarantine. destruct (remember_is r n) as [r' ->]. simpl.
  rewrite Hp. simpl. destruct (quarantine_entered n); [|by apply nearer_issue].
  unfold nearer, rank, unchanged. simpl. rewrite Hp. destruct (cleanup_proven n), (process_exited n); simpl in *; lia.
Qed.
Lemma nearer_cleanup b n :
  base_inv n -> pending_action n = None -> process_exited n = true -> 5 + 4 * k < b ->
  nearer k b (begin_cleanup n).
Proof.
  intros Hb Hp Hex Hk. unfold begin_cleanup.
  assert (is_Some (loss_lineage n)) as Hl.
  { destruct Hb as (Hl & _). unfold loss_holds in Hl. destruct (loss_lineage n); [by eexists|]. destruct Hl; congruence. }
  destruct (loss_settled n Hb Hl) as [l ->]. simpl. rewrite Hex. simpl. by apply nearer_issue.
Qed.
Lemma nearer_await b n t :
  pending_action n = None -> 8 + 4 * k < b -> nearer k b (await_process_loss n t).
Proof.
  intros Hp Hk. unfold await_process_loss. apply nearer_budget. intros d.
  apply nearer_waits; [done|]. unfold rank. simpl. by rewrite Hp.
Qed.
Lemma nearer_stop b n o t budget ph :
  base_inv n -> pending_action n = None -> 8 + 4 * k < b ->
  (forall d, rank k (set_phase (ph d) n) < b) ->
  nearer k b (complete_stop_signal n o t budget ph).
Proof.
  intros Hb Hp Hk Hd. unfold complete_stop_signal.
  destruct (process_exited n) eqn:Hex; [apply nearer_cleanup; try done; lia|].
  case_bool_decide; [by apply nearer_await|]. apply nearer_budget. intros d. apply Hd.
Qed.
End steps.

(** ** The completions *)

Lemma remember_both_keeps k r n :
  pending_action n = None -> base_inv n ->
  pending_action (remember_both r n) = None /\ base_inv (remember_both r n) /\
  cleanup_proven (remember_both r n) = cleanup_proven n /\ process_exited (remember_both r n) = process_exited n /\
  (forall phase, rank k (set_phase phase (remember_both r n)) = rank k (set_phase phase n)) /\
  exists x, quarantine_reason (remember_both r n) = Some x.
Proof.
  intros Hp Hb. assert (base_inv (remember_both r n)) as Hb'.
  { unfold remember_both. case_match; by repeat apply base_remember. }
  destruct (remember_both_is r n) as [r' Hr]. rewrite Hr in *. split_and!; try done. by eexists.
Qed.
Lemma rank_quarantined k n r :
  pending_action n = None -> rank k (set_phase (Quarantined r) n) < (if cleanup_proven n then 1 else 7 + 4 * k).
Proof. intros Hp. unfold rank. simpl. rewrite Hp. destruct (cleanup_proven n), (process_exited n); simpl; lia. Qed.

(** A failed action, the collection of the cleanup apart, comes closer; a
    failed collection undoes one miss. *)
Lemma nearer_failed k n act phase b :
  base_inv n -> pending_action n = None -> acts phase act -> phase_holds phase n ->
  match phase with Cleaning => 9 + 4 * k | _ => issue_rank k n phase end <= b ->
  nearer k b (complete_failed n act).
Proof.
  intros Hb Hp Ha Hph Hk. unfold complete_failed.
  change (remember_action_failure n) with (remember_both RecoveryActionFailed n).
  destruct (remember_both_keeps k RecoveryActionFailed n Hp Hb) as (Hpe & Hba & Hcl & Hex & _ & x & Hx).
  destruct act, phase; try done; unfold issue_rank in Hk; simpl in Hph; cbv zeta; rewrite ?Hx; cbn [ok_or mbind result_mbind].
  - apply nearer_quarantine; [done|]. rewrite Hcl. destruct Hph as [-> _]. lia.
  - case_match; [apply nearer_cleanup; try done; lia|apply nearer_issue; [done|simpl; lia]].
  - case_match; [apply nearer_cleanup; try done; lia|apply nearer_issue; [done|simpl; lia]].
  - case_match; [apply nearer_cleanup; try done; lia|]. rewrite ?Hx. simpl.
    apply nearer_quarantine; [done|]. rewrite Hcl. destruct Hph as [-> _]. lia.
  - apply nearer_quarantine; [done|]. rewrite Hcl. destruct Hph as [_ ->]. lia.
  - apply nearer_quarantine; [done|]. rewrite Hcl. destruct Hph as (_ & -> & _). lia.
  - fold (remember_both reason n). destruct (remember_both_keeps k reason n Hp Hb) as (_ & _ & _ & _ & Hrank & y & ->).
    simpl. unfold nearer. simpl. rewrite Hrank. pose proof (rank_quarantined k n y Hp). lia.
Qed.

Lemma nearer_done k n act o t phase b :
  base_inv n -> pending_action n = None -> acts phase act -> phase_holds phase n ->
  issue_rank k n phase <= b -> nearer k b (complete_done n act o t).
Proof.
  intros Hb Hp Ha Hph Hk. destruct act, phase; try done; unfold issue_rank in Hk; simpl in Hph; cbn [complete_done].
  - case_match; [apply nearer_cleanup; try done; lia|apply nearer_issue; [done|simpl; lia]].
  - apply nearer_stop; [done..|lia|]. intros d. unfold rank. simpl. rewrite Hp. lia.
  - apply nearer_stop; [done..|lia|]. intros d. unfold rank. simpl. rewrite Hp. lia.
  - apply nearer_stop; [done..|lia|]. intros d. unfold rank. simpl. rewrite Hp. lia.
  - destruct Hph as [Hl Hcl]. destruct (loss_settled n Hb Hl) as [l ->]. cbn [mbind result_mbind].
    apply nearer_budget. intros d. unfold nearer, rank. simpl. rewrite Hp. lia.
  - destruct Hph as (Hent & Hcl & Hra & Hs). destruct (loss_settled n Hb (proven_loss n Hb Hcl)) as [l ->].
    cbn [mbind result_mbind]. rewrite Hcl. cbn [negb fail_if mbind result_mbind].
    destruct (external_effect_uncertain n); [apply nearer_quarantine; [done|rewrite Hcl; lia]|].
    destruct (quarantine_reason n); [apply nearer_quarantine; [done|rewrite Hcl; lia]|].
    unfold nearer, rank. simpl. rewrite Hp. lia.
  - cbv zeta. fold (remember_both reason n).
    destruct (remember_both_keeps k reason n Hp Hb) as (Hpe & (B1 & B2 & B3 & B4) & Hcl & Hex & Hrank & y & Hy).
    set (m := set_entered true (remember_both reason n)).
    assert (base_inv m) as Hbm by (split; [exact B1|]; split; [exact B2|]; split; [|exact B4]; intros _; simpl; rewrite Hy; by eexists).
    destruct (process_exited m && negb (cleanup_proven m)) eqn:He.
    { apply andb_true_iff in He as [He Hnc]. simpl in He, Hnc. rewrite Hcl in Hnc. apply negb_true_iff in Hnc.
      rewrite Hnc in Hk. apply nearer_cleanup; try done. lia. }
    change (quarantine_reason m) with (quarantine_reason (remember_both reason n)). rewrite Hy. cbn [ok_or mbind result_mbind].
    unfold nearer. simpl. change (rank k (set_phase (Quarantined y) m)) with (rank k (set_phase (Quarantined y) (remember_both reason n))).
    rewrite Hrank. pose proof (rank_quarantined k n y Hp). lia.
Qed.

Lemma attempts_exhausted_cases n :
  match attempts_exhausted n with Err e => overflow e | Panic => False | Ok _ => True end.
Proof. unfold attempts_exhausted, overflow. destruct (try_from _ _); simpl; auto. Qed.
Lemma nearer_backoff k b n :
  base_inv n -> pending_action n = None -> cleanup_proven n = true -> 2 < b ->
  nearer k b (poll_backoff n (rs_last_observed_at n)).
Proof.
  intros Hb Hp Hcl Hk. unfold poll_backoff. destruct (loss_settled n Hb (proven_loss n Hb Hcl)) as [l ->].
  cbn [mbind result_mbind]. rewrite Hcl. cbn [negb fail_if mbind result_mbind].
  destruct (prune_cases n) as [[n' Hpr]|Hpr]; rewrite Hpr; cbn [mbind result_mbind]; [|by right].
  apply prune_Ok in Hpr as [-> _]. apply nearer_bind; [apply attempts_exhausted_cases|]. intros ex _.
  assert (forall r, nearer k b (quarantine (set_attempts (keep_attempts n) n) r)) as Hq.
  { intros r. apply nearer_quarantine; [done|]. simpl. rewrite Hcl. lia. }
  destruct ex; [apply Hq|].
  unfold epoch_try_next. destruct (checked_add u64_max _ 1) as [e|]; [|apply Hq].
  destruct (N.eqb_spec e 0); [apply Hq|].
  apply nearer_overflow; [by left|]. intros v. by apply nearer_issue.
Qed.

(** ** The reports of the cleanup *)

Lemma jitter_cases s cap :
  match deterministic_jitter sha256 s cap with Err e => overflow e | Panic => False | Ok _ => True end.
Proof.
  unfold deterministic_jitter.
  assert (exists b, build RECOVERY_JITTER_DIGEST_DOMAIN (identity_fields (rs_identity s) ++ [be_bytes 8 0]) = Ok b) as [b Hb].
  { apply build_total. split; [done|]. split; [by vm_compute|]. split; [|by vm_compute].
    unfold identity_fields, u64_field. cbn [app]. repeat constructor; rewrite ?len_be_bytes, ?len_vec; by vm_compute. }
  unfold build in Hb. destruct (digest_try_new _) as [b0| |]; cbn [mbind result_mbind] in Hb; [|done..].
  cbn [map_err mbind result_mbind]. rewrite try_fold_app in Hb. rewrite (appends_identity b0).
  destruct (try_fold field_bytes b0 (identity_fields (rs_identity s))) as [b1| |]; cbn [mbind result_mbind] in Hb; [|done..].
  cbn [map_err mbind result_mbind]. destruct (checked_add u64_max (attempt_sequence s) 1) as [v|]; [|by left].
  cbn [ok_or mbind result_mbind]. apply bind_Ok in Hb as (b2 & Hb2 & _).
  assert (exists b3, rec_field_u64 b1 v = Ok b3) as [b3 ->].
  { unfold rec_field_u64, field_u64. unfold field_bytes in *. rust_inv.
    rewrite (checked_add_ok u32_max (field_count b1)) by lia. cbn [ok_or mbind result_mbind].
    rewrite try_from_ok by (rewrite len_be_bytes; by vm_compute). by eexists. }
  cbn [mbind result_mbind]. destruct (checked_add u64_max cap 1); simpl; [done|by left].
Qed.
Lemma delay_cases s :
  match restart_delay sha256 s with Err e => overflow e | Panic => False | Ok _ => True end.
Proof.
  unfold restart_delay, overflow. destruct (checked_mul _ _ _); cbn [ok_or mbind result_mbind]; [|by left].
  destruct (try_from _ _) as [c|]; cbn [ok_or mbind result_mbind]; [|by left].
  destruct (_ =? 0)%N; cbn [mbind result_mbind]; [by destruct (checked_add _ _ _); simpl; auto|].
  match goal with |- context [deterministic_jitter sha256 s ?cap] => pose proof (jitter_cases s cap) as Hj;
    destruct (deterministic_jitter sha256 s cap) end; cbn [mbind result_mbind]; try done.
  destruct (checked_add _ _ _); simpl; auto.
Qed.

Lemma nearer_schedule k b n :
  base_inv n -> pending_action n = None -> cleanup_proven n = true -> 3 < b ->
  nearer k b (schedule_after_cleanup sha256 n (rs_last_observed_at n)).
Proof.
  intros Hb Hp Hcl Hk. unfold schedule_after_cleanup. destruct (loss_settled n Hb (proven_loss n Hb Hcl)) as [l ->].
  cbn [mbind result_mbind]. rewrite Hcl. cbn [negb fail_if mbind result_mbind].
  assert (forall r, nearer k b (quarantine n r)) as Hq by (intros r; apply nearer_quarantine; [done|rewrite Hcl; lia]).
  destruct (external_effect_uncertain n); [apply Hq|]. destruct (quarantine_reason n); [apply Hq|].
  destruct (restart_after_cleanup n); simpl; [|unfold rank; simpl; rewrite Hp; lia].
  destruct (prune_cases n) as [[n' Hpr]|Hpr]; rewrite Hpr; cbn [mbind result_mbind]; [|by right].
  apply prune_Ok in Hpr as [-> _]. apply nearer_bind; [apply attempts_exhausted_cases|]. intros ex _.
  destruct ex; [apply nearer_quarantine; [done|]; simpl; rewrite Hcl; lia|].
  apply nearer_bind; [apply delay_cases|]. intros delay _. apply nearer_overflow; [by right|]. intros v.
  apply nearer_waits; [done|]. unfold rank. simpl. by rewrite Hp.
Qed.

(** The proof of the accepted loss ends the wait for the cleanup. *)
Lemma nearer_completed k b n p d :
  base_inv n -> pending_action n = None -> rs_phase n = AwaitingCleanup d ->
  loss_lineage n = Some (proof_lineage p) -> 3 < b ->
  nearer k b (observe_cleanup_completed sha256 n p (rs_last_observed_at n)).
Proof.
  intros Hb Hp Hph Hl Hk. pose proof Hb as (Hlh & Hu & Hb'). unfold loss_holds in Hlh. rewrite Hl in Hlh.
  destruct Hlh as (Hex & Hz & Hid & Hx). unfold observe_cleanup_completed.
  change (proof_identity p) with (lineage_identity (proof_lineage p)). rewrite Hid, bool_decide_ne_refl, Hl, Hu. cbn [fail_if mbind result_mbind ok_or N.eqb negb].
  rewrite bool_decide_ne_refl. cbn [fail_if mbind result_mbind]. cbv zeta.
  change (rs_phase (set_external _ n)) with (rs_phase n). rewrite Hph. cbn [mbind result_mbind].
  match goal with |- context [set_proven true ?m] => set (n2 := set_proven true m) end.
  assert (base_inv n2) as Hb2.
  { pose proof (base_external n (lineage_external_effect_uncertain (proof_lineage p)) Hb) as (H1 & H2).
    split; [|exact H2]. revert H1. unfold loss_holds. simpl. by rewrite Hl. }
  destruct (reached _ _); [apply nearer_quarantine; [done|simpl; lia]|].
  change (pending_action n2) with (pending_action n). rewrite Hp, bool_decide_eq_false_2 by by intros [].
  change (rs_last_observed_at n) with (rs_last_observed_at n2). by apply nearer_schedule.
Qed.

(** The encoding of a report always fits the digest builder. *)
Lemma report_fingerprint f :
  match fact_kind f with CleanupCompleted _ | CleanupIncomplete _ => True | _ => False end ->
  exists d, fingerprint_fact sha256 f = Ok d.
Proof.
  intros Hk. assert (exists b, build RECOVERY_FACT_DIGEST_DOMAIN (fact_fields f) = Ok b) as [b Hb].
  2:{ eexists. apply fingerprint_build. by eexists. }
  apply build_total. split; [done|]. split; [by vm_compute|].
  unfold fact_fields, identity_fields, u64_field. destruct (fact_kind f); try done;
    unfold kind_fields, lineage_fields, census_fields, u64_field, u32_field, bool_field; cbn [app];
    (split; [repeat constructor; rewrite ?len_be_bytes, ?len_vec; by vm_compute|by vm_compute]).
Qed.
(** What a report is applied to. *)
Lemma report_fact_cases s t kind d :
  rs_phase s = AwaitingCleanup d -> later (rs_last_observed_at s) t ->
  match kind with
  | CleanupCompleted p => proof_identity p = rs_identity s
  | CleanupIncomplete _ => True
  | _ => False
  end ->
  report_fact s t kind = Err CounterOverflow \/
  exists f fp, fact_wf f /\ fact_identity f = rs_identity s /\ report_fact s t kind = observe_fact sha256 s f /\
    let n := set_observed_at t (set_fact (last_fact_sequence s + 1) (Some fp) s) in
    observe_fact sha256 s f = match kind with
      | CleanupCompleted p => observe_cleanup_completed sha256 n p t
      | _ => observe_cleanup_incomplete n
      end.
Proof.
  intros Hph Ht Hk. unfold report_fact. destruct (checked_add _ _ _) as [q|] eqn:Hq; [|by left]. right.
  apply checked_add_Some in Hq as [-> Hq]. cbn [ok_or mbind result_mbind].
  set (f := {| fact_identity := rs_identity s; fact_sequence := last_fact_sequence s + 1;
               fact_observed_at := t; fact_kind := kind |}).
  assert (fact_try_new (rs_identity s) (last_fact_sequence s + 1) t kind = Ok f) as Hf.
  { unfold fact_try_new. rewrite (proj2 (N.eqb_neq _ 0)) by lia. cbn [fail_if mbind result_mbind].
    destruct kind; try done. by rewrite Hk, bool_decide_ne_refl. }
  rewrite Hf. destruct (report_fingerprint f) as [fp Hfp]; [by destruct kind|].
  exists f, fp. split; [by apply fact_try_new_wf in Hf as [? _]|]. split; [done|]. split; [done|].
  cbv zeta. unfold observe_fact. change (fact_identity f) with (rs_identity s). rewrite bool_decide_ne_refl.
  change (fact_observed_at f) with t. change (fact_sequence f) with (last_fact_sequence s + 1)%N.
  rewrite (proj2 (recovery_clock_Ok _ _) Ht), Hfp. cbn [fail_if mbind result_mbind].
  rewrite (proj2 (N.ltb_ge _ _)), (proj2 (N.eqb_neq _ _)) by lia. cbn [fail_if mbind result_mbind].
  unfold quarantined_ignores. simpl rs_phase. rewrite Hph. change (fact_kind f) with kind. by destruct kind.
Qed.

(** ** Turns *)

Lemma good_report s t kind :
  rec_inv s -> later (rs_last_observed_at s) t -> forall d, rs_phase s = AwaitingCleanup d ->
  match kind with
  | CleanupCompleted p => loss_lineage s = Some (proof_lineage p)
  | CleanupIncomplete _ => True
  | _ => False
  end -> good s (report_fact s t kind).
Proof.
  intros Hi Ht d Hph Hk. destruct (report_fact_cases s t kind d Hph Ht) as [->|(f & fp & Hwf & _ & -> & _)]; [|done|].
  - destruct kind; try done. destruct Hi as [(Hl & _) _ _]. unfold loss_holds in Hl. rewrite Hk in Hl.
    by destruct Hl as (_ & _ & <- & _).
  - by apply good_observe_fact.
Qed.
Lemma owner_turn_good s x : rec_inv s -> timely s x -> good s (owner_turn s x).
Proof.
  intros Hi (Ht & _ & Hr). unfold owner_turn. unfold reporting in *.
  destruct (pending_action s); [by apply good_complete_action|].
  destruct (rs_phase s) eqn:Hph; try by apply good_poll.
  destruct (turn_report x) as [kind|]; [|by apply good_poll].
  by eapply good_report.
Qed.

(** The action of a pending state is completed. *)
Lemma complete_nearer k s e o t :
  rec_inv s -> pending_action s = Some e -> later (rs_last_observed_at s) t ->
  (o = ProcessAlreadyExited -> is_stop_signal (action e) = true) ->
  nearer k (rank ((if match action e with CollectCleanup => bool_decide (o = Failed) | _ => false end then 1 else 0) + k) s)
    (complete_action s (action_id e) o t).
Proof.
  intros Hi He Ht Ho. pose proof Hi as [Hb Hph Hp]. pose proof (base_observe s t Hb Ht) as Hb'.
  unfold pending_holds in Hp. rewrite He in Hp. destruct Hp as (Ha & Hid & H0 & Hco). unfold complete_action.
  rewrite (proj2 (recovery_clock_Ok _ _) Ht), He. cbn [mbind result_mbind ok_or]. cbv zeta.
  rewrite N.eqb_refl. cbn [negb fail_if mbind result_mbind].
  assert (bool_decide (o = ProcessAlreadyExited) && negb (is_stop_signal (action e)) = false) as ->.
  { case_bool_decide as Hx; [|done]. by rewrite (Ho Hx). }
  cbn [fail_if mbind result_mbind]. set (n := set_observed_at t _).
  match goal with |- nearer k ?b _ => assert (nearer k b (if bool_decide (o = Failed) then complete_failed n (action e)
                               else complete_done n (action e) o t)) as Hn end.
  { case_bool_decide as Hf; [apply (nearer_failed k n _ (rs_phase s))|apply (nearer_done k n _ o t (rs_phase s))]; try done;
      unfold rank, issue_rank; rewrite He; change (cleanup_proven n) with (cleanup_proven s);
      destruct (rs_phase s), (action e); try done; simpl; try case_match; lia. }
  destruct (last_completed_action s) as [c|] eqn:Hc; [|exact Hn].
  unfold completed_before in Hco. rewrite Hc in Hco.
  destruct (N.eqb_spec (completed_action_id c) (action_id e)); [lia|]. exact Hn.
Qed.

(** The reducer is polled at its deadline. *)
Lemma poll_nearer k s t :
  rec_inv s -> pending_action s = None -> at_rest s = false -> later (rs_last_observed_at s) t ->
  (forall d, phase_deadline (rs_phase s) = Some d -> (instant_value d <= now_value t)%N) ->
  nearer k (rank ((if match rs_phase s with AwaitingCleanup _ => true | _ => false end then 1 else 0) + k) s) (poll s t).
Proof.
  intros Hi He Hrest Ht Hd. pose proof Hi as [Hb Hph Hp]. pose proof (base_observe s t Hb Ht) as Hb'.
  unfold pending_holds in Hp. rewrite He in Hp. destruct Hp as [Hidle _].
  unfold poll. rewrite (proj2 (recovery_clock_Ok _ _) Ht), He. cbn [mbind result_mbind]. cbv zeta.
  unfold at_rest in Hrest. rewrite He in Hrest. set (n := set_observed_at t s) in *.
  assert (forall d, phase_deadline (rs_phase s) = Some d -> reached t d = true) as Hr.
  { intros d Hdd. apply N.leb_le. by apply Hd. }
  change (rs_phase n) with (rs_phase s). unfold rank. rewrite He.
  assert (forall b r, 7 + 4 * k < b -> nearer k b (quarantine n r)) as Hq.
  { intros b r Hlt. apply nearer_quarantine; [done|]. destruct (cleanup_proven n); lia. }
  destruct (rs_phase s) eqn:Hphase; try done; try (rewrite (Hr _ eq_refl); cbn [negb]).
  - apply nearer_issue; [done|simpl; lia].
  - apply nearer_issue; [done|simpl; lia].
  - apply Hq. lia.
  - apply Hq. lia.
  - apply Hq. lia.
  - destruct Hph as (_ & Hcl & _). apply (nearer_backoff k _ n); [exact Hb'|done|exact Hcl|lia].
  - apply negb_false_iff in Hrest. change (process_exited n) with (process_exited s).
    change (cleanup_proven n) with (cleanup_proven s). rewrite Hrest.
    apply andb_true_iff in Hrest as [Hex _]. apply nearer_cleanup; [exact Hb'|done|exact Hex|lia].
Qed.

(** Every timely turn of a state not at rest comes closer to rest, a miss
    counted. *)
Lemma turn_nearer k s x :
  rec_inv s -> at_rest s = false -> timely s x ->
  nearer k (rank ((if missed s x then 1 else 0) + k) s) (owner_turn s x).
Proof.
  intros Hi Hrest (Ht & Ho & Hr). unfold owner_turn, missed, reporting in *.
  destruct (pending_action s) as [e|] eqn:He; [apply complete_nearer; auto|].
  pose proof (poll_nearer k s (turn_at x) Hi He Hrest Ht) as Hpoll.
  destruct (rs_phase s) eqn:Hph; try by apply Hpoll, Hr. destruct (turn_report x) as [kind|]; [|by apply Hpoll, Hr].
  pose proof Hi as [Hb _ _]. clear Hpoll.
  destruct (report_fact_cases s (turn_at x) kind deadline Hph Ht) as [Hrep|(f & fp & _ & _ & Hrep & Hobs)].
  - destruct kind; try done. destruct Hb as (Hl & _). unfold loss_holds in Hl. rewrite Hr in Hl. by destruct Hl as (_ & _ & <- & _).
  - rewrite Hrep. by left.
  - rewrite Hrep, Hobs. set (n := set_observed_at (turn_at x) _).
    assert (base_inv n) as Hbn by exact (base_observe s (turn_at x) Hb Ht).
    unfold rank. rewrite He, Hph. destruct kind; try done.
    + apply (nearer_completed k _ n proof deadline); [done|done|done|done|lia].
    + unfold observe_cleanup_incomplete. change (rs_phase n) with (rs_phase s). rewrite Hph.
      apply nearer_quarantine; [done|]. destruct (cleanup_proven n); lia.
Qed.

Lemma drive_settles environment fuel s k :
  rec_inv s -> (forall n s, timely s (environment n s)) -> rank k s <= fuel ->
  fst (drive environment fuel s) <= k ->
  exists r, snd (drive environment fuel s) = Some r /\
    match r with Ok s' => at_rest s' = true | Err e => overflow e | Panic => False end.
Proof.
  intros Hi Henv. revert s k Hi. induction fuel as [|fuel IH]; intros s k Hi Hk; cbn [drive].
  all: destruct (at_rest s) eqn:Hr; [by eexists|].
  { pose proof (rank_not_at_rest k s Hr). lia. }
  set (x := environment fuel s). pose proof (Henv fuel s) as Ht. fold x in Ht.
  pose proof (owner_turn_good s x Hi Ht) as Hg.
  pose proof (fun k => turn_nearer k s x Hi Hr Ht) as Hn.
  destruct (owner_turn s x) as [tr|e|]; [|intros _; eexists; split; [done|exact (Hn 0)]|by destruct (Hn 0)].
  destruct Hg as [Hi' _]. specialize (IH (transition_state tr)).
  destruct (drive environment fuel (transition_state tr)) as [misses r]. simpl in *. intros Hm.
  set (m := if missed s x then 1 else 0) in *. apply (IH (k - m) Hi'); [|lia].
  specialize (Hn (k - m)). replace (m + (k - m)) with k in Hn by lia. lia.
Qed.

(** ** A cleanup that is never proven *)

(** The process is gone and its cleanup is collected again and again. *)
Definition retrying (s : RecoveryState) : Prop :=
  process_exited s = true /\ cleanup_proven s = false /\
  match rs_phase s with Quarantined _ | Cleaning | AwaitingCleanup _ => True | _ => False end.
Definition retries (r : Transition) : Prop :=
  match r with Ok t => retrying (transition_state t) | _ => True end.

Lemma retries_issue n phase act : retrying (set_phase phase n) -> retries (issue n phase act).
Proof.
  intros H. unfold issue. destruct (bool_decide _); [done|]. simpl. destruct (checked_add _ _ _); [exact H|done].
Qed.
Lemma retries_quarantine n r : retrying n -> retries (quarantine n r).
Proof.
  intros (Hex & Hcl & Hph). unfold quarantine. destruct (remember_is r n) as [r' ->]. simpl.
  destruct (bool_decide _); [done|]. destruct (quarantine_entered n); [done|]. by apply retries_issue.
Qed.
Lemma retries_cleanup n : retrying n -> retries (begin_cleanup n).
Proof.
  intros (Hex & Hcl & _). unfold begin_cleanup. destruct (ensure_loss_settled n); [|done..]. simpl.
  rewrite Hex. simpl. by apply retries_issue.
Qed.
Lemma retries_failed n act :
  retrying n -> acts (rs_phase n) act -> retries (complete_failed n act).
Proof.
  intros (Hex & Hcl & Hph) Ha. unfold complete_failed.
  change (remember_action_failure n) with (remember_both RecoveryActionFailed n).
  destruct act, (rs_phase n) eqn:Hp; try done; cbv zeta.
  - destruct (remember_both_is RecoveryActionFailed n) as [r ->]. simpl. apply retries_quarantine.
    split; [done|]. split; [done|]. simpl. by rewrite Hp.
  - fold (remember_both reason n). by destruct (remember_both_is reason n) as [r ->].
Qed.
Lemma retries_done n act o t :
  retrying n -> acts (rs_phase n) act -> retries (complete_done n act o t).
Proof.
  intros (Hex & Hcl & Hph) Ha. destruct act, (rs_phase n) eqn:Hp; try done; cbn [complete_done].
  - destruct (ensure_loss_settled n); [|done..]. simpl. unfold add_budget. by destruct (checked_add _ _ _).
  - cbv zeta. fold (remember_both reason n). destruct (remember_both_is reason n) as [r ->].
    simpl. rewrite Hex, Hcl. simpl. apply retries_cleanup. split; [done|]. split; [done|]. simpl. by rewrite Hp.
Qed.

Lemma turn_retries s x :
  rec_inv s -> timely s x -> (forall p, turn_report x <> Some (CleanupCompleted p)) -> retrying s ->
  retries (owner_turn s x).
Proof.
  intros [_ _ Hp] (Ht & _ & Hrep) Hno Hs. unfold owner_turn, reporting in *. unfold pending_holds in Hp.
  destruct (pending_action s) as [e|] eqn:He.
  - destruct Hp as (Ha & _). unfold complete_action. rewrite (proj2 (recovery_clock_Ok _ _) Ht), He.
    cbn [mbind result_mbind ok_or]. cbv zeta. rewrite N.eqb_refl. cbn [negb fail_if mbind result_mbind].
    set (n := set_observed_at (turn_at x) _).
    assert (retries (_ ← fail_if (bool_decide (turn_outcome x = ProcessAlreadyExited) && negb (is_stop_signal (action e)))
      InvalidActionOutcome; if bool_decide (turn_outcome x = Failed) then complete_failed n (action e)
                           else complete_done n (action e) (turn_outcome x) (turn_at x))) as Hn.
    { destruct (_ && _); [done|]. cbn [fail_if mbind result_mbind].
      case_bool_decide; [by apply retries_failed|by apply retries_done]. }
    destruct (last_completed_action s) as [c|]; [|exact Hn].
    destruct (_ =? _)%N; [|exact Hn]. cbn [andb]. by destruct (bool_decide (completed_outcome c = turn_outcome x)).
  - destruct Hs as (Hex & Hcl & Hph).
    assert (forall t, retrying (set_observed_at t s)) as Hn by (intros t; by split).
    assert (retries (poll s (turn_at x))) as Hpoll.
    { unfold poll. rewrite (proj2 (recovery_clock_Ok _ _) Ht), He. cbn [mbind result_mbind]. cbv zeta.
      simpl. destruct (rs_phase s); try done.
      - destruct (reached _ _); simpl; [by apply retries_quarantine|apply Hn].
      - rewrite Hex, Hcl. simpl. by apply retries_cleanup. }
    destruct (rs_phase s) eqn:Hphase; try done.
    destruct (turn_report x) as [kind|]; [|done]. destruct kind; try done; [by destruct (Hno proof)|].
    destruct (report_fact_cases s (turn_at x) (CleanupIncomplete census) deadline Hphase Ht I)
      as [->|(f & fp & _ & _ & -> & ->)]; [done|].
    unfold observe_cleanup_incomplete. simpl rs_phase. rewrite Hphase. apply retries_quarantine.
    split; [done|]. split; [done|]. simpl. by rewrite Hphase.
Qed.

(** Without a proof of the cleanup no number of turns is enough: the misses
    in the bound below cannot be left out. *)
Theorem unproven_cleanup_never_rests environment fuel s :
  rec_inv s -> (forall n s, timely s (environment n s)) ->
  (forall n s p, turn_report (environment n s) <> Some (CleanupCompleted p)) -> retrying s ->
  match snd (drive environment fuel s) with Some (Ok _) => False | _ => True end.
Proof.
  intros Hi Henv Hno. revert s Hi. induction fuel as [|fuel IH]; intros s Hi Hs; cbn [drive].
  all: assert (at_rest s = false) as ->
    by (destruct Hs as (Hex & Hcl & Hph); unfold at_rest; rewrite Hex, Hcl; by destruct (pending_action s), (rs_phase s)).
  { done. }
  pose proof (owner_turn_good s _ Hi (Henv fuel s)) as Hg.
  pose proof (turn_retries s _ Hi (Henv fuel s) (Hno fuel s) Hs) as Hr.
  destruct (owner_turn s (environment fuel s)) as [tr|e|]; [|done..]. destruct Hg as [Hi' _].
  specialize (IH (transition_state tr) Hi' Hr). by destruct (drive environment fuel (transition_state tr)).
Qed.

(** ** Property *)

(** C32: From every state a run reaches, an owner that carries out the actions
    with any outcomes, polls at the deadlines and reports how the cleanup
    ended brings recovery to rest within fourteen turns and four more for each
    collection of the cleanup that is missed (failed, past its deadline or
    incomplete), unless a counter or the clock runs out.  At rest no action is
    pending and every later poll changes the clock of the state and nothing
    else: a generation that is quarantined with its process gone and its
    cleanup unproven does not count. *)
Theorem recovery_settles identity lifecycle restart replay t0 s0 calls s log environment fuel :
  recovery_try_new identity lifecycle restart replay t0 = Ok s0 ->
  recovery_run sha256 s0 calls = (s, log) ->
  (forall n s, timely s (environment n s)) ->
  let '(misses, outcome) := drive environment fuel s in
  14 + 4 * misses <= fuel ->
  exists r, outcome = Some r /\
    match r with
    | Ok s' => at_rest s' = true /\ stays_at_rest s'
    | Err e => e = CounterOverflow \/ e = DeadlineOverflow
    | Panic => False
    end.
Proof.
  intros H0 Hrun Henv.
  pose proof (run_rec _ _ _ (run_inv_run sha256 _ _ _ _ _ _ _ _ _ H0 Hrun)) as Hi.
  pose proof (drive_settles environment fuel s (fst (drive environment fuel s)) Hi Henv) as Hd.
  destruct (drive environment fuel s) as [misses outcome]. cbn [fst snd] in *. intros Hf.
  destruct Hd as (r & -> & Hr); [pose proof (rank_bound misses s); lia|lia|].
  exists r. split; [done|]. destruct r; [|done..]. split; [done|by apply at_rest_stays].
Qed.
End settle.

(** ** Runs of an owner *)

Module SettleDemo.
Export RecoveryDemo.
(** The process of the first generation has just died. *)
Definition just_died : list RecoveryCall := firstn 1 (lost_and_restarted 1 1 0).

(** An owner that acts at once, reports [report] of the accepted loss without
    waiting and polls at the deadlines. *)
Definition owner (report : RecoveryState -> ProcessLossLineage -> option RuntimeFailureFactKind)
    (_ : nat) (s : RecoveryState) : OwnerTurn :=
  let now := now_value (rs_last_observed_at s) in
  let report := l ← loss_lineage s; report s l in
  let due := match phase_deadline (rs_phase s) with Some d => N.max now (instant_value d) | None => now end in
  MkOwnerTurn
    (MkClockReading (reading_domain (rs_last_observed_at s)) (reading_generation (rs_last_observed_at s))
       (from_ticks (match report, rs_phase s with Some _, AwaitingCleanup _ => now | _, _ => due end)))
    Succeeded report.
Definition proof_of (l : ProcessLossLineage) : RuntimeFailureFactKind :=
  CleanupCompleted (MkProcessCleanupProof l (MkProcessCleanupCensus true 0 0 0 0 0 0)).
(** One that proves the cleanup, one whose first census still counts a
    process, and one that lets every deadline pass. *)
Definition prompt := owner (fun _ l => Some (proof_of l)).
Definition second_try := owner (fun s l =>
  Some (if quarantine_entered s then proof_of l else CleanupIncomplete (MkProcessCleanupCensus true 1 0 0 0 0 0))).
Definition silent := owner (fun _ _ => None).

Lemma owner_timely report :
  (forall s l, match report s l with
     | Some (CleanupCompleted p) => l = proof_lineage p
     | Some (CleanupIncomplete _) | None => True
     | Some _ => False
     end) ->
  forall n s, timely s (owner report n s).
Proof.
  intros Hrep n s. split; [|split; [done|]].
  - split; [done|]. split; [done|]. simpl. unfold now_value. repeat case_match; simpl; lia.
  - destruct (reporting s (owner report n s)) as [kind|] eqn:Hr; unfold reporting, owner in Hr;
      destruct (pending_action s) eqn:He; try done.
    + destruct (rs_phase s); try done. simpl in Hr. destruct (loss_lineage s) as [l|]; [|done]. simpl in Hr.
      specialize (Hrep s l). rewrite Hr in Hrep. by destruct kind; subst.
    + intros _ d Hd. simpl. rewrite Hd.
      assert (instant_value d <= N.max (now_value (rs_last_observed_at s)) (instant_value d))%N as Hle by lia.
      destruct (loss_lineage s ≫= report s); [destruct (rs_phase s)|]; done.
Qed.
Lemma second_try_timely n s : timely s (second_try n s).
Proof. apply owner_timely. intros s' l. by destruct (quarantine_entered s'). Qed.
Abbreviation run calls := (recovery_run no_hash start calls).
End SettleDemo.
Import SettleDemo.

(** The second collection is proven: one miss. *)
Lemma recovery_settles_witness :
  exists s', drive no_hash second_try 18 (fst (run just_died)) = (1, Some (Ok s')) /\
    at_rest s' = true /\ stays_at_rest s'.
Proof.
  pose proof (recovery_settles no_hash (generation 1) budgets policy NoReplay (clock 0) start just_died
    (fst (run just_died)) (snd (run just_died)) second_try 18 started (surjective_pairing _) second_try_timely) as H.
  destruct (drive no_hash second_try 18 (fst (run just_died))) as [misses outcome] eqn:Hd.
  assert (misses = 1 /\ exists s', outcome = Some (Ok s')) as [-> [s' ->]].
  { revert Hd. vm_compute. intros [= <- <-]. split; [done|by eexists]. }
  exists s'. split; [done|]. destruct (H (le_n 18)) as (r & [= <-] & Hr). exact Hr.
Defined.

(** A cleanup proven in time leads to a fresh generation. *)
Example prompt_recovers :
  match drive no_hash prompt 14 (fst (run just_died)) with
  | (0, Some (Ok s')) => rs_phase s' = Recovered (MkDomainEpoch 2)
  | _ => False
  end.
Proof. vm_compute. reflexivity. Qed.

Lemma unproven_cleanup_never_rests_witness :
  match snd (drive no_hash silent 40 (fst (run (firstn 2 (lost_and_restarted 1 1 0))))) with Some (Ok _) => False | _ => True end.
Proof.
  apply (unproven_cleanup_never_rests no_hash silent 40).
  - apply (run_rec _ _ _ (run_inv_run no_hash _ _ _ _ _ _ _ _ _ started (surjective_pairing _))).
  - by apply owner_timely.
  - intros n s p. unfold silent, owner. simpl. by destruct (loss_lineage s).
  - vm_compute. done.
Defined.
