(* ===== verification/PortBinding.v ===== *)
(** * Port bindings (crates/paraegox-runtime/src/port_binding.rs)

    A binding routes the messages of one source port to one target mailbox.
    It keeps a prepared route, the route that accepts new messages and an older
    route that only drains; every switch is made under a binding epoch.  The
    mailboxes stay with the caller: an operation borrows them.

    The theorems run a binding against a store of mailboxes in which anything
    may happen to a mailbox between the calls. *)

From S2P Require Import Prelude Bytes KernelTime KernelDigest Assignment MailboxModel MailboxInv MailboxSteps Mailbox.
Open Scope rust_scope.

(** ** Data *)

Lemma MkMailboxRef_bytes m : MkMailboxRef (mailbox_ref_bytes m) = m.
Proof. by destruct m. Qed.
#[export] Instance MailboxRef_countable : Countable MailboxRef :=
  inj_countable' (H := byte_array_countable 16) mailbox_ref_bytes MkMailboxRef MkMailboxRef_bytes.

Inductive PortBindingError :=
| BindingIdentityMismatch
| InvalidSourceDirection
| InvalidTargetDirection
| SchemaMismatch
| InteractionMismatch
| UnsupportedCardinality
| OverflowPolicyMismatch
| QueueAgeExceedsDeliveryAge
| MailboxCannotHoldPayload
| MailboxCannotRetainCapacity
| EventCannotUseLossyOverflow
| BlockingOverflowUnsupportedByFixture
| MailboxIdentityMismatch
| MailboxSchemaMismatch
| MailboxInteractionMismatch
| MailboxSpecMismatch
| CandidateMailboxNotAccepting
| CandidateMailboxNotEmpty
| ReplacementMailboxIdentityReused
| CandidateAlreadyPrepared
| NoPreparedCandidate
| PreparedEpochMismatch
| ExpectedActiveEpochMismatch
| ActiveEpochMismatch
| NoActiveRoute
| DrainMustRetireBeforePrepare
| DrainMustRetireBeforeActivate
| DrainMustRetireBeforeRevoke
| PreviousMailboxRequired
| UnexpectedPreviousMailbox
| NoDrainingRoute
| DrainingEpochMismatch
| DrainingMailboxNotClosed
| BindingEpochExhausted
| MailboxFailed (e : MailboxError).

(** A nonzero [u64]. *)
Record BindingEpoch := MkBindingEpoch { epoch_value : N }.
#[export] Instance BindingEpoch_eq_dec : EqDecision BindingEpoch.
Proof. solve_decision. Defined.

Definition next_after (last_epoch : N) : result PortBindingError BindingEpoch :=
  match checked_add u64_max last_epoch 1 with
  | Some next => if (next =? 0)%N then Err BindingEpochExhausted else Ok (MkBindingEpoch next)
  | None => Err BindingEpochExhausted
  end.

Record BindingRoute := MkBindingRoute {
  route_assignment : BindingAssignment;
  route_epoch : BindingEpoch;
}.
Record PreparedBindingRoute := MkPreparedBindingRoute {
  prepared_route : BindingRoute;
  prepared_expected_active : option BindingEpoch;
}.

Record PortBinding := MkPortBinding {
  pb_binding_id : BindingId;
  pb_last_live_epoch : N;
  pb_prepared : option PreparedBindingRoute;
  pb_active : option BindingRoute;
  pb_draining : option BindingRoute;
}.
Definition set_pb_last (v : N) (b : PortBinding) : PortBinding :=
  let '(MkPortBinding i _ p a d) := b in MkPortBinding i v p a d.
Definition set_pb_prepared (v : option PreparedBindingRoute) (b : PortBinding) : PortBinding :=
  let '(MkPortBinding i l _ a d) := b in MkPortBinding i l v a d.
Definition set_pb_active (v : option BindingRoute) (b : PortBinding) : PortBinding :=
  let '(MkPortBinding i l p _ d) := b in MkPortBinding i l p v d.
Definition set_pb_draining (v : option BindingRoute) (b : PortBinding) : PortBinding :=
  let '(MkPortBinding i l p a _) := b in MkPortBinding i l p a v.

Definition port_binding_new (binding_id : BindingId) : PortBinding :=
  MkPortBinding binding_id 0 None None None.

(** [active.map(BindingRoute::epoch)] and the like. *)
Definition epoch_of (route : option BindingRoute) : option BindingEpoch := route_epoch <$> route.
Definition prepared_epoch (self : PortBinding) : option BindingEpoch :=
  route_epoch ∘ prepared_route <$> pb_prepared self.

(** ** Checks *)

Definition validate_fixture_assignment (assignment : BindingAssignment)
    : result PortBindingError unit :=
  let source := source_spec assignment in
  let target := target_spec assignment in
  bail InvalidSourceDirection when bool_decide (port_direction source <> Out);
  bail InvalidTargetDirection when bool_decide (port_direction target <> In);
  bail SchemaMismatch when bool_decide (port_schema source <> port_schema target);
  bail InteractionMismatch when bool_decide (port_interaction source <> port_interaction target);
  bail UnsupportedCardinality when
    bool_decide (port_cardinality source <> One) || bool_decide (port_cardinality target <> One);
  let delivery := delivery assignment in
  let mailbox := binding_mailbox_spec assignment in
  bail OverflowPolicyMismatch when
    bool_decide (delivery_overflow_policy delivery <> overflow_policy mailbox);
  bail QueueAgeExceedsDeliveryAge when
    (duration_value (max_message_age delivery) <? duration_value (max_queue_age mailbox))%N;
  bail MailboxCannotHoldPayload when (capacity_bytes mailbox <? max_payload_bytes delivery)%N;
  bail MailboxCannotRetainCapacity when (max_retained_bytes mailbox <? capacity_bytes mailbox)%N;
  bail EventCannotUseLossyOverflow when
    bool_decide (port_interaction source = Event)
    && negb (match delivery_overflow_policy delivery with
             | RejectNew | BlockUntilDeadline => true
             | _ => false
             end);
  bail BlockingOverflowUnsupportedByFixture when
    bool_decide (delivery_overflow_policy delivery = BlockUntilDeadline);
  Ok tt.

Definition validate_mailbox_identity (assignment : BindingAssignment) (mailbox : Mailbox)
    : result PortBindingError unit :=
  bail MailboxIdentityMismatch when bool_decide (mb_reference mailbox <> mailbox_ref assignment);
  bail MailboxSchemaMismatch when
    bool_decide (mb_schema mailbox <> port_schema (target_spec assignment));
  bail MailboxInteractionMismatch when
    bool_decide (mb_interaction mailbox <> port_interaction (target_spec assignment));
  bail MailboxSpecMismatch when bool_decide (mb_spec mailbox <> binding_mailbox_spec assignment);
  Ok tt.

(** The candidate's snapshot holds nothing: no queued and no in-flight items,
    no retained bytes. *)
Definition snapshot_holds_work (snapshot : MailboxSnapshot) : bool :=
  (negb (snapshot_queued_items snapshot =? 0) || negb (snapshot_inflight_items snapshot =? 0)
   || negb (snapshot_retained_bytes snapshot =? 0))%N.

(** ** Operations *)

(** The checks of [prepare]: the epoch it returns, and whether a candidate is
    to be stored ([false] when the assignment is already active). *)
Definition prepare_checks (self : PortBinding) (assignment : BindingAssignment) (mailbox : Mailbox)
    (expected_active : option BindingEpoch) : result PortBindingError (BindingEpoch * bool) :=
  _ ← validate_fixture_assignment assignment;
  bail BindingIdentityMismatch when bool_decide (binding_id assignment <> pb_binding_id self);
  bail CandidateAlreadyPrepared when bool_decide (is_Some (pb_prepared self));
  bail ExpectedActiveEpochMismatch when bool_decide (epoch_of (pb_active self) <> expected_active);
  _ ← validate_mailbox_identity assignment mailbox;
  snapshot ← map_err MailboxFailed (mailbox_snapshot mailbox);
  bail CandidateMailboxNotAccepting when bool_decide (snapshot_lifecycle snapshot <> Accepting);
  let install :=
    bail DrainMustRetireBeforePrepare when bool_decide (is_Some (pb_draining self));
    bail CandidateMailboxNotEmpty when snapshot_holds_work snapshot;
    epoch ← next_after (pb_last_live_epoch self);
    Ok (epoch, true) in
  match pb_active self with
  | Some active =>
      if bool_decide (route_assignment active = assignment) then Ok (route_epoch active, false)
      else
        bail ReplacementMailboxIdentityReused when
          bool_decide (mailbox_ref (route_assignment active) = mailbox_ref assignment);
        install
  | None => install
  end.
Definition prepare (assignment : BindingAssignment) (mailbox : Mailbox)
    (expected_active : option BindingEpoch) : M PortBinding PortBindingError BindingEpoch :=
  '(epoch, store) ← read (fun self => prepare_checks self assignment mailbox expected_active);
  _ ← (if (store : bool)
       then modify (set_pb_prepared (Some (MkPreparedBindingRoute
              (MkBindingRoute assignment epoch) expected_active)))
       else mret tt);
  mret epoch.

(** The checks of [activate] on the binding and the candidate: the route that
    is already active, or the prepared one to switch to. *)
Definition activate_checks (self : PortBinding) (epoch : BindingEpoch) (candidate : Mailbox)
    (previous_given : bool) : result PortBindingError (BindingRoute + BindingRoute) :=
  match pb_prepared self with
  | None =>
      active ← ok_or (pb_active self) NoPreparedCandidate;
      bail ActiveEpochMismatch when bool_decide (route_epoch active <> epoch);
      bail UnexpectedPreviousMailbox when previous_given;
      _ ← validate_mailbox_identity (route_assignment active) candidate;
      Ok (inl active)
  | Some prepared =>
      bail PreparedEpochMismatch when bool_decide (route_epoch (prepared_route prepared) <> epoch);
      bail ExpectedActiveEpochMismatch when
        bool_decide (epoch_of (pb_active self) <> prepared_expected_active prepared);
      bail DrainMustRetireBeforeActivate when bool_decide (is_Some (pb_draining self));
      _ ← validate_mailbox_identity (route_assignment (prepared_route prepared)) candidate;
      snapshot ← map_err MailboxFailed (mailbox_snapshot candidate);
      bail CandidateMailboxNotAccepting when bool_decide (snapshot_lifecycle snapshot <> Accepting);
      bail CandidateMailboxNotEmpty when snapshot_holds_work snapshot;
      Ok (inr (prepared_route prepared))
  end.
(** Stops the mailbox of the route that is replaced. *)
Definition stop_previous (previous : option BindingRoute)
    : M (option Mailbox) PortBindingError unit :=
  fun mailbox =>
    match previous, mailbox with
    | Some previous, Some mb =>
        let '(mb', res) := (_ ← read (validate_mailbox_identity (route_assignment previous));
                            with_err MailboxFailed stop_accepting) mb in
        (Some mb', res)
    | Some _, None => (mailbox, Err PreviousMailboxRequired)
    | None, Some _ => (mailbox, Err UnexpectedPreviousMailbox)
    | None, None => (mailbox, Ok tt)
    end.
Definition activate (epoch : BindingEpoch) (candidate : Mailbox)
    : M (PortBinding * option Mailbox) PortBindingError BindingRoute :=
  target ← read (fun '(self, previous) =>
    activate_checks self epoch candidate (bool_decide (is_Some previous)));
  match target with
  | inl active => mret active
  | inr route =>
      previous_active ← gets (fun '(self, _) => pb_active self);
      _ ← on_snd (stop_previous previous_active);
      _ ← on_fst (modify (fun self =>
            set_pb_last (epoch_value (route_epoch route)) (set_pb_prepared None
              (set_pb_draining previous_active (set_pb_active (Some route) self)))));
      mret route
  end.

Definition rollback (epoch : BindingEpoch) : M PortBinding PortBindingError unit :=
  prepared ← read (fun self => ok_or (pb_prepared self) NoPreparedCandidate);
  _ ← lift (fail_if (bool_decide (route_epoch (prepared_route prepared) <> epoch)) PreparedEpochMismatch);
  modify (set_pb_prepared None).

Definition revoke_checks (self : PortBinding) (expected_active : BindingEpoch) (mailbox : Mailbox)
    : result PortBindingError (BindingRoute * BindingEpoch) :=
  bail CandidateAlreadyPrepared when bool_decide (is_Some (pb_prepared self));
  bail DrainMustRetireBeforeRevoke when bool_decide (is_Some (pb_draining self));
  active ← ok_or (pb_active self) NoActiveRoute;
  bail ActiveEpochMismatch when bool_decide (route_epoch active <> expected_active);
  _ ← validate_mailbox_identity (route_assignment active) mailbox;
  epoch ← next_after (pb_last_live_epoch self);
  Ok (active, epoch).
Definition revoke (expected_active : BindingEpoch)
    : M (PortBinding * Mailbox) PortBindingError BindingEpoch :=
  '(active, epoch) ← read (fun '(self, mailbox) => revoke_checks self expected_active mailbox);
  _ ← on_snd (with_err MailboxFailed stop_accepting);
  _ ← on_fst (modify (fun self =>
        set_pb_last (epoch_value epoch) (set_pb_draining (Some active) (set_pb_active None self))));
  mret epoch.

Definition retire_checks (self : PortBinding) (expected_draining : BindingEpoch) (mailbox : Mailbox)
    : result PortBindingError BindingRoute :=
  draining ← ok_or (pb_draining self) NoDrainingRoute;
  bail DrainingEpochMismatch when bool_decide (route_epoch draining <> expected_draining);
  _ ← validate_mailbox_identity (route_assignment draining) mailbox;
  snapshot ← map_err MailboxFailed (mailbox_snapshot mailbox);
  bail DrainingMailboxNotClosed when bool_decide (snapshot_lifecycle snapshot <> Closed);
  Ok draining.
Definition retire_draining (expected_draining : BindingEpoch) (mailbox : Mailbox)
    : M PortBinding PortBindingError BindingRoute :=
  draining ← read (fun self => retire_checks self expected_draining mailbox);
  _ ← modify (set_pb_draining None);
  mret draining.

(** The message comes back with every failure. *)
Record BindingOfferFailure := MkBindingOfferFailure {
  binding_offer_error : PortBindingError;
  binding_offer_message : ValidatedMessage;
}.
Definition from_mailbox (failure : OfferFailure) : BindingOfferFailure :=
  MkBindingOfferFailure (MailboxFailed (offer_failure_error failure)) (offer_failure_message failure).

Definition offer_checks (self : PortBinding) (id : BindingId) (epoch : BindingEpoch)
    (mailbox : Mailbox) : result PortBindingError unit :=
  bail BindingIdentityMismatch when bool_decide (id <> pb_binding_id self);
  active ← ok_or (pb_active self) NoActiveRoute;
  bail ActiveEpochMismatch when bool_decide (route_epoch active <> epoch);
  validate_mailbox_identity (route_assignment active) mailbox.
Definition offer (self : PortBinding) (id : BindingId) (epoch : BindingEpoch)
    (message : ValidatedMessage) (reading : ClockReading)
    : M Mailbox BindingOfferFailure OfferReport :=
  _ ← read (fun mailbox =>
    map_err (fun e => MkBindingOfferFailure e message) (offer_checks self id epoch mailbox));
  with_err from_mailbox (try_offer message reading).

(** ** What each operation does *)

(** A guard [x != y] that did not fire. *)
Ltac same_inv := repeat match goal with H : ~ ?x <> ?y |- _ => apply dec_stable in H end.

Lemma validate_mailbox_identity_Ok a mb u :
  validate_mailbox_identity a mb = Ok u <->
  mb_reference mb = mailbox_ref a /\ mb_schema mb = port_schema (target_spec a) /\
  mb_interaction mb = port_interaction (target_spec a) /\ mb_spec mb = binding_mailbox_spec a.
Proof.
  unfold validate_mailbox_identity. destruct u. repeat case_bool_decide; simpl; naive_solver.
Qed.
(** The identity of a mailbox is among the fields no operation assigns to. *)
Lemma identity_config a mb mb' :
  config mb' = config mb -> validate_mailbox_identity a mb' = validate_mailbox_identity a mb.
Proof. unfold config, validate_mailbox_identity. by intros [= -> -> -> _ -> _ _ _]. Qed.

Lemma next_after_Ok last epoch :
  next_after last = Ok epoch <-> epoch_value epoch = (last + 1)%N /\ (last + 1 <= u64_max)%N.
Proof.
  unfold next_after, checked_add. destruct (N.leb_spec (last + 1) u64_max); simpl.
  - destruct (N.eqb_spec (last + 1) 0); [lia|]. destruct epoch as [v]; simpl.
    split; [intros [= <-]|intros [-> _]]; done.
  - split; [done|lia].
Qed.

Lemma mailbox_snapshot_inv mb :
  mailbox_inv mb ->
  mailbox_snapshot mb = Ok (MkMailboxSnapshot (mb_lifecycle mb) (len (mb_queue mb)) (mb_queued_bytes mb)
    (inflight_len mb) (mb_inflight_bytes mb) (mb_queued_bytes mb + mb_inflight_bytes mb)
    (mb_offers mb) (mb_terminals mb)).
Proof.
  intros Hi. unfold mailbox_snapshot. rewrite inv_validate_state by done. simpl.
  rewrite try_from_ok by apply Hi. simpl. rewrite try_from_ok by apply Hi. simpl.
  by rewrite checked_add_ok by apply Hi.
Qed.

(** A route installed over [b]: numbered after every live epoch, into a mailbox
    that the active route does not use, and only while nothing drains. *)
Definition installable (b : PortBinding) (p : PreparedBindingRoute) : Prop :=
  epoch_value (route_epoch (prepared_route p)) = (pb_last_live_epoch b + 1)%N /\
  prepared_expected_active p = epoch_of (pb_active b) /\ pb_draining b = None /\
  forall r, pb_active b = Some r ->
    mailbox_ref (route_assignment r) <> mailbox_ref (route_assignment (prepared_route p)).

Lemma prepare_effect a mb expected b b' res :
  prepare a mb expected b = (b', res) ->
  b' = b \/ exists p, b' = set_pb_prepared (Some p) b /\ pb_prepared b = None /\ installable b p.
Proof.
  unfold prepare. rewrite run_read. destruct (prepare_checks b a mb expected) as [[epoch []]|e|] eqn:H;
    intros [= <- <-]; [|by left..].
  right. eexists. split; [done|]. unfold prepare_checks in H. rust_inv. same_inv.
  split; [by apply eq_None_not_Some|].
  destruct (pb_active b) as [r|] eqn:Ha; [case_bool_decide; [done|]|]; rust_inv; same_inv; simplify_eq;
    match goal with H : next_after _ = Ok _ |- _ => apply next_after_Ok in H as [? _] end;
    repeat split; simpl; try done; try (by apply eq_None_not_Some); rewrite ?Ha;
    first [done|intros ? [=]; by subst].
Qed.

(** The state after a switch to [route]. *)
Definition switched (route : BindingRoute) (b : PortBinding) : PortBinding :=
  MkPortBinding (pb_binding_id b) (epoch_value (route_epoch route)) None (Some route) (pb_active b).

Inductive activated (e : BindingEpoch) (candidate : Mailbox) (b : PortBinding) (prev : option Mailbox)
    : PortBinding * option Mailbox -> result PortBindingError BindingRoute -> Prop :=
| activated_already r :
    pb_prepared b = None -> pb_active b = Some r -> route_epoch r = e ->
    activated e candidate b prev (b, prev) (Ok r)
| activated_refused err : activated e candidate b prev (b, prev) (Err err)
| activated_first p :
    pb_prepared b = Some p -> pb_active b = None -> prev = None ->
    validate_mailbox_identity (route_assignment (prepared_route p)) candidate = Ok tt ->
    mb_lifecycle candidate = Accepting ->
    activated e candidate b prev (switched (prepared_route p) b, None) (Ok (prepared_route p))
| activated_over p r mb :
    pb_prepared b = Some p -> pb_active b = Some r -> prev = Some mb ->
    validate_mailbox_identity (route_assignment (prepared_route p)) candidate = Ok tt ->
    mb_lifecycle candidate = Accepting ->
    validate_mailbox_identity (route_assignment r) mb = Ok tt ->
    activated e candidate b prev (switched (prepared_route p) b, Some (state_stopped mb))
      (Ok (prepared_route p)).

Lemma stop_previous_run r mb :
  mailbox_inv mb ->
  stop_previous (Some r) (Some mb) =
  match validate_mailbox_identity (route_assignment r) mb with
  | Ok _ => (Some (state_stopped mb), Ok tt)
  | Err e => (Some mb, Err e)
  | Panic => (Some mb, Panic)
  end.
Proof.
  intros Hi. unfold stop_previous. rewrite run_read.
  destruct (validate_mailbox_identity _ _) as [u|e|]; [|done..].
  unfold with_err. by rewrite stop_accepting_run.
Qed.
Lemma validate_mailbox_identity_total a mb : validate_mailbox_identity a mb <> Panic.
Proof. unfold validate_mailbox_identity. no_panic. Qed.

Lemma activate_effect e candidate b prev s' res :
  mailbox_inv candidate -> (forall mb, prev = Some mb -> mailbox_inv mb) ->
  activate e candidate (b, prev) = (s', res) -> activated e candidate b prev s' res.
Proof.
  intros Hc Hp. unfold activate. rewrite run_read.
  destruct (activate_checks b e candidate _) as [[r|r]|err|] eqn:H.
  - intros [= <- <-]. unfold activate_checks in H. destruct (pb_prepared b) as [p|] eqn:Hb; rust_inv; same_inv.
    simplify_eq. by apply activated_already.
  - unfold activate_checks in H. destruct (pb_prepared b) as [p|] eqn:Hb; rust_inv; same_inv. simplify_eq.
    rewrite mailbox_snapshot_inv in * by done. simplify_eq. simpl in *.
    match goal with H : validate_mailbox_identity _ _ = Ok ?u |- _ => destruct u; rename H into Hid end.
    rewrite run_gets, run_bind. unfold on_snd.
    destruct (pb_active b) as [r|] eqn:Ha, prev as [mb|].
    + rewrite stop_previous_run by auto. destruct (validate_mailbox_identity (route_assignment r) mb) as [[]|err|] eqn:Hm.
      * intros [= <- <-]. rewrite <-Ha. replace (set_pb_last _ _) with (switched (prepared_route p) b)
          by by destruct b. by eapply activated_over.
      * intros [= <- <-]. constructor.
      * by apply validate_mailbox_identity_total in Hm.
    + intros [= <- <-]. constructor.
    + intros [= <- <-]. constructor.
    + intros [= <- <-]. rewrite <-Ha. replace (set_pb_last _ _) with (switched (prepared_route p) b)
        by by destruct b. by eapply activated_first.
  - intros [= <- <-]. constructor.
  - exfalso. revert H. unfold activate_checks, mailbox_snapshot in *.
    pose proof (mailbox_snapshot_inv _ Hc) as Hs. unfold mailbox_snapshot in Hs. rewrite Hs.
    destruct (pb_prepared b); no_panic; apply validate_mailbox_identity_total.
Qed.

Lemma rollback_effect e b b' res :
  rollback e b = (b', res) -> b' = b \/ b' = set_pb_prepared None b /\ res = Ok tt.
Proof.
  unfold rollback. rewrite run_read. destruct (pb_prepared b) as [p|]; simpl; [|intros [= <- _]; by left].
  unfold lift, mbind, M_mbind. destruct (fail_if _ _) as [u|err|]; intros [= <- <-]; auto.
Qed.

Definition revoked (r : BindingRoute) (epoch : BindingEpoch) (b : PortBinding) : PortBinding :=
  MkPortBinding (pb_binding_id b) (epoch_value epoch) (pb_prepared b) None (Some r).

Lemma revoke_run e b mb :
  mailbox_inv mb ->
  revoke e (b, mb) =
  match revoke_checks b e mb with
  | Ok (r, epoch) => ((revoked r epoch b, state_stopped mb), Ok epoch)
  | Err err => ((b, mb), Err err)
  | Panic => ((b, mb), Panic)
  end.
Proof.
  intros Hi. unfold revoke. rewrite run_read.
  destruct (revoke_checks b e mb) as [[r epoch]|err|]; [|done..].
  rewrite run_bind. unfold on_snd, with_err. rewrite stop_accepting_run by done.
  by destruct b.
Qed.
Lemma revoke_checks_Ok b e mb r epoch :
  revoke_checks b e mb = Ok (r, epoch) <->
  pb_prepared b = None /\ pb_draining b = None /\ pb_active b = Some r /\ route_epoch r = e /\
  validate_mailbox_identity (route_assignment r) mb = Ok tt /\
  epoch_value epoch = (pb_last_live_epoch b + 1)%N /\ (pb_last_live_epoch b + 1 <= u64_max)%N.
Proof.
  rewrite <-next_after_Ok. unfold revoke_checks. split.
  - intros H. rust_inv. same_inv. simplify_eq.
    repeat match goal with u : unit |- _ => destruct u end.
    split_and!; try done; by apply eq_None_not_Some.
  - intros (-> & -> & -> & <- & Hid & Hn). simpl. rewrite bool_decide_eq_false_2 by naive_solver. simpl.
    by rewrite Hid, Hn.
Qed.

Lemma retire_run e mb b :
  retire_draining e mb b =
  match retire_checks b e mb with
  | Ok r => (set_pb_draining None b, Ok r)
  | Err err => (b, Err err)
  | Panic => (b, Panic)
  end.
Proof. unfold retire_draining. rewrite run_read. by destruct (retire_checks b e mb). Qed.
Lemma retire_checks_Ok b e mb r :
  mailbox_inv mb ->
  retire_checks b e mb = Ok r <->
  pb_draining b = Some r /\ route_epoch r = e /\
  validate_mailbox_identity (route_assignment r) mb = Ok tt /\ mb_lifecycle mb = Closed.
Proof.
  intros Hi. unfold retire_checks. rewrite (mailbox_snapshot_inv mb Hi). simpl. split.
  - intros H. rust_inv. same_inv. simplify_eq.
    by repeat match goal with u : unit |- _ => destruct u end.
  - intros (-> & <- & Hid & ->). simpl. rewrite bool_decide_eq_false_2 by naive_solver. simpl.
    by rewrite Hid.
Qed.

(** An offer either stops at the binding, which returns the message and leaves
    the mailbox alone, or is the mailbox's own. *)
Lemma offer_checks_total b id e mb : offer_checks b id e mb <> Panic.
Proof. unfold offer_checks. no_panic. Qed.
Lemma offer_run b id e message r mb :
  offer b id e message r mb =
  match offer_checks b id e mb with
  | Ok _ => with_err from_mailbox (try_offer message r) mb
  | Err err => (mb, Err (MkBindingOfferFailure err message))
  | Panic => (mb, Panic)
  end.
Proof. unfold offer. rewrite run_read. by destruct (offer_checks b id e mb). Qed.
Lemma offer_checks_Ok b id e mb :
  offer_checks b id e mb = Ok tt <->
  id = pb_binding_id b /\ exists r, pb_active b = Some r /\ route_epoch r = e /\
    validate_mailbox_identity (route_assignment r) mb = Ok tt.
Proof.
  unfold offer_checks. split.
  - intros H. rust_inv. same_inv. subst. eauto 6.
  - intros (-> & r & -> & <- & Hid). simpl. rewrite bool_decide_eq_false_2 by naive_solver. simpl.
    rewrite bool_decide_eq_false_2 by naive_solver. done.
Qed.

(** ** A binding among its mailboxes *)

(** The mailboxes of the binding's owner, one per reference. *)
Record Bus := MkBus {
  bus_binding : PortBinding;
  bus_mailboxes : gmap MailboxRef Mailbox;
}.
Definition with_binding (b : PortBinding) (s : Bus) : Bus := MkBus b (bus_mailboxes s).
Definition with_mailbox (ref : MailboxRef) (mb : Mailbox) (s : Bus) : Bus :=
  MkBus (bus_binding s) (<[ref := mb]> (bus_mailboxes s)).

(** One call on the binding, on a mailbox, or the creation of a mailbox.  The
    candidate of [activate] is borrowed beside the replaced mailbox, so they are
    different ones. *)
Inductive bus_step (s : Bus) : Bus -> Prop :=
| bus_create mb :
    fresh mb -> bus_mailboxes s !! mb_reference mb = None ->
    bus_step s (with_mailbox (mb_reference mb) mb s)
| bus_mailbox ref mb event mb' :
    bus_mailboxes s !! ref = Some mb -> step mb event mb' -> bus_step s (with_mailbox ref mb' s)
| bus_prepare ref mb assignment expected b' res :
    bus_mailboxes s !! ref = Some mb ->
    prepare assignment mb expected (bus_binding s) = (b', res) -> bus_step s (with_binding b' s)
| bus_activate_first ref mb epoch b' prev' res :
    bus_mailboxes s !! ref = Some mb ->
    activate epoch mb (bus_binding s, None) = ((b', prev'), res) -> bus_step s (with_binding b' s)
| bus_activate_over ref mb prev mbp epoch b' mbp' res :
    bus_mailboxes s !! ref = Some mb -> bus_mailboxes s !! prev = Some mbp -> ref <> prev ->
    activate epoch mb (bus_binding s, Some mbp) = ((b', Some mbp'), res) ->
    bus_step s (with_mailbox prev mbp' (with_binding b' s))
| bus_rollback epoch b' res :
    rollback epoch (bus_binding s) = (b', res) -> bus_step s (with_binding b' s)
| bus_revoke ref mb epoch b' mb' res :
    bus_mailboxes s !! ref = Some mb ->
    revoke epoch (bus_binding s, mb) = ((b', mb'), res) ->
    bus_step s (with_mailbox ref mb' (with_binding b' s))
| bus_retire ref mb epoch b' res :
    bus_mailboxes s !! ref = Some mb ->
    retire_draining epoch mb (bus_binding s) = (b', res) -> bus_step s (with_binding b' s)
| bus_offer ref mb id epoch message reading mb' res :
    bus_mailboxes s !! ref = Some mb ->
    offer (bus_binding s) id epoch message reading mb = (mb', res) ->
    bus_step s (with_mailbox ref mb' s).

Definition bus_reachable (s : Bus) : Prop :=
  exists id, rtc bus_step (MkBus (port_binding_new id) ∅) s.

(** Every call leaves a mailbox as it was or takes it one step further. *)
Definition moves (mb mb' : Mailbox) : Prop := mb' = mb \/ exists event, step mb event mb'.

Record store_inv (m : gmap MailboxRef Mailbox) : Prop := {
  store_mailbox : forall ref mb, m !! ref = Some mb -> mailbox_inv mb;
  store_reference : forall ref mb, m !! ref = Some mb -> mb_reference mb = ref;
}.
Definition stores (m : gmap MailboxRef Mailbox) (r : BindingRoute) (P : Mailbox -> Prop) : Prop :=
  exists mb, m !! mailbox_ref (route_assignment r) = Some mb /\
    validate_mailbox_identity (route_assignment r) mb = Ok tt /\ P mb.

Record bus_inv (s : Bus) : Prop := {
  bus_inv_store : store_inv (bus_mailboxes s);
  bus_inv_active : forall r, pb_active (bus_binding s) = Some r ->
    (epoch_value (route_epoch r) <= pb_last_live_epoch (bus_binding s))%N /\
    stores (bus_mailboxes s) r (fun _ => True);
  bus_inv_draining : forall r, pb_draining (bus_binding s) = Some r ->
    (epoch_value (route_epoch r) <= pb_last_live_epoch (bus_binding s))%N /\
    stores (bus_mailboxes s) r (fun mb => mb_lifecycle mb <> Accepting);
  bus_inv_distinct : forall r d, pb_active (bus_binding s) = Some r ->
    pb_draining (bus_binding s) = Some d ->
    mailbox_ref (route_assignment r) <> mailbox_ref (route_assignment d) /\
    (epoch_value (route_epoch d) < epoch_value (route_epoch r))%N;
  bus_inv_prepared : forall p, pb_prepared (bus_binding s) = Some p -> installable (bus_binding s) p;
}.

Lemma moves_inv mb mb' : mailbox_inv mb -> moves mb mb' -> mailbox_inv mb'.
Proof. intros Hi [->|[event H]]; [done|by eapply step_inv]. Qed.
Lemma moves_frame mb mb' :
  mailbox_inv mb -> moves mb mb' ->
  config mb' = config mb /\ lifecycle_rank (mb_lifecycle mb) <= lifecycle_rank (mb_lifecycle mb').
Proof. intros Hi [->|[event H]]; [done|by eapply step_frame]. Qed.
Lemma moves_stop mb : mailbox_inv mb -> moves mb (state_stopped mb).
Proof. intros Hi. right. eexists. apply step_stop. by apply stop_accepting_run. Qed.
Lemma moves_offer b id e message r mb mb' res :
  offer b id e message r mb = (mb', res) -> moves mb mb'.
Proof.
  rewrite offer_run. destruct (offer_checks b id e mb); [|intros [= <- _]; by left..].
  unfold with_err. destruct (try_offer message r mb) as [mb1 res1] eqn:H. intros [= <- _].
  right. eexists. by eapply step_offer.
Qed.

(** How the mailboxes of the store change from state to state. *)
Definition store_moves (m m' : gmap MailboxRef Mailbox) : Prop :=
  forall ref mb, m !! ref = Some mb -> exists mb', m' !! ref = Some mb' /\ moves mb mb'.
Lemma store_moves_refl m : store_moves m m.
Proof. intros ref mb H. exists mb. split; [done|by left]. Qed.
Lemma store_moves_insert m ref mb mb' :
  m !! ref = Some mb -> moves mb mb' -> store_moves m (<[ref := mb']> m).
Proof.
  intros H Hm ref' mb0 H0. destruct (decide (ref' = ref)) as [->|].
  - simplify_eq. exists mb'. by rewrite lookup_insert_eq.
  - exists mb0. rewrite lookup_insert_ne by done. split; [done|by left].
Qed.
Lemma store_moves_new m mb : m !! mb_reference mb = None -> store_moves m (<[mb_reference mb := mb]> m).
Proof.
  intros H ref mb0 H0. exists mb0. rewrite lookup_insert_ne by congruence. split; [done|by left].
Qed.

Lemma stores_moves m m' r (P : Mailbox -> Prop) :
  store_inv m -> store_moves m m' ->
  (forall mb mb', mailbox_inv mb -> moves mb mb' -> P mb -> P mb') ->
  stores m r P -> stores m' r P.
Proof.
  intros Hi Hm HP (mb & Hl & Hid & H). destruct (Hm _ _ Hl) as (mb' & Hl' & Hmv).
  assert (mailbox_inv mb) as Hmb by by eapply store_mailbox.
  exists mb'. split; [done|]. split; [|by eapply HP].
  rewrite <-Hid. apply identity_config. by apply moves_frame.
Qed.
Lemma stores_not_accepting m m' r :
  store_inv m -> store_moves m m' -> stores m r (fun mb => mb_lifecycle mb <> Accepting) ->
  stores m' r (fun mb => mb_lifecycle mb <> Accepting).
Proof.
  intros Hi Hm. eapply stores_moves; [done..|]. intros mb mb' Hmb [_ Hr]%moves_frame; [|done].
  destruct (mb_lifecycle mb), (mb_lifecycle mb'); simpl in *; (done || lia).
Qed.

(** How a call changes the binding, given the mailboxes it leaves. *)
Inductive binding_change (m' : gmap MailboxRef Mailbox) (b : PortBinding) : PortBinding -> Prop :=
| change_none : binding_change m' b b
| change_prepared p :
    pb_prepared b = None -> installable b p -> binding_change m' b (set_pb_prepared (Some p) b)
| change_rolled_back : binding_change m' b (set_pb_prepared None b)
| change_switched p :
    pb_prepared b = Some p -> stores m' (prepared_route p) (fun _ => True) ->
    (forall r, pb_active b = Some r -> stores m' r (fun mb => mb_lifecycle mb <> Accepting)) ->
    binding_change m' b (switched (prepared_route p) b)
| change_revoked r epoch :
    pb_prepared b = None -> pb_draining b = None -> pb_active b = Some r ->
    epoch_value epoch = (pb_last_live_epoch b + 1)%N ->
    stores m' r (fun mb => mb_lifecycle mb <> Accepting) -> binding_change m' b (revoked r epoch b)
| change_retired r :
    pb_draining b = Some r -> stores m' r (fun mb => mb_lifecycle mb = Closed) ->
    binding_change m' b (set_pb_draining None b).

(** A mailbox of the store that passes the identity check of a route is the
    one the route names. *)
Lemma store_names m ref mb a :
  store_inv m -> m !! ref = Some mb -> validate_mailbox_identity a mb = Ok tt -> ref = mailbox_ref a.
Proof.
  intros Hi Hl (Href & _)%validate_mailbox_identity_Ok. by rewrite <-Href, (store_reference m Hi _ _ Hl).
Qed.
Lemma stored m ref mb r (P : Mailbox -> Prop) :
  store_inv m -> m !! ref = Some mb -> validate_mailbox_identity (route_assignment r) mb = Ok tt ->
  P mb -> stores m r P.
Proof.
  intros Hi Hl Hid HP. pose proof (store_names _ _ _ _ Hi Hl Hid) as ->. by exists mb.
Qed.
Lemma stored_stopped m ref mb r :
  store_inv m -> m !! ref = Some mb -> validate_mailbox_identity (route_assignment r) mb = Ok tt ->
  stores (<[ref := state_stopped mb]> m) r (fun mb => mb_lifecycle mb <> Accepting).
Proof.
  intros Hi Hl Hid. assert (mailbox_inv mb) as Hmb by by eapply store_mailbox.
  pose proof (store_names _ _ _ _ Hi Hl Hid) as ->. exists (state_stopped mb).
  split; [apply lookup_insert_eq|]. split; [|by apply stopped_view].
  rewrite <-Hid. apply identity_config. by eapply moves_frame, moves_stop.
Qed.
Lemma store_inv_insert m ref mb mb' :
  store_inv m -> m !! ref = Some mb -> moves mb mb' -> store_inv (<[ref := mb']> m).
Proof.
  intros Hi Hl Hm. assert (mailbox_inv mb) as Hmb by by eapply store_mailbox.
  constructor; intros ref' mb0; (destruct (decide (ref' = ref)) as [->|];
    [rewrite lookup_insert_eq|rewrite lookup_insert_ne by done; apply Hi]); intros [= <-].
  - by eapply moves_inv.
  - destruct (moves_frame _ _ Hmb Hm) as [[= ->] _]. by apply Hi.
Qed.
Lemma store_inv_new m mb :
  store_inv m -> fresh mb -> store_inv (<[mb_reference mb := mb]> m).
Proof.
  intros Hi Hf. constructor; intros ref' mb0; (destruct (decide (ref' = mb_reference mb)) as [->|];
    [rewrite lookup_insert_eq|rewrite lookup_insert_ne by done; apply Hi]); intros [= <-]; auto.
Qed.

(** One step: the mailboxes move on, the store stays in order, and the binding
    changes in one of the ways above. *)
Lemma bus_step_effect s s' :
  bus_inv s -> bus_step s s' ->
  store_moves (bus_mailboxes s) (bus_mailboxes s') /\ store_inv (bus_mailboxes s') /\
  binding_change (bus_mailboxes s') (bus_binding s) (bus_binding s').
Proof.
  intros [Hst Ha Hd _ Hp]. destruct s as [b m]. simpl in *.
  intros Hstep. inversion Hstep as [mb Hf Hn|ref mb ev mb' Hl Hs|ref mb a ex b' res Hl H
    |ref mb e b' prev' res Hl H|ref mb prev mbp e b' mbp' res Hl Hlp Hne H|e b' res H
    |ref mb e b' mb' res Hl H|ref mb e b' res Hl H|ref mb id e msg rd mb' res Hl H]; subst; simpl in *.
  - split; [by apply store_moves_new|]. split; [by apply store_inv_new|constructor].
  - assert (moves mb mb') as Hm by (right; by eexists).
    split; [by eapply store_moves_insert|]. split; [by eapply store_inv_insert|constructor].
  - split; [apply store_moves_refl|]. split; [done|].
    destruct (prepare_effect _ _ _ _ _ _ H) as [->|(p & -> & ? & ?)]; [constructor|by apply change_prepared].
  - split; [apply store_moves_refl|]. split; [done|].
    assert (mailbox_inv mb) as Hmb by by eapply store_mailbox.
    apply activate_effect in H; [|done..].
    inversion H as [r|err|p Hb Hact _ Hid Hlc|]; subst; [apply change_none..| |done].
    apply change_switched; [done|by eapply stored|congruence].
  - assert (mailbox_inv mb) as Hmb by by eapply store_mailbox.
    assert (mailbox_inv mbp) as Hmbp by by eapply store_mailbox.
    apply activate_effect in H; [|done|by intros ? [= <-]].
    inversion H as [r|err|p Hb Hact Hx Hid Hlc|p r mb0 Hb Hact Hx Hid Hlc Hidp]; subst; try done.
    + rewrite insert_id by done. split; [apply store_moves_refl|]. split; [done|constructor].
    + rewrite insert_id by done. split; [apply store_moves_refl|]. split; [done|constructor].
    + simplify_eq. pose proof (moves_stop _ Hmbp) as Hm.
      split; [by eapply store_moves_insert|]. split; [by eapply store_inv_insert|].
      apply change_switched; [done| |].
      * eapply (stored _ ref mb); [by eapply store_inv_insert| |done|done]. by rewrite lookup_insert_ne.
      * rewrite Hact. intros ? [= <-]. by apply stored_stopped.
  - split; [apply store_moves_refl|]. split; [done|].
    destruct (rollback_effect _ _ _ _ H) as [->|[-> _]]; constructor.
  - assert (mailbox_inv mb) as Hmb by by eapply store_mailbox.
    rewrite revoke_run in H by done. destruct (revoke_checks b e mb) as [[r epoch]|err|] eqn:Hc;
      injection H as <- <- <-.
    2,3: rewrite insert_id by done; split; [apply store_moves_refl|]; split; [done|constructor].
    apply revoke_checks_Ok in Hc as (? & ? & ? & _ & Hid & ? & _).
    pose proof (moves_stop _ Hmb) as Hm. split; [by eapply store_moves_insert|].
    split; [by eapply store_inv_insert|]. apply change_revoked; [done..|by apply stored_stopped].
  - assert (mailbox_inv mb) as Hmb by by eapply store_mailbox.
    split; [apply store_moves_refl|]. split; [done|].
    rewrite retire_run in H. destruct (retire_checks b e mb) as [r|err|] eqn:Hc; injection H as <- <-;
      [|constructor..].
    apply retire_checks_Ok in Hc as (? & _ & Hid & ?); [|done].
    eapply change_retired; [done|by eapply stored].
  - assert (mailbox_inv mb) as Hmb by by eapply store_mailbox.
    pose proof (moves_offer _ _ _ _ _ _ _ _ H) as Hm.
    split; [by eapply store_moves_insert|]. split; [by eapply store_inv_insert|constructor].
Qed.

Lemma bus_step_inv s s' : bus_inv s -> bus_step s s' -> bus_inv s'.
Proof.
  intros Hi Hs. destruct (bus_step_effect _ _ Hi Hs) as (Hm & Hst' & Hc).
  destruct Hi as [Hst Ha Hd Hdis Hp]. destruct s as [b m], s' as [b' m']. simpl in *.
  assert (forall r, stores m r (fun _ => True) -> stores m' r (fun _ => True)) as Hany.
  { intros r. by eapply stores_moves. }
  assert (forall r, stores m r (fun mb => mb_lifecycle mb <> Accepting) ->
    stores m' r (fun mb => mb_lifecycle mb <> Accepting)) as Hnot.
  { intros r. by apply stores_not_accepting. }
  destruct Hc as [|p Hn Hok| |p Hb Hsp Hsa|r epoch Hn Hnd Hr He Hsr|r Hr Hsr];
    destruct b as [i l p0 a d]; simpl in *; constructor; simpl; try done.
  all: try (intros r0 H0; split; [by apply Ha|by apply Hany, Ha]).
  all: try (intros r0 H0; split; [by apply Hd|by apply Hnot, Hd]).
  - by intros p1 [= <-].
  - subst. intros r [= <-]. destruct (Hp _ eq_refl) as (He & _). simpl in He. split; [done|done].
  - subst. intros r ->. destruct (Hp _ eq_refl) as (He & _). simpl in He.
    destruct (Ha _ eq_refl) as [? _]. split; [lia|by apply Hsa].
  - subst. intros r d0 [= <-] ->. destruct (Hp _ eq_refl) as (He & _ & _ & Hne). simpl in *.
    destruct (Ha _ eq_refl) as [? _]. split; [apply not_eq_sym; by apply Hne|lia].
  - intros r0 [= <-]. subst. destruct (Ha _ eq_refl) as [? _]. split; [lia|done].
  - subst. done.
  - intros p ->. destruct (Hp _ eq_refl) as (_ & _ & Hnd & _). simpl in Hnd. congruence.
Qed.
Lemma bus_reachable_inv s : bus_reachable s -> bus_inv s.
Proof.
  intros (id & Hrun). assert (bus_inv (MkBus (port_binding_new id) ∅)) as Hi.
  { by constructor. }
  induction Hrun; eauto using bus_step_inv.
Qed.

(** ** Properties *)

(** An epoch that has been live and is not the active one stays out. *)
Definition fenced (e : BindingEpoch) (b : PortBinding) : Prop :=
  (epoch_value e <= pb_last_live_epoch b)%N /\ epoch_of (pb_active b) <> Some e.

Lemma bus_step_fenced s s' e :
  bus_inv s -> bus_step s s' -> fenced e (bus_binding s) -> fenced e (bus_binding s').
Proof.
  intros Hi Hs [Hle Hne]. destruct (bus_step_effect _ _ Hi Hs) as (_ & _ & Hc).
  destruct Hi as [_ _ _ _ Hp]. destruct s as [b m], s' as [b' m']. simpl in *.
  destruct Hc as [|p Hn Hok| |p Hb Hsp Hsa|r epoch Hn Hnd Hr He Hsr|r Hr Hsr];
    destruct b as [i l p0 a d]; simpl in *; split; simpl; try done.
  - subst. destruct (Hp _ eq_refl) as (He & _). simpl in He. lia.
  - subst. destruct (Hp _ eq_refl) as (He & _). simpl in He. intros [= Heq]. rewrite Heq in He. lia.
  - lia.
Qed.

(** C18: Fencing by epoch: once a binding epoch has been replaced or revoked, an
    offer that names it is refused in every later state, whatever happened to
    the binding and to the mailboxes; the message comes back and no mailbox is
    touched. *)
Theorem stale_epoch_is_refused s s' e id message reading mb :
  bus_reachable s -> (epoch_value e <= pb_last_live_epoch (bus_binding s))%N ->
  epoch_of (pb_active (bus_binding s)) <> Some e -> rtc bus_step s s' ->
  exists err, offer (bus_binding s') id e message reading mb =
    (mb, Err (MkBindingOfferFailure err message)).
Proof.
  intros Hr Hle Hne Hrun.
  assert (fenced e (bus_binding s')) as [_ Hne'].
  { apply bus_reachable_inv in Hr. assert (fenced e (bus_binding s)) as Hf by done.
    clear Hle Hne. induction Hrun; eauto using bus_step_inv, bus_step_fenced. }
  rewrite offer_run. destruct (offer_checks (bus_binding s') id e mb) as [[]|err|] eqn:Hc;
    [|by eexists|by apply offer_checks_total in Hc].
  apply offer_checks_Ok in Hc as (_ & r & Hact & <- & _). by rewrite Hact in Hne'.
Qed.




(** What the binding demands of an assignment, beside the plan's own rules. *)
Lemma validate_fixture_assignment_Ok a u :
  validate_fixture_assignment a = Ok u <->
  port_direction (source_spec a) = Out /\ port_direction (target_spec a) = In /\
  port_schema (source_spec a) = port_schema (target_spec a) /\
  port_interaction (source_spec a) = port_interaction (target_spec a) /\
  delivery_overflow_policy (delivery a) = overflow_policy (binding_mailbox_spec a) /\
  (duration_value (max_queue_age (binding_mailbox_spec a)) <=
    duration_value (max_message_age (delivery a)))%N /\
  (max_payload_bytes (delivery a) <= capacity_bytes (binding_mailbox_spec a))%N /\
  (capacity_bytes (binding_mailbox_spec a) <= max_retained_bytes (binding_mailbox_spec a))%N /\
  (port_interaction (source_spec a) = Event -> delivery_overflow_policy (delivery a) = RejectNew) /\
  delivery_overflow_policy (delivery a) <> BlockUntilDeadline.
Proof.
  unfold validate_fixture_assignment. destruct u. split.
  - intros H. rust_inv. same_inv. split_and!; try done; try lia.
    intros Hev. match goal with H : bool_decide _ && _ = false |- _ => rename H into Hp end.
    rewrite bool_decide_eq_true_2 in Hp by done. by destruct (delivery_overflow_policy (delivery a)).
  - intros (-> & -> & -> & -> & -> & H1 & H2 & H3 & H4 & H5).
    rewrite !bool_decide_eq_false_2 by naive_solver. simpl.
    rewrite !(proj2 (N.ltb_ge _ _)) by done. simpl.
    destruct (source_spec a) as [? ? ? []], (target_spec a) as [? ? i []]; simpl in *.
    destruct i, (overflow_policy (binding_mailbox_spec a)); simpl;
      rewrite ?bool_decide_ne_refl; first [reflexivity|done|by specialize (H4 eq_refl)].
Qed.

(** ** A concrete binding *)

Module BindingDemo.
Definition id (n : N) : bytes16 := Demo.id16 n.
Definition spec : MailboxSpec :=
  MkMailboxSpec 2 10 (from_nanos 50) 1 12 RejectNew.
Definition target (mailbox : N) : BindingAssignment :=
  MkBindingAssignment (MkBindingId (id 40)) (MkInstanceRef (id 41)) (MkPortRef (id 42))
    (MkPortSpec Out Demo.demo_schema Event One) (MkInstanceRef (id 43)) (MkPortRef (id 44))
    (MkPortSpec In Demo.demo_schema Event One) (MkMailboxRef (id mailbox))
    (MkDeliveryProfile 8 (from_nanos 60) RejectNew) spec.
Definition box (mailbox : N) : Mailbox :=
  match mailbox_try_new (MkMailboxRef (id mailbox)) Demo.demo_schema Event spec
          Demo.demo_domain Demo.demo_generation with
  | Ok mb => mb
  | _ => Demo.events
  end.
Lemma box_fresh mailbox : fresh (box mailbox).
Proof.
  exists (MkMailboxRef (id mailbox)), Demo.demo_schema, Event, ClassEvent, spec, Demo.demo_domain,
    Demo.demo_generation. split; [done|]. reflexivity.
Defined.

(** A binding installed to mailbox 45 (epoch 1), then switched to mailbox 46
    (epoch 2), which leaves the first route drain-only. *)
Definition prepared1 := prepare (target 45) (box 45) None (port_binding_new (MkBindingId (id 40))).
Definition active1 := activate (MkBindingEpoch 1) (box 45) (fst prepared1, None).
Definition prepared2 := prepare (target 46) (box 46) (Some (MkBindingEpoch 1)) (fst (fst active1)).
Definition active2 := activate (MkBindingEpoch 2) (box 46) (fst prepared2, Some (box 45)).
Definition old_box : Mailbox := default (box 45) (snd (fst active2)).
Definition retired := retire_draining (MkBindingEpoch 1) old_box (fst (fst active2)).

Definition ref45 := MkMailboxRef (id 45).
Definition ref46 := MkMailboxRef (id 46).
Definition both : gmap MailboxRef Mailbox := <[ref46 := box 46]> (<[ref45 := box 45]> ∅).
Definition moved : Bus := MkBus (fst (fst active2)) (<[ref45 := old_box]> both).
Definition cleaned : Bus := MkBus (fst retired) (<[ref45 := old_box]> both).

Lemma moved_reachable : bus_reachable moved.
Proof.
  exists (MkBindingId (id 40)).
  eapply rtc_l; [apply (bus_create _ (box 45) (box_fresh 45)); reflexivity|].
  eapply rtc_l; [apply (bus_create _ (box 46) (box_fresh 46)); vm_compute; reflexivity|].
  eapply rtc_l; [eapply (bus_prepare _ ref45 (box 45) (target 45) None);
    [vm_compute; reflexivity|apply surjective_pairing]|].
  eapply rtc_l; [eapply (bus_activate_first _ ref45 (box 45) (MkBindingEpoch 1));
    [vm_compute; reflexivity|vm_compute; reflexivity]|].
  eapply rtc_l; [eapply (bus_prepare _ ref46 (box 46) (target 46) (Some (MkBindingEpoch 1)));
    [vm_compute; reflexivity|apply surjective_pairing]|].
  eapply rtc_l; [eapply (bus_activate_over _ ref46 (box 46) ref45 (box 45) (MkBindingEpoch 2));
    [vm_compute; reflexivity|vm_compute; reflexivity|discriminate|vm_compute; reflexivity]|].
  match goal with |- rtc _ ?x ?y => replace x with y by (vm_compute; reflexivity) end. constructor.
Defined.
Lemma moved_cleaned : rtc bus_step moved cleaned.
Proof.
  eapply rtc_l; [eapply (bus_retire _ ref45 old_box (MkBindingEpoch 1));
    [vm_compute; reflexivity|apply surjective_pairing]|].
  match goal with |- rtc _ ?x ?y => replace x with y by (vm_compute; reflexivity) end. constructor.
Defined.
End BindingDemo.
Import BindingDemo.

Lemma stale_epoch_is_refused_witness :
  exists err, offer (bus_binding cleaned) (MkBindingId (id 40)) (MkBindingEpoch 1) (Demo.msg 11 4 30 Event)
    (Demo.at_tick 10) (box 46) =
    (box 46, Err (MkBindingOfferFailure err (Demo.msg 11 4 30 Event))).
Proof.
  apply (stale_epoch_is_refused moved cleaned (MkBindingEpoch 1) _ _ _ _ moved_reachable).
  - vm_compute. discriminate.
  - vm_compute. discriminate.
  - apply moved_cleaned.
Defined.

