(* ===== verification/ExecutionPlan.v ===== *)
(** * Execution plans (crates/paraegox-runtime-contracts/src/execution.rs)

    The loop domains of a target and the mailbox executions planned for them:
    their constructors, the rules a plan obeys (unique records, eligible
    executions, bounded utilization), the references between a plan and the
    bindings of the same slice, the bound on the start of control work, and
    the slice and request that carry both bodies. *)

From Stdlib Require Import Strings.String.
From S2P Require Import Prelude Bytes Slices SortKeys KernelTime KernelDigest ApplyContracts ApplyWire Assignment AssignmentWire.
Open Scope rust_scope.

Definition TARGET_EXECUTION_PLAN_VERSION : N := 1.
Definition RUNTIME_APPLY_REQUEST_V2_VERSION : N := 2.
Definition MAX_LOOP_DOMAINS : N := 64.
Definition MAX_MAILBOX_EXECUTIONS : N := MAX_TARGET_ASSIGNMENTS.
Definition MAX_DOMAIN_OUTSTANDING : N := 65535.
Definition MAX_SERVICE_COST_TOKENS : N := 1000000.
Definition MAX_MINIMUM_SERVICE_WEIGHT : N := 1000000.
Definition MAX_ARRIVALS_PER_WINDOW : N := 1000000.
Definition MAX_EXECUTION_DURATION_NANOS : N := 86400000000000.
Definition TARGET_EXECUTION_MAGIC : list byte := ascii_bytes "PXTE".
Definition TARGET_EXECUTION_HEADER_BYTES : N := 14.
Definition LOOP_DOMAIN_RECORD_BYTES : N := 64.
Definition MAILBOX_EXECUTION_RECORD_BYTES : N := 236.
Definition APPLY_REQUEST_V2_HEADER_BYTES : N := 18.
Definition TARGET_EXECUTION_DIGEST_DOMAIN : list byte :=
  ascii_bytes "paraegox.runtime.target-execution.sha256.v1".
Definition TARGET_PLAN_ASSIGNMENTS_DIGEST_DOMAIN : list byte :=
  ascii_bytes "paraegox.runtime.target-plan-assignments.sha256.v2".
Definition MAX_TARGET_EXECUTION_PLAN_BYTES : N :=
  TARGET_EXECUTION_HEADER_BYTES + MAX_LOOP_DOMAINS * LOOP_DOMAIN_RECORD_BYTES
  + MAX_MAILBOX_EXECUTIONS * MAILBOX_EXECUTION_RECORD_BYTES.
Definition MAX_RUNTIME_APPLY_REQUEST_V2_BYTES : N :=
  APPLY_REQUEST_V2_HEADER_BYTES + MAX_RUNTIME_APPLY_ENVELOPE_BYTES + MAX_TARGET_ASSIGNMENTS_BYTES
  + MAX_TARGET_EXECUTION_PLAN_BYTES.
Definition u128_max : N := 2 ^ 128 - 1.

(** ** Data *)

Record DomainRef := MkDomainRef { domain_ref_bytes : bytes16 }.
Record CardDefinitionRef := MkCardDefinitionRef { card_definition_bytes : bytes16 }.
Record CardImplementationRef := MkCardImplementationRef { card_implementation_bytes : bytes16 }.
#[export] Instance DomainRef_eq_dec : EqDecision DomainRef.
Proof. solve_decision. Defined.
#[export] Instance CardDefinitionRef_eq_dec : EqDecision CardDefinitionRef.
Proof. solve_decision. Defined.
#[export] Instance CardImplementationRef_eq_dec : EqDecision CardImplementationRef.
Proof. solve_decision. Defined.
Record TargetExecutionDigest := MkTargetExecutionDigest { execution_digest_value : Digest32 }.
#[export] Instance TargetExecutionDigest_eq_dec : EqDecision TargetExecutionDigest.
Proof. solve_decision. Defined.

Inductive CallModel := CooperativeAsync | Synchronous | UnknownCallModel.
Inductive WorkloadKind := Io | Routing | Cpu | Native | Device | UnknownWorkload.
Inductive BlockingRisk := NoBlocking | BoundedBlocking | UnknownBlocking.
Inductive RunBoundProvenance := Declared | Measured | Certified | UnknownProvenance.
Inductive PlannedDispatchClass :=
| PlannedControl | PlannedInteractive | PlannedStream | PlannedBackground.
Inductive OverrunAction := Continue | CooperativeCancel | Escalate | OverrunUncertain.
#[export] Instance CallModel_eq_dec : EqDecision CallModel.
Proof. solve_decision. Defined.
#[export] Instance WorkloadKind_eq_dec : EqDecision WorkloadKind.
Proof. solve_decision. Defined.
#[export] Instance BlockingRisk_eq_dec : EqDecision BlockingRisk.
Proof. solve_decision. Defined.
#[export] Instance RunBoundProvenance_eq_dec : EqDecision RunBoundProvenance.
Proof. solve_decision. Defined.
#[export] Instance PlannedDispatchClass_eq_dec : EqDecision PlannedDispatchClass.
Proof. solve_decision. Defined.
#[export] Instance OverrunAction_eq_dec : EqDecision OverrunAction.
Proof. solve_decision. Defined.

Inductive ExecutionContractError :=
| InvalidMaxOutstanding
| InvalidControlReservation
| InvalidControlBudget
| InvalidDomainBudget
| InvalidServiceCost
| InvalidMinimumServiceWeight
| InvalidMaxBurst
| InvalidArrivalBound
| InvalidExecutionBudget
| RunBoundExceedsRunBudget
| ExecutionBudgetExceedsDomain
| DomainCountExceeded
| ExecutionCountExceeded
| MissingLoopDomain
| MissingMailboxExecution
| DuplicateDomainRef
| DuplicateExecutionBinding
| DuplicateExecutionMailbox
| OrphanDomainRef
| UnusedDomainRef
| UnsupportedLoopExecution
| UnsafeLoopOverrunAction
| SharedCapacityRequired
| ControlReservationRequired
| ControlUtilizationExceeded
| DomainUtilizationExceeded
| UtilizationOverflow
| ExecutionDigestFailed (e : DigestBuildError)
| ExecutionCanonicalWireMismatch
| ExecutionDigestMismatch.

Definition valid_duration (value : BoundedDuration) : bool :=
  (0 <? duration_value value)%N && (duration_value value <=? MAX_EXECUTION_DURATION_NANOS)%N.

Record LoopDomainCapacity := MkLoopDomainCapacity {
  cap_max_outstanding : N;
  cap_control_reserved : N;
  cap_capacity_window : BoundedDuration;
  cap_control_reserved_run_budget : BoundedDuration;
}.
#[export] Instance LoopDomainCapacity_eq_dec : EqDecision LoopDomainCapacity.
Proof. solve_decision. Defined.
Definition capacity_try_new (max_outstanding control_reserved : N)
    (capacity_window control_reserved_run_budget : BoundedDuration)
    : result ExecutionContractError LoopDomainCapacity :=
  bail InvalidMaxOutstanding when
    ((max_outstanding =? 0) || (MAX_DOMAIN_OUTSTANDING <? max_outstanding))%N;
  bail InvalidControlReservation when (max_outstanding <? control_reserved)%N;
  bail InvalidDomainBudget when negb (valid_duration capacity_window);
  bail InvalidControlBudget when
    ((control_reserved =? 0)%N && negb (duration_value control_reserved_run_budget =? 0)%N)
    || ((0 <? control_reserved)%N
        && (negb (valid_duration control_reserved_run_budget)
            || (duration_value capacity_window <? duration_value control_reserved_run_budget)%N));
  Ok (MkLoopDomainCapacity max_outstanding control_reserved capacity_window
        control_reserved_run_budget).

Record LoopLifecycleBudgets := MkLoopLifecycleBudgets {
  life_start_budget : BoundedDuration;
  life_drain_budget : BoundedDuration;
  life_cleanup_budget : BoundedDuration;
}.
#[export] Instance LoopLifecycleBudgets_eq_dec : EqDecision LoopLifecycleBudgets.
Proof. solve_decision. Defined.
Definition lifecycle_try_new (start_budget drain_budget cleanup_budget : BoundedDuration)
    : result ExecutionContractError LoopLifecycleBudgets :=
  bail InvalidDomainBudget when
    negb (valid_duration start_budget) || negb (valid_duration drain_budget)
    || negb (valid_duration cleanup_budget);
  Ok (MkLoopLifecycleBudgets start_budget drain_budget cleanup_budget).

Record LoopDomainSpec := MkLoopDomainSpec {
  spec_domain : DomainRef;
  spec_capacity : LoopDomainCapacity;
  spec_lifecycle : LoopLifecycleBudgets;
}.
#[export] Instance LoopDomainSpec_eq_dec : EqDecision LoopDomainSpec.
Proof. solve_decision. Defined.
Definition max_outstanding (self : LoopDomainSpec) : N := cap_max_outstanding (spec_capacity self).
Definition control_reserved (self : LoopDomainSpec) : N := cap_control_reserved (spec_capacity self).
Definition capacity_window (self : LoopDomainSpec) : N :=
  duration_value (cap_capacity_window (spec_capacity self)).
Definition control_reserved_run_budget (self : LoopDomainSpec) : N :=
  duration_value (cap_control_reserved_run_budget (spec_capacity self)).
Definition domain_cleanup_budget (self : LoopDomainSpec) : N :=
  duration_value (life_cleanup_budget (spec_lifecycle self)).

Record CardSubjectSpec := MkCardSubjectSpec {
  subject_definition : CardDefinitionRef;
  subject_implementation : CardImplementationRef;
  subject_definition_digest : Digest32;
  subject_artifact_digest : Digest32;
  subject_config_digest : Digest32;
}.
#[export] Instance CardSubjectSpec_eq_dec : EqDecision CardSubjectSpec.
Proof. solve_decision. Defined.

Record LoopExecutionRequirements := MkLoopExecutionRequirements {
  call_model : CallModel;
  workload_kind : WorkloadKind;
  blocking_risk : BlockingRisk;
  run_bound_provenance : RunBoundProvenance;
  max_nonpreemptive_run : BoundedDuration;
}.
#[export] Instance LoopExecutionRequirements_eq_dec : EqDecision LoopExecutionRequirements.
Proof. solve_decision. Defined.
Definition requirements_try_new (call_model : CallModel) (workload_kind : WorkloadKind)
    (blocking_risk : BlockingRisk) (run_bound_provenance : RunBoundProvenance)
    (max_nonpreemptive_run : BoundedDuration)
    : result ExecutionContractError LoopExecutionRequirements :=
  bail InvalidExecutionBudget when negb (valid_duration max_nonpreemptive_run);
  Ok (MkLoopExecutionRequirements call_model workload_kind blocking_risk run_bound_provenance
        max_nonpreemptive_run).
Definition requirements_loop_eligible (self : LoopExecutionRequirements) : bool :=
  match call_model self with CooperativeAsync => true | _ => false end
  && match workload_kind self with Io | Routing => true | _ => false end
  && match blocking_risk self with NoBlocking => true | _ => false end
  && match run_bound_provenance self with Measured | Certified => true | _ => false end.

Record CallbackBudgets := MkCallbackBudgets {
  callback_run_budget : BoundedDuration;
  callback_cleanup_budget : BoundedDuration;
  callback_overrun_action : OverrunAction;
}.
#[export] Instance CallbackBudgets_eq_dec : EqDecision CallbackBudgets.
Proof. solve_decision. Defined.
Definition callback_budgets_try_new (run_budget cleanup_budget : BoundedDuration)
    (overrun_action : OverrunAction) : result ExecutionContractError CallbackBudgets :=
  bail InvalidExecutionBudget when
    negb (valid_duration run_budget) || negb (valid_duration cleanup_budget);
  Ok (MkCallbackBudgets run_budget cleanup_budget overrun_action).

Record MailboxDispatchPolicy := MkMailboxDispatchPolicy {
  policy_dispatch_class : PlannedDispatchClass;
  policy_service_cost_tokens : N;
  policy_minimum_service_weight : N;
  policy_max_burst : N;
  policy_max_arrivals_per_window : N;
  policy_callback_budgets : CallbackBudgets;
}.
#[export] Instance MailboxDispatchPolicy_eq_dec : EqDecision MailboxDispatchPolicy.
Proof. solve_decision. Defined.
Definition dispatch_policy_try_new (dispatch_class : PlannedDispatchClass)
    (service_cost_tokens minimum_service_weight max_burst max_arrivals_per_window : N)
    (callback_budgets : CallbackBudgets) : result ExecutionContractError MailboxDispatchPolicy :=
  bail InvalidServiceCost when
    ((service_cost_tokens =? 0) || (MAX_SERVICE_COST_TOKENS <? service_cost_tokens))%N;
  bail InvalidMinimumServiceWeight when
    ((minimum_service_weight =? 0) || (MAX_MINIMUM_SERVICE_WEIGHT <? minimum_service_weight))%N;
  bail InvalidMaxBurst when (max_burst =? 0)%N;
  bail InvalidArrivalBound when
    ((max_arrivals_per_window =? 0) || (MAX_ARRIVALS_PER_WINDOW <? max_arrivals_per_window))%N;
  Ok (MkMailboxDispatchPolicy dispatch_class service_cost_tokens minimum_service_weight max_burst
        max_arrivals_per_window callback_budgets).

Record MailboxExecutionSpec := MkMailboxExecutionSpec {
  execution_binding_id : BindingId;
  execution_mailbox : MailboxRef;
  execution_target_instance : InstanceRef;
  execution_domain : DomainRef;
  execution_subject : CardSubjectSpec;
  execution_requirements : LoopExecutionRequirements;
  execution_dispatch : MailboxDispatchPolicy;
}.
#[export] Instance MailboxExecutionSpec_eq_dec : EqDecision MailboxExecutionSpec.
Proof. solve_decision. Defined.

(** Accessors that look through the parts. *)
Definition dispatch_class (self : MailboxExecutionSpec) : PlannedDispatchClass :=
  policy_dispatch_class (execution_dispatch self).
Definition service_cost_tokens (self : MailboxExecutionSpec) : N :=
  policy_service_cost_tokens (execution_dispatch self).
Definition minimum_service_weight (self : MailboxExecutionSpec) : N :=
  policy_minimum_service_weight (execution_dispatch self).
Definition max_burst (self : MailboxExecutionSpec) : N := policy_max_burst (execution_dispatch self).
Definition max_arrivals_per_window (self : MailboxExecutionSpec) : N :=
  policy_max_arrivals_per_window (execution_dispatch self).
Definition run_budget (self : MailboxExecutionSpec) : N :=
  duration_value (callback_run_budget (policy_callback_budgets (execution_dispatch self))).
Definition cleanup_budget (self : MailboxExecutionSpec) : N :=
  duration_value (callback_cleanup_budget (policy_callback_budgets (execution_dispatch self))).
Definition overrun_action (self : MailboxExecutionSpec) : OverrunAction :=
  callback_overrun_action (policy_callback_budgets (execution_dispatch self)).

Definition execution_try_new (binding_id : BindingId) (mailbox : MailboxRef)
    (target_instance : InstanceRef) (domain : DomainRef) (subject : CardSubjectSpec)
    (requirements : LoopExecutionRequirements) (dispatch : MailboxDispatchPolicy)
    : result ExecutionContractError MailboxExecutionSpec :=
  bail RunBoundExceedsRunBudget when
    (duration_value (callback_run_budget (policy_callback_budgets dispatch))
       <? duration_value (max_nonpreemptive_run requirements))%N;
  Ok (MkMailboxExecutionSpec binding_id mailbox target_instance domain subject requirements dispatch).

Definition is_loop_eligible (self : MailboxExecutionSpec) : bool :=
  requirements_loop_eligible (execution_requirements self).
Definition has_bounded_loop_overrun_response (self : MailboxExecutionSpec) : bool :=
  match overrun_action self with CooperativeCancel | Escalate => true | _ => false end.
Definition same_subject_contract (self other : MailboxExecutionSpec) : bool :=
  bool_decide (execution_target_instance self = execution_target_instance other)
  && bool_decide (execution_domain self = execution_domain other)
  && bool_decide (execution_subject self = execution_subject other)
  && bool_decide (execution_requirements self = execution_requirements other).

(** ** Rules of a plan *)

Definition validate_domain_utilization (domain : LoopDomainSpec) (mailboxes : list MailboxExecutionSpec)
    : result ExecutionContractError unit :=
  '(total, control) ← try_fold (fun '(total, control) execution =>
      bail ExecutionBudgetExceedsDomain when
        ((capacity_window domain <? run_budget execution)
         || (domain_cleanup_budget domain <? cleanup_budget execution))%N;
      callback_occupancy ←
        ok_or (checked_add u128_max (run_budget execution) (cleanup_budget execution))
          UtilizationOverflow;
      demand ← ok_or (checked_mul u128_max (max_arrivals_per_window execution) callback_occupancy)
        UtilizationOverflow;
      total ← ok_or (checked_add u128_max total demand) UtilizationOverflow;
      if bool_decide (dispatch_class execution = PlannedControl) then
        bail ControlReservationRequired when (control_reserved domain =? 0)%N;
        control ← ok_or (checked_add u128_max control demand) UtilizationOverflow;
        Ok (total, control)
      else Ok (total, control))
    (0%N, 0%N)
    (base.filter (fun execution => execution_domain execution = spec_domain domain) mailboxes);
  bail DomainUtilizationExceeded when (capacity_window domain <? total)%N;
  bail ControlUtilizationExceeded when (control_reserved_run_budget domain <? control)%N;
  bail SharedCapacityRequired when
    (control_reserved domain =? max_outstanding domain)%N
    && existsb (fun execution => bool_decide (execution_domain execution = spec_domain domain)
                  && bool_decide (dispatch_class execution <> PlannedControl)) mailboxes;
  Ok tt.

Definition check_previous_execution (execution previous : MailboxExecutionSpec)
    : result ExecutionContractError unit :=
  bail DuplicateExecutionBinding when
    bool_decide (execution_binding_id previous = execution_binding_id execution);
  bail DuplicateExecutionMailbox when
    bool_decide (execution_mailbox previous = execution_mailbox execution);
  Ok tt.
Definition validate_execution_records (domains : list LoopDomainSpec)
    (mailboxes : list MailboxExecutionSpec) : result ExecutionContractError unit :=
  _ ← try_fold (fun _ '(index, domain) =>
      fail_if (existsb (fun previous => bool_decide (spec_domain previous = spec_domain domain))
                 (take index domains)) DuplicateDomainRef) tt (enumerate domains);
  _ ← try_fold (fun _ '(index, execution) =>
      _ ← try_fold (fun _ previous => check_previous_execution execution previous) tt
            (take index mailboxes);
      bail OrphanDomainRef when
        negb (existsb (fun domain => bool_decide (spec_domain domain = execution_domain execution))
                domains);
      bail UnsupportedLoopExecution when negb (is_loop_eligible execution);
      fail_if (negb (has_bounded_loop_overrun_response execution)) UnsafeLoopOverrunAction)
    tt (enumerate mailboxes);
  try_fold (fun _ domain =>
      bail UnusedDomainRef when
        negb (existsb (fun execution => bool_decide (execution_domain execution = spec_domain domain))
                mailboxes);
      validate_domain_utilization domain mailboxes) tt domains.

(** ** Canonical body *)

(** The derived lexicographic order on pairs. *)
Definition pair_leb {A B : Type} `{OrdKey A, OrdKey B} (p q : A * B) : bool :=
  (key_leb (fst p) (fst q) && negb (key_leb (fst q) (fst p)))
  || (key_leb (fst p) (fst q) && key_leb (snd p) (snd q)).
#[export] Instance pair_ord_key {A B : Type} `{OrdKey A, OrdKey B} : OrdKey (A * B).
Proof.
  refine {| key_leb := pair_leb |}; unfold pair_leb.
  - intros [a b] [a' b']; simpl. destruct (key_leb_total a a') as [E|E], (key_leb_total b b') as [F|F];
      rewrite ?E, ?F; destruct (key_leb a a'), (key_leb a' a); simpl; auto.
  - intros [a b] [a' b'] [a'' b'']; simpl. rewrite !orb_true_iff, !andb_true_iff, !negb_true_iff.
    intros [[H1 H2]|[H1 H2]] [[H3 H4]|[H3 H4]]; assert (key_leb a a'' = true) by (by eapply key_leb_trans).
    1-3: left; split; [done|]; apply not_true_is_false; intros Hback.
    + assert (key_leb a' a = true) by (eapply key_leb_trans; [exact H3|done]). congruence.
    + assert (key_leb a' a = true) by (eapply key_leb_trans; [exact H3|done]). congruence.
    + assert (key_leb a'' a' = true) by (eapply key_leb_trans; [exact Hback|done]). congruence.
    + right. split; [done|]. by eapply key_leb_trans.
Defined.

Definition domain_key (domain : LoopDomainSpec) : bytes16 := domain_ref_bytes (spec_domain domain).
Definition execution_key (execution : MailboxExecutionSpec) : bytes16 * (bytes16 * (bytes16 * bytes16)) :=
  (binding_id_bytes (execution_binding_id execution),
   (mailbox_ref_bytes (execution_mailbox execution),
    (instance_ref_bytes (execution_target_instance execution),
     domain_ref_bytes (execution_domain execution)))).

Definition call_model_u8 (v : CallModel) : N :=
  match v with CooperativeAsync => 1 | Synchronous => 2 | UnknownCallModel => 3 end.
Definition workload_kind_u8 (v : WorkloadKind) : N :=
  match v with
  | Io => 1 | Routing => 2 | Cpu => 3 | Native => 4 | Device => 5 | UnknownWorkload => 6
  end.
Definition blocking_risk_u8 (v : BlockingRisk) : N :=
  match v with NoBlocking => 1 | BoundedBlocking => 2 | UnknownBlocking => 3 end.
Definition run_bound_provenance_u8 (v : RunBoundProvenance) : N :=
  match v with Declared => 1 | Measured => 2 | Certified => 3 | UnknownProvenance => 4 end.
Definition dispatch_class_u8 (v : PlannedDispatchClass) : N :=
  match v with
  | PlannedControl => 1 | PlannedInteractive => 2 | PlannedStream => 3 | PlannedBackground => 4
  end.
Definition overrun_action_u8 (v : OverrunAction) : N :=
  match v with Continue => 1 | CooperativeCancel => 2 | Escalate => 3 | OverrunUncertain => 4 end.

Definition append_domain_record (encoded : list byte) (domain : LoopDomainSpec) : list byte :=
  encoded
  ++ vec_to_list (domain_ref_bytes (spec_domain domain))
  ++ be_bytes 4 (max_outstanding domain)
  ++ be_bytes 4 (control_reserved domain)
  ++ be_bytes 8 (capacity_window domain)
  ++ be_bytes 8 (control_reserved_run_budget domain)
  ++ be_bytes 8 (duration_value (life_start_budget (spec_lifecycle domain)))
  ++ be_bytes 8 (duration_value (life_drain_budget (spec_lifecycle domain)))
  ++ be_bytes 8 (domain_cleanup_budget domain).

Definition append_mailbox_execution_record (encoded : list byte) (execution : MailboxExecutionSpec)
    : list byte :=
  let subject := execution_subject execution in
  let requirements := execution_requirements execution in
  encoded
  ++ vec_to_list (binding_id_bytes (execution_binding_id execution))
  ++ vec_to_list (mailbox_ref_bytes (execution_mailbox execution))
  ++ vec_to_list (instance_ref_bytes (execution_target_instance execution))
  ++ vec_to_list (domain_ref_bytes (execution_domain execution))
  ++ vec_to_list (card_definition_bytes (subject_definition subject))
  ++ vec_to_list (card_implementation_bytes (subject_implementation subject))
  ++ vec_to_list (digest_bytes (subject_definition_digest subject))
  ++ vec_to_list (digest_bytes (subject_artifact_digest subject))
  ++ vec_to_list (digest_bytes (subject_config_digest subject))
  ++ be_bytes 1 (call_model_u8 (call_model requirements))
  ++ be_bytes 1 (workload_kind_u8 (workload_kind requirements))
  ++ be_bytes 1 (blocking_risk_u8 (blocking_risk requirements))
  ++ be_bytes 1 (run_bound_provenance_u8 (run_bound_provenance requirements))
  ++ be_bytes 1 (dispatch_class_u8 (dispatch_class execution))
  ++ be_bytes 4 (service_cost_tokens execution)
  ++ be_bytes 4 (minimum_service_weight execution)
  ++ be_bytes 2 (max_burst execution)
  ++ be_bytes 4 (max_arrivals_per_window execution)
  ++ be_bytes 8 (duration_value (max_nonpreemptive_run requirements))
  ++ be_bytes 8 (run_budget execution)
  ++ be_bytes 8 (cleanup_budget execution)
  ++ be_bytes 1 (overrun_action_u8 (overrun_action execution)).

Definition build_target_execution_wire (domains : list LoopDomainSpec)
    (mailboxes : list MailboxExecutionSpec) : list byte :=
  fold_left append_mailbox_execution_record mailboxes
    (fold_left append_domain_record domains
      (TARGET_EXECUTION_MAGIC
       ++ be_bytes 2 TARGET_EXECUTION_PLAN_VERSION
       ++ be_bytes 4 (len domains mod 2 ^ 32)
       ++ be_bytes 4 (len mailboxes mod 2 ^ 32))).

Record TargetExecutionPlan := MkTargetExecutionPlan {
  plan_domains : list LoopDomainSpec;
  plan_mailboxes : list MailboxExecutionSpec;
  plan_canonical_wire : list byte;
  plan_execution_digest : TargetExecutionDigest;
}.
#[export] Instance TargetExecutionPlan_eq_dec : EqDecision TargetExecutionPlan.
Proof. solve_decision. Defined.

Section plan.
Context (sha256 : list byte -> bytes32).

Definition digest_target_execution (canonical_wire : list byte)
    : result DigestBuildError TargetExecutionDigest :=
  builder ← digest_try_new TARGET_EXECUTION_DIGEST_DOMAIN;
  builder ← field_bytes builder canonical_wire;
  Ok (MkTargetExecutionDigest (finish sha256 builder)).

Definition execution_plan_try_new (domains : list LoopDomainSpec)
    (mailboxes : list MailboxExecutionSpec) : result ExecutionContractError TargetExecutionPlan :=
  bail MissingLoopDomain when bool_decide (domains = []);
  bail MissingMailboxExecution when bool_decide (mailboxes = []);
  bail DomainCountExceeded when (MAX_LOOP_DOMAINS <? len domains)%N;
  bail ExecutionCountExceeded when (MAX_MAILBOX_EXECUTIONS <? len mailboxes)%N;
  let domains := sort_by_key domain_key domains in
  let mailboxes := sort_by_key execution_key mailboxes in
  _ ← validate_execution_records domains mailboxes;
  let canonical_wire := build_target_execution_wire domains mailboxes in
  execution_digest ← map_err ExecutionDigestFailed (digest_target_execution canonical_wire);
  Ok (MkTargetExecutionPlan domains mailboxes canonical_wire execution_digest).

Definition execution_plan_validate (self : TargetExecutionPlan) : result ExecutionContractError unit :=
  rebuilt ← execution_plan_try_new (plan_domains self) (plan_mailboxes self);
  bail ExecutionCanonicalWireMismatch when
    bool_decide (plan_domains rebuilt <> plan_domains self)
    || bool_decide (plan_mailboxes rebuilt <> plan_mailboxes self);
  bail ExecutionCanonicalWireMismatch when
    bool_decide (plan_canonical_wire rebuilt <> plan_canonical_wire self);
  bail ExecutionDigestMismatch when
    bool_decide (plan_execution_digest rebuilt <> plan_execution_digest self);
  Ok tt.
End plan.

(** ** A plan beside the bindings of its slice *)

Inductive TargetPlanContractError :=
| PlanBindings (e : AssignmentContractError)
| PlanExecution (e : ExecutionContractError)
| OrphanBinding
| BindingMailboxMismatch
| BindingTargetMismatch
| BlockUntilDeadlineForbidden
| SubjectExecutionMismatch
| ControlStartSloExceeded
| CompositeDigestMismatch
| PlanSliceAssignmentDigestMismatch
| PlanEnvelopeSliceMismatch
| PlanProvenance (e : ProvenanceContractError)
| PlanEnvelope (e : EnvelopeContractError)
| PlanDigest (e : DigestBuildError)
| PlanRequestFrameTooLarge
| PlanRequestCanonicalWireMismatch.

Definition callback_occupancy (execution : MailboxExecutionSpec) : option N :=
  checked_add u128_max (run_budget execution) (cleanup_budget execution).
Definition checked_ceil_div (value divisor : N) : option N :=
  pad ← checked_sub divisor 1;
  total ← checked_add u128_max value pad;
  if (divisor =? 0)%N then None else Some (total / divisor)%N.

Definition find_binding (bindings : list BindingAssignment) (id : BindingId) : option BindingAssignment :=
  snd <$> list_find (fun binding => binding_id binding = id) bindings.

(** The carry-in loop over the executions of the domain. *)
Definition control_carry_in (mailboxes : list MailboxExecutionSpec)
    : result TargetPlanContractError N :=
  try_fold (fun carry_in candidate =>
      occupancy ← ok_or (callback_occupancy candidate) ControlStartSloExceeded;
      let nonpreemptive := duration_value (max_nonpreemptive_run (execution_requirements candidate)) in
      Ok (N.max carry_in (N.max occupancy nonpreemptive))) 0%N mailboxes.
(** The delay the peers of the control mailbox add to [wait_bound]. *)
Definition control_peers (bindings : list BindingAssignment) (arrival_horizon wait_bound : N)
    (peers : list MailboxExecutionSpec) : result TargetPlanContractError N :=
  try_fold (fun wait_bound peer =>
      peer_binding ← ok_or (find_binding bindings (execution_binding_id peer)) OrphanBinding;
      horizon_arrivals ← ok_or (checked_mul u128_max arrival_horizon (max_arrivals_per_window peer))
        ControlStartSloExceeded;
      peer_work ← ok_or (checked_add u128_max (capacity_items (binding_mailbox_spec peer_binding))
                           horizon_arrivals) ControlStartSloExceeded;
      occupancy ← ok_or (callback_occupancy peer) ControlStartSloExceeded;
      peer_delay ← ok_or (checked_mul u128_max peer_work occupancy) ControlStartSloExceeded;
      ok_or (checked_add u128_max wait_bound peer_delay) ControlStartSloExceeded)
    wait_bound peers.
Definition check_control_start (bindings : list BindingAssignment) (domains : list LoopDomainSpec)
    (mailboxes : list MailboxExecutionSpec) (control : MailboxExecutionSpec)
    : result TargetPlanContractError unit :=
  domain ← ok_or (snd <$> list_find (fun domain => spec_domain domain = execution_domain control) domains)
    ControlStartSloExceeded;
  control_binding ← ok_or (find_binding bindings (execution_binding_id control)) OrphanBinding;
  let slo := duration_value (max_queue_age (binding_mailbox_spec control_binding)) in
  let window := capacity_window domain in
  arrival_horizon ← ok_or (windows ← checked_ceil_div slo window; checked_add u128_max windows 1)
    ControlStartSloExceeded;
  let local := base.filter (fun mailbox => execution_domain mailbox = spec_domain domain) mailboxes in
  carry_in ← control_carry_in local;
  control_occupancy ← ok_or (callback_occupancy control) ControlStartSloExceeded;
  own_ahead ← ok_or (checked_sub (capacity_items (binding_mailbox_spec control_binding)) 1)
    ControlStartSloExceeded;
  own_delay ← ok_or (checked_mul u128_max own_ahead control_occupancy) ControlStartSloExceeded;
  wait_bound ← ok_or (checked_add u128_max carry_in own_delay) ControlStartSloExceeded;
  wait_bound ← control_peers bindings arrival_horizon wait_bound
    (base.filter (fun mailbox => execution_domain mailbox = spec_domain domain /\
                    execution_binding_id mailbox <> execution_binding_id control) mailboxes);
  bail ControlStartSloExceeded when (slo <=? wait_bound)%N;
  Ok tt.
Definition validate_control_start_slo (bindings : TargetAssignments) (execution : TargetExecutionPlan)
    : result TargetPlanContractError unit :=
  try_fold (fun _ control =>
      check_control_start (assignments bindings) (plan_domains execution) (plan_mailboxes execution)
        control) tt
    (base.filter (fun mailbox => dispatch_class mailbox = PlannedControl) (plan_mailboxes execution)).

Definition check_reference (bindings : list BindingAssignment) (mailbox : MailboxExecutionSpec)
    : result TargetPlanContractError unit :=
  binding ← ok_or (find_binding bindings (execution_binding_id mailbox)) OrphanBinding;
  bail BindingMailboxMismatch when bool_decide (mailbox_ref binding <> execution_mailbox mailbox);
  bail BindingTargetMismatch when
    bool_decide (target_instance binding <> execution_target_instance mailbox);
  Ok tt.
Definition validate_target_plan_references (bindings : TargetAssignments)
    (execution : TargetExecutionPlan) : result TargetPlanContractError unit :=
  bail BlockUntilDeadlineForbidden when
    existsb (fun binding =>
        bool_decide (delivery_overflow_policy (delivery binding) = BlockUntilDeadline)
        || bool_decide (overflow_policy (binding_mailbox_spec binding) = BlockUntilDeadline))
      (assignments bindings);
  _ ← try_fold (fun _ mailbox => check_reference (assignments bindings) mailbox) tt
        (plan_mailboxes execution);
  _ ← try_fold (fun _ '(index, record) =>
        fail_if (existsb (fun previous =>
            bool_decide (execution_target_instance previous = execution_target_instance record)
            && negb (same_subject_contract previous record)) (take index (plan_mailboxes execution)))
          SubjectExecutionMismatch) tt (enumerate (plan_mailboxes execution));
  validate_control_start_slo bindings execution.

Record TargetPlanAssignments := MkTargetPlanAssignments {
  tp_bindings : TargetAssignments;
  tp_execution : TargetExecutionPlan;
  tp_assignment_digest : TargetAssignmentDigest;
}.
#[export] Instance TargetPlanAssignments_eq_dec : EqDecision TargetPlanAssignments.
Proof. solve_decision. Defined.

Section assignments.
Context (sha256 : list byte -> bytes32).

Definition digest_target_plan_assignments (bindings : TargetAssignments)
    (execution : TargetExecutionPlan) : result DigestBuildError TargetAssignmentDigest :=
  builder ← digest_try_new TARGET_PLAN_ASSIGNMENTS_DIGEST_DOMAIN;
  builder ← field_bytes builder (vec_to_list (digest_bytes (assignment_digest_value (ta_assignment_digest bindings))));
  builder ← field_bytes builder
    (vec_to_list (digest_bytes (execution_digest_value (plan_execution_digest execution))));
  Ok (MkTargetAssignmentDigest (finish sha256 builder)).

Definition target_plan_try_new (bindings : TargetAssignments) (execution : TargetExecutionPlan)
    : result TargetPlanContractError TargetPlanAssignments :=
  _ ← map_err PlanBindings (target_assignments_validate sha256 bindings);
  _ ← map_err PlanExecution (execution_plan_validate sha256 execution);
  _ ← validate_target_plan_references bindings execution;
  assignment_digest ← map_err PlanDigest (digest_target_plan_assignments bindings execution);
  Ok (MkTargetPlanAssignments bindings execution assignment_digest).

Definition target_plan_validate (self : TargetPlanAssignments) : result TargetPlanContractError unit :=
  _ ← map_err PlanBindings (target_assignments_validate sha256 (tp_bindings self));
  _ ← map_err PlanExecution (execution_plan_validate sha256 (tp_execution self));
  _ ← validate_target_plan_references (tp_bindings self) (tp_execution self);
  assignment_digest ← map_err PlanDigest
    (digest_target_plan_assignments (tp_bindings self) (tp_execution self));
  bail CompositeDigestMismatch when bool_decide (assignment_digest <> tp_assignment_digest self);
  Ok tt.
End assignments.

(** ** The slice and the request that carry both bodies *)

Record RuntimePlanSliceV2 := MkRuntimePlanSliceV2 {
  v2_commitment : RuntimeSliceCommitment;
  v2_assignments : TargetPlanAssignments;
}.
Record RuntimeApplyRequestV2 := MkRuntimeApplyRequestV2 {
  v2_envelope : RuntimeApplyEnvelope;
  v2_slice : RuntimePlanSliceV2;
  v2_canonical_wire : list byte;
}.
#[export] Instance RuntimePlanSliceV2_eq_dec : EqDecision RuntimePlanSliceV2.
Proof. solve_decision. Defined.

Definition build_runtime_apply_request_v2_wire (envelope : RuntimeApplyEnvelope)
    (slice : RuntimePlanSliceV2) : list byte :=
  let binding_wire := ta_canonical_wire (tp_bindings (v2_assignments slice)) in
  let execution_wire := plan_canonical_wire (tp_execution (v2_assignments slice)) in
  RUNTIME_APPLY_REQUEST_MAGIC
  ++ be_bytes 2 RUNTIME_APPLY_REQUEST_V2_VERSION
  ++ be_bytes 4 (len (env_canonical_wire envelope) mod 2 ^ 32)
  ++ be_bytes 4 (len binding_wire mod 2 ^ 32)
  ++ be_bytes 4 (len execution_wire mod 2 ^ 32)
  ++ env_canonical_wire envelope
  ++ binding_wire
  ++ execution_wire.

Section request.
Context (sha256 : list byte -> bytes32).

Definition slice_v2_validate (self : RuntimePlanSliceV2) : result TargetPlanContractError unit :=
  _ ← map_err PlanProvenance (slice_commitment_validate sha256 (v2_commitment self));
  _ ← target_plan_validate sha256 (v2_assignments self);
  bail PlanSliceAssignmentDigestMismatch when bool_decide
    (assignment_digest (header (v2_commitment self)) <> tp_assignment_digest (v2_assignments self));
  Ok tt.
Definition slice_v2_try_new (commitment : RuntimeSliceCommitment) (assignments : TargetPlanAssignments)
    : result TargetPlanContractError RuntimePlanSliceV2 :=
  _ ← map_err PlanProvenance (slice_commitment_validate sha256 commitment);
  _ ← target_plan_validate sha256 assignments;
  bail PlanSliceAssignmentDigestMismatch when bool_decide
    (assignment_digest (header commitment) <> tp_assignment_digest assignments);
  Ok (MkRuntimePlanSliceV2 commitment assignments).

Definition request_v2_try_new (envelope : RuntimeApplyEnvelope) (plan : RuntimePlanSliceV2)
    : result TargetPlanContractError RuntimeApplyRequestV2 :=
  _ ← map_err PlanEnvelope (envelope_validate sha256 envelope);
  _ ← slice_v2_validate plan;
  bail PlanEnvelopeSliceMismatch when
    bool_decide (slice (env_control_commitment envelope) <> v2_commitment plan);
  let canonical_wire := build_runtime_apply_request_v2_wire envelope plan in
  bail PlanRequestFrameTooLarge when (MAX_RUNTIME_APPLY_REQUEST_V2_BYTES <? len canonical_wire)%N;
  Ok (MkRuntimeApplyRequestV2 envelope plan canonical_wire).
Definition request_v2_validate (self : RuntimeApplyRequestV2) : result TargetPlanContractError unit :=
  _ ← map_err PlanEnvelope (envelope_validate sha256 (v2_envelope self));
  _ ← slice_v2_validate (v2_slice self);
  bail PlanEnvelopeSliceMismatch when
    bool_decide (slice (env_control_commitment (v2_envelope self)) <> v2_commitment (v2_slice self));
  bail PlanRequestCanonicalWireMismatch when bool_decide
    (build_runtime_apply_request_v2_wire (v2_envelope self) (v2_slice self) <> v2_canonical_wire self);
  Ok tt.
End request.
