(* ===== verification/LoopDomain.v ===== *)
(** * Loop domains: data and operations (crates/paraegox-runtime/src/loop_domain.rs)

    The owner of the mailboxes planned for one loop domain, with their port
    bindings, the dispatch policy over them and the permits that bound the
    callbacks in flight.  Messages come in through the bindings; a dispatch
    hands out a grant (an in-flight message and a permit), which comes back as
    a mailbox terminal first and then as a released permit. *)

From S2P Require Import Prelude Bytes KernelTime KernelDigest Assignment CardInstance MailboxModel PortBinding DispatchPermits DispatchModel ExecutionPlan.
Open Scope rust_scope.

(** ** Data *)

Inductive LoopDomainError :=
| MissingExecution
| TooManyExecutions
| ExecutionDomainMismatch
| DuplicateExecutionBinding
| DuplicateExecutionMailbox
| MissingBinding
| DuplicateBinding
| BindingMailboxMismatch
| BindingTargetMismatch
| UnsupportedBindingPolicy
| UnsupportedCallModel
| UnsupportedWorkloadKind
| UnsupportedBlockingRisk
| UnsupportedRunBoundProvenance
| UnsupportedOverrunAction
| SharedCapacityRequired
| UnknownBinding
| IngressMismatch
| UnknownMailbox
| ClockDomainMismatch
| ClockGenerationMismatch
| GrantMismatch
| CallbackAlreadyClaimed
| ShutdownRequiresDraining
| CallerReleaseRequired
| DispatchInvariant
| CounterOverflow
| StateInconsistent
| DomainMailboxError (e : MailboxError)
| DomainBindingError (e : PortBindingError)
| DomainDispatchError (e : DispatcherError)
| DomainPermitError (e : PermitError).

(** The marker inside [permit_ledger] is the address of the [Arc] that
    [DomainPermitLedgerId::new] allocates. *)
Record LoopDomainOwnerIdentity := MkLoopDomainOwnerIdentity {
  owner_planned_domain : DomainRef;
  owner_domain_epoch : DomainEpoch;
  owner_permit_ledger : DomainPermitLedgerId;
}.
#[export] Instance LoopDomainOwnerIdentity_eq_dec : EqDecision LoopDomainOwnerIdentity.
Proof. solve_decision. Defined.

Record DomainMailbox := MkDomainMailbox {
  dm_mailbox : Mailbox;
  dm_execution : MailboxExecutionSpec;
  dm_assignment : BindingAssignment;
  dm_binding : PortBinding;
  dm_active_epoch : option BindingEpoch;
  dm_draining_epoch : option BindingEpoch;
}.
Definition set_dm_mailbox (v : Mailbox) (e : DomainMailbox) : DomainMailbox :=
  let '(MkDomainMailbox _ x a b p q) := e in MkDomainMailbox v x a b p q.
Definition set_dm_binding (v : PortBinding) (e : DomainMailbox) : DomainMailbox :=
  let '(MkDomainMailbox m x a _ p q) := e in MkDomainMailbox m x a v p q.
Definition set_dm_epochs (active draining : option BindingEpoch) (e : DomainMailbox) : DomainMailbox :=
  let '(MkDomainMailbox m x a b _ _) := e in MkDomainMailbox m x a b active draining.

Inductive LoopDomainLifecycle := DomainAccepting | DomainDraining | DomainClosed.

Record LoopDomainSnapshot := MkLoopDomainSnapshot {
  ld_planned_domain : DomainRef;
  ld_domain_epoch : DomainEpoch;
  ld_clock_domain : ClockDomainRef;
  ld_clock_generation : ClockGeneration;
  ld_lifecycle : LoopDomainLifecycle;
  ld_mailbox_count : N;
  ld_active_bindings : N;
  ld_draining_bindings : N;
  ld_queued_items : N;
  ld_queued_bytes : N;
  ld_inflight_items : N;
  ld_inflight_bytes : N;
  ld_retained_bytes : N;
  ld_permits : DomainPermitSnapshot;
}.
Definition is_zero_cleanup {E : Type} (self : LoopDomainSnapshot) : result E bool :=
  if match ld_lifecycle self with DomainClosed => true | _ => false end
     && (ld_queued_items self =? 0)%N && (ld_queued_bytes self =? 0)%N
     && (ld_inflight_items self =? 0)%N && (ld_inflight_bytes self =? 0)%N
     && (ld_retained_bytes self =? 0)%N && (ld_active_bindings self =? 0)%N
     && (ld_draining_bindings self =? 0)%N
  then used ← in_use (ld_permits self); Ok (used =? 0)%N
  else Ok false.

Record LoopDomainGrant := MkLoopDomainGrant {
  lg_owner : LoopDomainOwnerIdentity;
  lg_clock_domain : ClockDomainRef;
  lg_clock_generation : ClockGeneration;
  lg_execution : MailboxExecutionSpec;
  lg_target_port : PortRef;
  lg_inflight : InflightToken;
  lg_permit : DomainPermitToken;
  lg_callback_claimed : bool;
}.
Definition set_claimed (v : bool) (g : LoopDomainGrant) : LoopDomainGrant :=
  let '(MkLoopDomainGrant a b c d e f h _) := g in MkLoopDomainGrant a b c d e f h v.

Definition claim_callback : M LoopDomainGrant LoopDomainError unit :=
  _ ← read (fun self => fail_if (lg_callback_claimed self) CallbackAlreadyClaimed);
  modify (set_claimed true).

Definition pre_run_terminal (self : LoopDomainGrant) (reading : ClockReading)
    : result LoopDomainError (option TerminalReason) :=
  bail ClockDomainMismatch when bool_decide (reading_domain reading <> lg_clock_domain self);
  bail ClockGenerationMismatch when
    bool_decide (reading_generation reading <> lg_clock_generation self);
  let message := token_message (lg_inflight self) in
  expired ← map_err (fun _ => StateInconsistent) (is_expired_at (msg_run_deadline message) reading);
  if (expired : bool) then Ok (Some RunDeadlineExpired)
  else
    stale ← map_err (fun _ => StateInconsistent) (is_expired_at (msg_fresh_until message) reading);
    if (stale : bool) then Ok (Some StaleBeforeRun) else Ok None.

Record LoopDomainRelease := MkLoopDomainRelease {
  lr_owner : LoopDomainOwnerIdentity;
  lr_clock_domain : ClockDomainRef;
  lr_clock_generation : ClockGeneration;
  lr_execution : MailboxExecutionSpec;
  lr_terminal : TerminalRecord;
  lr_permit : DomainPermitToken;
}.
Definition set_lr_permit (v : DomainPermitToken) (r : LoopDomainRelease) : LoopDomainRelease :=
  let '(MkLoopDomainRelease a b c d e _) := r in MkLoopDomainRelease a b c d e v.
Record LoopDomainIngress := MkLoopDomainIngress {
  li_owner : LoopDomainOwnerIdentity;
  li_binding_id : BindingId;
  li_binding_epoch : BindingEpoch;
}.
Inductive LoopDomainDispatchOutcome :=
| DomainStarted (grant : LoopDomainGrant)
| DomainIdle (reason : DispatchIdleReason).
Record LoopDomainDispatchReport := MkLoopDomainDispatchReport {
  ldr_outcome : LoopDomainDispatchOutcome;
  ldr_terminals : list TerminalRecord;
}.
Record LoopDomainOfferFailure := MkLoopDomainOfferFailure {
  lof_error : LoopDomainError;
  lof_message : ValidatedMessage;
}.
Record LoopDomainFinishFailure := MkLoopDomainFinishFailure {
  lff_error : LoopDomainError;
  lff_grant : LoopDomainGrant;
}.

Lemma MkBindingId_bytes i : MkBindingId (binding_id_bytes i) = i.
Proof. by destruct i. Qed.
#[export] Instance BindingId_countable : Countable BindingId :=
  inj_countable' (H := byte_array_countable 16) binding_id_bytes MkBindingId MkBindingId_bytes.

Record LoopDomainCore := MkLoopDomainCore {
  ldc_spec : LoopDomainSpec;
  ldc_domain_epoch : DomainEpoch;
  ldc_owner : LoopDomainOwnerIdentity;
  ldc_clock_domain : ClockDomainRef;
  ldc_clock_generation : ClockGeneration;
  ldc_mailboxes : gmap MailboxRef DomainMailbox;
  ldc_binding_index : gmap BindingId MailboxRef;
  ldc_dispatch : DispatchPolicy;
  ldc_permits : DomainPermitLedger;
}.
Definition set_ldc_mailboxes (v : gmap MailboxRef DomainMailbox) (c : LoopDomainCore) : LoopDomainCore :=
  let '(MkLoopDomainCore a b d e f _ h i j) := c in MkLoopDomainCore a b d e f v h i j.
Definition set_ldc_dispatch (v : DispatchPolicy) (c : LoopDomainCore) : LoopDomainCore :=
  let '(MkLoopDomainCore a b d e f g h _ j) := c in MkLoopDomainCore a b d e f g h v j.
Definition set_ldc_permits (v : DomainPermitLedger) (c : LoopDomainCore) : LoopDomainCore :=
  let '(MkLoopDomainCore a b d e f g h i _) := c in MkLoopDomainCore a b d e f g h i v.

(** ** Construction *)

Definition validate_execution (spec : LoopDomainSpec) (execution : MailboxExecutionSpec)
    : result LoopDomainError unit :=
  let requirements := execution_requirements execution in
  bail ExecutionDomainMismatch when bool_decide (execution_domain execution <> spec_domain spec);
  bail UnsupportedCallModel when bool_decide (call_model requirements <> CooperativeAsync);
  bail UnsupportedWorkloadKind when
    negb (match workload_kind requirements with Io | Routing => true | _ => false end);
  bail UnsupportedBlockingRisk when bool_decide (blocking_risk requirements <> NoBlocking);
  bail UnsupportedRunBoundProvenance when
    negb (match run_bound_provenance requirements with Measured | Certified => true | _ => false end);
  bail UnsupportedOverrunAction when
    negb (match overrun_action execution with CooperativeCancel | Escalate => true | _ => false end);
  Ok tt.

Definition validate_binding (execution : MailboxExecutionSpec) (binding : BindingAssignment)
    : result LoopDomainError unit :=
  bail BindingMailboxMismatch when bool_decide (mailbox_ref binding <> execution_mailbox execution);
  bail BindingTargetMismatch when
    bool_decide (target_instance binding <> execution_target_instance execution);
  bail UnsupportedBindingPolicy when
    bool_decide (delivery_overflow_policy (delivery binding) = BlockUntilDeadline)
    || bool_decide (overflow_policy (binding_mailbox_spec binding) = BlockUntilDeadline);
  Ok tt.

Definition map_dispatch_class (class : PlannedDispatchClass) : DispatchClass :=
  match class with
  | PlannedControl => Control
  | PlannedInteractive => Interactive
  | PlannedStream => Stream
  | PlannedBackground => Background
  end.

(** The local variables of the construction loop. *)
Record DomainBuild := MkDomainBuild {
  build_execution_bindings : gset BindingId;
  build_execution_mailboxes : gset MailboxRef;
  build_slot_specs : list DispatchSlotSpec;
  build_class_quantum : per_class N;
  build_class_burst : per_class N;
  build_mailboxes : gmap MailboxRef DomainMailbox;
  build_binding_index : gmap BindingId MailboxRef;
}.
Definition build_empty : DomainBuild :=
  MkDomainBuild ∅ ∅ [] (PerClass 0%N 0%N 0%N 0%N) (PerClass 0%N 0%N 0%N 0%N) ∅ ∅.

(** A call on a local variable: its new value with the result. *)
Definition on_local {S E F A : Type} (wrap : E -> F) (m : M S E A) (s : S) : result F (S * A) :=
  let '(s', res) := m s in a ← map_err wrap res; Ok (s', a).

(** The mailbox of one execution, with its binding installed and active. *)
Definition install_entry (execution : MailboxExecutionSpec) (binding : BindingAssignment)
    (clock_domain : ClockDomainRef) (clock_generation : ClockGeneration)
    : result LoopDomainError DomainMailbox :=
  mailbox ← map_err DomainMailboxError (mailbox_try_new (mailbox_ref binding)
    (port_schema (target_spec binding)) (port_interaction (target_spec binding))
    (binding_mailbox_spec binding) clock_domain clock_generation);
  '(installed, active_epoch) ← on_local DomainBindingError (prepare binding mailbox None)
    (port_binding_new (binding_id binding));
  '((installed, _), route) ← on_local DomainBindingError (activate active_epoch mailbox)
    (installed, None);
  bail StateInconsistent when
    bool_decide (route_assignment route <> binding) || bool_decide (route_epoch route <> active_epoch);
  Ok (MkDomainMailbox mailbox execution binding installed (Some active_epoch) None).

Definition build_execution (bindings : list BindingAssignment) (clock_domain : ClockDomainRef)
    (clock_generation : ClockGeneration) (b : DomainBuild) (execution : MailboxExecutionSpec)
    : result LoopDomainError DomainBuild :=
  bail DuplicateExecutionBinding when
    bool_decide (execution_binding_id execution ∈ build_execution_bindings b);
  bail DuplicateExecutionMailbox when
    bool_decide (execution_mailbox execution ∈ build_execution_mailboxes b);
  let matches := base.filter (fun binding => binding_id binding = execution_binding_id execution) bindings in
  binding ← ok_or (head matches) MissingBinding;
  bail DuplicateBinding when negb (bool_decide (tail matches = []));
  _ ← validate_binding execution binding;
  let class := map_dispatch_class (dispatch_class execution) in
  quantum ← ok_or (checked_add u32_max (class_get (build_class_quantum b) class)
                     (minimum_service_weight execution)) CounterOverflow;
  burst ← ok_or (checked_add u32_max (class_get (build_class_burst b) class) (max_burst execution))
    CounterOverflow;
  slot_spec ← map_err DomainDispatchError (slot_spec_try_new (execution_mailbox execution) class
    (service_cost_tokens execution) (minimum_service_weight execution) (max_burst execution));
  entry ← install_entry execution binding clock_domain clock_generation;
  bail DuplicateExecutionBinding when
    bool_decide (is_Some (build_binding_index b !! binding_id binding));
  bail DuplicateExecutionMailbox when
    bool_decide (is_Some (build_mailboxes b !! execution_mailbox execution));
  Ok {| build_execution_bindings := {[ execution_binding_id execution ]} ∪ build_execution_bindings b;
        build_execution_mailboxes := {[ execution_mailbox execution ]} ∪ build_execution_mailboxes b;
        build_slot_specs := build_slot_specs b ++ [slot_spec];
        build_class_quantum := class_put class quantum (build_class_quantum b);
        build_class_burst := class_put class burst (build_class_burst b);
        build_mailboxes := <[execution_mailbox execution := entry]> (build_mailboxes b);
        build_binding_index := <[binding_id binding := mailbox_ref binding]> (build_binding_index b) |}.

Definition class_policy_of (b : DomainBuild) (class : DispatchClass)
    : result LoopDomainError DispatchClassPolicy :=
  map_err DomainDispatchError (class_policy_try_new (N.max (class_get (build_class_quantum b) class) 1)
    (N.max (class_get (build_class_burst b) class) 1)).

(** [marker] is the fresh [Arc] of the permit ledger's identity. *)
Definition loop_domain_try_new (spec : LoopDomainSpec) (executions : list MailboxExecutionSpec)
    (bindings : list BindingAssignment) (domain_epoch : DomainEpoch) (clock_domain : ClockDomainRef)
    (clock_generation : ClockGeneration) (marker : N) : result LoopDomainError LoopDomainCore :=
  bail MissingExecution when bool_decide (executions = []);
  bail TooManyExecutions when (MAX_DISPATCH_SLOTS <? len executions)%N;
  _ ← try_fold (fun _ execution => validate_execution spec execution) tt executions;
  bail SharedCapacityRequired when
    (control_reserved spec =? max_outstanding spec)%N
    && existsb (fun execution => bool_decide (dispatch_class execution <> PlannedControl)) executions;
  built ← try_fold (build_execution bindings clock_domain clock_generation) build_empty executions;
  control ← class_policy_of built Control;
  interactive ← class_policy_of built Interactive;
  stream ← class_policy_of built Stream;
  background ← class_policy_of built Background;
  dispatch ← map_err DomainDispatchError
    (policy_try_new (PerClass control interactive stream background) (build_slot_specs built));
  let permit_ledger := MkDomainPermitLedgerId (domain_ref_bytes (spec_domain spec))
    (domain_epoch_value domain_epoch) marker in
  let owner := MkLoopDomainOwnerIdentity (spec_domain spec) domain_epoch permit_ledger in
  permits ← map_err DomainPermitError
    (ledger_try_new permit_ledger (max_outstanding spec) (control_reserved spec));
  Ok (MkLoopDomainCore spec domain_epoch owner clock_domain clock_generation (build_mailboxes built)
        (build_binding_index built) dispatch permits).

(** ** Iteration over the entries *)

(** [for entry in self.mailboxes.values()] with a fallible body. *)
Definition for_values {E : Type} (f : DomainMailbox -> result E unit) (self : LoopDomainCore)
    : result E unit :=
  try_fold (fun _ '(_, entry) => f entry) tt (btree_iter (ldc_mailboxes self)).

(** [for entry in self.mailboxes.values_mut()]: the records the bodies return,
    in order; the entries visited before a failure keep their changes. *)
Fixpoint values_mut_loop {E A : Type} (f : M DomainMailbox E (list A))
    (entries : list (MailboxRef * DomainMailbox)) (acc : list A) : M LoopDomainCore E (list A) :=
  match entries with
  | [] => mret acc
  | (ref, entry) :: entries => fun self =>
      let '(entry', res) := f entry in
      let self' := set_ldc_mailboxes (<[ref := entry']> (ldc_mailboxes self)) self in
      match res with
      | Ok records => values_mut_loop f entries (acc ++ records) self'
      | Err e => (self', Err e)
      | Panic => (self', Panic)
      end
  end.
Definition values_mut {E A : Type} (f : M DomainMailbox E (list A)) : M LoopDomainCore E (list A) :=
  fun self => values_mut_loop f (btree_iter (ldc_mailboxes self)) [] self.

(** A call on the mailbox of an entry. *)
Definition on_mailbox {E F A : Type} (wrap : E -> F) (m : M Mailbox E A) : M DomainMailbox F A :=
  fun entry => let '(mb, res) := m (dm_mailbox entry) in (set_dm_mailbox mb entry, map_err wrap res).
(** A call on one entry of the core. *)
Definition on_entry {E A : Type} (ref : MailboxRef) (missing : E) (m : M DomainMailbox E A)
    : M LoopDomainCore E A :=
  fun self =>
    match ldc_mailboxes self !! ref with
    | None => (self, Err missing)
    | Some entry =>
        let '(entry', res) := m entry in
        (set_ldc_mailboxes (<[ref := entry']> (ldc_mailboxes self)) self, res)
    end.

(** ** Operations *)

Definition retire_entry : M DomainMailbox LoopDomainError (list unit) :=
  draining ← gets dm_draining_epoch;
  match draining with
  | None => mret []
  | Some draining_epoch =>
      snapshot ← read (fun entry => map_err DomainMailboxError (mailbox_snapshot (dm_mailbox entry)));
      if bool_decide (snapshot_lifecycle snapshot = Closed) then
        route ← (fun entry =>
          let '(b, res) := retire_draining draining_epoch (dm_mailbox entry) (dm_binding entry) in
          (set_dm_binding b entry, map_err DomainBindingError res));
        _ ← read (fun entry => fail_if (bool_decide (route_assignment route <> dm_assignment entry)
          || bool_decide (route_epoch route <> draining_epoch)) StateInconsistent);
        _ ← modify (fun entry => set_dm_epochs (dm_active_epoch entry) None entry);
        mret []
      else mret []
  end.
Definition retire_closed_bindings : M LoopDomainCore LoopDomainError unit :=
  _ ← values_mut retire_entry; mret tt.

Definition active_ingress (self : LoopDomainCore) (id : BindingId) : option LoopDomainIngress :=
  mailbox ← ldc_binding_index self !! id;
  entry ← ldc_mailboxes self !! mailbox;
  epoch ← dm_active_epoch entry;
  Some (MkLoopDomainIngress (ldc_owner self) id epoch).

Definition domain_try_offer (ingress : LoopDomainIngress) (message : ValidatedMessage)
    (reading : ClockReading) : M LoopDomainCore LoopDomainOfferFailure OfferReport :=
  let failed e := MkLoopDomainOfferFailure e message in
  _ ← read (fun self => fail_if (bool_decide (li_owner ingress <> ldc_owner self))
        (failed IngressMismatch));
  mailbox ← read (fun self =>
    ok_or (ldc_binding_index self !! li_binding_id ingress) (failed UnknownBinding));
  on_entry mailbox (failed StateInconsistent) (fun entry =>
    on_mailbox (fun failure => MkLoopDomainOfferFailure
                  (DomainBindingError (binding_offer_error failure)) (binding_offer_message failure))
      (offer (dm_binding entry) (li_binding_id ingress) (li_binding_epoch ingress) message reading)
      entry).

Definition domain_ensure_reading (self : LoopDomainCore) (reading : ClockReading)
    : result LoopDomainError unit :=
  bail ClockDomainMismatch when bool_decide (reading_domain reading <> ldc_clock_domain self);
  bail ClockGenerationMismatch when
    bool_decide (reading_generation reading <> ldc_clock_generation self);
  Ok tt.

Definition collect_readiness (self : LoopDomainCore) (reading : ClockReading)
    : result LoopDomainError (list (MailboxRef * MailboxHeadReadiness)) :=
  try_fold (fun heads '(mailbox, entry) =>
      head ← map_err DomainMailboxError (head_readiness (dm_mailbox entry) reading);
      Ok (heads ++ [(mailbox, head)])) [] (btree_iter (ldc_mailboxes self)).

(** [self.permits.release(&mut permit)?] on a permit that is then dropped. *)
Definition release_permit (permit : DomainPermitToken) : M LoopDomainCore LoopDomainError unit :=
  fun self =>
    let '((permits, _), res) := release (ldc_permits self, permit) in
    (set_ldc_permits permits self, map_err DomainPermitError res).

Definition start_selected (grant : DispatchGrant) (reading : ClockReading)
    (terminals : list TerminalRecord) : M LoopDomainCore LoopDomainError LoopDomainDispatchReport :=
  let mailbox := selection_mailbox (grant_selection grant) in
  let permit := grant_permit grant in
  fun self =>
    match ldc_mailboxes self !! mailbox with
    | None => (_ ← release_permit permit; lift (Err StateInconsistent)) self
    | Some entry =>
        let '(mb, begun) := try_begin_inflight reading (dm_mailbox entry) in
        let self := set_ldc_mailboxes (<[mailbox := set_dm_mailbox mb entry]> (ldc_mailboxes self)) self in
        match begun with
        | Panic => (self, Panic)
        | Err error => (_ ← release_permit permit; lift (Err (DomainMailboxError error))) self
        | Ok report =>
            match dispatch_outcome report with
            | Started inflight =>
                (self, Ok (MkLoopDomainDispatchReport
                  (DomainStarted (MkLoopDomainGrant (ldc_owner self) (ldc_clock_domain self)
                    (ldc_clock_generation self) (dm_execution entry) (target_port (dm_assignment entry))
                    inflight permit false))
                  (terminals ++ dispatch_expired report)))
            | _ => (_ ← release_permit permit; lift (Err DispatchInvariant)) self
            end
        end
    end.

Definition expire_mailboxes (reading : ClockReading) (expired : list MailboxRef)
    : M LoopDomainCore LoopDomainError (list TerminalRecord) :=
  for_each (fun terminals mailbox =>
      records ← on_entry mailbox StateInconsistent (on_mailbox DomainMailboxError (expire_queued reading));
      mret (terminals ++ records)) [] expired.

Definition try_dispatch (reading : ClockReading)
    : M LoopDomainCore LoopDomainError LoopDomainDispatchReport :=
  _ ← read (fun self => domain_ensure_reading self reading);
  initial ← read (fun self => collect_readiness self reading);
  let expired_mailboxes := omap (fun '(mailbox, head) =>
    match head with HeadExpired _ _ => Some mailbox | _ => None end) initial in
  terminals ← expire_mailboxes reading expired_mailboxes;
  _ ← retire_closed_bindings;
  readiness ← (if bool_decide (terminals = []) then mret initial
               else read (fun self => collect_readiness self reading));
  let inputs := map (fun '(mailbox, head) => MkDispatchReadiness mailbox head) readiness in
  decision ← (fun self =>
    let '((dispatch, permits), res) := try_select_and_acquire inputs (ldc_dispatch self, ldc_permits self) in
    (set_ldc_permits permits (set_ldc_dispatch dispatch self), map_err DomainDispatchError res));
  match decision with
  | Idle reason => mret (MkLoopDomainDispatchReport (DomainIdle reason) terminals)
  | Selected grant => start_selected grant reading terminals
  end.

Definition matches_grant (self : LoopDomainCore) (grant : LoopDomainGrant) : bool :=
  bool_decide (lg_owner grant = ldc_owner self)
  && bool_decide (lg_clock_domain grant = ldc_clock_domain self)
  && bool_decide (lg_clock_generation grant = ldc_clock_generation self)
  && match ldc_mailboxes self !! execution_mailbox (lg_execution grant) with
     | Some entry => bool_decide (dm_execution entry = lg_execution grant)
     | None => false
     end.

Definition with_inflight (token : InflightToken) (g : LoopDomainGrant) : LoopDomainGrant :=
  let '(MkLoopDomainGrant a b c d e _ h i) := g in MkLoopDomainGrant a b c d e token h i.
Definition domain_finish (grant : LoopDomainGrant) (reason : TerminalReason)
    : M LoopDomainCore LoopDomainFinishFailure LoopDomainRelease :=
  _ ← read (fun self => fail_if (negb (matches_grant self grant))
        (MkLoopDomainFinishFailure GrantMismatch grant));
  terminal ← on_entry (execution_mailbox (lg_execution grant))
    (MkLoopDomainFinishFailure UnknownMailbox grant)
    (on_mailbox (fun failure => MkLoopDomainFinishFailure
                   (DomainMailboxError (finish_failure_error failure))
                   (with_inflight (finish_failure_token failure) grant))
       (mailbox_finish (lg_inflight grant) reason));
  mret (MkLoopDomainRelease (lg_owner grant) (lg_clock_domain grant) (lg_clock_generation grant)
          (lg_execution grant) terminal (lg_permit grant)).
Definition abandon_after_caller_release (grant : LoopDomainGrant)
    : M LoopDomainCore LoopDomainFinishFailure LoopDomainRelease :=
  domain_finish grant MailboxModel.Uncertain.

Definition matches_release (self : LoopDomainCore) (release : LoopDomainRelease) : bool :=
  bool_decide (lr_owner release = ldc_owner self)
  && bool_decide (lr_clock_domain release = ldc_clock_domain self)
  && bool_decide (lr_clock_generation release = ldc_clock_generation self)
  && match ldc_mailboxes self !! execution_mailbox (lr_execution release) with
     | Some entry => bool_decide (dm_execution entry = lr_execution release)
     | None => false
     end.
Definition domain_release : M (LoopDomainCore * LoopDomainRelease) LoopDomainError unit :=
  _ ← read (fun '(self, release) => fail_if (negb (matches_release self release)) GrantMismatch);
  _ ← (fun '(self, handle) =>
    let '((permits, permit), res) := release (ldc_permits self, lr_permit handle) in
    ((set_ldc_permits permits self, set_lr_permit permit handle), map_err DomainPermitError res));
  on_fst retire_closed_bindings.

(** ** Shutdown *)

Definition entry_inconsistent (entry : DomainMailbox) : bool :=
  bool_decide (is_Some (prepared_epoch (dm_binding entry)))
  || bool_decide (dm_active_epoch entry <> epoch_of (pb_active (dm_binding entry)))
  || bool_decide (dm_draining_epoch entry <> epoch_of (pb_draining (dm_binding entry))).
Definition route_differs (entry : DomainMailbox) (route : option BindingRoute) : bool :=
  match route with
  | Some route => bool_decide (route_assignment route <> dm_assignment entry)
  | None => false
  end.
Definition revoke_entry : M DomainMailbox LoopDomainError (list unit) :=
  active ← gets dm_active_epoch;
  match active with
  | None => mret []
  | Some active_epoch =>
      _ ← (fun entry =>
        let '((b, mb), res) := revoke active_epoch (dm_binding entry, dm_mailbox entry) in
        (set_dm_mailbox mb (set_dm_binding b entry), map_err DomainBindingError res));
      _ ← modify (set_dm_epochs None (Some active_epoch));
      mret []
  end.
Definition domain_stop_accepting : M LoopDomainCore LoopDomainError unit :=
  _ ← read (for_values (fun entry =>
        _ ← map_err DomainMailboxError (mailbox_snapshot (dm_mailbox entry));
        fail_if (entry_inconsistent entry || route_differs entry (pb_active (dm_binding entry))
                 || route_differs entry (pb_draining (dm_binding entry))) StateInconsistent));
  _ ← values_mut revoke_entry;
  retire_closed_bindings.

Definition require_draining (self : LoopDomainCore) : result LoopDomainError unit :=
  for_values (fun entry =>
    snapshot ← map_err DomainMailboxError (mailbox_snapshot (dm_mailbox entry));
    fail_if (bool_decide (snapshot_lifecycle snapshot = Accepting)) ShutdownRequiresDraining) self.
Definition domain_cancel_all_queued : M LoopDomainCore LoopDomainError (list TerminalRecord) :=
  _ ← read require_draining;
  records ← values_mut (on_mailbox DomainMailboxError cancel_all_queued);
  _ ← retire_closed_bindings;
  mret records.
Definition abandon_all_after_caller_release
    : M LoopDomainCore LoopDomainError (list TerminalRecord) :=
  _ ← read (fun self =>
        snapshot ← map_err DomainPermitError (ledger_snapshot (ldc_permits self));
        used ← in_use snapshot;
        fail_if (negb (used =? 0)%N) CallerReleaseRequired);
  _ ← read require_draining;
  records ← values_mut (on_mailbox DomainMailboxError abandon_all_inflight_uncertain);
  _ ← retire_closed_bindings;
  mret records.

(** ** Snapshot *)

(** The sums of the snapshot loop; the counters of entries are [usize]. *)
Record DomainTotals := MkDomainTotals {
  tot_queued_items : N;
  tot_queued_bytes : N;
  tot_inflight_items : N;
  tot_inflight_bytes : N;
  tot_retained_bytes : N;
  tot_accepting : N;
  tot_closed : N;
  tot_active : N;
  tot_draining : N;
}.
Definition count_if (b : bool) (n : N) : N := if b then (n + 1)%N else n.
Definition add_entry (t : DomainTotals) (entry : DomainMailbox) : result LoopDomainError DomainTotals :=
  snapshot ← map_err DomainMailboxError (mailbox_snapshot (dm_mailbox entry));
  bail StateInconsistent when entry_inconsistent entry;
  queued_items ← ok_or (checked_add u64_max (tot_queued_items t) (snapshot_queued_items snapshot))
    CounterOverflow;
  queued_bytes ← ok_or (checked_add u64_max (tot_queued_bytes t) (snapshot_queued_bytes snapshot))
    CounterOverflow;
  inflight_items ← ok_or (checked_add u64_max (tot_inflight_items t) (snapshot_inflight_items snapshot))
    CounterOverflow;
  inflight_bytes ← ok_or (checked_add u64_max (tot_inflight_bytes t) (snapshot_inflight_bytes snapshot))
    CounterOverflow;
  retained_bytes ← ok_or (checked_add u64_max (tot_retained_bytes t) (snapshot_retained_bytes snapshot))
    CounterOverflow;
  Ok (MkDomainTotals queued_items queued_bytes inflight_items inflight_bytes retained_bytes
        (count_if (bool_decide (snapshot_lifecycle snapshot = Accepting)) (tot_accepting t))
        (count_if (bool_decide (snapshot_lifecycle snapshot = Closed)) (tot_closed t))
        (count_if (bool_decide (is_Some (dm_active_epoch entry))) (tot_active t))
        (count_if (bool_decide (is_Some (dm_draining_epoch entry))) (tot_draining t))).
Definition domain_snapshot (self : LoopDomainCore) : result LoopDomainError LoopDomainSnapshot :=
  t ← try_fold (fun t '(_, entry) => add_entry t entry) (MkDomainTotals 0 0 0 0 0 0 0 0 0)
        (btree_iter (ldc_mailboxes self));
  let count := N.of_nat (size (ldc_mailboxes self)) in
  let lifecycle := if (tot_accepting t =? count)%N then DomainAccepting
                   else if (tot_closed t =? count)%N then DomainClosed else DomainDraining in
  mailbox_count ← ok_or (try_from u16_max count) StateInconsistent;
  active_bindings ← ok_or (try_from u16_max (tot_active t)) StateInconsistent;
  draining_bindings ← ok_or (try_from u16_max (tot_draining t)) StateInconsistent;
  permits ← map_err DomainPermitError (ledger_snapshot (ldc_permits self));
  Ok (MkLoopDomainSnapshot (spec_domain (ldc_spec self)) (ldc_domain_epoch self)
        (ldc_clock_domain self) (ldc_clock_generation self) lifecycle mailbox_count active_bindings
        draining_bindings (tot_queued_items t) (tot_queued_bytes t) (tot_inflight_items t)
        (tot_inflight_bytes t) (tot_retained_bytes t) permits).
Definition domain_mailbox_snapshot (self : LoopDomainCore) (mailbox : MailboxRef)
    : result LoopDomainError MailboxSnapshot :=
  entry ← ok_or (ldc_mailboxes self !! mailbox) UnknownMailbox;
  map_err DomainMailboxError (mailbox_snapshot (dm_mailbox entry)).
