(* ===== verification/LoopDomainInv.v ===== *)
(** * Loop domains: invariant and outcome of every operation

    [entry_inv] states how the mailbox, the binding and the recorded epochs of
    one entry fit together; [core_inv] adds the dispatcher, whose slots are the
    entries, and the permit ledger.  Every operation on a core that satisfies it
    succeeds or fails in a way the lemmas name, and keeps it. *)

From S2P Require Import Prelude Bytes KernelTime KernelDigest Assignment CardInstance MailboxModel MailboxInv MailboxOffer MailboxSteps Mailbox PortBinding DispatchPermits DispatchModel DispatchInv Dispatch ExecutionPlan LoopDomain.
Open Scope rust_scope.

(** ** Mailbox operations that do not stop admission *)

(** [mb'] follows [mb] by calls other than [stop_accepting]. *)
Definition steady (mb mb' : Mailbox) : Prop :=
  mailbox_inv mb' /\ config mb' = config mb /\
  (mb_lifecycle mb = Accepting <-> mb_lifecycle mb' = Accepting) /\
  (mb_lifecycle mb = Closed -> mb_lifecycle mb' = Closed).

Lemma steady_refl mb : mailbox_inv mb -> steady mb mb.
Proof. by unfold steady. Qed.
Lemma steady_step mb event mb' :
  mailbox_inv mb -> step mb event mb' -> (mb_lifecycle mb = Accepting -> mb_lifecycle mb' = Accepting) ->
  steady mb mb'.
Proof.
  intros Hi Hs Ha. destruct (step_frame _ _ _ Hi Hs) as [Hc Hr].
  split; [by eapply step_inv|]. split; [done|].
  destruct (mb_lifecycle mb), (mb_lifecycle mb'); simpl in *; split; (done || lia || naive_solver).
Qed.
Lemma close_stays_accepting mb :
  mb_lifecycle mb = Accepting -> mb_lifecycle (close_if_drained_internal mb) = Accepting.
Proof. intros H. unfold close_if_drained_internal. rewrite H. by rewrite bool_decide_eq_false_2 by done. Qed.

Lemma steady_offer mb message r :
  mailbox_inv mb ->
  steady mb (fst (try_offer message r mb)) /\
  mb_inflight (fst (try_offer message r mb)) = mb_inflight mb.
Proof.
  intros Hi. split.
  - eapply steady_step; [done|apply (step_offer _ message r), surjective_pairing|].
    destruct (try_offer_cases mb r message Hi) as
      [(e & -> & _)|[(_ & o & _ & ->)|(_ & plan & d & reason & _ & ->)]]; by destruct mb.
  - destruct (try_offer_cases mb r message Hi) as
      [(e & -> & _)|[(_ & o & _ & ->)|(_ & plan & d & reason & _ & ->)]]; by destruct mb.
Qed.
Lemma close_inflight mb : mb_inflight (close_if_drained_internal mb) = mb_inflight mb.
Proof. destruct (close_if_drained_internal_frame mb) as (l & -> & _). by destruct mb. Qed.

Lemma steady_expire mb r :
  mailbox_inv mb -> reading_in_clock mb r ->
  exists records, snd (expire_queued r mb) = Ok records /\
    steady mb (fst (expire_queued r mb)) /\
    mb_inflight (fst (expire_queued r mb)) = mb_inflight mb /\
    (mb_lifecycle mb <> Closed -> records = expiry_records r (mb_queue mb)).
Proof.
  intros Hi Hr. pose proof (steady_step mb _ _ Hi (step_expire _ r _ _ (surjective_pairing _))) as Hs.
  destruct (expire_cases mb r Hi) as [[Hc E]|[(e & _ & _ & Hn)|(_ & _ & t & _ & E)]]; [|done|];
    rewrite E in *; simpl in *; eexists; split_and!; try done.
  - apply Hs. intros Ha. apply close_stays_accepting. by destruct mb.
  - rewrite close_inflight. by destruct mb.
Qed.
Lemma steady_cancel mb :
  mailbox_inv mb -> mb_lifecycle mb <> Accepting ->
  snd (cancel_all_queued mb) = Ok (map (record_of Cancelled) (mb_queue mb)) /\
  steady mb (fst (cancel_all_queued mb)) /\
  mb_inflight (fst (cancel_all_queued mb)) = mb_inflight mb /\
  mb_queue (fst (cancel_all_queued mb)) = [] /\
  (mb_inflight mb = ∅ -> mb_lifecycle (fst (cancel_all_queued mb)) = Closed).
Proof.
  intros Hi Hna. pose proof (steady_step mb _ _ Hi (step_cancel _ _ _ (surjective_pairing _))) as Hs.
  destruct (cancelled_view mb _ _ Hi Hna (surjective_pairing _)) as (Hres & Hq & Hf & _).
  split_and!; [done| |done..|]; [by apply Hs|]. intros Hemp.
  destruct (cancel_cases mb Hi) as [[? _]|(_ & t & _ & ->)]; [done|]. simpl.
  by apply close_drained; destruct mb.
Qed.
Lemma steady_abandon mb :
  mailbox_inv mb -> mb_lifecycle mb <> Accepting ->
  (exists records, snd (abandon_all_inflight_uncertain mb) = Ok records) /\
  steady mb (fst (abandon_all_inflight_uncertain mb)) /\
  (mb_inflight mb = ∅ -> mb_inflight (fst (abandon_all_inflight_uncertain mb)) = ∅).
Proof.
  intros Hi Hna. pose proof (steady_step mb _ _ Hi (step_abandon _ _ _ (surjective_pairing _))) as Hs.
  destruct (abandon_cases mb Hi) as [[? _]|(_ & t & _ & E)]; [done|]. rewrite E in *. simpl in *.
  split; [by eexists|]. split; [by apply Hs|]. intros _. rewrite close_inflight. by destruct mb.
Qed.

(** Finishing a live token takes exactly its message out of flight. *)
Lemma steady_finish mb token reason :
  mailbox_inv mb -> token_live mb token -> is_inflight_completion reason = true ->
  exists record mb', mailbox_finish token reason mb = (mb', Ok record) /\ steady mb mb' /\
    mb_inflight mb' = delete (msg_id (token_message token)) (mb_inflight mb).
Proof.
  intros Hi Ht Hc. pose proof (steady_step mb _ _ Hi (step_finish _ token reason _ _ (surjective_pairing _))) as Hs.
  destruct (mailbox_finish_cases mb token reason Hi) as [(? & _)|[(_ & ? & _)|(_ & _ & t & _ & E)]];
    [congruence|done|].
  rewrite E in *. simpl in *. eexists _, _. split; [done|]. split.
  - apply Hs. intros Ha. unfold state_finished. apply close_stays_accepting. by destruct mb.
  - unfold state_finished. rewrite close_inflight. by destruct mb.
Qed.
Lemma failed_finish mb token reason :
  mailbox_inv mb -> ~ (token_live mb token /\ is_inflight_completion reason = true) ->
  exists e, mailbox_finish token reason mb = (mb, Err (MkFinishFailure e token)).
Proof.
  intros Hi Hn. destruct (mailbox_finish_cases mb token reason Hi) as
    [(? & E)|[(_ & ? & E)|(? & ? & _)]]; [by eexists..|naive_solver].
Qed.

(** ** Readiness *)

(** What a probe says about the mailbox: a ready head can start now, and only
    an expired head hides work that expiry would remove. *)
Definition ready_now (mb : Mailbox) (r : ClockReading) : Prop :=
  mb_lifecycle mb <> Closed /\ live r (mb_queue mb) <> [] /\
  (inflight_len mb < limit_max_inflight (mb_limits mb))%N.

Lemma head_readiness_total mb r :
  mailbox_inv mb -> reading_in_clock mb r ->
  exists head, head_readiness mb r = Ok head /\
    (is_dispatchable head = true -> ready_now mb r) /\
    (forall hint, readiness_hint head = Some hint -> hint_mailbox hint = mb_reference mb) /\
    (forall hint reason, head = HeadExpired hint reason ->
      mb_lifecycle mb <> Closed /\ expiry_records r (mb_queue mb) <> []).
Proof.
  intros Hi Hc. unfold head_readiness. rewrite inv_validate_state by done. simpl.
  case_bool_decide as Hl; [by eexists|].
  destruct (ensure_reading_exact mb r) as [[_ ->]|[? _]]; [|done]. simpl.
  destruct (mb_queue mb) as [|item q] eqn:Hq; [by eexists|].
  pose proof (inv_clock mb Hi) as Hclk. rewrite Hq in Hclk. apply Forall_cons in Hclk as [Hitem _].
  rewrite (expiration_reason_Ok mb r item Hitem Hc). simpl.
  destruct (item_expiry r item) as [reason|] eqn:Hexp.
  { eexists. split; [done|]. split; [done|]. split; [by intros hint [= <-]|].
    intros hint reason' _. split; [done|]. unfold expiry_records. csimpl. done. }
  pose proof (inv_inflight_u32 mb Hi) as Hu. unfold inflight_len in Hu.
  rewrite try_from_ok by done. simpl.
  destruct (N.leb_spec (limit_max_inflight (mb_limits mb)) (N.of_nat (size (mb_inflight mb)))) as [Hp|Hp];
    (eexists; split; [done|]; split; [|split; [by intros hint [= <-]|done]]); [done|].
  intros _. split; [done|]. split; [|done]. rewrite Hq. unfold live.
  by rewrite filter_cons_True.
Qed.

(** A mailbox that is ready starts its oldest live message, unless its token
    generations are exhausted. *)
Lemma begin_ready mb r :
  mailbox_inv mb -> reading_in_clock mb r -> ready_now mb r ->
  ((u64_max < mb_next_token_generation mb + 1)%N /\
    try_begin_inflight r mb = (mb, Err MailboxModel.CounterOverflow)) \/
  exists mb' token expired item q,
    try_begin_inflight r mb = (mb', Ok (MkDispatchReport (Started token) expired)) /\
    live r (mb_queue mb) = item :: q /\ token_message token = queued_message item /\
    steady mb mb' /\ token_live mb' token /\
    mb_inflight mb !! msg_id (token_message token) = None /\
    mb_inflight mb' = <[msg_id (token_message token) :=
      MkInflightAccounting (token_token_generation token)
        (charged_bytes (msg_payload (token_message token)))]> (mb_inflight mb).
Proof.
  intros Hi Hc (Hl & Hlive & Hmax).
  pose proof (steady_step mb _ _ Hi (step_dispatch _ r _ _ (surjective_pairing _))) as Hs.
  pose proof (try_begin_inflight_cases mb r Hi) as Hd. remember (try_begin_inflight r mb) as out eqn:E.
  destruct Hd as [?|? ? ?|? ? ? ? ?|t item q ? ? Hi' Hq ?|t ? ? ? ?|t ? ? ? ? ?]; try done; try lia.
  - by left.
  - right. simpl in Hs. eexists _, _, _, item, q. split; [done|]. split; [done|]. split; [done|].
    assert (item ∈ mb_queue mb) as Hin.
    { assert (item ∈ live r (mb_queue mb)) as Hil by (rewrite Hq; left).
      unfold live in Hil. by apply list_elem_of_filter in Hil as [_ ?]. }
    split; [apply Hs; intros Ha; by destruct mb|]. split.
    { split; [by destruct mb|]. destruct mb; simpl. by rewrite lookup_insert_eq. }
    split; [by apply (inv_disjoint mb Hi)|]. by destruct mb.
Qed.

(** ** One entry *)

(** The binding of an entry goes through three stages: its first route is
    active, then it only drains, then it is gone. *)
Inductive entry_stage (e : DomainMailbox) : Prop :=
| stage_active r :
    pb_active (dm_binding e) = Some r -> pb_draining (dm_binding e) = None ->
    dm_active_epoch e = Some (route_epoch r) -> dm_draining_epoch e = None ->
    route_assignment r = dm_assignment e -> pb_last_live_epoch (dm_binding e) = 1%N ->
    mb_lifecycle (dm_mailbox e) = Accepting -> entry_stage e
| stage_draining r :
    pb_active (dm_binding e) = None -> pb_draining (dm_binding e) = Some r ->
    dm_active_epoch e = None -> dm_draining_epoch e = Some (route_epoch r) ->
    route_assignment r = dm_assignment e ->
    mb_lifecycle (dm_mailbox e) <> Accepting -> entry_stage e
| stage_retired :
    pb_active (dm_binding e) = None -> pb_draining (dm_binding e) = None ->
    dm_active_epoch e = None -> dm_draining_epoch e = None ->
    mb_lifecycle (dm_mailbox e) = Closed -> entry_stage e.

Record entry_inv (cd : ClockDomainRef) (cg : ClockGeneration) (ref : MailboxRef) (e : DomainMailbox)
    : Prop := {
  entry_mailbox : mailbox_inv (dm_mailbox e);
  entry_execution : execution_mailbox (dm_execution e) = ref;
  entry_assignment : mailbox_ref (dm_assignment e) = ref;
  entry_identity : validate_mailbox_identity (dm_assignment e) (dm_mailbox e) = Ok tt;
  entry_clock : mb_clock_domain (dm_mailbox e) = cd /\ mb_clock_generation (dm_mailbox e) = cg;
  entry_unprepared : pb_prepared (dm_binding e) = None;
  entry_staged : entry_stage e;
}.

(** [e'] follows [e] with the same messages in flight. *)
Definition entry_same (cd : ClockDomainRef) (cg : ClockGeneration) (ref : MailboxRef)
    (e e' : DomainMailbox) : Prop :=
  entry_inv cd cg ref e' /\ dm_execution e' = dm_execution e /\
  dm_assignment e' = dm_assignment e /\
  mb_inflight (dm_mailbox e') = mb_inflight (dm_mailbox e) /\
  (mb_lifecycle (dm_mailbox e) <> Accepting -> mb_lifecycle (dm_mailbox e') <> Accepting).

Section entries.
Context (cd : ClockDomainRef) (cg : ClockGeneration) (ref : MailboxRef).
Implicit Types e : DomainMailbox.
Abbreviation inv := (entry_inv cd cg ref).
Abbreviation same := (entry_same cd cg ref).

Lemma entry_reference e : inv e -> mb_reference (dm_mailbox e) = ref.
Proof.
  intros Hi. destruct (proj1 (validate_mailbox_identity_Ok _ _ _) (entry_identity _ _ _ _ Hi)) as [-> _].
  by apply Hi.
Qed.
Lemma entry_same_refl e : inv e -> same e e.
Proof. by unfold entry_same. Qed.
Lemma entry_same_trans e1 e2 e3 : same e1 e2 -> same e2 e3 -> same e1 e3.
Proof. unfold entry_same. intros (_ & H1 & H2 & H3 & H4) (? & -> & -> & -> & H5). auto 10. Qed.
Lemma entry_reads e r :
  inv e -> reading_domain r = cd -> reading_generation r = cg -> reading_in_clock (dm_mailbox e) r.
Proof. intros Hi H1 H2. destruct (entry_clock _ _ _ _ Hi). split; congruence. Qed.

Lemma entry_steady e mb' : inv e -> steady (dm_mailbox e) mb' -> inv (set_dm_mailbox mb' e).
Proof.
  intros [Hm Hx Ha Hid Hc Hp Hst] (Hi' & Hcfg & Hacc & Hcl). destruct e as [m x a b p q]; simpl in *.
  constructor; simpl; try done.
  - by rewrite (identity_config _ _ _ Hcfg).
  - unfold config in Hcfg. destruct Hc. split; congruence.
  - destruct Hst as [r|r|]; simpl in *; [eapply stage_active|eapply stage_draining|eapply stage_retired];
      simpl; try done; naive_solver.
Qed.
Lemma entry_steady_same e mb' :
  inv e -> steady (dm_mailbox e) mb' -> mb_inflight mb' = mb_inflight (dm_mailbox e) ->
  same e (set_dm_mailbox mb' e).
Proof.
  intros Hi Hs Hf. split; [by apply entry_steady|]. destruct Hs as (_ & _ & Hacc & _).
  destruct e; simpl in *. naive_solver.
Qed.

Lemma entry_consistent e : inv e -> entry_inconsistent e = false.
Proof.
  intros Hi. unfold entry_inconsistent, prepared_epoch. rewrite (entry_unprepared _ _ _ _ Hi).
  destruct (entry_staged _ _ _ _ Hi) as [r Ha Hd He Hf|r Ha Hd He Hf|Ha Hd He Hf];
    rewrite Ha, Hd, He, Hf; by rewrite !bool_decide_eq_false_2 by naive_solver.
Qed.
Lemma entry_routes e :
  inv e -> route_differs e (pb_active (dm_binding e)) = false /\
           route_differs e (pb_draining (dm_binding e)) = false.
Proof.
  intros Hi. destruct (entry_staged _ _ _ _ Hi) as [r Ha Hd _ _ Hr|r Ha Hd _ _ Hr|Ha Hd _ _];
    rewrite Ha, Hd; cbn [route_differs]; rewrite ?Hr, ?bool_decide_ne_refl; done.
Qed.

(** Retirement of an entry whose drained mailbox has closed. *)
Lemma retire_entry_same e :
  inv e -> snd (retire_entry e) = Ok [] /\ same e (fst (retire_entry e)) /\
    dm_mailbox (fst (retire_entry e)) = dm_mailbox e /\
    (mb_lifecycle (dm_mailbox e) = Closed -> dm_draining_epoch (fst (retire_entry e)) = None).
Proof.
  intros Hi. pose proof (entry_mailbox _ _ _ _ Hi) as Hm.
  unfold retire_entry. rewrite run_gets.
  destruct (dm_draining_epoch e) as [de|] eqn:Hde; [|by split_and!; auto using entry_same_refl].
  rewrite run_read, mailbox_snapshot_inv by done. simpl.
  case_bool_decide as Hcl; [|by split_and!; auto using entry_same_refl].
  destruct (entry_staged _ _ _ _ Hi) as [|r Ha Hd He Hf Hr Hna|]; [congruence| |congruence].
  rewrite run_bind, retire_run.
  assert (retire_checks (dm_binding e) de (dm_mailbox e) = Ok r) as ->.
  { apply retire_checks_Ok; [done|]. rewrite Hr. split_and!; [done|congruence|apply Hi|done]. }
  simpl. rewrite run_read. replace (route_epoch r) with de by congruence.
  destruct Hi as [_ Hx Hm' Hid Hck Hp _]. destruct e as [m x a b p q]; simpl in *. subst.
  rewrite !bool_decide_ne_refl. simpl. split; [done|]. split; [|done].
  split; [|done]. destruct b as [i l pp aa dd]; simpl in *.
  constructor; simpl; try done. by apply stage_retired.
Qed.

(** Revocation of an active entry. *)
Lemma revoke_entry_same e :
  inv e -> snd (revoke_entry e) = Ok [] /\ same e (fst (revoke_entry e)) /\
    dm_active_epoch (fst (revoke_entry e)) = None /\
    mb_lifecycle (dm_mailbox (fst (revoke_entry e))) <> Accepting.
Proof.
  intros Hi. pose proof (entry_mailbox _ _ _ _ Hi) as Hm.
  unfold revoke_entry. rewrite run_gets.
  destruct (entry_staged _ _ _ _ Hi) as [r Ha Hd He Hf Hr Hl Hacc|r Ha Hd He Hf Hr Hna|Ha Hd He Hf Hcl];
    rewrite He.
  2,3: split; [done|]; split; [by apply entry_same_refl|];
    split; [done|first [done|simpl; by rewrite Hcl]].
  rewrite run_bind, revoke_run by done.
  assert (revoke_checks (dm_binding e) (route_epoch r) (dm_mailbox e) = Ok (r, MkBindingEpoch 2)) as ->.
  { apply revoke_checks_Ok. rewrite Hl, Hr. split_and!; try done; apply Hi. }
  simpl. destruct (moves_frame _ _ Hm (moves_stop _ Hm)) as [Hcfg _].
  destruct (stopped_view (dm_mailbox e)) as (_ & Hif & Hna).
  pose proof (moves_inv _ _ Hm (moves_stop _ Hm)) as Hm'.
  destruct Hi as [_ Hx Hmr Hid Hck Hp _]. destruct e as [m x a b p q]; simpl in *.
  split; [done|]. split; [|done]. split; [|by repeat (split; [done|])].
  constructor; simpl; try done.
  - by rewrite (identity_config _ _ _ Hcfg).
  - unfold config in Hcfg. destruct Hck. split; congruence.
  - by eapply stage_draining.
Qed.
End entries.

(** ** Loops over the entries *)

Section loops.
Context {E A : Type} (f : M DomainMailbox E (list A)).
Definition records_from (e : DomainMailbox) : list A :=
  match snd (f e) with Ok l => l | _ => [] end.

Lemma values_mut_loop_run entries acc core :
  Forall (fun p => exists l, snd (f (snd p)) = Ok l) entries ->
  values_mut_loop f entries acc core =
  (set_ldc_mailboxes (foldl (fun m p => <[fst p := fst (f (snd p))]> m) (ldc_mailboxes core) entries) core,
   Ok (acc ++ concat (map (fun p => records_from (snd p)) entries))).
Proof.
  revert acc core; induction entries as [|[ref e] entries IH]; intros acc core Hok.
  - simpl. rewrite app_nil_r. by destruct core.
  - apply Forall_cons in Hok as [[l Hl] Hok]. cbn [values_mut_loop foldl map concat fst snd].
    unfold records_from at 1. simpl in Hl. destruct (f e) as [e' res]; simpl in *. subst res.
    rewrite IH by done. rewrite app_assoc. by destruct core.
Qed.
Lemma foldl_insert_lookup (g : DomainMailbox -> DomainMailbox) entries (m : gmap MailboxRef DomainMailbox) ref :
  NoDup entries.*1 ->
  foldl (fun m p => <[fst p := g (snd p)]> m) m entries !! ref =
  match (list_to_map entries : gmap MailboxRef DomainMailbox) !! ref with
  | Some e => Some (g e)
  | None => m !! ref
  end.
Proof.
  revert m; induction entries as [|[k e] entries IH]; intros m Hnd; [done|].
  cbn [foldl fmap list_fmap fst snd] in *. apply NoDup_cons in Hnd as [Hk Hnd].
  rewrite IH by done. rewrite list_to_map_cons.
  destruct (decide (ref = k)) as [->|Hne].
  - rewrite lookup_insert_eq, (not_elem_of_list_to_map_1 entries k Hk). by rewrite lookup_insert_eq.
  - by rewrite !lookup_insert_ne by done.
Qed.
Lemma btree_iter_to_map (m : gmap MailboxRef DomainMailbox) : list_to_map (btree_iter m) = m.
Proof.
  rewrite <-(list_to_map_to_list m) at 2. apply list_to_map_proper; [|apply btree_iter_Permutation].
  rewrite (btree_iter_Permutation m). apply NoDup_fst_map_to_list.
Qed.
Lemma values_mut_run core :
  (forall ref e, ldc_mailboxes core !! ref = Some e -> exists l, snd (f e) = Ok l) ->
  values_mut f core =
  (set_ldc_mailboxes ((fun e => fst (f e)) <$> ldc_mailboxes core) core,
   Ok (concat (map (fun p => records_from (snd p)) (btree_iter (ldc_mailboxes core))))).
Proof.
  intros Hok. unfold values_mut. rewrite values_mut_loop_run.
  - f_equal. f_equal. apply map_eq. intros ref. rewrite lookup_fmap.
    rewrite (foldl_insert_lookup (fun e => fst (f e))), btree_iter_to_map.
    + by destruct (ldc_mailboxes core !! ref).
    + rewrite (btree_iter_Permutation (ldc_mailboxes core)). apply NoDup_fst_map_to_list.
  - apply Forall_forall. intros [ref e] Hin. rewrite (btree_iter_Permutation (ldc_mailboxes core)) in Hin.
    apply elem_of_map_to_list in Hin. by eapply Hok.
Qed.
End loops.

Lemma for_values_Ok {E : Type} (f : DomainMailbox -> result E unit) core :
  (forall ref e, ldc_mailboxes core !! ref = Some e -> f e = Ok tt) -> for_values f core = Ok tt.
Proof.
  intros Hok. unfold for_values.
  assert (forall p, p ∈ btree_iter (ldc_mailboxes core) -> f (snd p) = Ok tt) as H.
  { intros [ref e] Hin. rewrite (btree_iter_Permutation (ldc_mailboxes core)) in Hin.
    apply elem_of_map_to_list in Hin. by eapply Hok. }
  induction (btree_iter (ldc_mailboxes core)) as [|[ref e] l IH]; [done|]. simpl.
  assert (f e = Ok tt) as -> by (apply (H (ref, e)); left). apply IH. intros p Hp. apply H. by right.
Qed.

(** ** The core *)

(** The fields of a ledger no permit changes. *)
Definition ledger_config (l : DomainPermitLedger) : DomainPermitLedgerId * N := (ledger_id l, ledger_total l).

Record core_inv (c : LoopDomainCore) : Prop := {
  core_entries : forall ref e, ldc_mailboxes c !! ref = Some e ->
    entry_inv (ldc_clock_domain c) (ldc_clock_generation c) ref e;
  core_index : forall id ref, ldc_binding_index c !! id = Some ref -> is_Some (ldc_mailboxes c !! ref);
  core_policy : policy_inv (ldc_dispatch c);
  core_slots : NoDup (map slot_mailbox (slots (ldc_dispatch c)));
  core_slot_entries : forall ref,
    ref ∈ map slot_mailbox (slots (ldc_dispatch c)) <-> is_Some (ldc_mailboxes c !! ref);
  core_slot_count : (len (slots (ldc_dispatch c)) <= MAX_DISPATCH_SLOTS)%N;
  core_ledger : ledger_inv (ldc_permits c);
  core_ledger_config :
    ledger_config (ldc_permits c) = (owner_permit_ledger (ldc_owner c), max_outstanding (ldc_spec c));
}.

(** [c'] is [c] with entries that moved on and kept their messages in flight. *)
Definition core_same (c c' : LoopDomainCore) : Prop :=
  c' = set_ldc_mailboxes (ldc_mailboxes c') c /\
  forall ref, option_Forall2 (entry_same (ldc_clock_domain c) (ldc_clock_generation c) ref)
    (ldc_mailboxes c !! ref) (ldc_mailboxes c' !! ref).

Lemma core_same_refl c : core_inv c -> core_same c c.
Proof.
  intros Hi. split; [by destruct c|]. intros ref. destruct (ldc_mailboxes c !! ref) eqn:E; constructor.
  apply entry_same_refl. by apply Hi.
Qed.
Lemma core_same_trans c1 c2 c3 : core_same c1 c2 -> core_same c2 c3 -> core_same c1 c3.
Proof.
  intros [E1 H1] [E2 H2]. split; [rewrite E2, E1; by destruct c1|]. intros ref.
  assert (ldc_clock_domain c2 = ldc_clock_domain c1 /\
    ldc_clock_generation c2 = ldc_clock_generation c1) as [Hd Hg] by (rewrite E1; by destruct c1).
  specialize (H1 ref). specialize (H2 ref). rewrite Hd, Hg in H2.
  destruct H1 as [e1 e2 H1|]; inversion H2; subst; constructor. by eapply entry_same_trans.
Qed.
Lemma core_same_lookup c c' ref e :
  core_same c c' -> ldc_mailboxes c !! ref = Some e ->
  exists e', ldc_mailboxes c' !! ref = Some e' /\
    entry_same (ldc_clock_domain c) (ldc_clock_generation c) ref e e'.
Proof. intros [_ H] He. specialize (H ref). rewrite He in H. inversion H; subst. eauto. Qed.
Lemma core_same_lookup_r c c' ref e' :
  core_same c c' -> ldc_mailboxes c' !! ref = Some e' ->
  exists e, ldc_mailboxes c !! ref = Some e /\
    entry_same (ldc_clock_domain c) (ldc_clock_generation c) ref e e'.
Proof. intros [_ H] He. specialize (H ref). rewrite He in H. inversion H; subst. eauto. Qed.
Lemma core_same_is_Some c c' ref :
  core_same c c' -> is_Some (ldc_mailboxes c' !! ref) <-> is_Some (ldc_mailboxes c !! ref).
Proof. intros [_ H]. specialize (H ref). inversion H; subst; rewrite <-?not_eq_None_Some; split; done. Qed.

Lemma core_same_inv c c' : core_inv c -> core_same c c' -> core_inv c'.
Proof.
  intros Hi Hs. pose proof (fun ref => core_same_is_Some _ _ ref Hs) as Hdom.
  destruct Hs as [E H]. rewrite E. destruct c as [a b d e f g h i j], c' as [a' b' d' e' f' g' h' i' j'].
  simpl in *. injection E as -> -> -> -> -> -> -> ->. destruct Hi as [He Hx Hp Hn Hse Hc Hl Hli]; simpl in *.
  constructor; simpl; try done.
  - intros ref x Hr. specialize (H ref). rewrite Hr in H. inversion H as [e0 e1 [Hsame _]|]; subst. done.
  - intros id ref Hid. apply Hdom. by eapply Hx.
  - intros ref. by rewrite Hse, Hdom.
Qed.

(** A loop whose body keeps every entry. *)
Lemma values_mut_same {E A : Type} (f : M DomainMailbox E (list A)) c :
  core_inv c ->
  (forall ref e, ldc_mailboxes c !! ref = Some e ->
    (exists l, snd (f e) = Ok l) /\
    entry_same (ldc_clock_domain c) (ldc_clock_generation c) ref e (fst (f e))) ->
  exists c', values_mut f c =
    (c', Ok (concat (map (fun p => records_from f (snd p)) (btree_iter (ldc_mailboxes c))))) /\
    core_same c c' /\ ldc_mailboxes c' = (fun e => fst (f e)) <$> ldc_mailboxes c.
Proof.
  intros Hi Hok. rewrite values_mut_run by (intros ref e He; by apply (Hok ref)).
  eexists. split; [done|]. split; [|by destruct c]. split; [by destruct c|]. intros ref.
  replace (ldc_mailboxes (set_ldc_mailboxes _ c)) with ((fun e => fst (f e)) <$> ldc_mailboxes c)
    by by destruct c.
  rewrite lookup_fmap. destruct (ldc_mailboxes c !! ref) eqn:He; constructor. by apply Hok.
Qed.

Lemma retire_closed_run c :
  core_inv c ->
  exists c', retire_closed_bindings c = (c', Ok tt) /\ core_same c c' /\
    ldc_mailboxes c' = (fun e => fst (retire_entry e)) <$> ldc_mailboxes c.
Proof.
  intros Hi. destruct (values_mut_same retire_entry c Hi) as (c' & Hrun & Hs & Hm).
  { intros ref e He. destruct (retire_entry_same _ _ _ e (core_entries c Hi ref e He)) as (-> & ? & _).
    split; [by eexists|done]. }
  exists c'. unfold retire_closed_bindings. rewrite run_bind, Hrun. done.
Qed.

(** Replacing one entry by one that follows it. *)
Lemma core_same_insert c ref e e' :
  core_inv c -> ldc_mailboxes c !! ref = Some e ->
  entry_same (ldc_clock_domain c) (ldc_clock_generation c) ref e e' ->
  core_same c (set_ldc_mailboxes (<[ref := e']> (ldc_mailboxes c)) c).
Proof.
  intros Hi He Hs. destruct (core_same_refl c Hi) as [_ Hr]. split; [by destruct c|]. intros ref'.
  replace (ldc_mailboxes (set_ldc_mailboxes (<[ref := e']> (ldc_mailboxes c)) c))
    with (<[ref := e']> (ldc_mailboxes c)) by by destruct c.
  destruct (decide (ref' = ref)) as [->|]; [|by rewrite lookup_insert_ne].
  rewrite He, lookup_insert_eq. by constructor.
Qed.

(** ** Offers *)

Lemma domain_try_offer_same ingress message r c :
  core_inv c ->
  core_same c (fst (domain_try_offer ingress message r c)) /\
  snd (domain_try_offer ingress message r c) <> Panic.
Proof.
  intros Hi. unfold domain_try_offer. rewrite run_read.
  destruct (fail_if _ _) as [u|e|] eqn:Hf; [|by split; [apply core_same_refl|]|by destruct (bool_decide _)].
  rewrite run_read. destruct (ldc_binding_index c !! li_binding_id ingress) as [ref|]; simpl;
    [|by split; [apply core_same_refl|]].
  unfold on_entry. destruct (ldc_mailboxes c !! ref) as [e|] eqn:He; [|by split; [apply core_same_refl|]].
  pose proof (core_entries c Hi ref e He) as Hei. pose proof (entry_mailbox _ _ _ _ Hei) as Hm.
  unfold on_mailbox. rewrite offer_run.
  destruct (offer_checks (dm_binding e) _ _ (dm_mailbox e)) as [u'|err|] eqn:Hc.
  - unfold with_err. destruct (steady_offer (dm_mailbox e) message r Hm) as [Hs Hfl].
    pose proof (try_offer_cases (dm_mailbox e) r message Hm) as Hcases.
    destruct (try_offer message r (dm_mailbox e)) as [mb' res]. simpl in *. split.
    + eapply core_same_insert; [done..|]. by apply entry_steady_same.
    + destruct Hcases as [(x & [= -> ->] & _)|[(_ & o & _ & [= -> ->])|(_ & plan & d & reason & _ & [= -> ->])]];
        done.
  - simpl. split; [|done]. eapply core_same_insert; [done..|]. by apply entry_steady_same; [|apply steady_refl|].
  - by apply offer_checks_total in Hc.
Qed.

(** ** Shutdown *)

Definition all_stopped (c : LoopDomainCore) : Prop :=
  forall ref e, ldc_mailboxes c !! ref = Some e -> mb_lifecycle (dm_mailbox e) <> Accepting.
Lemma all_stopped_same c c' : core_same c c' -> all_stopped c -> all_stopped c'.
Proof.
  intros Hs Ha ref e' He'. destruct (core_same_lookup_r _ _ _ _ Hs He') as (e & He & _ & _ & _ & _ & Hn).
  by apply Hn, (Ha ref).
Qed.

Lemma domain_stop_accepting_run c :
  core_inv c ->
  exists c', domain_stop_accepting c = (c', Ok tt) /\ core_same c c' /\ all_stopped c' /\
    forall ref e, ldc_mailboxes c' !! ref = Some e -> dm_active_epoch e = None.
Proof.
  intros Hi. unfold domain_stop_accepting. rewrite run_read, for_values_Ok; last first.
  { intros ref e He. pose proof (core_entries c Hi ref e He) as Hei.
    rewrite mailbox_snapshot_inv by apply Hei. simpl. rewrite (entry_consistent _ _ _ _ Hei).
    by destruct (entry_routes _ _ _ _ Hei) as [-> ->]. }
  rewrite run_bind. destruct (values_mut_same revoke_entry c Hi) as (c1 & Hrun & Hs1 & Hm1).
  { intros ref e He. destruct (revoke_entry_same _ _ _ e (core_entries c Hi ref e He)) as (-> & ? & _).
    split; [by eexists|done]. }
  rewrite Hrun. pose proof (core_same_inv _ _ Hi Hs1) as Hi1.
  assert (forall ref e1, ldc_mailboxes c1 !! ref = Some e1 ->
    dm_active_epoch e1 = None /\ mb_lifecycle (dm_mailbox e1) <> Accepting) as Hall.
  { intros ref e1. rewrite Hm1, lookup_fmap_Some. intros (e & <- & He).
    by destruct (revoke_entry_same _ _ _ e (core_entries c Hi ref e He)) as (_ & _ & ? & ?). }
  destruct (retire_closed_run c1 Hi1) as (c2 & Hrun2 & Hs2 & Hm2). rewrite Hrun2.
  assert (all_stopped c2) as Hst2.
  { eapply all_stopped_same; [done|]. intros ref e He. by eapply Hall. }
  exists c2. split; [done|]. split; [by eapply core_same_trans|]. split; [done|].
  intros ref e2 He2. pose proof (core_same_inv _ _ Hi1 Hs2) as Hi2.
  destruct (entry_staged _ _ _ _ (core_entries c2 Hi2 ref e2 He2)); try done.
  by destruct (Hst2 ref e2 He2).
Qed.

Lemma require_draining_Ok c : core_inv c -> all_stopped c -> require_draining c = Ok tt.
Proof.
  intros Hi Ha. apply for_values_Ok. intros ref e He.
  rewrite mailbox_snapshot_inv by apply (core_entries c Hi ref e He). simpl.
  by rewrite bool_decide_eq_false_2 by by eapply Ha.
Qed.
(** A loop that stops at the first failing entry has seen it. *)
Lemma for_values_cases {E : Type} (f : DomainMailbox -> result E unit) c :
  for_values f c = Ok tt /\ (forall ref e, ldc_mailboxes c !! ref = Some e -> f e = Ok tt) \/
  exists ref e, ldc_mailboxes c !! ref = Some e /\ f e <> Ok tt /\ for_values f c = f e.
Proof.
  unfold for_values.
  assert (forall p, p ∈ btree_iter (ldc_mailboxes c) <-> ldc_mailboxes c !! fst p = Some (snd p)) as Hin.
  { intros [ref e]. rewrite (btree_iter_Permutation (ldc_mailboxes c)). apply elem_of_map_to_list. }
  assert (try_fold (fun _ '(_, e) => f e) tt (btree_iter (ldc_mailboxes c)) = Ok tt /\
    (forall p, p ∈ btree_iter (ldc_mailboxes c) -> f (snd p) = Ok tt) \/
    exists p, p ∈ btree_iter (ldc_mailboxes c) /\ f (snd p) <> Ok tt /\
      try_fold (fun _ '(_, e) => f e) tt (btree_iter (ldc_mailboxes c)) = f (snd p)) as [[H1 H2]|(p & H1 & H2 & H3)].
  { clear Hin. induction (btree_iter (ldc_mailboxes c)) as [|[ref e] l IH]; [left; split; [done|by intros p ?%elem_of_nil]|].
    simpl. destruct (f e) as [[]|err|] eqn:Hfe; simpl.
    - destruct IH as [[-> IH]|(p & Hp & Hne & ->)]; [left|right].
      + split; [done|]. intros p [->|Hp]%elem_of_cons; [done|by apply IH].
      + exists p. split; [by right|done].
    - right. exists (ref, e). simpl. rewrite Hfe. split; [left|done].
    - right. exists (ref, e). simpl. rewrite Hfe. split; [left|done]. }
  - left. split; [done|]. intros ref e He. apply (H2 (ref, e)). by apply Hin.
  - right. exists (fst p), (snd p). split; [by apply Hin|done].
Qed.
Lemma require_draining_cases c :
  core_inv c ->
  all_stopped c /\ require_draining c = Ok tt \/ require_draining c = Err ShutdownRequiresDraining.
Proof.
  intros Hi. destruct (for_values_cases (fun entry =>
    snapshot ← map_err DomainMailboxError (mailbox_snapshot (dm_mailbox entry));
    fail_if (bool_decide (snapshot_lifecycle snapshot = Accepting)) ShutdownRequiresDraining) c)
    as [[Hok Hall]|(ref & e & He & Hne & Hf)].
  - left. split; [|done]. intros ref e He Hacc. specialize (Hall ref e He).
    rewrite mailbox_snapshot_inv in Hall by apply (core_entries c Hi ref e He). simpl in Hall.
    by rewrite bool_decide_eq_true_2 in Hall by done.
  - right. unfold require_draining. rewrite Hf.
    rewrite mailbox_snapshot_inv in * by apply (core_entries c Hi ref e He). simpl in *.
    by case_bool_decide.
Qed.

Lemma domain_cancel_run c :
  core_inv c -> all_stopped c ->
  exists c' records, domain_cancel_all_queued c = (c', Ok records) /\ core_same c c' /\
    forall ref e, ldc_mailboxes c' !! ref = Some e -> mb_queue (dm_mailbox e) = [] /\
      (mb_inflight (dm_mailbox e) = ∅ -> mb_lifecycle (dm_mailbox e) = Closed /\ dm_draining_epoch e = None).
Proof.
  intros Hi Ha. unfold domain_cancel_all_queued. rewrite run_read, require_draining_Ok, run_bind by done.
  set (f := on_mailbox DomainMailboxError cancel_all_queued).
  assert (forall ref e, ldc_mailboxes c !! ref = Some e ->
    (exists l, snd (f e) = Ok l) /\
    entry_same (ldc_clock_domain c) (ldc_clock_generation c) ref e (fst (f e)) /\
    mb_queue (dm_mailbox (fst (f e))) = [] /\
    (mb_inflight (dm_mailbox (fst (f e))) = ∅ -> mb_lifecycle (dm_mailbox (fst (f e))) = Closed)) as Hf.
  { intros ref e He. pose proof (core_entries c Hi ref e He) as Hei. unfold f, on_mailbox.
    destruct (steady_cancel (dm_mailbox e)) as (Hr & Hs & Hfl & Hq & Hcl); [apply Hei|by eapply Ha|].
    destruct (cancel_all_queued (dm_mailbox e)) as [mb' res]. simpl in *. rewrite Hr. split; [by eexists|].
    split; [by apply entry_steady_same|]. destruct e; simpl in *. split; [done|]. intros. apply Hcl. congruence. }
  destruct (values_mut_same f c Hi) as (c1 & Hrun & Hs1 & Hm1).
  { intros ref e He. by destruct (Hf ref e He) as (? & ? & _). }
  rewrite Hrun. pose proof (core_same_inv _ _ Hi Hs1) as Hi1. rewrite run_bind.
  destruct (retire_closed_run c1 Hi1) as (c2 & Hrun2 & Hs2 & Hm2). rewrite Hrun2.
  eexists c2, _. split; [done|]. split; [by eapply core_same_trans|].
  intros ref e2. rewrite Hm2, Hm1. rewrite lookup_fmap_Some. intros (e1 & <- & He1).
  assert (core_inv c1) as _ by done. rewrite <-Hm1 in He1.
  destruct (retire_entry_same _ _ _ e1 (core_entries c1 Hi1 ref e1 He1)) as (_ & _ & -> & Hret).
  rewrite Hm1, lookup_fmap_Some in He1. destruct He1 as (e & <- & He).
  destruct (Hf ref e He) as (_ & _ & Hq & Hcl). split; [done|]. intros Hemp. split; [by apply Hcl|].
  by apply Hret, Hcl.
Qed.

(** ** Cores that hold the same callbacks *)

(** The fields no operation assigns to. *)
Definition domain_config (c : LoopDomainCore) :=
  (ldc_spec c, ldc_domain_epoch c, ldc_owner c, ldc_clock_domain c, ldc_clock_generation c,
   ldc_binding_index c).

(** [c'] follows [c] with the same messages in flight and the same permits out. *)
Record core_quiet (c c' : LoopDomainCore) : Prop := {
  quiet_inv : core_inv c';
  quiet_config : domain_config c' = domain_config c;
  quiet_entries : forall ref,
    option_Forall2 (entry_same (ldc_clock_domain c) (ldc_clock_generation c) ref)
      (ldc_mailboxes c !! ref) (ldc_mailboxes c' !! ref);
  quiet_permits : ledger_active (ldc_permits c') = ledger_active (ldc_permits c);
}.
Lemma core_same_quiet c c' : core_inv c -> core_same c c' -> core_quiet c c'.
Proof.
  intros Hi Hs. constructor; [by eapply core_same_inv| |apply Hs|]; destruct Hs as [-> _]; by destruct c.
Qed.

(** Replacing one entry, whatever happened to its messages. *)
Lemma core_inv_insert c ref e e' :
  core_inv c -> ldc_mailboxes c !! ref = Some e ->
  entry_inv (ldc_clock_domain c) (ldc_clock_generation c) ref e' ->
  core_inv (set_ldc_mailboxes (<[ref := e']> (ldc_mailboxes c)) c).
Proof.
  intros [He Hx Hp Hn Hse Hc Hl Hli] Hr Hei. destruct c as [a b d f g m h i j]; simpl in *.
  assert (forall ref', is_Some (<[ref := e']> m !! ref') <-> is_Some (m !! ref')) as Hdom.
  { intros ref'. rewrite lookup_insert_is_Some. destruct (decide (ref = ref')) as [<-|]; [|naive_solver].
    rewrite Hr. naive_solver. }
  constructor; simpl; try done.
  - intros ref' x. destruct (decide (ref' = ref)) as [->|]; [rewrite lookup_insert_eq; by intros [= <-]|].
    rewrite lookup_insert_ne by done. apply He.
  - intros id ref' Hid. apply Hdom. by eapply Hx.
  - intros ref'. by rewrite Hse, Hdom.
Qed.
Lemma core_inv_permits c l :
  core_inv c -> ledger_inv l -> ledger_config l = ledger_config (ldc_permits c) -> core_inv (set_ldc_permits l c).
Proof.
  intros [He Hx Hp Hn Hse Hc Hl Hli] Hl' Hid. destruct c; simpl in *. constructor; simpl; try done. congruence.
Qed.
Lemma slots_evolve_mailboxes l l' :
  Forall2 slot_evolves l l' -> map slot_mailbox l' = map slot_mailbox l.
Proof.
  induction 1 as [|s s' l l' Hs _ IH]; [done|]. simpl.
  destruct (slot_evolves_fields _ _ Hs) as [-> _]. by f_equal.
Qed.
Lemma core_inv_dispatch c p :
  core_inv c -> policy_inv p -> slots_evolve (ldc_dispatch c) p -> core_inv (set_ldc_dispatch p c).
Proof.
  intros [He Hx Hp Hn Hse Hc Hl Hli] Hp' Hev.
  assert (map slot_mailbox (slots p) = map slot_mailbox (slots (ldc_dispatch c))) as Hmap.
  { by apply slots_evolve_mailboxes. }
  pose proof (slots_evolve_length _ _ Hev) as Hlen.
  destruct c; simpl in *. constructor; simpl; try done.
  - by rewrite Hmap.
  - intros ref. by rewrite Hmap.
  - unfold len in *. by rewrite Hlen.
Qed.

(** ** Finishing a grant *)

Lemma matches_grant_Some c g :
  matches_grant c g = true <->
  lg_owner g = ldc_owner c /\ lg_clock_domain g = ldc_clock_domain c /\
  lg_clock_generation g = ldc_clock_generation c /\
  exists e, ldc_mailboxes c !! execution_mailbox (lg_execution g) = Some e /\
    dm_execution e = lg_execution g.
Proof.
  unfold matches_grant. rewrite !andb_true_iff, !bool_decide_eq_true.
  destruct (ldc_mailboxes c !! _) as [e|]; [rewrite bool_decide_eq_true|]; naive_solver.
Qed.
Lemma matches_release_Some c r :
  matches_release c r = true <->
  lr_owner r = ldc_owner c /\ lr_clock_domain r = ldc_clock_domain c /\
  lr_clock_generation r = ldc_clock_generation c /\
  exists e, ldc_mailboxes c !! execution_mailbox (lr_execution r) = Some e /\
    dm_execution e = lr_execution r.
Proof.
  unfold matches_release. rewrite !andb_true_iff, !bool_decide_eq_true.
  destruct (ldc_mailboxes c !! _) as [e|]; [rewrite bool_decide_eq_true|]; naive_solver.
Qed.

(** The release handle of a finished grant. *)
Definition released_grant (g : LoopDomainGrant) (terminal : TerminalRecord) : LoopDomainRelease :=
  MkLoopDomainRelease (lg_owner g) (lg_clock_domain g) (lg_clock_generation g) (lg_execution g) terminal
    (lg_permit g).

Lemma domain_finish_run c g reason e :
  core_inv c -> matches_grant c g = true ->
  ldc_mailboxes c !! execution_mailbox (lg_execution g) = Some e ->
  token_live (dm_mailbox e) (lg_inflight g) -> is_inflight_completion reason = true ->
  exists mb' terminal,
    domain_finish g reason c =
    (set_ldc_mailboxes (<[execution_mailbox (lg_execution g) := set_dm_mailbox mb' e]> (ldc_mailboxes c)) c,
     Ok (released_grant g terminal)) /\
    steady (dm_mailbox e) mb' /\
    mb_inflight mb' = delete (msg_id (token_message (lg_inflight g))) (mb_inflight (dm_mailbox e)).
Proof.
  intros Hi Hg He Ht Hc. pose proof (core_entries c Hi _ e He) as Hei.
  destruct (steady_finish (dm_mailbox e) (lg_inflight g) reason) as (record & mb' & Hf & Hs & Hd);
    [apply Hei|done..|].
  exists mb', record. split; [|done]. unfold domain_finish. rewrite run_read, Hg. simpl.
  rewrite run_bind. unfold on_entry. rewrite He. unfold on_mailbox. rewrite Hf. done.
Qed.
Lemma domain_finish_failed c g reason :
  core_inv c ->
  ~ (matches_grant c g = true /\ is_inflight_completion reason = true /\
     exists e, ldc_mailboxes c !! execution_mailbox (lg_execution g) = Some e /\
       token_live (dm_mailbox e) (lg_inflight g)) ->
  exists err, domain_finish g reason c = (c, Err (MkLoopDomainFinishFailure err g)).
Proof.
  intros Hi Hn. unfold domain_finish. rewrite run_read. destruct (matches_grant c g) eqn:Hg; simpl; [|by eexists].
  rewrite run_bind. unfold on_entry.
  destruct (ldc_mailboxes c !! execution_mailbox (lg_execution g)) as [e|] eqn:He; [|by eexists].
  pose proof (core_entries c Hi _ e He) as Hei.
  destruct (failed_finish (dm_mailbox e) (lg_inflight g) reason) as [err Hf];
    [apply Hei|naive_solver|]. unfold on_mailbox. rewrite Hf. simpl. eexists.
  replace (set_dm_mailbox (dm_mailbox e) e) with e by by destruct e.
  rewrite insert_id by done. f_equal; [by destruct c|]. do 2 f_equal. by destruct g.
Qed.

(** ** Releasing a permit *)

Lemma domain_release_run c rel :
  core_inv c -> matches_release c rel = true -> token_active (lr_permit rel) = true ->
  permit_live (ldc_permits c) (lr_permit rel) ->
  exists c', domain_release (c, rel) = ((c', set_lr_permit (spend (lr_permit rel)) rel), Ok tt) /\
    core_inv c' /\ domain_config c' = domain_config c /\
    (forall ref, option_Forall2 (entry_same (ldc_clock_domain c) (ldc_clock_generation c) ref)
      (ldc_mailboxes c !! ref) (ldc_mailboxes c' !! ref)) /\
    ledger_active (ldc_permits c') =
      delete (token_permit_id (lr_permit rel)) (ledger_active (ldc_permits c)) /\
    ldc_mailboxes c' = (fun e => fst (retire_entry e)) <$> ldc_mailboxes c.
Proof.
  intros Hi Hm Hact Hlive. unfold domain_release. rewrite run_read, Hm. simpl. rewrite run_bind.
  destruct (release_cases (ldc_permits c) (lr_permit rel) (core_ledger c Hi)) as
    [[? _]|[(_ & ? & _)|(_ & _ & ->)]]; [congruence|done|]. simpl.
  set (l := ledger_released _ _ _). set (c1 := set_ldc_permits l c).
  assert (ledger_config l = ledger_config (ldc_permits c)) as Hid.
  { unfold l, ledger_released. destruct (token_pool _), (ldc_permits c); done. }
  assert (core_inv c1) as Hi1.
  { apply core_inv_permits; [done| |done]. apply ledger_released_inv; [apply Hi|apply Hlive]. }
  assert (ledger_active (ldc_permits c1) =
    delete (token_permit_id (lr_permit rel)) (ledger_active (ldc_permits c))) as Hdel.
  { unfold c1, l, ledger_released. destruct c; simpl. by destruct (token_pool _), ldc_permits. }
  destruct (retire_closed_run c1 Hi1) as (c2 & Hrun & Hs2 & Hm2). unfold on_fst. rewrite Hrun.
  exists c2. split; [done|]. destruct (core_same_quiet _ _ Hi1 Hs2) as [Hi2 Hcfg Hent Hper].
  split; [done|]. split; [rewrite Hcfg; by destruct c|]. split; [by destruct c|].
  split; [by rewrite Hper|]. rewrite Hm2. by destruct c.
Qed.

(** ** Readiness of the entries *)

(** The probe of every entry. *)
Record heads_for (c : LoopDomainCore) (r : ClockReading)
    (heads : list (MailboxRef * MailboxHeadReadiness)) : Prop := {
  heads_keys : map fst heads ≡ₚ btree_keys (ldc_mailboxes c);
  heads_entry : forall ref head, (ref, head) ∈ heads -> exists e, ldc_mailboxes c !! ref = Some e /\
    head_readiness (dm_mailbox e) r = Ok head;
}.
Definition in_domain_clock (c : LoopDomainCore) (r : ClockReading) : Prop :=
  reading_domain r = ldc_clock_domain c /\ reading_generation r = ldc_clock_generation c.

Lemma collect_readiness_run c r :
  core_inv c -> in_domain_clock c r ->
  exists heads, collect_readiness c r = Ok heads /\ heads_for c r heads.
Proof.
  intros Hi [Hd Hg].
  set (probe := fun e => match head_readiness (dm_mailbox e) r with Ok h => h | _ => HeadClosed end).
  assert (forall p, p ∈ btree_iter (ldc_mailboxes c) -> ldc_mailboxes c !! fst p = Some (snd p) /\
    head_readiness (dm_mailbox (snd p)) r = Ok (probe (snd p))) as Hall.
  { intros [ref e] Hin. rewrite (btree_iter_Permutation (ldc_mailboxes c)) in Hin.
    apply elem_of_map_to_list in Hin. split; [done|]. simpl. pose proof (core_entries c Hi ref e Hin) as Hei.
    destruct (head_readiness_total (dm_mailbox e) r) as (h & Hh & _);
      [apply Hei|by eapply entry_reads|]. unfold probe. by rewrite Hh. }
  exists (map (fun p => (fst p, probe (snd p))) (btree_iter (ldc_mailboxes c))). split.
  - unfold collect_readiness.
    rewrite (try_fold_ext _ (fun heads p => x ← (fun p => head ← map_err DomainMailboxError
      (head_readiness (dm_mailbox (snd p)) r); Ok (fst p, head)) p; Ok (heads ++ [x]))).
    2:{ intros heads [ref e]. simpl. by destruct (head_readiness _ _). }
    rewrite (try_fold_push _ (fun p => (fst p, probe (snd p)))); [done|].
    intros p Hp. destruct (Hall p Hp) as [_ ->]. done.
  - constructor.
    + rewrite map_map. unfold btree_keys. done.
    + intros ref head ([ref' e] & [= -> ->] & Hp)%elem_of_map. destruct (Hall _ Hp) as [H1 H2].
      simpl in *. eauto.
Qed.

(** The probes of a core stay true while the mailboxes stay. *)
Lemma heads_for_mailboxes c c' r heads :
  heads_for c r heads -> (forall ref, dm_mailbox <$> (ldc_mailboxes c' !! ref) = dm_mailbox <$> (ldc_mailboxes c !! ref)) ->
  heads_for c' r heads.
Proof.
  intros [Hk He] Hm. constructor.
  { rewrite Hk. apply NoDup_Permutation; [apply btree_keys_NoDup..|]. intros ref.
    rewrite !elem_of_btree_keys. specialize (Hm ref).
    destruct (ldc_mailboxes c !! ref), (ldc_mailboxes c' !! ref); naive_solver. }
  intros ref head Hin.
  destruct (He _ _ Hin) as (e & Hl & Hh). specialize (Hm ref). rewrite Hl in Hm. simpl in Hm.
  apply fmap_Some in Hm as (e' & -> & Heq). exists e'. by rewrite <-Heq.
Qed.

(** ** Slots and positions *)

Lemma position_of p mailbox :
  mailbox ∈ map slot_mailbox (slots p) -> is_Some (position p mailbox).
Proof.
  intros (s & -> & Hs)%elem_of_map. unfold position.
  destruct (list_find_elem_of (fun slot => slot_mailbox slot = slot_mailbox s) (slots p) s) as [x ->];
    [done|done|]. by eexists.
Qed.
Lemma readiness_loop_total p l ready seen :
  length ready = length (slots p) -> length seen = length (slots p) ->
  NoDup (map readiness_mailbox l) ->
  (forall input, input ∈ l -> readiness_mailbox input ∈ map slot_mailbox (slots p) /\
    forall hint, readiness_hint (readiness_head input) = Some hint ->
      hint_mailbox hint = readiness_mailbox input) ->
  (forall input i, input ∈ l -> position p (readiness_mailbox input) = Some i -> seen !! i = Some false) ->
  exists ready', readiness_loop p ready seen l = Ok ready'.
Proof.
  revert ready seen; induction l as [|input l IH]; intros ready seen Hr Hs Hnd Hin Hseen; [by eexists|].
  simpl. simpl in Hnd. apply NoDup_cons in Hnd as [Hni Hnd].
  destruct (Hin input ltac:(left)) as [Hslot Hhint].
  destruct (position_of p _ Hslot) as [i Hi]. rewrite Hi. simpl.
  rewrite (Hseen input i ltac:(left) Hi). simpl.
  replace (match readiness_hint (readiness_head input) with
           | Some hint => bool_decide (hint_mailbox hint <> readiness_mailbox input)
           | None => false end) with false; last first.
  { destruct (readiness_hint _) as [hint|] eqn:Hh; [|done]. rewrite (Hhint _ eq_refl).
    by rewrite bool_decide_ne_refl. }
  simpl. apply IH.
  - by rewrite length_insert.
  - by rewrite length_insert.
  - done.
  - intros x Hx. apply Hin. by right.
  - intros x j Hx Hj. rewrite list_lookup_insert_ne; [apply (Hseen x); [by right|done]|].
    intros ->. apply Hni. destruct (position_Some _ _ _ Hi) as (s & Hs1 & Hs2).
    destruct (position_Some _ _ _ Hj) as (s' & Hs1' & Hs2'). simplify_eq.
    apply elem_of_map. exists x. split; [congruence|done].
Qed.

(** The readiness of the entries is accepted by the dispatcher. *)
Definition inputs_of (heads : list (MailboxRef * MailboxHeadReadiness)) : list DispatchReadiness :=
  map (fun '(mailbox, head) => MkDispatchReadiness mailbox head) heads.
Lemma inputs_accepted c r heads :
  core_inv c -> in_domain_clock c r -> heads_for c r heads ->
  exists ready, validate_readiness (ldc_dispatch c) (inputs_of heads) = Ok ready.
Proof.
  intros Hi [Hd Hg] [Hk He]. unfold validate_readiness.
  assert (map readiness_mailbox (inputs_of heads) ≡ₚ btree_keys (ldc_mailboxes c)) as Hmap.
  { rewrite <-Hk. unfold inputs_of. rewrite map_map. erewrite map_ext; [done|]. by intros []. }
  assert (len (inputs_of heads) <= MAX_DISPATCH_SLOTS)%N as Hlen.
  { etrans; [|apply (core_slot_count c Hi)].
    unfold len. rewrite <-(length_map readiness_mailbox), Hmap.
    rewrite <-(length_map slot_mailbox).
    assert (length (btree_keys (ldc_mailboxes c)) <= length (map slot_mailbox (slots (ldc_dispatch c)))); [|lia].
    apply submseteq_length, NoDup_submseteq; [apply btree_keys_NoDup|].
    intros ref Href%elem_of_btree_keys. by apply (core_slot_entries c Hi). }
  destruct (N.ltb_spec MAX_DISPATCH_SLOTS (len (inputs_of heads))); [lia|]. simpl.
  apply readiness_loop_total.
  - by rewrite length_replicate.
  - by rewrite length_replicate.
  - rewrite Hmap. apply btree_keys_NoDup.
  - intros input ([ref head] & -> & Hin)%elem_of_map. simpl. destruct (He _ _ Hin) as (e & Hl & Hh).
    pose proof (core_entries c Hi ref e Hl) as Hei. split; [apply (core_slot_entries c Hi); by eexists|].
    intros hint Hhint. destruct (head_readiness_total (dm_mailbox e) r) as (h & Hh' & _ & Hmb & _);
      [apply Hei|by eapply entry_reads|]. rewrite Hh in Hh'. injection Hh' as <-.
    rewrite (Hmb hint Hhint). by eapply entry_reference.
  - intros input i _ Hpos. destruct (position_Some _ _ _ Hpos) as (s & Hs & _).
    apply lookup_replicate. split; [done|]. by eapply lookup_lt_Some.
Qed.

(** ** Expiry before dispatch *)

(** No message that can still run has left a queue. *)
Definition live_same (r : ClockReading) (c c' : LoopDomainCore) : Prop :=
  forall ref e e', ldc_mailboxes c !! ref = Some e -> ldc_mailboxes c' !! ref = Some e' ->
    live r (mb_queue (dm_mailbox e')) = live r (mb_queue (dm_mailbox e)).
Lemma live_idemp r q : live r (live r q) = live r q.
Proof.
  unfold live. induction q as [|item q IH]; [done|]. rewrite filter_cons. case_decide; [|done].
  by rewrite filter_cons_True, IH by done.
Qed.
Lemma expire_live mb r :
  mailbox_inv mb -> live r (mb_queue (fst (expire_queued r mb))) = live r (mb_queue mb).
Proof.
  intros Hi. destruct (expire_cases mb r Hi) as [[_ ->]|[(e & -> & _)|(_ & _ & t & _ & ->)]]; [done..|].
  simpl. destruct (close_if_drained_internal_frame (state_without_expired mb r t)) as (l & -> & _).
  destruct mb; simpl. apply live_idemp.
Qed.

Lemma expire_entry c ref e r :
  core_inv c -> in_domain_clock c r -> ldc_mailboxes c !! ref = Some e ->
  exists c' records,
    on_entry ref StateInconsistent (on_mailbox DomainMailboxError (expire_queued r)) c = (c', Ok records) /\
    core_same c c' /\ live_same r c c' /\
    (mb_lifecycle (dm_mailbox e) <> Closed -> records = expiry_records r (mb_queue (dm_mailbox e))).
Proof.
  intros Hi [Hd Hg] He. pose proof (core_entries c Hi ref e He) as Hei.
  destruct (steady_expire (dm_mailbox e) r) as (records & Hres & Hs & Hfl & Hrec);
    [apply Hei|by eapply entry_reads|].
  pose proof (expire_live (dm_mailbox e) r (entry_mailbox _ _ _ _ Hei)) as Hlive.
  unfold on_entry. rewrite He. unfold on_mailbox.
  destruct (expire_queued r (dm_mailbox e)) as [mb' res]; simpl in *. subst res.
  eexists _, records. split; [done|]. split; [by eapply core_same_insert, entry_steady_same|]. split; [|done].
  intros ref' e1 e2 H1. replace (ldc_mailboxes (set_ldc_mailboxes _ c)) with
    (<[ref := set_dm_mailbox mb' e]> (ldc_mailboxes c)) by by destruct c.
  destruct (decide (ref' = ref)) as [->|]; [rewrite lookup_insert_eq|rewrite lookup_insert_ne by done];
    intros ?; simplify_eq; [|done]. rewrite <-Hlive. by destruct e.
Qed.
Lemma live_same_trans r c1 c2 c3 :
  core_same c1 c2 -> live_same r c1 c2 -> live_same r c2 c3 -> live_same r c1 c3.
Proof.
  intros Hs H12 H23 ref e e3 He He3. destruct (core_same_lookup _ _ _ _ Hs He) as (e2 & He2 & _).
  rewrite (H23 ref e2 e3 He2 He3). by apply (H12 ref).
Qed.
Lemma live_same_refl r c : live_same r c c.
Proof. intros ref e e' ? ?. by simplify_eq. Qed.
Lemma core_same_clock c c' r : core_same c c' -> in_domain_clock c r -> in_domain_clock c' r.
Proof. intros [-> _]. by destruct c. Qed.

Lemma expire_mailboxes_loop r refs acc c :
  core_inv c -> in_domain_clock c r -> (forall ref, ref ∈ refs -> is_Some (ldc_mailboxes c !! ref)) ->
  exists c' records,
    for_each (fun terminals mailbox =>
      records ← on_entry mailbox StateInconsistent (on_mailbox DomainMailboxError (expire_queued r));
      mret (terminals ++ records)) acc refs c = (c', Ok (acc ++ records)) /\
    core_same c c' /\ live_same r c c'.
Proof.
  revert acc c; induction refs as [|ref refs IH]; intros acc c Hi Hc Hin.
  - exists c, []. rewrite app_nil_r. split; [done|]. split; [by apply core_same_refl|apply live_same_refl].
  - destruct (Hin ref ltac:(left)) as [e He].
    destruct (expire_entry c ref e r Hi Hc He) as (c1 & records & Hrun & Hs1 & Hl1 & _).
    cbn [for_each]. rewrite run_bind, run_bind, Hrun. simpl.
    destruct (IH (acc ++ records) c1) as (c2 & records2 & Hrun2 & Hs2 & Hl2).
    + by eapply core_same_inv.
    + by eapply core_same_clock.
    + intros ref' Hr. eapply core_same_is_Some; [done|]. apply Hin. by right.
    + exists c2, (records ++ records2). rewrite app_assoc. split; [done|].
      split; [by eapply core_same_trans|by eapply live_same_trans].
Qed.
(** Expiring the heads that are due; nothing is reported only if none is. *)
Lemma expire_mailboxes_run r refs c :
  core_inv c -> in_domain_clock c r ->
  (forall ref, ref ∈ refs -> exists e, ldc_mailboxes c !! ref = Some e /\
    mb_lifecycle (dm_mailbox e) <> Closed /\ expiry_records r (mb_queue (dm_mailbox e)) <> []) ->
  exists c' records, expire_mailboxes r refs c = (c', Ok records) /\ core_same c c' /\ live_same r c c' /\
    (records = [] -> c' = c).
Proof.
  intros Hi Hc Hin. unfold expire_mailboxes. destruct refs as [|ref refs].
  - exists c, []. split; [done|]. split; [by apply core_same_refl|]. split; [apply live_same_refl|done].
  - destruct (Hin ref ltac:(left)) as (e & He & Hncl & Hne).
    destruct (expire_entry c ref e r Hi Hc He) as (c1 & records & Hrun & Hs1 & Hl1 & Hrec).
    destruct (expire_mailboxes_loop r refs ([] ++ records) c1) as (c2 & records2 & Hrun2 & Hs2 & Hl2).
    + by eapply core_same_inv.
    + by eapply core_same_clock.
    + intros ref' Hr. eapply core_same_is_Some; [done|].
      destruct (Hin ref' ltac:(by right)) as (e' & -> & _). by eexists.
    + exists c2, (([] ++ records) ++ records2). cbn [for_each]. rewrite run_bind, run_bind, Hrun. simpl in *.
      split; [done|]. split; [by eapply core_same_trans|]. split; [by eapply live_same_trans|].
      rewrite (Hrec Hncl). intros [Hnil _]%app_eq_nil. done.
Qed.

(** ** Dispatch *)

(** What a started grant took: a permit that was not out, and the oldest live
    message of its mailbox, which was not in flight. *)
Record core_started (c c' : LoopDomainCore) (r : ClockReading) (g : LoopDomainGrant) : Prop := {
  started_inv : core_inv c';
  started_config : domain_config c' = domain_config c;
  started_others : forall ref, ref <> execution_mailbox (lg_execution g) ->
    option_Forall2 (entry_same (ldc_clock_domain c) (ldc_clock_generation c) ref)
      (ldc_mailboxes c !! ref) (ldc_mailboxes c' !! ref);
  started_entry : exists e e' item q,
    ldc_mailboxes c !! execution_mailbox (lg_execution g) = Some e /\
    ldc_mailboxes c' !! execution_mailbox (lg_execution g) = Some e' /\
    dm_execution e = lg_execution g /\ dm_execution e' = lg_execution g /\
    live r (mb_queue (dm_mailbox e)) = item :: q /\
    token_message (lg_inflight g) = queued_message item /\
    token_live (dm_mailbox e') (lg_inflight g) /\
    mb_inflight (dm_mailbox e) !! msg_id (token_message (lg_inflight g)) = None /\
    mb_inflight (dm_mailbox e') =
      <[msg_id (token_message (lg_inflight g)) :=
        MkInflightAccounting (token_token_generation (lg_inflight g))
          (charged_bytes (msg_payload (token_message (lg_inflight g))))]> (mb_inflight (dm_mailbox e));
  started_grant : matches_grant c' g = true /\ token_active (lg_permit g) = true /\
    lg_callback_claimed g = false;
  started_permit : ledger_active (ldc_permits c) !! token_permit_id (lg_permit g) = None /\
    token_ledger (lg_permit g) = ledger_id (ldc_permits c') /\
    ledger_active (ldc_permits c') =
      <[token_permit_id (lg_permit g) := token_pool (lg_permit g)]> (ledger_active (ldc_permits c));
}.

(** The failures of a dispatch in the domain's clock: a [u64] counter of tokens
    or permits is used up. *)
Definition dispatch_exhausted (e : LoopDomainError) : Prop :=
  e = DomainMailboxError MailboxModel.CounterOverflow \/
  e = DomainDispatchError (Permit PermitCounterOverflow).

Inductive dispatched_domain (c : LoopDomainCore) (r : ClockReading)
    : LoopDomainCore * result LoopDomainError LoopDomainDispatchReport -> Prop :=
| domain_idled c' reason terminals :
    core_quiet c c' ->
    dispatched_domain c r (c', Ok (MkLoopDomainDispatchReport (DomainIdle reason) terminals))
| domain_started c' g terminals :
    core_started c c' r g ->
    dispatched_domain c r (c', Ok (MkLoopDomainDispatchReport (DomainStarted g) terminals))
| domain_exhausted c' e :
    core_quiet c c' -> dispatch_exhausted e -> dispatched_domain c r (c', Err e).

Lemma ledger_after_view l pool :
  ledger_active (ledger_after l pool) = <[(ledger_next_permit_id l + 1)%N := pool]> (ledger_active l) /\
  ledger_id (ledger_after l pool) = ledger_id l /\ ledger_config (ledger_after l pool) = ledger_config l.
Proof. unfold ledger_after. destruct l, pool; done. Qed.
(** A permit that comes straight back leaves the ledger as it was, but for the
    next identity. *)
Lemma ledger_returned l pool :
  ledger_inv l -> ledger_inv (ledger_after l pool) ->
  exists l', release (ledger_after l pool, MkDomainPermitToken (ledger_id l) (ledger_next_permit_id l + 1) pool true)
      = ((l', spend (MkDomainPermitToken (ledger_id l) (ledger_next_permit_id l + 1) pool true)), Ok tt) /\
    ledger_inv l' /\ ledger_config l' = ledger_config l /\ ledger_active l' = ledger_active l.
Proof.
  intros Hl Hl'. destruct (ledger_after_view l pool) as (Hact & Hid & Hlc).
  set (t := MkDomainPermitToken _ _ _ _).
  assert (permit_live (ledger_after l pool) t) as Hlive.
  { split; [by rewrite Hid|]. rewrite Hact. apply lookup_insert_eq. }
  destruct (release_cases _ t Hl') as [[? _]|[(_ & ? & _)|(_ & _ & ->)]]; [done..|].
  eexists. split; [done|]. split; [apply ledger_released_inv; [done|apply Hlive]|].
  pose proof (fresh_permit_id l Hl). unfold ledger_released. simpl.
  destruct pool, l; simpl in *; (split; [done|]); by rewrite delete_insert_id.
Qed.

(** The core after a selection: only the policy and the ledger changed. *)
Definition with_selection (p : DispatchPolicy) (l : DomainPermitLedger) (c : LoopDomainCore) : LoopDomainCore :=
  set_ldc_permits l (set_ldc_dispatch p c).
Lemma with_selection_inv p l c :
  core_inv c -> policy_inv p -> slots_evolve (ldc_dispatch c) p -> ledger_inv l ->
  ledger_config l = ledger_config (ldc_permits c) -> core_inv (with_selection p l c).
Proof.
  intros Hi Hp Hev Hl Hid. unfold with_selection. apply core_inv_permits; [by apply core_inv_dispatch|done|].
  by destruct c.
Qed.
Lemma with_selection_fields p l c :
  ldc_mailboxes (with_selection p l c) = ldc_mailboxes c /\ ldc_permits (with_selection p l c) = l /\
    domain_config (with_selection p l c) = domain_config c.
Proof. by destruct c. Qed.
Lemma with_selection_quiet p l c :
  core_inv c -> policy_inv p -> slots_evolve (ldc_dispatch c) p -> ledger_inv l ->
  ledger_config l = ledger_config (ldc_permits c) -> ledger_active l = ledger_active (ldc_permits c) ->
  core_quiet c (with_selection p l c).
Proof.
  intros Hi Hp Hev Hl Hid Hact. destruct (core_same_quiet _ _ Hi (core_same_refl c Hi)) as [_ _ Hent _].
  destruct (with_selection_fields p l c) as (Hm & Hl' & Hcfg).
  constructor; [by apply with_selection_inv|done|by rewrite Hm|by rewrite Hl'].
Qed.

(** A selected slot belongs to an entry that is ready. *)
Lemma selected_entry c r heads i s input :
  core_inv c -> in_domain_clock c r -> heads_for c r heads ->
  slots (ldc_dispatch c) !! i = Some s -> input ∈ inputs_of heads ->
  is_dispatchable (readiness_head input) = true ->
  position (ldc_dispatch c) (readiness_mailbox input) = Some i ->
  exists e, ldc_mailboxes c !! slot_mailbox s = Some e /\ ready_now (dm_mailbox e) r.
Proof.
  intros Hi [Hd Hg] [_ He] Hs Hin Hdisp Hpos.
  destruct (position_Some _ _ _ Hpos) as (s' & Hs' & Heq). simplify_eq.
  apply elem_of_map in Hin as ([ref head] & -> & Hin). simpl in *. subst ref.
  destruct (He _ _ Hin) as (e & Hl & Hh). exists e. split; [done|].
  pose proof (core_entries c Hi _ e Hl) as Hei.
  destruct (head_readiness_total (dm_mailbox e) r) as (h & Hh' & Hready & _);
    [apply Hei|by eapply entry_reads|]. rewrite Hh in Hh'. injection Hh' as <-. by apply Hready.
Qed.

Lemma start_selected_run c p' s e pool path r terminals :
  core_inv c -> in_domain_clock c r -> policy_inv p' -> slots_evolve (ldc_dispatch c) p' ->
  ledger_inv (ledger_after (ldc_permits c) pool) ->
  ldc_mailboxes c !! slot_mailbox s = Some e -> ready_now (dm_mailbox e) r ->
  dispatched_domain c r (start_selected (MkDispatchGrant
      (MkDispatchSelection (slot_mailbox s) (slot_class s) (slot_cost s) path)
      (MkDomainPermitToken (ledger_id (ldc_permits c)) (ledger_next_permit_id (ldc_permits c) + 1) pool true))
    r terminals (with_selection p' (ledger_after (ldc_permits c) pool) c)).
Proof.
  intros Hi [Hd Hg] Hp' Hev Hl He Hready. set (l := ldc_permits c) in *.
  pose proof (core_entries c Hi _ e He) as Hei. pose proof (entry_mailbox _ _ _ _ Hei) as Hm.
  destruct (ledger_after_view l pool) as (Hact & Hid & Hlc).
  unfold start_selected. simpl.
  destruct (with_selection_fields p' (ledger_after l pool) c) as (Hms & Hls & Hcfg). rewrite Hms, He.
  destruct (begin_ready (dm_mailbox e) r Hm) as
    [[_ ->]|(mb' & token & expired & item & q & -> & Hlive & Hmsg & Hst & Htok & Hfree & Hins)];
    [by eapply entry_reads|done| |].
  - replace (set_dm_mailbox (dm_mailbox e) e) with e by by destruct e. rewrite insert_id by done.
    replace (set_ldc_mailboxes (ldc_mailboxes c) (with_selection p' (ledger_after l pool) c))
      with (with_selection p' (ledger_after l pool) c) by by destruct c.
    rewrite run_bind. unfold release_permit. rewrite Hls.
    destruct (ledger_returned l pool (core_ledger c Hi) Hl) as (l' & -> & Hl' & Hid' & Hact'). simpl.
    replace (set_ldc_permits l' _) with (with_selection p' l' c) by by destruct c.
    apply domain_exhausted; [by apply with_selection_quiet|by left].
  - simpl. apply domain_started. set (c3 := with_selection p' (ledger_after l pool) c) in *.
    assert (core_inv c3) as Hi3 by (by apply with_selection_inv).
    assert (ldc_clock_domain c3 = ldc_clock_domain c /\ ldc_clock_generation c3 = ldc_clock_generation c /\
    ldc_owner c3 = ldc_owner c) as (Hcd & Hcg & Ho) by by destruct c.
    assert (entry_inv (ldc_clock_domain c3) (ldc_clock_generation c3) (slot_mailbox s) (set_dm_mailbox mb' e))
      as Hei' by (rewrite Hcd, Hcg; by apply entry_steady).
    rewrite <-Hms in He |- *.
    assert (forall m, ldc_mailboxes (set_ldc_mailboxes m c3) = m /\ ldc_permits (set_ldc_mailboxes m c3) = ledger_after l pool
      /\ domain_config (set_ldc_mailboxes m c3) = domain_config c) as Hset by by destruct c.
    destruct (Hset (<[slot_mailbox s := set_dm_mailbox mb' e]> (ldc_mailboxes c3))) as (Hm4 & Hl4 & Hc4).
    pose proof (entry_execution _ _ _ _ Hei) as Hex.
    constructor; simpl; rewrite ?Hm4, ?Hl4, ?Hex, ?Hms.
    + rewrite <-Hms. by eapply core_inv_insert.
    + by rewrite <-Hms.
    + intros ref Hne. rewrite lookup_insert_ne by done.
      destruct (core_same_refl c Hi) as [_ Hsame]. apply Hsame.
    + exists e, (set_dm_mailbox mb' e), item, q. rewrite Hms in He. rewrite lookup_insert_eq.
      destruct e; simpl in *. by repeat (split; [done|]).
    + split; [|done]. rewrite <-Hms. apply matches_grant_Some. simpl. rewrite Hm4, Hex.
      split; [by destruct c|]. split; [by destruct c|]. split; [by destruct c|].
      eexists. rewrite lookup_insert_eq. split; [done|]. by destruct e.
    + split; [by apply fresh_permit_id, Hi|]. by rewrite Hid, Hact.
Qed.

(** The last part of a dispatch, from a core [c] whose probes are [heads]. *)
Lemma dispatch_selected c r heads terminals :
  core_inv c -> in_domain_clock c r -> heads_for c r heads ->
  dispatched_domain c r
    ((decision ← (fun self =>
        let '((dispatch, permits), res) :=
          try_select_and_acquire (inputs_of heads) (ldc_dispatch self, ldc_permits self) in
        (set_ldc_permits permits (set_ldc_dispatch dispatch self), map_err DomainDispatchError res));
      match decision with
      | Idle reason => mret (MkLoopDomainDispatchReport (DomainIdle reason) terminals)
      | Selected grant => start_selected grant r terminals
      end) c).
Proof.
  intros Hi Hc Hh. rewrite run_bind.
  pose proof (try_select_and_acquire_spec (inputs_of heads) (ldc_dispatch c) (ldc_permits c)
    (core_policy c Hi) (core_ledger c Hi)) as Hsel.
  remember (try_select_and_acquire _ _) as out eqn:Eout. clear Eout.
  assert (core_quiet c (set_ldc_permits (ldc_permits c) (set_ldc_dispatch (ldc_dispatch c) c))) as Hq.
  { apply with_selection_quiet; try done; apply Hi. }
  destruct Hsel as [e Hv _|_|_|p' i s input pool path Hp' Hev Hs Hin Hdisp Hpos Hpool Hnext|p' Hp' Hev Hnext].
  - destruct (inputs_accepted c r heads Hi Hc Hh) as [ready Hr]. congruence.
  - by apply domain_idled.
  - by apply domain_idled.
  - destruct (selected_entry c r heads i s input) as (e & He & Hready); try done.
    eapply start_selected_run; try done. eapply ledger_after_inv; [apply Hi|done].
  - apply domain_exhausted; [|by right]. apply with_selection_quiet; try done. apply Hi.
Qed.

Lemma entries_trans cd cg ref (o1 o2 o3 : option DomainMailbox) :
  option_Forall2 (entry_same cd cg ref) o1 o2 -> option_Forall2 (entry_same cd cg ref) o2 o3 ->
  option_Forall2 (entry_same cd cg ref) o1 o3.
Proof.
  intros [e1 e2 H12|] H23; inversion H23; subst; constructor. by eapply entry_same_trans.
Qed.
Lemma core_same_fields c c' :
  core_same c c' -> domain_config c' = domain_config c /\ ldc_permits c' = ldc_permits c /\
  ldc_clock_domain c' = ldc_clock_domain c /\ ldc_clock_generation c' = ldc_clock_generation c.
Proof. intros [-> _]. by destruct c. Qed.

(** A dispatch that follows expiry and retirement. *)
Lemma dispatched_after c c2 r out :
  core_inv c -> core_same c c2 -> live_same r c c2 ->
  dispatched_domain c2 r out -> dispatched_domain c r out.
Proof.
  intros Hi Hs Hl Hd. destruct (core_same_fields _ _ Hs) as (Hcfg & Hper & Hcd & Hcg).
  assert (forall c', core_quiet c2 c' -> core_quiet c c') as Hquiet.
  { intros c' [Hi' Hcfg' Hent Hact]. constructor; [done|congruence| |congruence]. intros ref.
    rewrite Hcd, Hcg in Hent. eapply entries_trans; [apply Hs|apply Hent]. }
  destruct Hd as [c' reason terminals Hq|c' g terminals Hst|c' e Hq He].
  - apply domain_idled. by apply Hquiet.
  - apply domain_started.
    destruct Hst as [Hi' Hcfg' Hoth (e2 & e' & item & q & H1 & H2 & H3 & H4 & H5 & H6 & H7 & H8 & H9) Hg Hp].
    rewrite Hcd, Hcg in Hoth. rewrite Hper in Hp.
    constructor; [done|congruence| | |done|done].
    + intros ref Hne. eapply entries_trans; [apply Hs|by apply Hoth].
    + destruct (core_same_lookup_r _ _ _ _ Hs H1) as (e & He & _ & Hex & _ & Hfl & _).
      exists e, e', item, q. rewrite <-Hfl, <-Hex, <-(Hl _ _ _ He H1).
      by repeat (split; [done|]).
  - apply domain_exhausted; [by apply Hquiet|done].
Qed.

Lemma retire_live_same r c c' :
  core_inv c -> ldc_mailboxes c' = (fun e => fst (retire_entry e)) <$> ldc_mailboxes c ->
  (forall ref, dm_mailbox <$> (ldc_mailboxes c' !! ref) = dm_mailbox <$> (ldc_mailboxes c !! ref)) /\
  live_same r c c'.
Proof.
  intros Hi Hm. assert (forall ref e, ldc_mailboxes c !! ref = Some e ->
    dm_mailbox (fst (retire_entry e)) = dm_mailbox e) as Hkeep.
  { intros ref e He. by destruct (retire_entry_same _ _ _ e (core_entries c Hi ref e He)) as (_ & _ & ? & _). }
  split.
  - intros ref. rewrite Hm, lookup_fmap. destruct (ldc_mailboxes c !! ref) as [e|] eqn:He; [|done].
    simpl. by rewrite (Hkeep ref).
  - intros ref e e' He. rewrite Hm, lookup_fmap, He. intros [= <-]. by rewrite (Hkeep ref).
Qed.
Lemma try_dispatch_cases c r :
  core_inv c ->
  (~ in_domain_clock c r /\ exists e, (e = ClockDomainMismatch \/ e = ClockGenerationMismatch) /\
    try_dispatch r c = (c, Err e)) \/
  (in_domain_clock c r /\ dispatched_domain c r (try_dispatch r c)).
Proof.
  intros Hi. unfold try_dispatch. rewrite run_read. unfold domain_ensure_reading.
  destruct (bool_decide_reflect (reading_domain r <> ldc_clock_domain c)) as [Hd|Hd];
    [left; split; [by intros []|simpl; eauto]|].
  destruct (bool_decide_reflect (reading_generation r <> ldc_clock_generation c)) as [Hg|Hg];
    [left; split; [by intros []|simpl; eauto]|]. cbn [negb]. same_inv.
  assert (in_domain_clock c r) as Hc by done. right. split; [done|].
  destruct (collect_readiness_run c r Hi Hc) as (initial & Hrun0 & Hh0). rewrite run_read, Hrun0. simpl.
  destruct (expire_mailboxes_run r (omap (fun '(mailbox, head) =>
    match head with HeadExpired _ _ => Some mailbox | _ => None end) initial) c Hi Hc)
    as (c1 & records & Hrun1 & Hs1 & Hl1 & Hnil).
  { intros ref ([ref' head] & Hin & Hsome)%list_elem_of_omap. destruct head; simplify_eq.
    destruct (heads_entry _ _ _ Hh0 _ _ Hin) as (e & He & Hhd). exists e. split; [done|].
    pose proof (core_entries c Hi ref e He) as Hei. destruct Hc.
    destruct (head_readiness_total (dm_mailbox e) r) as (h & Hh' & _ & _ & Hexp);
      [apply Hei|by eapply entry_reads|]. rewrite Hhd in Hh'. injection Hh' as <-. by eapply Hexp. }
  rewrite run_bind, Hrun1. pose proof (core_same_inv _ _ Hi Hs1) as Hi1. rewrite run_bind.
  destruct (retire_closed_run c1 Hi1) as (c2 & Hrun2 & Hs2 & Hm2). rewrite Hrun2.
  pose proof (core_same_inv _ _ Hi1 Hs2) as Hi2. destruct (retire_live_same r c1 c2 Hi1 Hm2) as [Hmb Hl2].
  pose proof (core_same_trans _ _ _ Hs1 Hs2) as Hs12. pose proof (core_same_clock _ _ _ Hs12 Hc) as Hc2.
  pose proof (live_same_trans _ _ _ _ Hs1 Hl1 Hl2) as Hl12.
  apply (dispatched_after c c2 r _ Hi Hs12 Hl12).
  destruct (decide (records = [])) as [->|Hne].
  - rewrite bool_decide_eq_true_2 by done. rewrite run_bind. simpl. rewrite (Hnil eq_refl) in *.
    apply dispatch_selected; [done..|].
    by eapply heads_for_mailboxes.
  - rewrite bool_decide_eq_false_2 by done.
    destruct (collect_readiness_run c2 r Hi2 Hc2) as (heads & Hrun3 & Hh). rewrite run_read, Hrun3.
    by apply dispatch_selected.
Qed.
