(* ===== verification/LoopDomainProps.v ===== *)
(** * Loop domains: properties

    The holder of a loop domain owns the core and the affine handles it was
    given: the grants of started callbacks and the releases of finished ones.
    Over every interleaving of its calls, a dispatch starts the oldest live
    message of a mailbox or reports why not, callbacks stay within the planned
    permits, and a shutdown leaves nothing behind. *)

From S2P Require Import Prelude Bytes KernelTime KernelDigest Assignment CardInstance MailboxModel MailboxInv MailboxOffer MailboxSteps Mailbox PortBinding DispatchPermits DispatchModel DispatchInv Dispatch ExecutionPlan LoopDomain LoopDomainInv.
Open Scope rust_scope.

(** ** Construction *)

Lemma new_mailbox_fields reference schema interaction spec cd cg mb :
  mailbox_try_new reference schema interaction spec cd cg = Ok mb ->
  mb_clock_domain mb = cd /\ mb_clock_generation mb = cg /\ mb_inflight mb = ∅ /\
  mb_lifecycle mb = Accepting.
Proof. unfold mailbox_try_new, try_new_with_class. intros H. rust_inv. by simplify_eq. Qed.

Lemma on_local_Ok {S E F A : Type} (wrap : E -> F) (m : M S E A) s s' a :
  on_local wrap m s = Ok (s', a) -> m s = (s', Ok a).
Proof. unfold on_local. destruct (m s) as [s0 res]. intros H. rust_inv. by simplify_eq. Qed.

Lemma install_entry_inv execution binding cd cg e :
  (max_inflight (binding_mailbox_spec binding) <= u32_max)%N ->
  mailbox_ref binding = execution_mailbox execution ->
  install_entry execution binding cd cg = Ok e ->
  entry_inv cd cg (execution_mailbox execution) e /\ mb_inflight (dm_mailbox e) = ∅ /\
  dm_execution e = execution.
Proof.
  intros Hu Href H. unfold install_entry in H.
  destruct (mailbox_try_new _ _ _ _ cd cg) as [mb| |] eqn:Hmb; [|done..]. simpl in H.
  destruct (on_local _ (prepare _ _ _) _) as [[b epoch]| |] eqn:Hp; [|done..]. simpl in H.
  destruct (on_local _ (activate _ _) _) as [[[b' prev] route]| |] eqn:Ha; [|done..]. simpl in H.
  rust_inv. same_inv. simplify_eq.
  assert (mailbox_inv mb) as Hm by (by eapply try_new_with_class_inv).
  destruct (new_mailbox_fields _ _ _ _ _ _ _ Hmb) as (Hcd & Hcg & Hf & Hacc).
  apply on_local_Ok in Hp. apply on_local_Ok in Ha.
  destruct (prepare_effect _ _ _ _ _ _ Hp) as [->|(p & -> & _ & Hepoch & _)].
  - apply activate_effect in Ha; [|done|done]. by inversion Ha.
  - apply activate_effect in Ha; [|done|done]. inversion Ha; simplify_eq. simpl in *. simplify_eq.
    split; [|done]. constructor; simpl; try done.
    by eapply stage_active.
Qed.

(** What the construction loop keeps. *)
Record build_inv (cd : ClockDomainRef) (cg : ClockGeneration) (b : DomainBuild) : Prop := {
  build_entries : forall ref e, build_mailboxes b !! ref = Some e ->
    entry_inv cd cg ref e /\ mb_inflight (dm_mailbox e) = ∅;
  build_index : forall id ref, build_binding_index b !! id = Some ref -> is_Some (build_mailboxes b !! ref);
  build_specs : Forall spec_ok (build_slot_specs b);
  build_slots : NoDup (map spec_mailbox (build_slot_specs b));
  build_slot_entries : forall ref,
    ref ∈ map spec_mailbox (build_slot_specs b) <-> is_Some (build_mailboxes b !! ref);
}.

Definition typed_bindings (bindings : list BindingAssignment) : Prop :=
  Forall (fun b => (max_inflight (binding_mailbox_spec b) <= u32_max)%N) bindings.

Lemma build_execution_inv bindings cd cg b execution b' :
  typed_bindings bindings -> build_inv cd cg b ->
  build_execution bindings cd cg b execution = Ok b' -> build_inv cd cg b'.
Proof.
  intros Ht [He Hx Hs Hn Hse] H. unfold build_execution in H.
  rust_inv. same_inv. simplify_eq.
  match goal with H : head _ = Some ?x |- _ => rename H into Hhead; rename x into binding end.
  match goal with H : validate_binding _ _ = Ok _ |- _ => unfold validate_binding in H; rename H into Hv end.
  match goal with H : slot_spec_try_new _ _ _ _ _ = Ok ?x |- _ => rename H into Hspec; rename x into spec end.
  match goal with H : install_entry _ _ _ _ = Ok ?x |- _ => rename H into Hinst; rename x into entry end.
  rust_inv. same_inv.
  assert (binding ∈ bindings) as Hb.
  { assert (binding ∈ base.filter (fun binding => binding_id binding = execution_binding_id execution) bindings)
      as Hf by (destruct (base.filter _ bindings); simpl in Hhead; simplify_eq; left).
    by apply list_elem_of_filter in Hf as [_ ?]. }
  assert (spec_mailbox spec = execution_mailbox execution) as Hsm.
  { unfold slot_spec_try_new in Hspec. rust_inv. by simplify_eq. }
  pose proof (proj1 (Forall_forall _ _) Ht _ Hb) as Hu. simpl in Hu.
  destruct (install_entry_inv _ _ _ _ _ Hu ltac:(done) Hinst) as (Hei & Hfl & _).
  assert (build_mailboxes b !! execution_mailbox execution = None) as Hfree by (by apply eq_None_not_Some).
  constructor; simpl.
  - intros ref e. destruct (decide (ref = execution_mailbox execution)) as [->|];
      [rewrite lookup_insert_eq; by intros [= <-]|rewrite lookup_insert_ne by done; apply He].
  - intros id ref. rewrite lookup_insert_is_Some. rewrite lookup_insert_Some.
    intros [[_ <-]|[_ Hid]]; [by left|]. destruct (decide (execution_mailbox execution = ref)); [by left|].
    right. split; [done|]. by eapply Hx.
  - apply Forall_app. split; [done|]. apply Forall_singleton. by eapply slot_spec_try_new_ok.
  - rewrite map_app. simpl. rewrite Hsm. apply NoDup_app. split; [done|]. split; [|apply NoDup_singleton].
    intros ref Href ->%list_elem_of_singleton. apply Hse in Href. rewrite Hfree in Href. by destruct Href.
  - intros ref. rewrite map_app. simpl. rewrite Hsm, elem_of_app, Hse, list_elem_of_singleton.
    rewrite lookup_insert_is_Some. destruct (decide (ref = execution_mailbox execution)) as [->|];
      naive_solver.
Qed.

Lemma try_fold_inv {E A B : Type} (P : B -> Prop) (f : B -> A -> result E B) l b b' :
  (forall b a b', P b -> f b a = Ok b' -> P b') -> P b -> try_fold f b l = Ok b' -> P b'.
Proof.
  intros Hf. revert b; induction l as [|a l IH]; intros b Hb H; simpl in H; [by simplify_eq|].
  destruct (f b a) as [b1| |] eqn:Hfb; [|done..]. simpl in H. eauto.
Qed.
Lemma enumerate_snd {A : Type} i (l : list A) : map snd (enumerate_from i l) = l.
Proof. revert i; induction l as [|x l IH]; intros i; [done|]. simpl. by rewrite IH. Qed.

Lemma class_policy_of_ok b class policy :
  class_policy_of b class = Ok policy -> (0 < quantum policy <= MAX_CLASS_QUANTUM)%N.
Proof.
  unfold class_policy_of. generalize (N.max (class_get (build_class_quantum b) class) 1). intros n H.
  unfold class_policy_try_new in H. rust_inv. simplify_eq. cbn [quantum]. lia.
Qed.

(** A constructed domain: every mailbox is installed, bound and idle. *)
Record core_new (c : LoopDomainCore) : Prop := {
  new_inv : core_inv c;
  new_idle : forall ref e, ldc_mailboxes c !! ref = Some e -> mb_inflight (dm_mailbox e) = ∅;
  new_permits : ledger_active (ldc_permits c) = ∅;
}.
Lemma loop_domain_try_new_inv spec executions bindings epoch cd cg marker c :
  typed_bindings bindings -> (max_outstanding spec <= u32_max)%N ->
  loop_domain_try_new spec executions bindings epoch cd cg marker = Ok c -> core_new c.
Proof.
  intros Ht Hmax H. unfold loop_domain_try_new in H. rust_inv. simplify_eq.
  match goal with H : try_fold (build_execution _ _ _) _ _ = Ok ?x |- _ => rename H into Hfold; rename x into b end.
  match goal with H : policy_try_new _ _ = Ok ?x |- _ => rename H into Hpol; rename x into p end.
  match goal with H : ledger_try_new _ _ _ = Ok ?x |- _ => rename H into Hled; rename x into l end.
  assert (build_inv cd cg b) as [He Hx Hs Hn Hse].
  { refine (try_fold_inv (build_inv cd cg) _ _ _ _ _ _ Hfold); [|constructor; simpl].
    - intros b0 execution b1. by apply build_execution_inv.
    - intros ref e. by rewrite lookup_empty.
    - intros id ref. by rewrite lookup_empty.
    - constructor.
    - constructor.
    - intros ref. rewrite lookup_empty, elem_of_nil, <-not_eq_None_Some. naive_solver. }
  pose proof (ledger_new_inv _ _ _ _ Hmax Hled) as Hl.
  assert (ledger_active l = ∅ /\ ledger_total l = max_outstanding spec /\
    ledger_id l = MkDomainPermitLedgerId (domain_ref_bytes (spec_domain spec)) (domain_epoch_value epoch) marker)
    as (Hact & Htot & Hid).
  { unfold ledger_try_new in Hled. rust_inv. by simplify_eq. }
  destruct (policy_try_new_slots _ _ _ Hpol) as (_ & Hlen & Hp).
  assert (map slot_mailbox (slots p) = map spec_mailbox (build_slot_specs b)) as Hmap.
  { rewrite Hp. simpl. rewrite map_map. rewrite <-(enumerate_snd 0 (build_slot_specs b)) at 2.
    rewrite map_map. apply map_ext. by intros []. }
  constructor; simpl; [constructor; simpl|..]; try done.
  - intros ref e Hr. by apply He.
  - eapply policy_try_new_inv; [|exact Hs|exact Hpol].
    intros []; cbn [class_get]; by eapply class_policy_of_ok.
  - by rewrite Hmap.
  - intros ref. by rewrite Hmap.
  - assert (length (slots p) = length (build_slot_specs b)) as Hll.
    { rewrite <-(length_map slot_mailbox), Hmap. by rewrite length_map. }
    unfold len in *. by rewrite Hll.
  - unfold ledger_config. by rewrite Hid, Htot.
  - intros ref e Hr. by apply (He ref).
Qed.

(** ** The holder of a domain *)

(** Grants and releases are affine: they exist once, and the calls consume or
    return them. *)
Record DomainSystem := MkDomainSystem {
  sys_core : LoopDomainCore;
  sys_grants : list LoopDomainGrant;
  sys_releases : list LoopDomainRelease;
}.

Definition started_grants (res : result LoopDomainError LoopDomainDispatchReport) : list LoopDomainGrant :=
  match res with
  | Ok (MkLoopDomainDispatchReport (DomainStarted grant) _) => [grant]
  | _ => []
  end.
Definition kept_grants (res : result LoopDomainFinishFailure LoopDomainRelease) : list LoopDomainGrant :=
  match res with Err failure => [lff_grant failure] | _ => [] end.
Definition issued_releases (res : result LoopDomainFinishFailure LoopDomainRelease)
    : list LoopDomainRelease :=
  match res with Ok handle => [handle] | _ => [] end.
Definition kept_releases (handle : LoopDomainRelease) (res : result LoopDomainError unit)
    : list LoopDomainRelease :=
  match res with Ok _ => [] | _ => [handle] end.

Inductive domain_step : DomainSystem -> DomainSystem -> Prop :=
| step_offers c gs rs ingress message r c' res :
    domain_try_offer ingress message r c = (c', res) ->
    domain_step (MkDomainSystem c gs rs) (MkDomainSystem c' gs rs)
| step_dispatches c gs rs r c' res :
    try_dispatch r c = (c', res) ->
    domain_step (MkDomainSystem c gs rs) (MkDomainSystem c' (started_grants res ++ gs) rs)
| step_claims c gs1 g gs2 rs g' res :
    claim_callback g = (g', res) ->
    domain_step (MkDomainSystem c (gs1 ++ g :: gs2) rs) (MkDomainSystem c (gs1 ++ g' :: gs2) rs)
| step_finishes c gs1 g gs2 rs reason c' res :
    domain_finish g reason c = (c', res) ->
    domain_step (MkDomainSystem c (gs1 ++ g :: gs2) rs)
      (MkDomainSystem c' (gs1 ++ kept_grants res ++ gs2) (issued_releases res ++ rs))
| step_releases c gs rs1 h rs2 c' h' res :
    domain_release (c, h) = ((c', h'), res) ->
    domain_step (MkDomainSystem c gs (rs1 ++ h :: rs2))
      (MkDomainSystem c' gs (rs1 ++ kept_releases h' res ++ rs2))
| step_stops c gs rs c' res :
    domain_stop_accepting c = (c', res) ->
    domain_step (MkDomainSystem c gs rs) (MkDomainSystem c' gs rs)
| step_cancels c gs rs c' res :
    domain_cancel_all_queued c = (c', res) ->
    domain_step (MkDomainSystem c gs rs) (MkDomainSystem c' gs rs)
| step_abandons c gs rs c' res :
    abandon_all_after_caller_release c = (c', res) ->
    domain_step (MkDomainSystem c gs rs) (MkDomainSystem c' gs rs).

(** The handles are typed by the plan: the widths of its counters. *)
Definition domain_built (c : LoopDomainCore) : Prop :=
  exists spec executions bindings epoch cd cg marker,
    typed_bindings bindings /\ (max_outstanding spec <= u32_max)%N /\
    loop_domain_try_new spec executions bindings epoch cd cg marker = Ok c.
Definition domain_reachable (s : DomainSystem) : Prop :=
  exists c, domain_built c /\ rtc domain_step (MkDomainSystem c [] []) s.

(** ** Invariant of the holder *)

(** The message in flight a grant stands for. *)
Definition grant_key (g : LoopDomainGrant) : MailboxRef * MessageId :=
  (execution_mailbox (lg_execution g), msg_id (token_message (lg_inflight g))).
Definition grant_permit_id (g : LoopDomainGrant) : N := token_permit_id (lg_permit g).
Definition release_permit_id (h : LoopDomainRelease) : N := token_permit_id (lr_permit h).
Definition permit_ids (s : DomainSystem) : list N :=
  map grant_permit_id (sys_grants s) ++ map release_permit_id (sys_releases s).

Definition permit_held (c : LoopDomainCore) (t : DomainPermitToken) : Prop :=
  token_active t = true /\ permit_live (ldc_permits c) t.
Definition grant_ok (c : LoopDomainCore) (g : LoopDomainGrant) : Prop :=
  matches_grant c g = true /\ permit_held c (lg_permit g) /\
  exists e, ldc_mailboxes c !! execution_mailbox (lg_execution g) = Some e /\
    token_live (dm_mailbox e) (lg_inflight g).
Definition release_ok (c : LoopDomainCore) (h : LoopDomainRelease) : Prop :=
  matches_release c h = true /\ permit_held c (lr_permit h).

Record sys_inv (s : DomainSystem) : Prop := {
  sys_core_inv : core_inv (sys_core s);
  sys_grants_ok : forall g, g ∈ sys_grants s -> grant_ok (sys_core s) g;
  sys_releases_ok : forall h, h ∈ sys_releases s -> release_ok (sys_core s) h;
  sys_permits_unique : NoDup (permit_ids s);
  sys_permits_held : forall id,
    is_Some (ledger_active (ldc_permits (sys_core s)) !! id) -> id ∈ permit_ids s;
  sys_keys_unique : NoDup (map grant_key (sys_grants s));
  sys_keys_held : forall ref e id, ldc_mailboxes (sys_core s) !! ref = Some e ->
    is_Some (mb_inflight (dm_mailbox e) !! id) -> (ref, id) ∈ map grant_key (sys_grants s);
}.

Lemma domain_built_new c : domain_built c -> core_new c.
Proof. intros (spec & executions & bindings & epoch & cd & cg & marker & H1 & H2 & H3).
  by eapply loop_domain_try_new_inv.
Qed.
Lemma built_sys_inv c : domain_built c -> sys_inv (MkDomainSystem c [] []).
Proof.
  intros [Hi Hidle Hper]%domain_built_new. constructor; simpl.
  - done.
  - by intros g ?%elem_of_nil.
  - by intros h ?%elem_of_nil.
  - constructor.
  - intros id. rewrite Hper, lookup_empty. by intros [].
  - constructor.
  - intros ref e id He. rewrite (Hidle _ _ He), lookup_empty. by intros [].
Qed.

(** *** What calls keep of the handles *)

(** Every entry of [c] is in [c'], with its execution. *)
Definition entries_kept (c c' : LoopDomainCore) : Prop :=
  domain_config c' = domain_config c /\
  forall ref e, ldc_mailboxes c !! ref = Some e ->
    exists e', ldc_mailboxes c' !! ref = Some e' /\ dm_execution e' = dm_execution e.

Lemma matches_grant_kept c c' g : entries_kept c c' -> matches_grant c g = true -> matches_grant c' g = true.
Proof.
  intros [Hcfg He] (H1 & H2 & H3 & e & Hl & Hx)%matches_grant_Some. apply matches_grant_Some.
  destruct (He _ _ Hl) as (e' & Hl' & Hx'). unfold domain_config in Hcfg.
  split_and!; try congruence. exists e'. split; [done|congruence].
Qed.
Lemma matches_release_kept c c' h :
  entries_kept c c' -> matches_release c h = true -> matches_release c' h = true.
Proof.
  intros [Hcfg He] (H1 & H2 & H3 & e & Hl & Hx)%matches_release_Some. apply matches_release_Some.
  destruct (He _ _ Hl) as (e' & Hl' & Hx'). unfold domain_config in Hcfg.
  split_and!; try congruence. exists e'. split; [done|congruence].
Qed.
Lemma ledger_id_owner c : core_inv c -> ledger_id (ldc_permits c) = owner_permit_ledger (ldc_owner c).
Proof. intros Hi. pose proof (core_ledger_config c Hi) as H. unfold ledger_config in H. congruence. Qed.
Lemma permit_held_kept c c' t :
  core_inv c -> core_inv c' -> domain_config c' = domain_config c ->
  ledger_active (ldc_permits c') !! token_permit_id t = ledger_active (ldc_permits c) !! token_permit_id t ->
  permit_held c t -> permit_held c' t.
Proof.
  intros Hi Hi' Hcfg Hl (Ha & Hid & Hpool). split; [done|]. split; [|congruence].
  rewrite Hid, !ledger_id_owner by done. unfold domain_config in Hcfg. congruence.
Qed.

(** The message of [g] is in flight in [c'] as it was in [c]. *)
Definition flight_kept (c c' : LoopDomainCore) (key : MailboxRef * MessageId) : Prop :=
  forall e e', ldc_mailboxes c !! key.1 = Some e -> ldc_mailboxes c' !! key.1 = Some e' ->
    mb_inflight (dm_mailbox e') !! key.2 = mb_inflight (dm_mailbox e) !! key.2.

Lemma grant_ok_kept c c' g :
  core_inv c -> core_inv c' -> entries_kept c c' ->
  ledger_active (ldc_permits c') !! grant_permit_id g = ledger_active (ldc_permits c) !! grant_permit_id g ->
  flight_kept c c' (grant_key g) -> grant_ok c g -> grant_ok c' g.
Proof.
  intros Hi Hi' Hk Hl Hf (Hm & Hp & e & He & Href & Htok). destruct (proj2 Hk _ _ He) as (e' & He' & _).
  split; [by eapply matches_grant_kept|]. split; [eapply permit_held_kept; [exact Hi|done|apply Hk|done|done]|].
  exists e'. split; [done|]. split; [|etrans; [exact (Hf e e' He He')|done]].
  rewrite Href, (entry_reference _ _ _ _ (core_entries c Hi _ _ He)).
  by rewrite (entry_reference _ _ _ _ (core_entries c' Hi' _ _ He')).
Qed.
Lemma release_ok_kept c c' h :
  core_inv c -> core_inv c' -> entries_kept c c' ->
  ledger_active (ldc_permits c') !! release_permit_id h = ledger_active (ldc_permits c) !! release_permit_id h ->
  release_ok c h -> release_ok c' h.
Proof.
  intros Hi Hi' Hk Hl [Hm Hp]. split; [by eapply matches_release_kept|].
  eapply permit_held_kept; [exact Hi|done|apply Hk|done|done].
Qed.

Lemma same_entries_kept c c' :
  domain_config c' = domain_config c ->
  (forall ref, option_Forall2 (entry_same (ldc_clock_domain c) (ldc_clock_generation c) ref)
    (ldc_mailboxes c !! ref) (ldc_mailboxes c' !! ref)) ->
  entries_kept c c' /\ (forall key, flight_kept c c' key) /\
  (forall ref, is_Some (ldc_mailboxes c' !! ref) -> is_Some (ldc_mailboxes c !! ref)).
Proof.
  intros Hcfg H. split; [split; [done|]|split].
  - intros ref e He. specialize (H ref). rewrite He in H. inversion H as [? e' (_ & Hx & _)|]; subst. eauto.
  - intros [ref id] e e' He He'. specialize (H ref). simpl in *. rewrite He, He' in H.
    inversion H as [? ? (_ & _ & _ & Heq & _)|]; subst. by rewrite Heq.
  - intros ref. specialize (H ref). inversion H; [done|]. by intros [].
Qed.

(** Calls that keep the callbacks keep the invariant. *)
Lemma sys_inv_quiet c c' gs rs :
  core_quiet c c' -> sys_inv (MkDomainSystem c gs rs) -> sys_inv (MkDomainSystem c' gs rs).
Proof.
  intros [Hi' Hcfg Hent Hper] [Hi Hg Hr Hn Hh Hkn Hkh]. simpl in *.
  destruct (same_entries_kept c c' Hcfg Hent) as (Hk & Hf & Hdom).
  constructor; simpl; try done.
  - intros g Hin. eapply grant_ok_kept; [exact Hi|done..| |apply Hf|by apply Hg]. by rewrite Hper.
  - intros h Hin. eapply release_ok_kept; [exact Hi|done..| |by apply Hr]. by rewrite Hper.
  - intros id. rewrite Hper. apply Hh.
  - intros ref e' id He' Hs. destruct (Hdom ref) as [e He]; [by eexists|].
    pose proof (Hf (ref, id) e e' He He') as Heq. simpl in Heq. rewrite Heq in Hs. by eapply Hkh.
Qed.
Lemma sys_inv_same c c' gs rs :
  core_same c c' -> sys_inv (MkDomainSystem c gs rs) -> sys_inv (MkDomainSystem c' gs rs).
Proof. intros Hs Hi. eapply sys_inv_quiet; [|done]. apply core_same_quiet; [apply Hi|done]. Qed.

(** *** A started grant *)
Lemma sys_inv_started c c' r g gs rs :
  core_started c c' r g -> sys_inv (MkDomainSystem c gs rs) -> sys_inv (MkDomainSystem c' (g :: gs) rs).
Proof.
  intros [Hi' Hcfg Hoth (e & e' & item & q & He & He' & Hx & Hx' & _ & _ & Htok & Hfree & Hins) (Hm & Hact & _)
    (Hpf & Hpl & Hpa)] [Hi Hg Hr Hn Hh Hkn Hkh]. simpl in *.
  set (mref := execution_mailbox (lg_execution g)) in *.
  assert (forall ref, ref <> mref -> forall e1, ldc_mailboxes c !! ref = Some e1 -> exists e2,
    ldc_mailboxes c' !! ref = Some e2 /\ dm_execution e2 = dm_execution e1 /\
    mb_inflight (dm_mailbox e2) = mb_inflight (dm_mailbox e1)) as Hothers.
  { intros ref Hne e1 He1. specialize (Hoth ref Hne). rewrite He1 in Hoth.
    inversion Hoth as [? e2 (_ & ? & _ & ? & _)|]; subst. eauto. }
  assert (entries_kept c c') as Hk.
  { split; [done|]. intros ref e1 He1. destruct (decide (ref = mref)) as [->|Hne].
    - exists e'. split; [done|]. congruence.
    - destruct (Hothers ref Hne e1 He1) as (e2 & ? & ? & _). eauto. }
  assert (forall key, key <> grant_key g -> flight_kept c c' key) as Hf.
  { intros [ref id] Hne e1 e2 He1 He2. simpl in *. destruct (decide (ref = mref)) as [->|Hner].
    - simplify_eq. rewrite Hins, lookup_insert_ne; [done|]. intros <-. by apply Hne.
    - destruct (Hothers ref Hner e1 He1) as (e3 & ? & _ & Heq). simplify_eq. by rewrite Heq. }
  assert (grant_key g ∉ map grant_key gs) as Hnew.
  { intros (g0 & Hkey & Hin)%elem_of_map. destruct (Hg g0 Hin) as (_ & _ & e0 & He0 & _ & Hl0).
    injection Hkey as Hk1 Hk2. rewrite <-Hk1 in He0. fold mref in He0. simplify_eq. rewrite <-Hk2 in Hl0. congruence. }
  assert (forall id, is_Some (ledger_active (ldc_permits c) !! id) ->
    ledger_active (ldc_permits c') !! id = ledger_active (ldc_permits c) !! id) as Hperm.
  { intros id [pool Hid]. rewrite Hpa, lookup_insert_ne; [done|]. intros <-. congruence. }
  assert (forall t, permit_held c t -> is_Some (ledger_active (ldc_permits c) !! token_permit_id t)) as Hheld.
  { intros t (_ & _ & ->). by eexists. }
  constructor; simpl.
  - done.
  - intros g0 [->|Hin]%elem_of_cons.
    + split; [done|]. split; [|by exists e']. split; [done|]. split; [done|]. rewrite Hpa. apply lookup_insert_eq.
    + pose proof (Hg g0 Hin) as Hok. eapply grant_ok_kept; [exact Hi|done|done|apply Hperm, Hheld, Hok| |done].
      apply Hf. intros Heq. apply Hnew. rewrite <-Heq. apply elem_of_map. eauto.
  - intros h Hin. pose proof (Hr h Hin) as Hok.
    eapply release_ok_kept; [exact Hi|done|done|apply Hperm, Hheld, Hok|done].
  - unfold permit_ids. simpl. apply NoDup_cons. split; [|done].
    intros Hin. apply elem_of_app in Hin as [Hin|Hin]; apply elem_of_map in Hin as (x & Heq & Hin).
    + destruct (Hheld (lg_permit x)) as [pool Hp]; [apply (Hg x Hin)|].
      unfold grant_permit_id in Heq. rewrite <-Heq in Hp. congruence.
    + destruct (Hheld (lr_permit x)) as [pool Hp]; [apply (Hr x Hin)|].
      unfold grant_permit_id, release_permit_id in Heq. rewrite <-Heq in Hp. congruence.
  - intros id. rewrite Hpa, lookup_insert_is_Some. unfold permit_ids. simpl.
    intros [<-|[_ Hid]]; [left|]. right. by apply Hh.
  - by apply NoDup_cons.
  - intros ref e2 id He2 Hs. destruct (decide ((ref, id) = grant_key g)) as [->|Hne]; [left|right].
    destruct (decide (ref = mref)) as [->|Hner].
    + pose proof (Hf (mref, id) Hne e e2 He He2) as Heq. simpl in Heq. rewrite Heq in Hs. by eapply Hkh.
    + specialize (Hoth ref Hner). rewrite He2 in Hoth.
      inversion Hoth as [e1 ? (_ & _ & _ & Heq & _) H1|]; subst. rewrite Heq in Hs. by eapply Hkh.
Qed.

(** *** Finished grants and released permits *)

Lemma permit_ids_perm c c' gs gs' rs rs' :
  gs ≡ₚ gs' -> rs ≡ₚ rs' -> permit_ids (MkDomainSystem c gs rs) ≡ₚ permit_ids (MkDomainSystem c' gs' rs').
Proof. intros Hg Hr. unfold permit_ids. simpl. by rewrite Hg, Hr. Qed.
Lemma sys_inv_perm c gs gs' rs rs' :
  gs ≡ₚ gs' -> rs ≡ₚ rs' -> sys_inv (MkDomainSystem c gs rs) -> sys_inv (MkDomainSystem c gs' rs').
Proof.
  intros Hpg Hpr [Hi Hg Hr Hn Hh Hkn Hkh]. pose proof (permit_ids_perm c c _ _ _ _ Hpg Hpr) as Hp. simpl in *.
  constructor; simpl; try done.
  - intros g. rewrite <-Hpg. apply Hg.
  - intros h. rewrite <-Hpr. apply Hr.
  - by rewrite <-Hp.
  - intros id. rewrite <-Hp. apply Hh.
  - by rewrite <-Hpg.
  - intros ref e id He Hs. rewrite <-Hpg. by eapply Hkh.
Qed.

Lemma sys_inv_finished c e mb' g gs rs terminal :
  sys_inv (MkDomainSystem c (g :: gs) rs) ->
  ldc_mailboxes c !! execution_mailbox (lg_execution g) = Some e -> steady (dm_mailbox e) mb' ->
  mb_inflight mb' = delete (msg_id (token_message (lg_inflight g))) (mb_inflight (dm_mailbox e)) ->
  sys_inv (MkDomainSystem
    (set_ldc_mailboxes (<[execution_mailbox (lg_execution g) := set_dm_mailbox mb' e]> (ldc_mailboxes c)) c)
    gs (released_grant g terminal :: rs)).
Proof.
  intros [Hi Hg Hr Hn Hh Hkn Hkh] He Hst Hdel. simpl in *.
  set (mref := execution_mailbox (lg_execution g)) in *.
  set (c' := set_ldc_mailboxes _ c).
  assert (ldc_mailboxes c' = <[mref := set_dm_mailbox mb' e]> (ldc_mailboxes c) /\
    ldc_permits c' = ldc_permits c /\ domain_config c' = domain_config c) as (Hm & Hp & Hcfg) by by destruct c.
  assert (dm_mailbox (set_dm_mailbox mb' e) = mb' /\ dm_execution (set_dm_mailbox mb' e) = dm_execution e)
    as [Hmb Hex] by by destruct e.
  pose proof (core_entries c Hi _ e He) as Hei.
  assert (core_inv c') as Hi'.
  { unfold c'. eapply core_inv_insert; [done..|]. by apply entry_steady. }
  assert (entries_kept c c') as Hk.
  { split; [done|]. intros ref e1 He1. rewrite Hm. destruct (decide (ref = mref)) as [->|Hne].
    - rewrite lookup_insert_eq. simplify_eq. eauto.
    - rewrite lookup_insert_ne by done. eauto. }
  assert (forall key, key <> grant_key g -> flight_kept c c' key) as Hf.
  { intros [ref id] Hne e1 e2 He1. rewrite Hm. simpl in *. destruct (decide (ref = mref)) as [->|Hner].
    - rewrite lookup_insert_eq. intros [= <-]. simplify_eq. rewrite Hmb, Hdel, lookup_delete_ne; [done|].
      intros <-. by apply Hne.
    - rewrite lookup_insert_ne by done. intros. by simplify_eq. }
  apply NoDup_cons in Hkn as [Hkg Hkn].
  assert (permit_ids (MkDomainSystem c' gs (released_grant g terminal :: rs)) ≡ₚ
    permit_ids (MkDomainSystem c (g :: gs) rs)) as Hids.
  { unfold permit_ids. simpl. by rewrite <-Permutation_middle. }
  constructor; simpl.
  - done.
  - intros g0 Hin. eapply grant_ok_kept; [exact Hi|done|done|by rewrite Hp| |apply Hg; by right].
    apply Hf. intros Heq. apply Hkg. rewrite <-Heq. apply elem_of_map. eauto.
  - intros h [->|Hin]%elem_of_cons.
    + destruct (Hg g ltac:(left)) as (Hmg & Hpg & _). eapply (release_ok_kept c); [done..|by rewrite Hp|].
      split; [|done]. by apply matches_release_Some, matches_grant_Some.
    + eapply release_ok_kept; [exact Hi|done|done|by rewrite Hp|by apply Hr].
  - by rewrite Hids.
  - intros id. rewrite Hids, Hp. apply Hh.
  - done.
  - intros ref e2 id He2 Hs. rewrite Hm in He2.
    destruct (decide (ref = mref)) as [->|Hne].
    + rewrite lookup_insert_eq in He2. injection He2 as <-. rewrite Hmb, Hdel in Hs.
      apply lookup_delete_is_Some in Hs as [Hne Hs].
      pose proof (Hkh _ _ _ He Hs) as [Heq|Hin]%elem_of_cons; [|done]. injection Heq as Heq. by rewrite Heq in Hne.
    + rewrite lookup_insert_ne in He2 by done.
      pose proof (Hkh _ _ _ He2 Hs) as [Heq|Hin]%elem_of_cons; [|done]. by injection Heq.
Qed.

Lemma sys_inv_released c c' gs h rs :
  sys_inv (MkDomainSystem c gs (h :: rs)) ->
  core_inv c' -> domain_config c' = domain_config c ->
  (forall ref, option_Forall2 (entry_same (ldc_clock_domain c) (ldc_clock_generation c) ref)
    (ldc_mailboxes c !! ref) (ldc_mailboxes c' !! ref)) ->
  ledger_active (ldc_permits c') = delete (release_permit_id h) (ledger_active (ldc_permits c)) ->
  sys_inv (MkDomainSystem c' gs rs).
Proof.
  intros [Hi Hg Hr Hn Hh Hkn Hkh] Hi' Hcfg Hent Hdel. simpl in *.
  destruct (same_entries_kept c c' Hcfg Hent) as (Hk & Hf & Hdom).
  assert (permit_ids (MkDomainSystem c gs (h :: rs)) ≡ₚ
    release_permit_id h :: permit_ids (MkDomainSystem c' gs rs)) as Hids.
  { unfold permit_ids. simpl. by rewrite <-Permutation_middle. }
  rewrite Hids in Hn. apply NoDup_cons in Hn as [Hnh Hn].
  assert (forall id, id ∈ permit_ids (MkDomainSystem c' gs rs) ->
    ledger_active (ldc_permits c') !! id = ledger_active (ldc_permits c) !! id) as Hother.
  { intros id Hid. rewrite Hdel, lookup_delete_ne; [done|]. intros <-. done. }
  constructor; simpl; try done.
  - intros g Hin. eapply grant_ok_kept; [exact Hi|done|done| |apply Hf|by apply Hg].
    apply Hother, elem_of_app. left. apply elem_of_map. eauto.
  - intros h' Hin. eapply release_ok_kept; [exact Hi|done|done| |apply Hr; by right].
    apply Hother, elem_of_app. right. apply elem_of_map. eauto.
  - intros id. rewrite Hdel. intros [Hne Hs]%lookup_delete_is_Some. apply Hh in Hs. rewrite Hids in Hs.
    apply elem_of_cons in Hs as [->|?]; done.
  - intros ref e' id He' Hs. destruct (Hdom ref) as [e He]; [by eexists|].
    pose proof (Hf (ref, id) e e' He He') as Heq. simpl in Heq. rewrite Heq in Hs. by eapply Hkh.
Qed.

(** *** Every call keeps the invariant *)

Lemma ledger_usage {E : Type} l :
  ledger_inv l -> exists snap, ledger_snapshot l = Ok snap /\ snap_total snap = ledger_total l /\
    in_use (E := E) snap = Ok (N.of_nat (size (ledger_active l))) /\
    (N.of_nat (size (ledger_active l)) <= ledger_total l)%N.
Proof.
  intros Hl. unfold ledger_snapshot. rewrite ledger_inv_validate by done. eexists. split; [done|].
  split; [done|]. pose proof (pool_count_size (ledger_active l)) as Hs.
  destruct Hl as [[_ Ht] Hr Hsh Hsm Hc Hcm _]. rewrite Hs, <-Hsh, <-Hc.
  split; [|lia]. unfold in_use, panicking_add. simpl. by rewrite checked_add_ok by lia.
Qed.
Lemma held_count s :
  sys_inv s -> size (ledger_active (ldc_permits (sys_core s))) = length (sys_grants s) + length (sys_releases s).
Proof.
  intros Hi. rewrite <-length_btree_keys, <-(length_map grant_permit_id), <-(length_map release_permit_id).
  rewrite <-length_app. apply Permutation_length, NoDup_Permutation; [apply btree_keys_NoDup|apply Hi|].
  intros id. rewrite elem_of_btree_keys. split; [by apply Hi|].
  intros [Hin|Hin]%elem_of_app; apply elem_of_map in Hin as (x & -> & Hin).
  - destruct (sys_grants_ok s Hi x Hin) as (_ & (_ & _ & Hp) & _). unfold grant_permit_id. by rewrite Hp.
  - destruct (sys_releases_ok s Hi x Hin) as (_ & _ & _ & Hp). unfold release_permit_id. by rewrite Hp.
Qed.
Lemma nothing_in_flight c rs ref e :
  sys_inv (MkDomainSystem c [] rs) -> ldc_mailboxes c !! ref = Some e -> mb_inflight (dm_mailbox e) = ∅.
Proof.
  intros Hi He. apply map_empty. intros id. apply eq_None_not_Some. intros Hs.
  by apply (sys_keys_held _ Hi ref e id He), elem_of_nil in Hs.
Qed.

(** Abandoning everything is refused while a handle is out. *)
Lemma abandon_all_cases c gs rs :
  sys_inv (MkDomainSystem c gs rs) ->
  (exists err, abandon_all_after_caller_release c = (c, Err err)) \/
  gs = [] /\ rs = [] /\ all_stopped c /\
  exists c' records, abandon_all_after_caller_release c = (c', Ok records) /\ core_same c c'.
Proof.
  intros Hs. pose proof (sys_core_inv _ Hs) as Hi. simpl in Hi. unfold abandon_all_after_caller_release.
  destruct (ledger_usage (E := LoopDomainError) (ldc_permits c) (core_ledger c Hi)) as (snap & Hsn & _ & Hu & _).
  rewrite run_read, Hsn. simpl. rewrite Hu. simpl. pose proof (held_count _ Hs) as Hc. simpl in Hc.
  destruct (N.eqb_spec (N.of_nat (size (ledger_active (ldc_permits c)))) 0) as [Hz|Hz]; simpl; [|left; by eexists].
  assert (gs = []) as -> by (destruct gs; [done|simpl in *; lia]).
  assert (rs = []) as -> by (destruct rs; [done|simpl in *; lia]).
  rewrite run_read. destruct (require_draining_cases c Hi) as [[Hst ->]| ->]; [right|left; by eexists].
  split; [done|]. split; [done|]. split; [done|]. rewrite run_bind.
  set (f := on_mailbox DomainMailboxError abandon_all_inflight_uncertain).
  destruct (values_mut_same f c Hi) as (c1 & Hrun & Hs1 & _).
  { intros ref e He. pose proof (core_entries c Hi ref e He) as Hei.
    destruct (steady_abandon (dm_mailbox e)) as ([records Hr] & Hst' & Hfl); [apply Hei|by eapply Hst|].
    pose proof (nothing_in_flight _ _ _ _ Hs He) as Hemp. specialize (Hfl Hemp). unfold f, on_mailbox.
    destruct (abandon_all_inflight_uncertain (dm_mailbox e)) as [mb' res]. simpl in *. rewrite Hr.
    split; [by eexists|]. apply entry_steady_same; [done..|congruence]. }
  rewrite Hrun. pose proof (core_same_inv _ _ Hi Hs1) as Hi1. rewrite run_bind.
  destruct (retire_closed_run c1 Hi1) as (c2 & Hrun2 & Hs2 & _). rewrite Hrun2.
  eexists c2, _. split; [done|]. by eapply core_same_trans.
Qed.

(** A grant the domain issued can be finished with any in-flight completion. *)
Lemma finish_issued c g gs rs reason :
  sys_inv (MkDomainSystem c (g :: gs) rs) ->
  (is_inflight_completion reason = true /\ exists c' terminal,
    domain_finish g reason c = (c', Ok (released_grant g terminal)) /\
    sys_inv (MkDomainSystem c' gs (released_grant g terminal :: rs)) /\ (all_stopped c -> all_stopped c')) \/
  (is_inflight_completion reason = false /\ exists err,
    domain_finish g reason c = (c, Err (MkLoopDomainFinishFailure err g))).
Proof.
  intros Hs. pose proof (sys_core_inv _ Hs) as Hi. simpl in Hi.
  destruct (sys_grants_ok _ Hs g ltac:(left)) as (Hm & _ & e & He & Ht). simpl in *.
  destruct (is_inflight_completion reason) eqn:Hc.
  - left. split; [done|]. destruct (domain_finish_run c g reason e Hi Hm He Ht Hc) as (mb' & t & Hrun & Hst & Hd).
    eexists _, t. split; [exact Hrun|]. split; [by eapply sys_inv_finished|]. intros Ha ref e'.
    replace (ldc_mailboxes (set_ldc_mailboxes _ c)) with
      (<[execution_mailbox (lg_execution g) := set_dm_mailbox mb' e]> (ldc_mailboxes c)) by by destruct c.
    rewrite lookup_insert_Some. intros [[<- <-]|[_ He']]; [|by eapply Ha].
    destruct Hst as (_ & _ & Hacc & _). specialize (Ha _ _ He). destruct e; simpl in *. naive_solver.
  - right. split; [done|]. apply domain_finish_failed; [done|]. intros (_ & ? & _). congruence.
Qed.
(** A release the domain issued succeeds. *)
Lemma release_issued c gs h rs :
  sys_inv (MkDomainSystem c gs (h :: rs)) ->
  exists c', domain_release (c, h) = ((c', set_lr_permit (spend (lr_permit h)) h), Ok tt) /\
    sys_inv (MkDomainSystem c' gs rs) /\ (all_stopped c -> all_stopped c').
Proof.
  intros Hs. pose proof (sys_core_inv _ Hs) as Hi. simpl in Hi.
  destruct (sys_releases_ok _ Hs h ltac:(left)) as (Hm & Ha & Hp). simpl in *.
  destruct (domain_release_run c h Hi Hm Ha Hp) as (c' & Hrun & Hi' & Hcfg & Hent & Hdel & _).
  exists c'. split; [done|]. split; [by eapply sys_inv_released|]. intros Hst ref e' He'.
  specialize (Hent ref). rewrite He' in Hent. inversion Hent as [e ? (_ & _ & _ & _ & Hn) He|]; subst.
  by apply Hn, (Hst ref).
Qed.

Lemma claim_keeps g g' res :
  claim_callback g = (g', res) -> g' = g \/ g' = set_claimed true g.
Proof.
  unfold claim_callback. rewrite run_read. destruct (lg_callback_claimed g); simpl; intros [= <- <-]; auto.
Qed.
Lemma sys_inv_claimed c g gs rs :
  sys_inv (MkDomainSystem c (g :: gs) rs) -> sys_inv (MkDomainSystem c (set_claimed true g :: gs) rs).
Proof.
  intros [Hi Hg Hr Hn Hh Hkn Hkh]. destruct g as [a b d e f t p u]. constructor; try done.
  intros g0 [->|Hin]%elem_of_cons; [|apply Hg; by right].
  exact (Hg (MkLoopDomainGrant a b d e f t p u) ltac:(left)).
Qed.

Lemma domain_step_inv s s' : sys_inv s -> domain_step s s' -> sys_inv s'.
Proof.
  intros Hs Hstep. destruct Hstep as
    [c gs rs ingress message r c' res H|c gs rs r c' res H|c gs1 g gs2 rs g' res H
    |c gs1 g gs2 rs reason c' res H|c gs rs1 h rs2 c' h' res H|c gs rs c' res H|c gs rs c' res H
    |c gs rs c' res H]; pose proof (sys_core_inv _ Hs) as Hi; simpl in Hi.
  - eapply sys_inv_same; [|done]. destruct (domain_try_offer_same ingress message r c Hi) as [Hsm _].
    by rewrite H in Hsm.
  - destruct (try_dispatch_cases c r Hi) as [(_ & e & _ & Hd)|[_ Hd]].
    + rewrite Hd in H. by simplify_eq.
    + rewrite H in Hd. inversion Hd; subst; simpl; [by eapply sys_inv_quiet|by eapply sys_inv_started|
        by eapply sys_inv_quiet].
  - apply (sys_inv_perm c (g' :: gs1 ++ gs2) _ rs rs); [apply Permutation_middle|done|].
    apply (sys_inv_perm c _ (g :: gs1 ++ gs2) rs rs) in Hs; [|by rewrite Permutation_middle|done].
    destruct (claim_keeps _ _ _ H) as [->| ->]; [done|by apply sys_inv_claimed].
  - apply (sys_inv_perm c _ (g :: gs1 ++ gs2) rs rs) in Hs; [|by rewrite Permutation_middle|done].
    destruct (finish_issued c g _ rs reason Hs) as [(_ & c1 & t & Hf & Hs' & _)|(_ & err & Hf)];
      rewrite Hf in H; injection H as <- <-; simpl; [done|].
    eapply sys_inv_perm; [|done|exact Hs]. apply Permutation_middle.
  - apply (sys_inv_perm c gs gs _ (h :: rs1 ++ rs2)) in Hs; [|done|by rewrite Permutation_middle].
    destruct (release_issued c gs h _ Hs) as (c1 & Hf & Hs' & _). rewrite Hf in H. by injection H as <- <- <-.
  - destruct (domain_stop_accepting_run c Hi) as (c1 & Hf & Hsm & _). rewrite Hf in H. injection H as <- <-.
    by eapply sys_inv_same.
  - unfold domain_cancel_all_queued in H. destruct (require_draining_cases c Hi) as [[Hst _]|Hrd].
    + destruct (domain_cancel_run c Hi Hst) as (c1 & records & Hf & Hsm & _).
      unfold domain_cancel_all_queued in Hf. rewrite Hf in H. injection H as <- <-. by eapply sys_inv_same.
    + rewrite run_read, Hrd in H. by injection H as <- <-.
  - destruct (abandon_all_cases c gs rs Hs) as [[err Hf]|(_ & _ & _ & c1 & records & Hf & Hsm)];
      rewrite Hf in H; injection H as <- <-; [done|by eapply sys_inv_same].
Qed.
Lemma domain_reachable_inv s : domain_reachable s -> sys_inv s.
Proof.
  intros (c & Hb & Hrun). apply built_sys_inv in Hb. remember (MkDomainSystem c [] []) as s0 eqn:E. clear E.
  induction Hrun; eauto using domain_step_inv.
Qed.

Lemma NoDup_map_filter {A B : Type} (f : A -> B) (P : A -> Prop) `{forall x, Decision (P x)} l :
  NoDup (map f l) -> NoDup (map f (base.filter P l)).
Proof.
  induction l as [|x l IH]; simpl; [done|]. intros [Hx Hn]%NoDup_cons. rewrite filter_cons.
  case_decide; [|by apply IH]. simpl. apply NoDup_cons. split; [|by apply IH].
  intros (y & Heq & [_ Hy]%list_elem_of_filter)%elem_of_map. apply Hx, elem_of_map. eauto.
Qed.
(** The messages in flight of a mailbox are its grants. *)
Lemma flight_count s ref e :
  sys_inv s -> ldc_mailboxes (sys_core s) !! ref = Some e ->
  inflight_len (dm_mailbox e) =
  len (base.filter (fun g => execution_mailbox (lg_execution g) = ref) (sys_grants s)).
Proof.
  intros Hs He. unfold inflight_len, len. f_equal.
  rewrite <-length_btree_keys, <-(length_map (pair ref)), <-(length_map grant_key).
  apply Permutation_length, NoDup_Permutation.
  - apply NoDup_fmap_2; [intros ? ? [=]; done|apply btree_keys_NoDup].
  - apply NoDup_map_filter, Hs.
  - intros [ref' id]. split.
    + intros (id' & [= -> ->] & Hid%elem_of_btree_keys)%elem_of_map.
      destruct (elem_of_map grant_key (sys_grants s) (ref, id')) as [Hto _].
      destruct (Hto (sys_keys_held s Hs ref e id' He Hid)) as (g & Heq & Hin).
      apply elem_of_map. exists g. split; [done|]. apply list_elem_of_filter. by injection Heq.
    + intros (g & Heq & [Href Hin]%list_elem_of_filter)%elem_of_map. injection Heq as -> ->.
      destruct (sys_grants_ok s Hs g Hin) as (_ & _ & e' & He' & _ & Hl). rewrite Href in *. simplify_eq.
      apply elem_of_map. eexists. split; [done|]. apply elem_of_btree_keys. by eexists.
Qed.

(** ** Shutdown *)

(** An entry with nothing left: no message, no route. *)
Definition quiet_entry (e : DomainMailbox) : Prop :=
  mb_queue (dm_mailbox e) = [] /\ mb_inflight (dm_mailbox e) = ∅ /\ mb_lifecycle (dm_mailbox e) = Closed /\
  dm_active_epoch e = None /\ dm_draining_epoch e = None.

Lemma add_quiet_entry cd cg ref e t n :
  entry_inv cd cg ref e -> quiet_entry e -> t = MkDomainTotals 0 0 0 0 0 0 n 0 0 ->
  add_entry t e = Ok (MkDomainTotals 0 0 0 0 0 0 (n + 1) 0 0).
Proof.
  intros Hi (Hq & Hf & Hl & Ha & Hd) ->. unfold add_entry.
  pose proof (entry_mailbox _ _ _ _ Hi) as Hm. rewrite mailbox_snapshot_inv by done. simpl.
  rewrite (entry_consistent _ _ _ _ Hi). simpl. rewrite (inv_queued_bytes _ Hm), (inv_inflight_bytes _ Hm).
  unfold inflight_len. rewrite Hq, Hf, Hl, Ha, Hd, map_size_empty. done.
Qed.
Lemma quiet_totals c :
  core_inv c -> (forall ref e, ldc_mailboxes c !! ref = Some e -> quiet_entry e) ->
  try_fold (fun t '(_, entry) => add_entry t entry) (MkDomainTotals 0 0 0 0 0 0 0 0 0)
    (btree_iter (ldc_mailboxes c)) =
  Ok (MkDomainTotals 0 0 0 0 0 0 (N.of_nat (size (ldc_mailboxes c))) 0 0).
Proof.
  intros Hi Hq.
  assert (forall p, p ∈ btree_iter (ldc_mailboxes c) -> exists ref,
    entry_inv (ldc_clock_domain c) (ldc_clock_generation c) ref (snd p) /\ quiet_entry (snd p)) as Hall.
  { intros [ref e] Hin. rewrite (btree_iter_Permutation (ldc_mailboxes c)) in Hin.
    apply elem_of_map_to_list in Hin. exists ref. split; [by apply Hi|by eapply Hq]. }
  rewrite <-length_btree_keys. unfold btree_keys. rewrite length_map.
  assert (forall n, try_fold (fun t '(_, entry) => add_entry t entry) (MkDomainTotals 0 0 0 0 0 0 n 0 0)
    (btree_iter (ldc_mailboxes c)) =
    Ok (MkDomainTotals 0 0 0 0 0 0 (n + N.of_nat (length (btree_iter (ldc_mailboxes c)))) 0 0)) as Hfold;
    [|apply Hfold].
  induction (btree_iter (ldc_mailboxes c)) as [|[ref e] l IH]; intros n; simpl; [by rewrite N.add_0_r|].
  destruct (Hall (ref, e) ltac:(left)) as (ref' & Hei & Hqe). simpl in *.
  rewrite (add_quiet_entry _ _ _ _ _ n Hei Hqe eq_refl). simpl. rewrite IH by (intros p Hp; apply Hall; by right).
  do 2 f_equal. lia.
Qed.

Lemma entry_count c : core_inv c -> (0 < N.of_nat (size (ldc_mailboxes c)) <= MAX_DISPATCH_SLOTS)%N.
Proof.
  intros Hi. assert (map slot_mailbox (slots (ldc_dispatch c)) ≡ₚ btree_keys (ldc_mailboxes c)) as Hp.
  { apply NoDup_Permutation; [apply Hi|apply btree_keys_NoDup|]. intros ref.
    by rewrite elem_of_btree_keys, (core_slot_entries c Hi). }
  apply Permutation_length in Hp. rewrite length_map, length_btree_keys in Hp. rewrite <-Hp.
  pose proof (policy_inv_nonempty _ (core_policy c Hi)) as Hne. pose proof (core_slot_count c Hi) as Hc.
  unfold len in Hc. destruct (slots (ldc_dispatch c)); [done|]. simpl in *. lia.
Qed.
Lemma quiet_snapshot c :
  core_inv c -> (forall ref e, ldc_mailboxes c !! ref = Some e -> quiet_entry e) ->
  ledger_active (ldc_permits c) = ∅ ->
  exists snap, domain_snapshot c = Ok snap /\ is_zero_cleanup (E := LoopDomainError) snap = Ok true.
Proof.
  intros Hi Hq Hp. pose proof (entry_count c Hi) as Hc. unfold domain_snapshot.
  rewrite quiet_totals by done. generalize dependent (N.of_nat (size (ldc_mailboxes c))). intros n Hn.
  cbn -[ledger_snapshot try_from N.eqb]. rewrite (try_from_ok u16_max n), (try_from_ok u16_max 0)
    by (unfold MAX_DISPATCH_SLOTS, u16_max in *; lia). cbn -[ledger_snapshot N.eqb].
  destruct (N.eqb_spec 0 n); [lia|]. rewrite N.eqb_refl.
  destruct (ledger_usage (E := LoopDomainError) (ldc_permits c) (core_ledger c Hi)) as (snap & -> & _ & Hu & _).
  simpl. eexists. split; [done|]. unfold is_zero_cleanup. simpl. rewrite Hu, Hp, map_size_empty. done.
Qed.

Lemma finish_all c gs rs :
  sys_inv (MkDomainSystem c gs rs) -> all_stopped c ->
  exists c' rs', rtc domain_step (MkDomainSystem c gs rs) (MkDomainSystem c' [] rs') /\ all_stopped c'.
Proof.
  revert c rs; induction gs as [|g gs IH]; intros c rs Hs Hst.
  - exists c, rs. split; [constructor|done].
  - destruct (finish_issued c g gs rs MailboxModel.Uncertain Hs) as [(_ & c1 & t & Hf & Hs1 & Hst1)|[? _]]; [|done].
    destruct (IH _ _ Hs1 (Hst1 Hst)) as (c2 & rs2 & Hrun & Hst2). exists c2, rs2. split; [|done].
    eapply rtc_l; [|exact Hrun]. apply (step_finishes c [] g gs rs _ _ _ Hf).
Qed.
Lemma release_all c rs :
  sys_inv (MkDomainSystem c [] rs) -> all_stopped c ->
  exists c', rtc domain_step (MkDomainSystem c [] rs) (MkDomainSystem c' [] []) /\ all_stopped c'.
Proof.
  revert c; induction rs as [|h rs IH]; intros c Hs Hst.
  - exists c. split; [constructor|done].
  - destruct (release_issued c [] h rs Hs) as (c1 & Hf & Hs1 & Hst1).
    destruct (IH _ Hs1 (Hst1 Hst)) as (c2 & Hrun & Hst2). exists c2. split; [|done].
    eapply rtc_l; [|exact Hrun]. apply (step_releases c [] [] h rs _ _ _ Hf).
Qed.
Lemma domain_run_inv s s' : sys_inv s -> rtc domain_step s s' -> sys_inv s'.
Proof. intros Hs Hrun. induction Hrun; eauto using domain_step_inv. Qed.

(** ** Properties *)

(** C7: In every reachable state of a loop domain a dispatch refuses a reading
    of another clock without any change, or it starts a callback, or it is
    idle, or one of its 64-bit counters is used up; it never reports an
    inconsistent state and never panics.  A started grant carries the oldest
    message of its mailbox that has not expired, and a permit no other handle
    holds. *)
Theorem dispatch_starts_oldest_live s r c' res :
  domain_reachable s -> try_dispatch r (sys_core s) = (c', res) ->
  (~ in_domain_clock (sys_core s) r /\ c' = sys_core s /\
    (res = Err ClockDomainMismatch \/ res = Err ClockGenerationMismatch)) \/
  (exists reason terminals, res = Ok (MkLoopDomainDispatchReport (DomainIdle reason) terminals)) \/
  (exists g terminals e item q,
    res = Ok (MkLoopDomainDispatchReport (DomainStarted g) terminals) /\
    ldc_mailboxes (sys_core s) !! execution_mailbox (lg_execution g) = Some e /\
    dm_execution e = lg_execution g /\
    live r (mb_queue (dm_mailbox e)) = item :: q /\ token_message (lg_inflight g) = queued_message item /\
    permit_held c' (lg_permit g) /\ grant_permit_id g ∉ permit_ids s) \/
  (exists err, res = Err err /\ dispatch_exhausted err).
Proof.
  intros Hs%domain_reachable_inv H. pose proof (sys_core_inv _ Hs) as Hi.
  destruct (try_dispatch_cases _ r Hi) as [(Hn & e & He & Hd)|[_ Hd]].
  { left. rewrite Hd in H. injection H as <- <-. destruct He; subst; auto. }
  right. rewrite H in Hd. inversion Hd as [? reason terminals _|? g terminals Hst|? e _ He]; subst.
  - left. eauto.
  - right; left.
    destruct Hst as [_ _ _ (e & e' & item & q & He & _ & Hx & _ & Hl & Hm & _) (_ & Ha & _) (Hf & Hid & Hact)].
    exists g, terminals, e, item, q. split_and!; try done.
    + split; [done|]. split; [done|]. by rewrite Hact, lookup_insert_eq.
    + intros [Hin|Hin]%elem_of_app; apply elem_of_map in Hin as (x & Heq & Hin); unfold grant_permit_id in Heq.
      * destruct (sys_grants_ok s Hs x Hin) as (_ & (_ & _ & Hp) & _). unfold grant_permit_id in Heq.
        rewrite <-Heq in Hp. congruence.
      * destruct (sys_releases_ok s Hs x Hin) as (_ & _ & _ & Hp). unfold release_permit_id in Heq.
        rewrite <-Heq in Hp. congruence.
  - right; right. eauto.
Qed.

(** C8: Callbacks are bounded.  In every reachable state the permits in use are
    the grants and the releases the holder has, and are at most the planned
    [max_outstanding]; the messages in flight of each mailbox are exactly its
    grants, and are at most its own limit. *)
Theorem callbacks_stay_within_permits s :
  domain_reachable s ->
  (exists snap, ledger_snapshot (ldc_permits (sys_core s)) = Ok snap /\
    in_use (E := LoopDomainError) snap = Ok (len (sys_grants s) + len (sys_releases s))%N) /\
  (len (sys_grants s) + len (sys_releases s) <= max_outstanding (ldc_spec (sys_core s)))%N /\
  (forall ref e, ldc_mailboxes (sys_core s) !! ref = Some e ->
    inflight_len (dm_mailbox e) =
      len (base.filter (fun g => execution_mailbox (lg_execution g) = ref) (sys_grants s)) /\
    (inflight_len (dm_mailbox e) <= limit_max_inflight (mb_limits (dm_mailbox e)))%N).
Proof.
  intros Hs%domain_reachable_inv. pose proof (sys_core_inv _ Hs) as Hi. pose proof (held_count s Hs) as Hc.
  destruct (ledger_usage (E := LoopDomainError) _ (core_ledger _ Hi)) as (snap & Hsn & _ & Hu & Hle).
  pose proof (core_ledger_config _ Hi) as Hcfg. injection Hcfg as _ Htot. unfold len in *.
  split; [|split].
  - exists snap. split; [done|]. rewrite Hu. f_equal. lia.
  - lia.
  - intros ref e He. split; [|apply (core_entries _ Hi _ _ He)].
    by rewrite (flight_count s ref e Hs He).
Qed.

(** C27: No handle is ever stuck.  In every reachable state each grant can be
    finished with any in-flight completion, which yields a release of the same
    permit, and each release gives its permit back. *)
Theorem issued_handles_settle s :
  domain_reachable s ->
  (forall g reason, g ∈ sys_grants s -> is_inflight_completion reason = true ->
    exists c' h, domain_finish g reason (sys_core s) = (c', Ok h) /\ lr_permit h = lg_permit g) /\
  (forall h, h ∈ sys_releases s ->
    exists c' h', domain_release (sys_core s, h) = ((c', h'), Ok tt) /\ token_active (lr_permit h') = false /\
      ledger_active (ldc_permits c') !! release_permit_id h = None).
Proof.
  intros Hs%domain_reachable_inv. pose proof (sys_core_inv _ Hs) as Hi. split.
  - intros g reason Hin Hc. destruct (sys_grants_ok s Hs g Hin) as (Hm & _ & e & He & Ht).
    destruct (domain_finish_run _ g reason e Hi Hm He Ht Hc) as (mb' & t & Hrun & _). eexists _, _.
    split; [exact Hrun|done].
  - intros h Hin. destruct (sys_releases_ok s Hs h Hin) as (Hm & Ha & Hp).
    destruct (domain_release_run _ h Hi Hm Ha Hp) as (c' & Hrun & _ & _ & _ & Hdel & _). eexists _, _.
    split; [exact Hrun|]. split; [by destruct h|]. rewrite Hdel. apply lookup_delete_eq.
Qed.

(** C15: A loop domain can always be shut down: from every reachable state,
    stopping admission, finishing the grants, releasing the permits and
    cancelling what is queued reaches a state without handles whose snapshot
    reports a zero cleanup. *)
Theorem shutdown_reaches_zero_cleanup s :
  domain_reachable s ->
  exists c snap, rtc domain_step s (MkDomainSystem c [] []) /\
    domain_snapshot c = Ok snap /\ is_zero_cleanup (E := LoopDomainError) snap = Ok true.
Proof.
  intros Hs%domain_reachable_inv. destruct s as [c gs rs].
  destruct (domain_stop_accepting_run c (sys_core_inv _ Hs)) as (c1 & Hf1 & Hsm1 & Hst1 & _).
  pose proof (sys_inv_same _ _ _ _ Hsm1 Hs) as Hs1.
  destruct (finish_all c1 gs rs Hs1 Hst1) as (c2 & rs2 & Hr2 & Hst2).
  pose proof (domain_run_inv _ _ Hs1 Hr2) as Hs2.
  destruct (release_all c2 rs2 Hs2 Hst2) as (c3 & Hr3 & Hst3).
  pose proof (domain_run_inv _ _ Hs2 Hr3) as Hs3.
  destruct (domain_cancel_run c3 (sys_core_inv _ Hs3) Hst3) as (c4 & records & Hf4 & Hsm4 & Hcl4).
  pose proof (sys_inv_same _ _ _ _ Hsm4 Hs3) as Hs4. pose proof (sys_core_inv _ Hs4) as Hi4. simpl in Hi4.
  destruct (quiet_snapshot c4 Hi4) as (snap & Hsn & Hz).
  - intros ref e He. pose proof (nothing_in_flight _ _ _ _ Hs4 He) as Hemp.
    destruct (Hcl4 ref e He) as [Hq Hc]. destruct (Hc Hemp) as [Hl Hd].
    split_and!; try done. destruct (entry_staged _ _ _ _ (core_entries _ Hi4 _ _ He)); congruence.
  - apply map_size_empty_iff. exact (held_count _ Hs4).
  - exists c4, snap. split; [|done]. eapply rtc_l; [eapply step_stops, Hf1|].
    etrans; [exact Hr2|]. etrans; [exact Hr3|]. apply rtc_once. by eapply step_cancels.
Qed.

(** ** A concrete domain *)

Module LoopDemo.
Definition id (n : N) : bytes16 := Demo.id16 n.
Definition digest : Digest32 := MkDigest32 (vreplicate 32 x00).
Definition domain_ref : DomainRef := MkDomainRef (id 60).
Definition spec : LoopDomainSpec :=
  MkLoopDomainSpec domain_ref
    (MkLoopDomainCapacity 2 1 (from_nanos 1000) (from_nanos 100))
    (MkLoopLifecycleBudgets (from_nanos 10) (from_nanos 10) (from_nanos 10)).
Definition execution : MailboxExecutionSpec :=
  MkMailboxExecutionSpec (MkBindingId (id 40)) (MkMailboxRef (id 45)) (MkInstanceRef (id 43)) domain_ref
    (MkCardSubjectSpec (MkCardDefinitionRef (id 61)) (MkCardImplementationRef (id 62)) digest digest digest)
    (MkLoopExecutionRequirements CooperativeAsync Io NoBlocking Measured (from_nanos 10))
    (MkMailboxDispatchPolicy PlannedInteractive 1 1 4 10
      (MkCallbackBudgets (from_nanos 20) (from_nanos 10) CooperativeCancel)).
Definition built : result LoopDomainError LoopDomainCore :=
  loop_domain_try_new spec [execution] [BindingDemo.target 45] (MkDomainEpoch 1)
    Demo.demo_domain Demo.demo_generation 0.
Definition core0 : LoopDomainCore :=
  match built with
  | Ok c => c
  | _ => MkLoopDomainCore spec (MkDomainEpoch 1)
           (MkLoopDomainOwnerIdentity domain_ref (MkDomainEpoch 1) (MkDomainPermitLedgerId (id 60) 1 0))
           Demo.demo_domain Demo.demo_generation ∅ ∅ DispatchDemo.demo_policy DispatchDemo.demo_permits
  end.
Lemma core0_built : domain_built core0.
Proof.
  exists spec, [execution], [BindingDemo.target 45], (MkDomainEpoch 1), Demo.demo_domain, Demo.demo_generation, 0%N.
  split; [apply Forall_singleton; done|]. split; [done|]. vm_compute. reflexivity.
Defined.

(** Two offers, the first of which expires at tick 30, and a dispatch. *)
Definition ingress : LoopDomainIngress :=
  MkLoopDomainIngress (ldc_owner core0) (MkBindingId (id 40)) (MkBindingEpoch 1).
Definition offered1 := domain_try_offer ingress (Demo.msg 11 4 30 Event) (Demo.at_tick 10) core0.
Definition offered2 := domain_try_offer ingress (Demo.msg 12 4 60 Event) (Demo.at_tick 10) (fst offered1).
Definition dispatched := try_dispatch (Demo.at_tick 30) (fst offered2).
Definition queued : DomainSystem := MkDomainSystem (fst offered2) [] [].
Definition running : DomainSystem := MkDomainSystem (fst dispatched) (started_grants (snd dispatched)) [].
Lemma queued_reachable : domain_reachable queued.
Proof.
  exists core0. split; [exact core0_built|].
  eapply rtc_l; [eapply (step_offers core0 [] [] ingress (Demo.msg 11 4 30 Event) (Demo.at_tick 10)),
    surjective_pairing|].
  eapply rtc_l; [eapply (step_offers _ [] [] ingress (Demo.msg 12 4 60 Event) (Demo.at_tick 10)),
    surjective_pairing|]. constructor.
Defined.
Lemma running_reachable : domain_reachable running.
Proof.
  exists core0. split; [exact core0_built|].
  eapply rtc_l; [eapply (step_offers core0 [] [] ingress (Demo.msg 11 4 30 Event) (Demo.at_tick 10)),
    surjective_pairing|].
  eapply rtc_l; [eapply (step_offers _ [] [] ingress (Demo.msg 12 4 60 Event) (Demo.at_tick 10)),
    surjective_pairing|].
  eapply rtc_l; [eapply (step_dispatches _ [] [] (Demo.at_tick 30)), surjective_pairing|].
  rewrite app_nil_r. constructor.
Defined.
Example dispatch_skips_expired :
  map (fun g => token_message (lg_inflight g)) (sys_grants running) = [Demo.msg 12 4 60 Event].
Proof. vm_compute. reflexivity. Qed.
End LoopDemo.
Import LoopDemo.

Lemma dispatch_starts_oldest_live_witness :
  exists e item q, ldc_mailboxes (sys_core queued) !! MkMailboxRef (id 45) = Some e /\
    live (Demo.at_tick 30) (mb_queue (dm_mailbox e)) = item :: q.
Proof.
  destruct (dispatch_starts_oldest_live queued (Demo.at_tick 30) _ _ queued_reachable (surjective_pairing _))
    as [(Hn & _)|[(reason & terminals & H)|[(g & terminals & e & item & q & H & He & _ & Hl & _)|(err & H & _)]]].
  - destruct Hn. vm_compute. split; reflexivity.
  - vm_compute in H. discriminate H.
  - exists e, item, q. split; [|exact Hl].
    assert (execution_mailbox (lg_execution g) = MkMailboxRef (id 45)) as <-; [|exact He].
    assert (lg_execution g = execution) as ->; [|reflexivity].
    assert (map lg_execution (started_grants (snd dispatched)) = [execution]) as Hx by (vm_compute; reflexivity).
    unfold dispatched in Hx. change (fst offered2) with (sys_core queued) in Hx. rewrite H in Hx.
    simpl in Hx. injection Hx. intros Heq. exact Heq.
  - vm_compute in H. discriminate H.
Defined.

Lemma callbacks_stay_within_permits_witness :
  (len (sys_grants running) + len (sys_releases running) <= max_outstanding (ldc_spec (sys_core running)))%N.
Proof. exact (proj1 (proj2 (callbacks_stay_within_permits running running_reachable))). Defined.

Lemma issued_handles_settle_witness :
  Forall (fun g => exists c' h, domain_finish g Completed (sys_core running) = (c', Ok h) /\
    lr_permit h = lg_permit g) (sys_grants running).
Proof.
  apply Forall_forall. intros g Hin.
  apply (proj1 (issued_handles_settle running running_reachable) g Completed Hin). reflexivity.
Defined.

Lemma shutdown_reaches_zero_cleanup_witness :
  exists c snap, rtc domain_step running (MkDomainSystem c [] []) /\
    domain_snapshot c = Ok snap /\ is_zero_cleanup (E := LoopDomainError) snap = Ok true.
Proof. exact (shutdown_reaches_zero_cleanup running running_reachable). Defined.
