(* ===== verification/PlanInstall.v ===== *)
(** * From an accepted plan to a running domain

    The execution contract (crates/paraegox-runtime-contracts/src/execution.rs)
    and the loop domain (crates/paraegox-runtime/src/loop_domain.rs) each check
    the plan.  What the contract accepts, the domain constructs. *)

From Stdlib Require Import Strings.String.
From S2P Require Import Prelude Bytes KernelTime KernelDigest SortKeys ApplyContracts Assignment AssignmentWire CardInstance MailboxModel MailboxInv MailboxSteps Mailbox PortBinding DispatchPermits DispatchModel DispatchInv Dispatch ExecutionPlan LoopDomain LoopDomainInv LoopDomainProps.
Open Scope rust_scope.

(** ** What the constructors of a plan's parts guarantee *)

Definition domain_wf (d : LoopDomainSpec) : Prop :=
  (1 <= max_outstanding d <= MAX_DOMAIN_OUTSTANDING /\ control_reserved d <= max_outstanding d)%N.
Definition execution_wf (e : MailboxExecutionSpec) : Prop :=
  (1 <= service_cost_tokens e <= ExecutionPlan.MAX_SERVICE_COST_TOKENS /\
   1 <= minimum_service_weight e <= ExecutionPlan.MAX_MINIMUM_SERVICE_WEIGHT /\
   1 <= max_burst e <= u16_max)%N.
#[export] Instance domain_wf_dec d : Decision (domain_wf d).
Proof. unfold domain_wf. apply _. Defined.
#[export] Instance execution_wf_dec e : Decision (execution_wf e).
Proof. unfold execution_wf. apply _. Defined.
Lemma capacity_try_new_wf total reserved window budget c domain lifecycle :
  capacity_try_new total reserved window budget = Ok c -> domain_wf (MkLoopDomainSpec domain c lifecycle).
Proof.
  unfold capacity_try_new. intros H. rust_inv. simplify_eq.
  unfold domain_wf, max_outstanding, control_reserved. cbn [spec_capacity cap_max_outstanding cap_control_reserved].
  lia.
Qed.
Lemma dispatch_policy_try_new_wf class cost weight burst arrivals budgets d i m t n s r :
  (burst <= u16_max)%N ->
  dispatch_policy_try_new class cost weight burst arrivals budgets = Ok d ->
  execution_wf (MkMailboxExecutionSpec i m t n s r d).
Proof.
  unfold dispatch_policy_try_new. intros Hb H. rust_inv. simplify_eq.
  unfold execution_wf, service_cost_tokens, minimum_service_weight, max_burst.
  cbn [execution_dispatch policy_service_cost_tokens policy_minimum_service_weight policy_max_burst]. lia.
Qed.

(** ** What an accepted plan guarantees *)

(** The records of one domain as the checks leave them. *)
Record installable_plan (bindings : list BindingAssignment) (domain : LoopDomainSpec)
    (executions : list MailboxExecutionSpec) : Prop := {
  plan_nonempty : executions <> [];
  plan_count : (len executions <= MAX_DISPATCH_SLOTS)%N;
  plan_binding_ids : NoDup (map execution_binding_id executions);
  plan_mailbox_refs : NoDup (map execution_mailbox executions);
  plan_unique_bindings : NoDup (map binding_id bindings);
  plan_shared : control_reserved domain = max_outstanding domain ->
    Forall (fun e => dispatch_class e = PlannedControl) executions;
  plan_executions : Forall (fun e =>
    execution_domain e = spec_domain domain /\ is_loop_eligible e = true /\
    has_bounded_loop_overrun_response e = true /\ execution_wf e /\
    exists b, b ∈ bindings /\ binding_id b = execution_binding_id e /\ mailbox_ref b = execution_mailbox e /\
      target_instance b = execution_target_instance e /\ assignment_wf b /\
      delivery_overflow_policy (delivery b) <> BlockUntilDeadline) executions;
}.

Lemma enumerated_Ok {E A : Type} (f : nat -> A -> result E unit) l :
  try_fold (fun _ '(index, x) => f index x) tt (enumerate l) = Ok tt ->
  forall i x, l !! i = Some x -> f i x = Ok tt.
Proof.
  intros H i x Hi.
  assert (try_fold (fun _ p => f (fst p) (snd p)) tt (enumerate l) = Ok tt) as H'.
  { rewrite <-H. apply try_fold_ext. by intros [] []. }
  apply try_fold_unit_Ok in H'. rewrite Forall_forall in H'. apply (H' (i, x)).
  apply elem_of_enumerate_from. rewrite Nat.sub_0_r. split; [lia|done].
Qed.
Lemma NoDup_map_earlier {A B : Type} (f : A -> B) l :
  (forall i x p, l !! i = Some x -> p ∈ take i l -> f p <> f x) -> NoDup (map f l).
Proof.
  intros H. apply NoDup_alt.
  assert (forall i j b, i < j -> map f l !! i = Some b -> map f l !! j = Some b -> False) as Hlt.
  { intros i j b Hij Hi Hj. apply list_lookup_fmap_Some in Hi as (x & -> & Hi).
    apply list_lookup_fmap_Some in Hj as (y & Heq & Hj). apply (H j y x Hj); [|done].
    apply list_elem_of_lookup. exists i. by rewrite lookup_take_lt. }
  intros i j b Hi Hj. destruct (Nat.lt_trichotomy i j) as [?|[?|?]]; [exfalso; eauto|done|exfalso; eauto].
Qed.

Lemma validated_records domains mailboxes :
  validate_execution_records domains mailboxes = Ok tt ->
  NoDup (map execution_binding_id mailboxes) /\ NoDup (map execution_mailbox mailboxes) /\
  Forall (fun e => is_loop_eligible e = true /\ has_bounded_loop_overrun_response e = true /\
    exists d, d ∈ domains /\ spec_domain d = execution_domain e) mailboxes /\
  Forall (fun d => (exists e, e ∈ mailboxes /\ execution_domain e = spec_domain d) /\
    validate_domain_utilization d mailboxes = Ok tt) domains.
Proof.
  unfold validate_execution_records. intros H. rust_inv.
  repeat match goal with u : unit |- _ => destruct u end.
  match goal with H : try_fold _ tt (enumerate mailboxes) = Ok tt |- _ => rename H into Hm end.
  match goal with H : try_fold _ tt domains = Ok tt |- _ => rename H into Hd end.
  pose proof (enumerated_Ok (fun index execution =>
      _ ← try_fold (fun _ previous => check_previous_execution execution previous) tt
            (take index mailboxes);
      bail OrphanDomainRef when
        negb (existsb (fun domain => bool_decide (spec_domain domain = execution_domain execution))
                domains);
      bail UnsupportedLoopExecution when negb (is_loop_eligible execution);
      fail_if (negb (has_bounded_loop_overrun_response execution)) UnsafeLoopOverrunAction) mailboxes Hm) as Hall.
  assert (forall i x, mailboxes !! i = Some x ->
    (forall p, p ∈ take i mailboxes -> execution_binding_id p <> execution_binding_id x /\
       execution_mailbox p <> execution_mailbox x) /\
    is_loop_eligible x = true /\ has_bounded_loop_overrun_response x = true /\
    exists d, d ∈ domains /\ spec_domain d = execution_domain x) as Hrec.
  { intros i x Hi. specialize (Hall i x Hi). simpl in Hall. rust_inv.
    repeat match goal with u : unit |- _ => destruct u end.
    match goal with H : try_fold _ tt (take _ _) = Ok tt |- _ => apply try_fold_unit_Ok in H;
      rewrite Forall_forall in H; rename H into Hprev end.
    split; [|split; [by destruct (is_loop_eligible x)|split; [by destruct (has_bounded_loop_overrun_response x)|]]].
    - intros p Hp. specialize (Hprev p Hp). unfold check_previous_execution in Hprev. rust_inv. done.
    - match goal with H : existsb _ domains = true |- _ => apply existsb_exists in H as (d & Hin & Hdec) end.
      exists d. split; [by apply list_elem_of_In|]. by apply bool_decide_eq_true in Hdec. }
  split_and!.
  - apply NoDup_map_earlier. intros i x p Hi Hp. by apply (Hrec i x Hi).
  - apply NoDup_map_earlier. intros i x p Hi Hp. by apply (Hrec i x Hi).
  - apply Forall_lookup. intros i x Hi. by apply (Hrec i x Hi).
  - apply try_fold_unit_Ok in Hd. eapply Forall_impl; [exact Hd|]. intros d Hok. simpl in Hok. rust_inv.
    split; [|done].
    match goal with H : existsb _ mailboxes = true |- _ => apply existsb_exists in H as (e & Hin & Hdec) end.
    exists e. split; [by apply list_elem_of_In|]. by apply bool_decide_eq_true in Hdec.
Qed.

Lemma utilization_shared d mailboxes :
  validate_domain_utilization d mailboxes = Ok tt -> control_reserved d = max_outstanding d ->
  Forall (fun e => execution_domain e = spec_domain d -> dispatch_class e = PlannedControl) mailboxes.
Proof.
  unfold validate_domain_utilization. intros H Heq.
  destruct (try_fold _ _ _) as [[total control]| |]; [|done..]. simpl in H. rust_inv.
  match goal with H : (_ =? _)%N && _ = false |- _ => rename H into Hs end.
  rewrite Heq, N.eqb_refl in Hs. simpl in Hs. apply Forall_forall. intros e Hin Hd.
  destruct (decide (dispatch_class e = PlannedControl)) as [|Hne]; [done|exfalso].
  assert (existsb (fun execution => bool_decide (execution_domain execution = spec_domain d)
    && bool_decide (dispatch_class execution <> PlannedControl)) mailboxes = true) as Hx; [|congruence].
  apply existsb_exists. exists e. split; [by apply list_elem_of_In|]. by rewrite !bool_decide_eq_true_2.
Qed.

Lemma find_binding_Some bindings i b :
  find_binding bindings i = Some b -> b ∈ bindings /\ binding_id b = i.
Proof.
  unfold find_binding. intros ([j x] & Hf & Heq)%fmap_Some. simpl in Heq. subst b.
  apply list_find_Some in Hf as (Hl & Hi & _). split; [by eapply list_elem_of_lookup_2|done].
Qed.

Section accepted.
Context (sha256 : list byte -> bytes32).

Lemma accepted_installable bindings execution plan domain :
  target_plan_try_new sha256 bindings execution = Ok plan -> plan_domains execution = [domain] ->
  Forall assignment_wf (assignments bindings) -> Forall execution_wf (plan_mailboxes execution) ->
  installable_plan (assignments bindings) domain (plan_mailboxes execution).
Proof.
  intros H Hdom Hbwf Hewf. unfold target_plan_try_new in H. rust_inv.
  repeat match goal with u : unit |- _ => destruct u end.
  match goal with H : target_assignments_validate _ _ = Ok _ |- _ =>
    apply target_assignments_validate_Ok, target_assignments_try_new_Ok in H as (_ & Huniq & _) end.
  match goal with H : execution_plan_validate _ _ = Ok _ |- _ => unfold execution_plan_validate in H end.
  match goal with H : validate_target_plan_references _ _ = Ok _ |- _ =>
    unfold validate_target_plan_references in H end.
  rust_inv. repeat match goal with u : unit |- _ => destruct u end.
  match goal with H : execution_plan_try_new _ _ _ = Ok _ |- _ => unfold execution_plan_try_new in H end.
  rust_inv. simplify_eq. simpl in *. same_inv.
  repeat match goal with u : unit |- _ => destruct u end.
  match goal with H : sort_by_key domain_key _ = _ |- _ => rewrite H in *; clear H end.
  match goal with H : sort_by_key execution_key _ = _ |- _ => rewrite H in *; clear H end.
  match goal with H : validate_execution_records _ _ = Ok _ |- _ =>
    apply validated_records in H as (Hb & Hm & Hel & Hdoms) end.
  rewrite Hdom in *. apply Forall_singleton in Hdoms as [_ Hutil].
  match goal with H : try_fold (fun _ mailbox => check_reference _ mailbox) _ _ = Ok _ |- _ =>
    apply try_fold_unit_Ok in H; rename H into Hrefs end.
  match goal with H : existsb _ (assignments bindings) = false |- _ => rename H into Hblock end.
  assert (forall e, e ∈ plan_mailboxes execution -> execution_domain e = spec_domain domain) as Hone.
  { intros e Hin. rewrite Forall_forall in Hel. destruct (Hel e Hin) as (_ & _ & d & Hd & Heq).
    apply list_elem_of_singleton in Hd. congruence. }
  constructor; try done.
  - apply Huniq.
  - intros Heq. pose proof (utilization_shared _ _ Hutil Heq) as Hs. rewrite Forall_forall in Hs |- *.
    intros e Hin. apply Hs; [done|]. by apply Hone.
  - rewrite Forall_forall in Hbwf. rewrite Forall_forall in Hel, Hrefs, Hewf |- *. intros e Hin.
    destruct (Hel e Hin) as (Hx & Ho & _). specialize (Hrefs e Hin). unfold check_reference in Hrefs.
    rust_inv. same_inv.
    match goal with H : find_binding _ _ = Some ?b |- _ => apply find_binding_Some in H as [Hbin Hbid]; rename b into binding end.
    split_and!; auto. exists binding. split_and!; auto. intros Hpol.
    assert (existsb (fun binding => bool_decide (delivery_overflow_policy (delivery binding) = BlockUntilDeadline)
      || bool_decide (overflow_policy (binding_mailbox_spec binding) = BlockUntilDeadline))
      (assignments bindings) = true) as Htrue; [|congruence].
    apply existsb_exists. exists binding. split; [by apply list_elem_of_In|]. by rewrite bool_decide_eq_true_2.
Qed.
End accepted.

(** ** The domain constructs it *)

(** The mailbox of an execution just after construction: made for the target
    port of the assignment, accepting and empty, with the assignment as the
    active route of its binding under the first epoch. *)
Record fresh_entry (cd : ClockDomainRef) (cg : ClockGeneration) (execution : MailboxExecutionSpec)
    (b : BindingAssignment) (entry : DomainMailbox) : Prop := {
  fresh_execution : dm_execution entry = execution;
  fresh_assignment : dm_assignment entry = b;
  fresh_mailbox : mailbox_try_new (execution_mailbox execution) (port_schema (target_spec b))
    (port_interaction (target_spec b)) (binding_mailbox_spec b) cd cg = Ok (dm_mailbox entry);
  fresh_accepting : mb_lifecycle (dm_mailbox entry) = Accepting;
  fresh_queue : mb_queue (dm_mailbox entry) = [];
  fresh_inflight : mb_inflight (dm_mailbox entry) = ∅;
  fresh_binding : dm_binding entry = MkPortBinding (execution_binding_id execution) 1 None
    (Some (MkBindingRoute b (MkBindingEpoch 1))) None;
  fresh_active : dm_active_epoch entry = Some (MkBindingEpoch 1);
  fresh_draining : dm_draining_epoch entry = None;
}.

Lemma install_entry_Ok execution b cd cg :
  assignment_wf b -> delivery_overflow_policy (delivery b) <> BlockUntilDeadline ->
  mailbox_ref b = execution_mailbox execution -> binding_id b = execution_binding_id execution ->
  exists e, install_entry execution b cd cg = Ok e /\ fresh_entry cd cg execution b e.
Proof.
  intros (Hout & Hin & Hsch & Hint & Hpol & Hage & Hpay & Hret & Hev & _ & _ & (Hci & Hcb & _ & Hmi & Hmr)) Hnb Href Hbid.
  assert (validate_fixture_assignment b = Ok tt) as Hfix.
  { apply validate_fixture_assignment_Ok. split_and!; try done. intros He. specialize (Hev He).
    by destruct (delivery_overflow_policy (delivery b)). }
  unfold install_entry.
  destruct (mailbox_try_new (mailbox_ref b) (port_schema (target_spec b)) (port_interaction (target_spec b))
    (binding_mailbox_spec b) cd cg) as [mb| |] eqn:Hmb.
  2,3: exfalso; revert Hmb; unfold mailbox_try_new, try_new_with_class; simpl;
    rewrite !(proj2 (N.eqb_neq _ 0)) by lia; simpl; rewrite <-Hint, <-Hpol;
    destruct (port_interaction (source_spec b)) eqn:Hi; simpl; [done|];
    specialize (Hev eq_refl); destruct (delivery_overflow_policy (delivery b)); done.
  assert (mailbox_inv mb) as Hm by (eapply try_new_with_class_inv; [|exact Hmb]; lia).
  assert (validate_mailbox_identity b mb = Ok tt /\ mb_lifecycle mb = Accepting /\ len (mb_queue mb) = 0%N /\
    mb_queued_bytes mb = 0%N /\ inflight_len mb = 0%N /\ mb_inflight_bytes mb = 0%N /\
    mb_queue mb = [] /\ mb_inflight mb = ∅) as (Hid & Hacc & Hq & Hqb & Hf & Hfb & Hq0 & Hf0).
  { pose proof Hmb as Hmb'. unfold mailbox_try_new, try_new_with_class in Hmb'. rust_inv. simplify_eq. split; [|done].
    by apply validate_mailbox_identity_Ok. }
  assert (prepare_checks (port_binding_new (binding_id b)) b mb None = Ok (MkBindingEpoch 1, true)) as Hprep.
  { unfold prepare_checks. rewrite Hfix. simpl. rewrite bool_decide_ne_refl. simpl. rewrite Hid. simpl.
    rewrite mailbox_snapshot_inv by done. simpl. rewrite Hacc, bool_decide_ne_refl. simpl.
    unfold snapshot_holds_work. simpl. by rewrite Hq, Hqb, Hf, Hfb. }
  simpl. unfold on_local. unfold prepare. rewrite run_read, Hprep. simpl.
  unfold activate. rewrite run_read. unfold activate_checks. simpl. rewrite Hid. simpl.
  rewrite mailbox_snapshot_inv by done. simpl. rewrite Hacc, bool_decide_ne_refl. simpl.
  unfold snapshot_holds_work. simpl. rewrite Hq, Hqb, Hf, Hfb. simpl.
  rewrite !bool_decide_ne_refl. simpl. eexists. split; [done|]. rewrite Href in Hmb.
  constructor; simpl; try done. by rewrite Hbid.
Qed.

Lemma head_filter_unique bindings b :
  NoDup (map binding_id bindings) -> b ∈ bindings ->
  base.filter (fun x => binding_id x = binding_id b) bindings = [b].
Proof.
  induction bindings as [|x l IH]; simpl; [by intros _ ?%elem_of_nil|].
  intros [Hx Hn]%NoDup_cons [->|Hin]%elem_of_cons; rewrite filter_cons.
  - rewrite decide_True by done. f_equal.
    destruct (base.filter (fun y => binding_id y = binding_id x) l) as [|y l'] eqn:Hf; [done|exfalso].
    assert (y ∈ base.filter (fun y => binding_id y = binding_id x) l) as Hy by (rewrite Hf; left).
    apply list_elem_of_filter in Hy as [Heq Hy]. apply Hx. rewrite <-Heq. apply elem_of_map. eauto.
  - rewrite decide_False; [by apply IH|]. intros Heq. apply Hx. rewrite Heq. apply elem_of_map. eauto.
Qed.

(** The dispatcher's slot of an execution. *)
Definition planned_slot (e : MailboxExecutionSpec) : DispatchSlotSpec :=
  MkDispatchSlotSpec (execution_mailbox e) (map_dispatch_class (dispatch_class e)) (service_cost_tokens e)
    (minimum_service_weight e) (max_burst e).

(** Every execution of [l] has its mailbox, and its binding leads there. *)
Definition installed (bindings : list BindingAssignment) (cd : ClockDomainRef) (cg : ClockGeneration)
    (l : list MailboxExecutionSpec) (mailboxes : gmap MailboxRef DomainMailbox)
    (index : gmap BindingId MailboxRef) : Prop :=
  forall e, e ∈ l -> exists b entry,
    b ∈ bindings /\ binding_id b = execution_binding_id e /\
    mailboxes !! execution_mailbox e = Some entry /\ fresh_entry cd cg e b entry /\
    index !! execution_binding_id e = Some (execution_mailbox e).

(** The construction loop after the executions [l]. *)
Record built_from (bindings : list BindingAssignment) (cd : ClockDomainRef) (cg : ClockGeneration)
    (l : list MailboxExecutionSpec) (b : DomainBuild) : Prop := {
  from_installed : installed bindings cd cg l (build_mailboxes b) (build_binding_index b);
  from_bindings : forall i, i ∈ build_execution_bindings b -> i ∈ map execution_binding_id l;
  from_mailboxes : forall m, m ∈ build_execution_mailboxes b -> m ∈ map execution_mailbox l;
  from_index : forall i, is_Some (build_binding_index b !! i) -> i ∈ map execution_binding_id l;
  from_entries : forall m, is_Some (build_mailboxes b !! m) -> m ∈ map execution_mailbox l;
  from_slots : build_slot_specs b = map planned_slot l;
  from_quantum : forall c, (class_get (build_class_quantum b) c <= 1000000 * len l)%N;
  from_burst : forall c, (class_get (build_class_burst b) c <= u16_max * len l)%N;
}.
Lemma built_from_empty bindings cd cg : built_from bindings cd cg [] build_empty.
Proof.
  constructor; simpl; [by intros e ?%not_elem_of_nil|..]; try set_solver; try (by intros []).
  - intros i. rewrite lookup_empty. by intros [].
  - intros i. rewrite lookup_empty. by intros [].
Qed.

Definition plan_execution_ok (bindings : list BindingAssignment) (e : MailboxExecutionSpec) : Prop :=
  execution_wf e /\
  exists b, b ∈ bindings /\ binding_id b = execution_binding_id e /\ mailbox_ref b = execution_mailbox e /\
    target_instance b = execution_target_instance e /\ assignment_wf b /\
    delivery_overflow_policy (delivery b) <> BlockUntilDeadline.

Lemma build_execution_Ok bindings cd cg l b e :
  NoDup (map binding_id bindings) -> plan_execution_ok bindings e -> built_from bindings cd cg l b ->
  execution_binding_id e ∉ map execution_binding_id l -> execution_mailbox e ∉ map execution_mailbox l ->
  (len l < MAX_DISPATCH_SLOTS)%N ->
  exists b', build_execution bindings cd cg b e = Ok b' /\ built_from bindings cd cg (l ++ [e]) b'.
Proof.
  intros Hu ((Hcost & Hweight & Hburst) & a & Hin & Hid & Hmb & Htgt & Hwf & Hnb) [Hold Hb Hm Hx He Hs Hq Hbu] Hnew1 Hnew2 Hlen.
  set (class := map_dispatch_class (dispatch_class e)).
  assert (forall c, (class_get (build_class_quantum b) c + minimum_service_weight e <= 1000000 * (len l + 1))%N) as Hq'.
  { intros c. specialize (Hq c). unfold ExecutionPlan.MAX_MINIMUM_SERVICE_WEIGHT in Hweight. lia. }
  assert (forall c, (class_get (build_class_burst b) c + max_burst e <= u16_max * (len l + 1))%N) as Hb'.
  { intros c. specialize (Hbu c). lia. }
  destruct (install_entry_Ok e a cd cg Hwf Hnb Hmb Hid) as (entry & Hentry & Hfresh).
  assert (overflow_policy (binding_mailbox_spec a) <> BlockUntilDeadline) as Hnb2.
  { destruct Hwf as (_ & _ & _ & _ & <- & _). done. }
  eexists. split.
  { unfold build_execution.
    rewrite (bool_decide_eq_false_2 (execution_binding_id e ∈ build_execution_bindings b)) by eauto.
    rewrite (bool_decide_eq_false_2 (execution_mailbox e ∈ build_execution_mailboxes b)) by eauto.
    cbn [fail_if mbind result_mbind].
    rewrite <-Hid, head_filter_unique by done. cbn [head tail ok_or mbind result_mbind].
    rewrite (bool_decide_eq_true_2 ([] = [])) by done. cbn [negb fail_if mbind result_mbind].
    unfold validate_binding. rewrite Hmb, Htgt, !bool_decide_ne_refl.
    rewrite (bool_decide_eq_false_2 (delivery_overflow_policy _ = _)), (bool_decide_eq_false_2 (overflow_policy _ = _)) by done.
    cbn [orb fail_if mbind result_mbind]. fold class.
    rewrite (checked_add_ok u32_max (class_get (build_class_quantum b) class)) by (etrans; [apply Hq'|]; trans 256000000%N; [unfold MAX_DISPATCH_SLOTS in Hlen; lia|done]).
    cbn [ok_or mbind result_mbind].
    rewrite (checked_add_ok u32_max (class_get (build_class_burst b) class)) by (etrans; [apply Hb'|]; trans (u16_max * 256)%N;
      [apply N.mul_le_mono_l; unfold MAX_DISPATCH_SLOTS in Hlen; lia|done]).
    cbn [ok_or mbind result_mbind]. unfold slot_spec_try_new.
    rewrite (proj2 (N.eqb_neq (service_cost_tokens e) 0)), (proj2 (N.eqb_neq (minimum_service_weight e) 0)),
      (proj2 (N.eqb_neq (max_burst e) 0)) by lia.
    rewrite (proj2 (N.ltb_ge DispatchModel.MAX_SERVICE_COST_TOKENS (service_cost_tokens e))),
      (proj2 (N.ltb_ge DispatchModel.MAX_MINIMUM_SERVICE_WEIGHT (minimum_service_weight e))) by apply Hcost || apply Hweight.
    cbn [orb fail_if map_err mbind result_mbind]. rewrite Hentry. cbn [mbind result_mbind].
    rewrite (bool_decide_eq_false_2 (is_Some (build_binding_index b !! _))) by (rewrite Hid; eauto).
    rewrite (bool_decide_eq_false_2 (is_Some (build_mailboxes b !! _))) by eauto.
    cbn [fail_if mbind result_mbind]. done. }
  constructor; cbn [build_execution_bindings build_execution_mailboxes build_binding_index build_mailboxes
    build_slot_specs build_class_quantum build_class_burst].
  - intros e' [He'|He']%elem_of_app; [|apply list_elem_of_singleton in He' as ->].
    + destruct (Hold e' He') as (b' & entry' & ? & ? & Hl & Hf' & Hin'). exists b', entry'. rewrite Hid.
      rewrite !lookup_insert_ne; [done|..]; intros Heq.
      * apply Hnew1. rewrite Heq. apply elem_of_map. eauto.
      * apply Hnew2. rewrite Heq. apply elem_of_map. eauto.
    + exists a, entry. rewrite Hid, !lookup_insert_eq. done.
  - intros i. rewrite map_app, elem_of_app, elem_of_union. intros [Hi|Hi]; [right|left; by apply Hb].
    simpl. set_solver.
  - intros m. rewrite map_app, elem_of_app, elem_of_union. intros [Hi|Hi]; [right|left; by apply Hm].
    simpl. set_solver.
  - intros i. rewrite map_app, elem_of_app, lookup_insert_is_Some. intros [<-|[_ Hi]]; [right|left; by apply Hx].
    simpl. rewrite Hid. left.
  - intros m. rewrite map_app, elem_of_app, lookup_insert_is_Some. intros [<-|[_ Hi]]; [right|left; by apply He].
    simpl. left.
  - rewrite map_app, Hs. done.
  - intros c. rewrite class_get_put, len_app. change (len [e]) with 1%N. case_decide as Hc.
    + apply Hq'.
    + etrans; [apply Hq|lia].
  - intros c. rewrite class_get_put, len_app. change (len [e]) with 1%N. case_decide as Hc.
    + apply Hb'.
    + etrans; [apply Hbu|]. apply N.mul_le_mono_l. lia.
Qed.

Lemma build_all_Ok bindings cd cg done_ l b :
  NoDup (map binding_id bindings) -> Forall (plan_execution_ok bindings) l -> built_from bindings cd cg done_ b ->
  NoDup (map execution_binding_id (done_ ++ l)) -> NoDup (map execution_mailbox (done_ ++ l)) ->
  (len (done_ ++ l) <= MAX_DISPATCH_SLOTS)%N ->
  exists b', try_fold (build_execution bindings cd cg) b l = Ok b' /\ built_from bindings cd cg (done_ ++ l) b'.
Proof.
  intros Hu. revert done_ b; induction l as [|e l IH]; intros done_ b Hall Hb Hn1 Hn2 Hlen.
  { rewrite app_nil_r. eauto. }
  apply Forall_cons in Hall as [He Hall].
  destruct (build_execution_Ok bindings cd cg done_ b e Hu He Hb) as (b1 & Hrun & Hb1).
  - rewrite map_app in Hn1. apply NoDup_app in Hn1 as (_ & Hd & _). intros Hin. apply (Hd _ Hin). left.
  - rewrite map_app in Hn2. apply NoDup_app in Hn2 as (_ & Hd & _). intros Hin. apply (Hd _ Hin). left.
  - rewrite len_app, len_cons in Hlen. lia.
  - simpl. rewrite Hrun. simpl. replace (done_ ++ e :: l) with ((done_ ++ [e]) ++ l) in * by by rewrite <-app_assoc.
    by apply IH.
Qed.

Lemma repeats_NoDup l : NoDup l -> repeats l = false.
Proof.
  induction l as [|x [|y l] IH]; intros Hn; [done..|]. apply NoDup_cons in Hn as [Hx Hn].
  change (bool_decide (x = y) || repeats (y :: l) = false). rewrite IH by done.
  rewrite bool_decide_eq_false_2; [done|]. intros ->. apply Hx. left.
Qed.
Lemma policy_try_new_Ok classes specs :
  specs <> [] -> (len specs <= MAX_DISPATCH_SLOTS)%N -> NoDup (map spec_mailbox specs) ->
  exists p, policy_try_new classes specs = Ok p.
Proof.
  intros Hne Hlen Hn. unfold policy_try_new. rewrite bool_decide_eq_false_2 by done.
  rewrite (proj2 (N.ltb_ge _ _)) by done. rewrite repeats_NoDup by by rewrite merge_sort_Permutation.
  cbn [fail_if mbind result_mbind].
  erewrite try_fold_ext, (try_fold_push (fun '(i, spec) =>
    i' ← ok_or (try_from u16_max (N.of_nat i)) TooManySlots;
    Ok (MkDispatchSlot (spec_mailbox spec) (spec_class spec) (spec_cost spec) (spec_weight spec) 0
      (spec_max_burst spec) i')) (fun '(i, spec) => slot_of i spec)).
  - by eexists.
  - intros [i spec] [_ Hi]%elem_of_enumerate_from. rewrite Nat.sub_0_r in Hi.
    apply lookup_lt_Some in Hi. rewrite try_from_ok; [done|].
    unfold len, MAX_DISPATCH_SLOTS, u16_max in *. lia.
  - intros b [i spec]. by destruct (ok_or _ _).
Qed.
Lemma class_policy_of_Ok bindings cd cg l b class :
  built_from bindings cd cg l b -> (len l <= MAX_DISPATCH_SLOTS)%N -> exists p, class_policy_of b class = Ok p.
Proof.
  intros [_ _ _ _ _ _ Hq Hb] Hl. specialize (Hq class). specialize (Hb class).
  assert (class_get (build_class_quantum b) class <= MAX_CLASS_QUANTUM)%N as Hq'.
  { etrans; [exact Hq|]. unfold MAX_CLASS_QUANTUM. by apply N.mul_le_mono_l. }
  assert (class_get (build_class_burst b) class <= MAX_CLASS_BURST)%N as Hb'.
  { etrans; [exact Hb|]. unfold MAX_CLASS_BURST. by apply N.mul_le_mono_l. }
  assert (1 <= MAX_CLASS_QUANTUM /\ 1 <= MAX_CLASS_BURST)%N as [H1 H2] by done.
  unfold class_policy_of, class_policy_try_new. revert H1 H2 Hq' Hb'.
  generalize MAX_CLASS_QUANTUM, MAX_CLASS_BURST, (class_get (build_class_quantum b) class),
    (class_get (build_class_burst b) class). intros mq mb q u H1 H2 Hq' Hb'.
  rewrite (proj2 (N.eqb_neq (N.max q 1) 0)), (proj2 (N.eqb_neq (N.max u 1) 0)) by lia.
  rewrite (proj2 (N.ltb_ge mq _)), (proj2 (N.ltb_ge mb _)) by lia. by eexists.
Qed.

Lemma validate_execution_Ok domain e :
  execution_domain e = spec_domain domain -> is_loop_eligible e = true ->
  has_bounded_loop_overrun_response e = true -> validate_execution domain e = Ok tt.
Proof.
  intros Hd He Ho. unfold validate_execution. rewrite Hd, bool_decide_ne_refl.
  unfold is_loop_eligible, requirements_loop_eligible in He. unfold has_bounded_loop_overrun_response in Ho.
  destruct (execution_requirements e) as [cm wk br rp mn]; simpl in *.
  by destruct cm, wk, br, rp, (overrun_action e).
Qed.

(** The planned fields of a slot. *)
Definition slot_plan (s : DispatchSlot) : DispatchSlotSpec :=
  MkDispatchSlotSpec (slot_mailbox s) (slot_class s) (slot_cost s) (slot_weight s) (slot_max_burst s).

(** The domain of a plan: a fresh mailbox for each execution and no other,
    each under its active binding, which an offer can use; one dispatch slot
    per execution, with its planned class, cost, weight and burst; and the
    planned permits, all of them free. *)
Record constructed (domain : LoopDomainSpec) (executions : list MailboxExecutionSpec)
    (bindings : list BindingAssignment) (epoch : DomainEpoch) (cd : ClockDomainRef) (cg : ClockGeneration)
    (c : LoopDomainCore) : Prop := {
  constructed_installed :
    installed bindings cd cg executions (ldc_mailboxes c) (ldc_binding_index c);
  constructed_mailboxes : forall m, is_Some (ldc_mailboxes c !! m) -> m ∈ map execution_mailbox executions;
  constructed_index : forall i, is_Some (ldc_binding_index c !! i) -> i ∈ map execution_binding_id executions;
  constructed_ingress : forall e, e ∈ executions ->
    active_ingress c (execution_binding_id e) =
      Some (MkLoopDomainIngress (ldc_owner c) (execution_binding_id e) (MkBindingEpoch 1));
  constructed_slots : map slot_plan (slots (ldc_dispatch c)) = map planned_slot executions;
  constructed_permits : ledger_total (ldc_permits c) = max_outstanding domain /\
    ledger_control_reserved (ldc_permits c) = control_reserved domain /\ ledger_active (ldc_permits c) = ∅;
  constructed_spec : ldc_spec c = domain /\ ldc_domain_epoch c = epoch /\ ldc_clock_domain c = cd /\
    ldc_clock_generation c = cg;
}.

Lemma policy_slots_plan classes specs p :
  policy_try_new classes specs = Ok p -> map slot_plan (slots p) = specs.
Proof.
  intros (_ & _ & ->)%policy_try_new_slots. simpl. rewrite map_map.
  rewrite <-(enumerate_snd 0 specs) at 2. apply map_ext. by intros [? []].
Qed.

Lemma installable_constructs bindings domain executions epoch cd cg marker :
  installable_plan bindings domain executions -> domain_wf domain ->
  exists c, loop_domain_try_new domain executions bindings epoch cd cg marker = Ok c /\
    constructed domain executions bindings epoch cd cg c.
Proof.
  intros [Hne Hlen Hb Hm Hu Hshared Hall] [Hout Hres]. unfold loop_domain_try_new.
  rewrite bool_decide_eq_false_2 by done. rewrite (proj2 (N.ltb_ge _ _)) by done.
  cbn [fail_if mbind result_mbind].
  assert (try_fold (fun _ execution => validate_execution domain execution) tt executions = Ok tt) as ->.
  { apply try_fold_unit_Ok. eapply Forall_impl; [exact Hall|]. intros e (H1 & H2 & H3 & _).
    by apply validate_execution_Ok. }
  cbn [mbind result_mbind].
  assert ((control_reserved domain =? max_outstanding domain)%N
    && existsb (fun execution => bool_decide (dispatch_class execution <> PlannedControl)) executions = false) as ->.
  { destruct (N.eqb_spec (control_reserved domain) (max_outstanding domain)) as [Heq|]; [|done]. simpl.
    specialize (Hshared Heq). rewrite Forall_forall in Hshared. apply not_true_is_false.
    intros (e & Hin & Hdec)%existsb_exists. apply bool_decide_eq_true in Hdec. apply Hdec, Hshared.
    by apply list_elem_of_In. }
  cbn [fail_if mbind result_mbind].
  destruct (build_all_Ok bindings cd cg [] executions build_empty Hu) as (b & Hrun & Hbuilt);
    [|apply built_from_empty|done|done|done|].
  { eapply Forall_impl; [exact Hall|]. intros e (_ & _ & _ & H4 & H5). by split. }
  rewrite Hrun. cbn [mbind result_mbind]. simpl in Hbuilt.
  destruct (class_policy_of_Ok _ _ _ _ _ Control Hbuilt Hlen) as [p1 ->].
  destruct (class_policy_of_Ok _ _ _ _ _ Interactive Hbuilt Hlen) as [p2 ->].
  destruct (class_policy_of_Ok _ _ _ _ _ Stream Hbuilt Hlen) as [p3 ->].
  destruct (class_policy_of_Ok _ _ _ _ _ Background Hbuilt Hlen) as [p4 ->]. cbn [mbind result_mbind].
  pose proof (from_slots _ _ _ _ _ Hbuilt) as Hslots.
  assert (length (build_slot_specs b) = length executions) as Hll.
  { rewrite Hslots. by rewrite length_map. }
  destruct (policy_try_new_Ok (PerClass p1 p2 p3 p4) (build_slot_specs b)) as [p Hpol].
  - intros Hnil. rewrite Hnil in Hll. by destruct executions.
  - unfold len in *. by rewrite Hll.
  - by rewrite Hslots, map_map.
  - rewrite Hpol. cbn [map_err mbind result_mbind]. unfold ledger_try_new.
    rewrite (proj2 (N.eqb_neq (max_outstanding domain) 0)) by lia. rewrite (proj2 (N.ltb_ge _ _)) by done.
    eexists. split; [reflexivity|]. destruct Hbuilt as [Hinst _ _ Hx He _ _ _]. constructor; simpl; try done.
    + intros e Hin. destruct (Hinst e Hin) as (a & entry & _ & _ & Hl & Hf & Hi). unfold active_ingress. simpl.
      rewrite Hi. simpl. rewrite Hl. simpl. by rewrite (fresh_active _ _ _ _ _ Hf).
    + rewrite (policy_slots_plan _ _ _ Hpol). done.
Qed.

(** ** Property *)

(** C9: Whatever the execution contract accepts, the runtime constructs as
    planned: for an accepted target plan with one loop domain, the domain over
    its executions and bindings is built, whatever the epoch and the clock.
    It holds exactly the mailboxes of the executions, each made for the target
    port of its assignment, accepting and empty, with the assignment as the
    active route of its binding under the first epoch and an ingress for it;
    one dispatch slot per execution with the planned class, cost, weight and
    burst; and the planned permits, all free.  The hypotheses on the parts are
    what their constructors guarantee. *)
Theorem accepted_plan_constructs sha256 bindings execution plan domain epoch cd cg marker :
  target_plan_try_new sha256 bindings execution = Ok plan -> plan_domains execution = [domain] ->
  domain_wf domain -> Forall execution_wf (plan_mailboxes execution) ->
  Forall assignment_wf (assignments bindings) ->
  exists c, loop_domain_try_new domain (plan_mailboxes execution) (assignments bindings) epoch cd cg marker = Ok c /\
    constructed domain (plan_mailboxes execution) (assignments bindings) epoch cd cg c.
Proof.
  intros H Hd Hdw Hew Hbw. apply installable_constructs; [|done]. by eapply accepted_installable.
Qed.

(** ** A concrete plan *)

Module PlanDemo.
Definition bindings : result AssignmentContractError TargetAssignments :=
  target_assignments_try_new toy_hash [BindingDemo.target 45].
Definition execution : result ExecutionContractError TargetExecutionPlan :=
  execution_plan_try_new toy_hash [LoopDemo.spec] [LoopDemo.execution].
Definition the_bindings : TargetAssignments :=
  match bindings with
  | Ok b => b
  | _ => MkTargetAssignments [] [] (MkTargetAssignmentDigest LoopDemo.digest)
  end.
Definition the_execution : TargetExecutionPlan :=
  match execution with
  | Ok e => e
  | _ => MkTargetExecutionPlan [] [] [] (MkTargetExecutionDigest LoopDemo.digest)
  end.
Lemma accepted : exists plan, target_plan_try_new toy_hash the_bindings the_execution = Ok plan.
Proof. eexists. vm_compute. reflexivity. Defined.
End PlanDemo.

Lemma accepted_plan_constructs_witness :
  exists c, loop_domain_try_new LoopDemo.spec [LoopDemo.execution] [BindingDemo.target 45] (MkDomainEpoch 1)
    Demo.demo_domain Demo.demo_generation 0 = Ok c /\
    constructed LoopDemo.spec [LoopDemo.execution] [BindingDemo.target 45] (MkDomainEpoch 1)
      Demo.demo_domain Demo.demo_generation c.
Proof.
  destruct PlanDemo.accepted as [plan Hplan].
  apply (accepted_plan_constructs toy_hash PlanDemo.the_bindings PlanDemo.the_execution plan LoopDemo.spec
    (MkDomainEpoch 1) Demo.demo_domain Demo.demo_generation 0 Hplan).
  - vm_compute. reflexivity.
  - decide_now.
  - decide_now.
  - decide_now.
Defined.
